(* ===== verification/_CoqProject ===== *)
-Q . S2P
Prelude.v
Text.v
OdrMem.v
BerTag.v
BerLen.v
OdrTag.v
BerPrim.v
OdrCodec.v
BerOid.v
OdrPrim.v
OdrOct.v
OdrCons.v
OdrSeq.v
OdrStream.v
OdrTagged.v
BerAny.v
OdrBit.v
OdrChoice.v
OidUtil.v
MatchStr.v
OidDb.v
Iconv.v
Utf8.v
Ucs4.v
Base64.v
Atoi.v
Wrbuf.v
Rpn.v
Pqf.v
PqfSafe.v
PqfText.v
PqfRound.v
Ccl.v
CclToken.v
CclFind.v
CclTree.v
CclPqf.v
CclText.v
CclSafe.v
WrbufIconv.v
Json.v
JsonText.v
JsonSafe.v
Uri.v
Comstack.v
HttpFraming.v
Http.v
HttpRound.v
HttpChunks.v
Marc.v
MarcIso.v
MarcSafe.v
MarcOut.v
MarcText.v
Store.v
Requestq.v
RequestqSpec.v
ZoomOpt.v
ZoomOptSafe.v
ZoomOptGet.v
Nmem.v
NmemSpec.v
NmemSplit.v
Tokenizer.v
Cql.v
CqlTransform.v
CqlSink.v
CqlPqf.v
CqlProfile.v
