(* ===== verification/Prelude.v ===== *)
(** * A verification development for the YAZ toolkit

    YAZ is a C library for Z39.50 and SRU.  Its lower half turns values into
    octets and back: BER elements, character sets, JSON, MARC records, URIs,
    HTTP messages.  This development models that half, function by function,
    and proves what makes it correct.

    ** The program and the files that model it

    _ASN.1 over BER (ODR)._  One function per type encodes, decodes or prints
    depending on the direction of the handle it is given.
    - OdrMem: the handle ([ODR] with its private part, odr-priv.h, odr.c) and its
      output buffer (odr_mem.c).  Every codec runs in the monad [M ODR] below.
    - BerTag, BerLen, BerPrim, BerOid: identifier, length and contents octets
      (ber_tag.c, ber_len.c, ber_int.c, ber_bool.c, ber_null.c, ber_oid.c).
    - OdrTag: implicit tags and look-ahead ([ber_tag], [odr_constructed_more]).
    - OdrCodec: the class [OdrCodec], what a codec promises to its clients: the
      octets it appends under the tag in force are octets from which it
      rebuilds the value, whatever follows them.
    - OdrPrim, OdrOct, OdrBit: the codecs of simple types (odr_int.c, odr_oid.c,
      ber_oct.c, odr_oct.c, ber_bit.c, odr_bit.c ...), instances of the class.
    - OdrCons, OdrSeq, OdrTagged, OdrChoice: constructed values, SEQUENCE and
      SEQUENCE OF, tagged types, CHOICE and EXTERNAL (odr_cons.c, odr_seq.c,
      odr_choice.c, odr_use.c); proved against the class, they are instances
      again, so that the round trips hold at any nesting of types.
    - OdrStream: whole messages, from [odr_createmem] to [odr_getbuf],
      [odr_setbuf] and the decoding handle.
    - BerAny: [completeBER], which cuts a stream into elements, and ANY.
    - OidUtil: object identifiers as arrays and as text (oid_util.c).

    _Character sets._  Iconv has the conversion engine (siconv.c) over an
    interface of decoders and encoders, with the laws a character set promises;
    Utf8 (utf8.c) and Ucs4 (ucs4.c) are its instances.

    _Text._  Text has the C strings, MatchStr the comparisons (matchstr.c), Atoi
    the numbers (atoin.c), Base64 base64.c, Uri uri.c.  Wrbuf is the growing
    buffer of wrbuf.c with its escapers; WrbufIconv writes into it through a
    conversion.  Json is json.c; JsonText says what the text of a value is and
    has the round trip, JsonSafe the safety of the parser.

    _Messages on a connection._  Comstack has the functions of comstack.c that
    tell the transports whether a message has arrived completely, for BER
    (with BerAny) and HTTP; HttpFraming says what an HTTP message is and that
    its end is found.  Http has the messages themselves (http.c) and the codec
    that tells them from Z39.50 packages (zgdu.c); HttpRound has the round trips
    of requests and responses, HttpChunks contents that come in chunks.

    _MARC records._  Marc has the handle of marcdisp.c, its nodes, the reader of
    ISO 2709 (marc_read_iso2709.c) and the writers of that format, of lines and
    of checks; they write into a WRBUF through the conversion of the handle.
    MarcIso has the round trip and MarcSafe the safety of the reader.
    MarcOut has the writers of JSON and XML and the functions that choose one;
    MarcText says what they write.

    _Queries._  OidDb is the database of object identifiers (oid_db.c).  Rpn has
    the types of Z39.50 queries (z3950v3.asn) and the functions that write them in
    prefix notation (querytowrbuf.c); Pqf is the parser of that notation
    (pquery.c).  PqfSafe has its safety on any text; PqfText says what the text of
    a query is, and PqfRound has the round trip.  Ccl has the profiles and trees
    of the Common Command Language (cclqual.c, cclstr.c, cclerrms.c), CclToken its
    tokens (ccltoken.c), CclFind the parser (cclfind.c), CclTree the text of a
    tree in PQF and the removal of stop words (cclptree.c, ccl_stop_words.c).
    CclText says which tree a text stands for, CclSafe what the parser does with
    any text, CclPqf what the PQF parser makes of a tree.  Tokenizer has the tokens
    of configuration files (tokenizer.c), Cql the trees of CQL queries (cqlutil.c,
    proxunit.c) and CqlTransform the profiles and the translation to PQF
    (cqltransform.c).  CqlSink is the interface of what the translation writes to,
    CqlPqf says which query a tree stands for and that it is what is written, and
    CqlProfile what the text of a profile entry gives.

    _Shared objects._  Store has what linked structures need: an interface of
    allocators, whose addresses the theorems do not depend on, and linked
    segments.  Requestq is the pair of request queues of a server session
    (requestq.c, session.h, and the functions of seshigh.c that use them);
    RequestqSpec specifies them by lists.  ZoomOpt is the option sets of the
    client API (zoom-opt.c), which inherit from each other and are counted;
    ZoomOptSafe has their lifetimes, ZoomOptGet what lookup gives.  Nmem is the
    memory pools (nmem.c, nmemsdup.c) with their blocks in a store; NmemSpec
    specifies them by buffers that do not overlap, NmemSplit has the splitting of
    strings into them.

    ** How the code is modelled

    Integers are [Z], with the conversions of C written out ([u8], [s16], [u32],
    ...) wherever the code can leave the range of a type.  Plain [char] is signed
    and [long] has 64 bits.  Memory that a pointer points to is the list of its
    octets from the pointer on; a C string carries its terminator.

    [M S A] is [S -> option (A * S)]: a state monad whose [None] is undefined
    behaviour or a call that never returns (a read or write outside the memory
    that is there, a signed overflow, an abort).  A function whose result is
    [Some] for all inputs is therefore safe and terminates; the theorems called
    safety below are of this form.  Errors that the code reports are values:
    the error of the handle, a negative return, an error message.

    Loops are structural on the data they consume where they are; the others
    carry fuel.  The fuel is the length of the buffer that the loop runs
    through, plus a constant, chosen where the function is called, and running
    out of it is [None]; so every theorem that concludes [Some] shows that the
    fuel is enough.  The one bound on nesting is the one of the code: 1000 levels
    in [completeBER] and in the JSON parser, 2000 in the constructor stack.  The
    CCL parser goes one level deeper for a parenthesis only, so that the number of
    tokens bounds it; splitting a range makes three tokens of one, which is why its
    loops get three times that number.

    Recursion through function pointers (an element codec given to
    [odr_sequence_of]) is a function argument with an instance of [OdrCodec].
    What is not in the repository is a parameter of a section: [strtod] and the
    [%lg] of [printf] in Json with the hypothesis that the one reads back what
    the other writes, the value of fresh memory ([junk] in Wrbuf and Marc), the
    decoder and the encoder of a conversion in Marc, and the XML writer over
    libxml2 in MarcOut, the allocator in Requestq, ZoomOpt and Nmem, and the
    callbacks of a client in ZoomOpt.  The function that CqlTransform writes with is
    an argument, and what it promises is the class [Sink]: a WRBUF and a buffer of
    fixed size are its instances.

    ** What the theorems show

    - Round trips: every codec, and the composed ones (sequences of anything,
      EXTERNAL), from value to octets and back with all forms of length; object
      identifiers in dotted form; JSON; base64; URI components and query
      strings; characters and texts in UTF-8 and UCS-4; MARC records in ISO 2709;
      queries in PQF; HTTP requests and responses, contents in chunks.
    - Composition: a MARC record read from ISO 2709 and written as JSON is what the
      JSON parser reads; the records of a collection make one XML document; the
      tree of a CCL query is written as a query that the PQF parser reads as its
      translation, and so is the tree of a CQL query under a profile; the text of
      a profile entry and its attributes say the same.
    - Meaning: a CCL text is parsed to the tree that its grammar and the profile
      give it.
    - Refinements: the output stream of a handle is a file with a cursor; a
      WRBUF under any sequence of operations is a list; the request queues, with
      the structures they use again, are lists under any sequence of calls; memory
      pools are sets of buffers that keep their contents until they are freed.
    - Liveness: a request is served after those before it in the queue.
    - Lifetimes: the end of a session frees every request, with its memory and
      its response; an option set is alive exactly while a handle reaches it; when
      all pools are destroyed, no block is left.
    - Framing: of BER elements and of HTTP messages the end is found exactly
      when all of it has arrived, and later octets do not change the answer.
    - Safety and termination on arbitrary input: [completeBER],
      [cs_complete_auto], the JSON parser, the UTF-8 reader, the reader of MARC
      records, the query parsers, with the bound on what each reads and the
      errors that it reports.
    - Invariants: the constructor stack is bounded under any sequence of calls.
    - Exact behaviour: shortest integers, comparison as the order of folded
      strings, loose matching, bounded numbers, escaping through a conversion.
    - Where the code does not do what it means to, a lemma says what it does:
      lengths that are written but refused, constructed octet strings whose
      chunks are lost, the byte order mark, a dotted form of 20 arcs, a query
      string that ends in a per cent sign, subfields shorter than the leader says,
      chunks longer than their message, ordered relations in CCL, requests that
      change queues with their successors, and others.

    ** Not modelled

    Allocation and freeing, but for the shared objects: elsewhere values are built
    where the code allocates them, and no claim depends on sharing.  The transports,
    the server and the ZOOM client, which are loops over sockets; SRU, Solr, the XML
    readers and record conversion, which work on trees of libxml2; the ICU code; the
    types and tables that the build generates (the Z39.50 codecs, the MARC-8 tables,
    the CQL grammar), which are not in the repository.  Profile files of CCL, the
    translation of CQL to CCL and to XML, sort keys, and the smaller character sets
    are left out. *)

From stdpp Require Import base list numbers option strings.
From Stdlib Require Import ZArith Lia.
From Stdlib Require Ascii String.

(** ** Notation scope *)

Declare Scope yaz_scope.
Delimit Scope yaz_scope with yaz.
Global Open Scope yaz_scope.
Global Open Scope Z_scope.

(** ** Machine integers

    C integers are [Z]; a conversion to a [w]-bit type is written out. *)

Definition INT_MAX : Z := 2147483647.
Definition wrap (w z : Z) : Z := z mod 2 ^ w.
Definition swrap (w z : Z) : Z := (z + 2 ^ (w - 1)) mod 2 ^ w - 2 ^ (w - 1).

(** [unsigned char], [signed char] (what plain [char] is on the platforms
    the code is built for), [short], [int], [unsigned], 64-bit words. *)
Definition u8 : Z -> Z := wrap 8.
Definition s8 : Z -> Z := swrap 8.
Definition s16 : Z -> Z := swrap 16.
Definition u32 : Z -> Z := wrap 32.
Definition s32 : Z -> Z := swrap 32.
Definition u64 : Z -> Z := wrap 64.
Definition s64 : Z -> Z := swrap 64.

#[global] Arguments wrap : simpl never.
#[global] Arguments swrap : simpl never.

Definition byte_ok (b : Z) : Prop := 0 <= b < 256.
Definition bytes_ok (l : list Z) : Prop := Forall byte_ok l.

(** A C condition used as a value. *)
Definition b2z (b : bool) : Z := if b then 1 else 0.

Create HintDb yaz.
#[export] Hint Constants Opaque : yaz.

Lemma wrap_small w z : 0 <= z < 2 ^ w -> wrap w z = z.
Proof. apply Z.mod_small. Qed.

Lemma wrap_range w z : 0 <= w -> 0 <= wrap w z < 2 ^ w.
Proof. intros. apply Z.mod_pos_bound. lia. Qed.

Lemma swrap_small w z :
  0 < w -> - 2 ^ (w - 1) <= z < 2 ^ (w - 1) -> swrap w z = z.
Proof.
  intros Hw Hz. unfold swrap.
  assert (2 ^ w = 2 * 2 ^ (w - 1)) as Hp.
  { rewrite <- Z.pow_succ_r by lia. f_equal. lia. }
  rewrite Z.mod_small; lia.
Qed.

Lemma swrap_range w z :
  0 < w -> - 2 ^ (w - 1) <= swrap w z < 2 ^ (w - 1).
Proof.
  intros Hw. unfold swrap.
  assert (2 ^ w = 2 * 2 ^ (w - 1)) as Hp.
  { rewrite <- Z.pow_succ_r by lia. f_equal. lia. }
  pose proof (Z.mod_pos_bound (z + 2 ^ (w - 1)) (2 ^ w)). lia.
Qed.

(** Reading back an unsigned word as a signed one undoes the conversion. *)
Lemma swrap_wrap w z : 0 < w -> swrap w (wrap w z) = swrap w z.
Proof.
  intros Hw. unfold swrap, wrap.
  rewrite Zplus_mod_idemp_l. done.
Qed.

Lemma u8_small z : 0 <= z < 256 -> u8 z = z.
Proof. intros. apply wrap_small. lia. Qed.

Lemma u8_ok z : byte_ok (u8 z).
Proof. unfold byte_ok, u8. pose proof (wrap_range 8 z). lia. Qed.

Lemma s32_small z : - 2147483648 <= z < 2147483648 -> s32 z = z.
Proof. intros. apply swrap_small; lia. Qed.

#[export] Hint Resolve u8_ok : yaz.

(** ** Byte sequences in memory

    A C array is a [list]; an access outside it is undefined behaviour,
    which the definitions below make visible as [None]. *)

Section arrays.
Context {A : Type}.
Implicit Types (l xs : list A) (i n : Z).

Definition zlen l : Z := Z.of_nat (length l).

(** [l[i]] *)
Definition rd l i : option A :=
  if 0 <=? i then l !! Z.to_nat i else None.

(** [memcpy(l + i, xs, length xs)] *)
Definition splice l i xs : option (list A) :=
  if (0 <=? i) && (i + zlen xs <=? zlen l)
  then Some (take (Z.to_nat i) l ++ xs ++ drop (Z.to_nat i + length xs) l)
  else None.

(** The [n] bytes at [l + i]. *)
Definition sub l i n : option (list A) :=
  if (0 <=? i) && (0 <=? n) && (i + n <=? zlen l)
  then Some (take (Z.to_nat n) (drop (Z.to_nat i) l))
  else None.

Lemma zlen_nonneg l : 0 <= zlen l.
Proof. unfold zlen. lia. Qed.

Lemma zlen_nil : zlen (@nil A) = 0.
Proof. done. Qed.

Lemma zlen_cons x l : zlen (x :: l) = 1 + zlen l.
Proof. unfold zlen. simpl. lia. Qed.

Lemma zlen_app l1 l2 : zlen (l1 ++ l2) = zlen l1 + zlen l2.
Proof. unfold zlen. rewrite length_app. lia. Qed.

Lemma zlen_repeat (x : A) (k : nat) : zlen (repeat x k) = Z.of_nat k.
Proof. unfold zlen. by rewrite repeat_length. Qed.

Lemma zlen_pos l : l <> [] -> 1 <= zlen l.
Proof. destruct l; [done|]. rewrite zlen_cons. pose proof (zlen_nonneg l). lia. Qed.

Lemma rd_0 x l : rd (x :: l) 0 = Some x.
Proof. done. Qed.

Lemma rd_cons x l i : 0 <= i -> rd (x :: l) (i + 1) = rd l i.
Proof.
  intros Hi. unfold rd.
  rewrite (proj2 (Z.leb_le 0 (i + 1))), (proj2 (Z.leb_le 0 i)) by lia.
  replace (Z.to_nat (i + 1)) with (S (Z.to_nat i)) by lia. done.
Qed.

Lemma rd_Some l i : 0 <= i < zlen l -> exists x, rd l i = Some x.
Proof.
  unfold zlen, rd. intros Hi. rewrite (proj2 (Z.leb_le 0 i)) by lia.
  destruct (lookup_lt_is_Some_2 l (Z.to_nat i)) as [x Hx]; [lia|eauto].
Qed.

Lemma rd_lookup l i x : rd l i = Some x -> 0 <= i < zlen l /\ x ∈ l.
Proof.
  unfold zlen, rd. destruct (Z.leb_spec 0 i); [|done].
  intros Hx. pose proof (lookup_lt_Some _ _ _ Hx).
  split; [lia|]. eapply list_elem_of_lookup_2; eauto.
Qed.

(** Reading through a suffix pointer. *)
Lemma rd_drop l n i : 0 <= n -> 0 <= i -> rd (drop (Z.to_nat n) l) i = rd l (n + i).
Proof.
  intros. unfold rd.
  rewrite (proj2 (Z.leb_le 0 i)), (proj2 (Z.leb_le 0 (n + i))) by lia.
  rewrite lookup_drop. f_equal. lia.
Qed.

Lemma rd_app_l l1 l2 i : i < zlen l1 -> rd (l1 ++ l2) i = rd l1 i.
Proof.
  unfold rd, zlen. intros. destruct (Z.leb_spec 0 i); [|done].
  apply lookup_app_l. lia.
Qed.

Lemma rd_app_r l1 l2 i : 0 <= i -> rd (l1 ++ l2) (zlen l1 + i) = rd l2 i.
Proof.
  unfold rd, zlen. intros.
  rewrite (proj2 (Z.leb_le 0 i)) by lia.
  rewrite (proj2 (Z.leb_le 0 (_ + i))) by lia.
  rewrite lookup_app_r by lia. f_equal. lia.
Qed.

Lemma splice_spec l i xs :
  0 <= i -> i + zlen xs <= zlen l ->
  splice l i xs =
    Some (take (Z.to_nat i) l ++ xs ++ drop (Z.to_nat i + length xs) l).
Proof.
  intros. unfold splice.
  rewrite (proj2 (Z.leb_le 0 i)), (proj2 (Z.leb_le (_ + _) _)) by lia. done.
Qed.

Lemma splice_zlen l i xs l' : splice l i xs = Some l' -> zlen l' = zlen l.
Proof.
  unfold splice. destruct (_ && _) eqn:E; [|done].
  apply andb_true_iff in E as [?%Z.leb_le ?%Z.leb_le].
  intros [= <-]. unfold zlen in *.
  rewrite !length_app, length_take, length_drop. lia.
Qed.

Lemma sub_spec l i n :
  0 <= i -> 0 <= n -> i + n <= zlen l ->
  sub l i n = Some (take (Z.to_nat n) (drop (Z.to_nat i) l)).
Proof.
  intros. unfold sub.
  rewrite (proj2 (Z.leb_le 0 i)), (proj2 (Z.leb_le 0 n)),
    (proj2 (Z.leb_le (_ + _) _)) by lia. done.
Qed.

(** The bytes found after a prefix. *)
Lemma sub_mid l1 xs l2 : sub (l1 ++ xs ++ l2) (zlen l1) (zlen xs) = Some xs.
Proof.
  rewrite sub_spec; unfold zlen; rewrite ?length_app; [|lia..].
  rewrite !Nat2Z.id, drop_app_length, take_app_length. done.
Qed.
End arrays.

Create Rewrite HintDb zlen.
#[export] Hint Rewrite @zlen_nil @zlen_cons @zlen_app @zlen_repeat : zlen.

Ltac zl := autorewrite with zlen in *; try lia.

(** ** State passing with undefined behaviour

    A C function that works on a mutable object of type [S] is a [M S A]:
    it returns its value and the new object, or [None] when it has undefined
    behaviour (an access outside an array, a null dereference, a signed
    overflow the code does not exclude). *)

Definition M (S A : Type) : Type := S -> option (A * S).

Definition ret {S A} (a : A) : M S A := fun s => Some (a, s).
Definition bind {S A B} (m : M S A) (k : A -> M S B) : M S B :=
  fun s => match m s with Some (a, s') => k a s' | None => None end.
Definition fault {S A} : M S A := fun _ => None.
Definition get {S} : M S S := fun s => Some (s, s).
Definition put {S} (s : S) : M S unit := fun _ => Some (tt, s).
Definition modify {S} (f : S -> S) : M S unit := fun s => Some (tt, f s).
Definition gets {S A} (f : S -> A) : M S A := fun s => Some (f s, s).
(** A value that is undefined when the memory access it makes is. *)
Definition lift {S A} (x : option A) : M S A :=
  fun s => match x with Some a => Some (a, s) | None => None end.

Notation "'let*' x ':=' m 'in' k" := (bind m (fun x => k))
  (at level 10, x pattern, m at level 100, k at level 200,
   format "'[v' 'let*'  x  ':='  m  'in' '/' k ']'") : yaz_scope.
Notation "m ;; k" := (bind m (fun _ => k))
  (at level 100, k at level 200, right associativity,
   format "'[v' m ;; '/' k ']'") : yaz_scope.
(** The same for values that are merely undefined or not. *)
Notation "'let?' x ':=' m 'in' k" := (m ≫= fun x => k)
  (at level 10, x pattern, m at level 100, k at level 200,
   format "'[v' 'let?'  x  ':='  m  'in' '/' k ']'") : yaz_scope.

Section monad_laws.
Context {S A B C : Type}.

Lemma bind_ret_l (a : A) (k : A -> M S B) s : bind (ret a) k s = k a s.
Proof. done. Qed.

Lemma bind_get (k : S -> M S B) s : bind get k s = k s s.
Proof. done. Qed.

Lemma bind_gets (f : S -> A) (k : A -> M S B) s : bind (gets f) k s = k (f s) s.
Proof. done. Qed.

Lemma bind_modify (f : S -> S) (k : unit -> M S B) s : bind (modify f) k s = k tt (f s).
Proof. done. Qed.

Lemma bind_lift (a : A) (k : A -> M S B) s : bind (lift (Some a)) k s = k a s.
Proof. done. Qed.

Lemma bind_Some (m : M S A) (k : A -> M S B) s a s' :
  m s = Some (a, s') -> bind m k s = k a s'.
Proof. intros H. unfold bind. by rewrite H. Qed.

Lemma bind_assoc (m : M S A) (k : A -> M S B) (h : B -> M S C) s :
  bind (bind m k) h s = bind m (fun a => bind (k a) h) s.
Proof. unfold bind. by destruct (m s) as [[]|]. Qed.

Lemma bind_inv (m : M S A) (k : A -> M S B) s r :
  bind m k s = Some r -> exists a s', m s = Some (a, s') /\ k a s' = Some r.
Proof. unfold bind. destruct (m s) as [[a s']|]; [eauto|done]. Qed.
End monad_laws.

(** [m] run from [s] ends in a state and with a value that satisfy [Q]. *)
Definition run {S A} (m : M S A) (s : S) (Q : A -> S -> Prop) : Prop :=
  exists a s', m s = Some (a, s') /\ Q a s'.

Section runs.
Context {S A B : Type}.
Implicit Types (s : S) (m : M S A) (k : A -> M S B).

Lemma run_bind m k s P Q : run m s P -> (forall a s', P a s' -> run (k a) s' Q) -> run (bind m k) s Q.
Proof.
  intros (a & s1 & E1 & H1) H. destruct (H a s1 H1) as (c & s2 & E2 & H2).
  exists c, s2. by rewrite (bind_Some _ _ _ _ _ E1).
Qed.

Lemma run_ret (a : A) s (Q : _ -> _ -> Prop) : Q a s -> run (ret a) s Q.
Proof. intros H. by exists a, s. Qed.

Lemma run_assoc {C} m k (l : B -> M S C) s Q : run (bind (bind m k) l) s Q -> run (bind m (fun a => bind (k a) l)) s Q.
Proof. intros (c & s' & E & H). exists c, s'. by rewrite <- bind_assoc. Qed.

Lemma run_get (k : S -> M S B) s Q : run (k s) s Q -> run (bind get k) s Q.
Proof. done. Qed.

Lemma run_gets (f : S -> A) k s Q : run (k (f s)) s Q -> run (bind (gets f) k) s Q.
Proof. done. Qed.

Lemma run_lift (x : option A) a k s Q : x = Some a -> run (k a) s Q -> run (bind (lift x) k) s Q.
Proof. by intros ->. Qed.

Lemma run_modify f (k : M S B) s Q : run k (f s) Q -> run (modify f ;; k) s Q.
Proof. done. Qed.

Lemma run_is m s a s' (Q : _ -> _ -> Prop) : m s = Some (a, s') -> Q a s' -> run m s Q.
Proof. intros E H. by exists a, s'. Qed.

Lemma run_weaken m s (P Q : _ -> _ -> Prop) : run m s P -> (forall a s', P a s' -> Q a s') -> run m s Q.
Proof. intros (a & s' & E & H) HQ. exists a, s'. auto. Qed.
End runs.

(** [m] leaves the part [f] of the state alone, whatever it returns. *)
Definition keeps {S A B} (f : S -> B) (m : M S A) : Prop :=
  forall s a s', m s = Some (a, s') -> f s' = f s.

Section keeps.
Context {S A B C : Type} (f : S -> B).

Lemma keeps_ret (a : A) : keeps f (ret a).
Proof. by intros s ? ? [= _ <-]. Qed.

Lemma keeps_fault : keeps f (fault (A := A)).
Proof. by intros s ? ?. Qed.

Lemma keeps_get : keeps f get.
Proof. by intros s ? ? [= _ <-]. Qed.

Lemma keeps_gets (g : S -> A) : keeps f (gets g).
Proof. by intros s ? ? [= _ <-]. Qed.

Lemma keeps_lift (x : option A) : keeps f (lift x).
Proof. intros s ? ?. unfold lift. by destruct x; intros [= _ <-]. Qed.

Lemma keeps_modify (g : S -> S) : (forall s, f (g s) = f s) -> keeps f (modify g).
Proof. by intros H s ? ? [= _ <-]. Qed.

Lemma keeps_bind (m : M S A) (k : A -> M S C) :
  keeps f m -> (forall a, keeps f (k a)) -> keeps f (bind m k).
Proof.
  intros Hm Hk s a s' (b & s1 & E1 & E2)%bind_inv.
  rewrite (Hk _ _ _ _ E2). by apply (Hm _ _ _ E1).
Qed.

(** A read of the whole state that is written back changed. *)
Lemma keeps_update (k : S -> M S C) :
  (forall s a s', k s s = Some (a, s') -> f s' = f s) -> keeps f (bind get k).
Proof. intros H s a s'. rewrite bind_get. apply H. Qed.
End keeps.

Create HintDb keeps.
#[export] Hint Resolve keeps_ret keeps_fault keeps_get keeps_gets keeps_lift : keeps.

(** Prove [keeps] by following the code. *)
Ltac keep :=
  repeat first
    [ progress auto with keeps
    | progress intros
    | apply keeps_modify; intros; reflexivity
    | apply keeps_bind
    | match goal with
      | |- keeps _ (match ?x with _ => _ end) => destruct x
      | |- keeps _ (let _ := _ in _) => cbv zeta
      end ].

Create Rewrite HintDb mon.
#[export] Hint Rewrite @bind_ret_l @bind_get @bind_gets @bind_modify @bind_lift : mon.

(** ** Automation *)

(** Run the state-passing steps at the head of the goal. *)
Ltac mrun := repeat (progress (autorewrite with mon; cbv beta iota)).

(** Turn boolean comparisons of the code into propositions, one test at a
    time, closing the impossible branches with [lia]. *)
Ltac ztest1 :=
  match goal with
  | |- context [?x <? ?y] => destruct (Z.ltb_spec x y); try lia
  | |- context [?x <=? ?y] => destruct (Z.leb_spec x y); try lia
  | |- context [?x =? ?y] => destruct (Z.eqb_spec x y); try lia
  | |- context [?x >? ?y] => rewrite (Z.gtb_ltb x y)
  | |- context [?x >=? ?y] => rewrite (Z.geb_leb x y)
  end.
Ltac ztest := repeat (ztest1; simpl).

(** The same on a hypothesis. *)
Ltac ztest_in H :=
  repeat (match type of H with
  | context [?x <? ?y] => destruct (Z.ltb_spec x y); try lia
  | context [?x <=? ?y] => destruct (Z.leb_spec x y); try lia
  | context [?x =? ?y] => destruct (Z.eqb_spec x y); try lia
  | context [?x >? ?y] => rewrite (Z.gtb_ltb x y) in H
  | context [?x >=? ?y] => rewrite (Z.geb_leb x y) in H
  end; simpl in H).

(** Close an arithmetic comparison used as a boolean. *)
Ltac zbool :=
  first [ apply Z.ltb_lt | apply Z.ltb_ge | apply Z.leb_le | apply Z.leb_gt
        | apply Z.eqb_eq | apply Z.eqb_neq ]; lia.

(** ** Bits *)

(** A fact about every byte is decided by looking at the 256 of them. *)
Lemma byte_forall (P : Z -> bool) :
  forallb P (map Z.of_nat (seq 0 256)) = true -> forall x, byte_ok x -> P x = true.
Proof.
  intros H x Hx. rewrite forallb_forall in H. apply H, in_map_iff.
  exists (Z.to_nat x). unfold byte_ok in Hx. split; [lia|]. apply in_seq. lia.
Qed.

(** [by_bytes x]: prove a boolean equation in the byte [x] by evaluation. *)
Ltac by_bytes x :=
  match goal with
  | H : byte_ok x |- ?l = ?r :> Z =>
      apply Z.eqb_eq; revert x H;
      refine (byte_forall _ _); vm_compute; reflexivity
  | H : byte_ok x |- ?l = ?r :> bool =>
      apply eqb_prop; revert x H;
      refine (byte_forall _ _); vm_compute; reflexivity
  end.

(** Bit 8 of a byte. *)
Lemma byte_bit8 x : byte_ok x -> (Z.land x 128 =? 0) = (x <? 128).
Proof. intros H. by_bytes x. Qed.

(** A [char] of the value of an octet. *)
Lemma s8_byte c : byte_ok c -> s8 c = if c <? 128 then c else c - 256.
Proof. intros H. by_bytes c. Qed.

(** Joining a high part and a low part that do not overlap. *)
Lemma lor_join a k d :
  0 <= k -> 0 <= d < 2 ^ k -> Z.lor (Z.shiftl a k) d = a * 2 ^ k + d.
Proof.
  intros Hk Hd. rewrite <- Z.shiftl_mul_pow2 by done.
  assert (Z.land (Z.shiftl a k) d = 0) as Hdis.
  { apply Z.bits_inj'. intros n Hn. rewrite Z.land_spec, Z.bits_0.
    destruct (Z.ltb_spec n k); [by rewrite Z.shiftl_spec_low|].
    rewrite <- (Z.mod_small d (2 ^ k)) by done.
    rewrite Z.mod_pow2_bits_high by lia. apply andb_false_r. }
  rewrite <- Z.lxor_lor by done. symmetry. by apply Z.add_nocarry_lxor.
Qed.

Lemma land_mask x k : 0 <= k -> Z.land x (2 ^ k - 1) = x mod 2 ^ k.
Proof. intros. rewrite <- Z.land_ones by done. f_equal. by rewrite Z.ones_equiv. Qed.

Lemma land_7F x : Z.land x 127 = x mod 128.
Proof. apply (land_mask x 7). lia. Qed.

Lemma shiftr_7 x : Z.shiftr x 7 = x / 128.
Proof. by rewrite Z.shiftr_div_pow2. Qed.

Lemma shiftr_8 x : Z.shiftr x 8 = x / 256.
Proof. by rewrite Z.shiftr_div_pow2. Qed.

(** ** Base-128 groups

    The identifier octets of a tag and the subidentifiers of an object
    identifier are written as 7-bit groups, most significant first, all but
    the last with bit 8 set. *)

Definition digit_ok (d : Z) : Prop := 0 <= d < 128.
Definition val128 (acc : Z) (ds : list Z) : Z := fold_left (fun a d => a * 128 + d) ds acc.

Fixpoint mark128 (ds : list Z) : list Z :=
  match ds with
  | [] => []
  | [d] => [d]
  | d :: ds => (d + 128) :: mark128 ds
  end.

Lemma val128_ge acc ds : 0 <= acc -> Forall digit_ok ds -> acc <= val128 acc ds.
Proof.
  intros Hacc H. revert acc Hacc.
  induction H as [|d ds Hd _ IH]; intros acc Hacc; simpl; [lia|].
  unfold digit_ok in Hd. specialize (IH (acc * 128 + d)). unfold val128 in *. lia.
Qed.

Lemma mark128_length ds : length (mark128 ds) = length ds.
Proof.
  induction ds as [|d [|d' ds] IH]; [done..|].
  change (mark128 (d :: d' :: ds)) with ((d + 128) :: mark128 (d' :: ds)).
  simpl in *. lia.
Qed.

Lemma mark128_bytes ds : Forall digit_ok ds -> bytes_ok (mark128 ds).
Proof.
  intros H. unfold bytes_ok. induction H as [|d [|d' ds] Hd H IH]; [constructor|..].
  - repeat constructor; unfold digit_ok in Hd; lia.
  - constructor; [unfold byte_ok, digit_ok in *; lia|exact IH].
Qed.

(** ** Text *)

(** A C string literal as its bytes. *)
Definition str (s : string) : list Z :=
  map (fun c => Z.of_N (Ascii.N_of_ascii c)) (String.list_ascii_of_string s).
#[global] Arguments str _%_string.

Definition nl : list Z := [10].

(** Decimal digits of a number, as [printf] writes them. *)
Fixpoint dec_digits (fuel : nat) (n : Z) (acc : list Z) : list Z :=
  match fuel with
  | O => acc
  | S fuel =>
      let acc := (48 + n mod 10) :: acc in
      if n <? 10 then acc else dec_digits fuel (n / 10) acc
  end.

(** [%d] and [%lld]: 20 digits are enough for 64 bits. *)
Definition fmt_d (n : Z) : list Z :=
  if n <? 0 then 45 :: dec_digits 20 (- n) [] else dec_digits 20 n [].

Definition spaces (n : Z) : list Z := repeat 32 (Z.to_nat n).
