(* ===== verification/Text.v ===== *)
(** * C strings (the Standard Library functions the code uses, yaz-iconv.h)

    A [char *] is the memory from the pointer on, as a list of bytes; reading
    past it is undefined.  The character classes of YAZ, decimal numbers, and
    the lemmas the parsers share. *)

From stdpp Require Import base list numbers option strings.
From Stdlib Require Import ZArith Lia.
From S2P Require Import Prelude.

(** ** <string.h> *)

(** [strlen] needs a zero in the memory. *)
Fixpoint strlen (m : list Z) : option Z :=
  match m with
  | [] => None
  | b :: m => if b =? 0 then Some 0 else Z.succ <$> strlen m
  end.

(** [strchr(s, c)] is not null, for a literal [s] given without its zero: the
    terminator counts as a character of the string. *)
Definition strchr (s : list Z) (c : Z) : bool := existsb (Z.eqb c) (s ++ [0]).

(** [strchr(s, c)]: the offset of [c]. *)
Fixpoint find_char (c : Z) (s : list Z) : option (option Z) :=
  match s with
  | [] => None
  | x :: s =>
      if x =? c then Some (Some 0)
      else if x =? 0 then Some None
      else let? r := find_char c s in Some (option_map Z.succ r)
  end.

(** The characters of the string in the memory [m]. *)
Definition cstr (m : list Z) : option (list Z) :=
  let? n := strlen m in sub m 0 n.

(** [!memcmp(s1, s2, n)] and [!strcmp(s1, s2)] *)
Definition mem_same (s1 s2 : list Z) (n : Z) : option bool :=
  let? x := sub s1 0 n in let? y := sub s2 0 n in Some (bool_decide (x = y)).
Definition str_same (s1 s2 : list Z) : option bool :=
  let? x := cstr s1 in let? y := cstr s2 in Some (bool_decide (x = y)).

(** [strstr(s, p)]: the offset of [p], which is given without its terminator. *)
Fixpoint find_str (p s : list Z) : option Z :=
  if bool_decide (take (length p) s = p) then Some 0
  else match s with
       | [] => None
       | c :: s => if c =? 0 then None else Z.succ <$> find_str p s
       end.

(** A string without its terminator. *)
Definition nonzero (s : list Z) : Prop := Forall (fun b => b <> 0) s.

(** ** yaz-iconv.h *)

Definition yaz_isdigit (c : Z) : bool := (48 <=? c) && (c <=? 57).
Definition yaz_isspace (c : Z) : bool := strchr [32; 12; 13; 10; 9; 11] c.
Definition yaz_isupper (c : Z) : bool := (65 <=? c) && (c <=? 90).
Definition yaz_islower (c : Z) : bool := (97 <=? c) && (c <=? 122).
Definition yaz_tolower (c : Z) : Z := c + 32.
Definition yaz_toupper (c : Z) : Z := c - 32.

(** ** Numbers *)

(** [odr_atoi] of odr_mem.c, that is [strtoll]: blanks, a sign and digits, of
    which the nearest 64-bit number is returned. *)
Definition c_blank (c : Z) : bool := (c =? 32) || ((9 <=? c) && (c <=? 13)).
Fixpoint skip_white (s : list Z) : option (list Z) :=
  match s with
  | [] => None
  | c :: s' => if c_blank c then skip_white s' else Some s
  end.
Fixpoint run_digits (s : list Z) (v : Z) : option Z :=
  match s with
  | [] => None
  | c :: s => if yaz_isdigit c then run_digits s (v * 10 + (c - 48)) else Some v
  end.
Definition odr_atoi (s : list Z) : option Z :=
  let? s := skip_white s in
  let? c := rd s 0 in
  let? v := run_digits (if (c =? 43) || (c =? 45) then drop 1 s else s) 0 in
  Some (Z.max (- 2 ^ 63) (Z.min (2 ^ 63 - 1) (if c =? 45 then - v else v))).
(** [atoi], the conversion to [int] of the same number. *)
Definition atoi (s : list Z) : option Z := let? v := odr_atoi s in Some (s32 v).

(** ** Lemmas *)

Lemma strlen_spec s rest : nonzero s -> strlen (s ++ 0 :: rest) = Some (zlen s).
Proof.
  induction 1 as [|b s Hb H IH]; [done|]. simpl. rewrite IH, zlen_cons.
  rewrite (proj2 (Z.eqb_neq b 0)) by done. simpl. f_equal. lia.
Qed.

(** A character that is there. *)
Lemma find_char_at c w r : ~ In c w -> ~ In 0 w -> find_char c (w ++ c :: r) = Some (Some (zlen w)).
Proof.
  induction w as [|x w IH]; cbn [app find_char]; intros Hc H0; [by rewrite Z.eqb_refl|].
  rewrite (proj2 (Z.eqb_neq x c)) by (intros ->; apply Hc; by left).
  rewrite (proj2 (Z.eqb_neq x 0)) by (intros ->; apply H0; by left).
  rewrite IH; [|intros H; apply Hc; by right|intros H; apply H0; by right]. cbn [mbind option_bind option_map].
  rewrite zlen_cons. do 2 f_equal. lia.
Qed.

(** A terminated string and its length. *)
Lemma strlen_inv m n :
  strlen m = Some n -> exists s rest, m = s ++ 0 :: rest /\ nonzero s /\ n = zlen s.
Proof.
  revert n. induction m as [|b m IH]; intros n; [done|]. simpl.
  destruct (Z.eqb_spec b 0) as [->|Hb].
  - intros [= <-]. exists [], m. split; [done|]. split; [constructor|done].
  - destruct (strlen m) as [k|]; [|done]. intros [= <-].
    destruct (IH k eq_refl) as (s & rest & -> & Hs & ->).
    exists (b :: s), rest. split; [done|]. split; [by constructor|]. rewrite zlen_cons. lia.
Qed.

(** ** Decimal numbers *)

Definition digits_ok (ds : list Z) : Prop := Forall (fun d => 48 <= d <= 57) ds.
Definition dec_val (acc : Z) (ds : list Z) : Z := fold_left (fun a d => a * 10 + (d - 48)) ds acc.

Lemma dec_val_ge acc ds : 0 <= acc -> digits_ok ds -> acc <= dec_val acc ds.
Proof.
  intros Ha H. revert acc Ha. induction H as [|d ds Hd _ IH]; intros acc Ha; simpl; [lia|].
  specialize (IH (acc * 10 + (d - 48)) ltac:(lia)). unfold dec_val in *. lia.
Qed.

Lemma dec_digits_spec fuel : forall n acc, 0 <= n < 10 ^ Z.of_nat fuel -> (0 < fuel)%nat ->
  exists ds, dec_digits fuel n acc = ds ++ acc /\ digits_ok ds /\ ds <> [] /\
    dec_val 0 ds = n /\ (length ds <= fuel)%nat /\ (forall k, n < 10 ^ Z.of_nat k -> (0 < k)%nat -> (length ds <= k)%nat).
Proof.
  induction fuel as [|fuel IH]; intros n acc Hn Hf; [lia|]. simpl.
  pose proof (Z.mod_pos_bound n 10 ltac:(lia)) as Hm. pose proof (Z.div_mod n 10 ltac:(lia)) as Hd.
  destruct (Z.ltb_spec n 10).
  - exists [48 + n mod 10]. split; [done|]. split; [apply Forall_singleton; lia|].
    split; [done|]. split; [unfold dec_val; simpl; rewrite Z.mod_small; lia|].
    split; [simpl; lia|]. intros k _ Hk. simpl. lia.
  - rewrite Nat2Z.inj_succ, Z.pow_succ_r in Hn by lia.
    assert (0 <= n / 10 < 10 ^ Z.of_nat fuel) as Hq
      by (split; [apply Z.div_pos; lia|apply Z.div_lt_upper_bound; lia]).
    destruct (IH (n / 10) ((48 + n mod 10) :: acc) Hq) as (ds & E & Hds & Hne & Hv & Hl & Hk).
    { destruct fuel; [|lia]. change (10 ^ Z.of_nat 0) with 1 in Hq. lia. }
    exists (ds ++ [48 + n mod 10]). split; [by rewrite E, <- app_assoc|].
    split; [apply Forall_app; split; [done|apply Forall_singleton; lia]|].
    split; [by destruct ds|]. split; [unfold dec_val in *; rewrite fold_left_app, Hv; simpl; lia|].
    split; [rewrite length_app; simpl; lia|]. intros [|k] Hnk Hpos; [lia|].
    rewrite Nat2Z.inj_succ, Z.pow_succ_r in Hnk by lia. rewrite length_app. simpl.
    assert (n / 10 < 10 ^ Z.of_nat k) as Hq2 by (apply Z.div_lt_upper_bound; lia).
    destruct k; [change (10 ^ Z.of_nat 0) with 1 in Hq2; lia|]. specialize (Hk (S k) Hq2). lia.
Qed.

Lemma fmt_d_spec n k :
  0 <= n < 10 ^ Z.of_nat k -> (0 < k <= 20)%nat ->
  digits_ok (fmt_d n) /\ fmt_d n <> [] /\ dec_val 0 (fmt_d n) = n /\ (length (fmt_d n) <= k)%nat.
Proof.
  intros Hn Hk. unfold fmt_d. rewrite (proj2 (Z.ltb_ge n 0)) by lia.
  destruct (dec_digits_spec 20 n []) as (ds & E & Hd & Hne & Hv & _ & Hlen); [|lia|].
  { split; [lia|]. eapply Z.lt_le_trans; [apply Hn|]. apply Z.pow_le_mono_r; lia. }
  rewrite app_nil_r in E. rewrite E. split; [done|]. split; [done|]. split; [done|].
  apply Hlen; lia.
Qed.

Lemma isdigit_true d : 48 <= d <= 57 -> yaz_isdigit d = true.
Proof. intros. unfold yaz_isdigit. rewrite !(proj2 (Z.leb_le _ _)) by lia. done. Qed.

Lemma digits_nonzero ds : digits_ok ds -> nonzero ds.
Proof. intros H. eapply Forall_impl; [exact H|]. simpl. lia. Qed.

(** ** Any C string *)

(** The end of a C string. *)
Definition cstr_at (q : list Z) : Prop := exists t rest, q = t ++ 0 :: rest /\ nonzero t.

Lemma cstr_at_cons q : cstr_at q -> exists c r, q = c :: r /\ (c <> 0 -> cstr_at r).
Proof.
  intros ([|c t] & rest & -> & Ht); [exists 0, rest; split; [done|congruence]|].
  apply Forall_cons_1 in Ht as [_ Ht]. exists c, (t ++ 0 :: rest). split; [done|]. intros _. by exists t, rest.
Qed.

Lemma skip_white_total q : cstr_at q -> exists q', skip_white q = Some q' /\ cstr_at q'.
Proof.
  intros (t & rest & -> & Ht). induction Ht as [|c t Hc Ht IH].
  - exists (0 :: rest). split; [done|]. exists [], rest. split; [done|constructor].
  - cbn [app skip_white]. destruct (c_blank c); [exact IH|]. eexists. split; [done|]. exists (c :: t), rest.
    split; [done|by constructor].
Qed.

Lemma run_digits_total q : forall v, cstr_at q -> exists n, run_digits q v = Some n.
Proof.
  intros v (t & rest & -> & Ht). revert v. induction Ht as [|c t Hc Ht IH]; intros v; [by exists v|].
  cbn [app run_digits]. destruct (yaz_isdigit c); [apply IH|by eexists].
Qed.

Lemma odr_atoi_total q : cstr_at q -> exists n, odr_atoi q = Some n.
Proof.
  intros Hq. unfold odr_atoi. destruct (skip_white_total q Hq) as (q' & -> & Hq'). cbn [mbind option_bind].
  destruct (cstr_at_cons q' Hq') as (c & r & -> & Hr). rewrite rd_0. cbn [mbind option_bind].
  destruct ((c =? 43) || (c =? 45)) eqn:Es.
  - destruct (run_digits_total (drop 1 (c :: r)) 0) as (n & ->); [|by eexists].
    change (drop 1 (c :: r)) with r. apply Hr. apply orb_true_iff in Es. lia.
  - destruct (run_digits_total (c :: r) 0 Hq') as (n & ->). by eexists.
Qed.

Lemma cstr_at_any buf : cstr_at (buf ++ [0]).
Proof.
  induction buf as [|c buf IH]; [exists [], []; split; [done|constructor]|].
  destruct (Z.eqb_spec c 0) as [->|Hc]; [exists [], (buf ++ [0]); split; [done|constructor]|].
  destruct IH as (t & r & E & Ht). exists (c :: t), r. cbn [app]. rewrite E. split; [done|by constructor].
Qed.

Lemma find_char_total c q : c <> 0 -> cstr_at q -> exists r, find_char c q = Some r /\
  (forall p, r = Some p -> 0 <= p /\ cstr_at (drop (Z.to_nat (p + 1)) q)).
Proof.
  intros Hc (t & rest & -> & Ht). induction Ht as [|x t Hx Ht IH].
  - cbn [app find_char]. rewrite (proj2 (Z.eqb_neq 0 c)) by done. by eexists.
  - cbn [app find_char]. destruct (x =? c).
    { eexists; split; [reflexivity|]; intros p [= <-]. split; [lia|]. by exists t, rest. }
    rewrite (proj2 (Z.eqb_neq x 0)) by done. destruct IH as (r & -> & Hr). cbn [mbind option_bind].
    eexists. split; [reflexivity|]. intros p. destruct r as [p'|]; [|done]. intros [= <-].
    destruct (Hr p' eq_refl) as [H0 Hd]. split; [lia|].
    by replace (Z.to_nat (Z.succ p' + 1)) with (S (Z.to_nat (p' + 1))) by lia.
Qed.

Lemma cstr_spec t rest : nonzero t -> cstr (t ++ 0 :: rest) = Some t.
Proof. intros Ht. unfold cstr. rewrite strlen_spec by done. cbn [mbind option_bind]. apply (sub_mid []). Qed.

Lemma cstr_total m : cstr_at m -> exists t, cstr m = Some t.
Proof. intros (t & rest & -> & Ht). exists t. by apply cstr_spec. Qed.

Lemma cstr_nonzero m t : cstr_at m -> cstr m = Some t -> nonzero t.
Proof. intros (t' & rest & -> & Ht). rewrite cstr_spec by done. by intros [= <-]. Qed.

Lemma strlen_total m : cstr_at m -> exists n, strlen m = Some n /\ 0 <= n < zlen m.
Proof.
  intros (t & rest & -> & Ht). exists (zlen t). rewrite strlen_spec by done. split; [done|]. pose proof (zlen_nonneg t).
  pose proof (zlen_nonneg rest). zl.
Qed.

Lemma str_same_cstr a b x y : cstr a = Some x -> cstr b = Some y -> str_same a b = Some (bool_decide (x = y)).
Proof. intros Ha Hb. unfold str_same. rewrite Ha. cbn [mbind option_bind]. by rewrite Hb. Qed.

Lemma str_same_total a b : cstr_at a -> cstr_at b -> exists r, str_same a b = Some r.
Proof.
  intros (x & Hx)%cstr_total (y & Hy)%cstr_total. unfold str_same. rewrite Hx. cbn [mbind option_bind]. rewrite Hy. by eexists.
Qed.
