(* ===== verification/OdrMem.v ===== *)
(** * ODR streams: the handle and its buffer (odr-priv.h, odr.c, odr_mem.c)

    The state of an ODR handle, and the operations on its buffer that every
    codec is built from: [odr_grow_block], [odr_putc], [odr_write],
    [odr_seek].  The theorems say what a write does to the bytes produced so
    far, when it fails, and that the buffer invariant is kept. *)

From stdpp Require Import base list numbers option strings.
From Stdlib Require Import ZArith Lia.
From S2P Require Import Prelude.

(** ** Constants of odr.h *)

Definition ODR_DECODE : Z := 0.
Definition ODR_ENCODE : Z := 1.
Definition ODR_PRINT : Z := 2.

Definition ODR_S_SET : Z := 0.
Definition ODR_S_CUR : Z := 1.
Definition ODR_S_END : Z := 2.

Definition ONONE : Z := 0.
Definition OMEMORY : Z := 1.
Definition OSYSERR : Z := 2.
Definition OSPACE : Z := 3.
Definition OREQUIRED : Z := 4.
Definition OUNEXPECTED : Z := 5.
Definition OOTHER : Z := 6.
Definition OPROTO : Z := 7.
Definition ODATA : Z := 8.
Definition OSTACK : Z := 9.
Definition OCONLEN : Z := 10.
Definition OLENOV : Z := 11.
Definition OHTTP : Z := 12.

Definition ODR_MAX_STACK : Z := 2000.

(** ** The handle *)

(** An entry of the stack of open constructed types.  Pointers into the
    buffer are offsets.  [cs_len] is assigned by decoding streams only. *)
Record odr_constack := mkConstack {
  cs_base : Z;
  cs_base_offset : Z;
  cs_len : option Z;
  cs_lenb : Z;
  cs_len_offset : Z;
  cs_lenlen : Z;
  cs_name : list Z;
}.

(** [struct odr] with the [struct Odr_private] it points to. *)
Record odr := mkOdr {
  direction : Z;  (** direction of this stream *)
  error : Z;  (** current error state (0 = OK) *)
  error_id : Z;  (** which call site set it *)
  element : list Z;  (** name of the element in error *)
  buf : list Z;  (** memory base: the [size] bytes allocated or given *)
  bp : Z;  (** position in buffer (decoding), as an offset *)
  pos : Z;  (** current position (encoding) *)
  top : Z;  (** top of buffer (max pos when encoding) *)
  size : Z;  (** current buffer size *)
  can_grow : bool;  (** are we allowed to reallocate *)
  t_class : Z;  (** implicit tagging (-1 = default tag) *)
  t_tag : Z;
  lclass : Z;  (** tag read ahead by [ber_tag] (-1 = none) *)
  ltag : Z;
  br : Z;  (** its length in bytes *)
  lcons : Z;
  stack : list odr_constack;  (** open constructed types, innermost first *)
  stack_alloc : Z;  (** entries allocated so far (the chain from [stack_first]) *)
  stack_depth : Z;  (** current stack depth *)
  enable_bias : bool;  (** force choice enable flag *)
  choice_bias : Z;  (** force choice *)
  lenlen : Z;  (** force length-of-length *)
  indent : Z;  (** indent level for printing *)
  printed : list Z;  (** bytes handed to [stream_write] so far *)
  junk : Z -> Z;  (** indeterminate contents of fresh memory *)
}.

Definition set_direction (x : Z) (o : odr) : odr :=
  mkOdr x (error o) (error_id o) (element o) (buf o) (bp o) (pos o) (top o) (size o) (can_grow o) (t_class o) (t_tag o) (lclass o) (ltag o) (br o) (lcons o) (stack o) (stack_alloc o) (stack_depth o) (enable_bias o) (choice_bias o) (lenlen o) (indent o) (printed o) (junk o).
Definition set_error (x : Z) (o : odr) : odr :=
  mkOdr (direction o) x (error_id o) (element o) (buf o) (bp o) (pos o) (top o) (size o) (can_grow o) (t_class o) (t_tag o) (lclass o) (ltag o) (br o) (lcons o) (stack o) (stack_alloc o) (stack_depth o) (enable_bias o) (choice_bias o) (lenlen o) (indent o) (printed o) (junk o).
Definition set_error_id (x : Z) (o : odr) : odr :=
  mkOdr (direction o) (error o) x (element o) (buf o) (bp o) (pos o) (top o) (size o) (can_grow o) (t_class o) (t_tag o) (lclass o) (ltag o) (br o) (lcons o) (stack o) (stack_alloc o) (stack_depth o) (enable_bias o) (choice_bias o) (lenlen o) (indent o) (printed o) (junk o).
Definition set_element (x : list Z) (o : odr) : odr :=
  mkOdr (direction o) (error o) (error_id o) x (buf o) (bp o) (pos o) (top o) (size o) (can_grow o) (t_class o) (t_tag o) (lclass o) (ltag o) (br o) (lcons o) (stack o) (stack_alloc o) (stack_depth o) (enable_bias o) (choice_bias o) (lenlen o) (indent o) (printed o) (junk o).
Definition set_buf (x : list Z) (o : odr) : odr :=
  mkOdr (direction o) (error o) (error_id o) (element o) x (bp o) (pos o) (top o) (size o) (can_grow o) (t_class o) (t_tag o) (lclass o) (ltag o) (br o) (lcons o) (stack o) (stack_alloc o) (stack_depth o) (enable_bias o) (choice_bias o) (lenlen o) (indent o) (printed o) (junk o).
Definition set_bp (x : Z) (o : odr) : odr :=
  mkOdr (direction o) (error o) (error_id o) (element o) (buf o) x (pos o) (top o) (size o) (can_grow o) (t_class o) (t_tag o) (lclass o) (ltag o) (br o) (lcons o) (stack o) (stack_alloc o) (stack_depth o) (enable_bias o) (choice_bias o) (lenlen o) (indent o) (printed o) (junk o).
Definition set_pos (x : Z) (o : odr) : odr :=
  mkOdr (direction o) (error o) (error_id o) (element o) (buf o) (bp o) x (top o) (size o) (can_grow o) (t_class o) (t_tag o) (lclass o) (ltag o) (br o) (lcons o) (stack o) (stack_alloc o) (stack_depth o) (enable_bias o) (choice_bias o) (lenlen o) (indent o) (printed o) (junk o).
Definition set_top (x : Z) (o : odr) : odr :=
  mkOdr (direction o) (error o) (error_id o) (element o) (buf o) (bp o) (pos o) x (size o) (can_grow o) (t_class o) (t_tag o) (lclass o) (ltag o) (br o) (lcons o) (stack o) (stack_alloc o) (stack_depth o) (enable_bias o) (choice_bias o) (lenlen o) (indent o) (printed o) (junk o).
Definition set_size (x : Z) (o : odr) : odr :=
  mkOdr (direction o) (error o) (error_id o) (element o) (buf o) (bp o) (pos o) (top o) x (can_grow o) (t_class o) (t_tag o) (lclass o) (ltag o) (br o) (lcons o) (stack o) (stack_alloc o) (stack_depth o) (enable_bias o) (choice_bias o) (lenlen o) (indent o) (printed o) (junk o).
Definition set_can_grow (x : bool) (o : odr) : odr :=
  mkOdr (direction o) (error o) (error_id o) (element o) (buf o) (bp o) (pos o) (top o) (size o) x (t_class o) (t_tag o) (lclass o) (ltag o) (br o) (lcons o) (stack o) (stack_alloc o) (stack_depth o) (enable_bias o) (choice_bias o) (lenlen o) (indent o) (printed o) (junk o).
Definition set_t_class (x : Z) (o : odr) : odr :=
  mkOdr (direction o) (error o) (error_id o) (element o) (buf o) (bp o) (pos o) (top o) (size o) (can_grow o) x (t_tag o) (lclass o) (ltag o) (br o) (lcons o) (stack o) (stack_alloc o) (stack_depth o) (enable_bias o) (choice_bias o) (lenlen o) (indent o) (printed o) (junk o).
Definition set_t_tag (x : Z) (o : odr) : odr :=
  mkOdr (direction o) (error o) (error_id o) (element o) (buf o) (bp o) (pos o) (top o) (size o) (can_grow o) (t_class o) x (lclass o) (ltag o) (br o) (lcons o) (stack o) (stack_alloc o) (stack_depth o) (enable_bias o) (choice_bias o) (lenlen o) (indent o) (printed o) (junk o).
Definition set_lclass (x : Z) (o : odr) : odr :=
  mkOdr (direction o) (error o) (error_id o) (element o) (buf o) (bp o) (pos o) (top o) (size o) (can_grow o) (t_class o) (t_tag o) x (ltag o) (br o) (lcons o) (stack o) (stack_alloc o) (stack_depth o) (enable_bias o) (choice_bias o) (lenlen o) (indent o) (printed o) (junk o).
Definition set_ltag (x : Z) (o : odr) : odr :=
  mkOdr (direction o) (error o) (error_id o) (element o) (buf o) (bp o) (pos o) (top o) (size o) (can_grow o) (t_class o) (t_tag o) (lclass o) x (br o) (lcons o) (stack o) (stack_alloc o) (stack_depth o) (enable_bias o) (choice_bias o) (lenlen o) (indent o) (printed o) (junk o).
Definition set_br (x : Z) (o : odr) : odr :=
  mkOdr (direction o) (error o) (error_id o) (element o) (buf o) (bp o) (pos o) (top o) (size o) (can_grow o) (t_class o) (t_tag o) (lclass o) (ltag o) x (lcons o) (stack o) (stack_alloc o) (stack_depth o) (enable_bias o) (choice_bias o) (lenlen o) (indent o) (printed o) (junk o).
Definition set_lcons (x : Z) (o : odr) : odr :=
  mkOdr (direction o) (error o) (error_id o) (element o) (buf o) (bp o) (pos o) (top o) (size o) (can_grow o) (t_class o) (t_tag o) (lclass o) (ltag o) (br o) x (stack o) (stack_alloc o) (stack_depth o) (enable_bias o) (choice_bias o) (lenlen o) (indent o) (printed o) (junk o).
Definition set_stack (x : list odr_constack) (o : odr) : odr :=
  mkOdr (direction o) (error o) (error_id o) (element o) (buf o) (bp o) (pos o) (top o) (size o) (can_grow o) (t_class o) (t_tag o) (lclass o) (ltag o) (br o) (lcons o) x (stack_alloc o) (stack_depth o) (enable_bias o) (choice_bias o) (lenlen o) (indent o) (printed o) (junk o).
Definition set_stack_alloc (x : Z) (o : odr) : odr :=
  mkOdr (direction o) (error o) (error_id o) (element o) (buf o) (bp o) (pos o) (top o) (size o) (can_grow o) (t_class o) (t_tag o) (lclass o) (ltag o) (br o) (lcons o) (stack o) x (stack_depth o) (enable_bias o) (choice_bias o) (lenlen o) (indent o) (printed o) (junk o).
Definition set_stack_depth (x : Z) (o : odr) : odr :=
  mkOdr (direction o) (error o) (error_id o) (element o) (buf o) (bp o) (pos o) (top o) (size o) (can_grow o) (t_class o) (t_tag o) (lclass o) (ltag o) (br o) (lcons o) (stack o) (stack_alloc o) x (enable_bias o) (choice_bias o) (lenlen o) (indent o) (printed o) (junk o).
Definition set_enable_bias (x : bool) (o : odr) : odr :=
  mkOdr (direction o) (error o) (error_id o) (element o) (buf o) (bp o) (pos o) (top o) (size o) (can_grow o) (t_class o) (t_tag o) (lclass o) (ltag o) (br o) (lcons o) (stack o) (stack_alloc o) (stack_depth o) x (choice_bias o) (lenlen o) (indent o) (printed o) (junk o).
Definition set_choice_bias (x : Z) (o : odr) : odr :=
  mkOdr (direction o) (error o) (error_id o) (element o) (buf o) (bp o) (pos o) (top o) (size o) (can_grow o) (t_class o) (t_tag o) (lclass o) (ltag o) (br o) (lcons o) (stack o) (stack_alloc o) (stack_depth o) (enable_bias o) x (lenlen o) (indent o) (printed o) (junk o).
Definition set_lenlen (x : Z) (o : odr) : odr :=
  mkOdr (direction o) (error o) (error_id o) (element o) (buf o) (bp o) (pos o) (top o) (size o) (can_grow o) (t_class o) (t_tag o) (lclass o) (ltag o) (br o) (lcons o) (stack o) (stack_alloc o) (stack_depth o) (enable_bias o) (choice_bias o) x (indent o) (printed o) (junk o).
Definition set_indent (x : Z) (o : odr) : odr :=
  mkOdr (direction o) (error o) (error_id o) (element o) (buf o) (bp o) (pos o) (top o) (size o) (can_grow o) (t_class o) (t_tag o) (lclass o) (ltag o) (br o) (lcons o) (stack o) (stack_alloc o) (stack_depth o) (enable_bias o) (choice_bias o) (lenlen o) x (printed o) (junk o).
Definition set_printed (x : list Z) (o : odr) : odr :=
  mkOdr (direction o) (error o) (error_id o) (element o) (buf o) (bp o) (pos o) (top o) (size o) (can_grow o) (t_class o) (t_tag o) (lclass o) (ltag o) (br o) (lcons o) (stack o) (stack_alloc o) (stack_depth o) (enable_bias o) (choice_bias o) (lenlen o) (indent o) x (junk o).
Definition set_junk (x : Z -> Z) (o : odr) : odr :=
  mkOdr (direction o) (error o) (error_id o) (element o) (buf o) (bp o) (pos o) (top o) (size o) (can_grow o) (t_class o) (t_tag o) (lclass o) (ltag o) (br o) (lcons o) (stack o) (stack_alloc o) (stack_depth o) (enable_bias o) (choice_bias o) (lenlen o) (indent o) (printed o) x.

(** Computations on an ODR handle. *)
Abbreviation ODR A := (M odr A).

(** ** Error state (odr.c) *)

Definition odr_seterror (err id : Z) : ODR unit :=
  modify (fun o => set_element [] (set_error_id id (set_error err o))).

(** [char element[80]]: at most 79 bytes of the name are kept. *)
Definition odr_setelement (name : option (list Z)) : ODR unit :=
  match name with
  | Some s => modify (set_element (take 79 s))
  | None => ret tt
  end.

(** ** Memory (odr_mem.c) *)

(** [odr_max]: bytes left to read. *)
Definition odr_max (o : odr) : Z := size o - bp o.

Definition odr_tell (o : odr) : Z := pos o.

(** Contents of the bytes [from .. from + n - 1] of a block just allocated. *)
Definition fresh (o : odr) (from n : Z) : list Z :=
  map (fun i => u8 (junk o (from + Z.of_nat i))) (seq 0 (Z.to_nat n)).

Definition odr_grow_block (min_bytes : Z) : ODR Z :=
  let* o := get in
  if negb (can_grow o) then ret (-1)
  else
    let togrow := if size o =? 0 then 1024 else size o in
    let togrow := if togrow <? min_bytes then min_bytes else togrow in
    if INT_MAX <? size o + togrow then fault
    else
      put (set_buf (buf o ++ fresh o (size o) togrow)
            (set_size (size o + togrow) o)) ;;
      ret 0.

(** [o->op->buf[o->op->pos++] = c] *)
Definition put_at_pos (c : Z) : ODR unit :=
  let* o := get in
  let* b := lift (splice (buf o) (pos o) [u8 c]) in
  put (set_pos (pos o + 1) (set_buf b o)).

Definition raise_top : ODR unit :=
  modify (fun o => if top o <? pos o then set_top (pos o) o else o).

Definition odr_putc (c : Z) : ODR Z :=
  let* o := get in
  if pos o <? size o then put_at_pos c ;; raise_top ;; ret 0
  else
    let* r := odr_grow_block 1 in
    if r =? 0 then put_at_pos c ;; raise_top ;; ret 0
    else modify (set_error OSPACE) ;; ret (-1).

Definition odr_write (bs : list Z) (bytes : Z) : ODR Z :=
  let* o := get in
  if (bytes <? 0) || (INT_MAX - bytes <? pos o)
  then odr_seterror OSPACE 40 ;; ret (-1)
  else
    let* g := (if size o <=? pos o + bytes then odr_grow_block bytes else ret 0) in
    if negb (g =? 0) then odr_seterror OSPACE 40 ;; ret (-1)
    else
      let* o := get in
      let* src := lift (sub bs 0 bytes) in
      let* b := lift (splice (buf o) (pos o) src) in
      put (set_pos (pos o + bytes) (set_buf b o)) ;;
      raise_top ;;
      ret 0.

Definition odr_seek (whence offset : Z) : ODR Z :=
  let* o := get in
  let offset :=
    if whence =? ODR_S_CUR then offset + pos o
    else if whence =? ODR_S_END then offset + top o
    else offset in
  let* g := (if size o <? offset then odr_grow_block (offset - size o) else ret 0) in
  if negb (g =? 0) then odr_seterror OSPACE 41 ;; ret (-1)
  else modify (set_pos offset) ;; ret 0.

(** ** Life of a handle (odr.c) *)

(** The memory pool and the character set converter, which [odr_reset] also
    resets, are not part of this state. *)
Definition odr_reset : ODR unit :=
  odr_seterror ONONE 0 ;;
  modify (set_bp 0) ;;
  odr_seek ODR_S_SET 0 ;;
  modify (set_top 0) ;;
  modify (set_t_class (-1)) ;;
  modify (set_t_tag (-1)) ;;
  modify (set_indent 0) ;;
  modify (set_stack_alloc 0) ;;
  modify (set_stack []) ;;
  modify (set_stack_depth 0) ;;
  modify (set_choice_bias (-1)) ;;
  modify (set_lenlen 1).

(** A new handle.  Fields that [xmalloc] leaves indeterminate are taken from
    [junk]. *)
Definition odr_createmem (dir : Z) (junk_ : Z -> Z) : option odr :=
  let any := s32 (junk_ (-2)) in
  snd <$> odr_reset
    (mkOdr dir any any [] [] 0 0 0 0 true any any (-1) any any any [] any any true any any any
       [] junk_).

(** [odr_setbuf(o, buf, zlen b, can_grow)] *)
Definition odr_setbuf (b : list Z) (grow : bool) : ODR unit :=
  odr_seterror ONONE 0 ;;
  modify (fun o =>
    set_size (zlen b) (set_pos 0 (set_top 0 (set_can_grow grow (set_buf b (set_bp 0 o)))))).

(** The buffer, the number of bytes in it, and its size. *)
Definition odr_getbuf (o : odr) : list Z * Z * Z := (buf o, top o, size o).

Definition odr_offset (o : odr) : Z := bp o.

#[global] Arguments odr_grow_block : simpl never.
#[global] Arguments put_at_pos : simpl never.
#[global] Arguments raise_top : simpl never.
#[global] Arguments odr_putc : simpl never.
#[global] Arguments odr_write : simpl never.
#[global] Arguments odr_seek : simpl never.
#[global] Arguments odr_seterror : simpl never.
#[global] Arguments odr_setelement : simpl never.

(** The directions are different numbers. *)
Lemma dir_ed : (ODR_ENCODE =? ODR_DECODE) = false. Proof. done. Qed.
Lemma dir_ee : (ODR_ENCODE =? ODR_ENCODE) = true. Proof. done. Qed.
Lemma dir_ep : (ODR_ENCODE =? ODR_PRINT) = false. Proof. done. Qed.
Lemma dir_dd : (ODR_DECODE =? ODR_DECODE) = true. Proof. done. Qed.
Lemma dir_de : (ODR_DECODE =? ODR_ENCODE) = false. Proof. done. Qed.
Lemma dir_dp : (ODR_DECODE =? ODR_PRINT) = false. Proof. done. Qed.
Lemma dir_pd : (ODR_PRINT =? ODR_DECODE) = false. Proof. done. Qed.
Lemma dir_pe : (ODR_PRINT =? ODR_ENCODE) = false. Proof. done. Qed.
Lemma dir_pp : (ODR_PRINT =? ODR_PRINT) = true. Proof. done. Qed.
Lemma negb_00 : negb (0 =? 0) = false. Proof. done. Qed.
Lemma negb_true : negb true = false. Proof. done. Qed.
Lemma negb_false : negb false = true. Proof. done. Qed.
#[export] Hint Rewrite dir_ed dir_ee dir_ep dir_dd dir_de dir_dp dir_pd dir_pe dir_pp
  negb_00 negb_true negb_false : mon.

(** ** The buffer invariant and the bytes produced *)

Record buf_ok (o : odr) : Prop := {
  ok_pos : 0 <= pos o <= size o;
  ok_top : 0 <= top o <= size o;
  ok_size : zlen (buf o) = size o;
  ok_max : size o <= INT_MAX;
  ok_bytes : bytes_ok (buf o);
}.

(** What [odr_getbuf] returns: the first [top] bytes. *)
Definition out (o : odr) : list Z := take (Z.to_nat (top o)) (buf o).

(** [n] more bytes can be written at the current position: the buffer may
    grow without overflowing an [int], or is large enough already. *)
Definition room (o : odr) (n : Z) : Prop :=
  (can_grow o = true /\ 2 * (pos o + n) <= INT_MAX) \/ pos o + n < size o.

(** The handle with its buffer blanked: what a write does not change. *)
Definition non_buf (o : odr) : odr :=
  set_buf [] (set_pos 0 (set_top 0 (set_size 0 o))).

Lemma non_buf_can_grow o o' : non_buf o' = non_buf o -> can_grow o' = can_grow o.
Proof. intros H. exact (f_equal can_grow H). Qed.

(** [o'] is [o] after [bs] was written at the current position: only the
    buffer changed, and [bs] replaces what was there. *)
Record wrote (o o' : odr) (bs : list Z) : Prop := {
  wrote_frame : non_buf o' = non_buf o;
  wrote_pos : pos o' = pos o + zlen bs;
  wrote_top : top o' = Z.max (top o) (pos o');
  wrote_size : size o <= size o';
  wrote_out :
    out o' = take (Z.to_nat (pos o)) (out o) ++ bs
             ++ drop (Z.to_nat (pos o) + length bs) (out o);
  wrote_ok : buf_ok o';
}.

Lemma take_splice {A} (b bs : list A) p t :
  (p <= t <= length b)%nat -> (p + length bs <= length b)%nat ->
  take (t `max` (p + length bs)) (take p b ++ bs ++ drop (p + length bs) b) =
  take p (take t b) ++ bs ++ drop (p + length bs) (take t b).
Proof.
  intros Ht Hp. rewrite take_app, take_app, length_take.
  rewrite (take_ge (take p b)) by (rewrite length_take; lia).
  rewrite take_take, (Nat.min_l p t) by lia. f_equal.
  rewrite (take_ge bs) by lia. f_equal.
  rewrite skipn_firstn_comm. f_equal. lia.
Qed.

Lemma out_zlen o : buf_ok o -> zlen (out o) = top o.
Proof.
  intros []. unfold out, zlen in *. rewrite length_take. lia.
Qed.

(** The handle after [bs] is stored at [pos] in a buffer of size [sz]. *)
Lemma wrote_intro o bs b b' sz :
  buf_ok o -> pos o <= top o -> bytes_ok bs ->
  size o <= sz <= INT_MAX -> zlen b = sz -> bytes_ok b ->
  take (length (buf o)) b = buf o ->
  pos o + zlen bs <= sz ->
  splice b (pos o) bs = Some b' ->
  wrote o (set_buf b' (set_pos (pos o + zlen bs)
             (set_top (Z.max (top o) (pos o + zlen bs)) (set_size sz o)))) bs.
Proof.
  intros [Hp Ht Hs Hm Hb] Hpt Hbs Hsz Hlb Hbb Hpre Hfit Hsp.
  rewrite splice_spec in Hsp by lia. injection Hsp as <-.
  pose proof (zlen_nonneg bs) as Hnn.
  split; simpl; [done|done|done|lia| |].
  - unfold out. simpl. unfold zlen in *.
    replace (Z.to_nat (Z.max (top o) (pos o + Z.of_nat (length bs))))
      with (Z.to_nat (top o) `max` (Z.to_nat (pos o) + length bs))%nat by lia.
    rewrite take_splice by lia.
    assert (take (Z.to_nat (top o)) (buf o) = take (Z.to_nat (top o)) b) as ->.
    { rewrite <- Hpre, take_take. f_equal. lia. }
    done.
  - split; simpl; [lia|lia| |lia|].
    + unfold zlen in *. rewrite !length_app, length_take, length_drop. lia.
    + unfold bytes_ok in *. rewrite !Forall_app.
      split_and!; [by apply Forall_take|done|by apply Forall_drop].
Qed.

Lemma fresh_bytes o a n : bytes_ok (fresh o a n).
Proof. unfold bytes_ok, fresh. rewrite Forall_map. apply Forall_forall. intros. apply u8_ok. Qed.

Lemma fresh_zlen o a n : 0 <= n -> zlen (fresh o a n) = n.
Proof. intros. unfold fresh, zlen. rewrite length_map, length_seq. lia. Qed.

(** Growing keeps the contents and adds at least [n] bytes. *)
Lemma odr_grow_block_spec o n :
  buf_ok o -> can_grow o = true -> 0 <= n ->
  size o <= pos o + n -> 2 * (pos o + n) <= INT_MAX ->
  exists b sz,
    odr_grow_block n o = Some (0, set_buf b (set_size sz o)) /\
    size o <= sz <= INT_MAX /\ pos o + n <= sz /\ zlen b = sz /\ bytes_ok b /\
    take (length (buf o)) b = buf o.
Proof.
  intros [Hp Ht Hs Hm Hb] Hg Hn Hsz Hmax.
  unfold odr_grow_block, bind, get, put, ret. rewrite Hg. simpl.
  set (tg := if (if size o =? 0 then 1024 else size o) <? n then n
             else (if size o =? 0 then 1024 else size o)).
  assert (n <= tg /\ 0 < tg /\ size o + tg <= INT_MAX) as (Hn' & Htg & Hov).
  { subst tg. unfold INT_MAX in *. destruct (Z.eqb_spec (size o) 0); ztest. }
  rewrite (proj2 (Z.ltb_ge _ _)) by lia.
  do 2 eexists. split; [reflexivity|]. split; [lia|]. split; [lia|].
  split; [rewrite zlen_app, fresh_zlen by lia; lia|].
  split; [apply Forall_app; split; [done|apply fresh_bytes]|].
  rewrite take_app_le by lia. by apply take_ge.
Qed.

(** ** Writing *)

Lemma room_mono o n m : room o n -> 0 <= m <= n -> room o m.
Proof. intros [[]|] ?; [left; split; [done|lia]|right; lia]. Qed.

Lemma room_wrote o o' bs n :
  wrote o o' bs -> room o (zlen bs + n) -> room o' n.
Proof.
  intros [Hf Hp _ Hs _ _] [[Hg Hm]|Hm].
  - left. split; [by rewrite (non_buf_can_grow _ _ Hf)|lia].
  - right. lia.
Qed.

(** A block [b] of size [sz] that begins with the buffer: what
    [odr_grow_block] leaves, or the buffer itself. *)
Record extends (o : odr) (b : list Z) (sz : Z) : Prop := {
  ext_size : size o <= sz <= INT_MAX;
  ext_len : zlen b = sz;
  ext_bytes : bytes_ok b;
  ext_prefix : take (length (buf o)) b = buf o;
}.

Lemma extends_refl o : buf_ok o -> extends o (buf o) (size o).
Proof. intros []. split; [lia|done|done|by apply take_ge]. Qed.

(** Make room for [n] bytes at [pos], as [odr_putc] and [odr_write] do. *)
Lemma make_room o n (c : bool) :
  buf_ok o -> 0 <= n -> room o n ->
  (c = false -> pos o + n <= size o) -> (c = true -> size o <= pos o + n) ->
  exists b sz,
    (if c then odr_grow_block n else ret 0) o = Some (0, set_buf b (set_size sz o))
    /\ extends o b sz /\ pos o + n <= sz.
Proof.
  intros Hok Hn Hroom Hf Ht. destruct c; simpl.
  - destruct Hroom as [[Hg H2]|]; [|specialize (Ht eq_refl); lia].
    destruct (odr_grow_block_spec o n) as (b & sz & Hb & ? & ? & ? & ? & ?); [auto..|].
    exists b, sz. split; [exact Hb|]. split; [by split|done].
  - exists (buf o), (size o). split; [by destruct o|]. split; [by apply extends_refl|auto].
Qed.

Lemma store_spec o bs b sz b' :
  buf_ok o -> pos o <= top o -> bytes_ok bs -> extends o b sz ->
  pos o + zlen bs <= sz -> splice b (pos o) bs = Some b' ->
  exists o',
    raise_top (set_pos (pos o + zlen bs) (set_buf b' (set_buf b (set_size sz o))))
      = Some (tt, o') /\ wrote o o' bs.
Proof.
  intros Hok Hpt Hbs [] Hfit Hsp. eexists. split; [reflexivity|]. simpl.
  pose proof (wrote_intro o bs b b' sz) as W.
  destruct (Z.ltb_spec (top o) (pos o + zlen bs));
    [rewrite Z.max_r in W by lia | rewrite Z.max_l in W by lia]; by apply W.
Qed.

Lemma odr_write_spec o bs :
  buf_ok o -> pos o <= top o -> bytes_ok bs -> room o (zlen bs) ->
  exists o', odr_write bs (zlen bs) o = Some (0, o') /\ wrote o o' bs.
Proof.
  intros Hok Hpt Hbs Hroom. pose proof (zlen_nonneg bs).
  pose proof Hok as [Hp Ht Hs Hm Hb].
  unfold odr_write, bind, get, put, ret, lift. simpl.
  assert (pos o + zlen bs <= INT_MAX) by (unfold room in Hroom; lia).
  rewrite (proj2 (Z.ltb_ge (zlen bs) 0)), (proj2 (Z.ltb_ge _ (pos o))) by lia. simpl.
  destruct (make_room o (zlen bs) (size o <=? pos o + zlen bs))
    as (b & sz & Hgr & He & Hfit); [done..|ztest|ztest|].
  unfold ret in Hgr. rewrite Hgr. simpl.
  rewrite sub_spec by lia. simpl. rewrite drop_0, take_ge by (unfold zlen; lia).
  rewrite splice_spec by (destruct He; lia).
  edestruct (store_spec o bs b sz) as (o' & Hst & W);
    [done..|apply splice_spec; destruct He; lia|].
  exists o'. split; [|exact W]. by injection Hst as <-.
Qed.

Lemma odr_putc_spec o c :
  buf_ok o -> pos o <= top o -> room o 1 ->
  exists o', odr_putc c o = Some (0, o') /\ wrote o o' [u8 c].
Proof.
  intros Hok Hpt Hroom. pose proof Hok as [Hp Ht Hs Hm Hb].
  assert (bytes_ok [u8 c]) as Hbs by (repeat constructor; apply u8_ok).
  destruct (make_room o 1 (negb (pos o <? size o)))
    as (b & sz & Hgr & He & Hfit); [done|done|done|ztest|ztest|].
  edestruct (store_spec o [u8 c] b sz) as (o' & Hst & W);
    [done..|apply splice_spec; destruct He; zl|].
  exists o'. split; [|exact W].
  unfold odr_putc, put_at_pos, bind, get, put, ret, lift in *. simpl in *.
  destruct (Z.ltb_spec (pos o) (size o)); simpl in Hgr; rewrite ?Hgr.
  - injection Hgr as Hgr.
    assert (b = buf o /\ sz = size o) as [-> ->] by (by rewrite Hgr).
    rewrite splice_spec by zl. by injection Hst as <-.
  - simpl. rewrite splice_spec by (destruct He; zl). by injection Hst as <-.
Qed.

(** Two writes in a row. *)
Lemma wrote_trans o o1 o2 a b :
  buf_ok o -> pos o <= top o ->
  wrote o o1 a -> wrote o1 o2 b -> wrote o o2 (a ++ b).
Proof.
  intros Hok Hpt [F1 P1 T1 S1 O1 K1] [F2 P2 T2 S2 O2 K2].
  pose proof (out_zlen o Hok) as Hz. destruct Hok.
  pose proof (zlen_nonneg a). pose proof (zlen_nonneg b).
  split; [by rewrite F2|zl|lia|lia| |done].
  rewrite O2, O1, P1. unfold zlen in *.
  replace (Z.to_nat (pos o + Z.of_nat (length a))) with (Z.to_nat (pos o) + length a)%nat by lia.
  set (p := Z.to_nat (pos o)). set (s := out o) in *.
  assert (p <= length s)%nat by lia.
  rewrite (app_assoc (take p s)).
  rewrite take_app_length' by (rewrite length_app, length_take; lia).
  rewrite drop_app_ge by (rewrite length_app, length_take; lia).
  rewrite drop_drop, length_app, length_take, length_app.
  rewrite <- !app_assoc. do 3 f_equal. f_equal. lia.
Qed.

(** Going back to replace the first byte written. *)
Lemma wrote_patch o o1 o2 x y bs :
  buf_ok o -> pos o <= top o ->
  wrote o o1 (x :: bs) -> wrote (set_pos (pos o) o1) o2 [y] ->
  wrote o (set_pos (pos o1) o2) (y :: bs) /\ top o2 = top o1 /\ size o1 <= size o2.
Proof.
  intros Hok Hpt [F1 P1 T1 S1 O1 K1] [F2 P2 T2 S2 O2 K2]. simpl in *.
  pose proof (out_zlen o Hok) as Hz. destruct Hok. rewrite zlen_cons in P1.
  change (zlen [y]) with 1 in P2. pose proof (zlen_nonneg bs) as Hnn.
  assert (top o2 = top o1) as Ht by lia.
  split; [|by split].
  destruct K2. split; simpl; [|rewrite zlen_cons; lia|lia|lia| |split; simpl; done || lia].
  { change (non_buf o2 = non_buf o). by rewrite F2. }
  change (out (set_pos (pos o1) o2)) with (out o2).
  change (out (set_pos (pos o) o1)) with (out o1) in O2.
  rewrite O2, O1. unfold zlen in Hz.
  set (p := Z.to_nat (pos o)). set (s := out o) in *.
  assert (p <= length s)%nat by lia.
  rewrite take_app_length' by (rewrite length_take; lia).
  rewrite drop_app_ge by (rewrite length_take; lia).
  rewrite length_take. replace (p + 1 - p `min` length s)%nat with 1%nat by lia.
  done.
Qed.

(** ** Appending

    The common case of an encoder: the cursor is at the top of the stream and
    what is written is added to the bytes produced so far. *)

Record appended (o o' : odr) (bs : list Z) : Prop := {
  app_frame : non_buf o' = non_buf o;
  app_pos : pos o' = pos o + zlen bs;
  app_top : pos o' = top o';
  app_size : size o <= size o';
  app_out : out o' = out o ++ bs;
  app_ok : buf_ok o';
}.

(** Ready to append [n] bytes. *)
Definition at_end (o : odr) (n : Z) : Prop :=
  buf_ok o /\ pos o = top o /\ room o n.

Lemma wrote_appended o o' bs :
  buf_ok o -> wrote o o' bs -> pos o = top o -> appended o o' bs.
Proof.
  intros Hok [Hf Hp Ht Hs Hout Hok'] Hpt. pose proof (zlen_nonneg bs).
  split; [done..|lia|lia| |done]. rewrite Hout, Hpt.
  pose proof (out_zlen o Hok) as Hz. unfold zlen in Hz.
  rewrite take_ge, drop_ge, app_nil_r by lia. done.
Qed.

Lemma appended_nil o : buf_ok o -> pos o = top o -> appended o o [].
Proof. intros. split; [done|zl|done|lia|by rewrite app_nil_r|done]. Qed.

Lemma appended_trans o o1 o2 a b :
  appended o o1 a -> appended o1 o2 b -> appended o o2 (a ++ b).
Proof.
  intros [F1 P1 T1 S1 O1 K1] [F2 P2 T2 S2 O2 K2].
  split; [by rewrite F2|zl|done|lia|by rewrite O2, O1, app_assoc|done].
Qed.

Lemma at_end_appended o o' bs n :
  at_end o (zlen bs + n) -> appended o o' bs -> at_end o' n.
Proof.
  intros (Hok & Hpt & Hroom) [F P T S _ K]. split; [done|]. split; [done|].
  destruct Hroom as [[Hg Hm]|Hm]; [left|right; lia].
  split; [by rewrite (non_buf_can_grow _ _ F)|lia].
Qed.

Lemma at_end_mono o n m : at_end o n -> 0 <= m <= n -> at_end o m.
Proof. intros (?&?&?) ?. split_and!; [done..|]. by eapply room_mono. Qed.

(** [m] returns [r] and appends [bs], on every stream with room for it. *)
Definition emits (m : ODR Z) (r : Z) (bs : list Z) : Prop :=
  forall o, at_end o (zlen bs) -> exists o', m o = Some (r, o') /\ appended o o' bs.

Lemma emits_ret r : emits (ret r) r [].
Proof. intros o (?&?&_). exists o. split; [done|by apply appended_nil]. Qed.

Lemma emits_bind m k r1 r bs1 bs2 :
  emits m r1 bs1 -> emits (k r1) r bs2 -> emits (bind m k) r (bs1 ++ bs2).
Proof.
  intros H1 H2 o Ho. pose proof (zlen_nonneg bs1). pose proof (zlen_nonneg bs2).
  rewrite zlen_app in Ho.
  destruct (H1 o) as (o1 & E1 & A1); [eapply at_end_mono; [done|lia]|].
  destruct (H2 o1) as (o2 & E2 & A2); [by eapply at_end_appended|].
  exists o2. split; [|by eapply appended_trans].
  unfold bind. by rewrite E1.
Qed.

Lemma emits_putc c : emits (odr_putc c) 0 [u8 c].
Proof.
  intros o (Hok & Hpt & Hroom).
  destruct (odr_putc_spec o c) as (o' & E & W); [done|lia|done|].
  exists o'. split; [done|by apply wrote_appended].
Qed.

Lemma emits_write bs : bytes_ok bs -> emits (odr_write bs (zlen bs)) 0 bs.
Proof.
  intros Hbs o (Hok & Hpt & Hroom).
  destruct (odr_write_spec o bs) as (o' & E & W); [done|lia|done..|].
  exists o'. split; [done|by apply wrote_appended].
Qed.

(** A write followed by the code's test of its return value. *)
Lemma emits_putc_then c (k : ODR Z) (x r : Z) bs :
  emits k r bs ->
  emits (let* e := odr_putc c in if e <? 0 then ret x else k) r (u8 c :: bs).
Proof. intros Hk. apply (emits_bind _ _ 0 r [u8 c] bs); [apply emits_putc|done]. Qed.

Lemma emits_eq m r bs bs' : emits m r bs -> bs = bs' -> emits m r bs'.
Proof. by intros ? <-. Qed.

#[export] Hint Resolve emits_ret emits_putc emits_write emits_putc_then : yaz.

(** ** Seeking *)

Lemma odr_seek_spec o whence offset :
  0 <= (if whence =? ODR_S_CUR then offset + pos o
        else if whence =? ODR_S_END then offset + top o else offset) <= size o ->
  odr_seek whence offset o =
    Some (0, set_pos (if whence =? ODR_S_CUR then offset + pos o
                      else if whence =? ODR_S_END then offset + top o else offset) o).
Proof.
  intros H. unfold odr_seek, bind, get, modify, ret.
  rewrite (proj2 (Z.ltb_ge _ _)) by apply H. done.
Qed.

Lemma odr_seek_set o n :
  0 <= n <= size o -> odr_seek ODR_S_SET n o = Some (0, set_pos n o).
Proof. apply (odr_seek_spec o ODR_S_SET). Qed.

Lemma odr_seek_end o :
  buf_ok o -> odr_seek ODR_S_END 0 o = Some (0, set_pos (top o) o).
Proof. intros []. apply (odr_seek_spec o ODR_S_END). simpl. lia. Qed.

(** A buffer that may not grow: a write that does not fit leaves it alone,
    fails and records [OSPACE]. *)
Lemma odr_putc_full o c :
  can_grow o = false -> size o <= pos o ->
  odr_putc c o = Some (-1, set_error OSPACE o).
Proof.
  intros Hg Hs. unfold odr_putc, odr_grow_block, bind, get, modify, ret.
  rewrite (proj2 (Z.ltb_ge _ _)) by lia. by rewrite Hg.
Qed.

(** In a buffer that may not grow, a write that would reach the end of
    the buffer (even one that would just fill it) writes nothing, returns -1
    and records [OSPACE]. *)
Theorem odr_write_full (o : odr) (bs : list Z) (n : Z) :
  can_grow o = false -> 0 <= n -> pos o <= INT_MAX - n -> size o <= pos o + n ->
  odr_write bs n o =
    Some (-1, set_element [] (set_error_id 40 (set_error OSPACE o))).
Proof.
  intros Hg Hn Hp Hs. unfold odr_write, odr_grow_block, odr_seterror, bind, get, modify, ret.
  rewrite (proj2 (Z.ltb_ge n 0)), (proj2 (Z.ltb_ge _ _)) by lia. simpl.
  rewrite (proj2 (Z.leb_le _ _)) by lia. by rewrite Hg.
Qed.

Lemma odr_write_full_witness :
  let o := mkOdr ODR_ENCODE 0 0 [] [9; 9; 9] 0 1 1 3 false 0 0 0 0 0 0 [] 0 0 true 0 1 0 []
             (fun _ => 0) in
  odr_write [5; 6] 2 o = Some (-1, set_element [] (set_error_id 40 (set_error OSPACE o))).
Proof.
  intros o. apply (odr_write_full o [5; 6] 2); [done|lia|unfold INT_MAX; simpl; lia|simpl; lia].
Defined.

(** ** The stream refines a file with a cursor *)

Module File.

(** The abstract object: contents and cursor. *)
Record file := mkFile { contents : list Z; cursor : nat }.

Inductive op :=
  | Putc (c : Z)
  | Write (bs : list Z)
  | SeekSet (n : nat)
  | SeekEnd.

(** Writing at the cursor replaces what is there and extends the file. *)
Definition overwrite (f : file) (bs : list Z) : file :=
  mkFile (take (cursor f) (contents f) ++ bs
          ++ drop (cursor f + length bs) (contents f))
         (cursor f + length bs).

Definition exec1 (a : op) (f : file) : file :=
  match a with
  | Putc c => overwrite f [u8 c]
  | Write bs => overwrite f bs
  | SeekSet n => mkFile (contents f) n
  | SeekEnd => mkFile (contents f) (length (contents f))
  end.

Definition exec (l : list op) (f : file) : file := fold_left (fun f a => exec1 a f) l f.

(** The same operations by the code; [Some] of the list of return values. *)
Definition run1 (a : op) : ODR Z :=
  match a with
  | Putc c => odr_putc c
  | Write bs => odr_write bs (zlen bs)
  | SeekSet n => odr_seek ODR_S_SET (Z.of_nat n)
  | SeekEnd => odr_seek ODR_S_END 0
  end.

Fixpoint run (l : list op) : ODR (list Z) :=
  match l with
  | [] => ret []
  | a :: l => let* r := run1 a in let* rs := run l in ret (r :: rs)
  end.

(** Operations the file allows: bytes are bytes, seeks stay inside. *)
Definition valid1 (a : op) (f : file) : Prop :=
  match a with
  | Putc _ | SeekEnd => True
  | Write bs => bytes_ok bs
  | SeekSet n => (n <= length (contents f))%nat
  end.

Fixpoint valid (l : list op) (f : file) : Prop :=
  match l with
  | [] => True
  | a :: l => valid1 a f /\ valid l (exec1 a f)
  end.

Definition cost (a : op) : Z :=
  match a with Putc _ => 1 | Write bs => zlen bs | _ => 0 end.

Definition costs (l : list op) : Z := fold_right (fun a n => cost a + n) 0 l.

(** The relation between a handle and the file it implements. *)
Record repr (o : odr) (f : file) : Prop := {
  repr_ok : buf_ok o;
  repr_out : out o = contents f;
  repr_pos : pos o = Z.of_nat (cursor f);
  repr_in : (cursor f <= length (contents f))%nat;
}.

Lemma repr_top o f : repr o f -> top o = zlen (contents f).
Proof. intros [Hok <- _ _]. by rewrite out_zlen. Qed.

Lemma repr_wrote o o' f bs :
  repr o f -> wrote o o' bs -> repr o' (overwrite f bs).
Proof.
  intros [Hok Hout Hp Hin] [Hf Hp' _ _ Hout' Hok'].
  split; simpl; [done| | |].
  - rewrite Hout', Hout, Hp, Nat2Z.id. done.
  - unfold zlen in Hp'. lia.
  - rewrite !length_app, length_take, length_drop. lia.
Qed.

(** One step: the code succeeds and stays related to the file. *)
Lemma run1_refines o f a :
  repr o f -> valid1 a f -> can_grow o = true ->
  2 * (top o + cost a) <= INT_MAX ->
  exists o', run1 a o = Some (0, o') /\ repr o' (exec1 a f) /\
    can_grow o' = true /\ top o' <= top o + cost a.
Proof.
  intros Hr Hv Hg Hc. pose proof (repr_top _ _ Hr) as Ht.
  destruct Hr as [Hok Hout Hp Hin] eqn:E. clear E. unfold zlen in Ht.
  assert (pos o <= top o) as Hpt by lia.
  assert (room o (cost a)) as Hroom by (left; split; [done|lia]).
  destruct a as [c|bs|n|]; simpl in *.
  - destruct (odr_putc_spec o c) as (o' & -> & W); [done..|].
    exists o'. split; [done|]. split; [by eapply repr_wrote|].
    split; [by rewrite (non_buf_can_grow _ _ (wrote_frame _ _ _ W))|].
    rewrite (wrote_top _ _ _ W), (wrote_pos _ _ _ W). zl.
  - destruct (odr_write_spec o bs) as (o' & -> & W); [done..|].
    exists o'. split; [done|]. split; [by eapply repr_wrote|].
    split; [by rewrite (non_buf_can_grow _ _ (wrote_frame _ _ _ W))|].
    pose proof (zlen_nonneg bs).
    rewrite (wrote_top _ _ _ W), (wrote_pos _ _ _ W). lia.
  - destruct Hok. rewrite odr_seek_set by lia. eexists. split; [done|].
    repeat split; simpl; done || lia.
  - rewrite odr_seek_end by done. eexists. split; [done|].
    destruct Hok. repeat split; simpl; done || lia.
Qed.

Lemma run_refines_gen l : forall o f,
  repr o f -> valid l f -> can_grow o = true ->
  2 * (top o + costs l) <= INT_MAX ->
  exists o', run l o = Some (map (fun _ => 0) l, o') /\ repr o' (exec l f).
Proof.
  induction l as [|a l IH]; intros o f Hr Hv Hg Hc; [by exists o|].
  destruct Hv as [Hv1 Hv]. unfold costs in Hc. simpl in Hc. fold (costs l) in Hc.
  assert (0 <= costs l).
  { clear. induction l as [|b l IH]; [done|]. unfold costs in *. simpl.
    destruct b as [|bs| |]; simpl; try pose proof (zlen_nonneg bs); lia. }
  destruct (run1_refines o f a) as (o1 & Hr1 & Hrep1 & Hg1 & Ht1); [done..|lia|].
  destruct (IH o1 (exec1 a f)) as (o2 & Hr2 & Hrep2); [done..|lia|].
  exists o2. split; [|done]. simpl. unfold bind. by rewrite Hr1, Hr2.
Qed.

(** C11: a new encoding stream behaves like a file with a cursor: any
    sequence of [odr_putc], [odr_write] and seeks inside what was written, of
    up to 2^30 bytes in all, succeeds at every step, and [odr_getbuf] then
    returns the contents of the file, with the position at its cursor. *)
Theorem odr_stream_refines_file (j : Z -> Z) (l : list op) :
  valid l (mkFile [] 0) -> 2 * costs l <= INT_MAX ->
  exists o o' b n sz, odr_createmem ODR_ENCODE j = Some o /\
    run l o = Some (map (fun _ => 0) l, o') /\ odr_getbuf o' = (b, n, sz) /\
    sub b 0 n = Some (contents (exec l (mkFile [] 0))) /\
    odr_tell o' = Z.of_nat (cursor (exec l (mkFile [] 0))).
Proof.
  intros Hv Hc. eexists.
  edestruct (run_refines_gen l) as (o' & Hrun & [[Hp Ht Hs Hm Hb] Hout Hpos Hin]);
    [|exact Hv| | |do 4 eexists; split; [reflexivity|]; split; [exact Hrun|]; split; [reflexivity|]].
  - split; [split; simpl; done || lia || constructor|done|done|simpl; lia].
  - done.
  - simpl. lia.
  - split; [|done]. rewrite sub_spec by lia. f_equal. rewrite drop_0. exact Hout.
Qed.

(** The length of a value filled in after its contents. *)
Lemma odr_stream_refines_file_witness :
  let l := [Putc 48; Putc 0; Write [2; 1; 5]; SeekSet 1; Putc 3; SeekEnd; Putc 4] in
  exists o o' b n sz, odr_createmem ODR_ENCODE (fun _ => 7) = Some o /\
    run l o = Some (map (fun _ => 0) l, o') /\ odr_getbuf o' = (b, n, sz) /\
    sub b 0 n = Some [48; 3; 2; 1; 5; 4] /\ odr_tell o' = 6.
Proof.
  intros l. apply (odr_stream_refines_file (fun _ => 7) l); [|done].
  repeat split; simpl; try lia. repeat constructor; unfold byte_ok; lia.
Defined.

End File.
