(* ===== verification/BerTag.v ===== *)
(** * BER identifier octets (ber_tag.c: [ber_enctag], [ber_dectag])

    [ber_enctag] writes class, constructed bit and tag number; [ber_dectag]
    reads them back from a bounded buffer.  The loops over 7-bit groups are
    shared with the object identifier codec of BerPrim. *)

From stdpp Require Import base list numbers option strings.
From Stdlib Require Import ZArith Lia.
From S2P Require Import Prelude OdrMem.

(** ** Encoding *)

(** [do { octs[n++] = id & 0x7F; id >>= 7; } while (id);] with [octs] an array
    of [room] bytes.  The array is listed from its last element, the order in
    which it is written out. *)
Fixpoint base128_octs (room : nat) (id : Z) (octs : list Z) : option (list Z) :=
  match room with
  | O => None
  | S room =>
      let octs := Z.land id 127 :: octs in
      let id := Z.shiftr id 7 in
      if id =? 0 then Some octs else base128_octs room id octs
  end.

(** [while (n--) putc(octs[n] | ((n > 0) << 7))]; 0, or -1 when a write fails. *)
Fixpoint base128_put (octs : list Z) : ODR Z :=
  match octs with
  | [] => ret 0
  | d :: rest =>
      let* r := odr_putc (Z.lor d (Z.shiftl (b2z (0 <? zlen rest)) 7)) in
      if r <? 0 then ret (-1) else base128_put rest
  end.

Definition ber_enctag (zclass tag constructed : Z) : ODR Z :=
  let cons := if constructed =? 0 then 0 else 1 in
  let b := Z.land (Z.shiftl zclass 6) 192 in
  let b := Z.lor b (Z.land (Z.shiftl cons 5) 32) in
  if tag <=? 30 then
    let* r := odr_putc (Z.lor b (Z.land tag 31)) in
    if r <? 0 then ret (-1) else ret 1
  else
    let* r := odr_putc (Z.lor b 31) in
    if r <? 0 then ret (-1)
    else
      let* octs := lift (base128_octs 4 tag []) in
      base128_put octs.

(** ** Decoding *)

(** [do { ... } while (b[l++] & 0x80);] over the bytes from [b + l] on.
    Left shifts of an [int] wrap. *)
Fixpoint ber_dectag_long (b : list Z) (l tag max : Z) : option (Z * Z) :=
  if max <=? l then Some (-1, tag)
  else
    match b with
    | [] => None
    | x :: b =>
        let tag := Z.lor (s32 (Z.shiftl tag 7)) (Z.land x 127) in
        if Z.land x 128 =? 0 then Some (l + 1, tag)
        else ber_dectag_long b (l + 1) tag max
    end.

(** What [ber_dectag] assigns through its pointer arguments. *)
Record tag_out := mkTag { tg_class : Z; tg_tag : Z; tg_cons : Z }.

Definition ber_dectag (cp : list Z) (t : tag_out) (max : Z) : option (Z * tag_out) :=
  if max <? 1 then Some (-1, t)
  else
    let? b := rd cp 0 in
    let zclass := Z.shiftr b 6 in
    let constructed := Z.land (Z.shiftr b 5) 1 in
    let tag := Z.land b 31 in
    if tag <=? 30 then Some (1, mkTag zclass tag constructed)
    else
      let? (r, tag) := ber_dectag_long (drop 1 cp) 1 0 max in
      Some (r, mkTag zclass tag constructed).

(** ** The 7-bit groups *)

Lemma base128_octs_val room : forall id octs res,
  0 <= id -> base128_octs room id octs = Some res ->
  exists ds, res = ds ++ octs /\ ds <> [] /\ Forall digit_ok ds /\
    val128 0 ds = id /\ (length ds <= room)%nat.
Proof.
  induction room as [|room IH]; intros id octs res Hid H; [done|]. simpl in H.
  rewrite land_7F, shiftr_7 in H.
  pose proof (Z.mod_pos_bound id 128 ltac:(lia)) as Hm.
  pose proof (Z.div_mod id 128 ltac:(lia)) as Hdm.
  destruct (Z.eqb_spec (id / 128) 0) as [Hz|Hz].
  - injection H as <-. exists [id mod 128]. split; [done|]. split; [done|].
    split; [by apply Forall_singleton|]. split; [|simpl; lia].
    unfold val128. simpl. lia.
  - apply IH in H as (ds & -> & Hne & Hds & Hv & Hlen); [|apply Z.div_pos; lia].
    exists (ds ++ [id mod 128]). split; [by rewrite <- app_assoc|].
    split; [by destruct ds|]. split; [apply Forall_app; split; [done|by apply Forall_singleton]|].
    split; [|rewrite length_app; simpl; lia].
    unfold val128 in *. rewrite fold_left_app, Hv. simpl. lia.
Qed.

Lemma base128_octs_total room : forall id octs,
  0 <= id < 128 ^ Z.of_nat room -> (0 < room)%nat ->
  exists res, base128_octs room id octs = Some res.
Proof.
  induction room as [|room IH]; intros id octs Hid Hr; [lia|]. simpl.
  rewrite shiftr_7. destruct (Z.eqb_spec (id / 128) 0) as [Hz|Hz]; [eauto|].
  rewrite Nat2Z.inj_succ, Z.pow_succ_r in Hid by lia.
  destruct room as [|room]; [rewrite Z.div_small in Hz; simpl in Hid; lia|].
  apply IH; [|lia]. split; [apply Z.div_pos; lia|apply Z.div_lt_upper_bound; lia].
Qed.

(** A larger array changes nothing. *)
Lemma base128_octs_mono a b : forall id octs res,
  base128_octs a id octs = Some res -> base128_octs (a + b) id octs = Some res.
Proof.
  induction a as [|a IH]; intros id octs res H; [done|]. simpl in *.
  destruct (Z.shiftr id 7 =? 0); [done|by apply IH].
Qed.

#[global] Arguments base128_octs : simpl never.

Lemma mark_bit d : digit_ok d -> Z.lor d 128 = d + 128.
Proof.
  intros Hd. rewrite Z.lor_comm. change 128 with (Z.shiftl 1 7) at 1.
  rewrite lor_join; unfold digit_ok in Hd; lia.
Qed.


(** Writing the groups emits the marked bytes. *)
Lemma base128_put_emits ds :
  Forall digit_ok ds -> emits (base128_put ds) 0 (mark128 ds).
Proof.
  induction 1 as [|d ds Hd Hds IH]; [apply emits_ret|].
  simpl base128_put. eapply emits_eq; [eapply emits_putc_then, IH|].
  destruct ds as [|d' ds].
  - simpl. rewrite Z.lor_0_r, u8_small by (unfold digit_ok in Hd; lia). done.
  - change (mark128 (d :: d' :: ds)) with ((d + 128) :: mark128 (d' :: ds)).
    rewrite zlen_cons, (proj2 (Z.ltb_lt _ _)) by (pose proof (zlen_nonneg ds); lia).
    change (Z.shiftl (b2z true) 7) with 128.
    rewrite mark_bit, u8_small by (unfold digit_ok in Hd; done || lia). done.
Qed.

(** One iteration of the reading loops, on a group with or without its mark. *)
Lemma group_step acc d x :
  digit_ok d -> x = d \/ x = d + 128 -> 0 <= acc -> acc * 128 + d < 2 ^ 31 ->
  Z.lor (s32 (Z.shiftl acc 7)) (Z.land x 127) = acc * 128 + d /\
  (Z.land x 128 =? 0) = (x <? 128).
Proof.
  intros Hd Hx Hacc Hfit. unfold digit_ok in Hd. split.
  - rewrite s32_small by (rewrite Z.shiftl_mul_pow2 by lia; lia).
    assert (Z.land x 127 = d) as ->; [|by rewrite lor_join by lia].
    rewrite land_7F. destruct Hx as [-> | ->]; [by apply Z.mod_small|].
    symmetry. apply (Z.mod_unique _ _ 1); lia.
  - apply byte_bit8. unfold byte_ok. lia.
Qed.

Lemma val128_cons acc d ds : val128 acc (d :: ds) = val128 (acc * 128 + d) ds.
Proof. done. Qed.

Lemma mark128_cons d ds :
  mark128 (d :: ds) = (if decide (ds = []) then d else d + 128) :: mark128 ds.
Proof. by destruct ds. Qed.

(** Reading marked bytes rebuilds the value, as long as it fits an [int]. *)
Lemma ber_dectag_long_spec ds : forall rest l acc max,
  ds <> [] -> Forall digit_ok ds -> 0 <= acc -> val128 acc ds < 2 ^ 31 ->
  l + zlen ds <= max ->
  ber_dectag_long (mark128 ds ++ rest) l acc max = Some (l + zlen ds, val128 acc ds).
Proof.
  induction ds as [|d ds IH]; intros rest l acc max Hne Hds Hacc Hv Hmax; [done|].
  apply Forall_cons_1 in Hds as [Hd Hds]. rewrite zlen_cons in *.
  rewrite val128_cons in *. pose proof (zlen_nonneg ds).
  assert (0 <= acc * 128 + d) as Hacc' by (unfold digit_ok in Hd; lia).
  pose proof (val128_ge _ ds Hacc' Hds) as Hge.
  rewrite mark128_cons, <- app_comm_cons. cbn [ber_dectag_long].
  rewrite (proj2 (Z.leb_gt _ _)) by lia.
  destruct (group_step acc d (if decide (ds = []) then d else d + 128)) as [-> ->];
    [done|case_decide; auto|done|lia|]. unfold digit_ok in Hd.
  case_decide as E.
  - subst ds. rewrite (proj2 (Z.ltb_lt _ _)) by lia. by rewrite Z.add_0_r.
  - rewrite (proj2 (Z.ltb_ge _ _)) by lia.
    rewrite IH by (done || lia). do 2 f_equal. lia.
Qed.

(** ** Round trip *)

(** The octets [ber_enctag] writes. *)
Definition tag_bytes (zclass tag cons : Z) (bs : list Z) : Prop :=
  if tag <=? 30 then bs = [zclass * 64 + cons * 32 + tag]
  else exists ds, base128_octs 4 tag [] = Some ds /\
         bs = (zclass * 64 + cons * 32 + 31) :: mark128 ds.

(** Class, constructed bit and low tag bits are the fields of one octet. *)
Lemma tag_octet zclass cons t :
  0 <= zclass < 4 -> 0 <= cons <= 1 -> 0 <= t < 32 ->
  u8 (Z.lor (Z.lor (Z.land (Z.shiftl zclass 6) 192) (Z.land (Z.shiftl cons 5) 32)) t)
    = zclass * 64 + cons * 32 + t /\
  let b := zclass * 64 + cons * 32 + t in
  byte_ok b /\ Z.shiftr b 6 = zclass /\ Z.land (Z.shiftr b 5) 1 = cons /\ Z.land b 31 = t.
Proof.
  intros Hz Hc Ht. split.
  - assert (zclass = 0 \/ zclass = 1 \/ zclass = 2 \/ zclass = 3) as Hz' by lia.
    assert (cons = 0 \/ cons = 1) as Hc' by lia.
    assert (byte_ok t) as Hb by (unfold byte_ok; lia).
    apply Z.eqb_eq.
    assert ((t <? 32) = true) as Ht' by (apply Z.ltb_lt; lia).
    destruct Hz' as [-> | [-> | [-> | ->]]], Hc' as [-> | ->];
      (apply (implb_true_iff (t <? 32)); [|exact Ht']; clear Ht Ht'; by_bytes t).
  - intros b. assert (byte_ok b) as Hb by (unfold byte_ok; lia). split; [done|].
    assert (b / 64 = zclass) by (symmetry; apply (Z.div_unique _ _ _ (cons * 32 + t)); lia).
    assert (b / 32 = zclass * 2 + cons) by (symmetry; apply (Z.div_unique _ _ _ t); lia).
    split; [rewrite Z.shiftr_div_pow2 by lia; done|]. split.
    + rewrite Z.shiftr_div_pow2 by lia. change (2 ^ 5) with 32.
      rewrite (land_mask _ 1) by lia. change (2 ^ 1) with 2.
      replace (b / 32) with (cons + zclass * 2) by lia.
      rewrite Z.mod_add by lia. apply Z.mod_small. lia.
    + rewrite (land_mask _ 5) by lia. symmetry. change (2 ^ 5) with 32.
      apply (Z.mod_unique _ _ (zclass * 2 + cons)); lia.
Qed.

Lemma ber_enctag_emits zclass tag cons :
  0 <= zclass < 4 -> 0 <= cons <= 1 -> 0 <= tag < 2 ^ 28 ->
  exists bs, tag_bytes zclass tag cons bs /\
    emits (ber_enctag zclass tag cons) (if tag <=? 30 then 1 else 0) bs.
Proof.
  intros Hz Hc Ht. unfold ber_enctag, tag_bytes.
  replace (if cons =? 0 then 0 else 1) with cons by (destruct (Z.eqb_spec cons 0); lia).
  destruct (Z.leb_spec tag 30) as [Hle|Hgt].
  - eexists. split; [done|].
    destruct (tag_octet zclass cons tag) as [Ho _]; [lia..|].
    eapply emits_eq; [eapply emits_putc_then, emits_ret|].
    rewrite <- Ho. rewrite (land_mask _ 5), Z.mod_small by lia. done.
  - destruct (base128_octs_total 4 tag []) as [ds Hds]; [change (128 ^ Z.of_nat 4) with (2 ^ 28); lia|lia|].
    destruct (base128_octs_val 4 tag [] ds ltac:(lia) Hds) as (ds' & E & _ & Hdig & _).
    rewrite app_nil_r in E. subst ds'.
    destruct (tag_octet zclass cons 31) as [Ho _]; [lia..|].
    eexists. split; [by exists ds|]. rewrite <- Ho.
    apply emits_putc_then.
    intros o Hat. unfold bind, lift. rewrite Hds. by apply base128_put_emits.
Qed.

Lemma ber_dectag_tag_bytes zclass tag cons bs rest t max :
  0 <= zclass < 4 -> 0 <= cons <= 1 -> 0 <= tag < 2 ^ 28 ->
  tag_bytes zclass tag cons bs -> zlen bs <= max ->
  ber_dectag (bs ++ rest) t max = Some (zlen bs, mkTag zclass tag cons).
Proof.
  intros Hz Hc Ht Hbs Hmax. unfold tag_bytes in Hbs.
  assert (1 <= zlen bs) as H1.
  { destruct (tag <=? 30); [|destruct Hbs as (ds & _ & Hbs)]; subst bs;
      rewrite zlen_cons; pose proof (zlen_nonneg (A:=Z)) as H; [specialize (H [])|specialize (H (mark128 ds))]; lia. }
  unfold ber_dectag. rewrite (proj2 (Z.ltb_ge max 1)) by lia.
  destruct (Z.leb_spec tag 30) as [Hle|Hgt].
  - subst bs. destruct (tag_octet zclass cons tag) as (_ & _ & E1 & E2 & E3); [lia..|].
    simpl. rewrite E1, E2, E3, (proj2 (Z.leb_le _ _)) by lia. done.
  - destruct Hbs as (ds & Hds & ->).
    destruct (tag_octet zclass cons 31) as (_ & _ & E1 & E2 & E3); [lia..|].
    destruct (base128_octs_val 4 tag [] ds ltac:(lia) Hds) as (ds' & E & Hne & Hdig & Hv & _).
    rewrite app_nil_r in E. subst ds'.
    assert (zlen (mark128 ds) = zlen ds) as Hl by (unfold zlen; by rewrite mark128_length).
    rewrite zlen_cons in *. rewrite <- app_comm_cons.
    simpl. rewrite E1, E2, E3. simpl. rewrite drop_0.
    rewrite ber_dectag_long_spec by (done || lia). simpl. rewrite Hv, Hl. done.
Qed.

(** ** Safety: no byte beyond [max] is looked at *)

Lemma ber_dectag_long_safe b : forall l tag max,
  max - l <= zlen b ->
  exists r tag', ber_dectag_long b l tag max = Some (r, tag') /\
    (r = -1 \/ l < r <= max).
Proof.
  induction b as [|x b IH]; intros l tag max Hlen; simpl.
  - zl. destruct (Z.leb_spec max l); [|lia]. eauto.
  - destruct (Z.leb_spec max l); [eauto|].
    destruct (Z.land x 128 =? 0); [do 2 eexists; split; [done|lia]|].
    rewrite zlen_cons in Hlen.
    destruct (IH (l + 1) (Z.lor (s32 (Z.shiftl tag 7)) (Z.land x 127)) max)
      as (r & tag' & -> & Hr); [lia|].
    do 2 eexists. split; [done|lia].
Qed.

Lemma ber_dectag_safe cp t max :
  max <= zlen cp ->
  exists r t', ber_dectag cp t max = Some (r, t') /\ (r = -1 \/ 1 <= r <= max).
Proof.
  intros Hlen. unfold ber_dectag. destruct (Z.ltb_spec max 1); [eauto|].
  destruct cp as [|x cp]; [zl|]. simpl.
  destruct (Z.land x 31 <=? 30); [do 2 eexists; split; [done|lia]|].
  rewrite drop_0. rewrite zlen_cons in Hlen.
  destruct (ber_dectag_long_safe cp 1 0 max) as (r & tag' & -> & Hr); [lia|].
  simpl. do 2 eexists. split; [done|lia].
Qed.

(** What is read depends on the first [r] bytes only: more bytes after them,
    or a larger bound, change nothing. *)
Lemma ber_dectag_long_ext b rest : forall l tag max max' r tag',
  ber_dectag_long b l tag max = Some (r, tag') -> 0 < r -> max <= max' ->
  ber_dectag_long (b ++ rest) l tag max' = Some (r, tag').
Proof.
  induction b as [|x b IH]; intros l tag max max' r tag' H Hr Hmax; simpl in *.
  - destruct (Z.leb_spec max l); [|done]. injection H as <- <-. lia.
  - destruct (Z.leb_spec max l); [injection H as <- <-; lia|].
    rewrite (proj2 (Z.leb_gt _ _)) by lia.
    destruct (Z.land x 128 =? 0); [done|]. by eapply IH.
Qed.

Lemma ber_dectag_ext cp rest t t0 max max' r t' :
  ber_dectag cp t max = Some (r, t') -> 0 < r -> max <= max' ->
  ber_dectag (cp ++ rest) t0 max' = Some (r, t').
Proof.
  unfold ber_dectag. intros H Hr Hmax.
  destruct (Z.ltb_spec max 1); [injection H as <- <-; lia|].
  rewrite (proj2 (Z.ltb_ge _ _)) by lia.
  destruct cp as [|x cp]; [done|]. simpl in *. rewrite drop_0 in *.
  destruct (Z.land x 31 <=? 30); [done|].
  destruct (ber_dectag_long cp 1 0 max) as [[r0 tag0]|] eqn:E; [|done].
  simpl in H. injection H as <- <-.
  by rewrite (ber_dectag_long_ext _ rest _ _ _ max' _ _ E).
Qed.

(** ** The properties *)

(** A tag below 2^28 of any class, primitive or constructed, is written by
    [ber_enctag] on every stream with room for it as bytes that [ber_dectag]
    reads back, whatever follows them. *)
Theorem ber_tag_roundtrip (zclass tag cons : Z) :
  0 <= zclass < 4 -> 0 <= cons <= 1 -> 0 <= tag < 2 ^ 28 ->
  exists r bs, emits (ber_enctag zclass tag cons) r bs /\
    forall rest t max, zlen bs <= max ->
      ber_dectag (bs ++ rest) t max = Some (zlen bs, mkTag zclass tag cons).
Proof.
  intros Hz Hc Ht. destruct (ber_enctag_emits zclass tag cons) as (bs & Hbs & He); [done..|].
  do 2 eexists. split; [exact He|]. intros rest t max Hm. by apply ber_dectag_tag_bytes.
Qed.

Lemma ber_tag_roundtrip_witness :
  exists r bs, emits (ber_enctag 2 201 1) r bs /\
    forall rest t max, zlen bs <= max ->
      ber_dectag (bs ++ rest) t max = Some (zlen bs, mkTag 2 201 1).
Proof. apply (ber_tag_roundtrip 2 201 1); lia. Defined.

(** [ber_dectag] never looks beyond the bound it is given: it fails, or
    uses some of those bytes, and then its answer is the same whatever
    follows them. *)
Theorem ber_dectag_local (cp : list Z) (t : tag_out) :
  exists r t', ber_dectag cp t (zlen cp) = Some (r, t') /\
    (r = -1 \/ (1 <= r <= zlen cp /\
       forall rest t0, ber_dectag (cp ++ rest) t0 (zlen (cp ++ rest)) = Some (r, t'))).
Proof.
  destruct (ber_dectag_safe cp t (zlen cp)) as (r & t' & E & Hr); [lia|].
  exists r, t'. split; [done|]. destruct Hr as [Hr|Hr]; [by left|right].
  split; [done|]. intros rest t0. eapply ber_dectag_ext; [exact E|lia|].
  rewrite zlen_app. pose proof (zlen_nonneg rest). lia.
Qed.
