(* ===== verification/BerLen.v ===== *)
(** * BER length octets (ber_len.c: [ber_enclen], [ber_declen])

    Short, long and indefinite forms.  The encoder can be asked for a length
    field of an exact size, which is how the length of a constructed value is
    filled in after its contents.  The theorems: what is written, that
    [ber_declen] reads it back when the length fits three octets, and that it
    refuses the four-octet lengths [ber_enclen] produces from 2^24 on. *)

From stdpp Require Import base list numbers option strings.
From Stdlib Require Import ZArith Lia.
From S2P Require Import Prelude OdrMem.

(** ** Encoding *)

(** [do { octs[n++] = len; len >>= 8; } while (len);] with [octs] an array of
    [room] bytes, listed from its last element. *)
Fixpoint len_octs (room : nat) (len : Z) (octs : list Z) : option (list Z) :=
  match room with
  | O => None
  | S room =>
      let octs := u8 len :: octs in
      let len := Z.shiftr len 8 in
      if len =? 0 then Some octs else len_octs room len octs
  end.

(** [odr_putc] of each byte in turn; -1 at the first that fails. *)
Fixpoint put_all (bs : list Z) : ODR Z :=
  match bs with
  | [] => ret 0
  | b :: bs =>
      let* r := odr_putc b in
      if r <? 0 then ret (-1) else put_all bs
  end.

Definition ber_enclen (len lenlen exact : Z) : ODR Z :=
  if len <? 0 then                                  (* indefinite *)
    odr_putc 128 ;; ret 0
  else if (len <=? 127) && ((lenlen =? 1) || (exact =? 0)) then  (* short form *)
    let* r := odr_putc len in
    if r <? 0 then ret 0 else ret 1
  else if lenlen =? 1 then
    odr_putc 128 ;; ret 0
  else                                              (* long form *)
    let* octs := lift (len_octs 4 len []) in
    let n := zlen octs in
    if lenlen <=? n then ret (-1)
    else
      let* lenpos := gets odr_tell in
      let* r := odr_putc 0 in                       (* dummy *)
      if r <? 0 then ret 0
      else
        let* r := (if exact =? 0 then ret 0
                   else put_all (repeat 0 (Z.to_nat (lenlen - 1 - n)))) in
        if r <? 0 then ret 0
        else
          let* r := put_all octs in
          if r <? 0 then ret 0
          else
            let* end_ := gets odr_tell in
            odr_seek ODR_S_SET lenpos ;;
            let* r := odr_putc (Z.lor (end_ - lenpos - 1) 128) in
            if r <? 0 then ret 0
            else
              odr_seek ODR_S_END 0 ;;
              gets (fun o => odr_tell o - lenpos).

(** ** Decoding *)

(** [while (--n >= 0) { len <<= 8; len |= *(b++); }] *)
Fixpoint declen_loop (n : nat) (b : list Z) (len : Z) : option Z :=
  match n with
  | O => Some len
  | S n =>
      match b with
      | [] => None
      | x :: b => declen_loop n b (Z.lor (s32 (Z.shiftl len 8)) x)
      end
  end.

(** The return value and what [len] points to afterwards. *)
Definition ber_declen (b : list Z) (len max : Z) : option (Z * Z) :=
  if max <? 1 then Some (-1, len)
  else
    let? b0 := rd b 0 in
    if b0 =? 128 then Some (1, -1)
    else if Z.land b0 128 =? 0 then Some (1, b0)
    else if b0 =? 255 then Some (-2, len)
    else
      let n := Z.land b0 127 in
      if max <=? n then Some (-1, len)
      else if 3 <? n then Some (-2, len)     (* sizeof(int) - 1 *)
      else
        let? len := declen_loop (Z.to_nat n) (drop 1 b) 0 in
        Some (n + 1, len).

(** ** Big-endian octets *)

Definition val256 (acc : Z) (ds : list Z) : Z := fold_left (fun a d => a * 256 + d) ds acc.

Lemma val256_app acc a b : val256 acc (a ++ b) = val256 (val256 acc a) b.
Proof. apply fold_left_app. Qed.

Lemma val256_zeros n : val256 0 (repeat 0 n) = 0.
Proof. induction n; [done|]. simpl. exact IHn. Qed.

Lemma val256_ge acc ds : 0 <= acc -> bytes_ok ds -> acc <= val256 acc ds.
Proof.
  intros Hacc H. revert acc Hacc.
  induction H as [|d ds Hd _ IH]; intros acc Hacc; simpl; [lia|].
  unfold byte_ok in Hd. specialize (IH (acc * 256 + d)). unfold val256 in *. lia.
Qed.

Lemma val256_lt ds : forall acc, 0 <= acc -> bytes_ok ds ->
  val256 acc ds < (acc + 1) * 256 ^ zlen ds.
Proof.
  induction ds as [|d ds IH]; intros acc Hacc H; simpl.
  - rewrite zlen_nil. change (256 ^ 0) with 1. lia.
  - apply Forall_cons_1 in H as [Hd H]. unfold byte_ok in Hd.
    rewrite zlen_cons, Z.pow_add_r by (try pose proof (zlen_nonneg ds); lia).
    pose proof (Z.pow_pos_nonneg 256 (zlen ds) ltac:(lia) (zlen_nonneg ds)).
    specialize (IH (acc * 256 + d) ltac:(lia) H). unfold val256 in *. nia.
Qed.

Lemma len_octs_val room : forall len octs res,
  0 <= len -> len_octs room len octs = Some res ->
  exists ds, res = ds ++ octs /\ ds <> [] /\ bytes_ok ds /\
    val256 0 ds = len /\ (length ds <= room)%nat /\
    (256 ^ (zlen ds - 1) <= len \/ (len = 0 /\ zlen ds = 1)).
Proof.
  induction room as [|room IH]; intros len octs res Hlen H; [done|]. simpl in H.
  rewrite shiftr_8 in H.
  pose proof (Z.mod_pos_bound len 256 ltac:(lia)) as Hm.
  pose proof (Z.div_mod len 256 ltac:(lia)) as Hdm.
  destruct (Z.eqb_spec (len / 256) 0) as [Hz|Hz].
  - injection H as <-. exists [len mod 256]. split; [done|]. split; [done|].
    split; [by apply Forall_singleton|]. split; [unfold val256; simpl; lia|].
    split; [simpl; lia|]. unfold zlen. simpl.
    destruct (Z.eq_dec len 0); [right|left]; lia.
  - apply IH in H as (ds & -> & Hne & Hds & Hv & Hl & Hmin); [|apply Z.div_pos; lia].
    exists (ds ++ [len mod 256]). split; [by rewrite <- app_assoc|].
    split; [by destruct ds|].
    split; [apply Forall_app; split; [done|by apply Forall_singleton]|].
    split; [rewrite val256_app, Hv; unfold val256; simpl; lia|].
    split; [rewrite length_app; simpl; lia|]. left.
    rewrite zlen_app. change (zlen [len mod 256]) with 1.
    replace (zlen ds + 1 - 1) with (1 + (zlen ds - 1)) by lia.
    destruct ds as [|d ds]; [done|]. rewrite zlen_cons in *.
    pose proof (zlen_nonneg ds). rewrite Z.pow_add_r by lia.
    destruct Hmin as [Hmin|[Hmin _]]; [|lia]. lia.
Qed.

Lemma len_octs_total room : forall len octs,
  0 <= len < 256 ^ Z.of_nat room -> (0 < room)%nat ->
  exists res, len_octs room len octs = Some res.
Proof.
  induction room as [|room IH]; intros len octs Hlen Hr; [lia|]. simpl.
  rewrite shiftr_8. destruct (Z.eqb_spec (len / 256) 0) as [Hz|Hz]; [eauto|].
  rewrite Nat2Z.inj_succ, Z.pow_succ_r in Hlen by lia.
  destruct room as [|room]; [rewrite Z.div_small in Hz; simpl in Hlen; lia|].
  apply IH; [|lia]. split; [apply Z.div_pos; lia|apply Z.div_lt_upper_bound; lia].
Qed.

#[global] Arguments len_octs : simpl never.

Lemma declen_loop_spec ds : forall rest acc,
  bytes_ok ds -> 0 <= acc -> val256 acc ds < 2 ^ 31 ->
  declen_loop (length ds) (ds ++ rest) acc = Some (val256 acc ds).
Proof.
  induction ds as [|d ds IH]; intros rest acc Hds Hacc Hv; [done|].
  apply Forall_cons_1 in Hds as [Hd Hds]. unfold byte_ok in Hd.
  assert (acc * 256 + d < 2 ^ 31) as Hfit.
  { eapply Z.le_lt_trans; [|exact Hv]. apply (val256_ge (acc * 256 + d)); [lia|done]. }
  simpl. rewrite s32_small by (rewrite Z.shiftl_mul_pow2 by lia; lia).
  rewrite lor_join by lia. apply IH; [done|lia|done].
Qed.

(** ** What [ber_enclen] writes *)

Lemma put_all_spec bs : forall o,
  buf_ok o -> pos o <= top o -> bytes_ok bs -> room o (zlen bs) ->
  exists o', put_all bs o = Some (0, o') /\ wrote o o' bs.
Proof.
  induction bs as [|b bs IH]; intros o Hok Hpt Hbs Hroom.
  - exists o. split; [done|]. pose proof Hok as [].
    split; [done|zl|lia|lia| |done].
    rewrite Nat.add_0_r. simpl. by rewrite take_drop.
  - apply Forall_cons_1 in Hbs as [Hb Hbs]. rewrite zlen_cons in Hroom.
    pose proof (zlen_nonneg bs).
    destruct (odr_putc_spec o b) as (o1 & E1 & W1);
      [done..|eapply room_mono; [done|lia]|].
    rewrite u8_small in W1 by exact Hb.
    destruct (IH o1) as (o2 & E2 & W2); [apply W1| |done| |].
    { rewrite (wrote_top _ _ _ W1). lia. }
    { eapply (room_wrote _ _ _ _ W1). zl. exact Hroom. }
    exists o2. split; [|by eapply (wrote_trans _ _ _ [b])].
    simpl. unfold bind. by rewrite E1.
Qed.

Lemma zeros_bytes n : bytes_ok (repeat 0 n).
Proof. induction n; constructor; [unfold byte_ok; lia|done]. Qed.

(** The long form: the number of length octets, then the length in [ds],
    which is padded to the exact size when one is asked for. *)
Definition long_len (ds : list Z) : list Z := (128 + zlen ds) :: ds.

Lemma len_count k : 0 <= k < 128 -> u8 (Z.lor k 128) = 128 + k.
Proof.
  intros Hk. rewrite Z.lor_comm. change 128 with (Z.shiftl 1 7) at 1.
  rewrite lor_join, u8_small by lia. lia.
Qed.

Lemma ber_enclen_long len lenlen exact octs :
  0 <= len -> len_octs 4 len [] = Some octs -> zlen octs < lenlen <= 127 ->
  127 < len \/ (lenlen <> 1 /\ exact <> 0) ->
  let ds := repeat 0 (if exact =? 0 then 0%nat else Z.to_nat (lenlen - 1 - zlen octs)) ++ octs in
  forall o, buf_ok o -> pos o <= top o -> room o (zlen (long_len ds)) ->
  exists o1, wrote o o1 (long_len ds) /\
    ber_enclen len lenlen exact o = Some (top o1 - pos o, set_pos (top o1) o1).
Proof.
  intros Hlen Hocts Hll Hlong ds o Hok Hpt Hroom.
  destruct (len_octs_val 4 len [] octs Hlen Hocts) as (ds0 & E & Hne & Hbs & Hv & Hl4 & _).
  rewrite app_nil_r in E. subst ds0.
  set (pad := repeat 0 (if exact =? 0 then 0%nat else Z.to_nat (lenlen - 1 - zlen octs))) in *.
  assert (bytes_ok pad) as Hpad by (subst pad; apply zeros_bytes).
  assert (0 <= zlen pad <= lenlen - 1 - zlen octs) as Hpl.
  { subst pad. rewrite zlen_repeat. destruct (exact =? 0); lia. }
  pose proof (zlen_pos octs Hne).
  unfold long_len in *. rewrite zlen_cons in Hroom.
  assert (zlen ds = zlen pad + zlen octs) as Hds by (subst ds; zl).
  (* the dummy, the padding and the octets *)
  destruct (odr_putc_spec o 0) as (oa & Ea & Wa); [done..|eapply room_mono; [done|lia]|].
  assert (room oa (zlen ds)) as Hra.
  { eapply (room_wrote _ _ _ _ Wa). change (zlen [u8 0]) with 1. done. }
  assert (pos oa <= top oa) by (rewrite (wrote_top _ _ _ Wa); lia).
  destruct (put_all_spec pad oa) as (ob & Eb & Wb);
    [apply Wa|done..|eapply room_mono; [done|lia]|].
  destruct (put_all_spec octs ob) as (oc & Ec & Wc);
    [apply Wb|rewrite (wrote_top _ _ _ Wb); lia|done|eapply (room_wrote _ _ _ _ Wb); by rewrite <- Hds|].
  assert (wrote o oc (0 :: ds)) as W.
  { apply (wrote_trans _ oa _ [0]); [done..|].
    by apply (wrote_trans _ ob); [apply Wa|done|..]. }
  (* back to the first byte *)
  pose proof (wrote_ok _ _ _ W) as Hokc. pose proof (wrote_pos _ _ _ W) as Hpc.
  pose proof (wrote_top _ _ _ W) as Htc. pose proof (wrote_size _ _ _ W) as Hsc.
  rewrite zlen_cons in Hpc. destruct Hok.
  destruct (odr_putc_spec (set_pos (pos o) oc) (Z.lor (pos oc - pos o - 1) 128)) as (od & Ed & Wd).
  { destruct Hokc. split; simpl; done || lia. }
  { simpl. lia. }
  { destruct Hroom as [[Hg Hr]|Hr]; [left|right; simpl; lia].
    split; [by rewrite <- (non_buf_can_grow _ _ (wrote_frame _ _ _ W)) in Hg|simpl; lia]. }
  rewrite len_count in Wd by lia.
  destruct (wrote_patch o oc od 0 (128 + (pos oc - pos o - 1)) ds) as (Wf & Htd & Hsd);
    [by split|done..|].
  exists (set_pos (pos oc) od). split.
  { replace (128 + zlen ds) with (128 + (pos oc - pos o - 1)) by lia. exact Wf. }
  unfold ber_enclen, bind, gets, lift, odr_tell.
  rewrite (proj2 (Z.ltb_ge len 0)) by lia.
  replace ((len <=? 127) && ((lenlen =? 1) || (exact =? 0))) with false
    by (symmetry; ztest; done || (apply andb_false_intro2; ztest)).
  rewrite (proj2 (Z.eqb_neq lenlen 1)) by lia.
  rewrite Hocts, (proj2 (Z.leb_gt _ _)), Ea by lia. simpl.
  assert ((if exact =? 0 then ret 0 else put_all (repeat 0 (Z.to_nat (lenlen - 1 - zlen octs)))) oa
          = Some (0, ob)) as ->.
  { subst pad. destruct (exact =? 0); [|exact Eb]. simpl in Eb. exact Eb. }
  simpl. rewrite Ec. simpl. rewrite odr_seek_set by lia. rewrite Ed. simpl.
  rewrite odr_seek_end by apply Wd. done.
Qed.

Lemma ber_enclen_short len lenlen exact :
  0 <= len <= 127 -> lenlen = 1 \/ exact = 0 ->
  forall o, buf_ok o -> pos o <= top o -> room o 1 ->
  exists o', ber_enclen len lenlen exact o = Some (1, o') /\ wrote o o' [len].
Proof.
  intros Hl Hf o Hok Hpt Hroom.
  destruct (odr_putc_spec o len) as (o' & E & W); [done..|].
  rewrite u8_small in W by lia. exists o'. split; [|done].
  unfold ber_enclen. rewrite (proj2 (Z.ltb_ge len 0)) by lia.
  replace ((len <=? 127) && ((lenlen =? 1) || (exact =? 0))) with true
    by (destruct Hf as [-> | ->]; ztest).
  unfold bind. by rewrite E.
Qed.

Lemma ber_enclen_indef len exact :
  127 < len ->
  forall o, buf_ok o -> pos o <= top o -> room o 1 ->
  exists o', ber_enclen len 1 exact o = Some (0, o') /\ wrote o o' [128].
Proof.
  intros Hl o Hok Hpt Hroom.
  destruct (odr_putc_spec o 128) as (o' & E & W); [done..|].
  exists o'. split; [|done]. unfold ber_enclen.
  rewrite (proj2 (Z.ltb_ge len 0)), (proj2 (Z.leb_gt len 127)) by lia. simpl.
  unfold bind. by rewrite E.
Qed.

(** ** Reading the forms back *)

Lemma ber_declen_short len x rest max :
  0 <= len <= 127 -> 1 <= max -> ber_declen (len :: rest) x max = Some (1, len).
Proof.
  intros Hl Hm. unfold ber_declen. rewrite (proj2 (Z.ltb_ge max 1)) by lia.
  simpl. rewrite byte_bit8 by (unfold byte_ok; lia).
  ztest. done.
Qed.

Lemma ber_declen_indef x rest max :
  1 <= max -> ber_declen (128 :: rest) x max = Some (1, -1).
Proof. intros Hm. unfold ber_declen. by rewrite (proj2 (Z.ltb_ge max 1)) by lia. Qed.

(** The first octet of the long form and its count of length octets. *)
Lemma long_len_head n :
  1 <= n <= 126 ->
  byte_ok (128 + n) /\ (128 + n =? 128) = false /\
  (Z.land (128 + n) 128 =? 0) = false /\ (128 + n =? 255) = false /\
  Z.land (128 + n) 127 = n.
Proof.
  intros Hn. assert (byte_ok (128 + n)) as Hb by (unfold byte_ok; lia).
  rewrite byte_bit8 by done. split_and!; [done|zbool..|].
  rewrite land_7F. symmetry. apply (Z.mod_unique _ _ 1); lia.
Qed.

Lemma ber_declen_long ds x rest max :
  bytes_ok ds -> 1 <= zlen ds <= 3 -> zlen ds < max ->
  ber_declen (long_len ds ++ rest) x max = Some (zlen (long_len ds), val256 0 ds).
Proof.
  intros Hds Hl Hm. unfold ber_declen, long_len. rewrite (proj2 (Z.ltb_ge max 1)) by lia.
  destruct (long_len_head (zlen ds)) as (_ & E1 & E2 & E3 & E4); [lia|].
  rewrite <- app_comm_cons. cbn [rd]. simpl. rewrite E1, E2, E3, E4.
  rewrite (proj2 (Z.leb_gt _ _)), (proj2 (Z.ltb_ge _ _)), drop_0 by lia.
  replace (Z.to_nat (zlen ds)) with (length ds) by (unfold zlen; lia).
  pose proof (val256_lt ds 0 ltac:(lia) Hds) as Hv.
  assert (256 ^ zlen ds <= 256 ^ 3) by (apply Z.pow_le_mono_r; lia).
  rewrite declen_loop_spec by (done || lia). simpl. rewrite zlen_cons. do 2 f_equal. lia.
Qed.

(** Four or more length octets are refused. *)
Lemma ber_declen_too_long ds x rest max :
  4 <= zlen ds <= 126 -> zlen ds < max ->
  ber_declen (long_len ds ++ rest) x max = Some (-2, x).
Proof.
  intros Hl Hm. unfold ber_declen, long_len. rewrite (proj2 (Z.ltb_ge max 1)) by lia.
  destruct (long_len_head (zlen ds)) as (_ & E1 & E2 & E3 & E4); [lia|].
  rewrite <- app_comm_cons. simpl. rewrite E1, E2, E3, E4.
  by rewrite (proj2 (Z.leb_gt _ _)), (proj2 (Z.ltb_lt _ _)) by lia.
Qed.

(** ** Safety and locality of [ber_declen] *)

Lemma declen_loop_safe n : forall b acc,
  Z.of_nat n <= zlen b -> exists len, declen_loop n b acc = Some len.
Proof.
  induction n as [|n IH]; intros [|x b] acc Hl; simpl; eauto.
  - zl.
  - apply IH. rewrite zlen_cons in Hl. lia.
Qed.

Lemma declen_loop_val n : forall b acc len,
  (n <= 3)%nat -> bytes_ok b -> declen_loop n b 0 = Some len ->
  acc = 0 -> 0 <= len < 2 ^ 24.
Proof.
  intros b acc len Hn Hb H ->.
  assert (n <= length b)%nat as Hlen.
  { revert H. generalize 0. clear. revert b. induction n as [|n IH]; [lia|].
    intros [|x b] z H; [done|]. simpl in *. apply IH in H. lia. }
  rewrite <- (take_drop n b) in H.
  assert (length (take n b) = n) as E by (rewrite length_take; lia).
  assert (bytes_ok (take n b)) as Hb' by by apply Forall_take.
  rewrite <- E in H at 1. pose proof (val256_lt (take n b) 0 ltac:(lia) Hb') as Hv.
  pose proof (val256_ge 0 (take n b) ltac:(lia) Hb') as Hv0.
  assert (256 ^ zlen (take n b) <= 256 ^ 3)
    by (apply Z.pow_le_mono_r; unfold zlen; lia).
  rewrite declen_loop_spec in H by (done || lia). injection H as <-. lia.
Qed.

(** No byte at or after [max] is read; a length that is reported fits 24 bits. *)
Lemma ber_declen_safe b x max :
  max <= zlen b -> bytes_ok b ->
  exists r len, ber_declen b x max = Some (r, len) /\
    ((r = -1 \/ r = -2) /\ len = x \/ 1 <= r <= max /\ -1 <= len < 2 ^ 24).
Proof.
  intros Hl Hb. unfold ber_declen. destruct (Z.ltb_spec max 1); [eauto 10|].
  destruct b as [|b0 b]; [zl|]. simpl.
  apply Forall_cons_1 in Hb as [Hb0 Hb].
  destruct (b0 =? 128); [do 2 eexists; split; [done|lia]|].
  rewrite byte_bit8 by done. unfold byte_ok in Hb0.
  destruct (Z.ltb_spec b0 128); [do 2 eexists; split; [done|lia]|].
  destruct (b0 =? 255); [eauto 10|].
  rewrite land_7F. pose proof (Z.mod_pos_bound b0 128 ltac:(lia)).
  destruct (Z.leb_spec max (b0 mod 128)); [eauto 10|].
  destruct (Z.ltb_spec 3 (b0 mod 128)); [eauto 10|].
  rewrite drop_0. rewrite zlen_cons in Hl.
  destruct (declen_loop_safe (Z.to_nat (b0 mod 128)) b 0) as [len E]; [lia|].
  rewrite E. simpl. do 2 eexists. split; [done|]. right.
  apply (declen_loop_val _ _ 0) in E; [lia|lia|done|done].
Qed.

Lemma declen_loop_ext n : forall b rest acc len,
  declen_loop n b acc = Some len -> declen_loop n (b ++ rest) acc = Some len.
Proof.
  induction n as [|n IH]; intros [|x b] rest acc len H; simpl in *; [done..|].
  by apply IH.
Qed.

Lemma ber_declen_ext b rest x x0 max max' r len :
  ber_declen b x max = Some (r, len) -> 0 < r -> max <= max' ->
  ber_declen (b ++ rest) x0 max' = Some (r, len).
Proof.
  unfold ber_declen. intros H Hr Hmax.
  destruct (Z.ltb_spec max 1); [injection H; lia|].
  rewrite (proj2 (Z.ltb_ge _ _)) by lia.
  destruct b as [|b0 b]; [done|]. simpl in *. rewrite drop_0 in *.
  destruct (b0 =? 128); [done|].
  destruct (Z.land b0 128 =? 0); [done|].
  destruct (b0 =? 255); [injection H; lia|].
  destruct (Z.leb_spec max (Z.land b0 127)); [injection H; lia|].
  rewrite (proj2 (Z.leb_gt _ _)) by lia.
  destruct (3 <? Z.land b0 127); [injection H; lia|].
  destruct (declen_loop _ b 0) as [l|] eqn:E; [|done].
  by rewrite (declen_loop_ext _ _ _ _ _ E).
Qed.

(** ** The definite form as octet and bit strings use it *)

Definition def_len (len : Z) : list Z :=
  if len <=? 127 then [len] else long_len (default [] (len_octs 4 len [])).

Lemma def_len_octs len :
  127 < len < 2 ^ 31 ->
  exists ds, len_octs 4 len [] = Some ds /\ def_len len = long_len ds /\
    bytes_ok ds /\ val256 0 ds = len /\ 1 <= zlen ds <= 4 /\
    (zlen ds <= 3 <-> len < 2 ^ 24).
Proof.
  intros Hl. destruct (len_octs_total 4 len []) as [ds E];
    [change (256 ^ Z.of_nat 4) with (2 ^ 32); lia|lia|].
  destruct (len_octs_val 4 len [] ds ltac:(lia) E) as (ds' & E' & Hne & Hb & Hv & H4 & Hmin).
  rewrite app_nil_r in E'. subst ds'. exists ds. unfold def_len.
  rewrite (proj2 (Z.leb_gt _ _)), E by lia. pose proof (zlen_pos ds Hne).
  assert (zlen ds <= 4) by (unfold zlen; lia).
  split_and!; [done..|]. split.
  - intros H3. pose proof (val256_lt ds 0 ltac:(lia) Hb).
    assert (256 ^ zlen ds <= 256 ^ 3) by (apply Z.pow_le_mono_r; lia). lia.
  - intros H24. destruct (Z.le_gt_cases (zlen ds) 3); [done|].
    replace (zlen ds) with 4 in Hmin by lia. change (256 ^ (4 - 1)) with (2 ^ 24) in Hmin. lia.
Qed.

Lemma def_len_nonneg len : 1 <= zlen (def_len len).
Proof. unfold def_len. destruct (len <=? 127); apply zlen_pos; done. Qed.

Lemma def_len_bytes len : 0 <= len < 2 ^ 31 -> bytes_ok (def_len len).
Proof.
  intros Hl. destruct (Z.le_gt_cases len 127).
  - unfold def_len. rewrite (proj2 (Z.leb_le _ _)) by lia.
    apply Forall_singleton. unfold byte_ok. lia.
  - destruct (def_len_octs len) as (ds & _ & -> & Hb & _ & H4 & _); [lia|].
    constructor; [unfold byte_ok; lia|done].
Qed.

Lemma ber_enclen_emits len :
  0 <= len < 2 ^ 31 -> emits (ber_enclen len 5 0) (zlen (def_len len)) (def_len len).
Proof.
  intros Hl o (Hok & Hpt & Hroom). destruct (Z.le_gt_cases len 127) as [Hs|Hs].
  - unfold def_len in *. rewrite (proj2 (Z.leb_le _ _)) in * by lia.
    destruct (ber_enclen_short len 5 0 ltac:(lia) ltac:(by right) o) as (o' & E & W);
      [done|lia|done|].
    exists o'. split; [done|by apply wrote_appended].
  - destruct (def_len_octs len) as (ds & E & El & _ & _ & H4 & _); [lia|].
    rewrite El in *.
    destruct (ber_enclen_long len 5 0 ds ltac:(lia) E ltac:(lia) ltac:(by left) o)
      as (o1 & W & Ho); [done|lia|done|]. simpl in W.
    pose proof (wrote_appended _ _ _ Hok W Hpt) as A. exists o1. split; [|done].
    rewrite Ho, <- (app_top _ _ _ A).
    assert (set_pos (pos o1) o1 = o1) as -> by by destruct o1.
    rewrite (app_pos _ _ _ A). do 2 f_equal. lia.
Qed.

Lemma ber_declen_def len x rest max :
  0 <= len < 2 ^ 24 -> zlen (def_len len) <= max ->
  ber_declen (def_len len ++ rest) x max = Some (zlen (def_len len), len).
Proof.
  intros Hl Hm. destruct (Z.le_gt_cases len 127).
  - unfold def_len in *. rewrite (proj2 (Z.leb_le _ _)) in * by lia.
    change (zlen [len]) with 1 in *. apply ber_declen_short; lia.
  - destruct (def_len_octs len) as (ds & _ & E & Hb & Hv & H4 & H3); [lia|].
    rewrite E in *. unfold long_len in Hm. rewrite zlen_cons in Hm.
    rewrite ber_declen_long by (done || lia). by rewrite Hv.
Qed.

(** From 2^24 on the encoder needs four length octets, which the decoder does
    not accept. *)
Lemma ber_declen_def_large len x rest max :
  2 ^ 24 <= len < 2 ^ 31 -> zlen (def_len len) <= max ->
  ber_declen (def_len len ++ rest) x max = Some (-2, x).
Proof.
  intros Hl Hm. destruct (def_len_octs len) as (ds & _ & E & Hb & Hv & H4 & H3); [lia|].
  rewrite E in *. unfold long_len in Hm. rewrite zlen_cons in Hm.
  apply ber_declen_too_long; lia.
Qed.

#[global] Arguments def_len : simpl never.

(** ** The properties *)

(** A definite length below 2^24 is written as bytes that [ber_declen]
    reads back, whatever follows them. *)
Theorem ber_len_roundtrip (len : Z) :
  0 <= len < 2 ^ 24 ->
  exists bs, emits (ber_enclen len 5 0) (zlen bs) bs /\
    forall rest x max, zlen bs <= max -> ber_declen (bs ++ rest) x max = Some (zlen bs, len).
Proof.
  intros Hl. exists (def_len len). split; [apply ber_enclen_emits; lia|].
  intros rest x max Hm. by apply ber_declen_def.
Qed.

Lemma ber_len_roundtrip_witness :
  exists bs, emits (ber_enclen 70000 5 0) (zlen bs) bs /\
    forall rest x max, zlen bs <= max -> ber_declen (bs ++ rest) x max = Some (zlen bs, 70000).
Proof. apply (ber_len_roundtrip 70000). lia. Defined.

(** A length of 2^24 or more is written without complaint, but the bytes
    written are then refused by [ber_declen]: encoder and decoder disagree
    about how long a definite length may be. *)
Theorem ber_len_large_refused (len : Z) :
  2 ^ 24 <= len < 2 ^ 31 ->
  exists bs, emits (ber_enclen len 5 0) (zlen bs) bs /\
    forall rest x max, zlen bs <= max -> ber_declen (bs ++ rest) x max = Some (-2, x).
Proof.
  intros Hl. exists (def_len len). split; [apply ber_enclen_emits; lia|].
  intros rest x max Hm. by apply ber_declen_def_large.
Qed.

Lemma ber_len_large_refused_witness :
  exists bs, emits (ber_enclen (2 ^ 24) 5 0) (zlen bs) bs /\
    forall rest x max, zlen bs <= max -> ber_declen (bs ++ rest) x max = Some (-2, x).
Proof. apply (ber_len_large_refused (2 ^ 24)). lia. Defined.
