(* ===== verification/OdrTag.v ===== *)
(** * Tags of ODR elements (ber_tag.c, odr_tag.c, odr_cons.c, odr_util.c)

    [ber_tag] is the gate every typed codec goes through: it writes the tag of
    an element, or looks ahead whether the next element has the expected tag,
    keeping an unexpected tag for the next call.  [odr_constructed_more] tells
    whether the innermost open constructed value has members left. *)

From stdpp Require Import base list numbers option strings.
From Stdlib Require Import ZArith Lia.
From S2P Require Import Prelude OdrMem BerTag BerLen.

(** ** Constants of odr.h *)

Definition ODR_UNIVERSAL : Z := 0.
Definition ODR_APPLICATION : Z := 1.
Definition ODR_CONTEXT : Z := 2.
Definition ODR_PRIVATE : Z := 3.

Definition ODR_BOOLEAN : Z := 1.
Definition ODR_INTEGER : Z := 2.
Definition ODR_BITSTRING : Z := 3.
Definition ODR_OCTETSTRING : Z := 4.
Definition ODR_NULL : Z := 5.
Definition ODR_OID : Z := 6.
Definition ODR_EXTERNAL : Z := 8.
Definition ODR_ENUM : Z := 10.
Definition ODR_SEQUENCE : Z := 16.
Definition ODR_SET : Z := 17.
Definition ODR_GENERALIZEDTIME : Z := 24.
Definition ODR_GRAPHICSTRING : Z := 25.
Definition ODR_VISIBLESTRING : Z := 26.
Definition ODR_GENERALSTRING : Z := 27.

(** ** Reading at the decoding position *)

(** [*(o->op->bp + i)] *)
Definition at_bp (i : Z) : ODR Z :=
  let* o := get in lift (rd (buf o) (bp o + i)).

(** The bytes from [o->op->bp] on, as a pointer argument. *)
Definition bp_ptr (o : odr) : list Z := drop (Z.to_nat (bp o)) (buf o).

(** [*bp == 0 && *(bp + 1) == 0] *)
Definition at_eoc : ODR bool :=
  let* b0 := at_bp 0 in
  if b0 =? 0 then let* b1 := at_bp 1 in ret (b1 =? 0) else ret false.

Definition odr_constructed_more : ODR Z :=
  let* o := get in
  if negb (error o =? 0) then ret 0
  else
    match stack o with
    | [] => ret 0
    | c :: _ =>
        let* len := lift (cs_len c) in
        if 0 <=? len then ret (b2z (bp o - cs_base c <? len))
        else let* e := at_eoc in ret (b2z (negb e))
    end.

(** ** [ber_tag] *)

(** What [ber_tag] does before looking at the direction: the implicit tag is
    used up, and a new top-level element starts at the beginning of the
    buffer. *)
Definition ber_tag_enter : ODR unit :=
  modify (set_t_class (-1)) ;;
  let* o := get in
  match stack o with
  | [] =>
      odr_seek ODR_S_SET 0 ;;
      modify (set_top 0) ;;
      modify (set_bp 0) ;;
      modify (set_lclass (-1))
  | _ => ret tt
  end.

(** An element that must be there is not. *)
Definition tag_missing (opt id : Z) (name : option (list Z)) : ODR unit :=
  if opt =? 0 then odr_seterror OREQUIRED id ;; odr_setelement name else ret tt.

(** Fill the look-ahead from the buffer when it is empty; [false] is the
    error return. *)
Definition ber_tag_peek (name : option (list Z)) : ODR bool :=
  let* o := get in
  if lclass o <? 0 then
    let* (r, t) :=
      lift (ber_dectag (bp_ptr o) (mkTag (lclass o) (ltag o) (lcons o)) (odr_max o)) in
    modify (fun o => set_br r (set_lclass (tg_class t)
                      (set_ltag (tg_tag t) (set_lcons (tg_cons t) o)))) ;;
    if r <=? 0
    then odr_seterror OPROTO 26 ;; odr_setelement name ;; ret false
    else ret true
  else ret true.

(** [p] is the element pointer the caller passes ([None] for a null one); the
    result is the return value, the constructed bit and the pointer. *)
Definition ber_tag {A} (p : option A) (zclass tag constructed opt : Z)
    (name : option (list Z)) : ODR (Z * Z * option A) :=
  let* dir := gets direction in
  let p := if dir =? ODR_DECODE then None else p in
  ber_tag_enter ;;
  if dir =? ODR_ENCODE then
    match p with
    | None => tag_missing opt 24 name ;; ret (0, constructed, p)
    | Some _ =>
        let* rd := ber_enctag zclass tag constructed in
        if rd <? 0 then ret (-1, constructed, p) else ret (1, constructed, p)
    end
  else if dir =? ODR_DECODE then
    let* o := get in
    let* more := (match stack o with [] => ret 1 | _ => odr_constructed_more end) in
    if more =? 0 then tag_missing opt 25 name ;; ret (0, constructed, p)
    else
      let* ok := ber_tag_peek name in
      if negb ok then ret (0, constructed, p)
      else
        let* o := get in
        if (zclass =? lclass o) && (tag =? ltag o) then
          modify (fun o => set_bp (bp o + br o) (set_lclass (-1) o)) ;;
          ret (1, lcons o, p)
        else tag_missing opt 27 name ;; ret (0, constructed, p)
  else if dir =? ODR_PRINT then
    match p with
    | None => tag_missing opt 28 name ;; ret (0, constructed, p)
    | Some _ => ret (1, constructed, p)
    end
  else
    odr_seterror OOTHER 29 ;; odr_setelement name ;; ret (0, constructed, p).

(** ** odr_tag.c and odr_util.c *)

Definition odr_missing (opt : Z) (name : option (list Z)) : ODR Z :=
  let* o := get in
  if negb (error o =? 0) then ret 0
  else
    (if opt =? 0 then odr_seterror OREQUIRED 53 ;; odr_setelement name else ret tt) ;;
    ret opt.

Definition odr_implicit_settag (zclass tag : Z) : ODR Z :=
  let* o := get in
  if negb (error o =? 0) then ret 0
  else
    (if t_class o <? 0 then modify (fun o => set_t_tag tag (set_t_class zclass o))
     else ret tt) ;;
    ret 1.

Definition odr_peektag (t : tag_out) : ODR (Z * tag_out) :=
  let* o := get in
  if negb (direction o =? ODR_DECODE) then odr_seterror OOTHER 48 ;; ret (0, t)
  else
    let* more := (match stack o with [] => ret 1 | _ => odr_constructed_more end) in
    if more =? 0 then ret (0, t)
    else
      let* (r, t) := lift (ber_dectag (bp_ptr o) t (odr_max o)) in
      if r <=? 0 then odr_seterror OREQUIRED 49 ;; ret (0, t) else ret (1, t).

(** [if (o->op->t_class < 0) { t_class = zclass; t_tag = tag; }] and the tag
    that is then in force: what every typed codec starts with. *)
Definition default_tag (zclass tag : Z) : ODR (Z * Z) :=
  (let* o := get in
   if t_class o <? 0 then modify (fun o => set_t_tag tag (set_t_class zclass o))
   else ret tt) ;;
  gets (fun o => (t_class o, t_tag o)).

(** The type of a codec: the element pointer [*p], [opt] and [name]; the result
    is the return value and the pointer afterwards. *)
Definition Odr_fun (A : Type) : Type :=
  option A -> Z -> option (list Z) -> ODR (Z * option A).

(** How the codecs of simple types begin: give up on an earlier error, find the
    tag in force, write it or look for it; [k] is the rest of the codec. *)
Definition odr_head {A} (zclass tag : Z) (k : Z -> option A -> ODR (Z * option A)) : Odr_fun A :=
  fun p opt name =>
    let* o := get in
    if negb (error o =? 0) then ret (0, p)
    else
      let* (c, t) := default_tag zclass tag in
      let* (res, cn, p) := ber_tag p c t 0 opt name in
      if res <? 0 then ret (0, p)
      else if res =? 0 then let* r := odr_missing opt name in ret (r, p)
      else k cn p.

(** ** Printing (odr.c, odr_util.c) *)

(** [odr_printf] formats into [char buf[4096]] and hands the text on. *)
Definition odr_printf (text : list Z) : ODR unit :=
  modify (fun o => set_printed (printed o ++ take 4095 text) o).

Definition odr_prname (name : option (list Z)) : ODR unit :=
  let* o := get in
  (if indent o <? 16 then odr_printf (spaces (Z.abs (indent o * 2)))
   else odr_printf (str "level=" ++ fmt_d (indent o)
                    ++ spaces (7 - zlen (fmt_d (indent o)))
                    ++ spaces (2 * (indent o mod 8)))) ;;
  match name with
  | Some s => odr_printf (s ++ str " ")
  | None => ret tt
  end.

(** An indeterminate 64-bit object. *)
Definition fresh_int (o : odr) : Z := s64 (junk o (-1)).

#[global] Arguments ber_tag_enter : simpl never.
#[global] Arguments ber_tag : simpl never.
#[global] Arguments ber_enctag : simpl never.
#[global] Arguments ber_dectag : simpl never.
#[global] Arguments ber_enclen : simpl never.
#[global] Arguments ber_declen : simpl never.
#[global] Arguments odr_constructed_more : simpl never.

(** ** Encoding an element *)

(** What the encoding of an element leaves unchanged. *)
Definition non_enc (o : odr) : odr :=
  set_t_class 0 (set_t_tag 0 (set_lclass 0 (set_bp 0 (set_stack_alloc 0 (non_buf o))))).

(** An encoding stream with room for [n] bytes, in which the next element
    follows what was written (at top level, the stream is empty). *)
Record enc_ready (o : odr) (n : Z) : Prop := {
  er_dir : direction o = ODR_ENCODE;
  er_error : error o = 0;
  er_end : at_end o n;
  er_top : stack o <> [] \/ pos o = 0;
  er_lenlen : lenlen o = 1;
  er_bias : choice_bias o = -1;
}.

(** [o'] is [o] after an element was encoded as [bs]. *)
Record encoded (o o' : odr) (bs : list Z) : Prop := {
  ed_frame : non_enc o' = non_enc o;
  ed_class : t_class o' = -1;
  ed_pos : pos o' = pos o + zlen bs;
  ed_top : pos o' = top o';
  ed_size : size o <= size o';
  ed_out : out o' = out o ++ bs;
  ed_ok : buf_ok o';
}.

Lemma encoded_appended o o1 o2 a b :
  encoded o o1 a -> appended o1 o2 b -> encoded o o2 (a ++ b).
Proof.
  intros [F1 C1 P1 T1 S1 O1 K1] [F2 P2 T2 S2 O2 K2].
  split; [|by rewrite <- C1; apply (f_equal t_class F2)|zl|done|lia
         |by rewrite O2, O1, app_assoc|done].
  unfold non_enc in *. by rewrite F2.
Qed.

Lemma at_end_encoded o o' bs n :
  at_end o (zlen bs + n) -> encoded o o' bs -> at_end o' n.
Proof.
  intros (Hok & Hpt & Hroom) [F C P T S _ K]. split; [done|]. split; [done|].
  destruct Hroom as [[Hg Hm]|Hm]; [left|right; lia].
  split; [|lia]. rewrite <- Hg. exact (f_equal can_grow F).
Qed.

Lemma enc_ready_next o o' bs n :
  enc_ready o (zlen bs + n) -> stack o <> [] -> encoded o o' bs -> enc_ready o' n.
Proof.
  intros [Hd He Hat _ Hll Hbi] Hs E. pose proof (ed_frame _ _ _ E) as F. split.
  - rewrite <- Hd. exact (f_equal direction F).
  - rewrite <- He. exact (f_equal error F).
  - by eapply at_end_encoded.
  - left. rewrite (f_equal stack F : stack o' = stack o). done.
  - rewrite <- Hll. exact (f_equal lenlen F).
  - rewrite <- Hbi. exact (f_equal choice_bias F).
Qed.

Lemma encoded_trans o o1 o2 a b :
  encoded o o1 a -> encoded o1 o2 b -> encoded o o2 (a ++ b).
Proof.
  intros [F1 C1 P1 T1 S1 O1 K1] [F2 C2 P2 T2 S2 O2 K2].
  split; [by rewrite F2|done|zl|done|lia|by rewrite O2, O1, app_assoc|done].
Qed.

Lemma enc_ready_mono o n m : enc_ready o n -> 0 <= m <= n -> enc_ready o m.
Proof. intros [] ?. split; [done..| |done|done|done]. by eapply at_end_mono. Qed.

(** Entering [ber_tag] changes nothing an encoder depends on. *)
Lemma ber_tag_enter_enc o n :
  enc_ready o n ->
  exists o', ber_tag_enter o = Some (tt, o') /\ encoded o o' [] /\ at_end o' n.
Proof.
  intros [Hd He Hat Ht _ _]. destruct Hat as (Hok & Hpt & Hroom).
  unfold ber_tag_enter, bind, modify, get. simpl.
  destruct (stack o) as [|c st] eqn:Hst.
  - destruct Ht as [|Hp]; [done|]. pose proof Hok as [].
    rewrite odr_seek_set by (simpl; lia). simpl.
    eexists. split; [reflexivity|]. simpl. split.
    + split; simpl; [done|done|zl|done|lia| |].
      * unfold out. simpl. by rewrite app_nil_r, <- Hpt, Hp.
      * split; simpl; done || lia.
    + split; [split; simpl; done || lia|]. split; [done|].
      unfold room in *. simpl. by rewrite Hp in Hroom.
  - eexists. split; [reflexivity|]. split.
    + split; simpl; [done|done|zl|done|lia| |].
      * unfold out. simpl. by rewrite app_nil_r.
      * by destruct Hok.
    + split; [by destruct Hok|]. split; done.
Qed.

Lemma ber_tag_encode {A} o (v : A) zclass tag cons opt name bs n :
  0 <= zclass < 4 -> 0 <= cons <= 1 -> 0 <= tag < 2 ^ 28 ->
  tag_bytes zclass tag cons bs ->
  enc_ready o (zlen bs + n) -> 0 <= n ->
  exists o', ber_tag (Some v) zclass tag cons opt name o = Some ((1, cons, Some v), o')
    /\ encoded o o' bs.
Proof.
  intros Hz Hc Ht Hbs Hr Hn.
  destruct (ber_tag_enter_enc _ _ Hr) as (o1 & E1 & D1 & A1).
  destruct (ber_enctag_emits zclass tag cons) as (bs' & Hbs' & Hem); [done..|].
  assert (bs' = bs) as ->.
  { unfold tag_bytes in *. destruct (tag <=? 30); [congruence|].
    destruct Hbs as (ds & E & ->), Hbs' as (ds' & E' & ->). congruence. }
  destruct (Hem o1) as (o2 & E2 & A2); [eapply at_end_mono; [done|pose proof (zlen_nonneg bs); lia]|].
  exists o2. split; [|by eapply (encoded_appended _ _ _ [])].
  unfold ber_tag, bind, gets. rewrite (er_dir _ _ Hr). simpl.
  rewrite E1, E2. by destruct (tag <=? 30).
Qed.

(** ** Decoding an element *)

(** What the decoding of an element leaves unchanged. *)
Definition non_dec (o : odr) : odr :=
  set_t_class 0 (set_t_tag 0 (set_lclass 0 (set_ltag 0 (set_br 0
    (set_lcons 0 (set_bp 0 (set_pos 0 (set_top 0 (set_stack_alloc 0
      (set_lenlen 0 o)))))))))).

(** The look-ahead is empty, or is the tag of the next element. *)
Definition lookahead_ok (o : odr) : Prop :=
  lclass o = -1 \/
  (0 <= lclass o /\ 0 < br o /\
   forall t, ber_dectag (bp_ptr o) t (odr_max o)
             = Some (br o, mkTag (lclass o) (ltag o) (lcons o))).

(** The innermost open value has a member at the current position. *)
Definition more_at (o : odr) : Prop :=
  match stack o with
  | [] => bp o = 0
  | c :: _ =>
      match cs_len c with
      | Some len =>
          if 0 <=? len then bp o - cs_base c < len
          else exists b l, bp_ptr o = b :: l /\ b <> 0
      | None => False
      end
  end.

Record dec_ready (o : odr) : Prop := {
  dr_dir : direction o = ODR_DECODE;
  dr_error : error o = 0;
  dr_bp : 0 <= bp o <= size o;
  dr_size : zlen (buf o) = size o;
  dr_bytes : bytes_ok (buf o);
  dr_look : lookahead_ok o;
  dr_bias : choice_bias o = -1;
}.

(** [o'] is [o] after [n] bytes were consumed. *)
Record decoded (o o' : odr) (n : Z) : Prop := {
  dd_frame : non_dec o' = non_dec o;
  dd_class : t_class o' = -1;
  dd_look : lclass o' = -1;
  dd_bp : bp o' = bp o + n;
}.

Lemma bp_ptr_zlen o : dec_ready o -> zlen (bp_ptr o) = odr_max o.
Proof.
  intros []. unfold bp_ptr, odr_max, zlen in *. rewrite length_drop. lia.
Qed.

Lemma decoded_buf o o' n : decoded o o' n -> buf o' = buf o /\ size o' = size o /\ stack o' = stack o.
Proof.
  intros [F _ _ _]. split; [exact (f_equal buf F)|].
  split; [exact (f_equal size F)|exact (f_equal stack F)].
Qed.

Lemma decoded_ptr o o' n :
  dec_ready o -> decoded o o' n -> 0 <= n -> bp_ptr o' = drop (Z.to_nat n) (bp_ptr o).
Proof.
  intros [] D Hn. unfold bp_ptr. destruct (decoded_buf _ _ _ D) as (-> & _ & _).
  rewrite (dd_bp _ _ _ D), drop_drop. f_equal. lia.
Qed.

Lemma decoded_ready o o' n :
  dec_ready o -> decoded o o' n -> 0 <= n <= odr_max o -> dec_ready o'.
Proof.
  intros [Hd He Hb Hs Hy _ Hbi] D Hn. pose proof D as [F _ L B]. unfold odr_max in Hn.
  destruct (decoded_buf _ _ _ D) as (E1 & E2 & _).
  split; [rewrite <- Hd; exact (f_equal direction F)
         |rewrite <- He; exact (f_equal error F)
         |lia|by rewrite E1, E2|by rewrite E1|by left|rewrite <- Hbi; exact (f_equal choice_bias F)].
Qed.

Lemma decoded_trans o o1 o2 a b :
  decoded o o1 a -> decoded o1 o2 b -> decoded o o2 (a + b).
Proof. intros [F1 ? ? B1] [F2 ? ? B2]. split; [by rewrite F2|done..|lia]. Qed.

(** Reading the byte at [bp] and stepping over it. *)
Lemma at_bp_0 o x l :
  0 <= bp o -> bp_ptr o = x :: l ->
  at_bp 0 o = Some (x, o) /\ bp_ptr (set_bp (bp o + 1) o) = l.
Proof.
  intros Hb Hp. split.
  - unfold at_bp, bind, get, lift. rewrite <- rd_drop by lia. fold (bp_ptr o).
    by rewrite Hp.
  - unfold bp_ptr in *. simpl. replace (Z.to_nat (bp o + 1)) with (Z.to_nat (bp o) + 1)%nat by lia.
    rewrite <- drop_drop, Hp. done.
Qed.

Lemma bp_ptr_advance o a rest n :
  0 <= bp o -> bp_ptr o = a ++ rest -> n = zlen a -> bp_ptr (set_bp (bp o + n) o) = rest.
Proof.
  intros Hb Hp ->. unfold bp_ptr in *. simpl. unfold zlen.
  replace (Z.to_nat (bp o + Z.of_nat (length a))) with (Z.to_nat (bp o) + length a)%nat by lia.
  by rewrite <- drop_drop, Hp, drop_app_length.
Qed.

Lemma at_eoc_no o b l :
  dec_ready o -> bp_ptr o = b :: l -> b <> 0 -> at_eoc o = Some (false, o).
Proof.
  intros Hr Hp Hb. unfold at_eoc, at_bp, bind, get, lift, ret.
  destruct Hr. rewrite <- rd_drop by lia. fold (bp_ptr o). rewrite Hp. simpl.
  by rewrite (proj2 (Z.eqb_neq b 0)).
Qed.

Lemma odr_constructed_more_yes o :
  dec_ready o -> more_at o -> stack o <> [] ->
  odr_constructed_more o = Some (1, o).
Proof.
  intros Hr Hm Hs. unfold odr_constructed_more, bind, get, lift, ret.
  rewrite (dr_error _ Hr). simpl. unfold more_at in Hm.
  destruct (stack o) as [|c st]; [done|].
  destruct (cs_len c) as [len|]; [|done].
  destruct (Z.leb_spec 0 len).
  - rewrite (proj2 (Z.ltb_lt _ _)) by lia. done.
  - destruct Hm as (b & l & Hp & Hb). by rewrite (at_eoc_no _ b l).
Qed.

(** Entering [ber_tag] on a decoding stream: at top level the stream is at its
    beginning already. *)
Lemma ber_tag_enter_dec o :
  dec_ready o -> more_at o ->
  exists o', ber_tag_enter o = Some (tt, o') /\ non_dec o' = non_dec o /\
    bp o' = bp o /\ t_class o' = -1 /\ dec_ready o' /\
    (stack o <> [] -> lclass o' = lclass o /\ ltag o' = ltag o /\ lcons o' = lcons o /\ br o' = br o).
Proof.
  intros [Hd He Hb Hs Hy Hl Hbi] Hm. unfold ber_tag_enter, bind, modify, get. simpl.
  unfold more_at in Hm. destruct (stack o) as [|c st] eqn:Hst.
  - rewrite odr_seek_set by (simpl; lia). simpl. eexists. split; [reflexivity|].
    split; [done|]. simpl. rewrite Hm. split; [done|]. split; [done|].
    split; [|done]. split; simpl; [done|done|lia|done|done|by left|done].
  - eexists. split; [reflexivity|]. do 3 (split; [done|]). split; [|done].
    split; done.
Qed.

(** Filling the look-ahead gives the tag of the next element. *)
Lemma ber_tag_peek_spec o zclass tag cons bs rest name :
  dec_ready o -> bp_ptr o = bs ++ rest ->
  0 <= zclass < 4 -> 0 <= cons <= 1 -> 0 <= tag < 2 ^ 28 ->
  tag_bytes zclass tag cons bs ->
  exists o', ber_tag_peek name o = Some (true, o') /\ non_dec o' = non_dec o /\
    bp o' = bp o /\ t_class o' = t_class o /\ dec_ready o' /\
    lclass o' = zclass /\ ltag o' = tag /\ lcons o' = cons /\ br o' = zlen bs.
Proof.
  intros Hr Hp Hz Hc Ht Hbs. pose proof (bp_ptr_zlen _ Hr) as Hlen.
  rewrite Hp, zlen_app in Hlen. pose proof (zlen_nonneg rest) as Hnr.
  assert (bs <> []) as Hne.
  { unfold tag_bytes in Hbs. destruct (tag <=? 30); [by subst|]. by destruct Hbs as (? & _ & ->). }
  pose proof (zlen_pos bs Hne) as H1.
  assert (forall t, ber_dectag (bp_ptr o) t (odr_max o) = Some (zlen bs, mkTag zclass tag cons)) as Hdec.
  { intros t. rewrite Hp. apply ber_dectag_tag_bytes; done || lia. }
  pose proof Hr as [Hd He Hb Hs Hy Hl Hbi].
  unfold ber_tag_peek, bind, get, lift, modify, ret.
  destruct Hl as [Hl|(Hl & Hbr & Hall)].
  - rewrite Hl, Hdec. simpl. rewrite (proj2 (Z.leb_gt _ _)) by lia.
    eexists. split; [reflexivity|]. do 3 (split; [done|]). split; [|done].
    split; simpl; try done. right. simpl. split; [lia|]. split; [lia|]. exact Hdec.
  - rewrite (proj2 (Z.ltb_ge _ _)) by lia. exists o.
    specialize (Hall (mkTag 0 0 0)). rewrite Hdec in Hall. injection Hall as <- <- <- <-.
    repeat (split; [done|]). done.
Qed.

(** The prologue and the look-ahead together: the state in which the tag of
    the next element is compared. *)
Lemma ber_tag_dec_step {A} o (p : option A) zc tg k opt name zclass tag cons bs rest :
  dec_ready o -> more_at o -> bp_ptr o = bs ++ rest ->
  0 <= zclass < 4 -> 0 <= cons <= 1 -> 0 <= tag < 2 ^ 28 ->
  tag_bytes zclass tag cons bs ->
  exists o', non_dec o' = non_dec o /\ bp o' = bp o /\ t_class o' = -1 /\
    dec_ready o' /\ br o' = zlen bs /\
    ber_tag p zc tg k opt name o =
      (if (zc =? zclass) && (tg =? tag)
       then Some ((1, cons, None), set_bp (bp o + zlen bs) (set_lclass (-1) o'))
       else (tag_missing opt 27 name ;; ret (0, k, None)) o').
Proof.
  intros Hr Hm Hp Hz Hc Ht Hbs.
  destruct (ber_tag_enter_dec _ Hr Hm) as (o1 & E1 & F1 & B1 & T1 & R1 & _).
  assert (stack o1 = stack o) as Hst by exact (f_equal stack F1).
  assert (buf o1 = buf o) as Hbuf by exact (f_equal buf F1).
  assert (bp_ptr o1 = bp_ptr o) as Hptr by (unfold bp_ptr; by rewrite Hbuf, B1).
  destruct (ber_tag_peek_spec o1 zclass tag cons bs rest name)
    as (o2 & E2 & F2 & B2 & T2 & R2 & L2 & G2 & K2 & Br2); [done|by rewrite Hptr|done..|].
  exists o2. split; [by rewrite F2|]. split; [lia|]. split; [by rewrite T2|].
  split; [done|]. split; [done|].
  unfold ber_tag, bind, gets. rewrite (dr_dir _ Hr). simpl. rewrite E1. simpl.
  rewrite Hst.
  assert ((match stack o with [] => ret 1 | _ :: _ => odr_constructed_more end) o1 = Some (1, o1)) as ->.
  { destruct (stack o) as [|c st] eqn:Es; [done|].
    apply odr_constructed_more_yes; [done| |by rewrite Hst].
    unfold more_at in *. rewrite Hst. rewrite Es in Hm. by rewrite B1, Hptr. }
  simpl. rewrite E2. simpl. rewrite L2, G2, K2.
  destruct ((zc =? zclass) && (tg =? tag)); [|done].
  unfold modify. simpl. by rewrite Br2, B2, B1.
Qed.

Lemma ber_tag_decode {A} o (p : option A) zclass tag cons k opt name bs rest :
  dec_ready o -> more_at o -> bp_ptr o = bs ++ rest ->
  0 <= zclass < 4 -> 0 <= cons <= 1 -> 0 <= tag < 2 ^ 28 ->
  tag_bytes zclass tag cons bs ->
  exists o', ber_tag p zclass tag k opt name o = Some ((1, cons, None), o')
    /\ decoded o o' (zlen bs).
Proof.
  intros Hr Hm Hp Hz Hc Ht Hbs.
  destruct (ber_tag_dec_step o p zclass tag k opt name zclass tag cons bs rest)
    as (o2 & F & B & T & R & Br & ->); [done..|].
  rewrite !Z.eqb_refl. simpl. eexists. split; [reflexivity|].
  split; simpl; [exact F|done..].
Qed.

(** A tag that is not the expected one is kept for the next call. *)
Lemma ber_tag_absent {A} o (p : option A) zc tg k opt name zclass tag cons bs rest :
  dec_ready o -> more_at o -> bp_ptr o = bs ++ rest -> opt <> 0 ->
  0 <= zclass < 4 -> 0 <= cons <= 1 -> 0 <= tag < 2 ^ 28 ->
  tag_bytes zclass tag cons bs -> zc <> zclass \/ tg <> tag ->
  exists o', ber_tag p zc tg k opt name o = Some ((0, k, None), o') /\
    non_dec o' = non_dec o /\ bp o' = bp o /\ t_class o' = -1 /\ dec_ready o'.
Proof.
  intros Hr Hm Hp Hopt Hz Hc Ht Hbs Hne.
  destruct (ber_tag_dec_step o p zc tg k opt name zclass tag cons bs rest)
    as (o2 & F & B & T & R & Br & ->); [done..|].
  replace ((zc =? zclass) && (tg =? tag)) with false by (symmetry; ztest; done).
  exists o2. split; [|done]. unfold tag_missing, bind, ret.
  by rewrite (proj2 (Z.eqb_neq opt 0)).
Qed.

(** The answer of [odr_constructed_more] depends on the buffer and the stack
    only. *)
Lemma constructed_more_frame o o' r :
  odr_constructed_more o = Some (r, o) ->
  error o' = error o -> stack o' = stack o -> bp o' = bp o -> buf o' = buf o ->
  odr_constructed_more o' = Some (r, o').
Proof.
  intros H He Hs Hb Hbuf. revert H. unfold odr_constructed_more. mrun.
  rewrite He, Hs. destruct (negb _); [by intros [= <-]|].
  destruct (stack o) as [|e st]; [by intros [= <-]|].
  destruct (cs_len e) as [len|]; [|done]. mrun. rewrite Hb.
  destruct (0 <=? len); [by intros [= <-]|]. unfold at_eoc, bind.
  assert (forall i o, at_bp i o = lift (rd (buf o) (bp o + i)) o) as E by done.
  rewrite !E, Hb, Hbuf. unfold lift.
  destruct (rd (buf o) (bp o + 0)) as [b0|]; [|done].
  destruct (b0 =? 0); [|by intros [= <-]]. rewrite !E, Hb, Hbuf. unfold lift.
  destruct (rd (buf o) (bp o + 1)) as [b1|]; [|done]. by intros [= <-].
Qed.

(** Nor is anything read when the open value has no member left. *)
Lemma ber_tag_no_more {A} o (p : option A) zc tg k opt name :
  dec_ready o -> odr_constructed_more o = Some (0, o) -> stack o <> [] -> opt <> 0 ->
  exists o', ber_tag p zc tg k opt name o = Some ((0, k, None), o') /\
    non_dec o' = non_dec o /\ bp o' = bp o /\ t_class o' = -1 /\ dec_ready o'.
Proof.
  intros Hr Hmore Hs Hopt. exists (set_t_class (-1) o). split; [|by destruct Hr].
  unfold ber_tag. mrun. rewrite (dr_dir _ Hr). mrun.
  rewrite (bind_Some _ _ o tt (set_t_class (-1) o)).
  - mrun. change (stack (set_t_class (-1) o)) with (stack o).
    destruct (stack o) eqn:Es; [done|].
    rewrite (bind_Some _ _ _ _ _ (constructed_more_frame o (set_t_class (-1) o) 0 Hmore
      eq_refl eq_refl eq_refl eq_refl)).
    change (0 =? 0) with true. cbv iota. unfold tag_missing.
    rewrite (proj2 (Z.eqb_neq opt 0)) by done. by mrun.
  - unfold ber_tag_enter. mrun. simpl. by destruct (stack o).
Qed.

(** Encoding an optional element that is absent writes nothing. *)
Lemma ber_tag_absent_encode {A} o zc tg k opt name :
  opt <> 0 -> enc_ready o 0 -> stack o <> [] ->
  exists o', ber_tag (A := A) None zc tg k opt name o = Some ((0, k, None), o') /\ encoded o o' [].
Proof.
  intros Hopt Hr Hs. destruct (ber_tag_enter_enc _ _ Hr) as (o1 & E1 & D1 & _).
  exists o1. split; [|done]. unfold ber_tag. mrun. rewrite (er_dir _ _ Hr). mrun.
  rewrite (bind_Some _ _ _ _ _ E1). unfold tag_missing.
  rewrite (proj2 (Z.eqb_neq opt 0)) by done. by mrun.
Qed.

Lemma tag_bytes_bytes zclass tag cons bs :
  0 <= zclass < 4 -> 0 <= cons <= 1 -> 0 <= tag < 2 ^ 28 ->
  tag_bytes zclass tag cons bs -> bytes_ok bs.
Proof.
  intros Hz Hc Ht Hbs. unfold tag_bytes in Hbs.
  destruct (Z.leb_spec tag 30).
  - subst. apply Forall_singleton. unfold byte_ok. lia.
  - destruct Hbs as (ds & Hds & ->).
    destruct (base128_octs_val 4 tag [] ds ltac:(lia) Hds) as (ds' & E & _ & Hdig & _).
    rewrite app_nil_r in E. subst ds'.
    constructor; [unfold byte_ok; lia|by apply mark128_bytes].
Qed.

(** The first octet of an element is not zero, unless its tag is the
    end-of-contents tag. *)
Lemma tag_bytes_head zclass tag cons bs :
  0 <= zclass -> 0 <= cons -> 0 <= tag ->
  zclass + cons + tag <> 0 -> tag_bytes zclass tag cons bs ->
  exists b l, bs = b :: l /\ b <> 0.
Proof.
  intros Hz Hc Ht Hne Hbs. unfold tag_bytes in Hbs. destruct (Z.leb_spec tag 30).
  - subst. do 2 eexists. split; [done|lia].
  - destruct Hbs as (ds & _ & ->). do 2 eexists. split; [done|lia].
Qed.

Lemma tag_bytes_total zclass tag cons :
  0 <= tag < 2 ^ 28 -> exists bs, tag_bytes zclass tag cons bs.
Proof.
  intros Ht. unfold tag_bytes. destruct (tag <=? 30); [eauto|].
  destruct (base128_octs_total 4 tag []) as [ds Hds];
    [change (128 ^ Z.of_nat 4) with (2 ^ 28); lia|lia|eauto].
Qed.
