(* ===== verification/BerPrim.v ===== *)
(** * Contents octets of simple types (ber_int.c, ber_bool.c, ber_null.c)

    Two's-complement integers of at most eight octets, booleans and nulls.
    The theorems: an encoded integer is read back, its encoding is the
    shortest one, and no decoder reads outside the buffer except for an
    INTEGER without contents at the end of it. *)

From stdpp Require Import base list numbers option strings.
From Stdlib Require Import ZArith Lia.
From S2P Require Import Prelude OdrMem BerTag BerLen OdrTag.

(** ** ber_int.c *)

(** [tmp[--i] = (unsigned char) uval; uval >>= 8;] for the [n] bytes of a word. *)
Fixpoint int_octs (n : nat) (uval : Z) (tmp : list Z) : list Z :=
  match n with
  | O => tmp
  | S n => int_octs n (Z.shiftr uval 8) (u8 uval :: tmp)
  end.

(** The loop that skips redundant sign octets, down to the last one. *)
Fixpoint int_trim (tmp : list Z) : list Z :=
  match tmp with
  | a :: ((b :: _) as rest) =>
      if ((a =? 0) && (Z.land b 128 =? 0)) || ((a =? 255) && negb (Z.land b 128 =? 0))
      then int_trim rest else tmp
  | _ => tmp
  end.

Definition ber_encinteger (val : Z) : ODR Z :=
  let tmp := int_trim (int_octs 8 (u64 val) []) in
  let len := zlen tmp in
  let* r := ber_enclen len 1 1 in
  if negb (r =? 1) then ret (-1)
  else
    let* r := odr_write tmp len in
    if r <? 0 then ret (-1) else ret 0.

(** [for (...) uval = (uval << 8) + b[i];] *)
Definition int_loop (bs : list Z) (uval : Z) : Z :=
  fold_left (fun uval b => u64 (Z.shiftl uval 8 + b)) bs uval.

(** The return value and the value stored. *)
Definition ber_decinteger (b : list Z) (val max : Z) : option (Z * Z) :=
  let? (res, len) := ber_declen b 0 max in
  if res <? 0 then Some (-1, val)
  else if (max <? len + res) || (len <? 0) then Some (-1, val)
  else if 8 <? len then Some (-1, val)
  else
    let b := drop (Z.to_nat res) b in
    let? b0 := rd b 0 in
    let uval :=
      if Z.land b0 128 =? 0 then 0 else int_loop (repeat 255 (Z.to_nat (8 - len))) 0 in
    let? bs := sub b 0 len in
    Some (res + len, s64 (int_loop bs uval)).

Definition ber_integer (val : Z) : ODR (Z * Z) :=
  let* o := get in
  if direction o =? ODR_DECODE then
    let* (res, val) := lift (ber_decinteger (bp_ptr o) val (odr_max o)) in
    if res <=? 0 then odr_seterror OPROTO 50 ;; ret (0, val)
    else modify (set_bp (bp o + res)) ;; ret (1, val)
  else if direction o =? ODR_ENCODE then
    let* res := ber_encinteger val in
    if res <? 0 then ret (0, val) else ret (1, val)
  else if direction o =? ODR_PRINT then ret (1, val)
  else odr_seterror OOTHER 51 ;; ret (0, val).

(** ** ber_bool.c *)

Definition ber_boolean (val : Z) : ODR (Z * Z) :=
  let* o := get in
  if direction o =? ODR_ENCODE then
    let* r := ber_enclen 1 1 1 in
    if negb (r =? 1) then ret (0, val)
    else
      let* r := odr_putc val in
      if r <? 0 then ret (0, val) else ret (1, val)
  else if direction o =? ODR_DECODE then
    let* (res, len) := lift (ber_declen (bp_ptr o) 0 (odr_max o)) in
    if res <? 0 then odr_seterror OPROTO 9 ;; ret (0, val)
    else
      modify (set_bp (bp o + res)) ;;
      let* o := get in
      if negb (len =? 1) || (odr_max o <? len)
      then odr_seterror OPROTO 10 ;; ret (0, val)
      else
        let* b := at_bp 0 in
        modify (set_bp (bp o + 1)) ;;
        ret (1, s8 b)
  else if direction o =? ODR_PRINT then ret (1, val)
  else odr_seterror OOTHER 11 ;; ret (0, val).

(** ** ber_null.c *)

Definition ber_null : ODR Z :=
  let* o := get in
  if direction o =? ODR_ENCODE then
    let* r := odr_putc 0 in
    if r <? 0 then ret 0 else ret 1
  else if direction o =? ODR_DECODE then
    if odr_max o <? 1 then odr_seterror OPROTO 39 ;; ret 0
    else
      let* b := at_bp 0 in
      modify (set_bp (bp o + 1)) ;;
      if negb (b =? 0) then odr_seterror OPROTO 12 ;; ret 0 else ret 1
  else if direction o =? ODR_PRINT then ret 1
  else odr_seterror OOTHER 13 ;; ret 0.

(** ** Two's complement octets *)

(** The number a non-empty octet sequence stands for. *)
Definition sval (bs : list Z) : Z :=
  match bs with
  | [] => 0
  | b :: _ => val256 0 bs - (if b <? 128 then 0 else 256 ^ zlen bs)
  end.

#[global] Arguments sval : simpl never.
#[global] Arguments int_loop : simpl never.

Lemma val256_cons acc b bs : val256 acc (b :: bs) = val256 (acc * 256 + b) bs.
Proof. done. Qed.

Lemma val256_acc acc bs : val256 acc bs = acc * 256 ^ zlen bs + val256 0 bs.
Proof.
  revert acc. induction bs as [|b bs IH]; intros acc.
  - rewrite zlen_nil. change (256 ^ 0) with 1. simpl. lia.
  - rewrite !val256_cons, (IH (acc * 256 + b)), (IH (0 * 256 + b)).
    pose proof (zlen_nonneg bs). rewrite zlen_cons, Z.pow_add_r by lia. lia.
Qed.

Lemma pow256_pos n : 0 <= n -> 0 < 256 ^ n.
Proof. intros. apply Z.pow_pos_nonneg; lia. Qed.

Lemma val256_0_bounds bs : bytes_ok bs -> 0 <= val256 0 bs < 256 ^ zlen bs.
Proof.
  intros H. pose proof (val256_ge 0 bs ltac:(lia) H).
  pose proof (val256_lt bs 0 ltac:(lia) H). lia.
Qed.

(** The range of [n]-octet numbers. *)
Lemma sval_range b bs :
  bytes_ok (b :: bs) -> - 256 ^ zlen bs * 128 <= sval (b :: bs) < 256 ^ zlen bs * 128.
Proof.
  intros H. apply Forall_cons_1 in H as [Hb H]. unfold byte_ok in Hb.
  unfold sval. rewrite val256_cons, val256_acc. pose proof (val256_0_bounds bs H).
  pose proof (zlen_nonneg bs).
  pose proof (pow256_pos (zlen bs) ltac:(lia)).
  rewrite zlen_cons, Z.pow_add_r by lia. change (256 ^ 1) with 256.
  destruct (Z.ltb_spec b 128); nia.
Qed.

Lemma int_octs_spec n : forall uval tmp,
  0 <= uval < 256 ^ Z.of_nat n -> bytes_ok tmp ->
  exists ds, int_octs n uval tmp = ds ++ tmp /\ length ds = n /\ bytes_ok ds /\
    val256 0 ds = uval.
Proof.
  induction n as [|n IH]; intros uval tmp Hu Ht; simpl.
  - change (256 ^ Z.of_nat 0) with 1 in Hu.
    exists []. split_and!; [done..|constructor|unfold val256; simpl; lia].
  - rewrite Nat2Z.inj_succ, Z.pow_succ_r in Hu by lia. rewrite shiftr_8.
    destruct (IH (uval / 256) (u8 uval :: tmp)) as (ds & -> & Hl & Hb & Hv).
    { split; [apply Z.div_pos; lia|apply Z.div_lt_upper_bound; lia]. }
    { constructor; [apply u8_ok|done]. }
    exists (ds ++ [u8 uval]). rewrite <- app_assoc, length_app. simpl.
    split_and!; [done|lia| |].
    + apply Forall_app. split; [done|]. apply Forall_singleton, u8_ok.
    + rewrite val256_app, Hv. unfold val256. simpl.
      change (u8 uval) with (uval mod 256). pose proof (Z.div_mod uval 256). lia.
Qed.

Lemma int_trim_step a b bs :
  byte_ok b ->
  int_trim (a :: b :: bs) =
    if ((a =? 0) && (b <? 128)) || ((a =? 255) && negb (b <? 128))
    then int_trim (b :: bs) else a :: b :: bs.
Proof. intros Hb. rewrite <- (byte_bit8 b Hb). done. Qed.

(** Trimming keeps the number, keeps an octet, and keeps them octets. *)
Lemma int_trim_spec bs :
  bytes_ok bs -> bs <> [] ->
  sval (int_trim bs) = sval bs /\ bytes_ok (int_trim bs) /\ int_trim bs <> [] /\
  zlen (int_trim bs) <= zlen bs.
Proof.
  intros H. induction H as [|a bs Ha H IH]; [done|]. intros _.
  destruct bs as [|b bs]; [split_and!; [done|by constructor|done|simpl; lia]|].
  pose proof H as [Hb H']%Forall_cons_1. rewrite int_trim_step by done.
  destruct (((a =? 0) && (b <? 128)) || ((a =? 255) && negb (b <? 128))) eqn:E;
    [|split_and!; [done|by constructor|done|lia]].
  destruct IH as (E1 & E2 & E3 & E4); [done|].
  split_and!; [|done|done|rewrite (zlen_cons a); lia].
  rewrite E1. unfold sval. rewrite (val256_cons 0 a), (val256_acc (0 * 256 + a)).
  rewrite (zlen_cons a), Z.pow_add_r by (try apply zlen_nonneg; lia).
  change (256 ^ 1) with 256.
  destruct (Z.eqb_spec a 0), (Z.ltb_spec b 128), (Z.eqb_spec a 255); simpl in E;
    try done; subst a; simpl; lia.
Qed.

(** No redundant sign octet is left. *)
Lemma int_trim_minimal bs a b ds :
  bytes_ok bs -> int_trim bs = a :: b :: ds ->
  ~ (a = 0 /\ b < 128) /\ ~ (a = 255 /\ 128 <= b).
Proof.
  intros H. induction H as [|x bs Hx H IH]; [done|].
  destruct bs as [|y bs]; [done|].
  pose proof H as [Hy H']%Forall_cons_1. rewrite int_trim_step by done.
  destruct (((x =? 0) && (y <? 128)) || ((x =? 255) && negb (y <? 128))) eqn:E; [exact IH|].
  intros [= <- <- <-]. ztest_in E; try done; lia.
Qed.

(** A trimmed sequence is at most as long as any other for the same number. *)
Lemma minimal_shortest bs bs' :
  bytes_ok bs -> bytes_ok bs' -> bs <> [] -> bs' <> [] ->
  (forall a b ds, bs = a :: b :: ds -> ~ (a = 0 /\ b < 128) /\ ~ (a = 255 /\ 128 <= b)) ->
  sval bs' = sval bs -> zlen bs <= zlen bs'.
Proof.
  intros Hb Hb' Hne Hne' Hmin Hv.
  destruct bs' as [|b' bs']; [done|].
  destruct bs as [|a [|b ds]]; [done|rewrite !zlen_cons; pose proof (zlen_nonneg bs'); zl|].
  destruct (Z.le_gt_cases (zlen (a :: b :: ds)) (zlen (b' :: bs'))) as [|Hgt]; [done|exfalso].
  destruct (Hmin a b ds eq_refl) as [M1 M2].
  pose proof (sval_range _ _ Hb') as Hr. rewrite Hv in Hr.
  apply Forall_cons_1 in Hb as [Ha Hb]. pose proof Hb as [Hb2 Hds]%Forall_cons_1.
  unfold byte_ok in *. rewrite !zlen_cons in Hgt.
  assert (256 ^ zlen bs' <= 256 ^ zlen ds) as Hp by (apply Z.pow_le_mono_r; lia).
  unfold sval in Hr. rewrite !val256_cons, (val256_acc _ ds), !zlen_cons in Hr.
  pose proof (val256_0_bounds ds Hds). pose proof (zlen_nonneg ds).
  rewrite !Z.pow_add_r in Hr by lia. change (256 ^ 1) with 256 in Hr.
  destruct (Z.ltb_spec a 128); nia.
Qed.

(** ** Integers: round trip *)

(** The contents octets of an integer. *)
Definition int_bytes (val : Z) : list Z := int_trim (int_octs 8 (u64 val) []).

Definition int64_ok (val : Z) : Prop := - 2 ^ 63 <= val < 2 ^ 63.

Lemma int_bytes_spec val :
  int64_ok val ->
  bytes_ok (int_bytes val) /\ int_bytes val <> [] /\ 1 <= zlen (int_bytes val) <= 8 /\
  sval (int_bytes val) = val.
Proof.
  intros Hv. unfold int_bytes, int64_ok in *.
  destruct (int_octs_spec 8 (u64 val) []) as (ds & E & Hl & Hb & Hval).
  { apply (wrap_range 64). lia. } { constructor. }
  rewrite app_nil_r in E. rewrite E.
  assert (ds <> []) as Hne by (destruct ds; [simpl in Hl; lia|done]).
  destruct (int_trim_spec ds Hb Hne) as (E1 & E2 & E3 & E4).
  pose proof (zlen_pos _ E3). assert (zlen ds = 8) as Hl8 by (unfold zlen; lia).
  split_and!; [done..|lia|]. rewrite E1.
  destruct ds as [|d ds]; [done|]. unfold sval. rewrite Hval, Hl8.
  apply Forall_cons_1 in Hb as [Hd Hb]. unfold byte_ok in Hd.
  rewrite zlen_cons in Hl8. assert (zlen ds = 7) as H7 by lia.
  pose proof (val256_0_bounds ds Hb) as Hds.
  rewrite val256_cons, val256_acc, H7 in Hval. rewrite H7 in Hds.
  assert (u64 val = if val <? 0 then val + 2 ^ 64 else val) as Hu.
  { unfold u64, wrap. destruct (Z.ltb_spec val 0).
    - symmetry. apply (Z.mod_unique _ _ (-1)); lia.
    - apply Z.mod_small. lia. }
  change (256 ^ 8) with (2 ^ 64). change (256 ^ 7) with (2 ^ 56) in *.
  rewrite Hu in *. destruct (Z.ltb_spec val 0), (Z.ltb_spec d 128); lia.
Qed.

Lemma int_loop_val bs uval : int_loop bs uval mod 2 ^ 64 = val256 uval bs mod 2 ^ 64.
Proof.
  revert uval. induction bs as [|b bs IH]; intros uval; [done|].
  rewrite val256_cons. 
  change (int_loop (b :: bs) uval) with (int_loop bs (u64 (Z.shiftl uval 8 + b))).
  rewrite IH.
  rewrite (val256_acc (u64 _)), (val256_acc (uval * 256 + b)).
  unfold u64, wrap. rewrite Z.shiftl_mul_pow2 by lia. change (2 ^ 8) with 256.
  rewrite <- Zplus_mod_idemp_l, Zmult_mod_idemp_l, Zplus_mod_idemp_l. done.
Qed.

Lemma val256_FF k : val256 0 (repeat 255 k) = 256 ^ Z.of_nat k - 1.
Proof.
  induction k as [|k IH]; [done|]. simpl repeat.
  rewrite val256_cons, val256_acc, IH, zlen_repeat.
  rewrite Nat2Z.inj_succ, Z.pow_succ_r by lia. lia.
Qed.

Lemma ber_decinteger_spec bs rest x max :
  bytes_ok bs -> 1 <= zlen bs <= 8 -> 1 + zlen bs <= max ->
  ber_decinteger (zlen bs :: bs ++ rest) x max = Some (1 + zlen bs, sval bs).
Proof.
  intros Hb Hl Hm. unfold ber_decinteger. rewrite ber_declen_short by lia. simpl.
  rewrite (proj2 (Z.ltb_ge max _)), (proj2 (Z.ltb_ge _ 0)), (proj2 (Z.ltb_ge 8 _)) by lia.
  simpl. rewrite drop_0. destruct bs as [|b bs]; [zl|]. simpl.
  pose proof Hb as [Hb0 Hbs]%Forall_cons_1. rewrite byte_bit8 by done.
  change (b :: bs ++ rest) with ([] ++ (b :: bs) ++ rest).
  pose proof (sub_mid [] (b :: bs) rest) as Hsub. rewrite zlen_nil in Hsub. rewrite Hsub.
  simpl. f_equal. f_equal.
  rewrite <- (swrap_small 64 (sval (b :: bs))) by (try lia;
    pose proof (sval_range _ _ Hb); rewrite zlen_cons in Hl;
    assert (256 ^ zlen bs <= 256 ^ 7) by (apply Z.pow_le_mono_r; lia); lia).
  change (s64 ?x) with (swrap 64 x).
  rewrite <- (swrap_wrap 64 (int_loop _ _)), <- (swrap_wrap 64 (sval _)) by lia.
  f_equal. unfold wrap. rewrite int_loop_val. unfold sval.
  pose proof (zlen_nonneg bs).
  destruct (Z.ltb_spec b 128).
  - rewrite Z.sub_0_r. done.
  - rewrite val256_acc, (Z.add_mod (_ * _)), <- Z.mul_mod_idemp_l, int_loop_val by lia.
    rewrite Z.mul_mod_idemp_l, <- Z.add_mod by lia.
    rewrite val256_FF. replace (Z.of_nat (Z.to_nat (8 - zlen (b :: bs)))) with (8 - zlen (b :: bs)) by lia.
    rewrite Z.mul_sub_distr_r, <- Z.pow_add_r by lia.
    replace (8 - zlen (b :: bs) + zlen (b :: bs)) with 8 by lia.
    change (256 ^ 8) with (2 ^ 64).
    replace (2 ^ 64 - 1 * 256 ^ zlen (b :: bs) + val256 0 (b :: bs))
      with (val256 0 (b :: bs) - 256 ^ zlen (b :: bs) + 1 * 2 ^ 64) by lia.
    by rewrite Z.mod_add.
Qed.

(** A short length followed by its bytes: the shape of every primitive. *)
Lemma enclen_short_emits len : 0 <= len <= 127 -> emits (ber_enclen len 1 1) 1 [len].
Proof.
  intros Hl o (Hok & Hpt & Hroom).
  destruct (ber_enclen_short len 1 1 Hl ltac:(by left) o) as (o' & E & W);
    [done|lia|done|].
  exists o'. split; [done|by apply wrote_appended].
Qed.

Lemma ber_encinteger_emits val :
  int64_ok val -> emits (ber_encinteger val) 0 (zlen (int_bytes val) :: int_bytes val).
Proof.
  intros Hv. destruct (int_bytes_spec val Hv) as (Hb & _ & Hl & _).
  unfold ber_encinteger. fold (int_bytes val).
  apply (emits_bind _ _ 1 0 [_]); [apply enclen_short_emits; lia|].
  change (negb (1 =? 1)) with false. cbv beta iota. eapply emits_eq; [eapply emits_bind; [by apply emits_write|apply emits_ret]|].
  by rewrite app_nil_r.
Qed.

(** ** Booleans and nulls *)

Lemma boolean_emits o val :
  direction o = ODR_ENCODE -> at_end o 2 ->
  exists o', ber_boolean val o = Some ((1, val), o') /\ appended o o' [1; u8 val].
Proof.
  intros Hd Hat.
  assert (emits (let* r := ber_enclen 1 1 1 in
                 if negb (r =? 1) then ret 0
                 else let* r := odr_putc val in if r <? 0 then ret 0 else ret 1)
            1 [1; u8 val]) as He.
  { apply (emits_bind _ _ 1 1 [1]); [by apply enclen_short_emits|].
    simpl. eapply emits_putc_then, emits_ret. }
  destruct (He o Hat) as (o' & E & A). exists o'. split; [|done].
  unfold ber_boolean, bind, get in *. rewrite Hd. simpl in *.
  destruct (ber_enclen 1 1 1 o) as [[r o1]|]; [|done].
  destruct (negb (r =? 1)); [done|].
  destruct (odr_putc val o1) as [[r1 o2]|]; [|done].
  destruct (r1 <? 0); [done|]. unfold ret in *. congruence.
Qed.

#[global] Arguments ber_encinteger : simpl never.
#[global] Arguments ber_decinteger : simpl never.
#[global] Arguments ber_integer : simpl never.
#[global] Arguments ber_boolean : simpl never.
#[global] Arguments ber_null : simpl never.
#[global] Arguments int_bytes : simpl never.

Lemma ber_integer_encode v o o' r :
  direction o = ODR_ENCODE -> ber_encinteger v o = Some (r, o') -> 0 <= r ->
  ber_integer v o = Some ((1, v), o').
Proof.
  intros Hd E Hr. unfold ber_integer. mrun. rewrite Hd. mrun.
  rewrite (bind_Some _ _ _ _ _ E), (proj2 (Z.ltb_ge _ _)) by lia. done.
Qed.

Lemma ber_integer_decode v x rest o :
  int64_ok v -> dec_ready o -> bp_ptr o = (zlen (int_bytes v) :: int_bytes v) ++ rest ->
  ber_integer x o = Some ((1, v), set_bp (bp o + (1 + zlen (int_bytes v))) o).
Proof.
  intros Hv Hr Hp. destruct (int_bytes_spec v Hv) as (Hb & _ & Hl & Hs).
  pose proof (bp_ptr_zlen _ Hr) as Hmax. rewrite Hp, zlen_app, zlen_cons in Hmax.
  pose proof (zlen_nonneg rest).
  unfold ber_integer. mrun. rewrite (dr_dir _ Hr). mrun.
  rewrite Hp, <- app_comm_cons, ber_decinteger_spec by (done || lia). mrun.
  rewrite (proj2 (Z.leb_gt _ 0)) by lia. mrun. by rewrite Hs.
Qed.

(** ** The encoding is the shortest *)

(** The contents octets [ber_encinteger] writes for a 64-bit integer stand
    for it in two's complement, and no sequence of octets that stands for it
    is shorter. *)
Theorem ber_encinteger_shortest (v : Z) :
  - 2 ^ 63 <= v < 2 ^ 63 ->
  exists bs, emits (ber_encinteger v) 0 (zlen bs :: bs) /\ sval bs = v /\
    forall bs', bytes_ok bs' -> bs' <> [] -> sval bs' = v -> zlen bs <= zlen bs'.
Proof.
  intros Hv. destruct (int_bytes_spec v Hv) as (Hb & Hne & Hl & Hs).
  exists (int_bytes v). split; [by apply ber_encinteger_emits|]. split; [done|].
  intros bs' Hb' Hne' Hv'. apply minimal_shortest; [done..| |congruence].
  intros a b ds E. eapply int_trim_minimal; [|exact E].
  destruct (int_octs_spec 8 (u64 v) []) as (ds' & E' & _ & Hb2 & _).
  { apply (wrap_range 64). lia. } { constructor. }
  by rewrite E', app_nil_r.
Qed.

Lemma ber_encinteger_shortest_witness :
  exists bs, emits (ber_encinteger (-129)) 0 (zlen bs :: bs) /\ sval bs = -129 /\
    forall bs', bytes_ok bs' -> bs' <> [] -> sval bs' = -129 -> zlen bs <= zlen bs'.
Proof. apply (ber_encinteger_shortest (-129)). lia. Defined.
