(* ===== verification/OdrCodec.v ===== *)
(** * What an ODR codec promises

    An ODR codec is one function that encodes, decodes or prints depending on
    the stream.  The class [OdrCodec] states what its clients (sequences,
    choices, tagged types) rely on: under whatever tag is in force, the bytes
    it appends when encoding are the bytes from which it rebuilds the value
    when decoding.  Codecs of simple types are instances by way of their
    contents octets. *)

From stdpp Require Import base list numbers option strings.
From Stdlib Require Import ZArith Lia.
From S2P Require Import Prelude OdrMem BerTag BerLen OdrTag.

(** ** The interface *)

(** Tags that can be written: [ber_enctag] has room for 28 bits, and the tag
    0 of the universal class ends contents. *)
Definition tag_ok (c t : Z) : Prop := 0 <= c < 4 /\ 0 <= t < 2 ^ 28 /\ 0 < c + t.

Lemma tag_ok_class c t : tag_ok c t -> 0 <= c.
Proof. intros [[] _]. done. Qed.

(** The tag an element is given: the implicit one if set, else its own. *)
Definition in_force (o : odr) (zclass tag : Z) : Z * Z :=
  if t_class o <? 0 then (zclass, tag) else (t_class o, t_tag o).

(** [d] more constructed values can be opened. *)
Definition depth_ok (o : odr) (d : Z) : Prop :=
  stack_depth o = zlen (stack o) /\ stack_depth o + d <= ODR_MAX_STACK.

(** The next element begins with the tag [c, t]. *)
Definition begins (bs : list Z) (c t : Z) : Prop :=
  exists k tb rest, bs = tb ++ rest /\ tag_ok c t /\ 0 <= k <= 1 /\ tag_bytes c t k tb.

(** The innermost open value has no member left, or the next one has another
    tag. *)
Definition not_here (o : odr) (c t : Z) : Prop :=
  stack o <> [] /\
  (odr_constructed_more o = Some (0, o) \/
   (more_at o /\ exists c' t', begins (bp_ptr o) c' t' /\ (c, t) <> (c', t'))).

(** [o'] is [o] after an element was looked for in vain. *)
Record skipped (o o' : odr) : Prop := {
  sk_frame : non_dec o' = non_dec o;
  sk_class : t_class o' = -1;
  sk_bp : bp o' = bp o;
  sk_ready : dec_ready o';
}.

Class OdrCodec {A : Type} (f : Odr_fun A) := {
  cd_class : Z;
  cd_tag : Z;
  cd_depth : Z;
  (** Values that can be sent. *)
  cd_ok : A -> Prop;
  (** [cd_bytes c t v bs]: [bs] is the encoding of [v] under tag [c, t]. *)
  cd_bytes : Z -> Z -> A -> list Z -> Prop;
  cd_own_tag : tag_ok cd_class cd_tag;
  cd_depth_nonneg : 0 <= cd_depth;
  cd_total c t v : tag_ok c t -> cd_ok v -> exists bs, cd_bytes c t v bs;
  cd_shape c t v bs :
    tag_ok c t -> cd_ok v -> cd_bytes c t v bs ->
    bytes_ok bs /\ 2 <= zlen bs /\
    exists tb k cb, tag_bytes c t k tb /\ 0 <= k <= 1 /\ bs = tb ++ cb;
  cd_encode c t v bs opt name o :
    tag_ok c t -> cd_ok v -> cd_bytes c t v bs ->
    in_force o cd_class cd_tag = (c, t) ->
    enc_ready o (zlen bs) -> depth_ok o cd_depth ->
    exists o', f (Some v) opt name o = Some ((1, Some v), o') /\ encoded o o' bs;
  cd_decode c t v bs rest p opt name o :
    tag_ok c t -> cd_ok v -> cd_bytes c t v bs ->
    in_force o cd_class cd_tag = (c, t) ->
    dec_ready o -> more_at o -> bp_ptr o = bs ++ rest -> depth_ok o cd_depth ->
    exists o', f p opt name o = Some ((1, Some v), o') /\ decoded o o' (zlen bs);
  (** An optional element that is absent. *)
  cd_absent_encode opt name o :
    opt <> 0 -> enc_ready o 0 -> stack o <> [] ->
    exists o', f None opt name o = Some ((opt, None), o') /\ encoded o o' [];
  cd_absent_decode c t p opt name o :
    opt <> 0 -> tag_ok c t -> in_force o cd_class cd_tag = (c, t) ->
    dec_ready o -> not_here o c t ->
    exists o', f p opt name o = Some ((opt, None), o') /\ skipped o o';
}.

(** ** The common beginning of simple codecs *)

Lemma default_tag_spec o zclass tag c t :
  in_force o zclass tag = (c, t) ->
  exists o', default_tag zclass tag o = Some ((c, t), o') /\
    (o' = o \/ o' = set_t_tag tag (set_t_class zclass o)).
Proof.
  unfold in_force, default_tag, bind, get, gets, modify, ret.
  destruct (Z.ltb_spec (t_class o) 0); simpl; intros [= <- <-]; eauto.
Qed.

Lemma enc_ready_tag o o' zclass tag n :
  o' = o \/ o' = set_t_tag tag (set_t_class zclass o) ->
  enc_ready o n -> enc_ready o' n.
Proof.
  intros [-> | ->]; [done|]. intros [Hd He (Hok & Hp & Hr) Ht Hll Hbi].
  split; [done|done| |done..]. split; [by destruct Hok|]. split; done.
Qed.

Lemma encoded_tag o o' o'' zclass tag bs :
  o' = o \/ o' = set_t_tag tag (set_t_class zclass o) ->
  encoded o' o'' bs -> encoded o o'' bs.
Proof. intros [-> | ->]; [done|]. intros []. by split. Qed.

Lemma dec_ready_tag o o' zclass tag :
  o' = o \/ o' = set_t_tag tag (set_t_class zclass o) ->
  dec_ready o -> more_at o -> dec_ready o' /\ more_at o' /\ bp_ptr o' = bp_ptr o.
Proof. intros [-> | ->]; [done|]. intros []. by split; [split|]. Qed.

Lemma decoded_tag o o' o'' zclass tag n :
  o' = o \/ o' = set_t_tag tag (set_t_class zclass o) ->
  decoded o' o'' n -> decoded o o'' n.
Proof. intros [-> | ->]; [done|]. intros []. by split. Qed.

Section head.
Context {A : Type} (zclass tag : Z) (k : Z -> option A -> ODR (Z * option A)).

Lemma odr_head_encode o v c t tb n opt name :
  tag_ok c t -> tag_bytes c t 0 tb -> in_force o zclass tag = (c, t) ->
  enc_ready o (zlen tb + n) -> 0 <= n ->
  exists o1, odr_head zclass tag k (Some v) opt name o = k 0 (Some v) o1 /\
    encoded o o1 tb.
Proof.
  intros [Hc Ht] Htb Hf Hr Hn.
  destruct (default_tag_spec _ _ _ _ _ Hf) as (o0 & E0 & H0).
  destruct (ber_tag_encode o0 v c t 0 opt name tb n) as (o1 & E1 & D1);
    [lia|lia|lia|done|by eapply enc_ready_tag|done|].
  exists o1. split; [|by eapply encoded_tag].
  unfold odr_head, bind, get. rewrite (er_error _ _ Hr). simpl.
  rewrite E0. simpl. by rewrite E1.
Qed.

Lemma odr_head_decode o p c t kb tb rest opt name :
  tag_ok c t -> 0 <= kb <= 1 -> tag_bytes c t kb tb -> in_force o zclass tag = (c, t) ->
  dec_ready o -> more_at o -> bp_ptr o = tb ++ rest ->
  exists o1, odr_head zclass tag k p opt name o = k kb None o1 /\
    decoded o o1 (zlen tb) /\ dec_ready o1 /\ bp_ptr o1 = rest.
Proof.
  intros [Hc Ht] Hk Htb Hf Hr Hm Hp.
  destruct (default_tag_spec _ _ _ _ _ Hf) as (o0 & E0 & H0).
  destruct (dec_ready_tag _ _ _ _ H0 Hr Hm) as (Hr0 & Hm0 & Hp0).
  destruct (ber_tag_decode o0 p c t kb 0 opt name tb rest) as (o1 & E1 & D1);
    [done|done|by rewrite Hp0|lia|lia|lia|done|].
  pose proof (zlen_nonneg tb) as Hn. pose proof (bp_ptr_zlen _ Hr) as Hl.
  assert (decoded o o1 (zlen tb)) as D by by eapply decoded_tag.
  rewrite Hp, zlen_app in Hl. pose proof (zlen_nonneg rest).
  exists o1. split; [|split; [done|split]].
  - unfold odr_head, bind, get. rewrite (dr_error _ Hr). simpl.
    rewrite E0. simpl. by rewrite E1.
  - eapply decoded_ready; [exact Hr|done|lia].
  - rewrite (decoded_ptr _ _ _ Hr D Hn), Hp.
    apply drop_app_length'. unfold zlen. lia.
Qed.

Lemma odr_missing_opt opt name o : error o = 0 -> opt <> 0 -> odr_missing opt name o = Some (opt, o).
Proof.
  intros He Ho. unfold odr_missing. mrun. rewrite He. mrun.
  rewrite (proj2 (Z.eqb_neq opt 0)) by done. by mrun.
Qed.

Lemma odr_head_absent_encode o opt name :
  opt <> 0 -> enc_ready o 0 -> stack o <> [] ->
  exists o', odr_head zclass tag k None opt name o = Some ((opt, None), o') /\ encoded o o' [].
Proof.
  intros Hopt Hr Hs.
  destruct (default_tag_spec o zclass tag _ _ (surjective_pairing _)) as (o0 & E0 & H0).
  destruct (ber_tag_absent_encode (A := A) o0 (fst (in_force o zclass tag))
    (snd (in_force o zclass tag)) 0 opt name) as (o1 & E1 & D1);
    [done|by eapply enc_ready_tag|by destruct H0 as [-> | ->]|].
  assert (encoded o o1 []) as D by by eapply encoded_tag.
  exists o1. split; [|done]. unfold odr_head. mrun. rewrite (er_error _ _ Hr). mrun.
  rewrite (bind_Some _ _ _ _ _ E0). mrun. rewrite (bind_Some _ _ _ _ _ E1).
  change (0 <? 0) with false. change (0 =? 0) with true. cbv iota.
  assert (error o1 = 0) as He.
  { rewrite (f_equal error (ed_frame _ _ _ D) : error o1 = error o). apply Hr. }
  by rewrite (bind_Some _ _ _ _ _ (odr_missing_opt opt name o1 He Hopt)).
Qed.

Lemma ber_tag_not_here {B} o (p : option B) c t cn opt name :
  opt <> 0 -> dec_ready o -> not_here o c t ->
  exists o', ber_tag p c t cn opt name o = Some ((0, cn, None), o') /\ skipped o o'.
Proof.
  intros Hopt Hr (Hs & [Hno|(Hm & c' & t' & (kb & tb & rest & Hp & [Hc Ht] & Hk & Htb) & Hne)]).
  - destruct (ber_tag_no_more o p c t cn opt name) as (o' & E & F & B' & T & R); [done..|].
    by exists o'.
  - destruct (ber_tag_absent o p c t cn opt name c' t' kb tb rest) as (o' & E & F & B' & T & R);
      [done|done|done|done|lia|lia|lia|done| |by exists o'].
    destruct (Z.eq_dec c c') as [->|]; [right|by left]. congruence.
Qed.

Lemma skipped_tag o o' o'' zc tg :
  o' = o \/ o' = set_t_tag tg (set_t_class zc o) -> skipped o' o'' -> skipped o o''.
Proof. intros [-> | ->]; [done|]. intros []. by split. Qed.

Lemma odr_head_absent_decode o p c t opt name :
  opt <> 0 -> in_force o zclass tag = (c, t) -> dec_ready o -> not_here o c t ->
  exists o', odr_head zclass tag k p opt name o = Some ((opt, None), o') /\ skipped o o'.
Proof.
  intros Hopt Hf Hr Hnh.
  destruct (default_tag_spec _ _ _ _ _ Hf) as (o0 & E0 & H0).
  assert (dec_ready o0 /\ not_here o0 c t) as [Hr0 Hn0].
  { destruct H0 as [-> | ->]; [done|]. split; [by destruct Hr; split|].
    destruct Hnh as (Hs & [Hno|Hy]); (split; [done|]); [left|by right].
    by eapply constructed_more_frame. }
  destruct (ber_tag_not_here o0 p c t 0 opt name Hopt Hr0 Hn0) as (o1 & E1 & S1).
  assert (skipped o o1) as S by by eapply skipped_tag.
  exists o1. split; [|done]. unfold odr_head. mrun. rewrite (dr_error _ Hr). mrun.
  rewrite (bind_Some _ _ _ _ _ E0). mrun. rewrite (bind_Some _ _ _ _ _ E1).
  change (0 <? 0) with false. change (0 =? 0) with true. cbv iota.
  rewrite (bind_Some _ _ _ _ _ (odr_missing_opt opt name o1 (dr_error _ (sk_ready _ _ S)) Hopt)). done.
Qed.
End head.

(** ** Codecs given by their contents octets *)

Lemma decoded_advance o o1 n m :
  decoded o o1 n -> decoded o (set_bp (bp o1 + m) o1) (n + m).
Proof. intros [F C L B]. split; simpl; [done..|lia]. Qed.

Lemma depth_ok_mono o d d' : depth_ok o d -> d' <= d -> depth_ok o d'.
Proof. intros [] ?. split; [done|lia]. Qed.

Lemma tag_bytes_nonempty c t k tb : tag_bytes c t k tb -> 1 <= zlen tb.
Proof.
  unfold tag_bytes. intros H. apply zlen_pos.
  destruct (t <=? 30); [by subst|]. by destruct H as (? & _ & ->).
Qed.

Section simple.
Context {A : Type} (zclass tag : Z) (k : option (list Z) -> Z -> option A -> ODR (Z * option A)).
Context (okv : A -> Prop) (contents : A -> list Z).
Context (Htag : tag_ok zclass tag).
Context (Hcont : forall v, okv v -> bytes_ok (contents v) /\ contents v <> []).
Context (Henc : forall name v o, okv v -> direction o = ODR_ENCODE -> at_end o (zlen (contents v)) ->
  exists o', k name 0 (Some v) o = Some ((1, Some v), o') /\ appended o o' (contents v)).
Context (Hdec : forall name v rest o, okv v -> dec_ready o -> bp_ptr o = contents v ++ rest ->
  k name 0 None o = Some ((1, Some v), set_bp (bp o + zlen (contents v)) o)).

Definition simple_bytes (c t : Z) (v : A) (bs : list Z) : Prop :=
  exists tb, tag_bytes c t 0 tb /\ bs = tb ++ contents v.

Definition simple_codec : OdrCodec (fun p opt name => odr_head zclass tag (k name) p opt name).
Proof.
  refine {| cd_class := zclass; cd_tag := tag; cd_depth := 0;
            cd_ok := okv; cd_bytes := simple_bytes; cd_own_tag := Htag |}.
  - done.
  - intros c t v [Hc Ht] Hv. destruct (tag_bytes_total c t 0) as [tb Htb]; [lia|].
    eexists. by exists tb.
  - intros c t v bs [Hc Ht] Hv (tb & Htb & ->).
    destruct (Hcont v Hv) as [Hb Hne].
    pose proof (zlen_pos _ Hne). pose proof (tag_bytes_nonempty _ _ _ _ Htb).
    split; [apply Forall_app; split; [eapply tag_bytes_bytes; [..|exact Htb]; lia|done]|].
    split; [zl|]. exists tb, 0, (contents v). split; [done|]. split; [lia|done].
  - intros c t v bs opt name o Htc Hv (tb & Htb & ->) Hf Hr _.
    pose proof (zlen_nonneg (contents v)). rewrite zlen_app in Hr.
    destruct (odr_head_encode zclass tag (k name) o v c t tb (zlen (contents v)) opt name)
      as (o1 & -> & D1); [done..|].
    assert (at_end o1 (zlen (contents v))) as Hat
      by (eapply at_end_encoded; [apply Hr|done]).
    assert (direction o1 = ODR_ENCODE) as Hd.
    { rewrite <- (er_dir _ _ Hr). exact (f_equal direction (ed_frame _ _ _ D1)). }
    destruct (Henc name v o1 Hv Hd Hat) as (o2 & -> & A2).
    exists o2. split; [done|]. by eapply encoded_appended.
  - intros c t v bs rest p opt name o Htc Hv (tb & Htb & ->) Hf Hr Hm Hp _.
    rewrite <- app_assoc in Hp.
    destruct (odr_head_decode zclass tag (k name) o p c t 0 tb (contents v ++ rest) opt name)
      as (o1 & -> & D1 & R1 & P1); [done|lia|done..|].
    rewrite (Hdec name v rest o1 Hv R1 P1). eexists. split; [done|].
    rewrite zlen_app. by apply decoded_advance.
  - intros opt name o Hopt Hr Hs. by apply odr_head_absent_encode.
  - intros c t p opt name o Hopt _ Hf Hr Hn. by eapply odr_head_absent_decode.
Defined.
End simple.
