(* ===== verification/BerOid.v ===== *)
(** * Object identifiers (ber_oid.c: [ber_oidc])

    An OID is an array of [short] arcs terminated by -1.  The first two arcs
    share a subidentifier; every subidentifier is written in base-128 groups.
    The theorem: every OID that fits the array and whose arcs fit a [short]
    is read back from its encoding. *)

From stdpp Require Import base list numbers option strings.
From Stdlib Require Import ZArith Lia.
From S2P Require Import Prelude OdrMem BerTag BerLen OdrTag BerPrim OdrCodec.

(** [#define OID_SIZE 20] (oid_util.h) *)
Definition OID_SIZE : Z := 20.

(** ** Decoding *)

(** One subidentifier: the inner [do ... while] loop, with the length that is
    left.  [None] is the error return. *)
Fixpoint oid_subid (fuel : nat) (id len : Z) : ODR (option (Z * Z)) :=
  match fuel with
  | O => fault
  | S fuel =>
      if len =? 0 then odr_seterror OPROTO 21 ;; ret None
      else
        let* b := at_bp 0 in
        let id := Z.lor (s32 (Z.shiftl id 7)) (Z.land b 127) in
        modify (fun o => set_bp (bp o + 1) o) ;;
        if Z.land b 128 =? 0 then ret (Some (id, len - 1))
        else oid_subid fuel id (len - 1)
  end.

(** Storing a subidentifier in the array of [short]; [p] is [p[0 .. pos-1]]. *)
Definition oid_store (p : list Z) (id : Z) : list Z :=
  match p with
  | _ :: _ => p ++ [s16 id]
  | [] =>
      let p0 := s16 (Z.quot id 40) in
      let p0 := if 2 <? p0 then 2 else p0 in
      [p0; s16 (id - p0 * 40)]
  end.

(** The outer [while (len)] loop and what follows it. *)
Fixpoint oid_loop (fuel : nat) (p : list Z) (len max_oid_size : Z) : ODR (Z * list Z) :=
  match fuel with
  | O => fault
  | S fuel =>
      if len =? 0 then
        match p with
        | p0 :: p1 :: _ =>
            if (p0 <? 0) || (p1 <? 0) then odr_seterror ODATA 23 ;; ret (0, p)
            else ret (1, p ++ [-1])
        | _ => odr_seterror ODATA 23 ;; ret (0, p)
        end
      else
        let* r := oid_subid (S (Z.to_nat len)) 0 len in
        match r with
        | None => ret (0, p)
        | Some (id, len) =>
            if id <? 0 then odr_seterror ODATA 23 ;; ret (0, p)
            else
              let p := oid_store p id in
              if max_oid_size <=? zlen p then odr_seterror OPROTO 55 ;; ret (0, p)
              else oid_loop fuel p len max_oid_size
        end
  end.

(** ** Encoding *)

(** [for (pos = 1; p[pos] != -1; pos++)], on the subidentifiers from [pos] on;
    1, or 0 when a write fails. *)
Fixpoint oid_put_ids (ids : list Z) : ODR Z :=
  match ids with
  | [] => fault
  | id :: ids =>
      if id =? -1 then ret 1
      else
        let* octs := lift (base128_octs 8 id []) in
        let* r := base128_put octs in
        if r <? 0 then ret 0 else oid_put_ids ids
  end.

(** The decoded array is listed up to its terminator. *)
Definition ber_oidc (p : list Z) (max_oid_size : Z) : ODR (Z * list Z) :=
  let* o := get in
  if direction o =? ODR_DECODE then
    let* (res, len) := lift (ber_declen (bp_ptr o) 0 (odr_max o)) in
    if res <? 1 then odr_seterror OPROTO 18 ;; ret (0, p)
    else if len <? 0 then odr_seterror OPROTO 19 ;; ret (0, p)
    else
      modify (set_bp (bp o + res)) ;;
      let* o := get in
      if odr_max o <? len then odr_seterror OPROTO 20 ;; ret (0, p)
      else oid_loop (S (Z.to_nat len)) [] len max_oid_size
  else if direction o =? ODR_ENCODE then
    let* lenp := gets odr_tell in
    let* r := odr_putc 0 in
    if r <? 0 then ret (0, p)
    else
      let* p0 := lift (rd p 0) in
      let* bad := (if p0 <? 0 then ret true
                   else let* p1 := lift (rd p 1) in ret (p1 <? 0)) in
      if bad then odr_seterror ODATA 23 ;; ret (0, p)
      else
        let* p1 := lift (rd p 1) in
        let* r := oid_put_ids (p0 * 40 + p1 :: drop 2 p) in
        if r =? 0 then ret (0, p)
        else
          let* end_ := gets odr_tell in
          odr_seek ODR_S_SET lenp ;;
          let* r := ber_enclen (end_ - lenp - 1) 1 1 in
          if negb (r =? 1) then odr_seterror OOTHER 52 ;; ret (0, p)
          else odr_seek ODR_S_END 0 ;; ret (1, p)
  else odr_seterror OOTHER 22 ;; ret (0, p).

(** ** OIDs that can be sent *)

(** Arcs are non-negative [short]s, the first two are what X.660 allows, and
    the array has room for a terminator. *)
Record oid_arcs_ok (arcs : list Z) : Prop := {
  oa_arcs : Forall (fun a => 0 <= a < 32768) arcs;
  oa_len : 2 <= zlen arcs <= OID_SIZE - 1;
  oa_first : exists a0 a1 rest, arcs = a0 :: a1 :: rest /\ a0 <= 2 /\ (a0 < 2 -> a1 < 40);
}.

Definition oid_ok (p : list Z) : Prop := exists arcs, p = arcs ++ [-1] /\ oid_arcs_ok arcs.

(** The subidentifiers of an OID. *)
Definition oid_ids (arcs : list Z) : list Z :=
  match arcs with a0 :: a1 :: rest => a0 * 40 + a1 :: rest | _ => [] end.

Definition subid_bytes (id : Z) : list Z := mark128 (default [] (base128_octs 8 id [])).

Definition oid_body (p : list Z) : list Z :=
  flat_map subid_bytes (oid_ids (take (length p - 1) p)).

Definition oid_contents (p : list Z) : list Z := zlen (oid_body p) :: oid_body p.

Lemma subid_bytes_spec id :
  0 <= id < 2 ^ 31 ->
  exists ds, base128_octs 8 id [] = Some ds /\ subid_bytes id = mark128 ds /\
    ds <> [] /\ Forall digit_ok ds /\ val128 0 ds = id /\ (length ds <= 8)%nat.
Proof.
  intros Hid. destruct (base128_octs_total 8 id []) as [ds E];
    [change (128 ^ Z.of_nat 8) with (2 ^ 56); lia|lia|].
  destruct (base128_octs_val 8 id [] ds ltac:(lia) E) as (ds' & E' & ? & ? & ? & ?).
  rewrite app_nil_r in E'. subst ds'. exists ds. unfold subid_bytes. rewrite E. done.
Qed.

(** A subidentifier below 2^21 takes at most three groups. *)
Lemma subid_bytes_short id :
  0 <= id < 2 ^ 21 -> 1 <= zlen (subid_bytes id) <= 3.
Proof.
  intros Hid. unfold subid_bytes.
  destruct (base128_octs_total 3 id []) as [ds E];
    [change (128 ^ Z.of_nat 3) with (2 ^ 21); lia|lia|].
  change (base128_octs 8 id []) with (base128_octs (3 + 5) id []).
  rewrite (base128_octs_mono 3 5 _ _ _ E). simpl.
  destruct (base128_octs_val 3 id [] ds ltac:(lia) E) as (ds' & E' & Hne & _ & _ & Hl).
  rewrite app_nil_r in E'. subst ds'. unfold zlen. rewrite mark128_length.
  destruct ds; [done|]. simpl in *. lia.
Qed.

Lemma oid_ids_ok arcs :
  oid_arcs_ok arcs ->
  Forall (fun id => 0 <= id < 2 ^ 17) (oid_ids arcs) /\ oid_ids arcs <> [] /\
  zlen (oid_ids arcs) = zlen arcs - 1.
Proof.
  intros [Ha Hl (a0 & a1 & rest & -> & H2 & H40)]. simpl.
  apply Forall_cons_1 in Ha as [Ha0 Ha]. apply Forall_cons_1 in Ha as [Ha1 Ha].
  split; [|split; [done|rewrite !zlen_cons; lia]].
  constructor; [lia|]. eapply Forall_impl; [exact Ha|]. simpl. intros. lia.
Qed.

(** ** Encoding appends the contents *)

Lemma oid_put_ids_emits ids :
  Forall (fun id => 0 <= id < 2 ^ 17) ids ->
  emits (oid_put_ids (ids ++ [-1])) 1 (flat_map subid_bytes ids).
Proof.
  induction 1 as [|id ids Hid H IH]; [apply emits_ret|].
  simpl. rewrite (proj2 (Z.eqb_neq id (-1))) by lia.
  destruct (subid_bytes_spec id) as (ds & E & -> & _ & Hd & _); [lia|].
  intros o Ho. unfold bind at 1, lift. rewrite E.
  revert o Ho. change (emits (let* r := base128_put ds in
    if r <? 0 then ret 0 else oid_put_ids (ids ++ [-1])) 1 (mark128 ds ++ flat_map subid_bytes ids)).
  eapply emits_bind; [by apply base128_put_emits|exact IH].
Qed.

#[global] Arguments oid_put_ids : simpl never.

Lemma appended_wrote o o' bs :
  buf_ok o -> pos o = top o -> appended o o' bs -> wrote o o' bs.
Proof.
  intros Hok Hpt [F P T S O K]. pose proof (zlen_nonneg bs).
  split; [done..|lia|lia| |done]. rewrite O, Hpt.
  pose proof (out_zlen o Hok) as Hz. unfold zlen in Hz.
  rewrite take_ge, drop_ge, app_nil_r by lia. done.
Qed.

Lemma flat_map_short ids :
  Forall (fun id => 0 <= id < 2 ^ 17) ids ->
  zlen ids <= zlen (flat_map subid_bytes ids) <= 3 * zlen ids.
Proof.
  induction 1 as [|id ids Hid H IH]; [done|]. simpl. rewrite zlen_app, zlen_cons.
  pose proof (subid_bytes_short id). lia.
Qed.

Lemma oid_split p :
  oid_ok p ->
  exists a0 a1 rest, p = (a0 :: a1 :: rest) ++ [-1] /\ oid_arcs_ok (a0 :: a1 :: rest) /\
    oid_body p = flat_map subid_bytes (a0 * 40 + a1 :: rest) /\
    1 <= zlen (oid_body p) <= 54.
Proof.
  intros (arcs & -> & Hok). pose proof Hok as [_ Hl (a0 & a1 & rest & -> & _)].
  exists a0, a1, rest. split; [done|]. split; [done|].
  assert (oid_body ((a0 :: a1 :: rest) ++ [-1]) = flat_map subid_bytes (a0 * 40 + a1 :: rest)) as E.
  { unfold oid_body. rewrite length_app. simpl length.
    replace (S (S (length rest)) + 1 - 1)%nat with (length (a0 :: a1 :: rest)) by (simpl; lia).
    by rewrite take_app_length. }
  split; [done|]. rewrite E.
  destruct (oid_ids_ok _ Hok) as (Hids & _ & Hn). simpl in Hids, Hn.
  pose proof (flat_map_short _ Hids). unfold OID_SIZE in Hl.
  pose proof (zlen_pos (a0 * 40 + a1 :: rest) ltac:(done)). lia.
Qed.

Lemma ber_oidc_encode p o :
  oid_ok p -> direction o = ODR_ENCODE -> at_end o (zlen (oid_contents p)) ->
  exists o', ber_oidc p OID_SIZE o = Some ((1, p), o') /\ appended o o' (oid_contents p).
Proof.
  intros Hp Hd (Hok & Hpt & Hroom).
  destruct (oid_split p Hp) as (a0 & a1 & rest & E & Harcs & Hbody & Hlen).
  pose proof (oa_arcs _ Harcs) as Ha.
  apply Forall_cons_1 in Ha as [Ha0 Ha]. apply Forall_cons_1 in Ha as [Ha1 Ha].
  destruct (oid_ids_ok _ Harcs) as (Hids & _ & _). simpl in Hids.
  unfold oid_contents in *. rewrite zlen_cons in Hroom.
  destruct (emits_putc 0 o) as (oa & Ea & Aa).
  { split_and!; [done..|]. eapply room_mono; [done|]. zl. }
  destruct (oid_put_ids_emits _ Hids oa) as (ob & Eb & Ab).
  { rewrite <- Hbody. eapply at_end_appended; [|exact Aa]. split_and!; [done..|].
    change (zlen [u8 0]) with 1. done. }
  rewrite <- Hbody in Ab.
  assert (wrote o ob (0 :: oid_body p)) as W.
  { apply appended_wrote; [done..|]. by apply (appended_trans _ oa _ [0]). }
  pose proof (wrote_pos _ _ _ W) as Hpb. rewrite zlen_cons in Hpb.
  pose proof (wrote_ok _ _ _ W) as Kb. pose proof (wrote_size _ _ _ W) as Sb.
  pose proof (wrote_top _ _ _ W) as Tb.
  destruct (ber_enclen_short (zlen (oid_body p)) 1 1 ltac:(lia) ltac:(by left)
              (set_pos (pos o) ob)) as (oc & Ec & Wc).
  { destruct Hok, Kb. split; simpl; done || lia. }
  { simpl. lia. }
  { destruct Hroom as [[Hg Hr]|Hr]; [left|right; simpl; lia].
    split; [by rewrite <- (non_buf_can_grow _ _ (wrote_frame _ _ _ W)) in Hg|simpl; lia]. }
  destruct (wrote_patch _ _ _ _ _ _ Hok ltac:(lia) W Wc) as (Wf & Tc & Sc).
  exists (set_pos (top oc) oc). split.
  - unfold ber_oidc, bind, get, gets, lift, odr_tell. rewrite Hd. simpl.
    rewrite Ea. simpl. rewrite E. simpl.
    rewrite (proj2 (Z.ltb_ge a0 0)), (proj2 (Z.ltb_ge a1 0)) by lia. simpl.
    rewrite drop_0. change (a0 * 40 + a1 :: rest ++ [-1]) with ((a0 * 40 + a1 :: rest) ++ [-1]).
    rewrite Eb. simpl. rewrite odr_seek_set by (destruct Hok; lia).
    replace (pos ob - pos o - 1) with (zlen (oid_body p)) by lia.
    rewrite Ec. simpl. rewrite odr_seek_end by apply Wc. done.
  - replace (pos ob) with (top oc) in Wf by lia.
    by apply wrote_appended.
Qed.

(** ** Decoding reads them back *)

Lemma oid_subid_spec ds : forall fuel o acc len rest,
  ds <> [] -> Forall digit_ok ds -> 0 <= acc -> val128 acc ds < 2 ^ 31 ->
  zlen ds <= len -> (length ds <= fuel)%nat -> 0 <= bp o ->
  bp_ptr o = mark128 ds ++ rest ->
  oid_subid fuel acc len o =
    Some (Some (val128 acc ds, len - zlen ds), set_bp (bp o + zlen ds) o).
Proof.
  induction ds as [|d ds IH]; intros fuel o acc len rest Hne Hds Hacc Hv Hlen Hfuel Hbp Hp; [done|].
  apply Forall_cons_1 in Hds as [Hd Hds]. rewrite zlen_cons in *.
  rewrite val128_cons in *. pose proof (zlen_nonneg ds).
  assert (0 <= acc * 128 + d) as Hacc' by (unfold digit_ok in Hd; lia).
  pose proof (val128_ge _ ds Hacc' Hds) as Hge.
  destruct fuel as [|fuel]; [simpl in Hfuel; lia|].
  rewrite mark128_cons, <- app_comm_cons in Hp.
  destruct (at_bp_0 _ _ _ Hbp Hp) as [Ea Ep].
  cbn [oid_subid]. rewrite (proj2 (Z.eqb_neq _ _)) by lia.
  unfold bind, modify. rewrite Ea.
  destruct (group_step acc d (if decide (ds = []) then d else d + 128)) as [-> ->];
    [done|case_decide; auto|done|lia|]. unfold digit_ok in Hd.
  case_decide as E.
  - subst ds. rewrite (proj2 (Z.ltb_lt _ _)) by lia. rewrite zlen_nil, Z.add_0_r. done.
  - rewrite (proj2 (Z.ltb_ge _ _)) by lia.
    rewrite (IH fuel _ _ _ rest) by (simpl in *; done || lia).
    simpl. rewrite Z.sub_add_distr, Z.add_assoc. done.
Qed.

Lemma s16_small z : - 32768 <= z < 32768 -> s16 z = z.
Proof. intros. apply swrap_small; lia. Qed.

(** Reading one subidentifier of the contents. *)
Lemma oid_subid_id id len o rest :
  0 <= id < 2 ^ 31 -> zlen (subid_bytes id) <= len -> 0 <= bp o ->
  bp_ptr o = subid_bytes id ++ rest ->
  oid_subid (S (Z.to_nat len)) 0 len o =
    Some (Some (id, len - zlen (subid_bytes id)), set_bp (bp o + zlen (subid_bytes id)) o).
Proof.
  intros Hid Hlen Hbp Hp. destruct (subid_bytes_spec id Hid) as (ds & _ & E & Hne & Hd & Hv & _).
  rewrite E in *. assert (zlen (mark128 ds) = zlen ds) as El by (unfold zlen; by rewrite mark128_length).
  rewrite El in *. rewrite (oid_subid_spec ds _ o 0 len rest); try done; rewrite ?Hv; try done.
  - lia.
  - unfold zlen in Hlen. lia.
Qed.

(** One round of the outer loop. *)
Lemma oid_loop_step fuel p id len o rest max :
  0 <= id < 2 ^ 31 -> 0 <= bp o -> 0 <= len ->
  bp_ptr o = subid_bytes id ++ rest -> subid_bytes id <> [] ->
  zlen (oid_store p id) < max ->
  oid_loop (S fuel) p (zlen (subid_bytes id) + len) max o =
    oid_loop fuel (oid_store p id) len max (set_bp (bp o + zlen (subid_bytes id)) o).
Proof.
  intros Hid Hbp Hlen Hp Hne Hmax. pose proof (zlen_pos _ Hne).
  cbn [oid_loop]. rewrite (proj2 (Z.eqb_neq _ _)) by lia. unfold bind.
  rewrite (oid_subid_id id _ o rest); [|lia|lia|done|done].
  rewrite (proj2 (Z.ltb_ge id 0)), (proj2 (Z.leb_gt _ _)) by lia.
  by rewrite Z.add_simpl_l.
Qed.

Lemma subid_bytes_nonempty id : 0 <= id < 2 ^ 21 -> subid_bytes id <> [].
Proof. intros H E. pose proof (subid_bytes_short id H). rewrite E in *. zl. Qed.

Lemma oid_loop_spec ids : forall fuel p o max p0 p1 q rest,
  p = p0 :: p1 :: q -> 0 <= p0 -> 0 <= p1 ->
  Forall (fun a => 0 <= a < 32768) ids -> (length ids < fuel)%nat -> 0 <= bp o ->
  zlen p + zlen ids < max ->
  bp_ptr o = flat_map subid_bytes ids ++ rest ->
  oid_loop fuel p (zlen (flat_map subid_bytes ids)) max o =
    Some ((1, p ++ ids ++ [-1]), set_bp (bp o + zlen (flat_map subid_bytes ids)) o).
Proof.
  induction ids as [|id ids IH]; intros fuel p o max p0 p1 q rest -> H0 H1 Hids Hfuel Hbp Hmax Hp.
  - destruct fuel; [simpl in Hfuel; lia|]. simpl.
    rewrite (proj2 (Z.ltb_ge p0 0)), (proj2 (Z.ltb_ge p1 0)) by lia. simpl.
    rewrite zlen_nil, Z.add_0_r. by destruct o.
  - apply Forall_cons_1 in Hids as [Hid Hids].
    destruct fuel as [|fuel]; [simpl in Hfuel; lia|].
    cbn [flat_map] in *. rewrite <- app_assoc in Hp. rewrite zlen_app.
    rewrite (zlen_cons id) in Hmax. pose proof (zlen_nonneg ids).
    assert (oid_store (p0 :: p1 :: q) id = (p0 :: p1 :: q) ++ [id]) as Est
      by (simpl; by rewrite s16_small by lia).
    rewrite (oid_loop_step fuel _ id _ o (flat_map subid_bytes ids ++ rest)); try done;
      [|lia|apply zlen_nonneg|apply subid_bytes_nonempty; lia
       |rewrite Est, zlen_app; change (zlen [id]) with 1; lia].
    rewrite Est.
    rewrite (IH fuel _ _ max p0 p1 (q ++ [id]) rest); try done.
    + simpl. rewrite <- !app_assoc. simpl. do 2 f_equal. by rewrite Z.add_assoc.
    + simpl in Hfuel. lia.
    + simpl. pose proof (zlen_nonneg (subid_bytes id)). lia.
    + rewrite zlen_app. change (zlen [id]) with 1. lia.
    + by eapply bp_ptr_advance.
Qed.

#[global] Arguments oid_loop : simpl never.
#[global] Arguments oid_subid : simpl never.

(** Splitting the first subidentifier gives back the first two arcs. *)
Lemma oid_store_first a0 a1 :
  0 <= a0 <= 2 -> 0 <= a1 < 32768 -> (a0 < 2 -> a1 < 40) ->
  oid_store [] (a0 * 40 + a1) = [a0; a1].
Proof.
  intros Ha0 Ha1 H40. unfold oid_store. rewrite Z.quot_div_nonneg by lia.
  rewrite Z.add_comm, Z.div_add by lia.
  pose proof (Z.div_le_upper_bound a1 40 820 ltac:(lia) ltac:(lia)).
  pose proof (Z.div_pos a1 40 ltac:(lia) ltac:(lia)).
  rewrite (s16_small (a1 / 40 + a0)) by lia.
  assert ((if 2 <? a1 / 40 + a0 then 2 else a1 / 40 + a0) = a0) as ->.
  { destruct (Z.lt_ge_cases a0 2) as [Hlt|].
    - rewrite (Z.div_small a1 40) by lia. ztest.
    - ztest. }
  rewrite Z.add_simpl_r, s16_small by lia. done.
Qed.

Lemma ber_oidc_decode p rest x o :
  oid_ok p -> dec_ready o -> bp_ptr o = oid_contents p ++ rest ->
  ber_oidc x OID_SIZE o = Some ((1, p), set_bp (bp o + zlen (oid_contents p)) o).
Proof.
  intros Hok Hr Hp. pose proof (bp_ptr_zlen _ Hr) as Hmax.
  destruct (oid_split p Hok) as (a0 & a1 & ids & -> & Harcs & Hbody & Hlen).
  pose proof Harcs as [Ha Hn (b0 & b1 & r & [= <- <- <-] & H2 & H40)].
  apply Forall_cons_1 in Ha as [Ha0 Ha]. apply Forall_cons_1 in Ha as [Ha1 Ha].
  rewrite Hp in Hmax. unfold oid_contents in *. rewrite Hbody in *. clear Hbody.
  set (body := flat_map subid_bytes (a0 * 40 + a1 :: ids)) in *.
  rewrite <- app_comm_cons in *. rewrite zlen_cons, zlen_app in Hmax.
  pose proof (zlen_nonneg rest). pose proof Hr as [Hd _ Hb Hs _ _].
  unfold ber_oidc, bind, get, lift, modify. rewrite Hd. simpl.
  rewrite Hp, ber_declen_short by lia. simpl.
  rewrite (proj2 (Z.ltb_ge _ 0)) by lia. unfold odr_max in *. simpl.
  rewrite (proj2 (Z.ltb_ge _ (zlen body))) by lia.
  assert (bp_ptr (set_bp (bp o + 1) o) = body ++ rest) as Hp1.
  { apply (bp_ptr_advance o [zlen body]); [lia|done|done]. }
  subst body. cbn [flat_map] in *. rewrite <- app_assoc in Hp1.
  rewrite zlen_app in *. pose proof (zlen_nonneg (flat_map subid_bytes ids)).
  pose proof (subid_bytes_short (a0 * 40 + a1) ltac:(lia)) as Hs1.
  assert (oid_store [] (a0 * 40 + a1) = [a0; a1]) as Est by (apply oid_store_first; lia).
  unfold OID_SIZE in *. rewrite !zlen_cons in Hn.
  rewrite (oid_loop_step _ [] (a0 * 40 + a1) _ _ (flat_map subid_bytes ids ++ rest))
    by first [done | lia | simpl; lia | apply subid_bytes_nonempty; lia | by rewrite Est].
  rewrite Est.
  rewrite (oid_loop_spec ids _ [a0; a1] _ 20 a0 a1 [] rest); try done; try lia.
  - simpl. do 2 f_equal. rewrite !zlen_cons, zlen_app, !Z.add_assoc. done.
  - assert (Forall (fun id => 0 <= id < 2 ^ 17) ids) as Hids
      by (eapply Forall_impl; [exact Ha|simpl; intros; lia]).
    pose proof (flat_map_short _ Hids) as Hfm. unfold zlen in Hfm, Hs1 |- *. lia.
  - simpl. lia.
  - change (zlen [a0; a1]) with 2. lia.
  - eapply (bp_ptr_advance (set_bp (bp o + 1) o)); [simpl; lia|exact Hp1|done].
Qed.
#[global] Arguments ber_oidc : simpl never.
