(* ===== verification/OdrPrim.v ===== *)
(** * Codecs of simple types
      (odr_int.c, odr_enum.c, odr_bool.c, odr_null.c, odr_oid.c)

    Each codec takes the tag in force, writes or expects it, and hands the
    contents to the [ber_*] function of its type.  Each is an [OdrCodec]. *)

From stdpp Require Import base list numbers option strings.
From Stdlib Require Import ZArith Lia.
From S2P Require Import Prelude OdrMem BerTag BerLen OdrTag BerPrim OdrCodec BerOid.

(** ** The codecs *)

(** Print [name] and a line of text, in the printing direction. *)
Definition odr_print_line {A} (name : option (list Z)) (text : list Z) (p : option A)
    : ODR (Z * option A) :=
  odr_prname name ;; odr_printf text ;; ret (1, p).

(** The contents of an INTEGER or ENUMERATED: a new object when decoding, then
    [ber_integer]. *)
Definition odr_int_contents (err : Z) (cons : Z) (p : option Z) : ODR (Z * option Z) :=
  if negb (cons =? 0) then odr_seterror OPROTO err ;; ret (0, p)
  else
    let* o := get in
    let p := if direction o =? ODR_DECODE then Some (fresh_int o) else p in
    let* v := lift p in
    let* (r, v) := ber_integer v in
    ret (r, Some v).

Definition odr_integer : Odr_fun Z := fun p opt name =>
  odr_head ODR_UNIVERSAL ODR_INTEGER (fun cons p =>
    let* dir := gets direction in
    if dir =? ODR_PRINT then
      let* v := lift p in odr_print_line name (fmt_d v ++ nl) p
    else odr_int_contents 1 cons p) p opt name.

(** [odr_enum] prints through [%d]: the low 32 bits. *)
Definition odr_enum : Odr_fun Z := fun p opt name =>
  odr_head ODR_UNIVERSAL ODR_ENUM (fun cons p =>
    let* dir := gets direction in
    if dir =? ODR_PRINT then
      let* v := lift p in odr_print_line name (fmt_d (s32 v) ++ nl) p
    else odr_int_contents 54 cons p) p opt name.

Definition odr_bool : Odr_fun Z := fun p opt name =>
  odr_head ODR_UNIVERSAL ODR_BOOLEAN (fun cons p =>
    let* o := get in
    if direction o =? ODR_PRINT then
      let* v := lift p in
      odr_print_line name (if v =? 0 then str "FALSE" ++ nl else str "TRUE" ++ nl) p
    else if negb (cons =? 0) then ret (0, p)
    else
      let p := if direction o =? ODR_DECODE then Some (s32 (fresh_int o)) else p in
      let* v := lift p in
      let* (r, v) := ber_boolean v in
      ret (r, Some v)) p opt name.

(** The presence of a NULL is its only value, [ODR_NULLVAL]. *)
Definition odr_null : Odr_fun unit := fun p opt name =>
  odr_head ODR_UNIVERSAL ODR_NULL (fun cons p =>
    let* o := get in
    if direction o =? ODR_PRINT then odr_print_line name (str "NULL" ++ nl) p
    else
      let p := if direction o =? ODR_DECODE then Some tt else p in
      let* r := ber_null in
      ret (r, p)) p opt name.

(** The loop that prints the arcs up to the terminator. *)
Fixpoint oid_print (p : list Z) : ODR unit :=
  match p with
  | [] => fault
  | a :: p => if -1 <? a then odr_printf (str " " ++ fmt_d a) ;; oid_print p else ret tt
  end.

Definition odr_oid : Odr_fun (list Z) := fun p opt name =>
  odr_head ODR_UNIVERSAL ODR_OID (fun cons p =>
    if negb (cons =? 0) then odr_seterror OPROTO 46 ;; ret (0, p)
    else
      let* o := get in
      if direction o =? ODR_PRINT then
        let* v := lift p in
        odr_prname name ;; odr_printf (str "OID:") ;; oid_print v ;;
        odr_printf nl ;; ret (1, p)
      else
        let p := if direction o =? ODR_DECODE then Some [] else p in
        let* v := lift p in
        let* (r, v) := ber_oidc v OID_SIZE in
        ret (r, Some v)) p opt name.

(** ** Instances *)

Definition int_contents (v : Z) : list Z := zlen (int_bytes v) :: int_bytes v.

Lemma int_contents_ok v : int64_ok v -> bytes_ok (int_contents v) /\ int_contents v <> [].
Proof.
  intros Hv. destruct (int_bytes_spec v Hv) as (Hb & _ & Hl & _).
  split; [|done]. constructor; [unfold byte_ok; lia|done].
Qed.

Lemma odr_int_contents_encode v err o :
  int64_ok v -> direction o = ODR_ENCODE -> at_end o (zlen (int_contents v)) ->
  exists o', odr_int_contents err 0 (Some v) o = Some ((1, Some v), o') /\
    appended o o' (int_contents v).
Proof.
  intros Hv Hd Hat. destruct (ber_encinteger_emits v Hv o Hat) as (o' & E & A).
  exists o'. split; [|done].
  unfold odr_int_contents. change (negb (0 =? 0)) with false. mrun.
  rewrite Hd. change (ODR_ENCODE =? ODR_DECODE) with false. mrun.
  by rewrite (bind_Some _ _ _ _ _ (ber_integer_encode _ _ _ _ Hd E ltac:(done))).
Qed.

Lemma odr_int_contents_decode v err rest o :
  int64_ok v -> dec_ready o -> bp_ptr o = int_contents v ++ rest ->
  odr_int_contents err 0 None o =
    Some ((1, Some v), set_bp (bp o + zlen (int_contents v)) o).
Proof.
  intros Hv Hr Hp. unfold odr_int_contents. change (negb (0 =? 0)) with false. mrun.
  rewrite (dr_dir _ Hr). change (ODR_DECODE =? ODR_DECODE) with true. mrun.
  rewrite (bind_Some _ _ _ _ _ (ber_integer_decode v _ rest o Hv Hr Hp)).
  unfold int_contents. by rewrite zlen_cons.
Qed.

#[export] Instance odr_integer_codec : OdrCodec odr_integer.
Proof.
  apply (simple_codec ODR_UNIVERSAL ODR_INTEGER (fun name cons p =>
    let* dir := gets direction in
    if dir =? ODR_PRINT then
      let* v := lift p in odr_print_line name (fmt_d v ++ nl) p
    else odr_int_contents 1 cons p) int64_ok int_contents).
  - done.
  - apply int_contents_ok.
  - intros name v o Hv Hd Hat. unfold bind at 1, gets. rewrite Hd. simpl.
    by apply odr_int_contents_encode.
  - intros name v rest o Hv Hr Hp. unfold bind at 1, gets. rewrite (dr_dir _ Hr). simpl.
    by apply (odr_int_contents_decode v 1 rest).
Defined.

#[export] Instance odr_enum_codec : OdrCodec odr_enum.
Proof.
  apply (simple_codec ODR_UNIVERSAL ODR_ENUM (fun name cons p =>
    let* dir := gets direction in
    if dir =? ODR_PRINT then
      let* v := lift p in odr_print_line name (fmt_d (s32 v) ++ nl) p
    else odr_int_contents 54 cons p) int64_ok int_contents).
  - done.
  - apply int_contents_ok.
  - intros name v o Hv Hd Hat. unfold bind at 1, gets. rewrite Hd. simpl.
    by apply odr_int_contents_encode.
  - intros name v rest o Hv Hr Hp. unfold bind at 1, gets. rewrite (dr_dir _ Hr). simpl.
    by apply (odr_int_contents_decode v 54 rest).
Defined.

(** A boolean is sent as one octet: values that fit a [char] survive. *)
#[export] Instance odr_bool_codec : OdrCodec odr_bool.
Proof.
  apply (simple_codec ODR_UNIVERSAL ODR_BOOLEAN (fun name cons p =>
    let* o := get in
    if direction o =? ODR_PRINT then
      let* v := lift p in
      odr_print_line name (if v =? 0 then str "FALSE" ++ nl else str "TRUE" ++ nl) p
    else if negb (cons =? 0) then ret (0, p)
    else
      let p := if direction o =? ODR_DECODE then Some (s32 (fresh_int o)) else p in
      let* v := lift p in
      let* (r, v) := ber_boolean v in
      ret (r, Some v)) (fun v => -128 <= v < 128) (fun v => [1; u8 v])).
  - done.
  - intros v Hv. split; [|done].
    constructor; [unfold byte_ok; lia|apply Forall_singleton, u8_ok].
  - intros name v o Hv Hd Hat.
    destruct (boolean_emits o v Hd Hat) as (o' & E & A). exists o'. split; [|done].
    unfold bind, get, lift. rewrite Hd. simpl. by rewrite E.
  - intros name v rest o Hv Hr Hp. change (bp_ptr o = 1 :: u8 v :: rest) in Hp.
    pose proof (bp_ptr_zlen _ Hr) as Hmax. rewrite Hp in Hmax. zl. pose proof (zlen_nonneg rest).
    destruct (at_bp_0 o 1 (u8 v :: rest)) as [_ Hp1]; [apply Hr|done|].
    destruct (at_bp_0 (set_bp (bp o + 1) o) (u8 v) rest) as [E2 _];
      [destruct Hr; simpl; lia|done|].
    assert (ber_boolean (s32 (fresh_int o)) o = Some ((1, v), set_bp (bp o + 2) o)) as E.
    { unfold ber_boolean. mrun. rewrite (dr_dir _ Hr), Hp. mrun.
      rewrite ber_declen_short by lia. mrun. change (1 <? 0) with false. mrun.
      change (odr_max (set_bp (bp o + 1) o)) with (size o - (bp o + 1)).
      unfold odr_max in Hmax.
      rewrite (proj2 (Z.ltb_ge (size o - (bp o + 1)) 1)) by lia.
      change (negb (1 =? 1) || false) with false. mrun.
      rewrite (bind_Some _ _ _ _ _ E2). mrun.
      unfold u8, s8. rewrite swrap_wrap, swrap_small by lia.
      unfold ret. simpl. by rewrite <- Z.add_assoc. }
    mrun. rewrite (dr_dir _ Hr). mrun. by rewrite (bind_Some _ _ _ _ _ E).
Defined.

#[export] Instance odr_null_codec : OdrCodec odr_null.
Proof.
  apply (simple_codec ODR_UNIVERSAL ODR_NULL (fun name cons p =>
    let* o := get in
    if direction o =? ODR_PRINT then odr_print_line name (str "NULL" ++ nl) p
    else
      let p := if direction o =? ODR_DECODE then Some tt else p in
      let* r := ber_null in
      ret (r, p)) (fun _ => True) (fun _ => [0])).
  - done.
  - intros v _. split; [|done]. apply Forall_singleton. unfold byte_ok. lia.
  - intros name [] o _ Hd Hat. destruct (emits_putc 0 o Hat) as (o' & E & A).
    exists o'. split; [|done]. mrun. rewrite Hd. mrun. unfold ber_null.
    rewrite (bind_Some _ _ o 1 o'); [done|].
    mrun. rewrite Hd. mrun. by rewrite (bind_Some _ _ _ _ _ E).
  - intros name [] rest o _ Hr Hp. change (bp_ptr o = 0 :: rest) in Hp.
    pose proof (bp_ptr_zlen _ Hr) as Hmax. rewrite Hp in Hmax. zl. pose proof (zlen_nonneg rest).
    destruct (at_bp_0 o 0 rest) as [E _]; [apply Hr|done|].
    mrun. rewrite (dr_dir _ Hr). mrun. unfold ber_null.
    rewrite (bind_Some _ _ o 1 (set_bp (bp o + 1) o)); [done|].
    mrun. rewrite (dr_dir _ Hr). mrun.
    rewrite (proj2 (Z.ltb_ge _ _)) by lia. by rewrite (bind_Some _ _ _ _ _ E).
Defined.

#[export] Instance odr_oid_codec : OdrCodec odr_oid.
Proof.
  apply (simple_codec ODR_UNIVERSAL ODR_OID (fun name cons p =>
    if negb (cons =? 0) then odr_seterror OPROTO 46 ;; ret (0, p)
    else
      let* o := get in
      if direction o =? ODR_PRINT then
        let* v := lift p in
        odr_prname name ;; odr_printf (str "OID:") ;; oid_print v ;;
        odr_printf nl ;; ret (1, p)
      else
        let p := if direction o =? ODR_DECODE then Some [] else p in
        let* v := lift p in
        let* (r, v) := ber_oidc v OID_SIZE in
        ret (r, Some v)) oid_ok oid_contents).
  - done.
  - intros v Hv. split; [|done].
    destruct (oid_split v Hv) as (a0 & a1 & rest & _ & Ha & E & Hl).
    unfold oid_contents. constructor; [unfold byte_ok; lia|]. rewrite E.
    destruct (oid_ids_ok _ Ha) as (Hids & _ & _). simpl in Hids.
    clear -Hids. induction Hids as [|id ids Hid H IH]; [constructor|].
    simpl. apply Forall_app. split; [|done].
    destruct (subid_bytes_spec id) as (ds & _ & -> & _ & Hd & _); [lia|].
    by apply mark128_bytes.
  - intros name v o Hv Hd Hat.
    destruct (ber_oidc_encode v o Hv Hd Hat) as (o' & E & A). exists o'. split; [|done].
    mrun. rewrite Hd. mrun. by rewrite (bind_Some _ _ _ _ _ E).
  - intros name v rest o Hv Hr Hp. mrun.
    rewrite (dr_dir _ Hr). mrun.
    by rewrite (bind_Some _ _ _ _ _ (ber_oidc_decode v rest [] o Hv Hr Hp)).
Defined.
