(* ===== verification/OdrOct.v ===== *)
(** * Octet strings and character strings (ber_oct.c, odr_oct.c, odr_use.c)

    A primitive string is copied out of the buffer; a constructed one is read
    chunk by chunk by a recursive call.  The theorems: primitive strings
    shorter than 2^24 bytes survive the round trip; longer ones are encoded
    with a length the decoder refuses; the chunks of a constructed string are
    read but not kept. *)

From stdpp Require Import base list numbers option strings.
From Stdlib Require Import ZArith Lia.
From S2P Require Import Prelude Text OdrMem BerTag BerLen OdrTag BerPrim OdrCodec.

(** [struct odr_oct]: the memory [buf] points to, from the pointer on. *)
Record Odr_oct := mkOct { oct_buf : option (list Z); oct_len : Z }.

(** [odr_create_Odr_oct]: [odr_strdupn] adds a terminating zero. *)
Definition odr_create_Odr_oct (bs : list Z) : Odr_oct := mkOct (Some (bs ++ [0])) (zlen bs).

(** ** Chunks (odr_util.c) *)

Definition odp_more_chunks (base len : Z) : ODR Z :=
  if len =? 0 then ret 0
  else if len <? 0 then
    let* e := at_eoc in
    if (e : bool) then modify (fun o => set_bp (bp o + 2) o) ;; ret 0 else ret 1
  else gets (fun o => b2z (bp o - base <? len)).

(** [while (odp_more_chunks(o, base, len)) if (!step) return 0; return 1;] *)
Fixpoint chunks (step : ODR Z) (fuel : nat) (base len : Z) : ODR Z :=
  match fuel with
  | O => fault
  | S fuel =>
      let* more := odp_more_chunks base len in
      if more =? 0 then ret 1
      else
        let* r := step in
        if r =? 0 then ret 0 else chunks step fuel base len
  end.

(** ** ber_oct.c *)

(** [step] is the call [odr_octetstring(o, &p, 0, 0)]: it stores each chunk in
    a new object and moves the local pointer [p] to it, so that the object of
    the caller is left as it was. *)
Definition ber_octetstring_body (step : ODR Z) (fuel : nat) (p : Odr_oct) (cons : Z)
    : ODR (Z * Odr_oct) :=
  let* o := get in
  if direction o =? ODR_DECODE then
    let* (res, len) := lift (ber_declen (bp_ptr o) 0 (odr_max o)) in
    if res <? 0 then odr_seterror OPROTO 14 ;; ret (0, p)
    else
      modify (set_bp (bp o + res)) ;;
      if negb (cons =? 0) then
        let* base := gets bp in
        let* r := chunks step fuel base len in
        ret (r, p)
      else if len <? 0 then odr_seterror OOTHER 15 ;; ret (0, p)
      else
        let* o := get in
        if odr_max o <? len then odr_seterror OOTHER 16 ;; ret (0, p)
        else
          let* bs := lift (sub (bp_ptr o) 0 len) in
          modify (set_bp (bp o + len)) ;;
          ret (1, mkOct (Some (bs ++ [0])) len)
  else if direction o =? ODR_ENCODE then
    let* res := ber_enclen (oct_len p) 5 0 in
    if res <? 0 then ret (0, p)
    else if oct_len p =? 0 then ret (1, p)
    else
      let* b := lift (oct_buf p) in
      let* r := odr_write b (oct_len p) in
      if r <? 0 then ret (0, p) else ret (1, p)
  else if direction o =? ODR_PRINT then ret (1, p)
  else odr_seterror OOTHER 17 ;; ret (0, p).

(** ** odr_oct.c *)

Definition odr_octetstring_body (ber : Odr_oct -> Z -> ODR (Z * Odr_oct))
    (name : option (list Z)) (cons : Z) (p : option Odr_oct) : ODR (Z * option Odr_oct) :=
  let* o := get in
  if direction o =? ODR_PRINT then
    let* v := lift p in
    let* b := lift (oct_buf v) in
    let* text := lift (sub b 0 (oct_len v)) in
    odr_prname name ;;
    odr_printf (str "OCTETSTRING(len=" ++ fmt_d (oct_len v) ++ str ") ") ;;
    modify (fun o => set_printed (printed o ++ text) o) ;;
    odr_printf nl ;;
    ret (1, p)
  else
    let p := if direction o =? ODR_DECODE then Some (mkOct None 0) else p in
    let* v := lift p in
    let* (r, v) := ber v cons in
    if negb (r =? 0) then ret (1, Some v)
    else odr_seterror OOTHER 43 ;; ret (0, Some v).

(** The two functions call each other; [fuel] bounds the nesting and the
    number of chunks. *)
Fixpoint ber_octetstring (fuel : nat) (p : Odr_oct) (cons : Z) : ODR (Z * Odr_oct) :=
  match fuel with
  | O => fault
  | S fuel =>
      ber_octetstring_body
        (let* (r, _) :=
           odr_head ODR_UNIVERSAL ODR_OCTETSTRING
             (odr_octetstring_body (ber_octetstring fuel) None) (Some p) 0 None in
         ret r)
        fuel p cons
  end.

(** Every chunk takes at least a byte of the buffer. *)
Definition chunk_fuel (o : odr) : nat := S (S (Z.to_nat (size o))).

Definition odr_octetstring : Odr_fun Odr_oct := fun p opt name =>
  odr_head ODR_UNIVERSAL ODR_OCTETSTRING
    (fun cons p =>
       let* o := get in
       odr_octetstring_body (ber_octetstring (chunk_fuel o)) name cons p) p opt name.

Definition odr_cstring_body (name : option (list Z)) (cons : Z) (p : option (list Z))
    : ODR (Z * option (list Z)) :=
  let* o := get in
  if direction o =? ODR_PRINT then
    let* s := lift p in
    let* n := lift (strlen s) in
    odr_prname name ;;
    odr_printf (str "'" ++ take (Z.to_nat n) s ++ str "'" ++ nl) ;;
    ret (1, p)
  else
    let* t :=
      (if direction o =? ODR_ENCODE then
         let* s := lift p in
         let* n := lift (strlen s) in
         ret (mkOct (Some s) n)
       else ret (mkOct None 0)) in
    let* (r, t) := ber_octetstring (chunk_fuel o) t cons in
    if r =? 0 then ret (0, p)
    else if direction o =? ODR_DECODE then
      let* m := lift (oct_buf t) in
      let* m := lift (splice m (oct_len t) [0]) in
      ret (1, Some m)
    else ret (1, p).

Definition odr_cstring : Odr_fun (list Z) := fun p opt name =>
  odr_head ODR_UNIVERSAL ODR_OCTETSTRING (odr_cstring_body name) p opt name.

(** ** odr_use.c *)

(** [#define odr_implicit_tag(o, t, p, cl, tg, opt, name)] (odr.h) *)
Definition odr_implicit_tag {A} (f : Odr_fun A) (cl tg : Z) : Odr_fun A := fun p opt name =>
  odr_implicit_settag cl tg ;; f p opt name.

Definition odr_visiblestring : Odr_fun (list Z) :=
  odr_implicit_tag odr_cstring ODR_UNIVERSAL ODR_VISIBLESTRING.
Definition odr_graphicstring : Odr_fun (list Z) :=
  odr_implicit_tag odr_cstring ODR_UNIVERSAL ODR_GRAPHICSTRING.
Definition odr_generalizedtime : Odr_fun (list Z) :=
  odr_implicit_tag odr_cstring ODR_UNIVERSAL ODR_GENERALIZEDTIME.

(** ** Primitive strings *)

Definition oct_contents (bs : list Z) : list Z := def_len (zlen bs) ++ bs.

Definition oct_ok (bs : list Z) : Prop := bytes_ok bs /\ zlen bs < 2 ^ 24.

Lemma oct_contents_ok bs : oct_ok bs -> bytes_ok (oct_contents bs) /\ oct_contents bs <> [].
Proof.
  intros [Hb Hl]. pose proof (zlen_nonneg bs). unfold oct_contents. split.
  - apply Forall_app. split; [apply def_len_bytes; lia|done].
  - intros E. apply (f_equal zlen) in E. rewrite zlen_app, zlen_nil in E.
    pose proof (def_len_nonneg (zlen bs)). lia.
Qed.

(** Only the first [oct_len] bytes of the object are sent. *)
Lemma ber_octetstring_encode bs junk_ fuel o :
  bytes_ok bs -> zlen bs < 2 ^ 31 -> direction o = ODR_ENCODE ->
  at_end o (zlen (oct_contents bs)) ->
  let v := mkOct (Some (bs ++ junk_)) (zlen bs) in
  exists o', ber_octetstring (S fuel) v 0 o = Some ((1, v), o') /\
    appended o o' (oct_contents bs).
Proof.
  intros Hb Hl Hd Hat v. unfold oct_contents in *. rewrite zlen_app in Hat.
  pose proof (zlen_nonneg bs) as Hn. pose proof (def_len_nonneg (zlen bs)) as Hn'.
  destruct (ber_enclen_emits (zlen bs) ltac:(lia) o) as (o1 & E1 & A1);
    [eapply at_end_mono; [done|lia]|].
  assert (at_end o1 (zlen bs)) as Hat1 by (eapply at_end_appended; [|done]; done).
  destruct (emits_write bs Hb o1 Hat1) as (o2 & E2 & A2).
  assert (odr_write (bs ++ junk_) (zlen bs) o1 = odr_write bs (zlen bs) o1) as Ew.
  { unfold odr_write. do 2 (unfold bind at 1, get; simpl).
    assert (sub (bs ++ junk_) 0 (zlen bs) = sub bs 0 (zlen bs)) as ->; [|done].
    rewrite !sub_spec by (rewrite ?zlen_app; pose proof (zlen_nonneg junk_); lia).
    rewrite !drop_0. f_equal. unfold zlen. rewrite Nat2Z.id, take_app_length.
    by rewrite take_ge by lia. }
  simpl ber_octetstring. unfold ber_octetstring_body. mrun. rewrite Hd. mrun.
  subst v. cbn [oct_len oct_buf].
  rewrite (bind_Some _ _ _ _ _ E1).
  rewrite (proj2 (Z.ltb_ge _ 0)) by lia.
  destruct (Z.eqb_spec (zlen bs) 0) as [Hz|Hz].
  - exists o1. split; [done|]. destruct bs; [by rewrite app_nil_r|rewrite zlen_cons in Hz].
    pose proof (zlen_nonneg bs). lia.
  - mrun. rewrite (bind_Some _ _ _ _ _ (eq_trans Ew E2)).
    exists o2. split; [done|by eapply appended_trans].
Qed.

Lemma ber_octetstring_decode bs rest p fuel o :
  oct_ok bs -> dec_ready o -> bp_ptr o = oct_contents bs ++ rest ->
  ber_octetstring (S fuel) p 0 o =
    Some ((1, odr_create_Odr_oct bs), set_bp (bp o + zlen (oct_contents bs)) o).
Proof.
  intros [Hb Hl] Hr Hp. pose proof (bp_ptr_zlen _ Hr) as Hmax.
  unfold oct_contents in *. rewrite Hp, !zlen_app in Hmax.
  pose proof (zlen_nonneg bs). pose proof (zlen_nonneg rest).
  pose proof (def_len_nonneg (zlen bs)). pose proof Hr as [Hd _ Hbp Hs _ _].
  simpl ber_octetstring. unfold ber_octetstring_body. mrun. rewrite Hd. mrun.
  rewrite Hp, <- app_assoc, ber_declen_def by lia. mrun.
  rewrite (proj2 (Z.ltb_ge _ 0)) by lia. mrun.
  rewrite (proj2 (Z.ltb_ge (zlen bs) 0)) by lia. mrun.
  change (odr_max (set_bp ?x o)) with (size o - x). unfold odr_max in Hmax.
  rewrite (proj2 (Z.ltb_ge _ (zlen bs))) by lia.
  assert (bp_ptr (set_bp (bp o + zlen (def_len (zlen bs))) o) = [] ++ bs ++ rest) as ->.
  { eapply (bp_ptr_advance o); [lia| |done]. by rewrite Hp, <- app_assoc. }
  change 0 with (zlen (@nil Z)) at 1. rewrite sub_mid. mrun.
  unfold ret, odr_create_Odr_oct. do 2 f_equal. simpl.
  rewrite zlen_app, Z.add_assoc. done.
Qed.

#[global] Arguments ber_octetstring : simpl never.

Lemma tail_not_empty {A} (a b : list A) : b <> [] -> a ++ b <> [].
Proof. by destruct a. Qed.

#[export] Instance odr_octetstring_codec : OdrCodec odr_octetstring.
Proof.
  apply (simple_codec ODR_UNIVERSAL ODR_OCTETSTRING (fun name cons p =>
    let* o := get in odr_octetstring_body (ber_octetstring (chunk_fuel o)) name cons p)
    (fun v => exists bs, v = odr_create_Odr_oct bs /\ oct_ok bs)
    (fun v => oct_contents (take (Z.to_nat (oct_len v)) (default [] (oct_buf v))))).
  all: assert (forall bs, take (Z.to_nat (oct_len (odr_create_Odr_oct bs)))
      (default [] (oct_buf (odr_create_Odr_oct bs))) = bs) as Ht
    by (intros bs; simpl; unfold zlen; by rewrite Nat2Z.id, take_app_length).
  - done.
  - intros v (bs & -> & Hb). rewrite Ht. by apply oct_contents_ok.
  - intros name v o (bs & -> & Hb) Hd Hat. rewrite Ht in *. destruct Hb as [Hb Hl].
    destruct (ber_octetstring_encode bs [0] (S (Z.to_nat (size o))) o)
      as (o' & E & A); [done|lia|done..|].
    exists o'. split; [|done]. mrun. unfold odr_octetstring_body. mrun. rewrite Hd. mrun.
    unfold chunk_fuel. by rewrite (bind_Some _ _ _ _ _ E).
  - intros name v rest o (bs & -> & Hb) Hr Hp. rewrite Ht in *.
    mrun. unfold odr_octetstring_body. mrun. rewrite (dr_dir _ Hr). mrun.
    unfold chunk_fuel.
    by rewrite (bind_Some _ _ _ _ _ (ber_octetstring_decode bs rest _ _ o Hb Hr Hp)).
Defined.

(** ** C strings *)

(** A string without an embedded zero, in memory. *)
Definition cstring_ok (m : list Z) : Prop :=
  exists s, m = s ++ [0] /\ oct_ok s /\ Forall (fun b => b <> 0) s.

Lemma splice_last (s : list Z) x y : splice (s ++ [x]) (zlen s) [y] = Some (s ++ [y]).
Proof.
  rewrite splice_spec by (pose proof (zlen_nonneg s); zl).
  unfold zlen. rewrite Nat2Z.id, take_app_length.
  rewrite drop_ge by (rewrite length_app; simpl; lia). done.
Qed.

#[export] Instance odr_cstring_codec : OdrCodec odr_cstring.
Proof.
  apply (simple_codec ODR_UNIVERSAL ODR_OCTETSTRING odr_cstring_body cstring_ok
           (fun m => oct_contents (take (length m - 1) m))).
  all: assert (forall s : list Z, take (length (s ++ [0]) - 1) (s ++ [0]) = s) as Ht
    by (intros s; rewrite length_app; simpl; rewrite Nat.add_sub; apply take_app_length).
  - done.
  - intros m (s & -> & Hs & _). rewrite Ht. by apply oct_contents_ok.
  - intros name m o (s & -> & [Hb Hl] & Hnz) Hd Hat. rewrite Ht in *.
    destruct (ber_octetstring_encode s [0] (S (Z.to_nat (size o))) o)
      as (o' & E & A); [done|lia|done..|].
    exists o'. split; [|done]. unfold odr_cstring_body. mrun. rewrite Hd. mrun.
    rewrite (bind_Some _ _ o (mkOct (Some (s ++ [0])) (zlen s)) o)
      by (unfold bind, lift, ret; by rewrite (strlen_spec s [])).
    unfold chunk_fuel. rewrite (bind_Some _ _ _ _ _ E). done.
  - intros name m rest o (s & -> & Hs & Hnz) Hr Hp. rewrite Ht in *.
    unfold odr_cstring_body. mrun. rewrite (dr_dir _ Hr). mrun. unfold chunk_fuel.
    rewrite (bind_Some _ _ _ _ _ (ber_octetstring_decode s rest _ _ o Hs Hr Hp)).
    change (1 =? 0) with false. mrun. cbn [oct_buf oct_len odr_create_Odr_oct]. mrun.
    rewrite splice_last. mrun. done.
Defined.

(** ** Constructed strings *)

(** Whatever the chunks hold, the object handed to [ber_octetstring] comes
    back as it was. *)
Lemma ber_octetstring_constructed fuel p cons o r p' o' :
  direction o = ODR_DECODE -> cons <> 0 ->
  ber_octetstring fuel p cons o = Some ((r, p'), o') -> p' = p.
Proof.
  intros Hd Hc. destruct fuel as [|fuel]; [done|].
  unfold ber_octetstring; fold ber_octetstring. unfold ber_octetstring_body. mrun.
  rewrite Hd. mrun. rewrite (proj2 (Z.eqb_neq cons 0)) by done.
  intros ([res len] & o1 & _ & H)%bind_inv.
  destruct (res <? 0); [by apply bind_inv in H as (? & ? & _ & [= _ -> _])|].
  mrun. apply bind_inv in H as (? & ? & _ & H). cbv beta iota in H. simpl in H.
  apply bind_inv in H as (? & ? & _ & H). by apply bind_inv in H as (? & ? & _ & [= _ -> _]).
Qed.

(** The chunks of a constructed OCTET STRING are read and then lost: when
    the codec succeeds on one, it delivers a null buffer of length 0. *)
Theorem odr_octetstring_constructed (name : option (list Z)) (cons : Z) (p : option Odr_oct)
    (o : odr) (v : option Odr_oct) (o' : odr) :
  direction o = ODR_DECODE -> cons <> 0 ->
  odr_octetstring_body (ber_octetstring (chunk_fuel o)) name cons p o = Some ((1, v), o') ->
  v = Some (mkOct None 0).
Proof.
  intros Hd Hc. unfold odr_octetstring_body. mrun. rewrite Hd. mrun.
  intros ([r v'] & o1 & E & H)%bind_inv.
  apply ber_octetstring_constructed in E; [|done..]. subst v'.
  destruct (r =? 0); simpl in H; [by apply bind_inv in H as (? & ? & _ & [=])|].
  by injection H as <- <-.
Qed.

(** A decoder inside a sequence, at the length of a constructed OCTET STRING
    with the one chunk [A]. *)
Definition sample_constructed : odr :=
  mkOdr ODR_DECODE 0 0 [] [48; 5; 36; 3; 4; 1; 65] 3 0 0 7 false (-1) 0 (-1) 0 0 0
    [mkConstack 2 0 (Some 5) 1 0 1 []] 1 1 true (-1) 1 0 [] (fun _ => 0).

Lemma odr_octetstring_constructed_witness :
  exists v o', odr_octetstring_body (ber_octetstring (chunk_fuel sample_constructed)) None 1 None
      sample_constructed = Some ((1, v), o') /\ bp o' = 7 /\ v = Some (mkOct None 0).
Proof.
  do 2 eexists. split; [vm_compute; reflexivity|]. split; [reflexivity|].
  eapply (odr_octetstring_constructed None 1 None sample_constructed); [reflexivity|lia|].
  vm_compute. reflexivity.
Defined.

(** On a constructed string the string codec writes its terminator through
    that null pointer: it returns failure or has undefined behaviour, and never
    returns success. *)
Theorem odr_cstring_constructed (name : option (list Z)) (cons : Z) (p : option (list Z)) (o : odr) :
  direction o = ODR_DECODE -> cons <> 0 ->
  match odr_cstring_body name cons p o with
  | Some ((r, _), _) => r = 0
  | None => True
  end.
Proof.
  intros Hd Hc. unfold odr_cstring_body. mrun. rewrite Hd. mrun.
  unfold bind at 1.
  destruct (ber_octetstring _ _ _ o) as [[[r t] o1]|] eqn:E; [|done].
  apply ber_octetstring_constructed in E; [|done..]. subst t.
  by destruct (Z.eqb_spec r 0).
Qed.

Lemma odr_cstring_constructed_witness :
  match odr_cstring_body None 1 None sample_constructed with
  | Some ((r, _), _) => r = 0
  | None => True
  end.
Proof. apply (odr_cstring_constructed None 1 None sample_constructed); [reflexivity|lia]. Defined.
