(* ===== verification/OdrCons.v ===== *)
(** * Constructed values (odr_cons.c, odr-priv.h)

    [odr_constructed_begin] opens a constructed value: it writes the tag and
    leaves room for the length, or reads both, and pushes an entry on the
    stack; [odr_constructed_end] fills in the length, or checks that the
    members took all of it, and pops the entry.  The theorems say what the
    pair produces around its members, that it reads every form of length
    back, and that the stack stays bounded. *)

From stdpp Require Import base list numbers option strings.
From Stdlib Require Import ZArith Lia.
From S2P Require Import Prelude OdrMem BerTag BerLen OdrTag OdrCodec.

(** ** The code *)

Definition odr_setlenlen (len : Z) : ODR unit := modify (set_lenlen len).

(** [ODR_STACK_POP] *)
Definition stack_pop : ODR unit :=
  let* o := get in
  match stack o with
  | [] => fault
  | _ :: st => put (set_stack_depth (stack_depth o - 1) (set_stack st o))
  end.

(** Assign to fields of the entry on top of the stack. *)
Definition set_entry (f : odr_constack -> odr_constack) : ODR unit :=
  let* o := get in
  match stack o with
  | [] => fault
  | c :: st => put (set_stack (f c :: st) o)
  end.

(** Find the next entry of the chain, allocating it where there is none;
    [false] when the chain has [ODR_MAX_STACK] entries already. *)
Definition stack_entry : ODR bool :=
  let* o := get in
  match stack o with
  | [] =>
      (if stack_alloc o =? 0 then modify (set_stack_alloc 1) else ret tt) ;; ret true
  | _ :: _ =>
      if zlen (stack o) <? stack_alloc o then ret true
      else if ODR_MAX_STACK <=? stack_depth o
      then odr_seterror OSTACK 30 ;; ret false
      else modify (set_stack_alloc (stack_alloc o + 1)) ;; ret true
  end.

Definition stack_push (name : option (list Z)) : ODR unit :=
  modify (fun o =>
    set_stack (mkConstack 0 0 None (bp o) (odr_tell o) 0 (default (str "?") name) :: stack o)
      (set_stack_depth (stack_depth o + 1) o)).

(** The part of [odr_constructed_begin] that depends on the direction, after
    the push: the room for the length, the length, or the opening brace. *)
Definition constructed_length (ll : Z) (name : option (list Z)) : ODR bool :=
  let* o := get in
  if direction o =? ODR_ENCODE then
    set_entry (fun c => mkConstack (cs_base c) (cs_base_offset c) (cs_len c) (cs_lenb c)
                          (cs_len_offset c) ll (cs_name c)) ;;
    let* r := odr_write (repeat 0 5) ll in                      (* dummy *)
    if r <? 0 then stack_pop ;; ret false else ret true
  else if direction o =? ODR_DECODE then
    let* (res, len) := lift (ber_declen (bp_ptr o) 0 (odr_max o)) in
    if res <? 0 then odr_seterror OOTHER 31 ;; stack_pop ;; ret false
    else
      set_entry (fun c => mkConstack (cs_base c) (cs_base_offset c) (Some len) (cs_lenb c)
                            (cs_len_offset c) res (cs_name c)) ;;
      modify (fun o => set_bp (bp o + res) o) ;;
      let* o := get in
      if odr_max o <? len then odr_seterror OOTHER 32 ;; stack_pop ;; ret false
      else ret true
  else if direction o =? ODR_PRINT then
    odr_prname name ;;
    odr_printf (str "{" ++ nl) ;;
    modify (fun o => set_indent (indent o + 1) o) ;;
    ret true
  else odr_seterror OOTHER 33 ;; stack_pop ;; ret false.

Definition odr_constructed_begin {A} (p : option A) (zclass tag : Z)
    (name : option (list Z)) : ODR (Z * option A) :=
  let* o := get in
  let ll := lenlen o in
  if negb (error o =? 0) then ret (0, p)
  else
    modify (set_lenlen 1) ;;
    let* (c, t) := default_tag zclass tag in
    let* (res, cn, p) := ber_tag p c t 1 1 name in
    if res <? 0 then ret (0, p)
    else if (res =? 0) || (cn =? 0) then ret (0, p)
    else
      let* pushed := stack_entry in
      if negb pushed then ret (0, p)
      else
        stack_push name ;;
        let* ok := constructed_length ll name in
        if negb ok then ret (0, p)
        else
          let* o := get in
          set_entry (fun c => mkConstack (bp o) (odr_tell o) (cs_len c) (cs_lenb c)
                                (cs_len_offset c) (cs_lenlen c) (cs_name c)) ;;
          ret (1, p).

(** [*o->op->bp++ == 0] *)
Definition next_is_zero : ODR bool :=
  let* b := at_bp 0 in
  modify (fun o => set_bp (bp o + 1) o) ;;
  ret (b =? 0).

Definition odr_constructed_end : ODR Z :=
  let* o := get in
  if negb (error o =? 0) then ret 0
  else
    match stack o with
    | [] => odr_seterror OOTHER 34 ;; ret 0
    | c :: _ =>
        if direction o =? ODR_DECODE then
          let* len := lift (cs_len c) in
          if len <? 0 then
            let* z := next_is_zero in
            let* z := (if (z : bool) then next_is_zero else ret false) in
            if (z : bool) then stack_pop ;; ret 1
            else odr_seterror OOTHER 35 ;; ret 0
          else if negb (bp o - cs_base c =? len) then odr_seterror OCONLEN 36 ;; ret 0
          else stack_pop ;; ret 1
        else if direction o =? ODR_ENCODE then
          odr_seek ODR_S_SET (cs_len_offset c) ;;
          let* res := ber_enclen (odr_tell o - cs_base_offset c) (cs_lenlen c) 1 in
          if res <? 0 then odr_seterror OLENOV 37 ;; ret 0
          else
            odr_seek ODR_S_END 0 ;;
            let* r := (if res =? 0 then                         (* indefinite encoding *)
                         let* r := odr_putc 0 in
                         if r <? 0 then ret (-1) else odr_putc 0
                       else ret 0) in
            if r <? 0 then ret 0 else stack_pop ;; ret 1
        else if direction o =? ODR_PRINT then
          stack_pop ;;
          modify (fun o => set_indent (indent o - 1) o) ;;
          odr_prname None ;;
          odr_printf (str "}" ++ nl) ;;
          ret 1
        else odr_seterror OOTHER 38 ;; ret 0
    end.

(** ** What the pair produces *)

(** A constructed value as it is sent: contents of at most 127 bytes with
    their length, longer ones in the indefinite form. *)
Definition con_bytes (cb : list Z) : list Z :=
  if zlen cb <=? 127 then zlen cb :: cb else 128 :: cb ++ [0; 0].

(** [lb] are length octets the decoder reads as [n]. *)
Definition len_form (lb : list Z) (n : Z) : Prop :=
  1 <= zlen lb /\
  forall rest x max, zlen lb <= max -> ber_declen (lb ++ rest) x max = Some (zlen lb, n).

(** The forms of a constructed value BER allows: a definite length in any
    form, or the end-of-contents octets. *)
Inductive con_form (cb : list Z) : list Z -> Prop :=
  | con_definite lb : len_form lb (zlen cb) -> con_form cb (lb ++ cb)
  | con_indefinite : con_form cb (128 :: cb ++ [0; 0]).

Lemma len_form_short n : 0 <= n <= 127 -> len_form [n] n.
Proof. intros Hn. split; [done|]. intros. by apply ber_declen_short. Qed.

Lemma len_form_def n : 0 <= n < 2 ^ 24 -> len_form (def_len n) n.
Proof. intros Hn. split; [apply def_len_nonneg|]. intros. by apply ber_declen_def. Qed.

Lemma len_form_long ds :
  bytes_ok ds -> 1 <= zlen ds <= 3 -> len_form (long_len ds) (val256 0 ds).
Proof.
  intros Hd Hl. split; [apply zlen_pos; done|]. intros rest x max Hm.
  unfold long_len in Hm. rewrite zlen_cons in Hm. apply ber_declen_long; [done|done|lia].
Qed.

Lemma con_bytes_form cb : con_form cb (con_bytes cb).
Proof.
  unfold con_bytes. destruct (Z.leb_spec (zlen cb) 127); [|constructor].
  apply (con_definite cb [zlen cb]), len_form_short. pose proof (zlen_nonneg cb). lia.
Qed.

Lemma con_bytes_ok cb : bytes_ok cb -> bytes_ok (con_bytes cb).
Proof.
  intros Hc. pose proof (zlen_nonneg cb). unfold con_bytes.
  destruct (Z.leb_spec (zlen cb) 127); constructor; try (unfold byte_ok; lia); [done|].
  apply Forall_app. split; [done|]. repeat constructor; unfold byte_ok; lia.
Qed.

Lemma con_bytes_zlen cb : 1 + zlen cb <= zlen (con_bytes cb) <= 3 + zlen cb.
Proof. unfold con_bytes. destruct (zlen cb <=? 127); zl. Qed.

(** ** Encoding *)

(** [o1] is [o] with a constructed value opened whose tag is [tb]: the tag and
    one byte for the length were written and an entry was pushed. *)
Record opened (o o1 : odr) (tb : list Z) : Prop := {
  op_frame : non_enc (set_stack (stack o) (set_stack_depth (stack_depth o) o1)) = non_enc o;
  op_class : t_class o1 = -1;
  op_depth : stack_depth o1 = stack_depth o + 1;
  op_entry : exists c, stack o1 = c :: stack o /\ cs_len_offset c = pos o + zlen tb /\
    cs_base_offset c = pos o + zlen tb + 1 /\ cs_lenlen c = 1;
  op_pos : pos o1 = pos o + zlen tb + 1;
  op_top : pos o1 = top o1;
  op_size : size o <= size o1;
  op_out : out o1 = out o ++ tb ++ [0];
  op_ok : buf_ok o1;
}.

(** The next entry of the chain is found as long as the depth is below the
    limit; only the count of allocated entries changes. *)
Lemma stack_entry_ok o :
  depth_ok o 1 ->
  exists a, stack_entry o = Some (true, set_stack_alloc a o).
Proof.
  intros [Hd Hm]. unfold stack_entry, bind, get, modify, ret.
  destruct (stack o) eqn:E.
  - destruct (stack_alloc o =? 0); [by eexists|]. exists (stack_alloc o). by destruct o.
  - destruct (_ <? _); [exists (stack_alloc o); by destruct o|].
    rewrite (proj2 (Z.leb_gt _ _)) by lia. eauto.
Qed.

Lemma constructed_begin_encode {A} o (v : A) zclass tag name c t tb n :
  tag_ok c t -> tag_bytes c t 1 tb -> in_force o zclass tag = (c, t) ->
  enc_ready o (zlen tb + 1 + n) -> 0 <= n -> depth_ok o 1 ->
  exists o1, odr_constructed_begin (Some v) zclass tag name o = Some ((1, Some v), o1) /\
    opened o o1 tb.
Proof.
  intros [Hc Ht] Htb Hf Hr Hn Hdep. pose proof (er_lenlen _ _ Hr) as Hll.
  assert (set_lenlen 1 o = o) as Ho by (clear -Hll; destruct o; simpl in *; by subst).
  destruct (default_tag_spec _ _ _ _ _ Hf) as (o1 & E1 & H1).
  destruct (ber_tag_encode o1 v c t 1 1 name tb (1 + n)) as (o2 & E2 & D2);
    [lia|lia|lia|done|eapply enc_ready_tag; [done|by rewrite Z.add_assoc]|lia|].
  assert (encoded o o2 tb) as D by by eapply encoded_tag. clear D2 H1.
  pose proof (ed_frame _ _ _ D) as F.
  assert (depth_ok o2 1) as Hdep2.
  { destruct Hdep as [Hd1 Hd2]. split.
    - rewrite (f_equal stack F : stack o2 = stack o).
      by rewrite (f_equal stack_depth F : stack_depth o2 = stack_depth o).
    - by rewrite (f_equal stack_depth F : stack_depth o2 = stack_depth o). }
  destruct (stack_entry_ok o2 Hdep2) as [a E3].
  set (o3 := set_stack_alloc a o2) in *.
  set (c0 := mkConstack 0 0 None (bp o3) (odr_tell o3) 1 (default (str "?") name)).
  set (o4 := set_stack (c0 :: stack o3) (set_stack_depth (stack_depth o3 + 1) o3)).
  assert (at_end o4 1) as Hat.
  { eapply (at_end_mono _ (1 + n)); [|lia].
    destruct (at_end_encoded o o2 tb (1 + n)) as ([] & Hp & Hrm);
      [rewrite Z.add_assoc; apply Hr|done|]. split; [by split|]. split; done. }
  destruct (emits_write [0] ltac:(by repeat constructor) o4 Hat) as (o5 & E5 & A5).
  exists (set_stack (mkConstack (bp o5) (odr_tell o5) None (bp o3) (odr_tell o3) 1
             (default (str "?") name) :: stack o3) o5).
  assert (stack o5 = c0 :: stack o3) as Hs5 by exact (f_equal stack (app_frame _ _ _ A5)).
  assert (direction o2 = ODR_ENCODE) as Hd2.
  { rewrite <- (er_dir _ _ Hr). exact (f_equal direction F). }
  split.
  - unfold odr_constructed_begin. mrun. rewrite (er_error _ _ Hr). mrun.
    rewrite Ho, (bind_Some _ _ _ _ _ E1), (bind_Some _ _ _ _ _ E2).
    change (1 <? 0) with false. change ((1 =? 0) || (1 =? 0)) with false. cbv iota.
    rewrite (bind_Some _ _ _ _ _ E3). mrun. unfold stack_push. mrun.
    rewrite (bind_Some _ _ _ true o5); [mrun|].
    { unfold set_entry, bind, get, put, ret. by rewrite Hs5. }
    unfold constructed_length. mrun.
    change (direction (set_stack _ _)) with (direction o2). rewrite Hd2. mrun.
    rewrite Hll. rewrite (bind_Some _ _ _ tt o4) by done.
    by rewrite (bind_Some _ _ _ 0 o5) by done.
  - pose proof A5 as [F5 P5 T5 S5 O5 K5]. destruct D as [_ C2 P2 T2 S2 O2 K2].
    split; simpl.
    + unfold non_enc. unfold non_enc in F.
      transitivity (set_t_class 0 (set_t_tag 0 (set_lclass 0 (set_bp 0 (set_stack_alloc 0
        (set_stack (stack o) (set_stack_depth (stack_depth o) (non_buf o4)))))))).
      { rewrite <- F5. done. }
      transitivity (set_t_class 0 (set_t_tag 0 (set_lclass 0 (set_bp 0 (set_stack_alloc 0
        (set_stack (stack o) (set_stack_depth (stack_depth o) (non_buf o2)))))))); [done|].
      exact (f_equal (fun x => set_stack (stack o) (set_stack_depth (stack_depth o) x)) F).
    + rewrite (f_equal t_class F5 : t_class o5 = t_class o4). exact C2.
    + rewrite (f_equal stack_depth F5 : stack_depth o5 = stack_depth o2 + 1).
      by rewrite (f_equal stack_depth F : stack_depth o2 = stack_depth o).
    + eexists. split; [by rewrite (f_equal stack F : stack o2 = stack o)|].
      unfold odr_tell. simpl. rewrite P5. change (pos o4) with (pos o2). rewrite P2.
      split_and!; done.
    + rewrite P5. change (pos o4) with (pos o2). by rewrite P2.
    + done.
    + etransitivity; [exact S2|exact S5].
    + change (out (set_stack _ o5)) with (out o5). rewrite O5.
      change (out o4) with (out o2). by rewrite O2, app_assoc.
    + by destruct K5.
Qed.

(** Going back to fill the byte left for the length, and to the end again. *)
Lemma fill_hole o a y b (m : ODR Z) r x :
  buf_ok o -> out o = a ++ [y] ++ b ->
  (forall o, buf_ok o -> pos o <= top o -> room o 1 ->
     exists o', m o = Some (r, o') /\ wrote o o' [x]) ->
  room (set_pos (zlen a) o) 1 ->
  exists o', (odr_seek ODR_S_SET (zlen a) ;; m) o = Some (r, o') /\
    odr_seek ODR_S_END 0 o' = Some (0, set_pos (top o) o') /\
    non_buf o' = non_buf o /\ top o' = top o /\ size o <= size o' /\
    out o' = a ++ [x] ++ b /\ buf_ok o'.
Proof.
  intros Hok Hout Hm Hroom. pose proof Hok as [Hp Ht Hs Hmx Hb].
  pose proof (out_zlen _ Hok) as Hz. rewrite Hout in Hz. autorewrite with zlen in Hz.
  pose proof (zlen_nonneg a). pose proof (zlen_nonneg b).
  set (o1 := set_pos (zlen a) o).
  assert (buf_ok o1) as Hok1 by (split; simpl; done || lia).
  destruct (Hm o1) as (o' & E & [F P T S O K]); [done|simpl; lia|done|].
  assert (top o' = top o) as Ht' by (rewrite T, P; simpl; change (zlen [x]) with 1; lia).
  exists o'. split_and!.
  - rewrite (bind_Some _ _ _ _ _ (odr_seek_set o (zlen a) ltac:(lia))). exact E.
  - rewrite odr_seek_end by done. by rewrite Ht'.
  - exact F.
  - done.
  - exact S.
  - rewrite O. change (out o1) with (out o). rewrite Hout. simpl. unfold zlen.
    rewrite Nat2Z.id, take_app_length, drop_app_add. done.
  - done.
Qed.

(** The length written by [odr_constructed_end] in the byte left for it. *)
Lemma enclen_one_octet len :
  0 <= len ->
  let x := if len <=? 127 then len else 128 in
  forall o, buf_ok o -> pos o <= top o -> room o 1 ->
  exists o', ber_enclen len 1 1 o = Some (if len <=? 127 then 1 else 0, o') /\ wrote o o' [x].
Proof.
  intros Hl x o Hok Hpt Hroom. subst x. destruct (Z.leb_spec len 127).
  - apply ber_enclen_short; [lia|by left|done..].
  - by apply ber_enclen_indef.
Qed.

Lemma stack_pop_run o c st :
  stack o = c :: st ->
  stack_pop o = Some (tt, set_stack_depth (stack_depth o - 1) (set_stack st o)).
Proof. intros H. unfold stack_pop, bind, get, put. by rewrite H. Qed.

(** What an opened value looks like after its members were encoded. *)
Lemma opened_members o o1 o2 tb cb :
  opened o o1 tb -> encoded o1 o2 cb -> encoded o (set_stack_depth (stack_depth o2 - 1)
    (set_stack (stack o) o2)) (tb ++ [0] ++ cb) /\
  (exists c, stack o2 = c :: stack o /\ cs_len_offset c = pos o + zlen tb /\
    cs_base_offset c = pos o + zlen tb + 1 /\ cs_lenlen c = 1).
Proof.
  intros [F C D (c & Hs & Hc) P T S O K] [F2 C2 P2 T2 S2 O2 K2].
  assert (stack_depth o2 = stack_depth o1) as Hd by exact (f_equal stack_depth F2).
  split.
  - split; simpl; [|done|zl|done|lia| |by destruct K2].
    + rewrite <- F. replace (stack_depth o2 - 1) with (stack_depth o) by lia.
      exact (f_equal (fun x => set_stack_depth (stack_depth o) (set_stack (stack o) x)) F2).
    + change (out (set_stack_depth _ _)) with (out o2). rewrite O2, O, <- !app_assoc. done.
  - exists c. split; [|done]. rewrite <- Hs. exact (f_equal stack F2).
Qed.

(** Two end-of-contents octets, if the length was left open. *)
Lemma close_indefinite (indef : bool) o :
  at_end o (if indef then 2 else 0) ->
  exists o', (if indef
              then let* r := odr_putc 0 in if r <? 0 then ret (-1) else odr_putc 0
              else ret 0) o = Some (0, o') /\
    appended o o' (if indef then [0; 0] else []).
Proof.
  destruct indef; intros Hat.
  - apply (emits_putc_then 0 (odr_putc 0) (-1) 0 [0]); [apply (emits_putc 0)|done].
  - destruct Hat as (? & ? & _). exists o. split; [done|by apply appended_nil].
Qed.

Lemma constructed_end_encode o o1 o2 tb cb :
  opened o o1 tb -> encoded o1 o2 cb -> enc_ready o (zlen (tb ++ con_bytes cb)) ->
  exists o3, odr_constructed_end o2 = Some (1, o3) /\ encoded o o3 (tb ++ con_bytes cb).
Proof.
  intros Hop He [Hdir Herr (Hok & Hpt & Hroom) _ _ _].
  destruct (opened_members _ _ _ _ _ Hop He) as ([F C P T S O K] & c & Hst & Hlo & Hbo & Hll).
  simpl in P, T, S. change (out (set_stack_depth _ _)) with (out o2) in O.
  assert (buf_ok o2) as Hok2 by by destruct K. clear K He Hop.
  pose proof (out_zlen _ Hok) as Hz. pose proof (zlen_nonneg cb). pose proof (zlen_nonneg tb).
  autorewrite with zlen in P. rewrite zlen_app in Hroom.
  pose proof (con_bytes_zlen cb) as Hcb.
  assert (forall x, non_buf x = non_buf o2 -> can_grow x = can_grow o) as Hgrow.
  { intros x Hx. rewrite (f_equal can_grow Hx : can_grow x = can_grow o2).
    exact (f_equal can_grow F). }
  destruct (fill_hole o2 (out o ++ tb) 0 cb (ber_enclen (zlen cb) 1 1)
              (if zlen cb <=? 127 then 1 else 0) (if zlen cb <=? 127 then zlen cb else 128))
    as (o3 & E3 & Sk & F3 & T3 & S3 & O3 & K3);
    [done|by rewrite O, app_assoc|by apply enclen_one_octet| |].
  { rewrite zlen_app, Hz, <- Hpt. destruct Hroom as [[Hg Hm]|Hm]; [left|right; simpl; lia].
    split; [rewrite <- Hg; by apply Hgrow|simpl; lia]. }
  destruct (close_indefinite (negb (zlen cb <=? 127)) (set_pos (top o2) o3)) as (o4 & E4 & A4).
  { split; [destruct K3; split; simpl; done || lia|]. split; [simpl; lia|].
    revert Hcb. unfold con_bytes in *. destruct (zlen cb <=? 127); simpl; intros Hcb;
      autorewrite with zlen in *;
      (destruct Hroom as [[Hg Hm]|Hm]; [left; split; [rewrite <- Hg; by apply Hgrow|]|right];
       simpl; lia). }
  pose proof A4 as [F4 P4 T4 S4 O4 K4]. simpl in P4, S4.
  assert (stack o4 = c :: stack o) as Hst4.
  { rewrite (f_equal stack F4 : stack o4 = stack o3), (f_equal stack F3 : stack o3 = stack o2).
    exact Hst. }
  assert (stack_depth o4 = stack_depth o2) as Hd4.
  { rewrite (f_equal stack_depth F4 : stack_depth o4 = stack_depth o3).
    exact (f_equal stack_depth F3). }
  eexists. split.
  - unfold odr_constructed_end. mrun.
    rewrite (f_equal error F : error o2 = error o), Herr. mrun. rewrite Hst. 
    rewrite (f_equal direction F : direction o2 = direction o), Hdir. mrun.
    assert (cs_len_offset c = zlen (out o ++ tb)) as -> by (rewrite zlen_app; lia).
    replace (odr_tell o2 - cs_base_offset c) with (zlen cb) by (unfold odr_tell; lia).
    rewrite Hll. rewrite <- bind_assoc, (bind_Some _ _ _ _ _ E3).
    rewrite (proj2 (Z.ltb_ge _ 0)) by (destruct (zlen cb <=? 127); lia).
    rewrite (bind_Some _ _ _ _ _ Sk).
    assert (forall b : bool, ((if b then 1 else 0) =? 0) = negb b) as -> by by intros [].
    rewrite (bind_Some _ _ _ _ _ E4). change (0 <? 0) with false. cbv iota.
    rewrite (bind_Some _ _ _ _ _ (stack_pop_run _ _ _ Hst4)). reflexivity.
  - rewrite Hd4. split; simpl.
    + rewrite <- F.
      transitivity (non_enc (set_stack_depth (stack_depth o2 - 1) (set_stack (stack o) o3))).
      * exact (f_equal (fun x => set_t_class 0 (set_t_tag 0 (set_lclass 0 (set_bp 0
          (set_stack_alloc 0 (set_stack_depth (stack_depth o2 - 1) (set_stack (stack o) x))))))) F4).
      * exact (f_equal (fun x => set_t_class 0 (set_t_tag 0 (set_lclass 0 (set_bp 0
          (set_stack_alloc 0 (set_stack_depth (stack_depth o2 - 1) (set_stack (stack o) x))))))) F3).
    + rewrite <- C. rewrite (f_equal t_class F4 : t_class o4 = t_class o3).
      exact (f_equal t_class F3).
    + rewrite P4, <- T, P, zlen_app. unfold con_bytes.
      destruct (zlen cb <=? 127); simpl; autorewrite with zlen; lia.
    + done.
    + lia.
    + change (out (set_stack_depth _ _)) with (out o4). rewrite O4.
      change (out (set_pos _ o3)) with (out o3). rewrite O3. unfold con_bytes.
      destruct (zlen cb <=? 127); simpl; rewrite <- ?app_assoc, ?app_nil_r; simpl;
        rewrite <- ?app_assoc; done.
    + by destruct K4.
Qed.

(** ** Decoding *)

(** [o1] is [o] with a constructed value opened, [n] bytes read: the contents
    [cb] follow, then the end-of-contents octets [tl] if the length is open. *)
Record opened_dec (o o1 : odr) (n : Z) (cb tl rest : list Z) : Prop := {
  od_frame : non_dec (set_stack (stack o) (set_stack_depth (stack_depth o) o1)) = non_dec o;
  od_class : t_class o1 = -1;
  od_look : lclass o1 = -1;
  od_depth : stack_depth o1 = stack_depth o + 1;
  od_entry : exists c len, stack o1 = c :: stack o /\ cs_len c = Some len /\
    cs_base c = bp o1 /\ ((len = zlen cb /\ tl = []) \/ (len = -1 /\ tl = [0; 0]));
  od_bp : bp o1 = bp o + n;
  od_ptr : bp_ptr o1 = cb ++ tl ++ rest;
  od_ready : dec_ready o1;
}.

(** Both forms at once: length octets read as [len], the contents and what
    ends them. *)
Lemma con_form_split cb fb :
  con_form cb fb ->
  exists lb len tl, fb = lb ++ cb ++ tl /\ len_form lb len /\
    ((len = zlen cb /\ tl = []) \/ (len = -1 /\ tl = [0; 0])).
Proof.
  intros [lb Hlb|].
  - exists lb, (zlen cb), []. rewrite app_nil_r. split_and!; [done|done|by left].
  - exists [128], (-1), [0; 0]. split_and!; [done| |by right]. split; [done|].
    intros. by apply ber_declen_indef.
Qed.

Lemma depth_ok_dec o o1 n d : decoded o o1 n -> depth_ok o d -> depth_ok o1 d.
Proof.
  intros [F _ _ _] [Hd Hm].
  assert (stack_depth o1 = stack_depth o) as E by exact (f_equal stack_depth F).
  assert (stack o1 = stack o) as E' by exact (f_equal stack F).
  split; [by rewrite E, E'|by rewrite E].
Qed.

Lemma constructed_begin_decode {A} o (p : option A) zclass tag name c t tb cb fb rest :
  tag_ok c t -> tag_bytes c t 1 tb -> in_force o zclass tag = (c, t) ->
  con_form cb fb -> dec_ready o -> more_at o -> bp_ptr o = tb ++ fb ++ rest ->
  depth_ok o 1 ->
  exists o1 n tl, odr_constructed_begin p zclass tag name o = Some ((1, None), o1) /\
    opened_dec o o1 n cb tl rest /\ zlen (tb ++ fb) = n + zlen cb + zlen tl.
Proof.
  intros [Hc Ht] Htb Hf Hcf Hr Hm Hp Hdep.
  destruct (con_form_split _ _ Hcf) as (lb & len & tl & -> & [Hlb1 Hlb] & Hlen).
  assert (dec_ready (set_lenlen 1 o) /\ more_at (set_lenlen 1 o)) as [Hr0 Hm0].
  { split; [by destruct Hr; split|done]. }
  destruct (default_tag_spec (set_lenlen 1 o) zclass tag c t Hf) as (o1 & E1 & H1).
  destruct (dec_ready_tag _ _ _ _ H1 Hr0 Hm0) as (Hr1 & Hm1 & Hp1).
  destruct (ber_tag_decode o1 p c t 1 1 1 name tb ((lb ++ cb ++ tl) ++ rest)) as (o2 & E2 & D2);
    [done|done|by rewrite Hp1|lia|lia|lia|done|].
  assert (decoded o o2 (zlen tb)) as D.
  { eapply decoded_tag in D2; [|done]. by destruct D2; split. }
  pose proof (zlen_nonneg tb). pose proof (zlen_nonneg cb). pose proof (zlen_nonneg tl).
  pose proof (zlen_nonneg rest).
  pose proof (bp_ptr_zlen _ Hr) as Hmax. rewrite Hp in Hmax. autorewrite with zlen in Hmax.
  assert (dec_ready o2) as Hr2 by (eapply decoded_ready; [exact Hr|done|lia]).
  assert (bp_ptr o2 = (lb ++ cb ++ tl) ++ rest) as Hp2.
  { rewrite (decoded_ptr _ _ _ Hr D) by lia. rewrite Hp. apply drop_app_length'. unfold zlen. lia. }
  pose proof (bp_ptr_zlen _ Hr2) as Hmax2. rewrite Hp2 in Hmax2. autorewrite with zlen in Hmax2.
  destruct (stack_entry_ok o2 (depth_ok_dec _ _ _ _ D Hdep)) as [a E3].
  set (o3 := set_stack_alloc a o2) in *.
  set (c1 := mkConstack (bp o2 + zlen lb) (pos o2) (Some len) (bp o2) (pos o2) (zlen lb)
               (default (str "?") name)).
  exists (set_bp (bp o2 + zlen lb)
           (set_stack (c1 :: stack o2) (set_stack_depth (stack_depth o2 + 1) o3))).
  exists (zlen tb + zlen lb), tl. split_and!.
  - unfold odr_constructed_begin. mrun. rewrite (dr_error _ Hr). mrun.
    rewrite (bind_Some _ _ _ _ _ E1), (bind_Some _ _ _ _ _ E2).
    change (1 <? 0) with false. change ((1 =? 0) || (1 =? 0)) with false. cbv iota.
    rewrite (bind_Some _ _ _ _ _ E3). mrun. unfold stack_push. mrun.
    rewrite (bind_Some _ _ _ true (set_bp (bp o2 + zlen lb)
      (set_stack (mkConstack 0 0 (Some len) (bp o2) (pos o2) (zlen lb)
        (default (str "?") name) :: stack o2) (set_stack_depth (stack_depth o2 + 1) o3))));
      [mrun; reflexivity|].
    unfold constructed_length. mrun.
    change (direction (set_stack _ _)) with (direction o2). rewrite (dr_dir _ Hr2). mrun.
    change (bp_ptr (set_stack _ _)) with (bp_ptr o2).
    change (odr_max (set_stack _ _)) with (odr_max o2).
    rewrite Hp2, <- app_assoc, Hlb by lia. mrun.
    rewrite (proj2 (Z.ltb_ge _ 0)) by lia.
    erewrite (bind_Some (set_entry _)); [|reflexivity]. mrun.
    change (odr_max (set_bp _ _)) with (size o2 - (bp o2 + zlen lb)).
    unfold odr_max in Hmax2. rewrite (proj2 (Z.ltb_ge _ len)); [reflexivity|].
    destruct Hlen as [[-> _]|[-> _]]; lia.
  - destruct D as [F C L B]. split; simpl.
    + exact (f_equal (fun x => set_stack (stack o) (set_stack_depth (stack_depth o) x)) F).
    + exact C.
    + exact L.
    + by rewrite (f_equal stack_depth F : stack_depth o2 = stack_depth o).
    + exists c1, len. by rewrite (f_equal stack F : stack o2 = stack o).
    + rewrite B. lia.
    + change (bp_ptr (set_bp (bp o2 + zlen lb) o2) = cb ++ tl ++ rest).
      eapply bp_ptr_advance; [destruct Hr2; lia| |done]. by rewrite Hp2, <- !app_assoc.
    + unfold odr_max in Hmax2. destruct Hr2. split; simpl; try done; [lia|by left].
  - autorewrite with zlen. lia.
Qed.

Lemma decoded_refl o : t_class o = -1 -> lclass o = -1 -> decoded o o 0.
Proof. intros. split; done || lia. Qed.

Lemma opened_dec_nil o o1 n cb tl rest : opened_dec o o1 n cb tl rest -> decoded o1 o1 0.
Proof. intros []. by apply decoded_refl. Qed.

Lemma opened_dec_depth o o1 n cb tl rest d :
  opened_dec o o1 n cb tl rest -> depth_ok o (d + 1) -> depth_ok o1 d.
Proof.
  intros [_ _ _ D (c & len & Hs & _) _ _ _] [H1 H2]. split; [rewrite Hs, zlen_cons; lia|lia].
Qed.

Lemma opened_depth o o1 tb d : opened o o1 tb -> depth_ok o (d + 1) -> depth_ok o1 d.
Proof.
  intros [_ _ D (c & Hs & _) _ _ _ _ _] [H1 H2]. split; [rewrite Hs, zlen_cons; lia|lia].
Qed.

Lemma opened_ready o o1 tb n :
  opened o o1 tb -> enc_ready o (zlen tb + 1 + n) -> 0 <= n -> enc_ready o1 n.
Proof.
  intros [F C D (c & Hs & _) P T S O K] [Hd He (Hok & Hpt & Hroom) _ Hll Hbi] Hn. split.
  - rewrite <- Hd. exact (f_equal direction F).
  - rewrite <- He. exact (f_equal error F).
  - split; [done|]. split; [done|].
    destruct Hroom as [[Hg Hm]|Hm]; [left|right; lia].
    split; [|lia]. rewrite <- Hg. exact (f_equal can_grow F).
  - left. by rewrite Hs.
  - rewrite <- Hll. exact (f_equal lenlen F).
  - rewrite <- Hbi. exact (f_equal choice_bias F).
Qed.

(** Before the end of the contents there is a member to read. *)
Lemma opened_more o o1 n cb tl rest o' k b l :
  opened_dec o o1 n cb tl rest -> stack o' = stack o1 -> bp o' = bp o1 + k ->
  k < zlen cb -> bp_ptr o' = b :: l -> b <> 0 -> more_at o'.
Proof.
  intros [_ _ _ _ (c & len & Hs & Hl & Hb & Hcase) _ _ _] Hs' Hbp Hk Hp Hne.
  unfold more_at. rewrite Hs', Hs, Hl. destruct (Z.leb_spec 0 len); [|eauto].
  destruct Hcase as [[-> _]|[-> _]]; lia.
Qed.

Lemma at_bp_ptr o i : 0 <= bp o -> 0 <= i -> at_bp i o = lift (rd (bp_ptr o) i) o.
Proof. intros. unfold at_bp, bp_ptr, bind, get. by rewrite rd_drop. Qed.

Lemma at_eoc_yes o l : 0 <= bp o -> bp_ptr o = 0 :: 0 :: l -> at_eoc o = Some (true, o).
Proof.
  intros Hb Hp. unfold at_eoc.
  rewrite (bind_Some _ _ o 0 o) by (rewrite at_bp_ptr, Hp by lia; done).
  change (0 =? 0) with true. cbv iota.
  by rewrite (bind_Some _ _ o 0 o) by (rewrite at_bp_ptr, Hp by lia; done).
Qed.

(** At the end of the contents there is none. *)
Lemma opened_done o o1 n cb tl rest o' :
  opened_dec o o1 n cb tl rest -> decoded o1 o' (zlen cb) ->
  odr_constructed_more o' = Some (0, o').
Proof.
  intros Hop D. pose proof Hop as [_ _ _ _ (c & len & Hs & Hl & Hb & Hcase) _ Hp Hr].
  destruct (decoded_buf _ _ _ D) as (Hbuf & _ & Hst).
  pose proof (decoded_ptr _ _ _ Hr D (zlen_nonneg cb)) as Hp'.
  rewrite Hp in Hp'. unfold zlen in Hp'. rewrite Nat2Z.id, drop_app_length in Hp'.
  unfold odr_constructed_more. mrun.
  rewrite (f_equal error (dd_frame _ _ _ D) : error o' = error o1), (dr_error _ Hr). mrun.
  rewrite Hst, Hs, Hl. mrun. destruct Hcase as [[-> ->]|[-> ->]].
  - rewrite (proj2 (Z.leb_le _ _)) by apply zlen_nonneg.
    rewrite Hb, (dd_bp _ _ _ D), (proj2 (Z.ltb_ge _ _)) by lia. done.
  - pose proof (dr_bp _ Hr). pose proof (dd_bp _ _ _ D) as B. pose proof (zlen_nonneg cb).
    change (0 <=? -1) with false. cbv iota.
    by rewrite (bind_Some _ _ _ _ _ (at_eoc_yes o' rest ltac:(lia) Hp')).
Qed.

Lemma next_is_zero_yes o l :
  0 <= bp o -> bp_ptr o = 0 :: l ->
  next_is_zero o = Some (true, set_bp (bp o + 1) o) /\ bp_ptr (set_bp (bp o + 1) o) = l.
Proof.
  intros Hb Hp. destruct (at_bp_0 o 0 l Hb Hp) as [E1 E2]. split; [|done].
  unfold next_is_zero. by rewrite (bind_Some _ _ _ _ _ E1).
Qed.

Lemma constructed_end_decode o o1 n cb tl rest o' :
  opened_dec o o1 n cb tl rest -> decoded o1 o' (zlen cb) ->
  exists o2, odr_constructed_end o' = Some (1, o2) /\ decoded o o2 (n + zlen cb + zlen tl).
Proof.
  intros Hop D. pose proof Hop as [F C L Hdp (c & len & Hs & Hl & Hb & Hcase) Hbp Hp Hr].
  destruct (decoded_buf _ _ _ D) as (Hbuf & _ & Hst).
  pose proof (decoded_ptr _ _ _ Hr D (zlen_nonneg cb)) as Hp'.
  rewrite Hp in Hp'. unfold zlen in Hp'. rewrite Nat2Z.id, drop_app_length in Hp'.
  pose proof (zlen_nonneg cb). pose proof (dr_bp _ Hr). pose proof D as [F' C' L' B'].
  rewrite Hs in Hst.
  assert (stack_depth o' = stack_depth o1) as Hd' by exact (f_equal stack_depth F').
  assert (forall m, decoded o (set_stack_depth (stack_depth o' - 1) (set_stack (stack o)
    (set_bp (bp o' + m) o'))) (n + zlen cb + m)) as Hfin.
  { intros m. split; simpl; [|done|done|lia].
    rewrite <- F, Hd', Hdp. replace (stack_depth o + 1 - 1) with (stack_depth o) by lia.
    exact (f_equal (fun x => set_stack_depth (stack_depth o) (set_stack (stack o) x)) F'). }
  unfold odr_constructed_end. mrun.
  rewrite (f_equal error F' : error o' = error o1), (dr_error _ Hr). mrun.
  rewrite Hst, (f_equal direction F' : direction o' = direction o1), (dr_dir _ Hr), Hl. mrun.
  destruct Hcase as [[-> ->]|[-> ->]].
  - rewrite (proj2 (Z.ltb_ge _ 0)) by lia.
    replace (bp o' - cs_base c) with (zlen cb) by lia. rewrite Z.eqb_refl. mrun.
    rewrite (bind_Some _ _ _ _ _ (stack_pop_run _ _ _ Hst)).
    eexists. split; [reflexivity|]. specialize (Hfin 0).
    rewrite Z.add_0_r in Hfin. by destruct o'.
  - change (-1 <? 0) with true. cbv iota.
    destruct (next_is_zero_yes o' (0 :: rest)) as [E1 Hp1]; [lia|done|].
    rewrite (bind_Some _ _ _ _ _ E1). cbv iota.
    destruct (next_is_zero_yes (set_bp (bp o' + 1) o') rest ltac:(simpl; lia) Hp1) as [E2 _].
    rewrite (bind_Some _ _ _ _ _ E2). cbv iota.
    erewrite (bind_Some stack_pop) by (by eapply stack_pop_run).
    eexists. split; [reflexivity|]. specialize (Hfin 2). simpl in *.
    by rewrite <- Z.add_assoc.
Qed.

(** ** A constructed value that is absent *)

Lemma not_here_frame o o' c t :
  not_here o c t -> error o' = error o -> stack o' = stack o -> bp o' = bp o -> buf o' = buf o ->
  not_here o' c t.
Proof.
  intros (Hs & Hc) E1 E2 E3 E4. split; [by rewrite E2|].
  assert (bp_ptr o' = bp_ptr o) as Ep by (unfold bp_ptr; by rewrite E3, E4).
  destruct Hc as [Hno|[Hm Hb]]; [left; by eapply constructed_more_frame|right].
  split; [|by rewrite Ep]. unfold more_at in *. by rewrite E2, E3, Ep.
Qed.

Lemma constructed_begin_absent {A} o (p : option A) zclass tag name c t :
  in_force o zclass tag = (c, t) -> dec_ready o -> not_here o c t ->
  exists o', odr_constructed_begin p zclass tag name o = Some ((0, None), o') /\ skipped o o'.
Proof.
  intros Hf Hr Hn.
  destruct (default_tag_spec (set_lenlen 1 o) zclass tag c t Hf) as (o1 & E1 & H1).
  assert (dec_ready o1 /\ not_here o1 c t) as [Hr1 Hn1].
  { split; [by destruct H1 as [-> | ->]; destruct Hr; split|].
    by eapply not_here_frame; [exact Hn|destruct H1 as [-> | ->]..]. }
  destruct (ber_tag_not_here o1 p c t 1 1 name ltac:(done) Hr1 Hn1) as (o2 & E2 & [F C B R]).
  exists o2. split.
  - unfold odr_constructed_begin. mrun. rewrite (dr_error _ Hr). mrun.
    rewrite (bind_Some _ _ _ _ _ E1). mrun. by rewrite (bind_Some _ _ _ _ _ E2).
  - destruct H1 as [-> | ->]; by split.
Qed.

(** ** The stack is bounded *)

Definition stk (o : odr) : list odr_constack * Z * Z := (stack o, stack_alloc o, stack_depth o).

(** Number of open values, of allocated entries, and the counter. *)
Definition lens (o : odr) : Z * Z * Z := (zlen (stack o), stack_alloc o, stack_depth o).

(** The depth counter is right and within the limit, and so is the chain of
    allocated entries. *)
Definition stack_ok (o : odr) : Prop :=
  stack_depth o = zlen (stack o) /\ zlen (stack o) <= stack_alloc o <= ODR_MAX_STACK.

Section stack_kept.

Lemma keeps_seterror e i : keeps stk (odr_seterror e i).
Proof. unfold odr_seterror. keep. Qed.

Lemma keeps_setelement n : keeps stk (odr_setelement n).
Proof. unfold odr_setelement. keep. Qed.

Lemma keeps_grow n : keeps stk (odr_grow_block n).
Proof.
  unfold odr_grow_block. apply keeps_update. intros o a o'.
  destruct (negb _); [by intros [= _ <-]|]. cbv zeta.
  destruct (_ <? size o + _); [done|]. by intros [= _ <-].
Qed.
Hint Resolve keeps_seterror keeps_setelement keeps_grow : keeps.

Lemma keeps_put_at_pos c : keeps stk (put_at_pos c).
Proof.
  unfold put_at_pos. apply keeps_update. intros o a o'.
  unfold bind, lift, put. destruct (splice _ _ _); [|done]. by intros [= _ <-].
Qed.

Lemma keeps_raise_top : keeps stk raise_top.
Proof. unfold raise_top. apply keeps_modify. intros o. by destruct (_ <? _). Qed.
Hint Resolve keeps_put_at_pos keeps_raise_top : keeps.

Lemma keeps_putc c : keeps stk (odr_putc c).
Proof. unfold odr_putc. keep. Qed.

Lemma keeps_write bs n : keeps stk (odr_write bs n).
Proof.
  unfold odr_write. apply keeps_bind; [keep|]. intros o0. destruct (_ || _); [keep|].
  apply keeps_bind; [keep|]. intros g. destruct (negb _); [keep|].
  apply keeps_update. intros o a o'.
  unfold bind at 1, lift. destruct (sub _ _ _) as [src|]; [|done].
  unfold bind at 1. destruct (splice _ _ _) as [b|]; [|done].
  unfold bind, put, raise_top, modify, ret. intros [= _ <-]. by destruct (_ <? _).
Qed.

Lemma keeps_seek w n : keeps stk (odr_seek w n).
Proof. unfold odr_seek. keep. Qed.
Hint Resolve keeps_putc keeps_write keeps_seek : keeps.

Lemma keeps_base128_put ds : keeps stk (base128_put ds).
Proof. induction ds; simpl; keep. Qed.
Hint Resolve keeps_base128_put : keeps.

Lemma keeps_enctag c t k : keeps stk (ber_enctag c t k).
Proof. unfold ber_enctag. keep. Qed.

Lemma keeps_more : keeps stk odr_constructed_more.
Proof. unfold odr_constructed_more, at_eoc, at_bp. keep. Qed.
Hint Resolve keeps_enctag keeps_more : keeps.

Lemma keeps_tag {A} (p : option A) c t k opt name : keeps stk (ber_tag p c t k opt name).
Proof. unfold ber_tag, ber_tag_enter, tag_missing, ber_tag_peek. keep. Qed.

Lemma keeps_default_tag c t : keeps stk (default_tag c t).
Proof. unfold default_tag. keep. Qed.

Lemma keeps_prname n : keeps stk (odr_prname n).
Proof. unfold odr_prname, odr_printf. keep. Qed.
Hint Resolve keeps_tag keeps_default_tag keeps_prname : keeps.

Lemma keeps_len_octs_put bs : keeps stk (put_all bs).
Proof. induction bs; simpl; keep. Qed.
Hint Resolve keeps_len_octs_put : keeps.

Lemma keeps_enclen l ll e : keeps stk (ber_enclen l ll e).
Proof. unfold ber_enclen. keep. Qed.
Hint Resolve keeps_enclen : keeps.

Lemma keeps_lens {A} (m : ODR A) : keeps stk m -> keeps lens m.
Proof. intros H o a o' E. specialize (H _ _ _ E). unfold stk, lens in *. congruence. Qed.
Hint Resolve keeps_lens : keeps.

Lemma set_entry_lens f : keeps lens (set_entry f).
Proof.
  unfold set_entry. apply keeps_update. intros o a o'.
  destruct (stack o) as [|c st] eqn:E; [done|]. intros [= _ <-].
  unfold lens. simpl. by rewrite E, !zlen_cons.
Qed.
Hint Resolve set_entry_lens : keeps.

(** [m] keeps the stack as it is, or gives up after popping an entry. *)
Definition keeps_or_pops (m : ODR bool) : Prop :=
  forall o b o', m o = Some (b, o') ->
  lens o' = if b then lens o else (zlen (stack o) - 1, stack_alloc o, stack_depth o - 1).

Lemma kop_bind {A} (m : ODR A) k :
  keeps lens m -> (forall a, keeps_or_pops (k a)) -> keeps_or_pops (bind m k).
Proof.
  intros Hm Hk o b o' (a & o1 & E1 & E2)%bind_inv.
  rewrite (Hk _ _ _ _ E2). specialize (Hm _ _ _ E1). unfold lens in *.
  destruct b; [done|]. congruence.
Qed.

Lemma kop_true : keeps_or_pops (ret true).
Proof. by intros o b o' [= <- <-]. Qed.

Lemma kop_pop : keeps_or_pops (stack_pop ;; ret false).
Proof.
  intros o b o' (u & o1 & E & [= <- <-])%bind_inv.
  unfold stack_pop, bind, get, put in E. unfold lens.
  destruct (stack o) as [|c st] eqn:Es; [done|]. injection E as _ <-. simpl.
  rewrite zlen_cons. do 2 f_equal. lia.
Qed.

Lemma constructed_length_lens ll name : keeps_or_pops (constructed_length ll name).
Proof.
  unfold constructed_length. 
  repeat first [ apply kop_true | apply kop_pop
    | apply kop_bind; [by auto with keeps|intros]
    | apply kop_bind; [unfold odr_printf; apply keeps_modify; done|intros]
    | match goal with |- keeps_or_pops (if ?x then _ else _) => destruct x
      | |- keeps_or_pops (match ?x with _ => _ end) => destruct x end ].
Qed.

(** [m] keeps the stack as it is or pops one entry. *)
Definition pops_at_most {A} (m : ODR A) : Prop :=
  forall o a o', m o = Some (a, o') ->
  lens o' = lens o \/
  (stack o <> [] /\ lens o' = (zlen (stack o) - 1, stack_alloc o, stack_depth o - 1)).

Lemma pam_keeps {A} (m : ODR A) : keeps lens m -> pops_at_most m.
Proof. intros H o a o' E. left. by eapply H. Qed.

Lemma pam_bind {A B} (m : ODR A) (k : A -> ODR B) :
  keeps stk m -> (forall a, pops_at_most (k a)) -> pops_at_most (bind m k).
Proof.
  intros Hm Hk o b o' (a & o1 & E1 & E2)%bind_inv. specialize (Hm _ _ _ E1).
  unfold stk in Hm. injection Hm as H1 H2 H3. specialize (Hk _ _ _ _ E2).
  unfold lens in *. by rewrite H1, H2, H3 in Hk.
Qed.

Lemma pam_pop {B} (k : ODR B) : keeps lens k -> pops_at_most (stack_pop ;; k).
Proof.
  intros Hk o b o' (a & o1 & E1 & E2)%bind_inv. right. rewrite (Hk _ _ _ E2).
  unfold stack_pop, bind, get, put in E1. unfold lens.
  destruct (stack o) as [|c st] eqn:Es; [done|]. split; [done|]. injection E1 as _ <-. simpl.
  rewrite zlen_cons. do 2 f_equal. lia.
Qed.

Lemma constructed_end_pops : pops_at_most odr_constructed_end.
Proof.
  unfold odr_constructed_end, next_is_zero, at_bp.
  repeat first [ apply pam_pop; unfold odr_printf; by keep
    | apply pam_keeps, keeps_lens; by keep
    | apply pam_bind; [by keep|intros]
    | match goal with
      | |- pops_at_most (if ?x then _ else _) => destruct x
      | |- pops_at_most (match ?x with _ => _ end) => destruct x end ].
Qed.
End stack_kept.

Lemma stack_ok_lens o o' : lens o' = lens o -> stack_ok o -> stack_ok o'.
Proof. unfold lens, stack_ok. intros [= -> -> ->]. done. Qed.

(** Whatever happens in [odr_constructed_begin], the stack stays within its
    bounds. *)
Lemma constructed_begin_stack {A} (p : option A) zclass tag name o r o' :
  stack_ok o -> odr_constructed_begin p zclass tag name o = Some (r, o') -> stack_ok o'.
Proof.
  intros Hok. unfold odr_constructed_begin. mrun.
  destruct (negb _); [by intros [= _ <-]|]. mrun.
  intros ([c t] & o1 & E1%keeps_default_tag & H)%bind_inv.
  apply bind_inv in H as ([[res cn] p'] & o2 & E2%keeps_tag & H).
  assert (stack_ok o2) as Hok2.
  { eapply stack_ok_lens, Hok. unfold stk, lens in *. simpl in *. congruence. }
  clear E1 E2 Hok.
  destruct (res <? 0); [by injection H as _ <-|].
  destruct (_ || _); [by injection H as _ <-|].
  apply bind_inv in H as (b & o3 & E3 & H).
  destruct Hok2 as [Hd Hm].
  assert (stack_ok o3 /\ (b = true -> zlen (stack o3) < stack_alloc o3)) as [Hok3 Hroom].
  { unfold stack_entry, bind, get, ret, modify in E3. unfold stack_ok, ODR_MAX_STACK in *.
    destruct (stack o2) as [|e st] eqn:Es.
    - destruct (Z.eqb_spec (stack_alloc o2) 0); injection E3 as <- <-; simpl;
        rewrite Es; zl.
    - ztest_in E3; injection E3 as <- <-; simpl; rewrite Es; (split; [lia|]); done || lia. }
  destruct b; simpl in H; [|by injection H as _ <-]. specialize (Hroom eq_refl).
  unfold stack_push in H. rewrite bind_modify in H.
  apply bind_inv in H as (ok & o4 & E4%constructed_length_lens & H).
  destruct Hok3 as [Hd3 Hm3]. unfold lens in E4. simpl in E4. rewrite zlen_cons in E4.
  assert (stack_ok o4) as Hok4.
  { unfold stack_ok. destruct ok; injection E4 as -> -> ->; split; lia. }
  destruct ok; simpl in H; [|by injection H as _ <-]. rewrite bind_get in H.
  apply bind_inv in H as (u & o5 & E5%set_entry_lens & H). injection H as _ <-.
  by eapply stack_ok_lens.
Qed.

Lemma constructed_end_stack o r o' :
  stack_ok o -> odr_constructed_end o = Some (r, o') -> stack_ok o'.
Proof.
  intros Hok [E|[Hne E]]%constructed_end_pops; [by eapply stack_ok_lens|].
  destruct Hok as [Hd Hm]. unfold lens in E. injection E as E1 E2 E3.
  unfold stack_ok. rewrite E1, E2, E3. pose proof (zlen_pos _ Hne). lia.
Qed.

(** ** The properties *)

(** Opening and closing constructed values, in any order. *)
Inductive con_op :=
  | Begin (zclass tag : Z) (name : option (list Z)) (present : bool)
  | End_.

Definition con_run1 (a : con_op) : ODR Z :=
  match a with
  | Begin zclass tag name present =>
      let* (r, _) := odr_constructed_begin (if present then Some tt else None) zclass tag name in
      ret r
  | End_ => odr_constructed_end
  end.

Fixpoint con_run (l : list con_op) : ODR unit :=
  match l with
  | [] => ret tt
  | a :: l => con_run1 a ;; con_run l
  end.

(** C37: whatever values are opened and closed on a stream, successfully or
    not, in whatever order and direction, the depth counter is the number of
    open values and never exceeds [ODR_MAX_STACK]. *)
Theorem constructed_stack_bounded (l : list con_op) (o o' : odr) :
  stack_ok o -> con_run l o = Some (tt, o') ->
  stack_depth o' = zlen (stack o') /\ stack_depth o' <= ODR_MAX_STACK.
Proof.
  intros Hok Hrun. assert (stack_ok o') as [Hd Hm]; [|lia].
  revert o Hok Hrun. induction l as [|a l IH]; intros o Hok Hrun.
  - by injection Hrun as <-.
  - apply bind_inv in Hrun as (r & o1 & E1 & E2). apply (IH o1); [|done].
    destruct a as [zclass tag name present|]; simpl in E1.
    + apply bind_inv in E1 as ([r' p'] & o2 & E & [= _ <-]).
      by eapply constructed_begin_stack.
    + by eapply constructed_end_stack.
Qed.

(** A new stream that can grow. *)
Definition new_stream : odr :=
  mkOdr ODR_ENCODE 0 0 [] [] 0 0 0 0 true (-1) 0 (-1) 0 0 0 [] 0 0 true (-1) 1 0 [] (fun _ => 0).

Lemma constructed_stack_bounded_witness :
  exists o', con_run [Begin 0 16 None true; Begin 2 1 None true; End_; End_; End_] new_stream
      = Some (tt, o') /\
    stack_depth o' = zlen (stack o') /\ stack_depth o' <= ODR_MAX_STACK.
Proof.
  destruct (con_run [Begin 0 16 None true; Begin 2 1 None true; End_; End_; End_] new_stream)
    as [[[] o']|] eqn:E; [|exfalso; vm_compute in E; discriminate].
  exists o'. split; [reflexivity|]. eapply constructed_stack_bounded; [|exact E].
  split; [reflexivity|]. unfold ODR_MAX_STACK, zlen. simpl. lia.
Defined.

(** A stream that has [ODR_MAX_STACK] values open and no spare entry
    refuses to open another one: the tag is read or written, but the call
    returns 0 with the error [OSTACK]. *)
Theorem constructed_begin_overflow {A} (o : odr) (v : A) (zclass tag : Z) (name : option (list Z))
    (c t : Z) (tb : list Z) :
  tag_ok c t -> tag_bytes c t 1 tb -> in_force o zclass tag = (c, t) ->
  enc_ready o (zlen tb) -> stack_depth o = ODR_MAX_STACK -> zlen (stack o) = ODR_MAX_STACK ->
  stack_alloc o = ODR_MAX_STACK ->
  exists o', odr_constructed_begin (Some v) zclass tag name o = Some ((0, Some v), o') /\
    error o' = OSTACK /\ stack o' = stack o.
Proof.
  intros [Hc Ht] Htb Hf Hr Hd Hs Ha. pose proof (er_lenlen _ _ Hr) as Hll.
  assert (set_lenlen 1 o = o) as Ho by (clear -Hll; destruct o; simpl in *; by subst).
  destruct (default_tag_spec _ _ _ _ _ Hf) as (o1 & E1 & H1).
  destruct (ber_tag_encode o1 v c t 1 1 name tb 0) as (o2 & E2 & D2);
    [lia|lia|lia|done|eapply enc_ready_tag; [done|by rewrite Z.add_0_r]|lia|].
  pose proof (keeps_tag _ _ _ _ _ _ _ _ _ E2) as K.
  assert (stk o1 = stk o) as K1 by by destruct H1 as [-> | ->]. rewrite K1 in K.
  unfold stk in K. injection K as K2 K3 K4.
  eexists. split.
  - unfold odr_constructed_begin. mrun. rewrite (er_error _ _ Hr). mrun.
    rewrite Ho, (bind_Some _ _ _ _ _ E1), (bind_Some _ _ _ _ _ E2).
    change (1 <? 0) with false. change ((1 =? 0) || (1 =? 0)) with false. cbv iota.
    rewrite (bind_Some _ _ _ false (set_element [] (set_error_id 30 (set_error OSTACK o2))));
      [mrun; reflexivity|].
    unfold stack_entry. mrun. rewrite K2, K3, K4, Hs, Ha, Hd.
    destruct (stack o) eqn:Es; [done|]. reflexivity.
  - by split.
Qed.

(** A stream at the limit. *)
Definition full_stream : odr :=
  mkOdr ODR_ENCODE 0 0 [] [] 0 0 0 0 true (-1) 0 (-1) 0 0 0
    (repeat (mkConstack 0 0 None 0 0 1 []) (Z.to_nat ODR_MAX_STACK)) ODR_MAX_STACK ODR_MAX_STACK
    true (-1) 1 0 [] (fun _ => 0).

Lemma constructed_begin_overflow_witness :
  exists o', odr_constructed_begin (Some tt) ODR_UNIVERSAL ODR_SEQUENCE None full_stream
      = Some ((0, Some tt), o') /\ error o' = OSTACK /\ stack o' = stack full_stream.
Proof.
  apply (constructed_begin_overflow full_stream tt ODR_UNIVERSAL ODR_SEQUENCE None 0 16 [48]);
    [done|done|done| |done|vm_compute; reflexivity|done].
  split; [done|done| |left; discriminate|done|done].
  split; [|split; [done|left; split; [done|vm_compute; discriminate]]].
  split; simpl; done || lia || constructor.
Defined.
