(* ===== verification/OdrSeq.v ===== *)
(** * SEQUENCE, SET and SEQUENCE OF (odr_seq.c, odr_tag.c, yaz-asncomp)

    [odr_sequence_of] encodes an array of elements with any codec, or reads
    elements into an array that grows as they arrive.  Against the interface
    [OdrCodec] of its element type, the codec generated for a SEQUENCE OF or
    SET OF type is an [OdrCodec] again, so the round trip holds at any
    nesting. *)

From stdpp Require Import base list numbers option strings.
From Stdlib Require Import ZArith Lia.
From S2P Require Import Prelude OdrMem BerTag BerLen OdrTag OdrCodec OdrCons.

(** ** odr_seq.c *)

(** [fresh_obj] is the object [odr_malloc(o, size)] returns, if [size] is not 0. *)
Definition seq_begin {A} (utag : Z) (p : option A) (fresh_obj : option A)
    (name : option (list Z)) : ODR (Z * option A) :=
  let* o := get in
  if negb (error o =? 0) then ret (0, p)
  else
    let* (c, t) := default_tag ODR_UNIVERSAL utag in
    let p := if direction o =? ODR_DECODE then None else p in
    let* (r, p) := odr_constructed_begin p c t name in
    if negb (r =? 0) then
      ret (1, if direction o =? ODR_DECODE
              then match fresh_obj with Some v => Some v | None => p end
              else p)
    else ret (0, p).

Definition odr_sequence_begin {A} : option A -> option A -> option (list Z) -> ODR (Z * option A) :=
  seq_begin ODR_SEQUENCE.
Definition odr_set_begin {A} : option A -> option A -> option (list Z) -> ODR (Z * option A) :=
  seq_begin ODR_SET.
Definition odr_sequence_end : ODR Z := odr_constructed_end.
Definition odr_set_end : ODR Z := odr_constructed_end.
Definition odr_sequence_more : ODR Z := odr_constructed_more.

Section sequence_x.
Context {A : Type} (type : Odr_fun A).

(** Double the array [arr] of [size] entries, of which [num] are set, if it is
    outgrown: the test counts bytes of entries, the size entries. *)
Definition seq_room (arr : list (option A)) (num size : Z) : ODR (list (option A) * Z) :=
  if size <=? num * 8 then
    let size := size + (if size =? 0 then 128 else size) in
    if INT_MAX <? size then fault
    else ret (take (Z.to_nat num) arr ++ repeat None (Z.to_nat (size - num)), size)
  else ret (arr, size).

(** The decoding loop.  [arr] is the array [*pp] with its [size] entries, of
    which [num] are set; pointers have 8 bytes.  Signed overflow of the
    counters is undefined.  When the loop ends, the entries past [num] are of
    no interest to anyone. *)
Fixpoint seq_decode (fuel : nat) (arr : list (option A)) (num size : Z)
    : ODR (Z * (list (option A) * Z)) :=
  match fuel with
  | O => fault
  | S fuel =>
      let* more := odr_sequence_more in
      if more =? 0 then ret (1, (take (Z.to_nat num) arr, num))
      else if INT_MAX <? num * 8 then fault
      else
        let* (arr, size) := seq_room arr num size in
        let* slot := lift (rd arr num) in
        let* (r, v) := type slot 0 None in
        let* arr := lift (splice arr num [v]) in
        if r =? 0 then ret (0, (arr, num))
        else seq_decode fuel arr (num + 1) size
  end.

(** [for (i = 0; i < *num; i++)] over the array; [n] iterations are left. *)
Fixpoint seq_each (n : nat) (i : Z) (arr : list (option A)) : ODR (Z * list (option A)) :=
  match n with
  | O => ret (1, arr)
  | S n =>
      let* slot := lift (rd arr i) in
      let* (r, v) := type slot 0 None in
      let* arr := lift (splice arr i [v]) in
      if r =? 0 then ret (0, arr) else seq_each n (i + 1) arr
  end.

Definition odr_sequence_x (pp : option (list (option A))) (num : Z)
    : ODR (Z * (option (list (option A)) * Z)) :=
  let* o := get in
  let* (ok, x) :=
    (if direction o =? ODR_DECODE then
       let* (r, (arr, num)) := seq_decode (S (Z.to_nat (size o))) [] 0 0 in
       ret (r, (Some arr, num))
     else if (direction o =? ODR_ENCODE) || (direction o =? ODR_PRINT) then
       if num <=? 0 then ret (1, (pp, num))
       else
         let* arr := lift pp in
         let* (r, arr) := seq_each (Z.to_nat num) 0 arr in
         ret (r, (Some arr, num))
     else odr_seterror OOTHER 47 ;; ret (0, (pp, num))) in
  if ok =? 0 then ret (0, x)
  else let* r := odr_sequence_end in ret (r, x).

(** [odr_set_of] and [odr_sequence_of] differ in the tag. *)
Definition seq_of (utag : Z) (pp : option (list (option A))) (num : Z)
    (name : option (list Z)) : ODR (Z * (option (list (option A)) * Z)) :=
  let* (r, pp) := seq_begin utag pp None name in
  if r =? 0 then
    let* dir := gets direction in
    ret (0, (pp, if dir =? ODR_DECODE then 0 else num))
  else odr_sequence_x pp num.

Definition odr_set_of := seq_of ODR_SET.
Definition odr_sequence_of := seq_of ODR_SEQUENCE.

(** ** Generated codecs *)

(** [struct { int num; T **elements; }] *)
Record Seqof := mkSeqof { so_num : Z; so_elements : option (list (option A)) }.

End sequence_x.
Arguments Seqof : clear implicits.
Arguments mkSeqof {A}.
Arguments so_num {A}.
Arguments so_elements {A}.

(** [odr_initmember] of odr_tag.c; [fresh_obj] is the new object. *)
Definition odr_initmember {A} (p : option A) (fresh_obj : A) : ODR (Z * option A) :=
  let* o := get in
  if negb (error o =? 0) then ret (0, p)
  else if direction o =? ODR_DECODE then ret (1, Some fresh_obj)
  else match p with
       | None => modify (set_t_class (-1)) ;; ret (0, p)
       | Some _ => ret (1, p)
       end.

(** The C code [asnOf] of yaz-asncomp writes for [SEQUENCE OF] ([utag] is
    [ODR_SEQUENCE]) and [SET OF] ([utag] is [ODR_SET]) types. *)
Definition asnOf {A} (utag : Z) (type : Odr_fun A) : Odr_fun (Seqof A) := fun p opt name =>
  let* o := get in
  let* (ok, p) := odr_initmember p (mkSeqof (fresh_int o) None) in
  if ok =? 0 then let* r := odr_missing opt name in ret (r, p)
  else
    let* s := lift p in
    let* (r, (els, num)) := seq_of type utag (so_elements s) (so_num s) name in
    let p := Some (mkSeqof num els) in
    if negb (r =? 0) then ret (1, p)
    else
      let* dir := gets direction in
      let* r := odr_missing opt name in
      ret (r, if dir =? ODR_DECODE then None else p).

Lemma seq_decode_S {A} (type : Odr_fun A) fuel arr num size :
  seq_decode type (S fuel) arr num size =
    (let* more := odr_sequence_more in
     if more =? 0 then ret (1, (take (Z.to_nat num) arr, num))
     else if INT_MAX <? num * 8 then fault
     else
       let* (arr, size) := seq_room arr num size in
       let* slot := lift (rd arr num) in
       let* (r, v) := type slot 0 None in
       let* arr := lift (splice arr num [v]) in
       if r =? 0 then ret (0, (arr, num)) else seq_decode type fuel arr (num + 1) size).
Proof. done. Qed.

#[global] Arguments odr_constructed_begin : simpl never.
#[global] Arguments odr_constructed_end : simpl never.
#[global] Arguments seq_decode : simpl never.
#[global] Arguments seq_each : simpl never.

(** ** Elements one after the other *)

Section elements.
Context {A : Type} (type : Odr_fun A) `{C : !OdrCodec type}.

(** The encodings of elements under their own tag. *)
Definition element_bytes (v : A) (bs : list Z) : Prop :=
  cd_ok v /\ cd_bytes cd_class cd_tag v bs.

Lemma in_force_own o zclass tag : t_class o = -1 -> in_force o zclass tag = (zclass, tag).
Proof. intros H. unfold in_force. by rewrite H. Qed.

Lemma encoded_refl o : t_class o = -1 -> pos o = top o -> buf_ok o -> encoded o o [].
Proof. intros. split; [done|done|zl|done|lia|by rewrite app_nil_r|done]. Qed.

Lemma depth_ok_enc o o1 bs d : encoded o o1 bs -> depth_ok o d -> depth_ok o1 d.
Proof.
  intros [F _ _ _ _ _ _] [Hd Hm].
  assert (stack_depth o1 = stack_depth o) as E by exact (f_equal stack_depth F).
  assert (stack o1 = stack o) as E' by exact (f_equal stack F).
  split; [by rewrite E, E'|by rewrite E].
Qed.

Lemma rd_done {B} (xs ys : list B) y : rd (xs ++ y :: ys) (zlen xs) = Some y.
Proof. rewrite <- (Z.add_0_r (zlen xs)). by rewrite rd_app_r. Qed.

Lemma splice_done {B} (xs ys : list B) y z :
  splice (xs ++ y :: ys) (zlen xs) [z] = Some (xs ++ z :: ys).
Proof.
  pose proof (zlen_nonneg xs). pose proof (zlen_nonneg ys).
  rewrite splice_spec by zl. unfold zlen. rewrite Nat2Z.id, take_app_length.
  replace (drop (length xs + length [z]) (xs ++ y :: ys)) with ys; [done|].
  by rewrite drop_app_add.
Qed.

Lemma seq_each_encode todo bss : Forall2 element_bytes todo bss -> forall done_ o,
  t_class o = -1 -> stack o <> [] -> enc_ready o (zlen (concat bss)) -> depth_ok o cd_depth ->
  exists o', seq_each type (length todo) (zlen done_) (done_ ++ map Some todo) o
      = Some ((1, done_ ++ map Some todo), o') /\ encoded o o' (concat bss).
Proof.
  induction 1 as [|v bs todo bss [Hv Hbs] _ IH]; intros done_ o Hc Hs Hr Hd.
  - exists o. split; [done|]. destruct (er_end _ _ Hr) as (? & ? & _). by apply encoded_refl.
  - simpl concat in *. rewrite zlen_app in Hr.
    pose proof (zlen_nonneg bs). pose proof (zlen_nonneg (concat bss)).
    destruct (cd_encode cd_class cd_tag v bs 0 None o) as (o1 & E1 & D1);
      [apply cd_own_tag|done|done|by apply in_force_own|eapply enc_ready_mono; [exact Hr|lia]|done|].
    destruct (IH (done_ ++ [Some v]) o1) as (o2 & E2 & D2).
    + apply D1.
    + rewrite (f_equal stack (ed_frame _ _ _ D1) : stack o1 = stack o). done.
    + by eapply enc_ready_next.
    + by eapply depth_ok_enc.
    + exists o2. split; [|by eapply encoded_trans].
      simpl length. simpl map. unfold seq_each; fold @seq_each.
      rewrite rd_done. mrun. rewrite (bind_Some _ _ _ _ _ E1). mrun.
      rewrite splice_done. mrun. change (1 =? 0) with false. cbv iota.
      rewrite zlen_app, <- app_assoc in E2. exact E2.
Qed.

Lemma element_head v bs : element_bytes v bs -> exists b l, bs = b :: l /\ b <> 0.
Proof.
  intros [Hv Hbs]. pose proof (cd_own_tag (f := type)) as Htag.
  destruct (cd_shape _ _ _ _ Htag Hv Hbs) as (_ & _ & tb & k & cb & Htb & Hk & ->).
  destruct Htag as [Hc Ht].
  apply tag_bytes_head in Htb as (b & l & -> & Hb); [|lia..]. by exists b, (l ++ cb).
Qed.

(** Room for one more entry: what the growth step leaves. *)
Lemma seq_room_spec (arr : list (option A)) num size o :
  0 <= num < 2 ^ 27 -> num <= size -> zlen arr = size ->
  exists arr' x size',
    seq_room arr num size o = Some ((take (Z.to_nat num) arr ++ x :: arr', size'), o) /\
    num + 1 + zlen arr' = size'.
Proof.
  intros Hn Hs Ha. unfold seq_room. cbv zeta. unfold zlen in Ha.
  assert (forall l : list (option A), l <> [] -> exists x l', l = x :: l') as Hcons
    by (intros [|x l]; [done|eauto]).
  destruct (Z.leb_spec size (num * 8)).
  - set (sz := size + _).
    assert (num < sz /\ sz <= INT_MAX) as [H1 H2].
    { subst sz. unfold INT_MAX. destruct (Z.eqb_spec size 0); lia. }
    rewrite (proj2 (Z.ltb_ge _ _)) by lia.
    destruct (Hcons (repeat None (Z.to_nat (sz - num)))) as (x & l & E).
    { destruct (Z.to_nat (sz - num)) eqn:E; [lia|done]. }
    exists l, x, sz. rewrite E. split; [done|].
    apply (f_equal zlen) in E. rewrite zlen_repeat, zlen_cons in E. lia.
  - destruct (Hcons (drop (Z.to_nat num) arr)) as (x & l & E).
    { intros E. apply (f_equal length) in E. rewrite length_drop in E. simpl in E. lia. }
    exists l, x, size. rewrite <- E, take_drop. split; [done|].
    apply (f_equal length) in E. rewrite length_drop in E. simpl in E. unfold zlen. lia.
Qed.

(** One member of an opened value, at offset [k] of the contents. *)
Lemma member_decode o0 o1 n cb tl rest k o v bs more_ p opt name :
  opened_dec o0 o1 n cb tl rest -> depth_ok o1 cd_depth -> element_bytes v bs ->
  decoded o1 o k -> 0 <= k -> zlen cb = k + zlen bs + zlen more_ ->
  bp_ptr o = bs ++ more_ ++ tl ++ rest ->
  odr_constructed_more o = Some (1, o) /\
  exists o2, type p opt name o = Some ((1, Some v), o2) /\ decoded o1 o2 (k + zlen bs) /\
    bp_ptr o2 = more_ ++ tl ++ rest.
Proof.
  intros Hop Hdep Hel D Hk Hcb Hp. pose proof (zlen_nonneg bs). pose proof (zlen_nonneg more_).
  pose proof (od_ready _ _ _ _ _ _ Hop) as Hr1.
  pose proof (bp_ptr_zlen _ Hr1) as Hmax.
  rewrite (od_ptr _ _ _ _ _ _ Hop), !zlen_app in Hmax.
  pose proof (zlen_nonneg tl). pose proof (zlen_nonneg rest).
  assert (dec_ready o) as Hr by (eapply decoded_ready; [exact Hr1|exact D|lia]).
  destruct (element_head v bs Hel) as (b & l & Ebs & Hb).
  destruct (decoded_buf _ _ _ D) as (_ & _ & Hst).
  assert (more_at o) as Hm.
  { eapply (opened_more _ _ _ _ _ _ o k b); [done|done|apply D| |by rewrite Hp, Ebs|done].
    subst bs. rewrite zlen_cons in Hcb. pose proof (zlen_nonneg l). lia. }
  assert (stack o <> []) as Hne.
  { rewrite Hst. destruct (od_entry _ _ _ _ _ _ Hop) as (? & ? & -> & _). done. }
  split; [by apply odr_constructed_more_yes|].
  destruct Hel as [Hv Hbs].
  destruct (cd_decode cd_class cd_tag v bs (more_ ++ tl ++ rest) p opt name o) as (o2 & E2 & D2);
    [apply cd_own_tag|done|done|apply in_force_own, D|done..|by eapply depth_ok_dec|].
  exists o2. split; [done|]. split; [by eapply decoded_trans|].
  rewrite (decoded_ptr _ _ _ Hr D2), Hp by lia. unfold zlen.
  by rewrite Nat2Z.id, drop_app_length.
Qed.

Lemma seq_decode_members o0 o1 n cb tl rest :
  opened_dec o0 o1 n cb tl rest -> depth_ok o1 cd_depth ->
  forall todo bss, Forall2 element_bytes todo bss -> forall done_ junk_ fuel k o,
  decoded o1 o k -> zlen cb = k + zlen (concat bss) -> 0 <= k ->
  bp_ptr o = concat bss ++ tl ++ rest ->
  (length todo < fuel)%nat -> zlen done_ + zlen todo <= 2 ^ 27 ->
  exists o', seq_decode type fuel (map Some done_ ++ junk_) (zlen done_) (zlen done_ + zlen junk_) o
      = Some ((1, (map Some (done_ ++ todo), zlen (done_ ++ todo))), o') /\
    decoded o1 o' (zlen cb).
Proof.
  intros Hop Hdep. induction 1 as [|v bs todo bss Hel _ IH];
    intros done_ junk_ fuel k o D Hcb Hk Hp Hfuel Hmax;
    (destruct fuel as [|fuel]; [simpl in *; lia|]);
    rewrite seq_decode_S; unfold odr_sequence_more.
  - simpl in Hcb. change (zlen []) with 0 in Hcb. rewrite Z.add_0_r in Hcb. subst k.
    rewrite (bind_Some _ _ _ _ _ (opened_done _ _ _ _ _ _ _ Hop D)).
    change (0 =? 0) with true. cbv iota. exists o. split; [|done]. rewrite app_nil_r.
    unfold ret, zlen. rewrite Nat2Z.id, take_app_length'; [done|]. by rewrite length_map.
  - simpl concat in *. rewrite <- app_assoc in Hp. rewrite zlen_app in Hcb.
    pose proof (zlen_nonneg done_). pose proof (zlen_nonneg todo). pose proof (zlen_nonneg junk_).
    pose proof (zlen_nonneg bs). rewrite zlen_cons in Hmax.
    destruct (member_decode o0 o1 n cb tl rest k o v bs (concat bss) None 0 None) as (Em & _);
      [done..|lia|done|].
    rewrite (bind_Some _ _ _ _ _ Em). change (1 =? 0) with false. cbv iota.
    unfold INT_MAX at 1. rewrite (proj2 (Z.ltb_ge _ (zlen done_ * 8))) by lia.
    destruct (seq_room_spec (map Some done_ ++ junk_) (zlen done_) (zlen done_ + zlen junk_) o)
      as (arr & x & sz & Er & Hsz); [lia|lia|unfold zlen; rewrite length_app, length_map; lia|].
    rewrite (bind_Some _ _ _ _ _ Er). clear Er.
    replace (take (Z.to_nat (zlen done_)) (map Some done_ ++ junk_)) with (map Some done_)
      by (unfold zlen; rewrite Nat2Z.id, take_app_length'; [done|by rewrite length_map]).
    cbv beta iota.
    assert (zlen (map Some done_) = zlen done_) as Hz by (unfold zlen; by rewrite length_map).
    rewrite <- Hz, rd_done. mrun.
    destruct (member_decode o0 o1 n cb tl rest k o v bs (concat bss) x 0 None)
      as (_ & o2 & E2 & D2 & Hp2); [done..|lia|done|].
    rewrite (bind_Some _ _ _ _ _ E2). mrun. rewrite splice_done. mrun.
    destruct (IH (done_ ++ [v]) arr fuel (k + zlen bs) o2) as (o' & E & D');
      [done|lia|lia|done|simpl in *; lia|zl|].
    exists o'. split; [|done]. rewrite Hz.
    rewrite map_app, <- !app_assoc in E. simpl in E.
    rewrite zlen_app in E. change (zlen [v]) with 1 in E.
    replace (zlen done_ + 1 + zlen arr) with sz in E by lia. exact E.
Qed.
End elements.

(** ** Opening a SEQUENCE or SET *)

Lemma default_tag_force o zclass tag c t :
  0 <= c -> in_force o zclass tag = (c, t) ->
  exists o', default_tag zclass tag o = Some ((c, t), o') /\ in_force o' c t = (c, t) /\
    (o' = o \/ o' = set_t_tag tag (set_t_class zclass o)).
Proof.
  unfold in_force, default_tag, bind, get, gets, modify, ret. intros Hc.
  destruct (Z.ltb_spec (t_class o) 0) as [Hl|Hl]; simpl; intros [= <- <-].
  - eexists. split; [reflexivity|]. simpl. rewrite (proj2 (Z.ltb_ge _ _)) by lia. eauto.
  - exists o. rewrite (proj2 (Z.ltb_ge _ _)) by lia. eauto.
Qed.

Section begin.
Context {A : Type} (utag : Z) (fresh_obj : option A) (name : option (list Z)).

Lemma seq_begin_encode o (v : A) c t tb n :
  tag_ok c t -> tag_bytes c t 1 tb -> in_force o ODR_UNIVERSAL utag = (c, t) ->
  enc_ready o (zlen tb + 1 + n) -> 0 <= n -> depth_ok o 1 ->
  exists o1, seq_begin utag (Some v) fresh_obj name o = Some ((1, Some v), o1) /\
    opened o o1 tb.
Proof.
  intros Htag Htb Hf Hr Hn Hd.
  destruct (default_tag_force _ _ _ _ _ (tag_ok_class _ _ Htag) Hf) as (o0 & E0 & Hf0 & H0).
  destruct (constructed_begin_encode o0 v c t name c t tb n) as (o1 & E1 & Hop);
    [done|done|done|by eapply enc_ready_tag|done|by destruct H0 as [-> | ->]|].
  exists o1. split.
  - unfold seq_begin. mrun. rewrite (er_error _ _ Hr). mrun.
    rewrite (bind_Some _ _ _ _ _ E0), (er_dir _ _ Hr). mrun.
    by rewrite (bind_Some _ _ _ _ _ E1).
  - destruct H0 as [-> | ->]; [done|]. by destruct Hop.
Qed.

Lemma seq_begin_decode o p c t tb cb fb rest :
  tag_ok c t -> tag_bytes c t 1 tb -> in_force o ODR_UNIVERSAL utag = (c, t) ->
  con_form cb fb -> dec_ready o -> more_at o -> bp_ptr o = tb ++ fb ++ rest ->
  depth_ok o 1 ->
  exists o1 n tl, seq_begin utag p fresh_obj name o = Some ((1, fresh_obj), o1) /\
    opened_dec o o1 n cb tl rest /\ zlen (tb ++ fb) = n + zlen cb + zlen tl.
Proof.
  intros Htag Htb Hf Hcf Hr Hm Hp Hd.
  destruct (default_tag_force _ _ _ _ _ (tag_ok_class _ _ Htag) Hf) as (o0 & E0 & Hf0 & H0).
  destruct (dec_ready_tag _ _ _ _ H0 Hr Hm) as (Hr0 & Hm0 & Hp0).
  destruct (constructed_begin_decode (A := A) o0 None c t name c t tb cb fb rest)
    as (o1 & n & tl & E1 & Hop & Hz);
    [done..|by rewrite Hp0|by destruct H0 as [-> | ->]|].
  exists o1, n, tl. split; [|split; [|done]].
  - unfold seq_begin. mrun. rewrite (dr_error _ Hr). mrun.
    rewrite (bind_Some _ _ _ _ _ E0), (dr_dir _ Hr). mrun.
    rewrite (bind_Some _ _ _ _ _ E1). by destruct fresh_obj.
  - destruct H0 as [-> | ->]; [done|]. by destruct Hop.
Qed.

Lemma seq_begin_absent o p c t :
  in_force o ODR_UNIVERSAL utag = (c, t) -> tag_ok c t -> dec_ready o -> not_here o c t ->
  exists o', seq_begin utag p fresh_obj name o = Some ((0, None), o') /\ skipped o o'.
Proof.
  intros Hf Htag Hr Hn.
  destruct (default_tag_force _ _ _ _ _ (tag_ok_class _ _ Htag) Hf) as (o0 & E0 & Hf0 & H0).
  destruct (constructed_begin_absent (A := A) o0 None c t name c t) as (o1 & E1 & [F C B R]).
  { done. } { by destruct H0 as [-> | ->]; destruct Hr; split. }
  { by eapply not_here_frame; [exact Hn|destruct H0 as [-> | ->]..]. }
  exists o1. split.
  - unfold seq_begin. mrun. rewrite (dr_error _ Hr). mrun.
    rewrite (bind_Some _ _ _ _ _ E0), (dr_dir _ Hr). mrun.
    by rewrite (bind_Some _ _ _ _ _ E1).
  - destruct H0 as [-> | ->]; by split.
Qed.
End begin.

(** ** SEQUENCE OF is a codec *)

Section seqof.
Context {A : Type} (utag : Z) (type : Odr_fun A) `{C : !OdrCodec type}.
Context (Hutag : tag_ok ODR_UNIVERSAL utag).

(** An array of elements that can be sent; the counters of the decoder do not
    overflow up to 2^27 of them. *)
Definition seqof (vs : list A) : Seqof A := mkSeqof (zlen vs) (Some (map Some vs)).

Definition seqof_ok (s : Seqof A) : Prop :=
  exists vs, s = seqof vs /\ Forall cd_ok vs /\ zlen vs <= 2 ^ 27.

Definition seqof_bytes (c t : Z) (s : Seqof A) (bs : list Z) : Prop :=
  exists vs bss tb, s = seqof vs /\ tag_bytes c t 1 tb /\
    Forall2 (element_bytes type) vs bss /\ bs = tb ++ con_bytes (concat bss).

Lemma elements_total vs : Forall cd_ok vs -> exists bss, Forall2 (element_bytes type) vs bss.
Proof.
  induction 1 as [|v vs Hv _ [bss IH]]; [by exists []|].
  destruct (cd_total cd_class cd_tag v cd_own_tag Hv) as [bs Hbs].
  exists (bs :: bss). by constructor.
Qed.

Lemma elements_bytes vs bss :
  Forall2 (element_bytes type) vs bss -> bytes_ok (concat bss) /\ zlen vs <= zlen (concat bss).
Proof.
  induction 1 as [|v bs vs bss [Hv Hbs] _ [IH1 IH2]]; [split; [constructor|done]|].
  destruct (cd_shape _ _ _ _ cd_own_tag Hv Hbs) as (Hb & Hl & _).
  simpl. split; [by apply Forall_app|]. rewrite zlen_cons, zlen_app. lia.
Qed.

Lemma seq_of_encode vs bss o c t tb name :
  tag_ok c t -> tag_bytes c t 1 tb -> in_force o ODR_UNIVERSAL utag = (c, t) ->
  Forall2 (element_bytes type) vs bss ->
  enc_ready o (zlen (tb ++ con_bytes (concat bss))) -> depth_ok o (cd_depth + 1) ->
  exists o', seq_of type utag (Some (map Some vs)) (zlen vs) name o
      = Some ((1, (Some (map Some vs), zlen vs)), o') /\
    encoded o o' (tb ++ con_bytes (concat bss)).
Proof.
  intros Htag Htb Hf Hel Hr Hd. set (cb := concat bss) in *.
  pose proof (con_bytes_zlen cb). pose proof (zlen_nonneg cb). pose proof (zlen_nonneg vs).
  pose proof (cd_depth_nonneg (f := type)) as Hcd.
  assert (enc_ready o (zlen tb + 1 + zlen cb)) as Hr'.
  { eapply enc_ready_mono; [exact Hr|]. rewrite zlen_app. pose proof (zlen_nonneg tb). lia. }
  destruct (seq_begin_encode utag None name o (map Some vs) c t tb (zlen cb))
    as (o1 & E1 & Hop); [done..|eapply depth_ok_mono; [exact Hd|lia]|].
  destruct (seq_each_encode type vs bss Hel [] o1) as (o2 & E2 & D2).
  { apply Hop. } { destruct (op_entry _ _ _ Hop) as (? & -> & _). done. }
  { by eapply opened_ready. } { by eapply opened_depth. }
  destruct (constructed_end_encode o o1 o2 tb cb Hop D2 Hr) as (o3 & E3 & D3).
  exists o3. split; [|done]. unfold seq_of. rewrite (bind_Some _ _ _ _ _ E1).
  change (1 =? 0) with false. cbv iota. unfold odr_sequence_x. mrun.
  assert (direction o1 = ODR_ENCODE) as ->.
  { rewrite <- (er_dir _ _ Hr). exact (f_equal direction (op_frame _ _ _ Hop)). }
  mrun. simpl orb. cbv iota. simpl app in E2. change (zlen []) with 0 in E2.
  unfold odr_sequence_end. destruct (Z.leb_spec (zlen vs) 0).
  - destruct vs as [|v' vs']; [|pose proof (zlen_nonneg vs'); zl]. simpl in E2. injection E2 as <-. mrun.
    change (1 =? 0) with false. cbv iota. by rewrite (bind_Some _ _ _ _ _ E3).
  - rewrite bind_assoc. mrun. rewrite bind_assoc. unfold zlen at 1. rewrite Nat2Z.id.
    rewrite (bind_Some _ _ _ _ _ E2). mrun. change (1 =? 0) with false. cbv iota.
    by rewrite (bind_Some _ _ _ _ _ E3).
Qed.

Lemma seq_of_decode vs bss o c t tb fb rest pp num name :
  tag_ok c t -> tag_bytes c t 1 tb -> in_force o ODR_UNIVERSAL utag = (c, t) ->
  Forall2 (element_bytes type) vs bss -> con_form (concat bss) fb -> zlen vs <= 2 ^ 27 ->
  dec_ready o -> more_at o -> bp_ptr o = tb ++ fb ++ rest -> depth_ok o (cd_depth + 1) ->
  exists o', seq_of type utag pp num name o
      = Some ((1, (Some (map Some vs), zlen vs)), o') /\ decoded o o' (zlen (tb ++ fb)).
Proof.
  intros Htag Htb Hf Hel Hcf Hmax Hr Hm Hp Hd. set (cb := concat bss) in *.
  pose proof (cd_depth_nonneg (f := type)) as Hcd. destruct (elements_bytes _ _ Hel) as [_ Hcnt].
  destruct (seq_begin_decode (A := list (option A)) utag None name o pp c t tb cb fb rest)
    as (o1 & n & tl & E1 & Hop & Hz); [done..|eapply depth_ok_mono; [exact Hd|lia]|].
  pose proof (od_ready _ _ _ _ _ _ Hop) as Hr1. pose proof (bp_ptr_zlen _ Hr1) as Hl.
  rewrite (od_ptr _ _ _ _ _ _ Hop), !zlen_app in Hl. unfold odr_max in Hl.
  pose proof (zlen_nonneg tl). pose proof (zlen_nonneg rest). pose proof (dr_bp _ Hr1).
  destruct (seq_decode_members type o o1 n cb tl rest Hop) with (todo := vs) (bss := bss)
    (done_ := @nil A) (junk_ := @nil (option A)) (fuel := S (Z.to_nat (size o1))) (k := 0) (o := o1)
    as (o2 & E2 & D2).
  { by eapply opened_dec_depth. } { done. } { by eapply opened_dec_nil. }
  { by subst cb. } { done. } { apply Hop. }
  { subst cb. unfold zlen in *. lia. } { done. }
  destruct (constructed_end_decode o o1 n cb tl rest o2 Hop D2) as (o3 & E3 & D3).
  rewrite Hz. exists o3. split; [|done]. unfold seq_of. rewrite (bind_Some _ _ _ _ _ E1).
  change (1 =? 0) with false. cbv iota. unfold odr_sequence_x. mrun.
  rewrite (dr_dir _ Hr1). mrun. rewrite bind_assoc.
  rewrite (bind_Some (seq_decode _ _ _ _ _) _ _ _ _ E2). mrun. change (1 =? 0) with false.
  cbv iota. unfold odr_sequence_end. by rewrite (bind_Some _ _ _ _ _ E3).
Qed.

(** The generated wrapper around [seq_of], in the two directions. *)
Lemma asnOf_decode_run p opt name o o' arr num :
  dec_ready o ->
  seq_of type utag None (fresh_int o) name o = Some ((1, (arr, num)), o') ->
  asnOf utag type p opt name o = Some ((1, Some (mkSeqof num arr)), o').
Proof.
  intros Hr E. unfold asnOf. mrun.
  rewrite (bind_Some _ _ o (1, Some (mkSeqof (fresh_int o) None)) o).
  - change (1 =? 0) with false. cbv iota. mrun. simpl so_elements. simpl so_num.
    by rewrite (bind_Some _ _ _ _ _ E).
  - unfold odr_initmember. mrun. rewrite (dr_error _ Hr). mrun.
    rewrite (dr_dir _ Hr). by mrun.
Qed.

#[export] Instance asnOf_codec : OdrCodec (asnOf utag type).
Proof.
  refine {| cd_class := ODR_UNIVERSAL; cd_tag := utag; cd_depth := cd_depth (f := type) + 1;
            cd_ok := seqof_ok; cd_bytes := seqof_bytes; cd_own_tag := Hutag |}.
  - pose proof (cd_depth_nonneg (f := type)). lia.
  - intros c t v [Hc Ht] (vs & -> & Hok & _). destruct (elements_total vs Hok) as [bss Hel].
    destruct (tag_bytes_total c t 1) as [tb Htb]; [lia|].
    eexists. by exists vs, bss, tb.
  - intros c t v bs [Hc Ht] _ (vs & bss & tb & -> & Htb & Hel & ->).
    destruct (elements_bytes _ _ Hel) as [Hb _].
    pose proof (con_bytes_zlen (concat bss)). pose proof (tag_bytes_nonempty _ _ _ _ Htb).
    pose proof (zlen_nonneg (concat bss)). split; [|split].
    + apply Forall_app. split; [eapply tag_bytes_bytes; [..|exact Htb]; lia|by apply con_bytes_ok].
    + rewrite zlen_app. lia.
    + exists tb, 1, (con_bytes (concat bss)). split; [done|]. split; [lia|done].
  - intros c t v bs opt name o Htag _ (vs & bss & tb & -> & Htb & Hel & ->) Hf Hr Hd.
    destruct (seq_of_encode vs bss o c t tb name) as (o' & E & D); [done..|].
    exists o'. split; [|done]. unfold asnOf. mrun.
    rewrite (bind_Some _ _ o (1, Some (seqof vs)) o).
    + change (1 =? 0) with false. cbv iota. mrun. unfold seqof. simpl so_elements. simpl so_num.
      by rewrite (bind_Some _ _ _ _ _ E).
    + unfold odr_initmember. mrun. rewrite (er_error _ _ Hr). mrun.
      rewrite (er_dir _ _ Hr). by mrun.
  - intros c t v bs rest p opt name o Htag (vs' & E & _ & Hmax)
      (vs & bss & tb & -> & Htb & Hel & ->) Hf Hr Hm Hp Hd.
    assert (vs' = vs) as ->.
    { injection E as _ E. apply (inj (map Some)) in E. done. }
    rewrite <- app_assoc in Hp.
    destruct (seq_of_decode vs bss o c t tb (con_bytes (concat bss)) rest None (fresh_int o) name)
      as (o' & E' & D); [done|done|done|done|apply con_bytes_form|done..|].
    exists o'. split; [|done]. by apply asnOf_decode_run.
  - intros opt name o Hopt Hr Hs. exists (set_t_class (-1) o). split.
    + unfold asnOf. mrun.
      rewrite (bind_Some _ _ o (0, None) (set_t_class (-1) o)).
      * change (0 =? 0) with true. cbv iota.
        assert (error (set_t_class (-1) o) = 0) as He by apply (er_error _ _ Hr).
        by rewrite (bind_Some _ _ _ _ _ (odr_missing_opt _ _ _ He Hopt)).
      * unfold odr_initmember. mrun. rewrite (er_error _ _ Hr). mrun. rewrite (er_dir _ _ Hr).
        by mrun.
    + destruct (er_end _ _ Hr) as ([] & Hpt & _).
      split; simpl; [done|done|zl|done|lia|by rewrite app_nil_r|by split].
  - intros c t p opt name o Hopt Htag Hf Hr Hn.
    destruct (seq_begin_absent (A := list (option A)) utag None name o None c t)
      as (o' & E & Hsk); [done..|].
    exists o'. split; [|done]. unfold asnOf. mrun.
    rewrite (bind_Some _ _ o (1, Some (mkSeqof (fresh_int o) None)) o).
    + change (1 =? 0) with false. cbv iota. mrun. simpl so_elements. simpl so_num.
      rewrite (bind_Some _ _ o (0, (None, 0)) o').
      * mrun. rewrite (dr_dir _ (sk_ready _ _ Hsk)). mrun.
        by rewrite (bind_Some _ _ _ _ _ (odr_missing_opt _ _ _ (dr_error _ (sk_ready _ _ Hsk)) Hopt)).
      * unfold seq_of. rewrite (bind_Some _ _ _ _ _ E). change (0 =? 0) with true. cbv iota. mrun.
        rewrite (dr_dir _ (sk_ready _ _ Hsk)). by mrun.
    + unfold odr_initmember. mrun. rewrite (dr_error _ Hr). mrun.
      rewrite (dr_dir _ Hr). by mrun.
Defined.
End seqof.
