(* ===== verification/OdrStream.v ===== *)
(** * Whole messages (odr.c)

    The life of a message: an encoding handle is created, a value is encoded,
    the bytes are taken out with [odr_getbuf], given to a decoding handle with
    [odr_setbuf], and decoded.  Every [OdrCodec] gives back the value it was
    given; the theorems say so for the types of the library. *)

From stdpp Require Import base list numbers option strings.
From Stdlib Require Import ZArith Lia.
From S2P Require Import Prelude OdrMem BerTag BerLen OdrTag BerPrim OdrCodec BerOid.
From S2P Require Import OdrPrim OdrOct OdrCons OdrSeq.

(** ** The two ends *)

(** Encode [v] with a new handle: the return value and the bytes produced. *)
Definition odr_send {A} (f : Odr_fun A) (v : A) (j : Z -> Z) : option (Z * list Z) :=
  let? o := odr_createmem ODR_ENCODE j in
  let? (r, _, o) := f (Some v) 0 None o in
  let '(b, n, _) := odr_getbuf o in
  let? bs := sub b 0 n in
  Some (r, bs).

(** Decode a value from the bytes [bs] with a new handle: the return value, the
    value and the number of bytes used. *)
Definition odr_receive {A} (f : Odr_fun A) (bs : list Z) (j : Z -> Z)
    : option (Z * option A * Z) :=
  let? o := odr_createmem ODR_DECODE j in
  let? (_, o) := odr_setbuf bs false o in
  let? (r, v, o) := f None 0 None o in
  Some (r, v, odr_offset o).

#[global] Arguments odr_setbuf : simpl never.
#[global] Arguments odr_createmem : simpl never.

(** ** A new handle is ready *)

Lemma createmem_encode j n :
  0 <= n -> 2 * n <= INT_MAX ->
  exists o, odr_createmem ODR_ENCODE j = Some o /\ enc_ready o n /\ out o = [] /\
    t_class o = -1 /\ stack o = [] /\ stack_depth o = 0 /\ can_grow o = true.
Proof.
  intros Hn Hm. eexists. split; [reflexivity|]. split; [|done].
  split; simpl; [done|done| |by right|done|done].
  split; [|split; [done|left; split; [done|simpl; lia]]].
  split; simpl; done || lia || constructor.
Qed.

Lemma createmem_decode j bs :
  bytes_ok bs ->
  exists o o', odr_createmem ODR_DECODE j = Some o /\ odr_setbuf bs false o = Some (tt, o') /\
    dec_ready o' /\ more_at o' /\ bp_ptr o' = bs /\ bp o' = 0 /\
    t_class o' = -1 /\ stack o' = [] /\ stack_depth o' = 0.
Proof.
  intros Hb. do 2 eexists. split; [reflexivity|]. split; [reflexivity|].
  pose proof (zlen_nonneg bs). split; [|done].
  split; simpl; [done|done|lia|done|done|by left|done].
Qed.

(** ** Every codec gives back what it was given *)

Section codec.
Context {A : Type} (f : Odr_fun A) `{C : !OdrCodec f}.

Lemma codec_send v bs j :
  cd_ok v -> cd_bytes cd_class cd_tag v bs -> 2 * zlen bs <= INT_MAX ->
  cd_depth (f := f) <= ODR_MAX_STACK ->
  odr_send f v j = Some (1, bs).
Proof.
  intros Hv Hbs Hsz Hd. pose proof (zlen_nonneg bs) as Hn.
  destruct (createmem_encode j (zlen bs) Hn Hsz) as (o & E & Hr & Hout & Hc & Hs & Hsd & _).
  destruct (cd_encode cd_class cd_tag v bs 0 None o) as (o' & E' & D);
    [apply cd_own_tag|done|done|by apply in_force_own|done| |].
  { split; [by rewrite Hs, Hsd|lia]. }
  unfold odr_send. rewrite E. simpl. rewrite E'. simpl. unfold odr_getbuf.
  destruct D as [_ _ P T _ O K]. rewrite Hout in O. simpl in O. destruct K.
  rewrite sub_spec by lia. simpl. rewrite drop_0. unfold out in O. by rewrite O.
Qed.

Lemma codec_receive v bs rest j :
  cd_ok v -> cd_bytes cd_class cd_tag v bs -> bytes_ok rest ->
  cd_depth (f := f) <= ODR_MAX_STACK ->
  odr_receive f (bs ++ rest) j = Some (1, Some v, zlen bs).
Proof.
  intros Hv Hbs Hrest Hd.
  destruct (cd_shape cd_class cd_tag v bs cd_own_tag Hv Hbs) as (Hb & _ & _).
  destruct (createmem_decode j (bs ++ rest)) as (o & o1 & E & E1 & Hr & Hm & Hp & Hbp & Hc & Hs & Hsd);
    [by apply Forall_app|].
  destruct (cd_decode cd_class cd_tag v bs rest None 0 None o1) as (o' & E' & D);
    [apply cd_own_tag|done|done|by apply in_force_own|done..| |].
  { split; [by rewrite Hs, Hsd|lia]. }
  unfold odr_receive. rewrite E. cbn [mbind option_bind]. rewrite E1.
  cbn [mbind option_bind]. rewrite E'. cbn [mbind option_bind].
  unfold odr_offset. by rewrite (dd_bp _ _ _ D), Hbp.
Qed.

Lemma codec_roundtrip v :
  cd_ok v -> cd_depth (f := f) <= ODR_MAX_STACK ->
  (forall bs, cd_bytes cd_class cd_tag v bs -> 2 * zlen bs <= INT_MAX) ->
  exists bs, bytes_ok bs /\ forall j j' rest, bytes_ok rest ->
    odr_send f v j = Some (1, bs) /\
    odr_receive f (bs ++ rest) j' = Some (1, Some v, zlen bs).
Proof.
  intros Hv Hd Hsz. destruct (cd_total cd_class cd_tag v cd_own_tag Hv) as [bs Hbs].
  exists bs. split; [by destruct (cd_shape cd_class cd_tag v bs cd_own_tag Hv Hbs)|].
  intros j j' rest Hrest. split; [by apply codec_send; [..|apply Hsz|]|by apply codec_receive].
Qed.
End codec.

(** ** The types of the library *)

(** Own tags below 31 take one byte. *)
Lemma short_tag_zlen c t k tb : t <= 30 -> tag_bytes c t k tb -> zlen tb = 1.
Proof. intros Ht. unfold tag_bytes. rewrite (proj2 (Z.leb_le _ _)) by done. by intros ->. Qed.

Lemma simple_size {A} (contents : A -> list Z) c t v bs n :
  t <= 30 -> zlen (contents v) <= n -> 2 * (1 + n) <= INT_MAX ->
  simple_bytes contents c t v bs -> 2 * zlen bs <= INT_MAX.
Proof.
  intros Ht Hn Hm (tb & Htb & ->). apply short_tag_zlen in Htb; [|done]. rewrite zlen_app. lia.
Qed.

Lemma def_len_size n : 0 <= n < 2 ^ 31 -> zlen (def_len n) <= 5.
Proof.
  intros Hn. destruct (Z.le_gt_cases n 127) as [H|H].
  - unfold def_len. by rewrite (proj2 (Z.leb_le _ _)).
  - destruct (def_len_octs n) as (ds & _ & -> & _ & _ & Hl & _); [lia|].
    unfold long_len. rewrite zlen_cons. lia.
Qed.

Lemma oct_contents_size bs : oct_ok bs -> zlen (oct_contents bs) <= 2 ^ 25.
Proof.
  intros [_ Hl]. unfold oct_contents. rewrite zlen_app.
  pose proof (zlen_nonneg bs). pose proof (def_len_size (zlen bs)). lia.
Qed.

(** Every 64-bit INTEGER is decoded to itself, whatever follows it in the
    buffer, and exactly its own bytes are used. *)
Theorem odr_integer_roundtrip (v : Z) :
  - 2 ^ 63 <= v < 2 ^ 63 ->
  exists bs, bytes_ok bs /\ forall j j' rest, bytes_ok rest ->
    odr_send odr_integer v j = Some (1, bs) /\
    odr_receive odr_integer (bs ++ rest) j' = Some (1, Some v, zlen bs).
Proof.
  intros Hv. apply (codec_roundtrip odr_integer); [done|done|]. intros bs.
  apply (simple_size int_contents _ _ _ _ 9); [done| |done].
  destruct (int_bytes_spec v Hv) as (_ & _ & Hl & _). unfold int_contents. rewrite zlen_cons. lia.
Qed.

Lemma odr_integer_roundtrip_witness :
  exists bs, bytes_ok bs /\ forall j j' rest, bytes_ok rest ->
    odr_send odr_integer (-129) j = Some (1, bs) /\
    odr_receive odr_integer (bs ++ rest) j' = Some (1, Some (-129), zlen bs).
Proof. apply (odr_integer_roundtrip (-129)). lia. Defined.

(** An OBJECT IDENTIFIER of 2 to 19 arcs below 32768 (the first at most 2,
    the second below 40 after a first of 0 or 1) is decoded to itself. *)
Theorem odr_oid_roundtrip (arcs : list Z) :
  oid_arcs_ok arcs ->
  exists bs, bytes_ok bs /\ forall j j' rest, bytes_ok rest ->
    odr_send odr_oid (arcs ++ [-1]) j = Some (1, bs) /\
    odr_receive odr_oid (bs ++ rest) j' = Some (1, Some (arcs ++ [-1]), zlen bs).
Proof.
  intros Ha. assert (oid_ok (arcs ++ [-1])) as Hv by by exists arcs.
  apply (codec_roundtrip odr_oid); [done|done|]. intros bs.
  apply (simple_size oid_contents _ _ _ _ 55); [done| |done].
  destruct (oid_split _ Hv) as (? & ? & ? & _ & _ & _ & Hl). unfold oid_contents.
  rewrite zlen_cons. lia.
Qed.

Lemma odr_oid_roundtrip_witness :
  exists bs, bytes_ok bs /\ forall j j' rest, bytes_ok rest ->
    odr_send odr_oid [1; 2; 840; 10003; 5; 10; -1] j = Some (1, bs) /\
    odr_receive odr_oid (bs ++ rest) j' = Some (1, Some [1; 2; 840; 10003; 5; 10; -1], zlen bs).
Proof.
  apply (odr_oid_roundtrip [1; 2; 840; 10003; 5; 10]). split.
  - repeat constructor; lia.
  - unfold OID_SIZE. unfold zlen. simpl. lia.
  - do 3 eexists. split; [reflexivity|lia].
Defined.

(** An OCTET STRING of fewer than 2^24 bytes is decoded to a copy of
    itself, with a terminating zero after it. *)
Theorem odr_octetstring_roundtrip (bs0 : list Z) :
  bytes_ok bs0 -> zlen bs0 < 2 ^ 24 ->
  exists bs, bytes_ok bs /\ forall j j' rest, bytes_ok rest ->
    odr_send odr_octetstring (odr_create_Odr_oct bs0) j = Some (1, bs) /\
    odr_receive odr_octetstring (bs ++ rest) j'
      = Some (1, Some (odr_create_Odr_oct bs0), zlen bs).
Proof.
  intros Hb Hl. assert (oct_ok bs0) as Ho by done.
  apply (codec_roundtrip odr_octetstring); [by exists bs0|done|]. intros bs.
  apply (simple_size _ _ _ _ _ (2 ^ 25)); [done| |done].
  simpl. unfold zlen at 2. rewrite Nat2Z.id, take_app_length. by apply oct_contents_size.
Qed.

Lemma odr_octetstring_roundtrip_witness :
  exists bs, bytes_ok bs /\ forall j j' rest, bytes_ok rest ->
    odr_send odr_octetstring (odr_create_Odr_oct [0; 255; 128]) j = Some (1, bs) /\
    odr_receive odr_octetstring (bs ++ rest) j'
      = Some (1, Some (odr_create_Odr_oct [0; 255; 128]), zlen bs).
Proof.
  apply (odr_octetstring_roundtrip [0; 255; 128]); [|done].
  repeat constructor; unfold byte_ok; lia.
Defined.

(** A character string without an embedded zero, shorter than 2^24 bytes,
    is decoded to itself with its terminator. *)
Theorem odr_cstring_roundtrip (s : list Z) :
  bytes_ok s -> zlen s < 2 ^ 24 -> Forall (fun b => b <> 0) s ->
  exists bs, bytes_ok bs /\ forall j j' rest, bytes_ok rest ->
    odr_send odr_cstring (s ++ [0]) j = Some (1, bs) /\
    odr_receive odr_cstring (bs ++ rest) j' = Some (1, Some (s ++ [0]), zlen bs).
Proof.
  intros Hb Hl Hnz. assert (oct_ok s) as Ho by done.
  apply (codec_roundtrip odr_cstring); [by exists s|done|]. intros bs.
  apply (simple_size _ _ _ _ _ (2 ^ 25)); [done| |done].
  rewrite length_app. simpl. rewrite Nat.add_sub, take_app_length. by apply oct_contents_size.
Qed.

Lemma odr_cstring_roundtrip_witness :
  exists bs, bytes_ok bs /\ forall j j' rest, bytes_ok rest ->
    odr_send odr_cstring ([89; 65; 90] ++ [0]) j = Some (1, bs) /\
    odr_receive odr_cstring (bs ++ rest) j' = Some (1, Some ([89; 65; 90] ++ [0]), zlen bs).
Proof.
  apply (odr_cstring_roundtrip [89; 65; 90]); [|done|];
    repeat constructor; unfold byte_ok; lia.
Defined.


