(* ===== verification/OdrTagged.v ===== *)
(** * Tagged types (the macros odr_implicit_tag and odr_explicit_tag, odr_use.c)

    A codec under an implicit tag, and one wrapped in an explicit tag, are
    codecs again. *)

From stdpp Require Import base list numbers option strings.
From Stdlib Require Import ZArith Lia.
From S2P Require Import Prelude OdrMem BerTag BerLen OdrTag OdrCodec OdrOct OdrCons OdrSeq.

(** ** odr.h *)

Definition odr_explicit_tag {A} (f : Odr_fun A) (cl tg : Z) : Odr_fun A := fun p opt name =>
  let* (r, p) := odr_constructed_begin p cl tg None in
  if negb (r =? 0) then
    let* (r, p) := f p opt name in
    if r =? 0 then ret (0, p)
    else let* r := odr_constructed_end in ret (b2z (negb (r =? 0)), p)
  else let* r := odr_missing opt name in ret (r, p).

(** ** Implicit tags *)

Lemma settag_spec o cl tg zc tag :
  error o = 0 -> 0 <= cl ->
  exists o1, odr_implicit_settag cl tg o = Some (1, o1) /\
    in_force o1 zc tag = in_force o cl tg /\
    (o1 = o \/ o1 = set_t_tag tg (set_t_class cl o)).
Proof.
  intros He Hc. unfold odr_implicit_settag. mrun. rewrite He. mrun. unfold in_force.
  destruct (Z.ltb_spec (t_class o) 0); mrun.
  - eexists. split; [reflexivity|]. simpl. rewrite (proj2 (Z.ltb_ge cl 0)) by lia. auto.
  - exists o. rewrite (proj2 (Z.ltb_ge _ 0)) by lia. auto.
Qed.

Section implicit.
Context {A : Type} (f : Odr_fun A) `{C : !OdrCodec f} (cl tg : Z).
Context (Htag : tag_ok cl tg).

#[export] Instance odr_implicit_codec : OdrCodec (odr_implicit_tag f cl tg).
Proof.
  pose proof (tag_ok_class _ _ Htag) as Hcl.
  refine {| cd_class := cl; cd_tag := tg; cd_depth := cd_depth (f := f);
            cd_ok := cd_ok (f := f); cd_bytes := cd_bytes (f := f); cd_own_tag := Htag |}.
  - apply cd_depth_nonneg.
  - apply cd_total.
  - apply cd_shape.
  - intros c t v bs opt name o Htc Hv Hbs Hf Hr Hd.
    destruct (settag_spec o cl tg (cd_class (f := f)) (cd_tag (f := f)) (er_error _ _ Hr) Hcl)
      as (o1 & E1 & Hf1 & H1).
    destruct (cd_encode c t v bs opt name o1) as (o' & E & D);
      [done|done|done|by rewrite Hf1|by eapply enc_ready_tag|by destruct H1 as [-> | ->]|].
    exists o'. split; [|by eapply encoded_tag].
    unfold odr_implicit_tag. by rewrite (bind_Some _ _ _ _ _ E1).
  - intros c t v bs rest p opt name o Htc Hv Hbs Hf Hr Hm Hp Hd.
    destruct (settag_spec o cl tg (cd_class (f := f)) (cd_tag (f := f)) (dr_error _ Hr) Hcl)
      as (o1 & E1 & Hf1 & H1).
    destruct (dec_ready_tag _ _ _ _ H1 Hr Hm) as (Hr1 & Hm1 & Hp1).
    destruct (cd_decode c t v bs rest p opt name o1) as (o' & E & D);
      [done|done|done|by rewrite Hf1|done|done|by rewrite Hp1|by destruct H1 as [-> | ->]|].
    exists o'. split; [|by eapply decoded_tag].
    unfold odr_implicit_tag. by rewrite (bind_Some _ _ _ _ _ E1).
  - intros opt name o Hopt Hr Hs.
    destruct (settag_spec o cl tg 0 0 (er_error _ _ Hr) Hcl) as (o1 & E1 & _ & H1).
    destruct (cd_absent_encode (f := f) opt name o1) as (o' & E & D);
      [done|by eapply enc_ready_tag|by destruct H1 as [-> | ->]|].
    exists o'. split; [|by eapply encoded_tag].
    unfold odr_implicit_tag. by rewrite (bind_Some _ _ _ _ _ E1).
  - intros c t p opt name o Hopt Htc Hf Hr Hn.
    destruct (settag_spec o cl tg (cd_class (f := f)) (cd_tag (f := f)) (dr_error _ Hr) Hcl)
      as (o1 & E1 & Hf1 & H1).
    destruct (cd_absent_decode (f := f) c t p opt name o1) as (o' & E & D);
      [done|done|by rewrite Hf1|by destruct H1 as [-> | ->]; destruct Hr; split
      |eapply not_here_frame; [exact Hn|by destruct H1 as [-> | ->]..]|].
    exists o'. split; [|by eapply skipped_tag].
    unfold odr_implicit_tag. by rewrite (bind_Some _ _ _ _ _ E1).
Defined.
End implicit.

#[export] Instance odr_visiblestring_codec : OdrCodec odr_visiblestring.
Proof. by apply (odr_implicit_codec odr_cstring ODR_UNIVERSAL ODR_VISIBLESTRING). Defined.
#[export] Instance odr_graphicstring_codec : OdrCodec odr_graphicstring.
Proof. by apply (odr_implicit_codec odr_cstring ODR_UNIVERSAL ODR_GRAPHICSTRING). Defined.
#[export] Instance odr_generalizedtime_codec : OdrCodec odr_generalizedtime.
Proof. by apply (odr_implicit_codec odr_cstring ODR_UNIVERSAL ODR_GENERALIZEDTIME). Defined.

(** ** Explicit tags *)

Lemma constructed_begin_absent_encode {A} o zclass tag name :
  enc_ready o 0 -> stack o <> [] ->
  exists o', odr_constructed_begin (A := A) None zclass tag name o = Some ((0, None), o') /\
    encoded o o' [].
Proof.
  intros Hr Hs. pose proof (er_lenlen _ _ Hr) as Hll.
  assert (set_lenlen 1 o = o) as Ho by (clear -Hll; destruct o; simpl in *; by subst).
  destruct (default_tag_spec o zclass tag _ _ (surjective_pairing _)) as (o0 & E0 & H0).
  destruct (ber_tag_absent_encode (A := A) o0 (fst (in_force o zclass tag))
    (snd (in_force o zclass tag)) 1 1 name) as (o1 & E1 & D1);
    [done|by eapply enc_ready_tag|by destruct H0 as [-> | ->]|].
  exists o1. split; [|by eapply encoded_tag].
  unfold odr_constructed_begin. mrun. rewrite (er_error _ _ Hr). mrun. rewrite Ho.
  rewrite (bind_Some _ _ _ _ _ E0). mrun. by rewrite (bind_Some _ _ _ _ _ E1).
Qed.

Lemma seq_begin_absent_encode {A} utag (fresh_obj : option A) name o :
  enc_ready o 0 -> stack o <> [] ->
  exists o', seq_begin utag None fresh_obj name o = Some ((0, None), o') /\ encoded o o' [].
Proof.
  intros Hr Hs.
  destruct (default_tag_spec o ODR_UNIVERSAL utag _ _ (surjective_pairing _)) as (o0 & E0 & H0).
  destruct (constructed_begin_absent_encode (A := A) o0 (fst (in_force o ODR_UNIVERSAL utag))
    (snd (in_force o ODR_UNIVERSAL utag)) name) as (o1 & E1 & D1);
    [by eapply enc_ready_tag|by destruct H0 as [-> | ->]|].
  exists o1. split; [|by eapply encoded_tag]. unfold seq_begin. mrun.
  rewrite (er_error _ _ Hr). mrun. rewrite (bind_Some _ _ _ _ _ E0). mrun.
  rewrite (er_dir _ _ Hr). mrun. by rewrite (bind_Some _ _ _ _ _ E1).
Qed.

Section explicit.
Context {A : Type} (f : Odr_fun A) `{C : !OdrCodec f} (cl tg : Z).
Context (Htag : tag_ok cl tg).

Definition explicit_bytes (c t : Z) (v : A) (bs : list Z) : Prop :=
  exists tb ib, tag_bytes c t 1 tb /\ cd_bytes (f := f) cd_class cd_tag v ib /\
    bs = tb ++ con_bytes ib.

Lemma explicit_encode c t v tb ib opt name o :
  tag_ok c t -> cd_ok v -> tag_bytes c t 1 tb -> cd_bytes cd_class cd_tag v ib ->
  in_force o cl tg = (c, t) -> enc_ready o (zlen (tb ++ con_bytes ib)) ->
  depth_ok o (cd_depth (f := f) + 1) ->
  exists o', odr_explicit_tag f cl tg (Some v) opt name o = Some ((1, Some v), o') /\
    encoded o o' (tb ++ con_bytes ib).
Proof.
  intros Htc Hv Htb Hib Hf Hr Hd.
  pose proof (con_bytes_zlen ib). pose proof (zlen_nonneg ib). pose proof (zlen_nonneg tb).
  pose proof (cd_depth_nonneg (f := f)) as Hcd.
  assert (enc_ready o (zlen tb + 1 + zlen ib)) as Hr'
    by (eapply enc_ready_mono; [exact Hr|rewrite zlen_app; lia]).
  destruct (constructed_begin_encode o v cl tg None c t tb (zlen ib)) as (o1 & E1 & Hop);
    [done..|eapply depth_ok_mono; [exact Hd|lia]|].
  destruct (cd_encode cd_class cd_tag v ib opt name o1) as (o2 & E2 & D2);
    [apply cd_own_tag|done|done|apply in_force_own, Hop|by eapply opened_ready
    |by eapply opened_depth|].
  destruct (constructed_end_encode o o1 o2 tb ib Hop D2 Hr) as (o3 & E3 & D3).
  exists o3. split; [|done]. unfold odr_explicit_tag. rewrite (bind_Some _ _ _ _ _ E1).
  change (negb (1 =? 0)) with true. cbv iota. rewrite (bind_Some _ _ _ _ _ E2).
  change (1 =? 0) with false. cbv iota. by rewrite (bind_Some _ _ _ _ _ E3).
Qed.

Lemma explicit_decode c t v tb ib fb rest p opt name o :
  tag_ok c t -> cd_ok v -> tag_bytes c t 1 tb -> cd_bytes cd_class cd_tag v ib ->
  con_form ib fb -> in_force o cl tg = (c, t) -> dec_ready o -> more_at o ->
  bp_ptr o = tb ++ fb ++ rest -> depth_ok o (cd_depth (f := f) + 1) ->
  exists o', odr_explicit_tag f cl tg p opt name o = Some ((1, Some v), o') /\
    decoded o o' (zlen (tb ++ fb)).
Proof.
  intros Htc Hv Htb Hib Hcf Hf Hr Hm Hp Hd. pose proof (cd_depth_nonneg (f := f)) as Hcd.
  destruct (constructed_begin_decode o p cl tg None c t tb ib fb rest)
    as (o1 & n & tl & E1 & Hop & Hz); [done..|eapply depth_ok_mono; [exact Hd|lia]|].
  destruct (member_decode f o o1 n ib tl rest 0 o1 v ib [] None opt name)
    as (_ & o2 & E2 & D2 & _); [done|by eapply opened_dec_depth|done|by eapply opened_dec_nil
    |done|change (zlen []) with 0; lia|apply Hop|].
  destruct (constructed_end_decode o o1 n ib tl rest o2 Hop D2) as (o3 & E3 & D3).
  rewrite Hz. exists o3. split; [|done]. unfold odr_explicit_tag. rewrite (bind_Some _ _ _ _ _ E1).
  change (negb (1 =? 0)) with true. cbv iota. rewrite (bind_Some _ _ _ _ _ E2).
  change (1 =? 0) with false. cbv iota. by rewrite (bind_Some _ _ _ _ _ E3).
Qed.

#[export] Instance odr_explicit_codec : OdrCodec (odr_explicit_tag f cl tg).
Proof.
  refine {| cd_class := cl; cd_tag := tg; cd_depth := cd_depth (f := f) + 1;
            cd_ok := cd_ok (f := f); cd_bytes := explicit_bytes; cd_own_tag := Htag |}.
  - pose proof (cd_depth_nonneg (f := f)). lia.
  - intros c t v [Hc Ht] Hv. destruct (cd_total cd_class cd_tag v cd_own_tag Hv) as [ib Hib].
    destruct (tag_bytes_total c t 1) as [tb Htb]; [lia|]. eexists. by exists tb, ib.
  - intros c t v bs [Hc Ht] Hv (tb & ib & Htb & Hib & ->).
    destruct (cd_shape cd_class cd_tag v ib cd_own_tag Hv Hib) as (Hb & _ & _).
    pose proof (con_bytes_zlen ib). pose proof (tag_bytes_nonempty _ _ _ _ Htb).
    pose proof (zlen_nonneg ib). split; [|split].
    + apply Forall_app. split; [eapply tag_bytes_bytes; [..|exact Htb]; lia|by apply con_bytes_ok].
    + rewrite zlen_app. lia.
    + exists tb, 1, (con_bytes ib). split; [done|]. split; [lia|done].
  - intros c t v bs opt name o Htc Hv (tb & ib & Htb & Hib & ->) Hf Hr Hd.
    by apply (explicit_encode c t).
  - intros c t v bs rest p opt name o Htc Hv (tb & ib & Htb & Hib & ->) Hf Hr Hm Hp Hd.
    rewrite <- app_assoc in Hp.
    eapply (explicit_decode c t v tb ib); [done..|apply con_bytes_form|done|done|done|exact Hp|done].
  - intros opt name o Hopt Hr Hs.
    destruct (constructed_begin_absent_encode (A := A) o cl tg None Hr Hs) as (o1 & E1 & D1).
    exists o1. split; [|done]. unfold odr_explicit_tag. rewrite (bind_Some _ _ _ _ _ E1).
    change (negb (0 =? 0)) with false. cbv iota.
    assert (error o1 = 0) as He.
    { rewrite (f_equal error (ed_frame _ _ _ D1) : error o1 = error o). apply Hr. }
    by rewrite (bind_Some _ _ _ _ _ (odr_missing_opt opt name o1 He Hopt)).
  - intros c t p opt name o Hopt Htc Hf Hr Hn.
    destruct (constructed_begin_absent o p cl tg None c t Hf Hr Hn) as (o1 & E1 & S1).
    exists o1. split; [|done]. unfold odr_explicit_tag. rewrite (bind_Some _ _ _ _ _ E1).
    change (negb (0 =? 0)) with false. cbv iota.
    by rewrite (bind_Some _ _ _ _ _ (odr_missing_opt opt name o1 (dr_error _ (sk_ready _ _ S1)) Hopt)).
Defined.
End explicit.
