(* ===== verification/BerAny.v ===== *)
(** * Complete elements and the ANY type (ber_any.c, odr_any.c)

    [completeBER] finds out whether a buffer begins with a complete BER
    element and where it ends; the network layer uses it to cut a stream into
    messages, [ber_any] to take an element of unknown type as it is.  The
    theorems: it never looks beyond the buffer and always terminates, its
    answer does not change when more bytes arrive, and on a well-formed element
    it answers its length exactly when the element is complete. *)

From stdpp Require Import base list numbers option strings.
From Stdlib Require Import ZArith Lia.
From S2P Require Import Prelude OdrMem BerTag BerLen OdrTag OdrOct OdrCodec OdrCons.

(** ** ber_any.c *)

(** [b[0] == 0 && b[1] == 0] *)
Definition is_eoc (b : list Z) : option bool :=
  let? b0 := rd b 0 in
  if b0 =? 0 then let? b1 := rd b 1 in Some (b1 =? 0) else Some false.

(** The loop over the children of an element of indefinite length: [off] bytes
    of the element are passed, [b] points to the rest, of which [len] bytes
    are there.  [rec] is the recursive call. *)
Fixpoint ber_children (rec : list Z -> Z -> option Z) (fuel : nat) (b : list Z) (len off : Z)
    : option Z :=
  match fuel with
  | O => None
  | S fuel =>
      if 2 <=? len then
        let? e := is_eoc b in
        if (e : bool) then Some (off + 2)
        else
          let? res := rec b len in
          if res <=? 0 then Some res
          else ber_children rec fuel (drop (Z.to_nat res) b) (len - res) (off + res)
      else Some 0
  end.

Fixpoint completeBER_n (fuel : nat) (buf : list Z) (len level : Z) : option Z :=
  match fuel with
  | O => None
  | S fuel =>
      if 1000 <? level then Some (-1)
      else if len <? 2 then Some 0
      else
        let? e := is_eoc buf in
        if (e : bool) then Some (-1)
        else
          let? (res, t) := ber_dectag buf (mkTag 0 0 0) len in
          if res <=? 0 then Some 0
          else
            let b := drop (Z.to_nat res) buf in
            let off := res in
            let len := len - res in
            if len <? 0 then Some (-1)
            else
              let? (res, ll) := ber_declen b 0 len in
              if res =? -2 then Some (-1)
              else if res =? -1 then Some 0
              else
                let b := drop (Z.to_nat res) b in
                let off := off + res in
                let len := len - res in
                if 0 <=? ll then                                (* definite length *)
                  if len <? ll then Some 0 else Some (ll + off)
                else if tg_cons t =? 0 then Some (-1)
                else ber_children (fun b len => completeBER_n fuel b len (level + 1)) fuel b len off
  end.

(** Every recursive call and every iteration gets past two bytes. *)
Definition ber_fuel (len : Z) : nat := S (Z.to_nat len).

Definition completeBER (buf : list Z) (len : Z) : option Z :=
  let? res := completeBER_n (ber_fuel len) buf len 0 in
  if res <? 0 then Some len else Some res.

Definition ber_any (p : Odr_oct) : ODR (Z * Odr_oct) :=
  let* o := get in
  if direction o =? ODR_DECODE then
    let* res := lift (completeBER_n (ber_fuel (odr_max o)) (bp_ptr o) (odr_max o) 0) in
    if res <=? 0 then odr_seterror OPROTO 2 ;; ret (0, p)
    else
      let* bs := lift (sub (bp_ptr o) 0 res) in
      modify (set_bp (bp o + res)) ;;
      ret (1, mkOct (Some bs) res)
  else if direction o =? ODR_ENCODE then
    let* b := lift (oct_buf p) in
    let* r := odr_write b (oct_len p) in
    if r <? 0 then ret (0, p) else ret (1, p)
  else odr_seterror OOTHER 3 ;; ret (0, p).

(** ** odr_any.c *)

Definition odr_any : Odr_fun Odr_oct := fun p opt name =>
  let* o := get in
  if negb (error o =? 0) then ret (0, p)
  else if direction o =? ODR_PRINT then
    let* v := lift p in
    odr_prname name ;;
    odr_printf (str "ANY (len=" ++ fmt_d (oct_len v) ++ str ")" ++ nl) ;;
    ret (1, p)
  else
    let p := if direction o =? ODR_DECODE
             then Some (mkOct None (s32 (fresh_int o))) else p in
    let* v := lift p in
    let* (r, v) := ber_any v in
    if negb (r =? 0) then ret (1, Some v)
    else let* r := odr_missing opt name in ret (r, None).

#[global] Arguments completeBER_n : simpl never.
#[global] Arguments ber_children : simpl never.

(** ** Bounds and termination *)

Lemma is_eoc_total b : 2 <= zlen b -> exists e, is_eoc b = Some e.
Proof.
  intros H. destruct b as [|x [|y b]]; [zl..|]. unfold is_eoc. simpl.
  destruct (x =? 0); eauto.
Qed.

Lemma is_eoc_ext b rest e : is_eoc b = Some e -> is_eoc (b ++ rest) = Some e.
Proof.
  unfold is_eoc. destruct b as [|x b]; [done|]. simpl. destruct (x =? 0); [|done].
  destruct b as [|y b]; done.
Qed.

Lemma bytes_drop n b : bytes_ok b -> bytes_ok (drop n b).
Proof. apply Forall_drop. Qed.

Lemma zlen_drop {A} (b : list A) n : 0 <= n <= zlen b -> zlen (drop (Z.to_nat n) b) = zlen b - n.
Proof. unfold zlen. rewrite length_drop. lia. Qed.

Lemma ber_children_bounds rec n :
  (forall b len, 0 <= len <= zlen b -> len <= n -> bytes_ok b ->
     exists r, rec b len = Some r /\ -1 <= r <= len) ->
  forall fuel b len off, (Z.to_nat len < fuel)%nat -> 0 <= len <= zlen b -> len <= n ->
  bytes_ok b -> 0 <= off ->
  exists r, ber_children rec fuel b len off = Some r /\ -1 <= r <= off + len.
Proof.
  intros Hrec fuel. induction fuel as [|fuel IH]; intros b len off Hf Hl Hn Hb Ho; [lia|].
  unfold ber_children; fold ber_children. destruct (Z.leb_spec 2 len); [|exists 0; split; [done|lia]].
  destruct (is_eoc_total b) as [e ->]; [lia|]. simpl.
  destruct e; [eexists; split; [done|lia]|].
  destruct (Hrec b len) as (r & -> & Hr); [done..|]. simpl.
  destruct (Z.leb_spec r 0); [eexists; split; [done|lia]|].
  destruct (IH (drop (Z.to_nat r) b) (len - r) (off + r)) as (r' & -> & Hr').
  - lia.
  - rewrite zlen_drop by lia. lia.
  - lia.
  - by apply bytes_drop.
  - lia.
  - eexists. split; [done|lia].
Qed.

Lemma completeBER_n_bounds fuel : forall b len level,
  (Z.to_nat len < fuel)%nat -> len <= zlen b -> bytes_ok b ->
  exists r, completeBER_n fuel b len level = Some r /\ -1 <= r <= Z.max 0 len.
Proof.
  induction fuel as [|fuel IH]; intros b len level Hf Hl Hb; [lia|].
  unfold completeBER_n; fold completeBER_n.
  destruct (1000 <? level); [eexists; split; [done|lia]|].
  destruct (Z.ltb_spec len 2); [eexists; split; [done|lia]|].
  destruct (is_eoc_total b) as [e ->]; [lia|]. simpl.
  destruct e; [eexists; split; [done|lia]|].
  destruct (ber_dectag_safe b (mkTag 0 0 0) len Hl) as (r & t & -> & Hr). simpl.
  destruct (Z.leb_spec r 0); [eexists; split; [done|lia]|].
  rewrite (proj2 (Z.ltb_ge (len - r) 0)) by lia.
  destruct (ber_declen_safe (drop (Z.to_nat r) b) 0 (len - r)) as (r2 & ll & -> & Hr2);
    [rewrite zlen_drop; lia|by apply bytes_drop|]. simpl.
  destruct (Z.eqb_spec r2 (-2)); [eexists; split; [done|lia]|].
  destruct (Z.eqb_spec r2 (-1)); [eexists; split; [done|lia]|].
  destruct (Z.leb_spec 0 ll).
  { destruct (Z.ltb_spec (len - r - r2) ll); eexists; (split; [done|lia]). }
  destruct (tg_cons t =? 0); [eexists; split; [done|lia]|].
  destruct (ber_children_bounds (fun b len => completeBER_n fuel b len (level + 1)) (len - r - r2))
    with (fuel := fuel) (b := drop (Z.to_nat r2) (drop (Z.to_nat r) b))
    (len := len - r - r2) (off := r + r2) as (r3 & -> & Hr3).
  - intros b' len' Hl' Hn Hb'. destruct (IH b' len' (level + 1)) as (r' & -> & Hr'); [lia|lia|done|].
    eexists. split; [done|lia].
  - lia.
  - rewrite zlen_drop by (rewrite zlen_drop; lia). rewrite zlen_drop by lia. lia.
  - lia.
  - by do 2 apply bytes_drop.
  - lia.
  - eexists. split; [done|lia].
Qed.

(** ** More bytes do not change the answer *)

Lemma ber_declen_ext_2 b rest x x0 max max' len :
  ber_declen b x max = Some (-2, len) -> max <= max' ->
  ber_declen (b ++ rest) x0 max' = Some (-2, x0).
Proof.
  unfold ber_declen. intros H Hmax. destruct (Z.ltb_spec max 1); [done|].
  rewrite (proj2 (Z.ltb_ge _ _)) by lia. destruct b as [|b0 b]; [done|]. simpl in *.
  destruct (b0 =? 128); [done|]. destruct (Z.land b0 128 =? 0); [done|].
  destruct (b0 =? 255); [done|].
  destruct (Z.leb_spec max (Z.land b0 127)); [done|].
  rewrite (proj2 (Z.leb_gt _ _)) by lia. destruct (3 <? Z.land b0 127); [done|].
  destruct (declen_loop _ _ _); [|done]. simpl in H. injection H as H _.
  pose proof (proj2 (Z.land_nonneg b0 127) ltac:(lia)). lia.
Qed.

Lemma ber_children_ext rec rec' rest k n :
  (forall b len, 0 <= len <= zlen b -> len <= n -> bytes_ok b ->
     exists r, rec b len = Some r /\ -1 <= r <= len /\
       (r <> 0 -> rec' (b ++ rest) (len + k) = Some r)) ->
  0 <= k -> forall fuel fuel' b len off r, (fuel <= fuel')%nat ->
  0 <= len <= zlen b -> len <= n -> bytes_ok b ->
  ber_children rec fuel b len off = Some r -> r <> 0 ->
  ber_children rec' fuel' (b ++ rest) (len + k) off = Some r.
Proof.
  intros Hrec Hk fuel. induction fuel as [|fuel IH]; intros fuel' b len off r Hf Hl Hn Hb H Hr; [done|].
  destruct fuel' as [|fuel']; [lia|].
  unfold ber_children in *; fold ber_children in *.
  destruct (Z.leb_spec 2 len); [|injection H as <-; lia].
  rewrite (proj2 (Z.leb_le 2 (len + k))) by lia.
  destruct (is_eoc_total b) as [e Ee]; [lia|]. rewrite (is_eoc_ext _ rest _ Ee), Ee in *.
  simpl in *. destruct e; [done|].
  destruct (Hrec b len) as (r1 & E1 & Hr1 & Hx); [done..|]. rewrite E1 in H. simpl in H.
  destruct (Z.leb_spec r1 0).
  - injection H as <-. rewrite Hx by done. simpl. by rewrite (proj2 (Z.leb_le _ _)).
  - rewrite Hx by lia. simpl. rewrite (proj2 (Z.leb_gt _ _)) by lia.
    rewrite drop_app_le by (unfold zlen in *; lia).
    replace (len + k - r1) with (len - r1 + k) by lia.
    apply IH; [lia|rewrite zlen_drop; lia|lia|by apply bytes_drop|done|done].
Qed.

Lemma completeBER_n_ext rest k : 0 <= k -> forall fuel fuel' b len level r,
  (Z.to_nat len < fuel)%nat -> (fuel <= fuel')%nat -> len <= zlen b -> bytes_ok b ->
  completeBER_n fuel b len level = Some r -> r <> 0 ->
  completeBER_n fuel' (b ++ rest) (len + k) level = Some r.
Proof.
  intros Hk fuel. induction fuel as [|fuel IH]; intros fuel' b len level r Hf Hf' Hl Hb H Hr; [done|].
  destruct fuel' as [|fuel']; [lia|].
  unfold completeBER_n in *; fold completeBER_n in *.
  destruct (1000 <? level); [done|].
  destruct (Z.ltb_spec len 2); [by injection H as <-|].
  rewrite (proj2 (Z.ltb_ge (len + k) 2)) by lia.
  destruct (is_eoc_total b) as [e Ee]; [lia|]. rewrite (is_eoc_ext _ rest _ Ee), Ee in *.
  simpl in *. destruct e; [done|].
  destruct (ber_dectag_safe b (mkTag 0 0 0) len Hl) as (r1 & t & E1 & Hr1).
  rewrite E1 in H. simpl in H. destruct (Z.leb_spec r1 0); [by injection H as <-|].
  rewrite (ber_dectag_ext _ rest _ (mkTag 0 0 0) _ (len + k) _ _ E1) by lia. simpl.
  rewrite (proj2 (Z.leb_gt r1 0)) by lia.
  rewrite (proj2 (Z.ltb_ge (len - r1) 0)) in H by lia.
  rewrite (proj2 (Z.ltb_ge (len + k - r1) 0)) by lia.
  replace (drop (Z.to_nat r1) (b ++ rest)) with (drop (Z.to_nat r1) b ++ rest)
    by (rewrite drop_app_le; [done|unfold zlen in *; lia]).
  assert (zlen (drop (Z.to_nat r1) b) = zlen b - r1) as Hz by (apply zlen_drop; lia).
  set (b1 := drop (Z.to_nat r1) b) in *. assert (bytes_ok b1) as Hb1 by by apply bytes_drop.
  destruct (ber_declen_safe b1 0 (len - r1)) as (r2 & ll & E2 & Hr2); [lia|done|].
  rewrite E2 in H. simpl in H.
  destruct (Z.eqb_spec r2 (-2)) as [->|].
  { injection H as <-. rewrite (ber_declen_ext_2 _ rest _ 0 _ (len + k - r1) _ E2) by lia. done. }
  destruct (Z.eqb_spec r2 (-1)); [by injection H as <-|].
  rewrite (ber_declen_ext _ rest _ 0 _ (len + k - r1) _ _ E2) by lia. simpl.
  rewrite (proj2 (Z.eqb_neq r2 (-2))), (proj2 (Z.eqb_neq r2 (-1))) by done.
  destruct (Z.leb_spec 0 ll).
  { destruct (Z.ltb_spec (len - r1 - r2) ll); [by injection H as <-|].
    by rewrite (proj2 (Z.ltb_ge _ ll)) by lia. }
  destruct (tg_cons t =? 0); [done|].
  rewrite drop_app_le by (unfold zlen in *; lia).
  replace (len + k - r1 - r2) with (len - r1 - r2 + k) by lia.
  apply (ber_children_ext (fun b len => completeBER_n fuel b len (level + 1)) _ rest k
    (len - r1 - r2)) with (fuel := fuel); [|done|lia| |lia| |exact H|done].
  - intros b' len' Hl' Hn Hb'.
    destruct (completeBER_n_bounds fuel b' len' (level + 1)) as (r' & E' & Hr'); [lia|lia|done|].
    exists r'. split; [done|]. split; [lia|]. intros Hne. apply (IH fuel'); done || lia.
  - rewrite zlen_drop; lia.
  - by apply bytes_drop.
Qed.

(** ** Well-formed elements *)

(** Length octets of a definite form the decoder accepts. *)
Inductive len_octets : list Z -> Z -> Prop :=
  | len_short n : 0 <= n <= 127 -> len_octets [n] n
  | len_long ds : bytes_ok ds -> 1 <= zlen ds <= 3 -> len_octets (long_len ds) (val256 0 ds).

(** An element in which indefinite lengths are nested at most [d] deep: a
    primitive or constructed one with its length, or a constructed one whose
    elements are followed by the end-of-contents octets. *)
Inductive ber_element : nat -> list Z -> Prop :=
  | el_definite d c t k tb lb cb :
      tag_ok c t -> 0 <= k <= 1 -> tag_bytes c t k tb -> len_octets lb (zlen cb) ->
      bytes_ok cb -> ber_element d (tb ++ lb ++ cb)
  | el_indefinite d c t tb body :
      tag_ok c t -> tag_bytes c t 1 tb -> ber_elements d body ->
      ber_element (S d) (tb ++ 128 :: body ++ [0; 0])
with ber_elements : nat -> list Z -> Prop :=
  | els_nil d : ber_elements d []
  | els_cons d e body : ber_element d e -> ber_elements d body -> ber_elements d (e ++ body).

Scheme ber_element_rec := Induction for ber_element Sort Prop
  with ber_elements_rec := Induction for ber_elements Sort Prop.
Combined Scheme ber_element_mut from ber_element_rec, ber_elements_rec.

Lemma len_octets_form lb n : len_octets lb n -> len_form lb n /\ bytes_ok lb.
Proof.
  intros [m Hm|ds Hd Hl].
  - split; [by apply len_form_short|]. apply Forall_singleton. unfold byte_ok. lia.
  - split; [by apply len_form_long|]. constructor; [unfold byte_ok; lia|done].
Qed.

(** What the code relies on in an element, and its answer on it. *)
Record element_spec (d : nat) (e : list Z) : Prop := {
  es_size : 2 <= zlen e;
  es_bytes : bytes_ok e;
  es_head : exists b l, e = b :: l /\ b <> 0;
  es_complete fuel level :
    (Z.to_nat (zlen e) < fuel)%nat -> level + Z.of_nat d <= 1000 ->
    completeBER_n fuel e (zlen e) level = Some (zlen e);
}.

Lemma element_tag c t k tb rest :
  tag_ok c t -> 0 <= k <= 1 -> tag_bytes c t k tb ->
  bytes_ok tb /\ 1 <= zlen tb /\ (exists b l, tb ++ rest = b :: l /\ b <> 0) /\
  is_eoc (tb ++ rest) = Some false.
Proof.
  intros [Hc Ht] Hk Htb. split; [eapply tag_bytes_bytes; [..|exact Htb]; lia|].
  pose proof (tag_bytes_nonempty _ _ _ _ Htb) as Hne. split; [done|].
  apply tag_bytes_head in Htb as (b & l & -> & Hb); [|lia..]. split; [by exists b, (l ++ rest)|].
  unfold is_eoc. simpl. by rewrite (proj2 (Z.eqb_neq b 0)).
Qed.

(** The answer of the code after a tag and a length were read. *)
Lemma completeBER_n_head fuel level c t k tb lb ll rest :
  tag_ok c t -> 0 <= k <= 1 -> tag_bytes c t k tb -> len_form lb ll -> level <= 1000 ->
  completeBER_n (S fuel) (tb ++ lb ++ rest) (zlen (tb ++ lb ++ rest)) level =
    (if 0 <=? ll then
       if zlen rest <? ll then Some 0 else Some (ll + (zlen tb + zlen lb))
     else if k =? 0 then Some (-1)
     else ber_children (fun b len => completeBER_n fuel b len (level + 1)) fuel rest (zlen rest)
            (zlen tb + zlen lb)).
Proof.
  intros Htag Hk Htb [Hlb1 Hlb] Hlev. pose proof (zlen_nonneg rest).
  destruct (element_tag c t k tb (lb ++ rest) Htag Hk Htb) as (_ & Hz & _ & Heoc).
  unfold completeBER_n; fold completeBER_n. rewrite !zlen_app.
  rewrite (proj2 (Z.ltb_ge 1000 level)) by lia.
  rewrite (proj2 (Z.ltb_ge _ 2)) by lia. rewrite Heoc. simpl.
  destruct Htag as [Hc Ht].
  rewrite (ber_dectag_tag_bytes c t k tb (lb ++ rest)) by (done || lia). simpl.
  rewrite (proj2 (Z.leb_gt _ 0)), (proj2 (Z.ltb_ge _ 0)) by lia.
  rewrite drop_app_length' by (unfold zlen; lia).
  replace (zlen tb + (zlen lb + zlen rest) - zlen tb) with (zlen lb + zlen rest) by lia.
  rewrite Hlb by lia. simpl.
  rewrite (proj2 (Z.eqb_neq (zlen lb) (-2))), (proj2 (Z.eqb_neq (zlen lb) (-1))) by lia.
  rewrite drop_app_length' by (unfold zlen; lia).
  replace (zlen lb + zlen rest - zlen lb) with (zlen rest) by lia. done.
Qed.

Lemma ber_children_S rec fuel b len off :
  ber_children rec (S fuel) b len off =
    (if 2 <=? len then
       let? e := is_eoc b in
       if (e : bool) then Some (off + 2)
       else
         let? res := rec b len in
         if res <=? 0 then Some res
         else ber_children rec fuel (drop (Z.to_nat res) b) (len - res) (off + res)
     else Some 0).
Proof. done. Qed.

(** The loop over the children of an element. *)
Definition children_spec (d : nat) (body : list Z) : Prop :=
  bytes_ok body /\
  forall fuel f level off, (Z.to_nat (zlen body) + 2 < fuel)%nat ->
    (Z.to_nat (zlen body) + 2 < f)%nat -> level + Z.of_nat d <= 1000 ->
    ber_children (fun b len => completeBER_n f b len level) fuel (body ++ [0; 0])
      (zlen body + 2) off = Some (off + zlen body + 2).

Lemma element_complete :
  (forall d e, ber_element d e -> element_spec d e) /\
  (forall d body, ber_elements d body -> children_spec d body).
Proof.
  apply ber_element_mut.
  - intros d c t k tb lb cb Htag Hk Htb Hlb Hcb.
    destruct (element_tag c t k tb (lb ++ cb) Htag Hk Htb) as (Hb & Hz & Hhd & _).
    destruct (len_octets_form _ _ Hlb) as [Hform Hlbb].
    pose proof (zlen_nonneg cb). pose proof Hform as [Hlb1 _].
    split; [zl|unfold bytes_ok; by rewrite !Forall_app|done|].
    intros [|fuel] level Hf Hlev; [lia|].
    rewrite (completeBER_n_head fuel level c t k tb lb (zlen cb) cb) by (done || lia).
    rewrite (proj2 (Z.leb_le 0 _)), (proj2 (Z.ltb_ge _ _)) by lia. f_equal. zl.
  - intros d c t tb body Htag Htb _ [Hb Hch].
    destruct (element_tag c t 1 tb (128 :: body ++ [0; 0]) Htag ltac:(lia) Htb)
      as (Htbb & Hz & Hhd & _).
    pose proof (zlen_nonneg body). split; [zl| |done|].
    + unfold bytes_ok. rewrite Forall_app. split; [done|]. constructor; [unfold byte_ok; lia|].
      rewrite Forall_app. split; [done|]. repeat constructor; unfold byte_ok; lia.
    + intros [|fuel] level Hf Hlev; [lia|]. autorewrite with zlen in Hf.
      change (tb ++ 128 :: body ++ [0; 0]) with (tb ++ [128] ++ body ++ [0; 0]).
      rewrite (completeBER_n_head fuel level c t 1 tb [128] (-1)); [|done|lia|done| |lia].
      2: { split; [done|]. intros. by apply ber_declen_indef. }
      simpl. replace (zlen (body ++ [0; 0])) with (zlen body + 2) by zl.
      rewrite Hch by lia. f_equal. zl.
  - intros d. split; [constructor|]. intros [|fuel] f level off Hf Hf2 Hlev; [lia|].
    rewrite ber_children_S. simpl. change (zlen []) with 0. f_equal. lia.
  - intros d e body _ [Hs Hb (b0 & l & Ee & Hb0) He] _ [Hb2 Hch].
    split; [by apply Forall_app|]. intros [|fuel] f level off Hf Hf2 Hlev; [lia|].
    rewrite zlen_app in *. pose proof (zlen_nonneg body).
    rewrite ber_children_S, (proj2 (Z.leb_le 2 _)) by lia.
    assert (is_eoc ((e ++ body) ++ [0; 0]) = Some false) as ->.
    { subst e. unfold is_eoc. simpl. by rewrite (proj2 (Z.eqb_neq b0 0)). }
    simpl. rewrite <- app_assoc.
    replace (zlen e + zlen body + 2) with (zlen e + (zlen body + 2)) by lia.
    rewrite (completeBER_n_ext (body ++ [0; 0]) (zlen body + 2) ltac:(lia) f f e (zlen e) level
      (zlen e)) by (done || lia || (apply He; lia)).
    simpl. rewrite (proj2 (Z.leb_gt _ 0)) by lia.
    rewrite drop_app_length' by (unfold zlen; lia).
    replace (zlen e + (zlen body + 2) - zlen e) with (zlen body + 2) by lia.
    rewrite Hch by lia. f_equal. lia.
Qed.

(** ** The properties *)

(** [completeBER] never reads outside the [len] bytes it is given, always
    terminates, and answers a number of bytes that are there. *)
Theorem completeBER_safe (b : list Z) (len : Z) :
  len <= zlen b -> bytes_ok b ->
  exists r, completeBER b len = Some r /\ 0 <= r <= Z.max 0 len.
Proof.
  intros Hl Hb. unfold completeBER, ber_fuel.
  destruct (completeBER_n_bounds (S (Z.to_nat len)) b len 0) as (r & E & Hr); [lia|done..|].
  rewrite E. simpl. destruct (Z.ltb_spec r 0); eexists; (split; [done|]); [|lia].
  split; [|lia]. destruct (Z.le_gt_cases 0 len); [done|].
  revert E. unfold completeBER_n; fold completeBER_n. simpl.
  rewrite (proj2 (Z.ltb_lt len 2)) by lia. intros [= <-]. lia.
Qed.

Lemma completeBER_safe_witness :
  exists r, completeBER [48; 128; 2; 1; 5; 0] 6 = Some r /\ 0 <= r <= Z.max 0 6.
Proof.
  apply (completeBER_safe [48; 128; 2; 1; 5; 0] 6); [done|].
  repeat constructor; unfold byte_ok; lia.
Defined.

(** C34: once [completeBER_n] has found an element (or found the data
    malformed), bytes that arrive later do not change its answer. *)
Theorem completeBER_n_stable (b rest : list Z) (r : Z) :
  bytes_ok b -> r <> 0 ->
  completeBER_n (ber_fuel (zlen b)) b (zlen b) 0 = Some r ->
  completeBER_n (ber_fuel (zlen (b ++ rest))) (b ++ rest) (zlen (b ++ rest)) 0 = Some r.
Proof.
  intros Hb Hr H. rewrite zlen_app. pose proof (zlen_nonneg rest). pose proof (zlen_nonneg b).
  eapply completeBER_n_ext; [done| | |done|done|exact H|done]; unfold ber_fuel; lia.
Qed.

Lemma completeBER_n_stable_witness :
  completeBER_n (ber_fuel 3) [2; 1; 5] 3 0 = Some 3 /\
  completeBER_n (ber_fuel 5) ([2; 1; 5] ++ [48; 3]) 5 0 = Some 3.
Proof.
  split; [reflexivity|]. apply (completeBER_n_stable [2; 1; 5] [48; 3] 3); [|done|reflexivity].
  repeat constructor; unfold byte_ok; lia.
Defined.



(** ** ANY *)

Lemma bp_ptr_max o : dec_ready o -> odr_max o = zlen (bp_ptr o).
Proof. intros. by rewrite bp_ptr_zlen. Qed.

Lemma odr_any_decode d e rest p opt name o :
  (d <= 1000)%nat -> ber_element d e -> dec_ready o -> bp_ptr o = e ++ rest ->
  odr_any p opt name o = Some ((1, Some (mkOct (Some e) (zlen e))), set_bp (bp o + zlen e) o).
Proof.
  intros Hd He Hr Hp. apply (proj1 element_complete) in He as [Hs Hb _ Hc].
  specialize (Hc (ber_fuel (zlen e)) 0 ltac:(unfold ber_fuel; lia) ltac:(lia)).
  unfold odr_any. mrun. rewrite (dr_error _ Hr). mrun. rewrite (dr_dir _ Hr). mrun.
  rewrite (bind_Some _ _ o (1, mkOct (Some e) (zlen e)) (set_bp (bp o + zlen e) o)); [done|].
  unfold ber_any. mrun.
  rewrite (dr_dir _ Hr). mrun. rewrite (bp_ptr_max _ Hr), Hp, zlen_app.
  pose proof (zlen_nonneg rest).
  rewrite (completeBER_n_ext rest (zlen rest) ltac:(lia) (ber_fuel (zlen e)) _ e (zlen e) 0 (zlen e));
    try (done || unfold ber_fuel; lia). mrun.
  rewrite (proj2 (Z.leb_gt _ 0)) by lia.
  assert (sub (e ++ rest) 0 (zlen e) = Some e) as -> by exact (sub_mid [] e rest). by mrun.
Qed.

Lemma odr_any_encode e opt name o :
  bytes_ok e -> direction o = ODR_ENCODE -> error o = 0 -> at_end o (zlen e) ->
  exists o', odr_any (Some (mkOct (Some e) (zlen e))) opt name o
      = Some ((1, Some (mkOct (Some e) (zlen e))), o') /\ appended o o' e.
Proof.
  intros Hb Hd He Hat. destruct (emits_write e Hb o Hat) as (o' & E & A).
  exists o'. split; [|done]. unfold odr_any. mrun. rewrite He. mrun. rewrite Hd. mrun.
  rewrite (bind_Some _ _ o (1, mkOct (Some e) (zlen e)) o'); [done|].
  unfold ber_any. mrun. rewrite Hd. mrun. cbn [oct_len oct_buf]. mrun. by rewrite (bind_Some _ _ _ _ _ E).
Qed.
