(* ===== verification/OdrBit.v ===== *)
(** * Bit strings (ber_bit.c, odr_bit.c, the ODR_MASK macros of odr.h)

    A BIT STRING is kept in a fixed array of 256 bytes with the index of its
    last byte.  The theorems: the masks behave as sets of bit numbers, and a
    mask is decoded to itself. *)

From stdpp Require Import base list numbers option strings.
From Stdlib Require Import ZArith Lia.
From S2P Require Import Prelude OdrMem BerTag BerLen OdrTag OdrCodec OdrOct.

(** ** odr.h *)

Definition ODR_BITMASK_SIZE : Z := 256.

(** [char bits[ODR_BITMASK_SIZE]], seen as unsigned bytes, and [top]. *)
Record Odr_bitmask := mkBitmask { bm_bits : list Z; bm_top : Z }.

Definition ODR_MASK_ZERO : Odr_bitmask :=
  mkBitmask (repeat 0 (Z.to_nat ODR_BITMASK_SIZE)) (-1).

(** [0x80 >> (num & 0x07)] *)
Definition mask_bit (num : Z) : Z := Z.shiftr 128 (Z.land num 7).

Definition ODR_MASK_SET (m : Odr_bitmask) (num : Z) : option Odr_bitmask :=
  let i := Z.shiftr num 3 in
  let? b := rd (bm_bits m) i in
  let? bits := splice (bm_bits m) i [u8 (Z.lor b (mask_bit num))] in
  Some (mkBitmask bits (if bm_top m <? i then i else bm_top m)).

Definition ODR_MASK_CLEAR (m : Odr_bitmask) (num : Z) : option Odr_bitmask :=
  let i := Z.shiftr num 3 in
  let? b := rd (bm_bits m) i in
  let? bits := splice (bm_bits m) i [u8 (Z.land b (Z.lnot (mask_bit num)))] in
  Some (mkBitmask bits (bm_top m)).

Definition ODR_MASK_GET (m : Odr_bitmask) (num : Z) : option Z :=
  let i := Z.shiftr num 3 in
  if i <=? bm_top m then
    let? b := rd (bm_bits m) i in
    Some (b2z (negb (Z.land b (mask_bit num) =? 0)))
  else Some 0.

(** ** ber_bit.c *)

(** [step] is the call [odr_bitstring(o, &p, 0, 0)]: like for octet strings,
    each chunk goes to a new object. *)
Definition ber_bitstring_body (step : ODR Z) (fuel : nat) (p : Odr_bitmask) (cons : Z)
    : ODR (Z * Odr_bitmask) :=
  let* o := get in
  if direction o =? ODR_DECODE then
    let* (res, len) := lift (ber_declen (bp_ptr o) 0 (odr_max o)) in
    if res <? 0 then odr_seterror OPROTO 4 ;; ret (0, p)
    else
      modify (set_bp (bp o + res)) ;;
      if negb (cons =? 0) then
        let* base := gets bp in
        let* r := chunks step fuel base len in
        ret (r, p)
      else if len <? 0 then odr_seterror OOTHER 5 ;; ret (0, p)
      else if len =? 0 then ret (1, p)
      else if ODR_BITMASK_SIZE <? len - 1 then odr_seterror OOTHER 6 ;; ret (0, p)
      else
        let* o := get in
        if odr_max o <? len then odr_seterror OOTHER 7 ;; ret (0, p)
        else
          modify (set_bp (bp o + 1)) ;;      (* silently ignore the unused-bits field *)
          let len := len - 1 in
          let* o := get in
          let* src := lift (sub (bp_ptr o) 0 len) in
          let* bits := lift (splice (bm_bits p) (bm_top p + 1) src) in
          modify (set_bp (bp o + len)) ;;
          ret (1, mkBitmask bits (bm_top p + len))
  else if direction o =? ODR_ENCODE then
    let* res := ber_enclen (bm_top p + 2) 5 0 in
    if res <? 0 then ret (0, p)
    else
      let* r := odr_putc 0 in                (* no unused bits here *)
      if r <? 0 then ret (0, p)
      else if bm_top p <? 0 then ret (1, p)
      else
        let* r := odr_write (bm_bits p) (bm_top p + 1) in
        if r <? 0 then ret (0, p) else ret (1, p)
  else if direction o =? ODR_PRINT then ret (1, p)
  else odr_seterror OOTHER 8 ;; ret (0, p).

(** ** odr_bit.c *)

(** [while (--i > 0) if (ODR_MASK_GET(p, i)) break;] *)
Fixpoint last_bit (p : Odr_bitmask) (i : nat) : option Z :=
  match i with
  | O => Some 0
  | S i' =>
      if Z.of_nat i' =? 0 then Some 0
      else
        let? g := ODR_MASK_GET p (Z.of_nat i') in
        if g =? 0 then last_bit p i' else Some (Z.of_nat i')
  end.

(** [for (j = 0; j <= i; j++)]; [n] iterations are left. *)
Fixpoint print_bits (p : Odr_bitmask) (n : nat) (j : Z) : ODR unit :=
  match n with
  | O => ret tt
  | S n =>
      let* g := lift (ODR_MASK_GET p j) in
      odr_printf (if g =? 0 then str "0" else str "1") ;;
      (if negb (j =? 0) && (Z.land (j + 1) 7 =? 0) then odr_printf (str "-") else ret tt) ;;
      print_bits p n (j + 1)
  end.

Definition odr_bitstring_body (ber : Odr_bitmask -> Z -> ODR (Z * Odr_bitmask))
    (name : option (list Z)) (cons : Z) (p : option Odr_bitmask) : ODR (Z * option Odr_bitmask) :=
  let* o := get in
  if direction o =? ODR_PRINT then
    let* v := lift p in
    odr_prname name ;;
    odr_printf (str "BITSTRING(len=" ++ fmt_d (bm_top v + 1) ++ str ") ") ;;
    let* i := lift (last_bit v (Z.to_nat ODR_BITMASK_SIZE)) in
    print_bits v (S (Z.to_nat i)) 0 ;;
    odr_printf nl ;;
    ret (1, p)
  else
    let p := if direction o =? ODR_DECODE then Some ODR_MASK_ZERO else p in
    let* v := lift p in
    let* (r, v) := ber v cons in
    ret (r, Some v).

Fixpoint ber_bitstring (fuel : nat) (p : Odr_bitmask) (cons : Z) : ODR (Z * Odr_bitmask) :=
  match fuel with
  | O => fault
  | S fuel =>
      ber_bitstring_body
        (let* (r, _) :=
           odr_head ODR_UNIVERSAL ODR_BITSTRING
             (odr_bitstring_body (ber_bitstring fuel) None) (Some p) 0 None in
         ret r)
        fuel p cons
  end.

Definition odr_bitstring : Odr_fun Odr_bitmask := fun p opt name =>
  odr_head ODR_UNIVERSAL ODR_BITSTRING
    (fun cons p =>
       let* o := get in
       odr_bitstring_body (ber_bitstring (chunk_fuel o)) name cons p) p opt name.

(** ** Masks as sets of bit numbers *)

(** The array is there and holds nothing past [top]. *)
Record bitmask_ok (m : Odr_bitmask) : Prop := {
  bk_len : zlen (bm_bits m) = ODR_BITMASK_SIZE;
  bk_bytes : bytes_ok (bm_bits m);
  bk_top : -1 <= bm_top m < ODR_BITMASK_SIZE;
  bk_zero : drop (Z.to_nat (bm_top m + 1)) (bm_bits m)
            = repeat 0 (Z.to_nat (ODR_BITMASK_SIZE - (bm_top m + 1)));
}.

(** The bytes sent: up to [top]. *)
Definition mask_bytes (m : Odr_bitmask) : list Z := take (Z.to_nat (bm_top m + 1)) (bm_bits m).

Lemma mask_zero_ok : bitmask_ok ODR_MASK_ZERO.
Proof.
  split; [done| |unfold ODR_BITMASK_SIZE; simpl; lia|done].
  apply Forall_forall. intros x Hx. apply list_elem_of_In, repeat_spec in Hx as ->.
  unfold byte_ok. lia.
Qed.

Lemma mask_split m :
  bitmask_ok m ->
  bm_bits m = mask_bytes m ++ repeat 0 (Z.to_nat (ODR_BITMASK_SIZE - (bm_top m + 1))) /\
  zlen (mask_bytes m) = bm_top m + 1.
Proof.
  intros [Hl _ Ht Hz]. unfold mask_bytes. split; [by rewrite <- Hz, take_drop|].
  unfold zlen in *. rewrite length_take. lia.
Qed.

(** ** The codec *)

Definition bit_contents (m : Odr_bitmask) : list Z :=
  def_len (bm_top m + 2) ++ 0 :: mask_bytes m.

Lemma bit_contents_ok m : bitmask_ok m -> bytes_ok (bit_contents m) /\ bit_contents m <> [].
Proof.
  intros Hm. pose proof Hm as [_ Hb Ht _]. unfold ODR_BITMASK_SIZE in Ht. split.
  - apply Forall_app. split; [apply def_len_bytes; lia|].
    constructor; [unfold byte_ok; lia|by apply Forall_take].
  - unfold bit_contents. by destruct (def_len _).
Qed.

Lemma odr_write_prefix bs junk_ o :
  odr_write (bs ++ junk_) (zlen bs) o = odr_write bs (zlen bs) o.
Proof.
  unfold odr_write. do 2 (unfold bind at 1, get; simpl).
  assert (sub (bs ++ junk_) 0 (zlen bs) = sub bs 0 (zlen bs)) as ->; [|done].
  pose proof (zlen_nonneg junk_). pose proof (zlen_nonneg bs).
  rewrite !sub_spec by (rewrite ?zlen_app; lia). rewrite !drop_0. f_equal.
  unfold zlen. rewrite Nat2Z.id, take_app_length. by rewrite take_ge by lia.
Qed.

Lemma ber_bitstring_encode m fuel o :
  bitmask_ok m -> direction o = ODR_ENCODE -> at_end o (zlen (bit_contents m)) ->
  exists o', ber_bitstring (S fuel) m 0 o = Some ((1, m), o') /\
    appended o o' (bit_contents m).
Proof.
  intros Hm Hd Hat. pose proof Hm as [_ Hb Ht _]. unfold ODR_BITMASK_SIZE in Ht.
  destruct (mask_split m Hm) as [Hs Hz]. unfold bit_contents in *.
  pose proof (def_len_nonneg (bm_top m + 2)) as Hn.
  rewrite zlen_app, zlen_cons in Hat.
  destruct (ber_enclen_emits (bm_top m + 2) ltac:(lia) o) as (o1 & E1 & A1);
    [eapply at_end_mono; [exact Hat|lia]|].
  assert (at_end o1 (1 + zlen (mask_bytes m))) as Hat1 by (eapply at_end_appended; [exact Hat|done]).
  destruct (emits_putc 0 o1) as (o2 & E2 & A2); [eapply at_end_mono; [exact Hat1|zl]|].
  assert (at_end o2 (zlen (mask_bytes m))) as Hat2 by (eapply (at_end_appended _ _ [u8 0]); [exact Hat1|done]).
  assert (bytes_ok (mask_bytes m)) as Hmb by by apply Forall_take.
  destruct (emits_write (mask_bytes m) Hmb o2 Hat2) as (o3 & E3 & A3).
  simpl ber_bitstring. unfold ber_bitstring_body. mrun. rewrite Hd. mrun.
  rewrite (bind_Some _ _ _ _ _ E1), (proj2 (Z.ltb_ge _ 0)) by lia.
  rewrite (bind_Some _ _ _ _ _ E2). change (0 <? 0) with false. cbv iota.
  destruct (Z.ltb_spec (bm_top m) 0).
  - exists o2. split; [done|]. destruct (mask_bytes m) as [|x l] eqn:E.
    + by eapply appended_trans.
    + rewrite zlen_cons in Hz. pose proof (zlen_nonneg l). lia.
  - rewrite <- odr_write_prefix with (junk_ :=
      repeat 0 (Z.to_nat (ODR_BITMASK_SIZE - (bm_top m + 1)))) in E3.
    rewrite <- Hs, Hz in E3. rewrite (bind_Some _ _ _ _ _ E3).
    exists o3. split; [done|]. eapply appended_trans; [exact A1|].
    by eapply (appended_trans _ _ _ [0]).
Qed.

Lemma ber_bitstring_decode m rest fuel o :
  bitmask_ok m -> dec_ready o -> bp_ptr o = bit_contents m ++ rest ->
  ber_bitstring (S fuel) ODR_MASK_ZERO 0 o =
    Some ((1, m), set_bp (bp o + zlen (bit_contents m)) o).
Proof.
  intros Hm Hr Hp. pose proof Hm as [_ Hb Ht _]. unfold ODR_BITMASK_SIZE in Ht.
  destruct (mask_split m Hm) as [Hs Hz]. pose proof (bp_ptr_zlen _ Hr) as Hmax.
  unfold bit_contents in *. rewrite Hp in Hmax. autorewrite with zlen in Hmax.
  pose proof (def_len_nonneg (bm_top m + 2)). pose proof (zlen_nonneg rest).
  pose proof (dr_bp _ Hr). unfold odr_max in Hmax.
  simpl ber_bitstring. unfold ber_bitstring_body. mrun. rewrite (dr_dir _ Hr). mrun.
  rewrite Hp, <- app_assoc. unfold odr_max at 1. rewrite ber_declen_def by lia. mrun.
  rewrite (proj2 (Z.ltb_ge _ 0)) by lia. mrun.
  rewrite (proj2 (Z.ltb_ge (bm_top m + 2) 0)), (proj2 (Z.eqb_neq (bm_top m + 2) 0)) by lia.
  unfold ODR_BITMASK_SIZE at 1. rewrite (proj2 (Z.ltb_ge 256 _)) by lia. mrun.
  change (odr_max (set_bp ?x o)) with (size o - x).
  rewrite (proj2 (Z.ltb_ge _ (bm_top m + 2))) by lia. mrun.
  set (o1 := set_bp (bp o + zlen (def_len (bm_top m + 2))) o).
  assert (bp_ptr o1 = 0 :: mask_bytes m ++ rest) as Hp1.
  { eapply (bp_ptr_advance o); [lia| |done]. by rewrite Hp, <- app_assoc. }
  assert (bp_ptr (set_bp (bp o1 + 1) o1) = mask_bytes m ++ rest) as ->
    by (eapply at_bp_0; [simpl; lia|done]).
  replace (bm_top m + 2 - 1) with (zlen (mask_bytes m)) by lia.
  assert (sub (mask_bytes m ++ rest) 0 (zlen (mask_bytes m)) = Some (mask_bytes m)) as ->
    by exact (sub_mid [] _ rest). mrun.
  change (bm_top ODR_MASK_ZERO + 1) with 0.
  assert (splice (bm_bits ODR_MASK_ZERO) 0 (mask_bytes m) = Some (bm_bits m)) as ->.
  { pose proof (zlen_nonneg (mask_bytes m)) as Hn0.
    assert (zlen (bm_bits ODR_MASK_ZERO) = 256) as Hz0 by done.
    rewrite splice_spec by lia. rewrite Hs. change (Z.to_nat 0) with 0%nat.
    rewrite take_0, Nat.add_0_l, app_nil_l. do 2 f_equal.
    assert (forall n k, drop n (repeat 0 k) = repeat 0 (k - n)) as Hdr.
    { induction n as [|n IH]; intros [|k]; simpl; [done|by rewrite ?Nat.sub_0_r|done|apply IH]. }
    unfold ODR_MASK_ZERO. cbn [bm_bits]. rewrite Hdr. f_equal. unfold zlen in *.
    unfold ODR_BITMASK_SIZE. lia. }
  mrun. unfold ret. rewrite Hz. subst o1. simpl.
  replace (-1 + (bm_top m + 1)) with (bm_top m) by lia.
  assert (mkBitmask (bm_bits m) (bm_top m) = m) as -> by by destruct m.
  change (set_bp ?x (set_bp ?y (set_bp ?z o))) with (set_bp x o).
  do 3 f_equal. rewrite zlen_app, zlen_cons, Hz. lia.
Qed.

#[global] Arguments ber_bitstring : simpl never.

#[export] Instance odr_bitstring_codec : OdrCodec odr_bitstring.
Proof.
  apply (simple_codec ODR_UNIVERSAL ODR_BITSTRING (fun name cons p =>
    let* o := get in odr_bitstring_body (ber_bitstring (chunk_fuel o)) name cons p)
    bitmask_ok bit_contents).
  - done.
  - apply bit_contents_ok.
  - intros name m o Hm Hd Hat.
    destruct (ber_bitstring_encode m (S (Z.to_nat (size o))) o) as (o' & E & A); [done..|].
    exists o'. split; [|done]. mrun. unfold odr_bitstring_body. mrun. rewrite Hd. mrun.
    unfold chunk_fuel. by rewrite (bind_Some _ _ _ _ _ E).
  - intros name m rest o Hm Hr Hp. mrun. unfold odr_bitstring_body. mrun.
    rewrite (dr_dir _ Hr). mrun. unfold chunk_fuel.
    by rewrite (bind_Some _ _ _ _ _ (ber_bitstring_decode m rest _ o Hm Hr Hp)).
Defined.

(** ** What the macros mean *)

Lemma rd_splice1 {A} (l l' : list A) i j x :
  splice l i [x] = Some l' -> rd l' j = if j =? i then Some x else rd l j.
Proof.
  unfold splice. destruct (_ && _) eqn:E; [|done].
  apply andb_true_iff in E as [Hi%Z.leb_le Hl%Z.leb_le]. intros [= <-].
  unfold zlen in Hl. simpl in Hl. unfold rd.
  destruct (Z.eqb_spec j i) as [->|Hne].
  - rewrite (proj2 (Z.leb_le 0 i)) by lia.
    rewrite lookup_app_r by (rewrite length_take; lia).
    rewrite length_take, Nat.min_l by lia. by rewrite Nat.sub_diag.
  - destruct (Z.leb_spec 0 j); [|done].
    destruct (Z.lt_ge_cases j i).
    + rewrite lookup_app_l by (rewrite length_take; lia). by rewrite lookup_take_lt by lia.
    + rewrite lookup_app_r by (rewrite length_take; lia). rewrite length_take, Nat.min_l by lia.
      rewrite lookup_cons_ne_0 by lia. rewrite lookup_drop. f_equal. lia.
Qed.

Lemma num_split n : 0 <= n ->
  Z.shiftr n 3 = n / 8 /\ Z.land n 7 = n mod 8 /\ n = 8 * (n / 8) + n mod 8 /\ 0 <= n mod 8 < 8.
Proof.
  intros Hn. split; [by rewrite Z.shiftr_div_pow2|]. split; [by apply (land_mask n 3)|].
  split; [apply Z.div_mod; lia|apply Z.mod_pos_bound; lia].
Qed.

(** Testing one bit of a byte. *)
Lemma mask_bit_test b n :
  byte_ok b -> 0 <= n -> negb (Z.land b (mask_bit n) =? 0) = Z.testbit b (7 - n mod 8).
Proof.
  intros Hb Hn. destruct (num_split n Hn) as (_ & E & _ & Hr). unfold mask_bit. rewrite E.
  assert (n mod 8 = 0 \/ n mod 8 = 1 \/ n mod 8 = 2 \/ n mod 8 = 3 \/ n mod 8 = 4 \/
          n mod 8 = 5 \/ n mod 8 = 6 \/ n mod 8 = 7) as H by lia. clear -H Hb.
  repeat (destruct H as [->|H]; [by_bytes b|]). rewrite H. by_bytes b.
Qed.

Lemma mask_get m n :
  bitmask_ok m -> 0 <= n < 2048 ->
  exists b, rd (bm_bits m) (n / 8) = Some b /\ byte_ok b /\
    ODR_MASK_GET m n = Some (b2z (Z.testbit b (7 - n mod 8))).
Proof.
  intros Hm Hn. pose proof Hm as [Hl Hb Ht _]. unfold ODR_BITMASK_SIZE in *.
  destruct (num_split n ltac:(lia)) as (E1 & _ & E3 & Hr).
  destruct (rd_Some (bm_bits m) (n / 8)) as [b Eb]; [lia|].
  assert (byte_ok b) as Hbb.
  { apply rd_lookup in Eb as [_ Hin]. unfold bytes_ok in Hb. rewrite Forall_forall in Hb. by apply Hb. }
  exists b. split; [done|]. split; [done|]. unfold ODR_MASK_GET. rewrite E1.
  destruct (Z.leb_spec (n / 8) (bm_top m)).
  - rewrite Eb. simpl. by rewrite mask_bit_test by (done || lia).
  - destruct (mask_split m Hm) as [Hs Hz]. rewrite Hs in Eb.
    replace (n / 8) with (zlen (mask_bytes m) + (n / 8 - zlen (mask_bytes m))) in Eb by lia.
    rewrite rd_app_r in Eb by lia. apply rd_lookup in Eb as [_ Hin].
    apply list_elem_of_In, repeat_spec in Hin as ->. by rewrite Z.bits_0.
Qed.

(** Setting bit [n] of a mask makes [ODR_MASK_GET] answer 1 for it and
    leaves every other bit as it was, and the mask stays well-formed. *)
Theorem mask_set_spec (m : Odr_bitmask) (n : Z) :
  bitmask_ok m -> 0 <= n < 2048 ->
  exists m', ODR_MASK_SET m n = Some m' /\ bitmask_ok m' /\
    forall k, 0 <= k < 2048 ->
      ODR_MASK_GET m' k = if k =? n then Some 1 else ODR_MASK_GET m k.
Proof.
  intros Hm Hn. pose proof Hm as [Hl Hb Ht Hz0]. unfold ODR_BITMASK_SIZE in *.
  destruct (num_split n ltac:(lia)) as (E1 & E2 & E3 & Hr).
  destruct (mask_get m n Hm Hn) as (b & Eb & Hbb & _).
  set (b' := u8 (Z.lor b (mask_bit n))).
  assert (bytes_ok [b']) as Hb' by (apply Forall_singleton, u8_ok).
  assert (0 <= n / 8 < 256) as Hi by lia.
  assert (exists bits', splice (bm_bits m) (n / 8) [b'] = Some bits') as [bits' Es].
  { rewrite splice_spec by (change (zlen [b']) with 1; lia). eauto. }
  set (t' := if bm_top m <? n / 8 then n / 8 else bm_top m).
  assert (ODR_MASK_SET m n = Some (mkBitmask bits' t')) as Eset.
  { unfold ODR_MASK_SET. rewrite E1, Eb. simpl. fold b'. by rewrite Es. }
  assert (bitmask_ok (mkBitmask bits' t')) as Hok'.
  { split; simpl.
    - rewrite (splice_zlen _ _ _ _ Es). done.
    - rewrite splice_spec in Es by (change (zlen [b']) with 1; lia). injection Es as <-.
      apply Forall_app. split; [by apply Forall_take|].
      constructor; [apply u8_ok|by apply Forall_drop].
    - subst t'. unfold ODR_BITMASK_SIZE. ztest.
    - rewrite splice_spec in Es by (change (zlen [b']) with 1; lia). injection Es as <-.
      assert (n / 8 < t' + 1 /\ bm_top m <= t' < 256) as Ht' by (subst t'; ztest).
      unfold zlen in Hl. rewrite drop_app_ge by (rewrite length_take; lia).
      rewrite length_take, Nat.min_l by lia.
      change (b' :: ?l) with ([b'] ++ l). rewrite drop_app_ge by (simpl; lia).
      rewrite drop_drop. simpl length.
      replace (Z.to_nat (n / 8) + 1 + (Z.to_nat (t' + 1) - Z.to_nat (n / 8) - 1))%nat
        with (Z.to_nat (bm_top m + 1) + Z.to_nat (t' - bm_top m))%nat by lia.
      rewrite <- drop_drop, Hz0. unfold ODR_BITMASK_SIZE.
      replace (Z.to_nat (256 - (bm_top m + 1)))
        with (Z.to_nat (t' - bm_top m) + Z.to_nat (256 - (t' + 1)))%nat by lia.
      rewrite repeat_app. apply drop_app_length'. by rewrite repeat_length. }
  exists (mkBitmask bits' t'). split; [done|]. split; [done|]. intros k Hk.
  destruct (mask_get _ k Hok' Hk) as (c' & Ec' & _ & ->).
  destruct (mask_get m k Hm Hk) as (c & Ec & Hc & ->).
  destruct (num_split k ltac:(lia)) as (_ & _ & F3 & Fr).
  simpl in Ec'. rewrite (rd_splice1 _ _ _ _ _ Es) in Ec'.
  destruct (Z.eqb_spec (k / 8) (n / 8)) as [Heq|Hne].
  - injection Ec' as <-. rewrite Heq, Eb in Ec. injection Ec as ->.
    assert (byte_ok (mask_bit n)) as Hmb.
    { unfold mask_bit. rewrite E2, Z.shiftr_div_pow2 by lia. unfold byte_ok.
      assert (1 <= 2 ^ (n mod 8)) by (apply (Z.pow_le_mono_r 2 0); lia).
      split; [apply Z.div_pos; lia|]. apply Z.div_lt_upper_bound; lia. }
    assert (forall x y, byte_ok x -> byte_ok y -> u8 (Z.lor x y) = Z.lor x y) as Hu.
    { intros x y Hx Hy. apply u8_small. unfold byte_ok in *.
      assert (0 <= Z.lor x y) by (apply Z.lor_nonneg; lia). split; [done|].
      destruct (Z.eq_dec (Z.lor x y) 0) as [->|]; [lia|].
      apply Z.log2_lt_pow2 with (b := 8); [lia|]. rewrite Z.log2_lor by lia.
      assert (Z.log2 x <= 7) by (apply (Z.log2_le_mono x 255); lia).
      assert (Z.log2 y <= 7) by (apply (Z.log2_le_mono y 255); lia). lia. }
    subst b'. rewrite Hu by done. rewrite Z.lor_spec.
    unfold mask_bit. rewrite E2, Z.shiftr_spec by lia.
    change 128 with (2 ^ 7). rewrite Z.pow2_bits_eqb by lia.
    destruct (Z.eqb_spec k n) as [->|Hkn].
    + rewrite (proj2 (Z.eqb_eq _ _)) by lia. by rewrite orb_true_r.
    + rewrite (proj2 (Z.eqb_neq _ _)) by lia. by rewrite orb_false_r.
  - rewrite Ec in Ec'. injection Ec' as ->.
    rewrite (proj2 (Z.eqb_neq k n)) by (intros ->; done). done.
Qed.

Lemma mask_set_spec_witness :
  exists m', ODR_MASK_SET ODR_MASK_ZERO 17 = Some m' /\ bitmask_ok m' /\
    forall k, 0 <= k < 2048 ->
      ODR_MASK_GET m' k = if k =? 17 then Some 1 else ODR_MASK_GET ODR_MASK_ZERO k.
Proof. apply (mask_set_spec ODR_MASK_ZERO 17); [apply mask_zero_ok|lia]. Defined.
