(* ===== verification/OdrChoice.v ===== *)
(** * CHOICE and EXTERNAL (odr_choice.c, odr_use.c)

    [odr_choice] picks the arm of a CHOICE by the tag found in the buffer, or
    by the number stored in the value.  EXTERNAL, a SEQUENCE with optional
    members and a CHOICE, is a codec: it is decoded to itself whichever members
    are present and whichever arm is taken. *)

From stdpp Require Import base list numbers option strings.
From Stdlib Require Import ZArith Lia.
From S2P Require Import Prelude OdrMem BerTag BerLen OdrTag BerPrim OdrCodec BerOid OdrPrim.
From S2P Require Import OdrOct OdrCons OdrSeq OdrTagged OdrStream BerAny OdrBit.

(** ** odr_choice.c *)

Definition ODR_NONE : Z := -1.
Definition ODR_IMPLICIT : Z := 0.
Definition ODR_EXPLICIT : Z := 1.

(** [U] is the union the arms share.  A table of arms is the list of its
    entries before the one with a null function. *)
Record odr_arm (U : Type) := mkArm {
  tagmode : Z; arm_class : Z; arm_tag : Z; arm_which : Z;
  arm_fun : Odr_fun U; arm_name : list Z }.
Arguments mkArm {U}.
Arguments tagmode {U}.
Arguments arm_class {U}.
Arguments arm_tag {U}.
Arguments arm_which {U}.
Arguments arm_fun {U}.
Arguments arm_name {U}.

Section choice.
Context {U : Type}.

(** The tag the arms are compared with; [None] is [return 0]. *)
Definition choice_tag (a : odr_arm U) (cl tg : Z) : ODR (option (Z * Z)) :=
  let* o := get in
  if direction o =? ODR_DECODE then
    if cl <? 0 then
      let* more := (match stack o with [] => ret 1 | _ => odr_constructed_more end) in
      if more =? 0 then ret None
      else
        let* (r, t) := lift (ber_dectag (bp_ptr o) (mkTag cl tg 0) (odr_max o)) in
        if r <=? 0 then ret None else ret (Some (tg_class t, tg_tag t))
    else ret (Some (cl, tg))
  else ret (Some (arm_class a, arm_tag a)).

(** The arm whose tag matches. *)
Definition choice_take (a : odr_arm U) (cl tg : Z) (p : option U) (which : Z)
    : ODR (Z * option U * Z) :=
  if tagmode a =? ODR_IMPLICIT then
    odr_implicit_settag cl tg ;;
    let* (r, p) := arm_fun a p 0 (Some (arm_name a)) in
    ret (r, p, which)
  else
    let* (r, p) := odr_constructed_begin p cl tg None in
    if r =? 0 then ret (0, p, which)
    else
      let* (r, p) := arm_fun a p 0 (Some (arm_name a)) in
      if r =? 0 then ret (0, p, which)
      else
        let* r := odr_constructed_end in
        ret (b2z (negb (r =? 0)), p, which).

(** The loop over the arms, up to the one with a null function. *)
Fixpoint choice_arms (arms : list (odr_arm U)) (bias cl tg : Z) (p : option U) (which : Z)
    : ODR (Z * option U * Z) :=
  match arms with
  | [] => ret (0, p, which)
  | a :: arms =>
      let* o := get in
      if (if direction o =? ODR_DECODE
          then (0 <=? bias) && negb (bias =? arm_which a)
          else negb (which =? arm_which a))
      then choice_arms arms bias cl tg p which
      else
        let which := if direction o =? ODR_DECODE then arm_which a else which in
        if negb (tagmode a =? ODR_NONE) then
          let* t := choice_tag a cl tg in
          match t with
          | None => ret (0, p, which)
          | Some (cl, tg) =>
              if (tg =? arm_tag a) && (cl =? arm_class a)
              then choice_take a cl tg p which
              else choice_arms arms bias cl tg p which
          end
        else
          let* (r, p) := arm_fun a p 1 (Some (arm_name a)) in
          match p with
          | Some _ => if negb (r =? 0) then ret (1, p, which)
                      else choice_arms arms bias cl tg p which
          | None => choice_arms arms bias cl tg p which
          end
  end.

Definition odr_choice (arms : list (odr_arm U)) (p : option U) (which : Z)
    (name : option (list Z)) : ODR (Z * option U * Z) :=
  let* o := get in
  let bias := choice_bias o in
  if negb (error o =? 0) then ret (0, p, which)
  else if negb (direction o =? ODR_DECODE) && (match p with None => true | Some _ => false end)
  then ret (0, p, which)
  else
    let '(p, which) := if direction o =? ODR_DECODE then (None, -1) else (p, which) in
    modify (set_choice_bias (-1)) ;;
    (if direction o =? ODR_PRINT then
       match name with
       | Some _ => odr_prname name ;; odr_printf (str "choice" ++ nl)
       | None => ret tt
       end
     else ret tt) ;;
    choice_arms arms bias (-1) 0 p which.
End choice.

Definition odr_choice_bias (what : Z) : ODR unit :=
  modify (fun o => if enable_bias o then set_choice_bias what o else o).
Definition odr_choice_enable_bias (mode : Z) : ODR unit :=
  modify (set_enable_bias (negb (mode =? 0))).

(** ** odr_use.c *)

Inductive ext_union :=
  | single_ASN1_type (a : Odr_oct)
  | octet_aligned (a : Odr_oct)
  | arbitrary (m : Odr_bitmask).

Definition ODR_EXTERNAL_single : Z := 0.
Definition ODR_EXTERNAL_octet : Z := 1.
Definition ODR_EXTERNAL_arbitrary : Z := 2.

Record Odr_external := mkExternal {
  direct_reference : option (list Z);
  indirect_reference : option Z;
  descriptor : option (list Z);
  ext_which : Z;
  ext_u : option ext_union }.

(** A codec used on one member of a union: reading the union through another
    member is undefined. *)
Definition on_member {U A} (inj : A -> U) (proj : U -> option A) (f : Odr_fun A) : Odr_fun U :=
  fun p opt name =>
    let* q := (match p with
               | None => ret None
               | Some u => let* a := lift (proj u) in ret (Some a)
               end) in
    let* (r, q) := f q opt name in
    ret (r, inj <$> q).

Definition external_arms : list (odr_arm ext_union) :=
  [ mkArm ODR_EXPLICIT ODR_CONTEXT 0 ODR_EXTERNAL_single
      (on_member single_ASN1_type
         (fun u => match u with single_ASN1_type a => Some a | _ => None end) odr_any)
      (str "single");
    mkArm ODR_IMPLICIT ODR_CONTEXT 1 ODR_EXTERNAL_octet
      (on_member octet_aligned
         (fun u => match u with octet_aligned a => Some a | _ => None end) odr_octetstring)
      (str "octet");
    mkArm ODR_IMPLICIT ODR_CONTEXT 2 ODR_EXTERNAL_arbitrary
      (on_member arbitrary
         (fun u => match u with arbitrary a => Some a | _ => None end) odr_bitstring)
      (str "arbitrary") ].

(** The members one after the other; [return a && b && ...]. *)
Definition external_members (pp : Odr_external) : ODR (Z * Odr_external) :=
  let '(mkExternal d i s w u) := pp in
  let* (r, d) := odr_oid d 1 (Some (str "direct")) in
  if r =? 0 then ret (0, mkExternal d i s w u)
  else
    let* (r, i) := odr_integer i 1 (Some (str "indirect")) in
    if r =? 0 then ret (0, mkExternal d i s w u)
    else
      let* (r, s) := odr_graphicstring s 1 (Some (str "descriptor")) in
      if r =? 0 then ret (0, mkExternal d i s w u)
      else
        let* (r, u, w) := odr_choice external_arms u w None in
        ret (r, mkExternal d i s w u).

Definition odr_external : Odr_fun Odr_external := fun p opt name =>
  odr_implicit_settag ODR_UNIVERSAL ODR_EXTERNAL ;;
  let* o := get in
  let* (r, p) := odr_sequence_begin p
                   (Some (mkExternal None None None (s32 (fresh_int o)) None)) name in
  if r =? 0 then let* r := odr_missing opt name in ret (r, p)
  else
    let* pp := lift p in
    let* (r, pp) := external_members pp in
    if r =? 0 then ret (0, Some pp)
    else let* r := odr_sequence_end in ret (b2z (negb (r =? 0)), Some pp).

#[global] Arguments odr_any : simpl never.
#[global] Arguments odr_choice : simpl never.

(** ** Members of an open value *)

(** Encoding: [m] returns [x] and appends [bs], inside an open value in which
    [d] more can be opened. *)
Definition writes {X} (d : Z) (m : ODR X) (x : X) (bs : list Z) : Prop :=
  forall o, stack o <> [] -> t_class o = -1 -> enc_ready o (zlen bs) -> depth_ok o d ->
  exists o', m o = Some (x, o') /\ encoded o o' bs.

Lemma writes_bind {X Y} d (m : ODR X) (k : X -> ODR Y) x y bs1 bs2 :
  writes d m x bs1 -> writes d (k x) y bs2 -> writes d (bind m k) y (bs1 ++ bs2).
Proof.
  intros H1 H2 o Hs Hc Hr Hd. rewrite zlen_app in Hr.
  pose proof (zlen_nonneg bs1). pose proof (zlen_nonneg bs2).
  destruct (H1 o) as (o1 & E1 & D1); [done|done|eapply enc_ready_mono; [exact Hr|lia]|done|].
  destruct (H2 o1) as (o2 & E2 & D2).
  - by rewrite (f_equal stack (ed_frame _ _ _ D1) : stack o1 = stack o).
  - apply D1.
  - by eapply enc_ready_next.
  - by eapply depth_ok_enc.
  - exists o2. split; [|by eapply encoded_trans]. by rewrite (bind_Some _ _ _ _ _ E1).
Qed.

(** The bytes of an optional member. *)
Definition opt_bytes {A} (f : Odr_fun A) `{!OdrCodec f} (v : option A) (bs : list Z) : Prop :=
  match v with Some v => element_bytes f v bs | None => bs = [] end.

Lemma writes_optional {A} (f : Odr_fun A) `{!OdrCodec f} d v bs name :
  opt_bytes f v bs -> cd_depth (f := f) <= d -> writes d (f v 1 name) (1, v) bs.
Proof.
  intros Hv Hle o Hs Hc Hr Hd. destruct v as [v|].
  - destruct Hv as [Hv Hbs].
    apply (cd_encode cd_class cd_tag v bs 1 name o);
      [apply cd_own_tag|done|done|by apply in_force_own|done|by eapply depth_ok_mono].
  - simpl in Hv. subst bs. by apply cd_absent_encode.
Qed.

(** Decoding: [o] is inside the value opened at [o1], [k] bytes of its contents
    were read, and an optional member may have been looked for in vain. *)
Record inside (o1 o : odr) (k : Z) : Prop := {
  in_frame : non_dec o = non_dec o1;
  in_class : t_class o = -1;
  in_bp : bp o = bp o1 + k;
  in_ready : dec_ready o;
}.

Section reading.
Context (o0 o1 : odr) (n : Z) (cb tl rest : list Z) (Hop : opened_dec o0 o1 n cb tl rest).

Lemma inside_start : inside o1 o1 0.
Proof. destruct Hop. split; [done|done|lia|done]. Qed.

Lemma inside_ptr o pre more_ : cb = pre ++ more_ -> inside o1 o (zlen pre) ->
  bp_ptr o = more_ ++ tl ++ rest.
Proof.
  intros Hcb [F _ B R]. unfold bp_ptr. rewrite (f_equal buf F : buf o = buf o1), B.
  pose proof (dr_bp _ (od_ready _ _ _ _ _ _ Hop)). unfold zlen.
  replace (Z.to_nat (bp o1 + Z.of_nat (length pre))) with (Z.to_nat (bp o1) + length pre)%nat by lia.
  rewrite <- drop_drop. fold (bp_ptr o1). rewrite (od_ptr _ _ _ _ _ _ Hop), Hcb, <- app_assoc.
  apply drop_app_length.
Qed.

Lemma inside_decoded o o' k m :
  inside o1 o k -> decoded o o' m -> 0 <= m <= odr_max o -> inside o1 o' (k + m).
Proof.
  intros [F C B R] D Hm. pose proof D as [F' C' L' B'].
  split; [by rewrite F'|done|lia|by eapply decoded_ready].
Qed.

Lemma inside_stack o k : inside o1 o k -> stack o = stack o1 /\ stack o <> [].
Proof.
  intros [F _ _ _]. assert (stack o = stack o1) as E by exact (f_equal stack F).
  split; [done|]. rewrite E. destruct (od_entry _ _ _ _ _ _ Hop) as (? & ? & -> & _). done.
Qed.

Lemma inside_depth o k d : inside o1 o k -> depth_ok o1 d -> depth_ok o d.
Proof.
  intros [F _ _ _] [Hd Hm].
  assert (stack_depth o = stack_depth o1) as E by exact (f_equal stack_depth F).
  assert (stack o = stack o1) as E' by exact (f_equal stack F).
  split; [by rewrite E, E'|by rewrite E].
Qed.

(** An element is next. *)
Lemma inside_more o pre more_ c t :
  cb = pre ++ more_ -> begins more_ c t -> inside o1 o (zlen pre) -> more_at o.
Proof.
  intros Hcb (k & tb & r & -> & [Hc Ht] & Hk & Htb) Hin.
  pose proof (inside_ptr _ _ _ Hcb Hin) as Hp. destruct (inside_stack _ _ Hin) as [Hs _].
  apply tag_bytes_head in Htb as (b & l & -> & Hb); [|lia..].
  eapply (opened_more _ _ _ _ _ _ o (zlen pre) b); [exact Hop|done|apply Hin| |exact Hp|done].
  rewrite Hcb, !zlen_app, zlen_cons. pose proof (zlen_nonneg l). pose proof (zlen_nonneg r). lia.
Qed.

(** No element is next. *)
Lemma inside_end o : inside o1 o (zlen cb) -> odr_constructed_more o = Some (0, o).
Proof.
  intros [F C B R].
  eapply (constructed_more_frame (set_bp (bp o) (set_lclass (-1) o))); [|done..].
  eapply (opened_done _ _ _ _ _ _ _ Hop). split; simpl; [exact F|done|done|done].
Qed.

(** [m] returns [x] and reads [bs] after the part [pre] of the contents. *)
Definition reads {X} (m : ODR X) (x : X) (pre bs : list Z) : Prop :=
  forall o, inside o1 o (zlen pre) ->
  exists o', m o = Some (x, o') /\ inside o1 o' (zlen (pre ++ bs)).

Lemma reads_optional {A} (f : Odr_fun A) `{!OdrCodec f} d v bs pre more_ p name :
  depth_ok o1 d -> cd_depth (f := f) <= d -> opt_bytes f v bs -> cb = pre ++ bs ++ more_ ->
  (v = None -> more_ = [] \/
     exists c t, begins more_ c t /\ (cd_class (f := f), cd_tag (f := f)) <> (c, t)) ->
  reads (f p 1 name) (1, v) pre bs.
Proof.
  intros Hd Hle Hv Hcb Hnone o Hin. destruct v as [v|].
  - destruct Hv as [Hv Hbs].
    destruct (cd_shape cd_class cd_tag v bs cd_own_tag Hv Hbs) as (_ & _ & tb & k & c0 & Htb & Hk & Ebs).
    pose proof (inside_ptr o pre (bs ++ more_) Hcb Hin) as Hp. rewrite <- app_assoc in Hp.
    assert (begins (bs ++ more_) (cd_class (f := f)) (cd_tag (f := f))) as Hbg.
    { exists k, tb, (c0 ++ more_). split; [by rewrite Ebs, <- app_assoc|].
      split; [apply cd_own_tag|done]. }
    destruct (cd_decode cd_class cd_tag v bs (more_ ++ tl ++ rest) p 1 name o) as (o' & E & D);
      [apply cd_own_tag|done|done|apply in_force_own, Hin|apply Hin|by eapply inside_more|done
      |eapply depth_ok_mono; [by eapply inside_depth|done]|].
    exists o'. split; [done|]. rewrite zlen_app. eapply inside_decoded; [done..|].
    pose proof (bp_ptr_zlen _ (in_ready _ _ _ Hin)) as Hl. rewrite Hp, !zlen_app in Hl.
    pose proof (zlen_nonneg bs). pose proof (zlen_nonneg more_). pose proof (zlen_nonneg tl).
    pose proof (zlen_nonneg rest). lia.
  - simpl in Hv. subst bs. destruct (inside_stack _ _ Hin) as [_ Hs].
    destruct (cd_absent_decode (f := f) cd_class cd_tag p 1 name o) as (o' & E & [F C B R]).
    { done. } { apply cd_own_tag. } { apply in_force_own, Hin. } { apply Hin. }
    { split; [done|]. destruct (Hnone eq_refl) as [->|(c & t & Hb & Hne)].
      - left. rewrite !app_nil_r in Hcb. subst pre. by apply inside_end.
      - right. split; [by eapply inside_more|]. exists c, t. split; [|done].
        rewrite (inside_ptr o pre more_ Hcb Hin).
        destruct Hb as (k & tb & r & -> & ? & ? & ?). exists k, tb, (r ++ tl ++ rest).
        split; [by rewrite <- app_assoc|done]. }
    exists o'. split; [done|]. rewrite app_nil_r. destruct Hin. split; [by rewrite F|done|lia|done].
Qed.

Lemma reads_bind {X Y} (m : ODR X) (k : X -> ODR Y) x y pre bs1 bs2 :
  reads m x pre bs1 -> reads (k x) y (pre ++ bs1) bs2 -> reads (bind m k) y pre (bs1 ++ bs2).
Proof.
  intros H1 H2 o Hin. destruct (H1 o Hin) as (o2 & E1 & Hin1).
  destruct (H2 o2 Hin1) as (o3 & E2 & Hin2). exists o3.
  rewrite app_assoc. split; [|done]. by rewrite (bind_Some _ _ _ _ _ E1).
Qed.
End reading.

(** ** The union of EXTERNAL *)

Definition union_which (u : ext_union) : Z :=
  match u with
  | single_ASN1_type _ => ODR_EXTERNAL_single
  | octet_aligned _ => ODR_EXTERNAL_octet
  | arbitrary _ => ODR_EXTERNAL_arbitrary
  end.

(** A well-formed element, an octet string, a bit mask. *)
Definition union_ok (u : ext_union) : Prop :=
  match u with
  | single_ASN1_type a =>
      exists d e, a = mkOct (Some e) (zlen e) /\ (d <= 1000)%nat /\ ber_element d e
  | octet_aligned a => cd_ok (f := odr_octetstring) a
  | arbitrary m => bitmask_ok m
  end.

Definition union_bytes (u : ext_union) (bs : list Z) : Prop :=
  match u with
  | single_ASN1_type a => exists e, oct_buf a = Some e /\ bs = 160 :: con_bytes e
  | octet_aligned a => cd_bytes (f := odr_octetstring) ODR_CONTEXT 1 a bs
  | arbitrary m => cd_bytes (f := odr_bitstring) ODR_CONTEXT 2 m bs
  end.

Lemma union_begins u bs :
  union_ok u -> union_bytes u bs -> begins bs ODR_CONTEXT (union_which u) /\ bytes_ok bs.
Proof.
  destruct u as [a|a|m]; intros Hok Hbs.
  - destruct Hbs as (e & He & ->). destruct Hok as (d & e' & -> & Hd & Hel).
    simpl in He. injection He as ->. apply (proj1 element_complete) in Hel as [_ Hb _ _].
    split; [|constructor; [unfold byte_ok; lia|by apply con_bytes_ok]].
    exists 1, [160], (con_bytes e). split; [done|]. split; [done|]. split; [lia|done].
  - destruct (cd_shape (f := odr_octetstring) ODR_CONTEXT 1 a bs ltac:(done) Hok Hbs)
      as (Hb & _ & tb & k & c & Htb & Hk & ->). split; [|done]. by exists k, tb, c.
  - destruct (cd_shape (f := odr_bitstring) ODR_CONTEXT 2 m bs ltac:(done) Hok Hbs)
      as (Hb & _ & tb & k & c & Htb & Hk & ->). split; [|done]. by exists k, tb, c.
Qed.

Lemma on_member_some {U A} (inj : A -> U) proj f (v v' : A) opt name o r o' :
  proj (inj v) = Some v -> f (Some v) opt name o = Some ((r, Some v'), o') ->
  on_member inj proj f (Some (inj v)) opt name o = Some ((r, Some (inj v')), o').
Proof.
  intros Hp E. unfold on_member, bind, lift, ret. rewrite Hp. simpl. by rewrite E.
Qed.

Lemma on_member_none {U A} (inj : A -> U) proj f (v : A) opt name o r o' :
  f None opt name o = Some ((r, Some v), o') ->
  on_member inj proj f None opt name o = Some ((r, Some (inj v)), o').
Proof. intros E. unfold on_member, bind, ret. simpl. by rewrite E. Qed.

(** The octets of an arm with an implicit tag. *)
Lemma implicit_arm_encode {A} (f : Odr_fun A) `{!OdrCodec f} cl tg v bs name o :
  tag_ok cl tg -> cd_ok v -> cd_bytes cl tg v bs -> t_class o = -1 ->
  enc_ready o (zlen bs) -> depth_ok o (cd_depth (f := f)) ->
  exists o1 o', odr_implicit_settag cl tg o = Some (1, o1) /\
    f (Some v) 0 name o1 = Some ((1, Some v), o') /\ encoded o o' bs.
Proof.
  intros Htag Hv Hbs Hc Hr Hd.
  destruct (settag_spec o cl tg (cd_class (f := f)) (cd_tag (f := f)) (er_error _ _ Hr)
    (tag_ok_class _ _ Htag)) as (o1 & E1 & Hf1 & H1).
  destruct (cd_encode cl tg v bs 0 name o1) as (o' & E & D);
    [done|done|done|rewrite Hf1; by apply in_force_own|by eapply enc_ready_tag
    |by destruct H1 as [-> | ->]|].
  exists o1, o'. split; [done|]. split; [done|by eapply encoded_tag].
Qed.

Lemma implicit_arm_decode {A} (f : Odr_fun A) `{!OdrCodec f} cl tg v bs rest name o :
  tag_ok cl tg -> cd_ok v -> cd_bytes cl tg v bs -> t_class o = -1 ->
  dec_ready o -> more_at o -> bp_ptr o = bs ++ rest -> depth_ok o (cd_depth (f := f)) ->
  exists o1 o', odr_implicit_settag cl tg o = Some (1, o1) /\
    f None 0 name o1 = Some ((1, Some v), o') /\ decoded o o' (zlen bs).
Proof.
  intros Htag Hv Hbs Hc Hr Hm Hp Hd.
  destruct (settag_spec o cl tg (cd_class (f := f)) (cd_tag (f := f)) (dr_error _ Hr)
    (tag_ok_class _ _ Htag)) as (o1 & E1 & Hf1 & H1).
  destruct (dec_ready_tag _ _ _ _ H1 Hr Hm) as (Hr1 & Hm1 & Hp1).
  destruct (cd_decode cl tg v bs rest None 0 name o1) as (o' & E & D);
    [done|done|done|rewrite Hf1; by apply in_force_own|done|done|by rewrite Hp1
    |by destruct H1 as [-> | ->]|].
  exists o1, o'. split; [done|]. split; [done|by eapply decoded_tag].
Qed.

(** What [odr_choice] does before the loop. *)
Lemma odr_choice_encode {U} (arms : list (odr_arm U)) u which name o n :
  enc_ready o n ->
  odr_choice arms (Some u) which name o = choice_arms arms (-1) (-1) 0 (Some u) which o.
Proof.
  intros Hr. pose proof (er_bias _ _ Hr) as Hb.
  assert (set_choice_bias (-1) o = o) as Ho by (clear -Hb; destruct o; simpl in *; by subst).
  unfold odr_choice. mrun. rewrite (er_error _ _ Hr). mrun. rewrite (er_dir _ _ Hr). mrun.
  cbn [andb]. mrun. by rewrite Ho, Hb.
Qed.

Lemma odr_choice_decode {U} (arms : list (odr_arm U)) p which name o :
  dec_ready o ->
  odr_choice arms p which name o = choice_arms arms (-1) (-1) 0 None (-1) o.
Proof.
  intros Hr. pose proof (dr_bias _ Hr) as Hb.
  assert (set_choice_bias (-1) o = o) as Ho by (clear -Hb; destruct o; simpl in *; by subst).
  unfold odr_choice. mrun. rewrite (dr_error _ Hr). mrun. rewrite (dr_dir _ Hr). mrun.
  cbn [andb]. mrun. by rewrite Ho, Hb.
Qed.

(** The loop, arm by arm. *)
Section arms.
Context {U : Type} (a : odr_arm U) (arms : list (odr_arm U)).

Lemma choice_skip_encode cl tg p which o :
  direction o = ODR_ENCODE -> which <> arm_which a ->
  choice_arms (a :: arms) (-1) cl tg p which o = choice_arms arms (-1) cl tg p which o.
Proof.
  intros Hd Hw. cbn [choice_arms]. mrun. rewrite Hd. mrun.
  by rewrite (proj2 (Z.eqb_neq _ _)) by done.
Qed.

Lemma choice_take_encode cl tg p o :
  direction o = ODR_ENCODE -> tagmode a <> ODR_NONE ->
  choice_arms (a :: arms) (-1) cl tg p (arm_which a) o
    = choice_take a (arm_class a) (arm_tag a) p (arm_which a) o.
Proof.
  intros Hd Hm. cbn [choice_arms]. mrun. rewrite Hd. mrun. rewrite Z.eqb_refl. mrun.
  rewrite (proj2 (Z.eqb_neq _ _)) by done. mrun.
  rewrite (bind_Some _ _ o (Some (arm_class a, arm_tag a)) o).
  - by rewrite !Z.eqb_refl.
  - unfold choice_tag. mrun. rewrite Hd. by mrun.
Qed.

(** When decoding, the tag is looked up once. *)
Lemma choice_step_decode c t p which cl tg o :
  dec_ready o -> more_at o -> begins (bp_ptr o) c t -> tagmode a <> ODR_NONE ->
  (cl = -1 \/ (cl = c /\ tg = t)) ->
  choice_arms (a :: arms) (-1) cl tg p which o =
    if (t =? arm_tag a) && (c =? arm_class a) then choice_take a c t p (arm_which a) o
    else choice_arms arms (-1) c t p (arm_which a) o.
Proof.
  intros Hr Hm (k & tb & rest & Hp & [Hc Ht] & Hk & Htb) Hmode Hcl.
  cbn [choice_arms]. mrun. rewrite (dr_dir _ Hr). mrun.
  change ((0 <=? -1) && negb (-1 =? arm_which a)) with false. cbv iota.
  rewrite (proj2 (Z.eqb_neq _ _)) by done. mrun.
  rewrite (bind_Some _ _ o (Some (c, t)) o); [by destruct (_ && _)|].
  unfold choice_tag. mrun. rewrite (dr_dir _ Hr). mrun.
  destruct Hcl as [->|[-> ->]].
  - change (-1 <? 0) with true. cbv iota.
    rewrite (bind_Some _ _ o 1 o).
    + change (1 =? 0) with false. cbv iota. rewrite Hp.
      pose proof (bp_ptr_zlen _ Hr) as Hl. rewrite Hp, zlen_app in Hl.
      pose proof (zlen_nonneg rest). pose proof (tag_bytes_nonempty _ _ _ _ Htb).
      rewrite (ber_dectag_tag_bytes c t k) by (done || lia). mrun.
      by rewrite (proj2 (Z.leb_gt _ 0)) by lia.
    + destruct (stack o) eqn:Es; [done|]. apply odr_constructed_more_yes; [done..|by rewrite Es].
  - by rewrite (proj2 (Z.ltb_ge c 0)) by lia.
Qed.
End arms.

Lemma choice_take_implicit {U A} (a : odr_arm U) (inj : A -> U) proj (f : Odr_fun A) c t p which o o1 o' v q :
  tagmode a = ODR_IMPLICIT -> arm_fun a = on_member inj proj f ->
  (p = None /\ q = None \/ exists v0, p = Some (inj v0) /\ proj (inj v0) = Some v0 /\ q = Some v0) ->
  odr_implicit_settag c t o = Some (1, o1) ->
  f q 0 (Some (arm_name a)) o1 = Some ((1, Some v), o') ->
  choice_take a c t p which o = Some ((1, Some (inj v), which), o').
Proof.
  intros Hm Hf Hpq E1 E. unfold choice_take. rewrite Hm. change (ODR_IMPLICIT =? ODR_IMPLICIT) with true.
  cbv iota. rewrite (bind_Some _ _ _ _ _ E1), Hf.
  destruct Hpq as [[-> ->]|(v0 & -> & Hp & ->)].
  - by rewrite (bind_Some _ _ _ _ _ (on_member_none inj proj f _ _ _ _ _ _ E)).
  - by rewrite (bind_Some _ _ _ _ _ (on_member_some inj proj f _ _ _ _ _ _ _ Hp E)).
Qed.

(** The arm of EXTERNAL that is any element under an explicit tag. *)
Definition single_arm : odr_arm ext_union :=
  mkArm ODR_EXPLICIT ODR_CONTEXT 0 ODR_EXTERNAL_single
    (on_member single_ASN1_type
       (fun u => match u with single_ASN1_type a => Some a | _ => None end) odr_any)
    (str "single").

Lemma appended_encoded o o' bs : t_class o = -1 -> appended o o' bs -> encoded o o' bs.
Proof.
  intros Hc [F P T S O K]. split; [unfold non_enc; by rewrite F| |done..].
  rewrite <- Hc. exact (f_equal t_class F).
Qed.

Lemma single_encode e o :
  bytes_ok e -> t_class o = -1 -> enc_ready o (zlen (160 :: con_bytes e)) -> depth_ok o 1 ->
  let u := Some (single_ASN1_type (mkOct (Some e) (zlen e))) in
  exists o', choice_take single_arm ODR_CONTEXT 0 u ODR_EXTERNAL_single o
      = Some ((1, u, ODR_EXTERNAL_single), o') /\ encoded o o' (160 :: con_bytes e).
Proof.
  intros Hb Hc Hr Hd u. pose proof (con_bytes_zlen e). pose proof (zlen_nonneg e).
  assert (enc_ready o (zlen [160] + 1 + zlen e)) as Hr'
    by (eapply enc_ready_mono; [exact Hr|autorewrite with zlen; lia]).
  destruct (constructed_begin_encode o (single_ASN1_type (mkOct (Some e) (zlen e)))
    ODR_CONTEXT 0 None ODR_CONTEXT 0 [160] (zlen e)) as (o1 & E1 & Hop);
    [done|done|by apply in_force_own|done..|].
  pose proof (opened_ready _ _ _ _ Hop Hr' (zlen_nonneg e)) as Hr1.
  destruct (odr_any_encode e 0 (Some (str "single")) o1) as (o2 & E2 & A2);
    [done|apply Hr1|apply Hr1|apply Hr1|].
  destruct (constructed_end_encode o o1 o2 [160] e Hop) as (o3 & E3 & D3);
    [apply appended_encoded; [apply Hop|done]|done|].
  exists o3. split; [|done]. unfold choice_take. cbn [tagmode arm_fun arm_name single_arm].
  change (ODR_EXPLICIT =? ODR_IMPLICIT) with false. cbv iota. subst u.
  rewrite (bind_Some _ _ _ _ _ E1). change (1 =? 0) with false. cbv iota.
  rewrite (bind_Some _ _ _ (1, Some (single_ASN1_type (mkOct (Some e) (zlen e)))) o2)
    by (by apply on_member_some).
  change (1 =? 0) with false. cbv iota. by rewrite (bind_Some _ _ _ _ _ E3).
Qed.

Lemma single_decode d e rest o :
  (d <= 1000)%nat -> ber_element d e -> t_class o = -1 -> dec_ready o -> more_at o ->
  bp_ptr o = (160 :: con_bytes e) ++ rest -> depth_ok o 1 ->
  exists o', choice_take single_arm ODR_CONTEXT 0 None ODR_EXTERNAL_single o
      = Some ((1, Some (single_ASN1_type (mkOct (Some e) (zlen e))), ODR_EXTERNAL_single), o') /\
    decoded o o' (zlen (160 :: con_bytes e)).
Proof.
  intros Hde Hel Hc Hr Hm Hp Hd.
  destruct (constructed_begin_decode (A := ext_union) o None ODR_CONTEXT 0 None ODR_CONTEXT 0 [160] e
    (con_bytes e) rest) as (o1 & n & tl & E1 & Hop & Hz);
    [done|done|by apply in_force_own|apply con_bytes_form|done..|].
  pose proof (odr_any_decode d e (tl ++ rest) None 0 (Some (str "single")) o1 Hde Hel
    (od_ready _ _ _ _ _ _ Hop) (od_ptr _ _ _ _ _ _ Hop)) as E2.
  destruct (constructed_end_decode o o1 n e tl rest _ Hop
    (decoded_advance _ _ _ (zlen e) (opened_dec_nil _ _ _ _ _ _ Hop))) as (o3 & E3 & D3).
  exists o3. change (160 :: con_bytes e) with ([160] ++ con_bytes e). rewrite Hz. split; [|done].
  unfold choice_take. cbn [tagmode arm_fun arm_name single_arm].
  change (ODR_EXPLICIT =? ODR_IMPLICIT) with false. cbv iota.
  rewrite (bind_Some _ _ _ _ _ E1). change (1 =? 0) with false. cbv iota.
  rewrite (bind_Some _ _ _ _ _ (on_member_none _ _ _ _ _ _ _ _ _ E2)).
  change (1 =? 0) with false. cbv iota. by rewrite (bind_Some _ _ _ _ _ E3).
Qed.

Lemma union_writes u bs :
  union_ok u -> union_bytes u bs ->
  writes 1 (odr_choice external_arms (Some u) (union_which u) None) (1, Some u, union_which u) bs.
Proof.
  intros Hok Hbs o Hs Hc Hr Hd. pose proof (er_dir _ _ Hr) as Hdir.
  rewrite (odr_choice_encode _ _ _ _ _ _ Hr). unfold external_arms.
  destruct u as [a|a|m]; cbn [union_which].
  - destruct Hok as (d & e & -> & Hde & Hel). destruct Hbs as (e' & He & ->).
    cbn in He. injection He as <-.
    destruct (single_encode e o) as (o' & E & D); [|done..|].
    { by destruct (proj1 element_complete _ _ Hel). }
    exists o'. split; [|done].
    rewrite (choice_take_encode (mkArm _ _ _ ODR_EXTERNAL_single _ _)) by done. exact E.
  - rewrite choice_skip_encode by done.
    destruct (implicit_arm_encode odr_octetstring ODR_CONTEXT 1 a bs (Some (str "octet")) o)
      as (o1 & o' & E1 & E & D); [done..|by eapply depth_ok_mono|].
    exists o'. split; [|done].
    rewrite (choice_take_encode (mkArm _ _ _ ODR_EXTERNAL_octet _ _)) by done.
    eapply choice_take_implicit; [done|done| |exact E1|exact E]. right. by exists a.
  - do 2 rewrite choice_skip_encode by done.
    destruct (implicit_arm_encode odr_bitstring ODR_CONTEXT 2 m bs (Some (str "arbitrary")) o)
      as (o1 & o' & E1 & E & D); [done..|by eapply depth_ok_mono|].
    exists o'. split; [|done].
    rewrite (choice_take_encode (mkArm _ _ _ ODR_EXTERNAL_arbitrary _ _)) by done.
    eapply choice_take_implicit; [done|done| |exact E1|exact E]. right. by exists m.
Qed.

Lemma union_decode u bs rest p which o :
  union_ok u -> union_bytes u bs -> t_class o = -1 -> dec_ready o -> more_at o ->
  bp_ptr o = bs ++ rest -> depth_ok o 1 ->
  exists o', odr_choice external_arms p which None o = Some ((1, Some u, union_which u), o') /\
    decoded o o' (zlen bs).
Proof.
  intros Hok Hbs Hc Hr Hm Hp Hd. destruct (union_begins u bs Hok Hbs) as [Hbg _].
  assert (begins (bp_ptr o) ODR_CONTEXT (union_which u)) as Hb.
  { destruct Hbg as (k & tb & r & -> & ? & ? & ?). exists k, tb, (r ++ rest).
    split; [by rewrite Hp, <- app_assoc|done]. }
  rewrite (odr_choice_decode _ _ _ _ _ Hr). unfold external_arms.
  destruct u as [a|a|m]; cbn [union_which] in *.
  - destruct Hok as (d & e & -> & Hde & Hel). destruct Hbs as (e' & He & ->).
    cbn in He. injection He as <-.
    destruct (single_decode d e rest o) as (o' & E & D); [done..|].
    exists o'. split; [|done].
    rewrite (choice_step_decode _ _ ODR_CONTEXT ODR_EXTERNAL_single) by (done || by left). exact E.
  - destruct (implicit_arm_decode odr_octetstring ODR_CONTEXT 1 a bs rest (Some (str "octet")) o)
      as (o1 & o' & E1 & E & D); [done..|by eapply depth_ok_mono|].
    exists o'. split; [|done].
    rewrite (choice_step_decode _ _ ODR_CONTEXT ODR_EXTERNAL_octet) by (done || by left).
    cbn [arm_tag arm_class]. change ((_ =? 0) && _) with false. cbv iota.
    rewrite (choice_step_decode _ _ ODR_CONTEXT ODR_EXTERNAL_octet) by (done || by right).
    eapply choice_take_implicit; [done|done|by left|exact E1|exact E].
  - destruct (implicit_arm_decode odr_bitstring ODR_CONTEXT 2 m bs rest (Some (str "arbitrary")) o)
      as (o1 & o' & E1 & E & D); [done..|by eapply depth_ok_mono|].
    exists o'. split; [|done].
    rewrite (choice_step_decode _ _ ODR_CONTEXT ODR_EXTERNAL_arbitrary) by (done || by left).
    cbn [arm_tag arm_class]. change ((_ =? 0) && _) with false. cbv iota.
    rewrite (choice_step_decode _ _ ODR_CONTEXT ODR_EXTERNAL_arbitrary) by (done || by right).
    cbn [arm_tag arm_class]. change ((ODR_EXTERNAL_arbitrary =? 1) && _) with false. cbv iota.
    rewrite (choice_step_decode _ _ ODR_CONTEXT ODR_EXTERNAL_arbitrary) by (done || by right).
    eapply choice_take_implicit; [done|done|by left|exact E1|exact E].
Qed.

(** ** EXTERNAL *)

Definition external_ok (x : Odr_external) : Prop :=
  match x with
  | mkExternal d i s w u =>
      (forall v, d = Some v -> oid_ok v) /\ (forall v, i = Some v -> int64_ok v) /\
      (forall v, s = Some v -> cstring_ok v) /\
      exists v, u = Some v /\ w = union_which v /\ union_ok v
  end.

Definition external_contents (x : Odr_external) (cb : list Z) : Prop :=
  match x with
  | mkExternal d i s w u =>
      exists db ib sb ub v, cb = db ++ ib ++ sb ++ ub /\
        opt_bytes odr_oid d db /\ opt_bytes odr_integer i ib /\ opt_bytes odr_graphicstring s sb /\
        u = Some v /\ w = union_which v /\ union_ok v /\ union_bytes v ub
  end.

Definition external_bytes (c t : Z) (x : Odr_external) (bs : list Z) : Prop :=
  exists tb cb, tag_bytes c t 1 tb /\ external_contents x cb /\ bs = tb ++ con_bytes cb.

Lemma opt_bytes_total {A} (f : Odr_fun A) `{!OdrCodec f} v :
  (forall x, v = Some x -> cd_ok x) -> exists bs, opt_bytes f v bs.
Proof.
  intros H. destruct v as [v|]; [|by exists []].
  destruct (cd_total cd_class cd_tag v cd_own_tag (H v eq_refl)) as [bs Hbs]. exists bs.
  split; [by apply H|done].
Qed.

Lemma opt_bytes_ok {A} (f : Odr_fun A) `{!OdrCodec f} v bs : opt_bytes f v bs -> bytes_ok bs.
Proof.
  destruct v as [v|]; [|intros ->; constructor]. intros [Hv Hbs].
  by destruct (cd_shape cd_class cd_tag v bs cd_own_tag Hv Hbs).
Qed.

(** What follows an absent member begins with the tag of a later one. *)
Lemma opt_begins {A} (f : Odr_fun A) `{!OdrCodec f} v bs rest c t :
  opt_bytes f v bs -> begins rest c t ->
  exists c' t', begins (bs ++ rest) c' t' /\
    ((c', t') = (cd_class (f := f), cd_tag (f := f)) \/ (c', t') = (c, t)).
Proof.
  intros Hv Hr. destruct v as [v|].
  - destruct Hv as [Hv Hbs].
    destruct (cd_shape cd_class cd_tag v bs cd_own_tag Hv Hbs) as (_ & _ & tb & k & cb & Htb & Hk & ->).
    do 2 eexists. split; [|by left]. exists k, tb, (cb ++ rest).
    split; [by rewrite <- app_assoc|]. split; [apply cd_own_tag|done].
  - simpl in Hv. subst bs. exists c, t. by split; [|right].
Qed.

Lemma union_total u : union_ok u -> exists bs, union_bytes u bs.
Proof.
  destruct u as [a|a|m]; intros Hok.
  - destruct Hok as (d & e & -> & _). eexists. by exists e.
  - by apply (cd_total (f := odr_octetstring) ODR_CONTEXT 1 a).
  - by apply (cd_total (f := odr_bitstring) ODR_CONTEXT 2 m).
Qed.

Lemma external_contents_total x : external_ok x -> exists cb, external_contents x cb.
Proof.
  destruct x as [d i s w u]. intros (Hd & Hi & Hs & v & -> & Hw & Hv).
  destruct (opt_bytes_total odr_oid d) as [db Hdb]; [exact Hd|].
  destruct (opt_bytes_total odr_integer i) as [ib Hib]; [exact Hi|].
  destruct (opt_bytes_total odr_graphicstring s) as [sb Hsb]; [exact Hs|].
  destruct (union_total v Hv) as [ub Hub].
  eexists. by exists db, ib, sb, ub, v.
Qed.

Lemma external_contents_ok x cb : external_contents x cb -> bytes_ok cb.
Proof.
  destruct x as [d i s w u]. intros (db & ib & sb & ub & v & -> & Hd & Hi & Hs & _ & _ & Hv & Hu).
  unfold bytes_ok. rewrite !Forall_app. split; [by apply (opt_bytes_ok odr_oid d)|].
  split; [by apply (opt_bytes_ok odr_integer i)|].
  split; [by apply (opt_bytes_ok odr_graphicstring s)|].
  by apply (union_begins v ub).
Qed.

Lemma external_members_encode x cb :
  external_contents x cb -> writes 1 (external_members x) (1, x) cb.
Proof.
  destruct x as [d i s w u].
  intros (db & ib & sb & ub & v & -> & Hdb & Hib & Hsb & -> & -> & Hv & Hub).
  unfold external_members.
  eapply writes_bind; [apply (writes_optional odr_oid 1 d db); [done|by vm_compute]|].
  change (1 =? 0) with false. cbv iota.
  eapply writes_bind; [apply (writes_optional odr_integer 1 i ib); [done|by vm_compute]|].
  change (1 =? 0) with false. cbv iota.
  eapply writes_bind; [apply (writes_optional odr_graphicstring 1 s sb); [done|by vm_compute]|].
  change (1 =? 0) with false. cbv iota. rewrite <- (app_nil_r ub).
  eapply writes_bind; [by apply union_writes|].
  intros o _ Hc Hr _. exists o. split; [done|]. destruct (er_end _ _ Hr) as (? & ? & _).
  by apply encoded_refl.
Qed.

Lemma external_members_decode o0 o1 n cb tl rest x y :
  opened_dec o0 o1 n cb tl rest -> depth_ok o1 1 -> external_contents x cb ->
  exists o', external_members y o1 = Some ((1, x), o') /\ decoded o1 o' (zlen cb).
Proof.
  intros Hop Hd Hx. destruct x as [d i s w u], y as [d0 i0 s0 w0 u0].
  destruct Hx as (db & ib & sb & ub & v & Hcb & Hdb & Hib & Hsb & -> & -> & Hv & Hub).
  destruct (union_begins v ub Hv Hub) as [Bu Hubb].
  assert (cd_depth (f := odr_oid) <= 1) as L1 by by vm_compute.
  assert (cd_depth (f := odr_integer) <= 1) as L2 by by vm_compute.
  assert (cd_depth (f := odr_graphicstring) <= 1) as L3 by by vm_compute.
  destruct (opt_begins odr_graphicstring s sb ub _ _ Hsb Bu) as (c2 & t2 & B2 & T2).
  destruct (opt_begins odr_integer i ib (sb ++ ub) _ _ Hib B2) as (c1 & t1 & B1 & T1).
  destruct (reads_optional o0 o1 n cb tl rest Hop odr_oid 1 d db [] (ib ++ sb ++ ub) d0
    (Some (str "direct")) Hd L1 Hdb Hcb) with (o := o1) as (oa & Ea & Ia).
  { intros _. right. exists c1, t1. split; [done|]. intros E. destruct T1 as [T1|T1]; rewrite T1 in E; [by vm_compute in E|].
    destruct T2 as [T2|T2]; rewrite T2 in E; [by vm_compute in E|].
    apply (f_equal fst) in E. by vm_compute in E. }
  { by apply inside_start with (1 := Hop). }
  destruct (reads_optional o0 o1 n cb tl rest Hop odr_integer 1 i ib ([] ++ db) (sb ++ ub) i0
    (Some (str "indirect")) Hd L2 Hib Hcb) with (o := oa) as (ob & Eb & Ib).
  { intros _. right. exists c2, t2. split; [done|]. intros E.
    destruct T2 as [T2|T2]; rewrite T2 in E; [by vm_compute in E|].
    apply (f_equal fst) in E. by vm_compute in E. }
  { done. }
  destruct (reads_optional o0 o1 n cb tl rest Hop odr_graphicstring 1 s sb (([] ++ db) ++ ib) ub s0
    (Some (str "descriptor")) Hd L3 Hsb) with (o := ob) as (oc & Ec & Ic).
  { by rewrite <- app_assoc. }
  { intros _. right. do 2 eexists. split; [exact Bu|]. intros E.
    apply (f_equal fst) in E. by vm_compute in E. }
  { done. }
  assert (cb = ((([] ++ db) ++ ib) ++ sb) ++ ub) as Hcb' by (rewrite Hcb; simpl; by rewrite !app_assoc).
  pose proof (inside_ptr _ _ _ _ _ _ Hop oc _ _ Hcb' Ic) as Hp.
  destruct (union_decode v ub (tl ++ rest) u0 w0 oc) as (od & Ed & Dd);
    [done|done|apply Ic|apply Ic|by eapply inside_more|done|by eapply inside_depth|].
  exists od. split.
  - unfold external_members. rewrite (bind_Some _ _ _ _ _ Ea). change (1 =? 0) with false. cbv iota.
    rewrite (bind_Some _ _ _ _ _ Eb). change (1 =? 0) with false. cbv iota.
    rewrite (bind_Some _ _ _ _ _ Ec). change (1 =? 0) with false. cbv iota.
    by rewrite (bind_Some _ _ _ _ _ Ed).
  - destruct Ic as [F C B R], Dd as [F' C' L' B']. split; [by rewrite F'|done|done|].
    rewrite B', B, Hcb', (zlen_app _ ub). lia.
Qed.

Lemma external_encode c t x tb cb opt name o :
  tag_ok c t -> tag_bytes c t 1 tb -> external_contents x cb ->
  in_force o ODR_UNIVERSAL ODR_EXTERNAL = (c, t) ->
  enc_ready o (zlen (tb ++ con_bytes cb)) -> depth_ok o 2 ->
  exists o', odr_external (Some x) opt name o = Some ((1, Some x), o') /\
    encoded o o' (tb ++ con_bytes cb).
Proof.
  intros Htag Htb Hx Hf Hr Hd.
  pose proof (con_bytes_zlen cb). pose proof (zlen_nonneg cb). pose proof (zlen_nonneg tb).
  destruct (settag_spec o ODR_UNIVERSAL ODR_EXTERNAL ODR_UNIVERSAL ODR_SEQUENCE (er_error _ _ Hr)
    ltac:(done)) as (o1 & E1 & Hf1 & Hset). rewrite Hf in Hf1.
  assert (enc_ready o1 (zlen (tb ++ con_bytes cb))) as Hr1 by by eapply enc_ready_tag.
  assert (depth_ok o1 2) as Hd1 by by destruct Hset as [-> | ->].
  destruct (seq_begin_encode ODR_SEQUENCE
    (Some (mkExternal None None None (s32 (fresh_int o1)) None)) name o1 x c t tb (zlen cb))
    as (o2 & E2 & Hop); [done..|eapply enc_ready_mono; [exact Hr1|rewrite zlen_app; lia]|done
    |eapply depth_ok_mono; [exact Hd1|lia]|].
  destruct (external_members_encode x cb Hx o2) as (o3 & E3 & D3).
  { destruct (op_entry _ _ _ Hop) as (? & -> & _). done. } { apply Hop. }
  { eapply opened_ready; [exact Hop| |done].
    eapply enc_ready_mono; [exact Hr1|rewrite zlen_app; lia]. }
  { by eapply opened_depth. }
  destruct (constructed_end_encode o1 o2 o3 tb cb Hop D3 Hr1) as (o4 & E4 & D4).
  exists o4. split; [|by eapply encoded_tag]. unfold odr_external, odr_sequence_begin.
  rewrite (bind_Some _ _ _ _ _ E1). mrun. rewrite (bind_Some _ _ _ _ _ E2).
  change (1 =? 0) with false. cbv iota. mrun. rewrite (bind_Some _ _ _ _ _ E3).
  change (1 =? 0) with false. cbv iota. unfold odr_sequence_end.
  by rewrite (bind_Some _ _ _ _ _ E4).
Qed.

Lemma external_decode c t x tb cb fb rest p opt name o :
  tag_ok c t -> tag_bytes c t 1 tb -> external_contents x cb -> con_form cb fb ->
  in_force o ODR_UNIVERSAL ODR_EXTERNAL = (c, t) ->
  dec_ready o -> more_at o -> bp_ptr o = tb ++ fb ++ rest -> depth_ok o 2 ->
  exists o', odr_external p opt name o = Some ((1, Some x), o') /\ decoded o o' (zlen (tb ++ fb)).
Proof.
  intros Htag Htb Hx Hcf Hf Hr Hm Hp Hd.
  destruct (settag_spec o ODR_UNIVERSAL ODR_EXTERNAL ODR_UNIVERSAL ODR_SEQUENCE (dr_error _ Hr)
    ltac:(done)) as (o1 & E1 & Hf1 & Hset). rewrite Hf in Hf1.
  destruct (dec_ready_tag _ _ _ _ Hset Hr Hm) as (Hr1 & Hm1 & Hp1).
  assert (depth_ok o1 2) as Hd1 by by destruct Hset as [-> | ->].
  set (blank := mkExternal None None None (s32 (fresh_int o1)) None).
  destruct (seq_begin_decode ODR_SEQUENCE (Some blank) name o1 p c t tb cb fb rest)
    as (o2 & n & tl & E2 & Hop & Hz); [done..|by rewrite Hp1|eapply depth_ok_mono; [exact Hd1|lia]|].
  destruct (external_members_decode o1 o2 n cb tl rest x blank Hop) as (o3 & E3 & D3);
    [by eapply opened_dec_depth|done|].
  destruct (constructed_end_decode o1 o2 n cb tl rest o3 Hop D3) as (o4 & E4 & D4).
  rewrite Hz. exists o4. split; [|by eapply decoded_tag]. unfold odr_external, odr_sequence_begin.
  rewrite (bind_Some _ _ _ _ _ E1). mrun. fold blank. rewrite (bind_Some _ _ _ _ _ E2).
  change (1 =? 0) with false. cbv iota. mrun. rewrite (bind_Some _ _ _ _ _ E3).
  change (1 =? 0) with false. cbv iota. unfold odr_sequence_end.
  by rewrite (bind_Some _ _ _ _ _ E4).
Qed.

#[export] Instance odr_external_codec : OdrCodec odr_external.
Proof.
  refine {| cd_class := ODR_UNIVERSAL; cd_tag := ODR_EXTERNAL; cd_depth := 2;
            cd_ok := external_ok; cd_bytes := external_bytes |}.
  - done.
  - done.
  - intros c t x [Hc Ht] Hx. destruct (external_contents_total x Hx) as [cb Hcb].
    destruct (tag_bytes_total c t 1) as [tb Htb]; [lia|]. eexists. by exists tb, cb.
  - intros c t x bs [Hc Ht] _ (tb & cb & Htb & Hcb & ->). apply external_contents_ok in Hcb.
    pose proof (con_bytes_zlen cb). pose proof (tag_bytes_nonempty _ _ _ _ Htb).
    pose proof (zlen_nonneg cb). split; [|split].
    + apply Forall_app. split; [eapply tag_bytes_bytes; [..|exact Htb]; lia|by apply con_bytes_ok].
    + rewrite zlen_app. lia.
    + exists tb, 1, (con_bytes cb). split; [done|]. split; [lia|done].
  - intros c t x bs opt name o Htag _ (tb & cb & Htb & Hcb & ->) Hf Hr Hd.
    by apply (external_encode c t).
  - intros c t x bs rest p opt name o Htag _ (tb & cb & Htb & Hcb & ->) Hf Hr Hm Hp Hd.
    rewrite <- app_assoc in Hp.
    by apply (external_decode c t x tb cb (con_bytes cb) rest); [..|apply con_bytes_form|done|done|done|done|done].
  - intros opt name o Hopt Hr Hs.
    destruct (settag_spec o ODR_UNIVERSAL ODR_EXTERNAL 0 0 (er_error _ _ Hr) ltac:(done))
      as (o1 & E1 & _ & Hset).
    assert (enc_ready o1 0) as Hr1 by by eapply enc_ready_tag.
    destruct (seq_begin_absent_encode ODR_SEQUENCE
      (Some (mkExternal None None None (s32 (fresh_int o1)) None)) name o1 Hr1) as (o2 & E2 & D2);
      [by destruct Hset as [-> | ->]|].
    exists o2. split; [|by eapply encoded_tag]. unfold odr_external, odr_sequence_begin.
    rewrite (bind_Some _ _ _ _ _ E1). mrun. rewrite (bind_Some _ _ _ _ _ E2).
    change (0 =? 0) with true. cbv iota.
    assert (error o2 = 0) as He.
    { rewrite (f_equal error (ed_frame _ _ _ D2) : error o2 = error o1). apply Hr1. }
    by rewrite (bind_Some _ _ _ _ _ (odr_missing_opt _ _ _ He Hopt)).
  - intros c t p opt name o Hopt Htag Hf Hr Hn.
    destruct (settag_spec o ODR_UNIVERSAL ODR_EXTERNAL ODR_UNIVERSAL ODR_SEQUENCE (dr_error _ Hr)
      ltac:(done)) as (o1 & E1 & Hf1 & Hset). rewrite Hf in Hf1.
    destruct (seq_begin_absent ODR_SEQUENCE
      (Some (mkExternal None None None (s32 (fresh_int o1)) None)) name o1 p c t) as (o2 & E2 & S2).
    { done. } { done. } { by destruct Hset as [-> | ->]; destruct Hr; split. }
    { eapply not_here_frame; [exact Hn|by destruct Hset as [-> | ->]..]. }
    exists o2. split; [|by eapply skipped_tag]. unfold odr_external, odr_sequence_begin.
    rewrite (bind_Some _ _ _ _ _ E1). mrun. rewrite (bind_Some _ _ _ _ _ E2).
    change (0 =? 0) with true. cbv iota.
    by rewrite (bind_Some _ _ _ _ _ (odr_missing_opt _ _ _ (dr_error _ (sk_ready _ _ S2)) Hopt)).
Defined.


(** A MARC record in an EXTERNAL: the record syntax and the octets. *)
Definition sample_external : Odr_external :=
  mkExternal (Some [1; 2; 840; 10003; 5; 10; -1]) None None ODR_EXTERNAL_octet
    (Some (octet_aligned (odr_create_Odr_oct (str "00024")))).

