(* ===== verification/OidUtil.v ===== *)
(** * Object identifiers as arrays and as text (oid_util.c, odr_util.c)

    An OID is an array of [short] ended by -1.  The theorems: comparison
    decides equality of the arcs, and the dotted form of an OID of up to 19
    arcs is read back; a dotted form of 20 arcs is written past the end of the
    caller's array. *)

From stdpp Require Import base list numbers option strings.
From Stdlib Require Import ZArith Lia.
From S2P Require Import Prelude Text BerOid.

(** ** oid_util.c *)

(** Copy up to and including the terminator: [t] and [s] are the arrays from
    the pointers on. *)
Fixpoint oid_oidcpy (t s : list Z) : option (list Z) :=
  match t, s with
  | _ :: t, a :: s =>
      if -1 <? a then let? t := oid_oidcpy t s in Some (a :: t) else Some (a :: t)
  | _, _ => None
  end.

Fixpoint oid_oidcat (t s : list Z) : option (list Z) :=
  match t with
  | [] => None
  | b :: t' =>
      if -1 <? b then let? t' := oid_oidcat t' s in Some (b :: t')
      else oid_oidcpy t s
  end.

Fixpoint oid_oidcmp (o1 o2 : list Z) : option Z :=
  match o1, o2 with
  | a :: o1, b :: o2 =>
      if (a =? b) && (-1 <? a) then oid_oidcmp o1 o2
      else Some (if a =? b then 0 else if b <? a then 1 else -1)
  | _, _ => None
  end.

Fixpoint oid_oidlen (o : list Z) : option Z :=
  match o with
  | [] => None
  | a :: o => if 0 <=? a then Z.succ <$> oid_oidlen o else Some 0
  end.

(** The text appended to [oidbuf] from arc [i] on. *)
Fixpoint dotstring_from (fuel : nat) (oid : list Z) (i : Z) : option (list Z) :=
  match fuel with
  | O => Some []                                                (* i < OID_SIZE *)
  | S fuel =>
      match oid with
      | [] => None
      | a :: oid =>
          if a =? -1 then Some []
          else
            let? rest := dotstring_from fuel oid (i + 1) in
            Some ((if 0 <? i then str "." else []) ++ take 18 (fmt_d a) ++ rest)
      end
  end.

(** What [oidbuf] holds afterwards, without its terminator. *)
Definition oid_oid_to_dotstring (oid : list Z) : option (list Z) :=
  dotstring_from (Z.to_nat OID_SIZE) oid 0.

(** The loop over [name]; [val] is an [int] whose overflow is undefined. *)
Fixpoint dotstring_loop (name : list Z) (i val : Z) (oid : list Z)
    : option (Z * Z * list Z) :=
  match name with
  | [] => None
  | c :: name =>
      if yaz_isdigit c then
        let val := val * 10 + (c - 48) in
        if INT_MAX <? val then None
        else
          match name with
          | [] => None
          | c2 :: name' =>
              if c2 =? 46 then
                if i <? OID_SIZE - 1 then
                  let? oid := splice oid i [s16 val] in
                  dotstring_loop name' (i + 1) 0 oid
                else dotstring_loop name' i 0 oid
              else dotstring_loop name i val oid
          end
      else Some (i, val, oid)
  end.

(** The return value and the caller's array of [OID_SIZE] entries. *)
Definition oid_dotstring_to_oid (name oid : list Z) : option (Z * list Z) :=
  let? (i, val, oid) := dotstring_loop name 0 0 oid in
  if i =? 0 then Some (-1, oid)
  else
    let? oid := splice oid i [s16 val] in
    let? oid := splice oid (i + 1) [-1] in
    Some (0, oid).

(** ** odr_util.c *)

(** The array allocated has [oid_oidlen + 1] entries. *)
Definition odr_oiddup_nmem (o : option (list Z)) : option (option (list Z)) :=
  match o with
  | None => Some None
  | Some o =>
      let? n := oid_oidlen o in
      let? r := oid_oidcpy (repeat 0 (Z.to_nat (n + 1))) o in
      Some (Some r)
  end.

Definition odr_getoidbystr_nmem (s : list Z) (junk_ : list Z) : option (option (list Z)) :=
  let? (r, oid) := oid_dotstring_to_oid s junk_ in
  if negb (r =? 0) then Some None
  else
    let? n := oid_oidlen oid in
    let? res := oid_oidcpy (repeat 0 (Z.to_nat (n + 1))) oid in
    Some (Some res).

(** ** Arrays of arcs *)

Definition arcs_ok (arcs : list Z) : Prop := Forall (fun a => 0 <= a < 32768) arcs.

Lemma oidlen_spec arcs rest : arcs_ok arcs -> oid_oidlen (arcs ++ -1 :: rest) = Some (zlen arcs).
Proof.
  induction 1 as [|a arcs Ha _ IH]; [done|]. simpl. rewrite (proj2 (Z.leb_le 0 a)) by lia.
  rewrite IH. simpl. f_equal. rewrite zlen_cons. lia.
Qed.

Lemma oidcpy_spec arcs t rest junk_ :
  arcs_ok arcs -> length t = S (length arcs) ->
  oid_oidcpy (t ++ junk_) (arcs ++ -1 :: rest) = Some (arcs ++ -1 :: junk_).
Proof.
  intros H. revert t. induction H as [|a arcs Ha _ IH]; intros t Ht.
  - destruct t as [|x [|]]; try done.
  - destruct t as [|x t]; [done|]. simpl. rewrite (proj2 (Z.ltb_lt (-1) a)) by lia.
    rewrite IH by (simpl in Ht; lia). done.
Qed.

(** [oid_oidcmp] answers 0 exactly for equal object identifiers, and its
    answers are antisymmetric. *)
Theorem oid_oidcmp_spec (a b ra rb : list Z) :
  arcs_ok a -> arcs_ok b ->
  exists r, oid_oidcmp (a ++ -1 :: ra) (b ++ -1 :: rb) = Some r /\
    oid_oidcmp (b ++ -1 :: rb) (a ++ -1 :: ra) = Some (- r) /\ (r = 0 <-> a = b).
Proof.
  intros Ha. revert b. induction Ha as [|x a Hx _ IH]; intros b0 Hb0; destruct Hb0 as [|y b Hy Hb];
    cbn [oid_oidcmp app].
  - by exists 0.
  - rewrite (proj2 (Z.eqb_neq (-1) y)), (proj2 (Z.eqb_neq y (-1))) by lia. simpl.
    exists (-1). rewrite (proj2 (Z.ltb_ge y (-1))), (proj2 (Z.ltb_lt (-1) y)) by lia.
    done.
  - rewrite (proj2 (Z.eqb_neq (-1) x)), (proj2 (Z.eqb_neq x (-1))) by lia. simpl.
    exists 1. rewrite (proj2 (Z.ltb_ge x (-1))), (proj2 (Z.ltb_lt (-1) x)) by lia. done.
  - rewrite (Z.eqb_sym y x), (proj2 (Z.ltb_lt (-1) x)), (proj2 (Z.ltb_lt (-1) y)) by lia.
    destruct (Z.eqb_spec x y) as [->|Hne]; simpl.
    + destruct (IH b Hb) as (r & -> & -> & Hr). exists r. split; [done|]. split; [done|].
      rewrite Hr. split; [congruence|by intros [= ->]].
    + destruct (Z.ltb_spec y x), (Z.ltb_spec x y); try lia.
      * exists 1. split; [done|]. split; [done|]. split; [done|]. intros [=]. congruence.
      * exists (-1). split; [done|]. split; [done|]. split; [done|]. intros [=]. congruence.
Qed.

Lemma oid_oidcmp_spec_witness :
  exists r, oid_oidcmp ([1; 2; 840] ++ [-1]) ([1; 2; 10003] ++ [-1]) = Some r /\
    oid_oidcmp ([1; 2; 10003] ++ [-1]) ([1; 2; 840] ++ [-1]) = Some (- r) /\
    (r = 0 <-> [1; 2; 840] = [1; 2; 10003]).
Proof. apply (oid_oidcmp_spec [1; 2; 840] [1; 2; 10003] [] []); repeat constructor; lia. Defined.

(** ** The dotted form *)

(** The dotted text of arcs. *)
Fixpoint dotted (arcs : list Z) : list Z :=
  match arcs with
  | [] => []
  | [a] => fmt_d a
  | a :: arcs => fmt_d a ++ 46 :: dotted arcs
  end.

Lemma arc_text a :
  0 <= a < 32768 ->
  digits_ok (fmt_d a) /\ fmt_d a <> [] /\ dec_val 0 (fmt_d a) = a /\ take 18 (fmt_d a) = fmt_d a.
Proof.
  intros Ha. destruct (fmt_d_spec a 5) as (H1 & H2 & H3 & H4); [simpl; lia|lia|].
  split; [done|]. split; [done|]. split; [done|]. apply take_ge. lia.
Qed.

Lemma dotstring_from_spec arcs : arcs_ok arcs -> forall fuel rest i,
  (length arcs < fuel)%nat -> 0 < i ->
  dotstring_from fuel (arcs ++ -1 :: rest) i
    = Some (concat (map (fun a => 46 :: fmt_d a) arcs)).
Proof.
  induction 1 as [|a arcs Ha _ IH]; intros [|fuel] rest i Hf Hi; simpl in *; try lia; [done|].
  rewrite (proj2 (Z.eqb_neq a (-1))) by lia. rewrite IH by lia. simpl.
  destruct (arc_text a Ha) as (_ & _ & _ & ->). by rewrite (proj2 (Z.ltb_lt 0 i)).
Qed.

Lemma dotstring_from_S fuel a oid i :
  dotstring_from (S fuel) (a :: oid) i =
    if a =? -1 then Some []
    else
      let? rest := dotstring_from fuel oid (i + 1) in
      Some ((if 0 <? i then str "." else []) ++ take 18 (fmt_d a) ++ rest).
Proof. done. Qed.

Lemma dotted_concat a arcs :
  dotted (a :: arcs) = fmt_d a ++ concat (map (fun a => 46 :: fmt_d a) arcs).
Proof.
  revert a. induction arcs as [|b arcs IH]; intros a; [by rewrite app_nil_r|].
  change (dotted (a :: b :: arcs)) with (fmt_d a ++ 46 :: dotted (b :: arcs)). by rewrite IH.
Qed.

Lemma to_dotstring_spec arcs rest :
  arcs_ok arcs -> arcs <> [] -> zlen arcs < OID_SIZE ->
  oid_oid_to_dotstring (arcs ++ -1 :: rest) = Some (dotted arcs).
Proof.
  intros Ha Hne Hl. destruct Ha as [|a arcs Ha Has]; [done|]. unfold OID_SIZE, zlen in Hl.
  simpl in Hl. unfold oid_oid_to_dotstring, OID_SIZE. rewrite dotted_concat.
  change (Z.to_nat 20) with 20%nat. rewrite <- app_comm_cons, dotstring_from_S.
  rewrite (proj2 (Z.eqb_neq a (-1))) by lia.
  rewrite (dotstring_from_spec arcs Has) by lia. simpl.
  by destruct (arc_text a Ha) as (_ & _ & _ & ->).
Qed.

(** The digits of a number, then whatever is not a digit. *)
Lemma dotstring_digits ds : digits_ok ds -> ds <> [] -> forall c rest i val oid,
  0 <= val -> dec_val val ds <= INT_MAX -> yaz_isdigit c = false ->
  dotstring_loop (ds ++ c :: rest) i val oid =
    if c =? 46 then
      if i <? OID_SIZE - 1 then
        let? oid := splice oid i [s16 (dec_val val ds)] in dotstring_loop rest (i + 1) 0 oid
      else dotstring_loop rest i 0 oid
    else Some (i, dec_val val ds, oid).
Proof.
  induction 1 as [|d ds Hd Hds IH]; intros Hne c rest i val oid Hv Hmax Hc; [done|].
  unfold dec_val in Hmax. simpl in Hmax. fold (dec_val (val * 10 + (d - 48)) ds) in Hmax.
  pose proof (dec_val_ge (val * 10 + (d - 48)) ds ltac:(lia) Hds) as Hge.
  change (dec_val val (d :: ds)) with (dec_val (val * 10 + (d - 48)) ds).
  rewrite <- app_comm_cons. cbn [dotstring_loop]. rewrite isdigit_true by done.
  rewrite (proj2 (Z.ltb_ge INT_MAX _)) by lia.
  destruct ds as [|d' ds].
  - cbn [app]. change (dec_val ?x []) with x. destruct (c =? 46) eqn:E; [done|].
    cbn [dotstring_loop]. by rewrite Hc.
  - cbn [app]. apply Forall_cons_1 in Hds as [Hd' Hds].
    rewrite (proj2 (Z.eqb_neq d' 46)) by lia. rewrite app_comm_cons.
    apply IH; [done|lia|done|done].
Qed.

Lemma arc_max a : 0 <= a < 32768 -> dec_val 0 (fmt_d a) <= INT_MAX.
Proof. intros Ha. destruct (arc_text a Ha) as (_ & _ & -> & _). unfold INT_MAX. lia. Qed.

Lemma splice_at {A} (xs ys : list A) y z :
  splice (xs ++ y :: ys) (zlen xs) [z] = Some (xs ++ z :: ys).
Proof.
  pose proof (zlen_nonneg xs). pose proof (zlen_nonneg ys).
  rewrite splice_spec by zl. unfold zlen. rewrite Nat2Z.id, take_app_length.
  replace (drop (length xs + length [z]) (xs ++ y :: ys)) with ys; [done|].
  by rewrite drop_app_add.
Qed.

(** Reading the dotted form back, the arcs [done_] being stored already. *)
Lemma dotstring_prefix arcs : arcs_ok arcs -> arcs <> [] -> forall done_ oid tl,
  length oid = length arcs -> zlen done_ + zlen arcs <= OID_SIZE ->
  dotstring_loop (dotted arcs ++ [0]) (zlen done_) 0 (done_ ++ oid ++ tl) =
    Some (zlen done_ + zlen arcs - 1, List.last arcs 0,
          done_ ++ (removelast arcs ++ drop (length arcs - 1) oid) ++ tl).
Proof.
  induction 1 as [|a arcs Ha Has IH]; intros Hne done_ oid tl Hl Hmax; [done|].
  destruct (arc_text a Ha) as (Hd & Hnn & Hv & _). pose proof (arc_max a Ha) as Hmx.
  destruct arcs as [|b arcs].
  - cbn [dotted]. rewrite (dotstring_digits _ Hd Hnn 0 []) by (done || lia).
    change (0 =? 46) with false. cbv iota. rewrite Hv. f_equal.
    change (zlen [a]) with 1. replace (zlen done_ + 1 - 1) with (zlen done_) by lia. done.
  - change (dotted (a :: b :: arcs)) with (fmt_d a ++ 46 :: dotted (b :: arcs)).
    rewrite <- app_assoc, <- app_comm_cons.
    rewrite (dotstring_digits _ Hd Hnn 46) by (done || lia). change (46 =? 46) with true. cbv iota.
    rewrite zlen_cons in Hmax. pose proof (zlen_nonneg arcs).
    rewrite (proj2 (Z.ltb_lt _ _)) by (rewrite zlen_cons in Hmax; lia).
    destruct oid as [|x oid]; [done|]. rewrite <- app_comm_cons, splice_at. cbn [mbind option_bind].
    rewrite Hv. replace (s16 a) with a by (symmetry; unfold s16; apply swrap_small; simpl; lia).
    replace (done_ ++ a :: oid ++ tl) with ((done_ ++ [a]) ++ oid ++ tl) by by rewrite <- app_assoc.
    replace (zlen done_ + 1) with (zlen (done_ ++ [a])) by by rewrite zlen_app.
    rewrite IH; [|done|simpl in *; lia|rewrite zlen_app; change (zlen [a]) with 1; lia].
    rewrite zlen_app, zlen_cons, !zlen_cons. change (zlen [a]) with 1.
    replace (zlen done_ + (1 + (1 + zlen arcs)) - 1)
      with (zlen done_ + 1 + (1 + zlen arcs) - 1) by lia.
    rewrite <- !app_assoc. change (length (a :: b :: arcs) - 1)%nat with (S (length arcs)).
    change (length (b :: arcs) - 1)%nat with (length arcs - 0)%nat. by rewrite Nat.sub_0_r.
Qed.

Lemma s16_arc a : 0 <= a < 32768 -> s16 a = a.
Proof. intros. unfold s16. apply swrap_small; simpl; lia. Qed.

Lemma snoc_last (arcs : list Z) : arcs <> [] -> arcs = removelast arcs ++ [List.last arcs 0].
Proof. apply app_removelast_last. Qed.

(** Three to five characters for an arc and its dot. *)
Lemma dotted_size arcs : arcs_ok arcs -> zlen (dotted arcs) <= 6 * zlen arcs.
Proof.
  induction 1 as [|a arcs Ha _ IH]; [done|]. rewrite zlen_cons, Z.mul_add_distr_l.
  destruct (fmt_d_spec a 5) as (_ & _ & _ & Hl); [simpl; lia|lia|].
  destruct arcs as [|b arcs].
  - cbn [dotted]. change (zlen []) with 0. unfold zlen. lia.
  - change (dotted (a :: b :: arcs)) with (fmt_d a ++ 46 :: dotted (b :: arcs)).
    rewrite zlen_app, zlen_cons. unfold zlen at 1. lia.
Qed.

(** The caller's array, cut after the arcs to come. *)
Lemma dotstring_array (arcs buf0 : list Z) :
  arcs <> [] -> (length arcs < length buf0)%nat ->
  exists oid y tl, buf0 = oid ++ y :: tl /\ length oid = length arcs.
Proof.
  intros _ Hl. destruct (drop (length arcs) buf0) as [|y tl] eqn:E.
  - apply (f_equal length) in E. rewrite length_drop in E. simpl in E. lia.
  - exists (take (length arcs) buf0), y, tl. rewrite <- E, take_drop. split; [done|].
    rewrite length_take. lia.
Qed.

(** An object identifier of 2 to 19 arcs, written in dotted form by
    [oid_oid_to_dotstring] and read by [oid_dotstring_to_oid] into an array of
    [OID_SIZE] entries, comes back with its terminator. *)
Theorem oid_dotstring_roundtrip (arcs rest buf0 : list Z) :
  arcs_ok arcs -> 2 <= zlen arcs <= 19 -> zlen buf0 = OID_SIZE ->
  exists s oid, oid_oid_to_dotstring (arcs ++ -1 :: rest) = Some s /\
    zlen s < 256 /\ oid_dotstring_to_oid (s ++ [0]) buf0 = Some (0, oid) /\
    take (length arcs + 1) oid = arcs ++ [-1].
Proof.
  intros Ha Hl Hb. unfold OID_SIZE in Hb.
  assert (arcs <> []) as Hne by (intros ->; unfold zlen in Hl; simpl in Hl; lia).
  pose proof (dotted_size arcs Ha) as Hsz.
  destruct (dotstring_array arcs buf0) as (oid & y & tl & Hs & Hlo); [done|unfold zlen in *; lia|].
  exists (dotted arcs), (arcs ++ -1 :: tl).
  split; [apply to_dotstring_spec; [done..|unfold OID_SIZE; lia]|]. split; [lia|]. split.
  - pose proof (dotstring_prefix arcs Ha Hne [] oid (y :: tl) Hlo) as E.
    change (zlen []) with 0 in E. cbn [app] in E.
    unfold oid_dotstring_to_oid. rewrite Hs, E by (unfold OID_SIZE; lia). cbn [mbind option_bind]. rewrite (proj2 (Z.eqb_neq _ 0)) by lia.
    pose proof (snoc_last arcs Hne) as Hsn.
    assert (zlen (removelast arcs) = 0 + zlen arcs - 1) as Hrl
      by (rewrite Hsn at 2; rewrite zlen_app; change (zlen [_]) with 1; lia).
    assert (exists z, drop (length arcs - 1) oid = [z]) as [z ->].
    { assert (length (drop (length arcs - 1) oid) = 1%nat) as H1
        by (rewrite length_drop, Hlo; unfold zlen in *; lia).
      destruct (drop (length arcs - 1) oid) as [|z [|]]; try done. by exists z. }
    rewrite <- app_assoc. cbn [app]. rewrite <- Hrl, splice_at. cbn [mbind option_bind].
    assert (0 <= List.last arcs 0 < 32768) as Hlast.
    { assert (arcs_ok (removelast arcs ++ [List.last arcs 0])) as [_ Hx]%Forall_app by by rewrite <- Hsn.
      by apply Forall_cons_1 in Hx as [Hx _]. }
    rewrite (s16_arc _ Hlast).
    change (removelast arcs ++ List.last arcs 0 :: y :: tl)
      with (removelast arcs ++ [List.last arcs 0] ++ y :: tl). rewrite app_assoc, <- Hsn.
    replace (zlen (removelast arcs) + 1) with (zlen arcs) by lia.
    by rewrite splice_at.
  - rewrite take_app_add. done.
Qed.

Lemma oid_dotstring_roundtrip_witness :
  exists s oid, oid_oid_to_dotstring ([1; 2; 840; 10003; 5; 10] ++ [-1]) = Some s /\
    zlen s < 256 /\ oid_dotstring_to_oid (s ++ [0]) (repeat 0 20) = Some (0, oid) /\
    take 7 oid = [1; 2; 840; 10003; 5; 10; -1].
Proof.
  apply (oid_dotstring_roundtrip [1; 2; 840; 10003; 5; 10] [] (repeat 0 20));
    [repeat constructor; lia|unfold zlen; simpl; lia|done].
Defined.

(** A dotted form of 20 arcs makes [oid_dotstring_to_oid] store its
    terminator past the end of an array of the documented size [OID_SIZE]. *)
Theorem oid_dotstring_overflow (arcs buf0 : list Z) :
  arcs_ok arcs -> zlen arcs = OID_SIZE -> zlen buf0 = OID_SIZE ->
  oid_dotstring_to_oid (dotted arcs ++ [0]) buf0 = None.
Proof.
  intros Ha Hl Hb. unfold OID_SIZE in *.
  assert (arcs <> []) as Hne by (intros ->; unfold zlen in Hl; simpl in Hl; lia).
  assert (length buf0 = length arcs) as Hlb by (unfold zlen in *; lia).
  pose proof (dotstring_prefix arcs Ha Hne [] buf0 [] Hlb) as E0.
  change (zlen []) with 0 in E0. rewrite !app_nil_r in E0. cbn [app] in E0.
  unfold oid_dotstring_to_oid. rewrite E0 by (unfold OID_SIZE; lia).
  cbn [mbind option_bind]. rewrite (proj2 (Z.eqb_neq _ 0)) by lia.
  destruct (splice _ (0 + zlen arcs - 1) _) as [oid'|] eqn:E; [|done]. cbn [mbind option_bind].
  apply splice_zlen in E. unfold splice. rewrite E.
  destruct (_ && _) eqn:E2; [|done]. exfalso.
  apply andb_true_iff in E2 as [_ Hx%Z.leb_le]. change (zlen [-1]) with 1 in Hx.
  rewrite zlen_app in Hx.
  assert (zlen (removelast arcs) = zlen arcs - 1) as Hrl.
  { rewrite (snoc_last arcs Hne) at 2. rewrite zlen_app. change (zlen [_]) with 1. lia. }
  unfold zlen in *. rewrite length_drop in Hx. lia.
Qed.

Lemma oid_dotstring_overflow_witness :
  oid_dotstring_to_oid (dotted (repeat 1 20) ++ [0]) (repeat 0 20) = None.
Proof.
  apply (oid_dotstring_overflow (repeat 1 20) (repeat 0 20)); [|done|done].
  repeat constructor; lia.
Defined.
