(* ===== verification/MatchStr.v ===== *)
(** * String comparison (matchstr.c)

    Comparison without case, the loose matching of names that the character
    set and attribute tables use, and the comparisons of delimited strings and
    of buffers.  A [char *] is the memory from the pointer on; a comparison
    that runs off it is undefined. *)

From stdpp Require Import base list numbers option strings.
From Stdlib Require Import ZArith Lia.
From S2P Require Import Prelude Text.

(** ** Operations *)

(** The case folding both comparisons do. *)
Definition fold_case (c : Z) : Z := if yaz_isupper c then yaz_tolower c else c.

Fixpoint strncasecmp_loop (s1 s2 : list Z) (n : nat) {struct n} : option Z :=
  match n with
  | O => Some 0
  | S n =>
      match s1, s2 with
      | c1 :: s1, c2 :: s2 =>
          let c1 := fold_case c1 in
          let c2 := fold_case c2 in
          if negb (c1 =? c2) then Some (c1 - c2) else strncasecmp_loop s1 s2 n
      | _, _ => None
      end
  end.

Definition yaz_strncasecmp (s1 s2 : list Z) (n : Z) : option Z :=
  strncasecmp_loop s1 s2 (Z.to_nat n).

Definition yaz_strcasecmp (s1 s2 : list Z) : option Z :=
  let? n := strlen s1 in yaz_strncasecmp s1 s2 (n + 1).

(** [*s1 || *s2] *)
Definition either (s1 s2 : list Z) : option Z :=
  let? c1 := rd s1 0 in
  if negb (c1 =? 0) then Some 1
  else let? c2 := rd s2 0 in Some (b2z (negb (c2 =? 0))).

(** [yaz_matchstr]: [step] is the body of the loop after the ['-'] of each
    side has been passed. *)
Fixpoint yaz_matchstr (s1 s2 : list Z) {struct s1} : option Z :=
  match s1, s2 with
  | [], _ => None
  | c1 :: s1', s2 =>
      if c1 =? 0 then either s1 s2 else
      match s2 with
      | [] => None
      | c2 :: s2' =>
          if c2 =? 0 then either s1 s2 else
          if c2 =? 63 then Some 0 else
          let step c1 r1 c2 r2 (next : list Z -> option Z) :=
            if (c1 =? 0) || (c2 =? 0) then either (c1 :: r1) (c2 :: r2) else
            if negb (c2 =? 46) && negb (fold_case c1 =? fold_case c2)
            then either (c1 :: r1) (c2 :: r2)
            else next r2 in
          let right c1 r1 next :=
            if c2 =? 45 then
              match s2' with
              | [] => None
              | c2 :: r2 => step c1 r1 c2 r2 next
              end
            else step c1 r1 c2 s2' next in
          if c1 =? 45 then
            match s1' with
            | [] => None
            | c1 :: r1 => right c1 r1 (yaz_matchstr r1)
            end
          else right c1 s1' (yaz_matchstr s1')
      end
  end.

(** [b_del] is a literal without its terminator, or null. *)
Fixpoint yaz_strcmp_del (a b : list Z) (b_del : option (list Z)) : option Z :=
  let tail x y :=
    match b_del with
    | Some d => if strchr d y then Some (s8 x) else Some (s8 x - s8 y)
    | None => Some (s8 x - s8 y)
    end in
  match a, b with
  | x :: a', y :: b' =>
      if (x =? 0) || (y =? 0) then tail x y
      else if negb (x =? y) then Some (s8 x - s8 y)
      else yaz_strcmp_del a' b' b_del
  | _, _ => None
  end.

(** <string.h>: the sign of the result is what the standard promises; the
    value here is the difference of the first octets that differ. *)
Fixpoint memcmp (a b : list Z) (n : nat) {struct n} : option Z :=
  match n with
  | O => Some 0
  | S n =>
      match a, b with
      | x :: a, y :: b => if negb (x =? y) then Some (x - y) else memcmp a b n
      | _, _ => None
      end
  end.

Fixpoint strcmp (a b : list Z) : option Z :=
  match a, b with
  | x :: a, y :: b =>
      if negb (x =? y) then Some (x - y)
      else if x =? 0 then Some 0 else strcmp a b
  | _, _ => None
  end.

Definition yaz_memcmp (a b : list Z) (len_a len_b : Z) : option Z :=
  let m_len := if len_a <? len_b then len_a else len_b in
  let? r := memcmp a b (Z.to_nat m_len) in
  if negb (r =? 0) then Some r else Some (s32 (len_a - len_b)).

Definition yaz_strcmp_null (v1 v2 : option (list Z)) : option Z :=
  match v1, v2 with
  | Some v1, Some v2 => strcmp v1 v2
  | Some _, None => Some 1
  | None, Some _ => Some (-1)
  | None, None => Some 0
  end.

(** ** Specifications *)

(** The order of strings as lists of octets: the sign of the comparison. *)
Fixpoint lex (a b : list Z) : Z :=
  match a, b with
  | [], [] => 0
  | [], _ :: _ => -1
  | _ :: _, [] => 1
  | x :: a, y :: b => if x =? y then lex a b else Z.sgn (x - y)
  end.

(** A name in which a ['-'] may stand before each character. *)
Fixpoint dashed (cs : list (bool * Z)) : list Z :=
  match cs with
  | [] => []
  | (d, c) :: cs => (if d then [45] else []) ++ c :: dashed cs
  end.

(** A character with no meaning of its own to [yaz_matchstr]. *)
Definition plain (c : Z) : Prop := c <> 0 /\ c <> 45 /\ c <> 46 /\ c <> 63.

(** ** Lemmas *)

Lemma lex_zero a : forall b, lex a b = 0 <-> a = b.
Proof.
  induction a as [|x a IH]; intros [|y b]; simpl; try done.
  destruct (Z.eqb_spec x y) as [->|Hne].
  - rewrite IH. split; [by intros ->|congruence].
  - split; [|congruence]. intros H. apply Z.sgn_null_iff in H. lia.
Qed.

Lemma fold_case_pos c : byte_ok c -> c <> 0 -> 0 < fold_case c.
Proof.
  intros Hb Hc. unfold byte_ok in Hb. unfold fold_case, yaz_isupper, yaz_tolower.
  destruct (_ && _); lia.
Qed.

Lemma fold_case_0 : fold_case 0 = 0.
Proof. done. Qed.

(** A comparison of the strings with their terminators is one of the lists. *)
Lemma strncasecmp_lex s1 : forall s2 r1 r2,
  Forall (fun c => byte_ok c /\ c <> 0) s1 -> Forall (fun c => byte_ok c /\ c <> 0) s2 ->
  exists r, strncasecmp_loop (s1 ++ 0 :: r1) (s2 ++ 0 :: r2) (S (length s1)) = Some r /\
    Z.sgn r = lex (map fold_case s1) (map fold_case s2).
Proof.
  induction s1 as [|c1 s1 IH]; intros [|c2 s2] r1 r2 H1 H2.
  - exists 0. split; reflexivity.
  - apply Forall_cons_1 in H2 as [[Hb Hc] _]. pose proof (fold_case_pos c2 Hb Hc).
    exists (0 - fold_case c2). cbn [length app strncasecmp_loop]. rewrite fold_case_0.
    rewrite (proj2 (Z.eqb_neq 0 (fold_case c2))) by lia. split; [done|]. simpl.
    apply Z.sgn_neg. lia.
  - apply Forall_cons_1 in H1 as [[Hb Hc] _]. pose proof (fold_case_pos c1 Hb Hc).
    exists (fold_case c1 - 0). cbn [length app strncasecmp_loop]. rewrite fold_case_0.
    rewrite (proj2 (Z.eqb_neq (fold_case c1) 0)) by lia. split; [done|]. simpl.
    apply Z.sgn_pos. lia.
  - apply Forall_cons_1 in H1 as [_ H1]. apply Forall_cons_1 in H2 as [_ H2].
    cbn [length app strncasecmp_loop map lex].
    destruct (Z.eqb_spec (fold_case c1) (fold_case c2)) as [E|E]; cbn [negb]; [by apply IH|].
    eexists. split; [reflexivity|done].
Qed.

Lemma either_l c r s2 : c <> 0 -> either (c :: r) s2 = Some 1.
Proof. intros H. unfold either. rewrite rd_0. simpl. by rewrite (proj2 (Z.eqb_neq c 0)). Qed.

Lemma either_r r c s2 : c <> 0 -> either (0 :: r) (c :: s2) = Some 1.
Proof. intros H. unfold either. rewrite !rd_0. simpl. by rewrite (proj2 (Z.eqb_neq c 0)). Qed.

(** ** Properties *)

(** [yaz_strcasecmp] of two C strings is defined, and its sign is the
    order of the strings with upper case folded to lower case: in particular it
    is zero exactly when they agree up to case. *)
Theorem yaz_strcasecmp_spec (s1 s2 r1 r2 : list Z) :
  Forall (fun c => byte_ok c /\ c <> 0) s1 -> Forall (fun c => byte_ok c /\ c <> 0) s2 ->
  exists r, yaz_strcasecmp (s1 ++ 0 :: r1) (s2 ++ 0 :: r2) = Some r /\
    Z.sgn r = lex (map fold_case s1) (map fold_case s2) /\
    (r = 0 <-> map fold_case s1 = map fold_case s2).
Proof.
  intros H1 H2. destruct (strncasecmp_lex s1 s2 r1 r2 H1 H2) as (r & E & Hr).
  exists r. unfold yaz_strcasecmp, yaz_strncasecmp.
  rewrite strlen_spec by (eapply Forall_impl; [exact H1|by intros ? []]).
  cbn [mbind option_bind]. unfold zlen.
  replace (Z.to_nat (Z.of_nat (length s1) + 1)) with (S (length s1)) by lia.
  split; [done|]. split; [done|]. rewrite <- lex_zero, <- Hr. symmetry. apply Z.sgn_null_iff.
Qed.

Lemma yaz_strcasecmp_spec_witness :
  exists r, yaz_strcasecmp (str "UTF-8" ++ [0]) (str "utf-8" ++ [0]) = Some r /\
    Z.sgn r = lex (map fold_case (str "UTF-8")) (map fold_case (str "utf-8")) /\
    (r = 0 <-> map fold_case (str "UTF-8") = map fold_case (str "utf-8")).
Proof.
  apply (yaz_strcasecmp_spec (str "UTF-8") (str "utf-8") [] []);
    repeat constructor; unfold byte_ok; simpl; lia.
Defined.

(** [yaz_strncasecmp] does not stop at the terminator: asked to compare
    more octets than two equal strings have, it reads past both of them. *)
Theorem yaz_strncasecmp_overread (s : list Z) (n : Z) :
  zlen s + 1 < n -> yaz_strncasecmp (s ++ [0]) (s ++ [0]) n = None.
Proof.
  unfold yaz_strncasecmp, zlen. intros H.
  assert (length (s ++ [0%Z]) < Z.to_nat n)%nat as Hl by (rewrite length_app; simpl; lia).
  clear H. generalize dependent (s ++ [0]). intros t. generalize (Z.to_nat n).
  induction t as [|c t IH]; intros [|k] Hl; simpl in Hl; try lia; [done|].
  simpl. rewrite Z.eqb_refl. apply IH. lia.
Qed.

Lemma yaz_strncasecmp_overread_witness : yaz_strncasecmp (str "ab" ++ [0]) (str "ab" ++ [0]) 4 = None.
Proof. by apply (yaz_strncasecmp_overread (str "ab") 4). Defined.

(** [yaz_matchstr] of a name against a plain one is zero exactly when they
    are the same up to case and a ['-'] before any of its characters; otherwise it
    is one.  The comparison is always defined. *)
Theorem yaz_matchstr_names (cs : list (bool * Z)) (s2 r1 r2 : list Z) :
  Forall (fun c => c.2 <> 0 /\ c.2 <> 45) cs -> Forall plain s2 ->
  yaz_matchstr (dashed cs ++ 0 :: r1) (s2 ++ 0 :: r2)
    = Some (b2z (negb (bool_decide (map fold_case cs.*2 = map fold_case s2)))).
Proof.
  intros H. revert s2. induction H as [|[d c] cs [Hc Hd] H IH]; intros s2 H2; [|simpl in Hc, Hd].
  - destruct H2 as [|c2 s2 (Hz & _) H2]; [done|]. simpl.
    by apply either_r.
  - destruct H2 as [|c2 s2 (Hz & H45 & H46 & H63) H2].
    + destruct d; simpl; [by apply either_l|]. rewrite (proj2 (Z.eqb_neq c 0)) by done.
      by apply either_l.
    + assert (bool_decide (map fold_case ((d, c) :: cs).*2 = map fold_case (c2 :: s2))
        = (fold_case c =? fold_case c2) && bool_decide (map fold_case cs.*2 = map fold_case s2)) as Hb.
      { cbn [fmap list_fmap map snd]. destruct (Z.eqb_spec (fold_case c) (fold_case c2)) as [->|Hne]; simpl.
        - apply bool_decide_ext. split; [congruence|by intros ->].
        - apply bool_decide_eq_false. congruence. }
      rewrite Hb. clear Hb. specialize (IH s2 H2).
      destruct d; simpl;
        rewrite ?(proj2 (Z.eqb_neq c 0)), ?(proj2 (Z.eqb_neq c2 0)), ?(proj2 (Z.eqb_neq c2 63)),
          ?(proj2 (Z.eqb_neq c2 45)), ?(proj2 (Z.eqb_neq c2 46)), ?(proj2 (Z.eqb_neq c 45)) by done;
        simpl; (destruct (fold_case c =? fold_case c2); simpl; [done|]);
        by apply either_l.
Qed.

Lemma yaz_matchstr_names_witness :
  yaz_matchstr (str "utf-8" ++ [0]) (str "UTF8" ++ [0]) = Some 0.
Proof.
  apply (yaz_matchstr_names
    [(false, 117); (false, 116); (false, 102); (true, 56)] (str "UTF8") [] []);
    repeat constructor; simpl; lia.
Defined.
