(* ===== verification/OidDb.v ===== *)
(** * The object identifier database (oid_db.c)

    A database is a chain of tables of names and object identifiers; the first of
    the standard database is the table that the build generates, the others are
    made by [yaz_oid_add].  Names are matched loosely ([yaz_matchstr]).  The
    theorem: what is added is found by its name, and what was found before is
    found as before. *)

From stdpp Require Import base list numbers option strings.
From Stdlib Require Import ZArith Lia.
From S2P Require Import Prelude Text MatchStr OidUtil.

(** [oid_class] *)
Definition CLASS_NOP : Z := 0.
Definition CLASS_ATTSET : Z := 3.
Definition CLASS_RECSYN : Z := 6.
Definition CLASS_GENERAL : Z := 15.

(** An entry; the name is a C string, the identifier an array ended by -1. *)
Record yaz_oid_entry := Entry {
  oclass : Z;
  oid : list Z;
  name : list Z;
}.

(** The entries of each element of the chain up to the one without a name, or the
    null pointer. *)
Definition yaz_oid_db : Type := list (option (list yaz_oid_entry)).

Section db.
(** The table that the build generates from oid.csv. *)
Context (yaz_oid_standard_entries : list yaz_oid_entry).

Definition yaz_oid_std : yaz_oid_db := [Some yaz_oid_standard_entries].
End db.

Definition yaz_oid_db_new : yaz_oid_db := [None].

(** The first entry that passes a test. *)
Fixpoint find_entry (test : yaz_oid_entry -> option bool) (es : list yaz_oid_entry)
  : option (option yaz_oid_entry) :=
  match es with
  | [] => Some None
  | e :: es => let? b := test e in if b : bool then Some (Some e) else find_entry test es
  end.

Definition name_matches (s : list Z) (e : yaz_oid_entry) : option bool :=
  let? r := yaz_matchstr (name e) s in Some (r =? 0).

Definition class_matches (cl : Z) (s : list Z) (e : yaz_oid_entry) : option bool :=
  let? m := name_matches s e in Some (m && (cl =? oclass e)).

Fixpoint yaz_string_to_oid (db : yaz_oid_db) (cl : Z) (s : list Z) : option (option (list Z)) :=
  match db with
  | [] => Some None
  | t :: db =>
      let? es := t in
      let? r := if negb (cl =? CLASS_GENERAL) then find_entry (class_matches cl s) es else Some None in
      match r with
      | Some e => Some (Some (oid e))
      | None =>
          let? r := find_entry (name_matches s) es in
          match r with
          | Some e => Some (Some (oid e))
          | None => yaz_string_to_oid db cl s
          end
      end
  end.

(** [junk_] is the array on the stack. *)
Definition yaz_string_to_oid_nmem (db : yaz_oid_db) (cl : Z) (s junk_ : list Z) : option (option (list Z)) :=
  let? o := yaz_string_to_oid db cl s in
  match o with
  | Some o => odr_oiddup_nmem (Some o)
  | None => odr_getoidbystr_nmem s junk_
  end.

Definition yaz_string_to_oid_odr := yaz_string_to_oid_nmem.

(** The name and the class. *)
Fixpoint yaz_oid_to_string (db : yaz_oid_db) (o : list Z) : option (option (list Z * Z)) :=
  match db with
  | [] => Some None
  | t :: db =>
      let? es := t in
      let? r := find_entry (fun e => let? c := oid_oidcmp (oid e) o in Some (c =? 0)) es in
      match r with
      | Some e => Some (Some (name e, oclass e))
      | None => yaz_oid_to_string db o
      end
  end.

(** The name in [std], or the dotted form, and the class. *)
Definition yaz_oid_to_string_buf (std : yaz_oid_db) (o : list Z) : option (list Z * Z) :=
  let? r := yaz_oid_to_string std o in
  match r with
  | Some (n, cl) => Some (n, cl)
  | None => let? s := oid_oid_to_dotstring o in Some (s ++ [0], CLASS_GENERAL)
  end.

Definition oid_name_to_dotstring (std : yaz_oid_db) (cl : Z) (s : list Z) : option (option (list Z)) :=
  let? o := yaz_string_to_oid std cl s in
  match o with
  | Some o => let? d := oid_oid_to_dotstring o in Some (Some (d ++ [0]))
  | None => Some None
  end.

Definition yaz_oid_is_iso2709 (o : list Z) : option bool :=
  let? n := oid_oidlen o in
  if n =? 6 then
    let? a5 := rd o 5 in
    Some (bool_decide (take 5 o = [1; 2; 840; 10003; 5]) && (a5 <=? 29) && negb (a5 =? 16))
  else Some false.

(** The value and the database. *)
Definition yaz_oid_add (db : yaz_oid_db) (cl : Z) (s new_oid : list Z) : option (Z * yaz_oid_db) :=
  let? o := yaz_string_to_oid db cl s in
  match o with
  | Some _ => Some (-1, db)
  | None =>
      let? n := oid_oidlen new_oid in
      let? alloc_oid := oid_oidcpy (repeat 0 (Z.to_nat (n + 1))) new_oid in
      let? len := strlen s in
      let? nm := sub s 0 (len + 1) in
      Some (0, db ++ [Some [Entry cl alloc_oid nm]])
  end.

(** The calls of [func], in order. *)
Fixpoint yaz_oid_trav {S} (db : yaz_oid_db) (func : yaz_oid_entry -> M S unit) : M S unit :=
  match db with
  | [] => ret tt
  | t :: db =>
      let* es := lift t in
      (fix go es := match es with [] => ret tt | e :: es => func e ;; go es end) es ;;
      yaz_oid_trav db func
  end.

(** ** Lookups *)

(** A name matches itself. *)
Lemma yaz_matchstr_refl n : forall s r1 r2, (length s <= n)%nat -> nonzero s ->
  yaz_matchstr (s ++ 0 :: r1) (s ++ 0 :: r2) = Some 0.
Proof.
  induction n as [|n IH]; intros s r1 r2 Hl Hs; (destruct s as [|c s]; [done|]); [simpl in Hl; lia|].
  apply Forall_cons_1 in Hs as [Hc Hs]. simpl in Hl. cbn [app yaz_matchstr].
  rewrite (proj2 (Z.eqb_neq c 0)) by done. destruct (c =? 63); [done|].
  destruct (Z.eqb_spec c 45) as [->|H45].
  - destruct s as [|c1 s]; [done|]. apply Forall_cons_1 in Hs as [Hc1 Hs]. cbn [app].
    rewrite (proj2 (Z.eqb_neq c1 0)) by done. cbn [orb]. rewrite Z.eqb_refl, andb_false_r.
    apply IH; [simpl in Hl; lia|done].
  - cbn [orb]. rewrite Z.eqb_refl, andb_false_r. apply IH; [lia|done].
Qed.

Lemma string_to_oid_app db db2 cl s o :
  yaz_string_to_oid db cl s = Some (Some o) -> yaz_string_to_oid (db ++ db2) cl s = Some (Some o).
Proof.
  induction db as [|[es|] db IH]; [done| |done]. cbn [app yaz_string_to_oid mbind option_bind].
  destruct (if negb (cl =? CLASS_GENERAL) then _ else _) as [[e|]|]; [done| |done]. cbn [mbind option_bind].
  destruct (find_entry (name_matches s) es) as [[e|]|]; [done|apply IH|done].
Qed.

Lemma string_to_oid_none db db2 cl s :
  yaz_string_to_oid db cl s = Some None -> yaz_string_to_oid (db ++ db2) cl s = yaz_string_to_oid db2 cl s.
Proof.
  induction db as [|[es|] db IH]; [done| |done]. cbn [app yaz_string_to_oid mbind option_bind].
  destruct (if negb (cl =? CLASS_GENERAL) then _ else _) as [[e|]|]; [done| |done]. cbn [mbind option_bind].
  destruct (find_entry (name_matches s) es) as [[e|]|]; [done|apply IH|done].
Qed.

Lemma oid_to_string_app db db2 o r :
  yaz_oid_to_string db o = Some (Some r) -> yaz_oid_to_string (db ++ db2) o = Some (Some r).
Proof.
  induction db as [|[es|] db IH]; [done| |done]. cbn [app yaz_oid_to_string mbind option_bind].
  destruct (find_entry _ es) as [[e|]|]; [done|apply IH|done].
Qed.

(** The copies that [yaz_oid_add] makes. *)
Lemma oid_copied arcs rest : arcs_ok arcs -> exists n,
  oid_oidlen (arcs ++ -1 :: rest) = Some n /\
  oid_oidcpy (repeat 0 (Z.to_nat (n + 1))) (arcs ++ -1 :: rest) = Some (arcs ++ [-1]).
Proof.
  intros Ha. exists (zlen arcs). split; [by apply oidlen_spec|].
  pose proof (oidcpy_spec arcs (repeat 0 (Z.to_nat (zlen arcs + 1))) rest [] Ha) as H.
  rewrite app_nil_r in H. apply H. rewrite repeat_length. unfold zlen. lia.
Qed.

(** ** Property *)

(** When [yaz_oid_add] adds a name, the name is found afterwards, with the
    identifier that was added, in its class and in any other; every name and every
    identifier that was found before is found as before.  It adds nothing when the
    name was found already. *)
Theorem yaz_oid_add_lookup (db : yaz_oid_db) (cl : Z) (s arcs r1 r2 : list Z) :
  arcs_ok arcs -> nonzero s ->
  (yaz_string_to_oid db cl (s ++ 0 :: r1) = Some None ->
   exists db', yaz_oid_add db cl (s ++ 0 :: r1) (arcs ++ -1 :: r2) = Some (0, db') /\
     yaz_string_to_oid db' cl (s ++ 0 :: r1) = Some (Some (arcs ++ [-1])) /\
     (forall cl' t, yaz_string_to_oid db cl' t = Some None -> t = s ++ 0 :: r1 ->
        yaz_string_to_oid db' cl' t = Some (Some (arcs ++ [-1]))) /\
     (forall cl' t o, yaz_string_to_oid db cl' t = Some (Some o) -> yaz_string_to_oid db' cl' t = Some (Some o)) /\
     (forall o r, yaz_oid_to_string db o = Some (Some r) -> yaz_oid_to_string db' o = Some (Some r))) /\
  (forall o, yaz_string_to_oid db cl (s ++ 0 :: r1) = Some (Some o) ->
   yaz_oid_add db cl (s ++ 0 :: r1) (arcs ++ -1 :: r2) = Some (-1, db)).
Proof.
  intros Ha Hs. split; [|intros o E; unfold yaz_oid_add; by rewrite E]. intros E.
  destruct (oid_copied arcs r2 Ha) as (n & En & Ec).
  exists (db ++ [Some [Entry cl (arcs ++ [-1]) (s ++ [0])]]). unfold yaz_oid_add. rewrite E, En. cbn [mbind option_bind].
  rewrite Ec, strlen_spec by done. cbn [mbind option_bind].
  assert (sub (s ++ 0 :: r1) 0 (zlen s + 1) = Some (s ++ [0])) as Esub.
  { pose proof (sub_mid [] (s ++ [0]) r1) as H. cbn [app] in H. rewrite zlen_app, <- app_assoc in H. exact H. }
  rewrite Esub. split; [done|].
  assert (forall cl', yaz_string_to_oid [Some [Entry cl (arcs ++ [-1]) (s ++ [0])]] cl' (s ++ 0 :: r1) =
    Some (Some (arcs ++ [-1]))) as Hnew.
  { intros cl'. cbn [yaz_string_to_oid mbind option_bind find_entry]. unfold class_matches, name_matches. cbn [name oclass].
    rewrite (yaz_matchstr_refl (length s) s [] r1) by done. cbn [mbind option_bind Z.eqb andb].
    destruct (cl' =? CLASS_GENERAL), (cl' =? cl); done. }
  split; [by rewrite string_to_oid_none|].
  split; [intros cl' t Et ->; by rewrite string_to_oid_none|].
  split; [intros; by apply string_to_oid_app|intros; by apply oid_to_string_app].
Qed.

(** A database of two entries. *)
Definition sample_db : yaz_oid_db :=
  [Some [Entry CLASS_ATTSET [1; 2; 840; 10003; 3; 1; -1] (str "Bib-1" ++ [0]);
         Entry CLASS_RECSYN [1; 2; 840; 10003; 5; 10; -1] (str "Usmarc" ++ [0])]].

Lemma yaz_oid_add_lookup_witness :
  exists db', yaz_oid_add sample_db CLASS_ATTSET (str "Mine" ++ [0]) [1; 2; 3; -1] = Some (0, db') /\
    yaz_string_to_oid db' CLASS_ATTSET (str "Mine" ++ [0]) = Some (Some [1; 2; 3; -1]).
Proof.
  destruct (yaz_oid_add_lookup sample_db CLASS_ATTSET (str "Mine") [1; 2; 3] [] []) as [H _];
    [repeat constructor; lia|by repeat constructor|].
  destruct (H ltac:(vm_compute; reflexivity)) as (db' & E1 & E2 & _). by exists db'.
Defined.

(** The database that [yaz_oid_db_new] makes has no table: a lookup in it, which
    [yaz_oid_add] starts with, follows a null pointer. *)
Lemma yaz_oid_db_new_null cl s o :
  yaz_string_to_oid yaz_oid_db_new cl s = None /\ yaz_oid_add yaz_oid_db_new cl s o = None.
Proof. done. Qed.
