(* ===== verification/Iconv.v ===== *)
(** * The conversion engine (siconv.c, iconv-p.h)

    A conversion reads characters with the handle of a decoder and writes them
    with the handle of an encoder; when the output buffer is full it keeps the
    character that did not fit and goes on with it at the next call.

    The decoder and the encoder are records of handles, as in iconv-p.h, over
    the type of their private data.  The case of a conversion that is handed
    over to the iconv of the C library ([iconv_cd]) is not part of the model. *)

From stdpp Require Import base list numbers option.
From Stdlib Require Import ZArith Lia.
From S2P Require Import Prelude.

Definition YAZ_ICONV_UNKNOWN : Z := 1.
Definition YAZ_ICONV_E2BIG : Z := 2.
Definition YAZ_ICONV_EILSEQ : Z := 3.
Definition YAZ_ICONV_EINVAL : Z := 4.

(** [(size_t) -1] *)
Definition SIZE_MAX : Z := 2 ^ 64 - 1.

(** ** Handles *)

(** What an encoder's handle sees of the conversion: the error number, its own
    data, and the output buffer as the octets stored and the room left. *)
Record writer (E : Type) := Writer {
  w_errno : Z; w_data : E; w_out : list Z; w_left : Z }.
#[global] Arguments Writer {E} _ _ _ _.
#[global] Arguments w_errno {E} _. #[global] Arguments w_data {E} _.
#[global] Arguments w_out {E} _. #[global] Arguments w_left {E} _.

Record yaz_iconv_encoder_s (E : Type) := Encoder {
  write_handle : Z -> M (writer E) Z;
  flush_handle : option (M (writer E) Z);
  enc_init_handle : option (E -> E) }.
#[global] Arguments Encoder {E} _ _ _.
#[global] Arguments write_handle {E} _. #[global] Arguments flush_handle {E} _.
#[global] Arguments enc_init_handle {E} _.

(** A decoder's handle works on the error number and its data; it returns its
    value and [*no_read].  A null [inp] is [None]. *)
Record yaz_iconv_decoder_s (D : Type) := Decoder {
  dec_init_handle : option (option (list Z) -> Z -> M (Z * D) (Z * Z));
  read_handle : list Z -> Z -> M (Z * D) (Z * Z) }.
#[global] Arguments Decoder {D} _ _.
#[global] Arguments dec_init_handle {D} _. #[global] Arguments read_handle {D} _.

(** [yaz_iconv_set_errno], as the two kinds of handle use it. *)
Definition yaz_iconv_set_errno {E} (no : Z) : M (writer E) unit :=
  modify (fun w => Writer no (w_data w) (w_out w) (w_left w)).
Definition dec_set_errno {D} (no : Z) : M (Z * D) unit :=
  modify (fun s => (no, s.2)).

(** Storing octets and counting them: [*outp++ = ..; ( *outbytesleft) -= n]. *)
Definition emit {E} (bs : list Z) : M (writer E) unit :=
  modify (fun w => Writer (w_errno w) (w_data w) (w_out w ++ bs) (w_left w - zlen bs)).

(** ** The conversion *)

Record yaz_iconv_struct (D E : Type) := Cd {
  my_errno : Z;
  init_flag : Z;
  no_read_x : Z;
  unget_x : Z;
  encoder_data : E;
  decoder_data : D }.
#[global] Arguments Cd {D E} _ _ _ _ _ _.
#[global] Arguments my_errno {D E} _. #[global] Arguments init_flag {D E} _.
#[global] Arguments no_read_x {D E} _. #[global] Arguments unget_x {D E} _.
#[global] Arguments encoder_data {D E} _. #[global] Arguments decoder_data {D E} _.

Section engine.
Context {D E : Type} (d : yaz_iconv_decoder_s D) (e : yaz_iconv_encoder_s E).
Abbreviation cd_t := (yaz_iconv_struct D E).
Implicit Types (cd : cd_t).

Definition set_my_errno (v : Z) cd : cd_t :=
  Cd v (init_flag cd) (no_read_x cd) (unget_x cd) (encoder_data cd) (decoder_data cd).
Definition set_init_flag (v : Z) cd : cd_t :=
  Cd (my_errno cd) v (no_read_x cd) (unget_x cd) (encoder_data cd) (decoder_data cd).
Definition set_unget (x n : Z) cd : cd_t :=
  Cd (my_errno cd) (init_flag cd) n x (encoder_data cd) (decoder_data cd).
Definition set_encoder_data (v : E) cd : cd_t :=
  Cd (my_errno cd) (init_flag cd) (no_read_x cd) (unget_x cd) v (decoder_data cd).

(** What [yaz_iconv_open] leaves of [cd] for a conversion of its own. *)
Definition yaz_iconv_fresh (ed : E) (dd : D) (n x : Z) : cd_t :=
  Cd YAZ_ICONV_UNKNOWN 1 n x ed dd.

Definition yaz_iconv_error cd : Z := my_errno cd.

(** Calls of the handles, with the parts of [cd] they may change. *)
Definition call_read (inp : list Z) (inbytesleft : Z) cd : option (Z * Z * cd_t) :=
  let? (r, (errno, dd)) := read_handle d inp inbytesleft (my_errno cd, decoder_data cd) in
  Some (r, Cd errno (init_flag cd) (no_read_x cd) (unget_x cd) (encoder_data cd) dd).

Definition call_write (h : M (writer E) Z) cd (ob : list Z * Z) : option (Z * cd_t * (list Z * Z)) :=
  let? (r, w) := h (Writer (my_errno cd) (encoder_data cd) ob.1 ob.2) in
  Some (r, Cd (w_errno w) (init_flag cd) (no_read_x cd) (unget_x cd) (w_data w) (decoder_data cd),
        (w_out w, w_left w)).

(** The [while (1)] loop.  The memory at [inbuf0], what [*inbuf] has advanced
    and [*inbytesleft]; the result is the value, [cd] and the buffers. *)
Fixpoint iconv_loop (fuel : nat) cd (mem : list Z) (pos avail : Z) (ob : list Z * Z)
  : option (Z * cd_t * (Z * Z) * (list Z * Z)) :=
  match fuel with
  | O => None
  | S fuel =>
      let convert x no_read cd :=
        let advance cd ob := iconv_loop fuel cd mem (pos + no_read) (u64 (avail - no_read)) ob in
        if negb (x =? 0) then
          let? (r, cd, ob) := call_write (write_handle e x) cd ob in
          if negb (r =? 0) && (my_errno cd =? YAZ_ICONV_E2BIG)
          then Some (r, set_unget x no_read cd, (pos, avail), ob)
          else advance (set_unget 0 (no_read_x cd) cd) ob
        else advance cd ob in
      if negb (unget_x cd =? 0) then convert (unget_x cd) (no_read_x cd) cd
      else if avail =? 0 then Some (pos, cd, (pos, avail), ob)
      else
        let? (x, no_read, cd) := call_read (drop (Z.to_nat pos) mem) avail cd in
        if no_read =? 0 then Some (SIZE_MAX, cd, (pos, avail), ob)
        else convert x no_read cd
  end.

(** The handles' initialisation at the first call: [inl] is the early return. *)
Definition iconv_init cd (inb : option (list Z * Z)) : option ((Z * cd_t) + (Z * cd_t)) :=
  if negb (init_flag cd =? 0) then
    let cd := set_my_errno YAZ_ICONV_UNKNOWN cd in
    let cd := match enc_init_handle e with
              | Some h => set_encoder_data (h (encoder_data cd)) cd
              | None => cd
              end in
    let cd := set_unget 0 0 cd in
    match dec_init_handle d with
    | Some h =>
        let? (r, no_read, (errno, dd)) :=
          h (fst <$> inb) (from_option snd 0 inb) (my_errno cd, decoder_data cd) in
        let cd := Cd errno (init_flag cd) (no_read_x cd) (unget_x cd) (encoder_data cd) dd in
        if negb (r =? 0) then
          if my_errno cd =? YAZ_ICONV_EINVAL then Some (inl (r, cd))
          else Some (inl (r, set_init_flag 0 cd))
        else Some (inr (no_read, set_init_flag 0 cd))
    | None => Some (inr (0, set_init_flag 0 cd))
    end
  else Some (inr (0, set_init_flag 0 cd)).

(** The branch that flushes: no input. *)
Definition iconv_flush cd (outb : option (list Z * Z))
  : option (Z * cd_t * option (list Z * Z)) :=
  let? (r, cd, outb) :=
    match outb with
    | None => Some (0, cd, None)
    | Some ob =>
        let? (r, cd, ob) :=
          (if negb (unget_x cd =? 0) then call_write (write_handle e (unget_x cd)) cd ob
           else Some (0, cd, ob)) in
        match flush_handle e with
        | Some h => let? (r, cd, ob) := call_write h cd ob in Some (r, cd, Some ob)
        | None => Some (r, cd, Some ob)
        end
    end in
  let cd := if r =? 0 then set_init_flag 1 cd else cd in
  Some (r, set_unget 0 (no_read_x cd) cd, outb).

(** [yaz_iconv].  [inb] is [*inbuf] and [*inbytesleft], [None] when [inbuf] or
    [*inbuf] is null (the length pointer is then null too); [outb] is the octets
    before [*outbuf] and [*outbytesleft]. *)
Definition yaz_iconv cd (inb outb : option (list Z * Z))
  : option (Z * cd_t * option (list Z * Z) * option (list Z * Z)) :=
  let? i := iconv_init cd inb in
  match i with
  | inl (r, cd) => Some (r, cd, inb, outb)
  | inr (no_read, cd) =>
      match inb with
      | None => let? (r, cd, outb) := iconv_flush cd outb in Some (r, cd, inb, outb)
      | Some (mem, avail) =>
          let? ob := outb in
          let? (r, cd, (pos, avail'), ob) :=
            iconv_loop (S (S (Z.to_nat avail))) cd mem no_read (u64 (avail - no_read)) ob in
          Some (r, cd, Some (drop (Z.to_nat pos) mem, avail'), Some ob)
      end
  end.

(** A caller that gives each call a fresh buffer, of the sizes [sizes], while the
    conversion says that the buffer was too small; the octets it collected and
    whether the input was consumed. *)
Fixpoint iconv_drain cd (mem : list Z) (avail : Z) (sizes : list Z) : option (list Z * bool) :=
  match sizes with
  | [] => Some ([], false)
  | n :: sizes =>
      let? (r, cd, inb, outb) := yaz_iconv cd (Some (mem, avail)) (Some ([], n)) in
      let? (mem, avail) := inb in
      let? (out, _) := outb in
      if (r =? SIZE_MAX) && (yaz_iconv_error cd =? YAZ_ICONV_E2BIG) then
        let? (rest, fin) := iconv_drain cd mem avail sizes in Some (out ++ rest, fin)
      else Some (out, negb (r =? SIZE_MAX))
  end.
End engine.

(** ** Interfaces *)

(** A character set as a decoder: each character [x] it knows ([dk_ok x]) is the
    octets [dk_bytes x], which the handle reads wherever they stand, and the
    initialisation skips nothing before a text that starts with [dk_first]. *)
Class CharsetDecoder {D : Type} (d : yaz_iconv_decoder_s D) := {
  dk_ok : Z -> Prop;
  dk_bytes : Z -> list Z;
  dk_first : Z -> Prop;
  dk_nonempty : forall x, dk_ok x -> dk_bytes x <> [];
  dk_range : forall x, dk_ok x -> 0 < x < 2 ^ 64;
  dk_read : forall x rest avail errno dd,
    dk_ok x -> zlen (dk_bytes x) <= avail ->
    exists errno', read_handle d (dk_bytes x ++ rest) avail (errno, dd)
      = Some ((x, zlen (dk_bytes x)), (errno', dd));
  dk_init : forall h x rest avail errno dd,
    dec_init_handle d = Some h -> dk_ok x -> dk_first x -> zlen (dk_bytes x) <= avail ->
    exists errno', h (Some (dk_bytes x ++ rest)) avail (errno, dd) = Some ((0, 0), (errno', dd))
}.

(** A character set as an encoder: a character is stored whole or not at all. *)
Class CharsetEncoder {E : Type} (e : yaz_iconv_encoder_s E) := {
  ek_ok : Z -> Prop;
  ek_bytes : Z -> list Z;
  ek_write : forall x errno ed out avail,
    ek_ok x -> zlen (ek_bytes x) <= avail ->
    exists errno', write_handle e x (Writer errno ed out avail)
      = Some (0, Writer errno' ed (out ++ ek_bytes x) (avail - zlen (ek_bytes x)));
  ek_full : forall x errno ed out avail,
    ek_ok x -> 0 <= avail < zlen (ek_bytes x) ->
    write_handle e x (Writer errno ed out avail)
      = Some (SIZE_MAX, Writer YAZ_ICONV_E2BIG ed out avail)
}.

(** ** Correctness of the engine *)

Section conversion.
Context {D E : Type} (d : yaz_iconv_decoder_s D) (e : yaz_iconv_encoder_s E).
Context `{!CharsetDecoder d} `{!CharsetEncoder e}.
Implicit Types (cd : yaz_iconv_struct D E) (xs ys zs : list Z).

(** The octets of a text, in the one character set and in the other. *)
Definition source xs : list Z := concat (map dk_bytes xs).
Definition target xs : list Z := concat (map ek_bytes xs).

Definition text_ok xs : Prop := Forall (fun x => dk_ok x /\ ek_ok x) xs.

(** The characters [xs] are still to be converted; the first of them may have
    been read already. *)
Definition pending cd xs : Prop :=
  unget_x cd = 0 \/
  exists x xs', xs = x :: xs' /\ unget_x cd = x /\ no_read_x cd = zlen (dk_bytes x).

Lemma source_length xs : text_ok xs -> Z.of_nat (length xs) <= zlen (source xs).
Proof.
  induction 1 as [|x xs [Hx _] _ IH]; [done|]. cbn [length source map concat].
  unfold source in IH. rewrite zlen_app. pose proof (zlen_pos _ (dk_nonempty x Hx)). lia.
Qed.

(** What a run of the loop has done when it stops: it has converted [ys], and
    either that is all, or [z] did not fit in the buffer and is kept. *)
Record converted cd pos avail out room xs
    (res : Z * yaz_iconv_struct D E * (Z * Z) * (list Z * Z)) ys zs : Prop := {
  cv_split : xs = ys ++ zs;
  cv_pos : res.1.2 = (pos + zlen (source ys), avail - zlen (source ys));
  cv_out : res.2 = (out ++ target ys, room - zlen (target ys));
  cv_room : 0 <= room - zlen (target ys);
  cv_flag : init_flag res.1.1.2 = init_flag cd;
  cv_pending : pending res.1.1.2 zs;
  cv_end : match zs with
           | [] => res.1.1.1 = pos + zlen (source ys)
           | z :: _ => res.1.1.1 = SIZE_MAX /\ my_errno res.1.1.2 = YAZ_ICONV_E2BIG /\
                       room - zlen (target ys) < zlen (ek_bytes z)
           end }.

(** Writing a character that is at hand. *)
Lemma write_step x cd out room (Hx : ek_ok x) :
  0 <= room ->
  (zlen (ek_bytes x) <= room /\ exists errno',
     call_write (write_handle e x) cd (out, room)
       = Some (0, set_my_errno errno' cd, (out ++ ek_bytes x, room - zlen (ek_bytes x)))) \/
  (room < zlen (ek_bytes x) /\
     call_write (write_handle e x) cd (out, room)
       = Some (SIZE_MAX, set_my_errno YAZ_ICONV_E2BIG cd, (out, room))).
Proof.
  intros Hr. unfold call_write. cbn [fst snd].
  destruct (Z.le_gt_cases (zlen (ek_bytes x)) room) as [Hl|Hl].
  - left. split; [done|].
    destruct (ek_write x (my_errno cd) (encoder_data cd) out room Hx Hl) as [errno' E1].
    exists errno'. by rewrite E1.
  - right. split; [done|]. rewrite ek_full by (try done; lia). done.
Qed.

(** A converted character more. *)
Lemma converted_cons x xs cd cd' pos avail out room res ys zs :
  init_flag cd' = init_flag cd ->
  converted cd' (pos + zlen (dk_bytes x)) (avail - zlen (dk_bytes x))
    (out ++ ek_bytes x) (room - zlen (ek_bytes x)) xs res ys zs ->
  converted cd pos avail out room (x :: xs) res (x :: ys) zs.
Proof.
  intros Hf [H1 H2 H3 H4 H5 H6 H7].
  assert (zlen (source (x :: ys)) = zlen (dk_bytes x) + zlen (source ys)) as Es by apply zlen_app.
  assert (zlen (target (x :: ys)) = zlen (ek_bytes x) + zlen (target ys)) as Et by apply zlen_app.
  split; rewrite ?Es, ?Et.
  - by rewrite H1.
  - rewrite H2. f_equal; lia.
  - rewrite H3. f_equal; [|lia]. by rewrite <- app_assoc.
  - lia.
  - congruence.
  - done.
  - destruct zs; [lia|]. destruct H7 as (? & ? & ?). split; [done|]. split; [done|lia].
Qed.

(** The reading half of an iteration: a kept character is taken, otherwise the
    next one is read; both give the first pending character. *)
Lemma iconv_loop_read fuel cd mem pos avail ob x xs tail :
  dk_ok x -> pending cd (x :: xs) -> 0 <= pos ->
  drop (Z.to_nat pos) mem = dk_bytes x ++ tail -> zlen (dk_bytes x) <= avail ->
  exists cd1, init_flag cd1 = init_flag cd /\
  iconv_loop d e (S fuel) cd mem pos avail ob
    = (let? (r, cd2, ob') := call_write (write_handle e x) cd1 ob in
      if negb (r =? 0) && (my_errno cd2 =? YAZ_ICONV_E2BIG)
      then Some (r, set_unget x (zlen (dk_bytes x)) cd2, (pos, avail), ob')
      else iconv_loop d e fuel (set_unget 0 (no_read_x cd2) cd2) mem
             (pos + zlen (dk_bytes x)) (u64 (avail - zlen (dk_bytes x))) ob').
Proof.
  intros Hx Hp Hpos Hm Ha. pose proof (dk_range x Hx) as Hrng.
  pose proof (zlen_pos _ (dk_nonempty x Hx)) as Hlen.
  destruct Hp as [Hu|(x' & xs' & [= <- <-] & Hu & Hn)].
  - destruct (dk_read x tail avail (my_errno cd) (decoder_data cd) Hx Ha) as [errno' Er].
    eexists. split; [|cbn [iconv_loop]; rewrite Hu, Hm; unfold call_read; rewrite Er;
      cbn [negb Z.eqb mbind option_bind];
      rewrite (proj2 (Z.eqb_neq avail 0)), (proj2 (Z.eqb_neq (zlen (dk_bytes x)) 0)),
        (proj2 (Z.eqb_neq x 0)) by lia; reflexivity].
    done.
  - exists cd. split; [done|]. cbn [iconv_loop]. rewrite Hu, Hn.
    rewrite (proj2 (Z.eqb_neq x 0)) by lia. reflexivity.
Qed.

Lemma iconv_loop_converts xs : forall fuel cd mem pos avail out room tail,
  text_ok xs -> pending cd xs -> 0 <= pos ->
  drop (Z.to_nat pos) mem = source xs ++ tail ->
  avail = zlen (source xs) -> avail < 2 ^ 64 -> 0 <= room -> (length xs < fuel)%nat ->
  exists res ys zs, iconv_loop d e fuel cd mem pos avail (out, room) = Some res /\
    converted cd pos avail out room xs res ys zs.
Proof.
  induction xs as [|x xs IH]; intros [|fuel] cd mem pos avail out room tail Hok Hp Hpos Hm Ha Hb Hr Hf;
    simpl in Hf; try lia.
  - destruct Hp as [Hu|(? & ? & [=] & _)]. change (zlen (source [])) with 0 in Ha. subst avail.
    exists (pos, cd, (pos, 0), (out, room)), [], []. split; [cbn [iconv_loop]; by rewrite Hu|].
    split; cbn [fst snd]; change (zlen (source [])) with 0; change (zlen (target [])) with 0;
      rewrite ?Z.add_0_r, ?Z.sub_0_r; try done; [by rewrite app_nil_r|by left].
  - apply Forall_cons_1 in Hok as [[Hx Hex] Hok]. change (source (x :: xs)) with (dk_bytes x ++ source xs) in *.
    pose proof (zlen_nonneg (source xs)) as Hnn. pose proof (zlen_pos _ (dk_nonempty x Hx)) as Hlen.
    rewrite zlen_app in Ha. rewrite <- app_assoc in Hm.
    destruct (iconv_loop_read fuel cd mem pos avail (out, room) x xs (source xs ++ tail))
      as (cd1 & Hf1 & E1); [done..|lia|]. rewrite E1. clear E1.
    destruct (write_step x cd1 out room Hex Hr) as [[Hl [errno' Ew]]|[Hl Ew]]; rewrite Ew; cbn [mbind option_bind].
    + rewrite Z.eqb_refl. cbn [negb andb].
      unfold u64. rewrite wrap_small by lia.
      destruct (IH fuel (set_unget 0 (no_read_x (set_my_errno errno' cd1)) (set_my_errno errno' cd1)) mem
        (pos + zlen (dk_bytes x)) (avail - zlen (dk_bytes x))
        (out ++ ek_bytes x) (room - zlen (ek_bytes x)) tail) as (res & ys & zs & E2 & Hc);
        [done|by left|lia| |lia..|].
      { rewrite Z2Nat.inj_add, <- drop_drop, Hm by lia. unfold zlen. by rewrite Nat2Z.id, drop_app_length. }
      exists res, (x :: ys), zs. split; [exact E2|]. by eapply converted_cons; [|exact Hc].
    + change (SIZE_MAX =? 0) with false. cbn [negb andb my_errno set_my_errno].
      rewrite Z.eqb_refl. eexists _, [], (x :: xs). split; [reflexivity|].
      split; cbn [fst snd]; change (zlen (source [])) with 0; change (zlen (target [])) with 0;
        rewrite ?Z.add_0_r, ?Z.sub_0_r; try done; [by rewrite app_nil_r|].
      right. by exists x, xs.
Qed.

(** The first call may initialise; a text that starts with a character the
    decoder's initialisation leaves alone is not changed by it. *)
Definition starts_ok cd xs : Prop :=
  init_flag cd <> 0 -> exists x xs', xs = x :: xs' /\ dk_first x.

Lemma iconv_init_keeps cd xs tail :
  text_ok xs -> (init_flag cd = 0 -> pending cd xs) -> starts_ok cd xs ->
  exists cd', iconv_init d e cd (Some (source xs ++ tail, zlen (source xs))) = Some (inr (0, cd')) /\
    pending cd' xs /\ init_flag cd' = 0.
Proof.
  intros Hok Hp Hs. unfold iconv_init.
  destruct (Z.eqb_spec (init_flag cd) 0) as [Hf|Hf]; cbn [negb].
  { eexists. split; [reflexivity|]. split; [by apply Hp|done]. }
  destruct (Hs Hf) as (x & xs' & -> & Hfirst).
  apply Forall_cons_1 in Hok as [[Hx _] _].
  destruct (dec_init_handle d) as [h|] eqn:Ei.
  - cbn [fmap option_fmap option_map fst from_option snd source map concat].
    rewrite <- app_assoc.
    match goal with |- context [h ?i ?n (?er, ?dd)] =>
      destruct (dk_init h x (concat (map dk_bytes xs') ++ tail) n er dd Ei Hx Hfirst) as [errno' Eh] end.
    { rewrite zlen_app. pose proof (zlen_nonneg (concat (map dk_bytes xs'))). lia. }
    rewrite Eh. cbn [mbind option_bind]. rewrite Z.eqb_refl. cbn [negb].
    eexists. split; [reflexivity|]. split; [by left|done].
  - eexists. split; [reflexivity|]. split; [by left|done].
Qed.

(** One call of [yaz_iconv]: it converts as much of the text as there is room
    for. *)
Lemma yaz_iconv_converts cd xs tail out room :
  text_ok xs -> (init_flag cd = 0 -> pending cd xs) -> starts_ok cd xs -> zlen (source xs) < 2 ^ 64 -> 0 <= room ->
  exists r cd' ys zs, xs = ys ++ zs /\
    yaz_iconv d e cd (Some (source xs ++ tail, zlen (source xs))) (Some (out, room))
      = Some (r, cd', Some (source zs ++ tail, zlen (source zs)),
              Some (out ++ target ys, room - zlen (target ys))) /\
    pending cd' zs /\ init_flag cd' = 0 /\ 0 <= room - zlen (target ys) /\
    match zs with
    | [] => r = zlen (source ys)
    | z :: _ => r = SIZE_MAX /\ my_errno cd' = YAZ_ICONV_E2BIG /\
                room - zlen (target ys) < zlen (ek_bytes z)
    end.
Proof.
  intros Hok Hp Hs Hb Hr. destruct (iconv_init_keeps cd xs tail Hok Hp Hs) as (cd1 & Ei & Hp1 & Hf1).
  unfold yaz_iconv. rewrite Ei. cbn [mbind option_bind].
  pose proof (source_length xs Hok) as Hlen. pose proof (zlen_nonneg (source xs)) as Hnn.
  destruct (iconv_loop_converts xs (S (S (Z.to_nat (zlen (source xs))))) cd1 (source xs ++ tail) 0
    (zlen (source xs)) out room tail) as (res & ys & zs & Ey & Hc); [done..|lia|].
  rewrite Z.sub_0_r. unfold u64. rewrite wrap_small by lia. rewrite Ey. cbn [mbind option_bind].
  destruct res as [[[r cd2] [pos left']] ob]. destruct Hc as [H1 H2 H3 H4 H5 H6 H7].
  cbn [fst snd] in *. injection H2 as -> ->. subst ob.
  assert (source xs = source ys ++ source zs) as Esrc.
  { subst xs. unfold source. by rewrite map_app, concat_app. }
  exists r, cd2, ys, zs. split; [done|]. split.
  { rewrite Esrc, zlen_app, <- app_assoc, Z.add_0_l. unfold zlen at 1. rewrite Nat2Z.id, drop_app_length.
    replace (zlen (source ys) + zlen (source zs) - zlen (source ys)) with (zlen (source zs)) by lia. done. }
  split; [done|]. split; [congruence|]. split; [done|]. destruct zs; [|done]. lia.
Qed.

(** However the output buffer is cut up, the pieces together are the text in
    the other character set, as long as each has room for one character. *)
Lemma iconv_drain_converts sizes : forall cd xs tail,
  text_ok xs -> (init_flag cd = 0 -> pending cd xs) -> starts_ok cd xs -> zlen (source xs) < 2 ^ 64 - 1 ->
  Forall (fun n => Forall (fun x => zlen (ek_bytes x) <= n) xs /\ 0 <= n) sizes ->
  (length xs < length sizes)%nat ->
  iconv_drain d e cd (source xs ++ tail) (zlen (source xs)) sizes = Some (target xs, true).
Proof.
  induction sizes as [|n sizes IH]; intros cd xs tail Hok Hp Hs Hb Hsz Hl; simpl in Hl; [lia|].
  apply Forall_cons_1 in Hsz as [[Hn Hn0] Hsz].
  destruct (yaz_iconv_converts cd xs tail [] n) as (r & cd' & ys & zs & Hx & Ey & Hp' & Hf & Hr & Hend); [done..|lia|done|].
  cbn [iconv_drain]. rewrite Ey. cbn [mbind option_bind app].
  assert (zlen (source xs) = zlen (source ys) + zlen (source zs)) as Esrc.
  { subst xs. unfold source. by rewrite map_app, concat_app, zlen_app. }
  pose proof (zlen_nonneg (source ys)). pose proof (zlen_nonneg (source zs)).
  destruct zs as [|z zs].
  - rewrite app_nil_r in Hx. subst ys. assert (r <> SIZE_MAX) by (unfold SIZE_MAX; lia).
    rewrite (proj2 (Z.eqb_neq r SIZE_MAX)) by done. done.
  - destruct Hend as (-> & Herr & Hroom).
    unfold yaz_iconv_error. rewrite Herr, !Z.eqb_refl. cbn [andb].
    subst xs. apply Forall_app in Hok as [Hok1 Hok2]. apply Forall_app in Hn as [Hn1 Hn2].
    assert (ys <> []) as Hys.
    { intros ->. change (zlen (target [])) with 0 in Hroom. apply Forall_cons_1 in Hn2 as [? _]. lia. }
    rewrite (IH cd' (z :: zs) tail Hok2 (fun _ => Hp')).
    + cbn [mbind option_bind]. unfold target. by rewrite map_app, concat_app.
    + intros Hi. congruence.
    + lia.
    + eapply Forall_impl; [|exact Hsz]. intros k [Hk ?]. by apply Forall_app in Hk as [_ ?].
    + rewrite length_app in Hl. destruct ys; [done|]. simpl in *. lia.
Qed.
End conversion.
