(* ===== verification/Utf8.v ===== *)
(** * UTF-8 (utf8.c)

    The UTF-8 reader and writer, for the values up to 2^31 - 1 that they handle
    (sequences of up to six octets), the handles built from them and
    [yaz_utf8_check].  [utf8] is the specification: the shortest sequence of a
    value. *)

From stdpp Require Import base list numbers option strings.
From Stdlib Require Import ZArith Lia.
From S2P Require Import Prelude Text MatchStr Iconv.

(** ** The reader *)

(** [(inp[i] & 0xc0) == 0x80 && .. ], for [k] octets from [i] on. *)
Fixpoint utf8_conts (inp : list Z) (i : Z) (k : nat) : option bool :=
  match k with
  | O => Some true
  | S k =>
      let? b := rd inp i in
      if Z.land b 0xc0 =? 0x80 then utf8_conts inp (i + 1) k else Some false
  end.

(** [.. | ((inp[i] & 0x3f) << 6 * (k - 1)) | .. | (inp[i + k - 1] & 0x3f)] *)
Fixpoint utf8_bits (inp : list Z) (i : Z) (k : nat) (x : Z) : option Z :=
  match k with
  | O => Some x
  | S k =>
      let? b := rd inp i in
      utf8_bits inp (i + 1) k (Z.lor x (Z.shiftl (Z.land b 0x3f) (6 * Z.of_nat k)))
  end.

(** The branch for a lead octet with [mask] and [k] octets after it, whose least
    value is [min]: the value, [*no_read] and [*error]. *)
Definition utf8_branch (inp : list Z) (mask : Z) (k : nat) (min error : Z)
  : option (Z * Z * Z) :=
  let? ok := utf8_conts inp 1 k in
  if ok : bool then
    let? b0 := rd inp 0 in
    let? x := utf8_bits inp 1 k (Z.shiftl (Z.land b0 mask) (6 * Z.of_nat k)) in
    if min <=? x then Some (x, 1 + Z.of_nat k, error)
    else Some (x, 0, YAZ_ICONV_EILSEQ)
  else Some (0, 0, YAZ_ICONV_EILSEQ).

Definition yaz_read_UTF8_char (inp : list Z) (inbytesleft error : Z)
  : option (Z * Z * Z) :=
  let? b0 := rd inp 0 in
  if b0 <=? 0x7f then Some (b0, 1, error)
  else if (b0 <=? 0xbf) || (0xfe <=? b0) then Some (0, 0, YAZ_ICONV_EILSEQ)
  else if (b0 <=? 0xdf) && (2 <=? inbytesleft) then utf8_branch inp 0x1f 1 0x80 error
  else if (b0 <=? 0xef) && (3 <=? inbytesleft) then utf8_branch inp 0x0f 2 0x800 error
  else if (b0 <=? 0xf7) && (4 <=? inbytesleft) then utf8_branch inp 0x07 3 0x10000 error
  else if (b0 <=? 0xfb) && (5 <=? inbytesleft) then utf8_branch inp 0x03 4 0x200000 error
  else if (b0 <=? 0xfd) && (6 <=? inbytesleft) then utf8_branch inp 0x01 5 0x4000000 error
  else Some (0, 0, YAZ_ICONV_EINVAL).

(** ** The writer *)

(** The octets stored, or [None] when there is no room. *)
Definition utf8_octets (x outbytesleft : Z) : option (list Z) :=
  let byte n := u8 (Z.lor (Z.land (Z.shiftr x n) 0x3f) 0x80) in
  if (x <=? 0x7f) && (1 <=? outbytesleft) then Some [u8 x]
  else if (x <=? 0x7ff) && (2 <=? outbytesleft) then
    Some [u8 (Z.lor (Z.shiftr x 6) 0xc0); byte 0]
  else if (x <=? 0xffff) && (3 <=? outbytesleft) then
    Some [u8 (Z.lor (Z.shiftr x 12) 0xe0); byte 6; byte 0]
  else if (x <=? 0x1fffff) && (4 <=? outbytesleft) then
    Some [u8 (Z.lor (Z.shiftr x 18) 0xf0); byte 12; byte 6; byte 0]
  else if (x <=? 0x3ffffff) && (5 <=? outbytesleft) then
    Some [u8 (Z.lor (Z.shiftr x 24) 0xf8); byte 18; byte 12; byte 6; byte 0]
  else if 6 <=? outbytesleft then
    Some [u8 (Z.lor (Z.shiftr x 30) 0xfc); byte 24; byte 18; byte 12; byte 6; byte 0]
  else None.

(** The value, what is stored, [*outbytesleft] and [*error]. *)
Definition yaz_write_UTF8_char (x outbytesleft error : Z) : Z * list Z * Z * Z :=
  match utf8_octets x outbytesleft with
  | Some bs => (0, bs, outbytesleft - zlen bs, error)
  | None => (SIZE_MAX, [], outbytesleft, YAZ_ICONV_E2BIG)
  end.

(** ** Handles *)

Definition init_utf8 (inp : option (list Z)) (inbytesleft : Z) : M (Z * unit) (Z * Z) :=
  match inp with
  | None => ret (0, 0)
  | Some inp =>
      let* b0 := lift (rd inp 0) in
      if negb (b0 =? 0xef) then ret (0, 0)
      else if inbytesleft <? 3 then
        dec_set_errno YAZ_ICONV_EINVAL ;; ret (SIZE_MAX, 0)
      else
        let* b1 := lift (rd inp 1) in
        if negb (b1 =? 0xbb) then
          let* b2 := lift (rd inp 2) in
          ret (0, if b2 =? 0xbf then 3 else 0)
        else ret (0, 0)
  end.

(** [int r], returned as an [unsigned long]. *)
Definition read_utf8 (inp : list Z) (inbytesleft : Z) : M (Z * unit) (Z * Z) :=
  let* (x, no_read, err) := lift (yaz_read_UTF8_char inp inbytesleft 0) in
  dec_set_errno err ;;
  ret (u64 (s32 x), no_read).

Definition write_UTF8 (x : Z) : M (writer unit) Z :=
  let* w := get in
  let '(r, bs, room, err) := yaz_write_UTF8_char x (w_left w) 0 in
  put (Writer (w_errno w) (w_data w) (w_out w ++ bs) room) ;;
  yaz_iconv_set_errno err ;;
  ret (u64 (s32 r)).

Definition utf8_encoder : yaz_iconv_encoder_s unit := Encoder write_UTF8 None None.
Definition utf8_decoder : yaz_iconv_decoder_s unit := Decoder (Some init_utf8) read_utf8.

(** The names are C strings; the result is whether the handles were set. *)
Definition yaz_utf8_encoder (tocode : list Z) : option (option (yaz_iconv_encoder_s unit)) :=
  let? r := yaz_matchstr tocode (str "UTF8" ++ [0]) in
  Some (if r =? 0 then Some utf8_encoder else None).
Definition yaz_utf8_decoder (fromcode : list Z) : option (option (yaz_iconv_decoder_s unit)) :=
  let? r := yaz_matchstr fromcode (str "UTF8" ++ [0]) in
  Some (if r =? 0 then Some utf8_decoder else None).

(** ** [yaz_utf8_check] *)

Fixpoint utf8_check_loop (fuel : nat) (inp : list Z) (inbytesleft : Z) : option Z :=
  match fuel with
  | O => None
  | S fuel =>
      if inbytesleft =? 0 then Some 1 else
      let? (_, no_read, error) := yaz_read_UTF8_char inp inbytesleft 0 in
      if negb (error =? 0) then Some 0
      else utf8_check_loop fuel (drop (Z.to_nat no_read) inp) (u64 (inbytesleft - no_read))
  end.

Definition yaz_utf8_check (s : list Z) : option Z :=
  let? n := strlen s in utf8_check_loop (S (Z.to_nat n)) s n.

(** ** Specification *)

(** The last [k] octets of the sequence of [x]. *)
Fixpoint utf8_tail (x : Z) (k : nat) : list Z :=
  match k with
  | O => []
  | S k => (128 + (x / 64 ^ Z.of_nat k) mod 64) :: utf8_tail x k
  end.

Definition utf8_form (lead x : Z) (k : nat) : list Z :=
  (lead + x / 64 ^ Z.of_nat k) :: utf8_tail x k.

(** The shortest sequence that has room for the value. *)
Definition utf8 (x : Z) : list Z :=
  if x <? 0x80 then [x]
  else if x <? 0x800 then utf8_form 0xc0 x 1
  else if x <? 0x10000 then utf8_form 0xe0 x 2
  else if x <? 0x200000 then utf8_form 0xf0 x 3
  else if x <? 0x4000000 then utf8_form 0xf8 x 4
  else utf8_form 0xfc x 5.

Definition utf8_text (xs : list Z) : list Z := concat (map utf8 xs).

(** ** The writer writes the shortest sequence *)

(** Setting the high bits of an octet. *)
Lemma lor_high m hi :
  forallb (fun a => negb (a <? m) || (Z.lor a hi =? hi + a)) (map Z.of_nat (seq 0 256)) = true ->
  m <= 256 -> forall a, 0 <= a < m -> Z.lor a hi = hi + a.
Proof.
  intros H Hm a Ha. pose proof (byte_forall _ H a ltac:(unfold byte_ok; lia)) as E.
  cbv beta in E. rewrite (proj2 (Z.ltb_lt a m)) in E by lia. by apply Z.eqb_eq.
Qed.

Ltac lor_high m := apply (lor_high m); [vm_compute; reflexivity|lia..].

Lemma shiftr_64 x k : 0 <= k -> Z.shiftr x (6 * k) = x / 64 ^ k.
Proof. intros. rewrite Z.shiftr_div_pow2 by lia. by rewrite Z.pow_mul_r by lia. Qed.

Lemma utf8_low_octet x k : 0 <= k -> u8 (Z.lor (Z.land (Z.shiftr x (6 * k)) 0x3f) 0x80)
  = 128 + (x / 64 ^ k) mod 64.
Proof.
  intros Hk. rewrite shiftr_64 by done. change 0x3f with (2 ^ 6 - 1). rewrite land_mask by lia.
  change (2 ^ 6) with 64. pose proof (Z.mod_pos_bound (x / 64 ^ k) 64 ltac:(lia)).
  rewrite (lor_high 64) by first [vm_compute; reflexivity|lia]. apply u8_small. lia.
Qed.

Lemma utf8_lead_octet x k m lead :
  0 <= k -> 0 <= x < m * 64 ^ k -> lead + m <= 256 -> 0 <= lead -> m <= 256 ->
  forallb (fun a => negb (a <? m) || (Z.lor a lead =? lead + a)) (map Z.of_nat (seq 0 256)) = true ->
  u8 (Z.lor (Z.shiftr x (6 * k)) lead) = lead + x / 64 ^ k.
Proof.
  intros Hk Hx Hl H0 Hm H. rewrite shiftr_64 by done.
  assert (0 <= x / 64 ^ k < m) as Hq.
  { split; [apply Z.div_pos; lia|apply Z.div_lt_upper_bound; lia]. }
  rewrite (lor_high m) by done. apply u8_small. lia.
Qed.

Lemma utf8_octets_spec x room :
  0 <= x < 2 ^ 31 -> 0 <= room ->
  utf8_octets x room = if zlen (utf8 x) <=? room then Some (utf8 x) else None.
Proof.
  intros Hx Hr. unfold utf8_octets, utf8.
  pose proof (utf8_low_octet x 0 ltac:(lia)) as L0. pose proof (utf8_low_octet x 1 ltac:(lia)) as L1.
  pose proof (utf8_low_octet x 2 ltac:(lia)) as L2. pose proof (utf8_low_octet x 3 ltac:(lia)) as L3.
  pose proof (utf8_low_octet x 4 ltac:(lia)) as L4.
  change (6 * 0) with 0 in L0. change (6 * 1) with 6 in L1. change (6 * 2) with 12 in L2.
  change (6 * 3) with 18 in L3. change (6 * 4) with 24 in L4.
  rewrite L0, L1, L2, L3, L4.
  pose proof (utf8_lead_octet x 1 32 0xc0 ltac:(lia)) as H1. pose proof (utf8_lead_octet x 2 16 0xe0 ltac:(lia)) as H2.
  pose proof (utf8_lead_octet x 3 8 0xf0 ltac:(lia)) as H3. pose proof (utf8_lead_octet x 4 4 0xf8 ltac:(lia)) as H4.
  pose proof (utf8_lead_octet x 5 2 0xfc ltac:(lia)) as H5.
  change (6 * 1) with 6 in H1. change (6 * 2) with 12 in H2. change (6 * 3) with 18 in H3.
  change (6 * 4) with 24 in H4. change (6 * 5) with 30 in H5.
  destruct (Z.ltb_spec x 0x80); [|destruct (Z.ltb_spec x 0x800); [|destruct (Z.ltb_spec x 0x10000);
    [|destruct (Z.ltb_spec x 0x200000); [|destruct (Z.ltb_spec x 0x4000000)]]]];
    unfold zlen; simpl length; repeat ztest1; cbn [andb]; try done; try lia.
  all: first
    [ rewrite u8_small by lia; done
    | rewrite H1 by first [lia|vm_compute; reflexivity]; done
    | rewrite H2 by first [lia|vm_compute; reflexivity]; done
    | rewrite H3 by first [lia|vm_compute; reflexivity]; done
    | rewrite H4 by first [lia|vm_compute; reflexivity]; done
    | rewrite H5 by first [lia|vm_compute; reflexivity]; done ].
Qed.

(** ** The reader and the continuation octets *)

Definition cont_ok (b : Z) : Prop := 128 <= b < 192.
Definition val64 (x : Z) (cs : list Z) : Z := fold_left (fun x b => x * 64 + (b - 128)) cs x.

Lemma cont_bits b : byte_ok b -> (Z.land b 0xc0 =? 0x80) = (128 <=? b) && (b <? 192).
Proof. intros H. by_bytes b. Qed.

Lemma cont_byte b : cont_ok b -> byte_ok b.
Proof. unfold cont_ok, byte_ok. lia. Qed.

Lemma cont_value b : cont_ok b -> Z.land b 0x3f = b - 128.
Proof.
  intros H. unfold cont_ok in H. change 0x3f with (2 ^ 6 - 1). rewrite land_mask by lia.
  change (2 ^ 6) with 64. symmetry. apply (Z.mod_unique b 64 2); lia.
Qed.

(** Pointer arithmetic on the memory at [inp]. *)
Lemma drop_next {A} (l : list A) i b r :
  0 <= i -> drop (Z.to_nat i) l = b :: r ->
  rd l i = Some b /\ drop (Z.to_nat (i + 1)) l = r.
Proof.
  intros Hi H. split.
  - rewrite <- (Z.add_0_r i), <- rd_drop, H by lia. done.
  - replace (Z.to_nat (i + 1)) with (Z.to_nat i + 1)%nat by lia. by rewrite <- drop_drop, H.
Qed.

Lemma utf8_conts_true inp cs : forall i rest,
  Forall cont_ok cs -> 0 <= i -> drop (Z.to_nat i) inp = cs ++ rest ->
  utf8_conts inp i (length cs) = Some true.
Proof.
  induction cs as [|b cs IH]; intros i rest H Hi Hd; [done|].
  apply Forall_cons_1 in H as [Hb H]. destruct (drop_next _ _ _ _ Hi Hd) as [Hr Hn].
  cbn [length utf8_conts]. rewrite Hr. cbn [mbind option_bind].
  rewrite cont_bits by by apply cont_byte. unfold cont_ok in Hb.
  rewrite (proj2 (Z.leb_le 128 b)), (proj2 (Z.ltb_lt b 192)) by lia. cbn [andb].
  by apply (IH (i + 1) rest); [|lia|].
Qed.

Lemma utf8_conts_inv inp k : forall i,
  bytes_ok inp -> 0 <= i -> i <= zlen inp -> utf8_conts inp i k = Some true ->
  exists cs rest, drop (Z.to_nat i) inp = cs ++ rest /\ length cs = k /\ Forall cont_ok cs.
Proof.
  induction k as [|k IH]; intros i Hb Hi Hle H; [by exists [], (drop (Z.to_nat i) inp)|].
  cbn [utf8_conts] in H. destruct (rd inp i) as [b|] eqn:Er; [|done]. cbn [mbind option_bind] in H.
  pose proof (rd_lookup _ _ _ Er) as [Hlt Hin].
  assert (byte_ok b) as Hbb by (unfold bytes_ok in Hb; rewrite Forall_forall in Hb; by apply Hb).
  rewrite cont_bits in H by done.
  destruct (Z.leb_spec 128 b); [|done]. destruct (Z.ltb_spec b 192); [|done]. cbn [andb] in H.
  destruct (IH (i + 1) Hb ltac:(lia) ltac:(lia) H) as (cs & rest & Hd & Hk & Hc).
  exists (b :: cs), rest. split; [|split; [simpl; lia|by constructor]].
  unfold rd in Er. rewrite (proj2 (Z.leb_le 0 i)) in Er by lia.
  rewrite (drop_S _ _ _ Er). cbn [app]. f_equal. rewrite <- Hd. f_equal. lia.
Qed.

Lemma utf8_conts_total inp k : forall i,
  0 <= i -> i + Z.of_nat k <= zlen inp -> exists ok, utf8_conts inp i k = Some ok.
Proof.
  induction k as [|k IH]; intros i Hi Hl; [by exists true|]. cbn [utf8_conts].
  destruct (rd_Some inp i) as [b ->]; [lia|]. cbn [mbind option_bind].
  destruct (_ =? _); [|by exists false]. apply IH; lia.
Qed.

Lemma utf8_bits_val inp cs : forall i rest x,
  Forall cont_ok cs -> 0 <= i -> drop (Z.to_nat i) inp = cs ++ rest ->
  utf8_bits inp i (length cs) (Z.shiftl x (6 * Z.of_nat (length cs))) = Some (val64 x cs).
Proof.
  induction cs as [|b cs IH]; intros i rest x H Hi Hd.
  { simpl. by rewrite Z.shiftl_0_r. }
  apply Forall_cons_1 in H as [Hb H]. destruct (drop_next _ _ _ _ Hi Hd) as [Hr Hn].
  cbn [length utf8_bits]. rewrite Hr. cbn [mbind option_bind]. rewrite cont_value by done.
  replace (6 * Z.of_nat (S (length cs))) with (6 + 6 * Z.of_nat (length cs)) by lia.
  rewrite <- Z.shiftl_shiftl, <- Z.shiftl_lor by lia. unfold cont_ok in Hb.
  rewrite lor_join by lia. change (2 ^ 6) with 64.
  rewrite (IH (i + 1) rest); [done|done|lia|done].
Qed.

(** Taking a sequence apart and putting it together. *)
Lemma val64_bound x cs :
  Forall cont_ok cs -> x * 64 ^ Z.of_nat (length cs) <= val64 x cs < (x + 1) * 64 ^ Z.of_nat (length cs).
Proof.
  intros H. revert x. induction H as [|b cs Hb H IH]; intros x; [simpl; lia|].
  cbn [val64 fold_left length]. fold (val64 (x * 64 + (b - 128)) cs).
  rewrite Nat2Z.inj_succ, Z.pow_succ_r by lia. specialize (IH (x * 64 + (b - 128))).
  unfold cont_ok in Hb. nia.
Qed.

Lemma utf8_tail_val x cs : Forall cont_ok cs -> utf8_tail (val64 x cs) (length cs) = cs.
Proof.
  intros H. revert x. induction H as [|b cs Hb H IH]; intros x; [done|].
  cbn [val64 fold_left length utf8_tail]. fold (val64 (x * 64 + (b - 128)) cs).
  rewrite IH. f_equal. pose proof (val64_bound (x * 64 + (b - 128)) cs H) as Hv. unfold cont_ok in Hb.
  assert (0 < 64 ^ Z.of_nat (length cs)) by lia.
  assert (val64 (x * 64 + (b - 128)) cs / 64 ^ Z.of_nat (length cs) = x * 64 + (b - 128)) as ->.
  { symmetry. apply (Z.div_unique _ _ _ (val64 (x * 64 + (b - 128)) cs
      - (x * 64 + (b - 128)) * 64 ^ Z.of_nat (length cs))); lia. }
  rewrite (Z.add_comm (x * 64)), Z.mod_add by lia. rewrite Z.mod_small; lia.
Qed.

Lemma utf8_form_val lead x cs :
  Forall cont_ok cs -> utf8_form lead (val64 x cs) (length cs) = (lead + x) :: cs.
Proof.
  intros H. unfold utf8_form. rewrite utf8_tail_val by done. f_equal. f_equal.
  pose proof (val64_bound x cs H). symmetry.
  apply (Z.div_unique _ _ _ (val64 x cs - x * 64 ^ Z.of_nat (length cs))); lia.
Qed.

Lemma utf8_tail_ok x k : Forall cont_ok (utf8_tail x k).
Proof.
  induction k as [|k IH]; constructor; [|done]. unfold cont_ok.
  pose proof (Z.mod_pos_bound (x / 64 ^ Z.of_nat k) 64 ltac:(lia)). lia.
Qed.

Lemma utf8_tail_length x k : length (utf8_tail x k) = k.
Proof. induction k; simpl; congruence. Qed.

Lemma val64_tail x k : 0 <= x -> val64 (x / 64 ^ Z.of_nat k) (utf8_tail x k) = x.
Proof.
  intros Hx. induction k as [|k IH]; [apply Z.div_1_r|].
  transitivity (val64 (x / 64 ^ Z.of_nat k) (utf8_tail x k)); [|exact IH].
  cbn [utf8_tail val64 fold_left]. unfold val64. f_equal.
  assert (0 < 64 ^ Z.of_nat k) as Hp by lia.
  rewrite Nat2Z.inj_succ, Z.pow_succ_r, (Z.mul_comm 64) by lia.
  rewrite <- (Z.div_div x (64 ^ Z.of_nat k) 64) by lia.
  pose proof (Z.div_mod (x / 64 ^ Z.of_nat k) 64 ltac:(lia)). lia.
Qed.

Lemma utf8_branch_val b0 cs rest mask min error :
  Forall cont_ok cs ->
  utf8_branch (b0 :: cs ++ rest) mask (length cs) min error
    = let x := val64 (Z.land b0 mask) cs in
      if min <=? x then Some (x, 1 + Z.of_nat (length cs), error) else Some (x, 0, YAZ_ICONV_EILSEQ).
Proof.
  intros H. unfold utf8_branch. rewrite (utf8_conts_true _ cs 1 rest) by done.
  cbn [mbind option_bind]. rewrite rd_0. cbn [mbind option_bind].
  by rewrite (utf8_bits_val _ cs 1 rest) by done.
Qed.

(** The bits of a lead octet that belong to the value. *)
Lemma land_low lead m mask :
  forallb (fun a => negb (a <? m) || (Z.land (lead + a) mask =? a)) (map Z.of_nat (seq 0 256)) = true ->
  m <= 256 -> forall a, 0 <= a < m -> Z.land (lead + a) mask = a.
Proof.
  intros H Hm a Ha. pose proof (byte_forall _ H a ltac:(unfold byte_ok; lia)) as E.
  cbv beta in E. rewrite (proj2 (Z.ltb_lt a m)) in E by lia. by apply Z.eqb_eq.
Qed.

(** One branch of the reader on the sequence it is for. *)
Lemma utf8_branch_form lead mask m k min x rest error :
  forallb (fun a => negb (a <? m) || (Z.land (lead + a) mask =? a)) (map Z.of_nat (seq 0 256)) = true ->
  m <= 256 -> 0 <= x < m * 64 ^ Z.of_nat k -> min <= x ->
  utf8_branch (utf8_form lead x k ++ rest) mask k min error = Some (x, 1 + Z.of_nat k, error).
Proof.
  intros Hl Hm Hx Hmin. unfold utf8_form. cbn [app].
  rewrite <- (utf8_tail_length x k) at 3. rewrite utf8_branch_val by apply utf8_tail_ok.
  assert (0 <= x / 64 ^ Z.of_nat k < m) as Hq.
  { split; [apply Z.div_pos; lia|apply Z.div_lt_upper_bound; lia]. }
  rewrite (land_low lead m mask Hl Hm _ Hq), val64_tail by lia. cbv zeta.
  by rewrite (proj2 (Z.leb_le min x)), utf8_tail_length by lia.
Qed.

Lemma utf8_form_head lead x k rest : rd (utf8_form lead x k ++ rest) 0 = Some (lead + x / 64 ^ Z.of_nat k).
Proof. done. Qed.

Lemma zlen_utf8_form lead x k : zlen (utf8_form lead x k) = 1 + Z.of_nat k.
Proof. unfold utf8_form. rewrite zlen_cons. unfold zlen. by rewrite utf8_tail_length. Qed.

Lemma read_UTF8_ok x rest avail error :
  0 <= x < 2 ^ 31 -> zlen (utf8 x) <= avail ->
  yaz_read_UTF8_char (utf8 x ++ rest) avail error = Some (x, zlen (utf8 x), error).
Proof.
  intros Hx. unfold utf8.
  destruct (Z.ltb_spec x 0x80).
  { intros Ha. unfold yaz_read_UTF8_char. cbn [app]. rewrite rd_0. cbn [mbind option_bind].
    by rewrite (proj2 (Z.leb_le x 0x7f)) by lia. }
  assert (forall k m lead, 0 <= x < m * 64 ^ Z.of_nat k -> lead <= lead + x / 64 ^ Z.of_nat k < lead + m) as Hq.
  { intros k m lead Hk. assert (0 <= x / 64 ^ Z.of_nat k) by (apply Z.div_pos; lia).
    assert (x / 64 ^ Z.of_nat k < m) by (apply Z.div_lt_upper_bound; lia). lia. }
  destruct (Z.ltb_spec x 0x800); [|destruct (Z.ltb_spec x 0x10000);
    [|destruct (Z.ltb_spec x 0x200000); [|destruct (Z.ltb_spec x 0x4000000)]]];
    rewrite zlen_utf8_form; intros Ha; unfold yaz_read_UTF8_char; rewrite utf8_form_head; cbn [mbind option_bind].
  - specialize (Hq 1%nat 32 0xc0 ltac:(lia)). repeat ztest1; cbn [orb andb];
      (apply (utf8_branch_form _ _ 32); [vm_compute; reflexivity|lia..]).
  - specialize (Hq 2%nat 16 0xe0 ltac:(lia)). repeat ztest1; cbn [orb andb];
      (apply (utf8_branch_form _ _ 16); [vm_compute; reflexivity|lia..]).
  - specialize (Hq 3%nat 8 0xf0 ltac:(lia)). repeat ztest1; cbn [orb andb];
      (apply (utf8_branch_form _ _ 8); [vm_compute; reflexivity|lia..]).
  - specialize (Hq 4%nat 4 0xf8 ltac:(lia)). repeat ztest1; cbn [orb andb];
      (apply (utf8_branch_form _ _ 4); [vm_compute; reflexivity|lia..]).
  - specialize (Hq 5%nat 2 0xfc ltac:(lia)). repeat ztest1; cbn [orb andb];
      (apply (utf8_branch_form _ _ 2); [vm_compute; reflexivity|lia..]).
Qed.

(** ** What the reader accepts *)

(** A result that is an error. *)
Definition utf8_error (r : Z * Z * Z) : Prop :=
  r.1.2 = 0 /\ (r.2 = YAZ_ICONV_EILSEQ \/ r.2 = YAZ_ICONV_EINVAL).

(** A result that is the value of a shortest sequence at the front of [inp]. *)
Definition utf8_value (inp : list Z) (avail error : Z) (r : Z * Z * Z) : Prop :=
  0 <= r.1.1 < 2 ^ 31 /\ r.2 = error /\ r.1.2 = zlen (utf8 r.1.1) /\ zlen (utf8 r.1.1) <= avail /\
  exists rest, inp = utf8 r.1.1 ++ rest.

Lemma utf8_branch_total inp mask k min error :
  bytes_ok inp -> 1 + Z.of_nat k <= zlen inp ->
  exists r, utf8_branch inp mask k min error = Some r /\
    (utf8_error r \/
     exists b0 cs rest, inp = b0 :: cs ++ rest /\ length cs = k /\ Forall cont_ok cs /\
       min <= val64 (Z.land b0 mask) cs /\
       r = (val64 (Z.land b0 mask) cs, 1 + Z.of_nat k, error)).
Proof.
  intros Hb Hl. destruct (utf8_conts_total inp k 1 ltac:(lia) ltac:(lia)) as [[|] E].
  - destruct inp as [|b0 inp]; [unfold zlen in Hl; simpl in Hl; lia|].
    pose proof (zlen_nonneg inp). rewrite zlen_cons in Hl.
    destruct (utf8_conts_inv _ k 1 Hb ltac:(lia) ltac:(rewrite zlen_cons; lia) E) as (cs & rest & Hd & Hk & Hc).
    change (drop (Z.to_nat 1) (b0 :: inp)) with inp in Hd. subst inp k.
    rewrite utf8_branch_val by done. cbv zeta. destruct (Z.leb_spec min (val64 (Z.land b0 mask) cs)).
    + eexists. split; [reflexivity|]. right. by exists b0, cs, rest.
    + eexists. split; [reflexivity|]. left. split; [done|by left].
  - exists (0, 0, YAZ_ICONV_EILSEQ). unfold utf8_branch. rewrite E. split; [done|]. left. split; [done|by left].
Qed.

Lemma utf8_form_of_val lead mask m k min max x b0 cs :
  forallb (fun a => negb (a <? m) || (Z.land (lead + a) mask =? a)) (map Z.of_nat (seq 0 256)) = true ->
  m <= 256 -> lead <= b0 < lead + m -> length cs = k -> Forall cont_ok cs ->
  x = val64 (Z.land b0 mask) cs -> min <= x -> max = m * 64 ^ Z.of_nat k ->
  b0 :: cs = utf8_form lead x k /\ min <= x < max.
Proof.
  intros Hl Hm Hb <- Hc -> Hmin ->.
  pose proof (land_low lead m mask Hl Hm (b0 - lead) ltac:(lia)) as Ha.
  replace (lead + (b0 - lead)) with b0 in Ha by lia. rewrite Ha in *.
  rewrite utf8_form_val by done. split; [f_equal; lia|].
  pose proof (val64_bound (b0 - lead) cs Hc). split; [done|].
  assert (0 < 64 ^ Z.of_nat (length cs)) by lia. nia.
Qed.

(** A branch that accepts has found the shortest sequence of its value. *)
Lemma utf8_branch_value lead mask m k min max inp b0 avail error :
  forallb (fun a => negb (a <? m) || (Z.land (lead + a) mask =? a)) (map Z.of_nat (seq 0 256)) = true ->
  (forall x, min <= x < max -> utf8 x = utf8_form lead x k) ->
  m <= 256 -> lead <= b0 < lead + m -> 0 <= min -> max <= 2 ^ 31 -> max = m * 64 ^ Z.of_nat k ->
  bytes_ok (b0 :: inp) -> 1 + Z.of_nat k <= avail <= zlen (b0 :: inp) ->
  exists r, utf8_branch (b0 :: inp) mask k min error = Some r /\
    (utf8_error r \/ utf8_value (b0 :: inp) avail error r).
Proof.
  intros Hl Hu Hm Hb0 Hmin Hmax Hmx Hb Ha.
  destruct (utf8_branch_total (b0 :: inp) mask k min error Hb ltac:(lia)) as (r & E & Hr).
  exists r. split; [done|]. destruct Hr as [Hr|(b & cs & rest & [= <- ->] & Hk & Hc & Hge & ->)]; [by left|].
  right. destruct (utf8_form_of_val lead mask m k min max _ b0 cs Hl Hm Hb0 Hk Hc eq_refl Hge Hmx) as [Hf Hx].
  unfold utf8_value. cbn [fst snd]. rewrite (Hu _ Hx), zlen_utf8_form.
  split; [lia|]. split; [done|]. split; [done|]. split; [lia|]. exists rest. rewrite <- Hf. done.
Qed.

(** The branch of a lead octet, and the last [else]. *)
Ltac utf8_case m lead max :=
  apply (utf8_branch_value lead _ m _ _ max);
  [vm_compute; reflexivity|intros x Hx; unfold utf8; repeat ztest1; done|lia..|done|lia].
Ltac utf8_incomplete :=
  repeat ztest1; cbn [andb];
  eexists; (split; [reflexivity|left; split; [done|by right]]).

Lemma read_UTF8_total inp avail error :
  bytes_ok inp -> 1 <= avail <= zlen inp ->
  exists r, yaz_read_UTF8_char inp avail error = Some r /\
    (utf8_error r \/ utf8_value inp avail error r).
Proof.
  intros Hb Ha. destruct inp as [|b0 inp]; [unfold zlen in Ha; simpl in Ha; lia|].
  assert (byte_ok b0) as Hb0 by by apply Forall_cons_1 in Hb as [? _]. unfold byte_ok in Hb0.
  unfold yaz_read_UTF8_char. rewrite rd_0. cbn [mbind option_bind].
  destruct (Z.leb_spec b0 0x7f).
  { eexists. split; [reflexivity|]. right. unfold utf8_value, utf8. cbn [fst snd].
    rewrite (proj2 (Z.ltb_lt b0 0x80)) by lia. unfold zlen at 1 2; simpl length.
    split; [lia|]. split; [done|]. split; [done|]. split; [lia|]. by exists inp. }
  destruct (Z.leb_spec b0 0xbf); [|destruct (Z.leb_spec 0xfe b0)]; cbn [orb];
    [by eexists; split; [reflexivity|left; split; [done|by left]]..|].
  destruct (Z.leb_spec 2 avail); [|utf8_incomplete].
  destruct (Z.leb_spec b0 0xdf); cbn [andb]; [utf8_case 32 0xc0 0x800|].
  destruct (Z.leb_spec 3 avail); [|utf8_incomplete].
  destruct (Z.leb_spec b0 0xef); cbn [andb]; [utf8_case 16 0xe0 0x10000|].
  destruct (Z.leb_spec 4 avail); [|utf8_incomplete].
  destruct (Z.leb_spec b0 0xf7); cbn [andb]; [utf8_case 8 0xf0 0x200000|].
  destruct (Z.leb_spec 5 avail); [|utf8_incomplete].
  destruct (Z.leb_spec b0 0xfb); cbn [andb]; [utf8_case 4 0xf8 0x4000000|].
  rewrite (proj2 (Z.leb_le b0 0xfd)) by lia.
  destruct (Z.leb_spec 6 avail); cbn [andb]; [utf8_case 2 0xfc (2 ^ 31)|].
  eexists. split; [reflexivity|]. left. split; [done|by right].
Qed.

(** ** [yaz_utf8_check] *)

Lemma utf8_nonempty x : utf8 x <> [].
Proof. unfold utf8, utf8_form. repeat destruct (_ <? _); done. Qed.

Lemma utf8_length x : 1 <= zlen (utf8 x) <= 6.
Proof. unfold utf8. repeat destruct (_ <? _); rewrite ?zlen_utf8_form; simpl; unfold zlen; simpl; lia. Qed.

(** The check accepts the concatenations of shortest sequences. *)
Lemma utf8_check_loop_spec fuel : forall s rest,
  bytes_ok (s ++ rest) -> zlen s < 2 ^ 64 -> (length s < fuel)%nat ->
  exists r, utf8_check_loop fuel (s ++ rest) (zlen s) = Some r /\ (r = 0 \/ r = 1) /\
    (r = 1 <-> exists xs, Forall (fun x => 0 <= x < 2 ^ 31) xs /\ s = utf8_text xs).
Proof.
  induction fuel as [|fuel IH]; intros s rest Hb Hs Hf; [lia|]. cbn [utf8_check_loop].
  destruct (Z.eqb_spec (zlen s) 0) as [Hz|Hz].
  { exists 1. split; [done|]. split; [by right|]. split; [|done]. intros _. exists [].
    split; [constructor|]. destruct s; [done|]. rewrite zlen_cons in Hz. pose proof (zlen_nonneg s). lia. }
  pose proof (zlen_nonneg s) as Hnn. pose proof (zlen_nonneg rest).
  destruct (read_UTF8_total (s ++ rest) (zlen s) 0 Hb) as ([[x n] er] & E & Hr);
    [rewrite zlen_app; lia|]. rewrite E. cbn [mbind option_bind].
  destruct Hr as [[Hn He]|(Hx & He & Hn & Hle & rest' & Hi)]; cbn [fst snd] in *.
  - exists 0. split; [by destruct He as [-> | ->]|]. split; [by left|].
    split; [done|]. intros (xs & Hxs & ->). exfalso.
    destruct Hxs as [|x' xs Hx' Hxs]; [by apply Hz|].
    change (utf8_text (x' :: xs)) with (utf8 x' ++ utf8_text xs) in *.
    rewrite <- app_assoc, read_UTF8_ok in E; [|done|rewrite zlen_app; pose proof (zlen_nonneg (utf8_text xs)); lia].
    injection E as <- <- <-. by destruct He.
  - subst er n. rewrite Z.eqb_refl. cbn [negb].
    assert (exists s', s = utf8 x ++ s') as [s' ->].
    { exists (drop (length (utf8 x)) s). apply (f_equal (take (length (utf8 x)))) in Hi.
      rewrite take_app_length, take_app_le in Hi by (unfold zlen in Hle; lia).
      by rewrite <- Hi at 1; rewrite take_drop. }
    rewrite <- app_assoc in *. rewrite zlen_app in *. unfold zlen at 1. rewrite Nat2Z.id, drop_app_length.
    pose proof (zlen_nonneg s'). pose proof (utf8_length x).
    unfold u64. rewrite wrap_small by lia.
    replace (zlen (utf8 x) + zlen s' - zlen (utf8 x)) with (zlen s') by lia.
    destruct (IH s' rest) as (r & E' & H01 & Hiff);
      [by unfold bytes_ok in Hb; apply Forall_app in Hb as [_ ?]|lia|rewrite length_app in Hf; unfold zlen in *; lia|].
    exists r. split; [done|]. split; [done|]. rewrite Hiff. split.
    + intros (xs & Hxs & ->). exists (x :: xs). split; [by constructor|done].
    + intros (xs & Hxs & Hq). destruct Hxs as [|x' xs Hx' Hxs]; [by destruct (utf8_nonempty x); destruct (utf8 x)|].
      change (utf8_text (x' :: xs)) with (utf8 x' ++ utf8_text xs) in *.
      rewrite app_assoc, Hq, <- app_assoc, read_UTF8_ok in E; [|done|].
      * injection E as -> _. apply app_inv_head in Hq. by exists xs.
      * pose proof (f_equal zlen Hq) as Hz'. rewrite !zlen_app in Hz'. pose proof (zlen_nonneg (utf8_text xs)). lia.
Qed.

(** ** UTF-8 as a character set of the conversion engine *)

Lemma int_word x : 0 <= x < 2 ^ 31 -> u64 (s32 x) = x.
Proof. intros. rewrite s32_small by lia. apply wrap_small. lia. Qed.

Lemma word_minus_one : u64 (s32 SIZE_MAX) = SIZE_MAX.
Proof. reflexivity. Qed.

(** The first characters that [init_utf8] does not take for a byte order mark. *)
Definition utf8_first (x : Z) : Prop :=
  forall b1 b2, utf8 x = [0xef; b1; b2] -> b1 = 0xbb \/ b2 <> 0xbf.

Lemma utf8_head_ef x t : 0 <= x < 2 ^ 31 -> utf8 x = 0xef :: t -> length t = 2%nat.
Proof.
  intros Hx. unfold utf8, utf8_form.
  assert (forall k m, x < m * 64 ^ Z.of_nat k -> 0 <= x / 64 ^ Z.of_nat k < m) as Hq.
  { intros k m Hk. split; [apply Z.div_pos; lia|apply Z.div_lt_upper_bound; lia]. }
  destruct (Z.ltb_spec x 0x80); [intros [= -> <-]; lia|].
  destruct (Z.ltb_spec x 0x800); [specialize (Hq 1%nat 32 ltac:(lia)); intros [= E _]; lia|].
  destruct (Z.ltb_spec x 0x10000); [intros [= E <-]; reflexivity|].
  destruct (Z.ltb_spec x 0x200000); [specialize (Hq 3%nat 8 ltac:(lia)); intros [= E _]; lia|].
  destruct (Z.ltb_spec x 0x4000000); [specialize (Hq 4%nat 4 ltac:(lia))|specialize (Hq 5%nat 2 ltac:(lia))];
    intros [= E _]; lia.
Qed.

Lemma init_utf8_keeps x rest avail s :
  0 <= x < 2 ^ 31 -> utf8_first x -> zlen (utf8 x) <= avail ->
  init_utf8 (Some (utf8 x ++ rest)) avail s = Some ((0, 0), s).
Proof.
  intros Hx Hf Ha. destruct (utf8 x) as [|b0 t] eqn:E; [by destruct (utf8_nonempty x)|].
  unfold init_utf8. cbn [app]. rewrite rd_0. mrun.
  destruct (Z.eqb_spec b0 0xef) as [->|]; [|done]. cbn [negb].
  pose proof (utf8_head_ef x t Hx E) as Ht. destruct t as [|b1 [|b2 [|]]]; try done.
  rewrite (proj2 (Z.ltb_ge avail 3)) by exact Ha. cbn [app].
  change (rd (0xef :: b1 :: b2 :: rest) 1) with (Some b1).
  change (rd (0xef :: b1 :: b2 :: rest) 2) with (Some b2). mrun.
  destruct (Z.eqb_spec b1 0xbb); [done|]. cbn [negb]. mrun.
  destruct (Hf b1 b2 E) as [|Hb2]; [done|]. by rewrite (proj2 (Z.eqb_neq b2 0xbf)).
Qed.

#[global] Instance utf8_charset_decoder : CharsetDecoder utf8_decoder.
Proof.
  refine {| dk_ok := fun x => 0 < x < 2 ^ 31; dk_bytes := utf8; dk_first := utf8_first |}.
  - intros x _. apply utf8_nonempty.
  - intros x Hx. lia.
  - intros x rest avail errno dd Hx Ha. exists 0. cbn [read_handle utf8_decoder]. unfold read_utf8.
    rewrite read_UTF8_ok by (try done; lia). mrun. by rewrite int_word by lia.
  - intros h x rest avail errno dd [= <-] Hx Hf Ha. exists errno.
    rewrite init_utf8_keeps by (try done; lia). done.
Defined.

#[global] Instance utf8_charset_encoder : CharsetEncoder utf8_encoder.
Proof.
  refine {| ek_ok := fun x => 0 < x < 2 ^ 31; ek_bytes := utf8 |};
    intros x errno ed out room Hx Hr; pose proof (utf8_length x); cbn [write_handle utf8_encoder];
    unfold write_UTF8, yaz_write_UTF8_char; mrun; cbn [w_left]; rewrite utf8_octets_spec by lia.
  - exists 0. by rewrite (proj2 (Z.leb_le _ _)) by lia.
  - rewrite (proj2 (Z.leb_gt _ _)) by lia. unfold put, bind, yaz_iconv_set_errno, modify, ret.
    cbn [w_errno w_data w_out w_left]. by rewrite app_nil_r, word_minus_one.
Defined.

(** ** Properties *)

(** [yaz_write_UTF8_char] stores the shortest UTF-8 sequence of every value
    below 2^31 when there is room for it, counting its octets off the room, and
    otherwise stores nothing and reports [E2BIG]; [yaz_read_UTF8_char] reads the
    sequence back as the same value, and reads no further. *)
Theorem utf8_char_roundtrip (x room error rest_len : Z) (rest : list Z) :
  0 <= x < 2 ^ 31 -> 0 <= room -> 0 <= rest_len ->
  (zlen (utf8 x) <= room ->
     yaz_write_UTF8_char x room error = (0, utf8 x, room - zlen (utf8 x), error)) /\
  (room < zlen (utf8 x) ->
     yaz_write_UTF8_char x room error = (SIZE_MAX, [], room, YAZ_ICONV_E2BIG)) /\
  yaz_read_UTF8_char (utf8 x ++ rest) (zlen (utf8 x) + rest_len) error
    = Some (x, zlen (utf8 x), error).
Proof.
  intros Hx Hr Hl. unfold yaz_write_UTF8_char. rewrite utf8_octets_spec by lia.
  split; [|split]; [intros H; by rewrite (proj2 (Z.leb_le _ _)) by lia|
    intros H; by rewrite (proj2 (Z.leb_gt _ _)) by lia|].
  apply read_UTF8_ok; lia.
Qed.

Lemma utf8_char_roundtrip_witness :
  (zlen (utf8 0x20ac) <= 3 ->
     yaz_write_UTF8_char 0x20ac 3 0 = (0, utf8 0x20ac, 3 - zlen (utf8 0x20ac), 0)) /\
  (3 < zlen (utf8 0x20ac) ->
     yaz_write_UTF8_char 0x20ac 3 0 = (SIZE_MAX, [], 3, YAZ_ICONV_E2BIG)) /\
  yaz_read_UTF8_char (utf8 0x20ac ++ [65]) (zlen (utf8 0x20ac) + 1) 0
    = Some (0x20ac, zlen (utf8 0x20ac), 0).
Proof. apply (utf8_char_roundtrip 0x20ac 3 0 1 [65]); lia. Defined.

(** C38: [yaz_read_UTF8_char] never reads past the octets it is given, and
    either reports an error without consuming anything or has found the shortest
    sequence of the value it returns: overlong forms are refused. *)
Theorem utf8_reader_exact (inp : list Z) (avail : Z) :
  bytes_ok inp -> 1 <= avail <= zlen inp ->
  exists r, yaz_read_UTF8_char inp avail 0 = Some r /\
    (utf8_error r \/ utf8_value inp avail 0 r).
Proof. apply read_UTF8_total. Qed.

Lemma utf8_reader_exact_witness :
  exists r, yaz_read_UTF8_char [0xc3; 0xa6; 0x62] 2 0 = Some r /\
    (utf8_error r \/ utf8_value [0xc3; 0xa6; 0x62] 2 0 r).
Proof.
  apply (utf8_reader_exact [0xc3; 0xa6; 0x62] 2);
    [repeat constructor; unfold byte_ok; lia|unfold zlen; simpl; lia].
Defined.

(** [yaz_utf8_check] is defined on every C string; it is 1 exactly for the
    texts that are UTF-8, the concatenations of shortest sequences, and 0 for the
    others. *)
Theorem yaz_utf8_check_spec (s rest : list Z) :
  bytes_ok (s ++ 0 :: rest) -> nonzero s -> zlen s < 2 ^ 64 ->
  exists r, yaz_utf8_check (s ++ 0 :: rest) = Some r /\ (r = 0 \/ r = 1) /\
    (r = 1 <-> exists xs, Forall (fun x => 0 <= x < 2 ^ 31) xs /\ s = utf8_text xs).
Proof.
  intros Hb Hs Hl. unfold yaz_utf8_check. rewrite strlen_spec by done. cbn [mbind option_bind].
  apply utf8_check_loop_spec; [done|done|]. unfold zlen. lia.
Qed.

Lemma yaz_utf8_check_spec_witness :
  exists r, yaz_utf8_check ([0x61; 0xc3; 0xa6] ++ 0 :: []) = Some r /\ (r = 0 \/ r = 1) /\
    (r = 1 <-> exists xs, Forall (fun x => 0 <= x < 2 ^ 31) xs /\ [0x61; 0xc3; 0xa6] = utf8_text xs).
Proof.
  apply (yaz_utf8_check_spec [0x61; 0xc3; 0xa6] []);
    [repeat constructor; unfold byte_ok; lia|repeat constructor; lia|done].
Defined.

(** [init_utf8] passes over the three octets [EF b1 b2] exactly when
    [b1] is not [BB] and [b2] is [BF]: the byte order mark [EF BB BF] is kept, and
    a first character such as U+FF3F is lost. *)
Theorem init_utf8_bom (b1 b2 avail : Z) (rest : list Z) (s : Z * unit) :
  3 <= avail ->
  exists n, init_utf8 (Some (0xef :: b1 :: b2 :: rest)) avail s = Some ((0, n), s) /\
    (n = 3 <-> b1 <> 0xbb /\ b2 = 0xbf) /\ (n = 0 \/ n = 3).
Proof.
  intros Ha. unfold init_utf8. change (rd (0xef :: b1 :: b2 :: rest) 0) with (Some 0xef). mrun.
  rewrite Z.eqb_refl, (proj2 (Z.ltb_ge avail 3)) by lia. cbn [negb].
  change (rd (0xef :: b1 :: b2 :: rest) 1) with (Some b1).
  change (rd (0xef :: b1 :: b2 :: rest) 2) with (Some b2). mrun.
  destruct (Z.eqb_spec b1 0xbb); cbn [negb]; mrun.
  { exists 0. split; [done|]. split; [|by left]. split; [lia|]. by intros [? _]. }
  destruct (Z.eqb_spec b2 0xbf); [exists 3|exists 0]; (split; [done|]); (split; [|lia]); lia.
Qed.

Lemma init_utf8_bom_witness :
  exists n, init_utf8 (Some [0xef; 0xbb; 0xbf]) 3 (1, tt) = Some ((0, n), (1, tt)) /\
    (n = 3 <-> 0xbb <> 0xbb /\ 0xbf = 0xbf) /\ (n = 0 \/ n = 3).
Proof. apply (init_utf8_bom 0xbb 0xbf 3 [] (1, tt)). lia. Defined.
