(* ===== verification/Ucs4.v ===== *)
(** * UCS-4 (ucs4.c)

    Four octets a character, most or least significant first, as character sets
    of the conversion engine, and the conversions between UTF-8 and UCS-4. *)

From stdpp Require Import base list numbers option strings.
From Stdlib Require Import ZArith Lia.
From S2P Require Import Prelude Text MatchStr Iconv Utf8.

(** ** Operations *)

(** [(b3 << 24) | (b2 << 16) | (b1 << 8) | b0], computed in [int]: a first octet
    with its high bit set is shifted into the sign, which C leaves undefined. *)
Definition ucs4_value (b3 b2 b1 b0 : Z) : option Z :=
  if b3 <? 128 then
    Some (Z.lor (Z.lor (Z.lor (Z.shiftl b3 24) (Z.shiftl b2 16)) (Z.shiftl b1 8)) b0)
  else None.

Definition read_UCS4 (inp : list Z) (inbytesleft : Z) : M (Z * unit) (Z * Z) :=
  if inbytesleft <? 4 then dec_set_errno YAZ_ICONV_EINVAL ;; ret (0, 0)
  else
    let* b0 := lift (rd inp 0) in
    let* b1 := lift (rd inp 1) in
    let* b2 := lift (rd inp 2) in
    let* b3 := lift (rd inp 3) in
    let* x := lift (ucs4_value b0 b1 b2 b3) in
    ret (x, 4).

Definition read_UCS4LE (inp : list Z) (inbytesleft : Z) : M (Z * unit) (Z * Z) :=
  if inbytesleft <? 4 then dec_set_errno YAZ_ICONV_EINVAL ;; ret (0, 0)
  else
    let* b0 := lift (rd inp 0) in
    let* b1 := lift (rd inp 1) in
    let* b2 := lift (rd inp 2) in
    let* b3 := lift (rd inp 3) in
    let* x := lift (ucs4_value b3 b2 b1 b0) in
    ret (x, 4).

Definition write_UCS4 (x : Z) : M (writer unit) Z :=
  let* w := get in
  if 4 <=? w_left w then
    emit [u8 (Z.shiftr x 24); u8 (Z.shiftr x 16); u8 (Z.shiftr x 8); u8 x] ;; ret 0
  else yaz_iconv_set_errno YAZ_ICONV_E2BIG ;; ret SIZE_MAX.

Definition write_UCS4LE (x : Z) : M (writer unit) Z :=
  let* w := get in
  if 4 <=? w_left w then
    emit [u8 x; u8 (Z.shiftr x 8); u8 (Z.shiftr x 16); u8 (Z.shiftr x 24)] ;; ret 0
  else yaz_iconv_set_errno YAZ_ICONV_E2BIG ;; ret SIZE_MAX.

Definition ucs4_encoder : yaz_iconv_encoder_s unit := Encoder write_UCS4 None None.
Definition ucs4le_encoder : yaz_iconv_encoder_s unit := Encoder write_UCS4LE None None.
Definition ucs4_decoder : yaz_iconv_decoder_s unit := Decoder None read_UCS4.
Definition ucs4le_decoder : yaz_iconv_decoder_s unit := Decoder None read_UCS4LE.

Definition yaz_ucs4_encoder (tocode : list Z) : option (option (yaz_iconv_encoder_s unit)) :=
  let? r := yaz_matchstr tocode (str "UCS4" ++ [0]) in
  if r =? 0 then Some (Some ucs4_encoder) else
  let? r := yaz_matchstr tocode (str "UCS4LE" ++ [0]) in
  Some (if r =? 0 then Some ucs4le_encoder else None).
Definition yaz_ucs4_decoder (tocode : list Z) : option (option (yaz_iconv_decoder_s unit)) :=
  let? r := yaz_matchstr tocode (str "UCS4" ++ [0]) in
  if r =? 0 then Some (Some ucs4_decoder) else
  let? r := yaz_matchstr tocode (str "UCS4LE" ++ [0]) in
  Some (if r =? 0 then Some ucs4le_decoder else None).

(** ** Specification *)

Definition ucs4 (x : Z) : list Z := [x / 2 ^ 24; (x / 2 ^ 16) mod 256; (x / 2 ^ 8) mod 256; x mod 256].
Definition ucs4le (x : Z) : list Z := rev (ucs4 x).

Definition ucs4_text (xs : list Z) : list Z := concat (map ucs4 xs).
Definition ucs4le_text (xs : list Z) : list Z := concat (map ucs4le xs).

(** ** Lemmas *)

Lemma ucs4_value_spec b3 b2 b1 b0 :
  0 <= b3 < 128 -> byte_ok b2 -> byte_ok b1 -> byte_ok b0 ->
  ucs4_value b3 b2 b1 b0 = Some (((b3 * 256 + b2) * 256 + b1) * 256 + b0).
Proof.
  unfold byte_ok. intros H3 H2 H1 H0. unfold ucs4_value. rewrite (proj2 (Z.ltb_lt b3 128)) by lia.
  change 24 with (8 + 16). rewrite <- (Z.shiftl_shiftl b3), <- Z.shiftl_lor by lia.
  rewrite (lor_join b3) by lia. change 16 with (8 + 8).
  rewrite <- (Z.shiftl_shiftl _ 8 8), <- Z.shiftl_lor by lia.
  rewrite (lor_join _ 8 b1), (lor_join _ 8 b0) by lia. f_equal; lia.
Qed.

Lemma ucs4_digits x :
  0 <= x < 2 ^ 31 ->
  0 <= x / 2 ^ 24 < 128 /\
  ((x / 2 ^ 24 * 256 + (x / 2 ^ 16) mod 256) * 256 + (x / 2 ^ 8) mod 256) * 256 + x mod 256 = x.
Proof.
  intros Hx. split; [split; [apply Z.div_pos; lia|apply Z.div_lt_upper_bound; lia]|].
  change (2 ^ 24) with (2 ^ 16 * 256). change (2 ^ 16) with (2 ^ 8 * 256). change (2 ^ 8) with 256.
  rewrite <- !Z.div_div by lia.
  pose proof (Z.div_mod x 256). pose proof (Z.div_mod (x / 256) 256). pose proof (Z.div_mod (x / 256 / 256) 256).
  lia.
Qed.

Lemma ucs4_octets x :
  0 <= x < 2 ^ 31 ->
  [u8 (Z.shiftr x 24); u8 (Z.shiftr x 16); u8 (Z.shiftr x 8); u8 x] = ucs4 x.
Proof.
  intros Hx. unfold ucs4, u8. rewrite !Z.shiftr_div_pow2 by lia.
  destruct (ucs4_digits x Hx) as [H _]. by rewrite (wrap_small 8 (x / 2 ^ 24)) by lia.
Qed.

Lemma ucs4_read x :
  0 <= x < 2 ^ 31 ->
  ucs4_value (x / 2 ^ 24) ((x / 2 ^ 16) mod 256) ((x / 2 ^ 8) mod 256) (x mod 256) = Some x.
Proof.
  intros Hx. destruct (ucs4_digits x Hx) as [H E].
  rewrite ucs4_value_spec; [by rewrite E|done|unfold byte_ok; apply Z.mod_pos_bound; lia..].
Qed.

Lemma rd_four {A} (a b c d : A) r :
  rd (a :: b :: c :: d :: r) 0 = Some a /\ rd (a :: b :: c :: d :: r) 1 = Some b /\
  rd (a :: b :: c :: d :: r) 2 = Some c /\ rd (a :: b :: c :: d :: r) 3 = Some d.
Proof. done. Qed.

Lemma read_UCS4_ok x rest avail s :
  0 <= x < 2 ^ 31 -> 4 <= avail -> read_UCS4 (ucs4 x ++ rest) avail s = Some ((x, 4), s).
Proof.
  intros Hx Ha. unfold read_UCS4. rewrite (proj2 (Z.ltb_ge avail 4)) by lia.
  unfold ucs4. cbn [app].
  destruct (rd_four (x / 2 ^ 24) ((x / 2 ^ 16) mod 256) ((x / 2 ^ 8) mod 256) (x mod 256) rest)
    as (-> & -> & -> & ->).
  mrun. by rewrite ucs4_read.
Qed.

Lemma read_UCS4LE_ok x rest avail s :
  0 <= x < 2 ^ 31 -> 4 <= avail -> read_UCS4LE (ucs4le x ++ rest) avail s = Some ((x, 4), s).
Proof.
  intros Hx Ha. unfold read_UCS4LE. rewrite (proj2 (Z.ltb_ge avail 4)) by lia.
  unfold ucs4le, ucs4. cbn [app rev].
  destruct (rd_four (x mod 256) ((x / 2 ^ 8) mod 256) ((x / 2 ^ 16) mod 256) (x / 2 ^ 24) rest)
    as (-> & -> & -> & ->).
  mrun. by rewrite ucs4_read.
Qed.

(** ** UCS-4 as a character set *)

#[global] Instance ucs4_charset_decoder : CharsetDecoder ucs4_decoder.
Proof.
  refine {| dk_ok := fun x => 0 < x < 2 ^ 31; dk_bytes := ucs4; dk_first := fun _ => True |}; try done.
  - intros x Hx. lia.
  - intros x rest avail errno dd Hx Ha. exists errno. cbn [read_handle ucs4_decoder].
    by rewrite read_UCS4_ok by (try exact Ha; lia).
Defined.

#[global] Instance ucs4le_charset_decoder : CharsetDecoder ucs4le_decoder.
Proof.
  refine {| dk_ok := fun x => 0 < x < 2 ^ 31; dk_bytes := ucs4le; dk_first := fun _ => True |}; try done.
  - intros x Hx. lia.
  - intros x rest avail errno dd Hx Ha. exists errno. cbn [read_handle ucs4le_decoder].
    by rewrite read_UCS4LE_ok by (try exact Ha; lia).
Defined.

#[global] Instance ucs4_charset_encoder : CharsetEncoder ucs4_encoder.
Proof.
  refine {| ek_ok := fun x => 0 < x < 2 ^ 31; ek_bytes := ucs4 |};
    intros x errno ed out room Hx Hr; cbn [write_handle ucs4_encoder];
    unfold write_UCS4, emit, yaz_iconv_set_errno; mrun; cbn [w_left];
    change (zlen (ucs4 x)) with 4 in *.
  - exists errno. rewrite (proj2 (Z.leb_le 4 room)) by lia. mrun. by rewrite ucs4_octets by lia.
  - by rewrite (proj2 (Z.leb_gt 4 room)) by lia.
Defined.

#[global] Instance ucs4le_charset_encoder : CharsetEncoder ucs4le_encoder.
Proof.
  refine {| ek_ok := fun x => 0 < x < 2 ^ 31; ek_bytes := ucs4le |};
    intros x errno ed out room Hx Hr; cbn [write_handle ucs4le_encoder];
    unfold write_UCS4LE, emit, yaz_iconv_set_errno; mrun; cbn [w_left];
    change (zlen (ucs4le x)) with 4 in *.
  - exists errno. rewrite (proj2 (Z.leb_le 4 room)) by lia. mrun.
    unfold ucs4le. rewrite <- ucs4_octets by lia. done.
  - by rewrite (proj2 (Z.leb_gt 4 room)) by lia.
Defined.

(** ** Properties *)

(** Texts of characters both character sets have, with a first character that
    the initialisation of the UTF-8 decoder keeps. *)
Definition unicode_text (xs : list Z) : Prop :=
  Forall (fun x => 0 < x < 2 ^ 31) xs /\ exists x xs', xs = x :: xs' /\ utf8_first x.

(** Draining a fresh conversion between two character sets of this kind. *)
Lemma iconv_drain_fresh {d e : Type} (D : yaz_iconv_decoder_s d) (E : yaz_iconv_encoder_s e)
    `{!CharsetDecoder D} `{!CharsetEncoder E} (dd : d) (ed : e) n0 x0 xs tail sizes width :
  Forall (fun x => dk_ok x /\ ek_ok x) xs -> (exists x xs', xs = x :: xs' /\ dk_first x) ->
  zlen (source D xs) < 2 ^ 64 - 1 -> (forall x, zlen (ek_bytes x) <= width) ->
  Forall (fun n => width <= n) sizes -> (length xs < length sizes)%nat ->
  iconv_drain D E (yaz_iconv_fresh ed dd n0 x0) (source D xs ++ tail) (zlen (source D xs)) sizes
    = Some (target E xs, true).
Proof.
  intros Hok Hfirst Hlen Hw Hsz Hl. apply iconv_drain_converts; try done.
  - intros Hf. by cbn in Hf.
  - eapply Forall_impl; [exact Hsz|]. intros n Hn. cbv beta in *. split.
    + apply Forall_forall. intros x _. specialize (Hw x). lia.
    + specialize (Hw 0). pose proof (zlen_nonneg (ek_bytes 0)). lia.
Qed.


