(* ===== verification/Base64.v ===== *)
(** * Base64 (base64.c)

    The encoder works on a C string; the decoder skips white space between the
    characters and stops at the padding. *)

From stdpp Require Import base list numbers option strings.
From Stdlib Require Import ZArith Lia.
From S2P Require Import Prelude Text.

(** ** Operations *)

(** [static char encoding[]], and [map] of [next_char]. *)
Definition encoding : list Z :=
  str "ABCDEFGHIJKLMNOPQRSTUVWXYZabcdefghijklmnopqrstuvwxyz0123456789+/".

(** [encoding[(n >> k) & 63]] *)
Definition sextet (n k : Z) : option Z := rd encoding (Z.land (Z.shiftr n k) 63).

(** [yaz_base64encode]: the octets stored at [out] before the terminator. *)
Fixpoint base64encode_loop (inp : list Z) : option (list Z) :=
  match inp with
  | [] => None
  | c0 :: inp =>
      if c0 =? 0 then Some [] else
      match inp with
      | [] => None
      | c1 :: inp =>
          if c1 =? 0 then
            let n := Z.shiftl c0 16 + Z.shiftl c1 8 + 0 in
            let? e0 := sextet n 18 in
            let? e1 := sextet n 12 in
            Some [e0; e1; 61; 61]
          else
            match inp with
            | [] => None
            | c2 :: inp =>
                let n := Z.shiftl c0 16 + Z.shiftl c1 8 + c2 in
                let? e0 := sextet n 18 in
                let? e1 := sextet n 12 in
                let? e2 := sextet n 6 in
                if c2 =? 0 then Some [e0; e1; e2; 61]
                else
                  let? e3 := sextet n 0 in
                  let? out := base64encode_loop inp in
                  Some (e0 :: e1 :: e2 :: e3 :: out)
            end
      end
  end.

Definition yaz_base64encode (inp : list Z) : option (list Z) :=
  let? out := base64encode_loop inp in Some (out ++ [0]).

(** [p - map] for the first occurrence, the terminator included. *)
Fixpoint index_of (c : Z) (m : list Z) (i : Z) : option Z :=
  match m with
  | [] => None
  | x :: m => if x =? c then Some i else index_of c m (i + 1)
  end.

(** The [while] of [next_char]: [strchr] of ["\r\n\t\f "]. *)
Fixpoint skip_white (inp : list Z) (len : Z) : option (list Z * Z) :=
  if 0 <? len then
    match inp with
    | [] => None
    | c :: inp' =>
        if strchr [13; 10; 9; 12; 32] c then skip_white inp' (len - 1) else Some (inp, len)
    end
  else Some (inp, len).

Definition next_char (inp : list Z) (len : Z) : option (Z * list Z * Z) :=
  let? (inp, len) := skip_white inp len in
  if 0 <? len then
    match inp with
    | [] => None
    | c :: inp' =>
        if c =? 61 then Some (-2, inp, len)
        else match index_of c (encoding ++ [0]) 0 with
             | Some i => Some (i, inp', len - 1)
             | None => Some (-1, inp, len)
             end
    end
  else Some (-1, inp, len).

(** The loop of [yaz_base64decode]: the value and the octets stored, which the
    terminator follows unless the value is -1. *)
Fixpoint base64decode_loop (fuel : nat) (inp : list Z) (len : Z) (out : list Z)
  : option (Z * list Z) :=
  match fuel with
  | O => None
  | S fuel =>
      if 4 <=? len then
        let? (i0, inp, len) := next_char inp len in
        if i0 <? 0 then Some (-1, out) else
        let? (i1, inp, len) := next_char inp len in
        if i1 <? 0 then Some (-1, out) else
        let out := out ++ [u8 (Z.lor (Z.shiftl i0 2) (Z.shiftr i1 4))] in
        let? (i2, inp, len) := next_char inp len in
        if i2 =? -2 then Some (0, out ++ [0]) else
        if i2 =? -1 then Some (-1, out) else
        let out := out ++ [u8 (Z.lor (Z.shiftl i1 4) (Z.shiftr i2 2))] in
        let? (i3, inp, len) := next_char inp len in
        if i3 =? -2 then Some (0, out ++ [0]) else
        if i3 =? -1 then Some (-1, out) else
        base64decode_loop fuel inp len (out ++ [u8 (Z.lor (Z.shiftl i2 6) i3)])
      else Some (0, out ++ [0])
  end.

Definition yaz_base64decode (inp : list Z) : option (Z * list Z) :=
  let? len := strlen inp in base64decode_loop (S (Z.to_nat len)) inp len [].

(** ** Lemmas *)

(** The character of a sextet. *)
Definition b64 (i : Z) : Z := nth (Z.to_nat i) encoding 0.

Lemma b64_table :
  forallb (fun i =>
    negb (strchr [13; 10; 9; 12; 32] (b64 i)) && negb (b64 i =? 61) && negb (b64 i =? 0) &&
    match index_of (b64 i) (encoding ++ [0]) 0 with Some j => j =? i | None => false end &&
    match rd encoding i with Some c => c =? b64 i | None => false end)
    (map Z.of_nat (seq 0 64)) = true.
Proof. vm_compute. reflexivity. Qed.

Lemma b64_spec i :
  0 <= i < 64 ->
  strchr [13; 10; 9; 12; 32] (b64 i) = false /\ (b64 i =? 61) = false /\ b64 i <> 0 /\
  index_of (b64 i) (encoding ++ [0]) 0 = Some i /\ rd encoding i = Some (b64 i).
Proof.
  intros Hi. pose proof b64_table as H. rewrite forallb_forall in H.
  assert (In i (map Z.of_nat (seq 0 64))) as Hin.
  { apply in_map_iff. exists (Z.to_nat i). split; [lia|]. apply in_seq. lia. }
  specialize (H i Hin). cbv beta in H.
  apply andb_true_iff in H as [H H5]. apply andb_true_iff in H as [H H4].
  apply andb_true_iff in H as [H H3]. apply andb_true_iff in H as [H1 H2].
  apply negb_true_iff in H1, H2, H3.
  destruct (index_of _ _ _) as [j|]; [|done]. destruct (rd encoding i) as [c|]; [|done].
  apply Z.eqb_eq in H4, H5. apply Z.eqb_neq in H3. subst. done.
Qed.

Lemma next_char_b64 i rest len :
  0 <= i < 64 -> 0 < len -> next_char (b64 i :: rest) len = Some (i, rest, len - 1).
Proof.
  intros Hi Hl. destruct (b64_spec i Hi) as (H1 & H2 & _ & H4 & _).
  unfold next_char, skip_white. rewrite (proj2 (Z.ltb_lt 0 len)) by done. rewrite H1.
  cbn [mbind option_bind]. rewrite (proj2 (Z.ltb_lt 0 len)) by done. by rewrite H2, H4.
Qed.

Lemma next_char_pad rest len : 0 < len -> next_char (61 :: rest) len = Some (-2, 61 :: rest, len).
Proof.
  intros Hl. unfold next_char, skip_white. rewrite (proj2 (Z.ltb_lt 0 len)) by done.
  change (strchr [13; 10; 9; 12; 32] 61) with false. cbn [mbind option_bind].
  by rewrite (proj2 (Z.ltb_lt 0 len)) by done.
Qed.

(** The four sextets of three octets. *)
Definition s0 (c0 : Z) : Z := c0 / 4.
Definition s1 (c0 c1 : Z) : Z := (c0 mod 4) * 16 + c1 / 16.
Definition s2 (c1 c2 : Z) : Z := (c1 mod 16) * 4 + c2 / 64.
Definition s3 (c2 : Z) : Z := c2 mod 64.

Section octets.
Variables (c0 c1 c2 : Z).
Hypotheses (H0 : byte_ok c0) (H1 : byte_ok c1) (H2 : byte_ok c2).

Let n := Z.shiftl c0 16 + Z.shiftl c1 8 + c2.

Lemma group_value : n = c0 * 65536 + c1 * 256 + c2.
Proof. unfold n. rewrite !Z.shiftl_mul_pow2 by lia. reflexivity. Qed.

Lemma sextet_range : 0 <= s0 c0 < 64 /\ 0 <= s1 c0 c1 < 64 /\ 0 <= s2 c1 c2 < 64 /\ 0 <= s3 c2 < 64.
Proof.
  unfold byte_ok, s0, s1, s2, s3 in *. Z.to_euclidean_division_equations. lia.
Qed.

Lemma sextet_at k :
  0 <= k -> 0 <= (n / 2 ^ k) mod 64 < 64 -> sextet n k = Some (b64 ((n / 2 ^ k) mod 64)).
Proof.
  intros Hk H. unfold sextet. rewrite Z.shiftr_div_pow2 by done.
  change 63 with (2 ^ 6 - 1). rewrite land_mask by lia. by apply b64_spec.
Qed.

Lemma sextets :
  sextet n 18 = Some (b64 (s0 c0)) /\ sextet n 12 = Some (b64 (s1 c0 c1)) /\
  sextet n 6 = Some (b64 (s2 c1 c2)) /\ sextet n 0 = Some (b64 (s3 c2)).
Proof.
  pose proof group_value as Hn. unfold byte_ok in *.
  assert (n = s0 c0 * 262144 + s1 c0 c1 * 4096 + s2 c1 c2 * 64 + s3 c2) as E.
  { rewrite Hn. unfold s0, s1, s2, s3. Z.to_euclidean_division_equations. lia. }
  pose proof sextet_range as (R0 & R1 & R2 & R3).
  assert ((n / 2 ^ 18) mod 64 = s0 c0) as E0.
  { rewrite E. change (2 ^ 18) with 262144. clear -R0 R1 R2 R3. Z.to_euclidean_division_equations. lia. }
  assert ((n / 2 ^ 12) mod 64 = s1 c0 c1) as E1.
  { rewrite E. change (2 ^ 12) with 4096. clear -R0 R1 R2 R3. Z.to_euclidean_division_equations. lia. }
  assert ((n / 2 ^ 6) mod 64 = s2 c1 c2) as E2.
  { rewrite E. change (2 ^ 6) with 64. clear -R0 R1 R2 R3. Z.to_euclidean_division_equations. lia. }
  assert ((n / 2 ^ 0) mod 64 = s3 c2) as E3.
  { rewrite E. change (2 ^ 0) with 1. clear -R0 R1 R2 R3. Z.to_euclidean_division_equations. lia. }
  rewrite !sextet_at, E0, E1, E2, E3 by lia. done.
Qed.

(** The octets of the sextets. *)
Lemma octet_0 : u8 (Z.lor (Z.shiftl (s0 c0) 2) (Z.shiftr (s1 c0 c1) 4)) = c0.
Proof.
  pose proof sextet_range as (R0 & R1 & _). rewrite (Z.shiftr_div_pow2 _ 4), lor_join by
    (try lia; change (2 ^ 4) with 16; change (2 ^ 2) with 4; clear -R1; Z.to_euclidean_division_equations; lia).
  unfold byte_ok, s0, s1 in *. rewrite u8_small; change (2 ^ 2) with 4; change (2 ^ 4) with 16;
    Z.to_euclidean_division_equations; lia.
Qed.

Lemma octet_1 : u8 (Z.lor (Z.shiftl (s1 c0 c1) 4) (Z.shiftr (s2 c1 c2) 2)) = c1.
Proof.
  pose proof sextet_range as (_ & R1 & R2 & _). rewrite (Z.shiftr_div_pow2 _ 2), lor_join by
    (try lia; change (2 ^ 4) with 16; change (2 ^ 2) with 4; clear -R2; Z.to_euclidean_division_equations; lia).
  unfold byte_ok, u8, wrap, s1, s2 in *. change (2 ^ 4) with 16; change (2 ^ 2) with 4; change (2 ^ 8) with 256.
  Z.to_euclidean_division_equations; lia.
Qed.

Lemma octet_2 : u8 (Z.lor (Z.shiftl (s2 c1 c2) 6) (s3 c2)) = c2.
Proof.
  pose proof sextet_range as (_ & _ & R2 & R3). rewrite lor_join by lia.
  unfold byte_ok, u8, wrap, s2, s3 in *. change (2 ^ 6) with 64; change (2 ^ 8) with 256.
  Z.to_euclidean_division_equations; lia.
Qed.
End octets.

(** Decoding a whole group, and the groups that end in padding. *)
Lemma decode_group fuel c0 c1 c2 rest len out :
  byte_ok c0 -> byte_ok c1 -> byte_ok c2 -> 4 <= len ->
  base64decode_loop (S fuel) (b64 (s0 c0) :: b64 (s1 c0 c1) :: b64 (s2 c1 c2) :: b64 (s3 c2) :: rest) len out
    = base64decode_loop fuel rest (len - 4) (out ++ [c0; c1; c2]).
Proof.
  intros H0 H1 H2 Hl. pose proof (sextet_range c0 c1 c2 H0 H1 H2) as (R0 & R1 & R2 & R3).
  cbn [base64decode_loop]. rewrite (proj2 (Z.leb_le 4 len)) by lia.
  do 4 (rewrite next_char_b64 by lia; cbn [mbind option_bind]; repeat ztest1).
  rewrite (octet_0 c0 c1 c2), (octet_1 c0 c1 c2), (octet_2 c0 c1 c2) by done. rewrite <- !app_assoc. cbn [app]. f_equal. lia.
Qed.

Lemma decode_pad1 fuel c0 c1 rest len out :
  byte_ok c0 -> byte_ok c1 -> 4 <= len ->
  base64decode_loop (S fuel) (b64 (s0 c0) :: b64 (s1 c0 c1) :: b64 (s2 c1 0) :: 61 :: rest) len out
    = Some (0, out ++ [c0; c1; 0]).
Proof.
  intros H0 H1 Hl. assert (byte_ok 0) as Hz by (unfold byte_ok; lia).
  pose proof (sextet_range c0 c1 0 H0 H1 Hz) as (R0 & R1 & R2 & _).
  cbn [base64decode_loop]. rewrite (proj2 (Z.leb_le 4 len)) by lia.
  do 3 (rewrite next_char_b64 by lia; cbn [mbind option_bind]; repeat ztest1).
  rewrite next_char_pad by lia. cbn [mbind option_bind].
  change (-2 =? -2) with true. cbn iota. rewrite (octet_0 c0 c1 0), (octet_1 c0 c1 0) by done. by rewrite <- !app_assoc.
Qed.

Lemma decode_pad2 fuel c0 rest len out :
  byte_ok c0 -> 4 <= len ->
  base64decode_loop (S fuel) (b64 (s0 c0) :: b64 (s1 c0 0) :: 61 :: 61 :: rest) len out
    = Some (0, out ++ [c0; 0]).
Proof.
  intros H0 Hl. assert (byte_ok 0) as Hz by (unfold byte_ok; lia).
  pose proof (sextet_range c0 0 0 H0 Hz Hz) as (R0 & R1 & _).
  cbn [base64decode_loop]. rewrite (proj2 (Z.leb_le 4 len)) by lia.
  do 2 (rewrite next_char_b64 by lia; cbn [mbind option_bind]; repeat ztest1).
  rewrite next_char_pad by lia. cbn [mbind option_bind].
  change (-2 =? -2) with true. cbn iota. rewrite (octet_0 c0 0 0) by done. by rewrite <- !app_assoc.
Qed.

(** What the encoder makes of a string, and that the decoder undoes it. *)
Record base64_of (s out : list Z) : Prop := {
  bo_plain : nonzero out;
  bo_length : zlen out = 4 * ((zlen s + 2) / 3);
  bo_decode : forall rest fuel acc, (length out < fuel)%nat ->
    base64decode_loop fuel (out ++ rest) (zlen out) acc = Some (0, acc ++ s ++ [0]) }.

Lemma b64_nonzero i : 0 <= i < 64 -> b64 i <> 0.
Proof. intros H. by apply b64_spec in H as (_ & _ & ? & _). Qed.

Lemma base64_of_nil : base64_of [] [].
Proof. split; [constructor|done|]. intros rest [|fuel] acc Hf; simpl in Hf; [lia|done]. Qed.

Lemma base64_of_1 c0 : byte_ok c0 -> base64_of [c0] [b64 (s0 c0); b64 (s1 c0 0); 61; 61].
Proof.
  intros H0. assert (byte_ok 0) as Hz by (unfold byte_ok; lia).
  pose proof (sextet_range c0 0 0 H0 Hz Hz) as (R0 & R1 & _). split.
  - repeat constructor; try done; by apply b64_nonzero.
  - done.
  - intros rest [|fuel] acc Hf; simpl in Hf; [lia|]. cbn [app]. apply decode_pad2; [done|unfold zlen; simpl; lia].
Qed.

Lemma base64_of_2 c0 c1 :
  byte_ok c0 -> byte_ok c1 ->
  base64_of [c0; c1] [b64 (s0 c0); b64 (s1 c0 c1); b64 (s2 c1 0); 61].
Proof.
  intros H0 H1. assert (byte_ok 0) as Hz by (unfold byte_ok; lia).
  pose proof (sextet_range c0 c1 0 H0 H1 Hz) as (R0 & R1 & R2 & _). split.
  - repeat constructor; try done; by apply b64_nonzero.
  - done.
  - intros rest [|fuel] acc Hf; simpl in Hf; [lia|]. cbn [app]. apply decode_pad1; [done..|unfold zlen; simpl; lia].
Qed.

Lemma base64_of_3 c0 c1 c2 s out :
  byte_ok c0 -> byte_ok c1 -> byte_ok c2 -> base64_of s out ->
  base64_of (c0 :: c1 :: c2 :: s) (b64 (s0 c0) :: b64 (s1 c0 c1) :: b64 (s2 c1 c2) :: b64 (s3 c2) :: out).
Proof.
  intros H0 H1 H2 [P L D]. pose proof (sextet_range c0 c1 c2 H0 H1 H2) as (R0 & R1 & R2 & R3). split.
  - repeat (constructor; [by apply b64_nonzero|]). done.
  - rewrite !zlen_cons, L. replace (1 + (1 + (1 + zlen s)) + 2) with (zlen s + 2 + 1 * 3) by lia.
    rewrite Z.div_add by lia. lia.
  - intros rest [|fuel] acc Hf; simpl in Hf; [lia|]. pose proof (zlen_nonneg out). cbn [app].
    rewrite decode_group by (try done; rewrite !zlen_cons; lia).
    replace (zlen (_ :: _ :: _ :: _ :: out) - 4) with (zlen out) by (rewrite !zlen_cons; lia).
    rewrite D by lia. by rewrite <- app_assoc.
Qed.

Lemma base64encode_of k : forall s rest,
  (length s <= k)%nat -> Forall (fun c => byte_ok c /\ c <> 0) s ->
  exists out, base64encode_loop (s ++ 0 :: rest) = Some out /\ base64_of s out.
Proof.
  induction k as [|k IH]; intros s rest Hk Hs.
  { destruct s; [|simpl in Hk; lia]. exists []. split; [done|apply base64_of_nil]. }
  assert (byte_ok 0) as Hz by (unfold byte_ok; lia).
  destruct Hs as [|c0 s [H0 N0] Hs]; [exists []; split; [done|apply base64_of_nil]|].
  cbn [app base64encode_loop]. rewrite (proj2 (Z.eqb_neq c0 0)) by done.
  destruct Hs as [|c1 s [H1 N1] Hs]; cbn [app].
  { destruct (sextets c0 0 0 H0 Hz Hz) as (E0 & E1 & _). rewrite Z.eqb_refl. rewrite E0. cbn [mbind option_bind].
    rewrite E1. eexists. split; [reflexivity|by apply base64_of_1]. }
  rewrite (proj2 (Z.eqb_neq c1 0)) by done.
  destruct Hs as [|c2 s [H2 N2] Hs]; cbn [app].
  { destruct (sextets c0 c1 0 H0 H1 Hz) as (E0 & E1 & E2 & _). rewrite E0, E1, E2. cbn [mbind option_bind].
    rewrite Z.eqb_refl. eexists. split; [reflexivity|by apply base64_of_2]. }
  destruct (sextets c0 c1 c2 H0 H1 H2) as (E0 & E1 & E2 & E3). rewrite E0, E1, E2, E3. cbn [mbind option_bind].
  rewrite (proj2 (Z.eqb_neq c2 0)) by done.
  destruct (IH s rest ltac:(simpl in Hk; lia) Hs) as (out & -> & Ho). cbn [mbind option_bind].
  eexists. split; [reflexivity|by apply base64_of_3].
Qed.

(** ** Properties *)

(** C39: [yaz_base64encode] of a C string stores a C string of four characters for
    each three or fewer octets, which fits in the buffer size the header asks for,
    and [yaz_base64decode] of it stores the string again and returns 0. *)
Theorem base64_roundtrip (s rest mem : list Z) :
  Forall (fun c => byte_ok c /\ c <> 0) s ->
  exists out, yaz_base64encode (s ++ 0 :: rest) = Some (out ++ [0]) /\
    zlen out = 4 * ((zlen s + 2) / 3) /\ zlen (out ++ [0]) <= zlen s * 8 / 6 + 12 /\
    yaz_base64decode (out ++ 0 :: mem) = Some (0, s ++ [0]).
Proof.
  intros Hs. destruct (base64encode_of (length s) s rest ltac:(lia) Hs) as (out & E & [P L D]).
  exists out. unfold yaz_base64encode, yaz_base64decode. rewrite E. split; [done|]. split; [done|].
  split; [rewrite zlen_app, L; change (zlen [0]) with 1; pose proof (zlen_nonneg s);
    Z.to_euclidean_division_equations; lia|].
  rewrite strlen_spec by done. cbn [mbind option_bind]. rewrite D; [done|]. unfold zlen. lia.
Qed.

Lemma base64_roundtrip_witness :
  exists out, yaz_base64encode (str "yaz1" ++ [0]) = Some (out ++ [0]) /\
    zlen out = 4 * ((zlen (str "yaz1") + 2) / 3) /\
    zlen (out ++ [0]) <= zlen (str "yaz1") * 8 / 6 + 12 /\
    yaz_base64decode (out ++ [0]) = Some (0, str "yaz1" ++ [0]).
Proof.
  apply (base64_roundtrip (str "yaz1") [] []). repeat constructor; unfold byte_ok; simpl; lia.
Defined.
