(* ===== verification/Atoi.v ===== *)
(** * Numbers from text (atoin.c)

    Conversion of a bounded run of digits, in any base from 2 to 36, to
    [unsigned long] and to [int].  [long] has 64 bits. *)

From stdpp Require Import base list numbers option strings.
From Stdlib Require Import ZArith Lia.
From S2P Require Import Prelude Text.

Definition ULONG_MAX : Z := 2 ^ 64 - 1.

(** ** Operations *)

(** The value of a digit, [None] for the [break]. *)
Definition digit_value (c : Z) : option Z :=
  if yaz_isdigit c then Some (c - 48)
  else if yaz_isupper c then Some (c - (65 - 10))
  else if yaz_islower c then Some (c - (97 - 10))
  else None.

(** The loop: [n] octets are left, [i] were read; the value returned and [*val]. *)
Fixpoint atoul_loop (base : Z) (ptr : list Z) (n : nat) (i val : Z) {struct n}
  : option (Z * Z) :=
  match n with
  | O => Some (i, val)
  | S n =>
      match ptr with
      | [] => None
      | c :: ptr =>
          match digit_value c with
          | None => Some (i, val)
          | Some digit =>
              if base <=? digit then Some (i, val)
              else if (ULONG_MAX - digit) / base <? val then Some (-1, val)
              else atoul_loop base ptr n (i + 1) (u64 (val * base + digit))
          end
      end
  end.

Definition yaz_atoul (base : Z) (ptr : list Z) (len val : Z) : option (Z * Z) :=
  if (base <? 2) || (36 <? base) then Some (-1, val)
  else atoul_loop base ptr (Z.to_nat len) 0 0.

Definition yaz_atoi (base : Z) (ptr : list Z) (len val : Z) : option (Z * Z) :=
  let? (ret, uval) := yaz_atoul base ptr len 0 in
  if ret =? -1 then Some (-1, val)
  else if INT_MAX <? uval then Some (-1, val)
  else Some (ret, uval).

Definition atoi_n_check (buf : list Z) (size val : Z) : option (Z * Z) :=
  let? (ret, val) := yaz_atoi 10 buf size val in
  Some (if negb (ret =? size) then 0 else 1, val).

(** [val] of [atoi_n] is not initialised: it is read only when it was set. *)
Definition atoi_n (buf : list Z) (len : Z) : option Z :=
  let? (ret, val) := atoi_n_check buf len 0 in
  Some (if negb (ret =? 0) then val else 0).

(** ** Specification *)

(** [c] is a digit of the base, of value [d]. *)
Definition is_digit (base c d : Z) : Prop := digit_value c = Some d /\ d < base.

(** The value of a list of digits. *)
Definition radix (base : Z) (ds : list Z) : Z := fold_left (fun a d => a * base + d) ds 0.

(** What stops the conversion: the bound, or something that is not a digit. *)
Definition stops (base : Z) (n : nat) (rest : list Z) : Prop :=
  n = O \/ exists c rest', rest = c :: rest' /\ forall d, ~ is_digit base c d.

(** ** Lemmas *)

Lemma digit_value_nonneg c d : digit_value c = Some d -> 0 <= d.
Proof.
  unfold digit_value, yaz_isdigit, yaz_isupper, yaz_islower.
  intros H. ztest_in H; try done; injection H as <-; lia.
Qed.

Lemma radix_mono base ds : forall a, 2 <= base -> 0 <= a -> Forall (fun d => 0 <= d) ds ->
  a <= fold_left (fun a d => a * base + d) ds a.
Proof.
  induction ds as [|d ds IH]; intros a Hb Ha Hd; simpl; [lia|].
  apply Forall_cons_1 in Hd as [Hd0 Hd]. specialize (IH (a * base + d) Hb ltac:(nia) Hd). nia.
Qed.

(** The overflow test of the loop is exact. *)
Lemma overflow_test base val d :
  2 <= base -> 0 <= d < base -> base <= 36 ->
  ((ULONG_MAX - d) / base <? val) = (ULONG_MAX <? val * base + d).
Proof.
  intros Hb Hd Hm. assert (0 <= ULONG_MAX - d) by (unfold ULONG_MAX; lia).
  destruct (Z.ltb_spec ((ULONG_MAX - d) / base) val) as [H1|H1];
    destruct (Z.ltb_spec ULONG_MAX (val * base + d)) as [H2|H2]; try done; exfalso.
  - apply Z.lt_nge in H1. apply H1, Z.div_le_lower_bound; lia.
  - pose proof (Z.mul_div_le (ULONG_MAX - d) base ltac:(lia)). nia.
Qed.

Lemma atoul_loop_stop base n rest i v : stops base n rest -> atoul_loop base rest n i v = Some (i, v).
Proof.
  intros [->|(c & rest' & -> & H)]; [done|]. destruct n; [done|]. cbn [atoul_loop].
  destruct (digit_value c) as [d|] eqn:E; [|done].
  destruct (Z.leb_spec base d); [done|]. by destruct (H d).
Qed.

(** [cs] are digits of values [ds]. *)
Lemma atoul_loop_spec base cs ds : Forall2 (is_digit base) cs ds -> 2 <= base <= 36 ->
  forall n rest i v, stops base n rest -> 0 <= i -> 0 <= v <= ULONG_MAX ->
  let w := fold_left (fun a d => a * base + d) ds v in
  exists r u, atoul_loop base (cs ++ rest) (length cs + n) i v = Some (r, u) /\
    if w <=? ULONG_MAX then r = i + zlen cs /\ u = w else r = -1.
Proof.
  induction 1 as [|c d cs ds [Hc Hlt] Hcs IH]; intros Hb n rest i v Hs Hi Hv; cbv zeta.
  - cbn [fold_left app length Nat.add]. rewrite atoul_loop_stop by done.
    exists i, v. split; [done|]. rewrite (proj2 (Z.leb_le v _)) by lia. split; [|done]. unfold zlen; simpl; lia.
  - cbn [fold_left app length Nat.add atoul_loop]. rewrite Hc.
    pose proof (digit_value_nonneg _ _ Hc) as Hd. rewrite (proj2 (Z.leb_gt base d)) by lia.
    rewrite overflow_test by lia. destruct (Z.ltb_spec ULONG_MAX (v * base + d)) as [Ho|Ho].
    + exists (-1), v. split; [done|]. assert (Forall (fun d => 0 <= d) ds) as Hds.
      { clear -Hcs. induction Hcs as [|? ? ? ? [H _] ? ?]; constructor; [by eapply digit_value_nonneg|done]. }
      pose proof (radix_mono base ds (v * base + d) ltac:(lia) ltac:(nia) Hds).
      by rewrite (proj2 (Z.leb_gt _ ULONG_MAX)) by lia.
    + unfold u64. rewrite wrap_small by (unfold ULONG_MAX in Ho; nia).
      destruct (IH Hb n rest (i + 1) (v * base + d) Hs ltac:(lia) ltac:(nia)) as (r & u & -> & H).
      exists r, u. split; [done|]. destruct (_ <=? _); [|done]. rewrite zlen_cons. lia.
Qed.

(** The same for the two functions on exactly [len] octets. *)
Lemma atoi_n_check_spec cs ds rest v0 :
  Forall2 (is_digit 10) cs ds -> radix 10 ds <= INT_MAX ->
  atoi_n_check (cs ++ rest) (zlen cs) v0 = Some (1, radix 10 ds).
Proof.
  intros Hcs Hr. pose proof (zlen_nonneg cs) as Hnn.
  destruct (atoul_loop_spec 10 cs ds Hcs ltac:(lia) O rest 0 0) as (r & u & E & H);
    [by left|lia|unfold ULONG_MAX; lia|].
  unfold atoi_n_check, yaz_atoi, yaz_atoul.
  change ((10 <? 2) || (36 <? 10)) with false. cbn iota.
  replace (Z.to_nat (zlen cs)) with (length cs + 0)%nat by (unfold zlen; lia).
  rewrite E. cbn [mbind option_bind]. fold (radix 10 ds) in H.
  rewrite (proj2 (Z.leb_le _ ULONG_MAX)) in H by (unfold ULONG_MAX, INT_MAX in *; lia).
  destruct H as [-> ->]. rewrite Z.add_0_l, (proj2 (Z.eqb_neq (zlen cs) (-1))) by lia.
  rewrite (proj2 (Z.ltb_ge INT_MAX _)) by done. cbn [mbind option_bind]. by rewrite Z.eqb_refl.
Qed.

(** The value read does not depend on the bound unless the digits reach to it. *)
Lemma atoul_loop_more base ptr : forall n n' i v, (n <= n')%nat -> (n' <= length ptr)%nat ->
  2 <= base <= 36 -> 0 <= i -> 0 <= v <= ULONG_MAX ->
  exists r u r' u', atoul_loop base ptr n i v = Some (r, u) /\
    atoul_loop base ptr n' i v = Some (r', u') /\ (r = -1 \/ i <= r <= i + Z.of_nat n) /\
    v <= u <= ULONG_MAX /\ v <= u' /\ (r < i + Z.of_nat n -> r' = r /\ u' = u) /\
    (r' = -1 \/ r' <> -1 /\ u <= u').
Proof.
  induction ptr as [|c ptr IH]; intros n n' i v Hn Hp Hb Hi Hv.
  { destruct n, n'; simpl in *; try lia. exists i, v, i, v. repeat split; auto; lia. }
  assert (forall n, atoul_loop base (c :: ptr) (S n) i v =
    match digit_value c with
    | None => Some (i, v)
    | Some d => if base <=? d then Some (i, v)
        else if (ULONG_MAX - d) / base <? v then Some (-1, v)
        else atoul_loop base ptr n (i + 1) (u64 (v * base + d))
    end) as HS by done.
  destruct n' as [|n'].
  { destruct n; [|lia]. exists i, v, i, v. repeat split; auto; simpl; lia. }
  assert (exists r' u', atoul_loop base (c :: ptr) (S n') i v = Some (r', u') /\
    v <= u' /\ (r' = -1 \/ r' <> -1 /\ v <= u')) as Htot.
  { rewrite HS. destruct (digit_value c) as [d|] eqn:Ed; [|do 2 eexists; repeat split; auto; lia].
    destruct (Z.leb_spec base d); [do 2 eexists; repeat split; auto; lia|].
    pose proof (digit_value_nonneg _ _ Ed). rewrite overflow_test by lia.
    destruct (Z.ltb_spec ULONG_MAX (v * base + d)); [do 2 eexists; repeat split; auto; lia|].
    unfold u64. rewrite wrap_small by (unfold ULONG_MAX in *; nia). simpl in Hp.
    destruct (IH n' n' (i + 1) (v * base + d)) as (r & u & _ & _ & E & _ & Hr & Hu & _); [lia..|nia|].
    exists r, u. split; [done|]. split; [nia|]. destruct Hr; [by left|right; split; [lia|nia]]. }
  destruct n as [|n].
  { destruct Htot as (r' & u' & E & Hu & Hr). exists i, v, r', u'.
    repeat split; auto; simpl; lia. }
  rewrite !HS. destruct (digit_value c) as [d|] eqn:Ed; [|exists i, v, i, v; repeat split; auto; lia].
  destruct (Z.leb_spec base d); [exists i, v, i, v; repeat split; auto; lia|].
  pose proof (digit_value_nonneg _ _ Ed). rewrite overflow_test by lia.
  destruct (Z.ltb_spec ULONG_MAX (v * base + d)); [exists (-1), v, (-1), v; repeat split; auto; lia|].
  unfold u64. rewrite wrap_small by (unfold ULONG_MAX in *; nia). simpl in Hp.
  destruct (IH n n' (i + 1) (v * base + d)) as (r & u & r' & u' & E & E' & Hr & Hu & Hu' & Hs & Hm); [lia..|nia|].
  exists r, u, r', u'. repeat split; auto; try lia; try nia.
Qed.

(** The conversions of what is in memory are defined. *)
Lemma yaz_atoi_total base ptr n v0 : 2 <= base <= 36 -> 0 <= n <= zlen ptr -> 0 <= v0 <= INT_MAX ->
  exists r v, yaz_atoi base ptr n v0 = Some (r, v) /\ -1 <= r <= n /\ 0 <= v <= INT_MAX.
Proof.
  intros Hb Hn Hv. unfold yaz_atoi, yaz_atoul.
  rewrite (proj2 (Z.ltb_ge base 2)), (proj2 (Z.ltb_ge 36 base)) by lia. cbn [orb].
  destruct (atoul_loop_more base ptr (Z.to_nat n) (Z.to_nat n) 0 0) as (r & u & _ & _ & -> & _ & Hr & Hu & _);
    [lia|unfold zlen in Hn; lia|done|lia|unfold ULONG_MAX; lia|]. cbn [mbind option_bind].
  destruct (r =? -1); [exists (-1), v0; split; [done|]; split; [lia|done]|].
  destruct (Z.ltb_spec INT_MAX u); [exists (-1), v0|exists r, u]; (split; [done|]); split; lia.
Qed.

Lemma atoi_n_check_total buf n : 0 <= n <= zlen buf ->
  exists ok v, atoi_n_check buf n 0 = Some (ok, v) /\ 0 <= v <= INT_MAX.
Proof.
  intros Hn. destruct (yaz_atoi_total 10 buf n 0) as (r & v & E & _ & Hv); [lia|done|unfold INT_MAX; lia|].
  unfold atoi_n_check. rewrite E. eauto.
Qed.

Lemma atoi_n_total buf n : 0 <= n <= zlen buf -> exists v, atoi_n buf n = Some v /\ 0 <= v <= INT_MAX.
Proof.
  intros Hn. destruct (atoi_n_check_total buf n Hn) as (ok & v & E & Hv). unfold atoi_n. rewrite E.
  cbn [mbind option_bind]. destruct (negb (ok =? 0)); eexists; (split; [done|]); unfold INT_MAX in *; lia.
Qed.

(** Decimal digits and their number. *)
Lemma dec_val_radix ds : forall acc,
  fold_left (fun a d => a * 10 + d) (map (fun c => c - 48) ds) acc = dec_val acc ds.
Proof. induction ds as [|c ds IH]; intros acc; [done|]. simpl. rewrite IH. done. Qed.

Lemma digits_Forall2 ds : digits_ok ds -> Forall2 (is_digit 10) ds (map (fun c => c - 48) ds).
Proof.
  induction 1 as [|c ds Hc _ IH]; constructor; [|done]. unfold is_digit, digit_value.
  rewrite isdigit_true by done. split; [done|lia].
Qed.

(** ** Properties *)

(** C40: [yaz_atoul] reads the run of digits of the base at the front of the
    text, up to the bound, and returns how many there are with their exact value,
    or -1 when, and only when, the value does not fit in 64 bits. *)
Theorem yaz_atoul_spec (base val0 : Z) (cs ds rest : list Z) (n : nat) :
  2 <= base <= 36 -> Forall2 (is_digit base) cs ds -> stops base n rest ->
  exists r u, yaz_atoul base (cs ++ rest) (Z.of_nat (length cs + n)) val0 = Some (r, u) /\
    if radix base ds <=? ULONG_MAX then r = zlen cs /\ u = radix base ds else r = -1.
Proof.
  intros Hb Hcs Hs. unfold yaz_atoul. rewrite (proj2 (Z.ltb_ge base 2)), (proj2 (Z.ltb_ge 36 base)) by lia.
  cbn [orb]. rewrite Nat2Z.id.
  apply (atoul_loop_spec base cs ds Hcs Hb n rest 0 0 Hs); unfold ULONG_MAX; lia.
Qed.

Lemma yaz_atoul_spec_witness :
  exists r u, yaz_atoul 16 (str "fF" ++ str "g1") (Z.of_nat (length (str "fF") + 2)) 5 = Some (r, u) /\
    if radix 16 [15; 15] <=? ULONG_MAX then r = zlen (str "fF") /\ u = radix 16 [15; 15] else r = -1.
Proof.
  apply (yaz_atoul_spec 16 5 (str "fF") [15; 15] (str "g1") 2); [lia|repeat constructor|].
  right. exists 103, [49]. split; [done|]. intros d [[= <-] H]. lia.
Defined.

(** [atoi_n] of exactly [len] decimal digits is their value when it fits in
    an [int], and 0 otherwise. *)
Theorem atoi_n_spec (cs ds rest : list Z) :
  Forall2 (is_digit 10) cs ds ->
  atoi_n (cs ++ rest) (zlen cs) = Some (if radix 10 ds <=? INT_MAX then radix 10 ds else 0).
Proof.
  intros Hcs. pose proof (zlen_nonneg cs) as Hnn.
  destruct (atoul_loop_spec 10 cs ds Hcs ltac:(lia) O rest 0 0) as (r & u & E & H);
    [by left|lia|unfold ULONG_MAX; lia|].
  unfold atoi_n, atoi_n_check, yaz_atoi, yaz_atoul.
  change ((10 <? 2) || (36 <? 10)) with false. cbn iota.
  replace (Z.to_nat (zlen cs)) with (length cs + 0)%nat by (unfold zlen; lia).
  rewrite E. cbn [mbind option_bind]. fold (radix 10 ds) in H.
  assert (INT_MAX < ULONG_MAX) by reflexivity.
  destruct (Z.leb_spec (radix 10 ds) ULONG_MAX).
  - destruct H as [-> ->]. rewrite Z.add_0_l, (proj2 (Z.eqb_neq (zlen cs) (-1))) by lia.
    destruct (Z.ltb_spec INT_MAX (radix 10 ds)); cbn [mbind option_bind].
    + rewrite (proj2 (Z.eqb_neq (-1) (zlen cs))) by lia. cbn [negb].
      rewrite (proj2 (Z.leb_gt _ _)) by done. done.
    + rewrite Z.eqb_refl. cbn [negb]. rewrite (proj2 (Z.leb_le _ _)) by done. done.
  - subst r. cbn [mbind option_bind]. change (-1 =? -1) with true. cbn iota. cbn [mbind option_bind].
    rewrite (proj2 (Z.eqb_neq (-1) (zlen cs))) by lia. cbn [negb].
    rewrite (proj2 (Z.leb_gt _ _)) by lia. done.
Qed.

Lemma atoi_n_spec_witness :
  atoi_n (str "00042" ++ str "9") (zlen (str "00042"))
    = Some (if radix 10 [0; 0; 0; 4; 2] <=? INT_MAX then radix 10 [0; 0; 0; 4; 2] else 0).
Proof. apply (atoi_n_spec (str "00042") [0; 0; 0; 4; 2] (str "9")). repeat constructor. Defined.
