(* ===== verification/Wrbuf.v ===== *)
(** * String buffers (wrbuf.c, yaz/wrbuf.h)

    A [WRBUF] is an allocation of [size + 1] octets of which the first [pos] are
    its contents.  The sizes are [size_t]; they are not wrapped here, since they
    are those of objects that exist at the same time.  The octets a reallocation
    adds are whatever the allocator left there ([junk]).

    What the clients rely on is [appends]: from a well-formed buffer the operation
    succeeds, and what it has done is to add some octets to the contents. *)

From stdpp Require Import base list numbers option strings.
From Stdlib Require Import ZArith Lia.
From S2P Require Import Prelude Text.

Record wrbuf := mkWrbuf {
  wr_buf : list Z;
  wr_pos : Z;
  wr_size : Z;
  wr_junk : Z -> Z }.

Abbreviation WRBUF := (M wrbuf).

Definition set_pos (p : Z) (b : wrbuf) : wrbuf := mkWrbuf (wr_buf b) p (wr_size b) (wr_junk b).

(** ** Operations *)

(** [xrealloc(b->buf, 1 + (b->size += togrow))] *)
Definition wrbuf_grow (minsize : Z) : WRBUF Z :=
  let* b := get in
  let togrow := if wr_size b =? 0 then 1024 else wr_size b in
  let togrow := if togrow <? minsize then minsize else togrow in
  let size := wr_size b + togrow in
  let old := zlen (wr_buf b) in
  put (mkWrbuf (wr_buf b ++ map (fun i => wr_junk b (old + Z.of_nat i)) (seq 0 (Z.to_nat (1 + size - old))))
         (wr_pos b) size (wr_junk b)) ;;
  ret 0.

Definition wrbuf_alloc (junk : Z -> Z) : option wrbuf :=
  snd <$> wrbuf_grow 1 (mkWrbuf [] 0 0 junk).

Definition wrbuf_rewind : WRBUF unit := modify (set_pos 0).

(** [memcpy(b->buf + at, bs, ..)] *)
Definition store (at_ : Z) (bs : list Z) : WRBUF unit :=
  let* b := get in
  let* buf := lift (splice (wr_buf b) at_ bs) in
  put (mkWrbuf buf (wr_pos b) (wr_size b) (wr_junk b)).

Definition wrbuf_write (buf : list Z) (size : Z) : WRBUF unit :=
  if size <=? 0 then ret tt else
  let* b := get in
  (if wr_size b <=? wr_pos b + size then wrbuf_grow size else ret 0) ;;
  let* bs := lift (sub buf 0 size) in
  store (wr_pos b) bs ;;
  modify (fun b => set_pos (wr_pos b + size) b).

Definition wrbuf_insert (pos : Z) (buf : list Z) (size : Z) : WRBUF unit :=
  let* b := get in
  if (size <=? 0) || (wr_pos b <? pos) then ret tt else
  (if wr_size b <=? wr_pos b + size then wrbuf_grow size else ret 0) ;;
  let* b := get in
  let* tl := lift (sub (wr_buf b) pos (wr_pos b - pos)) in
  store (pos + size) tl ;;
  let* bs := lift (sub buf 0 size) in
  store pos bs ;;
  modify (fun b => set_pos (wr_pos b + size) b).

Definition wrbuf_putc (c : Z) : WRBUF unit :=
  let* b := get in
  (if wr_size b <=? wr_pos b then wrbuf_grow 1 else ret 0) ;;
  store (wr_pos b) [u8 c] ;;
  modify (fun b => set_pos (wr_pos b + 1) b).

(** [buf] is a C string. *)
Definition wrbuf_puts (buf : list Z) : WRBUF unit :=
  let* n := lift (strlen buf) in wrbuf_write buf n.

(** A string literal. *)
Definition wrbuf_lit (s : list Z) : WRBUF unit := wrbuf_puts (s ++ [0]).

(** [wrbuf_printf]: [text] is what the format makes of the arguments;
    [yaz_vsnprintf] leaves at most 4094 octets of it. *)
Definition wrbuf_printf (text : list Z) : WRBUF unit := wrbuf_lit (take 4094 text).

(** A loop over the octets at [cp]. *)
Fixpoint each_octet (f : Z -> WRBUF unit) (bs : list Z) : WRBUF unit :=
  match bs with
  | [] => ret tt
  | c :: bs => f c ;; each_octet f bs
  end.

Definition for_octets (f : Z -> WRBUF unit) (cp : list Z) (size : Z) : WRBUF unit :=
  let* bs := lift (sub cp 0 size) in each_octet f bs.

Definition wrbuf_puts_replace_char (buf : list Z) (from to : Z) : WRBUF unit :=
  let* n := lift (strlen buf) in
  for_octets (fun c => if c =? from then wrbuf_putc to else wrbuf_putc c) buf n.

(** [while (b->pos && b->buf[b->pos-1] == ' ')] *)
Fixpoint chop_loop (fuel : nat) : WRBUF unit :=
  match fuel with
  | O => fault
  | S fuel =>
      let* b := get in
      if wr_pos b =? 0 then ret tt else
      let* c := lift (rd (wr_buf b) (wr_pos b - 1)) in
      if c =? 32 then modify (set_pos (wr_pos b - 1)) ;; chop_loop fuel else ret tt
  end.
Definition wrbuf_chop_right : WRBUF unit :=
  let* b := get in chop_loop (S (Z.to_nat (wr_pos b))).

(** The control characters that XML 1.0 does not have. *)
Definition xml_ctrl (c : Z) : bool :=
  (0 <=? c) && (c <=? 31) && negb (c =? 9) && negb (c =? 10) && negb (c =? 13).

Definition wrbuf_xmlputs_n : list Z -> Z -> WRBUF unit :=
  for_octets (fun c =>
    if xml_ctrl c then ret tt
    else if c =? 60 then wrbuf_lit (str "&lt;")
    else if c =? 62 then wrbuf_lit (str "&gt;")
    else if c =? 38 then wrbuf_lit (str "&amp;")
    else if c =? 34 then wrbuf_lit (str "&quot;")
    else if c =? 39 then wrbuf_lit (str "&apos;")
    else wrbuf_putc c).

Definition wrbuf_xmlputs (cp : list Z) : WRBUF unit :=
  let* n := lift (strlen cp) in wrbuf_xmlputs_n cp n.

Definition wrbuf_xml_strip : list Z -> Z -> WRBUF unit :=
  for_octets (fun c => if xml_ctrl c then ret tt else wrbuf_putc c).

Definition hex_digit (upper : bool) (d : Z) : Z :=
  if d <? 10 then 48 + d else (if upper then 55 else 87) + d.

Definition wrbuf_write_escaped : list Z -> Z -> WRBUF unit :=
  for_octets (fun c =>
    if (c <? 32) || (126 <? c)
    then wrbuf_printf (str "\x" ++ [hex_digit true (c / 16); hex_digit true (c mod 16)])
    else wrbuf_putc c).

Definition wrbuf_puts_escaped (s : list Z) : WRBUF unit :=
  let* n := lift (strlen s) in wrbuf_write_escaped s n.

(** [%04x] of a number below 256. *)
Definition fmt_04x (c : Z) : list Z := [48; 48; hex_digit false (c / 16); hex_digit false (c mod 16)].

Definition wrbuf_json_write : list Z -> Z -> WRBUF unit :=
  for_octets (fun c =>
    if (0 <? c) && (c <? 32) then
      wrbuf_putc 92 ;;
      (if c =? 8 then wrbuf_putc 98
       else if c =? 12 then wrbuf_putc 102
       else if c =? 10 then wrbuf_putc 110
       else if c =? 13 then wrbuf_putc 114
       else if c =? 9 then wrbuf_putc 116
       else wrbuf_printf (117 :: fmt_04x c))
    else if c =? 34 then wrbuf_putc 92 ;; wrbuf_putc 34
    else if c =? 92 then wrbuf_putc 92 ;; wrbuf_putc 92
    else wrbuf_putc c).

Definition wrbuf_json_puts (s : list Z) : WRBUF unit :=
  let* n := lift (strlen s) in wrbuf_json_write s n.

(** The terminator is stored after the contents; the result is the memory. *)
Definition wrbuf_cstr : WRBUF (list Z) :=
  let* b := get in
  if wr_size b <? wr_pos b then fault else
  store (wr_pos b) [0] ;;
  gets wr_buf.

(** The buffer is not null. *)
Definition wrbuf_cstr_null : WRBUF (option (list Z)) :=
  let* b := get in
  if wr_pos b =? 0 then ret None
  else let* s := wrbuf_cstr in ret (Some s).

Definition wrbuf_cut_right (no_to_remove : Z) : WRBUF unit :=
  let* b := get in
  let n := if wr_pos b <? no_to_remove then wr_pos b else no_to_remove in
  put (set_pos (wr_pos b - n) b).

(** ** Invariant and contents *)

Record wrbuf_ok (b : wrbuf) : Prop := {
  wo_alloc : zlen (wr_buf b) = wr_size b + 1;
  wo_pos : 0 <= wr_pos b <= wr_size b;
  wo_size : 1 <= wr_size b }.

Definition contents (b : wrbuf) : list Z := take (Z.to_nat (wr_pos b)) (wr_buf b).

(** The operation adds [bs] to the contents. *)
Definition appends {A} (m : WRBUF A) (bs : list Z) : Prop :=
  forall b, wrbuf_ok b -> exists a b',
    m b = Some (a, b') /\ wrbuf_ok b' /\ contents b' = contents b ++ bs.

Lemma wrbuf_grow_spec n b :
  zlen (wr_buf b) <= wr_size b + 1 -> 0 <= wr_size b -> 1 <= n ->
  exists ext size', wrbuf_grow n b = Some (0, mkWrbuf (wr_buf b ++ ext) (wr_pos b) size' (wr_junk b)) /\
    zlen (wr_buf b ++ ext) = size' + 1 /\ wr_size b + n <= size'.
Proof.
  intros Hl Hs Hn. unfold wrbuf_grow. mrun. unfold put, bind, ret. eexists _, _. split; [reflexivity|].
  rewrite zlen_app. unfold zlen at 2. rewrite length_map, length_seq.
  destruct (Z.eqb_spec (wr_size b) 0), (Z.ltb_spec (if wr_size b =? 0 then 1024 else wr_size b) n);
    repeat ztest1; lia.
Qed.

Lemma contents_extend b ext size :
  0 <= wr_pos b <= zlen (wr_buf b) ->
  contents (mkWrbuf (wr_buf b ++ ext) (wr_pos b) size (wr_junk b)) = contents b.
Proof. intros H. unfold contents; simpl. unfold zlen in H. rewrite take_app_le by lia. done. Qed.

Lemma contents_length b : wrbuf_ok b -> zlen (contents b) = wr_pos b.
Proof. intros [H1 H2 H3]. unfold contents, zlen in *. rewrite length_take. lia. Qed.

(** Room for [n] octets, made when the test says so. *)
Lemma wrbuf_ensure (test : bool) n b :
  wrbuf_ok b -> 1 <= n -> (test = false -> wr_pos b + n <= wr_size b) ->
  exists r b', (if test then wrbuf_grow n else ret 0) b = Some (r, b') /\ wrbuf_ok b' /\
    contents b' = contents b /\ wr_pos b' = wr_pos b /\ wr_pos b + n <= wr_size b'.
Proof.
  intros Hb Hn Ht. pose proof Hb as [H1 H2 H3]. destruct test.
  - destruct (wrbuf_grow_spec n b ltac:(lia) ltac:(lia) Hn) as (ext & size' & E & Hl & Hs).
    eexists 0, _. split; [exact E|]. split; [split; simpl; lia|].
    split; [apply contents_extend; lia|]. simpl. lia.
  - exists 0, b. specialize (Ht eq_refl). done.
Qed.

Lemma wrbuf_store_spec at_ bs b :
  0 <= at_ -> at_ + zlen bs <= zlen (wr_buf b) ->
  store at_ bs b = Some (tt, mkWrbuf
    (take (Z.to_nat at_) (wr_buf b) ++ bs ++ drop (Z.to_nat at_ + length bs) (wr_buf b))
    (wr_pos b) (wr_size b) (wr_junk b)).
Proof. intros. unfold store. mrun. by rewrite splice_spec. Qed.

(** Storing after the contents. *)
Lemma store_append b bs :
  wrbuf_ok b -> wr_pos b + zlen bs <= wr_size b ->
  exists b', store (wr_pos b) bs b = Some (tt, b') /\ wr_pos b' = wr_pos b /\
    wrbuf_ok (set_pos (wr_pos b' + zlen bs) b') /\
    contents (set_pos (wr_pos b' + zlen bs) b') = contents b ++ bs.
Proof.
  intros [H1 H2 H3] Hr. unfold store. mrun. rewrite splice_spec by lia. mrun.
  unfold put, bind. eexists. split; [reflexivity|]. split; [done|].
  pose proof (zlen_nonneg bs). unfold zlen in *. split.
  - split; simpl; unfold zlen; rewrite ?length_app, ?length_take, ?length_drop; lia.
  - unfold contents. simpl. rewrite app_assoc, take_app_length'; [done|].
    rewrite length_app, length_take. lia.
Qed.

Lemma appends_write buf size bs :
  sub buf 0 size = Some bs -> appends (wrbuf_write buf size) bs.
Proof.
  intros Hs b Hb. unfold wrbuf_write.
  assert (zlen bs = size \/ (size <= 0 /\ bs = [])) as Hz.
  { unfold sub in Hs. destruct (_ && _) eqn:Ec; [|done]. injection Hs as <-.
    rewrite !andb_true_iff, !Z.leb_le in Ec. unfold zlen in *. rewrite length_take, length_drop. lia. }
  destruct (Z.leb_spec size 0).
  { exists tt, b. split; [done|]. split; [done|].
    destruct Hz as [Hz|[_ ->]]; [|by rewrite app_nil_r]. destruct bs; [by rewrite app_nil_r|].
    rewrite zlen_cons in Hz. pose proof (zlen_nonneg bs). lia. }
  destruct Hz as [Hz|[]]; [|lia]. mrun.
  destruct (wrbuf_ensure (wr_size b <=? wr_pos b + size) size b Hb ltac:(lia)) as (r & b1 & E1 & Hb1 & Hc1 & Hp1 & Hr1).
  { intros H1%Z.leb_gt. lia. }
  rewrite (bind_Some _ _ _ _ _ E1), Hs. mrun. rewrite <- Hp1.
  destruct (store_append b1 bs Hb1 ltac:(lia)) as (b' & E & Hp & Hok & Hc).
  rewrite (bind_Some _ _ _ _ _ E). eexists tt, _. split; [reflexivity|].
  rewrite <- Hz, <- Hc1. done.
Qed.

Lemma appends_putc c : appends (wrbuf_putc c) [u8 c].
Proof.
  intros b Hb. unfold wrbuf_putc. mrun.
  destruct (wrbuf_ensure (wr_size b <=? wr_pos b) 1 b Hb ltac:(lia)) as (r & b1 & E1 & Hb1 & Hc1 & Hp1 & Hr1).
  { intros H1%Z.leb_gt. lia. }
  rewrite (bind_Some _ _ _ _ _ E1), <- Hp1.
  destruct (store_append b1 [u8 c] Hb1) as (b' & E & Hp & Hok & Hc); [rewrite zlen_cons, zlen_nil; lia|].
  rewrite (bind_Some _ _ _ _ _ E). eexists tt, _. split; [reflexivity|]. rewrite <- Hc1. done.
Qed.

(** ** Composition *)

Lemma appends_ret {A} (a : A) : appends (ret a) [].
Proof. intros b Hb. exists a, b. by rewrite app_nil_r. Qed.

Lemma appends_bind {A B} (m : WRBUF A) (k : A -> WRBUF B) bs1 bs2 :
  appends m bs1 -> (forall a, appends (k a) bs2) -> appends (bind m k) (bs1 ++ bs2).
Proof.
  intros H1 H2 b Hb. destruct (H1 b Hb) as (a & b1 & E1 & Hb1 & Hc1).
  destruct (H2 a b1 Hb1) as (a2 & b2 & E2 & Hb2 & Hc2).
  exists a2, b2. rewrite (bind_Some _ _ _ _ _ E1). split; [done|]. split; [done|].
  by rewrite Hc2, Hc1, app_assoc.
Qed.

Lemma appends_lift {A B} (x : option A) a (k : A -> WRBUF B) bs :
  x = Some a -> appends (k a) bs -> appends (bind (lift x) k) bs.
Proof. intros ->. done. Qed.

Lemma appends_eq {A} (m : WRBUF A) bs bs' : bs' = bs -> appends m bs -> appends m bs'.
Proof. by intros ->. Qed.

Lemma sub_all {A} (s rest : list A) : sub (s ++ rest) 0 (zlen s) = Some s.
Proof. apply (sub_mid [] s rest). Qed.

Lemma appends_puts s rest : nonzero s -> appends (wrbuf_puts (s ++ 0 :: rest)) s.
Proof.
  intros Hs. unfold wrbuf_puts. eapply appends_lift; [by apply strlen_spec|].
  apply appends_write, sub_all.
Qed.

Lemma appends_lit s : nonzero s -> appends (wrbuf_lit s) s.
Proof. apply appends_puts. Qed.

Lemma appends_each f g bs :
  (forall c, In c bs -> appends (f c) (g c)) -> appends (each_octet f bs) (concat (map g bs)).
Proof.
  induction bs as [|c bs IH]; intros H; [apply appends_ret|]. cbn [each_octet map concat].
  apply appends_bind; [apply H; by left|]. intros _. apply IH. intros c' Hc. apply H. by right.
Qed.

Lemma appends_for_octets f g s rest :
  (forall c, In c s -> appends (f c) (g c)) ->
  appends (for_octets f (s ++ rest) (zlen s)) (concat (map g s)).
Proof. intros H. unfold for_octets. eapply appends_lift; [apply sub_all|]. by apply appends_each. Qed.

Create HintDb appends.
#[export] Hint Resolve appends_ret appends_putc : appends.

(** Prove [appends] by following the code, for literals that are evaluated. *)
Ltac appends_step :=
  first
  [ apply appends_ret | apply appends_putc | assumption
  | solve [apply appends_lit; repeat (constructor; [discriminate|]); constructor]
  | match goal with |- appends (if ?c then _ else _) (if ?c then _ else _) => destruct c end ].
Ltac appending := repeat appends_step.

(** ** What the escaping functions write *)

Definition xml_octet (c : Z) : list Z :=
  if xml_ctrl c then []
  else if c =? 60 then str "&lt;" else if c =? 62 then str "&gt;" else if c =? 38 then str "&amp;"
  else if c =? 34 then str "&quot;" else if c =? 39 then str "&apos;" else [c].
Definition xml_escape (s : list Z) : list Z := concat (map xml_octet s).

Definition json_octet (c : Z) : list Z :=
  if (0 <? c) && (c <? 32) then
    92 :: (if c =? 8 then [98] else if c =? 12 then [102] else if c =? 10 then [110]
           else if c =? 13 then [114] else if c =? 9 then [116] else 117 :: fmt_04x c)
  else if c =? 34 then [92; 34] else if c =? 92 then [92; 92] else [c].
Definition json_escape (s : list Z) : list Z := concat (map json_octet s).

Lemma appends_putc_byte c : byte_ok c -> appends (wrbuf_putc c) [c].
Proof. intros H. pose proof (appends_putc c) as Ha. by rewrite u8_small in Ha by exact H. Qed.

Lemma wrbuf_xmlputs_n_spec s rest :
  bytes_ok s -> appends (wrbuf_xmlputs_n (s ++ rest) (zlen s)) (xml_escape s).
Proof.
  intros Hs. apply appends_for_octets. intros c Hc.
  assert (byte_ok c) as Hb by (unfold bytes_ok in Hs; rewrite List.Forall_forall in Hs; by apply Hs).
  pose proof (appends_putc_byte c Hb). unfold xml_octet. appending.
Qed.

Lemma hex_digit_nonzero u d : 0 <= d < 16 -> hex_digit u d <> 0.
Proof. intros H. unfold hex_digit. destruct (d <? 10), u; lia. Qed.

Lemma fmt_04x_nonzero c : byte_ok c -> nonzero (fmt_04x c).
Proof.
  intros H. unfold byte_ok in H. pose proof (Z.mod_pos_bound c 16 ltac:(lia)).
  assert (0 <= c / 16 < 16) by (split; [apply Z.div_pos; lia|apply Z.div_lt_upper_bound; lia]).
  repeat constructor; try discriminate; by apply hex_digit_nonzero.
Qed.

Lemma wrbuf_json_write_spec s rest :
  bytes_ok s -> appends (wrbuf_json_write (s ++ rest) (zlen s)) (json_escape s).
Proof.
  intros Hs. apply appends_for_octets. intros c Hc.
  assert (byte_ok c) as Hb by (unfold bytes_ok in Hs; rewrite List.Forall_forall in Hs; by apply Hs).
  pose proof (appends_putc_byte c Hb) as Hput. unfold json_octet.
  destruct (_ && _).
  - apply (appends_bind _ _ [92]); [apply appends_putc|]. intros _. appending.
    apply appends_lit. constructor; [done|]. by apply fmt_04x_nonzero.
  - destruct (c =? 34); [|destruct (c =? 92); [|done]];
      (apply (appends_bind _ _ [92]); [|intros _]; apply appends_putc).
Qed.

Lemma wrbuf_json_puts_spec s rest :
  bytes_ok s -> nonzero s -> appends (wrbuf_json_puts (s ++ 0 :: rest)) (json_escape s).
Proof.
  intros Hb Hs. unfold wrbuf_json_puts. eapply appends_lift; [by apply strlen_spec|].
  by apply wrbuf_json_write_spec.
Qed.

(** ** Operations that change the contents in other ways *)

(** The operation succeeds and turns the contents [l] into [f l]. *)
Definition changes {A} (m : WRBUF A) (f : list Z -> list Z) : Prop :=
  forall b, wrbuf_ok b -> exists a b',
    m b = Some (a, b') /\ wrbuf_ok b' /\ contents b' = f (contents b).

Lemma appends_changes {A} (m : WRBUF A) bs : appends m bs -> changes m (fun l => l ++ bs).
Proof. done. Qed.

(** Lowering the position. *)
Lemma lower_pos b p :
  wrbuf_ok b -> 0 <= p <= wr_pos b ->
  wrbuf_ok (set_pos p b) /\ contents (set_pos p b) = take (Z.to_nat p) (contents b).
Proof.
  intros [H1 H2 H3] Hp. split; [split; simpl; lia|].
  unfold contents; simpl. rewrite take_take. f_equal. lia.
Qed.

Lemma changes_rewind : changes wrbuf_rewind (fun _ => []).
Proof.
  intros b Hb. pose proof Hb as [_ Hp _]. destruct (lower_pos b 0 Hb ltac:(lia)) as [Hok Hc].
  exists tt, (set_pos 0 b). done.
Qed.

(** The last [n] octets are removed, or all of them. *)
Definition cut_right (n : Z) (l : list Z) : list Z := take (length l - Z.to_nat n) l.

Lemma changes_cut_right n : 0 <= n -> changes (wrbuf_cut_right n) (cut_right n).
Proof.
  intros Hn b Hb. pose proof Hb as [_ Hp _]. pose proof (contents_length b Hb) as Hl.
  unfold wrbuf_cut_right. mrun.
  destruct (lower_pos b (wr_pos b - (if wr_pos b <? n then wr_pos b else n)) Hb) as [Hok Hc].
  { destruct (Z.ltb_spec (wr_pos b) n); lia. }
  eexists tt, _. split; [reflexivity|]. split; [done|]. rewrite Hc. unfold cut_right, zlen in *.
  f_equal. destruct (Z.ltb_spec (wr_pos b) n); lia.
Qed.

(** Trailing blanks are removed. *)
Fixpoint trim (rl : list Z) : list Z :=
  match rl with
  | c :: rl' => if c =? 32 then trim rl' else rl
  | [] => []
  end.
Definition chop_right (l : list Z) : list Z := rev (trim (rev l)).

Lemma chop_right_snoc l c : chop_right (l ++ [c]) = if c =? 32 then chop_right l else l ++ [c].
Proof.
  unfold chop_right. rewrite rev_app_distr. simpl. destruct (c =? 32); [done|].
  simpl. by rewrite rev_involutive.
Qed.

Lemma chop_loop_spec fuel : forall b,
  wrbuf_ok b -> (Z.to_nat (wr_pos b) < fuel)%nat ->
  exists b', chop_loop fuel b = Some (tt, b') /\ wrbuf_ok b' /\ contents b' = chop_right (contents b).
Proof.
  induction fuel as [|fuel IH]; intros b Hb Hf; [lia|].
  pose proof Hb as [Ha Hp Hs]. cbn [chop_loop]. mrun.
  destruct (Z.eqb_spec (wr_pos b) 0) as [Hz|Hz].
  { exists b. split; [done|]. split; [done|]. unfold contents. by rewrite Hz. }
  destruct (rd_Some (wr_buf b) (wr_pos b - 1) ltac:(lia)) as [c Hc]. rewrite Hc. mrun.
  destruct (lower_pos b (wr_pos b - 1) Hb ltac:(lia)) as [Hok Hcon].
  assert (contents b = contents (set_pos (wr_pos b - 1) b) ++ [c]) as Hsnoc.
  { unfold contents; simpl. unfold rd in Hc. rewrite (proj2 (Z.leb_le _ _)) in Hc by lia.
    rewrite <- (take_S_r _ _ _ Hc). f_equal. lia. }
  rewrite Hsnoc, chop_right_snoc. destruct (Z.eqb_spec c 32).
  - mrun. by apply IH; [|simpl; lia].
  - exists b. by rewrite <- Hsnoc.
Qed.

Lemma changes_chop_right : changes wrbuf_chop_right chop_right.
Proof.
  intros b Hb. unfold wrbuf_chop_right. mrun.
  destruct (chop_loop_spec (S (Z.to_nat (wr_pos b))) b Hb ltac:(lia)) as (b' & E & H). by exists tt, b'.
Qed.

Definition insert_at (pos : Z) (bs l : list Z) : list Z :=
  if zlen l <? pos then l else take (Z.to_nat pos) l ++ bs ++ drop (Z.to_nat pos) l.

Lemma changes_insert pos bs rest :
  0 <= pos -> bs <> [] -> changes (wrbuf_insert pos (bs ++ rest) (zlen bs)) (insert_at pos bs).
Proof.
  intros Hpos Hne b Hb. pose proof (contents_length b Hb) as Hl. pose proof (zlen_pos bs Hne) as Hn.
  unfold wrbuf_insert, insert_at. mrun. rewrite (proj2 (Z.leb_gt (zlen bs) 0)) by lia. cbn [orb]. rewrite Hl.
  destruct (Z.ltb_spec (wr_pos b) pos); [by exists tt, b|].
  destruct (wrbuf_ensure (wr_size b <=? wr_pos b + zlen bs) (zlen bs) b Hb ltac:(lia))
    as (r & b1 & E1 & Hb1 & Hc1 & Hp1 & Hr1); [intros H1%Z.leb_gt; lia|].
  rewrite (bind_Some _ _ _ _ _ E1). mrun. destruct Hb1 as [A1 P1 S1].
  rewrite sub_spec by lia. mrun.
  set (tl := take (Z.to_nat (wr_pos b1 - pos)) (drop (Z.to_nat pos) (wr_buf b1))).
  assert (zlen tl = wr_pos b1 - pos) as Htl
    by (unfold tl, zlen in *; rewrite length_take, length_drop; lia).
  rewrite (bind_Some _ _ _ _ _ (wrbuf_store_spec (pos + zlen bs) tl b1 ltac:(lia) ltac:(lia))).
  rewrite sub_all. mrun.
  set (buf2 := take (Z.to_nat (pos + zlen bs)) (wr_buf b1) ++ tl ++ drop _ (wr_buf b1)).
  assert (zlen buf2 = zlen (wr_buf b1)) as Hz2.
  { unfold buf2, zlen in *. rewrite !length_app, length_take, length_drop. lia. }
  rewrite (bind_Some _ _ _ _ _ (wrbuf_store_spec pos bs (mkWrbuf buf2 (wr_pos b1) (wr_size b1) (wr_junk b1))
    ltac:(lia) ltac:(cbn [wr_buf]; lia))). cbn [wr_buf wr_pos wr_size wr_junk].
  eexists tt, _. split; [reflexivity|].
  split.
  - split; simpl; [|lia..]. rewrite !zlen_app. unfold zlen in *. rewrite length_take, length_drop. lia.
  - assert (contents b = contents b1) as -> by done. unfold contents. cbn [wr_buf wr_pos set_pos].
    assert (take (Z.to_nat pos) buf2 = take (Z.to_nat pos) (wr_buf b1)) as ->.
    { unfold buf2, zlen in *. rewrite take_app_le by (rewrite length_take; lia). rewrite take_take. f_equal. lia. }
    assert (drop (Z.to_nat pos + length bs) buf2 = tl ++ drop (Z.to_nat (pos + zlen bs) + length tl) (wr_buf b1)) as ->.
    { unfold buf2, zlen in *. rewrite drop_app_length'; [done|]. rewrite length_take. lia. }
    rewrite take_take, (Nat.min_l (Z.to_nat pos)) by lia. rewrite !app_assoc, take_app_length'.
    + rewrite <- !app_assoc. f_equal. f_equal. unfold tl. rewrite skipn_firstn_comm. f_equal; lia.
    + unfold zlen in *. rewrite !length_app, length_take. lia.
Qed.

(** [wrbuf_cstr] gives the contents as a C string and keeps them. *)
Lemma wrbuf_cstr_spec b :
  wrbuf_ok b -> exists rest b', wrbuf_cstr b = Some (contents b ++ 0 :: rest, b') /\
    wrbuf_ok b' /\ contents b' = contents b.
Proof.
  intros [H1 H2 H3]. unfold wrbuf_cstr. mrun. rewrite (proj2 (Z.ltb_ge _ _)) by lia.
  rewrite (bind_Some _ _ _ _ _ (wrbuf_store_spec (wr_pos b) [0] b ltac:(lia) ltac:(rewrite zlen_cons, zlen_nil; lia))).
  eexists _, _. split; [reflexivity|].
  unfold zlen in *. split.
  - split; simpl; unfold zlen; rewrite ?length_app, ?length_take; simpl; rewrite ?length_drop; lia.
  - unfold contents. simpl. rewrite take_app_length'; [done|]. rewrite length_take. lia.
Qed.

(** A new buffer is empty. *)
Lemma wrbuf_alloc_spec junk :
  exists b, wrbuf_alloc junk = Some b /\ wrbuf_ok b /\ contents b = [].
Proof.
  unfold wrbuf_alloc. destruct (wrbuf_grow_spec 1 (mkWrbuf [] 0 0 junk)) as (ext & size & -> & Hl & Hs);
    [unfold zlen; simpl; lia..|]. simpl in *. eexists. split; [reflexivity|]. split; [split; simpl; lia|done].
Qed.

(** ** Refinement: a buffer is a list of octets *)

Inductive wr_op :=
| WrWrite (bs : list Z) | WrPutc (c : Z) | WrInsert (pos : Z) (bs : list Z)
| WrRewind | WrChopRight | WrCutRight (n : Z) | WrXml (s : list Z) | WrJson (s : list Z).

(** What the operations promise, on lists. *)
Definition wr_exec1 (a : wr_op) (l : list Z) : list Z :=
  match a with
  | WrWrite bs => l ++ bs
  | WrPutc c => l ++ [u8 c]
  | WrInsert pos bs => insert_at pos bs l
  | WrRewind => []
  | WrChopRight => chop_right l
  | WrCutRight n => cut_right n l
  | WrXml s => l ++ xml_escape s
  | WrJson s => l ++ json_escape s
  end.
Definition wr_exec (ops : list wr_op) : list Z := fold_left (fun l a => wr_exec1 a l) ops [].

Definition wr_run1 (a : wr_op) : WRBUF unit :=
  match a with
  | WrWrite bs => wrbuf_write bs (zlen bs)
  | WrPutc c => wrbuf_putc c
  | WrInsert pos bs => wrbuf_insert pos bs (zlen bs)
  | WrRewind => wrbuf_rewind
  | WrChopRight => wrbuf_chop_right
  | WrCutRight n => wrbuf_cut_right n
  | WrXml s => wrbuf_xmlputs_n s (zlen s)
  | WrJson s => wrbuf_json_write s (zlen s)
  end.
Fixpoint wr_run (ops : list wr_op) : WRBUF unit :=
  match ops with
  | [] => ret tt
  | a :: ops => wr_run1 a ;; wr_run ops
  end.

(** The arguments are octets, and sizes that are not negative. *)
Definition wr_valid (a : wr_op) : Prop :=
  match a with
  | WrWrite bs => bytes_ok bs
  | WrInsert pos bs => 0 <= pos /\ bs <> [] /\ bytes_ok bs
  | WrCutRight n => 0 <= n
  | WrXml s | WrJson s => bytes_ok s
  | _ => True
  end.

Lemma wr_run1_spec a : wr_valid a -> changes (wr_run1 a) (wr_exec1 a).
Proof.
  destruct a; simpl; intros H.
  - apply appends_write. pose proof (sub_all bs []) as E. by rewrite app_nil_r in E.
  - apply appends_putc.
  - destruct H as (H1 & H2 & _). pose proof (changes_insert pos bs [] H1 H2) as E. by rewrite app_nil_r in E.
  - apply changes_rewind.
  - apply changes_chop_right.
  - by apply changes_cut_right.
  - pose proof (wrbuf_xmlputs_n_spec s [] H) as E. by rewrite app_nil_r in E.
  - pose proof (wrbuf_json_write_spec s [] H) as E. by rewrite app_nil_r in E.
Qed.

Lemma wr_run_spec ops : Forall wr_valid ops -> changes (wr_run ops) (fun l => fold_left (fun l a => wr_exec1 a l) ops l).
Proof.
  induction 1 as [|a ops Ha H IH]; intros b Hb; [by exists tt, b|].
  destruct (wr_run1_spec a Ha b Hb) as ([] & b1 & E1 & Hb1 & Hc1).
  destruct (IH b1 Hb1) as (r & b2 & E2 & Hb2 & Hc2).
  exists r, b2. cbn [wr_run]. rewrite (bind_Some _ _ _ _ _ E1). split; [done|]. split; [done|].
  rewrite Hc2, Hc1. done.
Qed.

(** ** Properties *)

(** C36: any sequence of operations on a new [WRBUF] stays inside its allocation,
    whatever the allocator leaves in new memory, and does to its contents what the
    operations promise on lists; [wrbuf_cstr] gives them with a terminator. *)
Theorem wrbuf_refines_list (junk : Z -> Z) (ops : list wr_op) :
  Forall wr_valid ops ->
  exists b0 b1 b2 rest, wrbuf_alloc junk = Some b0 /\ wr_run ops b0 = Some (tt, b1) /\
    contents b1 = wr_exec ops /\ wrbuf_ok b1 /\ wrbuf_cstr b1 = Some (wr_exec ops ++ 0 :: rest, b2).
Proof.
  intros H. destruct (wrbuf_alloc_spec junk) as (b0 & E0 & Hb0 & Hc0).
  destruct (wr_run_spec ops H b0 Hb0) as ([] & b1 & E1 & Hb1 & Hc1).
  destruct (wrbuf_cstr_spec b1 Hb1) as (rest & b2 & E2 & _ & _).
  exists b0, b1, b2, rest. unfold wr_exec. rewrite Hc0 in Hc1. rewrite <- Hc1. done.
Qed.

Lemma wrbuf_refines_list_witness :
  exists b0 b1 b2 rest, wrbuf_alloc (fun _ => 7) = Some b0 /\
    wr_run [WrWrite (str "a  "); WrChopRight; WrInsert 0 (str "<"); WrXml (str "<"); WrCutRight 1] b0 = Some (tt, b1) /\
    contents b1 = wr_exec [WrWrite (str "a  "); WrChopRight; WrInsert 0 (str "<"); WrXml (str "<"); WrCutRight 1] /\
    wrbuf_ok b1 /\
    wrbuf_cstr b1 = Some (wr_exec [WrWrite (str "a  "); WrChopRight; WrInsert 0 (str "<"); WrXml (str "<"); WrCutRight 1]
      ++ 0 :: rest, b2).
Proof.
  apply (wrbuf_refines_list (fun _ => 7)).
  repeat constructor; simpl; try lia; try discriminate; unfold byte_ok; simpl; lia.
Defined.
