(* ===== verification/Rpn.v ===== *)
(** * RPN queries (z3950v3.asn) and their text (querytowrbuf.c)

    The types of Z39.50 queries, after the ASN.1 module, and the functions that
    write a query in the prefix notation PQF.  A string is memory with its
    terminator, an OCTET STRING the list of its octets, an OPTIONAL member or a
    pointer that may be null an [option]. *)

From stdpp Require Import base list numbers option strings.
From Stdlib Require Import ZArith Lia.
From S2P Require Import Prelude Text MatchStr OidUtil OidDb Wrbuf.

Inductive Z_StringOrNumeric :=
  | SN_string (s : list Z)
  | SN_numeric (n : Z).

Inductive Z_AttributeValue :=
  | AV_numeric (n : Z)
  | AV_complex (items : list Z_StringOrNumeric) (semanticAction : list Z).

Record Z_AttributeElement := Element {
  attributeSet : option (list Z);
  attributeType : Z;
  value : Z_AttributeValue;
}.

(** The numbers of the alternatives of Term. *)
Definition Z_Term_general : Z := 1.
Definition Z_Term_numeric : Z := 2.
Definition Z_Term_characterString : Z := 3.
Definition Z_Term_oid : Z := 4.
Definition Z_Term_dateTime : Z := 5.
Definition Z_Term_external : Z := 6.
Definition Z_Term_integerAndUnit : Z := 7.
Definition Z_Term_null : Z := 8.

(** [Term_other] is any alternative that no code here looks into. *)
Inductive Z_Term :=
  | Term_general (octets : list Z)
  | Term_numeric (n : Z)
  | Term_characterString (s : list Z)
  | Term_null
  | Term_other (which : Z).

Record Z_AttributesPlusTerm := APT {
  attributes : option (list Z_AttributeElement);
  term : Z_Term;
}.

Inductive Z_Operand :=
  | Operand_APT (apt : Z_AttributesPlusTerm)
  | Operand_resultSetId (s : list Z)
  | Operand_resultAttr (s : list Z) (attrs : list Z_AttributeElement).

Definition Z_ProximityOperator_known : Z := 1.
Definition Z_ProximityOperator_private : Z := 2.

Record Z_ProximityOperator := Prox {
  exclusion : option Z;
  distance : Z;
  ordered : Z;
  relationType : Z;
  prox_which : Z;
  known : option Z;
}.

Inductive Z_Operator :=
  | Op_and
  | Op_or
  | Op_and_not
  | Op_prox (p : Z_ProximityOperator).

(** [RPN_unset] is memory that was allocated and not filled in. *)
Inductive Z_RPNStructure :=
  | RPN_simple (o : Z_Operand)
  | RPN_complex (s1 s2 : Z_RPNStructure) (roperator : Z_Operator)
  | RPN_unset.

Record Z_RPNQuery := RPNQuery {
  attributeSetId : option (list Z);
  RPNStructure : Z_RPNStructure;
}.

Inductive Z_Query :=
  | Query_type_1 (q : Z_RPNQuery)
  | Query_type_2 (octets : list Z)
  | Query_type_100 (octets : list Z)
  | Query_type_101 (q : Z_RPNQuery)
  | Query_type_104_CQL (cql : list Z)
  | Query_type_104 (which : Z)
  | Query_other.

(** ** Writing *)

(** [%s] of the string in the memory [m]. *)
Definition printf_s (before m after : list Z) : WRBUF unit :=
  let* n := lift (strlen m) in
  let* s := lift (sub m 0 n) in
  wrbuf_printf (before ++ s ++ after).

Definition yaz_encode_pqf_term (tm : list Z) (len : Z) : WRBUF unit :=
  let* bs := lift (sub tm 0 len) in
  (if (0 <? len) && negb (existsb (strchr [32; 34; 123]) bs) then
     (match bs with
      | c :: _ => if c =? 64 then wrbuf_putc 92 else ret tt
      | [] => ret tt
      end) ;;
     each_octet (fun c => (if c =? 92 then wrbuf_putc 92 else ret tt) ;; wrbuf_putc c) bs
   else
     wrbuf_putc 34 ;;
     each_octet (fun c => (if (c =? 34) || (c =? 92) then wrbuf_putc 92 else ret tt) ;; wrbuf_putc c) bs ;;
     wrbuf_putc 34) ;;
  wrbuf_putc 32.

Section writers.
(** The standard database of object identifiers. *)
Context (std : yaz_oid_db).

Fixpoint complex_list_to_wrbuf (first : bool) (l : list Z_StringOrNumeric) : WRBUF unit :=
  match l with
  | [] => ret tt
  | x :: l =>
      (if first then ret tt else wrbuf_lit (str ",")) ;;
      (match x with
       | SN_string s => wrbuf_puts s
       | SN_numeric n => wrbuf_printf (fmt_d n)
       end) ;;
      complex_list_to_wrbuf false l
  end.

Definition yaz_attribute_element_to_wrbuf (e : Z_AttributeElement) : WRBUF unit :=
  wrbuf_lit (str "@attr ") ;;
  (match attributeSet e with
   | Some o =>
       let* (setname, _) := lift (yaz_oid_to_string_buf std o) in
       wrbuf_puts setname ;;
       wrbuf_lit (str " ")
   | None => ret tt
   end) ;;
  wrbuf_printf (fmt_d (attributeType e) ++ str "=") ;;
  (match value e with
   | AV_numeric n => wrbuf_printf (fmt_d n)
   | AV_complex l _ => complex_list_to_wrbuf true l
   end) ;;
  wrbuf_lit (str " ").

Definition complex_op_name (op : Z_Operator) : list Z :=
  match op with
  | Op_and => str "and"
  | Op_or => str "or"
  | Op_and_not => str "not"
  | Op_prox _ => str "prox"
  end.

Fixpoint yaz_attributes_to_wrbuf (al : list Z_AttributeElement) : WRBUF unit :=
  match al with
  | [] => ret tt
  | e :: al => yaz_attribute_element_to_wrbuf e ;; yaz_attributes_to_wrbuf al
  end.

Definition term_which (t : Z_Term) : Z :=
  match t with
  | Term_general _ => Z_Term_general
  | Term_numeric _ => Z_Term_numeric
  | Term_characterString _ => Z_Term_characterString
  | Term_null => Z_Term_null
  | Term_other w => w
  end.

Definition yaz_apt_to_wrbuf (zapt : Z_AttributesPlusTerm) : WRBUF unit :=
  let* al := lift (attributes zapt) in
  yaz_attributes_to_wrbuf al ;;
  match term zapt with
  | Term_general bs => yaz_encode_pqf_term bs (zlen bs)
  | Term_characterString s =>
      wrbuf_lit (str "@term string ") ;;
      let* n := lift (strlen s) in
      yaz_encode_pqf_term s n
  | Term_numeric n => wrbuf_printf (str "@term numeric " ++ fmt_d n ++ str " ")
  | Term_null => wrbuf_lit (str "@term null x")
  | t => wrbuf_printf (str "@term null unknown" ++ fmt_d (term_which t) ++ str " ")
  end.

Definition prox_to_wrbuf (p : Z_ProximityOperator) : WRBUF unit :=
  (match exclusion p with
   | None => wrbuf_putc 110
   | Some x => if negb (x =? 0) then wrbuf_putc 49 else wrbuf_putc 48
   end) ;;
  wrbuf_printf (str " " ++ fmt_d (distance p) ++ str " " ++ fmt_d (ordered p) ++ str " " ++
    fmt_d (relationType p) ++ str " ") ;;
  (if prox_which p =? Z_ProximityOperator_known then wrbuf_putc 107
   else if prox_which p =? Z_ProximityOperator_private then wrbuf_putc 112
   else wrbuf_printf (fmt_d (prox_which p))) ;;
  match known p with
  | Some k => wrbuf_printf (str " " ++ fmt_d k ++ str " ")
  | None => wrbuf_printf (str " 0 ")
  end.

Fixpoint yaz_rpnstructure_to_wrbuf (zs : Z_RPNStructure) : WRBUF unit :=
  match zs with
  | RPN_complex s1 s2 op =>
      wrbuf_printf (str "@" ++ complex_op_name op ++ str " ") ;;
      (match op with Op_prox p => prox_to_wrbuf p | _ => ret tt end) ;;
      yaz_rpnstructure_to_wrbuf s1 ;;
      yaz_rpnstructure_to_wrbuf s2
  | RPN_simple (Operand_APT apt) => yaz_apt_to_wrbuf apt
  | RPN_simple (Operand_resultSetId s) =>
      wrbuf_printf (str "@set ") ;;
      let* n := lift (strlen s) in
      yaz_encode_pqf_term s n
  | RPN_simple (Operand_resultAttr _ _) => wrbuf_lit (str "(unknown simple structure)")
  | RPN_unset => fault
  end.

Definition yaz_rpnquery_to_wrbuf (rpn : Z_RPNQuery) : WRBUF unit :=
  (match attributeSetId rpn with
   | Some o =>
       let* (oid_name, _) := lift (yaz_oid_to_string_buf std o) in
       printf_s (str "@attrset ") oid_name (str " ")
   | None => ret tt
   end) ;;
  yaz_rpnstructure_to_wrbuf (RPNStructure rpn) ;;
  wrbuf_chop_right.

Definition yaz_query_to_wrbuf (q : Z_Query) : WRBUF unit :=
  match q with
  | Query_type_1 q | Query_type_101 q => wrbuf_lit (str "RPN ") ;; yaz_rpnquery_to_wrbuf q
  | Query_type_2 bs => wrbuf_lit (str "CCL ") ;; wrbuf_write bs (zlen bs)
  | Query_type_100 bs => wrbuf_lit (str "Z39.58 ") ;; wrbuf_write bs (zlen bs)
  | Query_type_104_CQL cql => wrbuf_lit (str "CQL ") ;; wrbuf_puts cql
  | Query_type_104 w => wrbuf_printf (str "UNKNOWN type 104 query " ++ fmt_d w)
  | Query_other => ret tt
  end.

Definition yaz_scan_to_wrbuf (zapt : Z_AttributesPlusTerm) : WRBUF unit :=
  wrbuf_lit (str "RPN ") ;; yaz_apt_to_wrbuf zapt.

(** A facet list is the list of the attributes of its fields. *)
Fixpoint facet_fields_to_wrbuf (first : bool) (fl : list (list Z_AttributeElement)) : WRBUF unit :=
  match fl with
  | [] => ret tt
  | ff :: fl =>
      (if first then ret tt else wrbuf_lit (str ", ")) ;;
      yaz_attributes_to_wrbuf ff ;;
      facet_fields_to_wrbuf false fl
  end.
Definition yaz_facet_list_to_wrbuf (fl : list (list Z_AttributeElement)) : WRBUF unit := facet_fields_to_wrbuf true fl.
End writers.
