(* ===== verification/Pqf.v ===== *)
(** * The PQF parser (pquery.c)

    A query in prefix notation becomes an RPN query.  The parser looks one token
    ahead; the attributes that have been read apply to every term below them.  The
    arrays of attributes, of which a call changes only what is above the entries
    it was given, are the list of those entries. *)

From stdpp Require Import base list numbers option strings.
From Stdlib Require Import ZArith Lia.
From S2P Require Import Prelude Text MatchStr OidUtil OidDb Wrbuf Rpn.

(** The tokens; 0 at the end of the query. *)
Inductive look :=
  | L_end
  | L_and    (* 'a' *)
  | L_or     (* 'o' *)
  | L_not    (* 'n' *)
  | L_attr   (* 'l' *)
  | L_set    (* 's' *)
  | L_attrset (* 'r' *)
  | L_prox   (* 'p' *)
  | L_term   (* 'y' *)
  | L_text.  (* 't' *)

#[global] Instance look_eq_dec : EqDecision look.
Proof. solve_decision. Defined.

Definition YAZ_PQF_ERROR_NONE : Z := 0.
Definition YAZ_PQF_ERROR_EXTRA : Z := 1.
Definition YAZ_PQF_ERROR_MISSING : Z := 2.
Definition YAZ_PQF_ERROR_ATTSET : Z := 3.
Definition YAZ_PQF_ERROR_TOOMANY : Z := 4.
Definition YAZ_PQF_ERROR_BADATTR : Z := 5.
Definition YAZ_PQF_ERROR_INTERNAL : Z := 6.
Definition YAZ_PQF_ERROR_PROXIMITY : Z := 7.
Definition YAZ_PQF_ERROR_BAD_INTEGER : Z := 8.

(** The separators are the braces and the double quote, and the escape character
    is ['@'] in every parser. *)
Record yaz_pqf_parser := Li {
  query_buf : list Z;
  query_ptr : list Z;
  lex_buf : option (list Z);
  lex_len : Z;
  query_look : look;
  term_type : Z;
  error : Z;
}.

Abbreviation PQF := (M yaz_pqf_parser).

Definition set_ptr (q : list Z) (li : yaz_pqf_parser) : yaz_pqf_parser :=
  Li (query_buf li) q (lex_buf li) (lex_len li) (query_look li) (term_type li) (error li).
Definition set_lexeme (b : list Z) (n : Z) (li : yaz_pqf_parser) : yaz_pqf_parser :=
  Li (query_buf li) (query_ptr li) (Some b) n (query_look li) (term_type li) (error li).
Definition set_look (t : look) (li : yaz_pqf_parser) : yaz_pqf_parser :=
  Li (query_buf li) (query_ptr li) (lex_buf li) (lex_len li) t (term_type li) (error li).
Definition set_term_type (t : Z) (li : yaz_pqf_parser) : yaz_pqf_parser :=
  Li (query_buf li) (query_ptr li) (lex_buf li) (lex_len li) (query_look li) t (error li).
Definition set_error (e : Z) (li : yaz_pqf_parser) : yaz_pqf_parser :=
  Li (query_buf li) (query_ptr li) (lex_buf li) (lex_len li) (query_look li) (term_type li) e.

(** [li->error = e; return 0;] *)
Definition fails {A} (e : Z) : PQF (option A) := modify (set_error e) ;; ret None.

(** ** Tokens *)

Fixpoint skip_spaces (q : list Z) : option (list Z) :=
  match q with
  | [] => None
  | c :: q' => if c =? 32 then skip_spaces q' else Some q
  end.

(** The characters up to the separator: how many more, and the rest. *)
Fixpoint token_end (sep : Z) (q : list Z) (n : Z) : option (Z * list Z) :=
  match q with
  | [] => None
  | c :: q' =>
      if (c =? 0) || (c =? sep) then Some (n, q)
      else if c =? 92 then
        match q' with
        | [] => None
        | c1 :: q'' => if c1 =? 0 then token_end sep q' (n + 1) else token_end sep q'' (n + 2)
        end
      else token_end sep q' (n + 1)
  end.

Definition compare_term (src : list Z) (off : Z) : PQF bool :=
  let* li := get in
  let len := zlen src in
  if lex_len li =? len + off then
    let* b := lift (lex_buf li) in
    let* r := lift (memcmp (drop (Z.to_nat off) b) src (Z.to_nat (len - off))) in
    ret (r =? 0)
  else ret false.

(** The first keyword that compares equal. *)
Fixpoint keyword (ks : list (list Z * look)) : PQF look :=
  match ks with
  | [] => ret L_text
  | (k, t) :: ks => let* b := compare_term k 1 in if b : bool then ret t else keyword ks
  end.
Definition keywords : list (list Z * look) :=
  [(str "and", L_and); (str "or", L_or); (str "not", L_not); (str "attr", L_attr); (str "set", L_set);
   (str "attrset", L_attrset); (str "prox", L_prox); (str "term", L_term)].

Definition query_token : PQF look :=
  let* li := get in
  let* q := lift (skip_spaces (query_ptr li)) in
  modify (set_ptr q) ;;
  let* c := lift (rd q 0) in
  if c =? 0 then ret L_end
  else
    let '(sep, q) := if c =? 123 then (125, drop 1 q) else if c =? 34 then (34, drop 1 q) else (32, q) in
    let* c := lift (rd q 0) in
    let* digit := if c =? 64 then let* c1 := lift (rd q 1) in ret (yaz_isdigit c1) else ret false in
    if digit : bool then
      modify (fun li => set_ptr (drop 1 q) (set_lexeme q 1 li)) ;;
      ret L_attr
    else
      let* (n, q') := lift (token_end sep q 0) in
      let* c' := lift (rd q' 0) in
      modify (fun li => set_ptr (if c' =? 0 then q' else drop 1 q') (set_lexeme q n li)) ;;
      if (sep =? 32) && (1 <=? n) && (c =? 64) then keyword keywords
      else ret L_text.

Definition lex : PQF look :=
  let* t := query_token in
  modify (set_look t) ;;
  ret t.

(** [sscanf(s, "%x", &n)] with [n] 0 before, of at most two characters: blanks, a
    sign and digits; a prefix [0x] leaves no digits, and 0. *)
Definition hexdigit (c : Z) : option Z :=
  if (48 <=? c) && (c <=? 57) then Some (c - 48)
  else if (97 <=? c) && (c <=? 102) then Some (c - 87)
  else if (65 <=? c) && (c <=? 70) then Some (c - 55)
  else None.
Definition octdigit (c : Z) : option Z := if (48 <=? c) && (c <=? 55) then Some (c - 48) else None.

Fixpoint scan_digits (base : Z) (digit : Z -> option Z) (s : list Z) (v : Z) : Z :=
  match s with
  | [] => v
  | c :: s => match digit c with Some d => scan_digits base digit s (v * base + d) | None => v end
  end.
Fixpoint drop_white (s : list Z) : list Z :=
  match s with
  | [] => []
  | c :: s' => if c_blank c then drop_white s' else s
  end.
Definition scanf_x (s : list Z) : Z :=
  match drop_white s with
  | 45 :: s => - scan_digits 16 hexdigit s 0
  | 43 :: s => scan_digits 16 hexdigit s 0
  | s => scan_digits 16 hexdigit s 0
  end.
Definition scanf_o (s : list Z) : Z := scan_digits 8 octdigit s 0.

(** The octets that are stored for the characters [bs]. *)
Fixpoint escape_string (bs : list Z) : list Z :=
  match bs with
  | [] => []
  | b :: r =>
      match b =? 92, r with
      | true, c :: r1 =>
          if c =? 116 then 9 :: escape_string r1
          else if c =? 110 then 10 :: escape_string r1
          else if c =? 114 then 13 :: escape_string r1
          else if c =? 102 then 12 :: escape_string r1
          else if c =? 120 then
            match r1 with
            | s0 :: s1 :: r2 => u8 (scanf_x [s0; s1]) :: escape_string r2
            | r2 => escape_string r2
            end
          else if (48 <=? c) && (c <=? 51) then
            match r1 with
            | s1 :: s2 :: r2 => u8 (scanf_o [c; s1; s2]) :: escape_string r2
            | r2 => escape_string r2
            end
          else c :: escape_string r1
      | _, _ => b :: escape_string r
      end
  end.

(** ** Attributes *)

(** An entry of [attr_list], [attr_clist] and [attr_set]. *)
Record attr := Attr {
  at_type : Z;
  at_value : Z;
  at_clist : option (list Z);
  at_set : option (list Z);
}.

Definition at_element (a : attr) : Z_AttributeElement :=
  Element (at_set a) (at_type a)
    (match at_clist a with
     | Some s => AV_complex [SN_string s] []
     | None => AV_numeric (at_value a)
     end).

(** From the last attribute to the first; one of several of a type is the last. *)
Fixpoint get_attributeList (attrs : list attr) : list Z_AttributeElement :=
  match attrs with
  | [] => []
  | a :: attrs =>
      get_attributeList attrs ++
      (if existsb (fun b => at_type b =? at_type a) attrs then [] else [at_element a])
  end.

Definition zget_AttributeList_use_string (nm : list Z) : list Z_AttributeElement :=
  get_attributeList [Attr 1 0 (Some nm) None].

(** ** Terms *)

(** [buf] is the [len] octets at the pointer. *)
Definition z_Term_create (ty : Z) (buf : list Z) : option Z_Term :=
  if ty =? Z_Term_general then Some (Term_general buf)
  else if ty =? Z_Term_characterString then Some (Term_characterString (buf ++ [0]))
  else if ty =? Z_Term_numeric then let? n := odr_atoi (buf ++ [0]) in Some (Term_numeric n)
  else if ty =? Z_Term_null then Some Term_null
  else if ty =? Z_Term_external then Some (Term_other Z_Term_external)
  else Some Term_null.

(** The octets of the token. *)
Definition lexeme : PQF (list Z) :=
  let* li := get in
  let* b := lift (lex_buf li) in
  lift (sub b 0 (lex_len li)).

Definition rpn_term_attributes (al : option (list Z_AttributeElement)) : PQF Z_AttributesPlusTerm :=
  let* bs := lexeme in
  let* ty := gets term_type in
  let* t := lift (z_Term_create ty (escape_string bs)) in
  ret (APT al t).

Definition rpn_term (attrs : list attr) : PQF Z_AttributesPlusTerm :=
  rpn_term_attributes (Some (get_attributeList attrs)).

Definition rpn_simple (attrs : list attr) : PQF (option Z_Operand) :=
  let* li := get in
  match query_look li with
  | L_text =>
      let* apt := rpn_term attrs in
      lex ;;
      ret (Some (Operand_APT apt))
  | L_set =>
      lex ;;
      let* li := get in
      if bool_decide (query_look li = L_end) then fails YAZ_PQF_ERROR_MISSING
      else
        let* bs := lexeme in
        lex ;;
        ret (Some (Operand_resultSetId (bs ++ [0])))
  | _ => fails YAZ_PQF_ERROR_INTERNAL
  end.

(** The first character of the token, after [lex]; [k] is what comes next. *)
Definition lex_first {A} (k : Z -> list Z -> PQF (option A)) : PQF (option A) :=
  let* t := lex in
  if bool_decide (t = L_end) then fails YAZ_PQF_ERROR_MISSING
  else
    let* li := get in
    let* b := lift (lex_buf li) in
    let* c := lift (rd b 0) in
    k c b.

(** A number of a proximity operator. *)
Definition lex_number {A} (k : Z -> PQF (option A)) : PQF (option A) :=
  lex_first (fun c b =>
    if (48 <=? c) && (c <=? 57) then let* n := lift (odr_atoi b) in k n
    else fails YAZ_PQF_ERROR_BAD_INTEGER).

(** What the first character says, for the rest [k]. *)
Definition prox_exclusion {A} (c : Z) (k : option Z -> PQF (option A)) : PQF (option A) :=
  if c =? 49 then k (Some 1)
  else if c =? 48 then k (Some 0)
  else if (c =? 118) || (c =? 110) then k None
  else fails YAZ_PQF_ERROR_PROXIMITY.
Definition prox_ordered {A} (c : Z) (k : Z -> PQF (option A)) : PQF (option A) :=
  if c =? 49 then k 1
  else if c =? 48 then k 0
  else fails YAZ_PQF_ERROR_PROXIMITY.

Definition rpn_proximity : PQF (option Z_ProximityOperator) :=
  lex_first (fun c _ => prox_exclusion c (fun excl =>
  lex_number (fun dist =>
  lex_first (fun c _ => prox_ordered c (fun ord =>
  lex_number (fun rel =>
  lex_first (fun c b =>
    let* which :=
      if c =? 107 then ret Z_ProximityOperator_known
      else if c =? 112 then ret Z_ProximityOperator_private
      else lift (atoi b) in
    if negb (which =? Z_ProximityOperator_known) && negb (which =? Z_ProximityOperator_private)
    then fails YAZ_PQF_ERROR_PROXIMITY
    else lex_number (fun unit_ => ret (Some (Prox excl dist ord rel which (Some unit_))))))))))).

(** The first type whose name compares equal. *)
Fixpoint named_type (ts : list (list Z * Z)) : PQF unit :=
  match ts with
  | [] => ret tt
  | (k, t) :: ts =>
      let* b := compare_term k 0 in
      if b : bool then modify (set_term_type t) else named_type ts
  end.
Definition term_types : list (list Z * Z) :=
  [(str "general", Z_Term_general); (str "numeric", Z_Term_numeric); (str "string", Z_Term_characterString);
   (str "oid", Z_Term_oid); (str "datetime", Z_Term_dateTime); (str "null", Z_Term_null)].

Definition rpn_term_type : PQF unit :=
  let* li := get in
  if bool_decide (query_look li = L_end) then ret tt
  else
    named_type term_types ;;
    lex ;;
    ret tt.

(** The type at the start of the token and the value after the ['='] at [cp]. *)
Definition parse_attr_at (set_ : option (list Z)) (cp : Z) : PQF (option attr) :=
  let* li := get in
  let* b := lift (lex_buf li) in
  let* c := lift (rd b 0) in
  if negb ((48 <=? c) && (c <=? 57)) then fails YAZ_PQF_ERROR_BAD_INTEGER
  else
    let* ty := lift (odr_atoi b) in
    let at_ := cp + 1 in
    let* v := if at_ <? lex_len li then lift (sub b at_ (lex_len li - at_)) else ret [] in
    if forallb yaz_isdigit v then
      let* n := lift (odr_atoi (drop (Z.to_nat at_) b)) in
      ret (Some (Attr ty n None set_))
    else ret (Some (Attr ty 0 (Some (escape_string v ++ [0])) set_)).

(** ** Queries *)

Section queries.
(** The standard database of object identifiers, and the one of Bib-1. *)
Context (std : yaz_oid_db) (yaz_oid_attset_bib_1 : list Z).

Definition query_oid_getvalbyname : PQF (option (list Z)) :=
  let* li := get in
  if 31 <=? lex_len li then ret None
  else
    let* bs := lexeme in
    lift (yaz_string_to_oid_odr std CLASS_ATTSET (bs ++ [0]) (repeat 0 20)).

(** The new entry. *)
Definition p_query_parse_attr (attrs : list attr) : PQF (option attr) :=
  let* li := get in
  let* b := lift (lex_buf li) in
  let* cp := lift (find_char 61 b) in
  let named : PQF (option attr) :=
    let* o := query_oid_getvalbyname in
    match o with
    | None => fails YAZ_PQF_ERROR_ATTSET
    | Some o =>
        let* t := lex in
        if bool_decide (t = L_end) then fails YAZ_PQF_ERROR_MISSING
        else
          let* li := get in
          let* b := lift (lex_buf li) in
          let* cp := lift (find_char 61 b) in
          match cp with
          | None => fails YAZ_PQF_ERROR_BADATTR
          | Some cp => parse_attr_at (Some o) cp
          end
    end in
  match cp with
  | Some cp =>
      if lex_len li <? cp then named
      else parse_attr_at (match list.last attrs with Some a => at_set a | None => None end) cp
  | None => named
  end.

(** [rpn] is [rpn_structure]. *)
Definition rpn_complex (rpn : list attr -> PQF (option Z_RPNStructure)) (attrs : list attr)
  : PQF (option (Z_RPNStructure * Z_RPNStructure * Z_Operator)) :=
  let* li := get in
  let* op :=
    match query_look li with
    | L_and => ret (Some Op_and)
    | L_or => ret (Some Op_or)
    | L_not => ret (Some Op_and_not)
    | L_prox =>
        let* p := rpn_proximity in
        match p with Some p => ret (Some (Op_prox p)) | None => ret None end
    | _ => fails YAZ_PQF_ERROR_INTERNAL
    end in
  match op with
  | None => ret None
  | Some op =>
      lex ;;
      let* s1 := rpn attrs in
      match s1 with
      | None => ret None
      | Some s1 =>
          let* s2 := rpn attrs in
          match s2 with
          | None => ret None
          | Some s2 => ret (Some (s1, s2, op))
          end
      end
  end.

Definition max_attr : Z := 512.

Fixpoint rpn_structure (fuel : nat) (attrs : list attr) : PQF (option Z_RPNStructure) :=
  match fuel with
  | O => fault
  | S fuel =>
      let* li := get in
      match query_look li with
      | L_and | L_or | L_not | L_prox =>
          let* r := rpn_complex (rpn_structure fuel) attrs in
          match r with
          | Some (s1, s2, op) => ret (Some (RPN_complex s1 s2 op))
          | None => ret None
          end
      | L_text | L_set =>
          let* r := rpn_simple attrs in
          match r with
          | Some o => ret (Some (RPN_simple o))
          | None => ret None
          end
      | L_attr =>
          lex ;;
          let* li := get in
          if bool_decide (query_look li = L_end) then fails YAZ_PQF_ERROR_MISSING
          else if max_attr <=? zlen attrs then fails YAZ_PQF_ERROR_TOOMANY
          else
            let* a := p_query_parse_attr attrs in
            match a with
            | None => ret None
            | Some a => lex ;; rpn_structure fuel (attrs ++ [a])
            end
      | L_term =>
          lex ;;
          rpn_term_type ;;
          rpn_structure fuel attrs
      | L_end => fails YAZ_PQF_ERROR_MISSING
      | L_attrset => ret (Some RPN_unset)
      end
  end.

(** The attribute set at the start of a query; [None] inside on failure. *)
Definition top_set : PQF (option (list Z)) :=
  lex ;;
  let* li := get in
  if bool_decide (query_look li = L_attrset) then
    lex ;;
    let* o := query_oid_getvalbyname in
    match o with
    | None => fails YAZ_PQF_ERROR_ATTSET
    | Some o => lex ;; ret (Some o)
    end
  else lift (odr_oiddup_nmem (Some yaz_oid_attset_bib_1)).

Definition p_query_rpn_mk : PQF (option Z_RPNQuery) :=
  let* li := get in
  let fuel := S (length (query_ptr li)) in
  let* set_ := top_set in
  match set_ with
  | None => ret None
  | Some o =>
      let* r := rpn_structure fuel [] in
      match r with
      | None => ret None
      | Some s =>
          let* li := get in
          if bool_decide (query_look li = L_end) then ret (Some (RPNQuery (Some o) s))
          else fails YAZ_PQF_ERROR_EXTRA
      end
  end.

Definition pqf_parser_begin (buf : list Z) : PQF unit :=
  modify (fun li => Li buf buf None (lex_len li) (query_look li) (term_type li) (error li)).

(** A new parser; what is not set is zero. *)
Definition yaz_pqf_create : yaz_pqf_parser := Li [] [] None 0 L_end Z_Term_general 0.

Definition p_query_rpn (qbuf : list Z) : option (option Z_RPNQuery) :=
  let? (q, _) := (pqf_parser_begin qbuf ;; p_query_rpn_mk) yaz_pqf_create in Some q.

Definition yaz_pqf_parse (qbuf : list Z) : PQF (option Z_RPNQuery) :=
  pqf_parser_begin qbuf ;; p_query_rpn_mk.

Fixpoint scan_attributes_loop (fuel : nat) (attrs : list attr) : PQF (option (list attr)) :=
  match fuel with
  | O => fault
  | S fuel =>
      let* li := get in
      match query_look li with
      | L_attr =>
          lex ;;
          let* li := get in
          if bool_decide (query_look li = L_end) then fails YAZ_PQF_ERROR_MISSING
          else if max_attr <=? zlen attrs then fails YAZ_PQF_ERROR_TOOMANY
          else
            let* a := p_query_parse_attr attrs in
            match a with
            | None => ret None
            | Some a => lex ;; scan_attributes_loop fuel (attrs ++ [a])
            end
      | L_term => lex ;; rpn_term_type ;; scan_attributes_loop fuel attrs
      | _ => ret (Some attrs)
      end
  end.

(** The attributes and the attribute set. *)
Definition p_query_scan_attributes_mk : PQF (option (list Z_AttributeElement) * option (list Z)) :=
  let* li := get in
  let fuel := S (length (query_ptr li)) in
  let* set_ := top_set in
  match set_ with
  | None => ret (None, None)
  | Some o =>
      let* r := scan_attributes_loop fuel [] in
      ret (get_attributeList <$> r, Some o)
  end.

Definition p_query_scan_mk : PQF (option Z_AttributesPlusTerm * option (list Z)) :=
  let* (al, set_) := p_query_scan_attributes_mk in
  let* li := get in
  if bool_decide (query_look li = L_end) then
    let* r := fails YAZ_PQF_ERROR_MISSING in ret (r, set_)
  else
    let* apt := rpn_term_attributes al in
    lex ;;
    let* li := get in
    if negb (bool_decide (query_look li = L_end)) then
      let* r := fails YAZ_PQF_ERROR_EXTRA in ret (r, set_)
    else ret (Some apt, set_).

Definition yaz_pqf_scan (qbuf : list Z) : PQF (option Z_AttributesPlusTerm * option (list Z)) :=
  pqf_parser_begin qbuf ;; p_query_scan_mk.

Definition yaz_pqf_scan_attribute_list (qbuf : list Z)
  : PQF (option (list Z_AttributeElement) * option (list Z)) :=
  pqf_parser_begin qbuf ;; p_query_scan_attributes_mk.

(** The terms of a facet, at most ten of which are kept. *)
Fixpoint facet_terms (fuel : nat) (num_terms : Z) : PQF (list Z_Term) :=
  match fuel with
  | O => fault
  | S fuel =>
      let* li := get in
      if bool_decide (query_look li = L_text) then
        let* t :=
          if num_terms <? 10 then
            let* bs := lexeme in
            let* t := lift (z_Term_create (term_type li) (escape_string bs)) in
            ret [t]
          else ret [] in
        lex ;;
        let* ts := facet_terms fuel (num_terms + zlen t) in
        ret (t ++ ts)
      else ret []
  end.

(** A facet field: its attributes and its terms, each with the count 0. *)
Definition parse_facet (facet : list Z) : option (option (list Z_AttributeElement * list Z_Term)) :=
  let? (r, _) := (
    pqf_parser_begin facet ;;
    let* (al, _) := p_query_scan_attributes_mk in
    match al with
    | Some al => let* ts := facet_terms (S (length facet)) 0 in ret (Some (al, ts))
    | None => ret None
    end) yaz_pqf_create in
  Some r.

(** The error, its message and the offset in the query. *)
Definition yaz_pqf_error (p : yaz_pqf_parser) : Z * list Z * Z :=
  let msg :=
    if error p =? YAZ_PQF_ERROR_NONE then str "no error"
    else if error p =? YAZ_PQF_ERROR_EXTRA then str "extra token"
    else if error p =? YAZ_PQF_ERROR_MISSING then str "missing token"
    else if error p =? YAZ_PQF_ERROR_ATTSET then str "unknown attribute set"
    else if error p =? YAZ_PQF_ERROR_TOOMANY then str "too many attributes"
    else if error p =? YAZ_PQF_ERROR_BADATTR then str "bad attribute specification"
    else if error p =? YAZ_PQF_ERROR_INTERNAL then str "internal error"
    else if error p =? YAZ_PQF_ERROR_PROXIMITY then str "proximity error"
    else if error p =? YAZ_PQF_ERROR_BAD_INTEGER then str "bad integer"
    else str "unknown error" in
  (error p, msg, zlen (query_buf p) - zlen (query_ptr p)).
End queries.
