(* ===== verification/PqfSafe.v ===== *)
(** * Safety of the PQF parser (pquery.c)

    Whatever C string it is given, the parser ends, reads nothing after the
    terminator, builds a complete tree or reports an error, and tells an offset
    inside the query. *)

From stdpp Require Import base list numbers option strings.
From Stdlib Require Import ZArith Lia.
From S2P Require Import Prelude Text MatchStr OidUtil OidDb Wrbuf Rpn Pqf.

Lemma run_fails {A} e li (Q : option A -> _ -> Prop) : Q None (set_error e li) -> run (fails e) li Q.
Proof. intros H. by exists None, (set_error e li). Qed.

(** ** The invariant *)

Section safe.
(** The query, the database, and that the names in the query can be looked up. *)
Context (s rest : list Z) (Hs : nonzero s) (std : yaz_oid_db) (bib_1 : list Z).
Context (Hnames : forall pre n post, s = pre ++ n ++ post -> zlen n < 31 ->
  exists r, yaz_string_to_oid_odr std CLASS_ATTSET (n ++ [0]) (repeat 0 20) = Some r).

(** A position in the query, and a token of it. *)
Definition here (q : list Z) : Prop := exists pre t, s = pre ++ t /\ q = t ++ 0 :: rest.
Definition token_at (b : list Z) (n : Z) : Prop :=
  exists pre t post, s = pre ++ t ++ post /\ b = t ++ post ++ 0 :: rest /\ n = zlen t.

Record pqf_base (li : yaz_pqf_parser) : Prop := {
  pi_buf : query_buf li = s ++ 0 :: rest;
  pi_ptr : here (query_ptr li);
  pi_lex : forall b, lex_buf li = Some b -> token_at b (lex_len li);
}.
Record pqf_inv (li : yaz_pqf_parser) : Prop := {
  pi_base : pqf_base li;
  pi_look : query_look li <> L_end -> lex_buf li <> None;
}.

(** What is left to read: the token that was looked at and what follows it. *)
Definition left_ (li : yaz_pqf_parser) : nat :=
  length (query_ptr li) + if bool_decide (query_look li = L_end) then 0 else 1.

Lemma here_cstr q : here q -> cstr_at q.
Proof.
  intros (pre & t & E & ->). exists t, rest. split; [done|]. rewrite E in Hs. by apply Forall_app in Hs as [_ ?].
Qed.

Lemma here_cons q : here q -> exists c r, q = c :: r /\ (c <> 0 -> here r).
Proof.
  intros (pre & [|c t] & E & ->); [exists 0, rest; split; [done|congruence]|].
  exists c, (t ++ 0 :: rest). split; [done|]. intros _. exists (pre ++ [c]), t. by rewrite <- app_assoc.
Qed.

Lemma token_cstr b n : token_at b n -> cstr_at b.
Proof. intros (pre & t & post & E & -> & _). apply here_cstr. exists pre, (t ++ post). by rewrite <- app_assoc. Qed.

Lemma here_skip q : here q -> exists q', skip_spaces q = Some q' /\ here q' /\ (length q' <= length q)%nat /\
  head q' <> Some 32.
Proof.
  induction q as [|c q IH]; intros Hq; [destruct Hq as (? & [|] & _ & [=])|].
  destruct (here_cons _ Hq) as (c' & r & [= <- <-] & Hr). cbn [skip_spaces].
  destruct (Z.eqb_spec c 32) as [->|]; [|eexists; repeat split; [done|done|]; simpl; congruence].
  destruct (IH (Hr ltac:(lia))) as (q' & E & Hq' & Hl & Hh). exists q'. repeat split; [done|done|simpl; lia|done].
Qed.

(** The end of a token. *)
Lemma here_token_end sep k : forall q n, (length q <= k)%nat -> here q -> exists t q',
  token_end sep q n = Some (n + zlen t, q') /\ q = t ++ q' /\ here q' /\ nonzero t /\
  (head q <> Some 0 -> head q <> Some sep -> t <> []).
Proof.
  induction k as [|k IH]; intros q n Hk Hq; (destruct (here_cons _ Hq) as (c & r & -> & Hr)); [simpl in Hk; lia|].
  simpl in Hk. cbn [token_end].
  destruct ((c =? 0) || (c =? sep)) eqn:Ec.
  { exists [], (c :: r). rewrite zlen_nil, Z.add_0_r. split; [done|]. split; [done|]. split; [done|].
    split; [constructor|]. apply orb_true_iff in Ec as [->%Z.eqb_eq| ->%Z.eqb_eq]; done. }
  apply orb_false_iff in Ec as [Ec%Z.eqb_neq _]. specialize (Hr Ec).
  assert (forall r' n', here r' -> (length r' <= k)%nat -> exists t q',
    token_end sep r' n' = Some (n' + zlen t, q') /\ r' = t ++ q' /\ here q' /\ nonzero t) as Hrec.
  { intros r' n' H1 H2. destruct (IH r' n' H2 H1) as (t & q' & ? & ? & ? & ? & _). by exists t, q'. }
  assert (forall pre, nonzero pre -> pre <> [] -> forall r' n', c :: r = pre ++ r' -> n' = n + zlen pre -> here r' -> (length r' <= k)%nat ->
    exists t q', token_end sep r' n' = Some (n + zlen t, q') /\ c :: r = t ++ q' /\ here q' /\ nonzero t /\
      (head (c :: r) <> Some 0 -> head (c :: r) <> Some sep -> t <> [])) as Hstep.
  { intros pre Hpre Hne r' n' Er -> Hr' Hl. destruct (Hrec r' (n + zlen pre) Hr' Hl) as (t & q' & E & Et & Hq' & Ht).
    exists (pre ++ t), q'. rewrite zlen_app, Z.add_assoc, <- app_assoc, <- Et. split; [done|]. split; [done|].
    split; [done|]. split; [by apply Forall_app|]. by destruct pre. }
  destruct (Z.eqb_spec c 92) as [->|_].
  - destruct (here_cons _ Hr) as (c1 & r1 & -> & Hr1). simpl in Hk. destruct (Z.eqb_spec c1 0) as [->|H1].
    + apply (Hstep [92]); [by repeat constructor|done|done|done|done|simpl; lia].
    + apply (Hstep [92; c1]); [by repeat constructor|done|done|done|by apply Hr1|lia].
  - apply (Hstep [c]); [by repeat constructor|done|done|done|done|lia].
Qed.

(** ** Tokens *)

Lemma memcmp_total (a b : list Z) : forall n, (n <= length a)%nat -> (n <= length b)%nat -> exists r, memcmp a b n = Some r.
Proof.
  revert b. induction a as [|x a IH]; intros [|y b] [|n] H1 H2; simpl in *; try lia; try by eexists.
  destruct (negb (x =? y)); [by eexists|]. apply IH; lia.
Qed.

(** A comparison leaves the parser alone. *)
Lemma run_compare src off li b : lex_buf li = Some b -> token_at b (lex_len li) -> 0 <= off <= zlen src ->
  run (compare_term src off) li (fun _ li' => li' = li).
Proof.
  intros Eb (pre & t & post & _ & -> & En) Ho. unfold compare_term. apply run_get.
  destruct (Z.eqb_spec (lex_len li) (zlen src + off)) as [El|]; [|by apply run_ret].
  eapply run_lift; [exact Eb|].
  destruct (memcmp_total (drop (Z.to_nat off) (t ++ post ++ 0 :: rest)) src (Z.to_nat (zlen src - off))) as (r & Er).
  - rewrite length_drop, length_app. unfold zlen in *. lia.
  - unfold zlen. lia.
  - eapply run_lift; [exact Er|]. by apply run_ret.
Qed.

Lemma run_keyword ks : forall li b, lex_buf li = Some b -> token_at b (lex_len li) ->
  Forall (fun k => 1 <= zlen k.1 /\ k.2 <> L_end) ks ->
  run (keyword ks) li (fun t li' => li' = li /\ t <> L_end).
Proof.
  induction ks as [|[k t] ks IH]; intros li b Eb Ht Hk; [by apply run_ret|].
  apply Forall_cons_1 in Hk as [[H1 H2] Hk]. cbn [keyword fst snd] in *.
  eapply run_bind; [by eapply run_compare; [..|lia]|]. intros [] li' ->; [by apply run_ret|by eapply IH].
Qed.

(** A token is read and something of the query with it, or the query has ended. *)
Lemma run_token li : pqf_base li ->
  run query_token li (fun t li' =>
    query_buf li' = query_buf li /\ term_type li' = term_type li /\ error li' = error li /\ here (query_ptr li') /\
    if bool_decide (t = L_end) then lex_buf li' = lex_buf li /\ lex_len li' = lex_len li /\ (length (query_ptr li') <= length (query_ptr li))%nat
    else (exists b, lex_buf li' = Some b /\ token_at b (lex_len li')) /\ (length (query_ptr li') < length (query_ptr li))%nat).
Proof.
  intros [H1 H2 H3]. unfold query_token. apply run_get.
  destruct (here_skip _ H2) as (q & Eq & Hq & Hlen & Hhead). eapply run_lift; [exact Eq|]. apply run_modify.
  destruct (here_cons _ Hq) as (c & r & -> & Hr). eapply run_lift; [apply rd_0|].
  destruct (Z.eqb_spec c 0) as [->|Hc].
  { apply run_ret. rewrite bool_decide_eq_true_2 by done. by repeat split. }
  specialize (Hr Hc).
  assert (exists sep q, (if c =? 123 then (125, drop 1 (c :: r)) else if c =? 34 then (34, drop 1 (c :: r)) else (32, c :: r))
    = (sep, q) /\ here q /\ (q = r \/ sep = 32 /\ q = c :: r)) as (sep & q & -> & Hq0 & Hcase).
  { cbn [drop]. destruct (c =? 123); [|destruct (c =? 34)]; (eexists _, _; split; [reflexivity|]; split; [done|]); auto. }
  assert (length r < length (c :: r))%nat as Hrl by (simpl; lia).
  destruct (here_cons _ Hq0) as (c0 & r0 & E0 & Hr0). eapply run_lift; [rewrite E0; apply rd_0|].
  eapply (run_bind _ _ _ (fun (dg : bool) li' => li' = set_ptr (c :: r) li /\ (dg = true -> c0 = 64))).
  { destruct (Z.eqb_spec c0 64) as [->|]; [|by apply run_ret].
    destruct (here_cons _ (Hr0 ltac:(lia))) as (c1 & r1 & -> & _). rewrite E0. eapply run_lift; [reflexivity|]. by apply run_ret. }
  intros dg li' [-> Hdg]. destruct dg.
  { specialize (Hdg eq_refl). subst c0. apply run_modify, run_ret. rewrite bool_decide_eq_false_2 by done.
    split; [done|]. split; [done|]. split; [done|]. cbn [query_ptr set_ptr set_lexeme lex_buf lex_len]. rewrite E0. cbn [drop].
    specialize (Hr0 ltac:(lia)). split; [done|]. split.
    - exists (64 :: r0). split; [done|]. destruct Hr0 as (pre & t & E & ->). rewrite E0 in Hq0.
      destruct Hq0 as (pre' & [|c' t'] & E' & Eq'); [done|]. injection Eq' as <- Eq'. apply app_inv_tail in Eq' as <-.
      exists pre', [64], t. by repeat split.
    - rewrite drop_0. assert (length r0 < length q)%nat by (rewrite E0; simpl; lia).
      destruct Hcase as [->|[_ ->]]; lia. }
  destruct (here_token_end sep (length q) q 0 ltac:(lia) Hq0) as (t & q' & Et & Eqt & Hq' & Ht & Hnempty).
  eapply run_lift; [exact Et|]. cbv beta iota.
  destruct (here_cons _ Hq') as (c' & r' & -> & Hr'). eapply run_lift; [apply rd_0|]. apply run_modify.
  rewrite Z.add_0_l.
  set (li2 := set_ptr _ (set_lexeme _ _ _)).
  assert (token_at q (zlen t)) as Htok.
  { destruct Hq' as (pre & post & E & Ep). destruct Hq0 as (pre' & u & E' & Eu).
    exists pre', t, post. rewrite Eqt, Ep. split; [|done]. rewrite E'. f_equal.
    assert (u ++ 0 :: rest = (t ++ post) ++ 0 :: rest) as Eapp by (rewrite <- Eu, Eqt, Ep, app_assoc; done).
    by apply app_inv_tail in Eapp. }
  assert (here (query_ptr li2)) as Hp.
  { unfold li2. cbn [query_ptr set_ptr]. destruct (Z.eqb_spec c' 0); [done|]. cbn [drop]. by apply Hr'. }
  assert (length (query_ptr li2) < length (query_ptr li))%nat as Hshort.
  { unfold li2. cbn [query_ptr set_ptr].
    assert (length (if (c' =? 0)%Z then c' :: r' else drop 1 (c' :: r')) <= length (c' :: r'))%nat by (destruct (c' =? 0)%Z; rewrite ?length_drop; lia).
    destruct Hcase as [->|[-> ->]].
    - assert (length r = length t + length (c' :: r'))%nat by (rewrite Eqt, length_app; done). lia.
    - assert (t <> []) as Hne by (apply Hnempty; simpl in *; congruence).
      assert (length (c :: r) = length t + length (c' :: r'))%nat by (rewrite Eqt, length_app; done).
      destruct t; [done|]. simpl in *. lia. }
  destruct ((sep =? 32) && (1 <=? zlen t) && (c0 =? 64)).
  - eapply run_weaken; [by eapply run_keyword with (b := q); [done|done|repeat constructor; (unfold zlen; simpl; lia) || done]|].
    intros t' li' [-> Ht']. rewrite bool_decide_eq_false_2 by done. split; [done|]. split; [done|]. split; [done|].
    split; [done|]. split; [|done]. by exists q.
  - apply run_ret. rewrite bool_decide_eq_false_2 by done. split; [done|]. split; [done|]. split; [done|].
    split; [done|]. split; [|done]. by exists q.
Qed.

(** What the functions of the parser keep: the invariant, an error, a token; and
    they do not go back. *)
Record goes (li li' : yaz_pqf_parser) : Prop := {
  go_inv : pqf_inv li';
  go_left : (left_ li' <= left_ li)%nat;
  go_error : error li <> 0 -> error li' <> 0;
  go_lex : lex_buf li <> None -> lex_buf li' <> None;
}.

Lemma goes_refl li : pqf_inv li -> goes li li.
Proof. by split. Qed.

Lemma goes_trans a b c : goes a b -> goes b c -> goes a c.
Proof. intros [] []. split; [done|lia|auto|auto]. Qed.

Lemma run_lex_base li : pqf_base li -> run lex li (fun t li' =>
  goes li li' /\ query_look li' = t /\ (left_ li' <= length (query_ptr li))%nat).
Proof.
  intros Hi. unfold lex. eapply run_bind; [by apply run_token|].
  intros t li' (H1 & H2 & H3 & H4 & H5). apply run_modify, run_ret. pose proof Hi as [I1 I2 I3].
  assert (left_ (set_look t li') <= length (query_ptr li))%nat as Hleft.
  { unfold left_. cbn [query_ptr query_look set_look]. destruct (bool_decide (t = L_end)); [lia|].
    destruct H5 as [_ H5]. lia. }
  split; [|done]. split.
  - split; [split|]; cbn [query_buf query_ptr lex_buf lex_len query_look set_look]; [congruence|done| |].
    + intros b Eb. case_bool_decide.
      * destruct H5 as (E1 & E2 & _). rewrite E1 in Eb. rewrite E2. by apply I3.
      * destruct H5 as [(b' & Eb' & Ht) _]. congruence.
    + intros Ht. rewrite bool_decide_eq_false_2 in H5 by done. destruct H5 as [(b & -> & _) _]. done.
  - unfold left_ at 2. lia.
  - cbn [error set_look]. congruence.
  - cbn [lex_buf set_look]. case_bool_decide; [destruct H5 as (-> & _); done|destruct H5 as [(b & -> & _) _]; done].
Qed.

Lemma run_lex li : pqf_inv li -> run lex li (fun t li' =>
  goes li li' /\ query_look li' = t /\ (left_ li' <= length (query_ptr li))%nat).
Proof. intros []. by apply run_lex_base. Qed.

(** After a token, [lex] makes progress. *)
Lemma run_lex_next li : pqf_inv li -> query_look li <> L_end ->
  run lex li (fun t li' => goes li li' /\ query_look li' = t /\ (left_ li' < left_ li)%nat).
Proof.
  intros Hi Hl. eapply run_weaken; [by apply run_lex|]. intros t li' (H1 & H2 & H3). split; [done|]. split; [done|].
  unfold left_ at 2. rewrite bool_decide_eq_false_2 by done. lia.
Qed.

Lemma goes_set_error li e : pqf_inv li -> e <> 0 -> goes li (set_error e li).
Proof. intros [[] ?] He. by split; [split; [split|]|unfold left_|..]. Qed.

Lemma token_here li : pqf_inv li -> lex_buf li <> None -> exists b, lex_buf li = Some b /\ token_at b (lex_len li).
Proof. intros [[_ _ H] _] Hl. destruct (lex_buf li) as [b|]; [|done]. exists b. auto. Qed.

Lemma run_lexeme {B} (k : _ -> M _ B) li Q : pqf_inv li -> lex_buf li <> None ->
  (forall pre t post, s = pre ++ t ++ post -> lex_len li = zlen t -> run (k t) li Q) -> run (bind lexeme k) li Q.
Proof.
  intros Hi Hl H. destruct (token_here li Hi Hl) as (b & Eb & pre & t & post & E & Eb' & En).
  eapply (run_bind _ _ _ (fun t' li' => t' = t /\ li' = li)).
  - unfold lexeme. apply run_get. eapply run_lift; [exact Eb|]. exists t, li. split; [|done].
    unfold lift. rewrite Eb', En. by rewrite sub_all.
  - intros t' li' [-> ->]. by apply (H pre t post).
Qed.

Lemma run_getval li : pqf_inv li -> lex_buf li <> None -> run (query_oid_getvalbyname std) li (fun _ li' => li' = li).
Proof.
  intros Hi Hl. unfold query_oid_getvalbyname. apply run_get.
  destruct (Z.leb_spec 31 (lex_len li)); [by apply run_ret|].
  apply run_lexeme; [done|done|]. intros pre t post E En.
  destruct (Hnames pre t post E ltac:(lia)) as (r & Er). exists r, li. unfold lift. by rewrite Er.
Qed.

(** ** Terms and attributes *)

Lemma z_Term_create_total ty buf : exists t, z_Term_create ty buf = Some t.
Proof.
  unfold z_Term_create. repeat destruct (_ =? _); try by eexists.
  destruct (odr_atoi_total (buf ++ [0]) (cstr_at_any buf)) as (n & ->). by eexists.
Qed.

Lemma run_term al li : pqf_inv li -> lex_buf li <> None -> run (rpn_term_attributes al) li (fun apt li' => li' = li).
Proof.
  intros Hi Hl. unfold rpn_term_attributes. apply run_lexeme; [done|done|]. intros pre t post _ _.
  apply run_gets. destruct (z_Term_create_total (term_type li) (escape_string t)) as (tm & E).
  eapply run_lift; [exact E|]. by apply run_ret.
Qed.

(** A function that returns null has set an error. *)
Definition ends {A} (li : yaz_pqf_parser) (r : option A) (li' : yaz_pqf_parser) : Prop :=
  goes li li' /\ (r = None -> error li' <> 0).

Lemma run_fails_ends {A} e li li0 : pqf_inv li -> e <> 0 -> goes li0 li -> run (fails e) li (ends (A := A) li0).
Proof.
  intros Hi He Hg. apply run_fails. split; [|done]. eapply goes_trans; [exact Hg|by apply goes_set_error].
Qed.

Lemma ends_trans {A} a b (r : option A) c : goes a b -> ends b r c -> ends a r c.
Proof. intros H [H1 H2]. split; [by eapply goes_trans|done]. Qed.

(** Continue after a call that kept [goes]. *)
Lemma run_ends {A} (m : M _ (option A)) li0 li : goes li0 li -> run m li (ends li) -> run m li (ends li0).
Proof. intros Hg H. eapply run_weaken; [exact H|]. intros r li'. by apply ends_trans. Qed.

Lemma inv_lex li : pqf_inv li -> query_look li <> L_end -> lex_buf li <> None.
Proof. intros [_ H]. exact H. Qed.

Lemma run_simple attrs li : pqf_inv li -> query_look li = L_text \/ query_look li = L_set ->
  run (rpn_simple attrs) li (ends li).
Proof.
  intros Hi Hl. assert (lex_buf li <> None) as Hb by (apply inv_lex; [done|by destruct Hl as [->| ->]]).
  unfold rpn_simple. apply run_get. destruct Hl as [Hl|Hl]; rewrite Hl.
  - eapply run_bind; [by apply run_term|]. intros apt li' ->.
    eapply run_bind; [by apply run_lex|]. intros _ li' (Hg & _ & _). apply run_ret. by split.
  - eapply run_bind; [by apply run_lex|]. intros _ li1 (Hg & _ & _). apply run_get.
    case_bool_decide; [apply run_fails_ends; [apply Hg|done|done]|].
    apply run_lexeme; [apply Hg|by apply Hg|]. intros pre t post _ _.
    eapply run_bind; [by apply run_lex, Hg|]. intros _ li2 (Hg2 & _ & _). apply run_ret.
    split; [by eapply goes_trans|done].
Qed.

(** ** Proximity *)

Lemma run_lex_first {A} (k : Z -> list Z -> M _ (option A)) li0 li : goes li0 li ->
  (forall c b li', goes li0 li' -> cstr_at b -> run (k c b) li' (ends li0)) -> run (lex_first k) li (ends li0).
Proof.
  intros Hg Hk. unfold lex_first. eapply run_bind; [by apply run_lex, Hg|]. intros t li1 (Hg1 & Ht & _).
  pose proof (goes_trans _ _ _ Hg Hg1) as Hg2. case_bool_decide as Hend; [apply run_fails_ends; [apply Hg1|done|done]|].
  apply run_get. destruct (token_here li1) as (b & Eb & Hb); [apply Hg1|apply inv_lex; [apply Hg1|congruence]|].
  eapply run_lift; [exact Eb|]. apply token_cstr in Hb. destruct (cstr_at_cons b Hb) as (c & r & E & _).
  eapply run_lift; [by rewrite E|]. by apply Hk.
Qed.

Lemma run_lex_number {A} (k : Z -> M _ (option A)) li0 li : goes li0 li ->
  (forall n li', goes li0 li' -> run (k n) li' (ends li0)) -> run (lex_number k) li (ends li0).
Proof.
  intros Hg Hk. apply run_lex_first; [done|]. intros c b li' Hg' Hb.
  destruct (_ && _); [|apply run_fails_ends; [apply Hg'|done|done]].
  destruct (odr_atoi_total b Hb) as (n & E). eapply run_lift; [exact E|]. by apply Hk.
Qed.

(** The same, and something was read. *)
Definition ends_left {A} (li : yaz_pqf_parser) (r : option A) (li' : yaz_pqf_parser) : Prop :=
  ends li r li' /\ (left_ li' < left_ li)%nat.

Lemma ends_left_of {A} li li1 (r : option A) li2 : goes li li1 -> (left_ li1 < left_ li)%nat -> ends li1 r li2 -> ends_left li r li2.
Proof. intros H1 H2 H3. split; [by eapply ends_trans|]. destruct H3 as [[] _]. lia. Qed.

Lemma run_lex_first_left {A} (k : Z -> list Z -> M _ (option A)) li : pqf_inv li -> query_look li <> L_end ->
  (forall c b li', pqf_inv li' -> cstr_at b -> run (k c b) li' (ends li')) -> run (lex_first k) li (ends_left li).
Proof.
  intros Hi Hl Hk. unfold lex_first. eapply run_bind; [by apply run_lex_next|]. intros t li1 (Hg1 & Ht & Hlt).
  pose proof (go_inv _ _ Hg1) as Hi1.
  eapply run_weaken; [|intros r li'; apply (ends_left_of li li1); done].
  case_bool_decide as Hend; [by apply run_fails_ends; [| |apply goes_refl]|].
  apply run_get. destruct (token_here li1) as (b & Eb & Hb); [done|apply inv_lex; [done|congruence]|].
  eapply run_lift; [exact Eb|]. apply token_cstr in Hb. destruct (cstr_at_cons b Hb) as (c & r & E & _).
  eapply run_lift; [by rewrite E|]. by apply Hk.
Qed.

Lemma run_exclusion {A} c (k : option Z -> M _ (option A)) li0 li : goes li0 li ->
  (forall x, run (k x) li (ends li0)) -> run (prox_exclusion c k) li (ends li0).
Proof.
  intros Hg Hk. unfold prox_exclusion. destruct (c =? 49); [done|]. destruct (c =? 48); [done|].
  destruct (_ || _); [done|]. by apply run_fails_ends; [apply Hg|..].
Qed.
Lemma run_ordered {A} c (k : Z -> M _ (option A)) li0 li : goes li0 li ->
  (forall x, run (k x) li (ends li0)) -> run (prox_ordered c k) li (ends li0).
Proof.
  intros Hg Hk. unfold prox_ordered. destruct (c =? 49); [done|]. destruct (c =? 48); [done|].
  by apply run_fails_ends; [apply Hg|..].
Qed.

Lemma run_proximity li0 : pqf_inv li0 -> query_look li0 <> L_end -> run rpn_proximity li0 (ends_left li0).
Proof.
  intros Hi0 Hl0. unfold rpn_proximity. apply run_lex_first_left; [done|done|]. intros c b li Hi _.
  pose proof (goes_refl li Hi) as H0. apply run_exclusion; [done|]. intros ex.
  apply run_lex_number; [done|]. intros dist li2 H2. apply run_lex_first; [done|]. intros c2 b2 li3 H3 _.
  apply run_ordered; [done|]. intros ord. apply run_lex_number; [done|]. intros rel li4 H4.
  apply run_lex_first; [done|]. intros c5 b5 li5 H5 Hb.
  eapply (run_bind _ _ _ (fun _ li' => li' = li5)).
  { destruct (c5 =? 107); [by apply run_ret|]. destruct (c5 =? 112); [by apply run_ret|].
    unfold atoi. destruct (odr_atoi_total b5 Hb) as (n & ->). by eexists _, _. }
  intros which li' ->. destruct (_ && _); [by apply run_fails_ends; [apply H5|..]|].
  apply run_lex_number; [done|]. intros u li6 H6. apply run_ret. by split.
Qed.

(** ** Attributes *)

Lemma run_term_type li : pqf_inv li -> run rpn_term_type li (fun _ li' => goes li li').
Proof.
  intros Hi. unfold rpn_term_type. apply run_get. case_bool_decide as Hl; [by apply run_ret, goes_refl|].
  destruct (token_here li Hi (inv_lex li Hi Hl)) as (b & Eb & Hb).
  assert (forall ts, run (named_type ts) li (fun _ li' => goes li li')) as Hgo.
  { induction ts as [|[k t] ts IH]; [by apply run_ret, goes_refl|].
    eapply run_bind; [apply (run_compare k 0 li b Eb Hb); unfold zlen; lia|]. intros [] li' ->; [|exact IH].
    eexists tt, _. split; [reflexivity|]. destruct Hi as [[] ?]. by split; [split; [split|]|unfold left_|..]. }
  eapply run_bind; [apply Hgo|]. intros u li1 H1. eapply run_bind; [by apply run_lex, H1|].
  intros _ li2 (H2 & _). apply run_ret. exact (goes_trans _ _ _ H1 H2).
Qed.

Lemma run_parse_attr_at set_ p li li1 b1 : goes li li1 -> lex_buf li1 = Some b1 -> token_at b1 (lex_len li1) -> 0 <= p ->
  cstr_at (drop (Z.to_nat (p + 1)) b1) -> run (parse_attr_at set_ p) li1 (ends li).
Proof.
  intros Hg Eb1 Hb1 Hp Hd. unfold parse_attr_at. cbv zeta. apply run_get. eapply run_lift; [exact Eb1|].
  pose proof (token_cstr _ _ Hb1) as Hc1. destruct (cstr_at_cons b1 Hc1) as (c & r & E & _).
  eapply run_lift; [by rewrite E|]. destruct (negb _); [by apply run_fails_ends; [apply Hg|..]|].
  destruct (odr_atoi_total b1 Hc1) as (ty & Ety). eapply run_lift; [exact Ety|].
  eapply (run_bind _ _ _ (fun _ li' => li' = li1)).
  { destruct (Z.ltb_spec (p + 1) (lex_len li1)); [|by apply run_ret].
    destruct Hb1 as (pre & t & post & _ & -> & En).
    pose proof (zlen_nonneg (post ++ 0 :: rest)). rewrite sub_spec by (try rewrite (zlen_app t); lia). by eexists _, _. }
  intros v li' ->. destruct (forallb yaz_isdigit v); [|apply run_ret; by split].
  destruct (odr_atoi_total _ Hd) as (n & En). eapply run_lift; [exact En|]. apply run_ret. by split.
Qed.

Lemma run_parse_attr attrs li : pqf_inv li -> query_look li <> L_end -> run (p_query_parse_attr std attrs) li (ends li).
Proof.
  intros Hi Hl. unfold p_query_parse_attr. apply run_get.
  destruct (token_here li Hi (inv_lex li Hi Hl)) as (b & Eb & Hb). eapply run_lift; [exact Eb|].
  pose proof (token_cstr _ _ Hb) as Hcb. destruct (find_char_total 61 b ltac:(lia) Hcb) as (cp & Ecp & Hcp).
  eapply run_lift; [exact Ecp|]. cbv zeta.
  set (named := let* o := query_oid_getvalbyname std in
    match o with
    | None => fails YAZ_PQF_ERROR_ATTSET
    | Some o =>
        let* t := lex in
        if bool_decide (t = L_end) then fails YAZ_PQF_ERROR_MISSING
        else
          let* li := get in
          let* b := lift (lex_buf li) in
          let* cp := lift (find_char 61 b) in
          match cp with
          | None => fails YAZ_PQF_ERROR_BADATTR
          | Some cp => parse_attr_at (Some o) cp
          end
    end).
  assert (run named li (ends li)) as Hnamed.
  { unfold named. eapply run_bind; [by apply run_getval; [|apply inv_lex]|]. intros [o|] li' ->.
    2: { apply run_fails_ends; [done|done|by apply goes_refl]. }
    eapply run_bind; [by apply run_lex|]. intros t li1 (Hg & Ht & _).
    case_bool_decide as He; [by apply run_fails_ends; [apply Hg|..]|]. apply run_get.
    destruct (token_here li1) as (b1 & Eb1 & Hb1); [apply Hg|apply inv_lex; [apply Hg|congruence]|].
    eapply run_lift; [exact Eb1|]. pose proof (token_cstr _ _ Hb1) as Hc1.
    destruct (find_char_total 61 b1 ltac:(lia) Hc1) as (cp1 & Ecp1 & Hcp1). eapply run_lift; [exact Ecp1|].
    destruct cp1 as [p|]; [|by apply run_fails_ends; [apply Hg|..]].
    destruct (Hcp1 p eq_refl). by eapply (run_parse_attr_at _ _ li). }
  destruct cp as [p|]; [|exact Hnamed].
  destruct (lex_len li <? p); [exact Hnamed|]. destruct (Hcp p eq_refl). eapply (run_parse_attr_at _ _ li); eauto using goes_refl.
Qed.

(** ** Structures *)

(** Every part of the structure was filled in. *)
Fixpoint complete (z : Z_RPNStructure) : Prop :=
  match z with
  | RPN_simple _ => True
  | RPN_complex s1 s2 _ => complete s1 /\ complete s2
  | RPN_unset => False
  end.

(** A structure that is not complete is left at an attribute set, where the parser
    does not go on. *)
Definition built (li : yaz_pqf_parser) (r : option Z_RPNStructure) (li' : yaz_pqf_parser) : Prop :=
  ends li r li' /\ (forall z, r = Some z -> complete z \/ query_look li' = L_attrset) /\
  (query_look li = L_attrset -> li' = li).

Lemma run_complex rpn attrs li :
  (forall li', pqf_inv li' -> (left_ li' < left_ li)%nat -> run (rpn attrs) li' (built li')) ->
  pqf_inv li -> query_look li = L_and \/ query_look li = L_or \/ query_look li = L_not \/ query_look li = L_prox ->
  run (rpn_complex rpn attrs) li (fun r li' => ends li r li' /\
    forall s1 s2 op, r = Some (s1, s2, op) -> complete s1 /\ complete s2 \/ query_look li' = L_attrset).
Proof.
  intros Hrpn Hi Hl. assert (query_look li <> L_end) as Hne by (intros E; rewrite E in Hl; intuition discriminate).
  unfold rpn_complex. apply run_get.
  eapply (run_bind _ _ _ (fun op li1 => ends li op li1 /\ (left_ li1 <= left_ li)%nat /\ (query_look li1 <> L_end \/ (left_ li1 < left_ li)%nat))).
  { destruct Hl as [El|[El|[El|El]]]; rewrite El;
      [apply run_ret; (split; [split; [by apply goes_refl|done]|split; [lia|by left]])..|].
    eapply run_bind; [by apply run_proximity|]. intros p li1 [He Hlt].
    destruct He as [Hg Her].
    destruct p as [p|]; apply run_ret; (split; [split; [done|]|split; [lia|by right]]); [done|intros _; by apply Her]. }
  intros op li1 ([Hg1 Her1] & Hle & Hprog). destruct op as [op|]; [|apply run_ret; split; [split; [done|intros _; by apply Her1]|done]].
  eapply run_bind; [by apply run_lex, Hg1|]. intros t li2 (Hg2 & _ & Hlen).
  assert (left_ li2 < left_ li)%nat as Hlt2.
  { destruct Hprog as [Hp|Hp]; [|destruct Hg2; lia]. unfold left_ at 2 in Hle. rewrite bool_decide_eq_false_2 in Hle by done.
    unfold left_ at 2. rewrite bool_decide_eq_false_2 by done. unfold left_ in Hle at 1.
    rewrite bool_decide_eq_false_2 in Hle by done. lia. }
  pose proof (goes_trans _ _ _ Hg1 Hg2) as Hg.
  eapply run_bind; [apply Hrpn; [apply Hg|done]|]. intros z1 li3 (He3 & Hz1 & _).
  pose proof (ends_trans _ _ _ _ Hg He3) as [Hg3 Her3].
  destruct z1 as [z1|]; [|apply run_ret; split; [split; [done|intros _; by apply Her3]|done]].
  assert (left_ li3 < left_ li)%nat as Hlt3 by (destruct He3 as [[] _]; lia).
  eapply run_bind; [apply Hrpn; [apply Hg3|done]|]. intros z2 li4 (He4 & Hz2 & Hsame).
  pose proof (ends_trans _ _ _ _ Hg3 He4) as [Hg4 Her4].
  destruct z2 as [z2|]; [|apply run_ret; split; [split; [done|intros _; by apply Her4]|done]].
  apply run_ret. split; [by split|].
  { intros s1 s2 op' [= <- <- <-]. destruct (Hz1 z1 eq_refl) as [Hc1|Ha]; [|right; by rewrite (Hsame Ha)].
    destruct (Hz2 z2 eq_refl); auto. }
Qed.

Lemma run_structure fuel : forall attrs li, pqf_inv li -> (left_ li < fuel)%nat ->
  run (rpn_structure std fuel attrs) li (built li).
Proof.
  induction fuel as [|fuel IH]; intros attrs li Hi Hf; [lia|]. cbn [rpn_structure]. apply run_get.
  assert (forall li1, goes li li1 -> (left_ li1 < left_ li)%nat -> forall attrs',
    query_look li <> L_attrset -> run (rpn_structure std fuel attrs') li1 (built li)) as Hrec.
  { intros li1 Hg Hlt attrs' Hna. eapply run_weaken; [apply IH; [apply Hg|lia]|].
    intros r li2 (He & Hz & _). split; [by eapply ends_trans|done]. }
  assert (forall e li1, goes li li1 -> query_look li <> L_attrset -> e <> 0 -> run (fails e) li1 (built li)) as Hfail.
  { intros e li1 Hg Hna He. apply run_fails. split; [|done]. split; [|done].
    eapply goes_trans; [exact Hg|]. apply goes_set_error; [apply Hg|done]. }
  assert (forall op, query_look li = op -> (op = L_and \/ op = L_or \/ op = L_not \/ op = L_prox) ->
    run (let* r := rpn_complex (rpn_structure std fuel) attrs in
         match r with
         | Some (s1, s2, op) => ret (Some (RPN_complex s1 s2 op))
         | None => ret None
         end) li (built li)) as Hcomplex.
  { intros op Hop Ho. eapply run_bind.
    { apply run_complex; [|done|by rewrite Hop]. intros li' Hi' Hlt. apply IH; [done|lia]. }
    intros r li1 (He & Hz). assert (query_look li <> L_attrset) by (rewrite Hop; intros ->; intuition discriminate).
    destruct He as [Hg Her].
    destruct r as [[[z1 z2] op']|]; apply run_ret; (split; [split; [done|]|split; [|done]]); try done; [|intros _; by apply Her].
    - intros z [= <-]. by apply (Hz z1 z2 op'). }
  assert (forall t, query_look li = t -> t = L_text \/ t = L_set ->
    run (let* r := rpn_simple attrs in
         match r with Some o => ret (Some (RPN_simple o)) | None => ret None end) li (built li)) as Hsimple.
  { intros t Ht Ho. eapply run_bind; [apply run_simple; [done|by rewrite Ht]|]. intros r li1 He.
    assert (query_look li <> L_attrset) by (rewrite Ht; intros ->; intuition discriminate).
    destruct He as [Hg Her].
    destruct r as [o|]; apply run_ret; (split; [split; [done|]|split; [|done]]); try done; [|intros _; by apply Her].
    intros z [= <-]. by left. }
  destruct (query_look li) eqn:El; try (by apply (Hcomplex _ eq_refl); auto); try (by apply (Hsimple _ eq_refl); auto).
  - apply Hfail; [by apply goes_refl|done|done].
  - assert (query_look li <> L_end) as Hne by congruence.
    eapply run_bind; [by apply run_lex_next|]. intros t li1 (Hg1 & Ht & Hlt). apply run_get.
    case_bool_decide as Hend; [by apply Hfail|]. destruct (max_attr <=? zlen attrs); [by apply Hfail|].
    eapply run_bind; [by apply run_parse_attr; [apply Hg1|]|]. intros a li2 [Hg2 Her2].
    pose proof (goes_trans _ _ _ Hg1 Hg2) as Hg12.
    destruct a as [a|]; [|apply run_ret; split; [split; [done|intros _; by apply Her2]|split; [done|congruence]]].
    eapply run_bind; [by apply run_lex, Hg2|]. intros t2 li3 (Hg3 & _). apply Hrec; [by eapply goes_trans| |done].
    destruct Hg2, Hg3; lia.
  - by apply run_ret; split; [split; [apply goes_refl|]|split; [right|]].
  - assert (query_look li <> L_end) as Hne by congruence.
    eapply run_bind; [by apply run_lex_next|]. intros t li1 (Hg1 & Ht & Hlt).
    eapply run_bind; [by apply run_term_type, Hg1|]. intros u li2 Hg2. cbv beta in Hg2.
    apply Hrec; [by eapply goes_trans| |done]. destruct Hg2; lia.
Qed.

Lemma run_top_set li : pqf_base li -> (exists o, odr_oiddup_nmem (Some bib_1) = Some o /\ o <> None) ->
  run (top_set std bib_1) li (fun r li' => ends li r li' /\ (left_ li' <= length (query_ptr li))%nat).
Proof.
  intros Hi (o & Eo & Ho). unfold top_set. eapply run_bind; [by apply run_lex_base|]. intros t li1 (Hg1 & _ & Hl1). apply run_get.
  case_bool_decide as Ha.
  - eapply run_bind; [by apply run_lex_next; [apply Hg1|congruence]|]. intros t2 li2 (Hg2 & _ & Hl2).
    pose proof (goes_trans _ _ _ Hg1 Hg2) as Hg12.
    eapply run_bind; [apply run_getval; [apply Hg2|apply (go_lex _ _ Hg2), inv_lex; [apply Hg1|congruence]]|]. intros o' li' ->.
    destruct o' as [o'|].
    + eapply run_bind; [by apply run_lex, Hg2|]. intros t3 li3 (Hg3 & _). apply run_ret.
      split; [split; [by eapply goes_trans|done]|]. destruct Hg3; lia.
    + apply run_fails. split; [split; [|done]|].
      * eapply goes_trans; [exact Hg12|]. apply goes_set_error; [apply Hg2|done].
      * change (left_ (set_error YAZ_PQF_ERROR_ATTSET li2)) with (left_ li2). lia.
  - exists o, li1. unfold lift. rewrite Eo. split; [done|]. split; [|done]. by split.
Qed.

Lemma run_rpn_mk li : pqf_base li -> (exists o, odr_oiddup_nmem (Some bib_1) = Some o /\ o <> None) ->
  run (p_query_rpn_mk std bib_1) li (fun r li' => ends li r li' /\ forall q, r = Some q -> complete (RPNStructure q)).
Proof.
  intros Hi Hbib. unfold p_query_rpn_mk. apply run_get. cbv zeta.
  eapply run_bind; [by apply run_top_set|]. intros o li1 ([Hg1 Her1] & Hl).
  destruct o as [o|]; [|apply run_ret; split; [split; [done|intros _; by apply Her1]|done]].
  eapply run_bind; [apply run_structure; [apply Hg1|lia]|]. intros z li2 ([Hg2 Her2] & Hz & _).
  pose proof (goes_trans _ _ _ Hg1 Hg2) as Hg.
  destruct z as [z|]; [|apply run_ret; split; [split; [done|intros _; by apply Her2]|done]].
  apply run_get. case_bool_decide as Hend.
  - apply run_ret. split; [by split|]. intros q [= <-]. destruct (Hz z eq_refl); [done|congruence].
  - apply run_fails. split; [split; [|done]|done]. eapply goes_trans; [exact Hg|]. apply goes_set_error; [apply Hg2|done].
Qed.

Lemma here_offset q : here q -> 0 <= zlen (s ++ 0 :: rest) - zlen q <= zlen s.
Proof.
  clear Hs Hnames. intros (pre & t & -> & ->). rewrite !zlen_app. pose proof (zlen_nonneg pre). pose proof (zlen_nonneg t). lia.
Qed.
End safe.

(** ** Property *)

(** C2: [yaz_pqf_parse] of any C string whose names can be looked up returns: the
    parser ends, reads nothing after the terminator, and either builds a tree of
    which every part is filled in, or returns null with an error; the offset that
    [yaz_pqf_error] tells is inside the query. *)
Theorem pqf_parse_safe (std : yaz_oid_db) (arcs s rest : list Z) (p : yaz_pqf_parser) :
  nonzero s -> arcs_ok arcs ->
  (forall pre n post, s = pre ++ n ++ post -> zlen n < 31 ->
    exists r, yaz_string_to_oid_odr std CLASS_ATTSET (n ++ [0]) (repeat 0 20) = Some r) ->
  exists r p', yaz_pqf_parse std (arcs ++ [-1]) (s ++ 0 :: rest) p = Some (r, p') /\
    (forall q, r = Some q -> complete (RPNStructure q)) /\
    (r = None -> (yaz_pqf_error p').1.1 <> 0) /\
    0 <= (yaz_pqf_error p').2 <= zlen s.
Proof.
  intros Hs Ha Hn.
  set (li := Li (s ++ 0 :: rest) (s ++ 0 :: rest) None (lex_len p) (query_look p) (term_type p) (error p)).
  assert (pqf_base s rest li) as Hi by (split; [done|by exists [], s|done]).
  assert (exists o, odr_oiddup_nmem (Some (arcs ++ [-1])) = Some o /\ o <> None) as Hbib.
  { destruct (oid_copied arcs [] Ha) as (n & E1 & E2). unfold odr_oiddup_nmem. rewrite E1. cbn [mbind option_bind].
    rewrite E2. by eexists. }
  destruct (run_rpn_mk s rest Hs std (arcs ++ [-1]) Hn li Hi Hbib) as (r & p' & E & [[Hg He] Hc]).
  exists r, p'. split; [exact E|]. split; [done|]. split; [exact He|].
  destruct Hg as [[[Eb Hp _] _] _ _ _]. unfold yaz_pqf_error. cbn [snd]. rewrite Eb. by apply here_offset.
Qed.

(** The names in a query, that is all its short substrings, can be looked up. *)
Definition names_okb (std : yaz_oid_db) (s : list Z) : bool :=
  forallb (fun j => forallb (fun k =>
    match yaz_string_to_oid_odr std CLASS_ATTSET (take k (drop j s) ++ [0]) (repeat 0 20) with
    | Some _ => true
    | None => false
    end) (seq 0 31)) (seq 0 (S (length s))).

Lemma names_okb_ok std s : names_okb std s = true ->
  forall pre n post, s = pre ++ n ++ post -> zlen n < 31 ->
    exists r, yaz_string_to_oid_odr std CLASS_ATTSET (n ++ [0]) (repeat 0 20) = Some r.
Proof.
  unfold names_okb. rewrite forallb_forall. intros H pre n post -> Hn.
  specialize (H (length pre)). rewrite forallb_forall in H. specialize (H ltac:(apply in_seq; rewrite length_app; lia) (length n)).
  rewrite drop_app_length, take_app_length in H.
  specialize (H ltac:(apply in_seq; unfold zlen in Hn; lia)). destruct (yaz_string_to_oid_odr _ _ _ _); [by eexists|done].
Qed.

Definition sample_query : list Z := str "@and @attr Bib-1 1=4 {a b} @attr 1=x c".

Lemma pqf_parse_safe_witness :
  exists r p', yaz_pqf_parse sample_db [1; 2; 840; 10003; 3; 1; -1] (sample_query ++ [0]) yaz_pqf_create = Some (r, p') /\
    (forall q, r = Some q -> complete (RPNStructure q)) /\
    (r = None -> (yaz_pqf_error p').1.1 <> 0) /\
    0 <= (yaz_pqf_error p').2 <= zlen sample_query.
Proof.
  apply (pqf_parse_safe sample_db [1; 2; 840; 10003; 3; 1] sample_query [] yaz_pqf_create).
  - unfold nonzero. by repeat constructor.
  - repeat constructor; lia.
  - apply names_okb_ok. vm_compute. reflexivity.
Defined.
