(* ===== verification/PqfText.v ===== *)
(** * Queries survive printing and parsing (querytowrbuf.c, pquery.c)

    What [yaz_rpnquery_to_wrbuf] writes, [yaz_pqf_parse] reads back, up to the
    order of the attributes of each term, which the parser reverses. *)

From stdpp Require Import base list numbers option strings.
From Stdlib Require Import ZArith Lia.
From S2P Require Import Prelude Text MatchStr OidUtil OidDb Wrbuf Rpn Pqf.

(** ** Texts *)

(** A term is written plain, or in quotes. *)
Definition plain_term (t : list Z) : bool := (0 <? zlen t) && negb (existsb (strchr [32; 34; 123]) t).
Definition escaped (special : Z -> bool) (t : list Z) : list Z :=
  concat (map (fun c => if special c then [92; c] else [c]) t).
Definition is_backslash (c : Z) : bool := c =? 92.
Definition is_quote (c : Z) : bool := (c =? 34) || (c =? 92).

Definition starts_at (t : list Z) : bool := match t with c :: _ => c =? 64 | [] => false end.

Definition term_text (t : list Z) : list Z :=
  if plain_term t then (if starts_at t then [92] else []) ++ escaped is_backslash t
  else 34 :: escaped is_quote t ++ [34].

Section texts.
Context (std : yaz_oid_db).

Definition oid_name (o : list Z) : list Z :=
  match yaz_oid_to_string_buf std o with
  | Some (m, _) => removelast m
  | None => []
  end.

Definition value_text (v : Z_AttributeValue) : list Z :=
  match v with
  | AV_numeric n => fmt_d n
  | AV_complex [SN_string m] _ => removelast m
  | AV_complex _ _ => []
  end.

Definition set_text (o : option (list Z)) : list Z :=
  match o with Some o => oid_name o ++ [32] | None => [] end.

Definition attr_text (e : Z_AttributeElement) : list Z :=
  str "@attr " ++ set_text (attributeSet e) ++ fmt_d (attributeType e) ++ [61] ++ value_text (value e) ++ [32].

Definition attrs_text (es : list Z_AttributeElement) : list Z := concat (map attr_text es).

Definition zterm_text (t : Z_Term) : list Z :=
  match t with
  | Term_general bs => term_text bs
  | Term_characterString m => str "@term string " ++ term_text (removelast m)
  | Term_numeric n => str "@term numeric " ++ fmt_d n
  | _ => []
  end.

Definition operand_text (o : Z_Operand) : list Z :=
  match o with
  | Operand_APT apt => attrs_text (default [] (attributes apt)) ++ zterm_text (term apt)
  | Operand_resultSetId m => str "@set " ++ term_text (removelast m)
  | Operand_resultAttr _ _ => []
  end.

Definition excl_text (x : option Z) : list Z :=
  match x with None => [110] | Some x => if x =? 0 then [48] else [49] end.
Definition prox_text (p : Z_ProximityOperator) : list Z :=
  excl_text (exclusion p) ++ [32] ++ fmt_d (distance p) ++ [32] ++ fmt_d (ordered p) ++ [32] ++
  fmt_d (relationType p) ++ [32] ++ [if prox_which p =? Z_ProximityOperator_known then 107 else 112] ++ [32] ++
  fmt_d (default 0 (known p)) ++ [32].

Definition op_text (op : Z_Operator) : list Z :=
  [64] ++ complex_op_name op ++ [32] ++ match op with Op_prox p => prox_text p | _ => [] end.

Fixpoint rpn_text (z : Z_RPNStructure) : list Z :=
  match z with
  | RPN_simple o => operand_text o
  | RPN_complex s1 s2 op => op_text op ++ rpn_text s1 ++ [32] ++ rpn_text s2
  | RPN_unset => []
  end.

(** ** Queries that can be written *)

(** A character of a word, which is not quoted. *)
Definition word_char (c : Z) : Prop := byte_ok c /\ c <> 0 /\ c <> 32 /\ c <> 92.

Definition name_ok (n : list Z) : Prop :=
  Forall word_char n /\ ~ In 61 n /\ zlen n < 31 /\
  exists c r, n = c :: r /\ c <> 123 /\ c <> 34 /\ c <> 64.

(** The name of the identifier is found, and found again by the name. *)
Definition set_ok (o : list Z) : Prop :=
  (exists cl, yaz_oid_to_string_buf std o = Some (oid_name o ++ [0], cl)) /\ name_ok (oid_name o) /\
  yaz_string_to_oid_odr std CLASS_ATTSET (oid_name o ++ [0]) (repeat 0 20) = Some (Some o).

Definition value_ok (v : Z_AttributeValue) : Prop :=
  match v with
  | AV_numeric n => 0 <= n < 2 ^ 63
  | AV_complex l sa => sa = [] /\ exists s, l = [SN_string (s ++ [0])] /\
      Forall word_char s /\ forallb yaz_isdigit s = false
  end.

Definition elem_ok (e : Z_AttributeElement) : Prop :=
  0 <= attributeType e < 2 ^ 63 /\ value_ok (value e) /\
  match attributeSet e with Some o => set_ok o | None => True end.

(** An attribute without a set takes the set of the one before it. *)
Fixpoint sets_ok (prev : bool) (es : list Z_AttributeElement) : Prop :=
  match es with
  | [] => True
  | e :: es =>
      (prev = true -> attributeSet e <> None) /\
      sets_ok (match attributeSet e with Some _ => true | None => false end) es
  end.

Definition attrs_ok (es : list Z_AttributeElement) : Prop :=
  Forall elem_ok es /\ sets_ok false es /\ NoDup (map attributeType es) /\ zlen es <= max_attr.

(** In quotes, ['@'] before a digit is taken for an attribute all the same. *)
Definition term_ok (t : list Z) : Prop :=
  bytes_ok t /\ nonzero t /\
  (plain_term t = false -> match t with c0 :: c1 :: _ => c0 = 64 -> yaz_isdigit c1 = false | _ => True end).

(** The terms of a query are all general, or all of them say their type: a
    general term after another one is written without its type. *)
Definition zterm_ok (typed : bool) (t : Z_Term) : Prop :=
  match t with
  | Term_general bs => typed = false /\ term_ok bs
  | Term_characterString m => typed = true /\ exists s, m = s ++ [0] /\ term_ok s
  | Term_numeric n => typed = true /\ - 2 ^ 63 <= n < 2 ^ 63
  | _ => False
  end.

(** The name of a result set is not unescaped by the parser. *)
Definition result_ok (s : list Z) : Prop :=
  term_ok s /\ ~ In 92 s /\ ~ In 34 s /\ starts_at s = false.

Definition operand_ok (typed : bool) (o : Z_Operand) : Prop :=
  match o with
  | Operand_APT apt => (exists es, attributes apt = Some es /\ attrs_ok es) /\ zterm_ok typed (term apt)
  | Operand_resultSetId m => exists s, m = s ++ [0] /\ result_ok s
  | Operand_resultAttr _ _ => False
  end.

Definition prox_ok (p : Z_ProximityOperator) : Prop :=
  (exclusion p = None \/ exclusion p = Some 0 \/ exclusion p = Some 1) /\
  0 <= distance p < 2 ^ 63 /\ (ordered p = 0 \/ ordered p = 1) /\ 0 <= relationType p < 2 ^ 63 /\
  (prox_which p = Z_ProximityOperator_known \/ prox_which p = Z_ProximityOperator_private) /\
  exists k, known p = Some k /\ 0 <= k < 2 ^ 63.

Fixpoint rpn_ok (typed : bool) (z : Z_RPNStructure) : Prop :=
  match z with
  | RPN_simple o => operand_ok typed o
  | RPN_complex s1 s2 op => rpn_ok typed s1 /\ rpn_ok typed s2 /\ match op with Op_prox p => prox_ok p | _ => True end
  | RPN_unset => False
  end.
End texts.

(** The attributes of every term in the other order. *)
Fixpoint mirror (z : Z_RPNStructure) : Z_RPNStructure :=
  match z with
  | RPN_simple (Operand_APT apt) => RPN_simple (Operand_APT (APT (option_map (@rev _) (attributes apt)) (term apt)))
  | RPN_simple o => RPN_simple o
  | RPN_complex s1 s2 op => RPN_complex (mirror s1) (mirror s2) op
  | RPN_unset => RPN_unset
  end.

Lemma mirror_twice z : mirror (mirror z) = z.
Proof.
  induction z as [[[al t]| |]|z1 IH1 z2 IH2 op|]; cbn [mirror attributes term]; try congruence.
  destruct al as [es|]; cbn [option_map]; by rewrite ?rev_involutive.
Qed.

(** ** Printing *)

Lemma appends_printf_text t : nonzero t -> zlen t <= 4094 -> appends (wrbuf_printf t) t.
Proof.
  intros Hn Hl. unfold wrbuf_printf. rewrite take_ge by (unfold zlen in Hl; lia). by apply appends_lit.
Qed.

Lemma appends_escaped (special : Z -> bool) t : bytes_ok t ->
  appends (each_octet (fun c => (if special c then wrbuf_putc 92 else ret tt) ;; wrbuf_putc c) t) (escaped special t).
Proof.
  intros Hb. unfold escaped. apply appends_each. intros c Hc. unfold bytes_ok in Hb. rewrite List.Forall_forall in Hb.
  destruct (special c).
  - apply (appends_bind _ _ [92]); [apply appends_putc|]. intros _. apply appends_putc_byte, Hb, Hc.
  - apply (appends_bind _ _ []); [apply appends_ret|]. intros _. apply appends_putc_byte, Hb, Hc.
Qed.

Lemma appends_term t rest : bytes_ok t -> appends (yaz_encode_pqf_term (t ++ rest) (zlen t)) (term_text t ++ [32]).
Proof.
  intros Hb. unfold yaz_encode_pqf_term. eapply appends_lift; [apply sub_all|].
  apply appends_bind; [|intros _; apply appends_putc]. unfold term_text. fold (plain_term t). destruct (plain_term t).
  - apply appends_bind; [|intros _; by apply (appends_escaped is_backslash)].
    destruct t as [|c t]; [apply appends_ret|]. unfold starts_at.
    destruct (c =? 64); [apply appends_putc|apply appends_ret].
  - apply (appends_bind _ _ [34]); [apply appends_putc|]. intros _.
    apply appends_bind; [by apply (appends_escaped is_quote)|]. intros _. apply appends_putc.
Qed.

Lemma fmt_d_nat n : 0 <= n <= 2 ^ 63 ->
  digits_ok (fmt_d n) /\ fmt_d n <> [] /\ dec_val 0 (fmt_d n) = n /\ zlen (fmt_d n) <= 19.
Proof.
  intros Hn. assert (2 ^ 63 < 10 ^ Z.of_nat 19) by done.
  destruct (fmt_d_spec n 19) as (H1 & H2 & H3 & H4); [lia|lia|]. split; [done|]. split; [done|]. split; [done|].
  unfold zlen. lia.
Qed.

Lemma fmt_d_neg n : n < 0 -> fmt_d n = 45 :: fmt_d (- n).
Proof. intros H. unfold fmt_d. rewrite (proj2 (Z.ltb_lt n 0)), (proj2 (Z.ltb_ge (- n) 0)) by lia. done. Qed.

Lemma fmt_d_any n : - 2 ^ 63 <= n < 2 ^ 63 -> nonzero (fmt_d n) /\ zlen (fmt_d n) <= 20.
Proof.
  intros Hn. destruct (Z.ltb_spec n 0) as [H0|H0].
  - rewrite (fmt_d_neg n) in * by lia.
    destruct (fmt_d_nat (- n)) as (H1 & _ & _ & H2); [lia|].
    split; [constructor; [done|by apply digits_nonzero]|]. rewrite zlen_cons. lia.
  - destruct (fmt_d_nat n) as (H1 & _ & _ & H2); [lia|]. split; [by apply digits_nonzero|lia].
Qed.

Lemma appends_fmt_d n : - 2 ^ 63 <= n < 2 ^ 63 -> appends (wrbuf_printf (fmt_d n)) (fmt_d n).
Proof. intros H. destruct (fmt_d_any n H). apply appends_printf_text; [done|lia]. Qed.

Lemma word_nonzero s : Forall word_char s -> nonzero s.
Proof. intros H. eapply Forall_impl; [exact H|]. intros c (_ & Hc & _). done. Qed.

Lemma nonzero_lit s : forallb (fun c => negb (c =? 0)) s = true -> nonzero s.
Proof.
  intros Hs. unfold nonzero. rewrite forallb_forall in Hs.
  apply List.Forall_forall. intros c Hc. by apply Z.eqb_neq, negb_true_iff, Hs.
Qed.
Ltac nz := repeat (apply Forall_app; split); first [done|apply nonzero_lit; reflexivity].

(** A literal. *)
Lemma appends_str s : forallb (fun c => negb (c =? 0)) s = true -> appends (wrbuf_lit s) s.
Proof. intros Hs. by apply appends_lit, nonzero_lit. Qed.

Section printing.
Context (std : yaz_oid_db).

Lemma appends_set o : match o with Some o => set_ok std o | None => True end ->
  appends (match o with
   | Some o =>
       let* (setname, _) := lift (yaz_oid_to_string_buf std o) in
       wrbuf_puts setname ;;
       wrbuf_lit (str " ")
   | None => ret tt
   end) (set_text std o).
Proof.
  destruct o as [o|]; [|intros _; apply appends_ret]. intros ((cl & E) & (Hw & _) & _).
  eapply appends_lift; [exact E|]. cbv beta iota. unfold set_text.
  apply appends_bind; [by apply appends_puts, word_nonzero|]. intros _. by apply appends_str.
Qed.

Lemma appends_value v : value_ok v ->
  appends (match v with
   | AV_numeric n => wrbuf_printf (fmt_d n)
   | AV_complex l _ => complex_list_to_wrbuf true l
   end) (value_text v).
Proof.
  destruct v as [n|l sa]; cbn [value_ok value_text]; [intros H; apply appends_fmt_d; lia|].
  intros (-> & s & -> & Hw & _). rewrite removelast_last. cbn [complex_list_to_wrbuf].
  apply (appends_bind _ _ []); [apply appends_ret|]. intros _. rewrite <- (app_nil_r s) at 2.
  apply appends_bind; [by apply appends_puts, word_nonzero|]. intros _. apply appends_ret.
Qed.

Lemma appends_attr e : elem_ok std e -> appends (yaz_attribute_element_to_wrbuf std e) (attr_text std e).
Proof.
  intros (Ht & Hv & Hset). unfold yaz_attribute_element_to_wrbuf, attr_text.
  apply appends_bind; [by apply appends_str|]. intros _.
  apply appends_bind; [by apply appends_set|]. intros _.
  rewrite app_assoc. apply appends_bind.
  - destruct (fmt_d_any (attributeType e)) as [H1 H2]; [lia|].
    apply appends_printf_text; [nz|]. zl.
  - intros _. apply appends_bind; [by apply appends_value|]. intros _. by apply appends_str.
Qed.

Lemma appends_attrs es : Forall (elem_ok std) es -> appends (yaz_attributes_to_wrbuf std es) (attrs_text std es).
Proof.
  induction 1 as [|e es He _ IH]; [apply appends_ret|]. unfold attrs_text. cbn [map concat yaz_attributes_to_wrbuf].
  apply appends_bind; [by apply appends_attr|]. intros _. exact IH.
Qed.

Lemma appends_operand typed o : operand_ok std typed o ->
  appends (yaz_rpnstructure_to_wrbuf std (RPN_simple o)) (operand_text std o ++ [32]).
Proof.
  destruct o as [[al t]|m|]; cbn [operand_ok yaz_rpnstructure_to_wrbuf operand_text attributes term]; [| |done].
  - intros [(es & -> & Hes & _) Ht]. unfold yaz_apt_to_wrbuf. cbn [attributes term default]. rewrite <- app_assoc.
    eapply appends_lift; [reflexivity|].
    apply appends_bind; [by apply appends_attrs|]. intros _.
    destruct t as [bs|n|m| |]; cbn [zterm_ok zterm_text] in *; [| | |done|done].
    + destruct Ht as [_ Ht]. pose proof (appends_term bs []) as H. rewrite app_nil_r in H. apply H, Ht.
    + destruct Ht as [_ Ht]. destruct (fmt_d_any n Ht) as [H1 H2]. rewrite <- app_assoc.
      apply appends_printf_text; [nz|].
      rewrite !zlen_app. change (zlen (str "@term numeric ")) with 14. zl.
    + destruct Ht as (_ & s & -> & Ht). rewrite removelast_last, <- app_assoc.
      apply appends_bind; [by apply appends_str|]. intros _.
      eapply appends_lift; [apply strlen_spec, Ht|]. apply appends_term, Ht.
  - intros (s & -> & Hr). rewrite removelast_last, <- app_assoc.
    apply appends_bind; [apply appends_printf_text; [nz|unfold zlen; simpl; lia]|]. intros _.
    eapply appends_lift; [apply strlen_spec, Hr|]. apply appends_term, Hr.
Qed.

Lemma appends_prox p : prox_ok p -> appends (prox_to_wrbuf p) (prox_text p).
Proof.
  intros (Hx & Hd & Ho & Hr & Hw & k & Ek & Hk). unfold prox_to_wrbuf, prox_text. rewrite Ek. cbn [default].
  destruct (fmt_d_any (distance p)) as [D1 D2]; [lia|]. destruct (fmt_d_any (ordered p)) as [O1 O2]; [lia|].
  destruct (fmt_d_any (relationType p)) as [R1 R2]; [lia|]. destruct (fmt_d_any k) as [K1 K2]; [lia|].
  apply (appends_eq _ (excl_text (exclusion p) ++ ([32] ++ fmt_d (distance p) ++ [32] ++ fmt_d (ordered p) ++ [32] ++
    fmt_d (relationType p) ++ [32]) ++ [if prox_which p =? Z_ProximityOperator_known then 107 else 112] ++
    ([32] ++ fmt_d k ++ [32]))); [by rewrite <- !app_assoc|].
  apply appends_bind.
  { destruct Hx as [->|[->| ->]]; cbn [excl_text Z.eqb negb]; apply appends_putc. }
  intros _. apply appends_bind.
  { apply appends_printf_text; [nz|].
    zl. }
  intros _. apply appends_bind.
  { destruct Hw as [->| ->]; cbn [Z.eqb Pos.eqb]; apply appends_putc. }
  intros _. apply appends_printf_text; [nz|].
  zl.
Qed.

Lemma appends_op op : match op with Op_prox p => prox_ok p | _ => True end ->
  appends (wrbuf_printf (str "@" ++ complex_op_name op ++ str " ") ;;
    (match op with Op_prox p => prox_to_wrbuf p | _ => ret tt end)) (op_text op).
Proof.
  intros Hop. unfold op_text. rewrite !app_assoc. apply appends_bind.
  - rewrite <- !app_assoc. destruct op; (apply appends_printf_text; [nz|unfold zlen; simpl; lia]).
  - intros _. destruct op; [apply appends_ret..|by apply appends_prox].
Qed.

Lemma appends_rpn typed z : rpn_ok std typed z -> appends (yaz_rpnstructure_to_wrbuf std z) (rpn_text std z ++ [32]).
Proof.
  induction z as [o|z1 IH1 z2 IH2 op|]; cbn [rpn_ok rpn_text]; [by apply appends_operand| |done].
  intros (H1 & H2 & Hop). cbn [yaz_rpnstructure_to_wrbuf]. rewrite <- !app_assoc.
  intros b Hb.
  assert (appends ((wrbuf_printf (str "@" ++ complex_op_name op ++ str " ") ;;
      (match op with Op_prox p => prox_to_wrbuf p | _ => ret tt end)) ;;
      yaz_rpnstructure_to_wrbuf std z1 ;; yaz_rpnstructure_to_wrbuf std z2)
    (op_text op ++ (rpn_text std z1 ++ [32]) ++ rpn_text std z2 ++ [32])) as H.
  { apply appends_bind; [by apply appends_op|]. intros _.
    apply appends_bind; [by apply IH1|]. intros _. by apply IH2. }
  destruct (H b Hb) as (a & b' & E & Hb' & Hc). exists a, b'. rewrite <- app_assoc in Hc. split; [|done]. rewrite <- E.
  unfold bind. by destruct (wrbuf_printf _ b) as [[? ?]|].
Qed.

(** The whole query; the blank after the last term is removed. *)
Definition query_text (o : list Z) (z : Z_RPNStructure) : list Z :=
  str "@attrset " ++ oid_name std o ++ [32] ++ rpn_text std z.
End printing.

(** ** Tokens *)

(** What may follow a token that is not quoted: a blank or the end. *)
Definition stop (rest : list Z) : Prop := exists c r, rest = c :: r /\ (c = 0 \/ c = 32).

(** A token without its separator; a backslash protects the next character. *)
Inductive closed (sep : Z) : list Z -> Prop :=
  | closed_nil : closed sep []
  | closed_char c w : c <> 0 -> c <> sep -> c <> 92 -> closed sep w -> closed sep (c :: w)
  | closed_escape c w : c <> 0 -> closed sep w -> closed sep (92 :: c :: w).

Lemma token_end_closed sep w c r : sep <> 92 -> closed sep w -> c = 0 \/ c = sep -> forall n,
  token_end sep (w ++ c :: r) n = Some (n + zlen w, c :: r).
Proof.
  intros Hsep Hw Hc. assert (((c =? 0) || (c =? sep)) = true) as Ht by (apply orb_true_iff; rewrite !Z.eqb_eq; lia).
  induction Hw as [|x w H0 H1 H2 _ IH|x w H0 _ IH]; intros n; cbn [app token_end].
  - rewrite Ht. by rewrite zlen_nil, Z.add_0_r.
  - rewrite (proj2 (Z.eqb_neq x 0)), (proj2 (Z.eqb_neq x sep)), (proj2 (Z.eqb_neq x 92)) by done. cbn [orb].
    rewrite IH, zlen_cons. do 2 f_equal. lia.
  - rewrite (proj2 (Z.eqb_neq 92 sep)) by lia. cbn [orb Z.eqb Pos.eqb]. rewrite (proj2 (Z.eqb_neq x 0)) by done.
    rewrite IH, !zlen_cons. do 2 f_equal. lia.
Qed.

(** The parser after a token. *)
Definition after_token (ptr b : list Z) (n : Z) (t : look) (li : yaz_pqf_parser) : yaz_pqf_parser :=
  Li (query_buf li) ptr (Some b) n t (term_type li) (error li).

(** The separator is passed over. *)
Definition past (rest : list Z) : list Z :=
  match rest with c :: r => if c =? 0 then rest else r | [] => [] end.

(** The same text up to blanks in front. *)
Definition at_text (li : yaz_pqf_parser) (q : list Z) : Prop := skip_spaces (query_ptr li) = skip_spaces q.

Lemma skip_past rest : stop rest -> skip_spaces (past rest) = skip_spaces rest.
Proof. intros (c & r & -> & [->| ->]); done. Qed.

Lemma skip_head c q : c <> 32 -> skip_spaces (c :: q) = Some (c :: q).
Proof. intros Hc. cbn [skip_spaces]. by rewrite (proj2 (Z.eqb_neq c 32)). Qed.

Lemma lex_of_token li ptr b n t :
  query_token li = Some (t, after_token ptr b n (query_look li) li) -> lex li = Some (t, after_token ptr b n t li).
Proof. intros E. unfold lex. by rewrite (bind_Some _ _ _ _ _ E). Qed.

(** The start of a token. *)
Lemma token_start li c q : at_text li (c :: q) -> c <> 0 -> c <> 32 ->
  query_token li =
    (let '(sep, q) := if c =? 123 then (125, q) else if c =? 34 then (34, q) else (32, c :: q) in
    let* c := lift (rd q 0) in
    let* digit := if c =? 64 then let* c1 := lift (rd q 1) in ret (yaz_isdigit c1) else ret false in
    if digit : bool then
      modify (fun li => set_ptr (drop 1 q) (set_lexeme q 1 li)) ;;
      ret L_attr
    else
      let* (n, q') := lift (token_end sep q 0) in
      let* c' := lift (rd q' 0) in
      modify (fun li => set_ptr (if c' =? 0 then q' else drop 1 q') (set_lexeme q n li)) ;;
      if (sep =? 32) && (1 <=? n) && (c =? 64) then keyword keywords
      else ret L_text) (set_ptr (c :: q) li).
Proof.
  intros Ha H0 H32. unfold at_text in Ha. rewrite skip_head in Ha by done.
  unfold query_token. mrun. rewrite Ha. mrun.
  rewrite rd_0. mrun. rewrite (proj2 (Z.eqb_neq c 0)) by done. done.
Qed.

(** A word. *)
Lemma lex_word li c w rest : at_text li (c :: w ++ rest) -> stop rest ->
  c <> 0 -> c <> 32 -> c <> 123 -> c <> 34 -> c <> 64 -> closed 32 (c :: w) ->
  lex li = Some (L_text, after_token (past rest) (c :: w ++ rest) (zlen (c :: w)) L_text li).
Proof.
  intros Ha (c' & r & -> & Hs) H0 H32 H123 H34 H64 Hw. apply lex_of_token. rewrite (token_start _ _ _ Ha H0 H32).
  rewrite (proj2 (Z.eqb_neq c 123)), (proj2 (Z.eqb_neq c 34)) by done. rewrite rd_0. mrun.
  rewrite (proj2 (Z.eqb_neq c 64)) by done. mrun.
  pose proof (token_end_closed 32 (c :: w) c' r ltac:(lia) Hw ltac:(lia) 0) as E. cbn [app] in E. rewrite E. mrun.
  rewrite rd_0. mrun. rewrite andb_false_r. done.
Qed.

(** A quoted token. *)
Lemma lex_quoted li w rest : at_text li (34 :: w ++ 34 :: rest) -> closed 34 w ->
  (match w with c0 :: c1 :: _ => c0 = 64 -> yaz_isdigit c1 = false | _ => True end) ->
  lex li = Some (L_text, after_token rest (w ++ 34 :: rest) (zlen w) L_text li).
Proof.
  intros Ha Hw Hd. apply lex_of_token. rewrite (token_start _ _ _ Ha) by done. cbn [Z.eqb Pos.eqb].
  pose proof (token_end_closed 34 w 34 rest ltac:(lia) Hw ltac:(lia) 0) as E.
  assert (exists c r, w ++ 34 :: rest = c :: r) as (c & r & Ec) by (destruct w; by eexists _, _).
  rewrite Ec. rewrite rd_0. mrun.
  rewrite (bind_Some _ _ _ false (set_ptr (34 :: c :: r) li)).
  2: { destruct (Z.eqb_spec c 64) as [->|]; [|done]. destruct w as [|c0 [|c1 w]]; [done|by injection Ec as -> <-|].
       injection Ec as -> <-. cbn [app]. change (rd (64 :: c1 :: w ++ 34 :: rest) 1) with (Some c1).
       unfold bind, lift, ret. by rewrite Hd. }
  rewrite <- Ec, E. mrun. rewrite rd_0. mrun.
  done.
Qed.

(** A keyword. *)
Lemma lex_keyword li k t rest : at_text li (64 :: k ++ rest) -> stop rest -> In (k, t) keywords ->
  lex li = Some (t, after_token (past rest) (64 :: k ++ rest) (zlen k + 1) t li).
Proof.
  intros Ha (c' & r & -> & Hs) Hk. apply lex_of_token. rewrite (token_start _ _ _ Ha) by done. cbn [Z.eqb Pos.eqb].
  assert (closed 32 (64 :: k)) as Hc.
  { repeat destruct Hk as [[= <- <-]|Hk]; [repeat (constructor; [done..|])..|done]; constructor. }
  pose proof (token_end_closed 32 (64 :: k) c' r ltac:(lia) Hc ltac:(lia) 0) as E. cbn [app] in E.
  rewrite rd_0. mrun.
  rewrite (bind_Some _ _ _ false (set_ptr (64 :: k ++ c' :: r) li)).
  2: { repeat destruct Hk as [[= <- <-]|Hk]; [reflexivity..|done]. }
  rewrite E. mrun. rewrite rd_0. mrun.
  replace (set_ptr _ (set_lexeme _ _ _)) with
    (after_token (past (c' :: r)) (64 :: k ++ c' :: r) (zlen k + 1) (query_look li) li)
    by (rewrite Z.add_0_l, zlen_cons, Z.add_comm; done).
  repeat destruct Hk as [[= <- <-]|Hk]; [reflexivity..|done].
Qed.

(** ** Terms *)

(** A character whose escape is itself. *)
Definition self_escape (c : Z) : Prop :=
  c <> 116 /\ c <> 110 /\ c <> 114 /\ c <> 102 /\ c <> 120 /\ ~ 48 <= c <= 51.

Lemma escape_self c r : self_escape c -> escape_string (92 :: c :: r) = c :: escape_string r.
Proof.
  intros (H1 & H2 & H3 & H4 & H5 & H6). cbn [escape_string Z.eqb Pos.eqb].
  rewrite (proj2 (Z.eqb_neq c 116)), (proj2 (Z.eqb_neq c 110)), (proj2 (Z.eqb_neq c 114)), (proj2 (Z.eqb_neq c 102)),
    (proj2 (Z.eqb_neq c 120)) by done.
  destruct (Z.leb_spec 48 c); [|done]. by rewrite (proj2 (Z.leb_gt c 51)) by lia.
Qed.

Lemma escape_other c r : c <> 92 -> escape_string (c :: r) = c :: escape_string r.
Proof. intros Hc. cbn [escape_string]. by rewrite (proj2 (Z.eqb_neq c 92)). Qed.

Lemma escaped_back special t : special 92 = true -> (forall c, special c = true -> self_escape c) ->
  escape_string (escaped special t) = t.
Proof.
  intros H92 Hsp. unfold escaped. induction t as [|c t IH]; [done|]. cbn [map concat]. destruct (special c) eqn:Ec.
  - cbn [app]. rewrite escape_self by auto. by rewrite IH.
  - cbn [app]. rewrite escape_other by congruence. by rewrite IH.
Qed.

Lemma escaped_closed special sep t : special 92 = true -> nonzero t ->
  (forall c, In c t -> c = sep -> special c = true) -> closed sep (escaped special t).
Proof.
  intros H92 Hn Hs. unfold escaped. induction Hn as [|c t Hc Hn IH]; [constructor|]. cbn [map concat].
  specialize (IH (fun x Hx => Hs x (or_intror Hx))). destruct (special c) eqn:Ec.
  - by constructor.
  - constructor; [done| |congruence|done]. intros ->. rewrite (Hs sep (or_introl eq_refl) eq_refl) in Ec. done.
Qed.

Lemma backslash_self c : is_backslash c = true -> self_escape c.
Proof. unfold is_backslash, self_escape. lia. Qed.
Lemma quote_self c : is_quote c = true -> self_escape c.
Proof. unfold is_quote, self_escape. lia. Qed.

Lemma plain_chars t : plain_term t = true -> t <> [] /\ forall c, In c t -> c <> 32 /\ c <> 34 /\ c <> 123.
Proof.
  unfold plain_term. rewrite andb_true_iff, Z.ltb_lt, negb_true_iff. intros [Hl He]. split; [by intros ->|].
  intros c Hc. assert (strchr [32; 34; 123] c = false) as H.
  { destruct (strchr [32; 34; 123] c) eqn:E; [|done]. assert (existsb (strchr [32; 34; 123]) t = true) as Ht
      by (apply existsb_exists; by exists c). congruence. }
  unfold strchr in H. cbn [existsb app] in H. rewrite !orb_false_iff, !Z.eqb_neq in H. intuition.
Qed.

(** The word of a plain term. *)
Lemma plain_word t : term_ok t -> plain_term t = true -> exists c w,
  term_text t = c :: w /\ c <> 0 /\ c <> 32 /\ c <> 123 /\ c <> 34 /\ c <> 64 /\
  closed 32 (c :: w) /\ escape_string (c :: w) = t.
Proof.
  intros (Hb & Hn & _) Hp. destruct (plain_chars t Hp) as [Hne Hc]. unfold term_text. rewrite Hp.
  destruct t as [|c t]; [done|]. apply Forall_cons_1 in Hn as [H0 Hn]. destruct (Hc c (or_introl eq_refl)) as (C1 & C2 & C3).
  assert (closed 32 (escaped is_backslash t)) as Hcl.
  { apply escaped_closed; [done|done|]. intros x Hx ->. by destruct (Hc 32 (or_intror Hx)). }
  pose proof (escaped_back is_backslash t eq_refl backslash_self) as Hback.
  unfold starts_at. destruct (Z.eqb_spec c 64) as [->|H64].
  - exists 92, (64 :: escaped is_backslash t). unfold escaped at 1. cbn [map concat is_backslash Z.eqb Pos.eqb app].
    split; [done|]. do 5 (split; [done|]). split; [by constructor|]. rewrite escape_self by (unfold self_escape; lia).
    by rewrite Hback.
  - destruct (Z.eqb_spec c 92) as [->|H92].
    + exists 92, (92 :: escaped is_backslash t). unfold escaped at 1. cbn [map concat is_backslash Z.eqb Pos.eqb app].
      split; [done|]. do 5 (split; [done|]). split; [by constructor|]. rewrite escape_self by (unfold self_escape; lia).
      by rewrite Hback.
    + exists c, (escaped is_backslash t). unfold escaped at 1. cbn [map concat].
      replace (is_backslash c) with false by (unfold is_backslash; lia). cbn [app].
      split; [done|]. do 5 (split; [done|]). split; [by constructor|]. rewrite escape_other by done. by rewrite Hback.
Qed.

(** A term is read as one token, which stands for it. *)
Lemma lex_term li t rest : term_ok t -> at_text li (term_text t ++ rest) -> stop rest -> exists w tl ptr,
  lex li = Some (L_text, after_token ptr (w ++ tl) (zlen w) L_text li) /\ escape_string w = t /\
  skip_spaces ptr = skip_spaces rest.
Proof.
  intros Ht Ha Hs. destruct (plain_term t) eqn:Hp.
  - destruct (plain_word t Ht Hp) as (c & w & E & H0 & H32 & H123 & H34 & H64 & Hc & He). rewrite E in Ha.
    exists (c :: w), rest, (past rest). split; [by apply lex_word|]. split; [done|by apply skip_past].
  - destruct Ht as (Hb & Hn & Hd). specialize (Hd Hp). unfold term_text in Ha. rewrite Hp in Ha. cbn [app] in Ha.
    rewrite <- app_assoc in Ha. exists (escaped is_quote t), (34 :: rest), rest.
    split; [|split; [by apply escaped_back, quote_self|done]]. apply lex_quoted; [done| |].
    + apply escaped_closed; [done|done|]. by intros c _ ->.
    + destruct t as [|c0 [|c1 t]]; [done| |]; unfold escaped; cbn [map concat]; destruct (is_quote c0) eqn:E0; cbn [app];
        try done; destruct (is_quote c1); cbn [app]; [done|exact Hd].
Qed.
