(* ===== verification/PqfRound.v ===== *)
(** * The round trip of queries (querytowrbuf.c, pquery.c)

    The parser on the texts of PqfText, from the tokens to whole queries. *)

From stdpp Require Import base list numbers option strings.
From Stdlib Require Import ZArith Lia.
From S2P Require Import Prelude Text MatchStr OidUtil OidDb Wrbuf Rpn Pqf PqfText.

(** ** Words and numbers *)

Lemma digits_closed ds : digits_ok ds -> closed 32 ds.
Proof. induction 1; constructor; auto; lia. Qed.

Lemma digits_head d ds : digits_ok (d :: ds) -> 48 <= d <= 57.
Proof. by inversion 1. Qed.

Lemma word_closed w : Forall word_char w -> closed 32 w.
Proof. induction 1 as [|c w (_ & H0 & H1 & H2)]; by constructor. Qed.

Lemma closed_app sep w1 w2 : closed sep w1 -> closed sep w2 -> closed sep (w1 ++ w2).
Proof. induction 1; intros Hw; cbn [app]; [done|apply closed_char; auto|apply closed_escape; auto]. Qed.

Lemma escape_none w : ~ In 92 w -> escape_string w = w.
Proof.
  induction w as [|c w IH]; [done|]. intros Hn. rewrite escape_other by (intros ->; apply Hn; by left).
  by rewrite IH by (intros H; apply Hn; by right).
Qed.

Lemma digits_no92 ds : digits_ok ds -> ~ In 92 ds.
Proof. unfold digits_ok. rewrite List.Forall_forall. intros H H92%H. lia. Qed.

Lemma run_digits_spec ds : digits_ok ds -> forall c r v, yaz_isdigit c = false ->
  run_digits (ds ++ c :: r) v = Some (dec_val v ds).
Proof.
  induction 1 as [|d ds Hd _ IH]; intros c r v Hc; cbn [app run_digits]; [by rewrite Hc|].
  replace (yaz_isdigit d) with true by (unfold yaz_isdigit; lia). by rewrite IH.
Qed.

(** The number that was written. *)
Lemma odr_atoi_fmt n c r : - 2 ^ 63 <= n < 2 ^ 63 -> yaz_isdigit c = false -> odr_atoi (fmt_d n ++ c :: r) = Some n.
Proof.
  intros Hn Hc. unfold odr_atoi. destruct (Z.ltb_spec n 0) as [H0|H0].
  - rewrite (fmt_d_neg n) in * by lia.
    destruct (fmt_d_nat (- n)) as (H1 & _ & H2 & _); [lia|]. cbn [app skip_white].
    change (c_blank 45) with false. cbv iota. cbn [mbind option_bind]. rewrite rd_0. cbn [mbind option_bind].
    change (drop 1 (45 :: fmt_d (- n) ++ c :: r)) with (fmt_d (- n) ++ c :: r). cbn [Z.eqb Pos.eqb orb].
    rewrite run_digits_spec by done. cbn [mbind option_bind]. rewrite H2. f_equal. lia.
  - destruct (fmt_d_nat n) as (H1 & H2 & H3 & _); [lia|]. destruct (fmt_d n) as [|d ds] eqn:E; [done|].
    assert (48 <= d <= 57) as Hd by apply (digits_head d ds H1).
    cbn [app skip_white]. replace (c_blank d) with false by (unfold c_blank; lia). cbv iota.
    cbn [mbind option_bind]. rewrite rd_0. cbn [mbind option_bind].
    rewrite (proj2 (Z.eqb_neq d 43)), (proj2 (Z.eqb_neq d 45)) by lia. cbn [orb].
    change (d :: ds ++ c :: r) with ((d :: ds) ++ c :: r). rewrite run_digits_spec by done.
    cbn [mbind option_bind]. rewrite H3. f_equal. lia.
Qed.

Lemma stop_not_digit rest : stop rest -> exists c r, rest = c :: r /\ yaz_isdigit c = false.
Proof. intros (c & r & -> & [->| ->]); by eexists _, _. Qed.

(** A token that starts with a digit. *)
Lemma lex_digits li n w rest : 0 <= n < 2 ^ 63 -> closed 32 w -> at_text li (fmt_d n ++ w ++ rest) -> stop rest ->
  lex li = Some (L_text, after_token (past rest) (fmt_d n ++ w ++ rest) (zlen (fmt_d n ++ w)) L_text li) /\
  exists c r, fmt_d n ++ w ++ rest = c :: r /\ 48 <= c <= 57.
Proof.
  intros Hn Hw Ha Hs. destruct (fmt_d_nat n) as (H1 & H2 & _); [lia|]. pose proof (digits_closed _ H1) as Hc.
  destruct (fmt_d n) as [|d ds] eqn:E; [done|]. assert (48 <= d <= 57) as Hd by apply (digits_head d ds H1).
  split; [|by eexists _, _]. cbn [app] in *. rewrite (app_assoc ds) in Ha |- *.
  apply lex_word; [done|done|lia|lia|lia|lia|lia|]. change (closed 32 ((d :: ds) ++ w)). by apply closed_app.
Qed.

(** ** Running the parser *)

(** [lex] has been called by the one before, and the text of the rest comes next. *)
Definition ready (typed : bool) (li li' : yaz_pqf_parser) (q : list Z) : Prop :=
  at_text li' q /\ query_buf li' = query_buf li /\ error li' = error li /\
  (typed = false -> term_type li = Z_Term_general -> term_type li' = Z_Term_general).

Lemma ready_trans typed l1 l2 l3 q2 q3 : ready typed l1 l2 q2 -> ready typed l2 l3 q3 -> ready typed l1 l3 q3.
Proof. intros (_ & B1 & E1 & T1) (A2 & B2 & E2 & T2). split; [done|]. split_and!; [congruence|congruence|auto]. Qed.

Lemma ready_token typed li ptr b n t q : skip_spaces ptr = skip_spaces q -> ready typed li (after_token ptr b n t li) q.
Proof. intros H. by split_and!. Qed.

Lemma bind_cong {A B} (m1 m2 : PQF A) (k : A -> PQF B) l1 l2 : m1 l1 = m2 l2 -> bind m1 k l1 = bind m2 k l2.
Proof. intros E. unfold bind. by rewrite E. Qed.

(** ** Attributes *)

Definition attr_of (e : Z_AttributeElement) : attr :=
  match value e with
  | AV_complex [SN_string m] _ => Attr (attributeType e) 0 (Some m) (attributeSet e)
  | AV_numeric n => Attr (attributeType e) n None (attributeSet e)
  | _ => Attr (attributeType e) 0 None (attributeSet e)
  end.

Lemma attr_of_back std e : elem_ok std e -> at_element (attr_of e) = e.
Proof.
  intros (_ & Hv & _). destruct e as [set_ ty [n|l sa]]; [done|]. destruct Hv as (-> & s & -> & _). done.
Qed.

Lemma attr_of_type e : at_type (attr_of e) = attributeType e.
Proof. by destruct e as [? ? [?|[|[] []] ?]]. Qed.
Lemma attr_of_set e : at_set (attr_of e) = attributeSet e.
Proof. by destruct e as [? ? [?|[|[] []] ?]]. Qed.

(** The parser keeps the attributes of a term as they are, and in reverse. *)
Lemma get_attributeList_of std es : Forall (elem_ok std) es -> NoDup (map attributeType es) ->
  get_attributeList (map attr_of es) = rev es.
Proof.
  induction 1 as [|e es He _ IH]; [done|]. intros [Hn Hd]%NoDup_cons. cbn [map get_attributeList rev].
  rewrite IH by done. f_equal. rewrite (attr_of_back std) by done. destruct (existsb _ _) eqn:E; [|done]. exfalso.
  apply existsb_exists in E as (b & Hb & E). apply in_map_iff in Hb as (e' & <- & He').
  rewrite !attr_of_type in E. apply Z.eqb_eq in E. apply Hn. rewrite <- E. by apply list_elem_of_In, in_map.
Qed.

Lemma fmt_d_notin n c : 0 <= n < 2 ^ 63 -> c < 48 \/ 57 < c -> ~ In c (fmt_d n).
Proof.
  intros Hn Hc Hin. destruct (fmt_d_nat n) as (H1 & _); [lia|]. unfold digits_ok in H1. rewrite List.Forall_forall in H1.
  specialize (H1 _ Hin). lia.
Qed.

Lemma value_word v : value_ok v -> Forall word_char (value_text v).
Proof.
  destruct v as [n|l sa]; cbn [value_ok value_text].
  - intros Hn. destruct (fmt_d_nat n) as (H1 & _); [lia|]. eapply Forall_impl; [exact H1|]. intros d Hd.
    cbv beta in Hd. unfold word_char, byte_ok. lia.
  - intros (-> & s & -> & Hs & _). by rewrite removelast_last.
Qed.

Lemma digits_all ds : digits_ok ds -> forallb yaz_isdigit ds = true.
Proof. induction 1 as [|d ds Hd _ IH]; [done|]. cbn [forallb]. rewrite IH. unfold yaz_isdigit. lia. Qed.

Lemma word_no92 w : Forall word_char w -> ~ In 92 w.
Proof. rewrite List.Forall_forall. intros H H92%H. by destruct H92 as (_ & _ & _ & ?). Qed.

Lemma parse_attr_value ty v set_ ptr rest t li : 0 <= ty < 2 ^ 63 -> value_ok v -> stop rest ->
  let l := after_token ptr (fmt_d ty ++ (61 :: value_text v) ++ rest) (zlen (fmt_d ty ++ 61 :: value_text v)) t li in
  parse_attr_at set_ (zlen (fmt_d ty)) l = Some (Some (attr_of (Element set_ ty v)), l).
Proof.
  intros Hty Hv Hs l. unfold parse_attr_at. mrun. unfold l at 1. cbn [lex_buf after_token]. mrun.
  destruct (fmt_d_nat ty) as (H1 & H2 & _); [lia|].
  assert (exists d r, fmt_d ty ++ (61 :: value_text v) ++ rest = d :: r /\ 48 <= d <= 57) as (d & r & E & Hd).
  { destruct (fmt_d ty) as [|d ds]; [done|]. by eexists _, _; split; [|apply (digits_head d ds)]. }
  rewrite E at 1. rewrite rd_0. mrun. replace (negb _) with false by lia.
  cbn [app]. rewrite odr_atoi_fmt by (done || lia). mrun. unfold l at 1 2. cbn [lex_len after_token].
  replace (sub _ (zlen (fmt_d ty) + 1) _) with (Some (value_text v)).
  2: { rewrite (app_assoc (fmt_d ty) [61] _ : fmt_d ty ++ 61 :: value_text v ++ rest = _). symmetry.
       replace (zlen (fmt_d ty) + 1) with (zlen (fmt_d ty ++ [61])) by zl.
       replace (_ - _) with (zlen (value_text v)) by zl. apply sub_mid. }
  rewrite (bind_Some _ _ _ (value_text v) l).
  2: { destruct (Z.ltb_spec (zlen (fmt_d ty) + 1) (zlen (fmt_d ty ++ 61 :: value_text v))) as [_|H]; [done|].
       replace (value_text v) with (@nil Z); [done|]. rewrite zlen_app, zlen_cons in H. symmetry. apply length_zero_iff_nil.
       unfold zlen in H. lia. }
  destruct (stop_not_digit _ Hs) as (c & r' & -> & Hc). destruct v as [n|al sa]; cbn [value_ok value_text] in *.
  - rewrite digits_all by (apply fmt_d_nat; lia).
    replace (drop _ _) with (fmt_d n ++ c :: r').
    2: { symmetry. rewrite (app_assoc (fmt_d ty) [61] _ : fmt_d ty ++ 61 :: fmt_d n ++ c :: r' = _).
         apply drop_app_length'. rewrite length_app. unfold zlen. simpl. lia. }
    rewrite odr_atoi_fmt by (done || lia). mrun. done.
  - destruct Hv as (-> & s & -> & Hw & Hnd). rewrite removelast_last. rewrite Hnd.
    by rewrite escape_none by by apply word_no92.
Qed.

Lemma stop_blank q : stop (32 :: q).
Proof. exists 32, q. auto. Qed.

Lemma fmt_closed_value v : value_ok v -> closed 32 (61 :: value_text v).
Proof. intros Hv. constructor; [lia..|]. by apply word_closed, value_word. Qed.

Definition last_set (acc : list attr) : option (list Z) :=
  match list.last acc with Some a => at_set a | None => None end.

Section parsing.
Context (std : yaz_oid_db).

(** The type and value are a token of their own. *)
Lemma lex_type_value li ty v q : 0 <= ty < 2 ^ 63 -> value_ok v -> at_text li (fmt_d ty ++ [61] ++ value_text v ++ [32] ++ q) ->
  lex li = Some (L_text, after_token q (fmt_d ty ++ (61 :: value_text v) ++ 32 :: q) (zlen (fmt_d ty ++ 61 :: value_text v)) L_text li) /\
  find_char 61 (fmt_d ty ++ (61 :: value_text v) ++ 32 :: q) = Some (Some (zlen (fmt_d ty))).
Proof.
  intros Hty Hv Ha. split.
  - destruct (lex_digits li ty (61 :: value_text v) (32 :: q)) as [E _]; [done|by apply fmt_closed_value|done|apply stop_blank|].
    exact E.
  - cbn [app]. apply find_char_at; apply fmt_d_notin; lia.
Qed.

Lemma parse_attr_plain li acc ty v q : 0 <= ty < 2 ^ 63 -> value_ok v -> last_set acc = None ->
  at_text li (fmt_d ty ++ [61] ++ value_text v ++ [32] ++ q) -> exists l2,
  lex li = Some (L_text, l2) /\ query_look l2 = L_text /\
  p_query_parse_attr std acc l2 = Some (Some (attr_of (Element None ty v)), l2) /\ forall typed, ready typed li l2 q.
Proof.
  intros Hty Hv Hl Ha. destruct (lex_type_value li ty v q Hty Hv Ha) as [E Ef]. eexists. split; [exact E|]. split; [done|].
  split; [|intros typed; by apply ready_token]. unfold p_query_parse_attr. mrun. cbn [lex_buf after_token lex_len]. mrun.
  rewrite Ef. mrun. rewrite (proj2 (Z.ltb_ge _ _)) by (pose proof (zlen_nonneg (61 :: value_text v)); zl).
  fold (last_set acc). rewrite Hl. by apply parse_attr_value; [..|apply stop_blank].
Qed.

(** The name of an attribute set is a token that stands for it. *)
Lemma lex_name li o q : set_ok std o -> at_text li (oid_name std o ++ 32 :: q) ->
  let l := after_token q (oid_name std o ++ 32 :: q) (zlen (oid_name std o)) L_text li in
  lex li = Some (L_text, l) /\ query_oid_getvalbyname std l = Some (Some o, l).
Proof.
  intros (_ & (Hw & _ & Hlen & c & n & En & N1 & N2 & N3) & Eo) Ha l. pose proof (word_closed _ Hw) as Hcl. split.
  - unfold l. rewrite En in *. apply Forall_cons_1 in Hw as [(_ & ? & ? & _) _]. apply (lex_word li c n (32 :: q)); try done.
    apply stop_blank.
  - unfold query_oid_getvalbyname. mrun. cbn [lex_len l after_token]. rewrite (proj2 (Z.leb_gt 31 _)) by lia.
    rewrite (bind_Some _ _ _ (oid_name std o) l); [by rewrite Eo|]. unfold lexeme. mrun. cbn [lex_buf l after_token lex_len].
    mrun. by rewrite sub_all.
Qed.

Lemma parse_attr_named li acc o ty v q : 0 <= ty < 2 ^ 63 -> value_ok v -> set_ok std o ->
  at_text li (oid_name std o ++ [32] ++ fmt_d ty ++ [61] ++ value_text v ++ [32] ++ q) -> exists l2 l3,
  lex li = Some (L_text, l2) /\ query_look l2 = L_text /\
  p_query_parse_attr std acc l2 = Some (Some (attr_of (Element (Some o) ty v)), l3) /\ forall typed, ready typed li l3 q.
Proof.
  intros Hty Hv Ho Ha. set (tl := fmt_d ty ++ [61] ++ value_text v ++ [32] ++ q) in *.
  destruct (lex_name li o tl Ho Ha) as [E1 Eg]. destruct Ho as (_ & (Hw & H61 & _) & _).
  set (l2 := after_token tl _ _ _ li) in *.
  destruct (lex_type_value l2 ty v q Hty Hv eq_refl) as [E2 Ef2]. set (l3 := after_token q _ _ _ l2) in E2.
  exists l2, l3. split; [done|]. split; [done|]. split; [|intros typed; by split_and!].
  assert (find_char 61 (oid_name std o ++ 32 :: tl) = Some (Some (zlen (oid_name std o) + 1 + zlen (fmt_d ty)))) as Ef.
  { unfold tl. replace (oid_name std o ++ _) with ((oid_name std o ++ [32] ++ fmt_d ty) ++ 61 :: value_text v ++ [32] ++ q)
      by (by rewrite <- !app_assoc).
    rewrite find_char_at; [do 2 f_equal; zl|rewrite !in_app_iff..].
    - intros [?|[[?|[]]|?]]; [done|done|]. eapply fmt_d_notin; [| |done]; lia.
    - intros [H|[[?|[]]|?]]; [|done|eapply fmt_d_notin; [| |done]; lia].
      rewrite List.Forall_forall in Hw. by destruct (Hw _ H) as (_ & ? & _). }
  unfold p_query_parse_attr. mrun. cbn [lex_buf l2 after_token lex_len]. mrun. rewrite Ef. mrun.
  rewrite (proj2 (Z.ltb_lt _ _)) by (pose proof (zlen_nonneg (fmt_d ty)); lia). fold l2.
  rewrite (bind_Some _ _ _ _ _ Eg), (bind_Some _ _ _ _ _ E2). rewrite bool_decide_eq_false_2 by done. mrun.
  cbn [lex_buf l3 after_token]. mrun. rewrite Ef2. mrun. by apply parse_attr_value; [..|apply stop_blank].
Qed.

Lemma attr_step typed li acc fuel e q : elem_ok std e -> (attributeSet e = None -> last_set acc = None) ->
  zlen acc < max_attr -> at_text li (attr_text std e ++ q) -> exists li',
  (lex ;; rpn_structure std (S fuel) acc) li = (lex ;; rpn_structure std fuel (acc ++ [attr_of e])) li' /\
  ready typed li li' q.
Proof.
  intros (Hty & Hv & Hset) Hl Hlen Ha. destruct e as [set_ ty v]. cbn [attributeSet attributeType value] in *.
  set (tl := set_text std set_ ++ fmt_d ty ++ [61] ++ value_text v ++ [32] ++ q).
  assert (attr_text std (Element set_ ty v) ++ q = 64 :: str "attr" ++ 32 :: tl) as E.
  { unfold attr_text, tl. cbn [attributeSet attributeType value]. by rewrite <- !app_assoc. }
  rewrite E in Ha. pose proof (lex_keyword li (str "attr") L_attr (32 :: tl) Ha (stop_blank _) ltac:(simpl; tauto)) as E1.
  set (l1 := after_token _ _ _ _ li) in E1.
  assert (exists l2 l3, lex l1 = Some (L_text, l2) /\ query_look l2 = L_text /\
    p_query_parse_attr std acc l2 = Some (Some (attr_of (Element set_ ty v)), l3) /\ ready typed l1 l3 q)
    as (l2 & l3 & E2 & Hq & E3 & Hr).
  { destruct set_ as [o|].
    - destruct (parse_attr_named l1 acc o ty v q) as (l2 & l3 & ? & ? & ? & ?); [done..| |by exists l2, l3].
      unfold at_text, l1, tl. cbn [query_ptr after_token past set_text]. by rewrite <- app_assoc.
    - destruct (parse_attr_plain l1 acc ty v q) as (l2 & ? & ? & ? & ?); [done..|by apply Hl|done|by exists l2, l2]. }
  exists l3. split; [|eapply ready_trans; [|exact Hr]; by apply (ready_token typed li _ _ _ _ tl)].
  rewrite (bind_Some _ _ _ _ _ E1). cbn [rpn_structure]. mrun. cbn [query_look l1 after_token]. fold l1.
  rewrite (bind_Some _ _ _ _ _ E2). mrun. rewrite Hq, bool_decide_eq_false_2 by done.
  rewrite (proj2 (Z.leb_gt _ _)) by done. by rewrite (bind_Some _ _ _ _ _ E3).
Qed.

Lemma last_set_snoc acc e : last_set (acc ++ [attr_of e]) = attributeSet e.
Proof. unfold last_set. rewrite last_snoc. apply attr_of_set. Qed.

Lemma attrs_step typed fuel es q : forall li acc, Forall (elem_ok std) es ->
  sets_ok (match last_set acc with Some _ => true | None => false end) es -> zlen (acc ++ map attr_of es) <= max_attr ->
  at_text li (attrs_text std es ++ q) -> exists li',
  (lex ;; rpn_structure std (length es + fuel) acc) li = (lex ;; rpn_structure std fuel (acc ++ map attr_of es)) li' /\
  ready typed li li' q.
Proof.
  induction es as [|e es IH]; intros li acc He Hs Hlen Ha.
  { exists li. rewrite app_nil_r. split; [done|]. by split_and!. }
  apply Forall_cons_1 in He as [He Hes]. destruct Hs as [Hs1 Hs2]. unfold attrs_text in Ha. cbn [map concat] in Ha, Hlen.
  rewrite <- app_assoc in Ha.
  destruct (attr_step typed li acc (length es + fuel) e (attrs_text std es ++ q)) as (l1 & E1 & R1); [done| | |done|].
  { intros Hn. destruct (last_set acc); [|done]. by destruct Hs1. }
  { rewrite zlen_app, zlen_cons in Hlen. pose proof (zlen_nonneg (map attr_of es)). lia. }
  destruct (IH l1 (acc ++ [attr_of e])) as (l2 & E2 & R2); [done|by rewrite last_set_snoc|by rewrite <- app_assoc|apply R1|].
  exists l2. split; [|by eapply ready_trans]. cbn [length Nat.add]. rewrite E1, E2. cbn [map]. by rewrite <- app_assoc.
Qed.

(** ** Terms *)

Lemma lexeme_after ptr w tl t li : lexeme (after_token ptr (w ++ tl) (zlen w) t li) = Some (w, after_token ptr (w ++ tl) (zlen w) t li).
Proof. unfold lexeme. mrun. cbn [lex_buf after_token lex_len]. mrun. by rewrite sub_all. Qed.

(** A term that has been read as the token [w]. *)
Lemma simple_text fuel attrs ptr w tl li t : z_Term_create (term_type li) (escape_string w) = Some t ->
  rpn_structure std (S fuel) attrs (after_token ptr (w ++ tl) (zlen w) L_text li) =
  (lex ;; ret (Some (RPN_simple (Operand_APT (APT (Some (get_attributeList attrs)) t)))))
    (after_token ptr (w ++ tl) (zlen w) L_text li).
Proof.
  intros Et. set (l := after_token _ _ _ _ li). cbn [rpn_structure]. mrun. cbn [query_look l after_token]. fold l.
  assert (rpn_term attrs l = Some (APT (Some (get_attributeList attrs)) t, l)) as E.
  { unfold rpn_term, rpn_term_attributes, l. rewrite (bind_Some _ _ _ _ _ (lexeme_after _ _ _ _ _)). mrun.
    cbn [term_type after_token]. by rewrite Et. }
  unfold rpn_simple. rewrite bind_assoc. mrun. cbn [query_look l after_token]. fold l. rewrite bind_assoc, (bind_Some _ _ _ _ _ E).
  unfold bind, ret. by destruct (lex l) as [[? ?]|].
Qed.

(** The name of a type after [@term]. *)
Lemma type_step typed li fuel attrs k ty q : typed = true -> In (k, ty) term_types ->
  at_text li (str "@term " ++ k ++ 32 :: q) -> exists li',
  (lex ;; rpn_structure std (S fuel) attrs) li = (lex ;; rpn_structure std fuel attrs) li' /\
  ready typed li li' q /\ term_type li' = ty.
Proof.
  intros -> Hk Ha.
  pose proof (lex_keyword li (str "term") L_term (32 :: k ++ 32 :: q) Ha (stop_blank _) ltac:(simpl; tauto)) as E1.
  set (l1 := after_token _ _ _ _ li) in E1.
  assert (lex l1 = Some (L_text, after_token q (k ++ 32 :: q) (zlen k) L_text l1)) as E2.
  { assert (exists c w, k = c :: w /\ closed 32 (c :: w) /\ c <> 0 /\ c <> 32 /\ c <> 123 /\ c <> 34 /\ c <> 64)
      as (c & w & -> & Hc & ? & ? & ? & ? & ?).
    { repeat destruct Hk as [[= <- <-]|Hk]; [..|done]; (eexists _, _; split; [reflexivity|]);
        (split; [repeat (constructor; [done..|]); constructor|done]). }
    by apply (lex_word l1 c w (32 :: q)); [|apply stop_blank|..]. }
  set (l2 := after_token q _ _ _ l1) in E2.
  exists (set_term_type ty l2). split; [|by split; [split_and!|]].
  rewrite (bind_Some _ _ _ _ _ E1). cbn [rpn_structure]. mrun. cbn [query_look l1 after_token]. fold l1.
  rewrite (bind_Some _ _ _ _ _ E2). unfold rpn_term_type. rewrite bind_assoc. mrun.
  rewrite bool_decide_eq_false_2 by (by unfold l2). rewrite !bind_assoc.
  rewrite (bind_Some _ _ _ tt (set_term_type ty l2)).
  - by rewrite bind_assoc.
  - repeat destruct Hk as [[= <- <-]|Hk]; [reflexivity..|done].
Qed.
(** What the parser is to do with the text [q] of [z]. *)
Definition parses (typed : bool) (attrs : list attr) (z : Z_RPNStructure) (q : list Z) : Prop :=
  forall li fuel rest, at_text li (q ++ rest) -> stop rest -> (typed = false -> term_type li = Z_Term_general) ->
  (length q <= fuel)%nat -> exists li',
    (lex ;; rpn_structure std fuel attrs) li = (lex ;; ret (Some z)) li' /\ ready typed li li' rest.

Lemma term_text_nonempty t : (1 <= length (term_text t))%nat.
Proof.
  unfold term_text. destruct (plain_term t) eqn:Hp; [|simpl; lia]. destruct (plain_chars t Hp) as [Hn _].
  destruct t as [|c t]; [done|]. rewrite length_app. unfold escaped. cbn [map concat]. rewrite length_app.
  destruct (is_backslash c); simpl; lia.
Qed.

(** The text of a term that is read with the type in force. *)
Lemma parses_word ty attrs li fuel w0 rest t : at_text li (w0 ++ rest) -> term_type li = ty -> (1 <= fuel)%nat ->
  (exists w tl ptr, lex li = Some (L_text, after_token ptr (w ++ tl) (zlen w) L_text li) /\
    z_Term_create ty (escape_string w) = Some t /\ skip_spaces ptr = skip_spaces rest) -> forall typed, exists li',
  (lex ;; rpn_structure std fuel attrs) li =
    (lex ;; ret (Some (RPN_simple (Operand_APT (APT (Some (get_attributeList attrs)) t))))) li' /\ ready typed li li' rest.
Proof.
  intros Ha <- Hf (w & tl & ptr & El & Et & Hp) typed. eexists. split; [|by apply ready_token].
  rewrite (bind_Some _ _ _ _ _ El). destruct fuel as [|fuel]; [lia|]. by apply simple_text.
Qed.

Lemma numeric_word li n rest : - 2 ^ 63 <= n < 2 ^ 63 -> at_text li (fmt_d n ++ rest) -> stop rest ->
  exists w tl ptr, lex li = Some (L_text, after_token ptr (w ++ tl) (zlen w) L_text li) /\
    z_Term_create Z_Term_numeric (escape_string w) = Some (Term_numeric n) /\ skip_spaces ptr = skip_spaces rest.
Proof.
  intros Hn Ha Hs. exists (fmt_d n), rest, (past rest). split; [|split; [|by apply skip_past]].
  - destruct (Z.ltb_spec n 0) as [H0|H0].
    + rewrite (fmt_d_neg n) in * by lia.
      destruct (fmt_d_nat (- n)) as (H1 & _); [lia|].
      apply (lex_word li 45 (fmt_d (- n)) rest); [done|done|lia..|]. constructor; [lia..|by apply digits_closed].
    + destruct (lex_digits li n [] rest) as [E _]; [lia|constructor|done|done|]. by rewrite app_nil_r in E.
  - assert (escape_string (fmt_d n) = fmt_d n) as ->.
    { destruct (Z.ltb_spec n 0) as [H0|H0].
      - rewrite (fmt_d_neg n) in * by lia.
        rewrite escape_other by lia. rewrite escape_none; [done|]. apply digits_no92, fmt_d_nat. lia.
      - apply escape_none, digits_no92, fmt_d_nat. lia. }
    change (z_Term_create Z_Term_numeric ?b) with (let? n := odr_atoi (b ++ [0]) in Some (Term_numeric n)).
    by rewrite odr_atoi_fmt.
Qed.

Lemma parses_term typed attrs t : zterm_ok typed t ->
  parses typed attrs (RPN_simple (Operand_APT (APT (Some (get_attributeList attrs)) t))) (zterm_text t).
Proof.
  intros Ht li fuel rest Ha Hs Htt Hf. destruct t as [bs|n|m| |]; cbn [zterm_ok zterm_text] in *; [| | |done|done].
  - destruct Ht as [-> Ht]. pose proof (term_text_nonempty bs). eapply parses_word; [done|by apply Htt|lia|].
    destruct (lex_term li bs rest Ht Ha Hs) as (w & tl & ptr & E1 & E2 & E3). exists w, tl, ptr.
    split; [done|]. split; [|done]. by rewrite E2.
  - destruct Ht as [-> Hn]. change (str "@term numeric ") with (str "@term " ++ str "numeric" ++ [32]) in Ha, Hf.
    rewrite <- !app_assoc in Ha. destruct fuel as [|[|fuel]]; [simpl in Hf; lia..|].
    destruct (type_step true li (S fuel) attrs (str "numeric") Z_Term_numeric (fmt_d n ++ rest)) as (l1 & E1 & R1 & T1);
      [done|simpl; tauto|done|]. rewrite E1.
    destruct (parses_word Z_Term_numeric attrs l1 (S fuel) (fmt_d n) rest (Term_numeric n)) with (typed := true) as (l2 & E2 & R2);
      [apply R1|done|lia|by apply numeric_word; [|apply R1|]|]. exists l2. split; [done|]. by eapply ready_trans.
  - destruct Ht as (-> & s & -> & Ht). rewrite removelast_last in Ha, Hf.
    change (str "@term string ") with (str "@term " ++ str "string" ++ [32]) in Ha, Hf.
    rewrite <- !app_assoc in Ha. destruct fuel as [|[|fuel]]; [simpl in Hf; lia..|].
    destruct (type_step true li (S fuel) attrs (str "string") Z_Term_characterString (term_text s ++ rest)) as (l1 & E1 & R1 & T1);
      [done|simpl; tauto|done|]. rewrite E1.
    destruct (parses_word Z_Term_characterString attrs l1 (S fuel) (term_text s) rest (Term_characterString (s ++ [0])))
      with (typed := true) as (l2 & E2 & R2); [apply R1|done|lia| |exists l2; split; [done|by eapply ready_trans]].
    destruct (lex_term l1 s rest Ht (proj1 R1) Hs) as (w & tl & ptr & F1 & F2 & F3). exists w, tl, ptr.
    split; [done|]. split; [|done]. by rewrite F2.
Qed.

Lemma escaped_self special s : (forall c, In c s -> special c = false) -> escaped special s = s.
Proof.
  unfold escaped. induction s as [|c s IH]; intros H; [done|]. cbn [map concat]. rewrite (H c) by by left. cbn [app].
  f_equal. apply IH. intros x Hx. apply H. by right.
Qed.

(** The name of a result set is the token itself. *)
Lemma lex_result li s rest : result_ok s -> at_text li (term_text s ++ rest) -> stop rest -> exists tl ptr,
  lex li = Some (L_text, after_token ptr (s ++ tl) (zlen s) L_text li) /\ skip_spaces ptr = skip_spaces rest.
Proof.
  intros (Ht & H92 & H34 & Hat) Ha Hs.
  assert (escaped is_backslash s = s) as E1.
  { apply escaped_self. intros c Hc. unfold is_backslash. destruct (Z.eqb_spec c 92) as [->|]; done. }
  assert (escaped is_quote s = s) as E2.
  { apply escaped_self. intros c Hc. unfold is_quote. destruct (Z.eqb_spec c 34) as [->|]; [done|].
    destruct (Z.eqb_spec c 92) as [->|]; done. }
  destruct (plain_term s) eqn:Hp.
  - destruct (plain_word s Ht Hp) as (c & w & E & H0 & C32 & C123 & C34 & C64 & Hc & _).
    unfold term_text in E, Ha. rewrite Hp, Hat, E1 in E, Ha. cbn [app] in E, Ha. rewrite E in *.
    exists rest, (past rest). split; [by apply lex_word|by apply skip_past].
  - destruct Ht as (_ & Hn & Hd). specialize (Hd Hp). unfold term_text in Ha. rewrite Hp, E2 in Ha. cbn [app] in Ha.
    rewrite <- app_assoc in Ha. exists (34 :: rest), rest. split; [|done]. apply lex_quoted; [done| |done].
    rewrite <- E2. apply escaped_closed; [done|done|]. by intros c _ ->.
Qed.

(** A result set whose name is written as [q]. *)
Lemma parses_set typed attrs s q : (forall li rest, at_text li (q ++ rest) -> stop rest -> exists tl ptr,
    lex li = Some (L_text, after_token ptr (s ++ tl) (zlen s) L_text li) /\ skip_spaces ptr = skip_spaces rest) ->
  parses typed attrs (RPN_simple (Operand_resultSetId (s ++ [0]))) (str "@set " ++ q).
Proof.
  intros Hr li fuel rest Ha Hs _ Hf. change (str "@set ") with (64 :: str "set" ++ [32]) in Ha.
  rewrite <- app_assoc in Ha. cbn [app] in Ha. rewrite <- app_assoc in Ha.
  pose proof (lex_keyword li (str "set") L_set (32 :: q ++ rest) Ha (stop_blank _) ltac:(simpl; tauto)) as E1.
  set (l1 := after_token _ _ _ _ li) in E1.
  destruct (Hr l1 rest eq_refl Hs) as (tl & ptr & E2 & Hp). set (l2 := after_token ptr _ _ _ l1) in E2.
  exists l2. split; [|by split_and!]. rewrite (bind_Some _ _ _ _ _ E1). destruct fuel as [|fuel]; [simpl in Hf; lia|].
  cbn [rpn_structure]. mrun. cbn [query_look l1 after_token]. fold l1. unfold rpn_simple. rewrite bind_assoc. mrun.
  cbn [query_look l1 after_token]. fold l1. rewrite bind_assoc, (bind_Some _ _ _ _ _ E2), bind_assoc. mrun.
  rewrite bool_decide_eq_false_2 by (by unfold l2). rewrite bind_assoc, (bind_Some _ _ _ s l2) by apply lexeme_after.
  unfold bind, ret. by destruct (lex l2) as [[? ?]|].
Qed.

Lemma parses_result typed attrs s : result_ok s ->
  parses typed attrs (RPN_simple (Operand_resultSetId (s ++ [0]))) (str "@set " ++ term_text s).
Proof. intros Hr. apply parses_set. intros li rest. by apply lex_result. Qed.

Lemma parses_set_quoted typed attrs w : closed 34 w -> (match w with c0 :: c1 :: _ => c0 = 64 -> yaz_isdigit c1 = false | _ => True end) ->
  parses typed attrs (RPN_simple (Operand_resultSetId (w ++ [0]))) (str "@set " ++ 34 :: w ++ [34]).
Proof.
  intros Hw Hd. apply parses_set. intros li rest Ha _. cbn [app] in Ha. rewrite <- app_assoc in Ha. exists (34 :: rest), rest.
  split; [by apply lex_quoted|done].
Qed.

Lemma attrs_text_length es : (length es <= length (attrs_text std es))%nat.
Proof.
  unfold attrs_text. induction es as [|e es IH]; [done|]. cbn [map concat length]. rewrite length_app.
  assert (6 <= length (attr_text std e))%nat; [|lia]. unfold attr_text. rewrite length_app.
  change (length (str "@attr ")) with 6%nat. lia.
Qed.

(** Attributes in front of a text. *)
Lemma parses_attrs typed attrs es z q : Forall (elem_ok std) es ->
  sets_ok (match last_set attrs with Some _ => true | None => false end) es -> zlen (attrs ++ map attr_of es) <= max_attr ->
  parses typed (attrs ++ map attr_of es) z q -> parses typed attrs z (attrs_text std es ++ q).
Proof.
  intros He Hs Hl Hq li fuel rest Ha Hst Htt Hf. rewrite <- app_assoc in Ha. rewrite length_app in Hf. pose proof (attrs_text_length es) as Hlen.
  destruct (attrs_step typed (fuel - length es) es (q ++ rest) li attrs) as (l1 & E1 & R1); [done..|].
  destruct (Hq l1 (fuel - length es)%nat rest) as (l2 & E2 & R2); [apply R1|done|intros H0; apply R1; auto|lia|].
  exists l2. split; [|by eapply ready_trans].
  replace (rpn_structure std fuel attrs) with (rpn_structure std (length es + (fuel - length es)) attrs) by (f_equal; lia).
  by rewrite E1, E2.
Qed.

(** A general term in quotes. *)
Lemma parses_quoted attrs w : closed 34 w -> (match w with c0 :: c1 :: _ => c0 = 64 -> yaz_isdigit c1 = false | _ => True end) ->
  parses false attrs (RPN_simple (Operand_APT (APT (Some (get_attributeList attrs)) (Term_general (escape_string w))))) (34 :: w ++ [34]).
Proof.
  intros Hw Hd li fuel rest Ha Hs Htt Hf. eapply parses_word; [done|by apply Htt|simpl in Hf; lia|]. cbn [app] in Ha. rewrite <- app_assoc in Ha.
  exists w, (34 :: rest), rest. split; [by apply lex_quoted|]. by split.
Qed.

Lemma parses_operand typed o : operand_ok std typed o -> parses typed [] (mirror (RPN_simple o)) (operand_text std o).
Proof.
  destruct o as [[al t]|m|]; cbn [operand_ok operand_text attributes term mirror option_map]; [| |done].
  - intros [(es & -> & He & Hs & Hd & Hl) Ht]. cbn [default id option_map]. apply parses_attrs; [done|done|rewrite app_nil_l; unfold zlen in *; by rewrite length_map|].
    cbn [app]. rewrite <- (get_attributeList_of std) by done. by apply parses_term.
  - intros (s & -> & Hr). rewrite removelast_last. by apply parses_result.
Qed.

(** ** Operators *)

Lemma lex_first_word {A} (k : Z -> list Z -> PQF (option A)) li c w q :
  at_text li (c :: w ++ 32 :: q) -> c <> 0 -> c <> 32 -> c <> 123 -> c <> 34 -> c <> 64 -> closed 32 (c :: w) -> exists l,
  lex_first k li = k c (c :: w ++ 32 :: q) l /\ forall typed, ready typed li l q.
Proof.
  intros Ha H0 H1 H2 H3 H4 Hc. eexists. split; [|intros typed; by apply ready_token].
  unfold lex_first. rewrite (bind_Some _ _ _ _ _ (lex_word li c w (32 :: q) Ha (stop_blank _) H0 H1 H2 H3 H4 Hc)).
  rewrite bool_decide_eq_false_2 by done. mrun. cbn [lex_buf after_token]. mrun. rewrite rd_0. mrun. done.
Qed.

Lemma lex_first_char {A} (k : Z -> list Z -> PQF (option A)) li c q :
  at_text li ([c] ++ 32 :: q) -> c <> 0 -> c <> 32 -> c <> 123 -> c <> 34 -> c <> 64 -> c <> 92 -> exists l b,
  lex_first k li = k c b l /\ forall typed, ready typed li l q.
Proof.
  intros Ha H0 H1 H2 H3 H4 H5. destruct (lex_first_word k li c [] q) as (l & E & R); [done..| |by eexists l, _].
  constructor; [done..|constructor].
Qed.

Lemma lex_number_fmt {A} (k : Z -> PQF (option A)) li n q : 0 <= n < 2 ^ 63 -> at_text li (fmt_d n ++ 32 :: q) -> exists l,
  lex_number k li = k n l /\ forall typed, ready typed li l q.
Proof.
  intros Hn Ha. pose proof (odr_atoi_fmt n 32 q ltac:(lia) eq_refl) as E.
  destruct (fmt_d_nat n) as (H1 & H2 & _); [lia|]. pose proof (digits_closed _ H1) as Hc.
  destruct (fmt_d n) as [|d ds]; [done|]. pose proof (digits_head d ds H1).
  unfold lex_number. eapply lex_first_word in Ha as (l & -> & R); [|lia..|done]. exists l. split; [|done]. cbv beta.
  replace ((48 <=? d) && (d <=? 57)) with true by lia. cbn [app] in E. rewrite E. by mrun.
Qed.

Lemma flag_char n : n = 0 \/ n = 1 -> fmt_d n = [48 + n].
Proof. by intros [->| ->]. Qed.

Lemma parse_prox p li q : prox_ok p -> at_text li (prox_text p ++ q) -> exists l,
  rpn_proximity li = Some (Some p, l) /\ forall typed, ready typed li l q.
Proof.
  destruct p as [x d o r w kn]. unfold prox_ok, prox_text. cbn [exclusion distance ordered relationType prox_which known].
  intros (Hx & Hd & Ho & Hr & Hw & k & -> & Hk). cbn [default id]. rewrite (flag_char o Ho), <- !app_assoc. intros Ha.
  set (e := match x with None => 110 | Some x => if x =? 0 then 48 else 49 end).
  assert (excl_text x = [e] /\ (e = 110 \/ e = 48 \/ e = 49)) as [Ee He].
  { unfold e. destruct Hx as [->|[->| ->]]; split; auto. }
  rewrite Ee in Ha. unfold rpn_proximity.
  eapply lex_first_char in Ha as (l1 & b1 & -> & R1); [|lia..].
  replace (prox_exclusion e) with (fun k : option Z -> PQF (option Z_ProximityOperator) => k x) by (unfold e; by destruct Hx as [->|[->| ->]]).
  destruct (R1 true) as (A1 & _). eapply lex_number_fmt in A1 as (l2 & -> & R2); [|done].
  destruct (R2 true) as (A2 & _). eapply lex_first_char in A2 as (l3 & b3 & -> & R3); [|lia..].
  replace (prox_ordered (48 + o)) with (fun k : Z -> PQF (option Z_ProximityOperator) => k o) by (by destruct Ho as [->| ->]).
  destruct (R3 true) as (A3 & _). eapply lex_number_fmt in A3 as (l4 & -> & R4); [|done].
  destruct (R4 true) as (A4 & _).
  eapply lex_first_char in A4 as (l5 & b5 & -> & R5); [|by destruct (w =? _)..].
  rewrite (bind_Some _ _ _ w l5) by (by destruct Hw as [->| ->]).
  replace (negb (w =? Z_ProximityOperator_known) && _) with false by (by destruct Hw as [->| ->]).
  destruct (R5 true) as (A5 & _). eapply lex_number_fmt in A5 as (l6 & -> & R6); [|done].
  exists l6. split; [done|]. eauto 10 using ready_trans.
Qed.

Definition op_look (op : Z_Operator) : look :=
  match op with Op_and => L_and | Op_or => L_or | Op_and_not => L_not | Op_prox _ => L_prox end.

(** The operator of a node, as [rpn_complex] reads it. *)
Definition read_op (t : look) : PQF (option Z_Operator) :=
  match t with
  | L_and => ret (Some Op_and)
  | L_or => ret (Some Op_or)
  | L_not => ret (Some Op_and_not)
  | L_prox =>
      let* p := rpn_proximity in
      match p with Some p => ret (Some (Op_prox p)) | None => ret None end
  | _ => fails YAZ_PQF_ERROR_INTERNAL
  end.

Lemma op_keyword op : In (complex_op_name op, op_look op) keywords.
Proof. destruct op; simpl; auto 10. Qed.

Lemma op_step op li q : match op with Op_prox p => prox_ok p | _ => True end -> at_text li (op_text op ++ q) -> exists l1 l2,
  lex li = Some (op_look op, l1) /\ query_look l1 = op_look op /\ read_op (op_look op) l1 = Some (Some op, l2) /\
  forall typed, ready typed li l2 q.
Proof.
  intros Hop Ha.
  set (tl := (match op with Op_prox p => prox_text p | _ => [] end) ++ q).
  assert (op_text op ++ q = 64 :: complex_op_name op ++ 32 :: tl) as E.
  { unfold op_text, tl. rewrite <- !app_assoc. done. }
  rewrite E in Ha.
  pose proof (lex_keyword li (complex_op_name op) (op_look op) (32 :: tl) Ha (stop_blank _) (op_keyword op)) as E1.
  set (l1 := after_token _ _ _ _ li) in E1. assert (forall typed, ready typed li l1 tl) as R1 by (intros typed; by split_and!).
  destruct op as [| | |p]; [by exists l1, l1..|].
  destruct (parse_prox p l1 q Hop (proj1 (R1 true))) as (l2 & E2 & R2).
  exists l1, l2. split; [done|]. split; [done|]. split; [|eauto using ready_trans].
  cbn [op_look read_op]. by rewrite (bind_Some _ _ _ _ _ E2).
Qed.

(** ** Queries *)

Lemma parses_complex typed attrs z1 z2 op q1 q2 : match op with Op_prox p => prox_ok p | _ => True end ->
  parses typed attrs z1 q1 -> parses typed attrs z2 q2 -> parses typed attrs (RPN_complex z1 z2 op) (op_text op ++ q1 ++ [32] ++ q2).
Proof.
  intros Hop IH1 IH2 li fuel rest Ha Hs Htt Hf. rewrite <- !app_assoc in Ha. rewrite !length_app in Hf. simpl in Hf.
  destruct (op_step op li _ Hop Ha) as (l1 & l2 & E1 & Hq & E2 & R2). specialize (R2 typed).
  destruct fuel as [|fuel]; [simpl in Hf; lia|].
  destruct (IH1 l2 fuel ([32] ++ q2 ++ rest)) as (l3 & E3 & R3);
    [apply R2|apply stop_blank|intros H0; apply R2; auto|lia|].
  assert (ready typed li l3 ([32] ++ q2 ++ rest)) as R03 by by eapply ready_trans.
  destruct (IH2 l3 fuel rest) as (l4 & E4 & R4); [apply R3|done|intros H0; apply R03; auto|lia|].
  exists l4. split; [|by eapply ready_trans]. rewrite (bind_Some _ _ _ _ _ E1). cbn [rpn_structure]. mrun. rewrite Hq.
  assert (rpn_complex (rpn_structure std fuel) attrs l1 = (lex ;; ret (Some (z1, z2, op))) l4) as E.
  { unfold rpn_complex. mrun. rewrite Hq. change (match op_look op with L_and => _ | _ => _ end) with (read_op (op_look op)).
    rewrite (bind_Some _ _ _ _ _ E2).
    rewrite <- (bind_assoc lex (fun _ => rpn_structure std fuel attrs)). rewrite (bind_cong _ _ _ _ _ E3), bind_assoc.
    change (fun _ : look => bind (ret (Some z1)) ?K) with (fun _ : look => K (Some z1)). cbv beta iota.
    rewrite <- (bind_assoc lex (fun _ => rpn_structure std fuel attrs)), (bind_cong _ _ _ _ _ E4), bind_assoc. done. }
  destruct op; cbn [op_look]; (rewrite (bind_cong _ _ _ _ _ E), bind_assoc; reflexivity).
Qed.

Lemma parses_rpn typed z : rpn_ok std typed z -> parses typed [] (mirror z) (rpn_text std z).
Proof.
  induction z as [o|z1 IH1 z2 IH2 op|]; cbn [rpn_ok rpn_text mirror]; [by apply parses_operand| |done].
  intros (H1 & H2 & Hop). apply parses_complex; [done|by apply IH1|by apply IH2].
Qed.
End parsing.

(** ** The end of the text *)

(** The last character is no blank. *)
Definition ends_word (q : list Z) : Prop := exists q' c, q = q' ++ [c] /\ c <> 32.

Lemma ends_word_app q1 q2 : ends_word q2 -> ends_word (q1 ++ q2).
Proof. intros (q' & c & -> & Hc). exists (q1 ++ q'), c. by rewrite app_assoc. Qed.

Lemma ends_word_last q : q <> [] -> ~ In 32 q -> ends_word q.
Proof.
  intros Hq Hn. destruct (exists_last Hq) as (q' & c & ->). exists q', c. split; [done|]. intros ->. apply Hn, in_app_iff.
  right. by left.
Qed.

Lemma ends_word_term t : ends_word (term_text t).
Proof.
  unfold term_text. destruct (plain_term t) eqn:Hp.
  - apply ends_word_app. destruct (plain_chars t Hp) as [Hne Hc]. destruct (exists_last Hne) as (t' & c & ->).
    unfold escaped. rewrite map_app, concat_app. apply ends_word_app. cbn [map concat].
    exists (if is_backslash c then [92] else []), c. split; [by destruct (is_backslash c)|].
    apply Hc, in_app_iff. right. by left.
  - exists (34 :: escaped is_quote t), 34. by split.
Qed.

Lemma ends_word_fmt n : - 2 ^ 63 <= n < 2 ^ 63 -> ends_word (fmt_d n).
Proof.
  assert (forall n, 0 <= n <= 2 ^ 63 -> ends_word (fmt_d n)) as H.
  { intros k Hk. destruct (fmt_d_nat k Hk) as (H1 & H2 & _). apply ends_word_last; [done|].
    unfold digits_ok in H1. rewrite List.Forall_forall in H1. intros H3%H1. lia. }
  intros Hn. destruct (Z.ltb_spec n 0); [|apply H; lia]. rewrite fmt_d_neg by lia. apply (ends_word_app [45]), H. lia.
Qed.

Section whole.
Context (std : yaz_oid_db) (yaz_oid_attset_bib_1 : list Z).

Lemma ends_word_rpn typed z : rpn_ok std typed z -> ends_word (rpn_text std z).
Proof.
  induction z as [o|z1 IH1 z2 IH2 op|]; cbn [rpn_ok rpn_text]; [| |done].
  - destruct o as [[al t]|m|]; cbn [operand_ok operand_text attributes term]; [| |done].
    + intros [_ Ht]. apply ends_word_app. destruct t as [bs|n|m| |]; cbn [zterm_ok zterm_text] in *; [| | |done..].
      * apply ends_word_term.
      * apply ends_word_app, ends_word_fmt, Ht.
      * apply ends_word_app, ends_word_term.
    + intros _. apply ends_word_app, ends_word_term.
  - intros (_ & H2 & _). by apply ends_word_app, ends_word_app, ends_word_app, IH2.
Qed.

(** What is printed. *)
Lemma prints_query typed o z b : set_ok std o -> rpn_ok std typed z -> wrbuf_ok b -> exists b',
  yaz_rpnquery_to_wrbuf std (RPNQuery (Some o) z) b = Some (tt, b') /\ wrbuf_ok b' /\
  contents b' = contents b ++ query_text std o z.
Proof.
  intros Ho Hz Hb. pose proof (appends_rpn std typed z Hz) as Hp. destruct (ends_word_rpn typed z Hz) as (q & c & Eq & Hc).
  destruct Ho as ((cl & E) & (Hw & _ & Hlen & _) & _).
  assert (appends (let* (n, _) := lift (yaz_oid_to_string_buf std o) in printf_s (str "@attrset ") n (str " "))
    (str "@attrset " ++ oid_name std o ++ [32])) as H1.
  { eapply appends_lift; [exact E|]. cbv beta iota. unfold printf_s. pose proof (word_nonzero _ Hw) as Hn.
    eapply appends_lift; [by apply strlen_spec|]. eapply appends_lift; [apply sub_all|].
    apply appends_printf_text; [nz|]. rewrite !zlen_app. change (zlen (str "@attrset ")) with 9. zl. }
  destruct (H1 b Hb) as (a1 & b1 & E1 & Hb1 & C1). destruct (Hp b1 Hb1) as (a2 & b2 & E2 & Hb2 & C2).
  destruct (changes_chop_right b2 Hb2) as ([] & b3 & E3 & Hb3 & C3). exists b3.
  split; [|split; [done|]].
  - unfold yaz_rpnquery_to_wrbuf. cbn [attributeSetId RPNStructure].
    rewrite (bind_Some _ _ _ _ _ E1), (bind_Some _ _ _ _ _ E2). exact E3.
  - rewrite C3, C2, C1, app_assoc, chop_right_snoc. cbn [Z.eqb Pos.eqb]. rewrite Eq, app_assoc, chop_right_snoc.
    rewrite (proj2 (Z.eqb_neq c 32)) by done. unfold query_text. rewrite Eq, <- !app_assoc. done.
Qed.

Lemma lex_end li r : at_text li (0 :: r) -> exists li', lex li = Some (L_end, li') /\ query_look li' = L_end /\
  error li' = error li.
Proof.
  intros Ha. eexists. unfold at_text in Ha. rewrite skip_head in Ha by done. split; [|split].
  - unfold lex. rewrite (bind_Some _ _ _ L_end (set_ptr (0 :: r) li)); [done|]. unfold query_token. mrun. rewrite Ha. by mrun.
  - done.
  - done.
Qed.

(** A text without an attribute set is a whole query. *)
Lemma parses_whole bib_1 z q p rest : parses std false [] z q -> z <> RPN_unset -> term_type p = Z_Term_general ->
  odr_oiddup_nmem (Some bib_1) = Some (Some bib_1) -> exists p',
  yaz_pqf_parse std bib_1 (q ++ 32 :: 0 :: rest) p = Some (Some (RPNQuery (Some bib_1) z), p') /\ error p' = error p.
Proof.
  intros Hz Hne Htt Hbib. set (text := q ++ 32 :: 0 :: rest).
  set (li := Li text text None (lex_len p) (query_look p) (term_type p) (error p)).
  destruct (Hz li (S (length text)) (32 :: 0 :: rest)) as (l3 & E3 & R3).
  { done. }
  { apply stop_blank. }
  { done. }
  { unfold text. rewrite length_app. lia. }
  destruct (lex_end l3 rest) as (l4 & E4 & Hq & He); [exact (proj1 R3)|].
  rewrite (bind_Some _ _ _ _ _ E4) in E3. destruct (bind_inv _ _ _ _ E3) as (t & l1 & E1 & E2).
  exists l4. split; [|rewrite He; apply (proj1 (proj2 (proj2 R3)))].
  unfold yaz_pqf_parse, pqf_parser_begin. mrun. fold text. fold li. unfold p_query_rpn_mk. mrun. unfold top_set.
  rewrite bind_assoc, (bind_Some _ _ _ _ _ E1), bind_assoc. mrun. rewrite bool_decide_eq_false_2.
  - rewrite Hbib. mrun. change (query_ptr li) with text. rewrite (bind_Some _ _ _ _ _ E2). mrun. by rewrite bool_decide_eq_true_2.
  - intros Hl. cbn [rpn_structure] in E2. revert E2. mrun. rewrite Hl. intros [= E2 _]. by symmetry in E2.
Qed.

(** What is read. *)
Lemma parses_query typed o z rest p : set_ok std o -> rpn_ok std typed z -> (typed = false -> term_type p = Z_Term_general) ->
  exists p', yaz_pqf_parse std yaz_oid_attset_bib_1 (query_text std o z ++ 0 :: rest) p =
    Some (Some (RPNQuery (Some o) (mirror z)), p') /\ error p' = error p.
Proof.
  intros Ho Hz Htt. set (text := query_text std o z ++ 0 :: rest).
  set (li := Li text text None (lex_len p) (query_look p) (term_type p) (error p)).
  set (q := rpn_text std z ++ 0 :: rest).
  assert (text = 64 :: str "attrset" ++ 32 :: oid_name std o ++ 32 :: q) as Et.
  { unfold text, query_text, q. rewrite <- !app_assoc. done. }
  assert (at_text li (64 :: str "attrset" ++ 32 :: oid_name std o ++ 32 :: q)) as Ha by (by rewrite <- Et).
  pose proof (lex_keyword li (str "attrset") L_attrset _ Ha (stop_blank _) ltac:(simpl; tauto)) as E1.
  set (l1 := after_token _ _ _ _ li) in E1.
  destruct (lex_name std l1 o q Ho eq_refl) as [E2 Eg]. set (l2 := after_token q _ _ _ l1) in *.
  destruct (parses_rpn std typed z Hz l2 (S (length text)) (0 :: rest)) as (l3 & E3 & R3).
  { done. }
  { exists 0, rest. auto. }
  { exact Htt. }
  { rewrite Et. unfold q. cbn [length]. rewrite length_app. cbn [length]. rewrite length_app. cbn [length]. rewrite length_app. lia. }
  destruct (lex_end l3 rest (proj1 R3)) as (l4 & E4 & Hq & He). exists l4.
  split; [|rewrite He; apply (proj1 (proj2 (proj2 R3)))].
  unfold yaz_pqf_parse, pqf_parser_begin. mrun. fold text. fold li. unfold p_query_rpn_mk. mrun. unfold top_set.
  rewrite bind_assoc, (bind_Some _ _ _ _ _ E1), bind_assoc. mrun. rewrite bool_decide_eq_true_2 by done.
  rewrite bind_assoc, (bind_Some _ _ _ _ _ E2), bind_assoc, (bind_Some _ _ _ _ _ Eg), bind_assoc.
  change (query_ptr li) with text.
  change (fun _ : look => bind (ret (Some o)) ?K) with (fun _ : look => K (Some o)). cbv beta iota.
  rewrite <- (bind_assoc lex (fun _ => rpn_structure std (S (length text)) [])), (bind_cong _ _ _ _ _ E3), bind_assoc.
  rewrite (bind_Some _ _ _ _ _ E4). mrun. by rewrite bool_decide_eq_true_2.
Qed.
End whole.

(** ** Property *)


Definition sample_rpn : Z_RPNStructure :=
  RPN_complex
    (RPN_simple (Operand_APT (APT (Some [Element (Some [1; 2; 840; 10003; 3; 1; -1]) 1 (AV_numeric 4);
       Element (Some [1; 2; 840; 10003; 3; 1; -1]) 2 (AV_complex [SN_string [108; 101; 0]] [])])
       (Term_general [97; 32; 92; 34; 64]))))
    (RPN_simple (Operand_resultSetId [49; 0]))
    (Op_prox (Prox (Some 1) 3 0 2 Z_ProximityOperator_known (Some 2))).

Definition sample_buf : wrbuf := mkWrbuf [0; 0] 0 1 (fun _ => 0).

