(* ===== verification/Ccl.v ===== *)
(** * CCL profiles (cclstr.c, cclqual.c, cclerrms.c, yaz/ccl.h)

    The trees that the CCL parser builds, and the qualifiers a profile defines.
    The list of qualifiers is linked by pointers, and a qualifier may point to
    others: each has an address, the number of those made before it.  The
    entries of a tree are values; the pointer to a node that has been freed is
    [CCL_FREED], which no function may look at. *)

From stdpp Require Import base list numbers option strings.
From Stdlib Require Import ZArith Lia.
From S2P Require Import Prelude Text.

(** ** Comparison (cclstr.c) *)

Definition ccli_toupper (c : Z) : Z := if yaz_islower c then yaz_toupper c else c.

Fixpoint ccl_stricmp (s1 s2 : list Z) : option Z :=
  match s1, s2 with
  | x1 :: s1, x2 :: s2 =>
      let c1 := ccli_toupper (s8 x1) in
      let c2 := ccli_toupper (s8 x2) in
      if negb (x1 =? 0) && negb (x2 =? 0) then
        if negb (c1 =? c2) then Some (c1 - c2) else ccl_stricmp s1 s2
      else Some (c1 - c2)
  | _, _ => None
  end.

Fixpoint ccl_memicmp (s1 s2 : list Z) (n : Z) : option Z :=
  match s1, s2 with
  | x1 :: s1, x2 :: s2 =>
      let c1 := ccli_toupper (s8 x1) in
      let c2 := ccli_toupper (s8 x2) in
      if (n <=? 1) || negb (c1 =? c2) then Some (c1 - c2) else ccl_memicmp s1 s2 (n - 1)
  | _, _ => None
  end.

(** ** Errors *)

Definition CCL_ERR_OK : Z := 0.
Definition CCL_ERR_TERM_EXPECTED : Z := 1.
Definition CCL_ERR_RP_EXPECTED : Z := 2.
Definition CCL_ERR_SETNAME_EXPECTED : Z := 3.
Definition CCL_ERR_OP_EXPECTED : Z := 4.
Definition CCL_ERR_BAD_RP : Z := 5.
Definition CCL_ERR_UNKNOWN_QUAL : Z := 6.
Definition CCL_ERR_DOUBLE_QUAL : Z := 7.
Definition CCL_ERR_EQ_EXPECTED : Z := 8.
Definition CCL_ERR_BAD_RELATION : Z := 9.
Definition CCL_ERR_TRUNC_NOT_LEFT : Z := 10.
Definition CCL_ERR_TRUNC_NOT_BOTH : Z := 11.
Definition CCL_ERR_TRUNC_NOT_RIGHT : Z := 12.
Definition CCL_ERR_TRUNC_NOT_EMBED : Z := 13.
Definition CCL_ERR_TRUNC_NOT_SINGLE : Z := 14.

Definition err_msg_array : list (list Z) :=
  [str "Ok";
   str "Search word expected";
   str "')' expected";
   str "Set name expected";
   str "Operator expected";
   str "Unbalanced ')'";
   str "Unknown qualifier";
   str "Qualifiers applied twice";
   str "'=' expected";
   str "Bad relation";
   str "Left truncation not supported";
   str "Both left - and right truncation not supported";
   str "Right truncation not supported";
   str "Embedded truncation not supported";
   str "Single character mask not supported"].

(** [None] where null is returned. *)
Definition ccl_err_msg (ccl_errno : Z) : option (list Z) :=
  if (0 <=? ccl_errno) && (ccl_errno <? zlen err_msg_array) then rd err_msg_array ccl_errno else None.

(** ** Attributes and trees *)

Inductive attr_value :=
  | CCL_RPN_ATTR_NUMERIC (n : Z)
  | CCL_RPN_ATTR_STRING (s : list Z).

Record ccl_rpn_attr := Attr {
  a_set : option (list Z);
  a_type : Z;
  a_value : attr_value;
}.

Inductive ccl_bool := CCL_RPN_AND | CCL_RPN_OR | CCL_RPN_NOT.

(** The third pointer of a proximity node shares its place in the union with the
    attribute list of a term: null, the node of the parameters, of which only the
    term is used, or attributes that were stored there. *)
Inductive prox_slot :=
  | P_null
  | P_term (term : list Z)
  | P_attrs (al : list ccl_rpn_attr).

(** The third pointer of the other binary nodes is null or, again, attributes. *)
Inductive ccl_rpn_node :=
  | CCL_RPN_BOOL (op : ccl_bool) (l r : ccl_rpn_node) (p2 : list ccl_rpn_attr)
  | CCL_RPN_PROX (l r : ccl_rpn_node) (p2 : prox_slot)
  | CCL_RPN_TERM (term : list Z) (qual : option (list Z)) (attr_list : list ccl_rpn_attr)
  | CCL_RPN_SET (setname : list Z)
  | CCL_FREED.

Definition CCL_BIB1_USE : Z := 1.
Definition CCL_BIB1_REL : Z := 2.
Definition CCL_BIB1_POS : Z := 3.
Definition CCL_BIB1_STR : Z := 4.
Definition CCL_BIB1_TRU : Z := 5.
Definition CCL_BIB1_COM : Z := 6.

Definition CCL_BIB1_STR_WP : Z := -1.
Definition CCL_BIB1_STR_AND_LIST : Z := -2.
Definition CCL_BIB1_STR_OR_LIST : Z := -3.
Definition CCL_BIB1_STR_AUTO_GROUP : Z := -4.
Definition CCL_BIB1_STR_SPLIT_LIST : Z := -5.
Definition CCL_BIB1_REL_ORDER : Z := -1.
Definition CCL_BIB1_REL_PORDER : Z := -2.
Definition CCL_BIB1_REL_OMIT_EQUALS : Z := -3.

Definition CCL_BIB1_TRU_CAN_LEFT : Z := -1.
Definition CCL_BIB1_TRU_CAN_RIGHT : Z := -2.
Definition CCL_BIB1_TRU_CAN_BOTH : Z := -3.
Definition CCL_BIB1_TRU_CAN_NONE : Z := -4.
Definition CCL_BIB1_TRU_CAN_REGEX : Z := -5.
Definition CCL_BIB1_TRU_CAN_Z3958 : Z := -6.

(** ** Qualifiers (cclqual.c) *)

Record ccl_qualifier := Qualifier {
  q_addr : nat;
  q_name : list Z;
  q_sub : list (option nat);
  q_attr_list : list ccl_rpn_attr;
}.

Record ccl_qualifier_special := Special {
  sp_name : list Z;
  sp_values : list (list Z);
}.

(** [b_next] is the address of the next qualifier that is allocated. *)
Record ccl_qualifiers := Bibset {
  b_list : list ccl_qualifier;
  b_special : list ccl_qualifier_special;
  b_next : nat;
}.

Definition ccl_qual_mk : ccl_qualifiers := Bibset [] [] 0.

Fixpoint qual_lookup (l : list ccl_qualifier) (n : list Z) (len : Z) : option (option ccl_qualifier) :=
  match l with
  | [] => Some None
  | q :: l =>
      let? k := strlen (q_name q) in
      let? same := if len =? k then mem_same (q_name q) n len else Some false in
      if same : bool then Some (Some q) else qual_lookup l n len
  end.
Definition ccl_qual_lookup (b : ccl_qualifiers) (n : list Z) (len : Z) : option (option ccl_qualifier) :=
  qual_lookup (b_list b) n len.

(** The list with the values of the entry of that name, [None] inside without one. *)
Fixpoint special_set (l : list ccl_qualifier_special) (n : list Z) (values : list (list Z))
  : option (option (list ccl_qualifier_special)) :=
  match l with
  | [] => Some None
  | p :: l =>
      let? same := str_same (sp_name p) n in
      if same : bool then Some (Some (Special (sp_name p) values :: l))
      else let? r := special_set l n values in Some (option_map (cons p) r)
  end.

Definition ccl_qual_add_special_ar (bibset : ccl_qualifiers) (n : list Z) (values : list (list Z)) : option ccl_qualifiers :=
  let? r := special_set (b_special bibset) n values in
  Some (Bibset (b_list bibset)
    (match r with Some l => l | None => Special n values :: b_special bibset end) (b_next bibset)).

Definition ccl_qual_new (b : ccl_qualifiers) (name : list Z) : nat * ccl_qualifiers :=
  (b_next b, Bibset (Qualifier (b_next b) name [] [] :: b_list b) (b_special b) (S (b_next b))).

(** The first qualifier whose name is the string [n]. *)
Fixpoint qual_named (l : list ccl_qualifier) (n : list Z) : option (option ccl_qualifier) :=
  match l with
  | [] => Some None
  | q :: l =>
      let? same := str_same (q_name q) n in
      if same : bool then Some (Some q) else qual_named l n
  end.

(** Change the qualifier at an address. *)
Definition update_qual (addr : nat) (f : ccl_qualifier -> ccl_qualifier) (b : ccl_qualifiers) : ccl_qualifiers :=
  Bibset (map (fun q => if Nat.eqb (q_addr q) addr then f q else q) (b_list b)) (b_special b) (b_next b).

(** The qualifiers of the names, made where they are missing. *)
Fixpoint combi_subs (b : ccl_qualifiers) (names : list (list Z)) : option (list nat * ccl_qualifiers) :=
  match names with
  | [] => Some ([], b)
  | n :: names =>
      let? k := strlen n in
      let? q := ccl_qual_lookup b n k in
      let '(a, b) := match q with Some q => (q_addr q, b) | None => ccl_qual_new b n end in
      let? (rest, b) := combi_subs b names in
      Some (a :: rest, b)
  end.

Definition ccl_qual_add_combi (b : ccl_qualifiers) (n : list Z) (names : list (list Z)) : option ccl_qualifiers :=
  let? q := qual_named (b_list b) n in
  match q with
  | Some _ => Some b
  | None =>
      let '(a, b) := ccl_qual_new b n in
      let? (subs, b) := combi_subs b names in
      Some (update_qual a (fun q => Qualifier (q_addr q) (q_name q) (map Some subs) (q_attr_list q)) b)
  end.

(** The four arrays, as the list of their rows. *)
Definition attr_row : Type := Z * Z * option (list Z) * option (list Z).
Definition row_attr (r : attr_row) : ccl_rpn_attr :=
  let '(type, value, svalue, attset) := r in
  Attr attset type (match svalue with Some s => CCL_RPN_ATTR_STRING s | None => CCL_RPN_ATTR_NUMERIC value end).

Definition ccl_qual_add_set (b : ccl_qualifiers) (name : list Z) (rows : list attr_row) : option ccl_qualifiers :=
  let? q := qual_named (b_list b) name in
  let '(a, b) := match q with Some q => (q_addr q, b) | None => ccl_qual_new b name end in
  Some (update_qual a (fun q => Qualifier (q_addr q) (q_name q) (q_sub q) (q_attr_list q ++ map row_attr rows)) b).

(** The copy of a sub-qualifier of the [k]-th qualifier: the entries of the copy
    that are there by then are those of [qs], up to that qualifier. *)
Definition dup_sub (qs : list ccl_qualifier) (s : option nat) : option nat :=
  match s with
  | Some a => if existsb (fun q => Nat.eqb (q_addr q) a) qs then Some a else None
  | None => None
  end.
Fixpoint dup_list (done l : list ccl_qualifier) : list ccl_qualifier :=
  match l with
  | [] => []
  | q :: l =>
      let done := done ++ [q] in
      Qualifier (q_addr q) (q_name q) (map (dup_sub done) (q_sub q)) (q_attr_list q) :: dup_list done l
  end.
Definition ccl_qual_dup (b : ccl_qualifiers) : ccl_qualifiers :=
  Bibset (dup_list [] (b_list b)) (b_special b) (b_next b).

Fixpoint special_search (l : list ccl_qualifier_special) (name : list Z) : option (option (list (list Z))) :=
  match l with
  | [] => Some None
  | p :: l =>
      let? same := str_same (sp_name p) name in
      if same : bool then Some (Some (sp_values p)) else special_search l name
  end.

(** A null bibset has no special qualifiers. *)
Definition ccl_qual_search_special (b : option ccl_qualifiers) (name : list Z) : option (option (list (list Z))) :=
  match b with
  | None => Some None
  | Some b => special_search (b_special b) (name ++ [0])
  end.

(** [case_sensitive]: of the profile, or else of the parser. *)
Definition case_flag (b : option ccl_qualifiers) (ccl_case_sensitive : Z) : option Z :=
  let? aliases := ccl_qual_search_special b (str "case") in
  match aliases with
  | Some values => let? v := head values in atoi v
  | None => Some ccl_case_sensitive
  end.

(** The same name, in the way that [case_sensitive] says. *)
Definition name_same (case_sensitive : Z) (s1 s2 : list Z) (n : Z) : option bool :=
  if negb (case_sensitive =? 0) then mem_same s1 s2 n
  else let? r := ccl_memicmp s1 s2 n in Some (r =? 0).

Fixpoint qual_search (case_sensitive : Z) (l : list ccl_qualifier) (name : list Z) (name_len : Z) : option (option ccl_qualifier) :=
  match l with
  | [] => Some None
  | q :: l =>
      let? k := strlen (q_name q) in
      let? same := if k =? name_len then name_same case_sensitive name (q_name q) name_len else Some false in
      if same : bool then Some (Some q) else qual_search case_sensitive l name name_len
  end.

Fixpoint qual_at (l : list ccl_qualifier) (a : nat) : option ccl_qualifier :=
  match l with
  | [] => None
  | q :: l => if Nat.eqb (q_addr q) a then Some q else qual_at l a
  end.

Definition ccl_qual_search (bibset : option ccl_qualifiers) (ccl_case_sensitive : Z) (name : list Z) (name_len : Z) (seq : nat)
  : option (option ccl_qualifier) :=
  match bibset with
  | None => Some None
  | Some b =>
      let? case_sensitive := case_flag bibset ccl_case_sensitive in
      let? q := qual_search case_sensitive (b_list b) name name_len in
      match q with
      | None => Some None
      | Some q =>
          match q_sub q with
          | [] => Some (match seq with O => Some q | S _ => None end)
          | subs =>
              match subs !! seq with
              | Some (Some a) => let? q := qual_at (b_list b) a in Some (Some q)
              | _ => Some None
              end
          end
      end
  end.

Definition ccl_qual_get_attr (q : ccl_qualifier) : list ccl_rpn_attr := q_attr_list q.
Definition ccl_qual_get_name (q : ccl_qualifier) : list Z := q_name q.

Definition ccl_parser_qual_search (bibset : option ccl_qualifiers) (ccl_case_sensitive : Z) (name : list Z) (name_len : Z)
  : option (list ccl_rpn_attr) :=
  let? q := ccl_qual_search bibset ccl_case_sensitive name name_len 0 in
  Some (match q with Some q => q_attr_list q | None => [] end).

(** ** Stop words of a profile *)

Fixpoint in_stop_list (slist : list (list Z)) (src_str : list Z) (src_len : Z) : option bool :=
  match slist with
  | [] => Some false
  | s :: slist =>
      let? k := strlen s in
      let? same := if src_len =? k then let? r := ccl_memicmp s src_str src_len in Some (r =? 0) else Some false in
      if same : bool then Some true else in_stop_list slist src_str src_len
  end.

(** The name is cut to the array of 80 octets, less one. *)
Definition ccl_search_stop (bibset : option ccl_qualifiers) (qname : option (list Z)) (src_str : list Z) (src_len : Z) : option bool :=
  let? slist :=
    match qname with
    | Some qname =>
        let? n := cstr qname in
        ccl_qual_search_special bibset (take 78 (str "stop." ++ n))
    | None => Some None
    end in
  let? slist :=
    match slist with
    | Some l => Some (Some l)
    | None => ccl_qual_search_special bibset (str "stop.*")
    end in
  match slist with
  | Some slist => in_stop_list slist src_str src_len
  | None => Some false
  end.
