(* ===== verification/CclToken.v ===== *)
(** * The tokens of CCL (ccltoken.c, cclp.h)

    The list of tokens is linked in both directions; the parser holds a pointer
    to the current one.  The pointer to a token is its number in the list: the
    parser adds tokens after the current one only, so that pointers it has kept
    stay right. *)

From stdpp Require Import base list numbers option strings.
From Stdlib Require Import ZArith Lia.
From S2P Require Import Prelude Text Ccl.

Inductive ccl_tok :=
  | CCL_TOK_EOL | CCL_TOK_TERM | CCL_TOK_REL | CCL_TOK_EQ | CCL_TOK_PROX | CCL_TOK_LP
  | CCL_TOK_RP | CCL_TOK_COMMA | CCL_TOK_AND | CCL_TOK_OR | CCL_TOK_NOT | CCL_TOK_SET.

#[export] Instance ccl_tok_eq_dec : EqDecision ccl_tok.
Proof. solve_decision. Defined.

(** The name is the memory it points to; [t_off] is its place in the command,
    [None] where it points to a literal. *)
Record ccl_token := Token {
  t_kind : ccl_tok;
  t_len : Z;
  t_name : list Z;
  t_off : option Z;
  t_ws_buf : list Z;
  t_ws_len : Z;
}.

Record ccl_parser := Parser {
  tokens : list ccl_token;
  look_token : nat;
  error_code : Z;
  error_pos : option Z;
  bibset : option ccl_qualifiers;
  ccl_token_and : list (list Z);
  ccl_token_or : list (list Z);
  ccl_token_not : list (list Z);
  ccl_token_set : list (list Z);
  ccl_case_sensitive : Z;
}.

Definition ccl_parser_create (bibset : option ccl_qualifiers) : ccl_parser :=
  Parser [] 0 0 None bibset [str "and" ++ [0]] [str "or" ++ [0]] [str "not" ++ [0]; str "andnot" ++ [0]] [str "set" ++ [0]] 1.

Definition ccl_parser_set_case (flag : Z) (p : ccl_parser) : ccl_parser :=
  Parser (tokens p) (look_token p) (error_code p) (error_pos p) (bibset p) (ccl_token_and p) (ccl_token_or p)
    (ccl_token_not p) (ccl_token_set p) flag.

(** The code and, if it is not zero, the place of the error. *)
Definition ccl_parser_get_error (p : ccl_parser) : option (Z * option Z) :=
  if error_code p =? 0 then Some (0, None) else let? pos := error_pos p in Some (error_code p, Some pos).

(** ** Scanning *)

Fixpoint any_keyword (case_sensitive : Z) (kw : list (list Z)) (name : list Z) (len : Z) : option bool :=
  match kw with
  | [] => Some false
  | k :: kw =>
      let? n := strlen k in
      let? same := if len =? n then name_same case_sensitive k name len else Some false in
      if same : bool then Some true else any_keyword case_sensitive kw name len
  end.

Definition token_cmp (p : ccl_parser) (kw : list (list Z)) (name : list Z) (len : Z) : option bool :=
  let? case_sensitive := case_flag (bibset p) (ccl_case_sensitive p) in
  any_keyword case_sensitive kw name len.

Fixpoint skip_ws (cp : list Z) : option (list Z) :=
  match cp with
  | [] => None
  | c :: cp' => if negb (c =? 0) && strchr [32; 9; 13; 10] c then skip_ws cp' else Some cp
  end.

(** How many digits there are. *)
Fixpoint count_digits (cp : list Z) : option Z :=
  match cp with
  | [] => None
  | c :: cp => if yaz_isdigit c then Z.succ <$> count_digits cp else Some 0
  end.

(** From a quotation mark to the one that closes it, or the end; the octets
    passed over are counted in [n]. *)
Fixpoint quoted_end (cp : list Z) (n : Z) : option (list Z * Z) :=
  match cp with
  | [] => None
  | c :: cp1 =>
      if c =? 0 then Some (cp, n)
      else match cp1 with
           | [] => None
           | d :: cp2 =>
               let? escape := if d =? 92 then let? e := rd cp2 0 in Some (negb (e =? 0)) else Some false in
               if escape : bool then quoted_end cp2 (n + 2)
               else if d =? 34 then Some (cp1, n + 1)
               else quoted_end cp1 (n + 1)
           end
  end.

Definition ends_term (c : Z) : bool := strchr [40; 41; 44; 37; 33; 62; 60; 61; 32; 9; 10; 13] c.

Fixpoint term_end (fuel : nat) (cp : list Z) (n : Z) : option (list Z * Z) :=
  match fuel with
  | O => None
  | S fuel =>
      match cp with
      | [] => None
      | c :: cp1 =>
          if (c =? 0) || ends_term c then Some (cp, n)
          else
            let? escape := if c =? 92 then let? d := rd cp1 0 in Some (negb (d =? 0)) else Some false in
            if escape : bool then term_end fuel (drop 1 cp1) (n + 2)
            else if c =? 34 then
              let? (cp, n) := quoted_end cp n in
              let? d := rd cp 0 in
              if d =? 0 then Some (cp, n) else term_end fuel (drop 1 cp) (n + 1)
            else term_end fuel cp1 (n + 1)
      end
  end.

(** The keywords of an operator: those of the profile or of the parser. *)
Definition operator_aliases (p : ccl_parser) (name : list Z) (default : list (list Z)) : option (list (list Z)) :=
  let? aliases := ccl_qual_search_special (bibset p) name in
  Some (match aliases with Some l => l | None => default end).

(** A keyword that comes later in the list of tests wins. *)
Fixpoint keyword_kind (p : ccl_parser) (tests : list (list Z * list (list Z) * ccl_tok)) (name : list Z) (len : Z) (k : ccl_tok)
  : option ccl_tok :=
  match tests with
  | [] => Some k
  | (n, default, t) :: tests =>
      let? aliases := operator_aliases p n default in
      let? b := token_cmp p aliases name len in
      keyword_kind p tests name len (if b : bool then t else k)
  end.

Definition keyword_tests (p : ccl_parser) : list (list Z * list (list Z) * ccl_tok) :=
  [(str "and", ccl_token_and p, CCL_TOK_AND);
   (str "or", ccl_token_or p, CCL_TOK_OR);
   (str "not", ccl_token_not p, CCL_TOK_NOT);
   (str "set", ccl_token_set p, CCL_TOK_SET)].

(** The kind and the length of the token at [cp], and where it ends. *)
Definition scan_token (p : ccl_parser) (cp : list Z) : option (ccl_tok * Z * list Z) :=
  let? c := rd cp 0 in
  let cp1 := drop 1 cp in
  if c =? 0 then Some (CCL_TOK_EOL, 1, cp1)
  else if c =? 40 then Some (CCL_TOK_LP, 1, cp1)
  else if c =? 41 then Some (CCL_TOK_RP, 1, cp1)
  else if c =? 44 then Some (CCL_TOK_COMMA, 1, cp1)
  else if (c =? 37) || (c =? 33) then
    let? n := count_digits cp1 in
    Some (CCL_TOK_PROX, 1 + n, drop (Z.to_nat n) cp1)
  else if (c =? 62) || (c =? 60) || (c =? 61) then
    let? d := rd cp1 0 in
    if (d =? 61) || (d =? 60) || (d =? 62) then Some (CCL_TOK_REL, 2, drop 1 cp1)
    else Some (if c =? 61 then CCL_TOK_EQ else CCL_TOK_REL, 1, cp1)
  else
    let? (e, n) := term_end (S (length cp)) cp 0 in
    let? k := keyword_kind p (keyword_tests p) cp n CCL_TOK_TERM in
    Some (k, n, e).

Fixpoint tokenize_loop (fuel : nat) (p : ccl_parser) (size : Z) (cp0 : list Z) : option (list ccl_token) :=
  match fuel with
  | O => None
  | S fuel =>
      let? cp := skip_ws cp0 in
      let? (k, n, e) := scan_token p cp in
      let t := Token k n cp (Some (size - zlen cp)) cp0 (zlen cp0 - zlen cp) in
      if bool_decide (k = CCL_TOK_EOL) then Some [t]
      else let? ts := tokenize_loop fuel p size e in Some (t :: ts)
  end.

Definition ccl_parser_tokenize (p : ccl_parser) (command : list Z) : option (list ccl_token) :=
  tokenize_loop (S (length command)) p (zlen command) command.

(** A token after the one with number [at_]. *)
Definition ccl_token_add (at_ : nat) (n : ccl_token) (ts : list ccl_token) : list ccl_token :=
  take (S at_) ts ++ n :: drop (S at_) ts.
