(* ===== verification/CclFind.v ===== *)
(** * The CCL parser (cclfind.c)

    A predictive parser over the list of tokens.  [find_spec] calls itself for
    what is in parentheses; the functions in between take it as an argument. *)

From stdpp Require Import base list numbers option strings.
From Stdlib Require Import ZArith Lia.
From S2P Require Import Prelude Text Ccl CclToken.

(** ** Trees *)

Definition ccl_rpn_node_mkbool (l r : option ccl_rpn_node) (op : ccl_bool) : option ccl_rpn_node :=
  match l, r with
  | Some l, Some r => Some (CCL_RPN_BOOL op l r [])
  | None, Some r => Some r
  | _, _ => l
  end.

(** Undefined where what is deleted is not a tree. *)
Fixpoint ccl_rpn_delete (rpn : ccl_rpn_node) : option unit :=
  match rpn with
  | CCL_RPN_BOOL _ l r _ => let? _ := ccl_rpn_delete l in ccl_rpn_delete r
  | CCL_RPN_PROX l r p2 =>
      let? _ := ccl_rpn_delete l in
      let? _ := ccl_rpn_delete r in
      match p2 with P_attrs _ => None | _ => Some tt end
  | CCL_RPN_TERM _ _ _ | CCL_RPN_SET _ => Some tt
  | CCL_FREED => None
  end.

Definition add_attr_node (al : list ccl_rpn_attr) (set : option (list Z)) (type : Z) (v : attr_value) : list ccl_rpn_attr :=
  Attr set type v :: al.

(** The attribute list of a node, as the place in the union that it is: that of
    a set was never written, and parameters of proximity are not attributes. *)
Definition attr_list_of (p : ccl_rpn_node) : option (list ccl_rpn_attr) :=
  match p with
  | CCL_RPN_TERM _ _ al | CCL_RPN_BOOL _ _ _ al | CCL_RPN_PROX _ _ (P_attrs al) => Some al
  | CCL_RPN_PROX _ _ P_null => Some []
  | _ => None
  end.
Definition set_attr_list (al : list ccl_rpn_attr) (p : ccl_rpn_node) : ccl_rpn_node :=
  match p with
  | CCL_RPN_TERM t q _ => CCL_RPN_TERM t q al
  | CCL_RPN_BOOL op l r _ => CCL_RPN_BOOL op l r al
  | CCL_RPN_PROX l r _ => CCL_RPN_PROX l r (P_attrs al)
  | p => p
  end.

Definition ccl_add_attr_numeric (p : ccl_rpn_node) (set : option (list Z)) (type value : Z) : option ccl_rpn_node :=
  let? al := attr_list_of p in
  Some (set_attr_list (add_attr_node al set type (CCL_RPN_ATTR_NUMERIC value)) p).

Definition ccl_add_attr_string (p : ccl_rpn_node) (set : option (list Z)) (type : Z) (value : list Z) : option ccl_rpn_node :=
  let? al := attr_list_of p in
  Some (set_attr_list (add_attr_node al set type (CCL_RPN_ATTR_STRING value)) p).

(** The attributes with the value of the first one of that type replaced. *)
Fixpoint replace_attr (al : list ccl_rpn_attr) (set : option (list Z)) (type value : Z) : option (list ccl_rpn_attr) :=
  match al with
  | [] => None
  | a :: al =>
      if a_type a =? type then Some (Attr set type (CCL_RPN_ATTR_NUMERIC value) :: al)
      else cons a <$> replace_attr al set type value
  end.

Definition ccl_set_attr_numeric (p : ccl_rpn_node) (set : option (list Z)) (type value : Z) : option ccl_rpn_node :=
  let? al := attr_list_of p in
  match replace_attr al set type value with
  | Some al => Some (set_attr_list al p)
  | None => ccl_add_attr_numeric p set type value
  end.

(** ** Qualifiers of a term *)

(** The array of qualifiers, null or terminated by null. *)
Definition quals : Type := option (list ccl_qualifier).

(** An attribute of the type and the value: its set. *)
Fixpoint attr_val_type (al : list ccl_rpn_attr) (type value : Z) : option (option (list Z)) :=
  match al with
  | [] => None
  | a :: al =>
      match a_value a with
      | CCL_RPN_ATTR_NUMERIC n =>
          if (a_type a =? type) && (n =? value) then Some (a_set a) else attr_val_type al type value
      | _ => attr_val_type al type value
      end
  end.
Definition has_numeric (type : Z) (a : ccl_rpn_attr) : bool :=
  match a_value a with CCL_RPN_ATTR_NUMERIC _ => a_type a =? type | _ => false end.
Fixpoint qa_val_type (qa : list ccl_qualifier) (type value : Z) : option (option (list Z)) :=
  match qa with
  | [] => None
  | q :: qa =>
      match attr_val_type (ccl_qual_get_attr q) type value with
      | Some s => Some s
      | None => if existsb (has_numeric type) (ccl_qual_get_attr q) then None else qa_val_type qa type value
      end
  end.
(** The set of the attribute that is found. *)
Definition qual_val_type (qa : quals) (type value : Z) : option (option (list Z)) :=
  match qa with Some qa => qa_val_type qa type value | None => None end.
Definition has_val (qa : quals) (type value : Z) : bool := bool_decide (is_Some (qual_val_type qa type value)).

(** The identity of an attribute: the address of its qualifier and its place. *)
Definition attr_ptr : Type := nat * nat.
Definition other_use (use : option attr_ptr) (at_ : attr_ptr) : bool :=
  match use with Some u => negb (bool_decide (u = at_)) | None => false end.

(** The attributes of a qualifier that a term gets; [sv] is [structure_value]. *)
Fixpoint copy_attrs (use : option attr_ptr) (addr i : nat) (al acc : list ccl_rpn_attr) (sv : Z) : list ccl_rpn_attr * Z :=
  match al with
  | [] => (acc, sv)
  | a :: al =>
      if (a_type a =? 1) && other_use use (addr, i) then copy_attrs use addr (S i) al acc sv
      else
        match a_value a with
        | CCL_RPN_ATTR_STRING s =>
            copy_attrs use addr (S i) al (add_attr_node acc (a_set a) (a_type a) (a_value a)) sv
        | CCL_RPN_ATTR_NUMERIC n =>
            if 0 <? n then
              if (a_type a =? CCL_BIB1_STR) && negb (sv =? -1) then copy_attrs use addr (S i) al acc sv
              else copy_attrs use addr (S i) al (add_attr_node acc (a_set a) (a_type a) (a_value a))
                     (if a_type a =? CCL_BIB1_STR then n else sv)
            else copy_attrs use addr (S i) al acc sv
        end
  end.
Fixpoint copy_all_attrs (use : option attr_ptr) (qa : list ccl_qualifier) (acc : list ccl_rpn_attr) (sv : Z) : list ccl_rpn_attr * Z :=
  match qa with
  | [] => (acc, sv)
  | q :: qa =>
      let '(acc, sv) := copy_attrs use (q_addr q) 0 (ccl_qual_get_attr q) acc sv in
      copy_all_attrs use qa acc sv
  end.

(** ** Truncation and masking *)

(** [for (i = 0; *cp && *cp == input[i]; i++, cp++)]: [Some i] inside where the
    alias was exhausted. *)
Fixpoint match_alias (cp input : list Z) (i : Z) : option (option Z) :=
  match cp with
  | [] => None
  | c :: cp =>
      if c =? 0 then Some (Some i)
      else match input with
           | [] => None
           | x :: input => if c =? x then match_alias cp input (i + 1) else Some None
           end
  end.
Fixpoint cmp_operator (aliases : list (list Z)) (input : list Z) : option Z :=
  match aliases with
  | [] => Some 0
  | a :: aliases =>
      let? r := match_alias a input 0 in
      match r with Some i => Some i | None => cmp_operator aliases input end
  end.

Definition is_regex (c : Z) : bool := strchr (str "^[]{}()|.*+?!$") c.
Definition is_ccl_char (c : Z) : bool := strchr (str "#?" ++ [92]) c.

(** [j > 0 && src_str[j-1] == '\\'] *)
Definition after_backslash (s : list Z) (j : Z) : option bool :=
  if 0 <? j then let? c := rd s (j - 1) in Some (c =? 92) else Some false.

Fixpoint masking_loop (fuel : nat) (s : list Z) (len : Z) (trunc mask : list (list Z)) (j : Z) (quote_mode : bool) : option bool :=
  match fuel with
  | O => None
  | S fuel =>
      if j <? len then
        let? esc := after_backslash s j in
        let? c := rd s j in
        if esc : bool then masking_loop fuel s len trunc mask (j + 1) quote_mode
        else if c =? 34 then masking_loop fuel s len trunc mask (j + 1) (negb quote_mode)
        else if quote_mode then masking_loop fuel s len trunc mask (j + 1) quote_mode
        else
          let? n := cmp_operator trunc (drop (Z.to_nat j) s) in
          if negb (n =? 0) then Some true
          else
            let? n := cmp_operator mask (drop (Z.to_nat j) s) in
            if negb (n =? 0) then Some true else masking_loop fuel s len trunc mask (j + 1) quote_mode
      else Some false
  end.
Definition has_ccl_masking (s : list Z) (len : Z) (trunc mask : list (list Z)) : option bool :=
  masking_loop (S (Z.to_nat len)) s len trunc mask 0 false.

(** [strcat] and [strxcat] to a block of [cap] octets. *)
Definition cat (cap : Z) (dst s : list Z) : option (list Z) :=
  if zlen dst + zlen s + 1 <=? cap then Some (dst ++ s) else None.

(** The octets that a character becomes. *)
Definition masked_char (regex_trunc z3958_trunc escaped : bool) (c : Z) : list Z :=
  if regex_trunc && (is_regex c || (escaped && (c =? 92))) then [92; c]
  else if z3958_trunc && is_ccl_char c then [92; c]
  else [c].

(** What has been made of a term: its text and the truncations that were found. *)
Record term_state := TermState { dst_term : list Z; left_trunc : bool; right_trunc : bool }.

(** [inl] of an error, or the term with the token appended. *)
Fixpoint append_loop (fuel : nat) (s : list Z) (len cap : Z) (regex_trunc z3958_trunc : bool) (trunc mask : list (list Z))
  (is_first is_last : bool) (j : Z) (quote_mode : bool) (st : term_state) : option (Z + term_state) :=
  match fuel with
  | O => None
  | S fuel =>
      let next j quote_mode st :=
        append_loop fuel s len cap regex_trunc z3958_trunc trunc mask is_first is_last j quote_mode st in
      let put j text :=
        let? d := cat cap (dst_term st) text in
        next j quote_mode (TermState d (left_trunc st) (right_trunc st)) in
      if j <? len then
        let? esc := after_backslash s j in
        let? c := rd s j in
        if esc : bool then put (j + 1) (masked_char regex_trunc z3958_trunc true c)
        else if c =? 34 then next (j + 1) (negb quote_mode) st
        else
          let? tn := if quote_mode then Some 0 else cmp_operator trunc (drop (Z.to_nat j) s) in
          if negb (tn =? 0) then
            let j := j + (tn - 1) in
            if regex_trunc then put (j + 1) (str ".*")
            else if z3958_trunc then put (j + 1) (str "?")
            else if is_first && (j =? 0) then next (j + 1) quote_mode (TermState (dst_term st) true (right_trunc st))
            else if is_last && (j =? len - 1) then next (j + 1) quote_mode (TermState (dst_term st) (left_trunc st) true)
            else Some (inl CCL_ERR_TRUNC_NOT_EMBED)
          else
            let? mn := if quote_mode then Some 0 else cmp_operator mask (drop (Z.to_nat j) s) in
            if negb (mn =? 0) then
              let j := j + (mn - 1) in
              if regex_trunc then put (j + 1) (str ".")
              else if z3958_trunc then put (j + 1) (str "#")
              else Some (inl CCL_ERR_TRUNC_NOT_SINGLE)
            else if negb (c =? 92) then put (j + 1) (masked_char regex_trunc z3958_trunc false c)
            else next (j + 1) quote_mode st
      else Some (inr st)
  end.
Definition append_term (s : list Z) (len cap : Z) (regex_trunc z3958_trunc : bool) (trunc mask : list (list Z))
  (is_first is_last : bool) (st : term_state) : option (Z + term_state) :=
  append_loop (S (Z.to_nat len)) s len cap regex_trunc z3958_trunc trunc mask is_first is_last 0 false st.

(** ** The parser *)

Abbreviation CCL := (M ccl_parser).

Definition set_look (i : nat) (p : ccl_parser) : ccl_parser :=
  Parser (tokens p) i (error_code p) (error_pos p) (bibset p) (ccl_token_and p) (ccl_token_or p)
    (ccl_token_not p) (ccl_token_set p) (ccl_case_sensitive p).
Definition set_error (e : Z) (p : ccl_parser) : ccl_parser :=
  Parser (tokens p) (look_token p) e (error_pos p) (bibset p) (ccl_token_and p) (ccl_token_or p)
    (ccl_token_not p) (ccl_token_set p) (ccl_case_sensitive p).
Definition set_error_pos (e : option Z) (p : ccl_parser) : ccl_parser :=
  Parser (tokens p) (look_token p) (error_code p) e (bibset p) (ccl_token_and p) (ccl_token_or p)
    (ccl_token_not p) (ccl_token_set p) (ccl_case_sensitive p).
Definition set_tokens (ts : list ccl_token) (p : ccl_parser) : ccl_parser :=
  Parser ts (look_token p) (error_code p) (error_pos p) (bibset p) (ccl_token_and p) (ccl_token_or p)
    (ccl_token_not p) (ccl_token_set p) (ccl_case_sensitive p).

(** The token with a number, the current one, its kind, and the next. *)
Definition token_at (i : nat) : CCL ccl_token := let* p := get in lift (tokens p !! i).
Definition look : CCL ccl_token := let* p := get in token_at (look_token p).
Definition KIND : CCL ccl_tok := let* t := look in ret (t_kind t).
Definition ADVANCE : CCL unit := let* _ := look in modify (fun p => set_look (S (look_token p)) p).
Fixpoint advance_by (n : nat) : CCL unit := match n with O => ret tt | S n => ADVANCE ;; advance_by n end.

Definition fails {A} (e : Z) : CCL (option A) := modify (set_error e) ;; ret None.
Definition special (name : list Z) : CCL (option (list (list Z))) :=
  let* p := get in lift (ccl_qual_search_special (bibset p) name).
Definition search_qual (name : list Z) (len : Z) (seq : nat) : CCL (option ccl_qualifier) :=
  let* p := get in lift (ccl_qual_search (bibset p) (ccl_case_sensitive p) name len seq).
Definition delete (t : option ccl_rpn_node) : CCL unit :=
  match t with Some t => lift (ccl_rpn_delete t) | None => ret tt end.
Definition is_kind (k : ccl_tok) : CCL bool := let* t := KIND in ret (bool_decide (t = k)).

Definition is_term_ok (look : ccl_tok) (list : list ccl_tok) : bool := bool_decide (look ∈ list).

Definition aliases_or (name : list Z) (default : list Z) : CCL (list (list Z)) :=
  let* a := special name in ret (match a with Some l => l | None => [default ++ [0]] end).

(** Whether one of the [no] tokens from [i] is masked, and [term_len]. *)
Fixpoint scan_terms (no : nat) (i : nat) (trunc mask : list (list Z)) (masked : bool) (term_len : Z) : CCL (bool * Z) :=
  match no with
  | O => ret (masked, term_len)
  | S no =>
      let* t := token_at i in
      let* m := lift (has_ccl_masking (t_name t) (t_len t) trunc mask) in
      scan_terms no (S i) trunc mask (masked || m) (term_len + (1 + t_len t + t_ws_len t))
  end.

(** The text of the [no] tokens from [i]; the last one is the one with [no = 1]. *)
Fixpoint append_terms (no : nat) (is_first : bool) (i : nat) (cap : Z) (regex_trunc z3958_trunc : bool) (trunc mask : list (list Z))
  (st : term_state) : CCL (Z + term_state) :=
  match no with
  | O => ret (inr st)
  | S no' =>
      let* t := token_at i in
      let* d := if negb (zlen (dst_term st) =? 0) && negb (t_ws_len t =? 0)
                then let* ws := lift (sub (t_ws_buf t) 0 (t_ws_len t)) in lift (cat cap (dst_term st) ws)
                else ret (dst_term st) in
      let* r := lift (append_term (t_name t) (t_len t) cap regex_trunc z3958_trunc trunc mask is_first
                        (match no' with O => true | S _ => false end) (TermState d (left_trunc st) (right_trunc st))) in
      match r with
      | inl e => ret (inl e)
      | inr st => append_terms no' false (S i) cap regex_trunc z3958_trunc trunc mask st
      end
  end.

Definition truncation_attr (qa : quals) (st : term_state) (regex_trunc z3958_trunc : bool) (attset : option (list Z))
  : Z + option (option (list Z) * Z) :=
  let need value err attr :=
    match qual_val_type qa CCL_BIB1_TRU value with
    | Some s => inr (Some (s, attr))
    | None => inl err
    end in
  if left_trunc st && right_trunc st then need CCL_BIB1_TRU_CAN_BOTH CCL_ERR_TRUNC_NOT_BOTH 3
  else if right_trunc st then need CCL_BIB1_TRU_CAN_RIGHT CCL_ERR_TRUNC_NOT_RIGHT 1
  else if left_trunc st then need CCL_BIB1_TRU_CAN_LEFT CCL_ERR_TRUNC_NOT_LEFT 2
  else if regex_trunc then inr (Some (attset, 102))
  else if z3958_trunc then inr (Some (attset, 104))
  else inr (match qual_val_type qa CCL_BIB1_TRU CCL_BIB1_TRU_CAN_NONE with
            | Some s => Some (s, 100)
            | None => None
            end).

(** The structure attribute for words and phrases, and [attset] after it. *)
Definition structure_attr (qa : quals) (sv : Z) (is_phrase auto_group : bool) (al : list ccl_rpn_attr)
  : list ccl_rpn_attr * option (list Z) :=
  let add attset := (add_attr_node al attset CCL_BIB1_STR (CCL_RPN_ATTR_NUMERIC (if is_phrase then 1 else 2)), attset) in
  if sv =? -1 then
    if auto_group then add None
    else match qual_val_type qa CCL_BIB1_STR CCL_BIB1_STR_WP with
         | Some attset => add attset
         | None => (al, None)
         end
  else (al, None).

(** Which kind of masking is used, and [attset] after it. *)
Definition masking_mode (qa : quals) (masked : bool) (attset : option (list Z)) : bool * bool * option (list Z) :=
  match qual_val_type qa CCL_BIB1_TRU CCL_BIB1_TRU_CAN_REGEX with
  | Some s => (masked, false, s)
  | None =>
      match qual_val_type qa CCL_BIB1_TRU CCL_BIB1_TRU_CAN_Z3958 with
      | Some s => (false, masked, s)
      | None => (false, false, attset)
      end
  end.

Definition ccl_term_one_use (lookahead0 : nat) (attr_use : option attr_ptr) (qa : quals) (no : nat) (is_phrase auto_group : bool)
  : CCL (option ccl_rpn_node) :=
  let* truncation_aliases := aliases_or (str "truncation") (str "?") in
  let* mask_aliases := aliases_or (str "mask") (str "#") in
  let* (is_ccl_masked, term_len) := scan_terms no lookahead0 truncation_aliases mask_aliases false 0 in
  let qual := match qa with Some (q :: _) => Some (ccl_qual_get_name q) | _ => None end in
  let '(al, structure_value) := copy_all_attrs attr_use (match qa with Some qa => qa | None => [] end) [] (-1) in
  let '(al, attset) := structure_attr qa structure_value is_phrase auto_group al in
  let '(regex_trunc, z3958_trunc, attset) := masking_mode qa is_ccl_masked attset in
  let cap := term_len * 2 + 2 in
  if INT_MAX <? cap then fault
  else
    let* r := append_terms no true lookahead0 cap regex_trunc z3958_trunc truncation_aliases mask_aliases
                (TermState [] false false) in
    match r with
    | inl e => fails e
    | inr st =>
        match truncation_attr qa st regex_trunc z3958_trunc attset with
        | inl e => fails e
        | inr None => ret (Some (CCL_RPN_TERM (dst_term st ++ [0]) qual al))
        | inr (Some (s, v)) =>
            ret (Some (CCL_RPN_TERM (dst_term st ++ [0]) qual (add_attr_node al s CCL_BIB1_TRU (CCL_RPN_ATTR_NUMERIC v))))
        end
    end.

(** One term for every use attribute of the first qualifier, joined by OR:
    [al] are its attributes from the place [j] on, [p] the tree so far. *)
Fixpoint multi_use_loop (al : list ccl_rpn_attr) (addr j lookahead0 : nat) (qa : quals) (no : nat) (is_phrase auto_group : bool)
  (p : option ccl_rpn_node) : CCL (option (option ccl_rpn_node)) :=
  match al with
  | [] => ret (Some p)
  | a :: al =>
      if a_type a =? 1 then
        let* tmp2 := ccl_term_one_use lookahead0 (Some (addr, j)) qa no is_phrase auto_group in
        match tmp2 with
        | None => delete p ;; ret None
        | Some t => multi_use_loop al addr (S j) lookahead0 qa no is_phrase auto_group (ccl_rpn_node_mkbool p (Some t) CCL_RPN_OR)
        end
      else multi_use_loop al addr (S j) lookahead0 qa no is_phrase auto_group p
  end.

Definition ccl_term_multi_use (lookahead0 : nat) (qa : quals) (no : nat) (is_phrase auto_group : bool) : CCL (option ccl_rpn_node) :=
  let* r := match qa with
            | Some (q :: _) => multi_use_loop (ccl_qual_get_attr q) (q_addr q) 0 lookahead0 qa no is_phrase auto_group None
            | _ => ret (Some None)
            end in
  match r with
  | None => ret None
  | Some (Some p) => ret (Some p)
  | Some None => ccl_term_one_use lookahead0 None qa no is_phrase auto_group
  end.

(** ** Lists of words *)

(** The phrases of [l] words and more from the token [ar], each with the splits
    ([rec]) of the words after it; [k] phrases are left to try. *)
Fixpoint split_loop (rec : nat -> nat -> CCL (option ccl_rpn_node)) (qa : quals) (ar sz k l : nat) (p_top : option ccl_rpn_node)
  : CCL (option ccl_rpn_node) :=
  match k with
  | O => match p_top with Some _ => ret p_top | None => fault end
  | S k =>
      let* p2 := ccl_term_multi_use ar qa l (Nat.ltb 1 l) false in
      match p2 with
      | None => delete p_top ;; ret None
      | Some _ =>
          if Nat.ltb l sz then
            let* p1 := rec (ar + l)%nat (sz - l)%nat in
            match p1 with
            | None => delete p2 ;; ret None
            | Some _ => split_loop rec qa ar sz k (S l) (ccl_rpn_node_mkbool p_top (ccl_rpn_node_mkbool p2 p1 CCL_RPN_AND) CCL_RPN_OR)
            end
          else split_loop rec qa ar sz k (S l) (ccl_rpn_node_mkbool p_top p2 CCL_RPN_OR)
      end
  end.
Fixpoint split_recur (fuel : nat) (qa : quals) (ar sz sub_len : nat) : CCL (option ccl_rpn_node) :=
  match fuel with
  | O => fault
  | S fuel => split_loop (fun ar sz => split_recur fuel qa ar sz sub_len) qa ar sz (Nat.min sz sub_len) 1 None
  end.

(** How many tokens from [i] on are among [term_list]. *)
Fixpoint count_ok (fuel : nat) (term_list : list ccl_tok) (i : nat) : CCL nat :=
  match fuel with
  | O => fault
  | S fuel =>
      let* t := token_at i in
      if is_term_ok (t_kind t) term_list then let* n := count_ok fuel term_list (S i) in ret (S n) else ret O
  end.

Definition search_term_split_list (qa : quals) (term_list : list ccl_tok) : CCL (option ccl_rpn_node) :=
  let* p := get in
  let* sz := count_ok (S (length (tokens p))) term_list (look_token p) in
  match sz with
  | O => fails CCL_ERR_TERM_EXPECTED
  | _ =>
      let sub_len := if Nat.leb 7 sz then 1%nat else if Nat.leb 5 sz then 2%nat else 3%nat in
      let* t := split_recur sz qa (look_token p) sz sub_len in
      advance_by sz ;;
      ret t
  end.

(** The tokens that make one term: how many, and whether they are a phrase. *)
Fixpoint group_loop (max : nat) (auto_group : bool) (term_list : list ccl_tok) (i : nat) (no : nat) (is_phrase : bool) : CCL (nat * bool) :=
  match max with
  | O => ret (no, is_phrase)
  | S max =>
      let* t := token_at i in
      if negb (is_term_ok (t_kind t) term_list) then ret (no, is_phrase)
      else
        let* text := lift (sub (t_name t) 0 (t_len t)) in
        let this_is_phrase := existsb (Z.eqb 32) text in
        if auto_group then
          if Nat.ltb 0 no && (is_phrase || negb (eqb is_phrase this_is_phrase)) then ret (no, is_phrase)
          else group_loop max auto_group term_list (S i) (S no) this_is_phrase
        else group_loop max auto_group term_list (S i) (S no) (is_phrase || this_is_phrase || Nat.ltb 0 no)
  end.

(** [lookahead] is the current token whenever the loop starts again. *)
Fixpoint terms_loop (fuel : nat) (qa : quals) (term_list : list ccl_tok) (multi and_list or_list auto_group : bool)
  (p_top : option ccl_rpn_node) : CCL (option (option ccl_rpn_node)) :=
  match fuel with
  | O => fault
  | S fuel =>
      let max := if and_list || or_list || negb multi then 1%nat else 200%nat in
      let* comma := if and_list then is_kind CCL_TOK_COMMA else ret false in
      if comma : bool then ADVANCE ;; terms_loop fuel qa term_list multi and_list or_list auto_group p_top
      else
        let* p := get in
        let* (no, is_phrase) := group_loop max auto_group term_list (look_token p) 0 false in
        match no with
        | O => ret (Some p_top)
        | _ =>
            let* t := ccl_term_multi_use (look_token p) qa no is_phrase auto_group in
            advance_by no ;;
            match t with
            | None => ret None
            | Some _ =>
                let p_top := ccl_rpn_node_mkbool p_top t (if or_list then CCL_RPN_OR else CCL_RPN_AND) in
                if multi then terms_loop fuel qa term_list multi and_list or_list auto_group p_top else ret (Some p_top)
            end
        end
  end.

Definition search_term_x (qa : quals) (term_list : list ccl_tok) (multi : bool) : CCL (option ccl_rpn_node) :=
  let and_list := has_val qa CCL_BIB1_STR CCL_BIB1_STR_AND_LIST in
  let auto_group := has_val qa CCL_BIB1_STR CCL_BIB1_STR_AUTO_GROUP in
  let or_list := has_val qa CCL_BIB1_STR CCL_BIB1_STR_OR_LIST in
  if has_val qa CCL_BIB1_STR CCL_BIB1_STR_SPLIT_LIST then search_term_split_list qa term_list
  else
    let* p := get in
    let* r := terms_loop (S (length (tokens p))) qa term_list multi and_list or_list auto_group None in
    match r with
    | None => ret None
    | Some None => fails CCL_ERR_TERM_EXPECTED
    | Some (Some t) => ret (Some t)
    end.

Definition search_term (qa : quals) : CCL (option ccl_rpn_node) := search_term_x qa [CCL_TOK_TERM; CCL_TOK_COMMA] false.
Definition term_tokens : list ccl_tok := [CCL_TOK_TERM; CCL_TOK_COMMA; CCL_TOK_EQ; CCL_TOK_REL; CCL_TOK_SET].

(** ** The grammar *)

Section grammar.
(** What is in parentheses, and the fuel of the loops. *)
Context (find_spec : quals -> CCL (option ccl_rpn_node)) (fuel : nat).

Definition search_terms2 (qa : quals) : CCL (option ccl_rpn_node) :=
  let* lp := is_kind CCL_TOK_LP in
  if lp : bool then
    ADVANCE ;;
    let* p := find_spec qa in
    match p with
    | None => ret None
    | Some _ =>
        let* rp := is_kind CCL_TOK_RP in
        if negb rp then modify (set_error CCL_ERR_RP_EXPECTED) ;; delete p ;; ret None
        else ADVANCE ;; ret p
    end
  else search_term_x qa term_tokens true.

Fixpoint prox_loop (n : nat) (qa : quals) (p1 : ccl_rpn_node) : CCL (option ccl_rpn_node) :=
  match n with
  | O => fault
  | S n =>
      let* k := KIND in
      if bool_decide (k = CCL_TOK_PROX) then
        let* t := look in
        let* text := lift (sub (t_name t) 0 (t_len t)) in
        ADVANCE ;;
        let* p2 := search_terms2 qa in
        match p2 with
        | None => delete (Some p1) ;; ret None
        | Some p2 => prox_loop n qa (CCL_RPN_PROX p1 p2 (P_term (text ++ [0])))
        end
      else if is_term_ok k term_tokens then
        let* p2 := search_terms2 qa in
        match p2 with
        | None => delete (Some p1) ;; ret None
        | Some p2 => prox_loop n qa (CCL_RPN_PROX p1 p2 P_null)
        end
      else ret (Some p1)
  end.

Definition search_terms (qa : quals) : CCL (option ccl_rpn_node) :=
  let* p1 := search_terms2 qa in
  match p1 with
  | None => ret None
  | Some p1 => prox_loop fuel qa p1
  end.

(** *** Relations *)

Definition relation (t : ccl_token) : option Z :=
  if t_len t =? 1 then
    let? c := rd (t_name t) 0 in
    Some (if c =? 60 then 1 else if c =? 61 then 3 else if c =? 62 then 5 else 0)
  else if t_len t =? 2 then
    let? s := sub (t_name t) 0 2 in
    Some (if bool_decide (s = str "<=") then 2 else if bool_decide (s = str ">=") then 4
          else if bool_decide (s = str "<>") then 6 else 0)
  else Some 0.

(** The place of a dash in a token, or its length. *)
Fixpoint find_dash (s : list Z) (i : Z) (quote_mode : bool) : Z :=
  match s with
  | [] => i
  | c :: s =>
      if (0 <? i) && (c =? 92) then find_dash s (i + 1) quote_mode
      else if c =? 34 then find_dash s (i + 1) (negb quote_mode)
      else if (c =? 45) && negb quote_mode then i
      else find_dash s (i + 1) quote_mode
  end.

Definition dash : ccl_token := Token CCL_TOK_TERM 1 (str "-" ++ [0]) None [] 0.
(** A token of kind TERM made of the part of [t] that starts at [k]. *)
Definition token_part (t : ccl_token) (k len : Z) : ccl_token :=
  Token CCL_TOK_TERM len (drop (Z.to_nat k) (t_name t)) (Z.add k <$> t_off t) [] 0.
Definition with_len (len : Z) (t : ccl_token) : ccl_token :=
  Token (t_kind t) len (t_name t) (t_off t) (t_ws_buf t) (t_ws_len t).
Definition with_name (k : Z) (len : Z) (t : ccl_token) : ccl_token :=
  Token (t_kind t) len (drop (Z.to_nat k) (t_name t)) (Z.add k <$> t_off t) (t_ws_buf t) (t_ws_len t).
(** The current token becomes a dash. *)
Definition as_dash (t : ccl_token) : ccl_token :=
  Token (t_kind t) 1 (str "-" ++ [0]) None (t_ws_buf t) (t_ws_len t).

(** The list with a dash in the token with number [i] made a token. *)
Definition split_dash (i : nat) (ts : list ccl_token) : option (list ccl_token) :=
  let? t := ts !! i in
  let len := t_len t in
  let? s := sub (t_name t) 0 len in
  let d := find_dash s 0 false in
  if (1 <? len) && (d =? 0) then
    Some (ccl_token_add i (token_part t 1 (len - 1)) (<[i := as_dash t]> ts))
  else if (1 <? len) && (d =? len - 1) then
    Some (ccl_token_add i dash (<[i := with_len (len - 1) t]> ts))
  else if (2 <? len) && (d <? len) then
    Some (ccl_token_add (S i) (token_part t (d + 1) (len - (d + 1))) (ccl_token_add i dash (<[i := with_len d t]> ts)))
  else
    match ts !! S i with
    | Some u =>
        let? c := if (d =? len) && bool_decide (t_kind u = CCL_TOK_TERM) && (1 <? t_len u) then rd (t_name u) 0 else Some 0 in
        if c =? 45 then Some (ccl_token_add i dash (<[S i := with_name 1 (t_len u - 1) u]> ts)) else Some ts
    | None => Some ts
    end.

(** [t->len == 1 && t->name[0] == '-'] *)
Definition is_dash (t : ccl_token) : option bool :=
  if t_len t =? 1 then let? c := rd (t_name t) 0 in Some (c =? 45) else Some false.

(** The relation of a term set to a value. *)
Definition with_relation (p : ccl_rpn_node) (attset : option (list Z)) (value : Z) : CCL ccl_rpn_node :=
  lift (ccl_set_attr_numeric p attset CCL_BIB1_REL value).

(** [= term - term] and [= term -], at the first term. *)
Definition order_range (ap : quals) (attset : option (list Z)) : CCL (option ccl_rpn_node) :=
  let* p1 := search_term ap in
  match p1 with
  | None => ret None
  | Some p1 =>
      ADVANCE ;;
      let* term := is_kind CCL_TOK_TERM in
      if term : bool then
        let* p2 := search_term ap in
        match p2 with
        | None => delete (Some p1) ;; ret None
        | Some p2 =>
            let* p1 := with_relation p1 attset 4 in
            let* p2 := with_relation p2 attset 2 in
            ret (Some (CCL_RPN_BOOL CCL_RPN_AND p1 p2 []))
        end
      else let* p1 := with_relation p1 attset 4 in ret (Some p1)
  end.

Definition qualifiers_order (ap : quals) (attset : option (list Z)) : CCL (option ccl_rpn_node) :=
  let* t := look in
  let* rel := lift (relation t) in
  if rel =? 0 then fails CCL_ERR_BAD_RELATION
  else
    ADVANCE ;;
    (if (rel =? 3) && has_val ap CCL_BIB1_REL CCL_BIB1_REL_PORDER then
       let* term := is_kind CCL_TOK_TERM in
       if term : bool then
         let* p := get in
         let* ts := lift (split_dash (look_token p) (tokens p)) in
         modify (set_tokens ts)
       else ret tt
     else ret tt) ;;
    let* t := look in
    let* p := get in
    let* range := if (rel =? 3) && bool_decide (t_kind t = CCL_TOK_TERM)
                  then match tokens p !! S (look_token p) with
                       | Some u => lift (is_dash u)
                       | None => ret false
                       end
                  else ret false in
    if range : bool then order_range ap attset
    else
      let* upto := if rel =? 3 then lift (is_dash t) else ret false in
      if upto : bool then
        ADVANCE ;;
        let* p := search_term ap in
        match p with
        | None => ret None
        | Some p => let* p := with_relation p attset 2 in ret (Some p)
        end
      else
        let* p := search_terms ap in
        match p with
        | None => ret None
        | Some p =>
            if negb (rel =? 3) || negb (has_val ap CCL_BIB1_REL CCL_BIB1_REL_OMIT_EQUALS) then
              let* p := with_relation p attset rel in ret (Some p)
            else ret (Some p)
        end.

Definition qualifier_relation (ap : quals) : CCL (option ccl_rpn_node) :=
  match qual_val_type ap CCL_BIB1_REL CCL_BIB1_REL_ORDER with
  | Some attset => qualifiers_order ap attset
  | None =>
      match qual_val_type ap CCL_BIB1_REL CCL_BIB1_REL_PORDER with
      | Some attset => qualifiers_order ap attset
      | None =>
          let* eq := is_kind CCL_TOK_EQ in
          if negb eq then fails CCL_ERR_EQ_EXPECTED
          else ADVANCE ;; search_terms ap
      end
  end.

(** *** Qualifiers *)

(** How often a qualifier can be found under the same name. *)
Definition seq_bound (b : option ccl_qualifiers) : nat :=
  match b with
  | Some b => S (S (list_max (map (fun q => length (q_sub q)) (b_list b))))
  | None => 1%nat
  end.

Definition unknown_qual {A} (lookahead : nat) : CCL (option A) :=
  modify (set_look lookahead) ;; fails CCL_ERR_UNKNOWN_QUAL.

(** The token after [i] and, if it is a comma, after that. *)
Definition next_field (i : nat) : CCL nat :=
  let* t := token_at (S i) in
  ret (if bool_decide (t_kind t = CCL_TOK_COMMA) then S (S i) else S i).

(** The qualifiers of the name of one field, each with the relation at [la]:
    [None] inside on error. *)
Fixpoint or_field (n : nat) (la : nat) (t : ccl_token) (seq : nat) (node : option ccl_rpn_node)
  : CCL (option (nat * option ccl_rpn_node)) :=
  match n with
  | O => fault
  | S n =>
      let* q := search_qual (t_name t) (t_len t) seq in
      match q with
      | None => ret (Some (seq, node))
      | Some q =>
          modify (set_look la) ;;
          let* node_sub := qualifier_relation (Some [q]) in
          match node_sub with
          | None => delete node ;; ret None
          | Some _ => or_field n la t (S seq) (ccl_rpn_node_mkbool node node_sub CCL_RPN_OR)
          end
      end
  end.

Fixpoint or_fields (n : nat) (la lookahead : nat) (node : option ccl_rpn_node) : CCL (option ccl_rpn_node) :=
  match n with
  | O => fault
  | S n =>
      if Nat.eqb lookahead la then ret node
      else
        let* t := token_at lookahead in
        let* p := get in
        let* r := or_field (seq_bound (bibset p)) la t 0 node in
        match r with
        | None => ret None
        | Some (seq, node) =>
            if Nat.eqb seq 0 then unknown_qual lookahead
            else
              let* lookahead := next_field lookahead in
              or_fields n la lookahead node
        end
  end.

(** The qualifiers of all fields, with the number [seq] where there is one;
    [found] tells whether there is. *)
Fixpoint merge_quals (n : nat) (la lookahead seq : nat) (found : bool) (ap : list ccl_qualifier)
  : CCL (option (list ccl_qualifier * bool * nat)) :=
  match n with
  | O => fault
  | S n =>
      if Nat.eqb lookahead la then ret (Some (ap, found, lookahead))
      else
        let* t := token_at lookahead in
        let* q := search_qual (t_name t) (t_len t) seq in
        let found := found || bool_decide (is_Some q) in
        let* q := match q with
                  | None => if Nat.ltb 0 seq then search_qual (t_name t) (t_len t) 0 else ret None
                  | q => ret q
                  end in
        match q with
        | None => unknown_qual lookahead
        | Some q =>
            let* lookahead := next_field lookahead in
            merge_quals n la lookahead seq found (ap ++ [q])
        end
  end.

(** After an error the tree that was deleted is returned. *)
Fixpoint merge_loop (m n : nat) (look_start la : nat) (qa : quals) (seq : nat) (node : option ccl_rpn_node)
  : CCL (option ccl_rpn_node) :=
  match m with
  | O => fault
  | S m =>
      let* r := merge_quals n la look_start seq false [] in
      match r with
      | None => ret None
      | Some (ap, found, lookahead) =>
          let ap := ap ++ match qa with Some qa => qa | None => [] end in
          if negb found then ret node
          else
            modify (set_look lookahead) ;;
            let* node_sub := qualifier_relation (Some ap) in
            match node_sub with
            | None => delete node ;; ret (option_map (fun _ => CCL_FREED) node)
            | Some _ => merge_loop m n look_start la qa (S seq) (ccl_rpn_node_mkbool node node_sub CCL_RPN_OR)
            end
      end
  end.

Definition qualifier_list (la : nat) (qa : quals) : CCL (option ccl_rpn_node) :=
  let* p := get in
  let look_start := look_token p in
  let* field_str := special (str "field") in
  let* or_mode := match field_str with
                  | Some values => let* v := lift (head values) in lift (str_same v (str "or" ++ [0]))
                  | None => ret false
                  end in
  if or_mode : bool then or_fields fuel la look_start None
  else merge_loop (seq_bound (bibset p)) fuel look_start la qa 0 None.

(** *** Search elements *)

(** Where the relation after a list of names is, and else what comes there. *)
Fixpoint find_relation (n : nat) (i : nat) : CCL (nat + ccl_tok) :=
  match n with
  | O => fault
  | S n =>
      let* t := token_at i in
      if bool_decide (t_kind t = CCL_TOK_TERM) then
        let* u := token_at (S i) in
        if bool_decide (t_kind u = CCL_TOK_REL) || bool_decide (t_kind u = CCL_TOK_EQ) then ret (inl (S i))
        else if bool_decide (t_kind u = CCL_TOK_COMMA) then find_relation n (S (S i))
        else ret (inr (t_kind u))
      else ret (inr (t_kind t))
  end.

(** The search with each of the qualifiers called "term". *)
Fixpoint default_quals (n : nat) (start seq : nat) (node : option ccl_rpn_node) : CCL (option (option ccl_rpn_node)) :=
  match n with
  | O => fault
  | S n =>
      let* q := search_qual (str "term" ++ [0]) 4 seq in
      match q with
      | None => ret (Some node)
      | Some q =>
          modify (set_look start) ;;
          let* node_sub := search_terms (Some [q]) in
          match node_sub with
          | None => delete node ;; ret None
          | Some _ => default_quals n start (S seq) (ccl_rpn_node_mkbool node node_sub CCL_RPN_OR)
          end
      end
  end.

Definition search_elements (qa : quals) : CCL (option ccl_rpn_node) :=
  let* set := is_kind CCL_TOK_SET in
  if set : bool then
    ADVANCE ;;
    let* eq := is_kind CCL_TOK_EQ in
    (if eq : bool then ADVANCE else ret tt) ;;
    let* term := is_kind CCL_TOK_TERM in
    if negb term then fails CCL_ERR_SETNAME_EXPECTED
    else
      let* t := look in
      let* name := lift (sub (t_name t) 0 (t_len t)) in
      ADVANCE ;;
      ret (Some (CCL_RPN_SET (name ++ [0])))
  else
    let* p := get in
    let* r := find_relation fuel (look_token p) in
    match r with
    | inl la => qualifier_list la qa
    | inr k =>
        if bool_decide (is_Some qa) || bool_decide (k = CCL_TOK_LP) then search_terms qa
        else
          let* node := default_quals (seq_bound (bibset p)) (look_token p) 0 None in
          match node with
          | None => ret None
          | Some (Some t) => ret (Some t)
          | Some None => search_terms None
          end
    end.

Definition bool_op (k : ccl_tok) : option ccl_bool :=
  match k with
  | CCL_TOK_AND => Some CCL_RPN_AND
  | CCL_TOK_OR => Some CCL_RPN_OR
  | CCL_TOK_NOT => Some CCL_RPN_NOT
  | _ => None
  end.

Fixpoint spec_loop (n : nat) (qa : quals) (p1 : ccl_rpn_node) : CCL (option ccl_rpn_node) :=
  match n with
  | O => fault
  | S n =>
      let* k := KIND in
      match bool_op k with
      | None => ret (Some p1)
      | Some op =>
          ADVANCE ;;
          let* p2 := search_elements qa in
          match p2 with
          | None => delete (Some p1) ;; ret None
          | Some p2 => spec_loop n qa (CCL_RPN_BOOL op p1 p2 [])
          end
      end
  end.
End grammar.

Fixpoint find_spec (depth fuel : nat) (qa : quals) : CCL (option ccl_rpn_node) :=
  match depth with
  | O => fault
  | S depth =>
      let* p1 := search_elements (find_spec depth fuel) fuel qa in
      match p1 with
      | None => ret None
      | Some p1 => spec_loop (find_spec depth fuel) fuel fuel qa p1
      end
  end.

(** The nesting and the loops are bounded by the tokens; a token may become three. *)
Definition ccl_parser_find_token (list : list ccl_token) : CCL (option ccl_rpn_node) :=
  modify (set_tokens list) ;;
  modify (set_look 0) ;;
  let* t := find_spec (S (length list)) (S (3 * length list)) None in
  let* t := match t with
            | None => ret None
            | Some _ =>
                let* k := KIND in
                if bool_decide (k = CCL_TOK_EOL) then ret t
                else
                  modify (set_error (if bool_decide (k = CCL_TOK_RP) then CCL_ERR_BAD_RP else CCL_ERR_OP_EXPECTED)) ;;
                  delete t ;;
                  ret None
            end in
  let* l := look in
  modify (set_error_pos (t_off l)) ;;
  (match t with Some _ => modify (set_error CCL_ERR_OK) | None => ret tt end) ;;
  ret t.

Definition ccl_parser_find_str (str : list Z) : CCL (option ccl_rpn_node) :=
  let* p := get in
  let* list := lift (ccl_parser_tokenize p str) in
  ccl_parser_find_token list.

(** The tree, the error and, if there is one, its place. *)
Definition ccl_find_str (bibset : option ccl_qualifiers) (str : list Z) : option (option ccl_rpn_node * Z * option Z) :=
  let cclp := ccl_parser_create bibset in
  let? list := ccl_parser_tokenize cclp str in
  let? (p, cclp) := ccl_parser_find_token list cclp in
  if error_code cclp =? 0 then Some (p, 0, None)
  else let? pos := error_pos cclp in Some (p, error_code cclp, Some pos).
