(* ===== verification/CclTree.v ===== *)
(** * Trees of CCL queries (cclptree.c, ccl_stop_words.c)

    The PQF text of a tree, and the removal of stop words from it. *)

From stdpp Require Import base list numbers option strings.
From Stdlib Require Import ZArith Lia.
From S2P Require Import Prelude Text Wrbuf Rpn Ccl CclFind.

(** ** PQF (cclptree.c) *)

Definition ccl_prterm (term : list Z) : WRBUF unit :=
  let* n := lift (strlen term) in yaz_encode_pqf_term term n.

Definition puts_attr (att : ccl_rpn_attr) : WRBUF unit :=
  wrbuf_lit (str "@attr ") ;;
  (match a_set att with Some s => wrbuf_puts s ;; wrbuf_lit (str " ") | None => ret tt end) ;;
  match a_value att with
  | CCL_RPN_ATTR_NUMERIC n => wrbuf_printf (fmt_d (a_type att) ++ str "=" ++ fmt_d n ++ str " ")
  | CCL_RPN_ATTR_STRING s => wrbuf_printf (fmt_d (a_type att) ++ str "=") ;; wrbuf_puts s ;; wrbuf_lit (str " ")
  end.
Fixpoint puts_attrs (al : list ccl_rpn_attr) : WRBUF unit :=
  match al with [] => ret tt | a :: al => puts_attr a ;; puts_attrs al end.

(** The operator with its parameters: [cp] is the token of a proximity. *)
Definition puts_prox (p2 : prox_slot) : WRBUF unit :=
  match p2 with
  | P_null => wrbuf_lit (str "@prox 0 2 0 1 k 2")
  | P_term cp =>
      let* c := lift (rd cp 0) in
      let known order :=
        let* d := lift (rd cp 1) in
        if yaz_isdigit d then printf_s (str "@prox 0 ") (drop 1 cp) (str " " ++ order ++ str " 2 k 2")
        else wrbuf_printf (str "@prox 0 1 " ++ order ++ str " 2 k 2") in
      if c =? 33 then known (str "1") else if c =? 37 then known (str "0") else ret tt
  | P_attrs _ => fault
  end.
Definition puts_bool (op : ccl_bool) : WRBUF unit :=
  wrbuf_lit (match op with CCL_RPN_AND => str "@and" | CCL_RPN_OR => str "@or" | CCL_RPN_NOT => str "@not" end).

(** [-1] for one line, the depth for lines that are indented. *)
Definition indentation (indent : Z) : WRBUF unit :=
  each_octet (fun c => wrbuf_putc c) (if indent =? -1 then [] else repeat 32 (Z.to_nat indent)).
Definition line_feed (indent : Z) : WRBUF unit := if negb (indent =? -1) then wrbuf_putc 10 else ret tt.

Fixpoint ccl_pquery_indent (p : ccl_rpn_node) (indent : Z) : WRBUF unit :=
  let next_indent := if indent =? -1 then indent else indent + 1 in
  let sep_char := if indent =? -1 then 32 else 10 in
  match p with
  | CCL_RPN_BOOL op l r _ =>
      indentation indent ;;
      puts_bool op ;; wrbuf_putc sep_char ;;
      ccl_pquery_indent l next_indent ;; ccl_pquery_indent r next_indent
  | CCL_RPN_PROX l r p2 =>
      indentation indent ;;
      puts_prox p2 ;; wrbuf_putc sep_char ;;
      ccl_pquery_indent l next_indent ;; ccl_pquery_indent r next_indent
  | CCL_RPN_SET setname =>
      indentation indent ;;
      wrbuf_lit (str "@set ") ;; ccl_prterm setname ;; line_feed indent
  | CCL_RPN_TERM term _ al =>
      indentation indent ;;
      puts_attrs al ;; ccl_prterm term ;; line_feed indent
  | CCL_FREED => fault
  end.

(** A null tree has no text. *)
Definition ccl_pquery (p : option ccl_rpn_node) : WRBUF unit :=
  match p with Some p => ccl_pquery_indent p (-1) | None => ret tt end.

(** The text that is written to the file. *)
Definition ccl_pr_tree (junk : Z -> Z) (rpn : option ccl_rpn_node) : option (list Z) :=
  let? w := wrbuf_alloc junk in
  let? (_, w) := (match rpn with Some p => ccl_pquery_indent p 0 | None => ret tt end) w in
  let? (s, _) := wrbuf_cstr w in
  cstr s.

(** ** Stop words (ccl_stop_words.c) *)

Record ccl_stop_info := StopInfo {
  si_qualname : option (list Z);
  si_term : list Z;
}.
(** The blanks and the words that were removed. *)
Record ccl_stop_words := StopWords {
  blank_chars : list Z;
  removed_items : list ccl_stop_info;
}.
Definition ccl_stop_words_create : ccl_stop_words := StopWords [32; 13; 10; 9] [].

Abbreviation CSW := (M ccl_stop_words).

Definition append_removed_item (qname : option (list Z)) (t : list Z) (len : Z) : CSW unit :=
  let* s := lift (sub t 0 len) in
  modify (fun csw => StopWords (blank_chars csw) (removed_items csw ++ [StopInfo qname (s ++ [0])])).

(** [while (cp[0] && p(cp[0])) cp++;], as the number of octets. *)
Fixpoint span_of (p : Z -> bool) (cp : list Z) : option Z :=
  match cp with
  | [] => None
  | c :: cp => if negb (c =? 0) && p c then Z.succ <$> span_of p cp else Some 0
  end.

Definition drops (n : Z) (s : list Z) : list Z := drop (Z.to_nat n) s.

(** The first stop word of the term from [at_] on: the words are looked at in
    turn, and one that is found is taken out of the term. *)
Fixpoint stop_word_loop (fuel : nat) (bibset : option ccl_qualifiers) (qual : option (list Z)) (term : list Z) (at_ : Z)
  : CSW (option (list Z)) :=
  match fuel with
  | O => fault
  | S fuel =>
      let* csw := get in
      let blank := strchr (blank_chars csw) in
      let* n := lift (span_of blank (drops at_ term)) in
      let cp0 := at_ + n in
      let* c := lift (rd term cp0) in
      if c =? 0 then ret None
      else
        let* len := lift (span_of (fun c => negb (blank c)) (drops cp0 term)) in
        let cp := cp0 + len in
        let* stop := if negb (len =? 0) then lift (ccl_search_stop bibset qual (drops cp0 term) len) else ret false in
        if stop : bool then
          append_removed_item qual (drops cp0 term) len ;;
          let* k := lift (span_of blank (drops cp term)) in
          let cp := cp + k in
          let* n := lift (strlen (drops cp term)) in
          let* bs := lift (sub term cp (n + 1)) in
          let* term := lift (splice term cp0 bs) in
          ret (Some term)
        else stop_word_loop fuel bibset qual term cp
  end.

Fixpoint stop_term (fuel : nat) (bibset : option ccl_qualifiers) (qual : option (list Z)) (term : list Z) : CSW (list Z) :=
  match fuel with
  | O => fault
  | S fuel =>
      let* r := stop_word_loop (S (length term)) bibset qual term 0 in
      match r with
      | None => ret term
      | Some term => stop_term fuel bibset qual term
      end
  end.

(** The blanks at the end are cut off from [cp] downwards; [None] inside for a
    term that gets empty. *)
Fixpoint chop_term (cp : nat) (blank : Z -> bool) (term : list Z) : option (option (list Z)) :=
  match cp with
  | O => Some None
  | S cp =>
      let? c := rd term (Z.of_nat cp) in
      if negb (blank c) then Some (Some term)
      else let? term := splice term (Z.of_nat cp) [0] in chop_term cp blank term
  end.

(** The pointer to a child after its tree was worked on: the node is still there
    if it is what was returned. *)
Definition child (r : option ccl_rpn_node * bool) : ccl_rpn_node :=
  match r with (Some t, true) => t | _ => CCL_FREED end.

(** The tree that is left, and whether it is the node that was given. *)
Fixpoint ccl_remove_stop_r (bibset : option ccl_qualifiers) (p : ccl_rpn_node) : CSW (option ccl_rpn_node * bool) :=
  match p with
  | CCL_RPN_BOOL op l r al =>
      let* p0 := ccl_remove_stop_r bibset l in
      let* p1 := ccl_remove_stop_r bibset r in
      match p0.1, p1.1 with
      | Some _, Some _ => ret (Some (CCL_RPN_BOOL op (child p0) (child p1) al), true)
      | Some t, None => ret (Some t, false)
      | None, t => ret (t, false)
      end
  | CCL_RPN_PROX l r p2 =>
      let* p0 := ccl_remove_stop_r bibset l in
      let* p1 := ccl_remove_stop_r bibset r in
      match p0.1, p1.1 with
      | Some _, Some _ => ret (Some (CCL_RPN_PROX (child p0) (child p1) p2), true)
      | lt, rt =>
          (match p2 with P_attrs _ => fault | _ => ret tt end) ;;
          ret (match lt with Some _ => lt | None => rt end, false)
      end
  | CCL_RPN_SET s => ret (Some p, true)
  | CCL_RPN_TERM term qual al =>
      let* term := stop_term (S (length term)) bibset qual term in
      let* csw := get in
      if Nat.ltb 0 (length (removed_items csw)) then
        let* n := lift (strlen term) in
        let* r := lift (chop_term (Z.to_nat n) (strchr (blank_chars csw)) term) in
        match r with
        | None => ret (None, false)
        | Some term => ret (Some (CCL_RPN_TERM term qual al), true)
        end
      else ret (Some (CCL_RPN_TERM term qual al), true)
  | CCL_FREED => fault
  end.

(** The new tree and 1 if a word was removed. *)
Definition ccl_stop_words_tree (bibset : option ccl_qualifiers) (t : ccl_rpn_node) : CSW (option ccl_rpn_node * Z) :=
  modify (fun csw => StopWords (blank_chars csw) []) ;;
  let* r := ccl_remove_stop_r bibset t in
  let* csw := get in
  ret (r.1, if Nat.ltb 0 (length (removed_items csw)) then 1 else 0).

Definition ccl_stop_words_info (csw : ccl_stop_words) (idx : Z) : option (option (list Z) * list Z) :=
  match removed_items csw !! Z.to_nat idx with
  | Some csi => Some (si_qualname csi, si_term csi)
  | None => None
  end.
