(* ===== verification/CclPqf.v ===== *)
(** * The PQF of CCL trees (cclptree.c, pquery.c)

    What [ccl_pquery] writes for a tree is a query that the PQF parser reads as
    the tree's translation. *)

From stdpp Require Import base list numbers option strings.
From Stdlib Require Import ZArith Lia.
From S2P Require Import Prelude Text OidUtil OidDb Wrbuf Rpn Pqf PqfText PqfRound Ccl CclFind CclTree.

(** ** Translation *)

Definition op_of (op : ccl_bool) : Z_Operator :=
  match op with CCL_RPN_AND => Op_and | CCL_RPN_OR => Op_or | CCL_RPN_NOT => Op_and_not end.

(** Proximity of known units: words.  ["!n"] is in order, ["%n"] in any order, at
    a distance of at most [n], by default one; words that follow each other
    without an operator are at distance less than two. *)
Definition word_prox (distance ordered relation : Z) : Z_ProximityOperator :=
  Prox (Some 0) distance ordered relation Z_ProximityOperator_known (Some 2).

Inductive prox_of : prox_slot -> Z_ProximityOperator -> Prop :=
  | prox_null : prox_of P_null (word_prox 2 0 1)
  | prox_plain (o : Z) : o = 0 \/ o = 1 -> prox_of (P_term ((37 - 4 * o) :: [0])) (word_prox 1 o 2)
  | prox_dist (o n : Z) : o = 0 \/ o = 1 -> 0 <= n < 2 ^ 63 ->
      prox_of (P_term ((37 - 4 * o) :: fmt_d n ++ [0])) (word_prox n o 2).

Section translation.
Context (std : yaz_oid_db).

Definition value_of (v : attr_value) : Z_AttributeValue :=
  match v with
  | CCL_RPN_ATTR_NUMERIC n => AV_numeric n
  | CCL_RPN_ATTR_STRING s => AV_complex [SN_string s] []
  end.

(** The attribute set is named as the database names it. *)
Inductive attr_tr : ccl_rpn_attr -> Z_AttributeElement -> Prop :=
  | attr_default ty v : attr_tr (Attr None ty v) (Element None ty (value_of v))
  | attr_named o ty v : attr_tr (Attr (Some (oid_name std o ++ [0])) ty v) (Element (Some o) ty (value_of v)).

Inductive translates : ccl_rpn_node -> Z_RPNStructure -> Prop :=
  | tr_bool op l r al z1 z2 : translates l z1 -> translates r z2 ->
      translates (CCL_RPN_BOOL op l r al) (RPN_complex z1 z2 (op_of op))
  | tr_prox l r p2 p z1 z2 : translates l z1 -> translates r z2 -> prox_of p2 p ->
      translates (CCL_RPN_PROX l r p2) (RPN_complex z1 z2 (Op_prox p))
  | tr_term s q al es : Forall2 attr_tr al es ->
      translates (CCL_RPN_TERM (s ++ [0]) q al) (RPN_simple (Operand_APT (APT (Some es) (Term_general s))))
  | tr_set s : translates (CCL_RPN_SET (s ++ [0])) (RPN_simple (Operand_resultSetId (s ++ [0]))).

(** ** Printing *)

Lemma appends_ccl_term s : bytes_ok s -> nonzero s -> appends (ccl_prterm (s ++ [0])) (term_text s ++ [32]).
Proof. intros Hb Hs. unfold ccl_prterm. eapply appends_lift; [by apply strlen_spec|]. by apply appends_term. Qed.

Lemma appends_ccl_attr a e : attr_tr a e -> elem_ok std e -> appends (puts_attr a) (attr_text std e).
Proof.
  intros Ha (Ht & Hv & Hset). unfold puts_attr, attr_text.
  assert (appends (match a_set a with Some s => wrbuf_puts s ;; wrbuf_lit (str " ") | None => ret tt end)
    (set_text std (attributeSet e))) as Hs.
  { destruct Ha as [ty v|o ty v]; cbn [a_set attributeSet set_text] in *; [apply appends_ret|].
    destruct Hset as (_ & (Hw & _) & _). apply appends_bind; [by apply appends_puts, word_nonzero|].
    intros _. by apply appends_str. }
  apply appends_bind; [by apply appends_str|]. intros _. apply appends_bind; [exact Hs|]. intros _. clear Hs.
  assert (a_type a = attributeType e /\ value e = value_of (a_value a)) as [-> Ev] by by destruct Ha.
  destruct (fmt_d_any (attributeType e)) as [H1 H2]; [lia|]. rewrite Ev in *.
  destruct (a_value a) as [n|s]; cbn [value_of value_ok value_text] in *.
  - destruct (fmt_d_any n) as [H3 H4]; [lia|]. apply appends_printf_text; [nz|]. change (str "=") with [61]. change (str " ") with [32]. zl.
  - destruct Hv as (_ & w & [= ->] & Hw & _). rewrite removelast_last, app_assoc.
    apply appends_bind; [apply appends_printf_text; [nz|change (str "=") with [61]; zl]|]. intros _.
    apply appends_bind; [by apply appends_puts, word_nonzero|]. intros _. by apply appends_str.
Qed.

Lemma appends_ccl_attrs al es : Forall2 attr_tr al es -> Forall (elem_ok std) es -> appends (puts_attrs al) (attrs_text std es).
Proof.
  induction 1 as [|a e al es Ha _ IH]; intros Hes; [apply appends_ret|].
  apply Forall_cons_1 in Hes as [He Hes]. unfold attrs_text. cbn [map concat puts_attrs].
  apply appends_bind; [by apply appends_ccl_attr|]. intros _. by apply IH.
Qed.

Lemma appends_ccl_prox p2 p : prox_of p2 p -> appends (puts_prox p2 ;; wrbuf_putc 32) (op_text (Op_prox p)).
Proof.
  assert (forall o : Z, o = 0 \/ o = 1 -> fmt_d o = [48 + o]) as Hflag by (by intros o [->| ->]).
  intros [|o Ho|o n Ho Hn].
  - apply (appends_eq _ (str "@prox 0 2 0 1 k 2" ++ [32])); [done|].
    apply appends_bind; [by apply appends_str|]. intros _. apply appends_putc.
  - apply (appends_eq _ ((str "@prox 0 1 " ++ (if o =? 1 then str "1" else str "0") ++ str " 2 k 2") ++ [32]));
      [by destruct Ho as [->| ->]|].
    apply appends_bind; [|intros _; apply appends_putc]. unfold puts_prox. eapply appends_lift; [apply rd_0|].
    destruct Ho as [->| ->]; (eapply appends_lift; [reflexivity|]; apply appends_printf_text; [nz|unfold zlen; simpl; lia]).
  - destruct (fmt_d_nat n) as (Hd & Hne & _ & Hl); [lia|].
    apply (appends_eq _ ((str "@prox 0 " ++ fmt_d n ++ str " " ++ (if o =? 1 then str "1" else str "0") ++ str " 2 k 2") ++ [32])).
    { unfold op_text, prox_text, word_prox. cbn [exclusion distance ordered relationType prox_which known default excl_text].
      rewrite (Hflag o Ho). destruct Ho as [->| ->]; rewrite <- !app_assoc; done. }
    apply appends_bind; [|intros _; apply appends_putc]. unfold puts_prox. eapply appends_lift; [apply rd_0|].
    assert (exists d ds, fmt_d n = d :: ds /\ yaz_isdigit d = true) as (d & ds & Eds & Hdd).
    { destruct (fmt_d n) as [|d ds]; [done|]. exists d, ds. split; [done|]. apply Forall_cons_1 in Hd as [Hd _]. by apply isdigit_true. }
    assert (appends (printf_s (str "@prox 0 ") (fmt_d n ++ [0]) (str " " ++ (if o =? 1 then str "1" else str "0") ++ str " 2 k 2"))
      (str "@prox 0 " ++ fmt_d n ++ str " " ++ (if o =? 1 then str "1" else str "0") ++ str " 2 k 2")) as Hp.
    { unfold printf_s. pose proof (digits_nonzero _ Hd). eapply appends_lift; [by apply strlen_spec|].
      eapply appends_lift; [apply sub_all|].
      apply appends_printf_text; [destruct Ho as [->| ->]; nz|]. rewrite !zlen_app.
      change (zlen (str "@prox 0 ")) with 8. change (zlen (str " ")) with 1. change (zlen (str " 2 k 2")) with 6.
      assert (zlen (if o =? 1 then str "1" else str "0") = 1) as -> by by destruct (o =? 1). lia. }
    destruct Ho as [->| ->]; change (37 - 4 * 0) with 37 in *; change (37 - 4 * 1) with 33; cbn [Z.eqb Pos.eqb drop] in *;
      (eapply appends_lift; [rewrite Eds; reflexivity|]; rewrite Hdd; exact Hp).
Qed.

Lemma appends_ccl_bool op : appends (puts_bool op ;; wrbuf_putc 32) (op_text (op_of op)).
Proof.
  destruct op; (eapply appends_eq; [|apply appends_bind; [by apply appends_str|intros _; apply appends_putc]]); done.
Qed.

(** A binary node: its operator and the texts of its children. *)
Lemma appends_binary {A B C D} (h : WRBUF A) (m : WRBUF B) (l : WRBUF C) (r : WRBUF D) t z1 z2 :
  appends h [] -> appends (m ;; wrbuf_putc 32) t -> appends l z1 -> appends r z2 ->
  appends (h ;; m ;; wrbuf_putc 32 ;; l ;; r) (t ++ z1 ++ z2).
Proof.
  intros Hh Hm Hl Hr. apply (appends_bind _ _ [] _ Hh). intros _ b Hb.
  assert (appends ((m ;; wrbuf_putc 32) ;; l ;; r) (t ++ z1 ++ z2)) as H.
  { apply appends_bind; [done|]. intros _. apply appends_bind; [done|]. done. }
  destruct (H b Hb) as (a & b' & E & H1 & H2). exists a, b'. split; [|done]. by rewrite <- E, bind_assoc.
Qed.

Lemma appends_ccl_tree t z : translates t z -> rpn_ok std false z -> appends (ccl_pquery_indent t (-1)) (rpn_text std z ++ [32]).
Proof.
  induction 1 as [op l r al z1 z2 _ IH1 _ IH2|l r p2 p z1 z2 _ IH1 _ IH2 Hp|s q al es Hal|s]; cbn [ccl_pquery_indent rpn_ok rpn_text].
  - intros (H1 & H2 & _). rewrite <- !app_assoc. rewrite (app_assoc (rpn_text std z1) [32]).
    apply appends_binary; [apply appends_ret|apply appends_ccl_bool|by apply IH1|by apply IH2].
  - intros (H1 & H2 & _). rewrite <- !app_assoc. rewrite (app_assoc (rpn_text std z1) [32]).
    apply appends_binary; [apply appends_ret|by apply appends_ccl_prox|by apply IH1|by apply IH2].
  - cbn [operand_ok operand_text attributes term zterm_ok zterm_text default]. intros [(es' & [= <-] & Hes & _) (_ & Ht1 & Ht2 & _)].
    rewrite <- app_assoc. apply (appends_bind _ _ []); [apply appends_ret|]. intros _.
    apply appends_bind; [by apply appends_ccl_attrs|]. intros _. rewrite <- (app_nil_r (term_text s ++ [32])).
    apply appends_bind; [by apply appends_ccl_term|]. intros _. apply appends_ret.
  - cbn [operand_ok operand_text]. intros (s' & Es & (Ht1 & Ht2 & _) & _). apply app_inj_2 in Es as [-> _]; [|done].
    rewrite removelast_last, <- app_assoc.
    apply (appends_bind _ _ [] (str "@set " ++ term_text s' ++ [32])); [apply appends_ret|]. intros _.
    apply (appends_bind _ _ (str "@set ")); [by apply appends_str|]. intros _. rewrite <- (app_nil_r (term_text s' ++ [32])).
    apply appends_bind; [by apply appends_ccl_term|]. intros _. apply appends_ret.
Qed.

(** ** Parsing without an attribute set *)

Lemma parses_bare bib_1 z p rest : rpn_ok std false z -> term_type p = Z_Term_general ->
  odr_oiddup_nmem (Some bib_1) = Some (Some bib_1) -> exists p',
  yaz_pqf_parse std bib_1 (rpn_text std z ++ 32 :: 0 :: rest) p = Some (Some (RPNQuery (Some bib_1) (mirror z)), p') /\
  error p' = error p.
Proof.
  intros Hz Htt Hbib. apply parses_whole; [by apply parses_rpn| |done|done]. by destruct z as [[]| |].
Qed.
End translation.

(** ** Property *)


(** ["set=9 !3 a b"] with an attribute. *)
Definition sample_tree : ccl_rpn_node :=
  CCL_RPN_PROX (CCL_RPN_SET [57; 0])
    (CCL_RPN_BOOL CCL_RPN_NOT
       (CCL_RPN_TERM [97; 32; 98; 0] None [Attr None 1 (CCL_RPN_ATTR_NUMERIC 4); Attr None 2 (CCL_RPN_ATTR_STRING [108; 101; 0])])
       (CCL_RPN_TERM [99; 0] None []) [])
    (P_term [33; 51; 0]).

Definition sample_translation : Z_RPNStructure :=
  RPN_complex (RPN_simple (Operand_resultSetId [57; 0]))
    (RPN_complex
       (RPN_simple (Operand_APT (APT (Some [Element None 1 (AV_numeric 4); Element None 2 (AV_complex [SN_string [108; 101; 0]] [])])
          (Term_general [97; 32; 98]))))
       (RPN_simple (Operand_APT (APT (Some []) (Term_general [99])))) Op_and_not)
    (Op_prox (word_prox 3 1 2)).

