(* ===== verification/CclText.v ===== *)
(** * What CCL queries mean (ccltoken.c, cclfind.c)

    The grammar of the queries people write, words with qualifiers, operators,
    sets and parentheses, the tree that each of them stands for, and the proof that
    the parser builds that tree. *)

From stdpp Require Import base list numbers option strings.
From Stdlib Require Import ZArith Lia.
From S2P Require Import Prelude Text Ccl CclToken CclFind.

(** ** Queries *)

Inductive ccl_expr :=
  | X_words (w : list Z) (ws : list (list Z))
  | X_qual (n : list Z) (e : ccl_expr)
  | X_paren (e : ccl_expr)
  | X_set (n : list Z)
  | X_bool (op : ccl_bool) (l r : ccl_expr).

Definition op_word (op : ccl_bool) : list Z :=
  match op with CCL_RPN_AND => str "and" | CCL_RPN_OR => str "or" | CCL_RPN_NOT => str "not" end.

Definition join (w : list Z) (ws : list (list Z)) : list Z := w ++ concat (map (cons 32) ws).

Fixpoint ccl_text (e : ccl_expr) : list Z :=
  match e with
  | X_words w ws => join w ws
  | X_qual n e => n ++ str "=" ++ ccl_text e
  | X_paren e => str "(" ++ ccl_text e ++ str ")"
  | X_set n => str "set=" ++ n
  | X_bool op l r => ccl_text l ++ str " " ++ op_word op ++ str " " ++ ccl_text r
  end.

(** The characters of a word: none that ends it, no quotes, no escapes and no
    truncation or masking. *)
Definition word_char (c : Z) : bool := negb (strchr [40; 41; 44; 37; 33; 62; 60; 61; 32; 9; 10; 13; 92; 34; 63; 35] c).
Definition keyword (w : list Z) : bool :=
  bool_decide (w ∈ [str "and"; str "or"; str "not"; str "andnot"; str "set"]).
Definition word_ok (w : list Z) : bool := (0 <? zlen w) && forallb word_char w && negb (keyword w).

Section meaning.
Context (b : ccl_qualifiers).

(** The qualifier of a name. *)
Definition qualifier_of (n : list Z) : option ccl_qualifier :=
  match ccl_qual_search (Some b) 1 (n ++ [0]) (zlen n) 0 with Some q => q | None => None end.

(** A profile without special qualifiers and aliases. *)
Definition profile_ok : Prop :=
  b_special b = [] /\ Forall (fun q => q_sub q = [] /\ is_Some (strlen (q_name q))) (b_list b).

(** A qualifier that only adds attributes: it has at most one use and one
    structure, and no instructions to the parser. *)
Definition plain_attr (a : ccl_rpn_attr) : bool :=
  match a_value a with CCL_RPN_ATTR_NUMERIC n => 0 <? n | CCL_RPN_ATTR_STRING _ => true end.
Definition plain_qual (q : ccl_qualifier) : bool :=
  forallb plain_attr (q_attr_list q) &&
  (zlen (filter (fun a => a_type a = 1) (q_attr_list q)) <=? 1) &&
  (zlen (filter (fun a => has_numeric CCL_BIB1_STR a = true) (q_attr_list q)) <=? 1).

(** Inside a qualifier ([inq]) there are words, sets, parentheses and operators,
    and not qualifiers again. *)
Fixpoint elem_ok (inq : bool) (e : ccl_expr) : bool :=
  match e with
  | X_words w ws => word_ok w && forallb word_ok ws && (zlen ws <? 200)
  | X_qual n e =>
      negb inq && word_ok n &&
      match qualifier_of n with Some q => plain_qual q | None => false end &&
      match e with X_words _ _ | X_paren _ => elem_ok true e | _ => false end
  | X_paren e => (fix spec_ok (e : ccl_expr) : bool :=
      match e with
      | X_bool _ l r => spec_ok l && elem_ok inq r
      | e => elem_ok inq e
      end) e
  | X_set n => word_ok n
  | X_bool _ _ _ => false
  end.
Fixpoint spec_ok (inq : bool) (e : ccl_expr) : bool :=
  match e with
  | X_bool _ l r => spec_ok inq l && elem_ok inq r
  | e => elem_ok inq e
  end.

(** The attributes come in reverse; words without a qualifier have those of the
    qualifier called "term". *)
Definition term_node (q : option ccl_qualifier) (t : list Z) : ccl_rpn_node :=
  match q with
  | Some q => CCL_RPN_TERM (t ++ [0]) (Some (q_name q)) (rev (q_attr_list q))
  | None => CCL_RPN_TERM (t ++ [0]) None []
  end.
Fixpoint meaning (q : option ccl_qualifier) (e : ccl_expr) : ccl_rpn_node :=
  match e with
  | X_words w ws => term_node (match q with Some q => Some q | None => qualifier_of (str "term") end) (join w ws)
  | X_qual n e => meaning (qualifier_of n) e
  | X_paren e => meaning q e
  | X_set n => CCL_RPN_SET (n ++ [0])
  | X_bool op l r => CCL_RPN_BOOL op (meaning q l) (meaning q r) []
  end.
End meaning.

(** ** Words *)

Lemma word_char_not c x : word_char c = true -> In x [40; 41; 44; 37; 33; 62; 60; 61; 32; 9; 10; 13; 92; 34; 63; 35; 0] -> c <> x.
Proof.
  intros Hc Hx ->. unfold word_char in Hc. apply negb_true_iff in Hc. unfold strchr in Hc.
  rewrite (proj2 (existsb_exists (Z.eqb x) _)) in Hc; [done|]. exists x. split; [exact Hx|apply Z.eqb_refl].
Qed.

Lemma word_char_in w c : forallb word_char w = true -> In c w -> word_char c = true.
Proof. intros H Hc. rewrite forallb_forall in H. auto. Qed.

(** What stands before the place [zlen pre]. *)
Lemma no_backslash pre s : forallb word_char pre = true -> after_backslash (pre ++ s) (zlen pre) = Some false.
Proof.
  intros H. unfold after_backslash. destruct pre as [|c pre] using rev_ind; [done|].
  assert (zlen (pre ++ [c]) = zlen pre + 1) as -> by zl. pose proof (zlen_nonneg pre). rewrite (proj2 (Z.ltb_lt 0 _)) by lia.
  replace (zlen pre + 1 - 1) with (zlen pre + 0) by lia. rewrite <- app_assoc, rd_app_r by lia. cbn [app]. rewrite rd_0.
  cbn [mbind option_bind]. rewrite (proj2 (Z.eqb_neq c 92)); [done|].
  apply word_char_not; [|simpl; tauto]. apply (word_char_in _ c H). apply in_app_iff. right. by left.
Qed.

Lemma rd_mid (pre : list Z) c s : rd (pre ++ c :: s) (zlen pre) = Some c.
Proof. rewrite <- (Z.add_0_r (zlen pre)), rd_app_r by lia. done. Qed.

Lemma drop_mid (pre s : list Z) : drop (Z.to_nat (zlen pre)) (pre ++ s) = s.
Proof. unfold zlen. by rewrite Nat2Z.id, drop_app_length. Qed.

Definition t_aliases : list (list Z) := [str "?" ++ [0]].
Definition m_aliases : list (list Z) := [str "#" ++ [0]].

Lemma no_operator x c s : word_char c = true -> x = 63 \/ x = 35 -> cmp_operator [[x; 0]] (c :: s) = Some 0.
Proof.
  intros Hc Hx. cbn [cmp_operator match_alias]. assert (c <> x) by (apply word_char_not; [done|destruct Hx as [->| ->]; simpl; tauto]).
  rewrite (proj2 (Z.eqb_neq x 0)) by lia. rewrite (proj2 (Z.eqb_neq x c)) by lia. done.
Qed.

Lemma masking_word fuel : forall pre w r, forallb word_char (pre ++ w) = true -> (length w < fuel)%nat ->
  masking_loop fuel (pre ++ w ++ r) (zlen (pre ++ w)) t_aliases m_aliases (zlen pre) false = Some false.
Proof.
  induction fuel as [|fuel IH]; intros pre w r Hw Hf; [lia|]. cbn [masking_loop]. destruct w as [|c w].
  { rewrite app_nil_r, Z.ltb_irrefl. done. }
  rewrite (proj2 (Z.ltb_lt (zlen pre) (zlen (pre ++ c :: w)))) by (pose proof (zlen_nonneg w); zl).
  pose proof Hw as Hw'. rewrite forallb_app in Hw'. cbn [forallb] in Hw'. apply andb_true_iff in Hw' as [Hp [Hc _]%andb_true_iff].
  rewrite no_backslash by done. cbn [mbind option_bind app]. rewrite rd_mid. cbn [mbind option_bind].
  rewrite (proj2 (Z.eqb_neq c 34)) by (apply word_char_not; [done|simpl; tauto]). rewrite drop_mid.
  change t_aliases with [[63; 0]]. change m_aliases with [[35; 0]].
  rewrite (no_operator 63), (no_operator 35) by (done || lia). cbn [mbind option_bind Z.eqb negb].
  specialize (IH (pre ++ [c]) w r). rewrite <- !app_assoc in IH. cbn [app] in IH. replace (zlen (pre ++ [c])) with (zlen pre + 1) in IH by zl.
  apply IH; [done|simpl in Hf; lia].
Qed.

Lemma has_masking_word w r : forallb word_char w = true -> has_ccl_masking (w ++ r) (zlen w) t_aliases m_aliases = Some false.
Proof. intros H. apply (masking_word _ [] w r H). unfold zlen. lia. Qed.

Lemma append_word_loop fuel cap f l lt rt : forall pre w r d, forallb word_char (pre ++ w) = true -> (length w < fuel)%nat ->
  zlen d + zlen w + 1 <= cap ->
  append_loop fuel (pre ++ w ++ r) (zlen (pre ++ w)) cap false false t_aliases m_aliases f l (zlen pre) false (TermState d lt rt) =
    Some (inr (TermState (d ++ w) lt rt)).
Proof.
  induction fuel as [|fuel IH]; intros pre w r d Hw Hf Hcap; [lia|]. cbn [append_loop]. destruct w as [|c w].
  { rewrite app_nil_r, Z.ltb_irrefl. by rewrite app_nil_r. }
  rewrite (proj2 (Z.ltb_lt (zlen pre) (zlen (pre ++ c :: w)))) by (pose proof (zlen_nonneg w); zl).
  pose proof Hw as Hw'. rewrite forallb_app in Hw'. cbn [forallb] in Hw'. apply andb_true_iff in Hw' as [Hp [Hc _]%andb_true_iff].
  rewrite no_backslash by done. cbn [mbind option_bind app]. rewrite rd_mid. cbn [mbind option_bind].
  rewrite (proj2 (Z.eqb_neq c 34)) by (apply word_char_not; [done|simpl; tauto]). rewrite drop_mid.
  change t_aliases with [[63; 0]]. change m_aliases with [[35; 0]].
  rewrite (no_operator 63), (no_operator 35) by (done || lia). cbn [mbind option_bind Z.eqb negb].
  rewrite (proj2 (Z.eqb_neq c 92)) by (apply word_char_not; [done|simpl; tauto]). cbn [negb masked_char andb dst_term left_trunc right_trunc].
  rewrite zlen_cons in Hcap. unfold cat. rewrite (proj2 (Z.leb_le (zlen d + zlen [c] + 1) cap)) by (pose proof (zlen_nonneg w); zl).
  cbn [mbind option_bind]. specialize (IH (pre ++ [c]) w r (d ++ [c])). rewrite <- !app_assoc in IH. cbn [app] in IH.
  replace (zlen (pre ++ [c])) with (zlen pre + 1) in IH by zl. apply IH; [done|simpl in Hf; lia|zl].
Qed.

Lemma append_word w r cap f l d lt rt : forallb word_char w = true -> zlen d + zlen w + 1 <= cap ->
  append_term (w ++ r) (zlen w) cap false false t_aliases m_aliases f l (TermState d lt rt) = Some (inr (TermState (d ++ w) lt rt)).
Proof. intros H Hc. apply (append_word_loop _ _ _ _ _ _ [] w r d H); [unfold zlen; lia|done]. Qed.

(** ** Tokens *)

(** A token as it stands in the text: the blanks before it and its octets. *)
Record atok := AT { at_kind : ccl_tok; at_text : list Z; at_ws : list Z }.

Definition tok_is (t : ccl_token) (a : atok) : Prop :=
  t_kind t = at_kind a /\ t_len t = zlen (at_text a) /\ t_ws_len t = zlen (at_ws a) /\ is_Some (t_off t) /\
  (exists r, t_name t = at_text a ++ r) /\ (exists r, t_ws_buf t = at_ws a ++ r).

Fixpoint toks_at (ts : list ccl_token) (i : nat) (ats : list atok) : Prop :=
  match ats with
  | [] => True
  | a :: ats => (exists t, ts !! i = Some t /\ tok_is t a) /\ toks_at ts (S i) ats
  end.

Lemma toks_at_app ts a1 a2 : forall i, toks_at ts i (a1 ++ a2) -> toks_at ts i a1 /\ toks_at ts (i + length a1) a2.
Proof.
  induction a1 as [|a a1 IH]; intros i; cbn [app toks_at length]; [rewrite Nat.add_0_r; done|].
  intros [H [H1 H2]%IH]. rewrite <- Nat.add_succ_comm. done.
Qed.

Lemma set_look_twice i j p : set_look i (set_look j p) = set_look i p.
Proof. done. Qed.

Lemma token_at_ok p i t : tokens p !! i = Some t -> token_at i p = Some (t, p).
Proof. intros H. unfold token_at. mrun. by rewrite H. Qed.

Lemma look_ok p t : tokens p !! look_token p = Some t -> look p = Some (t, p).
Proof. intros H. unfold look. mrun. by apply token_at_ok. Qed.

Lemma KIND_ok p t : tokens p !! look_token p = Some t -> KIND p = Some (t_kind t, p).
Proof. intros H. unfold KIND. by rewrite (bind_Some _ _ _ _ _ (look_ok p t H)). Qed.

Lemma is_kind_ok p t k : tokens p !! look_token p = Some t -> is_kind k p = Some (bool_decide (t_kind t = k), p).
Proof. intros H. unfold is_kind. by rewrite (bind_Some _ _ _ _ _ (KIND_ok p t H)). Qed.

Lemma ADVANCE_ok p t : tokens p !! look_token p = Some t -> ADVANCE p = Some (tt, set_look (S (look_token p)) p).
Proof. intros H. unfold ADVANCE. by rewrite (bind_Some _ _ _ _ _ (look_ok p t H)). Qed.

Lemma advance_by_ok ats : forall p, toks_at (tokens p) (look_token p) ats ->
  advance_by (length ats) p = Some (tt, set_look (look_token p + length ats) p).
Proof.
  induction ats as [|a ats IH]; intros p; cbn [toks_at length advance_by].
  { intros _. unfold ret. rewrite Nat.add_0_r. by destruct p. }
  intros [(t & Ht & _) H]. rewrite (bind_Some _ _ _ _ _ (ADVANCE_ok p t Ht)). rewrite IH by exact H.
  cbn [look_token set_look]. by rewrite Nat.add_succ_comm.
Qed.

(** ** One term *)

Section parsing.
Context (b : ccl_qualifiers) (Hsp : b_special b = []).

(** The parser with the profile [b]. *)
Definition in_profile (p : ccl_parser) : Prop := bibset p = Some b /\ ccl_case_sensitive p = 1.

Lemma special_none p n : in_profile p -> special n p = Some (None, p).
Proof. intros [Hb _]. unfold special. mrun. rewrite Hb. cbn [ccl_qual_search_special]. by rewrite Hsp. Qed.

Lemma aliases_default p n d : in_profile p -> aliases_or n d p = Some ([d ++ [0]], p).
Proof. intros Hp. unfold aliases_or. by rewrite (bind_Some _ _ _ _ _ (special_none p n Hp)). Qed.

Definition is_word (a : atok) : Prop := at_kind a = CCL_TOK_TERM /\ forallb word_char (at_text a) = true.

Definition sizes (ats : list atok) : Z := fold_right (fun a n => 1 + zlen (at_text a) + zlen (at_ws a) + n) 0 ats.

Lemma sizes_nonneg ats : 0 <= sizes ats.
Proof.
  induction ats as [|a ats IH]; cbn [sizes fold_right]; [lia|]. unfold sizes in IH.
  pose proof (zlen_nonneg (at_text a)). pose proof (zlen_nonneg (at_ws a)). lia.
Qed.

Lemma scan_words p ats : Forall is_word ats -> forall i n, toks_at (tokens p) i ats ->
  scan_terms (length ats) i t_aliases m_aliases false n p = Some ((false, n + sizes ats), p).
Proof.
  induction 1 as [|a ats [_ Ha] _ IH]; intros i n; cbn [toks_at length scan_terms].
  { intros _. cbn [sizes fold_right]. by rewrite Z.add_0_r. }
  intros [(t & Ht & _ & Hl & Hwl & _ & (r & Hn) & _) H]. rewrite (bind_Some _ _ _ _ _ (token_at_ok p i t Ht)).
  rewrite Hn, Hl, has_masking_word by done. mrun. cbn [orb]. rewrite IH by done. rewrite Hwl. cbn [sizes fold_right]. do 3 f_equal. unfold sizes. lia.
Qed.

Definition spelled (a : atok) : list Z := at_ws a ++ at_text a.

Lemma append_words p cap lt rt ats : Forall is_word ats -> forall i first d, toks_at (tokens p) i ats ->
  zlen d + sizes ats + 1 <= cap -> d <> [] ->
  append_terms (length ats) first i cap false false t_aliases m_aliases (TermState d lt rt) p =
    Some (inr (TermState (d ++ concat (map spelled ats)) lt rt), p).
Proof.
  induction 1 as [|a ats [_ Ha] _ IH]; intros i first d; cbn [toks_at length append_terms map concat].
  { intros _ _ _. by rewrite app_nil_r. }
  intros [(t & Ht & _ & Hl & Hwl & _ & (r & Hn) & (r' & Hw)) H] Hcap Hd. cbn [sizes fold_right] in Hcap. fold (sizes ats) in Hcap.
  pose proof (sizes_nonneg ats). pose proof (zlen_nonneg (at_text a)). pose proof (zlen_nonneg (at_ws a)).
  rewrite (bind_Some _ _ _ _ _ (token_at_ok p i t Ht)). cbn [dst_term left_trunc right_trunc].
  rewrite (bind_Some _ _ p (d ++ at_ws a) p).
  - rewrite Hn, Hl, append_word by (done || zl). mrun. rewrite IH; [|done|zl|by destruct d].
    unfold spelled at 2. by rewrite <- !app_assoc.
  - rewrite (proj2 (Z.eqb_neq (zlen d) 0)) by (pose proof (zlen_pos d Hd); lia). cbn [negb andb]. rewrite Hwl.
    destruct (Z.eqb_spec (zlen (at_ws a)) 0) as [Hz|Hz]; cbn [negb].
    { destruct (at_ws a); [by rewrite app_nil_r|]. rewrite zlen_cons in Hz. pose proof (zlen_nonneg l). lia. }
    rewrite Hw, <- Hwl, Hwl. assert (sub (at_ws a ++ r') 0 (zlen (at_ws a)) = Some (at_ws a)) as -> by apply (sub_mid []).
    mrun. unfold cat. rewrite (proj2 (Z.leb_le _ cap)) by lia. done.
Qed.

(** The octets of a term made of tokens: the blanks before the first are left out. *)
Definition term_octets (ats : list atok) : list Z :=
  match ats with [] => [] | a :: ats => at_text a ++ concat (map spelled ats) end.

Lemma append_first p cap lt rt ats i : Forall is_word ats -> Forall (fun a => at_text a <> []) ats -> toks_at (tokens p) i ats ->
  sizes ats + 1 <= cap ->
  append_terms (length ats) true i cap false false t_aliases m_aliases (TermState [] lt rt) p =
    Some (inr (TermState (term_octets ats) lt rt), p).
Proof.
  intros Hw Hne H Hcap. destruct ats as [|a ats]; [done|]. apply Forall_cons_1 in Hw as [[Ha Haw] Hw]. apply Forall_cons_1 in Hne as [Hna _].
  cbn [toks_at length append_terms term_octets sizes fold_right] in *. fold (sizes ats) in Hcap. pose proof (sizes_nonneg ats).
  pose proof (zlen_nonneg (at_text a)). pose proof (zlen_nonneg (at_ws a)).
  destruct H as [(t & Ht & _ & Hl & _ & _ & (r & Hn) & _) H]. rewrite (bind_Some _ _ _ _ _ (token_at_ok p i t Ht)).
  cbn [dst_term left_trunc right_trunc]. change (zlen (@nil Z) =? 0) with true. cbn [negb andb]. rewrite bind_ret_l.
  rewrite Hn, Hl, append_word by (done || zl). mrun. cbn [app]. rewrite append_words; [done|done|done|lia|done].
Qed.

(** *** Plain qualifiers *)

Definition quals_of (q : option ccl_qualifier) : quals := option_map (fun q => [q]) q.
Definition plain (q : option ccl_qualifier) : Prop := match q with Some q => plain_qual q = true | None => True end.

Lemma plain_parts q : plain_qual q = true -> forallb plain_attr (q_attr_list q) = true /\
  (length (filter (fun a => a_type a = 1%Z) (q_attr_list q)) <= 1)%nat /\
  (length (filter (fun a => has_numeric CCL_BIB1_STR a = true) (q_attr_list q)) <= 1)%nat.
Proof.
  unfold plain_qual. rewrite !andb_true_iff, !Z.leb_le. intros [[H1 H2] H3].
  unfold zlen in *. split_and!; [done|lia|lia].
Qed.

Lemma no_instruction q type value : plain q -> value < 0 -> qual_val_type (quals_of q) type value = None.
Proof.
  destruct q as [q|]; [|done]. intros (Hp & _)%plain_parts Hv. cbn [quals_of option_map qual_val_type qa_val_type].
  assert (attr_val_type (ccl_qual_get_attr q) type value = None) as ->; [|by destruct (existsb _ _)].
  unfold ccl_qual_get_attr. induction (q_attr_list q) as [|a al IH]; [done|]. cbn [forallb] in Hp.
  apply andb_true_iff in Hp as [Ha Hp]. cbn [attr_val_type]. unfold plain_attr in Ha. destruct (a_value a) as [n|s]; [|by apply IH].
  apply Z.ltb_lt in Ha. rewrite (proj2 (Z.eqb_neq n value)) by lia. rewrite andb_false_r. by apply IH.
Qed.

Lemma has_no_instruction q type value : plain q -> value < 0 -> has_val (quals_of q) type value = false.
Proof. intros Hq Hv. unfold has_val. rewrite no_instruction by done. apply bool_decide_eq_false_2. by intros [? ?]. Qed.

(** The use attribute that is meant is the only one. *)
Definition good_use (q : ccl_qualifier) (use : option attr_ptr) : Prop :=
  forall k a, q_attr_list q !! k = Some a -> a_type a = 1 -> other_use use (q_addr q, k) = false.

Lemma copy_plain use addr al : forall i acc sv, forallb plain_attr al = true ->
  (forall k a, al !! k = Some a -> a_type a = 1 -> other_use use (addr, (i + k)%nat) = false) ->
  (length (filter (fun a => has_numeric CCL_BIB1_STR a = true) al) <= (if (sv =? -1)%Z then 1 else 0))%nat ->
  exists sv', copy_attrs use addr i al acc sv = (rev al ++ acc, sv').
Proof.
  induction al as [|a al IH]; intros i acc sv Hp Hu Hs; [by exists sv|]. cbn [forallb] in Hp. apply andb_true_iff in Hp as [Ha Hp].
  assert (forall k a, al !! k = Some a -> a_type a = 1 -> other_use use (addr, (S i + k)%nat) = false) as Hu'.
  { intros k x Hk Hx. rewrite Nat.add_succ_comm. by apply (Hu (S k) x). }
  assert (forall sv, (length (filter (fun a => has_numeric CCL_BIB1_STR a = true) al) <= (if (sv =? -1)%Z then 1 else 0))%nat ->
    exists sv', copy_attrs use addr (S i) al (a :: acc) sv = ((rev al ++ [a]) ++ acc, sv')) as Hgo.
  { intros sv0 Hs0. destruct (IH (S i) (a :: acc) sv0 Hp Hu' Hs0) as (sv' & ->). exists sv'. by rewrite <- app_assoc. }
  cbn [copy_attrs rev]. replace ((a_type a =? 1) && other_use use (addr, i)) with false.
  2: { destruct (Z.eqb_spec (a_type a) 1); [|done]. cbn [andb]. symmetry. rewrite <- (Nat.add_0_r i). by apply (Hu 0%nat a). }
  unfold add_attr_node. rewrite filter_cons in Hs. unfold plain_attr in Ha.
  destruct (decide (has_numeric CCL_BIB1_STR a = true)) as [Hn|Hn]; unfold has_numeric in Hn.
  - destruct a as [set_ ty [n|s]]; cbn [a_value a_type a_set length] in *; [|done]. rewrite Ha, Hn. cbn [andb].
    destruct (Z.eqb_spec sv (-1)); [|lia]. cbn [negb].
    apply Hgo. apply Z.ltb_lt in Ha. rewrite (proj2 (Z.eqb_neq n (-1))) by lia. lia.
  - destruct a as [set_ ty [n|s]]; cbn [a_value a_type a_set] in *; [|by apply Hgo]. rewrite Ha.
    apply not_true_is_false in Hn. rewrite Hn. cbn [andb]. by apply Hgo.
Qed.

Lemma filter_unique {A} (P : A -> Prop) `{forall x, Decision (P x)} (l : list A) : (length (filter P l) <= 1)%nat ->
  forall i j x y, l !! i = Some x -> l !! j = Some y -> P x -> P y -> i = j.
Proof.
  induction l as [|a l IH]; intros Hl i j x y Hi Hj Hx Hy; [by destruct i|]. rewrite filter_cons in Hl.
  assert (forall k z, l !! k = Some z -> P z -> (1 <= length (filter P l))%nat) as Hin.
  { intros k z Hk Hz. assert (z ∈ filter P l) as Hz' by (apply list_elem_of_filter; split; [done|by eapply list_elem_of_lookup_2]).
    destruct (filter P l); [by apply not_elem_of_nil in Hz'|simpl; lia]. }
  destruct i as [|i], j as [|j]; cbn in Hi, Hj; [done| | |].
  - injection Hi as ->. rewrite decide_True in Hl by done. cbn [length] in Hl. specialize (Hin j y Hj Hy). lia.
  - injection Hj as ->. rewrite decide_True in Hl by done. cbn [length] in Hl. specialize (Hin i x Hi Hx). lia.
  - f_equal. eapply IH; [|done..]. destruct (decide (P a)); cbn [length] in Hl; lia.
Qed.

Lemma good_use_at q k a : plain_qual q = true -> q_attr_list q !! k = Some a -> a_type a = 1 -> good_use q (Some (q_addr q, k)).
Proof.
  intros (_ & Hu & _)%plain_parts Hk Ha j x Hj Hx. unfold other_use.
  rewrite (filter_unique _ _ Hu k j a x Hk Hj Ha Hx). by rewrite bool_decide_eq_true_2.
Qed.

(** *** Terms *)

Lemma one_use_plain p q use ats ph : in_profile p -> plain q -> (forall q0, q = Some q0 -> good_use q0 use) ->
  Forall is_word ats -> Forall (fun a => at_text a <> []) ats -> toks_at (tokens p) (look_token p) ats -> sizes ats < 2 ^ 29 ->
  ccl_term_one_use (look_token p) use (quals_of q) (length ats) ph false p = Some (Some (term_node q (term_octets ats)), p).
Proof.
  intros Hp Hq Hu Hw Hne Ht Hsz. unfold ccl_term_one_use.
  rewrite (bind_Some _ _ _ _ _ (aliases_default p _ _ Hp)), (bind_Some _ _ _ _ _ (aliases_default p _ _ Hp)).
  rewrite (bind_Some _ _ _ _ _ (scan_words p ats Hw _ 0 Ht)). cbv beta iota zeta.
  assert (exists sv, copy_all_attrs use (match quals_of q with Some qa => qa | None => [] end) [] (-1) =
    (match q with Some q => rev (q_attr_list q) | None => [] end, sv)) as (sv & ->).
  { destruct q as [q|]; [|by eexists]. cbn [quals_of option_map copy_all_attrs]. unfold ccl_qual_get_attr.
    destruct (plain_parts q Hq) as (Hpa & _ & Hst). destruct (copy_plain use (q_addr q) (q_attr_list q) 0 [] (-1) Hpa) as (sv & ->).
    - intros k a Hk Ha. by apply (Hu q eq_refl k a).
    - done.
    - exists sv. by rewrite app_nil_r. }
  cbv beta iota. unfold structure_attr, masking_mode. rewrite !no_instruction by done. destruct (sv =? -1); cbv beta iota;
  (rewrite (proj2 (Z.ltb_ge INT_MAX _)) by (unfold INT_MAX; lia); rewrite (bind_Some _ _ _ _ _ (append_first p ((0 + sizes ats) * 2 + 2) false false ats _ Hw Hne Ht ltac:(pose proof (sizes_nonneg ats); lia)));
   unfold truncation_attr; cbn [left_trunc right_trunc andb dst_term]; rewrite no_instruction by done; by destruct q).
Qed.

Lemma multi_use_plain p q ats ph : in_profile p -> plain q ->
  Forall is_word ats -> Forall (fun a => at_text a <> []) ats -> toks_at (tokens p) (look_token p) ats -> sizes ats < 2 ^ 29 ->
  ccl_term_multi_use (look_token p) (quals_of q) (length ats) ph false p = Some (Some (term_node q (term_octets ats)), p).
Proof.
  intros Hp Hq Hw Hne Ht Hsz. unfold ccl_term_multi_use. destruct q as [q|]; cbn [quals_of option_map]; mrun;
    [|by apply (one_use_plain p None None)].
  set (N := term_node (Some q) (term_octets ats)).
  assert (forall use, good_use q use -> ccl_term_one_use (look_token p) use (Some [q]) (length ats) ph false p = Some (Some N, p)) as Hone.
  { intros use Huse. apply (one_use_plain p (Some q) use); [done..| |done|done|done|done]. by intros q0 [= <-]. }
  assert (forall al j tree, (forall k a, al !! k = Some a -> q_attr_list q !! (j + k)%nat = Some a) ->
    (tree = None \/ (tree = Some N /\ forall k a, al !! k = Some a -> a_type a <> 1)) -> exists tree',
    multi_use_loop al (q_addr q) j (look_token p) (Some [q]) (length ats) ph false tree p = Some (Some tree', p) /\
    (tree' = None \/ tree' = Some N)) as Hloop.
  { induction al as [|a al IH]; intros j tree Hsub Htree; cbn [multi_use_loop].
    { exists tree. split; [done|]. destruct Htree as [->|[-> _]]; auto. }
    assert (forall k x, al !! k = Some x -> q_attr_list q !! (S j + k)%nat = Some x) as Hsub'.
    { intros k x Hk. rewrite Nat.add_succ_comm. by apply (Hsub (S k)). }
    pose proof (Hsub 0%nat a eq_refl) as Hj. rewrite Nat.add_0_r in Hj. destruct (Z.eqb_spec (a_type a) 1) as [Ha|Ha].
    - destruct Htree as [->|[-> Hno]]; [|by destruct (Hno 0%nat a)].
      rewrite (bind_Some _ _ _ _ _ (Hone _ (good_use_at q j a Hq Hj Ha))). cbn [ccl_rpn_node_mkbool].
      apply IH; [done|]. right. split; [done|]. intros k x Hk Hx. destruct (plain_parts q Hq) as (_ & Hun & _).
      pose proof (filter_unique _ _ Hun _ _ _ _ Hj (Hsub' k x Hk) Ha Hx). lia.
    - apply IH; [done|]. destruct Htree as [->|[-> Hno]]; [by left|]. right. split; [done|]. intros k x Hk. by apply (Hno (S k)). }
  destruct (Hloop (ccl_qual_get_attr q) 0%nat None) as (tree & E & Htree); [done|by left|].
  rewrite (bind_Some _ _ _ _ _ E). destruct Htree as [->| ->]; [|done]. by apply Hone.
Qed.

(** *** Groups of words *)

(** What comes after an element. *)
Definition stop_tok (k : ccl_tok) : bool :=
  match k with CCL_TOK_EOL | CCL_TOK_RP | CCL_TOK_AND | CCL_TOK_OR | CCL_TOK_NOT => true | _ => false end.
Definition stops_at (p : ccl_parser) (i : nat) : Prop := exists t, tokens p !! i = Some t /\ stop_tok (t_kind t) = true.

Lemma stop_not_term k : stop_tok k = true -> is_term_ok k term_tokens = false.
Proof. by destruct k. Qed.

Lemma group_words p ats : Forall is_word ats -> forall max i no ph, toks_at (tokens p) i ats -> (length ats <= max)%nat ->
  stops_at p (i + length ats) -> exists ph', group_loop max false term_tokens i no ph p = Some (((no + length ats)%nat, ph'), p).
Proof.
  induction 1 as [|a ats [Hk Ha] _ IH]; intros max i no ph; cbn [toks_at length].
  - intros _ _ (t & Ht & Hs). rewrite Nat.add_0_r in Ht. exists ph. rewrite Nat.add_0_r. destruct max as [|max]; [done|]. cbn [group_loop].
    rewrite (bind_Some _ _ _ _ _ (token_at_ok p i t Ht)), stop_not_term by done. done.
  - intros [(t & Ht & Hkt & Hl & _ & _ & (r & Hn) & _) H] Hmax Hstop. destruct max as [|max]; [lia|]. cbn [group_loop].
    rewrite (bind_Some _ _ _ _ _ (token_at_ok p i t Ht)), Hkt, Hk. change (is_term_ok CCL_TOK_TERM term_tokens) with true. cbn [negb].
    rewrite Hn, Hl. assert (sub (at_text a ++ r) 0 (zlen (at_text a)) = Some (at_text a)) as -> by apply (sub_mid []). mrun.
    rewrite <- Nat.add_succ_comm in Hstop. rewrite <- Nat.add_succ_comm. apply IH; [done|lia|done].
Qed.

Lemma words_length ts i ats : toks_at ts i ats -> ats <> [] -> (i < length ts)%nat.
Proof. destruct ats as [|a ats]; [done|]. intros [(t & Ht & _) _] _. by eapply lookup_lt_Some. Qed.

Lemma terms_end p q n tree : in_profile p -> stops_at p (look_token p) ->
  terms_loop (S n) (quals_of q) term_tokens true false false false tree p = Some (Some tree, p).
Proof.
  intros Hp Hstop. cbn [terms_loop negb orb]. mrun.
  destruct (group_words p [] ltac:(constructor) 200 (look_token p) 0 false I ltac:(simpl; lia)) as (ph & E).
  { cbn [length]. by rewrite Nat.add_0_r. }
  by rewrite (bind_Some _ _ _ _ _ E).
Qed.

Lemma terms_words p q ats n : in_profile p -> plain q -> Forall is_word ats -> Forall (fun a => at_text a <> []) ats ->
  toks_at (tokens p) (look_token p) ats -> sizes ats < 2 ^ 29 -> (0 < length ats <= 200)%nat -> stops_at p (look_token p + length ats) ->
  terms_loop (S n) (quals_of q) term_tokens true false false false None p =
    terms_loop n (quals_of q) term_tokens true false false false (Some (term_node q (term_octets ats)))
      (set_look (look_token p + length ats) p).
Proof.
  intros Hp Hq Hw Hne Ht Hsz Hlen Hstop. cbn [terms_loop negb orb]. mrun.
  destruct (group_words p ats Hw 200 (look_token p) 0 false Ht ltac:(lia) Hstop) as (ph & E).
  rewrite (bind_Some _ _ _ _ _ E). cbv beta iota. destruct (0 + length ats)%nat as [|k] eqn:Ek; [lia|].
  replace (S k) with (length ats) by lia.
  rewrite (bind_Some _ _ _ _ _ (multi_use_plain p q ats ph Hp Hq Hw Hne Ht Hsz)).
  by rewrite (bind_Some _ _ _ _ _ (advance_by_ok ats p Ht)).
Qed.

Lemma search_words p q ats : in_profile p -> plain q -> Forall is_word ats -> Forall (fun a => at_text a <> []) ats ->
  toks_at (tokens p) (look_token p) ats -> sizes ats < 2 ^ 29 -> (0 < length ats <= 200)%nat -> stops_at p (look_token p + length ats) ->
  search_term_x (quals_of q) term_tokens true p =
    Some (Some (term_node q (term_octets ats)), set_look (look_token p + length ats) p).
Proof.
  intros Hp Hq Hw Hne Ht Hsz Hlen Hstop. unfold search_term_x. rewrite !has_no_instruction by done. cbv zeta beta. mrun.
  destruct (length (tokens p)) as [|n] eqn:En.
  { destruct ats; [simpl in Hlen; lia|]. pose proof (words_length _ _ _ Ht ltac:(done)). lia. }
  assert (terms_loop (S (S n)) (quals_of q) term_tokens true false false false None p =
    Some (Some (Some (term_node q (term_octets ats))), set_look (look_token p + length ats) p)) as E.
  { rewrite (terms_words p q ats) by done. by apply terms_end. }
  by rewrite (bind_Some _ _ _ _ _ E).
Qed.

(** ** The grammar *)

Fixpoint atoks (ws : list Z) (e : ccl_expr) : list atok :=
  match e with
  | X_words w l => AT CCL_TOK_TERM w ws :: map (fun w => AT CCL_TOK_TERM w [32]) l
  | X_qual n e => AT CCL_TOK_TERM n ws :: AT CCL_TOK_EQ (str "=") [] :: atoks [] e
  | X_paren e => AT CCL_TOK_LP (str "(") ws :: atoks [] e ++ [AT CCL_TOK_RP (str ")") []]
  | X_set n => [AT CCL_TOK_SET (str "set") ws; AT CCL_TOK_EQ (str "=") []; AT CCL_TOK_TERM n []]
  | X_bool op l r =>
      atoks ws l ++
      AT (match op with CCL_RPN_AND => CCL_TOK_AND | CCL_RPN_OR => CCL_TOK_OR | CCL_RPN_NOT => CCL_TOK_NOT end) (op_word op) [32] ::
      atoks [32] r
  end.

Fixpoint nest (e : ccl_expr) : nat :=
  match e with
  | X_words _ _ | X_set _ => 0
  | X_qual _ e => nest e
  | X_paren e => S (nest e)
  | X_bool _ l r => Nat.max (nest l) (nest r)
  end.
Fixpoint ops (e : ccl_expr) : nat := match e with X_bool _ l _ => S (ops l) | _ => 0 end.

Context (Hnames : Forall (fun q => q_sub q = [] /\ is_Some (strlen (q_name q))) (b_list b)).

Lemma qual_search_ext c n r1 r2 l : c <> 0 -> Forall (fun q => q_sub q = [] /\ is_Some (strlen (q_name q))) l ->
  qual_search c l (n ++ r1) (zlen n) = qual_search c l (n ++ r2) (zlen n) /\ is_Some (qual_search c l (n ++ r1) (zlen n)) /\
  forall q, qual_search c l (n ++ r1) (zlen n) = Some (Some q) -> q_sub q = [].
Proof.
  intros Hc. induction 1 as [|q l [Hs (k & Hk)] _ (IH1 & IH2 & IH3)]; cbn [qual_search]; [split_and!; [done|by eexists|done]|].
  rewrite Hk. cbn [mbind option_bind]. destruct (Z.eqb_spec k (zlen n)) as [->|Hne]; cbn [mbind option_bind]; [|done].
  unfold name_same. rewrite (proj2 (Z.eqb_neq c 0)) by done. cbn [negb]. unfold mem_same.
  assert (forall r, sub (n ++ r) 0 (zlen n) = Some n) as Hsub by (intros r; apply (sub_mid [])). rewrite !Hsub. cbn [mbind option_bind].
  destruct (strlen_inv _ _ Hk) as (s & rest & E & _ & Hz).
  assert (sub (q_name q) 0 (zlen n) = Some s) as -> by (rewrite E, Hz; apply (sub_mid [])). cbn [mbind option_bind].
  destruct (bool_decide _); [|done]. split_and!; [done|by eexists|]. by intros q' [= <-].
Qed.

Lemma search_qual_ok p n r k : in_profile p ->
  search_qual (n ++ r) (zlen n) k p = Some (match k with O => qualifier_of b n | S _ => None end, p).
Proof.
  intros [Hb Hc]. unfold search_qual, qualifier_of. mrun. rewrite Hb, Hc. unfold ccl_qual_search, case_flag.
  cbn [ccl_qual_search_special]. rewrite Hsp. cbn [special_search mbind option_bind].
  destruct (qual_search_ext 1 n r [0] (b_list b) ltac:(lia) Hnames) as (<- & (q & Hq) & Hsub). rewrite Hq. cbn [mbind option_bind].
  destruct q as [q|]; [|by destruct k]. rewrite (Hsub q Hq). by destruct k.
Qed.

Lemma set_look_same p : set_look (look_token p) p = p.
Proof. by destruct p. Qed.

(** *** Terms *)

Lemma prox_end fs fuel q p t : stops_at p (look_token p) -> prox_loop fs (S fuel) q t p = Some (Some t, p).
Proof.
  intros (k & Hk & Hs). cbn [prox_loop]. rewrite (bind_Some _ _ _ _ _ (KIND_ok p k Hk)). by destruct (t_kind k).
Qed.

Lemma words_tokens w l ws : word_ok w = true -> forallb word_ok l = true -> Forall is_word (atoks ws (X_words w l)) /\
  Forall (fun a => at_text a <> []) (atoks ws (X_words w l)) /\ term_octets (atoks ws (X_words w l)) = join w l.
Proof.
  assert (forall v, word_ok v = true -> forallb word_char v = true /\ v <> []) as Hword.
  { intros v. unfold word_ok. rewrite !andb_true_iff. intros [[H1%Z.ltb_lt H2] _]. split; [done|]. by intros ->. }
  intros Hw Hl. destruct (Hword w Hw) as [Hw1 Hw2]. rewrite forallb_forall in Hl. cbn [atoks]. split_and!.
  - constructor; [done|]. apply List.Forall_forall. intros a (v & <- & Hv)%in_map_iff. split; [done|]. by apply Hword, Hl.
  - constructor; [done|]. apply List.Forall_forall. intros a (v & <- & Hv)%in_map_iff. by apply Hword, Hl.
  - cbn [term_octets at_text]. unfold join. f_equal. rewrite map_map. done.
Qed.

Lemma terms_of_words fs fuel q w l ws p : in_profile p -> plain q -> elem_ok b true (X_words w l) = true ->
  toks_at (tokens p) (look_token p) (atoks ws (X_words w l)) -> sizes (atoks ws (X_words w l)) < 2 ^ 29 ->
  stops_at p (look_token p + length (atoks ws (X_words w l))) ->
  search_terms fs (S fuel) (quals_of q) p =
    Some (Some (term_node q (join w l)), set_look (look_token p + length (atoks ws (X_words w l))) p).
Proof.
  cbn [elem_ok]. rewrite !andb_true_iff. intros Hp Hq [[Hw Hl] Hlen%Z.ltb_lt] Ht Hsz Hstop.
  destruct (words_tokens w l ws Hw Hl) as (H1 & H2 & H3). unfold search_terms, search_terms2.
  pose proof Ht as Ht0. cbn [atoks toks_at] in Ht0. destruct Ht0 as [(t & Ht0 & Hk & _) _]. cbn [at_kind] in Hk.
  rewrite bind_assoc, (bind_Some _ _ _ _ _ (is_kind_ok p t CCL_TOK_LP Ht0)), Hk. change (bool_decide (CCL_TOK_TERM = CCL_TOK_LP)) with false. cbv iota.
  assert (length (atoks ws (X_words w l)) = S (length l)) as El by (cbn [atoks length]; by rewrite length_map).
  rewrite (bind_Some _ _ _ _ _ (search_words p q _ Hp Hq H1 H2 Ht Hsz ltac:(unfold zlen in Hlen; lia) Hstop)).
  rewrite H3. by apply prox_end.
Qed.

(** *** Elements *)

(** What a function of the parser makes of the text of [e] and of nothing more. *)
Definition reads (m : CCL (option ccl_rpn_node)) (p : ccl_parser) (ats : list atok) (t : ccl_rpn_node) : Prop :=
  m p = Some (Some t, set_look (look_token p + length ats) p).

Definition closes_at (p : ccl_parser) (i : nat) : Prop :=
  exists t, tokens p !! i = Some t /\ (t_kind t = CCL_TOK_RP \/ t_kind t = CCL_TOK_EOL).

(** The text of a parenthesis for [find_spec]. *)
Definition spec_reads (max : nat) (fs : quals -> CCL (option ccl_rpn_node)) (q : option ccl_qualifier) (e : ccl_expr) : Prop :=
  forall p ws, in_profile p -> (length (tokens p) < max)%nat -> toks_at (tokens p) (look_token p) (atoks ws e) -> sizes (atoks ws e) < 2 ^ 29 ->
  closes_at p (look_token p + length (atoks ws e)) -> reads (fs (quals_of q)) p (atoks ws e) (meaning b q e).

Lemma sizes_app a1 a2 : sizes (a1 ++ a2) = sizes a1 + sizes a2.
Proof. induction a1 as [|a a1 IH]; [done|]. cbn [app sizes fold_right]. fold (sizes (a1 ++ a2)) (sizes a1). lia. Qed.

Lemma sizes_cons a ats : sizes ats < sizes (a :: ats).
Proof.
  cbn [sizes fold_right]. fold (sizes ats). pose proof (zlen_nonneg (at_text a)). pose proof (zlen_nonneg (at_ws a)). lia.
Qed.

Lemma terms_of_paren fs fuel q e ws p max : in_profile p -> (length (tokens p) < max)%nat -> spec_reads max fs q e ->
  toks_at (tokens p) (look_token p) (atoks ws (X_paren e)) -> sizes (atoks ws (X_paren e)) < 2 ^ 29 ->
  stops_at p (look_token p + length (atoks ws (X_paren e))) ->
  reads (search_terms fs (S fuel) (quals_of q)) p (atoks ws (X_paren e)) (meaning b q e).
Proof.
  intros Hp Hmax He Ht Hsz Hstop. unfold reads, search_terms, search_terms2. cbn [atoks toks_at length] in Ht, Hsz, Hstop |- *.
  destruct Ht as [(t & Ht & Hk & _) H]. apply toks_at_app in H as [He1 [(t2 & Ht2 & Hk2 & _) _]]. cbn [at_kind] in Hk, Hk2.
  rewrite length_app in Hstop |- *. cbn [length] in Hstop |- *.
  rewrite bind_assoc, (bind_Some _ _ _ _ _ (is_kind_ok p t CCL_TOK_LP Ht)), Hk. change (bool_decide (CCL_TOK_LP = CCL_TOK_LP)) with true. cbv iota.
  rewrite bind_assoc, (bind_Some _ _ _ _ _ (ADVANCE_ok p t Ht)). set (p1 := set_look (S (look_token p)) p).
  pose proof (Z.lt_trans _ _ _ (sizes_cons _ _) Hsz) as Hsz'. rewrite sizes_app in Hsz'. pose proof (sizes_nonneg [AT CCL_TOK_RP (str ")") []]).
  assert (reads (fs (quals_of q)) p1 (atoks [] e) (meaning b q e)) as E.
  { apply He; [done|done|exact He1|lia|]. exists t2. split; [exact Ht2|by left]. }
  unfold reads in E. rewrite bind_assoc, (bind_Some _ _ _ _ _ E). set (p2 := set_look (look_token p1 + length (atoks [] e)) p1).
  assert (tokens p2 !! look_token p2 = Some t2) as Ht2' by exact Ht2.
  rewrite bind_assoc, (bind_Some _ _ _ _ _ (is_kind_ok p2 t2 CCL_TOK_RP Ht2')), Hk2.
  change (bool_decide (CCL_TOK_RP = CCL_TOK_RP)) with true. cbn [negb]. rewrite bind_assoc, (bind_Some _ _ _ _ _ (ADVANCE_ok p2 t2 Ht2')). mrun.
  replace (set_look (S (look_token p2)) p2) with (set_look (look_token p + S (length (atoks [] e) + 1)) p)
    by (unfold p2, p1; rewrite !set_look_twice; f_equal; cbn [look_token set_look]; lia).
  by apply prox_end.
Qed.

Lemma elements_terms fs fuel q p k : (forall t, tokens p !! look_token p = Some t -> t_kind t <> CCL_TOK_SET) ->
  is_Some (tokens p !! look_token p) -> find_relation fuel (look_token p) p = Some (inr k, p) -> is_Some q \/ k = CCL_TOK_LP ->
  search_elements fs fuel (quals_of q) p = search_terms fs fuel (quals_of q) p.
Proof.
  intros Hset (t & Ht) Hr Hk. unfold search_elements. rewrite (bind_Some _ _ _ _ _ (is_kind_ok p t CCL_TOK_SET Ht)).
  rewrite bool_decide_eq_false_2 by auto. mrun. rewrite (bind_Some _ _ _ _ _ Hr).
  destruct Hk as [(q0 & ->)| ->]; [by rewrite bool_decide_eq_true_2 by by eexists|].
  by rewrite (bool_decide_eq_true_2 (CCL_TOK_LP = CCL_TOK_LP)), orb_true_r by done.
Qed.

(** After a word there is another one, or the end of the element. *)
Lemma find_relation_words fuel w l ws p : toks_at (tokens p) (look_token p) (atoks ws (X_words w l)) ->
  stops_at p (look_token p + length (atoks ws (X_words w l))) -> exists k, k <> CCL_TOK_LP /\
  find_relation (S fuel) (look_token p) p = Some (inr k, p).
Proof.
  cbn [atoks toks_at length]. rewrite length_map. intros [(t & Ht & Hk & _) H] Hstop. cbn [at_kind] in Hk.
  assert (exists u, tokens p !! S (look_token p) = Some u /\ (t_kind u = CCL_TOK_TERM \/ stop_tok (t_kind u) = true)) as (u & Hu & Hku).
  { destruct l as [|v l]; [destruct Hstop as (u & Hu & Hs); exists u; split; [by rewrite Nat.add_1_r in Hu|by right]|].
    cbn [map toks_at] in H. destruct H as [(u & Hu & Hku & _) _]. exists u. auto. }
  cbn [find_relation]. rewrite (bind_Some _ _ _ _ _ (token_at_ok p _ t Ht)), Hk. change (bool_decide (CCL_TOK_TERM = CCL_TOK_TERM)) with true. cbv iota.
  rewrite (bind_Some _ _ _ _ _ (token_at_ok p _ u Hu)). exists (t_kind u). by destruct Hku as [->|Hs]; [|destruct (t_kind u)].
Qed.

Lemma elem_words fs fuel q w l ws p : in_profile p -> plain q -> plain (qualifier_of b (str "term")) -> elem_ok b true (X_words w l) = true ->
  toks_at (tokens p) (look_token p) (atoks ws (X_words w l)) -> sizes (atoks ws (X_words w l)) < 2 ^ 29 ->
  stops_at p (look_token p + length (atoks ws (X_words w l))) ->
  reads (search_elements fs (S fuel) (quals_of q)) p (atoks ws (X_words w l)) (meaning b q (X_words w l)).
Proof.
  intros Hp Hq Hterm Hok Ht Hsz Hstop. unfold reads. pose proof Ht as Ht'.
  cbn [atoks toks_at] in Ht'. destruct Ht' as [(t & Ht0 & Hk & _) _]. cbn [at_kind] in Hk.
  destruct (find_relation_words fuel w l ws p Ht Hstop) as (k & Hlp & Hr). destruct q as [q|].
  - rewrite (elements_terms fs (S fuel) (Some q) p k); [|rewrite Ht0; intros t' [= <-]; by rewrite Hk|by eexists|done|left; by eexists].
    by apply terms_of_words.
  - unfold search_elements. rewrite (bind_Some _ _ _ _ _ (is_kind_ok p t CCL_TOK_SET Ht0)), Hk.
    change (bool_decide (CCL_TOK_TERM = CCL_TOK_SET)) with false. mrun. rewrite (bind_Some _ _ _ _ _ Hr).
    rewrite (bool_decide_eq_false_2 (is_Some (quals_of None))) by (by intros [? ?]). rewrite bool_decide_eq_false_2 by done. cbn [orb].
    rewrite (proj1 Hp). unfold seq_bound. cbn [default_quals meaning]. rewrite bind_assoc.
    rewrite (bind_Some _ _ _ _ _ (search_qual_ok p (str "term") [0] 0 Hp)). destruct (qualifier_of b (str "term")) as [q|] eqn:Eq.
    + rewrite bind_assoc. mrun. rewrite set_look_same, bind_assoc. change (Some [q]) with (quals_of (Some q)).
      rewrite (bind_Some _ _ _ _ _ (terms_of_words fs fuel (Some q) w l ws p Hp Hterm Hok Ht Hsz Hstop)). rewrite bind_assoc.
      cbn [ccl_rpn_node_mkbool].
      rewrite (bind_Some _ _ _ _ _ (search_qual_ok (set_look _ p) (str "term") [0] 1 Hp)). done.
    + mrun. change (@None (list ccl_qualifier)) with (quals_of None). by apply (terms_of_words fs fuel None).
Qed.

Lemma elem_set fs fuel q n ws p : in_profile p ->
  toks_at (tokens p) (look_token p) (atoks ws (X_set n)) ->
  reads (search_elements fs fuel (quals_of q)) p (atoks ws (X_set n)) (meaning b q (X_set n)).
Proof.
  cbn [atoks toks_at length]. intros Hp [(t & Ht & Hk & _) [(t1 & Ht1 & Hk1 & _) [(t2 & Ht2 & Hk2 & Hl2 & _ & _ & (r & Hn2) & _) _]]].
  cbn [at_kind at_text] in *. unfold reads, search_elements.
  rewrite (bind_Some _ _ _ _ _ (is_kind_ok p t CCL_TOK_SET Ht)), Hk. change (bool_decide (CCL_TOK_SET = CCL_TOK_SET)) with true. cbv iota.
  rewrite (bind_Some _ _ _ _ _ (ADVANCE_ok p t Ht)). set (p1 := set_look (S (look_token p)) p).
  rewrite (bind_Some _ _ _ _ _ (is_kind_ok p1 t1 CCL_TOK_EQ Ht1)), Hk1. change (bool_decide (CCL_TOK_EQ = CCL_TOK_EQ)) with true. cbv iota.
  rewrite (bind_Some _ _ _ _ _ (ADVANCE_ok p1 t1 Ht1)). set (p2 := set_look (S (look_token p1)) p1).
  rewrite (bind_Some _ _ _ _ _ (is_kind_ok p2 t2 CCL_TOK_TERM Ht2)), Hk2. change (bool_decide (CCL_TOK_TERM = CCL_TOK_TERM)) with true. cbn [negb].
  rewrite (bind_Some _ _ _ _ _ (look_ok p2 t2 Ht2)), Hn2, Hl2.
  assert (sub (n ++ r) 0 (zlen n) = Some n) as -> by apply (sub_mid []). mrun.
  rewrite (bind_Some _ _ _ _ _ (ADVANCE_ok p2 t2 Ht2)). unfold ret. cbn [meaning]. do 2 f_equal.
  unfold p2, p1. rewrite !set_look_twice. f_equal. cbn [look_token set_look length]. lia.
Qed.

(** The fields before the relation are one name. *)
Lemma merge_one fuel seq p n t u : in_profile p -> tokens p !! look_token p = Some t -> t_len t = zlen n -> (exists r, t_name t = n ++ r) ->
  tokens p !! S (look_token p) = Some u -> t_kind u = CCL_TOK_EQ -> forall q, qualifier_of b n = Some q -> forall p', tokens p' = tokens p -> in_profile p' ->
  merge_quals (S (S fuel)) (S (look_token p)) (look_token p) seq false [] p' =
    Some (Some ([q], Nat.eqb seq 0, S (look_token p)), p').
Proof.
  intros Hp Ht Hl (r & Hn) Hu Hk q Hq p' Htok Hp'. cbn [merge_quals]. rewrite (proj2 (Nat.eqb_neq (look_token p) (S (look_token p)))) by lia.
  rewrite (bind_Some _ _ _ _ _ (token_at_ok p' _ t ltac:(by rewrite Htok))), Hn, Hl.
  rewrite (bind_Some _ _ _ _ _ (search_qual_ok p' n r seq Hp')). cbn [orb].
  rewrite (bind_Some _ _ p' (Some q) p').
  - unfold next_field. rewrite bind_assoc, (bind_Some _ _ _ _ _ (token_at_ok p' _ u ltac:(by rewrite Htok))), Hk.
    change (bool_decide (CCL_TOK_EQ = CCL_TOK_COMMA)) with false. mrun. rewrite Nat.eqb_refl. cbn [app].
    destruct seq as [|seq]; [rewrite Hq, bool_decide_eq_true_2 by by eexists|rewrite bool_decide_eq_false_2 by by intros [? ?]]; done.
  - destruct seq as [|seq]; [by rewrite Hq|]. change (Nat.ltb 0 (S seq)) with true. cbv iota.
    by rewrite (search_qual_ok p' n r 0 Hp'), Hq.
Qed.

Lemma elem_qual fs fuel n e ws p q : in_profile p -> qualifier_of b n = Some q -> plain_qual q = true -> (length (tokens p) < S fuel)%nat ->
  toks_at (tokens p) (look_token p) (atoks ws (X_qual n e)) ->
  (forall p', in_profile p' -> tokens p' = tokens p -> look_token p' = S (S (look_token p)) ->
    reads (search_terms fs (S fuel) (Some [q])) p' (atoks [] e) (meaning b (Some q) e)) ->
  reads (search_elements fs (S fuel) None) p (atoks ws (X_qual n e)) (meaning b None (X_qual n e)).
Proof.
  cbn [atoks toks_at length]. intros Hp Hq Hpl Hf [(t & Ht & Hk & Hl & _ & _ & Hn & _) [(u & Hu & Hku & _) _]] Hbody. cbn [at_kind at_text] in *.
  pose proof (lookup_lt_Some _ _ _ Hu) as Hlen. destruct fuel as [|fuel]; [lia|]. unfold reads, search_elements.
  rewrite (bind_Some _ _ _ _ _ (is_kind_ok p t CCL_TOK_SET Ht)), Hk. change (bool_decide (CCL_TOK_TERM = CCL_TOK_SET)) with false. mrun.
  assert (find_relation (S (S fuel)) (look_token p) p = Some (inl (S (look_token p)), p)) as Hr.
  { cbn [find_relation]. rewrite (bind_Some _ _ _ _ _ (token_at_ok p _ t Ht)), Hk. change (bool_decide (CCL_TOK_TERM = CCL_TOK_TERM)) with true. cbv iota.
    by rewrite (bind_Some _ _ _ _ _ (token_at_ok p _ u Hu)), Hku. }
  rewrite (bind_Some _ _ _ _ _ Hr). unfold qualifier_list. mrun. rewrite (bind_Some _ _ _ _ _ (special_none p _ Hp)). mrun.
  rewrite (proj1 Hp). unfold seq_bound. set (m := list_max _). set (p1 := set_look (S (look_token p)) p).
  set (p2 := set_look (S (S (look_token p))) p). set (p3 := set_look (look_token p2 + length (atoks [] e)) p2).
  assert (qualifier_relation fs (S (S fuel)) (Some [q]) p1 = Some (Some (meaning b (Some q) e), p3)) as Hrel.
  { unfold qualifier_relation. change (Some [q]) with (quals_of (Some q)). rewrite !no_instruction by done.
    rewrite (bind_Some _ _ _ _ _ (is_kind_ok p1 u CCL_TOK_EQ Hu)), Hku. change (bool_decide (CCL_TOK_EQ = CCL_TOK_EQ)) with true. cbn [negb].
    rewrite (bind_Some _ _ _ _ _ (ADVANCE_ok p1 u Hu)). by apply (Hbody p2). }
  assert (merge_loop fs (S (S fuel)) (S m) (S (S fuel)) (look_token p) (S (look_token p)) None 1 (Some (meaning b (Some q) e)) p3 =
    Some (Some (meaning b (Some q) e), p3)) as Hend.
  { cbn [merge_loop]. by rewrite (bind_Some _ _ _ _ _ (merge_one fuel 1 p n t u Hp Ht Hl Hn Hu Hku q Hq p3 eq_refl Hp)). }
  remember (S m) as k eqn:Ek. cbn [merge_loop]. rewrite (bind_Some _ _ _ _ _ (merge_one fuel 0 p n t u Hp Ht Hl Hn Hu Hku q Hq p eq_refl Hp)). cbn [Nat.eqb negb app]. mrun.
  fold p1. rewrite (bind_Some _ _ _ _ _ Hrel). cbn [ccl_rpn_node_mkbool]. rewrite Hend.
  cbn [meaning]. rewrite Hq. do 2 f_equal. unfold p3, p2. rewrite set_look_twice. f_equal. cbn [look_token set_look length atoks]. lia.
Qed.

(** *** Queries *)

Lemma paren_ok inq e : elem_ok b inq (X_paren e) = spec_ok b inq e.
Proof.
  cbn [elem_ok]. induction e as [w l|n e _|e _|n|op l IHl r _]; cbn [spec_ok]; [done..|]. by rewrite IHl.
Qed.

Lemma ops_lt ws e : (ops e < length (atoks ws e))%nat.
Proof. revert ws. induction e as [w l|n e _|e _|n|op l IHl r _]; intros ws; cbn [ops atoks length]; rewrite ?length_app; cbn [length]; [lia..|specialize (IHl ws); lia]. Qed.

Lemma toks_at_bound ts ats : forall i, toks_at ts i ats -> (0 < length ats)%nat -> (i + length ats <= length ts)%nat.
Proof.
  induction ats as [|a ats IH]; intros i; cbn [toks_at length]; [lia|]. intros [(t & Ht & _) H] _. apply lookup_lt_Some in Ht.
  destruct ats as [|a' ats]; [cbn [length]; lia|]. specialize (IH (S i) H ltac:(simpl; lia)). lia.
Qed.

(** [find_spec] from the first element on: what is left is the loop over operators. *)
Definition spec_from (fs : quals -> CCL (option ccl_rpn_node)) (fuel n : nat) (qa : quals) : CCL (option ccl_rpn_node) :=
  let* p1 := search_elements fs fuel qa in
  match p1 with None => ret None | Some p1 => spec_loop fs fuel n qa p1 end.

Definition elem_reads (e : ccl_expr) : Prop := forall inq q depth fuel p ws,
  in_profile p -> plain q -> (inq = false -> q = None) -> elem_ok b inq e = true -> (nest e <= depth)%nat -> (length (tokens p) < fuel)%nat ->
  toks_at (tokens p) (look_token p) (atoks ws e) -> sizes (atoks ws e) < 2 ^ 29 -> stops_at p (look_token p + length (atoks ws e)) ->
  reads (search_elements (find_spec depth fuel) fuel (quals_of q)) p (atoks ws e) (meaning b q e).

Definition chain_reads (e : ccl_expr) : Prop := forall inq q depth fuel p ws n,
  in_profile p -> plain q -> (inq = false -> q = None) -> spec_ok b inq e = true -> (nest e <= depth)%nat -> (length (tokens p) < fuel)%nat ->
  toks_at (tokens p) (look_token p) (atoks ws e) -> sizes (atoks ws e) < 2 ^ 29 -> stops_at p (look_token p + length (atoks ws e)) ->
  (ops e <= n)%nat ->
  spec_from (find_spec depth fuel) fuel n (quals_of q) p =
    spec_loop (find_spec depth fuel) fuel (n - ops e) (quals_of q) (meaning b q e) (set_look (look_token p + length (atoks ws e)) p).

Lemma elem_chain e : elem_reads e -> ops e = 0%nat -> (forall inq, spec_ok b inq e = elem_ok b inq e) -> chain_reads e.
Proof.
  intros He Ho Hok inq q depth fuel p ws n Hp Hq Hi Hs Hn Hf Ht Hsz Hstop _. rewrite Ho, Nat.sub_0_r. rewrite Hok in Hs.
  unfold spec_from. rewrite (bind_Some _ _ _ _ _ (He inq q depth fuel p ws Hp Hq Hi Hs Hn Hf Ht Hsz Hstop)). done.
Qed.

Lemma chain_bool op l r : chain_reads l -> elem_reads r -> chain_reads (X_bool op l r).
Proof.
  intros Hl Hr inq q depth fuel p ws n Hp Hq Hi Hs Hn Hf Ht Hsz Hstop Hops. cbn [spec_ok nest ops atoks meaning] in *.
  apply andb_true_iff in Hs as [Hs1 Hs2]. apply toks_at_app in Ht as [Ht1 Ht2]. cbn [toks_at] in Ht2. destruct Ht2 as [(t & Ht & Hk & _) Ht2].
  rewrite sizes_app in Hsz. pose proof (sizes_nonneg (atoks ws l)). pose proof (sizes_nonneg (atoks [32] r)).
  match type of Hsz with context [sizes (?a :: ?l)] => pose proof (sizes_cons a l) end.
  rewrite length_app in Hstop |- *. cbn [length] in Hstop |- *. set (len := length (atoks ws l)) in *.
  rewrite (Hl inq q depth fuel p ws n) by (done || lia || (exists t; split; [done|]; rewrite Hk; by destruct op)).
  fold len. replace (n - ops l)%nat with (S (n - S (ops l))) by lia. set (p1 := set_look (look_token p + len) p). cbn [spec_loop].
  rewrite (bind_Some _ _ _ _ _ (KIND_ok p1 t Ht)), Hk. assert (forall o, bool_op (at_kind (AT (match o with CCL_RPN_AND => CCL_TOK_AND
    | CCL_RPN_OR => CCL_TOK_OR | CCL_RPN_NOT => CCL_TOK_NOT end) (op_word o) [32])) = Some o) as -> by by intros [].
  rewrite (bind_Some _ _ _ _ _ (ADVANCE_ok p1 t Ht)). set (p2 := set_look (S (look_token p1)) p1).
  assert (reads (search_elements (find_spec depth fuel) fuel (quals_of q)) p2 (atoks [32] r) (meaning b q r)) as E.
  { apply (Hr inq); [done..|lia|done|exact Ht2|lia|]. destruct Hstop as (u & Hu & Hku). exists u. split; [|done].
    rewrite <- Hu. unfold p2, p1. cbn [tokens set_look look_token]. f_equal. lia. }
  rewrite (bind_Some _ _ _ _ _ E). f_equal. unfold p2, p1. rewrite !set_look_twice. cbn [look_token set_look]. f_equal. lia.
Qed.

Lemma chain_closed e q inq depth fuel : chain_reads e -> plain q -> (inq = false -> q = None) -> spec_ok b inq e = true -> (nest e <= depth)%nat ->
  spec_reads fuel (find_spec (S depth) fuel) q e.
Proof.
  intros He Hq Hi Hs Hn p ws Hp Hf Ht Hsz (t & Htk & Hk). unfold reads. cbn [find_spec].
  pose proof (ops_lt ws e). pose proof (toks_at_bound _ _ _ Ht ltac:(lia)).
  change (bind _ _ p) with (spec_from (find_spec depth fuel) fuel fuel (quals_of q) p).
  rewrite (He inq q depth fuel p ws) by (done || lia || (exists t; split; [done|]; by destruct Hk as [->| ->])).
  destruct (fuel - ops e)%nat as [|n] eqn:En; [lia|]. cbn [spec_loop].
  rewrite (bind_Some _ _ _ _ _ (KIND_ok (set_look _ p) t Htk)). by destruct Hk as [->| ->].
Qed.

Lemma grammar_reads e : plain (qualifier_of b (str "term")) ->
  elem_reads e /\ chain_reads e /\ forall e', e = X_paren e' -> chain_reads e'.
Proof.
  intros Hterm. induction e as [w l|n e (_ & _ & IHp)|e (_ & IHc & _)|n|op l (_ & IHl & _) r (IHr & _)].
  - assert (elem_reads (X_words w l)) as H; [|by split; [|split; [apply elem_chain|]]].
    intros inq q depth fuel p ws Hp Hq _ Hok _ Hf Ht Hsz Hstop. destruct fuel as [|fuel]; [lia|]. by apply elem_words.
  - assert (elem_reads (X_qual n e)) as H; [|by split; [|split; [apply elem_chain|]]].
    intros inq q depth fuel p ws Hp Hq Hi Hok Hn Hf Ht Hsz Hstop. destruct fuel as [|fuel]; [lia|].
    cbn [elem_ok] in Hok. rewrite !andb_true_iff in Hok. destruct Hok as [[[Hinq Hw] Hqq] Hbody].
    apply negb_true_iff in Hinq. rewrite (Hi Hinq). destruct (qualifier_of b n) as [q0|] eqn:Eq; [|done].
    cbn [atoks] in Hsz, Hstop. cbn [length] in Hstop.
    assert (sizes (atoks [] e) < 2 ^ 29) as Hsz' by (do 2 (eapply Z.lt_trans; [apply sizes_cons|]); exact Hsz).
    apply elem_qual with q0; [done..|]. intros p' Hp' Htok Hlook. cbn [atoks toks_at] in Ht. destruct Ht as (_ & _ & Ht).
    assert (stops_at p' (look_token p' + length (atoks [] e))) as Hstop'.
    { destruct Hstop as (u & Hu & Hku). exists u. rewrite Htok, Hlook. split; [rewrite <- Hu; f_equal; lia|done]. }
    rewrite <- Htok, <- Hlook in Ht. change (Some [q0]) with (quals_of (Some q0)). destruct e as [w l|?|e|?|?]; try done.
    + unfold reads. rewrite (terms_of_words _ fuel (Some q0) w l []) by (done || lia). done.
    + rewrite paren_ok in Hbody. cbn [nest] in Hn. destruct depth as [|depth]; [lia|]. apply (terms_of_paren _ fuel (Some q0) e [] p' (S fuel));
        [done|by rewrite Htok| |done|lia|done].
      eapply (chain_closed e (Some q0) true depth); [by apply IHp|done..|lia].
  - assert (elem_reads (X_paren e)) as H; [|by split; [|split; [apply elem_chain|intros e' [= <-]]]].
    intros inq q depth fuel p ws Hp Hq Hi Hok Hn Hf Ht Hsz Hstop. destruct fuel as [|fuel]; [lia|]. rewrite paren_ok in Hok.
    cbn [nest] in Hn. destruct depth as [|depth]; [lia|]. pose proof Ht as Ht'. cbn [atoks toks_at] in Ht'. destruct Ht' as [(t & Ht0 & Hk & _) _].
    cbn [at_kind] in Hk. unfold reads. rewrite (elements_terms _ _ q p CCL_TOK_LP).
    + apply (terms_of_paren _ fuel q e ws p (S fuel)); [done|done| |done..]. by eapply chain_closed; [..|lia].
    + rewrite Ht0. intros t' [= <-]. by rewrite Hk.
    + by eexists.
    + cbn [find_relation]. rewrite (bind_Some _ _ _ _ _ (token_at_ok p _ t Ht0)), Hk. done.
    + by right.
  - assert (elem_reads (X_set n)) as H; [|by split; [|split; [apply elem_chain|]]].
    intros inq q depth fuel p ws Hp _ _ _ _ _ Ht _ _. by apply elem_set.
  - split; [by intros inq q depth fuel p ws _ _ _ ?|]. split; [by apply chain_bool|done].
Qed.

(** ** Scanning *)

Definition parser : ccl_parser := ccl_parser_create (Some b).

Definition delim (r : list Z) : Prop := exists c r', r = c :: r' /\ ends_term c = true.

Lemma ends_0 : ends_term 0 = true.
Proof. done. Qed.

Lemma term_end_word w r fuel n : forallb word_char w = true -> delim r -> (length w < fuel)%nat ->
  term_end fuel (w ++ r) n = Some (r, n + zlen w).
Proof.
  intros Hw (d & r' & -> & Hd). revert fuel n. induction w as [|c w IH]; intros fuel n Hf; (destruct fuel as [|fuel]; [simpl in Hf; lia|]); cbn [term_end app].
  { rewrite Hd, orb_true_r. by rewrite Z.add_0_r. }
  cbn [forallb] in Hw. apply andb_true_iff in Hw as [Hc Hw].
  rewrite (proj2 (Z.eqb_neq c 0)) by (apply word_char_not; [done|simpl; tauto]).
  assert (ends_term c = false) as ->.
  { unfold ends_term, strchr. apply not_true_is_false. intros (x & Hx & He)%existsb_exists. apply Z.eqb_eq in He as <-.
    eapply (word_char_not c c); [done| |done]. simpl in Hx |- *. tauto. }
  cbn [orb]. rewrite (proj2 (Z.eqb_neq c 92)) by (apply word_char_not; [done|simpl; tauto]).
  rewrite (proj2 (Z.eqb_neq c 34)) by (apply word_char_not; [done|simpl; tauto]). cbn [mbind option_bind].
  rewrite (IH Hw) by (simpl in Hf; lia). rewrite zlen_cons. do 2 f_equal. lia.
Qed.

Lemma keyword_same w r kws : nonzero w -> Forall nonzero kws ->
  token_cmp parser (map (fun k => k ++ [0]) kws) (w ++ r) (zlen w) = Some (bool_decide (w ∈ kws)).
Proof.
  intros Hw Hk. unfold token_cmp, case_flag, parser. cbn [ccl_parser_create bibset ccl_case_sensitive ccl_qual_search_special].
  rewrite Hsp. cbn [special_search mbind option_bind]. induction Hk as [|k kws Hk _ IH]; cbn [map any_keyword]; [done|].
  rewrite strlen_spec by done. cbn [mbind option_bind]. destruct (Z.eqb_spec (zlen w) (zlen k)) as [E|E]; cbn [mbind option_bind].
  - unfold name_same. cbn [Z.eqb negb]. unfold mem_same. rewrite E at 1. rewrite (sub_mid [] k [0] : sub (k ++ [0]) 0 (zlen k) = Some k).
    rewrite (sub_mid [] w r : sub (w ++ r) 0 (zlen w) = Some w). cbn [mbind option_bind].
    destruct (decide (k = w)) as [->|Hkw]; [rewrite (bool_decide_eq_true_2 (w = w)) by done|rewrite (bool_decide_eq_false_2 (k = w)) by done].
    + rewrite bool_decide_eq_true_2; [done|]. rewrite elem_of_cons. by left.
    + rewrite IH. f_equal. apply bool_decide_ext. rewrite elem_of_cons. split; [by right|]. by intros [->|].
  - rewrite IH. f_equal. apply bool_decide_ext. rewrite elem_of_cons. split; [by right|]. by intros [->|].
Qed.

(** The kind of a word: the last list of keywords that has it. *)
Definition word_kind (w : list Z) : ccl_tok :=
  if bool_decide (w = str "set") then CCL_TOK_SET
  else if bool_decide (w ∈ [str "not"; str "andnot"]) then CCL_TOK_NOT
  else if bool_decide (w = str "or") then CCL_TOK_OR
  else if bool_decide (w = str "and") then CCL_TOK_AND else CCL_TOK_TERM.

Lemma scan_word w r : w <> [] -> forallb word_char w = true -> delim r ->
  scan_token parser (w ++ r) = Some (word_kind w, zlen w, r).
Proof.
  intros Hne Hw Hr. destruct w as [|c w]; [done|]. pose proof Hw as Hw'. cbn [forallb] in Hw'. apply andb_true_iff in Hw' as [Hc _].
  unfold scan_token. cbn [app]. rewrite rd_0. cbn [mbind option_bind].
  assert (forall x, In x [40; 41; 44; 37; 33; 62; 60; 61; 0] -> (c =? x) = false) as Hx.
  { intros x Hx. apply Z.eqb_neq. apply word_char_not; [done|]. simpl in *. tauto. }
  rewrite (Hx 0), (Hx 40), (Hx 41), (Hx 44), (Hx 37), (Hx 33), (Hx 62), (Hx 60), (Hx 61) by (simpl; tauto). cbn [orb].
  change (c :: w ++ r) with ((c :: w) ++ r). rewrite term_end_word by (done || (rewrite length_app; lia)). cbn [mbind option_bind].
  assert (nonzero (c :: w)) as Hnz.
  { apply List.Forall_forall. intros x Hin. apply word_char_not; [by eapply word_char_in|simpl; tauto]. }
  assert (forall n d, operator_aliases parser n d = Some d) as Hop.
  { intros n d. unfold operator_aliases, parser. cbn [ccl_parser_create bibset ccl_qual_search_special]. by rewrite Hsp. }
  change (keyword_tests parser) with [(str "and", [str "and" ++ [0]], CCL_TOK_AND); (str "or", [str "or" ++ [0]], CCL_TOK_OR);
    (str "not", map (fun k => k ++ [0]) [str "not"; str "andnot"], CCL_TOK_NOT); (str "set", [str "set" ++ [0]], CCL_TOK_SET)].
  cbn [keyword_kind]. rewrite !Hop. cbn [mbind option_bind].
  assert (forall k : string, nonzero (str k) -> token_cmp parser [str k ++ [0]] ((c :: w) ++ r) (0 + zlen (c :: w)) =
    Some (bool_decide (c :: w = str k))) as H1.
  { intros k Hk. rewrite Z.add_0_l. pose proof (keyword_same (c :: w) r [str k] Hnz ltac:(by repeat constructor)) as E. cbn [map] in E. rewrite E. f_equal.
    apply bool_decide_ext. by rewrite list_elem_of_singleton. }
  rewrite (H1 "and"), (H1 "or"), (H1 "set") by (repeat constructor; done). cbn [mbind option_bind].
  rewrite Z.add_0_l, (keyword_same (c :: w) r [str "not"; str "andnot"]) by (done || by repeat constructor).
  cbn [mbind option_bind]. reflexivity.
Qed.

(** Each token is scanned as it stands, with what follows. *)
Definition scan_ok (a : atok) (next : list Z) : Prop :=
  scan_token parser (at_text a ++ next) = Some (at_kind a, zlen (at_text a), next) /\
  skip_ws (spelled a ++ next) = Some (at_text a ++ next) /\ at_kind a <> CCL_TOK_EOL.
Fixpoint separated (ats : list atok) (next : list Z) : Prop :=
  match ats with
  | [] => True
  | a :: ats => scan_ok a (concat (map spelled ats) ++ next) /\ separated ats next
  end.

Lemma separated_app a1 a2 next : separated a1 (concat (map spelled a2) ++ next) -> separated a2 next -> separated (a1 ++ a2) next.
Proof.
  induction a1 as [|a a1 IH]; [done|]. cbn [separated app]. intros [H1 H2] H3. split; [|auto].
  by rewrite map_app, concat_app, <- app_assoc.
Qed.

Lemma toks_at_cons t ts ats : forall i, toks_at ts i ats -> toks_at (t :: ts) (S i) ats.
Proof. induction ats as [|a ats IH]; intros i; [done|]. cbn [toks_at]. intros [H1 H2]. split; [exact H1|auto]. Qed.

Lemma tokenize_separated ats size : separated ats [0] -> forall fuel, (length ats < fuel)%nat ->
  exists ts t, tokenize_loop fuel parser size (concat (map spelled ats) ++ [0]) = Some ts /\ toks_at ts 0 ats /\
    length ts = S (length ats) /\ ts !! length ats = Some t /\ t_kind t = CCL_TOK_EOL /\ is_Some (t_off t).
Proof.
  induction ats as [|a ats IH]; intros Hs fuel Hf; (destruct fuel as [|fuel]; [simpl in Hf; lia|]).
  { eexists _, _. split; [reflexivity|]. by split_and!. }
  cbn [separated] in Hs. destruct Hs as [(H1 & H2 & H3) Hs]. destruct (IH Hs fuel ltac:(simpl in Hf; lia)) as (ts & t & E & Ht & Hl & Hlast & Hk & Ho).
  eexists _, t. cbn [tokenize_loop map concat]. rewrite <- app_assoc, H2. cbn [mbind option_bind]. rewrite H1. cbn [mbind option_bind].
  rewrite bool_decide_eq_false_2 by done. rewrite E. cbn [mbind option_bind]. split; [reflexivity|]. split_and!.
  - cbn [toks_at]. split; [|by apply toks_at_cons]. eexists. split; [reflexivity|]. split_and!; try done.
    + cbn [t_ws_len]. unfold spelled. zl.
    + eexists. reflexivity.
    + eexists. cbn [t_ws_buf]. unfold spelled. by rewrite <- app_assoc.
  - cbn [length]. lia.
  - done.
  - done.
  - done.
Qed.

(** *** The tokens of a query *)

Definition ws_ok (ws : list Z) : Prop := ws = [] \/ ws = [32].
(** The first octet is not a blank. *)
Definition visible (s : list Z) : Prop := exists c r, s = c :: r /\ strchr [32; 9; 13; 10] c = false.

Lemma skip_visible ws s : ws_ok ws -> visible s -> skip_ws (ws ++ s) = Some s.
Proof.
  assert (visible s -> skip_ws s = Some s) as H.
  { intros (c & r & -> & Hc). cbn [skip_ws]. by rewrite Hc, andb_false_r. }
  intros [->| ->] Hs; cbn [app]; [auto|]. cbn [skip_ws]. change (negb (32 =? 0) && strchr [32; 9; 13; 10] 32) with true. auto.
Qed.

Lemma word_visible w s : word_ok w = true -> visible (w ++ s).
Proof.
  unfold word_ok. rewrite !andb_true_iff. intros [[H1%Z.ltb_lt H2] _]. destruct w as [|c w]; [by cbn in H1|]. exists c, (w ++ s). split; [done|].
  cbn [forallb] in H2. apply andb_true_iff in H2 as [Hc _]. apply not_true_is_false. unfold strchr. intros (x & Hx & He)%existsb_exists.
  apply Z.eqb_eq in He as <-. eapply (word_char_not c c); [done| |done]. simpl in Hx |- *. tauto.
Qed.

Lemma scan_plain w ws next : word_ok w = true -> ws_ok ws -> delim next -> scan_ok (AT CCL_TOK_TERM w ws) next.
Proof.
  intros Hok Hws Hd. split_and!; [|unfold spelled; rewrite <- app_assoc; by apply skip_visible, word_visible|done].
  unfold word_ok in Hok. rewrite !andb_true_iff in Hok. destruct Hok as [[H1%Z.ltb_lt H2] H3]. cbn [at_text at_kind].
  rewrite scan_word by (done || by intros ->). apply negb_true_iff, bool_decide_eq_false in H3. unfold word_kind.
  rewrite !bool_decide_eq_false_2; [done|..]; intros H; apply H3; rewrite ?elem_of_cons in *; tauto.
Qed.

Lemma scan_op op next : delim next -> scan_ok (AT (match op with CCL_RPN_AND => CCL_TOK_AND | CCL_RPN_OR => CCL_TOK_OR
  | CCL_RPN_NOT => CCL_TOK_NOT end) (op_word op) [32]) next.
Proof.
  intros Hd. split_and!; [|unfold spelled; rewrite <- app_assoc; apply skip_visible; [by right|]; destruct op; by eexists _, _|by destruct op].
  cbn [at_text at_kind]. rewrite scan_word by (done || by destruct op). by destruct op.
Qed.

(** A token of one octet. *)
Lemma scan_paren k c ws next : (k = CCL_TOK_LP /\ c = 40) \/ (k = CCL_TOK_RP /\ c = 41) -> ws_ok ws -> scan_ok (AT k [c] ws) next.
Proof.
  intros [[-> ->]|[-> ->]] Hws; (split_and!; [done|unfold spelled; rewrite <- app_assoc; apply skip_visible; [done|by eexists _, _]|done]).
Qed.

Lemma scan_eq c next : word_char c = true \/ c = 40 -> scan_ok (AT CCL_TOK_EQ (str "=") []) (c :: next).
Proof.
  intros Hc. assert (c <> 61 /\ c <> 60 /\ c <> 62) as (H1 & H2 & H3).
  { destruct Hc as [Hc| ->]; [|lia]. split_and!; (apply word_char_not; [done|simpl; tauto]). }
  split_and!; [|done|done]. cbn [at_text at_kind]. change (str "=") with [61]. unfold scan_token. cbn [app]. rewrite rd_0.
  cbn [mbind option_bind drop Z.eqb Pos.eqb orb]. rewrite rd_0. cbn [mbind option_bind].
  by rewrite (proj2 (Z.eqb_neq c 61)), (proj2 (Z.eqb_neq c 60)), (proj2 (Z.eqb_neq c 62)) by done.
Qed.

Lemma atoks_text e : forall ws, concat (map spelled (atoks ws e)) = ws ++ ccl_text e.
Proof.
  assert (forall k t ws, spelled (AT k t ws) = ws ++ t) as Hs by done.
  induction e as [w l|n e IH|e IH|n|op l IHl r IHr]; intros ws; cbn [atoks map concat ccl_text]; rewrite ?Hs.
  - unfold join. rewrite map_map, <- app_assoc. done.
  - rewrite IH, <- !app_assoc. done.
  - rewrite map_app, concat_app, IH. cbn [map concat]. rewrite Hs, <- !app_assoc. done.
  - rewrite <- !app_assoc, app_nil_r. done.
  - rewrite map_app, concat_app, IHl. cbn [map concat]. rewrite Hs, IHr, <- !app_assoc. done.
Qed.

Lemma delim_blank r : delim (32 :: r).
Proof. by exists 32, r. Qed.

Lemma separated_words l next : forallb word_ok l = true -> delim next -> separated (map (fun w => AT CCL_TOK_TERM w [32]) l) next.
Proof.
  intros Hl Hd. induction l as [|w l IH]; [done|]. cbn [forallb] in Hl. apply andb_true_iff in Hl as [Hw Hl]. cbn [map separated].
  split; [|auto]. apply scan_plain; [done|by right|]. destruct l as [|v l]; [done|]. apply delim_blank.
Qed.

(** What an element starts with. *)
Lemma elem_head inq e : elem_ok b inq e = true -> match e with X_words _ _ | X_paren _ | X_qual _ _ => True | _ => False end ->
  forall r, exists c r', ccl_text e ++ r = c :: r' /\ (word_char c = true \/ c = 40).
Proof.
  assert (forall w s, word_ok w = true -> exists c r', w ++ s = c :: r' /\ (word_char c = true \/ c = 40)) as Hw.
  { intros w s. unfold word_ok. rewrite !andb_true_iff. intros [[H1%Z.ltb_lt H2] _]. destruct w as [|c w]; [by cbn in H1|].
    cbn [forallb] in H2. apply andb_true_iff in H2 as [Hc _]. exists c, (w ++ s). auto. }
  intros He Hk r. destruct e as [w l|n e|e|?|?]; try done; cbn [ccl_text].
  - cbn [elem_ok] in He. rewrite !andb_true_iff in He. unfold join. rewrite <- !app_assoc. apply Hw, He.
  - cbn [elem_ok] in He. rewrite !andb_true_iff in He. rewrite <- !app_assoc. apply Hw, He.
  - exists 40, (ccl_text e ++ str ")" ++ r). rewrite <- !app_assoc. auto.
Qed.

Lemma separated_query e : forall inq ws next, spec_ok b inq e = true \/ elem_ok b inq e = true -> ws_ok ws -> delim next -> separated (atoks ws e) next.
Proof.
  induction e as [w l|n e IH|e IH|n|op l IHl r IHr]; intros inq ws next Hok Hws Hd.
  - assert (elem_ok b inq (X_words w l) = true) as Hok' by by destruct Hok. cbn [elem_ok] in Hok'. rewrite !andb_true_iff in Hok'.
    destruct Hok' as [[Hw Hl] _]. cbn [atoks separated]. split; [|by apply separated_words].
    apply scan_plain; [done|done|]. destruct l; [done|apply delim_blank].
  - assert (elem_ok b inq (X_qual n e) = true) as Hok' by by destruct Hok. cbn [elem_ok] in Hok'. rewrite !andb_true_iff in Hok'.
    destruct Hok' as [[[_ Hn] _] He]. assert (elem_ok b true e = true /\ match e with X_words _ _ | X_paren _ | X_qual _ _ => True | _ => False end) as [He1 He2] by by destruct e.
    cbn [atoks separated map concat]. split; [apply scan_plain; [done|done|by exists 61, (concat (map spelled (atoks [] e)) ++ next)]|].
    split; [|apply (IH true); [by right|by left|done]]. rewrite atoks_text. cbn [app].
    destruct (elem_head true e He1 He2 next) as (c & r' & -> & Hc). by apply scan_eq.
  - rewrite <- paren_ok in Hok || idtac. assert (elem_ok b inq (X_paren e) = true) as Hok' by by destruct Hok. rewrite paren_ok in Hok'.
    cbn [atoks separated]. split; [apply (scan_paren CCL_TOK_LP 40); [by left|done]|]. apply separated_app.
    + apply (IH inq); [by left|by left|]. by exists 41, next.
    + cbn [separated map concat]. split; [|done]. apply (scan_paren CCL_TOK_RP 41); [by right|by left].
  - assert (word_ok n = true) as Hn by by destruct Hok. cbn [atoks separated map concat]. split_and!; [| | |done].
    + split_and!; [|unfold spelled; rewrite <- app_assoc; apply skip_visible; [done|by eexists _, _]|done]. cbn [at_text at_kind].
      rewrite scan_word; [done|done|done|]. by eexists 61, _.
    + destruct (word_visible n next Hn) as (c & r & E & _). unfold spelled. cbn [at_ws at_text app]. rewrite app_nil_r, E. apply scan_eq. left.
      unfold word_ok in Hn. rewrite !andb_true_iff in Hn. destruct Hn as [[H1%Z.ltb_lt H2] _]. destruct n as [|c' n]; [by cbn in H1|].
      injection E as <- _. cbn [forallb] in H2. by apply andb_true_iff in H2 as [Hc _].
    + apply scan_plain; [done|by left|done].
  - destruct Hok as [Hok|Hok]; [|done]. cbn [spec_ok] in Hok. apply andb_true_iff in Hok as [Hl Hr]. cbn [atoks]. apply separated_app.
    + apply (IHl inq); [by left|done|]. cbn [map concat]. unfold spelled at 1. cbn [at_ws at_text app]. apply delim_blank.
    + cbn [separated]. split; [|apply (IHr inq); [by right|by right|done]]. apply scan_op. rewrite atoks_text. apply delim_blank.
Qed.

Lemma sizes_text ats : Forall (fun a => at_text a <> []) ats -> sizes ats <= 2 * zlen (concat (map spelled ats)).
Proof.
  induction 1 as [|a ats Ha _ IH]; [done|]. cbn [map concat sizes fold_right]. fold (sizes ats). unfold spelled at 1.
  pose proof (zlen_pos _ Ha). pose proof (zlen_nonneg (at_ws a)). zl.
Qed.

Lemma atoks_nonempty e : forall inq ws, spec_ok b inq e = true \/ elem_ok b inq e = true -> Forall (fun a => at_text a <> []) (atoks ws e).
Proof.
  assert (forall w, word_ok w = true -> w <> []) as Hw by (by intros ? ? ->).
  induction e as [w l|n e IH|e IH|n|op l IHl r IHr]; intros inq ws Hok.
  - assert (elem_ok b inq (X_words w l) = true) as Hok' by by destruct Hok. cbn [elem_ok] in Hok'. rewrite !andb_true_iff in Hok'.
    destruct Hok' as [[Hw1 Hl1] _]. exact (proj1 (proj2 (words_tokens w l ws Hw1 Hl1))).
  - assert (elem_ok b inq (X_qual n e) = true) as Hok' by by destruct Hok. cbn [elem_ok] in Hok'. rewrite !andb_true_iff in Hok'.
    destruct Hok' as [[[_ Hn] _] He]. cbn [atoks]. constructor; [by apply Hw|]. constructor; [done|]. apply (IH true). right. by destruct e.
  - assert (elem_ok b inq (X_paren e) = true) as Hok' by by destruct Hok. rewrite paren_ok in Hok'. cbn [atoks].
    constructor; [done|]. apply Forall_app. split; [apply (IH inq); by left|by repeat constructor].
  - cbn [atoks]. constructor; [done|]. constructor; [done|]. constructor; [apply Hw; by destruct Hok|done].
  - destruct Hok as [Hok|Hok]; [|done]. cbn [spec_ok] in Hok. apply andb_true_iff in Hok as [Hl Hr]. cbn [atoks]. apply Forall_app.
    split; [apply (IHl inq); by left|]. constructor; [by destruct op|]. apply (IHr inq). by right.
Qed.

Lemma nest_le e : forall ws, (nest e <= length (atoks ws e))%nat.
Proof.
  induction e as [w l|n e IH|e IH|n|op l IHl r IHr]; intros ws; cbn [nest atoks length]; rewrite ?length_app; cbn [length]; try lia.
  - specialize (IH []). lia.
  - specialize (IH []). lia.
  - specialize (IHl ws). specialize (IHr [32]). lia.
Qed.
End parsing.

(** ** Property *)


Definition sample_profile : ccl_qualifiers :=
  Bibset
    [Qualifier 2 (str "term" ++ [0]) [] [Attr None 4 (CCL_RPN_ATTR_NUMERIC 6)];
     Qualifier 1 (str "au" ++ [0]) [] [Attr None 1 (CCL_RPN_ATTR_NUMERIC 1003)];
     Qualifier 0 (str "ti" ++ [0]) [] [Attr (Some (str "Bib-1" ++ [0])) 1 (CCL_RPN_ATTR_NUMERIC 4); Attr None 2 (CCL_RPN_ATTR_NUMERIC 3)]]
    [] 3.

Definition sample_query : ccl_expr :=
  X_bool CCL_RPN_NOT
    (X_bool CCL_RPN_AND (X_qual (str "ti") (X_paren (X_bool CCL_RPN_OR (X_words (str "war") [str "peace"]) (X_words (str "anna") []))))
       (X_words (str "novel") []))
    (X_set (str "9")).

