(* ===== verification/CclSafe.v ===== *)
(** * Safety of the CCL parser (ccltoken.c, cclfind.c)

    For a profile without ordered relations and without lists of aliases, the
    parser ends on every string, stays inside it and inside the list of tokens, and
    either builds a tree or reports an error and its place. *)

From stdpp Require Import base list numbers option strings.
From Stdlib Require Import ZArith Lia.
From S2P Require Import Prelude Text Ccl CclToken CclFind CclText.

(** ** Strings *)

Lemma memicmp_total a : forall b n, n <= zlen a -> n <= zlen b -> a <> [] -> b <> [] -> exists r, ccl_memicmp a b n = Some r.
Proof.
  induction a as [|x a IH]; intros [|y b] n Ha Hb Hna Hnb; try done. cbn [ccl_memicmp].
  destruct (Z.leb_spec n 1); cbn [orb]; [by eexists|]. destruct (negb _); [by eexists|].
  rewrite !zlen_cons in *. apply IH; [lia|lia|..]; intros ->; rewrite zlen_nil in *; lia.
Qed.

Lemma name_same_total c a b n : 1 <= n -> n <= zlen a -> n <= zlen b -> exists r, name_same c a b n = Some r.
Proof.
  intros Hn Ha Hb. unfold name_same. destruct (negb (c =? 0)).
  - unfold mem_same. rewrite !sub_spec by lia. by eexists.
  - destruct (memicmp_total a b n) as (r & ->); [done|done|intros ->; rewrite zlen_nil in *; lia..|]. by eexists.
Qed.

(** ** Profiles *)

Definition special_ok (s : ccl_qualifier_special) : Prop := cstr_at (sp_name s) /\ sp_values s <> [] /\ Forall cstr_at (sp_values s).

(** No attribute asks for an ordered relation. *)
Definition unordered (q : ccl_qualifier) : Prop :=
  Forall (fun a => a_type a = CCL_BIB1_REL -> a_value a <> CCL_RPN_ATTR_NUMERIC CCL_BIB1_REL_ORDER /\
    a_value a <> CCL_RPN_ATTR_NUMERIC CCL_BIB1_REL_PORDER) (q_attr_list q).

Definition qual_ok (b : ccl_qualifiers) (q : ccl_qualifier) : Prop :=
  cstr_at (q_name q) /\ unordered q /\ (length (q_sub q) <= 1)%nat /\
  Forall (fun s => match s with Some a => is_Some (qual_at (b_list b) a) | None => True end) (q_sub q).

Definition profile_safe (ob : option ccl_qualifiers) : Prop :=
  match ob with
  | Some b => Forall (qual_ok b) (b_list b) /\ Forall special_ok (b_special b)
  | None => True
  end.

Definition in_bibset (ob : option ccl_qualifiers) (q : ccl_qualifier) : Prop :=
  match ob with Some b => q ∈ b_list b | None => False end.

Lemma special_total ob n : profile_safe ob -> nonzero n -> exists r, ccl_qual_search_special ob n = Some r /\
  match r with Some vs => vs <> [] /\ Forall cstr_at vs | None => True end.
Proof.
  destruct ob as [b|]; [|by eexists]. intros [_ Hs] Hn. cbn [ccl_qual_search_special].
  induction Hs as [|s l (H1 & H2 & H3) _ IH]; cbn [special_search]; [by eexists|].
  destruct (str_same_total (sp_name s) (n ++ [0]) H1) as (r & ->); [by exists n, []|]. cbn [mbind option_bind].
  destruct r; [by eexists|exact IH].
Qed.

Lemma case_flag_total ob c : profile_safe ob -> exists r, case_flag ob c = Some r.
Proof.
  intros Hs. unfold case_flag. destruct (special_total ob (str "case") Hs) as (r & -> & Hr); [by repeat constructor|]. cbn [mbind option_bind].
  destruct r as [[|v vs]|]; [by destruct Hr| |by eexists]. destruct Hr as [_ [Hv _]%Forall_cons_1]. cbn [head mbind option_bind]. unfold atoi.
  destruct (odr_atoi_total v Hv) as (n & ->). by eexists.
Qed.

Lemma qual_search_total c l name n : Forall (fun q => cstr_at (q_name q)) l -> 1 <= n <= zlen name ->
  exists r, qual_search c l name n = Some r /\ forall q, r = Some q -> q ∈ l.
Proof.
  intros Hl Hn. induction Hl as [|q l Hq _ IH]; cbn [qual_search]; [eexists; split; [done|by intros ?]|].
  destruct (strlen_total _ Hq) as (k & -> & Hk). cbn [mbind option_bind].
  assert (exists same, (if k =? n then name_same c name (q_name q) n else Some false) = Some same) as (same & ->).
  { destruct (Z.eqb_spec k n); [|by eexists]. apply name_same_total; lia. }
  cbn [mbind option_bind]. destruct same; [eexists; split; [done|]; intros ? [= <-]; rewrite elem_of_cons; by left|].
  destruct IH as (r & -> & Hr). exists r. split; [done|]. intros q' Hq'. rewrite elem_of_cons. right. auto.
Qed.

Lemma qual_at_in l a q : qual_at l a = Some q -> q ∈ l.
Proof.
  induction l as [|x l IH]; [done|]. cbn [qual_at]. rewrite elem_of_cons. destruct (Nat.eqb _ _); [intros [= ->]; by left|]. intros H. right. auto.
Qed.

Lemma ccl_qual_search_total ob c name n seq : profile_safe ob -> 1 <= n <= zlen name ->
  exists r, ccl_qual_search ob c name n seq = Some r /\ (forall q, r = Some q -> in_bibset ob q) /\ (seq <> O -> r = None).
Proof.
  destruct ob as [b|]; [|by eexists]. intros Hs Hn. unfold ccl_qual_search.
  destruct (case_flag_total (Some b) c Hs) as (cf & ->). cbn [mbind option_bind]. destruct Hs as [Hq _].
  destruct (qual_search_total cf (b_list b) name n) as (r & -> & Hr); [eapply Forall_impl; [exact Hq|]; by intros ? (? & _)|done|].
  cbn [mbind option_bind]. destruct r as [q|]; [|by eexists]. specialize (Hr q eq_refl). rewrite Forall_forall in Hq.
  destruct (Hq q Hr) as (_ & _ & Hlen & Hsub). destruct (q_sub q) as [|s subs].
  { destruct seq; (eexists; split; [done|]); (split; [by intros ? [= <-]|done]). }
  destruct subs; [|simpl in Hlen; lia]. apply Forall_cons_1 in Hsub as [Hsub _]. destruct seq as [|[|seq]]; cbn.
  - destruct s as [a|]; [|by eexists]. destruct Hsub as (q' & Hq'). rewrite Hq'. cbn. eexists. split; [done|]. split; [|done].
    intros ? [= <-]. by eapply qual_at_in.
  - by eexists.
  - by eexists.
Qed.

(** ** Masks *)

Lemma match_alias_total a input : cstr_at a -> cstr_at input -> forall i, 0 <= i -> exists r, match_alias a input i = Some r /\
  forall n, r = Some n -> i <= n.
Proof.
  intros (u & rest & -> & Hu). revert input. induction Hu as [|c u Hc _ IH]; intros input Hi i H0; cbn [app match_alias].
  { eexists. split; [done|]. intros n [= <-]. lia. }
  rewrite (proj2 (Z.eqb_neq c 0)) by done. destruct (cstr_at_cons input Hi) as (x & r & -> & Hr).
  destruct (Z.eqb_spec c x) as [->|]; [|by eexists]. destruct (IH r (Hr Hc) (i + 1) ltac:(lia)) as (r' & -> & Hr').
  eexists. split; [done|]. intros n Hn. specialize (Hr' n Hn). lia.
Qed.

Lemma cmp_operator_total as_ input : Forall cstr_at as_ -> cstr_at input -> exists n, cmp_operator as_ input = Some n /\ 0 <= n.
Proof.
  intros Ha Hi. induction Ha as [|a as_ Ha _ IH]; cbn [cmp_operator]; [exists 0; split; [done|lia]|].
  destruct (match_alias_total a input Ha Hi 0 ltac:(lia)) as (r & -> & Hr). cbn [mbind option_bind].
  destruct r as [n|]; [|exact IH]. exists n. split; [done|]. by apply Hr.
Qed.

(** The text of a token, with the terminator of the string somewhere after it. *)
Definition name_at (s : list Z) (len : Z) : Prop := exists u rest, s = u ++ 0 :: rest /\ nonzero u /\ 1 <= len <= zlen u.

Lemma name_rd s len j : name_at s len -> 0 <= j < len -> exists c, rd s j = Some c.
Proof. intros (u & rest & -> & _ & H) Hj. apply rd_Some. pose proof (zlen_nonneg rest). zl. Qed.

Lemma name_drop s len j : name_at s len -> 0 <= j < len -> cstr_at (drop (Z.to_nat j) s).
Proof.
  intros (u & rest & -> & Hu & H) Hj. unfold zlen in H. rewrite drop_app_le by lia. eexists _, rest. split; [done|]. by apply Forall_drop.
Qed.

Lemma after_backslash_total s len j : name_at s len -> 0 <= j < len -> exists r, after_backslash s j = Some r.
Proof.
  intros Hs Hj. unfold after_backslash. destruct (Z.ltb_spec 0 j); [|by eexists].
  destruct (name_rd s len (j - 1) Hs ltac:(lia)) as (c & ->). by eexists.
Qed.

Lemma masking_total s len tr ma : name_at s len -> Forall cstr_at tr -> Forall cstr_at ma -> exists r, has_ccl_masking s len tr ma = Some r.
Proof.
  intros Hs Ht Hm. unfold has_ccl_masking.
  assert (forall fuel j q, 0 <= j -> Z.max 0 (len - j) < Z.of_nat fuel -> exists r, masking_loop fuel s len tr ma j q = Some r) as H.
  { induction fuel as [|fuel IH]; intros j q Hj Hf; [lia|]. cbn [masking_loop]. destruct (Z.ltb_spec j len).
    - destruct (after_backslash_total s len j Hs ltac:(lia)) as (e & ->). cbn [mbind option_bind].
      destruct (name_rd s len j Hs ltac:(lia)) as (c & ->). cbn [mbind option_bind].
      destruct e; [apply IH; lia|]. destruct (c =? 34); [apply IH; lia|]. destruct q; [apply IH; lia|].
      destruct (cmp_operator_total tr _ Ht (name_drop s len j Hs ltac:(lia))) as (n & -> & _). cbn [mbind option_bind].
      destruct (negb _); [by eexists|].
      destruct (cmp_operator_total ma _ Hm (name_drop s len j Hs ltac:(lia))) as (n' & -> & _). cbn [mbind option_bind].
      destruct (negb _); [by eexists|]. apply IH; lia.
    - by eexists. }
  apply H; lia.
Qed.

(** The text grows by at most two octets for each octet of the token. *)
Lemma append_total s len cap rx zt tr ma f l : name_at s len -> Forall cstr_at tr -> Forall cstr_at ma -> forall st,
  nonzero (dst_term st) -> zlen (dst_term st) + 2 * len + 1 <= cap -> exists r, append_term s len cap rx zt tr ma f l st = Some r /\
  match r with
  | inl e => 1 <= e <= 14
  | inr st' => nonzero (dst_term st') /\ zlen (dst_term st') <= zlen (dst_term st) + 2 * len
  end.
Proof.
  intros Hs Ht Hm. unfold append_term.
  set (good := fun (n : Z) (r : Z + term_state) => match r with inl e => 1 <= e <= 14 | inr st' => nonzero (dst_term st') /\ zlen (dst_term st') <= n end).
  assert (forall fuel j q st, 0 <= j -> Z.max 0 (len - j) < Z.of_nat fuel -> nonzero (dst_term st) ->
    zlen (dst_term st) + 2 * Z.max 0 (len - j) + 1 <= cap -> exists r, append_loop fuel s len cap rx zt tr ma f l j q st = Some r /\
    good (zlen (dst_term st) + 2 * Z.max 0 (len - j)) r) as H.
  { induction fuel as [|fuel IH]; intros j q st Hj Hf Hnz Hcap; [lia|]. cbn [append_loop]. destruct (Z.ltb_spec j len) as [Hlt|Hge].
    2: { eexists. split; [done|]. cbn [good]. split; [done|lia]. }
    assert (forall j' q' st', j < j' -> nonzero (dst_term st') -> zlen (dst_term st') <= zlen (dst_term st) + 2 -> exists r,
      append_loop fuel s len cap rx zt tr ma f l j' q' st' = Some r /\ good (zlen (dst_term st) + 2 * Z.max 0 (len - j)) r) as Hnext.
    { intros j' q' st' Hj' Hnz' Hl'. destruct (IH j' q' st' ltac:(lia) ltac:(lia) Hnz' ltac:(lia)) as (r & -> & Hr). exists r. split; [done|].
      destruct r; cbn [good] in *; [done|]. split; [apply Hr|]. lia. }
    assert (forall j' text, j < j' -> nonzero text -> zlen text <= 2 -> exists r,
      (let? d := cat cap (dst_term st) text in append_loop fuel s len cap rx zt tr ma f l j' q (TermState d (left_trunc st) (right_trunc st))) = Some r /\
      good (zlen (dst_term st) + 2 * Z.max 0 (len - j)) r) as Hput.
    { intros j' text Hj' Hnz' Hl'. unfold cat. rewrite (proj2 (Z.leb_le _ cap)) by lia. cbn [mbind option_bind].
      apply Hnext; [done|apply Forall_app; by split|cbn [dst_term]; zl]. }
    destruct (after_backslash_total s len j Hs ltac:(lia)) as (e & ->). cbn [mbind option_bind].
    assert (exists c, rd s j = Some c /\ c <> 0) as (c & -> & Hc0).
    { destruct Hs as (u & rest & -> & Hu & Hlen). destruct (rd_Some u j ltac:(lia)) as (c & Hc). exists c.
      split; [rewrite rd_app_l by lia; exact Hc|]. apply rd_lookup in Hc as [_ Hc]. unfold nonzero in Hu; rewrite Forall_forall in Hu. auto. }
    cbn [mbind option_bind].
    assert (forall esc, nonzero (masked_char rx zt esc c) /\ zlen (masked_char rx zt esc c) <= 2) as Hmc.
    { intros esc. unfold masked_char. destruct (rx && _); [|destruct (zt && _)]; (split; [by repeat constructor|unfold zlen; simpl; lia]). }
    destruct e; [apply Hput; [lia|apply Hmc..]|]. destruct (c =? 34); [apply Hnext; [lia|done|lia]|].
    destruct (cmp_operator_total tr _ Ht (name_drop s len j Hs ltac:(lia))) as (n & Hn & Hn0).
    assert (exists tn, (if q then Some 0 else cmp_operator tr (drop (Z.to_nat j) s)) = Some tn /\ 0 <= tn) as (tn & -> & Htn)
      by (destruct q; [exists 0; split; [done|lia]|by exists n]). cbn [mbind option_bind].
    destruct (Z.eqb_spec tn 0); cbn [negb].
    2: { destruct rx; [apply Hput; [lia|by repeat constructor|unfold zlen; simpl; lia]|].
         destruct zt; [apply Hput; [lia|by repeat constructor|unfold zlen; simpl; lia]|].
         destruct (f && _); [apply Hnext; [lia|done|cbn [dst_term]; lia]|].
         destruct (l && _); [apply Hnext; [lia|done|cbn [dst_term]; lia]|]. eexists. split; [done|]. cbn [good]. unfold CCL_ERR_TRUNC_NOT_EMBED. lia. }
    destruct (cmp_operator_total ma _ Hm (name_drop s len j Hs ltac:(lia))) as (m & Hmm & Hm0).
    assert (exists mn, (if q then Some 0 else cmp_operator ma (drop (Z.to_nat j) s)) = Some mn /\ 0 <= mn) as (mn & -> & Hmn)
      by (destruct q; [exists 0; split; [done|lia]|by exists m]). cbn [mbind option_bind].
    destruct (Z.eqb_spec mn 0); cbn [negb].
    2: { destruct rx; [apply Hput; [lia|by repeat constructor|unfold zlen; simpl; lia]|].
         destruct zt; [apply Hput; [lia|by repeat constructor|unfold zlen; simpl; lia]|].
         eexists. split; [done|]. cbn [good]. unfold CCL_ERR_TRUNC_NOT_SINGLE. lia. }
    destruct (negb (c =? 92)); [apply Hput; [lia|apply Hmc..]|]. apply Hnext; [lia|done|lia]. }
  intros st Hnz Hcap. pose proof Hs as (u & rest & _ & _ & Hl). destruct (H (S (Z.to_nat len)) 0 false st) as (r & E & Hr); [lia|lia|done|lia|].
  exists r. split; [exact E|]. destruct r; cbn [good] in Hr; [done|]. split; [apply Hr|lia].
Qed.

(** ** Trees *)

(** A tree that can be printed and deleted. *)
Fixpoint tree_good (t : ccl_rpn_node) : Prop :=
  match t with
  | CCL_RPN_BOOL _ l r _ => tree_good l /\ tree_good r
  | CCL_RPN_PROX l r p2 => tree_good l /\ tree_good r /\ match p2 with P_term s => cstr_at s | P_null => True | P_attrs _ => False end
  | CCL_RPN_TERM s _ _ | CCL_RPN_SET s => cstr_at s
  | CCL_FREED => False
  end.
Definition good_opt (t : option ccl_rpn_node) : Prop := match t with Some t => tree_good t | None => True end.

Lemma delete_good t : tree_good t -> ccl_rpn_delete t = Some tt.
Proof.
  induction t as [op l IHl r IHr al|l IHl r IHr p2|s q al|s|]; cbn [tree_good ccl_rpn_delete]; try done.
  - intros [Hl Hr]. rewrite IHl by done. cbn [mbind option_bind]. auto.
  - intros (Hl & Hr & Hp). rewrite IHl by done. cbn [mbind option_bind]. rewrite IHr by done. cbn [mbind option_bind]. by destruct p2.
Qed.

Lemma mkbool_good l r op : good_opt l -> good_opt r -> good_opt (ccl_rpn_node_mkbool l r op).
Proof. by destruct l, r. Qed.

Lemma mkbool_some l r op : ccl_rpn_node_mkbool l (Some r) op <> None.
Proof. by destruct l. Qed.

(** ** The state *)

Definition tok_ok (t : ccl_token) : Prop :=
  (t_kind t <> CCL_TOK_EOL -> name_at (t_name t) (t_len t)) /\ 1 <= t_len t /\
  exists w rest, t_ws_buf t = w ++ rest /\ t_ws_len t = zlen w /\ nonzero w.

Definition tsizes (ts : list ccl_token) : Z := fold_right (fun t n => 1 + t_len t + t_ws_len t + n) 0 ts.

Record tokens_ok (ts : list ccl_token) : Prop := {
  ok_each : Forall tok_ok ts;
  ok_last : forall i t, ts !! i = Some t -> (t_kind t = CCL_TOK_EOL <-> S i = length ts);
  ok_size : 2 * tsizes ts + 2 <= INT_MAX;
}.

Lemma ws_len_nonneg t : tok_ok t -> 0 <= t_ws_len t.
Proof. intros (_ & _ & w & rest & _ & -> & _). apply zlen_nonneg. Qed.

Lemma tsizes_nonneg l : Forall tok_ok l -> 0 <= tsizes l.
Proof.
  induction 1 as [|t l Ht _ IH]; [done|]. cbn [tsizes fold_right]. fold (tsizes l). pose proof (ws_len_nonneg t Ht).
  destruct Ht as (_ & Hl & _). lia.
Qed.

Lemma tsizes_take n l : Forall tok_ok l -> tsizes (take n l) <= tsizes l.
Proof.
  intros H. revert n. induction H as [|t l Ht H IH]; intros n; [by rewrite take_nil|]. destruct n as [|n].
  - cbn [take tsizes fold_right]. pose proof (tsizes_nonneg (t :: l)). cbn [tsizes fold_right] in *. apply H0. by constructor.
  - cbn [take tsizes fold_right]. fold (tsizes l) (tsizes (take n l)). specialize (IH n). lia.
Qed.

Lemma tsizes_drop n l : Forall tok_ok l -> tsizes (drop n l) <= tsizes l.
Proof.
  intros H. revert n. induction H as [|t l Ht H IH]; intros n; [by rewrite drop_nil|]. destruct n as [|n]; [done|].
  cbn [drop tsizes fold_right]. fold (tsizes l) (tsizes (drop n l)). specialize (IH n). pose proof (ws_len_nonneg t Ht). destruct Ht as (_ & Hl & _). lia.
Qed.

Section safe.
Context (ob : option ccl_qualifiers) (Hob : profile_safe ob) (ts : list ccl_token) (Hts : tokens_ok ts).

Record inv (p : ccl_parser) : Prop := {
  inv_bibset : bibset p = ob;
  inv_tokens : tokens p = ts;
  inv_look : (look_token p < length ts)%nat;
}.

(** A position that is not the last. *)
Lemma run_token_at i p : tokens p = ts -> (i < length ts)%nat ->
  run (token_at i) p (fun t p' => p' = p /\ ts !! i = Some t /\ tok_ok t /\ (t_kind t <> CCL_TOK_EOL -> (S i < length ts)%nat)).
Proof.
  intros Hp Hi. destruct (lookup_lt_is_Some_2 ts i Hi) as (t & Ht). exists t, p. split; [apply token_at_ok; by rewrite Hp|].
  split; [done|]. split; [done|]. split; [by eapply Forall_lookup_1; [apply (ok_each ts Hts)|]|].
  pose proof (ok_last ts Hts i t Ht) as Hl. intros Hk. destruct (decide (S i = length ts)) as [E|]; [|lia]. by apply Hl in E.
Qed.

Lemma run_look p : inv p -> run look p (fun t p' => p' = p /\ ts !! look_token p = Some t /\ tok_ok t /\
  (t_kind t <> CCL_TOK_EOL -> (S (look_token p) < length ts)%nat)).
Proof. intros [H1 H2 H3]. unfold look. apply run_get. by apply run_token_at. Qed.

Lemma run_KIND p : inv p -> run KIND p (fun k p' => p' = p /\ (k <> CCL_TOK_EOL -> (S (look_token p) < length ts)%nat) /\
  exists t, ts !! look_token p = Some t /\ t_kind t = k).
Proof.
  intros Hp. unfold KIND. eapply run_bind; [by apply run_look|]. intros t p' (-> & Ht & _ & H). apply run_ret. split_and!; [done|done|by exists t].
Qed.

Lemma run_is_kind k p : inv p -> run (is_kind k) p (fun b p' => p' = p /\ exists t, ts !! look_token p = Some t /\ b = bool_decide (t_kind t = k) /\
  (t_kind t <> CCL_TOK_EOL -> (S (look_token p) < length ts)%nat)).
Proof.
  intros Hp. unfold is_kind. eapply run_bind; [by apply run_KIND|]. intros k' p' (-> & H & t & Ht & <-). apply run_ret. split; [done|]. by exists t.
Qed.

Definition moved (p p' : ccl_parser) (i : nat) : Prop := p' = set_look i p.

Lemma inv_moved p i : inv p -> (i < length ts)%nat -> inv (set_look i p).
Proof. intros [H1 H2 H3] Hi. by split. Qed.

Lemma run_ADVANCE p : inv p -> run ADVANCE p (fun _ p' => p' = set_look (S (look_token p)) p).
Proof. intros Hp. unfold ADVANCE. eapply run_bind; [by apply run_look|]. intros t p' (-> & _). by eexists _, _. Qed.

Lemma run_advance_by n : forall p, inv p -> (look_token p + n < length ts)%nat ->
  run (advance_by n) p (fun _ p' => p' = set_look (look_token p + n) p).
Proof.
  induction n as [|n IH]; intros p Hp Hn; cbn [advance_by].
  { apply run_ret. rewrite Nat.add_0_r. by destruct p. }
  eapply run_bind; [by apply run_ADVANCE|]. intros [] p' ->. eapply run_weaken; [apply IH; [apply inv_moved; [done|lia]|cbn [look_token set_look]; lia]|].
  intros [] p'. cbn [look_token set_look]. intros ->. by rewrite Nat.add_succ_comm.
Qed.

Lemma run_special n p : inv p -> nonzero n -> run (special n) p (fun r p' => p' = p /\
  match r with Some vs => vs <> [] /\ Forall cstr_at vs | None => True end).
Proof.
  intros Hp Hn. unfold special. apply run_get. destruct (special_total ob n Hob Hn) as (r & E & Hr). exists r, p.
  rewrite (inv_bibset p Hp). unfold lift. by rewrite E.
Qed.

Lemma run_aliases n d p : inv p -> nonzero n -> nonzero d -> run (aliases_or n d) p (fun vs p' => p' = p /\ Forall cstr_at vs).
Proof.
  intros Hp Hn Hd. unfold aliases_or. eapply run_bind; [by apply run_special|]. intros r p' [-> Hr]. apply run_ret. split; [done|].
  destruct r as [vs|]; [apply Hr|]. constructor; [|done]. by exists d, [].
Qed.

Lemma run_search_qual name n seq p : inv p -> 1 <= n <= zlen name -> run (search_qual name n seq) p (fun r p' => p' = p /\
  (forall q, r = Some q -> in_bibset ob q) /\ (seq <> O -> r = None)).
Proof.
  intros Hp Hn. unfold search_qual. apply run_get. rewrite (inv_bibset p Hp).
  destruct (ccl_qual_search_total ob (ccl_case_sensitive p) name n seq Hob Hn) as (r & E & Hr). exists r, p. unfold lift. by rewrite E.
Qed.

Lemma run_delete t p : good_opt t -> run (delete t) p (fun _ p' => p' = p).
Proof. intros H. destruct t as [t|]; cbn [delete]; [|by apply run_ret]. exists tt, p. unfold lift. by rewrite delete_good. Qed.

(** The result of a function that builds a tree. *)
Definition made (p : ccl_parser) (r : option ccl_rpn_node) (p' : ccl_parser) : Prop :=
  inv p' /\ (look_token p <= look_token p')%nat /\
  match r with Some t => tree_good t /\ (look_token p < look_token p')%nat | None => 1 <= error_code p' <= 14 end.

Lemma run_fails_made e p0 p : inv p -> (look_token p0 <= look_token p)%nat -> 1 <= e <= 14 -> run (fails e) p (made p0).
Proof. intros [H1 H2 H3] Hl He. unfold fails. apply run_modify, run_ret. by split. Qed.

Lemma made_from p0 p r p' : (look_token p0 <= look_token p)%nat -> made p r p' -> made p0 r p'.
Proof. intros Hl (H1 & H2 & H3). split; [done|]. split; [lia|]. destruct r; [|done]. split; [apply H3|]. lia. Qed.

(** ** Terms *)

Lemma run_word_at i n p : tokens p = ts -> (i + S n < length ts)%nat -> run (token_at i) p (fun t p' => p' = p /\ tok_ok t /\
  name_at (t_name t) (t_len t) /\ take (S n) (drop i ts) = t :: take n (drop (S i) ts)).
Proof.
  intros Hp Hi. eapply run_weaken; [apply run_token_at; [done|lia]|]. intros t p' (-> & Ht & Hok & _). split; [done|]. split; [done|]. split.
  - apply Hok. intros Hk. apply (ok_last ts Hts i t Ht) in Hk. lia.
  - by rewrite (drop_S _ _ _ Ht).
Qed.

Lemma run_scan tr ma p : tokens p = ts -> Forall cstr_at tr -> Forall cstr_at ma -> forall no i m n, (i + no < length ts)%nat ->
  run (scan_terms no i tr ma m n) p (fun r p' => p' = p /\ r.2 = n + tsizes (take no (drop i ts))).
Proof.
  intros Hp Ht Hm. induction no as [|no IH]; intros i m n Hi; cbn [scan_terms].
  { apply run_ret. split; [done|]. rewrite take_0. symmetry. apply Z.add_0_r. }
  eapply run_bind; [apply (run_word_at i no); [done|lia]|]. intros t p' (-> & _ & Hn & E).
  destruct (masking_total _ _ tr ma Hn Ht Hm) as (r & Er). eapply run_lift; [exact Er|].
  eapply run_weaken; [apply IH; lia|]. intros [] p' [-> Hr]. split; [done|]. cbn [snd] in *. rewrite Hr, E.
  cbn [tsizes fold_right]. fold (tsizes (take no (drop (S i) ts))). lia.
Qed.

Lemma run_append cap rx zt tr ma p : tokens p = ts -> Forall cstr_at tr -> Forall cstr_at ma -> forall no f i st, (i + no < length ts)%nat ->
  nonzero (dst_term st) -> zlen (dst_term st) + 2 * tsizes (take no (drop i ts)) + 1 <= cap ->
  run (append_terms no f i cap rx zt tr ma st) p (fun r p' => p' = p /\ match r with inl e => 1 <= e <= 14 | inr st' => nonzero (dst_term st') end).
Proof.
  intros Hp Ht Hm. induction no as [|no IH]; intros f i st Hi Hnz Hcap; cbn [append_terms]; [by apply run_ret|].
  eapply run_bind; [apply (run_word_at i no); [done|lia]|]. intros t p' (-> & (_ & Hl1 & w & rest & Hwb & Hwl & Hwn) & Hn & E).
  assert (0 <= tsizes (take no (drop (S i) ts))) as H0 by (apply tsizes_nonneg, Forall_take, Forall_drop, Hts).
  rewrite E in Hcap. cbn [tsizes fold_right] in Hcap. fold (tsizes (take no (drop (S i) ts))) in Hcap. pose proof (zlen_nonneg w).
  eapply (run_bind _ _ _ (fun d p' => p' = p /\ nonzero d /\ zlen d <= zlen (dst_term st) + t_ws_len t)).
  { destruct (negb _ && negb _); [|apply run_ret; split_and!; [done|done|lia]].
    rewrite Hwb, Hwl, (sub_mid [] w rest : sub (w ++ rest) 0 (zlen w) = Some w). eapply run_lift; [done|].
    exists (dst_term st ++ w), p. unfold lift, cat. rewrite (proj2 (Z.leb_le _ cap)) by lia. split; [done|]. split; [done|].
    split; [apply Forall_app; by split|]. zl. }
  intros d p' (-> & Hd & Hdl).
  destruct (append_total (t_name t) (t_len t) cap rx zt tr ma f (match no with O => true | S _ => false end) Hn Ht Hm
    (TermState d (left_trunc st) (right_trunc st)) Hd) as (r & Er & Hr); [cbn [dst_term]; lia|].
  eapply run_lift; [exact Er|]. destruct r as [e|st']; [by apply run_ret|]. cbn [dst_term] in Hr. apply IH; [lia|apply Hr|lia].
Qed.

(** The result of a function that does not move. *)
Definition stays (p : ccl_parser) (r : option ccl_rpn_node) (p' : ccl_parser) : Prop :=
  inv p' /\ look_token p' = look_token p /\ match r with Some t => tree_good t | None => 1 <= error_code p' <= 14 end.

Lemma run_fails_stays e p : inv p -> 1 <= e <= 14 -> run (fails e) p (stays p).
Proof. intros [H1 H2 H3] He. unfold fails. by apply run_modify, run_ret. Qed.

Lemma truncation_error qa st rx zt a e : truncation_attr qa st rx zt a = inl e -> 1 <= e <= 14.
Proof.
  unfold truncation_attr, CCL_ERR_TRUNC_NOT_BOTH, CCL_ERR_TRUNC_NOT_RIGHT, CCL_ERR_TRUNC_NOT_LEFT.
  repeat case_match; intros [= <-]; lia.
Qed.

Lemma run_one_use i use qa no ph ag p : inv p -> (i + no < length ts)%nat -> run (ccl_term_one_use i use qa no ph ag) p (stays p).
Proof.
  intros Hp Hi. unfold ccl_term_one_use.
  eapply run_bind; [apply run_aliases; [done|by repeat constructor|by repeat constructor]|]. intros tr p' [-> Htr].
  eapply run_bind; [apply run_aliases; [done|by repeat constructor|by repeat constructor]|]. intros ma p' [-> Hma].
  eapply run_bind; [apply (run_scan tr ma p (inv_tokens p Hp) Htr Hma); exact Hi|]. intros [masked n] p' [-> Hn]. cbn [snd] in Hn. rewrite Z.add_0_l in Hn.
  destruct (copy_all_attrs _ _ _ _) as [al sv]. destruct (structure_attr _ _ _ _ _) as [al' attset]. destruct (masking_mode _ _ _) as [[rx zt] attset'].
  assert (0 <= n /\ 2 * n + 2 <= INT_MAX) as [Hn0 Hmax].
  { pose proof (ok_size ts Hts). pose proof (tsizes_take no (drop i ts) (Forall_drop _ _ _ (ok_each ts Hts))).
    pose proof (tsizes_drop i ts (ok_each ts Hts)). assert (0 <= tsizes (take no (drop i ts))) by apply tsizes_nonneg, Forall_take, Forall_drop, Hts. lia. }
  rewrite (proj2 (Z.ltb_ge INT_MAX _)) by lia.
  eapply run_bind; [apply (run_append _ rx zt tr ma p (inv_tokens p Hp) Htr Hma); [exact Hi|constructor|cbn [dst_term]; rewrite zlen_nil; lia]|].
  intros r p' [-> Hr]. destruct r as [e|st]; [by apply run_fails_stays|]. destruct (truncation_attr _ _ _ _ _) as [e|[[s v]|]] eqn:Et.
  - apply run_fails_stays; [done|]. by eapply truncation_error.
  - apply run_ret. split; [done|]. split; [done|]. by exists (dst_term st), [].
  - apply run_ret. split; [done|]. split; [done|]. by exists (dst_term st), [].
Qed.

Lemma run_multi_use i qa no ph ag p : inv p -> (i + no < length ts)%nat -> run (ccl_term_multi_use i qa no ph ag) p (stays p).
Proof.
  intros Hp Hi. unfold ccl_term_multi_use.
  assert (forall al addr j tree p, inv p -> good_opt tree -> run (multi_use_loop al addr j i qa no ph ag tree) p (fun r p' => inv p' /\
    look_token p' = look_token p /\ match r with Some t => good_opt t | None => 1 <= error_code p' <= 14 end)) as Hloop.
  { clear p Hp. induction al as [|a al IH]; intros addr j tree p Hp Ht; cbn [multi_use_loop]; [by apply run_ret|].
    destruct (a_type a =? 1); [|by apply IH]. eapply run_bind; [by apply run_one_use|]. intros r p' (Hp' & Hl & Hr). destruct r as [t|].
    - eapply run_weaken; [apply IH; [done|by apply mkbool_good]|]. intros r p'' (H1 & H2 & H3). rewrite H2, Hl in *. done.
    - eapply run_bind; [by apply run_delete|]. intros [] p'' ->. by apply run_ret. }
  eapply (run_bind _ _ _ (fun r p' => inv p' /\ look_token p' = look_token p /\ match r with Some t => good_opt t | None => 1 <= error_code p' <= 14 end)).
  { destruct qa as [[|q qa]|]; [by apply run_ret|by apply Hloop|by apply run_ret]. }
  intros r p' (Hp' & Hl & Hr). destruct r as [[t|]|].
  - by apply run_ret.
  - eapply run_weaken; [by apply run_one_use|]. intros r p'' (H1 & H2 & H3). split; [done|]. split; [congruence|done].
  - by apply run_ret.
Qed.

(** ** Lists of words *)

Lemma run_split_loop rec qa ar sz : (ar + sz < length ts)%nat ->
  (forall ar' sz' p, inv p -> (ar' + sz' < length ts)%nat -> (0 < sz' < sz)%nat -> run (rec ar' sz') p (stays p)) ->
  forall k l tree p, inv p -> (0 < l)%nat -> (l + k <= S sz)%nat -> good_opt tree -> (tree = None -> (0 < k)%nat) ->
  run (split_loop rec qa ar sz k l tree) p (stays p).
Proof.
  intros Har Hrec. induction k as [|k IH]; intros l tree p Hp Hl Hk Hg Hne; cbn [split_loop].
  { destruct tree as [t|]; [by apply run_ret|]. specialize (Hne eq_refl). lia. }
  assert (forall p0 t, inv p0 -> look_token p0 = look_token p -> tree_good t -> run (split_loop rec qa ar sz k (S l)
    (ccl_rpn_node_mkbool tree (Some t) CCL_RPN_OR)) p0 (stays p)) as Hnext.
  { intros p0 t H0 Hl0 Ht. eapply run_weaken; [apply IH; [done|lia|lia|by apply mkbool_good|by intros ?%mkbool_some]|].
    intros r p' (H1 & H2 & H3). split; [done|]. split; [congruence|done]. }
  eapply run_bind; [apply run_multi_use; [done|lia]|]. intros [t2|] p1 (Hp1 & Hl1 & Ht2).
  - destruct (Nat.ltb_spec l sz) as [Hlt|]; [|by apply Hnext].
    eapply run_bind; [apply Hrec; [done|lia|lia]|]. intros [t1|] p2 (Hp2 & Hl2 & Ht1).
    + apply (Hnext p2 (CCL_RPN_BOOL CCL_RPN_AND t2 t1 [])); [done|congruence|done].
    + eapply run_bind; [by apply (run_delete (Some t2))|]. intros [] p' ->. apply run_ret. split; [done|]. split; [congruence|done].
  - eapply run_bind; [by apply run_delete|]. intros [] p' ->. by apply run_ret.
Qed.

Lemma run_split fuel qa sub_len : (0 < sub_len)%nat -> forall ar sz p, inv p -> (ar + sz < length ts)%nat -> (0 < sz <= fuel)%nat ->
  run (split_recur fuel qa ar sz sub_len) p (stays p).
Proof.
  intros Hs. induction fuel as [|fuel IH]; intros ar sz p Hp Har Hsz; [lia|]. cbn [split_recur].
  apply run_split_loop; [done| |done|lia|lia|done|lia]. intros ar' sz' p' Hp' Har' Hsz'. apply IH; [done|done|lia].
Qed.

Lemma run_count_ok l : is_term_ok CCL_TOK_EOL l = false -> forall fuel i p, tokens p = ts -> (i < length ts)%nat -> (length ts < fuel + i)%nat ->
  run (count_ok fuel l i) p (fun n p' => p' = p /\ (i + n < length ts)%nat).
Proof.
  intros Heol. induction fuel as [|fuel IH]; intros i p Hp Hi Hf; [lia|]. cbn [count_ok].
  eapply run_bind; [by apply run_token_at|]. intros t p' (-> & _ & _ & Hk). destruct (is_term_ok (t_kind t) l) eqn:Et.
  - assert (S i < length ts)%nat by (apply Hk; intros E; by rewrite E, Heol in Et).
    eapply run_bind; [apply IH; [done|done|lia]|]. intros n p' [-> Hn]. apply run_ret. split; [done|]. lia.
  - apply run_ret. split; [done|]. lia.
Qed.

Lemma run_split_list qa l p : is_term_ok CCL_TOK_EOL l = false -> inv p -> run (search_term_split_list qa l) p (made p).
Proof.
  intros Heol Hp. unfold search_term_split_list. apply run_get. rewrite (inv_tokens p Hp).
  eapply run_bind; [apply run_count_ok; [done|apply Hp|apply Hp|lia]|]. intros sz p' [-> Hsz].
  destruct sz as [|sz]; [apply run_fails_made; [done|lia|unfold CCL_ERR_TERM_EXPECTED; lia]|].
  eapply run_bind; [apply run_split; [repeat case_match; lia|done|done|lia]|]. intros t p1 (Hp1 & Hl1 & Ht).
  eapply run_bind; [apply run_advance_by; [done|by rewrite Hl1]|]. intros [] p2 ->. apply run_ret.
  split; [apply inv_moved; [done|by rewrite Hl1]|]. cbn [look_token set_look]. split; [lia|]. destruct t; [split; [done|lia]|done].
Qed.

Lemma run_group l ag : is_term_ok CCL_TOK_EOL l = false -> forall max i no ph p, tokens p = ts -> (i < length ts)%nat ->
  run (group_loop max ag l i no ph) p (fun r p' => p' = p /\ (no <= r.1)%nat /\ (i + (r.1 - no) < length ts)%nat).
Proof.
  intros Heol. induction max as [|max IH]; intros i no ph p Hp Hi; cbn [group_loop].
  { apply run_ret. cbn [fst]. split; [done|]. lia. }
  assert (run (ret (no, ph)) p (fun r p' => p' = p /\ (no <= r.1)%nat /\ (i + (r.1 - no) < length ts)%nat)) as Hend
    by (apply run_ret; cbn [fst]; split; [done|lia]).
  eapply run_bind; [by apply run_token_at|]. intros t p' (-> & Ht & Hok & Hk).
  destruct (is_term_ok (t_kind t) l) eqn:Et; cbn [negb]; [|exact Hend].
  assert (t_kind t <> CCL_TOK_EOL) as Hkind by (intros E; by rewrite E, Heol in Et). specialize (Hk Hkind).
  destruct Hok as (Hn & _). destruct (Hn Hkind) as (u & rest & Hu & _ & Hlen).
  eapply run_lift; [rewrite Hu; apply sub_spec; [lia|lia|]; pose proof (zlen_nonneg rest); zl|].
  assert (forall ph', run (group_loop max ag l (S i) (S no) ph') p (fun r p' => p' = p /\ (no <= r.1)%nat /\ (i + (r.1 - no) < length ts)%nat)) as Hnext.
  { intros ph'. eapply run_weaken; [by apply IH|]. intros r p' (-> & H1 & H2). split; [done|]. lia. }
  destruct ag; [|apply Hnext]. destruct (_ && _); [exact Hend|apply Hnext].
Qed.

Lemma run_terms_loop qa l multi al_ ol ag : is_term_ok CCL_TOK_EOL l = false -> forall fuel tree p, inv p ->
  (length ts < fuel + look_token p)%nat -> good_opt tree ->
  run (terms_loop fuel qa l multi al_ ol ag tree) p (fun r p' => inv p' /\ (look_token p <= look_token p')%nat /\
    match r with
    | Some t => good_opt t /\ (t <> None -> tree = None -> (look_token p < look_token p')%nat)
    | None => 1 <= error_code p' <= 14
    end).
Proof.
  intros Heol. induction fuel as [|fuel IH]; intros tree p Hp Hf Hg; [pose proof (inv_look p Hp); lia|]. cbn [terms_loop].
  assert (forall i tree', (look_token p < i < length ts)%nat -> good_opt tree' -> forall p', inv p' -> look_token p' = i -> 
    run (terms_loop fuel qa l multi al_ ol ag tree') p' (fun r p' => inv p' /\ (look_token p <= look_token p')%nat /\
    match r with
    | Some t => good_opt t /\ (t <> None -> tree = None -> (look_token p < look_token p')%nat)
    | None => 1 <= error_code p' <= 14
    end)) as Hnext.
  { intros i tree' Hi Hg' p' Hp' Hl'. eapply run_weaken; [apply IH; [done|lia|done]|]. intros r p'' (H1 & H2 & H3). split; [done|]. split; [lia|].
    destruct r; [|done]. split; [apply H3|]. lia. }
  eapply (run_bind _ _ _ (fun c p' => p' = p /\ (c = true -> (S (look_token p) < length ts)%nat))).
  { destruct al_; [|by apply run_ret]. eapply run_weaken; [by apply run_is_kind|]. intros c p' (-> & t & _ & -> & H). split; [done|].
    intros Hc%bool_decide_eq_true. apply H. by rewrite Hc. }
  intros c p' [-> Hc]. destruct c.
  { eapply run_bind; [by apply run_ADVANCE|]. intros [] p' ->. specialize (Hc eq_refl).
    apply (Hnext (S (look_token p))); [lia|done|apply inv_moved; [done|lia]|done]. }
  apply run_get. eapply run_bind; [apply run_group; [done|apply Hp|apply Hp]|]. intros [no ph] p' (-> & _ & Hno). cbn [fst] in Hno.
  destruct no as [|no]; [apply run_ret; split; [done|]; split; [lia|]; split; [done|]; by intros ? ->|].
  eapply run_bind; [apply run_multi_use; [done|lia]|]. intros t p1 (Hp1 & Hl1 & Ht).
  eapply run_bind; [apply run_advance_by; [done|rewrite Hl1; lia]|]. intros [] p2 ->.
  assert (inv (set_look (look_token p1 + S no) p1)) as Hp2 by (apply inv_moved; [done|rewrite Hl1; lia]).
  destruct t as [t|]; [|apply run_ret; split; [done|]; cbn [look_token set_look]; split; [lia|done]].
  assert (good_opt (ccl_rpn_node_mkbool tree (Some t) (if ol then CCL_RPN_OR else CCL_RPN_AND))) as Hg' by by apply mkbool_good.
  destruct multi; [apply (Hnext (look_token p + S no)%nat); [lia|done|done|cbn [look_token set_look]; lia]|].
  apply run_ret. split; [done|]. cbn [look_token set_look]. split; [lia|]. split; [done|]. lia.
Qed.

Lemma run_search_term_x qa l multi p : is_term_ok CCL_TOK_EOL l = false -> inv p -> run (search_term_x qa l multi) p (made p).
Proof.
  intros Heol Hp. unfold search_term_x. destruct (has_val _ _ _); [by apply run_split_list|]. apply run_get. rewrite (inv_tokens p Hp).
  eapply run_bind; [apply run_terms_loop; [done|done|lia|done]|]. intros r p' (Hp' & Hl & Hr). destruct r as [[t|]|].
  - apply run_ret. split; [done|]. split; [done|]. split; [apply Hr|]. by apply Hr.
  - apply run_fails_made; [done|done|unfold CCL_ERR_TERM_EXPECTED; lia].
  - by apply run_ret.
Qed.

(** ** The grammar *)

Definition from_bibset (qa : quals) : Prop := match qa with Some l => Forall (in_bibset ob) l | None => True end.

Lemma from_one q : in_bibset ob q -> from_bibset (Some [q]).
Proof. intros H. apply Forall_cons. by split. Qed.

Lemma no_order qa v : from_bibset qa -> v = CCL_BIB1_REL_ORDER \/ v = CCL_BIB1_REL_PORDER -> qual_val_type qa CCL_BIB1_REL v = None.
Proof.
  destruct qa as [l|]; [|done]. cbn [from_bibset qual_val_type]. intros Hl Hv. induction Hl as [|q l Hq _ IH]; [done|]. cbn [qa_val_type].
  assert (attr_val_type (ccl_qual_get_attr q) CCL_BIB1_REL v = None) as ->; [|by destruct (existsb _ _)].
  destruct ob as [b|]; [|done]. destruct Hob as [Hb _]. rewrite Forall_forall in Hb. destruct (Hb q Hq) as (_ & Hu & _).
  unfold ccl_qual_get_attr. induction Hu as [|a al Ha _ IHal]; [done|]. cbn [attr_val_type].
  destruct (a_value a) as [n|] eqn:Ev; [|exact IHal]. destruct (Z.eqb_spec (a_type a) CCL_BIB1_REL) as [Et|]; [|exact IHal].
  cbn [andb]. destruct (Z.eqb_spec n v) as [->|]; [|exact IHal]. destruct (Ha Et) as [H1 H2]. by destruct Hv as [->| ->].
Qed.

(** What is assumed of the parser of parentheses, from the token [n] on. *)
Definition fs_ok (fs : quals -> CCL (option ccl_rpn_node)) (n : nat) : Prop :=
  forall qa p, from_bibset qa -> inv p -> (n <= look_token p)%nat -> run (fs qa) p (made p).

Section grammar.
Context (fs : quals -> CCL (option ccl_rpn_node)) (n0 : nat) (Hfs : fs_ok fs n0) (fuel : nat) (Hfuel : (length ts < fuel)%nat).

Lemma run_search_terms2 qa p : from_bibset qa -> inv p -> (n0 <= S (look_token p))%nat -> run (search_terms2 fs qa) p (made p).
Proof.
  intros Hqa Hp Hn. unfold search_terms2. eapply run_bind; [by apply run_is_kind|]. intros lp p' (-> & t & Ht & -> & Hk).
  case_bool_decide as El; [|by apply run_search_term_x]. assert (S (look_token p) < length ts)%nat as Hlt by (apply Hk; by rewrite El).
  eapply run_bind; [by apply run_ADVANCE|]. intros [] p1 ->. eapply run_bind; [apply Hfs; [done|by apply inv_moved|done]|].
  intros [tree|] p1 (Hp1 & Hl1 & Hr); [|apply run_ret; eapply made_from; [|split; [done|split; [exact Hl1|exact Hr]]]; cbn [look_token set_look]; lia].
  destruct Hr as [Hg Hl]. cbn [look_token set_look] in Hl1, Hl. eapply run_bind; [by apply run_is_kind|]. intros rp p' (-> & u & Hu & -> & Hku).
  case_bool_decide as Er; cbn [negb].
  - assert (S (look_token p1) < length ts)%nat as Hlt1 by (apply Hku; by rewrite Er). eapply run_bind; [by apply run_ADVANCE|]. intros [] p2 ->.
    apply run_ret. split; [by apply inv_moved|]. cbn [look_token set_look]. split; [lia|]. split; [done|lia].
  - apply run_modify. eapply run_bind; [by apply (run_delete (Some tree))|]. intros [] p2 ->. apply run_ret.
    destruct Hp1 as [H1 H2 H3]. split; [by split|]. cbn [look_token set_error error_code]. unfold CCL_ERR_RP_EXPECTED. split; lia.
Qed.

Lemma run_prox_loop qa p0 : from_bibset qa -> (n0 <= S (look_token p0))%nat -> forall n t p, inv p -> (look_token p0 < look_token p)%nat ->
  (length ts < n + look_token p)%nat -> tree_good t -> run (prox_loop fs n qa t) p (made p0).
Proof.
  intros Hqa Hn0. induction n as [|n IH]; intros t p Hp Hlp Hn Ht; [pose proof (inv_look p Hp); lia|]. cbn [prox_loop].
  assert (forall p1 s, inv p1 -> (look_token p <= look_token p1)%nat -> match s with P_term m => cstr_at m | P_null => True | P_attrs _ => False end ->
    run (let* p2 := search_terms2 fs qa in
         match p2 with
         | None => delete (Some t) ;; ret None
         | Some p2 => prox_loop fs n qa (CCL_RPN_PROX t p2 s)
         end) p1 (made p0)) as Hnext.
  { intros p1 s Hp1 Hl1 Hs. eapply run_bind; [apply run_search_terms2; [done|done|lia]|]. intros [t2|] p2 (Hp2 & Hl2 & Hr).
    - apply IH; [done|lia|lia|]. by destruct Hr.
    - eapply run_bind; [by apply (run_delete (Some t))|]. intros [] p' ->. apply run_ret. split; [done|]. split; [lia|done]. }
  eapply run_bind; [by apply run_KIND|]. intros k p' (-> & Hk & _). case_bool_decide as Ek.
  - eapply run_bind; [by apply run_look|]. intros t1 p' (-> & Ht1 & (Hnm & _) & Hk1). subst k. specialize (Hk ltac:(done)).
    assert (t_kind t1 <> CCL_TOK_EOL) as Hne by (rewrite (ok_last ts Hts _ _ Ht1); lia).
    destruct (Hnm Hne) as (u & rest & Hu & Hnz & Hlen). rewrite Hu.
    eapply run_lift; [apply sub_spec; [lia|lia|]; pose proof (zlen_nonneg rest); zl|].
    eapply run_bind; [by apply run_ADVANCE|]. intros [] p1 ->. apply (Hnext _ (P_term _)); [by apply inv_moved|cbn [look_token set_look]; lia|].
    eexists _, []. split; [done|]. rewrite drop_0, take_app_le by (unfold zlen in Hlen; lia). by apply Forall_take.
  - destruct (is_term_ok k term_tokens); [by apply (Hnext p P_null)|]. apply run_ret. split; [done|]. split; [lia|]. by split.
Qed.

Lemma run_search_terms qa p : from_bibset qa -> inv p -> (n0 <= S (look_token p))%nat -> run (search_terms fs fuel qa) p (made p).
Proof.
  intros Hqa Hp Hn. unfold search_terms. eapply run_bind; [by apply run_search_terms2|]. intros [t|] p1 (Hp1 & Hl1 & Hr).
  - destruct Hr as [Hg Hl]. apply run_prox_loop; [done|done|done|done|lia|done].
  - by apply run_ret.
Qed.

Lemma run_relation qa p : from_bibset qa -> inv p -> (n0 <= S (look_token p))%nat -> run (qualifier_relation fs fuel qa) p (made p).
Proof.
  intros Hqa Hp Hn. unfold qualifier_relation. rewrite !no_order by auto. eapply run_bind; [by apply run_is_kind|].
  intros eq p' (-> & t & Ht & -> & Hk). case_bool_decide as Ek; cbn [negb]; [|apply run_fails_made; [done|lia|unfold CCL_ERR_EQ_EXPECTED; lia]].
  assert (S (look_token p) < length ts)%nat by (apply Hk; by rewrite Ek). eapply run_bind; [by apply run_ADVANCE|]. intros [] p1 ->.
  eapply run_weaken; [apply run_search_terms; [done|by apply inv_moved|cbn [look_token set_look]; lia]|]. intros r p'. apply made_from. cbn [look_token set_look]. lia.
Qed.

(** *** Fields *)

(** Names separated by commas from the token [i] on, up to the relation at [la]. *)
Inductive fields (la : nat) : nat -> Prop :=
  | F_last i t u : ts !! i = Some t -> t_kind t = CCL_TOK_TERM -> ts !! S i = Some u -> t_kind u <> CCL_TOK_COMMA -> S i = la -> fields la i
  | F_more i t u : ts !! i = Some t -> t_kind t = CCL_TOK_TERM -> ts !! S i = Some u -> t_kind u = CCL_TOK_COMMA -> fields la (S (S i)) -> fields la i.

Lemma fields_bounds la i : fields la i -> (i < la < length ts)%nat.
Proof. induction 1 as [i t u _ _ Hu%lookup_lt_Some _ <-|i t u _ _ _ _ _ IH]; lia. Qed.

Lemma run_find_relation p : tokens p = ts -> forall n i, (i < length ts)%nat -> (length ts < n + i)%nat ->
  run (find_relation n i) p (fun r p' => p' = p /\ forall la, r = inl la -> fields la i).
Proof.
  intros Hp. induction n as [|n IH]; intros i Hi Hn; [lia|]. cbn [find_relation].
  eapply run_bind; [by apply run_token_at|]. intros t p' (-> & Ht & _ & Hk). case_bool_decide as Et; [|by apply run_ret].
  assert (S i < length ts)%nat as Hi1 by (apply Hk; by rewrite Et). eapply run_bind; [by apply run_token_at|]. intros u p' (-> & Hu & _ & Hku).
  destruct (bool_decide (t_kind u = CCL_TOK_REL) || bool_decide (t_kind u = CCL_TOK_EQ)) eqn:Er.
  - apply run_ret. split; [done|]. intros la [= <-]. eapply F_last; [done|done|done| |done].
    apply orb_true_iff in Er as [Er|Er]; apply bool_decide_eq_true in Er; by rewrite Er.
  - clear Er. case_bool_decide as Ec; [|by apply run_ret]. assert (S (S i) < length ts)%nat by (apply Hku; by rewrite Ec).
    eapply run_weaken; [apply IH; [done|lia]|]. intros r p' [-> Hr]. split; [done|]. intros la ->. by eapply F_more; [..|apply Hr].
Qed.

Lemma run_field la i p : tokens p = ts -> fields la i -> run (token_at i) p (fun t p' => p' = p /\ name_at (t_name t) (t_len t)).
Proof.
  intros Hp Hf. pose proof (fields_bounds la i Hf). eapply run_weaken; [apply run_token_at; [done|lia]|].
  intros t p' (-> & Ht & (Hn & _) & _). split; [done|]. apply Hn. rewrite (ok_last ts Hts i t Ht). lia.
Qed.

Lemma run_next_field la i p : tokens p = ts -> fields la i ->
  run (next_field i) p (fun j p' => p' = p /\ (i < j)%nat /\ (j = la \/ fields la j)).
Proof.
  intros Hp Hf. unfold next_field. pose proof (fields_bounds la i Hf). eapply run_bind; [apply run_token_at; [done|lia]|].
  intros u' p' (-> & Hu' & _). apply run_ret. destruct Hf as [i t u _ _ Hu Hk Hla|i t u _ _ Hu Hk Hf]; rewrite Hu in Hu'; injection Hu' as <-.
  - rewrite bool_decide_eq_false_2 by done. split; [done|]. split; [lia|by left].
  - rewrite bool_decide_eq_true_2 by done. split; [done|]. split; [lia|by right].
Qed.

Lemma name_zlen s n : name_at s n -> 1 <= n <= zlen s.
Proof. intros (u & rest & -> & _ & H). pose proof (zlen_nonneg rest). zl. Qed.

Lemma run_field_qual t seq p : inv p -> name_at (t_name t) (t_len t) -> run (search_qual (t_name t) (t_len t) seq) p
  (fun r p' => p' = p /\ (forall q, r = Some q -> in_bibset ob q) /\ (seq <> O -> r = None)).
Proof. intros Hp Hn. apply run_search_qual; [done|]. by apply name_zlen. Qed.

Lemma seq_bound_two q : in_bibset ob q -> exists k, seq_bound ob = S (S k).
Proof. destruct ob; [by eexists|done]. Qed.
Lemma seq_bound_pos : exists k, seq_bound ob = S k.
Proof. destruct ob; by eexists. Qed.

Lemma run_unknown_qual {A} p0 p i : inv p -> (look_token p0 <= i < length ts)%nat ->
  run (unknown_qual (A := A) i) p (fun r p' => r = None /\ inv p' /\ (look_token p0 <= look_token p')%nat /\ 1 <= error_code p' <= 14).
Proof.
  intros [H1 H2 H3] Hi. unfold unknown_qual, fails. apply run_modify, run_modify, run_ret. split; [done|].
  cbn [look_token set_look set_error error_code]. unfold CCL_ERR_UNKNOWN_QUAL. split; [split; [done|done|cbn; lia]|lia].
Qed.

(** A name has at most one qualifier. *)
Lemma run_or_field la i t node p : inv p -> name_at (t_name t) (t_len t) -> (i < la < length ts)%nat -> (n0 <= S i)%nat -> good_opt node ->
  run (or_field fs fuel (seq_bound ob) la t 0 node) p (fun r p' => inv p' /\
    match r with
    | Some (0%nat, _) => p' = p
    | Some (S _, node') => good_opt node' /\ node' <> None /\ (la < look_token p')%nat
    | None => (la <= look_token p')%nat /\ 1 <= error_code p' <= 14
    end).
Proof.
  intros Hp Hn Hla Hn0 Hg. destruct seq_bound_pos as [k Hk]. rewrite Hk. cbn [or_field]. eapply run_bind; [by apply run_field_qual|].
  intros [q|] p' (-> & Hq & _); [|by apply run_ret]. specialize (Hq q eq_refl). apply run_modify.
  eapply run_bind; [apply run_relation; [by apply from_one|apply inv_moved; [done|lia]|cbn [look_token set_look]; lia]|].
  intros [t1|] p1 (Hp1 & Hl1 & Hr); cbn [look_token set_look] in *.
  - destruct (seq_bound_two q Hq) as [k' Hk']. rewrite Hk in Hk'. injection Hk' as ->. cbn [or_field].
    eapply run_bind; [by apply run_field_qual|]. intros r p' (-> & _ & Hr'). rewrite Hr' by done. apply run_ret. split; [done|].
    destruct Hr as [Hg1 Hl]. split; [by apply mkbool_good|]. split; [by intros ?%mkbool_some|done].
  - eapply run_bind; [by apply run_delete|]. intros [] p' ->. by apply run_ret.
Qed.

Lemma run_or_fields la p0 : (n0 <= S (look_token p0))%nat -> (la < length ts)%nat -> forall n i node p, inv p -> (la < n + i)%nat ->
  (look_token p0 <= i)%nat -> (look_token p0 < la)%nat -> (i = la \/ fields la i) -> good_opt node ->
  (i = la -> node <> None /\ (la < look_token p)%nat) -> run (or_fields fs fuel n la i node) p (made p0).
Proof.
  intros Hn0 Hla. induction n as [|n IH]; intros i node p Hp Hn Hi Hlt Hf Hg He.
  { destruct Hf as [->|Hf%fields_bounds]; lia. }
  cbn [or_fields]. destruct (Nat.eqb_spec i la) as [Ei|].
  { destruct (He Ei) as [Hne Hl]. apply run_ret. destruct node as [t|]; [|done]. split; [done|]. split; [lia|]. split; [done|lia]. }
  destruct Hf as [|Hf]; [done|]. pose proof (fields_bounds la i Hf) as Hb. eapply run_bind; [apply (run_field la); [apply Hp|done]|].
  intros t p' [-> Ht]. apply run_get. rewrite (inv_bibset p Hp). eapply run_bind; [apply (run_or_field la i); [done|done|lia|lia|done]|].
  intros [[[|seq] node']|] p1 (Hp1 & Hr).
  - cbn [Nat.eqb]. eapply run_weaken; [apply (run_unknown_qual p0); [done|lia]|]. intros r p' (-> & H1 & H2 & H3). by split.
  - cbn [Nat.eqb]. destruct Hr as (Hg' & Hne' & Hl'). eapply run_bind; [apply (run_next_field la); [apply Hp1|done]|].
    intros j p' (-> & Hj & Hj'). apply IH; [done|lia|lia|done|done|done|done].
  - apply run_ret. split; [done|]. destruct Hr. split; [lia|done].
Qed.

Lemma run_merge_quals la p0 seq : (la < length ts)%nat -> forall n i found ap p, inv p -> (la < n + i)%nat -> (look_token p0 <= i)%nat ->
  (i = la \/ fields la i) -> Forall (in_bibset ob) ap ->
  run (merge_quals n la i seq found ap) p (fun r p' => inv p' /\
    match r with
    | Some (ap', found', i') => p' = p /\ Forall (in_bibset ob) ap' /\ i' = la /\ 
        found' = found || (Nat.eqb seq 0 && negb (Nat.eqb i la)) /\ (i <> la -> exists q, in_bibset ob q)
    | None => (look_token p0 <= look_token p')%nat /\ 1 <= error_code p' <= 14
    end).
Proof.
  intros Hla. induction n as [|n IH]; intros i found ap p Hp Hn Hi Hf Hap.
  { destruct Hf as [->|Hf%fields_bounds]; lia. }
  cbn [merge_quals]. destruct (Nat.eqb_spec i la) as [Ei|].
  { apply run_ret. split; [done|]. rewrite andb_false_r, orb_false_r. by split_and!. }
  destruct Hf as [|Hf]; [done|]. pose proof (fields_bounds la i Hf) as Hb. eapply run_bind; [apply (run_field la); [apply Hp|done]|].
  intros t p' [-> Ht]. eapply run_bind; [by apply run_field_qual|]. intros q1 p' (-> & Hq1 & Hs1).
  eapply (run_bind _ _ _ (fun q p' => p' = p /\ (forall x, q = Some x -> in_bibset ob x) /\ (seq = O -> q = q1))).
  { destruct q1; [by apply run_ret|]. destruct (Nat.ltb_spec 0 seq); [|by apply run_ret]. eapply run_weaken; [by apply run_field_qual|].
    intros q p' (-> & Hq & _). split_and!; [done|done|lia]. }
  intros [q|] p' (-> & Hq & Hq0).
  - eapply run_bind; [apply (run_next_field la); [apply Hp|done]|]. intros j p' (-> & Hj & Hj').
    eapply run_weaken; [apply IH; [done|lia|lia|done|apply Forall_app; split; [done|]; constructor; [by apply Hq|constructor]]|].
    intros [[[ap' found'] i']|] p' (Hp' & Hr); (split; [done|]); [|done]. destruct Hr as (-> & H1 & H2 & -> & _).
    split_and!; [done|done|done| |intros _; exists q; by apply Hq]. cbn [negb].
    destruct seq as [|seq]; cbn [Nat.eqb andb Nat.ltb Nat.leb] in *.
    + rewrite <- Hq0, bool_decide_eq_true_2 by done. by rewrite !orb_true_r.
    + rewrite Hs1 by done. rewrite bool_decide_eq_false_2 by (by intros [? ?]). by rewrite !orb_false_r.
  - eapply run_weaken; [apply (run_unknown_qual p0); [done|lia]|]. intros r p' (-> & H1 & H2). by split.
Qed.

Lemma run_merge_loop la qa p : inv p -> (n0 <= S (look_token p))%nat -> fields la (look_token p) -> from_bibset qa ->
  run (merge_loop fs fuel (seq_bound ob) fuel (look_token p) la qa 0 None) p (made p).
Proof.
  intros Hp Hn0 Hf Hqa. pose proof (fields_bounds la _ Hf) as Hb. destruct seq_bound_pos as [k Hk]. rewrite Hk. cbn [merge_loop].
  eapply run_bind; [apply (run_merge_quals la p); [lia|done|lia|lia|by right|constructor]|].
  intros [[[ap found] i]|] p1 (Hp1 & Hr); [|by apply run_ret; split]. destruct Hr as (-> & Hap & -> & -> & Hex). destruct Hex as [q Hq]; [lia|].
  rewrite (proj2 (Nat.eqb_neq _ la)) by lia. cbn [Nat.eqb negb andb orb].
  destruct (seq_bound_two q Hq) as [k' Hk']. rewrite Hk in Hk'. injection Hk' as ->. apply run_modify.
  eapply run_bind; [apply run_relation; [apply Forall_app; split; [done|]; by destruct qa|apply inv_moved; [done|lia]|cbn [look_token set_look]; lia]|].
  intros [t|] p2 (Hp2 & Hl2 & Hr2); cbn [look_token set_look] in *.
  - cbn [merge_loop]. eapply run_bind; [apply (run_merge_quals la p); [lia|done|lia|lia|by right|constructor]|].
    intros [[[ap' found'] i']|] p' (Hp' & Hr); [|by apply run_ret; split]. destruct Hr as (-> & _ & _ & -> & _). cbn [Nat.eqb andb orb negb].
    apply run_ret. split; [done|]. destruct Hr2. split; [lia|]. split; [done|lia].
  - eapply run_bind; [by apply run_delete|]. intros [] p' ->. apply run_ret. split; [done|]. split; [lia|done].
Qed.

Lemma run_qualifier_list la qa p : inv p -> (n0 <= S (look_token p))%nat -> fields la (look_token p) -> from_bibset qa ->
  run (qualifier_list fs fuel la qa) p (made p).
Proof.
  intros Hp Hn0 Hf Hqa. pose proof (fields_bounds la _ Hf) as Hb. unfold qualifier_list. apply run_get.
  eapply run_bind; [apply run_special; [done|by repeat constructor]|]. intros fstr p' [-> Hfs'].
  eapply (run_bind _ _ _ (fun _ p' => p' = p)).
  { destruct fstr as [[|v vs]|]; [by destruct Hfs'| |by apply run_ret]. destruct Hfs' as [_ [Hv _]%Forall_cons_1].
    eapply run_lift; [done|]. destruct (str_same_total v (str "or" ++ [0]) Hv) as (r & Hr); [exists (str "or"), []; by repeat constructor|].
    exists r, p. unfold lift. by rewrite Hr. }
  intros [] p' ->.
  - apply (run_or_fields la); [done|lia|done|lia|lia|lia|by right|done|lia].
  - rewrite (inv_bibset p Hp). by apply run_merge_loop.
Qed.

(** *** Search elements *)

Lemma run_default_quals p : inv p -> (n0 <= S (look_token p))%nat ->
  run (default_quals fs fuel (seq_bound ob) (look_token p) 0 None) p (fun r p' => inv p' /\ (look_token p <= look_token p')%nat /\
    match r with
    | Some (Some t) => tree_good t /\ (look_token p < look_token p')%nat
    | Some None => p' = p
    | None => 1 <= error_code p' <= 14
    end).
Proof.
  intros Hp Hn0. destruct seq_bound_pos as [k Hk]. rewrite Hk. cbn [default_quals].
  assert (forall seq p, inv p -> run (search_qual (str "term" ++ [0]) 4 seq) p (fun r p' => p' = p /\
    (forall q, r = Some q -> in_bibset ob q) /\ (seq <> O -> r = None))) as Hs by (intros; apply run_search_qual; [done|by compute]).
  eapply run_bind; [by apply Hs|]. intros [q|] p' (-> & Hq & _); [|by apply run_ret]. specialize (Hq q eq_refl).
  apply run_modify. eapply run_bind; [apply run_search_terms; [by apply from_one|apply inv_moved; [done|apply Hp]|done]|].
  intros [t|] p1 (Hp1 & Hl1 & Hr); cbn [look_token set_look] in *.
  - destruct (seq_bound_two q Hq) as [k' Hk']. rewrite Hk in Hk'. injection Hk' as ->. cbn [default_quals].
    eapply run_bind; [by apply Hs|]. intros r p' (-> & _ & Hr'). rewrite Hr' by done. by apply run_ret.
  - eapply run_bind; [by apply run_delete|]. intros [] p' ->. by apply run_ret.
Qed.

Lemma run_set_name p : inv p -> (S (look_token p) < length ts)%nat ->
  run (ADVANCE ;;
    let* eq := is_kind CCL_TOK_EQ in
    (if eq : bool then ADVANCE else ret tt) ;;
    let* term := is_kind CCL_TOK_TERM in
    if negb term then fails CCL_ERR_SETNAME_EXPECTED
    else
      let* t := look in
      let* name := lift (sub (t_name t) 0 (t_len t)) in
      ADVANCE ;;
      ret (Some (CCL_RPN_SET (name ++ [0])))) p (made p).
Proof.
  intros Hp Hlt. eapply run_bind; [by apply run_ADVANCE|]. intros [] p1 ->. assert (inv (set_look (S (look_token p)) p)) as Hp1 by by apply inv_moved.
  eapply run_bind; [by apply run_is_kind|]. intros eq p' (-> & t & Ht & -> & Hk).
  eapply (run_bind _ _ _ (fun _ p' => inv p' /\ (look_token p < look_token p')%nat)).
  { case_bool_decide as Ek; [|apply run_ret; split; [done|]; cbn [look_token set_look]; lia]. eapply run_weaken; [by apply run_ADVANCE|].
    intros [] p' ->. split; [apply inv_moved; [done|]; apply Hk; by rewrite Ek|]. cbn [look_token set_look]. lia. }
  intros [] p2 [Hp2 Hl2]. eapply run_bind; [by apply run_is_kind|]. intros term p' (-> & t2 & Ht2 & -> & Hk2).
  case_bool_decide as Ek; cbn [negb]; [|apply run_fails_made; [done|lia|unfold CCL_ERR_SETNAME_EXPECTED; lia]].
  eapply run_bind; [by apply run_look|]. intros t3 p' (-> & Ht3 & (Hn & _) & Hk3). rewrite Ht2 in Ht3. injection Ht3 as <-.
  destruct (Hn ltac:(by rewrite Ek)) as (u & rest & Hu & Hnz & Hlen). rewrite Hu.
  eapply run_lift; [apply sub_spec; [lia|lia|]; pose proof (zlen_nonneg rest); zl|].
  eapply run_bind; [by apply run_ADVANCE|]. intros [] p3 ->. apply run_ret. split; [apply inv_moved; [done|]; apply Hk2; by rewrite Ek|].
  cbn [look_token set_look]. split; [lia|]. split; [|lia].
  eexists _, []. split; [done|]. rewrite drop_0, take_app_le by (unfold zlen in Hlen; lia). by apply Forall_take.
Qed.

Lemma run_search_elements qa p : from_bibset qa -> inv p -> (n0 <= S (look_token p))%nat -> run (search_elements fs fuel qa) p (made p).
Proof.
  intros Hqa Hp Hn0. unfold search_elements. eapply run_bind; [by apply run_is_kind|]. intros set p' (-> & t & Ht & -> & Hk).
  case_bool_decide as Ek; [apply run_set_name; [done|apply Hk; by rewrite Ek]|].
  apply run_get. eapply run_bind; [apply run_find_relation; [apply Hp|apply Hp|lia]|]. intros [la|k] p' [-> Hr].
  { apply run_qualifier_list; auto. }
  destruct (_ || _); [by apply run_search_terms|]. rewrite (inv_bibset p Hp).
  eapply run_bind; [by apply run_default_quals|]. intros [[t'|]|] p1 (Hp1 & Hl1 & Hr1).
  - by apply run_ret.
  - subst p1. by apply run_search_terms.
  - by apply run_ret.
Qed.

Lemma run_spec_loop qa p0 : from_bibset qa -> (n0 <= S (look_token p0))%nat -> forall n t p, inv p -> (look_token p0 < look_token p)%nat ->
  (length ts < n + look_token p)%nat -> tree_good t -> run (spec_loop fs fuel n qa t) p (made p0).
Proof.
  intros Hqa Hn0. induction n as [|n IH]; intros t p Hp Hlp Hn Ht; [pose proof (inv_look p Hp); lia|]. cbn [spec_loop].
  eapply run_bind; [by apply run_KIND|]. intros k p' (-> & Hk & _). destruct (bool_op k) as [op|] eqn:Eop.
  - assert (S (look_token p) < length ts)%nat as Hlt by (apply Hk; by destruct k). eapply run_bind; [by apply run_ADVANCE|]. intros [] p1 ->.
    eapply run_bind; [apply run_search_elements; [done|by apply inv_moved|cbn [look_token set_look]; lia]|].
    intros [t2|] p2 (Hp2 & Hl2 & Hr); cbn [look_token set_look] in *.
    + apply IH; [done|lia|lia|]. by destruct Hr.
    + eapply run_bind; [by apply (run_delete (Some t))|]. intros [] p' ->. apply run_ret. split; [done|]. split; [lia|done].
  - apply run_ret. split; [done|]. split; [lia|]. by split.
Qed.
End grammar.

(** Every level of parentheses has passed a token. *)
Lemma find_spec_ok fuel : (length ts < fuel)%nat -> forall depth, fs_ok (find_spec depth fuel) (length ts - depth).
Proof.
  intros Hf. induction depth as [|depth IH]; intros qa p Hqa Hp Hl; [pose proof (inv_look p Hp); lia|]. cbn [find_spec].
  assert (length ts - depth <= S (look_token p))%nat as Hn0 by lia.
  eapply run_bind; [by eapply run_search_elements|]. intros [t|] p1 (Hp1 & Hl1 & Hr); [|by apply run_ret]. destruct Hr as [Hg Hl'].
  eapply run_spec_loop; [exact IH|done|done|done|done|done|lia|done].
Qed.

Definition placed (size : Z) (t : ccl_token) : Prop := exists k, t_off t = Some k /\ 0 <= k < size.

(** What the parser says of a list of tokens. *)
Lemma run_find_token size p : bibset p = ob -> Forall (placed size) ts -> ts <> [] ->
  run (ccl_parser_find_token ts) p (fun r p' => bibset p' = ob /\
    match r with
    | Some t => tree_good t /\ error_code p' = 0
    | None => 1 <= error_code p' <= 14 /\ exists k, error_pos p' = Some k /\ 0 <= k < size
    end).
Proof.
  intros Hp Hpl Hne. unfold ccl_parser_find_token. do 2 apply run_modify.
  assert (0 < length ts)%nat by (destruct ts; [done|cbn; lia]).
  assert (inv (set_look 0 (set_tokens ts p))) as Hp0 by by split.
  eapply run_bind; [apply (find_spec_ok (S (3 * length ts))); [lia|done|exact Hp0|cbn [look_token set_look]; lia]|].
  intros t p1 (Hp1 & _ & Hr).
  eapply (run_bind _ _ _ (fun t p' => inv p' /\ match t with Some t => tree_good t | None => 1 <= error_code p' <= 14 end)).
  { destruct t as [t|]; [|by apply run_ret]. destruct Hr as [Hg _]. eapply run_bind; [by apply run_KIND|]. intros k p' (-> & _).
    case_bool_decide; [by apply run_ret|]. apply run_modify. eapply run_bind; [by apply (run_delete (Some t))|]. intros [] p' ->. apply run_ret.
    destruct Hp1 as [H1 H2 H3]. split; [by split|]. cbn [error_code set_error]. unfold CCL_ERR_BAD_RP, CCL_ERR_OP_EXPECTED. case_bool_decide; lia. }
  intros t' p2 [Hp2 Hr2]. eapply run_bind; [by apply run_look|]. intros l p' (-> & Hl & _). apply run_modify.
  destruct Hp2 as [H1 H2 H3]. pose proof (Forall_lookup_1 _ _ _ _ Hpl Hl) as Hk. destruct t' as [t'|].
  - apply run_modify, run_ret. by split.
  - eapply run_bind; [by apply (run_ret _ _ (fun _ p' => p' = set_error_pos (t_off l) p2))|]. intros [] p' ->. apply run_ret. by split.
Qed.
End safe.

(** ** The tokens of a string *)

(** [e] is what is left of the string [s] after [n] octets. *)
Definition after (s : list Z) (n : Z) (s' : list Z) : Prop := exists pre, s = pre ++ s' /\ zlen pre = n.

Lemma after_0 s : after s 0 s.
Proof. by exists []. Qed.
Lemma after_cons c s n s' : after s n s' -> after (c :: s) (n + 1) s'.
Proof. intros (pre & -> & <-). exists (c :: pre). split; [done|]. zl. Qed.
Lemma after_trans s n s' m s'' : after s n s' -> after s' m s'' -> after s (n + m) s''.
Proof. intros (p & -> & <-) (q & -> & <-). exists (p ++ q). split; [by rewrite app_assoc|]. zl. Qed.
Lemma after_nonzero s n s' : nonzero s -> after s n s' -> nonzero s' /\ 0 <= n /\ zlen s = n + zlen s'.
Proof. intros Hs (p & -> & <-). apply Forall_app in Hs as [_ Hs]. pose proof (zlen_nonneg p). split; [done|]. zl. Qed.

(** What does not start with a blank. *)
Definition no_blank (s : list Z) : Prop := match s with c :: _ => strchr [32; 9; 13; 10] c = false | [] => True end.

Lemma skip_ws_total s rest : nonzero s -> exists n s', skip_ws (s ++ 0 :: rest) = Some (s' ++ 0 :: rest) /\ after s n s' /\ no_blank s'.
Proof.
  induction 1 as [|c s Hc Hs IH]; [exists 0, []; split; [done|]; split; [apply after_0|done]|]. cbn [app skip_ws]. rewrite (proj2 (Z.eqb_neq c 0)) by done.
  cbn [negb andb]. destruct (strchr _ c) eqn:E; [|exists 0, (c :: s); split; [done|]; split; [apply after_0|done]].
  destruct IH as (n & s' & -> & Ha & Hb). exists (n + 1), s'. split; [done|]. split; [by apply after_cons|done].
Qed.

Lemma count_digits_total s rest : nonzero s -> exists n s', count_digits (s ++ 0 :: rest) = Some n /\ after s n s'.
Proof.
  induction 1 as [|c s Hc Hs IH]; [exists 0, []; split; [done|apply after_0]|]. cbn [app count_digits].
  destruct (yaz_isdigit c); [|exists 0, (c :: s); split; [done|apply after_0]].
  destruct IH as (n & s' & -> & Ha). exists (n + 1), s'. split; [done|]. by apply after_cons.
Qed.

Lemma rd_first s rest : exists c, rd (s ++ 0 :: rest) 0 = Some c /\ (c <> 0 -> exists s', s = c :: s').
Proof. destruct s as [|c s]; [exists 0; split; [done|done]|]. exists c. split; [apply rd_0|]. by eexists. Qed.

Lemma quoted_total rest : forall m s n, (length s <= m)%nat -> nonzero s -> exists k s', quoted_end (s ++ 0 :: rest) n = Some (s' ++ 0 :: rest, n + k) /\
  after s k s' /\ (s <> [] -> 1 <= k).
Proof.
  induction m as [|m IH]; intros s n Hm Hs.
  { destruct s; [|simpl in Hm; lia]. exists 0, []. split; [by rewrite Z.add_0_r|]. split; [apply after_0|done]. }
  destruct Hs as [|c s Hc Hs]; [exists 0, []; split; [by rewrite Z.add_0_r|]; split; [apply after_0|done]|].
  cbn [app quoted_end]. rewrite (proj2 (Z.eqb_neq c 0)) by done. simpl in Hm.
  destruct Hs as [|d s Hd Hs].
  { cbn [app]. rewrite (proj2 (Z.eqb_neq 0 92)), (proj2 (Z.eqb_neq 0 34)) by done. cbn [mbind option_bind].
    change (quoted_end (0 :: rest) (n + 1)) with (Some (0 :: rest, n + 1)). exists 1, []. split; [done|]. split; [by exists [c]|lia]. }
  cbn [app]. destruct (rd_first s rest) as (e & He & Hes). simpl in Hm.
  assert (exists esc, (if d =? 92 then let? e := rd (s ++ 0 :: rest) 0 in Some (negb (e =? 0)) else Some false) = Some esc /\
    (esc = true -> exists s', s = e :: s')) as (esc & -> & Hesc).
  { destruct (d =? 92); [|by exists false]. rewrite He. eexists. split; [done|]. intros E. apply Hes. intros ->. by cbn in E. }
  cbn [mbind option_bind]. destruct esc.
  - destruct (IH s (n + 2) ltac:(lia) Hs) as (k & s' & -> & Ha & _). exists (k + 1 + 1), s'. split; [do 2 f_equal; lia|].
    split; [by do 2 apply after_cons|]. apply after_nonzero in Ha as (_ & H & _); [lia|done].
  - destruct (d =? 34); [exists 1, (d :: s); split; [done|]; split; [by exists [c]|lia]|].
    destruct (IH (d :: s) (n + 1)) as (k & s' & E & Ha & _); [simpl; lia|by constructor|]. change (d :: s ++ 0 :: rest) with ((d :: s) ++ 0 :: rest).
    rewrite E. exists (k + 1), s'. split; [do 2 f_equal; lia|]. split; [by apply after_cons|]. apply after_nonzero in Ha as (_ & H & _); [lia|by constructor].
Qed.

Lemma term_end_total rest : forall fuel s n, nonzero s -> (length s < fuel)%nat -> exists k s', term_end fuel (s ++ 0 :: rest) n = Some (s' ++ 0 :: rest, n + k) /\
  after s k s' /\ (match s with c :: _ => ends_term c = false | [] => False end -> 1 <= k).
Proof.
  induction fuel as [|fuel IH]; intros s n Hs Hf; [lia|].
  assert (exists k s', Some (s ++ 0 :: rest, n) = Some (s' ++ 0 :: rest, n + k) /\ after s k s' /\ k = 0) as (k0 & s0 & Hstop & Ha0 & ->).
  { exists 0, s. split; [by rewrite Z.add_0_r|]. split; [apply after_0|done]. }
  destruct Hs as [|c s Hc Hs]; [exists 0, s0; done|]. cbn [app term_end] in *. rewrite (proj2 (Z.eqb_neq c 0)) by done. cbn [orb].
  destruct (ends_term c); [exists 0, s0; done|]. simpl in Hf. destruct (rd_first s rest) as (e & He & Hes).
  assert (forall m s1 n1, after (c :: s) m s1 -> 1 <= m -> n1 = n + m -> exists k s', term_end fuel (s1 ++ 0 :: rest) n1 = Some (s' ++ 0 :: rest, n + k) /\
    after (c :: s) k s' /\ (false = false -> 1 <= k)) as Hgo.
  { intros m s1 n1 Ha Hm ->. destruct (after_nonzero (c :: s) m s1) as (Hs1 & _ & Hlen); [by constructor|done|].
    destruct (IH s1 (n + m) Hs1) as (k & s' & -> & Ha' & _); [unfold zlen in Hlen; simpl in Hlen; lia|].
    exists (m + k), s'. split; [do 2 f_equal; lia|]. split; [by eapply after_trans|]. apply after_nonzero in Ha' as (_ & H & _); [lia|done]. }
  assert (exists esc, (if c =? 92 then let? e := rd (s ++ 0 :: rest) 0 in Some (negb (e =? 0)) else Some false) = Some esc /\
    (esc = true -> exists s', s = e :: s')) as (esc & -> & Hesc).
  { destruct (c =? 92); [|by exists false]. rewrite He. eexists. split; [done|]. intros E. apply Hes. intros ->. by cbn in E. }
  cbn [mbind option_bind]. destruct esc.
  { destruct (Hesc eq_refl) as (s' & ->). cbn [app drop]. apply (Hgo 2); [by exists [c; e]|lia|done]. }
  destruct (c =? 34); [|apply (Hgo 1); [by exists [c]|lia|done]].
  destruct (quoted_total rest (S (length s)) (c :: s) n) as (k & s1 & E & Ha & Hk); [simpl; lia|by constructor|]. specialize (Hk ltac:(done)).
  change (c :: s ++ 0 :: rest) with ((c :: s) ++ 0 :: rest). rewrite E. cbn [mbind option_bind].
  destruct (rd_first s1 rest) as (d & -> & Hd). cbn [mbind option_bind]. destruct (Z.eqb_spec d 0) as [|Hne]; [by exists k, s1|].
  destruct (Hd Hne) as (s2 & ->). cbn [app drop]. apply (Hgo (k + 1)); [|lia|lia]. eapply after_trans; [exact Ha|]. by exists [d].
Qed.

Lemma any_keyword_total c kw name n : Forall cstr_at kw -> 1 <= n <= zlen name -> exists b, any_keyword c kw name n = Some b.
Proof.
  intros Hk Hn. induction Hk as [|k kw Hk _ IH]; cbn [any_keyword]; [by eexists|].
  destruct (strlen_total k Hk) as (m & -> & Hm). cbn [mbind option_bind].
  assert (exists b, (if n =? m then name_same c k name n else Some false) = Some b) as (b & ->).
  { destruct (Z.eqb_spec n m); [|by eexists]. apply name_same_total; lia. }
  cbn [mbind option_bind]. destruct b; [by eexists|exact IH].
Qed.

Lemma keyword_kind_total p name n : profile_safe (bibset p) -> 1 <= n <= zlen name -> forall tests k,
  Forall (fun '(m, d, t) => nonzero m /\ Forall cstr_at d /\ t <> CCL_TOK_EOL) tests -> k <> CCL_TOK_EOL ->
  exists k', keyword_kind p tests name n k = Some k' /\ k' <> CCL_TOK_EOL.
Proof.
  intros Hb Hn tests. induction tests as [|[[m d] t] tests IH]; intros k Ht Hk; cbn [keyword_kind]; [by eexists|].
  apply Forall_cons_1 in Ht as [(Hm & Hd & Ht) Hts]. unfold operator_aliases. destruct (special_total _ m Hb Hm) as (al & -> & Hal). cbn [mbind option_bind].
  unfold token_cmp. destruct (case_flag_total _ (ccl_case_sensitive p) Hb) as (cf & ->). cbn [mbind option_bind].
  destruct (any_keyword_total cf (match al with Some l => l | None => d end) name n) as (b & ->); [destruct al; [apply Hal|done]|done|].
  cbn [mbind option_bind]. apply IH; [done|]. by destruct b.
Qed.

(** A parser whose keywords are strings. *)
Definition keywords_ok (p : ccl_parser) : Prop :=
  profile_safe (bibset p) /\ Forall cstr_at (ccl_token_and p) /\ Forall cstr_at (ccl_token_or p) /\ Forall cstr_at (ccl_token_not p) /\
  Forall cstr_at (ccl_token_set p).

Lemma scan_token_total p s rest : keywords_ok p -> nonzero s -> s <> [] -> no_blank s ->
  exists k n s', scan_token p (s ++ 0 :: rest) = Some (k, n, s' ++ 0 :: rest) /\ k <> CCL_TOK_EOL /\ after s n s' /\ 1 <= n.
Proof.
  intros (Hb & Ha & Ho & Hno & Hse) Hs Hne Hws. destruct Hs as [|c s Hc Hs]; [done|]. unfold scan_token.
  assert (rd ((c :: s) ++ 0 :: rest) 0 = Some c) as -> by apply rd_0. cbn [mbind option_bind].
  change (drop 1 ((c :: s) ++ 0 :: rest)) with (s ++ 0 :: rest). rewrite (proj2 (Z.eqb_neq c 0)) by done.
  assert (forall k, k <> CCL_TOK_EOL -> exists k' n s', Some (k, 1, s ++ 0 :: rest) = Some (k', n, s' ++ 0 :: rest) /\ k' <> CCL_TOK_EOL /\ after (c :: s) n s' /\ 1 <= n) as Hone.
  { intros k Hk. exists k, 1, s. split; [done|]. split; [done|]. split; [by exists [c]|lia]. }
  destruct (Z.eqb_spec c 40) as [|H40]; [by apply Hone|]. destruct (Z.eqb_spec c 41) as [|H41]; [by apply Hone|]. destruct (Z.eqb_spec c 44) as [|H44]; [by apply Hone|].
  destruct ((c =? 37) || (c =? 33)) eqn:E1.
  { destruct (count_digits_total s rest Hs) as (n & s' & -> & Haf). cbn [mbind option_bind]. exists CCL_TOK_PROX, (1 + n), s'. split; [|split; [done|split]].
    - destruct Haf as (pre & -> & <-). unfold zlen. rewrite Nat2Z.id, <- app_assoc, drop_app_length. done.
    - rewrite Z.add_comm. by apply after_cons.
    - apply after_nonzero in Haf as (_ & H & _); [lia|done]. }
  destruct ((c =? 62) || (c =? 60) || (c =? 61)) eqn:E2.
  { destruct (rd_first s rest) as (d & -> & Hd). cbn [mbind option_bind]. destruct ((d =? 61) || (d =? 60) || (d =? 62)) eqn:E3.
    - destruct (Hd ltac:(intros ->; by cbn in E3)) as (s' & ->). exists CCL_TOK_REL, 2, s'. split; [done|]. split; [done|]. split; [by exists [c; d]|lia].
    - destruct (c =? 61); by apply Hone. }
  destruct (term_end_total rest (S (length ((c :: s) ++ 0 :: rest))) (c :: s) 0) as (n & s' & -> & Haf & Hn);
    [by constructor|rewrite length_app; simpl; lia|]. cbn [mbind option_bind]. rewrite Z.add_0_l.
  assert (1 <= n) as Hn1.
  { apply Hn. unfold ends_term, no_blank, strchr in *. cbn [app existsb] in *. apply orb_false_iff in E1 as [E1 E1'].
    apply orb_false_iff in E2 as [[E2 E2']%orb_false_iff E2'']. rewrite (proj2 (Z.eqb_neq c 40)), (proj2 (Z.eqb_neq c 41)), (proj2 (Z.eqb_neq c 44)), E1, E1', E2, E2', E2'' by done.
    cbn [orb]. rewrite !orb_false_iff in *. tauto. }
  destruct (keyword_kind_total p ((c :: s) ++ 0 :: rest) n Hb) with (tests := keyword_tests p) (k := CCL_TOK_TERM) as (k & -> & Hk); [| |done|].
  - apply after_nonzero in Haf as (_ & _ & H); [|by constructor]. pose proof (zlen_nonneg s'). pose proof (zlen_nonneg rest). zl.
  - unfold keyword_tests. repeat (apply Forall_cons; split; [split_and!; [by repeat constructor|done|done]|]). constructor.
  - cbn [mbind option_bind]. by exists k, n, s'.
Qed.

Lemma tokenize_total p size rest : keywords_ok p -> forall fuel s, nonzero s -> (length s < fuel)%nat -> zlen (s ++ 0 :: rest) <= size ->
  exists ts, tokenize_loop fuel p size (s ++ 0 :: rest) = Some ts /\ ts <> [] /\ Forall tok_ok ts /\ Forall (placed size) ts /\
  (forall i t, ts !! i = Some t -> (t_kind t = CCL_TOK_EOL <-> S i = length ts)) /\ tsizes ts <= 2 * zlen s + 2.
Proof.
  intros Hkw. induction fuel as [|fuel IH]; intros s Hs Hf Hsize; [lia|]. cbn [tokenize_loop].
  destruct (skip_ws_total s rest Hs) as (w & s1 & -> & Hw & Hb). cbn [mbind option_bind].
  destruct (after_nonzero s w s1 Hs Hw) as (Hs1 & Hw0 & Hlen). pose proof (zlen_nonneg s1). pose proof (zlen_nonneg rest).
  set (mk := fun k n => Token k n (s1 ++ 0 :: rest) (Some (size - zlen (s1 ++ 0 :: rest))) (s ++ 0 :: rest) (zlen (s ++ 0 :: rest) - zlen (s1 ++ 0 :: rest))).
  assert (forall k n, 1 <= n -> (k <> CCL_TOK_EOL -> n <= zlen s1) -> tok_ok (mk k n) /\ placed size (mk k n)) as Hmk.
  { intros k n Hn1 Hn. split.
    - split; [intros Hk; exists s1, rest; split; [done|]; split; [done|]; specialize (Hn Hk); cbn [mk t_len]; lia|]. split; [done|].
      destruct Hw as (pre & -> & <-). exists pre, (s1 ++ 0 :: rest). cbn [mk t_ws_buf t_ws_len]. split; [by rewrite <- app_assoc|]. split; [zl|].
      by apply Forall_app in Hs as [? _].
    - eexists. split; [done|]. zl. }
  assert (zlen (s ++ 0 :: rest) - zlen (s1 ++ 0 :: rest) = w) as Hws by zl.
  destruct (decide (s1 = [])) as [E|Hne].
  - subst s1. cbn [app] in *. unfold scan_token. rewrite rd_0. cbn [mbind option_bind Z.eqb].
    rewrite bool_decide_eq_true_2 by done. destruct (Hmk CCL_TOK_EOL 1 ltac:(lia) ltac:(done)) as [Ht1 Ht2].
    eexists. split; [done|]. split; [done|]. split; [by apply Forall_singleton|]. split; [by apply Forall_singleton|]. split.
    + intros [|i] t; [intros [= <-]; done|]. done.
    + cbn [tsizes fold_right t_len t_ws_len]. rewrite Hws. rewrite zlen_nil in *. lia.
  - destruct (scan_token_total p s1 rest Hkw Hs1 Hne Hb) as (k & n & s2 & -> & Hk & Ha & Hn). cbn [mbind option_bind].
    rewrite bool_decide_eq_false_2 by done. destruct (after_nonzero s1 n s2 Hs1 Ha) as (Hs2 & _ & Hlen2). pose proof (zlen_nonneg s2).
    destruct (IH s2 Hs2) as (ts & -> & Hne' & Hok & Hpl & Hlast & Hsz); [unfold zlen in *; lia|zl|]. cbn [mbind option_bind].
    destruct (Hmk k n Hn ltac:(lia)) as [Ht1 Ht2]. eexists. split; [done|]. split; [done|]. split; [by constructor|]. split; [by constructor|]. split.
    + intros [|i] t; cbn [lookup list_lookup length].
      * intros [= <-]. cbn [t_kind]. split; [done|]. destruct ts; [done|]. cbn [length]. lia.
      * intros Ht. rewrite (Hlast i t Ht). lia.
    + cbn [tsizes fold_right t_len t_ws_len]. fold (tsizes ts). rewrite Hws. lia.
Qed.



(** ** What the profile must not have *)

Definition ordered_profile : ccl_qualifiers :=
  Bibset [Qualifier 0 (str "date" ++ [0]) [] [Attr None 2 (CCL_RPN_ATTR_NUMERIC CCL_BIB1_REL_ORDER)]] [] 1.

(** The relation is written to the node of a proximity, where the distance is
    taken for a list of attributes. *)
Lemma ordered_proximity : ccl_find_str (Some ordered_profile) (str "date>a%b" ++ [0]) = None.
Proof. vm_compute. reflexivity. Qed.

(** On the node of an operator the relation is kept where nothing reads it. *)
Lemma ordered_parentheses : match ccl_find_str (Some ordered_profile) (str "date>(a or b)" ++ [0]) with
  | Some (Some (CCL_RPN_BOOL CCL_RPN_OR (CCL_RPN_TERM _ _ []) (CCL_RPN_TERM _ _ []) [a]), 0, None) => a = Attr None 2 (CCL_RPN_ATTR_NUMERIC 5)
  | _ => False
  end.
Proof. vm_compute. reflexivity. Qed.

Definition combined_profile : ccl_qualifiers :=
  Bibset [Qualifier 2 (str "any" ++ [0]) [Some 0%nat; Some 1%nat] [];
          Qualifier 1 (str "ti" ++ [0]) [] [Attr None 1 (CCL_RPN_ATTR_NUMERIC 4)];
          Qualifier 0 (str "au" ++ [0]) [] [Attr None 1 (CCL_RPN_ATTR_NUMERIC 1003); Attr None 5 (CCL_RPN_ATTR_NUMERIC CCL_BIB1_TRU_CAN_RIGHT)]] [] 3.

(** An error under the second alias frees the tree of the first, which is then
    returned, and the error is forgotten. *)
Lemma freed_tree : ccl_find_str (Some combined_profile) (str "any=war?" ++ [0]) = Some (Some CCL_FREED, 0, None).
Proof. vm_compute. reflexivity. Qed.
