(* ===== verification/WrbufIconv.v ===== *)
(** * Writing through a conversion (wrbuf.c)

    The functions of wrbuf.c that convert what they write, over the interfaces of
    the conversion engine and of the buffers: what is written is the text in the
    target character set, escaped as the writer escapes it, although it passes
    through a buffer of 128 octets. *)

From stdpp Require Import base list numbers option strings.
From Stdlib Require Import ZArith Lia.
From S2P Require Import Prelude Text Iconv Utf8 Ucs4 Wrbuf.

(** ** Writing through a conversion *)

Section iconv_write.
Context {D E : Type} (d : yaz_iconv_decoder_s D) (e : yaz_iconv_encoder_s E).
Context (wfunc : list Z -> Z -> WRBUF unit).

(** The [while (inbytesleft)] of [wrbuf_iconv_write2], with its buffer of 128
    octets: the value, the conversion and the buffer. *)
Fixpoint iconv_write_loop (fuel : nat) (cd : yaz_iconv_struct D E) (inp : list Z) (inbytesleft : Z)
    (b : wrbuf) : option (Z * yaz_iconv_struct D E * wrbuf) :=
  match fuel with
  | O => None
  | S fuel =>
      if inbytesleft =? 0 then Some (0, cd, b) else
      let? (r, cd, inb, outb) := yaz_iconv d e cd (Some (inp, inbytesleft)) (Some ([], 128)) in
      let? (inp, inbytesleft) := inb in
      let? (out, _) := outb in
      if (r =? SIZE_MAX) && negb (yaz_iconv_error cd =? YAZ_ICONV_E2BIG) then Some (-1, cd, b)
      else
        let? (_, b) := wfunc out (zlen out) b in
        iconv_write_loop fuel cd inp inbytesleft b
  end.

Definition wrbuf_iconv_write2 (cd : option (yaz_iconv_struct D E)) (buf : list Z) (size : Z) (b : wrbuf)
  : option (Z * option (yaz_iconv_struct D E) * wrbuf) :=
  match cd with
  | Some cd =>
      let? (ret, cd, b) := iconv_write_loop (S (Z.to_nat size)) cd buf size b in Some (ret, Some cd, b)
  | None => let? (_, b) := wfunc buf size b in Some (0, None, b)
  end.

(** The writer [wfunc] escapes octet by octet. *)
Context (g : Z -> list Z).
Context (Hw : forall s rest, bytes_ok s -> appends (wfunc (s ++ rest) (zlen s)) (concat (map g s))).
Context `{!CharsetDecoder d} `{!CharsetEncoder e}.
Context (Hwidth : forall x, zlen (ek_bytes x) <= 128) (Hbytes : forall x, ek_ok x -> bytes_ok (ek_bytes x)).

Lemma target_bytes xs : text_ok d e xs -> bytes_ok (target e xs).
Proof.
  induction 1 as [|x xs [_ Hx] _ IH]; [constructor|]. unfold target. cbn [map concat].
  apply Forall_app. split; [by apply Hbytes|done].
Qed.

Lemma iconv_write_converts fuel : forall cd xs tail b,
  text_ok d e xs -> (init_flag cd = 0 -> pending d cd xs) -> (xs <> [] -> starts_ok d cd xs) ->
  zlen (source d xs) < 2 ^ 64 - 1 -> (length xs < fuel)%nat -> wrbuf_ok b ->
  exists cd' b', iconv_write_loop fuel cd (source d xs ++ tail) (zlen (source d xs)) b = Some (0, cd', b') /\
    wrbuf_ok b' /\ contents b' = contents b ++ concat (map g (target e xs)).
Proof.
  induction fuel as [|fuel IH]; intros cd xs tail b Hok Hp Hs Hlen Hf Hb; [lia|]. cbn [iconv_write_loop].
  pose proof (source_length d e xs Hok) as Hsl.
  destruct (Z.eqb_spec (zlen (source d xs)) 0) as [Hz|Hz].
  { destruct xs; [|simpl in Hsl; lia]. exists cd, b. split; [done|]. split; [done|]. by rewrite app_nil_r. }
  assert (xs <> []) as Hne by by intros ->.
  destruct (yaz_iconv_converts d e cd xs tail [] 128 Hok Hp (Hs Hne)) as
    (r & cd' & ys & zs & Hx & Ey & Hp' & Hfl & Hr & Hend); [lia..|].
  rewrite Ey. cbn [mbind option_bind app].
  assert (zlen (source d xs) = zlen (source d ys) + zlen (source d zs)) as Esrc.
  { subst xs. unfold source. by rewrite map_app, concat_app, zlen_app. }
  pose proof (zlen_nonneg (source d ys)) as Hyn. pose proof (zlen_nonneg (source d zs)) as Hzn.
  assert ((r =? SIZE_MAX) && negb (yaz_iconv_error cd' =? YAZ_ICONV_E2BIG) = false) as ->.
  { destruct zs as [|z zs].
    - assert (r <> SIZE_MAX) as Hne' by (unfold SIZE_MAX; lia). by rewrite (proj2 (Z.eqb_neq _ _) Hne').
    - destruct Hend as (-> & Herr & _). unfold yaz_iconv_error. by rewrite Herr, !Z.eqb_refl. }
  assert (text_ok d e ys /\ text_ok d e zs) as [Hoky Hokz] by (subst xs; by apply Forall_app).
  destruct (Hw (target e ys) [] (target_bytes ys Hoky) b Hb) as ([] & b1 & Eb & Hb1 & Hc1).
  rewrite app_nil_r in Eb. rewrite Eb. cbn [mbind option_bind].
  assert (ys <> []) as Hys.
  { intros ->. destruct zs as [|z zs]; [by subst xs|]. destruct Hend as (_ & _ & Hroom).
    change (zlen (target e [])) with 0 in Hroom. specialize (Hwidth z). lia. }
  destruct (IH cd' zs tail b1 Hokz (fun _ => Hp')) as (cd2 & b2 & E2 & Hb2 & Hc2).
  - intros _ Hi. congruence.
  - lia.
  - subst xs. rewrite length_app in Hf. destruct ys; [done|]. simpl in Hf. lia.
  - done.
  - exists cd2, b2. split; [done|]. split; [done|]. rewrite Hc2, Hc1, <- app_assoc. f_equal.
    subst xs. unfold target. by rewrite map_app, concat_app, map_app, concat_app.
Qed.
End iconv_write.

(** [wrbuf_iconv_write], [wrbuf_iconv_write_cdata], [wrbuf_iconv_json_write] and
    [wrbuf_iconv_write_x] *)
Definition wrbuf_iconv_write {D E} (d : yaz_iconv_decoder_s D) (e : yaz_iconv_encoder_s E) :=
  wrbuf_iconv_write2 d e wrbuf_write.
Definition wrbuf_iconv_write_cdata {D E} (d : yaz_iconv_decoder_s D) (e : yaz_iconv_encoder_s E) :=
  wrbuf_iconv_write2 d e wrbuf_xmlputs_n.
Definition wrbuf_iconv_json_write {D E} (d : yaz_iconv_decoder_s D) (e : yaz_iconv_encoder_s E) :=
  wrbuf_iconv_write2 d e wrbuf_json_write.
Definition wrbuf_iconv_write_x {D E} (d : yaz_iconv_decoder_s D) (e : yaz_iconv_encoder_s E) cd buf size (cdata : Z) :=
  wrbuf_iconv_write2 d e (if cdata =? 0 then wrbuf_write else wrbuf_xmlputs_n) cd buf size.

(** [wrbuf_iconv_puts], [wrbuf_iconv_putchar] and [wrbuf_iconv_json_puts] *)
Definition wrbuf_iconv_puts {D E} (d : yaz_iconv_decoder_s D) (e : yaz_iconv_encoder_s E) cd (strz : list Z) (b : wrbuf) :=
  let? n := strlen strz in wrbuf_iconv_write d e cd strz n b.
Definition wrbuf_iconv_putchar {D E} (d : yaz_iconv_decoder_s D) (e : yaz_iconv_encoder_s E) cd (ch : Z) (b : wrbuf) :=
  wrbuf_iconv_write d e cd [u8 ch] 1 b.
Definition wrbuf_iconv_json_puts {D E} (d : yaz_iconv_decoder_s D) (e : yaz_iconv_encoder_s E) cd (strz : list Z) (b : wrbuf) :=
  let? n := strlen strz in wrbuf_iconv_json_write d e cd strz n b.

(** The flush of a conversion into a buffer of 16 octets. *)
Definition wrbuf_iconv_reset {D E} (d : yaz_iconv_decoder_s D) (e : yaz_iconv_encoder_s E)
    (cd : option (yaz_iconv_struct D E)) (b : wrbuf) : option (option (yaz_iconv_struct D E) * wrbuf) :=
  match cd with
  | Some cd =>
      let? (r, cd, _, outb) := yaz_iconv d e cd None (Some ([], 16)) in
      let? (out, _) := outb in
      if negb (r =? SIZE_MAX)
      then let? (_, b) := wrbuf_write out (zlen out) b in Some (Some cd, b)
      else Some (Some cd, b)
  | None => Some (None, b)
  end.

(** ** Properties *)

Lemma utf8_bytes x : 0 < x < 2 ^ 31 -> bytes_ok (utf8 x).
Proof.
  intros Hx. assert (forall lead m k, 0 <= lead -> lead + m <= 256 -> x < m * 64 ^ Z.of_nat k ->
    bytes_ok (utf8_form lead x k)) as Hf.
  { intros lead m k Hl Hm Hk. constructor.
    - assert (0 <= x / 64 ^ Z.of_nat k) by (apply Z.div_pos; lia).
      assert (x / 64 ^ Z.of_nat k < m) by (apply Z.div_lt_upper_bound; lia). unfold byte_ok. lia.
    - eapply Forall_impl; [apply utf8_tail_ok|]. apply cont_byte. }
  unfold utf8.
  destruct (Z.ltb_spec x 0x80); [repeat constructor; lia|].
  destruct (Z.ltb_spec x 0x800); [apply (Hf _ 32); lia|].
  destruct (Z.ltb_spec x 0x10000); [apply (Hf _ 16); lia|].
  destruct (Z.ltb_spec x 0x200000); [apply (Hf _ 8); lia|].
  destruct (Z.ltb_spec x 0x4000000); [apply (Hf _ 4); lia|apply (Hf _ 2); lia].
Qed.

(** [wrbuf_iconv_write_cdata] of a UCS-4 text through a new conversion to UTF-8
    returns 0 and adds the text's UTF-8, escaped for XML, to the buffer, however
    long it is; and [wrbuf_iconv_json_write] adds it escaped for JSON. *)
Theorem wrbuf_iconv_escapes (xs tail : list Z) (n0 x0 : Z) (b : wrbuf) :
  Forall (fun x => 0 < x < 2 ^ 31) xs -> zlen xs < 2 ^ 61 -> wrbuf_ok b ->
  let cd := yaz_iconv_fresh tt tt n0 x0 in
  (exists cd' b', wrbuf_iconv_write_cdata ucs4_decoder utf8_encoder (Some cd)
      (ucs4_text xs ++ tail) (zlen (ucs4_text xs)) b = Some (0, cd', b') /\
    contents b' = contents b ++ xml_escape (utf8_text xs)) /\
  (exists cd' b', wrbuf_iconv_json_write ucs4_decoder utf8_encoder (Some cd)
      (ucs4_text xs ++ tail) (zlen (ucs4_text xs)) b = Some (0, cd', b') /\
    contents b' = contents b ++ json_escape (utf8_text xs)).
Proof.
  intros Hxs Hlen Hb cd.
  assert (zlen (ucs4_text xs) = 4 * zlen xs) as Hz.
  { clear. induction xs as [|x xs IH]; [done|]. cbn [ucs4_text map concat]. rewrite zlen_app, zlen_cons.
    change (zlen (ucs4 x)) with 4. unfold ucs4_text in IH. lia. }
  assert (text_ok ucs4_decoder utf8_encoder xs) as Hok by (eapply Forall_impl; [exact Hxs|done]).
  assert (forall x, zlen (ek_bytes (e := utf8_encoder) x) <= 128) as Hwd.
  { intros x. pose proof (utf8_length x). simpl. lia. }
  assert (forall x, ek_ok (e := utf8_encoder) x -> bytes_ok (ek_bytes (e := utf8_encoder) x)) as Hby
    by (intros x Hx; by apply utf8_bytes).
  assert (xs <> [] -> starts_ok ucs4_decoder cd xs) as Hst.
  { intros Hne _. destruct xs as [|x xs']; [done|]. by exists x, xs'. }
  split.
  - destruct (iconv_write_converts ucs4_decoder utf8_encoder wrbuf_xmlputs_n xml_octet
      wrbuf_xmlputs_n_spec Hwd Hby (S (Z.to_nat (zlen (ucs4_text xs)))) cd xs tail b)
      as (cd' & b' & E & Hb' & Hc); [done|done|done| | |done|].
    + change (source ucs4_decoder xs) with (ucs4_text xs). lia.
    + unfold zlen in *. lia.
    + exists (Some cd'), b'. split; [|exact Hc]. unfold wrbuf_iconv_write_cdata, wrbuf_iconv_write2.
      change (source ucs4_decoder xs) with (ucs4_text xs) in E. by rewrite E.
  - destruct (iconv_write_converts ucs4_decoder utf8_encoder wrbuf_json_write json_octet
      wrbuf_json_write_spec Hwd Hby (S (Z.to_nat (zlen (ucs4_text xs)))) cd xs tail b)
      as (cd' & b' & E & Hb' & Hc); [done|done|done| | |done|].
    + change (source ucs4_decoder xs) with (ucs4_text xs). lia.
    + unfold zlen in *. lia.
    + exists (Some cd'), b'. split; [|exact Hc]. unfold wrbuf_iconv_json_write, wrbuf_iconv_write2.
      change (source ucs4_decoder xs) with (ucs4_text xs) in E. by rewrite E.
Qed.

(** A small buffer. *)
Definition small_wrbuf : wrbuf := mkWrbuf [0; 0] 0 1 (fun _ => 0).

Lemma wrbuf_iconv_escapes_witness :
  let cd := yaz_iconv_fresh tt tt 5 5 in
  (exists cd' b', wrbuf_iconv_write_cdata ucs4_decoder utf8_encoder (Some cd)
      (ucs4_text [0x3c; 0x20ac] ++ []) (zlen (ucs4_text [0x3c; 0x20ac])) small_wrbuf = Some (0, cd', b') /\
    contents b' = contents small_wrbuf ++ xml_escape (utf8_text [0x3c; 0x20ac])) /\
  (exists cd' b', wrbuf_iconv_json_write ucs4_decoder utf8_encoder (Some cd)
      (ucs4_text [0x3c; 0x20ac] ++ []) (zlen (ucs4_text [0x3c; 0x20ac])) small_wrbuf = Some (0, cd', b') /\
    contents b' = contents small_wrbuf ++ json_escape (utf8_text [0x3c; 0x20ac])).
Proof.
  apply (wrbuf_iconv_escapes [0x3c; 0x20ac] [] 5 5 small_wrbuf);
    [repeat constructor; lia|reflexivity|split; simpl; unfold zlen; simpl; lia].
Defined.
