(* ===== verification/Json.v ===== *)
(** * JSON (json.c)

    The tree of json.c, its parser and its writer.  A [double] is left abstract,
    with the two functions of the C library that the code applies to it: [strtod]
    and the [%lg] of [printf].

    The nodes are immutable here: a node given to [json_parser_subst] stands for
    itself in the tree, and [json_remove_node] has no effect on the model. *)

From stdpp Require Import base list numbers option strings.
From Stdlib Require Import ZArith Lia.
From S2P Require Import Prelude Text MatchStr Iconv Utf8 Wrbuf.

(** ** Data *)

(** The members of the union that a type of node uses. *)
#[local] Unset Elimination Schemes.
Inductive json_node (double : Type) :=
| json_node_object (link0 : option (json_node double))
| json_node_array (link0 : option (json_node double))
| json_node_list (link0 link1 : option (json_node double))
| json_node_pair (link0 link1 : option (json_node double))
| json_node_string (s : list Z)
| json_node_number (number : double)
| json_node_true
| json_node_false
| json_node_null.
#[local] Set Elimination Schemes.
#[global] Arguments json_node_object {double} _.
#[global] Arguments json_node_array {double} _.
#[global] Arguments json_node_list {double} _ _.
#[global] Arguments json_node_pair {double} _ _.
#[global] Arguments json_node_string {double} _.
#[global] Arguments json_node_number {double} _.
#[global] Arguments json_node_true {double}.
#[global] Arguments json_node_false {double}.
#[global] Arguments json_node_null {double}.

Section json.
Context {double : Type}.
(** [strtod]: the value and [endptr - nptr]; the text [%lg] prints. *)
Context (strtod : list Z -> double * Z) (fmt_lg : double -> list Z).
Abbreviation node := (json_node double).

Record json_parser_s := mkParser {
  js_buf : list Z;
  js_cp : list Z;
  err_msg : option (list Z);
  parse_level : Z;
  max_level : Z;
  js_subst : list (Z * node) }.
Abbreviation P := (M json_parser_s).

Definition set_cp (x : list Z) (p : json_parser_s) : json_parser_s :=
  mkParser (js_buf p) x (err_msg p) (parse_level p) (max_level p) (js_subst p).
Definition set_err_msg (x : list Z) (p : json_parser_s) : json_parser_s :=
  mkParser (js_buf p) (js_cp p) (Some x) (parse_level p) (max_level p) (js_subst p).
Definition set_level (x : Z) (p : json_parser_s) : json_parser_s :=
  mkParser (js_buf p) (js_cp p) (err_msg p) x (max_level p) (js_subst p).

(** ** The parser *)

(** [buf], [cp] and [subst] are null; the other members are set by a parse. *)
Definition json_parser_create (e : option (list Z)) (l m : Z) : json_parser_s := mkParser [] [] e l m [].

Fixpoint subst_set (l : list (Z * node)) (idx : Z) (n : node) : list (Z * node) :=
  match l with
  | [] => [(idx, n)]
  | (i, m) :: l => if i =? idx then (i, n) :: l else (i, m) :: subst_set l idx n
  end.
Definition json_parser_subst (idx : Z) (n : node) (p : json_parser_s) : json_parser_s :=
  mkParser (js_buf p) (js_cp p) (err_msg p) (parse_level p) (max_level p) (subst_set (js_subst p) idx n).

(** [p->err_msg = ..; return 0;] *)
Definition fail {A} (msg : list Z) : P (option A) := modify (set_err_msg msg) ;; ret None.

Fixpoint skip_blank (cp : list Z) : option (list Z) :=
  match cp with
  | [] => None
  | c :: cp' => if negb (c =? 0) && strchr [32; 9; 13; 10] c then skip_blank cp' else Some cp
  end.

Definition look_ch : P Z :=
  let* p := get in
  let* cp := lift (skip_blank (js_cp p)) in
  put (set_cp cp p) ;;
  lift (rd cp 0).

Definition move_ch : P unit :=
  let* p := get in
  let* c := lift (rd (js_cp p) 0) in
  if negb (c =? 0) then put (set_cp (drop 1 (js_cp p)) p) else ret tt.

(** [sscanf(s, "%4x%n", &code, &no_read)]: blanks, then a sign, a prefix [0x] and
    digits in at most four characters; the code, when one was stored, and the number
    of characters that were read. *)
Definition hex_value (c : Z) : option Z :=
  if (48 <=? c) && (c <=? 57) then Some (c - 48)
  else if (97 <=? c) && (c <=? 102) then Some (c - 87)
  else if (65 <=? c) && (c <=? 70) then Some (c - 55)
  else None.
Fixpoint scan_hex (s : list Z) (width : nat) (v n : Z) {struct width} : option (Z * Z) :=
  match width with
  | O => Some (v, n)
  | S width =>
      match s with
      | [] => None
      | c :: s =>
          match hex_value c with
          | Some d => scan_hex s width (v * 16 + d) (n + 1)
          | None => Some (v, n)
          end
      end
  end.
Fixpoint scan_blank (s : list Z) (n : Z) : option (list Z * Z) :=
  match s with
  | [] => None
  | c :: s' =>
      if (c =? 32) || ((9 <=? c) && (c <=? 13)) then scan_blank s' (n + 1) else Some (s, n)
  end.
Definition scanf_4x (s : list Z) : option (option Z * Z) :=
  let? (s, w) := scan_blank s 0 in
  let? c := rd s 0 in
  let sign := if (c =? 43) || (c =? 45) then 1 else 0 in
  let s := drop (Z.to_nat sign) s in
  let? c0 := rd s 0 in
  let? prefix :=
    (if c0 =? 48 then let? c1 := rd s 1 in Some (if (c1 =? 120) || (c1 =? 88) then 2 else 0)
     else Some 0) in
  let? (v, n) := scan_hex (drop (Z.to_nat prefix) s) (Z.to_nat (4 - sign - prefix)) 0 0 in
  Some (if n =? 0 then (None, 0)
        else (Some (u32 (if c =? 45 then - v else v)), w + sign + prefix + n)).

(** [p[0][i] > 0], for [k] characters. *)
Fixpoint all_positive (p : list Z) (k : nat) {struct k} : option bool :=
  match k with
  | O => Some true
  | S k =>
      match p with
      | [] => None
      | c :: p => if 0 <? s8 c then all_positive p k else Some false
      end
  end.

(** [json_one_char]: the octets of [out] and [*p] after them, [None] for the
    return value 0. *)
Definition json_one_char (p : list Z) : option (option (list Z * list Z)) :=
  let plain c p1 := if (0 <? s8 c) && (s8 c <=? 31) then Some None else Some (Some ([c], p1)) in
  match p with
  | [] => None
  | c :: p1 =>
      if c =? 92 then
        match p1 with
        | [] => None
        | e :: p2 =>
            if e =? 0 then plain c p1
            else if e =? 34 then Some (Some ([34], p2))
            else if e =? 92 then Some (Some ([92], p2))
            else if e =? 47 then Some (Some ([47], p2))
            else if e =? 98 then Some (Some ([8], p2))
            else if e =? 102 then Some (Some ([12], p2))
            else if e =? 110 then Some (Some ([10], p2))
            else if e =? 114 then Some (Some ([13], p2))
            else if e =? 116 then Some (Some ([9], p2))
            else if e =? 117 then
              let? ok := all_positive p2 4 in
              if ok : bool then
                let? (code, no_read) := scanf_4x p2 in
                if negb (no_read =? 4) then Some None else
                let? code := code in
                let '(r, out, _, _) := yaz_write_UTF8_char code 6 0 in
                if r =? 0 then Some (Some (out, drop 4 p2)) else Some None
              else Some None
            else Some None
        end
      else plain c p1
  end.

(** The loop over the characters of a string: what it stops at is a quote or the
    terminator. The code runs it twice, to count and to copy. *)
Fixpoint string_chars (fuel : nat) (cp acc : list Z) : option (option (list Z * list Z)) :=
  match fuel with
  | O => None
  | S fuel =>
      let? c := rd cp 0 in
      if (c =? 0) || (c =? 34) then Some (Some (acc, cp)) else
      let? r := json_one_char cp in
      match r with
      | None => Some None
      | Some (out, cp) => string_chars fuel cp (acc ++ out)
      end
  end.

Definition json_parse_string : P (option node) :=
  let* c := look_ch in
  if negb (c =? 34) then fail (str "string expected") else
  move_ch ;;
  let* p := get in
  let* r := lift (string_chars (S (length (js_cp p))) (js_cp p) []) in
  match r with
  | None => fail (str "invalid character")
  | Some (s, cp) =>
      let* c := lift (rd cp 0) in
      if c =? 0 then fail (str "missing " ++ [34]) else
      put (set_cp (drop 1 cp) p) ;;
      ret (Some (json_node_string s))
  end.

(** [while ( *cp >= '0' && *cp <= '9') cp++;] *)
Fixpoint skip_digits (cp : list Z) : option (list Z) :=
  match cp with
  | [] => None
  | c :: cp' => if yaz_isdigit c then skip_digits cp' else Some cp
  end.

(** The end of the number at [cp] in the grammar, [None] for a bad number. *)
Definition skip_digits1 (cp : list Z) : option (option (list Z)) :=
  let? c := rd cp 0 in
  if yaz_isdigit c then Some <$> skip_digits cp else Some None.
Definition number_end (cp : list Z) : option (option (list Z)) :=
  let? c := rd cp 0 in
  let cp := if c =? 45 then drop 1 cp else cp in
  let? c := rd cp 0 in
  let? r := (if c =? 48 then Some (Some (drop 1 cp))
             else if (49 <=? c) && (c <=? 57) then Some <$> skip_digits (drop 1 cp)
             else Some None) in
  match r with
  | None => Some None
  | Some cp =>
      let? c := rd cp 0 in
      let? r := (if c =? 46 then skip_digits1 (drop 1 cp) else Some (Some cp)) in
      match r with
      | None => Some None
      | Some cp =>
          let? c := rd cp 0 in
          if (c =? 101) || (c =? 69) then
            let cp := drop 1 cp in
            let? c := rd cp 0 in
            skip_digits1 (if (c =? 43) || (c =? 45) then drop 1 cp else cp)
          else Some (Some cp)
      end
  end.

Definition json_parse_number : P (option node) :=
  let* p := get in
  let* r := lift (number_end (js_cp p)) in
  match r with
  | None => fail (str "bad number")
  | Some cp =>
      let '(v, n) := strtod (js_cp p) in
      if n =? 0 then fail (str "bad number")
      else if negb (n =? zlen (js_cp p) - zlen cp) then fail (str "bad number")
      else
        put (set_cp (drop (Z.to_nat n) (js_cp p)) p) ;;
        ret (Some (json_node_number v))
  end.

(** The index after ['%'], an [int]: more digits than fit are undefined. *)
Fixpoint subst_index (cp : list Z) (idx : Z) : option (Z * list Z) :=
  match cp with
  | [] => None
  | c :: cp' =>
      if yaz_isdigit c then
        if idx * 10 + (c - 48) <=? INT_MAX then subst_index cp' (idx * 10 + (c - 48)) else None
      else Some (idx, cp)
  end.

Fixpoint subst_find (l : list (Z * node)) (idx : Z) : option node :=
  match l with
  | [] => None
  | (i, n) :: l => if i =? idx then Some n else subst_find l idx
  end.

(** The letters of a token, at most seven. *)
Fixpoint token (cp : list Z) (room : nat) : option (list Z * list Z) :=
  match cp with
  | [] => None
  | c :: cp' =>
      match room with
      | O => Some ([], cp)
      | S room =>
          if yaz_islower c then let? (t, r) := token cp' room in Some (c :: t, r)
          else Some ([], cp)
      end
  end.

(** The chain of list nodes of some values. *)
Fixpoint chain (l : list node) : option node :=
  match l with
  | [] => None
  | n :: l => Some (json_node_list (Some n) (chain l))
  end.

(** The loop of [json_parse_elements] and of [json_parse_members]. *)
Fixpoint more_items (item : P (option node)) (fuel : nat) (acc : list node) : P (option (list node)) :=
  match fuel with
  | O => fault
  | S fuel =>
      let* c := look_ch in
      if c =? 44 then
        move_ch ;;
        let* n := item in
        match n with
        | None => ret None
        | Some n => more_items item fuel (acc ++ [n])
        end
      else ret (Some acc)
  end.
Definition items (item : P (option node)) (fuel : nat) : P (option node) :=
  let* n := item in
  match n with
  | None => ret None
  | Some n =>
      let* l := more_items item fuel [n] in
      ret (match l with Some l => chain l | None => None end)
  end.

Section value.
(** [json_parse_value] one level down, and the bound for the loops. *)
Context (parse_value : P (option node)) (fuel : nat).

Definition json_parse_elements : P (option node) := items parse_value fuel.

Definition json_parse_array : P (option node) :=
  let* c := look_ch in
  if negb (c =? 91) then fail (str "expecting [") else
  move_ch ;;
  let* p := get in
  if max_level p <=? parse_level p then fail (str "Too much nesting") else
  modify (set_level (parse_level p + 1)) ;;
  let* c := look_ch in
  let* link0 := (if negb (c =? 93) then json_parse_elements else ret None) in
  let* q := get in
  put (set_level (parse_level q - 1) q) ;;
  let* c := look_ch in
  if negb (c =? 93) then
    let* q := get in
    match err_msg q with
    | None => fail (str "expecting ]")
    | Some _ => ret None
    end
  else move_ch ;; ret (Some (json_node_array link0)).

Definition json_parse_pair : P (option node) :=
  let* s := json_parse_string in
  match s with
  | None => ret None
  | Some s =>
      let* c := look_ch in
      if negb (c =? 58) then fail (str "missing :") else
      move_ch ;;
      let* v := parse_value in
      match v with
      | None => ret None
      | Some v => ret (Some (json_node_pair (Some s) (Some v)))
      end
  end.

Definition json_parse_members : P (option node) := items json_parse_pair fuel.

Definition json_parse_object : P (option node) :=
  let* c := look_ch in
  if negb (c =? 123) then fail (str "{ expected") else
  move_ch ;;
  let finish link0 :=
    let* c := look_ch in
    if negb (c =? 125) then fail (str "Missing }")
    else move_ch ;; ret (Some (json_node_object link0)) in
  let* c := look_ch in
  if negb (c =? 125) then
    let* p := get in
    if max_level p <=? parse_level p then fail (str "Too much nesting") else
    modify (set_level (parse_level p + 1)) ;;
    let* m := json_parse_members in
    let* q := get in
    put (set_level (parse_level q - 1) q) ;;
    match m with
    | None => ret None
    | Some m => finish (Some m)
    end
  else finish None.
End value.

Fixpoint json_parse_value (fuel : nat) : P (option node) :=
  match fuel with
  | O => fault
  | S fuel =>
      let bad := fail (str "bad token") in
      let* c := look_ch in
      if c =? 34 then json_parse_string
      else if strchr (str "0123456789-") c then json_parse_number
      else if c =? 123 then json_parse_object (json_parse_value fuel) fuel
      else if c =? 91 then json_parse_array (json_parse_value fuel) fuel
      else if c =? 37 then
        let* p := get in
        let* (idx, cp) := lift (subst_index (drop 1 (js_cp p)) 0) in
        put (set_cp cp p) ;;
        match subst_find (js_subst p) idx with
        | Some n => ret (Some n)
        | None => bad
        end
      else if c =? 0 then ret None
      else
        let* p := get in
        let* (tok, cp) := lift (token (js_cp p) 7) in
        put (set_cp cp p) ;;
        if bool_decide (tok = str "true") then ret (Some json_node_true)
        else if bool_decide (tok = str "false") then ret (Some json_node_false)
        else if bool_decide (tok = str "null") then ret (Some json_node_null)
        else bad
  end.

(** [json_parser_parse]: more levels of calls than there are characters are not
    needed. *)
Definition json_parser_parse (json_str : list Z) : P (option node) :=
  modify (fun p => mkParser json_str json_str None 0 1000 (js_subst p)) ;;
  let* n := json_parse_value (S (S (length json_str))) in
  match n with
  | None => ret None
  | Some n =>
      let* p := get in
      match err_msg p with
      | Some _ => ret None
      | None =>
          let* c := look_ch in
          if negb (c =? 0) then fail (str "extra characters") else ret (Some n)
      end
  end.

Definition json_parser_get_errmsg (p : json_parser_s) : option (list Z) := err_msg p.
Definition json_parser_get_position (p : json_parser_s) : Z := zlen (js_buf p) - zlen (js_cp p).

(** [json_parse2]: the tree, the error message when there is none, and the
    position. *)
Definition json_parse2 (json_str : list Z) (e : option (list Z)) (l m : Z)
  : option (option node * option (list Z) * Z) :=
  let? (n, p) := json_parser_parse json_str (json_parser_create e l m) in
  Some (n, match n with None => json_parser_get_errmsg p | Some _ => None end, json_parser_get_position p).

(** ** The writer *)

Definition json_indent (indent : Z) : WRBUF unit :=
  let* b := get in
  let l := wr_pos b in
  let* nl := (if l =? 0 then ret true
              else let* c := lift (rd (wr_buf b) (l - 1)) in ret (c =? 10)) in
  if nl : bool then each_octet wrbuf_putc (spaces indent) else ret tt.

Fixpoint json_write_wrbuf_r (n : node) (indent : Z) : WRBUF unit :=
  let sub_indent := if 0 <=? indent then indent + 2 else -1 in
  let pretty (m : WRBUF unit) := if 0 <=? indent then m else ret tt in
  (** a link that the code does not test is dereferenced *)
  let link l i := match l with Some n => json_write_wrbuf_r n i | None => fault end in
  match n with
  | json_node_object l =>
      json_indent indent ;;
      wrbuf_lit [123] ;;
      match l with
      | Some n =>
          pretty (wrbuf_lit [10] ;; json_indent sub_indent) ;;
          json_write_wrbuf_r n sub_indent ;;
          pretty (wrbuf_lit [10] ;; json_indent indent)
      | None => ret tt
      end ;;
      wrbuf_lit [125]
  | json_node_array l =>
      json_indent indent ;;
      wrbuf_lit [91] ;;
      match l with
      | Some n =>
          pretty (wrbuf_lit [10]) ;;
          json_write_wrbuf_r n sub_indent ;;
          pretty (wrbuf_lit [10] ;; json_indent indent)
      | None => ret tt
      end ;;
      wrbuf_lit [93]
  | json_node_list l0 l1 =>
      link l0 indent ;;
      match l1 with
      | Some n =>
          wrbuf_lit [44] ;;
          pretty (wrbuf_lit [10]) ;;
          json_write_wrbuf_r n indent
      | None => ret tt
      end
  | json_node_pair l0 l1 =>
      pretty (json_indent indent) ;;
      link l0 indent ;;
      wrbuf_lit [58] ;;
      pretty (wrbuf_lit [32]) ;;
      link l1 indent
  | json_node_string s => wrbuf_lit [34] ;; wrbuf_json_puts (s ++ [0]) ;; wrbuf_lit [34]
  | json_node_number v => wrbuf_printf (fmt_lg v)
  | json_node_true => wrbuf_lit (str "true")
  | json_node_false => wrbuf_lit (str "false")
  | json_node_null => wrbuf_lit (str "null")
  end.

Definition json_write_wrbuf_pretty (n : node) : WRBUF unit := json_write_wrbuf_r n 0.
Definition json_write_wrbuf (n : node) : WRBUF unit := json_write_wrbuf_r n (-1).

(** ** Access to a tree *)

(** The octets before the first zero: what [strcmp] sees of a string. *)
Fixpoint until_zero (s : list Z) : list Z :=
  match s with
  | [] => []
  | c :: s => if c =? 0 then [] else c :: until_zero s
  end.

(** The search of [json_get_objectp] along the list nodes. *)
Fixpoint find_pair (n : node) (name : list Z) : option (option node) :=
  match n with
  | json_node_list c next =>
      let rest := match next with Some n => find_pair n name | None => None end in
      match c with
      | Some (json_node_pair (Some (json_node_string s)) v) =>
          if bool_decide (name = until_zero s) then Some v else rest
      | _ => rest
      end
  | _ => None
  end.
Definition json_get_object (n : option node) (name : list Z) : option node :=
  match n with
  | Some (json_node_object (Some l)) => match find_pair l name with Some v => v | None => None end
  | _ => None
  end.

Fixpoint get_elem (n : node) (idx : Z) : option node :=
  match n with
  | json_node_list c next =>
      if idx - 1 <? 0 then c
      else match next with Some n => get_elem n (idx - 1) | None => None end
  | _ => None
  end.
Definition json_get_elem (n : option node) (idx : Z) : option node :=
  match n with
  | Some (json_node_array (Some l)) => get_elem l idx
  | _ => None
  end.

Fixpoint chain_length (n : node) : Z :=
  match n with
  | json_node_list _ (Some next) => 1 + chain_length next
  | json_node_list _ None => 1
  | _ => 0
  end.
Definition json_count_children (n : option node) : Z :=
  match n with
  | Some (json_node_array (Some l)) | Some (json_node_object (Some l)) => chain_length l
  | _ => 0
  end.

Fixpoint chain_append (n : node) (m : option node) : node :=
  match n with
  | json_node_list c (Some next) => json_node_list c (Some (chain_append next m))
  | json_node_list c None => json_node_list c m
  | n => n
  end.
(** The value, and the tree at [dst]; [src] is consumed. *)
Definition json_append_array (dst src : option node) : Z * option node :=
  match dst, src with
  | Some (json_node_array l), Some (json_node_array m) =>
      (0, Some (json_node_array (match l with Some l => Some (chain_append l m) | None => m end)))
  | _, _ => (-1, dst)
  end.
End json.
