(* ===== verification/JsonText.v ===== *)
(** * JSON values as texts

    The round trip of json.c: what the writer makes of a value, plain or indented,
    is a text of the value ([renders]), and the parser reads every text of a value
    as the tree of the value. *)

From stdpp Require Import base list numbers option strings.
From Stdlib Require Import ZArith Lia.
From S2P Require Import Prelude Text MatchStr Iconv Utf8 Wrbuf Json.

(** ** Specification *)

#[local] Unset Elimination Schemes.
Inductive json (double : Type) :=
| Jstr (s : list Z)
| Jnum (v : double)
| Jtrue | Jfalse | Jnull
| Jarr (js : list (json double))
| Jobj (ms : list (list Z * json double)).
#[local] Set Elimination Schemes.
#[global] Arguments Jstr {double} _. #[global] Arguments Jnum {double} _.
#[global] Arguments Jtrue {double}. #[global] Arguments Jfalse {double}. #[global] Arguments Jnull {double}.
#[global] Arguments Jarr {double} _. #[global] Arguments Jobj {double} _.

Lemma json_ind {D} (Q : json D -> Prop) :
  (forall s, Q (Jstr s)) -> (forall v, Q (Jnum v)) -> Q Jtrue -> Q Jfalse -> Q Jnull ->
  (forall js, Forall Q js -> Q (Jarr js)) ->
  (forall ms, Forall (fun m => Q m.2) ms -> Q (Jobj ms)) -> forall j, Q j.
Proof.
  intros H1 H2 H3 H4 H5 H6 H7. fix IH 1. intros [s|v| | | |js|ms]; [auto..|apply H6|apply H7].
  - induction js as [|j js IHl]; constructor; [apply IH|exact IHl].
  - induction ms as [|[k j] ms IHl]; constructor; [apply IH|exact IHl].
Qed.

(** White space between tokens. *)
Definition blank (c : Z) : Prop := c = 32 \/ c = 9 \/ c = 13 \/ c = 10.
Definition ws (w : list Z) : Prop := Forall blank w.

(** What may follow a value: the end, white space or punctuation. *)
Definition delim (rest : list Z) : Prop :=
  exists c r, rest = c :: r /\ (c = 0 \/ blank c \/ c = 44 \/ c = 93 \/ c = 125).

Section lists.
Context {X : Type}.

(** Items after the first, each after a comma; and all of them. *)
Fixpoint tail_texts (R : X -> list Z -> Prop) (xs : list X) (bs : list Z) : Prop :=
  match xs with
  | [] => bs = []
  | x :: xs => exists b1 b2, bs = 44 :: b1 ++ b2 /\ R x b1 /\ tail_texts R xs b2
  end.
Definition item_texts (R : X -> list Z -> Prop) (xs : list X) (bs : list Z) : Prop :=
  match xs with
  | [] => bs = []
  | x :: xs => exists b1 b2, bs = b1 ++ b2 /\ R x b1 /\ tail_texts R xs b2
  end.

Definition all (Q : X -> Prop) : list X -> Prop :=
  fix go xs := match xs with [] => True | x :: xs => Q x /\ go xs end.
Definition maximum (f : X -> Z) : list X -> Z :=
  fix go xs := match xs with [] => 0 | x :: xs => Z.max (f x) (go xs) end.
End lists.

Section text.
Context {double : Type} (strtod : list Z -> double * Z) (fmt_lg : double -> list Z).
Abbreviation node := (json_node double).
Implicit Types (j : json double) (w rest : list Z).

(** The tree of a value. *)
Fixpoint node_of j : node :=
  match j with
  | Jstr s => json_node_string s
  | Jnum v => json_node_number v
  | Jtrue => json_node_true
  | Jfalse => json_node_false
  | Jnull => json_node_null
  | Jarr js => json_node_array (chain (map node_of js))
  | Jobj ms => json_node_object (chain (map (fun m =>
      json_node_pair (Some (json_node_string m.1)) (Some (node_of m.2))) ms))
  end.
Definition pair_node (m : list Z * json double) : node :=
  json_node_pair (Some (json_node_string m.1)) (Some (node_of m.2)).

Definition quoted (s : list Z) : list Z := 34 :: json_escape s ++ [34].

(** The texts of a value. *)
Fixpoint renders j (bs : list Z) {struct j} : Prop :=
  exists w t, bs = w ++ t /\ ws w /\
  match j with
  | Jstr s => t = quoted s
  | Jnum v => t = fmt_lg v
  | Jtrue => t = str "true"
  | Jfalse => t = str "false"
  | Jnull => t = str "null"
  | Jarr js => exists body w', t = 91 :: body ++ w' ++ [93] /\ ws w' /\ item_texts renders js body
  | Jobj ms => exists body w', t = 123 :: body ++ w' ++ [125] /\ ws w' /\
      item_texts (fun m b => exists w1 b2, b = w1 ++ quoted m.1 ++ 58 :: b2 /\ ws w1 /\ renders m.2 b2) ms body
  end.
Definition renders_pair (m : list Z * json double) (bs : list Z) : Prop :=
  exists w1 b2, bs = w1 ++ quoted m.1 ++ 58 :: b2 /\ ws w1 /\ renders m.2 b2.

(** A number that the C library prints as JSON and reads back from its text. *)
Definition number_ok (v : double) : Prop :=
  nonzero (fmt_lg v) /\ zlen (fmt_lg v) <= 4094 /\
  (exists c t, fmt_lg v = c :: t /\ (c = 45 \/ 48 <= c <= 57)) /\
  forall rest, delim rest ->
    number_end (fmt_lg v ++ rest) = Some (Some rest) /\ strtod (fmt_lg v ++ rest) = (v, zlen (fmt_lg v)).

Definition string_ok (s : list Z) : Prop := bytes_ok s /\ nonzero s.

Fixpoint json_ok j : Prop :=
  match j with
  | Jstr s => string_ok s
  | Jnum v => number_ok v
  | Jarr js => all json_ok js
  | Jobj ms => all (fun m => string_ok m.1 /\ json_ok m.2) ms
  | _ => True
  end.

(** The levels of nesting. *)
Fixpoint depth j : Z :=
  match j with
  | Jarr js => 1 + maximum depth js
  | Jobj ms => 1 + maximum (fun m => depth m.2) ms
  | _ => 0
  end.

(** ** Strings *)

Lemma ctrl_octets :
  Forall (fun c => forall rest, json_one_char (json_octet c ++ rest) = Some (Some ([c], rest)))
    (map Z.of_nat (seq 1 31)).
Proof. repeat (constructor; [intros rest; vm_compute; reflexivity|]). constructor. Qed.

(** A character of a string is read back from its escape. *)
Lemma json_one_char_octet c rest :
  byte_ok c -> c <> 0 -> json_one_char (json_octet c ++ rest) = Some (Some ([c], rest)).
Proof.
  intros Hb Hc. unfold byte_ok in Hb. destruct (Z.ltb_spec c 32).
  - pose proof ctrl_octets as H1. rewrite List.Forall_forall in H1. apply H1.
    apply in_map_iff. exists (Z.to_nat c). split; [lia|]. apply in_seq. lia.
  - unfold json_octet. rewrite (proj2 (Z.ltb_ge c 32)), andb_false_r by lia.
    destruct (Z.eqb_spec c 34) as [->|]; [done|]. destruct (Z.eqb_spec c 92) as [->|]; [done|].
    cbn [app json_one_char]. rewrite (proj2 (Z.eqb_neq c 92)) by done. rewrite s8_byte by done.
    destruct (Z.ltb_spec c 128); repeat ztest1; cbn [andb]; done.
Qed.

Lemma json_octet_head c : c <> 0 -> exists h t, json_octet c = h :: t /\ h <> 0 /\ h <> 34.
Proof.
  intros Hc. unfold json_octet. destruct (_ && _); [by eexists 92, _|].
  destruct (Z.eqb_spec c 34); [by eexists 92, _|]. destruct (Z.eqb_spec c 92); [by eexists 92, _|].
  by exists c, [].
Qed.

Lemma string_chars_escape s : forall fuel acc rest,
  string_ok s -> (length s < fuel)%nat ->
  string_chars fuel (json_escape s ++ 34 :: rest) acc = Some (Some (acc ++ s, 34 :: rest)).
Proof.
  induction s as [|c s IH]; intros [|fuel] acc rest [Hb Hn] Hf; simpl in Hf; try lia.
  { simpl. by rewrite app_nil_r. }
  apply Forall_cons_1 in Hb as [Hbc Hb]. apply Forall_cons_1 in Hn as [Hc Hn].
  change (json_escape (c :: s)) with (json_octet c ++ json_escape s). rewrite <- app_assoc.
  cbn [string_chars]. destruct (json_octet_head c Hc) as (h & t & E & Hh0 & Hh34).
  assert (rd (json_octet c ++ json_escape s ++ 34 :: rest) 0 = Some h) as -> by by rewrite E.
  cbn [mbind option_bind]. rewrite (proj2 (Z.eqb_neq h 0)), (proj2 (Z.eqb_neq h 34)) by done. cbn [orb].
  rewrite json_one_char_octet by done. cbn [mbind option_bind].
  rewrite IH by (try split; try done; lia). by rewrite <- app_assoc.
Qed.

Lemma json_escape_length s : (length s <= length (json_escape s))%nat.
Proof.
  induction s as [|c s IH]; [done|]. change (json_escape (c :: s)) with (json_octet c ++ json_escape s).
  rewrite length_app. assert (1 <= length (json_octet c))%nat; [|simpl; lia].
  unfold json_octet. repeat destruct (_ =? _); destruct (_ && _); simpl; lia.
Qed.

(** ** Tokens *)

Abbreviation st := (mkParser (double := double)).

Lemma skip_blank_ws w c rest :
  ws w -> ~ blank c -> skip_blank (w ++ c :: rest) = Some (c :: rest).
Proof.
  intros Hw Hc. induction Hw as [|x w Hx Hw IH].
  - simpl. destruct (Z.eqb_spec c 0) as [->|]; [done|]. cbn [negb andb]. unfold strchr.
    cbn [existsb app]. unfold blank in Hc.
    rewrite !(proj2 (Z.eqb_neq c _)) by lia. done.
  - cbn [app skip_blank]. destruct Hx as [->|[->|[->| ->]]]; exact IH.
Qed.

Lemma look_ch_ws bf w c rest e l m s :
  ws w -> ~ blank c ->
  look_ch (st bf (w ++ c :: rest) e l m s) = Some (c, st bf (c :: rest) e l m s).
Proof.
  intros Hw Hc. unfold look_ch. mrun. cbn [js_cp]. rewrite skip_blank_ws by done. done.
Qed.

Lemma look_ch_at bf c rest e l m s :
  ~ blank c -> look_ch (st bf (c :: rest) e l m s) = Some (c, st bf (c :: rest) e l m s).
Proof. intros H. apply (look_ch_ws bf [] c); [constructor|done]. Qed.

Lemma move_ch_at bf c rest e l m s :
  c <> 0 -> move_ch (st bf (c :: rest) e l m s) = Some (tt, st bf rest e l m s).
Proof.
  intros H. unfold move_ch. mrun. cbn [js_cp]. rewrite rd_0. mrun.
  by rewrite (proj2 (Z.eqb_neq c 0)).
Qed.

(** White space, then a known character. *)
Ltac at_char :=
  erewrite bind_Some by
    first [ apply look_ch_at; first [assumption|unfold blank; lia]
          | apply look_ch_ws; [eassumption|first [assumption|unfold blank; lia]] ].
Ltac past := erewrite bind_Some by (apply move_ch_at; lia).

Lemma parse_string_quoted bf w s rest e l m sb :
  ws w -> string_ok s ->
  json_parse_string (st bf (w ++ quoted s ++ rest) e l m sb)
    = Some (Some (json_node_string s), st bf rest e l m sb).
Proof.
  intros Hw Hs. unfold quoted. cbn [app]. unfold json_parse_string. at_char. rewrite Z.eqb_refl. cbn [negb].
  past. mrun. cbn [js_cp]. rewrite <- app_assoc. cbn [app].
  rewrite string_chars_escape; [|done|rewrite length_app; pose proof (json_escape_length s); lia].
  mrun. rewrite rd_0. mrun. done.
Qed.

Lemma parse_number_at bf v rest e l m sb :
  number_ok v -> delim rest ->
  json_parse_number strtod (st bf (fmt_lg v ++ rest) e l m sb)
    = Some (Some (json_node_number v), st bf rest e l m sb).
Proof.
  intros (_ & _ & (c & t & Hc & _) & Hv) Hd. destruct (Hv rest Hd) as [E1 E2].
  unfold json_parse_number. mrun. cbn [js_cp]. rewrite E1. mrun. rewrite E2.
  assert (1 <= zlen (fmt_lg v)) by (rewrite Hc, zlen_cons; pose proof (zlen_nonneg t); lia).
  rewrite (proj2 (Z.eqb_neq _ 0)) by lia. rewrite zlen_app.
  replace (zlen (fmt_lg v) + zlen rest - zlen rest) with (zlen (fmt_lg v)) by lia. rewrite Z.eqb_refl. cbn [negb].
  unfold zlen at 1. rewrite Nat2Z.id, drop_app_length. done.
Qed.

Lemma delim_not_lower rest : delim rest -> exists c r, rest = c :: r /\ yaz_islower c = false.
Proof.
  intros (c & r & -> & H). exists c, r. split; [done|]. unfold yaz_islower, blank in *.
  destruct (Z.leb_spec 97 c); [|done]. destruct (Z.leb_spec c 122); [|done]. lia.
Qed.

(** The letters of a token, up to what follows it. *)
Lemma token_word t : forall room rest,
  Forall (fun c => yaz_islower c = true) t -> (length t <= room)%nat -> delim rest ->
  token (t ++ rest) room = Some (t, rest).
Proof.
  intros room rest Ht. revert room. induction Ht as [|c t Hc Ht IH]; intros room Hr Hd.
  - destruct (delim_not_lower rest Hd) as (c & r & -> & Hc). destruct room; simpl; [done|]. by rewrite Hc.
  - destruct room as [|room]; [simpl in Hr; lia|]. cbn [app token]. rewrite Hc, IH; [done|simpl in Hr; lia|done].
Qed.

(** ** Lists of items *)

Lemma delim_after {X} (R : X -> list Z -> Prop) xs b2 w close rest :
  tail_texts R xs b2 -> ws w -> close = 93 \/ close = 125 -> delim (b2 ++ w ++ close :: rest).
Proof.
  intros Ht Hw Hc. destruct xs as [|x xs].
  - cbn in Ht. subst b2. destruct Hw as [|c w Hb Hw].
    + exists close, rest. split; [done|]. lia.
    + exists c, (w ++ close :: rest). split; [done|]. by right; left.
  - destruct Ht as (b1 & b2' & -> & _). eexists 44, _. split; [reflexivity|]. by right; right; left.
Qed.

Section items.
Context {X : Type} (item : M (json_parser_s (double := double)) (option node)) (nd : X -> node)
  (R : X -> list Z -> Prop) (n : nat).
Context (bf : list Z) (e : option (list Z)) (l m : Z) (sb : list (Z * node)).

(** The item parser reads a text of each of the items. *)
Definition reads_items (xs : list X) : Prop := forall x b1 rest,
  In x xs -> R x b1 -> delim rest -> (length b1 < n)%nat ->
  item (st bf (b1 ++ rest) e l m sb) = Some (Some (nd x), st bf rest e l m sb).

Lemma more_items_spec xs : forall bs fuel acc w close rest,
  tail_texts R xs bs -> reads_items xs -> ws w -> close = 93 \/ close = 125 ->
  (length bs < n)%nat -> (length bs < fuel)%nat ->
  more_items item fuel acc (st bf (bs ++ w ++ close :: rest) e l m sb)
    = Some (Some (acc ++ map nd xs), st bf (close :: rest) e l m sb).
Proof.
  induction xs as [|x xs IH]; intros bs [|fuel] acc w close rest Ht Hi Hw Hc Hn Hf; try lia.
  - cbn in Ht. subst bs. cbn [app more_items map]. at_char.
    rewrite (proj2 (Z.eqb_neq close 44)) by lia. by rewrite app_nil_r.
  - destruct Ht as (b1 & b2 & -> & Hx & Ht). cbn [app length] in *. rewrite length_app in *.
    cbn [more_items]. at_char. rewrite Z.eqb_refl. past. rewrite <- app_assoc.
    erewrite bind_Some by (apply Hi; [by left|done|by eapply delim_after|lia]). cbv beta iota.
    rewrite (IH b2) by (try done; try lia; intros y ? ? Hy; apply Hi; by right).
    by rewrite <- app_assoc.
Qed.

Lemma items_spec xs bs fuel w close rest :
  xs <> [] -> item_texts R xs bs -> reads_items xs -> ws w -> close = 93 \/ close = 125 ->
  (length bs < n)%nat -> (length bs < fuel)%nat ->
  items item fuel (st bf (bs ++ w ++ close :: rest) e l m sb)
    = Some (chain (map nd xs), st bf (close :: rest) e l m sb).
Proof.
  intros Hne Hb Hi Hw Hc Hn Hf. destruct xs as [|x xs]; [done|]. destruct Hb as (b1 & b2 & -> & Hx & Ht).
  rewrite length_app in *. unfold items. rewrite <- app_assoc.
  erewrite bind_Some by (apply Hi; [by left|done|by eapply delim_after|lia]). cbv beta iota.
  erewrite bind_Some by (eapply (more_items_spec xs); try done; try lia; intros y ? ? Hy; apply Hi; by right).
  done.
Qed.
End items.

(** The first character of a text, after white space. *)
Lemma item_texts_head {X} (R : X -> list Z -> Prop) x xs bs (Q : Z -> Prop) :
  (forall b, R x b -> exists w c t, b = w ++ c :: t /\ ws w /\ Q c) ->
  item_texts R (x :: xs) bs -> exists w c t, bs = w ++ c :: t /\ ws w /\ Q c.
Proof.
  intros H (b1 & b2 & -> & Hx & _). destruct (H b1 Hx) as (w & c & t & -> & Hw & Hq).
  exists w, c, (t ++ b2). rewrite <- app_assoc. done.
Qed.

Lemma renders_head j bs :
  json_ok j -> renders j bs ->
  exists w c t, bs = w ++ c :: t /\ ws w /\ ~ blank c /\ c <> 93 /\ c <> 0.
Proof.
  intros Hok Hr. unfold blank.
  destruct j; destruct Hr as (w & t & -> & Hw & Ht); try subst t;
    try (eexists w, _, _; split; [reflexivity|split; [done|lia]]).
  - destruct Hok as (_ & _ & (c & t & E & Hc) & _). rewrite E. eexists w, c, t. split; [done|]. split; [done|lia].
  - exists w, 116, (str "rue"). split; [done|]. split; [done|lia].
  - exists w, 102, (str "alse"). split; [done|]. split; [done|lia].
  - exists w, 110, (str "ull"). split; [done|]. split; [done|lia].
  - destruct Ht as (body & w' & -> & _). eexists w, _, _. split; [reflexivity|split; [done|lia]].
  - destruct Ht as (body & w' & -> & _). eexists w, _, _. split; [reflexivity|split; [done|lia]].
Qed.

Lemma all_Forall {X} (Q : X -> Prop) xs : all Q xs <-> Forall Q xs.
Proof.
  induction xs as [|x xs IH]; cbn; [by split|]. rewrite IH. split.
  - intros [H1 H2]. by constructor.
  - intros H. by apply Forall_cons_1 in H.
Qed.

Lemma maximum_In {X} (f : X -> Z) x xs : In x xs -> f x <= maximum f xs.
Proof. induction xs as [|y xs IH]; [done|]. cbn. intros [->|H]; [lia|]. specialize (IH H). lia. Qed.

Lemma maximum_nonneg {X} (f : X -> Z) xs : 0 <= maximum f xs.
Proof. induction xs; cbn; lia. Qed.

(** ** The parser *)

(** What [json_parse_value] does on a text of [j]. *)
Definition parses j (n : nat) : Prop := forall bf bs rest e l m sb,
  renders j bs -> delim rest -> (length bs < n)%nat -> json_ok j -> l + depth j <= m -> 0 <= l ->
  json_parse_value strtod n (st bf (bs ++ rest) e l m sb)
    = Some (Some (node_of j), st bf rest e l m sb).

Lemma strchr_false s c : c <> 0 -> ~ In c s -> strchr s c = false.
Proof.
  intros H0 Hc. unfold strchr. destruct (existsb _ _) eqn:E; [|done]. exfalso.
  apply existsb_exists in E as (x & Hx & Heq%Z.eqb_eq). subst x.
  apply in_app_or in Hx as [Hx|[Hx|[]]]; [by apply Hc|congruence].
Qed.

Lemma digits_strchr c : c = 45 \/ 48 <= c <= 57 -> strchr (str "0123456789-") c = true.
Proof.
  intros Hc. unfold strchr. apply existsb_exists. exists c. split; [|apply Z.eqb_refl].
  assert (In c [48; 49; 50; 51; 52; 53; 54; 55; 56; 57; 45]) as H by (simpl; lia).
  apply in_or_app. by left.
Qed.

Lemma not_digits_strchr c : c <> 0 -> c <> 45 -> ~ 48 <= c <= 57 -> strchr (str "0123456789-") c = false.
Proof.
  intros H0 H1 H2. apply strchr_false; [done|].
  change (str "0123456789-") with [48; 49; 50; 51; 52; 53; 54; 55; 56; 57; 45]. simpl. lia.
Qed.

(** The literals. *)
Lemma parse_word c t n bf w rest e l m sb :
  ws w -> delim rest -> 97 <= c <= 122 -> Forall (fun c => yaz_islower c = true) (c :: t) ->
  (length (c :: t) <= 7)%nat ->
  json_parse_value strtod (S n) (st bf (w ++ (c :: t) ++ rest) e l m sb)
    = (if bool_decide (c :: t = str "true") then ret (Some json_node_true)
       else if bool_decide (c :: t = str "false") then ret (Some json_node_false)
       else if bool_decide (c :: t = str "null") then ret (Some json_node_null)
       else fail (str "bad token")) (st bf rest e l m sb).
Proof.
  intros Hw Hd Hc Hl Hn. cbn [json_parse_value]. cbn [app]. at_char. cbv beta zeta.
  rewrite not_digits_strchr by lia. rewrite !(proj2 (Z.eqb_neq c _)) by lia.
  mrun. cbn [js_cp]. pose proof (token_word (c :: t) 7 rest Hl Hn Hd) as Htok. cbn [app] in Htok.
  rewrite Htok. mrun. done.
Qed.
(** White space before a value or a member does not matter. *)
Lemma parse_value_skip f bf w c t e l m sb :
  ws w -> ~ blank c ->
  json_parse_value strtod f (st bf (w ++ c :: t) e l m sb) = json_parse_value strtod f (st bf (c :: t) e l m sb).
Proof.
  intros Hw Hc. destruct f as [|f]; [done|]. cbn [json_parse_value]. cbv zeta.
  erewrite bind_Some by by apply look_ch_ws. erewrite bind_Some by by apply look_ch_at. done.
Qed.

Lemma parse_pair_skip pv bf w c t e l m sb :
  ws w -> ~ blank c ->
  json_parse_pair pv (st bf (w ++ c :: t) e l m sb) = json_parse_pair pv (st bf (c :: t) e l m sb).
Proof.
  intros Hw Hc. unfold json_parse_pair, bind at 1 3.
  assert (json_parse_string (st bf (w ++ c :: t) e l m sb) = json_parse_string (st bf (c :: t) e l m sb)) as ->; [|done].
  unfold json_parse_string. erewrite bind_Some by by apply look_ch_ws. by erewrite bind_Some by by apply look_ch_at.
Qed.

Lemma items_same (item : M (json_parser_s (double := double)) (option node)) f p p' :
  item p = item p' -> items item f p = items item f p'.
Proof. intros H. unfold items, bind. by rewrite H. Qed.

Lemma pair_head x b : renders_pair x b -> exists w c t, b = w ++ c :: t /\ ws w /\ c = 34.
Proof. intros (w1 & b2 & -> & Hw & _). unfold quoted. by eexists w1, 34, _. Qed.

(** The items between the brackets, from where [look_ch] has stopped. *)
Lemma items_between {X} (item : M (json_parser_s (double := double)) (option node)) (nd : X -> node)
    (R : X -> list Z -> Prop) x xs f bf w' close rest e l m sb body w1 c t :
  (forall w c t, ws w -> ~ blank c ->
     item (st bf (w ++ c :: t) e l m sb) = item (st bf (c :: t) e l m sb)) ->
  body = w1 ++ c :: t -> ws w1 -> ~ blank c ->
  item_texts R (x :: xs) body -> reads_items item nd R f bf e l m sb (x :: xs) ->
  ws w' -> close = 93 \/ close = 125 -> (length body < f)%nat ->
  items item f (st bf ((c :: t) ++ w' ++ close :: rest) e l m sb)
    = Some (chain (map nd (x :: xs)), st bf (close :: rest) e l m sb).
Proof.
  intros Hskip E Hw1 Hc Hb Hi Hw Hcl Hf.
  rewrite <- (items_spec item nd R f bf e l m sb (x :: xs) body f w' close rest) by done.
  apply items_same. rewrite E, <- app_assoc. cbn [app]. symmetry. by apply Hskip.
Qed.

Lemma set_level_st x bf cp e l m sb : set_level x (st bf cp e l m sb) = st bf cp e x m sb.
Proof. done. Qed.

Lemma parses_array js n : (forall j f, In j js -> parses j f) -> parses (Jarr js) n.
Proof.
  intros IH bf bs rest e l m sb (w & t & -> & Hw & body & w' & -> & Hw' & Hb) Hd Hn Hok Hl Hl0.
  destruct n as [|f]; [lia|]. cbn in Hok, Hl. apply all_Forall in Hok. rewrite List.Forall_forall in Hok.
  rewrite !length_app in Hn. cbn [length] in Hn. rewrite !length_app in Hn. cbn [length] in Hn.
  pose proof (maximum_nonneg depth js) as Hmx.
  rewrite <- app_assoc. cbn [app]. rewrite <- !app_assoc. cbn [app].
  cbn [json_parse_value]. at_char. cbv beta zeta.
  change (91 =? 34) with false. rewrite not_digits_strchr by lia. cbn [Z.eqb Pos.eqb].
  unfold json_parse_array. at_char. rewrite Z.eqb_refl. cbn [negb]. past. mrun. cbn [max_level parse_level].
  rewrite (proj2 (Z.leb_gt m l)) by lia. mrun. rewrite set_level_st.
  destruct js as [|j js].
  - cbn in Hb. subst body. cbn [app]. at_char. rewrite Z.eqb_refl. cbn [negb]. mrun.
    cbn [parse_level]. rewrite set_level_st. unfold put, bind at 1.
    at_char. rewrite Z.eqb_refl. cbn [negb]. past. unfold ret. repeat f_equal. lia.
  - destruct (item_texts_head renders j js body (fun c => ~ blank c /\ c <> 93)) as (w1 & c & t & E & Hw1 & Hc & Hc93).
    { intros b Hr. destruct (renders_head j b (Hok j (or_introl eq_refl)) Hr) as (w1 & c & t & H1 & H2 & H3 & H4 & _).
      by exists w1, c, t. }
    { done. }
    rewrite E, <- app_assoc. cbn [app]. at_char. rewrite (proj2 (Z.eqb_neq c 93)) by done. cbn [negb].
    unfold json_parse_elements.
    erewrite bind_Some.
    2: { eapply (items_between _ node_of renders j js); [intros; by apply parse_value_skip|exact E|done..| |done|by left|].
         - intros x b1 rest' Hx Hr Hd' Hlen. apply IH; try done; [by apply Hok| |lia].
           pose proof (maximum_In depth x (j :: js) Hx). lia.
         - lia. }
    mrun. cbn [parse_level]. rewrite set_level_st. unfold put, bind at 1.
    at_char. rewrite Z.eqb_refl. cbn [negb]. past. unfold ret. repeat f_equal. lia.
Qed.
(** A member is read by [json_parse_pair]. *)
Lemma parses_pair f bf e l m sb x b1 rest :
  parses x.2 f -> string_ok x.1 -> json_ok x.2 -> l + depth x.2 <= m -> 0 <= l ->
  renders_pair x b1 -> delim rest -> (length b1 < f)%nat ->
  json_parse_pair (json_parse_value strtod f) (st bf (b1 ++ rest) e l m sb)
    = Some (Some (pair_node x), st bf rest e l m sb).
Proof.
  intros IH Hs Hok Hl Hl0 (w1 & b2 & -> & Hw1 & Hr) Hd Hn. rewrite !length_app in Hn. cbn [length] in Hn.
  unfold json_parse_pair. rewrite <- !app_assoc. cbn [app].
  erewrite bind_Some by by apply parse_string_quoted. cbv beta iota.
  at_char. rewrite Z.eqb_refl. cbn [negb]. past.
  erewrite bind_Some by (apply IH; try done; lia). done.
Qed.

Lemma parses_object ms n : (forall x f, In x ms -> parses x.2 f) -> parses (Jobj ms) n.
Proof.
  intros IH bf bs rest e l m sb (w & t & -> & Hw & body & w' & -> & Hw' & Hb) Hd Hn Hok Hl Hl0.
  destruct n as [|f]; [lia|]. cbn in Hok, Hl. apply all_Forall in Hok. rewrite List.Forall_forall in Hok.
  rewrite !length_app in Hn. cbn [length] in Hn. rewrite !length_app in Hn. cbn [length] in Hn.
  pose proof (maximum_nonneg (fun x => depth x.2) ms) as Hmx.
  rewrite <- app_assoc. cbn [app]. rewrite <- !app_assoc. cbn [app].
  cbn [json_parse_value]. at_char. cbv beta zeta.
  change (123 =? 34) with false. rewrite not_digits_strchr by lia. cbn [Z.eqb Pos.eqb].
  unfold json_parse_object. at_char. rewrite Z.eqb_refl. cbn [negb]. past. cbv zeta.
  destruct ms as [|x ms].
  - cbn in Hb. subst body. cbn [app]. at_char. rewrite Z.eqb_refl. cbn [negb].
    at_char. rewrite Z.eqb_refl. cbn [negb]. past. done.
  - destruct (item_texts_head renders_pair x ms body (fun c => c = 34)) as (w1 & c & t & E & Hw1 & ->);
      [apply pair_head|exact Hb|].
    rewrite E, <- app_assoc. cbn [app]. at_char. change (34 =? 125) with false. cbn [negb].
    mrun. cbn [max_level parse_level]. rewrite (proj2 (Z.leb_gt m l)) by lia. mrun. rewrite set_level_st.
    unfold json_parse_members. erewrite bind_Some.
    2: { eapply (items_between _ pair_node renders_pair x ms); [|exact E|done| |exact Hb| |done|by right|lia].
         - intros. by apply parse_pair_skip.
         - unfold blank. lia.
         - intros y b1 rest' Hy Hr Hd' Hlen. destruct (Hok y Hy) as [Hs Hj].
           apply parses_pair; try done; [by apply IH| |lia].
           pose proof (maximum_In (fun x => depth x.2) y (x :: ms) Hy) as Hm. cbv beta in Hm. lia. }
    mrun. cbn [parse_level]. rewrite set_level_st. unfold put, bind at 1. cbv beta iota.
    cbn [map chain]. at_char. rewrite Z.eqb_refl. cbn [negb]. past. unfold ret. repeat f_equal. lia.
Qed.

Lemma json_parses j : forall n, parses j n.
Proof.
  induction j as [s|v| | | |js IH|ms IH] using json_ind; intros n;
    [intros bf bs rest e l m sb (w & t & -> & Hw & ->) Hd Hn Hok Hl Hl0..| |];
    [destruct n as [|f]; [lia|]; rewrite <- app_assoc..| |].
  - cbn [json_parse_value]. unfold quoted. cbn [app]. at_char. cbn [Z.eqb Pos.eqb].
    apply (parse_string_quoted bf [] s); [constructor|done].
  - destruct Hok as (H1 & H2 & (c & t & E & Hc) & H4) eqn:Hok'. clear Hok'.
    cbn [json_parse_value]. rewrite E. cbn [app].
    erewrite bind_Some by (apply look_ch_ws; [done|unfold blank; lia]). cbv zeta.
    rewrite (proj2 (Z.eqb_neq c 34)), digits_strchr by lia.
    change (c :: t ++ rest) with ((c :: t) ++ rest). rewrite <- E. by apply parse_number_at.
  - apply (parse_word 116 (str "rue")); [done|done|lia|repeat constructor|simpl; lia].
  - apply (parse_word 102 (str "alse")); [done|done|lia|repeat constructor|simpl; lia].
  - apply (parse_word 110 (str "ull")); [done|done|lia|repeat constructor|simpl; lia].
  - apply parses_array. intros j f Hj. rewrite List.Forall_forall in IH. by apply IH.
  - apply parses_object. intros x f Hx. rewrite List.Forall_forall in IH. by apply (IH x Hx).
Qed.

(** [json_parser_parse] of a text of [j] followed by white space. *)
Lemma json_parser_parse_renders j bs w rest p :
  renders j bs -> ws w -> json_ok j -> depth j <= 1000 ->
  json_parser_parse strtod (bs ++ w ++ 0 :: rest) p
    = Some (Some (node_of j), st (bs ++ w ++ 0 :: rest) (0 :: rest) None 0 1000 (js_subst p)).
Proof.
  intros Hr Hw Hok Hd. unfold json_parser_parse. mrun.
  erewrite bind_Some by (apply json_parses; try done; [|rewrite length_app; lia]; 
    destruct Hw as [|c w Hc Hw]; [exists 0, rest; by split; [|left]|eexists c, _; split; [reflexivity|by right; left]]).
  cbv beta iota. mrun. cbn [err_msg].
  erewrite bind_Some by (apply look_ch_ws; [done|unfold blank; lia]). done.
Qed.
(** ** The writer *)

(** The operation adds octets that satisfy [R] to the contents. *)
Definition outputs {A} (m : WRBUF A) (R : list Z -> Prop) : Prop :=
  forall b, wrbuf_ok b -> exists a b' bs,
    m b = Some (a, b') /\ wrbuf_ok b' /\ contents b' = contents b ++ bs /\ R bs.

Lemma outputs_appends {A} (m : WRBUF A) bs (R : list Z -> Prop) : appends m bs -> R bs -> outputs m R.
Proof. intros H HR b Hb. destruct (H b Hb) as (a & b' & E & Hb' & Hc). by exists a, b', bs. Qed.

Lemma outputs_bind {A B} (m : WRBUF A) (k : A -> WRBUF B) (R1 R2 R : list Z -> Prop) :
  outputs m R1 -> (forall a, outputs (k a) R2) ->
  (forall b1 b2, R1 b1 -> R2 b2 -> R (b1 ++ b2)) -> outputs (bind m k) R.
Proof.
  intros H1 H2 HR b Hb. destruct (H1 b Hb) as (a & b1 & bs1 & E1 & Hb1 & Hc1 & HR1).
  destruct (H2 a b1 Hb1) as (a2 & b2 & bs2 & E2 & Hb2 & Hc2 & HR2).
  exists a2, b2, (bs1 ++ bs2). rewrite (bind_Some _ _ _ _ _ E1), Hc2, Hc1, app_assoc. auto.
Qed.

Lemma outputs_lit {B} s (m : WRBUF B) (R R' : list Z -> Prop) :
  nonzero s -> outputs m R' -> (forall bs, R' bs -> R (s ++ bs)) -> outputs (wrbuf_lit s ;; m) R.
Proof.
  intros Hs Hm HR. eapply (outputs_bind _ _ (eq s) R'); [|done|by intros ? ? <- ?; apply HR].
  by eapply outputs_appends; [apply appends_lit|].
Qed.

Lemma each_putc_spaces n : appends (each_octet wrbuf_putc (spaces n)) (spaces n).
Proof.
  eapply appends_eq; [|apply (appends_each wrbuf_putc (fun c => [u8 c]))]; [|intros; apply appends_putc].
  unfold spaces. induction (Z.to_nat n); simpl; [done|by f_equal].
Qed.

Lemma ws_spaces n : ws (spaces n).
Proof. unfold spaces, ws. induction (Z.to_nat n); constructor; [by left|done]. Qed.

Lemma outputs_indent i : outputs (json_indent i) ws.
Proof.
  intros b Hb. unfold json_indent. mrun. cbv zeta.
  destruct (each_putc_spaces i b Hb) as (a & b' & E & Hb' & Hc).
  destruct (Z.eqb_spec (wr_pos b) 0); mrun.
  { destruct a. exists tt, b', (spaces i). split; [done|]. split; [done|]. split; [done|apply ws_spaces]. }
  destruct (rd_Some (wr_buf b) (wr_pos b - 1)) as [c ->]; [destruct Hb; lia|].
  rewrite bind_assoc. mrun. destruct (c =? 10).
  - destruct a. exists tt, b', (spaces i). split; [exact E|]. split; [exact Hb'|]. split; [exact Hc|apply ws_spaces].
  - exists tt, b, []. split; [done|]. split; [done|]. rewrite app_nil_r. split; [done|constructor].
Qed.

Lemma outputs_pretty (c : bool) (m : WRBUF unit) : outputs m ws -> outputs (if c then m else ret tt) ws.
Proof.
  intros H. destruct c; [done|]. eapply outputs_appends; [apply appends_ret|constructor].
Qed.

Lemma ws_app w1 w2 : ws w1 -> ws w2 -> ws (w1 ++ w2).
Proof. intros. by apply Forall_app. Qed.

Lemma outputs_newline i : outputs (wrbuf_lit [10] ;; json_indent i) ws.
Proof.
  eapply outputs_lit; [by repeat constructor|apply outputs_indent|].
  intros bs H. apply (ws_app [10]); [constructor; [by right; right; right|constructor]|done].
Qed.

(** White space in front keeps a text a text. *)
Lemma renders_ws j w bs : ws w -> renders j bs -> renders j (w ++ bs).
Proof.
  intros Hw. destruct j; intros (w1 & t & -> & Hw1 & Ht);
    (exists (w ++ w1), t; split; [by rewrite app_assoc|]; split; [by apply ws_app|done]).
Qed.

Lemma renders_pair_ws x w bs : ws w -> renders_pair x bs -> renders_pair x (w ++ bs).
Proof.
  intros Hw (w1 & b2 & -> & Hw1 & Hr). exists (w ++ w1), b2. rewrite app_assoc.
  split; [done|]. split; [by apply ws_app|done].
Qed.

(** A chain of items: each is written after a comma and white space. *)
Lemma outputs_chain {X} (nd : X -> node) (R : X -> list Z -> Prop) i :
  (forall x w bs, ws w -> R x bs -> R x (w ++ bs)) ->
  forall xs n, Forall (fun x => outputs (json_write_wrbuf_r fmt_lg (nd x) i) (R x)) xs ->
  chain (map nd xs) = Some n -> outputs (json_write_wrbuf_r fmt_lg n i) (item_texts R xs).
Proof.
  intros HR xs. induction xs as [|x xs IH]; intros n Hxs; [done|].
  apply Forall_cons_1 in Hxs as [Hx Hxs]. cbn [map chain]. intros [= <-]. cbn [json_write_wrbuf_r].
  eapply outputs_bind; [exact Hx| |].
  - intros _. instantiate (1 := tail_texts R xs). destruct (chain (map nd xs)) as [n|] eqn:Ec.
    + destruct xs as [|y xs]; [done|]. specialize (IH n Hxs eq_refl).
      eapply outputs_lit; [by repeat constructor| |].
      * eapply (outputs_bind _ _ ws (item_texts R (y :: xs)));
          [apply outputs_pretty; eapply outputs_appends; [apply appends_lit; by repeat constructor|]|intros _; exact IH|].
        { constructor; [by right; right; right|constructor]. }
        intros w bs Hw Hb. instantiate (1 := item_texts R (y :: xs)).
        destruct Hb as (b1 & b2 & -> & Hy & Ht). exists (w ++ b1), b2. rewrite app_assoc. split; [done|]. split; [by apply HR|done].
      * intros bs (b1 & b2 & -> & Hy & Ht). by exists b1, b2.
    + destruct xs; [|done]. eapply outputs_appends; [apply appends_ret|done].
  - intros b1 b2 H1 H2. by exists b1, b2.
Qed.

(** The brackets around a chain. *)
Lemma outputs_brackets {X} (nd : X -> node) (R : X -> list Z -> Prop) (op cl i : Z) xs (before after : WRBUF unit)
    (m : node -> WRBUF unit) :
  op <> 0 -> cl <> 0 -> outputs before ws -> outputs after ws ->
  (forall x w bs, ws w -> R x bs -> R x (w ++ bs)) ->
  (forall n, chain (map nd xs) = Some n -> outputs (m n) (item_texts R xs)) ->
  outputs (json_indent i ;; wrbuf_lit [op] ;;
          match chain (map nd xs) with
          | Some n => before ;; m n ;; after
          | None => ret tt
          end ;; wrbuf_lit [cl])
    (fun bs => exists w t, bs = w ++ t /\ ws w /\
       exists body w', t = op :: body ++ w' ++ [cl] /\ ws w' /\ item_texts R xs body).
Proof.
  intros Hop Hcl Hbef Haft HR Hm. eapply outputs_bind; [apply outputs_indent| |].
  - intros _. eapply (outputs_lit [op] _ _ (fun bs => exists body w', bs = body ++ w' ++ [cl] /\ ws w' /\ item_texts R xs body));
      [by repeat constructor| |intros bs Hb; instantiate (1 := fun bs => exists body w',
        bs = op :: body ++ w' ++ [cl] /\ ws w' /\ item_texts R xs body);
        destruct Hb as (body & w' & -> & Hb); by exists body, w'].
    eapply (outputs_bind _ _ (fun bs => exists body w', bs = body ++ w' /\ ws w' /\ item_texts R xs body) (eq [cl])).
    + destruct (chain (map nd xs)) as [n|] eqn:Ec.
      * eapply (outputs_bind _ _ ws); [exact Hbef| |].
        { intros _. eapply (outputs_bind _ _ (item_texts R xs) ws); [by apply Hm|by intros _|].
          intros b1 b2 H1 H2. instantiate (1 := fun bs => exists body w', bs = body ++ w' /\ ws w' /\ item_texts R xs body).
          by exists b1, b2. }
        intros w bs Hw (body & w' & -> & Hw' & Hb). destruct xs as [|x xs]; [done|].
        destruct Hb as (b1 & b2 & -> & Hx & Ht). exists ((w ++ b1) ++ b2), w'.
        rewrite !app_assoc. split; [done|]. split; [done|]. exists (w ++ b1), b2. split; [done|]. split; [by apply HR|done].
      * destruct xs; [|done]. eapply outputs_appends; [apply appends_ret|]. exists [], []. by split; [|split; [constructor|]].
    + intros _. by eapply outputs_appends; [apply appends_lit; repeat constructor|].
    + intros b1 b2 (body & w' & -> & Hw & Hb) <-. exists body, w'. by rewrite <- app_assoc.
  - intros w bs Hw (body & w' & -> & Hb). eexists w, _. split; [reflexivity|]. split; [done|]. by exists body, w'.
Qed.
(** The indentation one level down, as the writer computes it. *)
Definition sub_indent (i : Z) : Z := if 0 <=? i then i + 2 else -1.

Lemma outputs_string s : string_ok s ->
  appends (wrbuf_lit [34] ;; wrbuf_json_puts (s ++ [0]) ;; wrbuf_lit [34]) (quoted s).
Proof.
  intros [Hb Hn]. unfold quoted. apply (appends_bind _ _ [34]); [apply appends_lit; by repeat constructor|].
  intros _. apply appends_bind; [by apply wrbuf_json_puts_spec|]. intros _. apply appends_lit. by repeat constructor.
Qed.

(** A member: white space, the name, a colon and the value. *)
Lemma outputs_member x i :
  string_ok x.1 -> (forall i, outputs (json_write_wrbuf_r fmt_lg (node_of x.2) i) (renders x.2)) ->
  outputs (json_write_wrbuf_r fmt_lg (pair_node x) i) (renders_pair x).
Proof.
  intros Hs Hv. cbn [pair_node json_write_wrbuf_r].
  eapply (outputs_bind _ _ ws); [apply outputs_pretty, outputs_indent| |].
  - intros _. eapply (outputs_bind _ _ (eq (quoted x.1)) (fun bs => exists b2, bs = 58 :: b2 /\ renders x.2 b2)).
    + by eapply outputs_appends; [apply outputs_string|].
    + intros _. eapply (outputs_lit [58] _ _ (renders x.2)); [by repeat constructor| |by intros bs Hb; exists bs].
      eapply (outputs_bind _ _ ws (renders x.2)); [|intros _; apply Hv|intros; by apply renders_ws].
      apply outputs_pretty. eapply outputs_appends; [apply appends_lit; by repeat constructor|].
      constructor; [by left|constructor].
    + intros b1 b2 <- (b3 & -> & Hr). instantiate (1 := fun bs => exists b2, bs = quoted x.1 ++ 58 :: b2 /\ renders x.2 b2).
      by exists b3.
  - intros w bs Hw (b2 & -> & Hr). by exists w, b2.
Qed.

Lemma outputs_value j : json_ok j -> forall i, outputs (json_write_wrbuf_r fmt_lg (node_of j) i) (renders j).
Proof.
  induction j as [s|v| | | |js IH|ms IH] using json_ind; intros Hok i; cbn in Hok.
  - eapply outputs_appends; [by apply outputs_string|]. exists [], (quoted s). by split; [|split; [constructor|]].
  - destruct Hok as (Hn & Hl & _). eapply (outputs_appends _ (fmt_lg v)).
    + cbn [node_of json_write_wrbuf_r]. unfold wrbuf_printf. rewrite take_ge by (unfold zlen in Hl; lia).
      by apply appends_lit.
    + exists [], (fmt_lg v). by split; [|split; [constructor|]].
  - eapply outputs_appends; [apply appends_lit; by repeat constructor|]. exists [], (str "true"). by split; [|split; [constructor|]].
  - eapply outputs_appends; [apply appends_lit; by repeat constructor|]. exists [], (str "false"). by split; [|split; [constructor|]].
  - eapply outputs_appends; [apply appends_lit; by repeat constructor|]. exists [], (str "null"). by split; [|split; [constructor|]].
  - apply all_Forall in Hok.
    apply (outputs_brackets node_of renders 91 93 i js (if 0 <=? i then wrbuf_lit [10] else ret tt)
      (if 0 <=? i then wrbuf_lit [10] ;; json_indent i else ret tt)
      (fun n => json_write_wrbuf_r fmt_lg n (sub_indent i))); try done.
    + apply outputs_pretty. eapply outputs_appends; [apply appends_lit; by repeat constructor|].
      constructor; [by right; right; right|constructor].
    + apply outputs_pretty, outputs_newline.
    + intros. by apply renders_ws.
    + intros n Hc. apply (outputs_chain node_of); [intros; by apply renders_ws| |done].
      rewrite List.Forall_forall in *. intros x Hx. by apply IH; [|apply Hok].
  - apply all_Forall in Hok.
    apply (outputs_brackets pair_node renders_pair 123 125 i ms
      (if 0 <=? i then wrbuf_lit [10] ;; json_indent (sub_indent i) else ret tt)
      (if 0 <=? i then wrbuf_lit [10] ;; json_indent i else ret tt)
      (fun n => json_write_wrbuf_r fmt_lg n (sub_indent i))); try done.
    + apply outputs_pretty, outputs_newline.
    + apply outputs_pretty, outputs_newline.
    + intros. by apply renders_pair_ws.
    + intros n Hc. apply (outputs_chain pair_node); [intros; by apply renders_pair_ws| |done].
      rewrite List.Forall_forall in *. intros x Hx. destruct (Hok x Hx) as [Hs Hj].
      apply outputs_member; [done|]. intros i'. by apply IH.
Qed.
(** ** Properties *)

(** C12: a JSON value whose strings are C strings and whose numbers the C library
    reads back from what [%lg] prints, nested at most 1000 levels deep, survives
    the round trip: [json_write_wrbuf], and [json_write_wrbuf_pretty] too, write a
    text that [json_parser_parse] accepts, without an error message, as the tree
    that was written. *)
Theorem json_roundtrip j (pretty : bool) (b : wrbuf) (p : json_parser_s) :
  json_ok j -> depth j <= 1000 -> wrbuf_ok b -> contents b = [] ->
  exists b1 mem b2 p',
    (if pretty then json_write_wrbuf_pretty fmt_lg else json_write_wrbuf fmt_lg) (node_of j) b = Some (tt, b1) /\
    wrbuf_cstr b1 = Some (mem, b2) /\
    json_parser_parse strtod mem p = Some (Some (node_of j), p') /\
    json_parser_get_errmsg p' = None.
Proof.
  intros Hok Hd Hb Hc.
  assert (outputs ((if pretty then json_write_wrbuf_pretty fmt_lg else json_write_wrbuf fmt_lg) (node_of j)) (renders j)) as Hw
    by (destruct pretty; by apply outputs_value).
  destruct (Hw b Hb) as ([] & b1 & bs & E1 & Hb1 & Hc1 & Hr).
  destruct (wrbuf_cstr_spec b1 Hb1) as (rest & b2 & E2 & _ & _).
  rewrite Hc1, Hc in E2. cbn [app] in E2.
  pose proof (json_parser_parse_renders j bs [] rest p Hr ltac:(constructor) Hok Hd) as E3.
  exists b1, (bs ++ 0 :: rest), b2. eexists. split; [done|]. split; [done|]. split; [exact E3|done].
Qed.
End text.

(** Whole numbers for [double]: [strtod] and [%lg] of the numbers of up to six
    digits, which [%lg] prints without an exponent. *)
Definition int_strtod (s : list Z) : Z * Z :=
  let go := fix go s v n := match s with
                            | c :: s => if yaz_isdigit c then go s (v * 10 + (c - 48)) (n + 1) else (v, n)
                            | [] => (v, n)
                            end in
  go s 0 0.

Definition sample_json : json Z :=
  Jobj [(str "a", Jarr [Jnum 42; Jtrue; Jstr (str "x" ++ [10; 34; 7])]); (str "b", Jobj []); (str "c", Jnull)].

Lemma string_okb s : forallb (fun c => (0 <? c) && (c <? 256)) s = true -> string_ok s.
Proof.
  rewrite forallb_forall. intros H. unfold string_ok, bytes_ok, nonzero. rewrite !List.Forall_forall.
  split; intros c Hc; specialize (H c Hc); apply andb_true_iff in H as [H1%Z.ltb_lt H2%Z.ltb_lt];
    unfold byte_ok; lia.
Qed.

Lemma number_ok_42 : number_ok int_strtod fmt_d 42.
Proof.
  change (number_ok int_strtod fmt_d 42) with
    (nonzero [52; 50] /\ zlen [52; 50] <= 4094 /\
     (exists c t, [52; 50] = c :: t /\ (c = 45 \/ 48 <= c <= 57)) /\
     forall rest, delim rest -> number_end ([52; 50] ++ rest) = Some (Some rest) /\
       int_strtod ([52; 50] ++ rest) = (42, zlen [52; 50])).
  split; [by repeat constructor|]. split; [unfold zlen; simpl; lia|].
  split; [exists 52, [50]; split; [done|lia]|].
  intros rest (c & r & -> & Hc). unfold blank in Hc.
  assert (c = 0 \/ c = 32 \/ c = 9 \/ c = 13 \/ c = 10 \/ c = 44 \/ c = 93 \/ c = 125) as H by lia.
  repeat destruct H as [-> |H]; try subst c; done.
Qed.

Lemma json_roundtrip_witness :
  exists b1 mem b2 p',
    json_write_wrbuf_pretty fmt_d (node_of sample_json) (mkWrbuf [0; 0] 0 1 (fun _ => 0)) = Some (tt, b1) /\
    wrbuf_cstr b1 = Some (mem, b2) /\
    json_parser_parse int_strtod mem (json_parser_create None 0 0) = Some (Some (node_of sample_json), p') /\
    json_parser_get_errmsg p' = None.
Proof.
  apply (json_roundtrip int_strtod fmt_d sample_json true (mkWrbuf [0; 0] 0 1 (fun _ => 0)) (json_parser_create None 0 0)).
  - cbn. repeat (split; try exact number_ok_42; try exact I; try (apply string_okb; reflexivity)).
  - vm_compute. discriminate.
  - split; simpl; unfold zlen; simpl; lia.
  - done.
Defined.
