(* ===== verification/JsonSafe.v ===== *)
(** * Safety of the JSON parser (json.c)

    Whatever C string it is given, the parser ends, never reads past the
    terminator, and reports an error message exactly when it returns no tree.  The
    one thing to exclude is a substitution ([%] and an index), whose digits can
    overflow an [int]. *)

From stdpp Require Import base list numbers option strings.
From Stdlib Require Import ZArith Lia.
From S2P Require Import Prelude Text MatchStr Iconv Utf8 Wrbuf Json JsonText.

(** ** Moving through a string *)

(** [cp'] is reached from [cp] over characters that are not the terminator. *)
Definition reaches (cp cp' : list Z) : Prop := exists pre, cp = pre ++ cp' /\ nonzero pre.

(** A C string without ['%']. *)
Definition cstring (cp : list Z) : Prop := exists s rest, cp = s ++ 0 :: rest /\ nonzero s /\ ~ In 37 s.

Lemma reaches_refl cp : reaches cp cp.
Proof. exists []. split; [done|constructor]. Qed.

Lemma reaches_trans a b c : reaches a b -> reaches b c -> reaches a c.
Proof.
  intros (p & -> & Hp) (q & -> & Hq). exists (p ++ q). rewrite app_assoc. split; [done|]. by apply Forall_app.
Qed.

Lemma reaches_cons c a b : c <> 0 -> reaches a b -> reaches (c :: a) b.
Proof. intros Hc (p & -> & Hp). exists (c :: p). split; [done|by constructor]. Qed.

Lemma reaches_length a b : reaches a b -> (length b <= length a)%nat.
Proof. intros (p & -> & _). rewrite length_app. lia. Qed.

Lemma reaches_cstring a b : reaches a b -> cstring a -> cstring b.
Proof.
  intros (p & -> & Hp) (s & rest & E & Hs & H37). revert s E Hs H37.
  induction Hp as [|c p Hc Hp IH]; intros s E Hs H37; [by exists s, rest|].
  destruct s as [|c' s]; [injection E as ? _; congruence|]. injection E as <- E.
  apply Forall_cons_1 in Hs as [_ Hs]. apply (IH s E Hs). intros H. apply H37. by right.
Qed.

Lemma cstring_cons cp : cstring cp -> exists c r, cp = c :: r /\ (c <> 0 -> c <> 37 /\ cstring r).
Proof.
  intros ([|c s] & rest & -> & Hs & H37); [by exists 0, rest|].
  exists c, (s ++ 0 :: rest). split; [done|]. intros Hc. apply Forall_cons_1 in Hs as [_ Hs].
  split; [intros ->; apply H37; by left|]. exists s, rest. split; [done|]. split; [done|].
  intros H. apply H37. by right.
Qed.

#[export] Hint Resolve reaches_refl : core.

(** ** The scanners *)

Lemma skip_blank_safe cp : cstring cp -> exists cp', skip_blank cp = Some cp' /\ reaches cp cp'.
Proof.
  intros (s & rest & -> & Hs & _). induction Hs as [|c s Hc Hs IH].
  - exists (0 :: rest). split; [done|done].
  - cbn [app skip_blank]. destruct (_ && _); [|by eexists].
    destruct IH as (cp' & -> & H). exists cp'. split; [done|by apply reaches_cons].
Qed.

Lemma skip_digits_safe cp : cstring cp -> exists cp', skip_digits cp = Some cp' /\ reaches cp cp'.
Proof.
  intros (s & rest & -> & Hs & _). induction Hs as [|c s Hc Hs IH].
  - by exists (0 :: rest).
  - cbn [app skip_digits]. destruct (yaz_isdigit c); [|by eexists].
    destruct IH as (cp' & -> & H). exists cp'. split; [done|by apply reaches_cons].
Qed.

Lemma skip_digits1_safe cp : cstring cp ->
  exists r, skip_digits1 cp = Some r /\ forall cp', r = Some cp' -> reaches cp cp'.
Proof.
  intros H. destruct (cstring_cons cp H) as (c & r & -> & Hr). unfold skip_digits1. rewrite rd_0.
  cbn [mbind option_bind]. destruct (yaz_isdigit c) eqn:E; [|by eexists].
  destruct (skip_digits_safe (c :: r) H) as (cp' & -> & Hre). eexists. split; [reflexivity|]. by intros ? [= <-].
Qed.

(** [if ( *cp == x) cp++] *)
Lemma skip_one_safe (t : Z -> bool) c r :
  t 0 = false -> cstring (c :: r) ->
  reaches (c :: r) (if t c then drop 1 (c :: r) else c :: r) /\ cstring (if t c then drop 1 (c :: r) else c :: r).
Proof.
  intros Ht H. destruct (t c) eqn:E; [|done].
  assert (c <> 0) as Hc by (intros ->; congruence).
  assert (reaches (c :: r) r) as Hre by by apply reaches_cons.
  cbn [drop]. rewrite drop_0. split; [done|by eapply reaches_cstring].
Qed.

Lemma digits_after_safe cp cp1 :
  cstring cp1 -> reaches cp cp1 ->
  exists r, skip_digits1 cp1 = Some r /\ forall cp', r = Some cp' -> reaches cp cp'.
Proof.
  intros Hc Hre. destruct (skip_digits1_safe cp1 Hc) as (r & -> & Hr). exists r. split; [done|].
  intros cp' E. eapply reaches_trans; [exact Hre|by apply Hr].
Qed.

Lemma number_end_safe cp : cstring cp ->
  exists r, number_end cp = Some r /\ forall cp', r = Some cp' -> reaches cp cp'.
Proof.
  intros H. unfold number_end. destruct (cstring_cons cp H) as (c & r & -> & _). rewrite rd_0. cbn [mbind option_bind].
  destruct (skip_one_safe (fun c => c =? 45) c r eq_refl H) as [R1 C1]. cbv beta in R1, C1.
  set (cp1 := if c =? 45 then drop 1 (c :: r) else c :: r) in *. clearbody cp1.
  destruct (cstring_cons cp1 C1) as (c1 & r1 & -> & Hc1). rewrite rd_0. cbn [mbind option_bind].
  (* the whole part *)
  assert (exists ip, (if c1 =? 48 then Some (Some (drop 1 (c1 :: r1)))
      else if (49 <=? c1) && (c1 <=? 57) then Some <$> skip_digits (drop 1 (c1 :: r1)) else Some None) = Some ip /\
      forall cp', ip = Some cp' -> reaches (c1 :: r1) cp') as (ip & -> & Hip).
  { cbn [drop]. rewrite drop_0. destruct (Z.eqb_spec c1 48) as [->|].
    - eexists. split; [reflexivity|]. intros ? [= <-]. by apply reaches_cons.
    - destruct (_ && _) eqn:E; [|by eexists].
      apply andb_true_iff in E as [E%Z.leb_le _]. destruct (Hc1 ltac:(lia)) as [_ Hr1].
      destruct (skip_digits_safe r1 Hr1) as (cp' & -> & Hre). eexists. split; [reflexivity|].
      intros ? [= <-]. apply reaches_cons; [lia|done]. }
  cbn [mbind option_bind]. destruct ip as [cp2|]; [|by eexists].
  assert (reaches (c :: r) cp2) as R2 by (eapply reaches_trans; [exact R1|by apply Hip]).
  assert (cstring cp2) as C2 by by eapply reaches_cstring.
  destruct (cstring_cons cp2 C2) as (c2 & r2 & -> & _). rewrite rd_0. cbn [mbind option_bind].
  (* the fraction *)
  assert (exists fp, (if c2 =? 46 then skip_digits1 (drop 1 (c2 :: r2)) else Some (Some (c2 :: r2))) = Some fp /\
      forall cp', fp = Some cp' -> reaches (c :: r) cp') as (fp & -> & Hfp).
  { destruct (skip_one_safe (fun c => c =? 46) c2 r2 eq_refl C2) as [R3 C3]. cbv beta in R3, C3.
    destruct (c2 =? 46); [|by eexists; split; [reflexivity|intros ? [= <-]]].
    apply digits_after_safe; [done|by eapply reaches_trans]. }
  cbn [mbind option_bind]. destruct fp as [cp3|]; [|by eexists].
  specialize (Hfp cp3 eq_refl). assert (cstring cp3) as C3 by by eapply reaches_cstring.
  destruct (cstring_cons cp3 C3) as (c3 & r3 & -> & _). rewrite rd_0. cbn [mbind option_bind].
  (* the exponent *)
  destruct (skip_one_safe (fun c => (c =? 101) || (c =? 69)) c3 r3 eq_refl C3) as [R4 C4]. cbv beta in R4, C4.
  destruct ((c3 =? 101) || (c3 =? 69)); [|by eexists; split; [reflexivity|intros ? [= <-]]].
  destruct (cstring_cons _ C4) as (c4 & r4 & E4 & _). rewrite E4 in *. rewrite rd_0. cbn [mbind option_bind].
  destruct (skip_one_safe (fun c => (c =? 43) || (c =? 45)) c4 r4 eq_refl C4) as [R5 C5]. cbv beta in R5, C5.
  apply digits_after_safe; [done|]. eapply reaches_trans; [exact Hfp|]. by eapply reaches_trans.
Qed.

(** ** Strings *)

Lemma cstring_drop1 c r : cstring (c :: r) -> c <> 0 -> cstring r /\ reaches (c :: r) r.
Proof.
  intros H Hc. assert (reaches (c :: r) r) as Hre by by apply reaches_cons.
  split; [by eapply reaches_cstring|done].
Qed.

Lemma all_positive_safe k : forall p, cstring p ->
  exists ok, all_positive p k = Some ok /\ (ok = true -> reaches p (drop k p)).
Proof.
  induction k as [|k IH]; intros p Hp; [by exists true|].
  destruct (cstring_cons p Hp) as (c & r & -> & _). cbn [all_positive].
  destruct (Z.ltb_spec 0 (s8 c)) as [Hc|]; [|by exists false].
  assert (c <> 0) as Hc0 by (intros ->; vm_compute in Hc; discriminate).
  destruct (cstring_drop1 c r Hp Hc0) as [Hr Hre].
  destruct (IH r Hr) as (ok & -> & Hok). exists ok. split; [done|]. intros E. cbn [drop].
  eapply reaches_trans; [exact Hre|by apply Hok].
Qed.

Lemma scan_blank_safe p : forall n, cstring p -> exists p' n', scan_blank p n = Some (p', n') /\ cstring p'.
Proof.
  induction p as [|c p IH]; intros n Hp; [destruct (cstring_cons _ Hp) as (? & ? & [=] & _)|].
  cbn [scan_blank]. destruct (_ || _) eqn:E; [|by eexists _, _].
  apply IH. apply (cstring_drop1 c p Hp). intros ->. discriminate.
Qed.

Lemma scan_hex_safe width : forall p v n, cstring p -> exists r, scan_hex p width v n = Some r.
Proof.
  induction width as [|width IH]; intros p v n Hp; [by eexists|].
  destruct (cstring_cons p Hp) as (c & r & -> & _). cbn [scan_hex].
  destruct (hex_value c) eqn:E; [|by eexists].
  apply IH, (cstring_drop1 c r Hp). intros ->. discriminate.
Qed.

Lemma scanf_4x_safe p : cstring p -> exists code n, scanf_4x p = Some (code, n) /\ (n <> 0 -> exists v, code = Some v).
Proof.
  intros Hp. unfold scanf_4x. destruct (scan_blank_safe p 0 Hp) as (p1 & w & -> & Hp1). cbn [mbind option_bind].
  destruct (cstring_cons p1 Hp1) as (c & r & -> & _). rewrite rd_0. cbn [mbind option_bind].
  set (sign := if (c =? 43) || (c =? 45) then 1 else 0).
  assert (cstring (drop (Z.to_nat sign) (c :: r))) as Hp2.
  { unfold sign. destruct (skip_one_safe (fun c => (c =? 43) || (c =? 45)) c r eq_refl Hp1) as [_ H].
    cbv beta in H. destruct (_ || _); [exact H|done]. }
  destruct (cstring_cons _ Hp2) as (c0 & r0 & E & Hc0). rewrite E in *. rewrite rd_0. cbn [mbind option_bind].
  assert (exists prefix, (if c0 =? 48 then let? c1 := rd (c0 :: r0) 1 in Some (if (c1 =? 120) || (c1 =? 88) then 2 else 0)
      else Some 0) = Some prefix /\ cstring (drop (Z.to_nat prefix) (c0 :: r0))) as (prefix & -> & Hp3).
  { destruct (Z.eqb_spec c0 48) as [->|]; [|by exists 0].
    destruct (Hc0 ltac:(lia)) as [_ Hr0]. destruct (cstring_cons r0 Hr0) as (c1 & r1 & -> & _).
    change (rd (48 :: c1 :: r1) 1) with (Some c1). cbn [mbind option_bind].
    destruct ((c1 =? 120) || (c1 =? 88)) eqn:E1; [|by exists 0]. exists 2. split; [done|].
    change (drop (Z.to_nat 2) (48 :: c1 :: r1)) with r1. apply (cstring_drop1 c1 r1 Hr0). intros ->. discriminate. }
  cbn [mbind option_bind].
  destruct (scan_hex_safe (Z.to_nat (4 - sign - prefix)) _ 0 0 Hp3) as ([v n] & ->). cbn [mbind option_bind].
  destruct (Z.eqb_spec n 0); [by eexists _, _|]. eexists _, _. split; [reflexivity|]. intros _. by eexists.
Qed.

(** [json_one_char], on a character that is not the terminator. *)
Lemma json_one_char_safe p :
  cstring p -> rd p 0 <> Some 0 ->
  exists r, json_one_char p = Some r /\
    forall out p', r = Some (out, p') -> reaches p p' /\ (length p' < length p)%nat.
Proof.
  intros Hp H0. destruct (cstring_cons p Hp) as (c & r & -> & _). rewrite rd_0 in H0.
  assert (c <> 0) as Hc by congruence. destruct (cstring_drop1 c r Hp Hc) as [Hr Hre].
  assert (forall c', exists x, (if (0 <? s8 c') && (s8 c' <=? 31) then Some None else Some (Some ([c'], r))) = Some x /\
    forall out p', x = Some (out, p') -> reaches (c :: r) p' /\ (length p' < length (c :: r))%nat) as Hplain.
  { intros c'. destruct (_ && _); eexists; (split; [reflexivity|]); [done|]. intros ? ? [= <- <-]. split; [done|simpl; lia]. }
  cbn [json_one_char]. destruct (c =? 92); [|apply Hplain].
  destruct (cstring_cons r Hr) as (e & r2 & -> & _).
  destruct (Z.eqb_spec e 0); [apply Hplain|].
  destruct (cstring_drop1 e r2 Hr) as [Hr2 Hre2]; [done|].
  assert (forall out, exists x, Some (Some (out : list Z, r2)) = Some x /\
    forall out p', x = Some (out, p') -> reaches (c :: e :: r2) p' /\ (length p' < length (c :: e :: r2))%nat) as Hesc.
  { intros out. eexists. split; [reflexivity|]. intros ? ? [= <- <-]. split; [by eapply reaches_trans|simpl; lia]. }
  repeat (match goal with |- context [e =? ?k] => destruct (e =? k) end; [try apply Hesc|]); [|by eexists].
  destruct (all_positive_safe 4 r2 Hr2) as (ok & -> & Hok). cbn [mbind option_bind].
  destruct ok; [|by eexists]. specialize (Hok eq_refl).
  destruct (scanf_4x_safe r2 Hr2) as (code & n0 & -> & Hcode). cbn [mbind option_bind].
  destruct (Z.eqb_spec n0 4) as [->|]; [|by eexists]. cbn [negb]. destruct Hcode as [v ->]; [done|]. cbn [mbind option_bind].
  destruct (yaz_write_UTF8_char v 6 0) as [[[rr out] ?] ?]. destruct (rr =? 0); [|by eexists].
  eexists. split; [reflexivity|]. intros ? ? [= <- <-].
  assert (reaches (c :: e :: r2) (drop 4 r2)) as Hre4 by (eapply reaches_trans; [exact Hre|by eapply reaches_trans]).
  split; [done|]. rewrite length_drop. simpl. lia.
Qed.

Lemma string_chars_safe fuel : forall cp acc,
  cstring cp -> (length cp < fuel)%nat ->
  exists r, string_chars fuel cp acc = Some r /\
    forall s cp', r = Some (s, cp') -> reaches cp cp' /\ (rd cp' 0 = Some 0 \/ rd cp' 0 = Some 34).
Proof.
  induction fuel as [|fuel IH]; intros cp acc Hc Hf; [lia|].
  destruct (cstring_cons cp Hc) as (c & r & -> & _). cbn [string_chars]. rewrite rd_0. cbn [mbind option_bind].
  destruct (Z.eqb_spec c 0) as [->|Hc0]; cbn [orb].
  { eexists. split; [reflexivity|]. intros ? ? [= <- <-]. split; [done|by left]. }
  destruct (Z.eqb_spec c 34) as [->|Hc34].
  { eexists. split; [reflexivity|]. intros ? ? [= <- <-]. split; [done|by right]. }
  destruct (json_one_char_safe (c :: r) Hc) as (x & -> & Hx); [rewrite rd_0; congruence|]. cbn [mbind option_bind].
  destruct x as [[out cp1]|]; [|by eexists]. destruct (Hx _ _ eq_refl) as [Hre Hlt].
  destruct (IH cp1 (acc ++ out)) as (y & -> & Hy); [by eapply reaches_cstring|simpl in *; lia|].
  exists y. split; [done|]. intros s cp' E. destruct (Hy s cp' E) as [H1 H2]. split; [by eapply reaches_trans|done].
Qed.

Lemma token_safe room : forall cp, cstring cp -> exists t cp', token cp room = Some (t, cp') /\ reaches cp cp' /\
  (t <> [] -> (length cp' < length cp)%nat).
Proof.
  induction room as [|room IH]; intros cp Hc; destruct (cstring_cons cp Hc) as (c & r & -> & _); [by eexists _, _|].
  cbn [token]. destruct (yaz_islower c) eqn:E; [|by eexists _, _].
  assert (c <> 0) as Hc0 by (intros ->; discriminate). destruct (cstring_drop1 c r Hc Hc0) as [Hr Hre].
  destruct (IH r Hr) as (t & cp' & -> & Hre' & _). eexists _, _. split; [reflexivity|].
  split; [by eapply reaches_trans|]. intros _. pose proof (reaches_length _ _ Hre'). simpl. lia.
Qed.

(** ** The parser *)

Section parser.
Context {double : Type} (strtod : list Z -> double * Z).
Abbreviation node := (json_node double).
Abbreviation parser := (json_parser_s (double := double)).
Implicit Types (p : parser).

(** From one state of the parser to a later one. *)
Record moved p p' : Prop := {
  mv_cp : reaches (js_cp p) (js_cp p');
  mv_err : err_msg p <> None -> err_msg p' <> None;
  mv_buf : js_buf p' = js_buf p }.

Lemma moved_refl p : moved p p.
Proof. by split. Qed.

Lemma moved_trans p1 p2 p3 : moved p1 p2 -> moved p2 p3 -> moved p1 p3.
Proof. intros [A B C] [D F G]. split; [by eapply reaches_trans|auto|congruence]. Qed.

Lemma moved_cstring p p' : moved p p' -> cstring (js_cp p) -> cstring (js_cp p').
Proof. intros [H _ _]. by apply reaches_cstring. Qed.

Lemma moved_length p p' : moved p p' -> (length (js_cp p') <= length (js_cp p))%nat.
Proof. intros [H _ _]. by apply reaches_length. Qed.

(** The function returns, from [p], and what it returns satisfies [Q]. *)
Definition safe_at {A} (m : M parser A) p (Q : A -> parser -> Prop) : Prop :=
  exists a p', m p = Some (a, p') /\ moved p p' /\ Q a p'.

Lemma safe_ret {A} (a : A) p (Q : A -> parser -> Prop) : Q a p -> safe_at (ret a) p Q.
Proof. intros H. exists a, p. split; [done|]. split; [apply moved_refl|done]. Qed.

Lemma safe_bind {A B} (m : M parser A) (k : A -> M parser B) p Q1 Q :
  safe_at m p Q1 -> (forall a p1, moved p p1 -> Q1 a p1 -> safe_at (k a) p1 Q) -> safe_at (bind m k) p Q.
Proof.
  intros (a & p1 & E1 & M1 & H1) H2. destruct (H2 a p1 M1 H1) as (b & p2 & E2 & M2 & HQ).
  exists b, p2. rewrite (bind_Some _ _ _ _ _ E1). split; [done|]. split; [by eapply moved_trans|done].
Qed.

Lemma safe_get {B} (k : parser -> M parser B) p Q : safe_at (k p) p Q -> safe_at (bind get k) p Q.
Proof. done. Qed.

Lemma safe_lift {A B} (x : option A) a (k : A -> M parser B) p Q :
  x = Some a -> safe_at (k a) p Q -> safe_at (bind (lift x) k) p Q.
Proof. by intros ->. Qed.

Lemma safe_weaken {A} (m : M parser A) p (Q Q' : A -> parser -> Prop) :
  safe_at m p Q -> (forall a p', moved p p' -> Q a p' -> Q' a p') -> safe_at m p Q'.
Proof. intros (a & p' & E & Hm & H) HQ. exists a, p'. auto. Qed.

(** A tree and progress, or an error message. *)
Definition outcome {A} (n : nat) (a : option A) (p' : parser) : Prop :=
  match a with
  | Some _ => (length (js_cp p') < n)%nat
  | None => err_msg p' <> None
  end.

Lemma safe_fail {A} n msg p : safe_at (fail (A := A) msg) p (outcome n).
Proof. exists None, (set_err_msg msg p). split; [done|]. split; [by split|done]. Qed.

(** Storing a pointer that was reached. *)
Lemma safe_put_cp {B} cp (k : M parser B) p Q :
  reaches (js_cp p) cp -> safe_at k (set_cp cp p) Q -> safe_at (put (set_cp cp p) ;; k) p Q.
Proof.
  intros Hr H. eapply (safe_bind _ _ _ (fun _ p' => p' = set_cp cp p)).
  - exists tt, (set_cp cp p). split; [done|]. split; [by split|done].
  - by intros a p1 _ ->.
Qed.

(** Changing the level. *)
Lemma safe_level {B} (m : M parser unit) l (k : unit -> M parser B) p Q :
  m p = Some (tt, set_level l p) -> safe_at (k tt) (set_level l p) Q -> safe_at (bind m k) p Q.
Proof.
  intros E H. eapply (safe_bind _ _ _ (fun _ p' => p' = set_level l p)).
  - exists tt, (set_level l p). split; [done|]. split; [by split|done].
  - by intros [] p1 _ ->.
Qed.

Lemma safe_look_ch p :
  cstring (js_cp p) ->
  safe_at look_ch p (fun c p' => exists r, js_cp p' = c :: r /\ cstring (c :: r)).
Proof.
  intros H. destruct (skip_blank_safe _ H) as (cp & E & Hr).
  pose proof (reaches_cstring _ _ Hr H) as Hc. destruct (cstring_cons cp Hc) as (c & r & -> & _).
  exists c, (set_cp (c :: r) p). unfold look_ch. mrun. rewrite E. mrun. split; [done|].
  split; [by split|]. by exists r.
Qed.

Lemma safe_move_ch p c r :
  js_cp p = c :: r -> c <> 0 -> cstring (c :: r) ->
  safe_at move_ch p (fun _ p' => js_cp p' = r).
Proof.
  intros E Hc H. exists tt, (set_cp r p). unfold move_ch. mrun. rewrite E, rd_0. mrun.
  rewrite (proj2 (Z.eqb_neq c 0)) by done. cbn [negb drop]. rewrite drop_0. split; [done|].
  split; [|done]. split; [|done..]. cbn [js_cp set_cp]. rewrite E. by apply reaches_cons.
Qed.

(** The character looked at is the one expected: pass over it. *)
Lemma safe_past {B} c k p r (m : M parser B) Q :
  js_cp p = c :: r -> cstring (c :: r) -> (c =? k) = true -> k <> 0 ->
  (forall p1, moved p p1 -> js_cp p1 = r -> cstring r -> safe_at m p1 Q) ->
  safe_at (move_ch ;; m) p Q.
Proof.
  intros E H Hk Hk0 Hm. apply Z.eqb_eq in Hk. subst k.
  eapply safe_bind; [by eapply safe_move_ch|]. intros [] p1 M1 E1. apply Hm; [done|done|].
  by apply (cstring_drop1 c r H).
Qed.

Lemma safe_parse_string p : cstring (js_cp p) -> safe_at json_parse_string p (outcome (length (js_cp p))).
Proof.
  intros H. unfold json_parse_string. eapply safe_bind; [by apply safe_look_ch|].
  intros c p1 M1 (r & E1 & H1). destruct (c =? 34) eqn:Ec; cbn [negb]; [|apply safe_fail].
  eapply safe_past; [exact E1|done|exact Ec|done|]. intros p2 M2 E2 Hr. apply safe_get. rewrite E2.
  destruct (string_chars_safe (S (length r)) r [] Hr ltac:(lia)) as (x & Ex & Hx).
  eapply safe_lift; [exact Ex|]. destruct x as [[s cp]|]; [|apply safe_fail].
  destruct (Hx _ _ eq_refl) as [Hre Hhd].
  assert (cstring cp) as Hcp by by eapply reaches_cstring.
  destruct (cstring_cons cp Hcp) as (c' & r' & -> & _). rewrite rd_0 in Hhd |- *.
  eapply safe_lift; [done|]. destruct (Z.eqb_spec c' 0); [apply safe_fail|].
  apply safe_put_cp; [rewrite E2; eapply reaches_trans; [exact Hre|by apply reaches_cons]|].
  apply safe_ret. cbn [outcome js_cp set_cp drop]. rewrite drop_0.
  apply reaches_length in Hre. apply moved_length in M1. rewrite E1 in M1. simpl in *. lia.
Qed.

Lemma safe_parse_number p : cstring (js_cp p) -> safe_at (json_parse_number strtod) p (outcome (length (js_cp p))).
Proof.
  intros H. unfold json_parse_number. apply safe_get.
  destruct (number_end_safe _ H) as (x & Ex & Hx). eapply safe_lift; [exact Ex|].
  destruct x as [cp|]; [|apply safe_fail]. specialize (Hx _ eq_refl).
  destruct (strtod (js_cp p)) as [v n]. destruct (Z.eqb_spec n 0); [apply safe_fail|].
  destruct (Z.eqb_spec n (zlen (js_cp p) - zlen cp)) as [E|]; [|apply safe_fail]. cbn [negb].
  destruct Hx as (pre & Ep & Hpre).
  assert (drop (Z.to_nat n) (js_cp p) = cp) as Ed.
  { rewrite Ep in E |- *. rewrite zlen_app in E. replace n with (zlen pre) by lia.
    unfold zlen. by rewrite Nat2Z.id, drop_app_length. }
  rewrite Ed. apply safe_put_cp; [by exists pre|]. apply safe_ret. cbn [outcome js_cp set_cp].
  rewrite Ep in E. rewrite Ep, length_app. rewrite zlen_app in E. unfold zlen in E. lia.
Qed.

(** ** Lists of items *)

Section items.
Context (item : M parser (option node)) (bound : nat).
Context (Hitem : forall p, cstring (js_cp p) -> (length (js_cp p) < bound)%nat ->
  safe_at item p (outcome (length (js_cp p)))).

Definition items_post (acc : list node) (a : option (list node)) p' : Prop :=
  match a with
  | None => err_msg p' <> None
  | Some l => exists l', l = acc ++ l'
  end.

Lemma safe_more_items fuel : forall acc p,
  cstring (js_cp p) -> (length (js_cp p) < bound)%nat -> (length (js_cp p) < fuel)%nat ->
  safe_at (more_items item fuel acc) p (items_post acc).
Proof.
  induction fuel as [|fuel IH]; intros acc p H Hb Hf; [lia|]. cbn [more_items].
  eapply safe_bind; [by apply safe_look_ch|]. intros c p1 M1 (r & E1 & H1).
  pose proof (moved_length _ _ M1) as L1. rewrite E1 in L1. simpl in L1.
  destruct (c =? 44) eqn:Ec; [|apply safe_ret; exists []; by rewrite app_nil_r].
  eapply safe_past; [exact E1|done|exact Ec|done|]. intros p2 M2 E2 Hr.
  eapply safe_bind; [apply Hitem; rewrite E2; [done|lia]|]. intros [n|] p3 M3 O3; [|by apply safe_ret].
  cbn in O3. rewrite E2 in O3. eapply safe_weaken; [apply IH; [by eapply moved_cstring; [exact M3|rewrite E2]|lia..]|].
  intros [l|] p4 _; [|done]. intros (l' & ->). exists (n :: l'). by rewrite <- app_assoc.
Qed.

Lemma safe_items fuel p :
  cstring (js_cp p) -> (length (js_cp p) < bound)%nat -> (length (js_cp p) <= fuel)%nat ->
  safe_at (items item fuel) p (fun a p' => a = None -> err_msg p' <> None).
Proof.
  intros H Hb Hf. unfold items. eapply safe_bind; [by apply Hitem|]. intros [n|] p1 M1 O1; [|by apply safe_ret].
  cbn in O1. eapply safe_bind; [apply safe_more_items; [by eapply moved_cstring|lia..]|].
  intros [l|] p2 M2 O2; [|by apply safe_ret]. destruct O2 as (l' & ->). by apply safe_ret.
Qed.
End items.

(** ** Values *)

Section value.
Context (pv : M parser (option node)) (fuel : nat).
Context (Hpv : forall p, cstring (js_cp p) -> (length (js_cp p) < fuel)%nat ->
  safe_at pv p (outcome (length (js_cp p)))).

Lemma safe_parse_array p :
  cstring (js_cp p) -> (length (js_cp p) <= fuel)%nat ->
  safe_at (json_parse_array pv fuel) p (outcome (length (js_cp p))).
Proof.
  intros H Hf. unfold json_parse_array. eapply safe_bind; [by apply safe_look_ch|]. intros c p1 M1 (r & E1 & H1).
  pose proof (moved_length _ _ M1) as L1. rewrite E1 in L1. simpl in L1.
  destruct (c =? 91) eqn:Ec; cbn [negb]; [|apply safe_fail].
  eapply safe_past; [exact E1|done|exact Ec|done|]. intros p2 M2 E2 Hr. apply safe_get.
  destruct (_ <=? _); [apply safe_fail|]. eapply safe_level; [reflexivity|].
  eapply safe_bind; [apply safe_look_ch; cbn [js_cp set_level]; by rewrite E2|]. intros c3 p3 M3 (r3 & E3 & H3).
  pose proof (moved_length _ _ M3) as L3. cbn [js_cp set_level] in L3. rewrite E2, E3 in L3.
  eapply (safe_bind _ _ _ (fun _ _ => True)).
  { destruct (negb (c3 =? 93)); [|by apply safe_ret].
    eapply safe_weaken; [apply (safe_items pv fuel Hpv); rewrite E3; [done|simpl in *; lia..]|done]. }
  intros l p4 M4 _. apply safe_get. eapply safe_level; [reflexivity|].
  eapply safe_bind; [apply safe_look_ch; cbn [js_cp set_level]; eapply moved_cstring; [exact M4|by rewrite E3]|].
  intros c5 p5 M5 (r5 & E5 & H5). pose proof (moved_length _ _ M5) as L5. pose proof (moved_length _ _ M4) as L4.
  cbn [js_cp set_level] in L5. rewrite E5 in L5. rewrite E3 in L4.
  destruct (c5 =? 93) eqn:Ec5; cbn [negb].
  - eapply safe_past; [exact E5|done|exact Ec5|done|]. intros p6 M6 E6 _. apply safe_ret.
    cbn [outcome]. rewrite E6. simpl in *. lia.
  - apply safe_get. destruct (err_msg p5) eqn:Ee; [|apply safe_fail]. apply safe_ret. cbn [outcome]. congruence.
Qed.

Lemma safe_parse_pair p :
  cstring (js_cp p) -> (length (js_cp p) < fuel)%nat ->
  safe_at (json_parse_pair pv) p (outcome (length (js_cp p))).
Proof.
  intros H Hf. unfold json_parse_pair. eapply safe_bind; [by apply safe_parse_string|].
  intros [s|] p1 M1 O1; [|by apply safe_ret]. cbn in O1.
  eapply safe_bind; [apply safe_look_ch; by eapply moved_cstring|]. intros c p2 M2 (r & E2 & H2).
  pose proof (moved_length _ _ M2) as L2. rewrite E2 in L2. simpl in L2.
  destruct (c =? 58) eqn:Ec; cbn [negb]; [|apply safe_fail].
  eapply safe_past; [exact E2|done|exact Ec|done|]. intros p3 M3 E3 Hr.
  eapply safe_bind; [apply Hpv; rewrite E3; [done|lia]|]. intros [v|] p4 M4 O4; [|by apply safe_ret].
  apply safe_ret. cbn in *. rewrite E3 in O4. lia.
Qed.

Lemma safe_parse_object p :
  cstring (js_cp p) -> (length (js_cp p) <= fuel)%nat ->
  safe_at (json_parse_object pv fuel) p (outcome (length (js_cp p))).
Proof.
  intros H Hf. unfold json_parse_object. eapply safe_bind; [by apply safe_look_ch|]. intros c p1 M1 (r & E1 & H1).
  pose proof (moved_length _ _ M1) as L1. rewrite E1 in L1. simpl in L1.
  destruct (c =? 123) eqn:Ec; cbn [negb]; [|apply safe_fail].
  eapply safe_past; [exact E1|done|exact Ec|done|]. intros p2 M2 E2 Hr. cbv zeta.
  (* the closing brace *)
  assert (forall (link0 : option node) q, cstring (js_cp q) -> (length (js_cp q) <= length r)%nat ->
    safe_at (let* c := look_ch in if negb (c =? 125) then fail (str "Missing }")
             else move_ch ;; ret (Some (json_node_object link0))) q (outcome (length (js_cp p)))) as Hfin.
  { intros l q Hq Hl. eapply safe_bind; [by apply safe_look_ch|]. intros c5 p5 M5 (r5 & E5 & H5).
    pose proof (moved_length _ _ M5) as L5. rewrite E5 in L5. simpl in L5.
    destruct (c5 =? 125) eqn:Ec5; cbn [negb]; [|apply safe_fail].
    eapply safe_past; [exact E5|done|exact Ec5|done|]. intros p6 M6 E6 _. apply safe_ret.
    cbn [outcome]. rewrite E6. lia. }
  eapply safe_bind; [apply safe_look_ch; by rewrite E2|]. intros c3 p3 M3 (r3 & E3 & H3).
  pose proof (moved_length _ _ M3) as L3. rewrite E2, E3 in L3.
  destruct (c3 =? 125); cbn [negb]; [apply Hfin; by rewrite E3|].
  apply safe_get. destruct (_ <=? _); [apply safe_fail|]. eapply safe_level; [reflexivity|].
  eapply safe_bind.
  { apply (safe_items (json_parse_pair pv) fuel safe_parse_pair); cbn [js_cp set_level]; rewrite E3;
      [done|simpl in *; lia..]. }
  intros m p4 M4 O4. apply safe_get. eapply safe_level; [reflexivity|].
  pose proof (moved_length _ _ M4) as L4. cbn [js_cp set_level] in L4. rewrite E3 in L4.
  destruct m as [m|]; [|apply safe_ret; by apply O4].
  apply Hfin; cbn [js_cp set_level]; [|lia].
  eapply moved_cstring; [exact M4|]. cbn [js_cp set_level]. by rewrite E3.
Qed.
End value.

Lemma safe_parse_value fuel : forall p,
  cstring (js_cp p) -> (length (js_cp p) < fuel)%nat ->
  safe_at (json_parse_value strtod fuel) p (outcome (length (js_cp p))).
Proof.
  induction fuel as [|fuel IH]; intros p H Hf; [lia|]. cbn [json_parse_value]. cbv zeta.
  eapply safe_bind; [by apply safe_look_ch|]. intros c p1 M1 (r & E1 & H1).
  pose proof (moved_length _ _ M1) as L1.
  assert (forall m, safe_at m p1 (outcome (length (js_cp p1))) -> safe_at m p1 (outcome (A := node) (length (js_cp p)))) as Hw.
  { intros m Hm. eapply safe_weaken; [exact Hm|]. intros [n|] p' _ O; cbn in *; [lia|done]. }
  assert (cstring (js_cp p1)) as C1 by by rewrite E1.
  destruct (c =? 34); [by apply Hw, safe_parse_string|].
  destruct (strchr (str "0123456789-") c) eqn:Es; [by apply Hw, safe_parse_number|].
  destruct (c =? 123); [apply Hw, safe_parse_object; [done|done|lia]|].
  destruct (c =? 91); [apply Hw, safe_parse_array; [done|done|lia]|].
  assert (c <> 0) as Hc by (intros ->; discriminate).
  destruct (cstring_cons _ C1) as (c' & r' & Ec & H37). rewrite E1 in Ec. injection Ec as <- <-.
  destruct (Z.eqb_spec c 37) as [->|_]; [by destruct (H37 Hc)|].
  rewrite (proj2 (Z.eqb_neq c 0)) by done. apply safe_get.
  destruct (token_safe 7 _ C1) as (t & cp & Et & Hre & Hlt). eapply safe_lift; [exact Et|].
  apply safe_put_cp; [done|].
  repeat (case_bool_decide; [apply safe_ret; cbn [outcome js_cp set_cp]; subst t; specialize (Hlt ltac:(done)); lia|]).
  apply safe_fail.
Qed.

(** ** Properties *)

(** C30: [json_parse2] of any C string without a substitution returns: the parser
    ends, reads nothing after the terminator and its position is inside the string;
    and when it returns no tree, it has an error message. *)
Theorem json_parse2_safe (s rest : list Z) (e : option (list Z)) (l m : Z) :
  nonzero s -> ~ In 37 s ->
  exists n msg pos, json_parse2 strtod (s ++ 0 :: rest) e l m = Some (n, msg, pos) /\
    0 <= pos <= zlen s /\ (n = None <-> msg <> None).
Proof.
  intros Hs H37. unfold json_parse2, json_parser_parse. mrun.
  set (p0 := mkParser (s ++ 0 :: rest) (s ++ 0 :: rest) None 0 1000 _).
  assert (cstring (js_cp p0)) as C0 by by exists s, rest.
  set (k := fun n : option node => match n with None => ret None | Some n => _ end).
  assert (safe_at (bind (json_parse_value strtod (S (S (length (s ++ 0 :: rest))))) k) p0
    (fun a p' => a = None -> err_msg p' <> None)) as (n & p' & E & M' & Hn).
  { eapply safe_bind; [apply safe_parse_value; [done|simpl; lia]|]. intros [n|] p1 M1 O1; unfold k.
    - apply safe_get. destruct (err_msg p1) eqn:Ee; [apply safe_ret; congruence|].
      eapply safe_bind; [apply safe_look_ch; by eapply moved_cstring|]. intros c p2 _ _.
      destruct (c =? 0); cbn [negb]; [by apply safe_ret|].
      eapply safe_weaken; [apply (safe_fail 0)|]. by intros [a|] ? _.
    - apply safe_ret. by intros _. }
  rewrite E. cbn [mbind option_bind]. eexists _, _, _. split; [reflexivity|]. split.
  - destruct M' as [(pre & Ep & Hpre) _ Hbuf]. cbn [p0 js_cp] in Ep. unfold json_parser_get_position.
    rewrite Hbuf. cbn [p0 js_buf].
    rewrite Ep at 1 2. rewrite zlen_app. pose proof (zlen_nonneg pre).
    assert (zlen pre <= zlen s); [|lia]. clear -Ep Hpre. revert s Ep.
    induction Hpre as [|c pre Hc Hpre IH]; intros s Ep; [apply zlen_nonneg|].
    destruct s as [|c' s]; [injection Ep as ? _; congruence|]. injection Ep as _ Ep.
    rewrite !zlen_cons. specialize (IH s Ep). lia.
  - unfold json_parser_get_errmsg. destruct n; [done|]. split; [auto|done].
Qed.
End parser.

Lemma json_parse2_safe_witness :
  exists n msg pos, json_parse2 int_strtod (str "[1, {" ++ [0]) None 0 0 = Some (n, msg, pos) /\
    0 <= pos <= zlen (str "[1, {") /\ (n = None <-> msg <> None).
Proof.
  apply (json_parse2_safe int_strtod (str "[1, {") [] None 0 0).
  - repeat constructor; discriminate.
  - simpl. lia.
Defined.
