(* ===== verification/Uri.v ===== *)
(** * URI components and query strings (uri.c)

    Percent-encoding, and the arrays of names and values of an HTTP query string. *)

From stdpp Require Import base list numbers option strings.
From Stdlib Require Import ZArith Lia.
From S2P Require Import Prelude Text Wrbuf.

(** ** Operations *)

(** [hex_digit] *)
Definition uri_hex_digit (ch : Z) : Z :=
  if (48 <=? ch) && (ch <=? 57) then ch - 48
  else if (97 <=? ch) && (ch <=? 102) then ch - 97 + 10
  else if (65 <=? ch) && (ch <=? 70) then ch - 65 + 10
  else -1.

Definition unreserved (ch : Z) : bool :=
  ((65 <=? ch) && (ch <=? 90)) || ((97 <=? ch) && (ch <=? 122)) ||
  ((48 <=? ch) && (ch <=? 57)) || strchr (str "-._~") ch.

(** The octets stored at [dst] before the terminator. *)
Definition encode_uri_char (ch : Z) : list Z :=
  if unreserved ch then [ch]
  else [37; hex_digit true (ch / 16); hex_digit true (ch mod 16)].

Fixpoint yaz_encode_uri_component (uri : list Z) : option (list Z) :=
  match uri with
  | [] => None
  | c :: uri =>
      if c =? 0 then Some []
      else let? rest := yaz_encode_uri_component uri in Some (encode_uri_char c ++ rest)
  end.

(** The character and [*len]. *)
Definition decode_uri_char (path : list Z) (len : Z) : option (Z * Z) :=
  let? c := rd path 0 in
  if c =? 43 then Some (32, 1)
  else if (c =? 37) && (3 <=? len) then
    let? c1 := rd path 1 in
    let d1 := uri_hex_digit c1 in
    let? c2 := rd path 2 in
    let d2 := uri_hex_digit c2 in
    if (0 <=? d1) && (0 <=? d2) then Some (d1 * 16 + d2, 3)
    else Some (c, 1)
  else Some (c, 1).

Fixpoint decode_loop (fuel : nat) (uri : list Z) (len : Z) : option (list Z) :=
  match fuel with
  | O => None
  | S fuel =>
      if len =? 0 then Some [] else
      let? (ch, sz) := decode_uri_char uri len in
      let? rest := decode_loop fuel (drop (Z.to_nat sz) uri) (len - sz) in
      Some (ch :: rest)
  end.
Definition yaz_decode_uri_component (uri : list Z) (len : Z) : option (list Z) :=
  decode_loop (S (Z.to_nat len)) uri len.

(** [yaz_array_to_uri]: the size that is allocated, and the octets stored before
    the terminator.  The names and the values are C strings. *)
Fixpoint array_to_uri_size (nv : list (list Z * list Z)) : option Z :=
  match nv with
  | [] => Some 1
  | (n, v) :: nv =>
      let? ln := strlen n in
      let? lv := strlen v in
      let? sz := array_to_uri_size nv in
      Some (sz + (ln + 3 + lv * 3))
  end.
Fixpoint array_to_uri_loop (nv : list (list Z * list Z)) (i : Z) : option (list Z) :=
  match nv with
  | [] => Some []
  | (n, v) :: nv =>
      let? ilen := strlen n in
      let? name := sub n 0 ilen in
      let? val := yaz_encode_uri_component v in
      let? rest := array_to_uri_loop nv (i + 1) in
      Some ((if i =? 0 then [] else [38]) ++ name ++ 61 :: val ++ rest)
  end.
(** Storing more than was allocated is undefined. *)
Definition yaz_array_to_uri (nv : list (list Z * list Z)) : option (list Z) :=
  let? sz := array_to_uri_size nv in
  let? path := array_to_uri_loop nv 0 in
  if sz <? zlen path + 1 then None else Some (path ++ [0]).

(** [strchr(cp, '&')] *)
Fixpoint find_amp (cp : list Z) : option (option (list Z)) :=
  match cp with
  | [] => None
  | c :: cp' => if c =? 38 then Some (Some cp) else if c =? 0 then Some None else find_amp cp'
  end.

(** The inner loop over the characters of a name; [None] for the early return. *)
Fixpoint sane_name (cp : list Z) : option (option (list Z)) :=
  match cp with
  | [] => None
  | c :: cp' =>
      if (c =? 0) || (c =? 61) || (c =? 38) then Some (Some cp)
      else if (s8 c <=? 32) || (127 <=? s8 c) then Some None
      else sane_name cp'
  end.
Fixpoint count_names (fuel : nat) (cp : list Z) (no : Z) : option (option Z) :=
  match fuel with
  | O => None
  | S fuel =>
      let? r := find_amp cp in
      match r with
      | None => Some (Some no)
      | Some cp =>
          let? r := sane_name (drop 1 cp) in
          match r with
          | None => Some None
          | Some cp => count_names fuel cp (no + 1)
          end
      end
  end.

(** [while ( *path == '&') path++] *)
Fixpoint skip_amp (path : list Z) : option (list Z) :=
  match path with
  | [] => None
  | c :: path' => if c =? 38 then skip_amp path' else Some path
  end.
(** [for (cp = path; *cp && *cp != '=' && *cp != '&'; cp++)]: what it passes, and [cp]. *)
Fixpoint span_name (path : list Z) : option (list Z * list Z) :=
  match path with
  | [] => None
  | c :: path' =>
      if (c =? 0) || (c =? 61) || (c =? 38) then Some ([], path)
      else let? (n, r) := span_name path' in Some (c :: n, r)
  end.
(** The value: [l] is 3 at each character, whatever is left. *)
Fixpoint decode_value (fuel : nat) (path : list Z) : option (list Z * list Z) :=
  match fuel with
  | O => None
  | S fuel =>
      let? c := rd path 0 in
      if (c =? 0) || (c =? 38) then Some ([], path) else
      let? (ch, l) := decode_uri_char path 3 in
      let? (v, r) := decode_value fuel (drop (Z.to_nat l) path) in
      Some (ch :: v, r)
  end.

(** The loop that fills the arrays, of [alloc] elements each. *)
Fixpoint uri_items (fuel : nat) (path : list Z) (no alloc : Z) : option (list (list Z * list Z)) :=
  match fuel with
  | O => None
  | S fuel =>
      let finish := if alloc <=? no then None else Some [] in
      let? c := rd path 0 in
      if c =? 0 then finish else
      let? path := skip_amp path in
      let? c := rd path 0 in
      if c =? 0 then finish else
      if alloc <=? no then None else
      let? (name, path) := span_name path in
      let? c := rd path 0 in
      let? (val, path) :=
        (if c =? 61 then decode_value (length path) (drop 1 path) else Some ([], path)) in
      let? rest := uri_items fuel path (no + 1) alloc in
      Some ((name, val) :: rest)
  end.

(** The number of names, and the names and values. *)
Definition yaz_uri_to_array (path : list Z) : option (Z * list (list Z * list Z)) :=
  let? c := rd path 0 in
  let path := if c =? 63 then drop 1 path else path in
  let? c := rd path 0 in
  if c =? 0 then Some (0, []) else
  let? no := count_names (S (length path)) path 2 in
  match no with
  | None => Some (0, [])
  | Some no =>
      let? nv := uri_items (S (length path)) path 0 no in
      Some (zlen nv, nv)
  end.

(** ** Characters *)

Lemma uri_char_table :
  forallb (fun c => (c =? 0) ||
    (if unreserved c then negb (c =? 43) && negb (c =? 37) && negb (c =? 38)
     else (uri_hex_digit (hex_digit true (c / 16)) =? c / 16) &&
          (uri_hex_digit (hex_digit true (c mod 16)) =? c mod 16) &&
          (0 <=? c / 16) && (0 <=? c mod 16) && (c / 16 * 16 + c mod 16 =? c) &&
          negb (hex_digit true (c / 16) =? 0) && negb (hex_digit true (c mod 16) =? 0)))
    (map Z.of_nat (seq 0 256)) = true.
Proof. vm_compute. reflexivity. Qed.

(** A character is read back from its encoding, and its encoding contains
    neither the terminator nor a separator. *)
Lemma decode_encode_char c rest len :
  byte_ok c -> c <> 0 -> zlen (encode_uri_char c) <= len ->
  decode_uri_char (encode_uri_char c ++ rest) len = Some (c, zlen (encode_uri_char c)) /\
  exists h t, encode_uri_char c = h :: t /\ h <> 0 /\ h <> 38 /\ nonzero (encode_uri_char c) /\
    1 <= zlen (encode_uri_char c) <= 3.
Proof.
  intros Hb Hc. pose proof (byte_forall _ uri_char_table c Hb) as H. cbv beta in H.
  rewrite (proj2 (Z.eqb_neq c 0)) in H by done. cbn [orb] in H. unfold encode_uri_char.
  destruct (unreserved c).
  - intros _. rewrite !andb_true_iff, !negb_true_iff, !Z.eqb_neq in H. destruct H as ((H1 & H2) & H3).
    split.
    + unfold decode_uri_char. cbn [app]. rewrite rd_0. cbn [mbind option_bind].
      rewrite (proj2 (Z.eqb_neq c 43)), (proj2 (Z.eqb_neq c 37)) by done. done.
    + exists c, []. split; [done|]. split; [done|]. split; [done|]. split; [by repeat constructor|unfold zlen; simpl; lia].
  - rewrite !andb_true_iff, !negb_true_iff, !Z.eqb_neq, !Z.eqb_eq, !Z.leb_le in H.
    destruct H as ((((((H1 & H2) & H3) & H4) & H5) & H6) & H7). intros Hl. change (zlen _) with 3 in Hl.
    split.
    + unfold decode_uri_char. cbn [app].
      change (rd (37 :: hex_digit true (c / 16) :: hex_digit true (c mod 16) :: rest) 0) with (Some 37).
      change (rd (37 :: hex_digit true (c / 16) :: hex_digit true (c mod 16) :: rest) 1) with (Some (hex_digit true (c / 16))).
      change (rd (37 :: hex_digit true (c / 16) :: hex_digit true (c mod 16) :: rest) 2) with (Some (hex_digit true (c mod 16))).
      cbn [mbind option_bind]. rewrite (proj2 (Z.leb_le 3 len)) by lia. cbn [Z.eqb Pos.eqb andb].
      rewrite H1, H2, !(proj2 (Z.leb_le 0 _)) by done. cbn [andb]. by rewrite H5.
    + eexists 37, _. split; [reflexivity|]. split; [done|]. split; [done|].
      split; [by repeat constructor|unfold zlen; simpl; lia].
Qed.

(** The encoding of a string. *)
Definition uri_encoding (s : list Z) : list Z := concat (map encode_uri_char s).

Definition value_ok (s : list Z) : Prop := Forall (fun c => byte_ok c /\ c <> 0) s.

Lemma encode_component s rest :
  value_ok s -> yaz_encode_uri_component (s ++ 0 :: rest) = Some (uri_encoding s).
Proof.
  induction 1 as [|c s [Hb Hc] Hs IH]; [done|]. cbn [app yaz_encode_uri_component].
  rewrite (proj2 (Z.eqb_neq c 0)), IH by done. done.
Qed.

Lemma uri_encoding_facts s :
  value_ok s -> nonzero (uri_encoding s) /\ zlen s <= zlen (uri_encoding s) <= 3 * zlen s.
Proof.
  induction 1 as [|c s [Hb Hc] Hs [IH1 IH2]]; [split; [constructor|done]|].
  destruct (decode_encode_char c [] 3 Hb Hc) as [_ (h & t & _ & _ & _ & Hn & Hl)].
  { unfold encode_uri_char. destruct (unreserved c); unfold zlen; simpl; lia. }
  change (uri_encoding (c :: s)) with (encode_uri_char c ++ uri_encoding s).
  split; [by apply Forall_app|]. rewrite zlen_app, zlen_cons. lia.
Qed.

Lemma decode_loop_encoding s : forall fuel rest,
  value_ok s -> (length (uri_encoding s) < fuel)%nat ->
  decode_loop fuel (uri_encoding s ++ rest) (zlen (uri_encoding s)) = Some s.
Proof.
  induction s as [|c s IH]; intros [|fuel] rest Hs Hf; simpl in Hf; try lia; [done|].
  apply Forall_cons_1 in Hs as [[Hb Hc] Hs]. pose proof (zlen_nonneg (uri_encoding s)) as Hnn.
  change (uri_encoding (c :: s)) with (encode_uri_char c ++ uri_encoding s) in *.
  destruct (decode_encode_char c (uri_encoding s ++ rest) (zlen (encode_uri_char c ++ uri_encoding s)) Hb Hc)
    as [E (h & t & _ & _ & _ & _ & Hl)]; [rewrite zlen_app; lia|].
  cbn [decode_loop]. rewrite (proj2 (Z.eqb_neq _ 0)) by (rewrite zlen_app; lia).
  rewrite <- app_assoc, E. cbn [mbind option_bind].
  replace (drop (Z.to_nat (zlen (encode_uri_char c))) (encode_uri_char c ++ uri_encoding s ++ rest))
    with (uri_encoding s ++ rest) by (unfold zlen; by rewrite Nat2Z.id, drop_app_length).
  rewrite zlen_app. replace (zlen (encode_uri_char c) + zlen (uri_encoding s) - zlen (encode_uri_char c))
    with (zlen (uri_encoding s)) by lia.
  rewrite IH; [done|done|]. rewrite length_app in Hf. unfold zlen in Hl. lia.
Qed.

(** ** Query strings *)

(** Characters of a name that stand for themselves. *)
Definition name_char (c : Z) : Prop := 32 < c < 127 /\ c <> 61 /\ c <> 38.
Definition name_ok (n : list Z) : Prop := Forall name_char n.

Definition item_text (nv : list Z * list Z) : list Z := nv.1 ++ 61 :: uri_encoding nv.2.
Definition items_text (nvs : list (list Z * list Z)) : list Z :=
  concat (map (fun nv => 38 :: item_text nv) nvs).
Definition query_ok (nvs : list (list Z * list Z)) : Prop :=
  Forall (fun nv => name_ok nv.1 /\ value_ok nv.2) nvs.

(** Octets that neither end a query string nor separate its items. *)
Definition inner (s : list Z) : Prop := Forall (fun c => c <> 0 /\ c <> 38) s.

Lemma hex_digit_range c : 0 <= c < 16 -> 48 <= hex_digit true c.
Proof. intros H. unfold hex_digit. destruct (c <? 10); lia. Qed.

Lemma encoding_inner s : value_ok s -> inner (uri_encoding s).
Proof.
  induction 1 as [|c s [Hb Hc] Hs IH]; [constructor|]. apply Forall_app. split; [|done].
  unfold encode_uri_char. unfold byte_ok in Hb.
  pose proof (byte_forall _ uri_char_table c Hb) as H. cbv beta in H.
  rewrite (proj2 (Z.eqb_neq c 0)) in H by done. cbn [orb] in H.
  destruct (unreserved c).
  - rewrite !andb_true_iff, !negb_true_iff, !Z.eqb_neq in H. destruct H as (_ & H). by repeat constructor.
  - pose proof (Z.mod_pos_bound c 16 ltac:(lia)).
    assert (0 <= c / 16 < 16) by (split; [apply Z.div_pos; lia|apply Z.div_lt_upper_bound; lia]).
    pose proof (hex_digit_range (c / 16) ltac:(lia)). pose proof (hex_digit_range (c mod 16) ltac:(lia)).
    repeat constructor; lia.
Qed.

Lemma name_inner n : name_ok n -> inner n.
Proof. intros H. eapply Forall_impl; [exact H|]. unfold name_char. intros c Hc. simpl. lia. Qed.

Lemma item_inner nv : name_ok nv.1 -> value_ok nv.2 -> inner (item_text nv).
Proof.
  intros Hn Hv. apply Forall_app. split; [by apply name_inner|]. constructor; [lia|by apply encoding_inner].
Qed.

Lemma find_amp_inner s r : inner s -> find_amp (s ++ r) = find_amp r.
Proof.
  induction 1 as [|c s [H0 H38] Hs IH]; [done|]. cbn [app find_amp].
  rewrite (proj2 (Z.eqb_neq c 38)), (proj2 (Z.eqb_neq c 0)) by done. done.
Qed.

Lemma name_char_facts c : name_char c ->
  (c =? 0) || (c =? 61) || (c =? 38) = false /\ (s8 c <=? 32) || (127 <=? s8 c) = false.
Proof.
  intros (H1 & H2 & H3). rewrite !(proj2 (Z.eqb_neq c _)) by lia. split; [done|].
  assert (s8 c = c) as -> by (apply swrap_small; lia).
  rewrite (proj2 (Z.leb_gt c 32)), (proj2 (Z.leb_gt 127 c)) by lia. done.
Qed.

Lemma sane_name_ok n r : name_ok n -> sane_name (n ++ 61 :: r) = Some (Some (61 :: r)).
Proof.
  induction 1 as [|c n Hc Hn IH]; [done|]. cbn [app sane_name].
  destruct (name_char_facts c Hc) as [-> ->]. done.
Qed.

Lemma span_name_ok n r : name_ok n -> span_name (n ++ 61 :: r) = Some (n, 61 :: r).
Proof.
  induction 1 as [|c n Hc Hn IH]; [done|]. cbn [app span_name].
  destruct (name_char_facts c Hc) as [-> _]. by rewrite IH.
Qed.

(** One name for each separator. *)
Lemma count_names_ok nvs : forall fuel s no rest,
  query_ok nvs -> inner s -> (length nvs < fuel)%nat ->
  count_names fuel (s ++ items_text nvs ++ 0 :: rest) no = Some (Some (no + zlen nvs)).
Proof.
  induction nvs as [|[n v] nvs IH]; intros [|fuel] s no rest Hq Hs Hf; simpl in Hf; try lia.
  - cbn [count_names]. rewrite find_amp_inner by done. cbn. by rewrite Z.add_0_r.
  - apply Forall_cons_1 in Hq as [[Hn Hv] Hq]. cbn [fst snd] in *.
    cbn [count_names]. rewrite find_amp_inner by done.
    change (items_text ((n, v) :: nvs)) with (38 :: item_text (n, v) ++ items_text nvs).
    cbn [app find_amp Z.eqb Pos.eqb mbind option_bind drop]. rewrite drop_0.
    unfold item_text. cbn [fst snd]. rewrite <- !app_assoc. cbn [app]. rewrite sane_name_ok by done.
    cbn [mbind option_bind].
    change (61 :: uri_encoding v ++ items_text nvs ++ 0 :: rest) with ((61 :: uri_encoding v) ++ items_text nvs ++ 0 :: rest).
    rewrite IH; [|done|constructor; [lia|by apply encoding_inner]|lia]. rewrite zlen_cons. do 2 f_equal. lia.
Qed.

Lemma decode_value_ok v : forall fuel rest,
  value_ok v -> (length (uri_encoding v) < fuel)%nat ->
  (exists c r, rest = c :: r /\ (c = 0 \/ c = 38)) ->
  decode_value fuel (uri_encoding v ++ rest) = Some (v, rest).
Proof.
  induction v as [|c v IH]; intros [|fuel] rest Hv Hf Hr; simpl in Hf; try lia.
  - destruct Hr as (c & r & -> & Hc). cbn [app uri_encoding map concat decode_value]. rewrite rd_0.
    cbn [mbind option_bind]. by destruct Hc as [-> | ->].
  - apply Forall_cons_1 in Hv as [[Hb Hc] Hv].
    change (uri_encoding (c :: v)) with (encode_uri_char c ++ uri_encoding v) in *. rewrite length_app in Hf.
    destruct (decode_encode_char c (uri_encoding v ++ rest) 3 Hb Hc) as [E (h & t & Eh & H0 & H38 & _ & Hl)].
    { unfold encode_uri_char. destruct (unreserved c); unfold zlen; simpl; lia. }
    rewrite <- app_assoc. cbn [decode_value].
    assert (rd (encode_uri_char c ++ uri_encoding v ++ rest) 0 = Some h) as -> by by rewrite Eh.
    cbn [mbind option_bind]. rewrite (proj2 (Z.eqb_neq h 0)), (proj2 (Z.eqb_neq h 38)) by done. cbn [orb].
    rewrite E. cbn [mbind option_bind].
    replace (drop (Z.to_nat (zlen (encode_uri_char c))) (encode_uri_char c ++ uri_encoding v ++ rest))
      with (uri_encoding v ++ rest) by (unfold zlen; by rewrite Nat2Z.id, drop_app_length).
    rewrite IH; [done|done|unfold zlen in Hl; lia|done].
Qed.

(** What follows the items. *)
Lemma items_text_head nvs rest : exists c r, items_text nvs ++ 0 :: rest = c :: r /\ (c = 0 \/ c = 38).
Proof. destruct nvs as [|nv nvs]; [by exists 0, rest; auto|]. eexists 38, _. split; [reflexivity|auto]. Qed.

Lemma uri_item_step fuel amp nv tl no alloc :
  amp = [] \/ amp = [38] -> name_ok nv.1 -> value_ok nv.2 ->
  (exists c r, tl = c :: r /\ (c = 0 \/ c = 38)) -> no < alloc ->
  uri_items (S fuel) (amp ++ item_text nv ++ tl) no alloc
    = (let? rest := uri_items fuel tl (no + 1) alloc in Some (nv :: rest)).
Proof.
  intros Ha Hn Hv Htl Hal. destruct nv as [n v]. cbn [fst snd] in *.
  assert (exists h t, item_text (n, v) ++ tl = h :: t /\ h <> 0 /\ h <> 38) as (h & t & Eh & H0 & H38).
  { unfold item_text. destruct Hn as [|c n Hc Hn]; [by eexists 61, _|]. unfold name_char in Hc.
    eexists c, _. split; [reflexivity|lia]. }
  cbn [uri_items]. cbv zeta.
  assert (exists c, rd (amp ++ item_text (n, v) ++ tl) 0 = Some c /\ c <> 0) as (c & -> & Hc).
  { rewrite Eh. destruct Ha as [-> | ->]; [by exists h|by exists 38]. }
  cbn [mbind option_bind]. rewrite (proj2 (Z.eqb_neq c 0)) by done.
  assert (skip_amp (amp ++ item_text (n, v) ++ tl) = Some (item_text (n, v) ++ tl)) as ->.
  { rewrite Eh. destruct Ha as [-> | ->]; cbn [app skip_amp Z.eqb Pos.eqb]; by rewrite (proj2 (Z.eqb_neq h 38)). }
  cbn [mbind option_bind]. rewrite Eh at 1. rewrite rd_0. cbn [mbind option_bind].
  rewrite (proj2 (Z.eqb_neq h 0)), (proj2 (Z.leb_gt alloc no)) by (try done; lia).
  unfold item_text. cbn [fst snd]. rewrite <- app_assoc. cbn [app]. rewrite span_name_ok by done.
  cbn [mbind option_bind]. rewrite rd_0. cbn [mbind option_bind Z.eqb Pos.eqb drop]. rewrite drop_0.
  rewrite decode_value_ok; [done|done| |done]. simpl. rewrite length_app. lia.
Qed.

Lemma uri_items_ok nvs : forall fuel no alloc rest,
  query_ok nvs -> no + zlen nvs < alloc -> (length nvs < fuel)%nat ->
  uri_items fuel (items_text nvs ++ 0 :: rest) no alloc = Some nvs.
Proof.
  induction nvs as [|nv nvs IH]; intros [|fuel] no alloc rest Hq Ha Hf; simpl in Hf; try lia.
  - rewrite zlen_nil in Ha. cbn. by rewrite (proj2 (Z.leb_gt alloc no)) by lia.
  - apply Forall_cons_1 in Hq as [[Hn Hv] Hq]. rewrite zlen_cons in Ha. pose proof (zlen_nonneg nvs).
    change (items_text (nv :: nvs)) with ([38] ++ item_text nv ++ items_text nvs). rewrite <- !app_assoc.
    rewrite uri_item_step; [|by right|done|done|apply items_text_head|lia]. by rewrite IH by (try done; lia).
Qed.

(** The arrays as C strings. *)
Definition c_strings (nvs : list (list Z * list Z)) : list (list Z * list Z) :=
  map (fun nv => (nv.1 ++ [0], nv.2 ++ [0])) nvs.

Lemma nonzero_name n : name_ok n -> nonzero n.
Proof. intros H. eapply Forall_impl; [exact H|]. unfold name_char. intros c Hc. simpl. lia. Qed.

Lemma nonzero_value v : value_ok v -> nonzero v.
Proof. intros H. eapply Forall_impl; [exact H|]. by intros c []. Qed.

Lemma array_to_uri_ok nvs : forall i, query_ok nvs -> 0 < i ->
  array_to_uri_loop (c_strings nvs) i = Some (items_text nvs) /\
  exists sz, array_to_uri_size (c_strings nvs) = Some sz /\ zlen (items_text nvs) + 1 <= sz.
Proof.
  induction nvs as [|[n v] nvs IH]; intros i Hq Hi; [split; [done|by exists 1]|].
  apply Forall_cons_1 in Hq as [[Hn Hv] Hq]. cbn [fst snd] in *.
  destruct (IH (i + 1) Hq ltac:(lia)) as [IH1 (sz & IH2 & IH3)].
  destruct (uri_encoding_facts v Hv) as [_ Hlen]. pose proof (zlen_nonneg v).
  cbn [c_strings map fst snd array_to_uri_loop array_to_uri_size].
  rewrite !strlen_spec by (try (by apply nonzero_name); by apply nonzero_value). cbn [mbind option_bind].
  rewrite sub_all. cbn [mbind option_bind]. rewrite encode_component by done. cbn [mbind option_bind].
  unfold c_strings in IH1, IH2. rewrite IH1, IH2. cbn [mbind option_bind].
  rewrite (proj2 (Z.eqb_neq i 0)) by lia.
  change (items_text ((n, v) :: nvs)) with (38 :: item_text (n, v) ++ items_text nvs). unfold item_text. cbn [fst snd].
  split; [by rewrite <- !app_assoc|]. eexists. split; [reflexivity|].
  rewrite zlen_cons, !zlen_app, zlen_cons. lia.
Qed.

(** ** Properties *)

(** [yaz_decode_uri_component] undoes [yaz_encode_uri_component] for every
    string of octets, and the encoding is at most three times as long. *)
Theorem uri_component_roundtrip (s rest mem : list Z) :
  value_ok s ->
  exists enc, yaz_encode_uri_component (s ++ 0 :: rest) = Some enc /\
    zlen enc <= 3 * zlen s /\ nonzero enc /\
    yaz_decode_uri_component (enc ++ mem) (zlen enc) = Some s.
Proof.
  intros Hs. exists (uri_encoding s). destruct (uri_encoding_facts s Hs) as [Hn Hl].
  split; [by apply encode_component|]. split; [lia|]. split; [done|].
  unfold yaz_decode_uri_component. apply decode_loop_encoding; [done|]. unfold zlen. lia.
Qed.

Lemma uri_component_roundtrip_witness :
  exists enc, yaz_encode_uri_component (str "a b&c" ++ [0]) = Some enc /\
    zlen enc <= 3 * zlen (str "a b&c") /\ nonzero enc /\
    yaz_decode_uri_component (enc ++ []) (zlen enc) = Some (str "a b&c").
Proof. apply (uri_component_roundtrip (str "a b&c") [] []). repeat constructor; unfold byte_ok; simpl; lia. Defined.



(** [yaz_uri_to_array] of a query string that ends in a lone ['%'] reads the
    octet after the terminator. *)
Theorem uri_percent_overread (n : list Z) :
  name_ok n -> hd 0 n <> 63 -> yaz_uri_to_array (n ++ [61; 37; 0]) = None.
Proof.
  intros Hn Hh. assert (exists h t, n ++ [61; 37; 0] = h :: t /\ h <> 0 /\ h <> 63 /\ h <> 38) as (h & t & Eh & H0 & H63 & H38).
  { destruct Hn as [|c n Hc Hn]; [by eexists 61, _|]. unfold name_char in Hc. cbn [hd] in Hh.
    eexists c, _. split; [reflexivity|lia]. }
  unfold yaz_uri_to_array. rewrite Eh, rd_0. cbn [mbind option_bind].
  rewrite (proj2 (Z.eqb_neq h 63)), rd_0 by done. cbn [mbind option_bind].
  rewrite (proj2 (Z.eqb_neq h 0)) by done. rewrite <- Eh.
  pose proof (count_names_ok [] (S (length (n ++ [61; 37; 0]))) (n ++ [61; 37]) 2 []) as Hc.
  rewrite <- app_assoc in Hc. cbn [app items_text map concat] in Hc. rewrite Hc; [|constructor| |simpl; lia].
  2: { apply Forall_app. split; [by apply name_inner|repeat constructor; lia]. }
  cbn [mbind option_bind]. cbn [uri_items]. cbv zeta. rewrite Eh at 1. rewrite rd_0. cbn [mbind option_bind].
  rewrite (proj2 (Z.eqb_neq h 0)) by done.
  assert (skip_amp (n ++ [61; 37; 0]) = Some (n ++ [61; 37; 0])) as ->
    by (rewrite Eh; cbn [skip_amp]; by rewrite (proj2 (Z.eqb_neq h 38))).
  cbn [mbind option_bind]. rewrite Eh at 1. rewrite rd_0. cbn [mbind option_bind].
  rewrite (proj2 (Z.eqb_neq h 0)) by done. change (2 + zlen []) with 2. cbn [Z.leb Z.compare].
  by rewrite span_name_ok.
Qed.

Lemma uri_percent_overread_witness : yaz_uri_to_array (str "q" ++ [61; 37; 0]) = None.
Proof. apply (uri_percent_overread (str "q")); [repeat constructor; simpl; lia|done]. Defined.
