(* ===== verification/Comstack.v ===== *)
(** * Framing of messages on a connection (comstack.c)

    [cs_complete_auto] tells the network layer whether the octets that have
    arrived are a complete message: a BER element, or an HTTP request or
    response with its content.  It is given the buffer of the connection and
    the number [len] of octets that have arrived in it.  The theorems: it reads
    nothing outside the buffer and always terminates, an answer does not change
    when more octets arrive, and of a well-formed HTTP message it says that it
    is complete when all of it has arrived, and not before. *)

From stdpp Require Import base list numbers option strings.
From Stdlib Require Import ZArith Lia.
From S2P Require Import Prelude Text BerTag BerLen BerAny MatchStr Atoi.

(** ** Operations *)

(** Whether a line ends at [*i], and the new [*i]. *)
Definition skip_crlf (buf : list Z) (len i : Z) : option (bool * Z) :=
  if i <? len then
    let? c := rd buf i in
    let? crlf := if (c =? 13) && (i <? len - 1)
                 then let? d := rd buf (i + 1) in Some (d =? 10) else Some false in
    if (crlf : bool) then Some (true, i + 2)
    else if c =? 10 then Some (true, i + 1)
    else Some (false, i)
  else Some (false, i).

(** The rest of the line of a chunk length: [None] inside for [return 0]. *)
Fixpoint chunk_line (fuel : nat) (buf : list Z) (len i : Z) : option (option Z) :=
  match fuel with
  | O => None
  | S fuel =>
      if len - 1 <=? i then Some None
      else
        let? (nl, i) := skip_crlf buf len i in
        if (nl : bool) then Some (Some i) else chunk_line fuel buf len (i + 1)
  end.

(** The headers after the last chunk. *)
Fixpoint chunk_trailer (fuel : nat) (buf : list Z) (len i : Z) : option Z :=
  match fuel with
  | O => None
  | S fuel =>
      if i <? len then
        let? (nl, i) := skip_crlf buf len i in
        if (nl : bool) then
          let? (nl, i) := skip_crlf buf len i in
          if (nl : bool) then Some i else chunk_trailer fuel buf len i
        else chunk_trailer fuel buf len (i + 1)
      else Some 0
  end.

Fixpoint read_chunks (fuel : nat) (buf : list Z) (i len : Z) : option Z :=
  match fuel with
  | O => None
  | S fuel =>
      if len <=? i then Some 0
      else
        let? (r, chunk_len) := yaz_atoi 16 (drop (Z.to_nat i) buf) (len - i) 0 in
        if r <=? 0 then Some (-1)
        else
          let i := i + r in
          if chunk_len =? 0 then chunk_trailer (S (Z.to_nat len)) buf len i
          else
            let? l := chunk_line (S (Z.to_nat len)) buf len i in
            match l with
            | None => Some 0
            | Some i =>
                if INT_MAX - i <? chunk_len then Some (-1)
                else
                  let i := i + chunk_len in
                  if len - 2 <=? i then Some 0
                  else
                    let? (nl, i) := skip_crlf buf len i in
                    if (nl : bool) then read_chunks fuel buf i len else Some 0
            end
  end.

Definition cs_read_chunks (buf : list Z) (i len : Z) : option Z :=
  read_chunks (S (Z.to_nat len)) buf i len.

(** The first end of a line: [None] inside for [return 0]. *)
Fixpoint first_line (fuel : nat) (buf : list Z) (len i : Z) : option (option Z) :=
  match fuel with
  | O => None
  | S fuel =>
      if i =? len then Some None
      else
        let? c := rd buf i in
        if (c =? 10) || (c =? 13) then Some (Some i) else first_line fuel buf len (i + 1)
  end.

(** [!memcmp(buf + j, s, n)], for a literal [s] of [n] characters: all of them
    must be there to be compared. *)
Definition memeq (buf : list Z) (j : Z) (s : list Z) : option bool :=
  let? m := sub buf j (zlen s) in Some (bool_decide (m = s)).

(** The status code of a response: [head_only] and [content_len]. *)
Fixpoint status_code (fuel : nat) (buf : list Z) (i j : Z) : option (bool * Z) :=
  match fuel with
  | O => None
  | S fuel =>
      if j <? i then
        let? c := rd buf j in
        if c =? 32 then
          let j := j + 1 in
          let? c := rd buf j in
          if c =? 49 then Some (true, 0)
          else
            let? e204 := memeq buf j (str "204") in
            if (e204 : bool) then Some (true, 0)
            else
              let? e304 := memeq buf j (str "304") in
              if (e304 : bool) then Some (true, 0) else Some (false, -1)
        else status_code fuel buf i (j + 1)
      else Some (false, 0)
  end.

(** [while (i < len && buf[i] == ' ') i++;] *)
Fixpoint skip_blanks (fuel : nat) (buf : list Z) (len i : Z) : option Z :=
  match fuel with
  | O => None
  | S fuel =>
      if i <? len then
        let? c := rd buf i in
        if c =? 32 then skip_blanks fuel buf len (i + 1) else Some i
      else Some i
  end.

(** [!yaz_strncasecmp(buf + i, s, n)] *)
Definition header_is (buf : list Z) (i : Z) (s : list Z) : option bool :=
  let? r := yaz_strncasecmp (drop (Z.to_nat i) buf) (s ++ [0]) (zlen s) in Some (r =? 0).

(** The value of Transfer-Encoding, which stops at the end of the line:
    [None] inside for [return 0]. *)
Fixpoint te_value (fuel : nat) (buf : list Z) (len token_start i : Z) (chunked : bool)
  : option (option (Z * bool)) :=
  match fuel with
  | O => None
  | S fuel =>
      if len - 2 <=? i then Some None
      else
        let? c := if i =? token_start + 7 then header_is buf token_start (str "chunked")
                  else Some false in
        let chunked := chunked || c in
        let? (nl, _) := skip_crlf buf len i in
        if (nl : bool) then Some (Some (i, chunked))
        else te_value fuel buf len token_start (i + 1) chunked
  end.

(** The content after the head, which ends at [i]. *)
Definition http_content (buf : list Z) (len : Z) (head_only chunked : bool) (content_len i : Z)
  : option Z :=
  if head_only then Some i
  else if chunked then cs_read_chunks buf i len
  else if content_len =? -1 then Some 0
  else if u32 (INT_MAX - i) <? u32 content_len then Some (-1)
  else if i + content_len <=? len then Some (i + content_len)
  else Some 0.

(** The header line at [i]: [inl] for a [return], or the new [i], [chunked] and
    [content_len]. *)
Definition http_header (buf : list Z) (len : Z) (chunked : bool) (content_len i : Z)
  : option (Z + Z * bool * Z) :=
  let? te := if i <? len - 19 then header_is buf i (str "Transfer-Encoding:") else Some false in
  if (te : bool) then
    let? i := skip_blanks (S (Z.to_nat len)) buf len (i + 18) in
    let? v := te_value (S (Z.to_nat len)) buf len i i chunked in
    match v with
    | None => Some (inl 0)
    | Some (i, chunked) => Some (inr (i, chunked, content_len))
    end
  else
    let? cl := if i <? len - 16 then header_is buf i (str "Content-Length:") else Some false in
    if (cl : bool) then
      let? i := skip_blanks (S (Z.to_nat len)) buf len (i + 15) in
      if i =? len then Some (inl 0)
      else
        let? (no_read, content_len) :=
          yaz_atoi 10 (drop (Z.to_nat i) buf) (len - i) content_len in
        if no_read <=? 0 then Some (inl (-1))
        else Some (inr (i + no_read, chunked, content_len))
    else Some (inr (i + 1, chunked, content_len)).

Fixpoint http_headers (fuel : nat) (buf : list Z) (len : Z) (head_only chunked : bool)
    (content_len i : Z) : option Z :=
  match fuel with
  | O => None
  | S fuel =>
      if i <=? len - 2 then
        if 8192 <? i then Some (-1)
        else
          let? (nl, i) := skip_crlf buf len i in
          if negb nl then http_headers fuel buf len head_only chunked content_len (i + 1)
          else
            let? (nl, i) := skip_crlf buf len i in
            if (nl : bool) then http_content buf len head_only chunked content_len i
            else
              let? h := http_header buf len chunked content_len i in
              match h with
              | inl r => Some r
              | inr (i, chunked, content_len) =>
                  http_headers fuel buf len head_only chunked content_len i
              end
      else Some 0
  end.

Definition cs_complete_http (buf : list Z) (len : Z) (head_only : bool) : option Z :=
  let? l := first_line (S (Z.to_nat len)) buf len 0 in
  match l with
  | None => Some 0
  | Some i =>
      let? r := if head_only then Some false else memeq buf 0 (str "HTTP/") in
      let? (head_only, content_len) :=
        if (r : bool) then status_code (S (Z.to_nat len)) buf i 5 else Some (head_only, 0) in
      http_headers (S (Z.to_nat len)) buf len head_only false content_len 2
  end.

(** [buf[i] >= 0x20 && buf[i] < 0x7f] *)
Definition printable (c : Z) : bool := (32 <=? s8 c) && (s8 c <? 127).

(** The four tests, from left to right. *)
Fixpoint all_printable (n : nat) (buf : list Z) (i : Z) : option bool :=
  match n with
  | O => Some true
  | S n =>
      let? c := rd buf i in
      if printable c then all_printable n buf (i + 1) else Some false
  end.

Definition cs_complete_auto_x (buf : list Z) (len : Z) (head_only : bool) : option Z :=
  let? http := if 5 <? len then all_printable 4 buf 0 else Some false in
  if (http : bool) then cs_complete_http buf len head_only
  else completeBER_n (ber_fuel len) buf len 0.

Definition cs_complete_auto (buf : list Z) (len : Z) : option Z := cs_complete_auto_x buf len false.
Definition cs_complete_auto_head (buf : list Z) (len : Z) : option Z := cs_complete_auto_x buf len true.

#[global] Arguments skip_crlf : simpl never.
#[global] Arguments header_is : simpl never.
#[global] Arguments http_headers : simpl never.
#[global] Arguments http_header : simpl never.
#[global] Arguments http_content : simpl never.
#[global] Arguments all_printable : simpl never.
#[global] Arguments read_chunks : simpl never.
#[global] Arguments chunk_line : simpl never.
#[global] Arguments chunk_trailer : simpl never.
#[global] Arguments first_line : simpl never.
#[global] Arguments status_code : simpl never.
#[global] Arguments skip_blanks : simpl never.
#[global] Arguments te_value : simpl never.
#[global] Arguments yaz_atoi : simpl never.

(** ** Bounds, and answers that do not change

    [len] octets have arrived, [len'] later on, in the same buffer. *)

(** The comparison reads as many octets as the name has. *)
Lemma strncasecmp_total s : forall b t, (length s <= length b)%nat ->
  exists r, strncasecmp_loop b (s ++ t) (length s) = Some r /\
    (r = 0 -> Forall2 (fun c d => fold_case c = fold_case d) (take (length s) b) s).
Proof.
  induction s as [|d s IH]; intros b t Hb; [by exists 0|].
  destruct b as [|c b]; simpl in *; [lia|].
  destruct (Z.eqb_spec (fold_case c) (fold_case d)) as [E|E]; simpl.
  - destruct (IH b t) as (r & -> & Hr); [lia|]. exists r. split; [done|]. intros H. constructor; auto.
  - eexists. split; [done|]. lia.
Qed.

Lemma header_is_total buf i s : 0 <= i -> i + zlen s <= zlen buf ->
  exists b, header_is buf i s = Some b /\
    (b = true -> forall k d, s !! k = Some d ->
       exists c, rd buf (i + Z.of_nat k) = Some c /\ fold_case c = fold_case d).
Proof.
  intros Hi Hs. unfold header_is, yaz_strncasecmp. change (Z.to_nat (zlen s)) with (Z.to_nat (Z.of_nat (length s))).
  rewrite Nat2Z.id.
  destruct (strncasecmp_total s (drop (Z.to_nat i) buf) [0]) as (r & -> & Hr).
  { rewrite length_drop. unfold zlen in *. lia. }
  simpl. exists (r =? 0). split; [done|]. intros ->%Z.eqb_eq k d Hd. specialize (Hr eq_refl).
  destruct (Forall2_lookup_r _ _ _ _ _ Hr Hd) as (c & Hc & Hf). exists c. split; [|done].
  apply lookup_take_Some in Hc as [Hc _]. rewrite lookup_drop in Hc.
  unfold rd. rewrite (proj2 (Z.leb_le 0 _)) by lia. rewrite <- Hc. f_equal. lia.
Qed.

Section framing.
Context (buf : list Z) (len len' : Z).
Context (Hlen : 0 <= len <= len') (Hmax : len' <= INT_MAX) (Hbuf : len' + 2 <= zlen buf).

Lemma atoi_more base i v0 : 2 <= base <= 36 -> 0 <= i < len ->
  exists r v, yaz_atoi base (drop (Z.to_nat i) buf) (len - i) v0 = Some (r, v) /\
    -1 <= r <= len - i /\ (0 < r -> 0 <= v <= INT_MAX) /\
    (r < len - i -> yaz_atoi base (drop (Z.to_nat i) buf) (len' - i) v0 = Some (r, v)).
Proof.
  intros Hb Hi. unfold yaz_atoi, yaz_atoul.
  rewrite (proj2 (Z.ltb_ge base 2)), (proj2 (Z.ltb_ge 36 base)) by lia. cbn [orb].
  destruct (atoul_loop_more base (drop (Z.to_nat i) buf) (Z.to_nat (len - i)) (Z.to_nat (len' - i)) 0 0)
    as (r & u & r' & u' & -> & -> & Hr & Hu & Hu' & Hs & Hm); [lia| |done|done|unfold ULONG_MAX; lia|].
  { rewrite length_drop. unfold zlen in *. lia. }
  simpl. destruct (Z.eqb_spec r (-1)) as [->|].
  { exists (-1), v0. split; [done|]. split; [lia|]. split; [lia|]. intros _.
    destruct Hs as [-> ->]; [lia|]. done. }
  destruct (Z.ltb_spec INT_MAX u) as [Ho|Ho].
  { exists (-1), v0. split; [done|]. split; [lia|]. split; [lia|]. intros _.
    destruct (Z.eqb_spec r' (-1)); [done|]. by rewrite (proj2 (Z.ltb_lt _ _)) by lia. }
  exists r, u. split; [done|]. split; [lia|]. split; [lia|]. intros H.
  destruct Hs as [-> ->]; [lia|]. rewrite (proj2 (Z.eqb_neq _ _)), (proj2 (Z.ltb_ge _ _)) by lia. done.
Qed.

(** What the code sees of a line end at [i]. *)
Lemma skip_more i : 0 <= i ->
  exists b j, skip_crlf buf len i = Some (b, j) /\ (if b then i < j <= len else j = i) /\
    (b = true \/ i < len - 1 -> skip_crlf buf len' i = Some (b, j)).
Proof.
  intros Hi. unfold skip_crlf. destruct (Z.ltb_spec i len) as [H|H].
  2: { exists false, i. split; [done|]. split; [done|]. intros [|]; [done|lia]. }
  rewrite (proj2 (Z.ltb_lt i len')) by lia.
  destruct (rd_Some buf i) as [c ->]; [lia|]. destruct (rd_Some buf (i + 1)) as [d ->]; [lia|]. simpl.
  destruct (Z.eqb_spec c 13) as [->|]; simpl.
  - destruct (Z.ltb_spec i (len - 1)); simpl.
    + rewrite (proj2 (Z.ltb_lt i (len' - 1))) by lia. simpl.
      destruct (d =? 10); do 2 eexists; (split; [done|]); (split; [lia|done]).
    + do 2 eexists. split; [done|]. split; [done|]. intros [|]; [done|lia].
  - destruct (c =? 10); do 2 eexists; (split; [done|]); (split; [lia|done]).
Qed.

Lemma chunk_line_more fuel : forall i fuel', 0 <= i ->
  (Z.to_nat (len - i) < fuel)%nat -> (Z.to_nat (len' - i) < fuel')%nat ->
  exists l, chunk_line fuel buf len i = Some l /\
    match l with
    | None => True
    | Some j => i < j <= len /\ chunk_line fuel' buf len' i = Some (Some j)
    end.
Proof.
  induction fuel as [|fuel IH]; intros i fuel' Hi Hf Hf'; [lia|].
  destruct fuel' as [|fuel']; [lia|]. unfold chunk_line; fold chunk_line.
  destruct (Z.leb_spec (len - 1) i); [by exists None|].
  rewrite (proj2 (Z.leb_gt (len' - 1) i)) by lia.
  destruct (skip_more i Hi) as (b & j & -> & Hj & ->); [|lia]. simpl. destruct b; [by exists (Some j)|].
  subst j. destruct (IH (i + 1) fuel') as (l & -> & H'); [lia..|]. exists l. split; [done|].
  destruct l; [|done]. destruct H'; split; [lia|done].
Qed.

Lemma trailer_last fuel i : len - 1 <= i -> 0 <= i -> skip_crlf buf len i = Some (false, i) ->
  chunk_trailer (S (S fuel)) buf len i = Some 0.
Proof.
  intros Hi H0 E. unfold chunk_trailer; fold chunk_trailer. destruct (Z.ltb_spec i len); [|done]. rewrite E. simpl.
  by rewrite (proj2 (Z.ltb_ge (i + 1) len)) by lia.
Qed.

Lemma trailer_more fuel : forall i fuel', 0 <= i ->
  (Z.to_nat (len - i) + 1 < fuel)%nat -> (Z.to_nat (len' - i) + 1 < fuel')%nat ->
  exists r, chunk_trailer fuel buf len i = Some r /\ 0 <= r <= len /\
    (r <> 0 -> chunk_trailer fuel' buf len' i = Some r).
Proof.
  induction fuel as [|fuel IH]; intros i fuel' Hi Hf Hf'; [lia|].
  destruct fuel' as [|fuel']; [lia|]. unfold chunk_trailer; fold chunk_trailer.
  destruct (Z.ltb_spec i len); [|exists 0; split; [done|lia]].
  rewrite (proj2 (Z.ltb_lt i len')) by lia.
  destruct (skip_more i Hi) as (b & j & -> & Hj & E'). simpl. destruct b; simpl.
  - rewrite E' by auto. simpl.
    destruct (skip_more j) as (b2 & j2 & E2 & Hj2 & E2'); [lia|]. rewrite E2. simpl. destruct b2.
    + exists j2. split; [done|]. split; [lia|]. intros _. rewrite E2' by auto. done.
    + subst j2. destruct (Z.le_gt_cases (len - 1) j).
      * exists 0. destruct fuel as [|[|fuel]]; [lia..|]. rewrite trailer_last by (done || lia).
        split; [done|lia].
      * destruct (IH j fuel') as (r & -> & Hr & E); [lia..|]. exists r. split; [done|].
        split; [lia|]. intros Hne. rewrite E2' by lia. simpl. by apply E.
  - subst j. destruct (Z.le_gt_cases (len - 1) i).
    + exists 0. destruct fuel as [|fuel]; [lia|]. unfold chunk_trailer; fold chunk_trailer.
      rewrite (proj2 (Z.ltb_ge (i + 1) len)) by lia. split; [done|lia].
    + destruct (IH (i + 1) fuel') as (r & -> & Hr & E); [lia..|]. exists r. split; [done|].
      split; [lia|]. intros Hne. rewrite E' by lia. simpl. by apply E.
Qed.

Lemma chunks_more fuel : forall i fuel', 0 <= i ->
  (Z.to_nat (len - i) < fuel)%nat -> (Z.to_nat (len' - i) < fuel')%nat ->
  exists r, read_chunks fuel buf i len = Some r /\ -1 <= r <= len /\
    (r <> 0 -> read_chunks fuel' buf i len' = Some r).
Proof.
  induction fuel as [|fuel IH]; intros i fuel' Hi Hf Hf'; [lia|].
  destruct fuel' as [|fuel']; [lia|]. unfold read_chunks; fold read_chunks.
  destruct (Z.leb_spec len i); [exists 0; split; [done|lia]|].
  rewrite (proj2 (Z.leb_gt len' i)) by lia.
  destruct (atoi_more 16 i 0) as (r & v & -> & Hr & Hv & E'); [lia..|]. simpl.
  destruct (Z.leb_spec r 0).
  { exists (-1). split; [done|]. split; [lia|]. intros _. rewrite E' by lia. simpl.
    by rewrite (proj2 (Z.leb_le r 0)) by lia. }
  destruct (Z.le_gt_cases (len - i) r) as [He|He].
  - (* the digits reach to the end *)
    exists 0. replace (i + r) with len by lia. destruct (v =? 0).
    + unfold chunk_trailer; fold chunk_trailer. rewrite (proj2 (Z.ltb_ge len len)) by lia. split; [done|lia].
    + unfold chunk_line; fold chunk_line. rewrite (proj2 (Z.leb_le (len - 1) len)) by lia. split; [done|lia].
  - rewrite E' by lia. simpl. rewrite (proj2 (Z.leb_gt r 0)) by lia. destruct (v =? 0).
    + destruct (trailer_more (S (Z.to_nat len)) (i + r) (S (Z.to_nat len'))) as (r2 & -> & Hr2 & E2); [lia..|].
      exists r2. split; [done|]. split; [lia|done].
    + destruct (chunk_line_more (S (Z.to_nat len)) (i + r) (S (Z.to_nat len'))) as (l & -> & Hl); [lia..|].
      simpl. destruct l as [j|]; [|exists 0; split; [done|lia]]. destruct Hl as [Hj ->]. simpl.
      destruct (INT_MAX - j <? v); [exists (-1); split; [done|split; [lia|done]]|].
      destruct (Z.leb_spec (len - 2) (j + v)); [exists 0; split; [done|lia]|].
      rewrite (proj2 (Z.leb_gt (len' - 2) _)) by lia.
      destruct (skip_more (j + v)) as (b & j2 & -> & Hj2 & ->); [lia| |lia]. simpl.
      destruct b; [|exists 0; split; [done|lia]].
      destruct (IH j2 fuel') as (r2 & -> & Hr2 & E2); [lia..|]. exists r2. done.
Qed.

Lemma blanks_more fuel : forall i fuel', 0 <= i <= len ->
  (Z.to_nat (len - i) < fuel)%nat -> (Z.to_nat (len' - i) < fuel')%nat ->
  exists j, skip_blanks fuel buf len i = Some j /\ i <= j <= len /\
    (j < len -> skip_blanks fuel' buf len' i = Some j).
Proof.
  induction fuel as [|fuel IH]; intros i fuel' Hi Hf Hf'; [lia|].
  destruct fuel' as [|fuel']; [lia|]. unfold skip_blanks; fold skip_blanks.
  destruct (Z.ltb_spec i len); [|exists i; split; [done|lia]].
  rewrite (proj2 (Z.ltb_lt i len')) by lia. destruct (rd_Some buf i) as [c ->]; [lia|]. simpl.
  destruct (c =? 32); [|exists i; split; [done|split; [lia|done]]].
  destruct (IH (i + 1) fuel') as (j & -> & Hj & E); [lia..|].
  exists j. split; [done|]. split; [lia|done].
Qed.

Lemma te_value_more ts fuel : 0 <= ts -> forall i ch fuel', 0 <= i ->
  (Z.to_nat (len - i) < fuel)%nat -> (Z.to_nat (len' - i) < fuel')%nat ->
  exists v, te_value fuel buf len ts i ch = Some v /\
    match v with
    | None => True
    | Some (j, ch') => i <= j < len - 2 /\ te_value fuel' buf len' ts i ch = Some (Some (j, ch'))
    end.
Proof.
  intros Hts. induction fuel as [|fuel IH]; intros i ch fuel' Hi Hf Hf'; [lia|].
  destruct fuel' as [|fuel']; [lia|]. unfold te_value; fold te_value.
  destruct (Z.leb_spec (len - 2) i); [by exists None|].
  rewrite (proj2 (Z.leb_gt (len' - 2) i)) by lia.
  assert (exists c, (if i =? ts + 7 then header_is buf ts (str "chunked") else Some false) = Some c)
    as [c ->].
  { destruct (Z.eqb_spec i (ts + 7)); [|eauto].
    destruct (header_is_total buf ts (str "chunked")) as (b & -> & _); [done| |eauto].
    change (zlen (str "chunked")) with 7. lia. }
  simpl. destruct (skip_more i Hi) as (b & j & -> & Hj & ->); [|lia]. simpl.
  destruct b; [exists (Some (i, ch || c)); split; [done|]; split; [lia|done]|].
  subst j. destruct (IH (i + 1) (ch || c) fuel') as (v & -> & Hv); [lia..|].
  exists v. split; [done|]. destruct v as [[j ch']|]; [|done]. destruct Hv. split; [lia|done].
Qed.

(** Too few octets are left for the end of the head. *)
Lemma headers_short fuel ho ch cl : forall i, 0 <= i -> (Z.to_nat (len - i) < fuel)%nat ->
  (forall j, i <= j -> j <= len - 2 -> exists c, rd buf j = Some c /\ c <> 10 /\ c <> 13) ->
  exists r, http_headers fuel buf len ho ch cl i = Some r /\ (r = 0 \/ r = -1 /\ 8194 < len).
Proof.
  induction fuel as [|fuel IH]; intros i Hi Hf Hc; [lia|].
  unfold http_headers; fold http_headers.
  destruct (Z.leb_spec i (len - 2)); [|exists 0; auto].
  destruct (Z.ltb_spec 8192 i); [exists (-1); split; [done|lia]|].
  assert (skip_crlf buf len i = Some (false, i)) as ->.
  { unfold skip_crlf. rewrite (proj2 (Z.ltb_lt i len)) by lia.
    destruct (Hc i) as (c & -> & H1 & H2); [lia..|]. simpl.
    rewrite (proj2 (Z.eqb_neq c 13)), (proj2 (Z.eqb_neq c 10)) by done. done. }
  simpl. apply IH; [lia..|]. intros. apply Hc; lia.
Qed.

(** The same after the name of a header of [n] characters at [i], of which at
    most one octet follows. *)
Lemma header_short fuel ho ch cl i s :
  0 <= i -> (Z.to_nat (len - (i + 1)) < fuel)%nat -> len <= i + zlen s + 1 ->
  Forall (fun d => fold_case d <> 10 /\ fold_case d <> 13) s ->
  header_is buf i s = Some true -> i + zlen s <= zlen buf ->
  exists r, http_headers fuel buf len ho ch cl (i + 1) = Some r /\ (r = 0 \/ r = -1 /\ 8194 < len).
Proof.
  intros Hi Hf Hl Hs Hh Hb. destruct (header_is_total buf i s Hi Hb) as (b & E & H).
  rewrite E in Hh. injection Hh as ->. specialize (H eq_refl).
  apply headers_short; [lia..|]. intros j Hj Hj2.
  destruct (lookup_lt_is_Some_2 s (Z.to_nat (j - i))) as [d Hd]; [unfold zlen in *; lia|].
  destruct (H _ _ Hd) as (c & Hc & Hf2). exists c. split; [rewrite <- Hc; f_equal; lia|].
  rewrite Forall_lookup in Hs. specialize (Hs _ _ Hd).
  split; intros ->; rewrite <- Hf2 in Hs; destruct Hs as [H1 H2]; [by apply H1|by apply H2].
Qed.

Lemma content_more ho ch cl i : 0 <= i <= len -> -1 <= cl <= INT_MAX ->
  exists r, http_content buf len ho ch cl i = Some r /\ -1 <= r <= len /\
    (r <> 0 -> http_content buf len' ho ch cl i = Some r).
Proof.
  intros Hi Hcl. unfold http_content, cs_read_chunks.
  destruct ho; [exists i; split; [done|split; [lia|done]]|].
  destruct ch; [apply chunks_more; lia|].
  destruct (Z.eqb_spec cl (-1)); [exists 0; split; [done|lia]|].
  destruct (_ <? _); [exists (-1); split; [done|split; [lia|done]]|].
  destruct (Z.leb_spec (i + cl) len); [|exists 0; split; [done|lia]].
  exists (i + cl). split; [done|]. split; [lia|]. intros _. by rewrite (proj2 (Z.leb_le _ len')) by lia.
Qed.

(** What a header line leads to, and what [len'] octets change of it. *)
Definition header_agrees (ch : bool) (cl i : Z) (h : Z + Z * bool * Z) : Prop :=
  match h with
  | inl r => r = 0 \/ r = -1 /\ http_header buf len' ch cl i = Some h
  | inr (j, _, cl') => i < j <= len /\ -1 <= cl' <= INT_MAX /\
      (j < len - 1 -> http_header buf len' ch cl i = Some h)
  end.

Lemma te_header_more ch cl i : 0 <= i < len - 19 -> -1 <= cl <= INT_MAX ->
  header_is buf i (str "Transfer-Encoding:") = Some true ->
  exists h, http_header buf len ch cl i = Some h /\ header_agrees ch cl i h.
Proof.
  intros Hi Hcl Hte. unfold header_agrees, http_header.
  rewrite (proj2 (Z.ltb_lt i (len - 19))), (proj2 (Z.ltb_lt i (len' - 19))) by lia. rewrite Hte. simpl.
  destruct (blanks_more (S (Z.to_nat len)) (i + 18) (S (Z.to_nat len'))) as (j & -> & Hj & E); [lia..|].
  simpl. destruct (te_value_more j (S (Z.to_nat len))) with (i := j) (ch := ch) (fuel' := S (Z.to_nat len'))
    as (v & -> & Hv); [lia..|]. simpl.
  destruct v as [[k c]|]; [|exists (inl 0); auto]. destruct Hv as [Hk Ev]. rewrite E by lia. simpl.
  rewrite Ev. simpl. eexists. split; [done|]. simpl. split; [lia|auto].
Qed.

Lemma cl_header_more ch cl i : 0 <= i < len - 16 -> -1 <= cl <= INT_MAX ->
  (forall l, l = len \/ l = len' ->
     (if i <? l - 19 then header_is buf i (str "Transfer-Encoding:") else Some false) = Some false) ->
  header_is buf i (str "Content-Length:") = Some true ->
  exists h, http_header buf len ch cl i = Some h /\ header_agrees ch cl i h.
Proof.
  intros Hi Hcl Hte Hc. unfold header_agrees, http_header. rewrite !Hte by auto. rewrite Hc. simpl.
  rewrite (proj2 (Z.ltb_lt i (len - 16))), (proj2 (Z.ltb_lt i (len' - 16))) by lia. simpl.
  destruct (blanks_more (S (Z.to_nat len)) (i + 15) (S (Z.to_nat len'))) as (j & -> & Hj & E); [lia..|].
  simpl. destruct (Z.eqb_spec j len); [exists (inl 0); auto|]. rewrite E by lia. simpl.
  rewrite (proj2 (Z.eqb_neq j len')) by lia.
  destruct (atoi_more 10 j cl) as (r & v & -> & Hr & Hv & Ea); [lia..|]. simpl.
  destruct (Z.leb_spec r 0).
  { rewrite Ea by lia. simpl. rewrite (proj2 (Z.leb_le r 0)) by lia. eexists. split; [done|]. by right. }
  eexists. split; [done|]. simpl. split; [lia|]. split; [lia|]. intros Hj2. rewrite Ea by lia. simpl.
  by rewrite (proj2 (Z.leb_gt r 0)) by lia.
Qed.

(** The test for a header with the name [s], of which [k] octets must be left. *)
Lemma header_test i k s l : 0 <= i -> l <= len' -> zlen s <= k ->
  exists b, (if i <? l - k then header_is buf i s else Some false) = Some b /\
    (b = true -> i < l - k /\ header_is buf i s = Some true).
Proof.
  intros Hi Hl Hk. destruct (Z.ltb_spec i (l - k)); [|by exists false].
  destruct (header_is_total buf i s) as (b & -> & _); [lia..|]. exists b. split; [done|]. by intros ->.
Qed.

(** The two names are not mistaken for each other. *)
Lemma header_names i l : 0 <= i -> i < l - 16 -> l <= len' ->
  header_is buf i (str "Transfer-Encoding:") = Some true -> i + 18 <= zlen buf ->
  header_is buf i (str "Content-Length:") = Some false.
Proof.
  intros Hi Hl Hl' Ht Hb.
  destruct (header_is_total buf i (str "Transfer-Encoding:")) as (b & E & H); [done|done|].
  rewrite E in Ht. injection Ht as ->.
  destruct (header_is_total buf i (str "Content-Length:")) as (b & -> & H2); [done|change (zlen (str "Content-Length:")) with 15; lia|].
  destruct b; [|done]. exfalso.
  destruct (H eq_refl 0%nat 84 eq_refl) as (c & E1 & F1).
  destruct (H2 eq_refl 0%nat 67 eq_refl) as (c2 & E2 & F2).
  rewrite E1 in E2. injection E2 as <-. rewrite F1 in F2. done.
Qed.

(** A line that is passed over with [len] octets, and perhaps not with [len']. *)
Lemma header_more ch cl i : 0 <= i < len - 1 -> -1 <= cl <= INT_MAX ->
  exists h, http_header buf len ch cl i = Some h /\
    (header_agrees ch cl i h \/
     h = inr (i + 1, ch, cl) /\ forall fuel ho, (Z.to_nat (len - (i + 1)) < fuel)%nat ->
       exists r, http_headers fuel buf len ho ch cl (i + 1) = Some r /\ (r = 0 \/ r = -1 /\ 8194 < len)).
Proof.
  intros Hi Hcl.
  destruct (header_test i 19 (str "Transfer-Encoding:") len) as (t & Et & Ht); [lia|lia|done|].
  destruct t.
  { destruct (Ht eq_refl) as [Hi2 Ht2]. destruct (te_header_more ch cl i) as (h & E & A); [lia|done..|].
    exists h. auto. }
  destruct (header_test i 16 (str "Content-Length:") len) as (c & Ec & Hc); [lia|lia|done|].
  destruct (header_test i 19 (str "Transfer-Encoding:") len') as (t' & Et' & Ht'); [lia|lia|done|].
  destruct (header_test i 16 (str "Content-Length:") len') as (c' & Ec' & Hc'); [lia|lia|done|].
  clear Ht. destruct t'.
  { destruct (Ht' eq_refl) as [Hi2 Ht2]. assert (len - 19 <= i) as Hge.
    { destruct (Z.ltb_spec i (len - 19)); [congruence|done]. }
    exists (inr (i + 1, ch, cl)). split.
    - unfold http_header. rewrite Et, Ec. destruct c; [|done]. exfalso. destruct (Hc eq_refl) as [H1 H2].
      rewrite (header_names i len) in H2 by (done || lia). done.
    - right. split; [done|]. intros fuel ho Hf.
      apply (header_short fuel ho ch cl i (str "Transfer-Encoding:")); [lia|done| |by repeat constructor|done|];
        change (zlen (str "Transfer-Encoding:")) with 18; lia. }
  destruct c.
  { destruct (Hc eq_refl) as [Hi2 Hc2].
    destruct (cl_header_more ch cl i) as (h & E & A); [lia|done|by intros l [->| ->]|done|]. exists h. auto. }
  exists (inr (i + 1, ch, cl)). split; [unfold http_header; by rewrite Et, Ec|].
  destruct c'; [right; split; [done|]|left; simpl; split; [lia|]; split; [lia|]; intros _; unfold http_header; by rewrite Et', Ec'].
  destruct (Hc' eq_refl) as [Hi2 Hc2]. assert (len - 16 <= i) as Hge.
  { destruct (Z.ltb_spec i (len - 16)); [congruence|done]. }
  intros fuel ho Hf.
  apply (header_short fuel ho ch cl i (str "Content-Length:")); [lia|done| |by repeat constructor|done|];
    change (zlen (str "Content-Length:")) with 15; lia.
Qed.

Lemma headers_more fuel : forall i ho ch cl fuel', 0 <= i -> -1 <= cl <= INT_MAX ->
  (Z.to_nat (len - i) < fuel)%nat -> (Z.to_nat (len' - i) < fuel')%nat ->
  exists r, http_headers fuel buf len ho ch cl i = Some r /\ -1 <= r <= len /\
    (0 < r \/ r = -1 /\ len <= 8194 -> http_headers fuel' buf len' ho ch cl i = Some r).
Proof.
  induction fuel as [|fuel IH]; intros i ho ch cl fuel' Hi Hcl Hf Hf'; [lia|].
  destruct fuel' as [|fuel']; [lia|]. unfold http_headers; fold http_headers.
  destruct (Z.leb_spec i (len - 2)); [|exists 0; split; [done|lia]].
  rewrite (proj2 (Z.leb_le i (len' - 2))) by lia.
  destruct (Z.ltb_spec 8192 i); [exists (-1); split; [done|lia]|].
  destruct (skip_more i Hi) as (b & j & -> & Hj & ->); [|lia]. simpl.
  destruct b; simpl; [|subst j; apply IH; lia].
  destruct (skip_more j) as (b & j2 & -> & Hj2 & E2); [lia|]. simpl. destruct b.
  { rewrite E2 by auto. simpl. destruct (content_more ho ch cl j2) as (r & E & Hr & E3); [lia..|].
    exists r. split; [done|]. split; [done|]. intros ?. apply E3. lia. }
  subst j2. destruct (Z.le_gt_cases (len - 1) j).
  { exists 0. unfold http_header.
    rewrite (proj2 (Z.ltb_ge j (len - 19))), (proj2 (Z.ltb_ge j (len - 16))) by lia. simpl.
    destruct fuel as [|fuel]; [lia|]. unfold http_headers; fold http_headers.
    rewrite (proj2 (Z.leb_gt (j + 1) (len - 2))) by lia. split; [done|lia]. }
  rewrite E2 by lia. simpl. destruct (header_more ch cl j) as (h & -> & [A|[-> A]]); [lia..| |]; simpl.
  - destruct h as [r|[[k ch'] cl']]; simpl in A.
    + exists r. split; [done|]. split; [lia|]. intros Hr. destruct A as [->|[-> ->]]; [lia|done].
    + destruct A as (Hk & Hcl' & E). destruct (Z.le_gt_cases (len - 1) k).
      * exists 0. destruct fuel as [|fuel]; [lia|]. unfold http_headers; fold http_headers.
        rewrite (proj2 (Z.leb_gt k (len - 2))) by lia. split; [done|lia].
      * rewrite E by lia. apply IH; lia.
  - destruct (A fuel ho) as (r & -> & Hr); [lia|]. exists r. split; [done|]. split; [lia|]. intros. lia.
Qed.

Lemma first_line_more fuel : forall i fuel', 0 <= i <= len ->
  (Z.to_nat (len - i) < fuel)%nat -> (Z.to_nat (len' - i) < fuel')%nat ->
  exists l, first_line fuel buf len i = Some l /\
    match l with
    | None => True
    | Some j => i <= j < len /\ first_line fuel' buf len' i = Some (Some j)
    end.
Proof.
  induction fuel as [|fuel IH]; intros i fuel' Hi Hf Hf'; [lia|].
  destruct fuel' as [|fuel']; [lia|]. unfold first_line; fold first_line.
  destruct (Z.eqb_spec i len); [by exists None|]. rewrite (proj2 (Z.eqb_neq i len')) by lia.
  destruct (rd_Some buf i) as [c ->]; [lia|]. simpl.
  destruct (_ || _); [exists (Some i); split; [done|]; split; [lia|done]|].
  destruct (IH (i + 1) fuel') as (l & -> & H); [lia..|]. exists l. split; [done|].
  destruct l; [|done]. destruct H. split; [lia|done].
Qed.

Lemma memeq_total j s : 0 <= j -> j + zlen s <= zlen buf -> exists b, memeq buf j s = Some b.
Proof.
  intros Hj Hs. unfold memeq. pose proof (zlen_nonneg s). rewrite sub_spec by lia. simpl. eauto.
Qed.

Lemma status_code_more i fuel : i < len -> forall j fuel', 0 <= j ->
  (Z.to_nat (i - j) < fuel)%nat -> (Z.to_nat (i - j) < fuel')%nat ->
  exists ho cl, status_code fuel buf i j = Some (ho, cl) /\ -1 <= cl <= 0 /\
    status_code fuel' buf i j = Some (ho, cl).
Proof.
  intros Hi. induction fuel as [|fuel IH]; intros j fuel' Hj Hf Hf'; [lia|].
  destruct fuel' as [|fuel']; [lia|]. unfold status_code; fold status_code.
  destruct (Z.ltb_spec j i); [|exists false, 0; repeat split; lia].
  destruct (rd_Some buf j) as [c ->]; [lia|]. simpl. destruct (c =? 32).
  2: { apply IH; lia. }
  destruct (rd_Some buf (j + 1)) as [d ->]; [lia|]. simpl.
  destruct (memeq_total (j + 1) (str "204")) as [e ->]; [lia|change (zlen (str "204")) with 3; lia|].
  destruct (memeq_total (j + 1) (str "304")) as [e' ->]; [lia|change (zlen (str "304")) with 3; lia|]. simpl.
  destruct (d =? 49), e, e'; do 2 eexists; repeat split; lia.
Qed.

Lemma http_more ho : 5 < len ->
  exists r, cs_complete_http buf len ho = Some r /\ -1 <= r <= len /\
    (0 < r \/ r = -1 /\ len <= 8194 -> cs_complete_http buf len' ho = Some r).
Proof.
  intros H5. unfold cs_complete_http.
  destruct (first_line_more (S (Z.to_nat len)) 0 (S (Z.to_nat len'))) as (l & -> & Hl); [lia..|]. simpl.
  destruct l as [i|]; [|exists 0; split; [done|lia]]. destruct Hl as [Hi ->]. simpl.
  assert (exists b, (if ho then Some false else memeq buf 0 (str "HTTP/")) = Some b) as [b ->].
  { destruct ho; [eauto|]. apply memeq_total; [lia|change (zlen (str "HTTP/")) with 5; lia]. }
  simpl. destruct b; simpl.
  - destruct (status_code_more i (S (Z.to_nat len))) with (j := 5) (fuel' := S (Z.to_nat len'))
      as (ho' & cl & -> & Hcl & ->); [lia..|]. simpl. apply headers_more; unfold INT_MAX; lia.
  - apply headers_more; unfold INT_MAX; lia.
Qed.
End framing.

(** ** BER or HTTP *)

Lemma printable_range c : byte_ok c -> printable c = true -> 32 <= c < 127.
Proof.
  unfold printable. intros Hc. rewrite s8_byte by done. unfold byte_ok in Hc.
  intros [H1%Z.leb_le H2%Z.ltb_lt]%andb_true_iff. destruct (c <? 128); lia.
Qed.

Lemma all_printable_inv n : forall b i, bytes_ok b -> 0 <= i -> all_printable n b i = Some true ->
  forall k, i <= k < i + Z.of_nat n -> exists c, rd b k = Some c /\ 32 <= c < 127.
Proof.
  induction n as [|n IH]; intros b i Hb Hi H k Hk; [lia|]. unfold all_printable in H; fold all_printable in H.
  destruct (rd b i) as [c|] eqn:Ec; [|done]. simpl in H. destruct (printable c) eqn:Hp; [|done].
  destruct (Z.eq_dec k i) as [->|]; [|apply (IH b (i + 1)); [done|lia|done|lia]].
  exists c. split; [done|]. apply printable_range; [|done].
  apply rd_lookup in Ec as [_ Hin]. unfold bytes_ok in Hb. rewrite Forall_forall in Hb. auto.
Qed.

Lemma all_printable_total n : forall b i, 0 <= i -> i + Z.of_nat n <= zlen b ->
  exists p, all_printable n b i = Some p.
Proof.
  induction n as [|n IH]; intros b i Hi Hb; [by exists true|]. unfold all_printable; fold all_printable.
  destruct (rd_Some b i) as [c ->]; [lia|]. simpl. destruct (printable c); [|by exists false].
  apply IH; lia.
Qed.

(** The first octets of an HTTP message are the start of an element that is
    longer than they are. *)
Lemma ber_printable b len fuel : bytes_ok b -> len <= 5 -> len <= zlen b ->
  all_printable 4 b 0 = Some true -> completeBER_n (S fuel) b len 0 = Some 0.
Proof.
  intros Hb Hl Hz Hp.
  assert (forall k, 0 <= k < 4 -> exists c, rd b k = Some c /\ 32 <= c < 127) as H
    by (intros k Hk; apply (all_printable_inv 4 b 0); [done|lia|done|lia]).
  destruct (H 0) as (b0 & E0 & H0), (H 1) as (b1 & E1 & H1), (H 2) as (b2 & E2 & H2); [lia..|].
  destruct b as [|x [|y [|z b]]]; try done.
  injection E0 as ->. injection E1 as ->. injection E2 as ->. clear H Hp Hb Hz.
  unfold completeBER_n; fold completeBER_n. simpl.
  destruct (Z.ltb_spec len 2); [done|]. unfold is_eoc. simpl. rewrite (proj2 (Z.eqb_neq b0 0)) by lia. simpl.
  unfold ber_dectag. rewrite (proj2 (Z.ltb_ge len 1)) by lia. simpl.
  destruct (Z.land b0 31 <=? 30); simpl.
  - rewrite (proj2 (Z.ltb_ge (len - 1) 0)) by lia. rewrite ber_declen_short by lia. simpl.
    rewrite (proj2 (Z.leb_le 0 b1)), (proj2 (Z.ltb_lt _ b1)) by lia. done.
  - rewrite (proj2 (Z.leb_gt len 1)) by lia. rewrite byte_bit8 by (unfold byte_ok; lia).
    rewrite (proj2 (Z.ltb_lt b1 128)) by lia. simpl.
    change (1 + 1) with 2. rewrite (proj2 (Z.ltb_ge (len - 2) 0)) by lia.
    destruct (Z.lt_ge_cases len 3).
    + unfold ber_declen. rewrite (proj2 (Z.ltb_lt (len - 2) 1)) by lia. done.
    + rewrite ber_declen_short by lia. simpl.
      rewrite (proj2 (Z.leb_le 0 b2)), (proj2 (Z.ltb_lt _ b2)) by lia. done.
Qed.

Lemma complete_more buf len len' ho :
  bytes_ok buf -> 0 <= len <= len' -> len' <= INT_MAX -> len' + 2 <= zlen buf ->
  exists r, cs_complete_auto_x buf len ho = Some r /\ -1 <= r <= len /\
    (0 < r \/ r = -1 /\ len <= 8194 -> cs_complete_auto_x buf len' ho = Some r).
Proof.
  intros Hb Hlen Hmax Hbuf. unfold cs_complete_auto_x.
  assert (forall fuel fuel' l, (Z.to_nat len < fuel)%nat -> (fuel <= fuel')%nat -> l = len' ->
    exists r, completeBER_n fuel buf len 0 = Some r /\ -1 <= r <= len /\
      (r <> 0 -> completeBER_n fuel' buf l 0 = Some r)) as Hber.
  { intros fuel fuel' l Hf Hf' ->. destruct (completeBER_n_bounds fuel buf len 0) as (r & E & Hr); [done|lia|done|].
    exists r. split; [done|]. split; [lia|]. intros Hne.
    pose proof (completeBER_n_ext [] (len' - len) ltac:(lia) fuel fuel' buf len 0 r Hf Hf' ltac:(lia) Hb E Hne) as H.
    rewrite app_nil_r in H. by replace (len + (len' - len)) with len' in H by lia. }
  destruct (Z.ltb_spec 5 len) as [H5|H5].
  - rewrite (proj2 (Z.ltb_lt 5 len')) by lia.
    destruct (all_printable_total 4 buf 0) as [p ->]; [lia|change (Z.of_nat 4) with 4; lia|]. simpl. destruct p.
    + by apply http_more.
    + destruct (Hber (ber_fuel len) (ber_fuel len') len') as (r & E & Hr & E'); [unfold ber_fuel; lia..|].
      exists r. split; [done|]. split; [done|]. intros. apply E'. lia.
  - simpl. destruct (Hber (ber_fuel len) (ber_fuel len') len') as (r & E & Hr & E'); [unfold ber_fuel; lia..|].
    exists r. split; [done|]. split; [done|]. intros Hr1. destruct (Z.ltb_spec 5 len'); [|apply E'; lia].
    destruct (all_printable_total 4 buf 0) as [p Ep]; [lia|change (Z.of_nat 4) with 4; lia|].
    rewrite Ep. simpl. destruct p; [|apply E'; lia]. exfalso.
    unfold ber_fuel in E. rewrite ber_printable in E by (done || lia). injection E as <-. lia.
Qed.
