(* ===== verification/HttpFraming.v ===== *)
(** * HTTP messages on a connection (comstack.c)

    What an HTTP message is, declaratively: a first line, header lines and a
    content whose end is told by the status code, by Content-Length or by
    chunks.  The theorems are those of the framing as a whole: safety,
    stability, and that [cs_complete_auto] finds the end of every such message
    as soon as all of it has arrived. *)

From stdpp Require Import base list numbers option strings.
From Stdlib Require Import ZArith Lia.
From S2P Require Import Prelude Text BerTag BerLen BerAny MatchStr Atoi Comstack.

(** ** Messages *)

Definition crlf : list Z := [13; 10].
Definition text_char (c : Z) : Prop := c <> 10 /\ c <> 13.
Definition text_line (l : list Z) : Prop := Forall text_char l.

(** [n] is the name [s] in upper or lower case. *)
Definition same_name (n s : list Z) : Prop := map fold_case n = map fold_case s.
Definition starts_with (l s : list Z) : bool :=
  bool_decide (map fold_case (take (length s) l) = map fold_case s).

Definition TE : list Z := str "Transfer-Encoding:".
Definition CL : list Z := str "Content-Length:".

(** [header_line l ch cl ch' cl']: the line changes what is known of the
    content, that it is chunked and its length, from [ch], [cl] to [ch'], [cl']. *)
Inductive header_line : list Z -> bool -> Z -> bool -> Z -> Prop :=
  | hl_other l ch cl :
      l <> [] -> text_line l -> starts_with l TE = false -> starts_with l CL = false ->
      header_line l ch cl ch cl
  | hl_length n k ds vs rest ch cl :
      same_name n CL -> Forall2 (is_digit 10) ds vs -> ds <> [] -> radix 10 vs <= INT_MAX ->
      text_line rest -> stops 10 1 (rest ++ crlf) ->
      header_line (n ++ repeat 32 k ++ ds ++ rest) ch cl ch (radix 10 vs)
  | hl_encoding n k v ch cl :
      same_name n TE -> text_line v -> head v <> Some 32 ->
      header_line (n ++ repeat 32 k ++ v) ch cl (ch || starts_with v (str "chunked")) cl.

Inductive header_lines : list (list Z) -> bool -> Z -> bool -> Z -> Prop :=
  | hls_nil ch cl : header_lines [] ch cl ch cl
  | hls_cons l ls ch cl ch1 cl1 ch2 cl2 :
      header_line l ch cl ch1 cl1 -> header_lines ls ch1 cl1 ch2 cl2 ->
      header_lines (l :: ls) ch cl ch2 cl2.

Definition lines_text (ls : list (list Z)) : list Z := concat (map (fun l => l ++ crlf) ls).

(** What the first line says of the content: that there is none, and the length
    it has unless a header tells it. *)
Definition status_of (r : list Z) : bool * Z :=
  if bool_decide (take 1 r = str "1") then (true, 0)
  else if bool_decide (take 3 r = str "204") then (true, 0)
  else if bool_decide (take 3 r = str "304") then (true, 0)
  else (false, -1).

Fixpoint status_in (l : list Z) : bool * Z :=
  match l with
  | [] => (false, 0)
  | c :: l => if c =? 32 then status_of l else status_in l
  end.

Definition first_line_status (start : list Z) : bool * Z :=
  if bool_decide (take 5 start = str "HTTP/") then status_in (drop 5 start) else (false, 0).

(** The chunks of a content: lengths in hexadecimal, what may follow them on
    their line, and the lines after the last chunk. *)
Inductive chunked_body : list Z -> Prop :=
  | cb_last ds vs ext ls :
      Forall2 (is_digit 16) ds vs -> ds <> [] -> radix 16 vs = 0 ->
      text_line ext -> stops 16 1 (ext ++ crlf) ->
      Forall (fun l => l <> [] /\ text_line l) ls ->
      chunked_body (ds ++ ext ++ crlf ++ lines_text ls ++ crlf)
  | cb_chunk ds vs ext data rest :
      Forall2 (is_digit 16) ds vs -> ds <> [] -> radix 16 vs = zlen data -> data <> [] ->
      text_line ext -> stops 16 1 (ext ++ crlf) -> chunked_body rest ->
      chunked_body (ds ++ ext ++ crlf ++ data ++ crlf ++ rest).

Definition content_ok (head_only chunked : bool) (content_len : Z) (body : list Z) : Prop :=
  if head_only then body = []
  else if chunked then chunked_body body
  else zlen body = content_len.

Definition head_text (start : list Z) (ls : list (list Z)) : list Z :=
  start ++ crlf ++ lines_text ls ++ crlf.

Record http_message (start : list Z) (ls : list (list Z)) (body : list Z) : Prop := {
  hm_start : text_line start;
  hm_method : 4 <= zlen start /\ Forall (fun c => printable c = true) (take 4 start);
  hm_lines : exists ch cl,
    header_lines ls false (first_line_status start).2 ch cl /\
    content_ok (first_line_status start).1 ch cl body;
  hm_size : zlen (head_text start ls) <= 8192;
}.

(** ** Reading text *)

Lemma zlen_crlf : zlen crlf = 2.
Proof. done. Qed.
#[local] Hint Rewrite zlen_crlf : zlen.

(** The octet after a prefix. *)
Lemma rd_at (pre : list Z) c more : rd (pre ++ c :: more) (zlen pre) = Some c.
Proof. rewrite <- (Z.add_0_r (zlen pre)). by rewrite rd_app_r. Qed.

Lemma skip_text buf len pre c more : buf = pre ++ c :: more -> text_char c ->
  skip_crlf buf len (zlen pre) = Some (false, zlen pre).
Proof.
  intros -> [H1 H2]. unfold skip_crlf. destruct (_ <? _); [|done]. rewrite rd_at. simpl.
  rewrite (proj2 (Z.eqb_neq c 13)), (proj2 (Z.eqb_neq c 10)) by done. done.
Qed.

Lemma skip_nl buf len pre more : buf = pre ++ crlf ++ more -> zlen pre + 2 <= len ->
  skip_crlf buf len (zlen pre) = Some (true, zlen pre + 2).
Proof.
  intros -> Hl. unfold skip_crlf. rewrite (proj2 (Z.ltb_lt _ _)) by lia.
  simpl. rewrite rd_at. simpl. rewrite (proj2 (Z.ltb_lt _ (len - 1))) by lia.
  change (pre ++ 13 :: 10 :: more) with (pre ++ [13] ++ 10 :: more). rewrite app_assoc.
  replace (zlen pre + 1) with (zlen (pre ++ [13])) by zl. by rewrite rd_at.
Qed.

(** The comparison of a name with what stands at a place. *)
Lemma header_is_at pre x s : zlen s <= zlen x ->
  header_is (pre ++ x) (zlen pre) s = Some (starts_with x s).
Proof.
  intros Hl. unfold header_is, starts_with, yaz_strncasecmp. unfold zlen in *.
  rewrite !Nat2Z.id, drop_app_length.
  assert (exists r, strncasecmp_loop x (s ++ [0]) (length s) = Some r /\
    (r = 0 <-> map fold_case (take (length s) x) = map fold_case s)) as (r & -> & Hr).
  { assert (length s <= length x)%nat as Hl' by lia. clear Hl. revert x Hl'.
    induction s as [|d s IH]; intros x Hl; [by exists 0|]. destruct x as [|c x]; simpl in *; [lia|].
    destruct (Z.eqb_spec (fold_case c) (fold_case d)) as [E|E]; simpl.
    - destruct (IH x) as (r & -> & Hr); [lia|]. exists r. split; [done|]. rewrite Hr, E.
      split; [by intros ->|by intros [= ->]].
    - eexists. split; [done|]. split; [lia|]. by intros [= ?]. }
  simpl. f_equal. destruct (Z.eqb_spec r 0); case_bool_decide; tauto.
Qed.

(** A name without line ends is not found across one. *)
Lemma starts_with_line l more s : Forall (fun d => fold_case d <> 13) s ->
  starts_with (l ++ crlf ++ more) s = starts_with l s.
Proof.
  unfold starts_with. intros Hs. apply bool_decide_ext. revert l.
  induction Hs as [|d s Hd Hs IH]; intros l; [done|].
  destruct l as [|c l]; simpl; [by split; intros [= E _]|].
  split; intros [= E1 E2]; rewrite E1; f_equal; by apply IH.
Qed.

Lemma starts_with_long l s : starts_with l s = true -> zlen s <= zlen l.
Proof.
  unfold starts_with. rewrite bool_decide_eq_true. intros E%(f_equal length).
  rewrite !length_map, length_take in E. unfold zlen. lia.
Qed.

Lemma same_name_length n s : same_name n s -> length n = length s.
Proof. intros E%(f_equal length). by rewrite !length_map in E. Qed.

Lemma starts_with_name n s more : same_name n s -> starts_with (n ++ more) s = true.
Proof.
  intros E. unfold starts_with. rewrite <- (same_name_length _ _ E), take_app_length.
  by apply bool_decide_eq_true.
Qed.

(** Numbers of a known length. *)
Lemma atoi_at base pre ds vs rest len v0 :
  2 <= base <= 36 -> Forall2 (is_digit base) ds vs -> radix base vs <= INT_MAX ->
  stops base 1 rest -> zlen pre + zlen ds < len ->
  yaz_atoi base (drop (Z.to_nat (zlen pre)) (pre ++ ds ++ rest)) (len - zlen pre) v0 =
    Some (zlen ds, radix base vs).
Proof.
  intros Hb Hd Hr Hs Hl. unfold zlen in Hl. unfold zlen at 1. rewrite Nat2Z.id, drop_app_length.
  assert (stops base (Z.to_nat (len - zlen pre) - length ds) rest) as Hs'.
  { destruct Hs as [|Hs]; [done|]. by right. }
  destruct (yaz_atoul_spec base 0 ds vs rest _ Hb Hd Hs') as (r & u & E & H).
  rewrite (proj2 (Z.leb_le _ ULONG_MAX)) in H by (unfold ULONG_MAX, INT_MAX in *; lia).
  destruct H as [-> ->]. unfold yaz_atoi.
  replace (len - zlen pre) with
    (Z.of_nat (length ds + (Z.to_nat (len - zlen pre) - length ds))) by (unfold zlen; lia).
  rewrite E. simpl. pose proof (zlen_nonneg ds).
  rewrite (proj2 (Z.eqb_neq _ (-1))), (proj2 (Z.ltb_ge INT_MAX _)) by lia. done.
Qed.

Lemma stops_crlf base ext more : stops base 1 (ext ++ crlf) -> stops base 1 (ext ++ crlf ++ more).
Proof.
  intros [|(c & r & E & H)]; [done|]. right. exists c, (r ++ more). split; [|done].
  by rewrite app_assoc, E.
Qed.

Lemma blanks_at k : forall pre c more len fuel, c <> 32 -> zlen pre + Z.of_nat k < len ->
  (k < fuel)%nat ->
  skip_blanks fuel (pre ++ repeat 32 k ++ c :: more) len (zlen pre) = Some (zlen pre + Z.of_nat k).
Proof.
  induction k as [|k IH]; intros pre c more len fuel Hc Hl Hf; (destruct fuel as [|fuel]; [lia|]);
    unfold skip_blanks; fold skip_blanks; rewrite (proj2 (Z.ltb_lt _ _)) by lia; simpl; rewrite rd_at; simpl.
  - rewrite (proj2 (Z.eqb_neq c 32)) by done. f_equal. lia.
  - change (pre ++ 32 :: repeat 32 k ++ c :: more) with (pre ++ [32] ++ repeat 32 k ++ c :: more).
    rewrite app_assoc. replace (zlen pre + 1) with (zlen (pre ++ [32])) by zl.
    rewrite IH by (done || zl). f_equal. zl.
Qed.

(** The value of Transfer-Encoding, from the place after [u] on. *)
Lemma te_test pre u w more :
  (if zlen pre + zlen u =? zlen pre + 7
   then header_is (pre ++ (u ++ w) ++ crlf ++ more) (zlen pre) (str "chunked") else Some false)
  = Some ((zlen u =? 7) && starts_with (u ++ w) (str "chunked")).
Proof.
  destruct (Z.eqb_spec (zlen pre + zlen u) (zlen pre + 7)).
  - rewrite (proj2 (Z.eqb_eq (zlen u) 7)) by lia. pose proof (zlen_nonneg more). pose proof (zlen_nonneg w).
    rewrite header_is_at by (change (zlen (str "chunked")) with 7; zl). cbn [andb]. f_equal.
    apply starts_with_line. by repeat constructor.
  - by rewrite (proj2 (Z.eqb_neq (zlen u) 7)) by lia.
Qed.

Lemma te_value_at pre more len ch w : forall u fuel, text_line w ->
  let p := starts_with (u ++ w) (str "chunked") in
  zlen pre + zlen (u ++ w) + 3 <= len -> (length w < fuel)%nat ->
  te_value fuel (pre ++ (u ++ w) ++ crlf ++ more) len (zlen pre) (zlen pre + zlen u)
    (ch || ((7 <? zlen u) && p)) = Some (Some (zlen pre + zlen (u ++ w), ch || p)).
Proof.
  induction w as [|c w IH]; intros u fuel Hw p Hl Hf; (destruct fuel as [|fuel]; [lia|]);
    unfold te_value; fold te_value; rewrite te_test; fold p; cbn [mbind option_bind];
    rewrite <- orb_assoc, <- andb_orb_distrib_l; autorewrite with zlen in Hl.
  - (* the end of the value *)
    rewrite (proj2 (Z.leb_gt (len - 2) _)) by lia.
    replace (zlen pre + zlen u) with (zlen (pre ++ u)) by zl.
    rewrite (skip_nl _ _ (pre ++ u) more) by (rewrite ?app_nil_r, <- ?app_assoc; done || zl). simpl.
    repeat f_equal; [zl|]. destruct p eqn:Ep; [|apply andb_false_r].
    apply starts_with_long in Ep. change (zlen (str "chunked")) with 7 in Ep. autorewrite with zlen in Ep.
    rewrite andb_true_r. apply orb_true_iff.
    destruct (Z.eq_dec (zlen u) 7); [right; by apply Z.eqb_eq|left; apply Z.ltb_lt; lia].
  - apply Forall_cons_1 in Hw as [Hc Hw]. pose proof (zlen_nonneg w).
    rewrite (proj2 (Z.leb_gt (len - 2) _)) by lia.
    replace (zlen pre + zlen u) with (zlen (pre ++ u)) by zl.
    rewrite (skip_text _ _ (pre ++ u) c (w ++ crlf ++ more)) by (rewrite <- ?app_assoc; done). simpl.
    assert (u ++ c :: w = (u ++ [c]) ++ w) as Eu by (rewrite <- app_assoc; done).
    subst p. rewrite Eu. specialize (IH (u ++ [c]) fuel Hw). cbv zeta in IH.
    replace (zlen (pre ++ u) + 1) with (zlen pre + zlen (u ++ [c])) by zl.
    replace ((7 <? zlen u) || (zlen u =? 7)) with (7 <? zlen (u ++ [c])).
    + apply IH; [zl|simpl in Hf; lia].
    + autorewrite with zlen. destruct (Z.ltb_spec 7 (zlen u)), (Z.eqb_spec (zlen u) 7); simpl;
        [apply Z.ltb_lt|apply Z.ltb_lt|apply Z.ltb_lt|apply Z.ltb_ge]; lia.
Qed.

(** ** The head *)

Lemma zlen_te : zlen TE = 18.
Proof. done. Qed.
Lemma zlen_cl : zlen CL = 15.
Proof. done. Qed.

Lemma name_chars s : s = TE \/ s = CL \/ s = str "chunked" -> Forall (fun d => fold_case d <> 13) s.
Proof. intros [->|[->| ->]]; by repeat constructor. Qed.

(** A header of a known name, or of none, when the whole head is there. *)
Lemma header_test_at pre l more len k s : s = TE \/ s = CL -> zlen s <= k <= zlen s + 1 ->
  zlen pre + zlen l + 4 <= len -> len <= zlen (pre ++ l ++ crlf ++ more) ->
  (if zlen pre <? len - k then header_is (pre ++ l ++ crlf ++ more) (zlen pre) s else Some false)
  = Some (starts_with l s).
Proof.
  intros Hs Hk Hl Hlen. pose proof (zlen_nonneg l).
  assert (starts_with (l ++ crlf ++ more) s = starts_with l s) as E
    by (apply starts_with_line, name_chars; tauto).
  destruct (Z.ltb_spec (zlen pre) (len - k)).
  - rewrite header_is_at, E; [done|]. autorewrite with zlen in *. lia.
  - destruct (starts_with l s) eqn:El; [|done]. apply starts_with_long in El. lia.
Qed.

Lemma names_differ n more : same_name n CL -> starts_with (n ++ more) TE = false.
Proof.
  intros E. apply bool_decide_eq_false. intros E2. pose proof (same_name_length _ _ E).
  destruct n as [|c n]; [done|]. unfold same_name in E. simpl in E, E2.
  injection E as E _. injection E2 as E2 _. rewrite E in E2. done.
Qed.

(** Where reading a header line stops: within it, or at its end. *)
Lemma header_line_at l ch cl ch' cl' : header_line l ch cl ch' cl' ->
  forall pre more len, zlen pre + zlen l + 4 <= len -> len <= zlen (pre ++ l ++ crlf ++ more) ->
  exists l1 l2, l = l1 ++ l2 /\ l1 <> [] /\ text_line l2 /\
    http_header (pre ++ l ++ crlf ++ more) len ch cl (zlen pre) = Some (inr (zlen pre + zlen l1, ch', cl')).
Proof.
  intros H pre more len. destruct H as [l ch cl Hne Ht Hte Hcl|n k ds vs rest ch cl Hn Hd Hne Hr Ht Hs|n k v ch cl Hn Ht Hv];
    intros Hl Hlen; pose proof (zlen_nonneg pre); unfold http_header; fold TE; fold CL;
    rewrite !header_test_at by (done || auto || rewrite ?zlen_te, ?zlen_cl; lia).
  - rewrite Hte, Hcl. simpl. destruct l as [|c l]; [done|]. exists [c], l.
    apply Forall_cons_1 in Ht as [_ Ht]. repeat split; auto.
  - rewrite names_differ, (starts_with_name n CL) by done. cbn [mbind option_bind].
    assert (zlen n = 15) as Hn15 by (unfold zlen; rewrite (same_name_length _ _ Hn); done).
    destruct ds as [|d ds]; [done|].
    assert (d <> 32) as Hd32.
    { intros ->. apply Forall2_cons_inv_l in Hd as (v & vs' & [Hv _] & _ & _). done. }
    autorewrite with zlen in Hl. pose proof (zlen_nonneg ds). pose proof (zlen_nonneg rest).
    replace (zlen pre + 15) with (zlen (pre ++ n)) by zl.
    replace (pre ++ (n ++ repeat 32 k ++ (d :: ds) ++ rest) ++ crlf ++ more)
      with ((pre ++ n) ++ repeat 32 k ++ d :: (ds ++ rest ++ crlf ++ more)) by (rewrite <- !app_assoc; done).
    rewrite blanks_at by (done || zl). cbn [mbind option_bind].
    rewrite (proj2 (Z.eqb_neq _ len)) by zl.
    replace (zlen (pre ++ n) + Z.of_nat k) with (zlen (pre ++ n ++ repeat 32 k)) by zl.
    replace ((pre ++ n) ++ repeat 32 k ++ d :: (ds ++ rest ++ crlf ++ more))
      with ((pre ++ n ++ repeat 32 k) ++ (d :: ds) ++ rest ++ crlf ++ more) by (rewrite <- !app_assoc; done).
    rewrite (atoi_at 10 (pre ++ n ++ repeat 32 k) (d :: ds) vs);
      [|lia|done|done|by apply stops_crlf|zl]. cbn [mbind option_bind].
    rewrite (proj2 (Z.leb_gt _ 0)) by zl.
    exists (n ++ repeat 32 k ++ d :: ds), rest. split; [by rewrite <- !app_assoc|].
    split; [by destruct n|]. split; [done|]. do 4 f_equal. zl.
  - rewrite (starts_with_name n TE) by done. cbn [mbind option_bind].
    assert (zlen n = 18) as Hn18 by (unfold zlen; rewrite (same_name_length _ _ Hn); done).
    autorewrite with zlen in Hl, Hlen. pose proof (zlen_nonneg v).
    replace (zlen pre + 18) with (zlen (pre ++ n)) by zl.
    assert (exists c r, v ++ crlf ++ more = c :: r /\ c <> 32) as (c & r & Ev & Hc).
    { destruct v as [|c v]; [by exists 13, (10 :: more)|]. exists c, (v ++ crlf ++ more).
      split; [done|]. intros ->. by apply Hv. }
    replace (pre ++ (n ++ repeat 32 k ++ v) ++ crlf ++ more)
      with ((pre ++ n) ++ repeat 32 k ++ (v ++ crlf ++ more)) by (rewrite <- !app_assoc; done).
    rewrite Ev, blanks_at by (done || zl). cbn [mbind option_bind]. rewrite <- Ev.
    pose proof (te_value_at ((pre ++ n) ++ repeat 32 k) more len ch v [] (S (Z.to_nat len)) Ht) as E.
    cbn [app zlen length Z.of_nat] in E. change (7 <? 0) with false in E. cbn [andb] in E.
    rewrite orb_false_r, Z.add_0_r in E.
    replace (zlen (pre ++ n) + Z.of_nat k) with (zlen ((pre ++ n) ++ repeat 32 k)) by zl.
    rewrite (app_assoc (pre ++ n) (repeat 32 k)), E; [|zl|unfold zlen in *; lia]. cbn [mbind option_bind].
    exists (n ++ repeat 32 k ++ v), []. split; [by rewrite app_nil_r|].
    split; [by destruct n|]. split; [constructor|]. do 4 f_equal. zl.
Qed.

(** Text is passed over up to the end of its line. *)
Lemma headers_text len ho ch cl l : forall pre more fuel, text_line l ->
  zlen pre + zlen l <= 8192 -> zlen pre + zlen l + 2 <= len -> (Z.to_nat (len - zlen pre) < fuel)%nat ->
  exists fuel', (Z.to_nat (len - zlen (pre ++ l)) < fuel')%nat /\
    http_headers fuel (pre ++ l ++ more) len ho ch cl (zlen pre) =
    http_headers fuel' (pre ++ l ++ more) len ho ch cl (zlen (pre ++ l)).
Proof.
  induction l as [|c l IH]; intros pre more fuel Ht H8 Hl Hf.
  { exists fuel. by rewrite app_nil_r. }
  apply Forall_cons_1 in Ht as [Hc Ht]. rewrite zlen_cons in *. pose proof (zlen_nonneg l).
  destruct fuel as [|fuel]; [lia|].
  destruct (IH (pre ++ [c]) more fuel Ht) as (fuel' & Hf' & E); [zl..|].
  assert (forall x, pre ++ (c :: l) ++ x = (pre ++ [c]) ++ l ++ x) as Ea by (intros; rewrite <- app_assoc; done).
  exists fuel'. replace (pre ++ c :: l) with ((pre ++ [c]) ++ l) by (rewrite <- app_assoc; done).
  split; [done|]. rewrite Ea, <- E. unfold http_headers at 1; fold http_headers.
  rewrite (proj2 (Z.leb_le _ (len - 2))), (proj2 (Z.ltb_ge 8192 _)) by lia.
  rewrite (skip_text _ _ pre c (l ++ more)) by (rewrite <- ?app_assoc; done). simpl.
  by replace (zlen (pre ++ [c])) with (zlen pre + 1) by zl.
Qed.

Lemma header_line_head l ch cl ch' cl' : header_line l ch cl ch' cl' -> exists c r, l = c :: r /\ text_char c.
Proof.
  destruct 1 as [l ? ? Hne Ht|n ? ? ? ? ? ? Hn|n ? ? ? ? Hn].
  - destruct l as [|c l]; [done|]. apply Forall_cons_1 in Ht as [Hc _]. eauto.
  - destruct n as [|c n]; [done|]. injection Hn as E _. exists c. eexists. split; [done|].
    split; intros ->; done.
  - destruct n as [|c n]; [done|]. injection Hn as E _. exists c. eexists. split; [done|].
    split; intros ->; done.
Qed.

Lemma lines_text_cons l ls : lines_text (l :: ls) = l ++ crlf ++ lines_text ls.
Proof. unfold lines_text. simpl. by rewrite <- app_assoc. Qed.

(** From the end of the first line to the end of the head. *)
Lemma header_lines_at len ho ls ch cl ch' cl' : header_lines ls ch cl ch' cl' ->
  forall pre body fuel, let h := pre ++ crlf ++ lines_text ls ++ crlf in
  zlen h <= 8192 -> zlen h <= len -> len <= zlen (h ++ body) ->
  (Z.to_nat (len - zlen pre) < fuel)%nat ->
  http_headers fuel (h ++ body) len ho ch cl (zlen pre) = http_content (h ++ body) len ho ch' cl' (zlen h).
Proof.
  induction 1 as [ch cl|l ls ch cl ch1 cl1 ch2 cl2 Hline Hlines IH]; intros pre body fuel h H8 Hl Hlen Hf;
    (destruct fuel as [|fuel]; [lia|]); unfold http_headers; fold http_headers.
  - subst h. change (lines_text []) with (@nil Z) in *. cbn [app] in *. autorewrite with zlen in *.
    rewrite (proj2 (Z.leb_le _ (len - 2))), (proj2 (Z.ltb_ge 8192 _)) by lia.
    rewrite (skip_nl _ _ pre (crlf ++ body)) by (rewrite <- ?app_assoc; done || lia). cbn [mbind option_bind negb].
    replace (zlen pre + 2) with (zlen (pre ++ crlf)) by zl.
    rewrite (skip_nl _ _ (pre ++ crlf) body) by (rewrite <- ?app_assoc; done || zl). cbn [mbind option_bind negb].
    f_equal. zl.
  - destruct (header_line_head _ _ _ _ _ Hline) as (c & r & El & Hc).
    assert (h ++ body = (pre ++ crlf) ++ l ++ crlf ++ (lines_text ls ++ crlf ++ body)) as Eh.
    { subst h. rewrite lines_text_cons, <- !app_assoc. done. }
    assert (zlen h = zlen pre + 2 + zlen l + 2 + zlen (lines_text ls) + 2) as Hz.
    { subst h. rewrite lines_text_cons. zl. }
    pose proof (zlen_nonneg l). pose proof (zlen_nonneg (lines_text ls)). pose proof (zlen_nonneg pre).
    rewrite (proj2 (Z.leb_le _ (len - 2))), (proj2 (Z.ltb_ge 8192 _)) by lia.
    rewrite (skip_nl _ _ pre (l ++ crlf ++ (lines_text ls ++ crlf ++ body)))
      by (rewrite ?Eh, <- ?app_assoc; done || lia). cbn [mbind option_bind negb].
    replace (zlen pre + 2) with (zlen (pre ++ crlf)) by zl.
    rewrite (skip_text _ _ (pre ++ crlf) c (r ++ crlf ++ (lines_text ls ++ crlf ++ body)))
      by (rewrite ?Eh, ?El, <- ?app_assoc; done). cbn [mbind option_bind negb].
    rewrite Eh in *. destruct (header_line_at _ _ _ _ _ Hline (pre ++ crlf) (lines_text ls ++ crlf ++ body) len)
      as (l1 & l2 & -> & Hne & Ht2 & ->); [zl|done|]. cbn [mbind option_bind negb].
    pose proof (zlen_pos l1 Hne). rewrite zlen_app in Hz.
    replace (zlen (pre ++ crlf) + zlen l1) with (zlen (pre ++ crlf ++ l1)) by zl.
    replace ((pre ++ crlf) ++ (l1 ++ l2) ++ crlf ++ lines_text ls ++ crlf ++ body)
      with ((pre ++ crlf ++ l1) ++ l2 ++ (crlf ++ lines_text ls ++ crlf ++ body))
      by (rewrite <- !app_assoc; done).
    destruct (headers_text len ho ch1 cl1 l2 (pre ++ crlf ++ l1) (crlf ++ lines_text ls ++ crlf ++ body) fuel)
      as (fuel' & Hf' & ->); [done|zl..|].
    specialize (IH ((pre ++ crlf ++ l1) ++ l2) body fuel'). cbv zeta in IH.
    rewrite <- !app_assoc in IH. rewrite <- !app_assoc.
    rewrite IH; [f_equal; zl|zl..|].
    rewrite <- !app_assoc in Hf'. done.
Qed.

(** ** Chunks *)

Lemma chunk_line_at len l : forall pre more fuel, text_line l ->
  zlen pre + zlen l + 2 <= len -> (length l < fuel)%nat ->
  chunk_line fuel (pre ++ l ++ crlf ++ more) len (zlen pre) = Some (Some (zlen pre + zlen l + 2)).
Proof.
  induction l as [|c l IH]; intros pre more fuel Ht Hl Hf; (destruct fuel as [|fuel]; [simpl in Hf; lia|]);
    unfold chunk_line; fold chunk_line; autorewrite with zlen in Hl.
  - rewrite (proj2 (Z.leb_gt (len - 1) _)) by lia.
    rewrite (skip_nl _ _ pre more) by (done || lia). cbn [mbind option_bind]. do 2 f_equal. zl.
  - apply Forall_cons_1 in Ht as [Hc Ht]. pose proof (zlen_nonneg l).
    rewrite (proj2 (Z.leb_gt (len - 1) _)) by lia.
    rewrite (skip_text _ _ pre c (l ++ crlf ++ more)) by done. cbn [mbind option_bind].
    specialize (IH (pre ++ [c]) more fuel Ht ltac:(zl) ltac:(simpl in Hf; lia)).
    replace (zlen pre + 1) with (zlen (pre ++ [c])) by zl.
    replace (pre ++ (c :: l) ++ crlf ++ more) with ((pre ++ [c]) ++ l ++ crlf ++ more)
      by (rewrite <- app_assoc; done).
    rewrite IH. do 2 f_equal. zl.
Qed.

Lemma trailer_text len l : forall pre more fuel, text_line l ->
  zlen pre + zlen l < len -> (Z.to_nat (len - zlen pre) < fuel)%nat ->
  exists fuel', (Z.to_nat (len - zlen (pre ++ l)) < fuel')%nat /\
    chunk_trailer fuel (pre ++ l ++ more) len (zlen pre) =
    chunk_trailer fuel' (pre ++ l ++ more) len (zlen (pre ++ l)).
Proof.
  induction l as [|c l IH]; intros pre more fuel Ht Hl Hf.
  { exists fuel. by rewrite app_nil_r. }
  apply Forall_cons_1 in Ht as [Hc Ht]. rewrite zlen_cons in *. pose proof (zlen_nonneg l).
  destruct fuel as [|fuel]; [lia|].
  destruct (IH (pre ++ [c]) more fuel Ht) as (fuel' & Hf' & E); [zl..|].
  assert (forall x, pre ++ (c :: l) ++ x = (pre ++ [c]) ++ l ++ x) as Ea by (intros; rewrite <- app_assoc; done).
  exists fuel'. replace (pre ++ c :: l) with ((pre ++ [c]) ++ l) by (rewrite <- app_assoc; done).
  split; [done|]. rewrite Ea, <- E. unfold chunk_trailer at 1; fold chunk_trailer.
  rewrite (proj2 (Z.ltb_lt _ len)) by lia.
  rewrite (skip_text _ _ pre c (l ++ more)) by (rewrite <- ?app_assoc; done). simpl.
  by replace (zlen (pre ++ [c])) with (zlen pre + 1) by zl.
Qed.

Lemma trailer_at len ls : Forall (fun l => l <> [] /\ text_line l) ls ->
  forall pre l more fuel, text_line l -> let t := l ++ crlf ++ lines_text ls ++ crlf in
  zlen pre + zlen t <= len -> (Z.to_nat (len - zlen pre) < fuel)%nat ->
  chunk_trailer fuel (pre ++ t ++ more) len (zlen pre) = Some (zlen pre + zlen t).
Proof.
  induction 1 as [|l' ls [Hne Ht'] _ IH]; intros pre l more fuel Ht t Hl Hf; subst t.
  - change (lines_text []) with (@nil Z) in *. cbn [app] in *. rewrite <- !app_assoc in *.
    destruct (trailer_text len l pre (crlf ++ crlf ++ more) fuel) as (fuel' & Hf' & ->); [done|zl|done|].
    destruct fuel' as [|fuel']; [lia|]. unfold chunk_trailer; fold chunk_trailer. rewrite app_assoc.
    rewrite (proj2 (Z.ltb_lt _ len)) by zl.
    rewrite (skip_nl _ _ (pre ++ l) (crlf ++ more)) by (done || zl). cbn [mbind option_bind].
    replace (zlen (pre ++ l) + 2) with (zlen ((pre ++ l) ++ crlf)) by zl. rewrite app_assoc.
    rewrite (skip_nl _ _ ((pre ++ l) ++ crlf) more) by (done || zl). cbn [mbind option_bind]. f_equal. zl.
  - rewrite lines_text_cons in *. pose proof (zlen_nonneg (lines_text ls)).
    set (t' := l' ++ crlf ++ lines_text ls ++ crlf).
    assert (forall x, pre ++ (l ++ crlf ++ (l' ++ crlf ++ lines_text ls) ++ crlf) ++ x
      = pre ++ l ++ (crlf ++ t' ++ x)) as Ea by (intros; unfold t'; rewrite <- !app_assoc; done).
    assert (zlen (l ++ crlf ++ (l' ++ crlf ++ lines_text ls) ++ crlf) = zlen l + 2 + zlen t') as Ez
      by (unfold t'; zl).
    rewrite Ea, Ez in *. pose proof (zlen_pos l' Hne) as Hpos.
    assert (1 <= zlen t') by (unfold t'; zl).
    destruct (trailer_text len l pre (crlf ++ t' ++ more) fuel) as (fuel' & Hf' & ->); [done|lia|done|].
    destruct fuel' as [|fuel']; [lia|]. unfold chunk_trailer; fold chunk_trailer. rewrite app_assoc.
    rewrite (proj2 (Z.ltb_lt _ len)) by zl.
    rewrite (skip_nl _ _ (pre ++ l) (t' ++ more)) by (done || zl). cbn [mbind option_bind].
    replace (zlen (pre ++ l) + 2) with (zlen ((pre ++ l) ++ crlf)) by zl. rewrite app_assoc.
    assert (exists c r, t' ++ more = c :: r /\ text_char c) as (c & r & Ec & Hc).
    { unfold t'. destruct l' as [|c l']; [done|]. apply Forall_cons_1 in Ht' as [Hc _]. simpl. eauto. }
    rewrite (skip_text _ _ ((pre ++ l) ++ crlf) c r) by (rewrite ?Ec; done). cbn [mbind option_bind].
    specialize (IH ((pre ++ l) ++ crlf) l' more fuel' Ht'). cbv zeta in IH. fold t' in IH.
    rewrite IH; [f_equal; zl|zl|]. autorewrite with zlen in *. lia.
Qed.

Lemma chunked_body_at len b : chunked_body b -> len <= INT_MAX ->
  forall pre more fuel, zlen pre + zlen b <= len -> (Z.to_nat (len - zlen pre) < fuel)%nat ->
  read_chunks fuel (pre ++ b ++ more) (zlen pre) len = Some (zlen pre + zlen b).
Proof.
  intros Hb Hm. induction Hb as [ds vs ext ls Hd Hne Hr Ht Hs Hls|ds vs ext data rest Hd Hne Hr Hda Ht Hs Hrest IH];
    intros pre more fuel Hl Hf; (destruct fuel as [|fuel]; [lia|]);
    unfold read_chunks; fold read_chunks; pose proof (zlen_pos ds Hne) as Hds; pose proof (zlen_nonneg ext);
    pose proof (zlen_nonneg pre).
  - assert (forall x, pre ++ (ds ++ ext ++ crlf ++ lines_text ls ++ crlf) ++ x
      = pre ++ ds ++ ext ++ crlf ++ (lines_text ls ++ crlf ++ x)) as Ea by (intros; rewrite <- !app_assoc; done).
    rewrite Ea. pose proof (zlen_nonneg (lines_text ls)). autorewrite with zlen in Hl.
    rewrite (proj2 (Z.leb_gt len _)) by lia.
    rewrite (atoi_at 16 pre ds vs); [|lia|done|unfold INT_MAX; lia|by apply stops_crlf|lia].
    cbn [mbind option_bind]. rewrite (proj2 (Z.leb_gt _ 0)), (proj2 (Z.eqb_eq _ 0)) by lia.
    pose proof (trailer_at len ls Hls (pre ++ ds) ext more (S (Z.to_nat len)) Ht) as E. cbv zeta in E.
    rewrite <- !app_assoc, zlen_app in E. rewrite E; [f_equal; zl|zl|lia].
  - assert (forall x, pre ++ (ds ++ ext ++ crlf ++ data ++ crlf ++ rest) ++ x
      = pre ++ ds ++ ext ++ crlf ++ (data ++ crlf ++ rest ++ x)) as Ea by (intros; rewrite <- !app_assoc; done).
    rewrite Ea. pose proof (zlen_pos data Hda). autorewrite with zlen in Hl.
    assert (1 <= zlen rest) as Hrest1.
    { destruct Hrest as [d2|d2]; apply zlen_pos; by destruct d2. }
    rewrite (proj2 (Z.leb_gt len _)) by lia.
    rewrite (atoi_at 16 pre ds vs); [|lia|done|lia|by apply stops_crlf|lia].
    cbn [mbind option_bind]. rewrite (proj2 (Z.leb_gt _ 0)), (proj2 (Z.eqb_neq _ 0)) by lia.
    pose proof (chunk_line_at len ext (pre ++ ds) (data ++ crlf ++ rest ++ more) (S (Z.to_nat len)) Ht
      ltac:(zl) ltac:(unfold zlen in *; lia)) as E.
    rewrite zlen_app, <- app_assoc in E. rewrite E. cbn [mbind option_bind]. rewrite Hr.
    rewrite (proj2 (Z.ltb_ge _ (zlen data))) by lia. rewrite (proj2 (Z.leb_gt (len - 2) _)) by lia.
    replace (zlen pre + zlen ds + zlen ext + 2 + zlen data) with (zlen (pre ++ ds ++ ext ++ crlf ++ data)) by zl.
    rewrite (skip_nl _ _ (pre ++ ds ++ ext ++ crlf ++ data) (rest ++ more));
      [|by rewrite <- !app_assoc|zl]. cbn [mbind option_bind].
    specialize (IH ((pre ++ ds ++ ext ++ crlf ++ data) ++ crlf) more fuel).
    replace (zlen (pre ++ ds ++ ext ++ crlf ++ data) + 2)
      with (zlen ((pre ++ ds ++ ext ++ crlf ++ data) ++ crlf)) by zl.
    replace (pre ++ ds ++ ext ++ crlf ++ data ++ crlf ++ rest ++ more)
      with (((pre ++ ds ++ ext ++ crlf ++ data) ++ crlf) ++ rest ++ more) by (rewrite <- !app_assoc; done).
    rewrite IH; [f_equal; zl|zl|zl].
Qed.

(** ** The first line *)

Lemma first_line_at len l : forall pre more fuel, text_line l ->
  zlen pre + zlen l < len -> (length l < fuel)%nat ->
  first_line fuel (pre ++ l ++ crlf ++ more) len (zlen pre) = Some (Some (zlen pre + zlen l)).
Proof.
  induction l as [|c l IH]; intros pre more fuel Ht Hl Hf; (destruct fuel as [|fuel]; [simpl in Hf; lia|]);
    unfold first_line; fold first_line; autorewrite with zlen in Hl.
  - rewrite (proj2 (Z.eqb_neq _ len)) by lia. simpl. rewrite rd_at. simpl. do 2 f_equal. zl.
  - apply Forall_cons_1 in Ht as [[Hc1 Hc2] Ht]. pose proof (zlen_nonneg l).
    rewrite (proj2 (Z.eqb_neq _ len)) by lia. cbn [app]. rewrite rd_at. cbn [mbind option_bind].
    rewrite (proj2 (Z.eqb_neq c 10)), (proj2 (Z.eqb_neq c 13)) by done. cbn [orb].
    replace (zlen pre + 1) with (zlen (pre ++ [c])) by zl.
    replace (pre ++ c :: l ++ crlf ++ more) with ((pre ++ [c]) ++ l ++ crlf ++ more)
      by (rewrite <- app_assoc; done).
    rewrite IH by (done || zl || (simpl in Hf; lia)). do 2 f_equal. zl.
Qed.

(** What [memcmp] finds does not depend on what follows the line. *)
Lemma memeq_at pre l more s : Forall (fun c => c <> 13) s -> zlen s <= zlen l + 2 + zlen more ->
  memeq (pre ++ l ++ crlf ++ more) (zlen pre) s = Some (bool_decide (take (length s) l = s)).
Proof.
  intros Hs Hz. unfold memeq. pose proof (zlen_nonneg pre). pose proof (zlen_nonneg s).
  rewrite sub_spec by zl. cbn [mbind option_bind]. f_equal. apply bool_decide_ext.
  clear Hz H H0. unfold zlen. rewrite !Nat2Z.id, drop_app_length. revert l.
  induction Hs as [|d s Hd Hs IH]; intros l; [done|]. destruct l as [|c l]; simpl; [split; congruence|].
  split; intros [= E1 E2]; subst d; f_equal; by apply IH.
Qed.

Lemma status_at len l : forall pre more fuel, 2 <= zlen more -> (length l < fuel)%nat ->
  zlen pre + zlen l = len ->
  status_code fuel (pre ++ l ++ crlf ++ more) len (zlen pre) = Some (status_in l).
Proof.
  induction l as [|c l IH]; intros pre more fuel Hm Hf Hl; (destruct fuel as [|fuel]; [simpl in Hf; lia|]);
    unfold status_code; fold status_code; autorewrite with zlen in Hl.
  { by rewrite (proj2 (Z.ltb_ge _ len)) by lia. }
  pose proof (zlen_nonneg l). rewrite (proj2 (Z.ltb_lt _ len)) by lia. cbn [app]. rewrite rd_at.
  cbn [mbind option_bind status_in].
  replace (zlen pre + 1) with (zlen (pre ++ [c])) by zl.
  replace (pre ++ c :: l ++ crlf ++ more) with ((pre ++ [c]) ++ l ++ crlf ++ more)
    by (rewrite <- app_assoc; done).
  destruct (c =? 32); [|by apply IH; [done|simpl in Hf; lia|zl]].
  rewrite !memeq_at by (by repeat constructor || (change (zlen (str _)) with 3; zl)).
  assert (exists d, rd ((pre ++ [c]) ++ l ++ crlf ++ more) (zlen (pre ++ [c])) = Some d /\
    (d =? 49) = bool_decide (take 1 l = str "1")) as (d & Ed & Ed1).
  { destruct l as [|d l]; simpl; rewrite rd_at; eexists; (split; [done|]); [done|].
    destruct (Z.eqb_spec d 49) as [->|]; symmetry; [done|]. apply bool_decide_eq_false. by intros [= ?]. }
  unfold status_of. change (length (str "204")) with 3%nat. change (length (str "304")) with 3%nat.
  rewrite Ed. cbn [mbind option_bind]. rewrite Ed1. repeat case_bool_decide; done.
Qed.

Lemma all_printable_at n : forall pre l more, length l = n -> Forall (fun c => printable c = true) l ->
  all_printable n (pre ++ l ++ more) (zlen pre) = Some true.
Proof.
  induction n as [|n IH]; intros pre l more Hn Hl; [done|]. destruct l as [|c l]; [done|].
  apply Forall_cons_1 in Hl as [Hc Hl]. unfold all_printable; fold all_printable.
  cbn [app]. rewrite rd_at. cbn [mbind option_bind]. rewrite Hc.
  replace (zlen pre + 1) with (zlen (pre ++ [c])) by zl.
  replace (pre ++ c :: l ++ more) with ((pre ++ [c]) ++ l ++ more) by (rewrite <- app_assoc; done).
  apply IH; [|done]. simpl in Hn. lia.
Qed.

(** When the head has arrived, the answer is what the content says. *)
Lemma http_head_at start ls body rest len : http_message start ls body ->
  let h := head_text start ls in
  zlen h <= len -> len <= zlen (h ++ rest) ->
  exists ch cl, content_ok (first_line_status start).1 ch cl body /\
    cs_complete_auto (h ++ rest) len = http_content (h ++ rest) len (first_line_status start).1 ch cl (zlen h).
Proof.
  intros [Hst [H4 Hp] (ch & cl & Hls & Hc) H8] h Hl Hlen. fold h in H8. exists ch, cl. split; [done|].
  assert (h ++ rest = start ++ crlf ++ (lines_text ls ++ crlf ++ rest)) as Eh
    by (unfold h, head_text; rewrite <- !app_assoc; done).
  assert (zlen h = zlen start + 2 + zlen (lines_text ls) + 2) as Hz by (unfold h, head_text; zl).
  pose proof (zlen_nonneg (lines_text ls)) as Hnl. pose proof (zlen_nonneg rest) as Hnr.
  unfold cs_complete_auto, cs_complete_auto_x. rewrite (proj2 (Z.ltb_lt 5 len)) by lia.
  assert (all_printable 4 (h ++ rest) 0 = Some true) as ->.
  { rewrite Eh, <- (take_drop 4 start), <- app_assoc.
    apply (all_printable_at 4 [] (take 4 start)); [|done]. rewrite length_take. unfold zlen in *. lia. }
  cbn [mbind option_bind]. unfold cs_complete_http. rewrite Eh.
  pose proof (first_line_at len start [] (lines_text ls ++ crlf ++ rest) (S (Z.to_nat len)) Hst) as Ef.
  cbn [app] in Ef. change (zlen []) with 0 in Ef. rewrite Ef by (unfold zlen in *; lia). cbn [mbind option_bind].
  pose proof (memeq_at [] start (lines_text ls ++ crlf ++ rest) (str "HTTP/")) as Em.
  cbn [app] in Em. change (zlen []) with 0 in Em. rewrite Em; [|by repeat constructor|].
  2: { change (zlen (str "HTTP/")) with 5. zl. }
  cbn [mbind option_bind]. change (length (str "HTTP/")) with 5%nat.
  assert (forall o : option (bool * Z), o = Some (first_line_status start) ->
    (let? (ho, c) := o in
     http_headers (S (Z.to_nat len)) (start ++ crlf ++ (lines_text ls ++ crlf ++ rest)) len ho false c 2) =
    http_content (start ++ crlf ++ (lines_text ls ++ crlf ++ rest)) len (first_line_status start).1 ch cl (zlen h)) as Hend.
  { intros o ->. destruct (first_line_status start) as [ho c]. cbn [mbind option_bind fst snd] in *.
    pose proof (headers_text len ho false c (drop 2 start) (take 2 start) (crlf ++ (lines_text ls ++ crlf ++ rest))
      (S (Z.to_nat len)) (Forall_drop _ _ _ Hst)) as Et.
    rewrite app_assoc, take_drop in Et.
    assert (zlen (take 2 start) = 2) as E2 by (unfold zlen in *; rewrite length_take; lia).
    assert (zlen (drop 2 start) = zlen start - 2) as E3 by (unfold zlen in *; rewrite length_drop; lia).
    rewrite E2, E3 in Et. destruct Et as (fuel' & Hf' & ->); [lia..|].
    pose proof (header_lines_at len ho ls false c ch cl Hls start rest fuel') as E. cbv zeta in E.
    rewrite <- !app_assoc in E. rewrite E; [done|..]; unfold h, head_text in *; try (done || zl). }
  apply Hend. unfold first_line_status. destruct (decide (take 5 start = str "HTTP/")) as [E5|E5];
    [rewrite !bool_decide_eq_true_2 by done|rewrite !bool_decide_eq_false_2 by done; done].
  assert (start = take 5 start ++ drop 5 start) as Es by (by rewrite take_drop).
  assert (zlen (take 5 start) = 5) as E5z by (rewrite E5; done).
  pose proof (status_at (zlen start) (drop 5 start) (take 5 start) (lines_text ls ++ crlf ++ rest)
    (S (Z.to_nat len))) as E. rewrite (app_assoc (take 5 start)), take_drop, E5z in E. apply E; [zl| |].
  - rewrite length_drop. unfold zlen in *. lia.
  - rewrite Es at 2. rewrite zlen_app. lia.
Qed.

(** ** The properties *)

(** C21: with any [len] octets in a buffer that has room for two more,
    [cs_complete_auto] and [cs_complete_auto_head] read nothing outside the
    buffer, terminate, and answer -1 or a number of octets that have arrived. *)
Theorem cs_complete_auto_safe (buf : list Z) (len : Z) (head_only : bool) :
  bytes_ok buf -> 0 <= len <= INT_MAX -> len + 2 <= zlen buf ->
  exists r, cs_complete_auto_x buf len head_only = Some r /\ -1 <= r <= len.
Proof.
  intros Hb Hl Hz. destruct (complete_more buf len len head_only) as (r & E & Hr & _); [done|lia..|].
  exists r. done.
Qed.

Lemma cs_complete_auto_safe_witness :
  exists r, cs_complete_auto_x (str "HTTP/1.1 2" ++ [13; 10; 0; 0]) 12 false = Some r /\ -1 <= r <= 12.
Proof.
  apply (cs_complete_auto_safe _ 12 false); [|unfold INT_MAX; lia|done].
  repeat constructor; unfold byte_ok; lia.
Defined.

(** C22: a message that was found complete in the first [len] octets is
    found, with the same length, when more octets have arrived. *)
Theorem cs_complete_auto_stable (buf : list Z) (len len' : Z) (head_only : bool) (r : Z) :
  bytes_ok buf -> 0 <= len <= len' -> len' <= INT_MAX -> len' + 2 <= zlen buf -> 0 < r ->
  cs_complete_auto_x buf len head_only = Some r -> cs_complete_auto_x buf len' head_only = Some r.
Proof.
  intros Hb Hl Hm Hz Hr E. destruct (complete_more buf len len' head_only) as (r' & E' & _ & H); [done..|].
  rewrite E in E'. injection E' as <-. apply H. by left.
Qed.

Lemma cs_complete_auto_stable_witness :
  let buf := str "GET / HTTP/1.0" ++ crlf ++ crlf ++ str "GET /next" in
  cs_complete_auto_x buf 18 false = Some 18 /\ cs_complete_auto_x buf 25 false = Some 18.
Proof.
  intros buf. split; [reflexivity|].
  apply (cs_complete_auto_stable buf 18 25 false 18); [|lia|unfold INT_MAX; lia|done|lia|reflexivity].
  repeat constructor; unfold byte_ok; lia.
Defined.

(** C20: of an HTTP message with a head of at most 8192 octets, whose
    content is told by the status code, by Content-Length or by chunks,
    [cs_complete_auto] says that it is complete, with its length, when all of it
    has arrived, whatever follows it, and that it is not complete (0, never an
    error) for any smaller number of octets. *)
Theorem http_framing (start : list Z) (ls : list (list Z)) (body rest : list Z) (len : Z) :
  let m := head_text start ls ++ body in
  http_message start ls body -> bytes_ok (m ++ rest) -> 2 <= zlen rest -> zlen m <= INT_MAX ->
  0 <= len <= INT_MAX -> len + 2 <= zlen (m ++ rest) ->
  cs_complete_auto (m ++ rest) len = Some (if zlen m <=? len then zlen m else 0).
Proof.
  intros m Hm Hb Hr Hmax Hl Hz. set (h := head_text start ls) in *.
  assert (m ++ rest = h ++ (body ++ rest)) as Em by (unfold m; by rewrite <- app_assoc).
  assert (zlen m = zlen h + zlen body) as Ez by (unfold m; zl). pose proof (zlen_nonneg body). pose proof (zlen_nonneg h).
  assert (forall l, zlen m <= l <= INT_MAX -> l <= zlen (m ++ rest) ->
    cs_complete_auto (m ++ rest) l = Some (zlen m)) as Hdone.
  { intros l Hlm Hlz. destruct (http_head_at start ls body (body ++ rest) l Hm) as (ch & cl & Hc & E);
      fold h; [lia|by rewrite <- Em|]. fold h in E. rewrite Em, E. unfold http_content, content_ok in *.
    destruct (first_line_status start).1; [subst body; f_equal; zl|]. destruct ch.
    - unfold cs_read_chunks. rewrite chunked_body_at by (done || lia). by rewrite Ez.
    - subst cl. rewrite (proj2 (Z.eqb_neq _ (-1))) by lia.
      unfold u32. rewrite !wrap_small by (unfold INT_MAX in *; lia).
      rewrite (proj2 (Z.ltb_ge _ (zlen body))), (proj2 (Z.leb_le _ l)) by lia. by rewrite Ez. }
  destruct (Z.leb_spec (zlen m) len); [apply Hdone; lia|].
  assert (zlen (m ++ rest) = zlen m + zlen rest) as Ezr by apply zlen_app.
  assert (cs_complete_auto (m ++ rest) (zlen m) = Some (zlen m)) as Hfull by (apply Hdone; lia).
  destruct (Z.le_gt_cases (zlen h) len) as [Hh|Hh].
  - (* the head has arrived *)
    destruct (http_head_at start ls body (body ++ rest) len Hm) as (ch & cl & Hc & E);
      fold h; [lia|by rewrite <- Em; lia|]. fold h in E.
    rewrite Em, E. unfold http_content, content_ok in *.
    destruct (first_line_status start).1; [subst body; zl|]. destruct ch.
    + unfold cs_read_chunks. rewrite <- Em.
      destruct (chunks_more (m ++ rest) len (zlen m)) with (fuel := S (Z.to_nat len)) (i := zlen h)
        (fuel' := S (Z.to_nat (zlen m))) as (r & -> & Hr2 & H2); [lia..|].
      destruct (Z.eq_dec r 0) as [->|Hne]; [done|]. specialize (H2 Hne).
      rewrite Em, chunked_body_at in H2 by (done || lia). injection H2. lia.
    + subst cl. rewrite (proj2 (Z.eqb_neq _ (-1))) by lia.
      unfold u32. rewrite !wrap_small by (unfold INT_MAX in *; lia).
      by rewrite (proj2 (Z.ltb_ge _ (zlen body))), (proj2 (Z.leb_gt _ len)) by lia.
  - (* it has not *)
    pose proof (hm_size _ _ _ Hm) as H8. fold h in H8.
    destruct (complete_more (m ++ rest) len (zlen m) false) as (r & E & Hr2 & H2); [done|lia..|].
    unfold cs_complete_auto in *. rewrite E. destruct (Z.eq_dec r 0) as [->|Hne]; [done|].
    rewrite H2 in Hfull by lia. injection Hfull. lia.
Qed.

(** A response whose content is one chunk. *)
Definition chunked_response : list Z :=
  str "2;x" ++ crlf ++ str "hi" ++ crlf ++ str "0" ++ crlf ++ crlf.

Lemma chunked_response_ok :
  http_message (str "HTTP/1.1 200 OK") [str "Transfer-Encoding: chunked"] chunked_response.
Proof.
  split; [by repeat constructor|split; [done|by repeat constructor]| |done].
  exists true, (-1). split.
  - eapply hls_cons; [|constructor].
    apply (hl_encoding (str "Transfer-Encoding:") 1 (str "chunked") false (-1)); [done|by repeat constructor|done].
  - apply (cb_chunk (str "2") [2] (str ";x") (str "hi") (str "0" ++ crlf ++ crlf));
      [by repeat constructor|done|done|done|by repeat constructor|right; exists 59; eexists; split; [done|by intros d []]|].
    apply (cb_last (str "0") [0] [] []); [by repeat constructor|done|done|constructor| |constructor].
    right. exists 13; eexists; split; [done|by intros d []].
Qed.

Lemma http_framing_witness :
  let m := head_text (str "HTTP/1.1 200 OK") [str "Transfer-Encoding: chunked"] ++ chunked_response in
  cs_complete_auto (m ++ str "HTTP") 60 = Some 0 /\ cs_complete_auto (m ++ str "HTTP") 61 = Some 61.
Proof.
  assert (bytes_ok ((head_text (str "HTTP/1.1 200 OK") [str "Transfer-Encoding: chunked"] ++ chunked_response)
    ++ str "HTTP")) as Hb by (repeat constructor; unfold byte_ok; lia).
  split.
  - apply (http_framing (str "HTTP/1.1 200 OK") [str "Transfer-Encoding: chunked"] chunked_response
      (str "HTTP") 60 chunked_response_ok Hb); done.
  - apply (http_framing (str "HTTP/1.1 200 OK") [str "Transfer-Encoding: chunked"] chunked_response
      (str "HTTP") 61 chunked_response_ok Hb); done.
Defined.

(** Without room after the octets, the comparison with a status code of a first
    line that ends early reaches outside the buffer. *)
Lemma http_status_overread : cs_complete_auto (str "HTTP/ " ++ [10]) 7 = None.
Proof. reflexivity. Qed.
