(* ===== verification/Http.v ===== *)
(** * HTTP messages (http.c, zgdu.c)

    Requests and responses as values, the functions on their headers, and the
    codecs: the encoders write to the stream of an ODR handle, the decoders read
    its buffer.  A string is memory with its terminator; the list of headers is the
    chain of its nodes.  The contents of a message decoded from chunks are the
    octets that were copied, without terminator. *)

From stdpp Require Import base list numbers option strings.
From Stdlib Require Import ZArith Lia.
From S2P Require Import Prelude Text OdrMem OdrTag MatchStr Base64 Comstack.

Record Z_HTTP_Header := Header {
  hname : list Z;
  hvalue : list Z;
}.

Record Z_HTTP_Request := Request {
  req_method : option (list Z);
  req_version : list Z;
  req_path : option (list Z);
  req_headers : list Z_HTTP_Header;
  req_content : option (list Z);
  req_content_len : Z;
}.

Record Z_HTTP_Response := Response {
  res_code : Z;
  res_version : list Z;
  res_headers : list Z_HTTP_Header;
  res_content : option (list Z);
  res_content_len : Z;
}.

(** ** Decoding *)

(** [for (po = i; ; i++)] up to the colon: [None] inside at the end. *)
Fixpoint find_colon (fuel : nat) (buf : list Z) (size i : Z) : option (option Z) :=
  match fuel with
  | O => None
  | S fuel =>
      if i =? size then Some None
      else
        let? c := rd buf i in
        if c =? 58 then Some (Some i) else find_colon fuel buf size (i + 1)
  end.

(** [while (i < lim && p(buf[i])) i++;] *)
Fixpoint scan_while (fuel : nat) (p : Z -> bool) (buf : list Z) (lim i : Z) : option Z :=
  match fuel with
  | O => None
  | S fuel =>
      if i <? lim then
        let? c := rd buf i in
        if p c then scan_while fuel p buf lim (i + 1) else Some i
      else Some i
  end.

(** [strchr("\r\n", c)], which the terminator satisfies too. *)
Definition line_end (c : Z) : bool := strchr [13; 10] c.
Definition is_blank (c : Z) : bool := c =? 32.

(** [!yaz_strcasecmp(m, s)] *)
Definition is_name (m s : list Z) : option bool :=
  let? r := yaz_strcasecmp m (s ++ [0]) in Some (r =? 0).

(** [if (i < size - 1 && buf[i] == '\r') i++;] *)
Definition skip_cr (buf : list Z) (size i : Z) : option Z :=
  if i <? size - 1 then let? c := rd buf i in Some (if c =? 13 then i + 1 else i) else Some i.

(** The header lines, [buf[i]] being the end of the line before. *)
Fixpoint decode_headers (fuel : nat) (buf : list Z) (size i : Z) (chunked : bool)
  : option (option (list Z_HTTP_Header * bool * Z)) :=
  match fuel with
  | O => None
  | S fuel =>
      let? more := if i <? size - 1 then let? c := rd buf i in Some (c =? 10) else Some false in
      if negb more then Some (Some ([], chunked, i))
      else
        let i := i + 1 in
        let? c := rd buf i in
        let? crlf := if (c =? 13) && (i <? size - 1) then let? d := rd buf (i + 1) in Some (d =? 10) else Some false in
        if crlf : bool then Some (Some ([], chunked, i + 1))
        else if c =? 10 then Some (Some ([], chunked, i))
        else
          let? colon := find_colon (S (length buf)) buf size i in
          match colon with
          | None => Some None
          | Some e =>
              let? n := sub buf i (e - i) in
              let? i := scan_while (S (length buf)) is_blank buf (size - 1) (e + 1) in
              let? e := scan_while (S (length buf)) (fun c => negb (line_end c)) buf (size - 1) i in
              let? v := sub buf i (e - i) in
              let? te := is_name (n ++ [0]) (str "Transfer-Encoding") in
              let? ch := if te : bool then is_name (v ++ [0]) (str "chunked") else Some false in
              let? i := skip_cr buf size e in
              let? r := decode_headers fuel buf size i (chunked || ch) in
              match r with
              | None => Some None
              | Some (hs, chunked, i) => Some (Some (Header (n ++ [0]) (v ++ [0]) :: hs, chunked, i))
              end
          end
  end.

(** The value of a digit of a chunk length; letters after F are digits too. *)
Definition chunk_digit (c : Z) : option Z :=
  if yaz_isdigit c then Some (c - 48)
  else if yaz_isupper c then Some (c - 55)
  else if yaz_islower c then Some (c - 87)
  else None.

Fixpoint chunk_length (fuel : nat) (buf : list Z) (size i v : Z) : option (Z * Z) :=
  match fuel with
  | O => None
  | S fuel =>
      if i <? size - 2 then
        let? c := rd buf i in
        match chunk_digit c with
        | Some d => let v := v * 16 + d in if INT_MAX <? v then None else chunk_length fuel buf size (i + 1) v
        | None => Some (i, v)
        end
      else Some (i, v)
  end.

(** The rest of the line of a chunk length: [None] inside on error. *)
Fixpoint chunk_extension (fuel : nat) (buf : list Z) (size i : Z) : option (option Z) :=
  match fuel with
  | O => None
  | S fuel =>
      let? c := rd buf i in
      let? go := if negb (c =? 13) then let? d := rd buf (i + 1) in Some (negb (d =? 10)) else Some false in
      if negb go then Some (Some i)
      else if size - 2 <=? i then Some None
      else chunk_extension fuel buf size (i + 1)
  end.

(** The octets copied so far are [acc], to a block of [alloc] octets. *)
Fixpoint decode_chunks (fuel : nat) (buf : list Z) (size alloc i : Z) (acc : list Z) : option (option (list Z)) :=
  match fuel with
  | O => None
  | S fuel =>
      let? (i, chunk_len) := chunk_length (S (length buf)) buf size i 0 in
      let? e := chunk_extension (S (length buf)) buf size i in
      match e with
      | None => Some None
      | Some i =>
          let i := i + 2 in
          if chunk_len =? 0 then Some (Some acc)
          else if (chunk_len <? 0) || (size <? zlen acc + chunk_len) then Some None
          else
            let? bs := sub buf i chunk_len in
            if alloc <? zlen acc + chunk_len then None
            else decode_chunks fuel buf size alloc (i + (chunk_len + 2)) (acc ++ bs)
      end
  end.

(** [o->error = OHTTP; return 0;] *)
Definition http_error {A} : ODR (option A) := modify (OdrMem.set_error OHTTP) ;; ret None.

(** The headers, the content and its length, or [None] with the error set. *)
Definition decode_headers_content (off : Z) : ODR (option (list Z_HTTP_Header * option (list Z) * Z)) :=
  let* o := get in
  let buf := buf o in
  let size := size o in
  let* r := lift (decode_headers (S (length buf)) buf size off false) in
  match r with
  | None => http_error
  | Some (hs, chunked, i) =>
      let* c := lift (rd buf i) in
      if negb (c =? 10) then http_error
      else
        let i := i + 1 in
        if chunked : bool then
          let* r := lift (decode_chunks (S (length buf)) buf size (size - i) i []) in
          match r with
          | None => http_error
          | Some acc => ret (Some (hs, if zlen acc =? 0 then None else Some acc, zlen acc))
          end
        else if size <? i then http_error
        else if i =? size then ret (Some (hs, None, 0))
        else
          let* b := lift (sub buf i (size - i)) in
          ret (Some (hs, Some (b ++ [0]), size - i))
  end.

(** The code after the version: the new [i] and the code, [None] inside for 0. *)
Fixpoint status_digits (fuel : nat) (buf : list Z) (sz j i code : Z) : option (option (Z * Z)) :=
  match fuel with
  | O => None
  | S fuel =>
      if sz - 1 <=? i then Some None
      else if j + 3 <? i then Some None
      else
        let? c := rd buf i in
        if (c <? 48) || (57 <? c) then Some (Some (i, code))
        else status_digits fuel buf sz j (i + 1) (code * 10 + (c - 48))
  end.

(** Where the status line ends, the code, the version and the message; [None]
    inside where 0 is returned. *)
Definition yaz_decode_http_response_first (buf : list Z) (sz : Z) : option (option (Z * Z * list Z * list Z)) :=
  let? http := if sz <? 10 then Some false else memeq buf 0 (str "HTTP/") in
  if negb http then Some None
  else
    let? i := scan_while (S (length buf)) (fun c => negb (strchr [32; 13; 10] c)) buf (sz - 1) 5 in
    if sz - 1 <=? i then Some None
    else
      let? c := rd buf i in
      if negb (c =? 32) then Some None
      else
        let? v := sub buf 5 (i - 5) in
        let i := i + 1 in
        let? r := status_digits (S (length buf)) buf sz i i 0 in
        match r with
        | None => Some None
        | Some (i, code) =>
            let? c := rd buf i in
            if negb (c =? 32) then Some None
            else
              let j := i + 1 in
              let? i := scan_while (S (length buf)) (fun c => negb (line_end c)) buf sz j in
              if sz <=? i then Some None
              else
                let? m := sub buf j (i - j) in
                let? i := skip_cr buf sz i in
                let? c := rd buf i in
                if negb (c =? 10) then Some None else Some (Some (i, code, v, m))
        end.

Definition yaz_decode_http_response : ODR (option Z_HTTP_Response) :=
  let* o := get in
  let* r := lift (yaz_decode_http_response_first (buf o) (size o)) in
  match r with
  | None => http_error
  | Some (i, code, v, _) =>
      let* r := decode_headers_content i in
      match r with
      | None => ret None
      | Some (hs, content, len) => ret (Some (Response code (v ++ [0]) hs content len))
      end
  end.

(** [for (i = 0; buf[i] != ' '; i++)] with its test: [None] inside on error. *)
Fixpoint find_method (fuel : nat) (buf : list Z) (size i : Z) : option (option Z) :=
  match fuel with
  | O => None
  | S fuel =>
      let? c := rd buf i in
      if c =? 32 then Some (Some i)
      else if (size - 5 <=? i) || (30 <? i) then Some None
      else find_method fuel buf size (i + 1)
  end.

(** The rest of the first line: where it ends, and the last blank in it. *)
Fixpoint find_lspace (fuel : nat) (buf : list Z) (size i lspace : Z) : option (Z * Z) :=
  match fuel with
  | O => None
  | S fuel =>
      if i <? size then
        let? c := rd buf i in
        if line_end c then Some (i, lspace)
        else find_lspace fuel buf size (i + 1) (if c =? 32 then i else lspace)
      else Some (i, lspace)
  end.

Definition yaz_decode_http_request : ODR (option Z_HTTP_Request) :=
  let* o := get in
  let buf := buf o in
  let size := size o in
  let* m := lift (find_method (S (length buf)) buf size 0) in
  match m with
  | None => http_error
  | Some i =>
      let* method := lift (sub buf 0 i) in
      let po := i + 1 in
      let* (i, lspace) := lift (find_lspace (S (length buf)) buf size po 0) in
      let* http :=
        if (lspace =? 0) || (size <=? i) || (size - 5 <=? lspace) then ret false
        else lift (memeq buf (lspace + 1) (str "HTTP/")) in
      if negb http then http_error
      else
        let* path := lift (sub buf po (lspace - po)) in
        let* v := lift (sub buf (lspace + 6) (i - (lspace + 6))) in
        let* i := lift (skip_cr buf size i) in
        let* c := lift (rd buf i) in
        if negb (c =? 10) then http_error
        else
          let* r := decode_headers_content i in
          match r with
          | None => ret None
          | Some (hs, content, len) =>
              ret (Some (Request (Some (method ++ [0])) (v ++ [0]) (Some (path ++ [0])) hs content len))
          end
  end.

(** ** Headers *)

Fixpoint z_HTTP_header_add (hs : list Z_HTTP_Header) (n v : list Z) : list Z_HTTP_Header :=
  match hs with
  | [] => [Header n v]
  | h :: hs => h :: z_HTTP_header_add hs n v
  end.

(** [!yaz_strcasecmp(h->name, n)] *)
Definition named (n : list Z) (h : Z_HTTP_Header) : option bool :=
  let? r := yaz_strcasecmp (hname h) n in Some (r =? 0).

Fixpoint z_HTTP_header_set (hs : list Z_HTTP_Header) (n v : list Z) : option (list Z_HTTP_Header) :=
  match hs with
  | [] => Some [Header n v]
  | h :: hs =>
      let? b := named n h in
      if b : bool then Some (Header (hname h) v :: hs)
      else let? hs := z_HTTP_header_set hs n v in Some (h :: hs)
  end.

(** The value that was removed and what is left. *)
Fixpoint z_HTTP_header_remove (hs : list Z_HTTP_Header) (n : list Z) : option (option (list Z) * list Z_HTTP_Header) :=
  match hs with
  | [] => Some (None, [])
  | h :: hs =>
      let? b := named n h in
      if b : bool then Some (Some (hvalue h), hs)
      else let? (v, hs) := z_HTTP_header_remove hs n in Some (v, h :: hs)
  end.

Fixpoint z_HTTP_header_lookup (hs : list Z_HTTP_Header) (n : list Z) : option (option (list Z)) :=
  match hs with
  | [] => Some None
  | h :: hs =>
      let? b := named n h in
      if b : bool then Some (Some (hvalue h)) else z_HTTP_header_lookup hs n
  end.

Definition z_HTTP_header_add_content_type (hs : list Z_HTTP_Header) (content_type : list Z) (charset : option (list Z))
  : option (list Z_HTTP_Header) :=
  let l := str "Content-Type" ++ [0] in
  match charset with
  | Some charset =>
      let? t := cstr content_type in
      let? c := cstr charset in
      Some (z_HTTP_header_add hs l (t ++ str "; charset=" ++ c ++ [0]))
  | None => Some (z_HTTP_header_add hs l content_type)
  end.

(** The buffer has [strlen(tmp) * 8 / 6 + 12] octets. *)
Definition z_HTTP_header_add_basic_auth (hs : list Z_HTTP_Header) (username password : option (list Z))
  : option (list Z_HTTP_Header) :=
  match username with
  | None => Some hs
  | Some u =>
      let? u := cstr u in
      let? p := cstr (default [0] password) in
      let tmp := u ++ str ":" ++ p in
      let? e := yaz_base64encode (tmp ++ [0]) in
      let buf := str "Basic " ++ e in
      if zlen tmp * 8 / 6 + 12 <? zlen buf then None
      else z_HTTP_header_set hs (str "Authorization" ++ [0]) buf
  end.

(** ** New messages *)

Section messages.
(** [YAZ_VERSION], which the build defines. *)
Context (YAZ_VERSION : list Z).

Definition z_get_HTTP_Request : Z_HTTP_Request :=
  Request (Some (str "POST" ++ [0])) (str "1.1" ++ [0]) (Some (str "/" ++ [0]))
    (z_HTTP_header_add [] (str "User-Agent" ++ [0]) (str "YAZ/" ++ YAZ_VERSION ++ [0])) None 0.

(** The host of a URI starts after ["://"] and ends at a slash: its place. *)
Definition uri_host (uri : list Z) : option (Z * Z) :=
  let cp0 := match find_str (str "://") uri with Some i => i + 3 | None => 0 end in
  let at0 := drop (Z.to_nat cp0) uri in
  let? cp1 := find_char 47 at0 in
  match cp1 with
  | Some i => Some (cp0, cp0 + i)
  | None => let? n := strlen at0 in Some (cp0, cp0 + n)
  end.

Definition with_headers (p : Z_HTTP_Request) (hs : list Z_HTTP_Header) (path : list Z) : Z_HTTP_Request :=
  Request (req_method p) (req_version p) (Some path) hs (req_content p) (req_content_len p).

Definition z_get_HTTP_Request_host_path (host : option (list Z)) (path : list Z) : option Z_HTTP_Request :=
  let p := z_get_HTTP_Request in
  match host with
  | None => Some (with_headers p (req_headers p) path)
  | Some host =>
      let? (cp0, cp1) := uri_host host in
      let? h := sub host cp0 (cp1 - cp0) in
      Some (with_headers p (z_HTTP_header_add (req_headers p) (str "Host" ++ [0]) (h ++ [0])) path)
  end.

Definition z_get_HTTP_Request_uri (uri : list Z) (args : option (list Z)) (use_full_uri : bool) : option Z_HTTP_Request :=
  let p := z_get_HTTP_Request in
  let? (cp0, cp1) := uri_host uri in
  let? h := sub uri cp0 (cp1 - cp0) in
  let hs := z_HTTP_header_add (req_headers p) (str "Host" ++ [0]) (h ++ [0]) in
  let? c := rd uri cp1 in
  let? args := cstr (match args with
                     | Some args => args
                     | None => if negb (c =? 0) then drop (Z.to_nat (cp1 + 1)) uri else [0]
                     end) in
  let? start := if use_full_uri then sub uri 0 cp1 else Some [] in
  Some (with_headers p hs (start ++ str "/" ++ args ++ [0])).

Definition http_messages : list (Z * list Z) :=
  [(100, str "Continue");
   (101, str "Switching Protocols");
   (200, str "OK");
   (201, str "Created");
   (202, str "Accepted");
   (203, str "Non-Authoritative Information");
   (204, str "No Content");
   (205, str "Reset Content");
   (206, str "Partial Content");
   (300, str "Multiple Choices");
   (301, str "Moved Permenently");
   (302, str "Found");
   (303, str "See Other");
   (304, str "Not Modified");
   (305, str "Use Proxy");
   (307, str "Temporary Redirect");
   (400, str "Bad Request");
   (404, str "Not Found");
   (405, str "Method Not Allowed");
   (406, str "Not Acceptable");
   (407, str "Proxy Authentication Required");
   (408, str "Request Timeout");
   (409, str "Conflict");
   (410, str "Gone");
   (411, str "Length Required");
   (412, str "Precondition Failed");
   (413, str "Request Entity Too Large");
   (414, str "Request-URI Too Long");
   (415, str "Unsupported Media Type");
   (416, str "Requested Range Not Satisfiable");
   (417, str "Expectation Failed");
   (500, str "Internal Error");
   (501, str "Not Implemented");
   (502, str "Bad Gateway");
   (503, str "Service Unavailable");
   (504, str "Gateway Timeout");
   (505, str "HTTP Version Not Supported")].

Fixpoint message_of (code : Z) (ms : list (Z * list Z)) : list Z :=
  match ms with
  | [] => str "Unknown Error"
  | (c, m) :: ms => if c =? code then m else message_of code ms
  end.
Definition z_HTTP_errmsg (code : Z) : list Z := message_of code http_messages.

(** [yaz_snprintf(b + strlen(b), sz - strlen(b), ...)] of [text], where [b] holds
    [s] already. *)
Definition snprintf_at (sz : Z) (s text : list Z) : list Z := s ++ take (Z.to_nat (sz - zlen s - 1)) text.

Definition error_page (server server_url http_err : list Z) (code : Z) : list Z :=
  str "<!DOCTYPE HTML PUBLIC " ++ [34] ++ str "-//W3C//DTD HTML 4.01//EN" ++ [34] ++
  str " " ++ [34] ++ str "http://www.w3.org/TR/html4/strict.dtd" ++ [34] ++ str ">" ++ nl ++
  str "<HTML>" ++ nl ++
  str " <HEAD>" ++ nl ++
  str "  <TITLE>" ++ server ++ str "</TITLE>" ++ nl ++
  str " </HEAD>" ++ nl ++
  str " <BODY>" ++ nl ++
  str "  <P><A HREF=" ++ [34] ++ server_url ++ [34] ++ str ">" ++ server ++ str "</A></P>" ++ nl ++
  str "  <P>Error: " ++ fmt_d code ++ str "</P>" ++ nl ++
  str "  <P>Description: " ++ http_err ++ str "</P>" ++ nl.

Definition z_get_HTTP_Response_server (code : Z) (details : option (list Z)) (server server_url : list Z)
  : option Z_HTTP_Response :=
  let hs := z_HTTP_header_add [] (str "Server" ++ [0]) server in
  if code =? 200 then Some (Response code (str "1.1" ++ [0]) hs None 0)
  else
    let http_err := z_HTTP_errmsg code in
    let? sv := cstr server in
    let? su := cstr server_url in
    let? d := match details with Some d => cstr d | None => Some [] end in
    let sz := 400 + zlen http_err + zlen d in
    let s := snprintf_at sz [] (error_page sv su http_err code) in
    let s := match details with
             | Some _ => snprintf_at sz s (str "<P>Details: " ++ d ++ str "</P>" ++ nl)
             | None => s
             end in
    let s := snprintf_at sz s (str " </BODY>" ++ nl ++ str "</HTML>" ++ nl) in
    Some (Response code (str "1.1" ++ [0])
      (z_HTTP_header_add hs (str "Content-Type" ++ [0]) (str "text/html" ++ [0])) (Some (s ++ [0])) (zlen s)).

Definition z_get_HTTP_Response_details (code : Z) (details : option (list Z)) : option Z_HTTP_Response :=
  z_get_HTTP_Response_server code details (str "YAZ/" ++ YAZ_VERSION ++ [0]) (str "http://www.indexdata.com/yaz" ++ [0]).

Definition z_get_HTTP_Response (code : Z) : option Z_HTTP_Response := z_get_HTTP_Response_details code None.
End messages.

(** ** Encoding *)

(** [odr_write(o, m, strlen(m))], its result not looked at. *)
Definition write_str (m : list Z) : ODR Z := let* n := lift (strlen m) in odr_write m n.
Definition write_lit (s : list Z) : ODR Z := odr_write s (zlen s).

(** The octets up to the limit, a zero or the end are printed. *)
Fixpoint dump_loop (fuel : nat) (buf : list Z) (len i : Z) : ODR unit :=
  match fuel with
  | O => fault
  | S fuel =>
      let show := let* bs := lift (sub buf 0 i) in modify (fun o => set_printed (printed o ++ bs) o) in
      if i =? len then show
      else if 8192 <=? i then
        show ;;
        odr_printf (str "(truncated from " ++ fmt_d len ++ str " to " ++ fmt_d i ++ nl)
      else
        let* c := lift (rd buf i) in
        if c =? 0 then show ;; odr_printf (str "(binary data)" ++ nl)
        else dump_loop fuel buf len (i + 1)
  end.
Definition dump_http_package (buf : list Z) (len : Z) : ODR unit := dump_loop (S (Z.to_nat 8192)) buf len 0.

(** What was written since [top0], when printing. *)
Definition print_package (what : list Z) (top0 : Z) : ODR Z :=
  let* o := get in
  (if direction o =? ODR_PRINT then
     odr_printf (str "-- HTTP " ++ what ++ str ":" ++ nl) ;;
     let* o := get in
     dump_http_package (drop (Z.to_nat top0) (buf o)) (top o - top0) ;;
     odr_printf (str "--" ++ nl)
   else ret tt) ;;
  ret 1.

Definition write_header (h : Z_HTTP_Header) : ODR Z :=
  write_str (hname h) ;;
  write_lit (str ": ") ;;
  write_str (hvalue h) ;;
  write_lit [13; 10].

(** The name is one of [ss]. *)
Fixpoint is_any (m : list Z) (ss : list (list Z)) : option bool :=
  match ss with
  | [] => Some false
  | s :: ss => let? b := is_name m s in if b : bool then Some true else is_any m ss
  end.

(** The headers except those with the names [skip]. *)
Fixpoint write_headers (skip : list (list Z)) (hs : list Z_HTTP_Header) : ODR unit :=
  match hs with
  | [] => ret tt
  | h :: hs =>
      let* b := lift (is_any (hname h) skip) in
      (if b : bool then ret 0 else write_header h) ;;
      write_headers skip hs
  end.

Definition write_content (content : option (list Z)) (len : Z) : ODR Z :=
  match content with
  | Some b => odr_write b len
  | None => ret 0
  end.

(** [yaz_snprintf] into an array of [n] octets, which is written. *)
Definition write_fmt (n : Z) (text : list Z) : ODR Z := write_lit (take (Z.to_nat (n - 1)) text).

Definition yaz_encode_http_response (hr : Z_HTTP_Response) : ODR Z :=
  let* o := get in
  let top0 := top o in
  let* v := lift (cstr (res_version hr)) in
  write_fmt 80 (str "HTTP/" ++ v ++ str " " ++ fmt_d (res_code hr) ++ str " " ++ z_HTTP_errmsg (res_code hr) ++ [13; 10]) ;;
  write_fmt 80 (str "Content-Length: " ++ fmt_d (res_content_len hr) ++ [13; 10]) ;;
  write_headers [str "Content-Length"; str "Transfer-Encoding"] (res_headers hr) ;;
  write_lit [13; 10] ;;
  write_content (res_content hr) (res_content_len hr) ;;
  print_package (str "response") top0.

Definition yaz_encode_http_request (hr : Z_HTTP_Request) : ODR Z :=
  let* o := get in
  let top0 := top o in
  match req_method hr, req_path hr with
  | Some method, Some path =>
      write_str method ;;
      write_lit (str " ") ;;
      let* cp := lift (find_char 35 path) in
      (match cp with Some n => odr_write path n | None => write_str path end) ;;
      write_lit (str " HTTP/") ;;
      write_str (req_version hr) ;;
      write_lit [13; 10] ;;
      let* cl := if negb (req_content_len hr =? 0)
                 then lift (z_HTTP_header_lookup (req_headers hr) (str "Content-Length" ++ [0]))
                 else ret (Some []) in
      (match cl with
       | None => write_fmt 60 (str "Content-Length: " ++ fmt_d (req_content_len hr) ++ [13; 10])
       | Some _ => ret 0
       end) ;;
      write_headers [str "Transfer-Encoding"] (req_headers hr) ;;
      write_lit [13; 10] ;;
      write_content (req_content hr) (req_content_len hr) ;;
      print_package (str "request") top0
  | _, _ => ret 0
  end.

(** ** Locations (comstack.c, http.c) *)

(** Where the arguments of a host start; [None] inside for the empty string. *)
Definition cs_get_host_args (s : list Z) : option (option Z) :=
  let after (k : Z) : option (option Z) :=
    let t := drop (Z.to_nat k) s in
    let? c := rd t 0 in
    if c =? 0 then Some None
    else
      let? cp := find_char 47 t in
      let? cp :=
        match cp with
        | Some i =>
            let? url := if 0 <? i then memeq t (i - 1) (str "://") else Some false in
            if url : bool then
              let? r := find_char 47 (drop (Z.to_nat (i + 2)) t) in
              Some (option_map (fun j => i + 2 + j) r)
            else Some (Some i)
        | None => Some None
        end in
      Some (option_map (fun i => k + i + 1) cp) in
  if bool_decide (take 5 s = str "unix:") then
    let? cp := find_char 58 (drop 5 s) in
    match cp with
    | None => Some None
    | Some i =>
        let k := 5 + i + 1 in
        let? cp := find_char 58 (drop (Z.to_nat k) s) in
        match cp with
        | None => Some (Some k)
        | Some _ => after k
        end
    end
  else after 0.

(** The URI to go to, and whether the host may be another. *)
Definition yaz_check_location (uri location : list Z) : option (list Z * bool) :=
  let? c := rd location 0 in
  if c =? 47 then
    let? n := strlen uri in
    let? args := cs_get_host_args uri in
    let? at_ := match args with
                | None => Some n
                | Some a => let? c := rd uri a in Some (if c =? 0 then n else a - 1)
                end in
    let? start := sub uri 0 at_ in
    let? l := cstr location in
    Some (start ++ l ++ [0], false)
  else Some (location, true).

(** ** Messages of either protocol (zgdu.c) *)

Inductive Z_GDU (A : Type) :=
  | GDU_Z3950 (p : A)
  | GDU_HTTP_Request (r : Z_HTTP_Request)
  | GDU_HTTP_Response (r : Z_HTTP_Response).
#[global] Arguments GDU_Z3950 {A} p.
#[global] Arguments GDU_HTTP_Request {A} r.
#[global] Arguments GDU_HTTP_Response {A} r.

Section gdu.
(** The codec of Z39.50 packages, which is generated. *)
Context {A : Type} (z_APDU : Odr_fun A).

Definition z_GDU : Odr_fun (Z_GDU A) := fun p opt name =>
  let* o := get in
  if direction o =? ODR_DECODE then
    let* response := if 10 <? size o then lift (memeq (buf o) 0 (str "HTTP/")) else ret false in
    if response : bool then
      let* r := yaz_decode_http_response in
      match r with
      | Some r => ret (1, Some (GDU_HTTP_Response r))
      | None => ret (0, None)
      end
    else
      let* request := if 5 <? size o then lift (all_printable 4 (buf o) 0) else ret false in
      if request : bool then
        let* r := yaz_decode_http_request in
        match r with
        | Some r => ret (1, Some (GDU_HTTP_Request r))
        | None => ret (0, None)
        end
      else
        let* (r, p) := z_APDU None opt None in
        ret (r, GDU_Z3950 <$> p)
  else
    let* p := lift p in
    match p with
    | GDU_HTTP_Response r => let* x := yaz_encode_http_response r in ret (x, Some p)
    | GDU_HTTP_Request r => let* x := yaz_encode_http_request r in ret (x, Some p)
    | GDU_Z3950 q => let* (x, q) := z_APDU (Some q) opt None in ret (x, GDU_Z3950 <$> q)
    end.
End gdu.
