(* ===== verification/HttpRound.v ===== *)
(** * HTTP messages from end to end (http.c, zgdu.c, comstack.c)

    What the encoders write is one message for the framing of the connection, and
    what the decoders make of that message is the value that was encoded. *)

From stdpp Require Import base list numbers option strings.
From Stdlib Require Import ZArith Lia.
From S2P Require Import Prelude Text OdrMem BerTag BerLen OdrTag BerPrim OdrCodec BerAny MatchStr Atoi OdrStream.
From S2P Require Import Comstack HttpFraming Http.

(** ** Messages and their text *)

Definition hdr (h : list Z * list Z) : Z_HTTP_Header := Header (h.1 ++ [0]) (h.2 ++ [0]).
Definition content_of (body : list Z) : option (list Z) := if zlen body =? 0 then None else Some (body ++ [0]).

Definition request_of (m p v : list Z) (hs : list (list Z * list Z)) (body : list Z) : Z_HTTP_Request :=
  Request (Some (m ++ [0])) (v ++ [0]) (Some (p ++ [0])) (map hdr hs) (content_of body) (zlen body).
Definition response_of (code : Z) (v : list Z) (hs : list (list Z * list Z)) (body : list Z) : Z_HTTP_Response :=
  Response code (v ++ [0]) (map hdr hs) (content_of body) (zlen body).

(** The header that is added. *)
Definition length_header (body : list Z) : list Z * list Z := (str "Content-Length", fmt_d (zlen body)).

Definition header_text (h : list Z * list Z) : list Z := h.1 ++ str ": " ++ h.2.
Definition request_line (m p v : list Z) : list Z := m ++ str " " ++ p ++ str " HTTP/" ++ v.
Definition status_line (code : Z) (v : list Z) : list Z :=
  str "HTTP/" ++ v ++ str " " ++ fmt_d code ++ str " " ++ z_HTTP_errmsg code.

Definition message_text (start : list Z) (hs : list (list Z * list Z)) (body : list Z) : list Z :=
  head_text start (map header_text hs) ++ body.

(** What the texts of a message may hold. *)
Definition line_char (c : Z) : Prop := byte_ok c /\ c <> 0 /\ c <> 10 /\ c <> 13.
Definition name_is (n s : list Z) : Prop := map fold_case n = map fold_case s.

Definition plain_header (h : list Z * list Z) : Prop :=
  Forall (fun c => line_char c /\ c <> 58) h.1 /\ Forall line_char h.2 /\ head h.2 <> Some 32.
Definition header_ok (h : list Z * list Z) : Prop :=
  plain_header h /\ ~ name_is h.1 (str "Transfer-Encoding") /\ ~ name_is h.1 (str "Content-Length").

#[global] Instance name_is_dec n s : Decision (name_is n s) := decide_rel (=) _ _.

(** The header that says that the content comes in chunks. *)
Definition says_chunked (h : list Z * list Z) : bool :=
  bool_decide (name_is h.1 (str "Transfer-Encoding")) && bool_decide (name_is h.2 (str "chunked")).

Definition visible (c : Z) : Prop := 32 <= c < 127.

Record request_ok (m p v : list Z) (hs : list (list Z * list Z)) (body : list Z) : Prop := {
  rq_method : Forall (fun c => visible c /\ c <> 32 /\ c <> 47) m /\ zlen m <= 31;
  rq_path : Forall (fun c => visible c /\ c <> 35) p;
  rq_version : Forall (fun c => line_char c /\ c <> 32) v;
  rq_headers : Forall header_ok hs;
  rq_body : bytes_ok body /\ zlen body <= 2 ^ 29;
}.

(** A response with such a code has no content. *)
Definition bodiless (code : Z) : bool := ((100 <=? code) && (code <? 200)) || (code =? 204) || (code =? 304).

Record response_ok (code : Z) (v : list Z) (hs : list (list Z * list Z)) (body : list Z) : Prop := {
  rs_code : 100 <= code <= 999;
  rs_version : Forall (fun c => line_char c /\ c <> 32) v /\ zlen v <= 36;
  rs_headers : Forall header_ok hs;
  rs_body : bytes_ok body /\ zlen body <= 2 ^ 29;
  rs_none : bodiless code = true -> body = [];
}.

Lemma small_int n : n <= 2 ^ 29 -> n <= INT_MAX.
Proof. unfold INT_MAX. lia. Qed.

(** ** Scanning *)

Lemma scan_while_stop p buf lim pre w c more fuel : buf = pre ++ w ++ c :: more -> forallb p w = true -> p c = false ->
  (length w < fuel)%nat -> zlen pre + zlen w < lim -> scan_while fuel p buf lim (zlen pre) = Some (zlen pre + zlen w).
Proof.
  intros ->. revert pre fuel. induction w as [|x w IH]; intros pre [|fuel] Hp Hc Hf Hl; simpl in Hf; try lia; cbn [scan_while].
  - rewrite zlen_nil in *. rewrite (proj2 (Z.ltb_lt _ _)) by lia. cbn [app]. rewrite rd_at. cbn [mbind option_bind].
    rewrite Hc. f_equal. lia.
  - cbn [forallb] in Hp. apply andb_true_iff in Hp as [Hx Hp]. rewrite zlen_cons in *. pose proof (zlen_nonneg w).
    rewrite (proj2 (Z.ltb_lt _ _)) by lia. cbn [app]. rewrite rd_at. cbn [mbind option_bind]. rewrite Hx.
    replace (pre ++ x :: w ++ c :: more) with ((pre ++ [x]) ++ w ++ c :: more) by (by rewrite <- app_assoc).
    replace (zlen pre + 1) with (zlen (pre ++ [x])) by zl. rewrite IH; [f_equal; zl|done|done|lia|zl].
Qed.

Lemma find_colon_at buf size pre w more fuel : buf = pre ++ w ++ 58 :: more -> ~ In 58 w -> (length w < fuel)%nat ->
  zlen pre + zlen w < size -> find_colon fuel buf size (zlen pre) = Some (Some (zlen pre + zlen w)).
Proof.
  intros ->. revert pre fuel. induction w as [|x w IH]; intros pre [|fuel] Hn Hf Hl; simpl in Hf; try lia; cbn [find_colon].
  - rewrite zlen_nil in *. rewrite (proj2 (Z.eqb_neq _ size)) by lia. cbn [app]. rewrite rd_at. cbn [mbind option_bind Z.eqb Pos.eqb].
    do 2 f_equal. lia.
  - rewrite zlen_cons in *. pose proof (zlen_nonneg w). rewrite (proj2 (Z.eqb_neq _ size)) by lia. cbn [app].
    rewrite rd_at. cbn [mbind option_bind]. rewrite (proj2 (Z.eqb_neq x 58)) by (intros ->; apply Hn; by left).
    replace (pre ++ x :: w ++ 58 :: more) with ((pre ++ [x]) ++ w ++ 58 :: more) by (by rewrite <- app_assoc).
    replace (zlen pre + 1) with (zlen (pre ++ [x])) by zl. rewrite IH; [do 2 f_equal; zl| |lia|zl].
    intros H0. apply Hn. by right.
Qed.

Lemma find_method_at buf size pre w more fuel : buf = pre ++ w ++ 32 :: more -> ~ In 32 w -> (length w < fuel)%nat ->
  zlen pre + zlen w <= size - 5 -> zlen pre + zlen w <= 31 -> find_method fuel buf size (zlen pre) = Some (Some (zlen pre + zlen w)).
Proof.
  intros ->. revert pre fuel. induction w as [|x w IH]; intros pre [|fuel] Hn Hf Hl Hm; simpl in Hf; try lia; cbn [find_method].
  - rewrite zlen_nil in *. cbn [app]. rewrite rd_at. cbn [mbind option_bind Z.eqb Pos.eqb]. do 2 f_equal. lia.
  - rewrite zlen_cons in *. pose proof (zlen_nonneg w). cbn [app].
    rewrite rd_at. cbn [mbind option_bind]. rewrite (proj2 (Z.eqb_neq x 32)) by (intros ->; apply Hn; by left).
    rewrite (proj2 (Z.leb_gt _ _)), (proj2 (Z.ltb_ge _ _)) by lia. cbn [orb].
    replace (pre ++ x :: w ++ 32 :: more) with ((pre ++ [x]) ++ w ++ 32 :: more) by (by rewrite <- app_assoc).
    replace (zlen pre + 1) with (zlen (pre ++ [x])) by zl. rewrite IH; [do 2 f_equal; zl| |lia|zl|zl].
    intros H0. apply Hn. by right.
Qed.

(** The last blank of [w], or [l]. *)
Fixpoint last_blank (w : list Z) (i l : Z) : Z :=
  match w with
  | [] => l
  | c :: w => last_blank w (i + 1) (if c =? 32 then i else l)
  end.

Lemma find_lspace_at buf size pre w c more l fuel : buf = pre ++ w ++ c :: more -> forallb (fun c => negb (line_end c)) w = true ->
  line_end c = true -> (length w < fuel)%nat -> zlen pre + zlen w < size ->
  find_lspace fuel buf size (zlen pre) l = Some (zlen pre + zlen w, last_blank w (zlen pre) l).
Proof.
  intros ->. revert pre fuel l. induction w as [|x w IH]; intros pre [|fuel] l Hn Hc Hf Hl; simpl in Hf; try lia; cbn [find_lspace].
  - rewrite zlen_nil in *. rewrite (proj2 (Z.ltb_lt _ _)) by lia. cbn [app]. rewrite rd_at. cbn [mbind option_bind].
    rewrite Hc. do 2 f_equal. lia.
  - cbn [forallb] in Hn. apply andb_true_iff in Hn as [Hx Hn]. apply negb_true_iff in Hx. rewrite zlen_cons in *.
    pose proof (zlen_nonneg w). rewrite (proj2 (Z.ltb_lt _ _)) by lia. cbn [app]. rewrite rd_at. cbn [mbind option_bind].
    rewrite Hx. replace (pre ++ x :: w ++ c :: more) with ((pre ++ [x]) ++ w ++ c :: more) by (by rewrite <- app_assoc).
    cbn [last_blank]. replace (zlen pre + 1) with (zlen (pre ++ [x])) by zl. rewrite IH; [do 2 f_equal; zl|done|done|lia|zl].
Qed.

Lemma last_blank_none w : ~ In 32 w -> forall i l, last_blank w i l = l.
Proof.
  induction w as [|c w IH]; [done|]. intros Hn i l. cbn [last_blank].
  rewrite (proj2 (Z.eqb_neq c 32)) by (intros ->; apply Hn; by left). apply IH. intros H. apply Hn. by right.
Qed.

Lemma last_blank_app w w' : ~ In 32 w' -> forall i l, last_blank (w ++ 32 :: w') i l = i + zlen w.
Proof.
  intros Hn. induction w as [|c w IH]; intros i l; cbn [app last_blank].
  - change (32 =? 32) with true. cbv iota. rewrite last_blank_none by done. zl.
  - rewrite IH. zl.
Qed.

(** ** Header lines *)

Lemma line_char_str w : Forall line_char w -> Forall (fun c => byte_ok c /\ c <> 0) w /\ nonzero w.
Proof.
  intros H. split; (eapply Forall_impl; [exact H|]); intros c (? & ? & _); [by split|done].
Qed.

Lemma is_name_spec n s : Forall line_char n -> Forall (fun c => byte_ok c /\ c <> 0) s ->
  is_name (n ++ [0]) s = Some (bool_decide (name_is n s)).
Proof.
  intros Hn Hs. destruct (yaz_strcasecmp_spec n s [] []) as (r & E & _ & Hr); [by apply line_char_str|done|].
  unfold is_name. rewrite E. cbn [mbind option_bind]. f_equal. unfold name_is. destruct (Z.eqb_spec r 0); case_bool_decide; tauto.
Qed.

Lemma not_line_end c : line_char c -> line_end c = false.
Proof.
  intros (_ & H0 & H10 & H13). unfold line_end, strchr. cbn [existsb app].
  by rewrite (proj2 (Z.eqb_neq c 13)), (proj2 (Z.eqb_neq c 10)), (proj2 (Z.eqb_neq c 0)).
Qed.

Lemma no_line_end w : Forall line_char w -> forallb (fun c => negb (line_end c)) w = true.
Proof. induction 1 as [|c w Hc _ IH]; [done|]. cbn [forallb]. by rewrite not_line_end, IH. Qed.

(** Texts cut at a place. *)
Ltac cut_text := do 4 (rewrite <- ?app_assoc; cbn [app]); reflexivity.

Lemma skip_cr_at buf size pre more : buf = pre ++ 13 :: more -> zlen pre < size - 1 -> skip_cr buf size (zlen pre) = Some (zlen pre + 1).
Proof. intros -> Hl. unfold skip_cr. rewrite (proj2 (Z.ltb_lt _ _)) by lia. by rewrite rd_at. Qed.

Lemma sub_at (pre w more : list Z) k i n : i = zlen pre -> n = zlen w -> k = pre ++ w ++ more -> sub k i n = Some w.
Proof. intros -> -> ->. apply sub_mid. Qed.

(** One header line. *)
Lemma decode_header_line fuel pre h more ch : plain_header h -> more <> [] ->
  let buf := pre ++ 10 :: header_text h ++ 13 :: 10 :: more in
  decode_headers (S fuel) buf (zlen buf) (zlen pre) ch =
    let? r := decode_headers fuel buf (zlen buf) (zlen (pre ++ 10 :: header_text h ++ [13])) (ch || says_chunked h) in
    match r with
    | None => Some None
    | Some (hs, chunked, i) => Some (Some (hdr h :: hs, chunked, i))
    end.
Proof.
  destruct h as [n v]. intros (Hn & Hv & Hh) Hm buf. cbn [fst snd] in *.
  assert (Forall line_char n) as Hn1 by (eapply Forall_impl; [exact Hn|]; by intros ? []).
  assert (~ In 58 n) as Hn2 by (rewrite List.Forall_forall in Hn; intros H%Hn; by destruct H).
  pose proof (zlen_nonneg pre). pose proof (zlen_nonneg n). pose proof (zlen_nonneg v). pose proof (zlen_pos more Hm).
  assert (zlen buf = zlen pre + 1 + (zlen n + 2 + zlen v) + 2 + zlen more) as Hz.
  { unfold buf, header_text. cbn [fst snd]. rewrite !zlen_app, !zlen_cons, !zlen_app, !zlen_cons. change (zlen (str ": ")) with 2. lia. }
  assert (length buf = Z.to_nat (zlen buf)) as Hlen by (unfold zlen; lia).
  cbn [decode_headers]. rewrite (proj2 (Z.ltb_lt (zlen pre) (zlen buf - 1))) by lia.
  replace (rd buf (zlen pre)) with (Some 10) by (unfold buf; by rewrite rd_at). cbn [mbind option_bind negb Z.eqb Pos.eqb].
  set (pre1 := pre ++ [10]). replace (zlen pre + 1) with (zlen pre1) by (unfold pre1; zl).
  assert (buf = pre1 ++ n ++ 58 :: 32 :: v ++ 13 :: 10 :: more) as E1.
  { unfold buf, pre1, header_text. cbn [fst snd]. change (str ": ") with [58; 32]. cut_text. }
  assert (exists c r, n ++ 58 :: 32 :: v ++ 13 :: 10 :: more = c :: r /\ c <> 13 /\ c <> 10) as (c & r & Ec & Hc1 & Hc2).
  { destruct n as [|c n]; [by eexists _, _|]. apply Forall_cons_1 in Hn1 as [(_ & _ & ? & ?) _]. by eexists _, _. }
  replace (rd buf (zlen pre1)) with (Some c) by (rewrite E1, Ec; by rewrite rd_at). cbn [mbind option_bind].
  rewrite (proj2 (Z.eqb_neq c 13)), (proj2 (Z.eqb_neq c 10)) by done. cbn [andb mbind option_bind].
  assert (zlen pre1 = zlen pre + 1) as Hp1 by (unfold pre1; zl).
  rewrite (find_colon_at buf (zlen buf) pre1 n _ _ E1 Hn2) by (rewrite ?Hlen; unfold zlen in *; lia).
  cbn [mbind option_bind].
  rewrite (sub_at pre1 n (58 :: 32 :: v ++ 13 :: 10 :: more) buf) by (done || lia). cbn [mbind option_bind].
  set (pre2 := pre1 ++ n ++ [58]). replace (zlen pre1 + zlen n + 1) with (zlen pre2) by (unfold pre2; zl).
  set (pre3 := pre2 ++ [32]).
  assert (exists c r, v ++ 13 :: 10 :: more = c :: r /\ is_blank c = false) as (d & q & Ed & Hd).
  { destruct v as [|d v]; [by eexists _, _|]. eexists _, _. split; [reflexivity|]. unfold is_blank.
    apply Z.eqb_neq. intros ->. by apply Hh. }
  assert (buf = pre2 ++ [32] ++ d :: q) as E2 by (rewrite E1, <- Ed; unfold pre2; cut_text).
  assert (zlen pre2 = zlen pre + 1 + zlen n + 1) as Hp2 by (unfold pre2; zl).
  rewrite (scan_while_stop is_blank buf _ pre2 [32] d q _ E2) by (done || (rewrite ?Hlen; change (zlen [32]) with 1; simpl; lia)). cbn [mbind option_bind].
  replace (zlen pre2 + zlen [32]) with (zlen pre3) by (unfold pre3; zl).
  assert (buf = pre3 ++ v ++ 13 :: 10 :: more) as E3 by (rewrite E2, <- Ed; unfold pre3; cut_text).
  assert (zlen pre3 = zlen pre + 1 + zlen n + 2) as Hp3 by (unfold pre3; zl).
  rewrite (scan_while_stop _ buf _ pre3 v 13 (10 :: more) _ E3) by (by apply no_line_end || done || (rewrite ?Hlen; unfold zlen in *; lia)).
  cbn [mbind option_bind]. rewrite (sub_at pre3 v (13 :: 10 :: more) buf) by (done || lia). cbn [mbind option_bind].
  rewrite (is_name_spec n) by (done || (repeat constructor; unfold byte_ok; simpl; lia)). cbn [mbind option_bind].
  assert ((if bool_decide (name_is n (str "Transfer-Encoding")) then is_name (v ++ [0]) (str "chunked") else Some false) =
    Some (says_chunked (n, v))) as ->.
  { unfold says_chunked. cbn [fst snd]. destruct (bool_decide _); [|done].
    by rewrite is_name_spec by (done || (repeat constructor; unfold byte_ok; simpl; lia)). }
  cbn [mbind option_bind].
  assert (buf = (pre3 ++ v) ++ 13 :: 10 :: more) as E4 by (rewrite E3; cut_text).
  replace (zlen pre3 + zlen v) with (zlen (pre3 ++ v)) by zl.
  rewrite (skip_cr_at buf _ _ _ E4) by zl. cbn [mbind option_bind].
  replace (zlen (pre3 ++ v) + 1) with (zlen (pre ++ 10 :: header_text (n, v) ++ [13])); [done|].
  unfold header_text. cbn [fst snd]. rewrite !zlen_app, zlen_cons, !zlen_app. change (zlen (str ": ")) with 2. zl.
Qed.

Lemma decode_headers_text hs body : Forall plain_header hs -> forall fuel pre ch, (length hs < fuel)%nat ->
  let buf := pre ++ 10 :: lines_text (map header_text hs) ++ 13 :: 10 :: body in
  decode_headers fuel buf (zlen buf) (zlen pre) ch =
    Some (Some (map hdr hs, ch || existsb says_chunked hs, zlen buf - zlen body - 1)).
Proof.
  induction 1 as [|h hs Hh _ IH]; intros [|fuel] pre ch Hf buf; simpl in Hf; try lia.
  - cbn [map existsb lines_text concat app] in buf. cbn [map existsb]. rewrite orb_false_r. unfold decode_headers.
    pose proof (zlen_nonneg body).
    assert (zlen buf = zlen pre + 3 + zlen body) as Hz by (unfold buf; rewrite zlen_app, !zlen_cons; lia).
    rewrite (proj2 (Z.ltb_lt (zlen pre) _)) by lia.
    replace (rd buf (zlen pre)) with (Some 10) by (unfold buf; by rewrite rd_at). cbn [mbind option_bind negb Z.eqb Pos.eqb].
    replace (rd buf (zlen pre + 1)) with (Some 13).
    2: { symmetry. unfold buf. rewrite rd_app_r by lia. done. }
    cbn [mbind option_bind Z.eqb Pos.eqb andb]. rewrite (proj2 (Z.ltb_lt _ _)) by lia.
    replace (rd buf (zlen pre + 1 + 1)) with (Some 10).
    2: { symmetry. unfold buf. rewrite <- Z.add_assoc, rd_app_r by lia. done. }
    cbn [mbind option_bind Z.eqb Pos.eqb]. do 4 f_equal. lia.
  - set (more := lines_text (map header_text hs) ++ 13 :: 10 :: body).
    assert (buf = pre ++ 10 :: header_text h ++ 13 :: 10 :: more) as E.
    { unfold buf, more, lines_text, crlf. cbn [map concat]. by rewrite <- !app_assoc. }
    rewrite E, decode_header_line by (done || (unfold more; by destruct (lines_text _))).
    set (pre1 := pre ++ 10 :: header_text h ++ [13]).
    assert (pre ++ 10 :: header_text h ++ 13 :: 10 :: more = pre1 ++ 10 :: lines_text (map header_text hs) ++ 13 :: 10 :: body) as ->.
    { unfold pre1, more. rewrite <- !app_assoc. cbn [app]. by rewrite <- !app_assoc. }
    rewrite IH by lia. cbn [mbind option_bind map existsb]. by rewrite orb_assoc.
Qed.

(** The fuel is enough for the headers. *)
Lemma headers_fuel (pre : list Z) hs (more : list Z) :
  (length hs < S (length (pre ++ 10%Z :: lines_text (map header_text hs) ++ more)))%nat.
Proof.
  assert (length hs <= length (lines_text (map header_text hs)))%nat as Hlen.
  { unfold lines_text. induction hs as [|h hs IH]; [done|]. cbn [map concat length]. rewrite length_app, length_app. simpl. lia. }
  rewrite length_app. simpl. rewrite length_app. lia.
Qed.

(** The headers and a content that does not come in chunks. *)
Lemma decode_content o pre hs body : Forall plain_header hs -> existsb says_chunked hs = false ->
  buf o = pre ++ 10 :: lines_text (map header_text hs) ++ 13 :: 10 :: body -> size o = zlen (buf o) ->
  decode_headers_content (zlen pre) o = Some (Some (map hdr hs, content_of body, zlen body), o).
Proof.
  intros Hh Hc Eb Hs. unfold decode_headers_content. mrun. rewrite Hs. pose proof (zlen_nonneg body).
  rewrite Eb, decode_headers_text by (done || apply headers_fuel). mrun.
  set (b := pre ++ 10 :: lines_text (map header_text hs) ++ 13 :: 10 :: body). rewrite Hc. cbn [orb].
  set (pre1 := pre ++ 10 :: lines_text (map header_text hs) ++ [13]).
  assert (b = pre1 ++ 10 :: body) as E by (unfold b, pre1; rewrite <- !app_assoc; cbn [app]; by rewrite <- app_assoc).
  assert (zlen b = zlen pre1 + 1 + zlen body) as Hz by (rewrite E; zl).
  replace (zlen b - zlen body - 1) with (zlen pre1) by lia. rewrite E at 1. rewrite rd_at. mrun. cbn [Z.eqb Pos.eqb negb].
  rewrite (proj2 (Z.ltb_ge _ _)) by lia. unfold content_of. destruct (Z.eqb_spec (zlen pre1 + 1) (zlen b)) as [He|He].
  - replace (zlen body) with 0 by lia. done.
  - rewrite (proj2 (Z.eqb_neq (zlen body) 0)) by lia.
    replace (zlen b - (zlen pre1 + 1)) with (zlen body) by lia.
    rewrite (sub_at (pre1 ++ [10]) body [] b) by (done || zl || (rewrite E, app_nil_r; cut_text)). by mrun.
Qed.

(** ** First lines *)

Lemma visible_line c : visible c -> line_char c.
Proof. unfold visible, line_char, byte_ok. lia. Qed.

Lemma request_line_chars m p v hs body : request_ok m p v hs body ->
  Forall line_char m /\ Forall line_char p /\ Forall line_char v /\ ~ In 32 m /\ ~ In 32 v.
Proof.
  intros [[Hm _] Hp Hv _ _]. split_and!.
  - eapply Forall_impl; [exact Hm|]. intros c (? & _). by apply visible_line.
  - eapply Forall_impl; [exact Hp|]. intros c (? & _). by apply visible_line.
  - eapply Forall_impl; [exact Hv|]. by intros c [].
  - rewrite List.Forall_forall in Hm. intros H%Hm. by destruct H as (_ & ? & _).
  - rewrite List.Forall_forall in Hv. intros H%Hv. by destruct H as (_ & ?).
Qed.

Lemma str_line s : forallb (fun c => (0 <=? c) && (c <? 256) && negb (strchr [13; 10] c)) s = true -> Forall line_char s.
Proof.
  intros H. apply List.Forall_forall. rewrite forallb_forall in H. intros c Hc. specialize (H c Hc).
  apply andb_true_iff in H as [H1 H2]. apply negb_true_iff in H2. unfold strchr in H2. cbn [existsb app] in H2.
  rewrite !orb_false_iff, !Z.eqb_neq in H2. unfold line_char, byte_ok. lia.
Qed.

Lemma decode_request o m p v hs hs' body : request_ok m p v hs body -> Forall plain_header hs' -> existsb says_chunked hs' = false ->
  buf o = message_text (request_line m p v) hs' body -> size o = zlen (buf o) ->
  yaz_decode_http_request o = Some (Some (request_of m p v hs' body), o).
Proof.
  intros Hok Hh Hc Eb Hs. destruct (request_line_chars _ _ _ _ _ Hok) as (Lm & Lp & Lv & Bm & Bv).
  destruct Hok as [[_ Hm] _ _ _ _]. pose proof (zlen_nonneg m). pose proof (zlen_nonneg p). pose proof (zlen_nonneg v).
  set (tl := 10 :: lines_text (map header_text hs') ++ 13 :: 10 :: body).
  assert (buf o = m ++ 32 :: p ++ str " HTTP/" ++ v ++ 13 :: tl) as E.
  { rewrite Eb. unfold message_text, head_text, request_line, crlf. rewrite <- !app_assoc. done. }
  assert (zlen (buf o) = zlen m + 1 + zlen p + 6 + zlen v + 1 + zlen tl) as Hz.
  { rewrite E, !zlen_app, zlen_cons, !zlen_app, zlen_cons. change (zlen (str " HTTP/")) with 6. lia. }
  assert (0 < zlen tl) by (unfold tl; rewrite zlen_cons; pose proof (zlen_nonneg (lines_text (map header_text hs') ++ 13 :: 10 :: body)); lia).
  assert (length (buf o) = Z.to_nat (zlen (buf o))) as Hlen by (unfold zlen; lia).
  unfold yaz_decode_http_request. mrun. rewrite Hs.
  replace (find_method _ _ _ 0) with (Some (Some (zlen m))).
  2: { symmetry. change 0 with (zlen (@nil Z)). rewrite (find_method_at _ _ [] m _ _ E Bm);
       [done|rewrite Hlen; unfold zlen in *; lia|change (zlen (@nil Z)) with 0; lia|change (zlen (@nil Z)) with 0; lia]. }
  mrun. rewrite (sub_at [] m (32 :: p ++ str " HTTP/" ++ v ++ 13 :: tl) (buf o)) by done. mrun.
  set (pre1 := m ++ [32]). replace (zlen m + 1) with (zlen pre1) by (unfold pre1; zl).
  set (w := p ++ 32 :: str "HTTP/" ++ v).
  assert (buf o = pre1 ++ w ++ 13 :: tl) as E1 by (rewrite E; unfold pre1, w; change (str " HTTP/") with (32 :: str "HTTP/"); cut_text).
  assert (zlen w = zlen p + 6 + zlen v) as Hw.
  { unfold w. rewrite zlen_app, zlen_cons, zlen_app. change (zlen (str "HTTP/")) with 5. lia. }
  assert (zlen pre1 = zlen m + 1) as Hp1 by (unfold pre1; zl).
  assert (Forall line_char w) as Lw.
  { unfold w. apply Forall_app. split; [done|]. apply Forall_cons. split; [by apply visible_line|].
    apply Forall_app. split; [by apply str_line|done]. }
  rewrite (find_lspace_at _ _ pre1 w 13 tl 0 _ E1) by (by apply no_line_end || done || (rewrite ?Hlen; unfold zlen in *; lia)). mrun.
  set (ls := zlen pre1 + zlen p).
  replace (last_blank w (zlen pre1) 0) with ls.
  2: { unfold w. rewrite last_blank_app; [done|]. intros [H'|H']%in_app_iff; [simpl in H'; intuition discriminate|done]. }
  assert (zlen (m ++ [32] ++ p) = ls) as Hls by (unfold ls, pre1; zl).
  rewrite (bind_Some _ _ _ true o).
  2: { rewrite (proj2 (Z.eqb_neq ls 0)), (proj2 (Z.leb_gt _ _)), (proj2 (Z.leb_gt _ ls)) by lia. cbn [orb]. unfold memeq.
       rewrite (sub_at (m ++ 32 :: p ++ [32]) (str "HTTP/") (v ++ 13 :: tl) (buf o));
         [done|unfold ls, pre1; zl|done|rewrite E; change (str " HTTP/") with (32 :: str "HTTP/"); cut_text]. }
  cbn [negb].
  rewrite (sub_at pre1 p (32 :: str "HTTP/" ++ v ++ 13 :: tl) (buf o)) by (done || (unfold ls; lia) || (rewrite E1; unfold w; cut_text)). mrun.
  rewrite (sub_at (pre1 ++ p ++ 32 :: str "HTTP/") v (13 :: tl) (buf o));
    [|unfold ls; rewrite !zlen_app, zlen_cons; change (zlen (str "HTTP/")) with 5; lia|unfold ls; lia|rewrite E1; unfold w; cut_text]. mrun.
  assert (buf o = (pre1 ++ w) ++ 13 :: tl) as E2 by (rewrite E1; cut_text).
  replace (zlen pre1 + zlen w) with (zlen (pre1 ++ w)) by zl.
  rewrite (skip_cr_at _ _ _ _ E2) by (rewrite zlen_app; lia). mrun.
  set (pre2 := (pre1 ++ w) ++ [13]). replace (zlen (pre1 ++ w) + 1) with (zlen pre2) by (unfold pre2; zl).
  assert (buf o = pre2 ++ tl) as E3 by (rewrite E2; unfold pre2; cut_text).
  replace (rd (buf o) (zlen pre2)) with (Some 10) by (rewrite E3; unfold tl; by rewrite rd_at). mrun. cbn [Z.eqb Pos.eqb negb].
  by rewrite (bind_Some _ _ _ _ _ (decode_content o pre2 hs' body Hh Hc E3 Hs)).
Qed.

Lemma code_digits code : 100 <= code <= 999 -> fmt_d code = [48 + code / 100; 48 + code / 10 mod 10; 48 + code mod 10].
Proof.
  intros H. assert (forallb (fun c => bool_decide (fmt_d c = [48 + c / 100; 48 + c / 10 mod 10; 48 + c mod 10]))
    (map Z.of_nat (seq 100 900)) = true) as Ha by (vm_compute; reflexivity).
  rewrite forallb_forall in Ha. specialize (Ha code). apply bool_decide_eq_true in Ha; [done|].
  apply in_map_iff. exists (Z.to_nat code). split; [lia|]. apply in_seq. lia.
Qed.

Lemma errmsg_ok code : Forall line_char (z_HTTP_errmsg code) /\ zlen (z_HTTP_errmsg code) <= 31.
Proof.
  unfold z_HTTP_errmsg.
  assert (Forall (fun cm => Forall line_char cm.2 /\ zlen cm.2 <= 31) http_messages) as H.
  { apply List.Forall_forall. intros cm Hcm. assert (forallb (fun cm => forallb (fun c => (0 <=? c) && (c <? 256) &&
      negb (strchr [13; 10] c)) cm.2 && (zlen cm.2 <=? 31)) http_messages = true) as Ha by (vm_compute; reflexivity).
    rewrite forallb_forall in Ha. specialize (Ha cm Hcm). apply andb_true_iff in Ha as [H1 H2].
    split; [by apply str_line|by apply Z.leb_le]. }
  induction H as [|[c m] ms [H1 H2] _ IH]; cbn [message_of]; [split; [by apply str_line|done]|]. by destruct (c =? code).
Qed.

Lemma status_digits_at buf sz pre code more fuel : 100 <= code <= 999 -> buf = pre ++ fmt_d code ++ 32 :: more ->
  zlen pre + 4 < sz -> (3 < fuel)%nat -> status_digits fuel buf sz (zlen pre) (zlen pre) 0 = Some (Some (zlen pre + 3, code)).
Proof.
  intros Hc E Hz Hf. rewrite code_digits in E by done. do 4 (destruct fuel as [|fuel]; [lia|]).
  set (a := 48 + code / 100) in *. set (b := 48 + code / 10 mod 10) in *. set (c := 48 + code mod 10) in *.
  assert (forall k, 0 <= k -> rd buf (zlen pre + k) = rd ([a; b; c] ++ 32 :: more) k) as Hr by (intros k Hk; by rewrite E, rd_app_r).
  assert (48 <= a <= 57 /\ 48 <= b <= 57 /\ 48 <= c <= 57 /\ (((a - 48) * 10 + (b - 48)) * 10 + (c - 48)) = code) as (Ha & Hb & Hcc & Hv).
  { unfold a, b, c. pose proof (Z.div_mod code 10 ltac:(lia)). pose proof (Z.mod_pos_bound code 10 ltac:(lia)).
    pose proof (Z.div_mod (code / 10) 10 ltac:(lia)). pose proof (Z.mod_pos_bound (code / 10) 10 ltac:(lia)).
    rewrite Z.div_div in * by lia. change (10 * 10) with 100 in *. pose proof (Z.div_pos code 100). lia. }
  assert (forall n i code0, i = zlen pre + n -> 0 <= n <= 3 -> forall f,
    status_digits (S f) buf sz (zlen pre) i code0 =
      let? c := rd ([a; b; c] ++ 32 :: more) n in
      if (c <? 48) || (57 <? c) then Some (Some (i, code0)) else status_digits f buf sz (zlen pre) (i + 1) (code0 * 10 + (c - 48))) as Hstep.
  { intros n i code0 -> Hn f. cbn [status_digits]. rewrite (proj2 (Z.leb_gt _ _)), (proj2 (Z.ltb_ge _ _)) by lia. by rewrite Hr by lia. }
  rewrite (Hstep 0) by lia. cbn [mbind option_bind]. change (rd ([a; b; c] ++ 32 :: more) 0) with (Some a). cbn [mbind option_bind].
  replace ((a <? 48) || (57 <? a)) with false by lia.
  rewrite (Hstep 1) by lia. change (rd ([a; b; c] ++ 32 :: more) 1) with (Some b). cbn [mbind option_bind].
  replace ((b <? 48) || (57 <? b)) with false by lia.
  rewrite (Hstep 2) by lia. change (rd ([a; b; c] ++ 32 :: more) 2) with (Some c). cbn [mbind option_bind].
  replace ((c <? 48) || (57 <? c)) with false by lia.
  rewrite (Hstep 3) by lia. change (rd ([a; b; c] ++ 32 :: more) 3) with (Some 32). cbn [mbind option_bind].
  change ((32 <? 48) || (57 <? 32)) with true. cbv iota. do 3 f_equal; lia.
Qed.

Lemma version_chars v : Forall (fun c => line_char c /\ c <> 32) v ->
  Forall line_char v /\ forallb (fun c => negb (strchr [32; 13; 10] c)) v = true.
Proof.
  induction 1 as [|c v [(H1 & H2 & H3 & H4) H5] _ [IH1 IH2]]; [done|]. split; [by constructor|]. cbn [forallb]. rewrite IH2.
  unfold strchr. cbn [existsb app]. rewrite (proj2 (Z.eqb_neq c 32)), (proj2 (Z.eqb_neq c 13)), (proj2 (Z.eqb_neq c 10)),
    (proj2 (Z.eqb_neq c 0)) by done. done.
Qed.

(** The status line. *)
Lemma response_first buf code v tl : 100 <= code <= 999 -> Forall (fun c => line_char c /\ c <> 32) v -> tl <> [] ->
  buf = status_line code v ++ 13 :: 10 :: tl ->
  yaz_decode_http_response_first buf (zlen buf) =
    Some (Some (zlen (status_line code v) + 1, code, v, z_HTTP_errmsg code)).
Proof.
  intros Hc Hv Ht E. destruct (version_chars v Hv) as [Lv Sv]. destruct (errmsg_ok code) as [Le _].
  set (msg := z_HTTP_errmsg code) in *. pose proof (zlen_nonneg v). pose proof (zlen_nonneg msg). pose proof (zlen_pos tl Ht).
  assert (zlen (fmt_d code) = 3) as H3 by by rewrite code_digits.
  assert (buf = str "HTTP/" ++ v ++ 32 :: fmt_d code ++ 32 :: msg ++ 13 :: 10 :: tl) as E0.
  { rewrite E. unfold status_line. fold msg. change (str " ") with [32]. cut_text. }
  assert (zlen (status_line code v) = 10 + zlen v + zlen msg) as Hl.
  { unfold status_line. fold msg. rewrite !zlen_app. change (zlen (str "HTTP/")) with 5. change (zlen (str " ")) with 1. lia. }
  assert (zlen buf = 12 + zlen v + zlen msg + zlen tl) as Hz by (rewrite E, zlen_app, !zlen_cons; lia).
  assert (length buf = Z.to_nat (zlen buf)) as Hlen by (unfold zlen; lia).
  unfold yaz_decode_http_response_first. rewrite (proj2 (Z.ltb_ge (zlen buf) 10)) by lia. unfold memeq.
  rewrite (sub_at [] (str "HTTP/") (v ++ 32 :: fmt_d code ++ 32 :: msg ++ 13 :: 10 :: tl) buf) by done.
  cbn [mbind option_bind]. rewrite bool_decide_eq_true_2 by done. cbn [negb].
  change 5 with (zlen (str "HTTP/")) at 1.
  rewrite (scan_while_stop _ buf _ (str "HTTP/") v 32 _ _ E0) by (done || (rewrite ?Hlen; change (zlen (str "HTTP/")) with 5; unfold zlen in *; lia)).
  change (zlen (str "HTTP/")) with 5. cbn [mbind option_bind]. rewrite (proj2 (Z.leb_gt _ _)) by lia.
  set (pre1 := str "HTTP/" ++ v). assert (zlen pre1 = 5 + zlen v) as Hp1 by (unfold pre1; rewrite zlen_app; done).
  rewrite <- Hp1. replace (rd buf (zlen pre1)) with (Some 32).
  2: { symmetry. rewrite E0. unfold pre1. rewrite app_assoc. by rewrite rd_at. }
  cbn [mbind option_bind negb Z.eqb Pos.eqb].
  rewrite (sub_at (str "HTTP/") v (32 :: fmt_d code ++ 32 :: msg ++ 13 :: 10 :: tl) buf) by (done || lia). cbn [mbind option_bind].
  set (pre2 := pre1 ++ [32]). replace (zlen pre1 + 1) with (zlen pre2) by (unfold pre2; zl).
  assert (zlen pre2 = 6 + zlen v) as Hp2 by (unfold pre2; zl).
  assert (buf = pre2 ++ fmt_d code ++ 32 :: msg ++ 13 :: 10 :: tl) as E2 by (rewrite E0; unfold pre2, pre1; cut_text).
  rewrite (status_digits_at buf _ pre2 code _ _ Hc E2) by (rewrite ?Hlen; lia). cbn [mbind option_bind].
  set (pre3 := pre2 ++ fmt_d code). replace (zlen pre2 + 3) with (zlen pre3) by (unfold pre3; rewrite zlen_app; lia).
  assert (buf = pre3 ++ 32 :: msg ++ 13 :: 10 :: tl) as E3 by (rewrite E2; unfold pre3; cut_text).
  replace (rd buf (zlen pre3)) with (Some 32) by (rewrite E3; by rewrite rd_at). cbn [mbind option_bind negb Z.eqb Pos.eqb].
  set (pre4 := pre3 ++ [32]). replace (zlen pre3 + 1) with (zlen pre4) by (unfold pre4; zl).
  assert (zlen pre4 = 10 + zlen v) as Hp4 by (unfold pre4, pre3; rewrite !zlen_app, H3, Hp2; zl).
  assert (buf = pre4 ++ msg ++ 13 :: 10 :: tl) as E4 by (rewrite E3; unfold pre4; cut_text).
  rewrite (scan_while_stop _ buf _ pre4 msg 13 _ _ E4) by (by apply no_line_end || done || (rewrite ?Hlen; unfold zlen in *; lia)).
  cbn [mbind option_bind]. rewrite (proj2 (Z.leb_gt _ _)) by lia.
  rewrite (sub_at pre4 msg (13 :: 10 :: tl) buf) by (done || lia). cbn [mbind option_bind].
  assert (buf = (pre4 ++ msg) ++ 13 :: 10 :: tl) as E5 by (rewrite E4; cut_text).
  replace (zlen pre4 + zlen msg) with (zlen (pre4 ++ msg)) by zl. rewrite (skip_cr_at _ _ _ _ E5) by (rewrite zlen_app; lia).
  cbn [mbind option_bind]. set (pre5 := (pre4 ++ msg) ++ [13]).
  replace (zlen (pre4 ++ msg) + 1) with (zlen pre5) by (unfold pre5; zl).
  assert (buf = pre5 ++ 10 :: tl) as E6 by (rewrite E5; unfold pre5; cut_text).
  replace (rd buf (zlen pre5)) with (Some 10) by (rewrite E6; by rewrite rd_at). cbn [mbind option_bind negb Z.eqb Pos.eqb].
  replace (zlen pre5) with (zlen (status_line code v) + 1) by (unfold pre5; rewrite !zlen_app, Hp4, Hl; zl). done.
Qed.

Lemma decode_response o code v hs body : 100 <= code <= 999 -> Forall (fun c => line_char c /\ c <> 32) v ->
  Forall plain_header hs -> existsb says_chunked hs = false ->
  buf o = message_text (status_line code v) hs body -> size o = zlen (buf o) ->
  yaz_decode_http_response o = Some (Some (response_of code v hs body), o).
Proof.
  intros Hc Hv Hh Hch Eb Hs. set (tl := lines_text (map header_text hs) ++ 13 :: 10 :: body).
  assert (buf o = status_line code v ++ 13 :: 10 :: tl) as E.
  { rewrite Eb. unfold message_text, head_text, tl, crlf. cut_text. }
  unfold yaz_decode_http_response. mrun. rewrite Hs, (response_first _ code v tl Hc Hv); [|unfold tl; by destruct (lines_text _)|done].
  mrun. assert (buf o = (status_line code v ++ [13]) ++ 10 :: tl) as E1 by (rewrite E; cut_text).
  replace (zlen (status_line code v) + 1) with (zlen (status_line code v ++ [13])) by zl.
  by rewrite (bind_Some _ _ _ _ _ (decode_content o _ hs body Hh Hch E1 Hs)).
Qed.

(** ** Writing *)

(** [m] appends [bs] when encoding, and returns something of which [Q] holds. *)
Definition puts {A} (Q : A -> Prop) (m : ODR A) (bs : list Z) : Prop :=
  forall o, direction o = ODR_ENCODE -> at_end o (zlen bs) -> exists a o', m o = Some (a, o') /\ Q a /\ appended o o' bs.
Abbreviation puts_out := (puts (fun _ => True)).

Lemma puts_ret {A} (Q : A -> Prop) a : Q a -> puts Q (ret a) [].
Proof. intros Ha o _ (? & ? & _). exists a, o. split; [done|]. split; [done|by apply appended_nil]. Qed.

Lemma puts_bind {A B} (Q : B -> Prop) (m : ODR A) (k : A -> ODR B) bs1 bs2 :
  puts_out m bs1 -> (forall a, puts Q (k a) bs2) -> puts Q (bind m k) (bs1 ++ bs2).
Proof.
  intros H1 H2 o Hd Ho. pose proof (zlen_nonneg bs1). pose proof (zlen_nonneg bs2). rewrite zlen_app in Ho.
  destruct (H1 o Hd) as (a & o1 & E1 & _ & A1); [eapply at_end_mono; [done|lia]|].
  destruct (H2 a o1) as (b & o2 & E2 & HQ & A2); [|by eapply at_end_appended|].
  { rewrite <- Hd. exact (f_equal direction (app_frame _ _ _ A1)). }
  exists b, o2. split; [|split; [done|by eapply appended_trans]]. by rewrite (bind_Some _ _ _ _ _ E1).
Qed.

Lemma puts_lift {A B} (Q : B -> Prop) (x : option A) a (k : A -> ODR B) bs :
  x = Some a -> puts Q (k a) bs -> puts Q (bind (lift x) k) bs.
Proof. intros -> H o Hd Ho. destruct (H o Hd Ho) as (b & o' & E & Ha). exists b, o'. by mrun. Qed.

Lemma puts_bind_ret {A B} (Q : B -> Prop) (a : A) (k : A -> ODR B) bs : puts Q (k a) bs -> puts Q (bind (ret a) k) bs.
Proof. intros H o Hd Ho. destruct (H o Hd Ho) as (b & o' & E & Ha). exists b, o'. by mrun. Qed.

Lemma puts_get {B} (Q : B -> Prop) (k : odr -> ODR B) bs : (forall x, puts Q (k x) bs) -> puts Q (bind get k) bs.
Proof. intros H o Hd Ho. destruct (H o o Hd Ho) as (b & o' & E & Ha). exists b, o'. by mrun. Qed.

Lemma puts_eq {A} (Q : A -> Prop) (m : ODR A) bs bs' : puts Q m bs -> bs = bs' -> puts Q m bs'.
Proof. by intros ? <-. Qed.

Lemma write_prefix bs rest : odr_write (bs ++ rest) (zlen bs) = odr_write bs (zlen bs).
Proof.
  unfold odr_write. rewrite (sub_at [] bs rest (bs ++ rest) 0 (zlen bs)), (sub_at [] bs [] bs 0 (zlen bs)) by (done || by rewrite app_nil_r).
  done.
Qed.

Lemma puts_write bs rest : bytes_ok bs -> puts_out (odr_write (bs ++ rest) (zlen bs)) bs.
Proof. intros Hb o _ Ho. rewrite write_prefix. destruct (emits_write bs Hb o Ho) as (o' & E & A). by exists 0, o'. Qed.

Lemma line_bytes w : Forall line_char w -> bytes_ok w.
Proof. intros H. eapply Forall_impl; [exact H|]. by intros c (? & _). Qed.

Lemma puts_str w : Forall line_char w -> puts_out (write_str (w ++ [0])) w.
Proof.
  intros Hw. unfold write_str. eapply puts_lift; [by apply strlen_spec, line_char_str|]. by apply puts_write, line_bytes.
Qed.

Lemma puts_lit w : bytes_ok w -> puts_out (write_lit w) w.
Proof. intros Hw. unfold write_lit. pose proof (puts_write w [] Hw) as H. by rewrite app_nil_r in H. Qed.

Lemma bytes_lit s : forallb (fun c => (0 <=? c) && (c <? 256)) s = true -> bytes_ok s.
Proof.
  intros H. apply List.Forall_forall. rewrite forallb_forall in H. intros c Hc. specialize (H c Hc). unfold byte_ok. lia.
Qed.

Lemma puts_header h : plain_header h -> puts_out (write_header (hdr h)) (header_text h ++ crlf).
Proof.
  destruct h as [n v]. intros (Hn & Hv & _). unfold write_header, header_text, hdr. cbn [fst snd hname hvalue] in *.
  rewrite <- !app_assoc. apply puts_bind; [apply puts_str; eapply Forall_impl; [exact Hn|]; by intros ? []|]. intros _.
  apply puts_bind; [by apply puts_lit, bytes_lit|]. intros _.
  apply puts_bind; [by apply puts_str|]. intros _. by apply puts_lit, bytes_lit.
Qed.

Lemma header_chars h : plain_header h -> Forall line_char h.1.
Proof. intros (Hn & _). eapply Forall_impl; [exact Hn|]. by intros ? []. Qed.

Lemma is_any_false h skip : plain_header h -> Forall (fun s => Forall (fun c => byte_ok c /\ c <> 0) s) skip ->
  Forall (fun s => ~ name_is h.1 s) skip -> is_any (hname (hdr h)) skip = Some false.
Proof.
  intros Hp. induction 1 as [|s skip Hs _ IH]; [done|]. intros [Hn1 Hn]%Forall_cons_1. cbn [hdr hname is_any].
  rewrite is_name_spec by (done || by apply header_chars). cbn [mbind option_bind]. rewrite bool_decide_eq_false_2 by done. by apply IH.
Qed.

(** The headers none of which is to be left out. *)
Lemma puts_headers skip hs : Forall (fun s => Forall (fun c => byte_ok c /\ c <> 0) s) skip ->
  Forall (fun h => plain_header h /\ Forall (fun s => ~ name_is h.1 s) skip) hs ->
  puts_out (write_headers skip (map hdr hs)) (lines_text (map header_text hs)).
Proof.
  intros Hs. induction 1 as [|h hs [Hp Hn] _ IH]; [by apply puts_ret|]. unfold lines_text. cbn [map concat write_headers].
  eapply (puts_lift _ _ false); [by apply is_any_false|].
  apply puts_bind; [by apply puts_header|]. intros _. exact IH.
Qed.

Lemma puts_content body : bytes_ok body -> puts_out (write_content (content_of body) (zlen body)) body.
Proof.
  intros Hb. unfold content_of. destruct (Z.eqb_spec (zlen body) 0) as [E|E].
  - replace body with (@nil Z); [by apply puts_ret|]. symmetry. apply length_zero_iff_nil. unfold zlen in E. lia.
  - by apply puts_write.
Qed.

Lemma puts_package what top0 : puts (fun r => r = 1) (print_package what top0) [].
Proof.
  intros o Hd (? & ? & _). exists 1, o. split; [|by split; [|apply appended_nil]].
  unfold print_package. mrun. rewrite Hd. by mrun.
Qed.

Lemma puts_fmt n w : zlen w < n -> bytes_ok w -> puts_out (write_fmt n w) w.
Proof. intros Hn Hw. unfold write_fmt. rewrite take_ge by (unfold zlen in Hn; lia). by apply puts_lit. Qed.

Lemma fmt_d_int n : 0 <= n <= INT_MAX -> digits_ok (fmt_d n) /\ fmt_d n <> [] /\ dec_val 0 (fmt_d n) = n /\ zlen (fmt_d n) <= 10.
Proof.
  intros Hn. destruct (fmt_d_spec n 10) as (H1 & H2 & H3 & H4); [unfold INT_MAX in Hn; simpl; lia|lia|].
  split_and!; [done..|unfold zlen; lia].
Qed.

Lemma digits_bytes ds : digits_ok ds -> bytes_ok ds.
Proof. intros H. eapply Forall_impl; [exact H|]. intros c Hc. cbv beta in Hc. unfold byte_ok. lia. Qed.

(** The line with the length of the content. *)
Lemma puts_length n body : n = 60 \/ n = 80 -> zlen body <= INT_MAX ->
  puts_out (write_fmt n (str "Content-Length: " ++ fmt_d (zlen body) ++ [13; 10])) (header_text (length_header body) ++ crlf).
Proof.
  intros Hn Hb. pose proof (zlen_nonneg body). destruct (fmt_d_int (zlen body)) as (H1 & _ & _ & H2); [lia|].
  eapply puts_eq; [apply puts_fmt|].
  - rewrite !zlen_app. change (zlen (str "Content-Length: ")) with 16. change (zlen [13; 10]) with 2. lia.
  - unfold bytes_ok. rewrite !Forall_app. split_and!; [by apply bytes_lit|by apply digits_bytes|by apply bytes_lit].
  - unfold header_text, length_header. cbn [fst snd]. change (str "Content-Length: ") with (str "Content-Length" ++ str ": ").
    by rewrite <- !app_assoc.
Qed.

Lemma lookup_absent hs s : Forall (fun h => plain_header h /\ ~ name_is h.1 s) hs -> Forall (fun c => byte_ok c /\ c <> 0) s ->
  z_HTTP_header_lookup (map hdr hs) (s ++ [0]) = Some None.
Proof.
  intros H Hs. induction H as [|h hs [Hp Hn] _ IH]; [done|]. cbn [map z_HTTP_header_lookup].
  assert (named (s ++ [0]) (hdr h) = is_name (h.1 ++ [0]) s) as -> by done.
  rewrite is_name_spec by (done || by apply header_chars). cbn [mbind option_bind]. by rewrite bool_decide_eq_false_2.
Qed.

Lemma hname_chars s : forallb (fun c => (0 <? c) && (c <? 256)) s = true -> Forall (fun c => byte_ok c /\ c <> 0) s.
Proof.
  intros H. apply List.Forall_forall. rewrite forallb_forall in H. intros c Hc. specialize (H c Hc). unfold byte_ok. lia.
Qed.

Definition request_headers (hs : list (list Z * list Z)) (body : list Z) : list (list Z * list Z) :=
  if zlen body =? 0 then hs else length_header body :: hs.

Lemma lines_cons l ls : lines_text (l :: ls) = (l ++ crlf) ++ lines_text ls.
Proof. done. Qed.

Lemma encode_request m p v hs body : request_ok m p v hs body ->
  puts (fun r => r = 1) (yaz_encode_http_request (request_of m p v hs body))
    (message_text (request_line m p v) (request_headers hs body) body).
Proof.
  intros Hok. destruct (request_line_chars _ _ _ _ _ Hok) as (Lm & Lp & Lv & _ & _).
  destruct Hok as [_ Hp _ Hh [Hb Hmax%small_int]]. unfold yaz_encode_http_request. apply puts_get. intros x. cbn [request_of req_method req_path].
  apply (puts_eq _ _ (m ++ str " " ++ p ++ str " HTTP/" ++ v ++ crlf ++
    (if zlen body =? 0 then [] else header_text (length_header body) ++ crlf) ++
    lines_text (map header_text hs) ++ crlf ++ body ++ [])).
  2: { unfold message_text, head_text, request_line, request_headers. rewrite app_nil_r, <- !app_assoc.
       destruct (zlen body =? 0); [done|]. cbn [map]. rewrite lines_cons. by rewrite <- !app_assoc. }
  apply puts_bind; [by apply puts_str|]. intros _. apply puts_bind; [by apply puts_lit, bytes_lit|]. intros _.
  eapply (puts_lift _ _ None).
  { clear - Lp Hp. induction p as [|c p IH]; [done|]. apply Forall_cons_1 in Lp as [(_ & ? & _) Lp].
    apply Forall_cons_1 in Hp as [[_ ?] Hp]. cbn [app find_char].
    rewrite (proj2 (Z.eqb_neq c 35)), (proj2 (Z.eqb_neq c 0)) by done. by rewrite IH. }
  apply puts_bind; [by apply puts_str|]. intros _. apply puts_bind; [by apply puts_lit, bytes_lit|]. intros _.
  apply puts_bind; [by apply puts_str|]. intros _. apply puts_bind; [by apply puts_lit, bytes_lit|]. intros _.
  cbn [request_of req_content_len req_headers req_content].
  assert (Forall (fun h => plain_header h /\ ~ name_is h.1 (str "Content-Length")) hs) as Hcl.
  { eapply Forall_impl; [exact Hh|]. by intros h (? & _ & ?). }
  assert (puts_out (write_headers [str "Transfer-Encoding"] (map hdr hs)) (lines_text (map header_text hs))) as Hw.
  { apply puts_headers; [apply Forall_singleton; by apply hname_chars|]. eapply Forall_impl; [exact Hh|].
    intros h (? & ? & _). split; [done|]. by apply Forall_singleton. }
  destruct (Z.eqb_spec (zlen body) 0) as [E0|E0]; cbn [negb].
  - apply puts_bind_ret. apply (puts_bind _ _ _ []); [by apply puts_ret|]. intros _.
    apply puts_bind; [done|]. intros _. apply puts_bind; [by apply puts_lit, bytes_lit|]. intros _.
    apply puts_bind; [by apply puts_content|]. intros _. apply puts_package.
  - eapply puts_lift; [by apply lookup_absent; [|apply hname_chars]|].
    apply puts_bind; [apply puts_length; auto|]. intros _.
    apply puts_bind; [done|]. intros _. apply puts_bind; [by apply puts_lit, bytes_lit|]. intros _.
    apply puts_bind; [by apply puts_content|]. intros _. apply puts_package.
Qed.

Lemma encode_response code v hs body : response_ok code v hs body ->
  puts (fun r => r = 1) (yaz_encode_http_response (response_of code v hs body))
    (message_text (status_line code v) (length_header body :: hs) body).
Proof.
  intros [Hc [Hv Hlv] Hh [Hb Hmax%small_int] _]. destruct (version_chars v Hv) as [Lv _]. destruct (errmsg_ok code) as [Le Hle].
  unfold yaz_encode_http_response. apply puts_get. intros x. cbn [response_of res_version res_code res_content_len res_headers res_content].
  eapply (puts_lift _ _ v).
  { unfold cstr. rewrite strlen_spec by (by apply line_char_str). cbn [mbind option_bind]. by apply (sub_at [] v [0]). }
  apply (puts_eq _ _ ((status_line code v ++ crlf) ++ (header_text (length_header body) ++ crlf) ++
    lines_text (map header_text hs) ++ crlf ++ body ++ [])).
  2: { unfold message_text, head_text. cbn [map]. rewrite lines_cons, app_nil_r, <- !app_assoc. done. }
  assert (zlen (fmt_d code) = 3) as H3 by by rewrite code_digits.
  apply puts_bind.
  { eapply puts_eq; [apply puts_fmt|unfold status_line, crlf; by rewrite <- !app_assoc].
    - rewrite !zlen_app. change (zlen (str "HTTP/")) with 5. change (zlen (str " ")) with 1. change (zlen [13; 10]) with 2. lia.
    - unfold bytes_ok. rewrite !Forall_app. split_and!; try (by apply bytes_lit); try (by apply line_bytes).
      apply digits_bytes, fmt_d_int. unfold INT_MAX. lia. }
  intros _. apply puts_bind; [apply puts_length; auto|]. intros _. apply puts_bind.
  { apply puts_headers; [apply Forall_cons; split; [|apply Forall_singleton]; by apply hname_chars|]. eapply Forall_impl; [exact Hh|].
    intros h (? & ? & ?). split; [done|]. apply Forall_cons. split; [done|by apply Forall_singleton]. }
  intros _. apply puts_bind; [by apply puts_lit, bytes_lit|]. intros _.
  apply puts_bind; [by apply puts_content|]. intros _. apply puts_package.
Qed.

(** ** The message on the connection *)

Lemma line_text w : Forall line_char w -> text_line w.
Proof. intros H. eapply Forall_impl; [exact H|]. by intros c (_ & _ & ? & ?). Qed.

Lemma fold_colon c : fold_case c = 58 -> c = 58.
Proof. unfold fold_case, yaz_isupper, yaz_tolower. destruct (_ && _) eqn:E; lia. Qed.

Lemma starts_name n s r : ~ In 58 n -> ~ In 58 s -> starts_with (n ++ 58 :: r) (s ++ [58]) = true -> name_is n s.
Proof.
  unfold starts_with, name_is. intros Hn Hs H%bool_decide_eq_true_1. revert s Hs H.
  induction n as [|c n IH]; intros [|d s] Hs H; [done|..]; cbn [app length take map] in H.
  - exfalso. apply Hs. left. apply fold_colon. change 58 with (fold_case 58). congruence.
  - exfalso. apply Hn. left. apply fold_colon. change 58 with (fold_case 58). congruence.
  - injection H as H1 H2. cbn [map]. rewrite H1. f_equal. apply IH; [|intros Hi; apply Hs; by right|done].
    intros Hi. apply Hn. by right.
Qed.

Lemma header_other h ch cl : header_ok h -> header_line (header_text h) ch cl ch cl.
Proof.
  destruct h as [n v]. intros ((Hn & Hv & _) & Hte & Hcl). unfold header_text. cbn [fst snd] in *.
  assert (~ In 58 n) as H58 by (rewrite List.Forall_forall in Hn; intros H%Hn; by destruct H).
  change (str ": ") with [58; 32]. apply hl_other.
  - by destruct n.
  - apply line_text, Forall_app. split; [eapply Forall_impl; [exact Hn|]; by intros ? []|].
    apply Forall_app. split; [by apply str_line|done].
  - destruct (starts_with _ _) eqn:E; [|done]. destruct Hte. by apply (starts_name n (str "Transfer-Encoding") (32 :: v) H58);
      [simpl; intuition discriminate|].
  - destruct (starts_with _ _) eqn:E; [|done]. destruct Hcl. by apply (starts_name n (str "Content-Length") (32 :: v) H58);
      [simpl; intuition discriminate|].
Qed.

Lemma headers_other hs ch cl : Forall header_ok hs -> header_lines (map header_text hs) ch cl ch cl.
Proof.
  induction 1 as [|h hs Hh _ IH]; [constructor|]. eapply hls_cons; [by apply header_other|exact IH].
Qed.

Lemma line_end_crlf : stops 10 1 crlf.
Proof. right. exists 13, [10]. split; [done|]. intros d [H _]. discriminate. Qed.

Lemma header_length body ch cl : zlen body <= INT_MAX -> header_line (header_text (length_header body)) ch cl ch (zlen body).
Proof.
  intros Hb. pose proof (zlen_nonneg body). destruct (fmt_d_int (zlen body)) as (H1 & H2 & H3 & _); [lia|].
  assert (radix 10 (map (fun c => c - 48) (fmt_d (zlen body))) = zlen body) as Hr.
  { unfold radix. by rewrite dec_val_radix. }
  pose proof (hl_length CL 1 (fmt_d (zlen body)) (map (fun c => c - 48) (fmt_d (zlen body))) [] ch cl eq_refl
    (digits_Forall2 _ H1) H2 ltac:(lia) ltac:(constructor) line_end_crlf) as H0. rewrite Hr, app_nil_r in H0. exact H0.
Qed.

Lemma visible_printable c : visible c -> printable c = true.
Proof. unfold visible, printable. intros H. unfold s8. rewrite swrap_small by (simpl; lia). lia. Qed.

Lemma request_not_http m x : ~ In 47 m -> take 5 (m ++ 32 :: x) <> str "HTTP/".
Proof.
  intros Hm. destruct m as [|a [|b [|c [|d [|e m]]]]]; cbn; try done. intros [= -> -> -> -> ->]. apply Hm. simpl. tauto.
Qed.

Lemma request_status m x : ~ In 47 m -> first_line_status (m ++ 32 :: x) = (false, 0).
Proof. intros Hm. unfold first_line_status. by rewrite bool_decide_eq_false_2 by by apply request_not_http. Qed.

Lemma request_message m p v hs body : request_ok m p v hs body ->
  zlen (head_text (request_line m p v) (map header_text (request_headers hs body))) <= 8192 ->
  http_message (request_line m p v) (map header_text (request_headers hs body)) body.
Proof.
  intros Hok Hsz. destruct (request_line_chars _ _ _ _ _ Hok) as (Lm & Lp & Lv & _ & _).
  destruct Hok as [[Hm _] Hp _ Hh [Hb Hmax%small_int]]. unfold request_line.
  assert (~ In 47 m) as H47 by (rewrite List.Forall_forall in Hm; intros H%Hm; by destruct H as (_ & _ & ?)).
  split; [|split| |done].
  - apply line_text. rewrite !Forall_app. by split_and!; [|apply str_line| |apply str_line|].
  - rewrite !zlen_app. change (zlen (str " ")) with 1. change (zlen (str " HTTP/")) with 6.
    pose proof (zlen_nonneg m). pose proof (zlen_nonneg p). pose proof (zlen_nonneg v). lia.
  - replace (m ++ _) with ((m ++ str " " ++ p ++ str " HTTP/") ++ v) by (by rewrite <- !app_assoc).
    rewrite take_app_le by (rewrite !length_app; simpl; lia). apply Forall_take. rewrite !Forall_app.
    split_and!; [eapply Forall_impl; [exact Hm|]; intros c (? & _); by apply visible_printable|by repeat constructor|
      eapply Forall_impl; [exact Hp|]; intros c (? & _); by apply visible_printable|by repeat constructor].
  - change (str " " ++ p ++ str " HTTP/" ++ v) with (32 :: p ++ str " HTTP/" ++ v). rewrite request_status by done. cbn [fst snd]. unfold request_headers, content_ok. destruct (Z.eqb_spec (zlen body) 0) as [E|E].
    + exists false, 0. split; [by apply headers_other|done].
    + exists false, (zlen body). split; [|done]. cbn [map]. eapply hls_cons; [by apply header_length|by apply headers_other].
Qed.

Lemma status_in_version v r : ~ In 32 v -> status_in (v ++ 32 :: r) = status_of r.
Proof.
  induction v as [|c v IH]; [done|]. intros Hn. cbn [app status_in]. rewrite (proj2 (Z.eqb_neq c 32)) by (intros ->; apply Hn; by left).
  apply IH. intros H. apply Hn. by right.
Qed.

Lemma status_of_code code r : 100 <= code <= 999 -> status_of (fmt_d code ++ r) = (bodiless code, if bodiless code then 0 else -1).
Proof.
  intros H. assert (forallb (fun c => bool_decide (status_of (fmt_d c) = (bodiless c, if bodiless c then 0 else -1)))
    (map Z.of_nat (seq 100 900)) = true) as Ha by (vm_compute; reflexivity).
  rewrite forallb_forall in Ha. specialize (Ha code). apply bool_decide_eq_true in Ha.
  2: { apply in_map_iff. exists (Z.to_nat code). split; [lia|]. apply in_seq. lia. }
  rewrite <- Ha. rewrite code_digits by done. done.
Qed.

Lemma status_line_status code v : 100 <= code <= 999 -> Forall (fun c => line_char c /\ c <> 32) v ->
  first_line_status (status_line code v) = (bodiless code, if bodiless code then 0 else -1).
Proof.
  intros Hc Hv. assert (~ In 32 v) as H32 by (rewrite List.Forall_forall in Hv; intros H%Hv; by destruct H).
  unfold first_line_status, status_line. rewrite bool_decide_eq_true_2 by done.
  change (drop 5 (str "HTTP/" ++ ?x)) with x. change (str " ") with [32]. cbn [app].
  rewrite status_in_version by done. by rewrite status_of_code.
Qed.

(** A response, of whose headers only what they say of the content matters. *)
Lemma response_message_of code v ls body : 100 <= code <= 999 -> Forall (fun c => line_char c /\ c <> 32) v ->
  zlen (head_text (status_line code v) ls) <= 8192 ->
  (exists ch cl, header_lines ls false (first_line_status (status_line code v)).2 ch cl /\
    content_ok (first_line_status (status_line code v)).1 ch cl body) ->
  http_message (status_line code v) ls body.
Proof.
  intros Hc Hv Hsz Hl. destruct (version_chars v Hv) as [Lv _]. destruct (errmsg_ok code) as [Le _]. split; [|split|done|done].
  - apply line_text. unfold status_line. rewrite !Forall_app. split_and!; try (by apply str_line); try done.
    rewrite code_digits by done. pose proof (Z.mod_pos_bound code 10 ltac:(lia)). pose proof (Z.mod_pos_bound (code / 10) 10 ltac:(lia)).
    assert (1 <= code / 100 <= 9) by (split; [apply Z.div_le_lower_bound|apply Z.lt_succ_r, Z.div_lt_upper_bound]; lia).
    repeat constructor; unfold byte_ok; lia.
  - unfold status_line. rewrite zlen_app. change (zlen (str "HTTP/")) with 5.
    pose proof (zlen_nonneg (v ++ str " " ++ fmt_d code ++ str " " ++ z_HTTP_errmsg code)). lia.
  - by repeat constructor.
Qed.

Lemma response_message code v hs body : response_ok code v hs body ->
  zlen (head_text (status_line code v) (map header_text (length_header body :: hs))) <= 8192 ->
  http_message (status_line code v) (map header_text (length_header body :: hs)) body.
Proof.
  intros [Hc [Hv _] Hh [Hb Hmax%small_int] Hnone] Hsz. apply response_message_of; [done..|]. rewrite status_line_status by done.
  cbn [fst snd]. exists false, (zlen body).
  split; [cbn [map]; eapply hls_cons; [by apply header_length|by apply headers_other]|].
  unfold content_ok. destruct (bodiless code); [by apply Hnone|done].
Qed.

(** ** From end to end *)

Section ends.
Context {A : Type} (z_APDU : Odr_fun A).

Lemma gdu_send (m : ODR Z) (p : Z_GDU A) bs j : puts (fun r => r = 1) m bs -> 2 * zlen bs <= INT_MAX ->
  (forall o, direction o = ODR_ENCODE -> z_GDU z_APDU (Some p) 0 None o = (let* x := m in ret (x, Some p)) o) ->
  odr_send (z_GDU z_APDU) p j = Some (1, bs) /\ bytes_ok bs.
Proof.
  intros Hm Hsz Hg. pose proof (zlen_nonneg bs).
  destruct (createmem_encode j (zlen bs)) as (o & E & [Hd _ Ha _ _ _] & Hout & _); [lia|done|].
  destruct (Hm o Hd) as (r & o' & E' & -> & Ap); [done|]. unfold odr_send. rewrite E. cbn [mbind option_bind].
  rewrite Hg, (bind_Some _ _ _ _ _ E') by done. cbn [ret mbind option_bind]. unfold odr_getbuf.
  destruct Ap as [_ _ Ht _ O K]. rewrite Hout in O. cbn [app] in O. destruct K.
  rewrite sub_spec by lia. rewrite drop_0. unfold out in O. rewrite O. split; [done|]. rewrite <- O. by apply Forall_take.
Qed.

Lemma gdu_receive (p : Z_GDU A) bs j : (forall o, direction o = ODR_DECODE -> buf o = bs -> size o = zlen bs ->
    z_GDU z_APDU None 0 None o = Some ((1, Some p), o)) ->
  odr_receive (z_GDU z_APDU) bs j = Some (1, Some p, 0).
Proof.
  intros Hg. unfold odr_receive. destruct (odr_createmem ODR_DECODE j) as [o|] eqn:E; [|done].
  assert (exists o1, odr_setbuf bs false o = Some (tt, o1) /\ direction o1 = direction o /\ buf o1 = bs /\ size o1 = zlen bs /\ bp o1 = 0)
    as (o1 & E1 & Hd & Hb & Hs & Hbp) by (by eexists).
  cbn [mbind option_bind]. rewrite E1. cbn [mbind option_bind]. rewrite Hg; [|rewrite Hd; by injection E as <-|done|done].
  cbn [mbind option_bind]. unfold odr_offset. by rewrite Hbp.
Qed.
End ends.

Lemma no_te h : plain_header h -> ~ name_is h.1 (str "Transfer-Encoding") -> says_chunked h = false.
Proof. intros _ H. unfold says_chunked. by rewrite bool_decide_eq_false_2. Qed.

Lemma headers_plain hs : Forall header_ok hs -> existsb says_chunked hs = false /\ Forall plain_header hs.
Proof.
  induction 1 as [|h hs (Hp & Ht & _) _ [IH1 IH2]]; [done|]. cbn [existsb]. rewrite no_te, IH1 by done. split; [done|by constructor].
Qed.

Lemma headers_length hs body : zlen body <= 2 ^ 29 -> Forall header_ok hs ->
  existsb says_chunked (length_header body :: hs) = false /\ Forall plain_header (length_header body :: hs).
Proof.
  intros Hl [Hc Hp]%headers_plain. pose proof (zlen_nonneg body). destruct (fmt_d_int (zlen body)) as (H1 & H2 & _); [unfold INT_MAX; lia|].
  assert (plain_header (length_header body)) as Hh.
  { split_and!; cbn [length_header fst snd].
    - apply List.Forall_forall. intros c Hin. cbn in Hin. unfold line_char, byte_ok. intuition (subst; lia).
    - eapply Forall_impl; [exact H1|]. intros c Hcc. cbv beta in Hcc. unfold line_char, byte_ok. lia.
    - destruct (fmt_d (zlen body)) as [|d ds]; [done|]. apply Forall_cons_1 in H1 as [? _]. intros [= ->]. lia. }
  split; [|by constructor]. cbn [existsb]. by rewrite Hc, no_te by done.
Qed.

Lemma request_headers_ok m p v hs body : request_ok m p v hs body ->
  existsb says_chunked (request_headers hs body) = false /\ Forall plain_header (request_headers hs body).
Proof.
  intros [_ _ _ Hh [_ Hl]]. unfold request_headers. destruct (zlen body =? 0); [by apply headers_plain|by apply headers_length].
Qed.

(** How a message is told from the others. *)
Lemma message_dispatch start ls body : http_message start ls body -> 7 <= zlen start ->
  10 < zlen (head_text start ls ++ body) /\
  memeq (head_text start ls ++ body) 0 (str "HTTP/") = Some (bool_decide (take 5 start = str "HTTP/")) /\
  all_printable 4 (head_text start ls ++ body) 0 = Some true.
Proof.
  intros [_ [_ Hp] _ _] Hs. unfold head_text. set (q := crlf ++ lines_text ls ++ crlf).
  assert (4 <= zlen q).
  { unfold q. rewrite !zlen_app. change (zlen crlf) with 2. pose proof (zlen_nonneg (lines_text ls)). lia. }
  rewrite <- app_assoc. split_and!.
  - rewrite !zlen_app. pose proof (zlen_nonneg body). lia.
  - unfold memeq. rewrite <- (take_drop 5 start) at 1. rewrite <- app_assoc.
    rewrite (sub_at [] (take 5 start) (drop 5 start ++ q ++ body)); [done|done| |done].
    change (zlen (str "HTTP/")) with 5. unfold zlen in *. rewrite length_take. lia.
  - rewrite <- (take_drop 4 start), <- app_assoc. apply (all_printable_at 4 []); [|done].
    rewrite length_take. unfold zlen in Hs. lia.
Qed.

(** A message that was encoded, on the connection. *)
Lemma gdu_framed {A} (z_APDU : Odr_fun A) (e : ODR Z) (g : Z_GDU A) start ls body j :
  http_message start ls body -> zlen body <= 2 ^ 29 -> puts (fun r => r = 1) e (head_text start ls ++ body) ->
  (forall o, direction o = ODR_ENCODE -> z_GDU z_APDU (Some g) 0 None o = (let* x := e in ret (x, Some g)) o) ->
  odr_send (z_GDU z_APDU) g j = Some (1, head_text start ls ++ body) /\
  (forall rest len, bytes_ok rest -> 2 <= zlen rest -> 0 <= len <= INT_MAX -> len + 2 <= zlen ((head_text start ls ++ body) ++ rest) ->
    cs_complete_auto ((head_text start ls ++ body) ++ rest) len =
      Some (if zlen (head_text start ls ++ body) <=? len then zlen (head_text start ls ++ body) else 0)).
Proof.
  intros Hm Hl He Hg. pose proof (hm_size _ _ _ Hm) as Hsz. pose proof (zlen_nonneg body).
  assert (zlen (head_text start ls ++ body) <= 8192 + 2 ^ 29) as Hmsg by (rewrite zlen_app; lia).
  destruct (gdu_send z_APDU e g _ j He) as [Hsend Hbytes]; [unfold INT_MAX; lia|done|]. split; [done|].
  intros rest len Hr Hr2 Hlen Hz. apply (http_framing _ _ body rest len); [done|by apply Forall_app|done|unfold INT_MAX; lia|done|done].
Qed.





(** ** The headers as a table *)

Definition names_ok (hs : list Z_HTTP_Header) : Prop :=
  Forall (fun h => exists n, hname h = n ++ [0] /\ Forall line_char n) hs.

(** The first value under a name, up to case. *)
Fixpoint find_header (hs : list Z_HTTP_Header) (n : list Z) : option (list Z) :=
  match hs with
  | [] => None
  | h :: hs => if bool_decide (name_is (removelast (hname h)) n) then Some (hvalue h) else find_header hs n
  end.

Lemma named_spec h n : (exists m, hname h = m ++ [0] /\ Forall line_char m) -> Forall line_char n ->
  named (n ++ [0]) h = Some (bool_decide (name_is (removelast (hname h)) n)).
Proof.
  intros (m & E & Hm) Hn. unfold named. rewrite E, removelast_last. apply (is_name_spec m n Hm). by apply line_char_str.
Qed.

Lemma find_header_same hs n n' : name_is n n' -> find_header hs n = find_header hs n'.
Proof.
  intros H. induction hs as [|h hs IH]; [done|]. cbn [find_header]. rewrite IH. unfold name_is in *.
  do 2 case_bool_decide; try done; exfalso; congruence.
Qed.

(** The headers of a message are a table whose keys are compared without case:
    [z_HTTP_header_lookup] finds the first value of a name, [z_HTTP_header_set]
    changes the value of one name and of no other, [z_HTTP_header_add] adds a value
    behind those that are there, and [z_HTTP_header_remove] takes out the one that
    would be found and leaves the other names alone. *)
Theorem http_header_table (hs : list Z_HTTP_Header) (n v n' : list Z) :
  names_ok hs -> Forall line_char n -> Forall line_char n' ->
  z_HTTP_header_lookup hs (n ++ [0]) = Some (find_header hs n) /\
  (exists hs', z_HTTP_header_set hs (n ++ [0]) v = Some hs' /\ names_ok hs' /\
    find_header hs' n' = if bool_decide (name_is n n') then Some v else find_header hs n') /\
  (names_ok (z_HTTP_header_add hs (n ++ [0]) v) /\
    find_header (z_HTTP_header_add hs (n ++ [0]) v) n' =
      match find_header hs n' with Some x => Some x | None => if bool_decide (name_is n n') then Some v else None end) /\
  (exists hs', z_HTTP_header_remove hs (n ++ [0]) = Some (find_header hs n, hs') /\ names_ok hs' /\
    (~ name_is n n' -> find_header hs' n' = find_header hs n')).
Proof.
  intros Hhs Hn Hn'. assert (names_ok [Header (n ++ [0]) v]) as H1 by (apply Forall_singleton; by exists n).
  induction Hhs as [|h hs Hh Hhs (IH1 & (hs1 & IH2 & IH3 & IH4) & (IH5 & IH6) & (hs2 & IH7 & IH8 & IH9))].
  - cbn [find_header]. split_and!; [done| |done| |exists []; split; [done|]; split; [by constructor|done]].
    + eexists. split; [done|]. split; [done|]. cbn [find_header hname hvalue]. by rewrite removelast_last.
    + cbn [z_HTTP_header_add find_header hname hvalue]. by rewrite removelast_last.
  - cbn [z_HTTP_header_lookup z_HTTP_header_set z_HTTP_header_remove z_HTTP_header_add find_header].
    rewrite named_spec by done. cbn [mbind option_bind].
    split; [destruct (bool_decide (name_is (removelast (hname h)) n)); [reflexivity|exact IH1]|].
    split_and!; [|by constructor|rewrite IH6; by destruct (bool_decide (name_is (removelast (hname h)) n'))|].
    + destruct (bool_decide_reflect (name_is (removelast (hname h)) n)) as [E|E].
      * eexists. split; [done|]. split; [by constructor|]. cbn [find_header hname hvalue]. unfold name_is in *.
        do 2 case_bool_decide; try done; exfalso; congruence.
      * rewrite IH2. cbn [mbind option_bind]. eexists. split; [done|]. split; [by constructor|]. cbn [find_header]. rewrite IH4.
        unfold name_is in *. do 2 case_bool_decide; try done; exfalso; congruence.
    + destruct (bool_decide_reflect (name_is (removelast (hname h)) n)) as [E|E].
      * eexists. split; [done|]. split; [done|]. intros Hne. rewrite bool_decide_eq_false_2; [done|]. unfold name_is in *. congruence.
      * rewrite IH7. cbn [mbind option_bind]. eexists. split; [done|]. split; [by constructor|]. intros Hne. cbn [find_header].
        by rewrite IH9.
Qed.

Lemma http_header_table_witness :
  exists hs', z_HTTP_header_set [Header (str "host" ++ [0]) [0]] (str "Host" ++ [0]) (str "x" ++ [0]) = Some hs' /\
    find_header hs' (str "HOST") = Some (str "x" ++ [0]).
Proof.
  destruct (http_header_table [Header (str "host" ++ [0]) [0]] (str "Host") (str "x" ++ [0]) (str "HOST")) as (_ & (hs' & E & _ & F) & _).
  - apply Forall_singleton. exists (str "host"). split; [done|]. repeat (constructor; [unfold line_char, byte_ok; simpl; lia|]). constructor.
  - repeat (constructor; [unfold line_char, byte_ok; simpl; lia|]). constructor.
  - repeat (constructor; [unfold line_char, byte_ok; simpl; lia|]). constructor.
  - exists hs'. split; [exact E|]. rewrite F. reflexivity.
Defined.
