(* ===== verification/HttpChunks.v ===== *)
(** * Contents in chunks (http.c, comstack.c)

    A response whose content comes in chunks: the framing finds its end, and the
    decoder puts the chunks together. *)

From stdpp Require Import base list numbers option strings.
From Stdlib Require Import ZArith Lia.
From S2P Require Import Prelude Text OdrMem BerTag BerLen BerAny MatchStr Atoi Comstack HttpFraming Http HttpRound.

(** What follows the length on its line starts with no letter or digit. *)
Definition extension_ok (ext : list Z) : Prop :=
  text_line ext /\ match ext with c :: _ => chunk_digit c = None | [] => True end.

(** The text of a content in chunks, and the content. *)
Inductive chunk_text : list Z -> list Z -> Prop :=
  | ct_last ds vs ext ls :
      Forall2 (is_digit 16) ds vs -> ds <> [] -> radix 16 vs = 0 -> extension_ok ext ->
      Forall (fun l => l <> [] /\ text_line l) ls ->
      chunk_text (ds ++ ext ++ crlf ++ lines_text ls ++ crlf) []
  | ct_chunk ds vs ext data rest all :
      Forall2 (is_digit 16) ds vs -> ds <> [] -> radix 16 vs = zlen data -> data <> [] -> extension_ok ext ->
      chunk_text rest all -> chunk_text (ds ++ ext ++ crlf ++ data ++ crlf ++ rest) (data ++ all).

Lemma chunk_digit_value c : chunk_digit c = digit_value c.
Proof. done. Qed.

Lemma extension_stops ext : extension_ok ext -> stops 16 1 (ext ++ crlf).
Proof.
  intros [_ He]. right. destruct ext as [|c ext].
  - exists 13, [10]. split; [done|]. intros d [H _]. discriminate.
  - exists c, (ext ++ crlf). split; [done|]. intros d [H _]. rewrite chunk_digit_value in He. congruence.
Qed.

Lemma chunk_text_framed body all : chunk_text body all -> chunked_body body.
Proof.
  induction 1 as [ds vs ext ls Hd Hn Hr He Hl|ds vs ext data rest all Hd Hn Hr Hne He _ IH].
  - by eapply cb_last; [..|apply He|apply extension_stops|].
  - by eapply cb_chunk; [..|apply He|apply extension_stops|].
Qed.

Lemma chunk_text_length body all : chunk_text body all -> zlen all <= zlen body /\ 5 <= zlen body.
Proof.
  induction 1 as [ds vs ext ls Hd Hn Hr He Hl|ds vs ext data rest all Hd Hn Hr Hne He _ IH];
    rewrite !zlen_app; change (zlen crlf) with 2; pose proof (zlen_pos ds Hn); pose proof (zlen_nonneg ext).
  - pose proof (zlen_nonneg (lines_text ls)). change (zlen (@nil Z)) with 0. lia.
  - pose proof (zlen_nonneg data). lia.
Qed.

(** ** The decoder *)

Lemma chunk_length_at buf size ds vs c more : Forall2 (is_digit 16) ds vs -> chunk_digit c = None ->
  forall fuel pre v, buf = pre ++ ds ++ c :: more -> (length ds < fuel)%nat -> zlen pre + zlen ds < size - 2 -> 0 <= v ->
  fold_left (fun a d => a * 16 + d) vs v <= INT_MAX ->
  chunk_length fuel buf size (zlen pre) v = Some (zlen pre + zlen ds, fold_left (fun a d => a * 16 + d) vs v).
Proof.
  induction 1 as [|d x ds vs [Hd Hx] Hds IH]; intros Hc [|fuel] pre v E Hf Hs Hv Hm; simpl in Hf; try lia; cbn [chunk_length].
  - rewrite zlen_nil in *. rewrite (proj2 (Z.ltb_lt _ _)) by lia. rewrite E. cbn [app]. rewrite rd_at. cbn [mbind option_bind].
    rewrite Hc. cbn [fold_left]. do 2 f_equal. lia.
  - rewrite zlen_cons in *. pose proof (zlen_nonneg ds). rewrite (proj2 (Z.ltb_lt _ _)) by lia.
    replace (rd buf (zlen pre)) with (Some d) by (rewrite E; cbn [app]; by rewrite rd_at). cbn [mbind option_bind].
    rewrite chunk_digit_value, Hd. cbv zeta. pose proof (digit_value_nonneg _ _ Hd). cbn [fold_left] in *.
    assert (Forall (fun d => 0 <= d) vs) as Hvs.
    { clear -Hds. induction Hds as [|? ? ? ? [H _] ? ?]; constructor; [by eapply digit_value_nonneg|done]. }
    pose proof (radix_mono 16 vs (v * 16 + x) ltac:(lia) ltac:(lia) Hvs).
    rewrite (proj2 (Z.ltb_ge _ _)) by lia. replace (zlen pre + 1) with (zlen (pre ++ [d])) by zl.
    rewrite IH; [do 2 f_equal; zl|done|rewrite E; cut_text|lia|zl|lia|done].
Qed.

Lemma chunk_extension_at buf size ext more : text_line ext -> forall fuel pre, buf = pre ++ ext ++ crlf ++ more ->
  (length ext < fuel)%nat -> zlen pre + zlen ext <= size - 2 -> chunk_extension fuel buf size (zlen pre) = Some (Some (zlen pre + zlen ext)).
Proof.
  induction 1 as [|c ext [H10 H13] Hext IH]; intros [|fuel] pre E Hf Hs; simpl in Hf; try lia; cbn [chunk_extension].
  - rewrite E. cbn [app crlf]. rewrite rd_at. cbn [mbind option_bind negb Z.eqb Pos.eqb]. rewrite zlen_nil. do 2 f_equal. lia.
  - rewrite zlen_cons in *. pose proof (zlen_nonneg ext).
    replace (rd buf (zlen pre)) with (Some c) by (rewrite E; cbn [app]; by rewrite rd_at). cbn [mbind option_bind].
    rewrite (proj2 (Z.eqb_neq c 13)) by done. cbn [negb].
    assert (exists d r, buf = (pre ++ [c]) ++ d :: r /\ d <> 10) as (d & r & Ed & Hd).
    { destruct ext as [|d ext]; [exists 13, (10 :: more); split; [rewrite E; cut_text|done]|].
      apply Forall_cons_1 in Hext as [[? _] _]. exists d, (ext ++ crlf ++ more). split; [rewrite E; cut_text|done]. }
    replace (zlen pre + 1) with (zlen (pre ++ [c])) by zl.
    replace (rd buf (zlen (pre ++ [c]))) with (Some d) by (rewrite Ed; by rewrite rd_at). cbn [mbind option_bind].
    rewrite (proj2 (Z.eqb_neq d 10)) by done. cbn [negb]. rewrite (proj2 (Z.leb_gt _ _)) by lia.
    rewrite IH; [do 2 f_equal; zl|rewrite E; cut_text|lia|zl].
Qed.

(** The line of a chunk length. *)
Lemma chunk_head buf ds vs ext more pre : Forall2 (is_digit 16) ds vs -> extension_ok ext -> radix 16 vs <= INT_MAX ->
  buf = pre ++ ds ++ ext ++ crlf ++ more -> 2 <= zlen more ->
  chunk_length (S (length buf)) buf (zlen buf) (zlen pre) 0 = Some (zlen (pre ++ ds), radix 16 vs) /\
  chunk_extension (S (length buf)) buf (zlen buf) (zlen (pre ++ ds)) = Some (Some (zlen (pre ++ ds ++ ext))).
Proof.
  intros Hd [Ht He] Hr E Hm. assert (zlen buf = zlen pre + zlen ds + zlen ext + 2 + zlen more) as Hz.
  { rewrite E, !zlen_app. change (zlen crlf) with 2. lia. }
  assert (length buf = Z.to_nat (zlen buf)) as Hl by (unfold zlen; lia).
  pose proof (zlen_nonneg pre). pose proof (zlen_nonneg ds). pose proof (zlen_nonneg ext). split.
  - assert (exists c r, ext ++ crlf ++ more = c :: r /\ chunk_digit c = None) as (c & r & Ec & Hc).
    { destruct ext as [|c ext]; [by exists 13, (10 :: more)|by exists c, (ext ++ crlf ++ more)]. }
    rewrite (chunk_length_at buf _ ds vs c r Hd Hc _ pre 0);
      [rewrite zlen_app; done|by rewrite E, Ec|rewrite Hl; unfold zlen in *; lia|lia|lia|done].
  - rewrite (chunk_extension_at buf _ ext more Ht _ (pre ++ ds)); [do 2 f_equal; zl|rewrite E; cut_text|rewrite Hl; unfold zlen in *; lia|].
    rewrite zlen_app. lia.
Qed.

Lemma decode_chunks_text body all : chunk_text body all -> forall buf pre acc fuel alloc,
  buf = pre ++ body -> (length body < fuel)%nat -> zlen buf <= INT_MAX -> zlen acc + zlen all <= alloc -> alloc <= zlen buf ->
  decode_chunks fuel buf (zlen buf) alloc (zlen pre) acc = Some (Some (acc ++ all)).
Proof.
  induction 1 as [ds vs ext ls Hd Hn Hr He Hl|ds vs ext data rest all Hd Hn Hr Hne He Hrest IH];
    intros buf pre acc [|fuel] alloc E Hf Hm Ha Hal; try lia; cbn [decode_chunks].
  - destruct (chunk_head buf ds vs ext (lines_text ls ++ crlf) pre Hd He) as [-> E2]; [rewrite Hr; unfold INT_MAX; lia|done| |].
    { rewrite zlen_app. change (zlen crlf) with 2. pose proof (zlen_nonneg (lines_text ls)). lia. }
    cbn [mbind option_bind]. rewrite E2. cbn [mbind option_bind]. rewrite Hr. cbn [Z.eqb]. by rewrite app_nil_r.
  - pose proof (zlen_pos data Hne) as Hdata. pose proof (zlen_nonneg all). pose proof (zlen_nonneg acc).
    destruct (chunk_text_length _ _ Hrest) as [_ H5].
    assert (zlen data <= zlen buf) as Hdb by (rewrite E, !zlen_app; change (zlen crlf) with 2; pose proof (zlen_nonneg pre);
      pose proof (zlen_nonneg ds); pose proof (zlen_nonneg ext); lia).
    destruct (chunk_head buf ds vs ext (data ++ crlf ++ rest) pre Hd He) as [-> E2]; [rewrite Hr; lia|done| |].
    { rewrite !zlen_app. change (zlen crlf) with 2. lia. }
    cbn [mbind option_bind]. rewrite E2. cbn [mbind option_bind]. rewrite Hr. rewrite zlen_app in Ha.
    rewrite (proj2 (Z.eqb_neq _ 0)), (proj2 (Z.ltb_ge _ 0)), (proj2 (Z.ltb_ge _ _)) by lia. cbn [orb].
    set (pre1 := pre ++ ds ++ ext ++ crlf).
    assert (buf = pre1 ++ data ++ crlf ++ rest) as E1 by (rewrite E; unfold pre1; cut_text).
    replace (zlen (pre ++ ds ++ ext) + 2) with (zlen pre1) by (unfold pre1; rewrite !zlen_app; change (zlen crlf) with 2; lia).
    rewrite (sub_at pre1 data (crlf ++ rest) buf) by done. cbn [mbind option_bind].
    rewrite (proj2 (Z.ltb_ge _ _)) by lia.
    replace (zlen pre1 + (zlen data + 2)) with (zlen (pre1 ++ data ++ crlf)) by (rewrite !zlen_app; change (zlen crlf) with 2; lia).
    rewrite IH; [by rewrite <- app_assoc|rewrite E1; cut_text| |done|rewrite zlen_app; lia|done].
    rewrite !length_app in Hf. change (length crlf) with 2%nat in Hf. lia.
Qed.

(** The headers and a content in chunks. *)
Lemma decode_chunked o pre hs body all : Forall plain_header hs -> existsb says_chunked hs = true -> chunk_text body all ->
  buf o = pre ++ 10 :: lines_text (map header_text hs) ++ 13 :: 10 :: body -> size o = zlen (buf o) -> zlen (buf o) <= INT_MAX ->
  decode_headers_content (zlen pre) o =
    Some (Some (map hdr hs, if zlen all =? 0 then None else Some all, zlen all), o).
Proof.
  intros Hh Hc Ht Eb Hs Hm. unfold decode_headers_content. mrun. rewrite Hs. pose proof (zlen_nonneg body).
  destruct (chunk_text_length _ _ Ht) as [Hall _].
  rewrite Eb, decode_headers_text by (done || apply headers_fuel). mrun.
  rewrite <- Eb, Hc. cbn [orb].
  set (pre1 := pre ++ 10 :: lines_text (map header_text hs) ++ [13]).
  assert (buf o = pre1 ++ 10 :: body) as E by (rewrite Eb; unfold pre1; cut_text).
  assert (zlen (buf o) = zlen pre1 + 1 + zlen body) as Hz by (rewrite E; zl).
  replace (zlen (buf o) - zlen body - 1) with (zlen pre1) by lia. replace (rd (buf o) (zlen pre1)) with (Some 10) by (rewrite E; by rewrite rd_at).
  mrun. cbn [Z.eqb Pos.eqb negb]. replace (zlen pre1 + 1) with (zlen (pre1 ++ [10])) by zl.
  rewrite (decode_chunks_text body all Ht (buf o) (pre1 ++ [10]) []); [by mrun|rewrite E; cut_text| |done| |].
  - rewrite E, length_app. simpl. lia.
  - rewrite zlen_app. change (zlen [10]) with 1. change (zlen (@nil Z)) with 0. lia.
  - pose proof (zlen_nonneg (pre1 ++ [10])). lia.
Qed.

(** ** Property *)

(** A header that says that the content comes in chunks. *)
Definition chunked_header (h : list Z * list Z) : Prop :=
  plain_header h /\ name_is h.1 (str "Transfer-Encoding") /\ name_is h.2 (str "chunked").

Lemma chunked_line h ch cl : chunked_header h -> header_line (header_text h) ch cl true cl.
Proof.
  destruct h as [n v]. intros ((Hn & Hv & Hh) & Hte & Hck). unfold header_text. cbn [fst snd] in *.
  assert (ch || starts_with v (str "chunked") = true) as E.
  { apply orb_true_iff. right. unfold starts_with. apply bool_decide_eq_true_2.
    assert (length v = length (str "chunked")) as Hl by (rewrite <- (length_map fold_case v), Hck, length_map; done).
    by rewrite take_ge by lia. }
  pose proof (hl_encoding (n ++ [58]) 1 v ch cl) as H. rewrite E in H. rewrite <- app_assoc in H. apply H; [|by apply line_text|done].
  unfold same_name, TE. change (str "Transfer-Encoding:") with (str "Transfer-Encoding" ++ [58]). rewrite !map_app. by rewrite Hte.
Qed.

(** C25: A response whose content comes in chunks is one message for
    [cs_complete_auto], and [yaz_decode_http_response] of that message gives its
    headers and the contents of the chunks put together, of whatever sizes they are
    and with whatever extensions and trailer. *)
Theorem http_chunked_response (code : Z) (v : list Z) (hs : list (list Z * list Z)) (te : list Z * list Z) (body all : list Z)
    (o : odr) :
  let msg := message_text (status_line code v) (te :: hs) body in
  100 <= code <= 999 -> bodiless code = false -> Forall (fun c => line_char c /\ c <> 32) v ->
  chunked_header te -> Forall header_ok hs -> chunk_text body all ->
  zlen (head_text (status_line code v) (map header_text (te :: hs))) <= 8192 -> zlen msg <= INT_MAX ->
  (forall rest len, bytes_ok (msg ++ rest) -> 2 <= zlen rest -> 0 <= len <= INT_MAX -> len + 2 <= zlen (msg ++ rest) ->
    cs_complete_auto (msg ++ rest) len = Some (if zlen msg <=? len then zlen msg else 0)) /\
  (buf o = msg -> size o = zlen msg ->
    yaz_decode_http_response o =
      Some (Some (Response code (v ++ [0]) (map hdr (te :: hs)) (if zlen all =? 0 then None else Some all) (zlen all)), o)).
Proof.
  intros msg Hc Hb Hv Hte Hh Ht Hsz Hm. split.
  - intros rest len Hr Hr2 Hlen Hz. apply (http_framing _ _ body rest len); try done.
    apply response_message_of; [done|done|done|]. exists true, (-1).
    rewrite status_line_status by done. rewrite Hb. split; [|by apply chunk_text_framed in Ht].
    cbn [map]. eapply hls_cons; [by apply chunked_line|by apply headers_other].
  - intros Eb Es. destruct Hte as (Hp & Hte1 & Hte2). destruct (headers_plain hs Hh) as [_ Hpl].
    set (tl := lines_text (map header_text (te :: hs)) ++ 13 :: 10 :: body).
    assert (buf o = status_line code v ++ 13 :: 10 :: tl) as E.
    { rewrite Eb. unfold msg, message_text, head_text, tl, crlf. cut_text. }
    unfold yaz_decode_http_response. mrun. rewrite Es, <- Eb, (response_first _ code v tl Hc Hv); [|unfold tl; by destruct (lines_text _)|done].
    mrun. assert (buf o = (status_line code v ++ [13]) ++ 10 :: tl) as E1 by (rewrite E; cut_text).
    replace (zlen (status_line code v) + 1) with (zlen (status_line code v ++ [13])) by zl.
    rewrite (bind_Some _ _ _ _ _ (decode_chunked o _ (te :: hs) body all ltac:(by constructor)
      ltac:(cbn [existsb]; unfold says_chunked; by rewrite !bool_decide_eq_true_2) Ht E1 ltac:(by rewrite Es, Eb) ltac:(by rewrite Eb))). done.
Qed.

Definition sample_chunks : list Z := str "3" ++ crlf ++ str "abc" ++ crlf ++ str "0a;x=y" ++ crlf ++ str "0123456789" ++ crlf ++
  str "0" ++ crlf ++ str "T: 1" ++ crlf ++ crlf.
Definition chunked_te : list Z * list Z := (str "Transfer-Encoding", str "Chunked").

Lemma sample_chunks_ok : chunk_text sample_chunks (str "abc" ++ str "0123456789" ++ []).
Proof.
  apply (ct_chunk (str "3") [3] [] (str "abc") (str "0a;x=y" ++ crlf ++ str "0123456789" ++ crlf ++
    str "0" ++ crlf ++ str "T: 1" ++ crlf ++ crlf)); [by repeat constructor|done|done|done|split; [constructor|done]|].
  apply (ct_chunk (str "0a") [0; 10] (str ";x=y") (str "0123456789") (str "0" ++ crlf ++ str "T: 1" ++ crlf ++ crlf));
    [by repeat constructor|done|done|done|split; [by repeat constructor|done]|].
  apply (ct_last (str "0") [0] [] [str "T: 1"]); [by repeat constructor|done|done|split; [constructor|done]|].
  apply Forall_singleton. split; [done|by repeat constructor].
Qed.

Lemma http_chunked_response_witness :
  let msg := message_text (status_line 200 (str "1.1")) [chunked_te] sample_chunks in
  cs_complete_auto (msg ++ [72; 84]) (zlen msg - 1) = Some 0 /\
  exists o, buf o = msg /\ yaz_decode_http_response o =
    Some (Some (Response 200 (str "1.1" ++ [0]) [hdr chunked_te] (Some (str "abc0123456789")) 13), o).
Proof.
  assert (chunked_header chunked_te) as Hte.
  { split; [|by split]. split; [|split; [|done]]; repeat (constructor; [unfold line_char, byte_ok; simpl; lia|]); constructor. }
  assert (Forall (fun c => line_char c /\ c <> 32) (str "1.1")) as Hv
    by (repeat (constructor; [unfold line_char, byte_ok; simpl; lia|]); constructor).
  set (msg := message_text (status_line 200 (str "1.1")) [chunked_te] sample_chunks).
  assert (zlen msg = 86) as Hz by (vm_compute; reflexivity).
  destruct (odr_createmem ODR_DECODE (fun _ => 0)) as [o0|] eqn:E0; [|discriminate].
  destruct (odr_setbuf msg false o0) as [[[] o]|] eqn:E1; [|discriminate].
  destruct (http_chunked_response 200 (str "1.1") [] chunked_te sample_chunks (str "abc" ++ str "0123456789" ++ []) o) as [H1 H2];
    [lia|done|exact Hv|exact Hte|constructor|apply sample_chunks_ok|vm_compute; discriminate|fold msg; rewrite Hz; unfold INT_MAX; lia|].
  fold msg in H1, H2. split.
  - rewrite H1; [by rewrite Hz| |done|rewrite Hz; unfold INT_MAX; lia|rewrite zlen_app; change (zlen [72; 84]) with 2; lia].
    apply bytes_lit. vm_compute. reflexivity.
  - exists o. injection E1 as <-. split; [reflexivity|]. apply H2; reflexivity.
Defined.

(** The length of a chunk is compared with the size of the whole message and not
    with what is left of it: a chunk that is said to be longer is copied from beyond
    the buffer. *)
Lemma http_chunk_overread (o : odr) :
  let msg := str "HTTP/1.1 200 OK" ++ crlf ++ str "Transfer-Encoding: chunked" ++ crlf ++ crlf ++ str "20" ++ crlf ++ str "ab" ++ crlf in
  buf o = msg -> size o = zlen msg -> yaz_decode_http_response o = None.
Proof.
  intros msg Eb Es. unfold yaz_decode_http_response, bind, get, lift. rewrite Es, Eb.
  replace (yaz_decode_http_response_first msg (zlen msg)) with (Some (Some (16, 200, str "1.1", str "OK"))) by (vm_compute; reflexivity).
  unfold decode_headers_content, bind, get, lift. rewrite Es, Eb.
  replace (decode_headers (S (length msg)) msg (zlen msg) 16 false)
    with (Some (Some ([hdr (str "Transfer-Encoding", str "chunked")], true, 46))) by (vm_compute; reflexivity).
  replace (rd msg 46) with (Some 10) by (vm_compute; reflexivity). cbn [negb Z.eqb Pos.eqb].
  replace (decode_chunks (S (length msg)) msg (zlen msg) (zlen msg - (46 + 1)) (46 + 1) []) with (@None (option (list Z)))
    by (vm_compute; reflexivity). done.
Qed.
