(* ===== verification/Marc.v ===== *)
(** * MARC records (marcdisp.c, marc_read_iso2709.c)

    The handle of a MARC record: its nodes (leader, control fields, data fields
    with subfields, and the comments that readers leave), the reader of the
    exchange format ISO 2709 and the writers.  Strings are memory with its
    terminator.  Writing goes through the conversion of the handle, when it has
    one, so that a writer works on the handle and on the buffer. *)

From stdpp Require Import base list numbers option strings.
From Stdlib Require Import ZArith Lia.
From S2P Require Import Prelude Text MatchStr Atoi Iconv Utf8 Wrbuf WrbufIconv.

Definition ISO2709_RS : Z := 29.
Definition ISO2709_FS : Z := 30.
Definition ISO2709_IDFS : Z := 31.

(** ** Nodes and handles *)

Inductive node :=
  | Datafield (tag indicator : list Z) (subfields : list (list Z))
  | Controlfield (tag data : list Z)
  | Comment (comment : list Z)
  | Leader (leader : list Z).

Inductive collection_state := no_collection | collection_first | collection_second.

Section marc.
Context {D E : Type} (d : yaz_iconv_decoder_s D) (e : yaz_iconv_encoder_s E).
(** What the allocator leaves in new memory. *)
Context (junk : Z -> Z).

Record yaz_marc := Mt {
  output_format : Z;
  debug : Z;
  write_using_libxml2 : Z;
  enable_collection : collection_state;
  iconv_cd : option (yaz_iconv_struct D E);
  subfield_str : list Z;
  endline_str : list Z;
  leader_spec : option (list Z);
  nodes : list node;
}.

Definition set_nodes (ns : list node) (mt : yaz_marc) : yaz_marc :=
  Mt (output_format mt) (debug mt) (write_using_libxml2 mt) (enable_collection mt) (iconv_cd mt) (subfield_str mt)
    (endline_str mt) (leader_spec mt) ns.
Definition set_iconv (cd : option (yaz_iconv_struct D E)) (mt : yaz_marc) : yaz_marc :=
  Mt (output_format mt) (debug mt) (write_using_libxml2 mt) (enable_collection mt) cd (subfield_str mt)
    (endline_str mt) (leader_spec mt) (nodes mt).
Definition set_collection (c : collection_state) (mt : yaz_marc) : yaz_marc :=
  Mt (output_format mt) (debug mt) (write_using_libxml2 mt) c (iconv_cd mt) (subfield_str mt)
    (endline_str mt) (leader_spec mt) (nodes mt).
Definition set_leader_spec (s : option (list Z)) (mt : yaz_marc) : yaz_marc :=
  Mt (output_format mt) (debug mt) (write_using_libxml2 mt) (enable_collection mt) (iconv_cd mt) (subfield_str mt)
    (endline_str mt) s (nodes mt).

Definition set_output (format : Z) (mt : yaz_marc) : yaz_marc :=
  Mt format (debug mt) (write_using_libxml2 mt) (enable_collection mt) (iconv_cd mt) (subfield_str mt)
    (endline_str mt) (leader_spec mt) (nodes mt).
Definition set_debug (level : Z) (mt : yaz_marc) : yaz_marc :=
  Mt (output_format mt) level (write_using_libxml2 mt) (enable_collection mt) (iconv_cd mt) (subfield_str mt)
    (endline_str mt) (leader_spec mt) (nodes mt).
Definition set_libxml2 (enable : Z) (mt : yaz_marc) : yaz_marc :=
  Mt (output_format mt) (debug mt) enable (enable_collection mt) (iconv_cd mt) (subfield_str mt)
    (endline_str mt) (leader_spec mt) (nodes mt).

Abbreviation MARC := (M yaz_marc).

Definition yaz_marc_create : yaz_marc :=
  Mt 0 0 0 no_collection None (str " $" ++ [0]) (nl ++ [0]) None [].

Definition yaz_marc_reset : MARC unit := modify (set_nodes []).

(** [nmem_strdupn] and [nmem_strdup] *)
Definition strdupn (src : list Z) (n : Z) : option (list Z) :=
  let? s := sub src 0 n in Some (s ++ [0]).
Definition strdup (src : list Z) : option (list Z) :=
  let? n := strlen src in strdupn src n.

(** What [%s] prints of a string. *)
Definition c_str (m : list Z) : option (list Z) :=
  let? n := strlen m in sub m 0 n.

Definition yaz_marc_add_node (n : node) : MARC unit :=
  modify (fun mt => set_nodes (nodes mt ++ [n]) mt).

Definition yaz_marc_add_comment (comment : list Z) : MARC unit :=
  let* c := lift (strdup comment) in yaz_marc_add_node (Comment c).

(** [text] is what the format makes of the arguments; [yaz_vsnprintf] leaves
    at most 198 characters of it. *)
Definition yaz_marc_cprintf (text : list Z) : MARC unit :=
  yaz_marc_add_comment (take 198 text ++ [0]).

(** ** The leader *)

Definition c_isspace (c : Z) : bool := bool_decide (c ∈ [32; 9; 10; 11; 12; 13]).

(** The characters at the front that satisfy [f], at most [n], and the rest. *)
Fixpoint scan_while (f : Z -> bool) (n : nat) (cp : list Z) : option (list Z * list Z) :=
  match n with
  | O => Some ([], cp)
  | S n =>
      match cp with
      | [] => None
      | c :: cp' =>
          if negb (c =? 0) && f c
          then let? (s, r) := scan_while f n cp' in Some (c :: s, r)
          else Some ([], cp)
      end
  end.

(** The value of digits in an [int], undefined when it does not fit. *)
Definition digits_int (neg : bool) (ds : list Z) : option Z :=
  let v := dec_val 0 ds in
  if v <=? INT_MAX then Some (if neg then - v else v) else None.

(** [sscanf(cp, "%d=%20[^,]%n", &pos, val, &no_read)]: the value returned, [pos],
    [val] and [no_read]. *)
Definition sscanf_leader (cp : list Z) : option (Z * Z * list Z * Z) :=
  let? (_, p) := scan_while c_isspace (length cp) cp in
  let? c := rd p 0 in
  let neg := c =? 45 in
  let p := if neg || (c =? 43) then drop 1 p else p in
  let? (ds, p) := scan_while yaz_isdigit (length p) p in
  match ds with
  | [] => Some (0, 0, [], 0)
  | _ =>
      let? pos := digits_int neg ds in
      let? c := rd p 0 in
      if negb (c =? 61) then Some (1, pos, [], 0)
      else
        let? (val, p) := scan_while (fun c => negb (c =? 44)) 20 (drop 1 p) in
        match val with
        | [] => Some (1, pos, [], 0)
        | _ => Some (2, pos, val, zlen cp - zlen p)
        end
  end.

(** [memchr] for a closing quote: the characters before it. *)
Fixpoint before_quote (s : list Z) : option (list Z) :=
  match s with
  | [] => None
  | c :: s => if c =? 39 then Some [] else (cons c) <$> before_quote s
  end.

Fixpoint marc_exec_leader_loop (fuel : nat) (cp leader : list Z) (size : Z) : option (Z * list Z) :=
  match fuel with
  | O => None
  | S fuel =>
      let? (no, pos, val, no_read) := sscanf_leader cp in
      if (no <? 2) || (no_read <? 3) then Some (-1, leader)
      else if (pos <? 0) || (size <=? pos) then Some (-1, leader)
      else
        let next leader :=
          let cp := drop (Z.to_nat no_read) cp in
          let? c := rd cp 0 in
          if negb (c =? 44) then Some (0, leader)
          else marc_exec_leader_loop fuel (drop 1 cp) leader size in
        let? v := rd val 0 in
        if v =? 39 then
          match before_quote (drop 1 val) with
          | None => Some (-1, leader)
          | Some q =>
              if size <? zlen q + pos then Some (-1, leader)
              else let? leader := splice leader pos q in next leader
          end
        else if yaz_isdigit v then
          let? (ds, _) := scan_while yaz_isdigit (length val) (val ++ [0]) in
          let? ch := digits_int false ds in
          let? leader := splice leader pos [u8 ch] in next leader
        else Some (-1, leader)
  end.

Definition marc_exec_leader (spec : option (list Z)) (leader : list Z) (size : Z) : option (Z * list Z) :=
  match spec with
  | None => Some (0, leader)
  | Some cp => marc_exec_leader_loop (length cp) cp leader size
  end.

Definition yaz_marc_leader_spec (spec : option (list Z)) : MARC Z :=
  modify (set_leader_spec None) ;;
  match spec with
  | None => ret 0
  | Some s =>
      let dummy_leader := map (fun i => junk (Z.of_nat i)) (seq 0 24) in
      let* (r, _) := lift (marc_exec_leader (Some s) dummy_leader 24) in
      if negb (r =? 0) then ret (-1)
      else
        let* s := lift (strdup s) in
        modify (set_leader_spec (Some s)) ;;
        ret 0
  end.

Definition yaz_marc_add_leader (leader : list Z) (leader_len : Z) : MARC unit :=
  let* l := lift (strdupn leader leader_len) in
  let* spec := gets leader_spec in
  let* (_, l) := lift (marc_exec_leader spec l leader_len) in
  yaz_marc_add_node (Leader l).

(** The string [str] is stored in the first leader at [off]. *)
Fixpoint modify_leader (off : Z) (s : list Z) (ns : list node) : option (list node) :=
  match ns with
  | [] => Some []
  | Leader l :: ns => let? l := splice l off s in Some (Leader l :: ns)
  | n :: ns => (cons n) <$> modify_leader off s ns
  end.

Definition yaz_marc_modify_leader (off : Z) (str : list Z) : MARC unit :=
  let* s := lift (c_str str) in
  let* ns := gets nodes in
  let* ns := lift (modify_leader off s ns) in
  modify (set_nodes ns).

(** ** Fields *)

(** [ %02X] of the first 16 octets, and [ ..] when there are more. *)
Definition hex_octets (data : list Z) : list Z :=
  concat (map (fun c => [32; hex_digit true (c / 16); hex_digit true (c mod 16)]) (take 16 data)) ++
  (if 16 <? zlen data then str " .." else []).

Definition yaz_marc_add_controlfield (tag data : list Z) (data_len : Z) : MARC unit :=
  let* t := lift (strdup tag) in
  let* v := lift (strdupn data data_len) in
  yaz_marc_add_node (Controlfield t v) ;;
  let* dbg := gets debug in
  if negb (dbg =? 0) then
    let* v := lift (sub data 0 data_len) in
    yaz_marc_add_comment (str "controlfield:" ++ hex_octets v ++ [0])
  else ret tt.

Definition yaz_marc_add_datafield (tag indicator : list Z) (indicator_len : Z) : MARC unit :=
  let* t := lift (strdup tag) in
  let* i := lift (strdupn indicator indicator_len) in
  yaz_marc_add_node (Datafield t i []).

(** [subfield_pp]: where the next subfield goes, which is the end of the last
    data field; there is none before the first. *)
Fixpoint add_to_last (s : list Z) (ns : list node) : option (list node) :=
  match ns with
  | [] => None
  | n :: ns' =>
      match add_to_last s ns' with
      | Some r => Some (n :: r)
      | None => match n with
                | Datafield t i ss => Some (Datafield t i (ss ++ [s]) :: ns')
                | _ => None
                end
      end
  end.

Definition yaz_marc_add_subfield (code_data : list Z) (code_data_len : Z) : MARC unit :=
  let* dbg := gets debug in
  (if negb (dbg =? 0) then
     let* v := lift (sub code_data 0 code_data_len) in
     yaz_marc_add_comment (str "subfield:" ++ hex_octets v ++ [0])
   else ret tt) ;;
  let* ns := gets nodes in
  match add_to_last [] ns with
  | Some _ =>
      let* s := lift (strdupn code_data code_data_len) in
      let* ns := lift (add_to_last s ns) in
      modify (set_nodes ns)
  | None => ret tt
  end.

(** ** The leader of a record *)

(** [leader[offset]], as the [char] it is. *)
Definition check_ascii (leader : list Z) (offset ch_default : Z) : MARC (list Z) :=
  let* c := lift (rd leader offset) in
  if (s8 c <? 32) || (127 <? s8 c) then
    yaz_marc_cprintf (str "Leader character at offset " ++ fmt_d offset ++
      str " is non-ASCII. Setting value to '" ++ [ch_default] ++ str "'") ;;
    lift (splice leader offset [ch_default])
  else ret leader.

Record leader_info := Info {
  indicator_length : Z;
  identifier_length : Z;
  base_address : Z;
  length_data_entry : Z;
  length_starting : Z;
  length_implementation : Z }.

(** [%5d] *)
Definition fmt_5d (n : Z) : list Z := repeat 32 (5 - length (fmt_d n)) ++ fmt_d n.

(** A number of the leader: [bad] tells which values are not accepted, the
    comment is [msg], [deflt] what is assumed and [fix_] what is stored for it. *)
Definition leader_number (leader : list Z) (off n : Z) (bad : Z -> bool) (msg : list Z) (deflt : Z)
    (fix_ : list Z) : MARC (Z * list Z) :=
  let* (ok, v) := lift (atoi_n_check (drop (Z.to_nat off) leader) n 0) in
  if (ok =? 0) || bad v then
    yaz_marc_cprintf msg ;;
    let* l := lift (splice leader off fix_) in
    ret (deflt, l)
  else ret (v, leader).

Definition yaz_marc_set_leader (leader_c : list Z) : MARC leader_info :=
  let* leader := lift (sub leader_c 0 24) in
  let* leader := check_ascii leader 5 97 in
  let* leader := check_ascii leader 6 97 in
  let* leader := check_ascii leader 7 97 in
  let* leader := check_ascii leader 8 35 in
  let* leader := check_ascii leader 9 35 in
  let* (indl, leader) := leader_number leader 10 1 (fun v => v =? 0)
    (str "Indicator length at offset 10 should hold a number 1-9. Assuming 2") 2 (str "2") in
  let* (idl, leader) := leader_number leader 11 1 (fun v => v =? 0)
    (str "Identifier length at offset 11 should  hold a number 1-9. Assuming 2") 2 (str "2") in
  let* (base, leader) := leader_number leader 12 5 (fun _ => false)
    (str "Base address at offsets 12..16 should hold a number. Assuming 0") 0 [] in
  let* leader := check_ascii leader 17 35 in
  let* leader := check_ascii leader 18 35 in
  let* leader := check_ascii leader 19 35 in
  let* (lde, leader) := leader_number leader 20 1 (fun v => v <? 3)
    (str "Length data entry at offset 20 should hold a number 3-9. Assuming 4") 4 (str "4") in
  let* (ls, leader) := leader_number leader 21 1 (fun v => v <? 4)
    (str "Length starting at offset 21 should hold a number 4-9. Assuming 5") 5 (str "5") in
  let* (li, leader) := leader_number leader 22 1 (fun _ => false)
    (str "Length implementation at offset 22 should hold a number. Assuming 0") 0 (str "0") in
  let* leader := check_ascii leader 23 48 in
  let* dbg := gets debug in
  (if negb (dbg =? 0) then
     yaz_marc_cprintf (str "Indicator length      " ++ fmt_5d indl) ;;
     yaz_marc_cprintf (str "Identifier length     " ++ fmt_5d idl) ;;
     yaz_marc_cprintf (str "Base address          " ++ fmt_5d base) ;;
     yaz_marc_cprintf (str "Length data entry     " ++ fmt_5d lde) ;;
     yaz_marc_cprintf (str "Length starting       " ++ fmt_5d ls) ;;
     yaz_marc_cprintf (str "Length implementation " ++ fmt_5d li)
   else ret tt) ;;
  yaz_marc_add_leader leader 24 ;;
  ret (Info indl idl base lde ls li).

(** ** The size of a character *)

(** The tries with 1, 2, 3 and 4 octets. *)
Fixpoint one_character_loop (n : nat) (i : Z) (buf : list Z) : MARC Z :=
  match n with
  | O => ret 1
  | S n =>
      let* mt := get in
      match iconv_cd mt with
      | None => fault
      | Some cd =>
          let* (r, cd, _, outb) := lift (yaz_iconv d e cd (Some (buf, i)) (Some ([], 12))) in
          let* (_, cd, _, _) := lift (yaz_iconv d e cd None outb) in
          put (set_iconv (Some cd) mt) ;;
          if negb (r =? SIZE_MAX) then ret i else one_character_loop n (i + 1) buf
      end
  end.

Definition cdata_one_character (buf : list Z) : MARC Z :=
  let* cd := gets iconv_cd in
  match cd with
  | Some _ => one_character_loop 4 1 buf
  | None =>
      let* (_, no_read, error) := lift (yaz_read_UTF8_char buf 4 0) in
      if (error =? 0) && (0 <? no_read) then ret no_read else ret 1
  end.

Definition yaz_marc_sizeof_char : list Z -> MARC Z := cdata_one_character.

(** ** marc_read_iso2709.c *)

(** The text that operations on a new buffer leave. *)
Definition wr_text (m : WRBUF unit) : option (list Z) :=
  let? b := wrbuf_alloc junk in
  let? (_, b) := m b in
  let? (s, _) := wrbuf_cstr b in
  c_str s.

(** [while (--l >= 3) if (!yaz_isdigit(buf[entry_p + l])) break;]: whether all
    are digits. *)
Fixpoint entry_digits (n : nat) (buf : list Z) (entry_p : Z) : option bool :=
  match n with
  | O => Some true
  | S n =>
      let? c := rd buf (entry_p + 3 + Z.of_nat n) in
      if yaz_isdigit c then entry_digits n buf entry_p else Some false
  end.

(** The first pass: the end of the directory, [None] inside for [return -1]. *)
Fixpoint read_directory (fuel : nat) (buf : list Z) (record_length : Z) (li : leader_info)
    (entry_p : Z) : MARC (option Z) :=
  match fuel with
  | O => fault
  | S fuel =>
      let* c := lift (rd buf entry_p) in
      if c =? ISO2709_FS then ret (Some entry_p)
      else
        let l := 3 + length_data_entry li + length_starting li in
        if record_length <=? entry_p + l then
          yaz_marc_cprintf (str "Directory offset " ++ fmt_d entry_p ++
            str ": end of record. Missing FS char") ;;
          ret None
        else
          let ptr n := drop (Z.to_nat (entry_p + n)) buf in
          let* dbg := gets debug in
          (if negb (dbg =? 0) then
             let* hex := lift (wr_text (
               wrbuf_lit (str "Tag ") ;;
               wrbuf_write_escaped (ptr 0) 3 ;;
               wrbuf_lit (str ", length ") ;;
               wrbuf_write_escaped (ptr 3) (length_data_entry li) ;;
               wrbuf_lit (str ", starting ") ;;
               wrbuf_write_escaped (ptr (3 + length_data_entry li)) (length_starting li))) in
             yaz_marc_cprintf (str "Directory offset " ++ fmt_d entry_p ++ str ": " ++ hex)
           else ret tt) ;;
          let* ok := lift (entry_digits (Z.to_nat (l - 3)) buf entry_p) in
          if negb ok then
            let* hex := lift (wr_text (
              wrbuf_write_escaped (ptr 0) (length_data_entry li + length_starting li + 3))) in
            yaz_marc_cprintf (str "Directory offset " ++ fmt_d entry_p ++
              str ": Bad value for data length and/or length starting (" ++ hex ++ str ")") ;;
            ret (Some entry_p)
          else read_directory fuel buf record_length li (entry_p + l)
  end.

(** [buf[i] != ISO2709_RS && buf[i] != ISO2709_FS] *)
Definition in_field (c : Z) : bool := negb (c =? ISO2709_RS) && negb (c =? ISO2709_FS).

(** The indicators: [i] after them. *)
Fixpoint skip_indicators (n : nat) (buf : list Z) (i : Z) : MARC Z :=
  match n with
  | O => ret i
  | S n =>
      let* k := yaz_marc_sizeof_char (drop (Z.to_nat i) buf) in
      skip_indicators n buf (i + k)
  end.

(** The subfields: [i] at the end. *)
Fixpoint read_subfields (fuel : nat) (buf : list Z) (end_offset code_offset i : Z) : MARC Z :=
  match fuel with
  | O => fault
  | S fuel =>
      let add := if code_offset <? i
                 then yaz_marc_add_subfield (drop (Z.to_nat code_offset) buf) (i - code_offset)
                 else ret tt in
      let stop := add ;; ret i in
      if i <? end_offset then
        let* c := lift (rd buf i) in
        if in_field c then
          if (c =? ISO2709_IDFS) && (i <? end_offset - 1) then
            let* c1 := lift (rd buf (i + 1)) in
            if negb ((0 <=? s8 c1) && (s8 c1 <=? 32))
            then add ;; read_subfields fuel buf end_offset (i + 1) (i + 1)
            else read_subfields fuel buf end_offset code_offset (i + 1)
          else read_subfields fuel buf end_offset code_offset (i + 1)
        else stop
      else stop
  end.

Fixpoint control_end (fuel : nat) (buf : list Z) (end_offset i : Z) : option Z :=
  match fuel with
  | O => None
  | S fuel =>
      if i <? end_offset then
        let? c := rd buf i in
        if in_field c then control_end fuel buf end_offset (i + 1) else Some i
      else Some i
  end.

(** What the field at [i] is: 0 for a control field. *)
Definition identifier_flag (buf tag : list Z) (indl i : Z) : option Z :=
  let? r := memcmp tag (str "00") 2 in
  if negb (r =? 0) then Some 1
  else if (indl <? 4) && (0 <? indl) then
    let? c := rd buf (i + indl) in
    if c =? ISO2709_IDFS then Some 1
    else
      let? c := rd buf (i + indl + 1) in
      if c =? ISO2709_IDFS then Some 2 else Some 0
  else Some 0.

(** One field of the second pass, whose data is at [i]: [i] after it. *)
Definition read_field (buf tag : list Z) (li : leader_info) (end_offset i : Z) : MARC Z :=
  let fuel := S (Z.to_nat (end_offset - i)) in
  let* flag := lift (identifier_flag buf tag (indicator_length li) i) in
  if negb (flag =? 0) then
    let i := i + (flag - 1) in
    let* i :=
      if negb (indicator_length li =? 0) then
        let* j := skip_indicators (Z.to_nat (indicator_length li)) buf i in
        yaz_marc_add_datafield tag (drop (Z.to_nat i) buf) (j - i) ;;
        ret j
      else ret i in
    read_subfields fuel buf end_offset (i + 1) i
  else
    let* j := lift (control_end fuel buf end_offset i) in
    yaz_marc_add_controlfield tag (drop (Z.to_nat i) buf) (j - i) ;;
    ret j.

(** The second pass. *)
Fixpoint read_fields (fuel : nat) (buf : list Z) (record_length : Z) (li : leader_info)
    (end_of_directory entry_p : Z) : MARC unit :=
  match fuel with
  | O => fault
  | S fuel =>
      if entry_p =? end_of_directory then ret tt
      else
        let entry_p0 := entry_p in
        let* t := lift (sub buf entry_p 3) in
        let tag := t ++ [0] in
        let entry_p := entry_p + 3 in
        let* data_length := lift (atoi_n (drop (Z.to_nat entry_p) buf) (length_data_entry li)) in
        let entry_p := entry_p + length_data_entry li in
        let* data_offset := lift (atoi_n (drop (Z.to_nat entry_p) buf) (length_starting li)) in
        let entry_p := entry_p + length_starting li in
        let i := data_offset + base_address li in
        let end_offset := i + data_length - 1 in
        if (data_length <=? 0) || (data_offset <? 0) then ret tt
        else
          let* dbg := gets debug in
          (if negb (dbg =? 0) then
             let* ts := lift (c_str tag) in
             yaz_marc_cprintf (str "Tag: " ++ ts ++ str ". Directory offset " ++ fmt_d entry_p0 ++
               str ": data-length " ++ fmt_d data_length ++ str ", data-offset " ++ fmt_d data_offset)
           else ret tt) ;;
          if record_length <=? end_offset then
            yaz_marc_cprintf (str "Directory offset " ++ fmt_d entry_p0 ++ str ": Data out of bounds " ++
              fmt_d end_offset ++ str " >= " ++ fmt_d record_length)
          else
            let* i := read_field buf tag li end_offset i in
            (if i <? end_offset then
               yaz_marc_cprintf (str "Separator but not at end of field length=" ++ fmt_d data_length)
             else ret tt) ;;
            let* c := lift (rd buf i) in
            (if in_field c then
               yaz_marc_cprintf (str "No separator at end of field length=" ++ fmt_d data_length)
             else ret tt) ;;
            read_fields fuel buf record_length li end_of_directory entry_p
  end.

Definition yaz_marc_read_iso2709 (buf : list Z) (bsize : Z) : MARC Z :=
  yaz_marc_reset ;;
  let* (ok, record_length) := lift (atoi_n_check buf 5 0) in
  if ok =? 0 then yaz_marc_cprintf (str "Bad leader") ;; ret (-1)
  else if record_length <? 25 then
    yaz_marc_cprintf (str "Record length " ++ fmt_d record_length ++ str " < 24") ;; ret (-1)
  else if negb (bsize =? -1) && (bsize <? record_length) then
    yaz_marc_cprintf (str "Record appears to be larger than buffer " ++ fmt_d record_length ++
      str " < " ++ fmt_d bsize) ;; ret (-1)
  else
    let* dbg := gets debug in
    (if negb (dbg =? 0) then yaz_marc_cprintf (str "Record length         " ++ fmt_5d record_length)
     else ret tt) ;;
    let* li := yaz_marc_set_leader buf in
    let* e := read_directory (Z.to_nat record_length) buf record_length li 24 in
    match e with
    | None => ret (-1)
    | Some entry_p =>
        (if negb (base_address li =? entry_p + 1) then
           yaz_marc_cprintf (str "Base address not at end of directory, base " ++
             fmt_d (base_address li) ++ str ", end " ++ fmt_d (entry_p + 1))
         else ret tt) ;;
        read_fields (Z.to_nat record_length) buf record_length li entry_p 24 ;;
        ret record_length
    end.

(** ** Writing *)

(** A writer works on the handle, whose conversion it uses, and on the buffer. *)
Abbreviation WRITER := (M (yaz_marc * wrbuf)).

(** An operation on the buffer alone. *)
Definition on_wr {A} (m : WRBUF A) : WRITER A :=
  fun s => let? (a, b) := m s.2 in Some (a, (s.1, b)).
(** An operation on the handle alone. *)
Definition on_mt {A} (m : MARC A) : WRITER A :=
  fun s => let? (a, mt) := m s.1 in Some (a, (mt, s.2)).

(** An operation through the conversion of the handle. *)
Definition through {A}
    (f : option (yaz_iconv_struct D E) -> wrbuf -> option (A * option (yaz_iconv_struct D E) * wrbuf))
  : WRITER unit :=
  fun s => let? (_, cd, b) := f (iconv_cd s.1) s.2 in Some (tt, (set_iconv cd s.1, b)).

Definition iconv_write (buf : list Z) (size : Z) : WRITER unit :=
  through (fun cd b => wrbuf_iconv_write d e cd buf size b).
Definition iconv_puts (strz : list Z) : WRITER unit :=
  through (fun cd b => wrbuf_iconv_puts d e cd strz b).
Definition iconv_putchar (ch : Z) : WRITER unit :=
  through (fun cd b => wrbuf_iconv_putchar d e cd ch b).
Definition iconv_cdata (buf : list Z) (size : Z) : WRITER unit :=
  through (fun cd b => wrbuf_iconv_write_cdata d e cd buf size b).
Definition iconv_json_write (buf : list Z) (size : Z) : WRITER unit :=
  through (fun cd b => wrbuf_iconv_json_write d e cd buf size b).
Definition iconv_json_puts (strz : list Z) : WRITER unit :=
  through (fun cd b => wrbuf_iconv_json_puts d e cd strz b).
Definition marc_iconv_reset : WRITER unit :=
  through (fun cd b => let? (cd, b) := wrbuf_iconv_reset d e cd b in Some (tt, cd, b)).

(** A loop over a list in the order of the list. *)
Fixpoint each {S A} (f : A -> M S unit) (l : list A) : M S unit :=
  match l with
  | [] => ret tt
  | x :: l => f x ;; each f l
  end.

(** [%s] of a string in the memory [m]. *)
Definition puts_s (m : list Z) : WRITER unit :=
  let* s := lift (c_str m) in on_wr (wrbuf_printf s).

Fixpoint find_leader (ns : list node) : option (list Z) :=
  match ns with
  | [] => None
  | Leader l :: _ => Some l
  | _ :: ns => find_leader ns
  end.

Definition yaz_marc_write_check : WRITER Z :=
  let* mt := on_mt get in
  match find_leader (nodes mt) with
  | None => ret (-1)
  | Some leader =>
      let* (ok, _) := lift (atoi_n_check (drop 11 leader) 1 0) in
      if ok =? 0 then ret (-1)
      else
        each (fun n =>
          match n with
          | Comment c =>
              let* len := lift (strlen c) in
              iconv_write c len ;;
              on_wr (wrbuf_lit nl)
          | _ => ret tt
          end) (nodes mt) ;;
        ret 0
  end.

Definition get_subfield_len (data : list Z) (idl : Z) : WRITER Z :=
  if 2 <? idl then ret (idl - 1) else on_mt (cdata_one_character data).

Definition yaz_marc_write_line : WRITER Z :=
  let* mt := on_mt get in
  match find_leader (nodes mt) with
  | None => ret (-1)
  | Some leader =>
      let* (ok, idl) := lift (atoi_n_check (drop 11 leader) 1 0) in
      if ok =? 0 then ret (-1)
      else
        each (fun n =>
          match n with
          | Datafield t i ss =>
              let* ts := lift (c_str t) in
              let* is_ := lift (c_str i) in
              on_wr (wrbuf_printf (ts ++ str " " ++ is_)) ;;
              each (fun s =>
                let* using_code_len := get_subfield_len s idl in
                on_wr (wrbuf_puts (subfield_str mt)) ;;
                iconv_write s using_code_len ;;
                iconv_puts (str " " ++ [0]) ;;
                iconv_puts (drop (Z.to_nat using_code_len) s) ;;
                marc_iconv_reset) ss ;;
              on_wr (wrbuf_puts (endline_str mt))
          | Controlfield t v =>
              puts_s t ;;
              iconv_puts (str " " ++ [0]) ;;
              iconv_puts v ;;
              marc_iconv_reset ;;
              on_wr (wrbuf_puts (endline_str mt))
          | Comment c =>
              on_wr (wrbuf_lit (str "(")) ;;
              let* len := lift (strlen c) in
              iconv_write c len ;;
              marc_iconv_reset ;;
              on_wr (wrbuf_lit (str ")" ++ nl))
          | Leader l =>
              let* s := lift (c_str l) in
              on_wr (wrbuf_printf (s ++ nl))
          end) (nodes mt) ;;
        on_wr (wrbuf_lit nl) ;;
        ret 0
  end.

(** ** ISO 2709 *)

(** The last leader, which the loops without a [break] find. *)
Fixpoint last_leader (ns : list node) : option (list Z) :=
  match ns with
  | [] => None
  | Leader l :: ns => match last_leader ns with Some l' => Some l' | None => Some l end
  | _ :: ns => last_leader ns
  end.

(** [%0*d] of a number that is not negative *)
Definition fmt_0d (w n : Z) : list Z := repeat 48 (Z.to_nat w - length (fmt_d n)) ++ fmt_d n.
(** [%3.3s] *)
Definition fmt_33s (s : list Z) : list Z := repeat 32 (3 - length s) ++ take 3 s.

(** The octets a field takes, with its tag: the buffer is rewound and used to
    measure.  [None] inside for comments and leaders, which have no tag. *)
Definition measure_field (n : node) : WRITER (option (list Z * Z)) :=
  match n with
  | Datafield t i ss =>
      let* il := lift (strlen i) in
      on_wr wrbuf_rewind ;;
      each (fun s => iconv_putchar 32 ;; iconv_puts s ;; marc_iconv_reset) ss ;;
      iconv_putchar 32 ;;
      marc_iconv_reset ;;
      let* len := on_wr (gets wr_pos) in
      ret (Some (t, il + len))
  | Controlfield t v =>
      on_wr wrbuf_rewind ;;
      iconv_puts v ;;
      marc_iconv_reset ;;
      iconv_putchar 32 ;;
      marc_iconv_reset ;;
      let* len := on_wr (gets wr_pos) in
      ret (Some (t, len))
  | _ => ret None
  end.

(** The directory in [dir]; the nodes before [cap_node], at which it would get
    too large, and the offset after them.  The buffer is [wr_data_tmp]. *)
Fixpoint write_directory (ns : list node) (lde ls : Z) (dir : wrbuf) (data_offset : Z)
  : WRITER (wrbuf * list node * Z) :=
  match ns with
  | [] => ret (dir, [], data_offset)
  | n :: ns =>
      let* m := measure_field n in
      let next dir data_offset :=
        let* (dir, kept, off) := write_directory ns lde ls dir data_offset in
        ret (dir, n :: kept, off) in
      match m with
      | Some (tag, data_length) =>
          if negb (data_length =? 0) then
            if 99999 <? wr_pos dir + 40 + data_offset + data_length
            then ret (dir, [], data_offset)
            else
              let* t := lift (c_str tag) in
              let* (_, dir) := lift ((
                wrbuf_printf (fmt_33s t) ;;
                wrbuf_printf (fmt_0d lde data_length) ;;
                wrbuf_printf (fmt_0d ls data_offset)) dir) in
              next dir (data_offset + data_length)
          else next dir data_offset
      | None => next dir data_offset
      end
  end.

Definition write_field (n : node) : WRITER unit :=
  match n with
  | Datafield t i ss =>
      on_wr (wrbuf_puts i) ;;
      each (fun s => on_wr (wrbuf_putc ISO2709_IDFS) ;; iconv_puts s ;; marc_iconv_reset) ss ;;
      on_wr (wrbuf_putc ISO2709_FS)
  | Controlfield t v =>
      iconv_puts v ;;
      marc_iconv_reset ;;
      on_wr (wrbuf_putc ISO2709_FS)
  | _ => ret tt
  end.

(** Run an operation on another buffer. *)
Definition with_buf {A} (b : wrbuf) (m : WRITER A) : WRITER (A * wrbuf) :=
  fun s => let? (a, (mt, b')) := m (s.1, b) in Some ((a, b'), (mt, s.2)).

(** [atoi_n_check(leader + off, 1, &v)]: [None] inside when it fails. *)
Definition leader_digit (leader : list Z) (off : Z) : option (option Z) :=
  let? (ok, v) := atoi_n_check (drop (Z.to_nat off) leader) 1 0 in
  Some (if ok =? 0 then None else Some v).

Definition yaz_marc_write_iso2709 : WRITER Z :=
  let* mt := on_mt get in
  match last_leader (nodes mt) with
  | None => ret (-1)
  | Some leader =>
      let* o1 := lift (leader_digit leader 10) in
      match o1 with None => ret (-1) | Some _ =>
      let* o2 := lift (leader_digit leader 11) in
      match o2 with None => ret (-1) | Some _ =>
      let* o3 := lift (leader_digit leader 20) in
      match o3 with None => ret (-1) | Some lde =>
      let* o4 := lift (leader_digit leader 21) in
      match o4 with None => ret (-1) | Some ls =>
      let* o5 := lift (leader_digit leader 22) in
      match o5 with None => ret (-1) | Some _ =>
      let* wr_data_tmp := lift (wrbuf_alloc junk) in
      let* wr_dir := lift (wrbuf_alloc junk) in
      let* (wr_dir, kept, data_offset, _) :=
        with_buf wr_data_tmp (write_directory (nodes mt) lde ls wr_dir 0) in
      let* (_, wr_dir) := lift (wrbuf_putc ISO2709_FS wr_dir) in
      let base := 24 + wr_pos wr_dir in
      let* wr_head := lift (wrbuf_alloc junk) in
      let* (_, wr_head) := lift ((
        wrbuf_printf (fmt_0d 5 (base + data_offset + 1)) ;;
        wrbuf_write (drop 5 leader) 7 ;;
        wrbuf_printf (fmt_0d 5 base) ;;
        wrbuf_write (drop 17 leader) 7) wr_head) in
      on_wr (wrbuf_write (wr_buf wr_head) 24) ;;
      on_wr (wrbuf_write (wr_buf wr_dir) (wr_pos wr_dir)) ;;
      each write_field kept ;;
      on_wr (wrbuf_printf [ISO2709_RS]) ;;
      ret 0
      end end end end end
  end.
End marc.
