(* ===== verification/MarcIso.v ===== *)
(** * The exchange format of MARC records (marcdisp.c, marc_read_iso2709.c)

    The octets of a record in ISO 2709, declaratively, that
    [yaz_marc_write_iso2709] writes them, that [yaz_marc_read_iso2709] reads them
    back to the same fields, and that the reader stays inside its buffer. *)

From stdpp Require Import base list numbers option strings.
From Stdlib Require Import ZArith Lia.
From S2P Require Import Prelude Text MatchStr Atoi Iconv Utf8 Ucs4 Wrbuf WrbufIconv Marc.

(** ** Records *)

Inductive field :=
  | FControl (tag data : list Z)
  | FData (tag : list Z) (inds : list Z) (subs : list (list Z)).

(** A string in memory. *)
Definition cz (s : list Z) : list Z := s ++ [0].

Definition field_tag (f : field) : list Z :=
  match f with FControl t _ => t | FData t _ _ => t end.

(** The indicators are characters, in UTF-8. *)
Definition field_node (f : field) : node :=
  match f with
  | FControl t v => Controlfield (cz t) (cz v)
  | FData t inds subs => Datafield (cz t) (cz (utf8_text inds)) (map cz subs)
  end.

Definition subs_text (subs : list (list Z)) : list Z :=
  concat (map (cons ISO2709_IDFS) subs).

Definition field_data (f : field) : list Z :=
  match f with
  | FControl _ v => v
  | FData _ inds subs => utf8_text inds ++ subs_text subs
  end.
Definition field_bytes (f : field) : list Z := field_data f ++ [ISO2709_FS].

Fixpoint directory (lde ls off : Z) (fs : list field) : list Z :=
  match fs with
  | [] => []
  | f :: fs =>
      field_tag f ++ fmt_0d lde (zlen (field_bytes f)) ++ fmt_0d ls off ++
      directory lde ls (off + zlen (field_bytes f)) fs
  end.

Definition fields_text (fs : list field) : list Z := concat (map field_bytes fs).

(** The leader with the lengths of a record stored in it. *)
Definition leader_text (leader : list Z) (total base : Z) : list Z :=
  fmt_0d 5 total ++ take 7 (drop 5 leader) ++ fmt_0d 5 base ++ take 7 (drop 17 leader).

Definition record_base (lde ls : Z) (fs : list field) : Z := 24 + zlen (directory lde ls 0 fs) + 1.
Definition record_total (lde ls : Z) (fs : list field) : Z :=
  record_base lde ls fs + zlen (fields_text fs) + 1.

Definition iso2709 (leader : list Z) (lde ls : Z) (fs : list field) : list Z :=
  leader_text leader (record_total lde ls fs) (record_base lde ls fs) ++
  directory lde ls 0 fs ++ [ISO2709_FS] ++ fields_text fs ++ [ISO2709_RS].

(** ** Records that can be exchanged *)

(** An octet of the text of a field. *)
Definition data_octet (c : Z) : Prop := byte_ok c /\ c <> 0 /\ c <> 29 /\ c <> 30 /\ c <> 31.
Definition tag_octet (c : Z) : Prop := 32 < c < 127.

Definition sub_ok (s : list Z) : Prop :=
  Forall data_octet s /\ exists c r, s = c :: r /\ 32 < c.

(** [indl] is the indicator length of the leader.  A control field must be long
    enough that the test for subfields does not look beyond it. *)
Definition field_ok (indl : Z) (f : field) : Prop :=
  zlen (field_tag f) = 3 /\ Forall tag_octet (field_tag f) /\
  match f with
  | FControl t v => take 2 t = str "00" /\ Forall data_octet v /\ indl < zlen v
  | FData t inds subs => take 2 t <> str "00" /\ zlen inds = indl /\
      Forall (fun x => 0 < x < 0x200000) inds /\ Forall sub_ok subs
  end.

(** The numbers of the directory have the width the leader says. *)
Fixpoint fits (lde ls off : Z) (fs : list field) : Prop :=
  match fs with
  | [] => True
  | f :: fs => zlen (field_bytes f) < 10 ^ lde /\ off < 10 ^ ls /\
      fits lde ls (off + zlen (field_bytes f)) fs
  end.

Record leader_ok (leader : list Z) (indl lde ls : Z) : Prop := {
  lo_length : zlen leader = 24;
  lo_ascii : Forall (fun c => 32 <= c < 127) leader;
  lo_indicator : leader !! 10%nat = Some (48 + indl) /\ 1 <= indl <= 9;
  lo_identifier : exists n, leader !! 11%nat = Some (48 + n) /\ 1 <= n <= 9;
  lo_entry : leader !! 20%nat = Some (48 + lde) /\ 3 <= lde <= 9;
  lo_starting : leader !! 21%nat = Some (48 + ls) /\ 4 <= ls <= 9;
  lo_implementation : exists n, leader !! 22%nat = Some (48 + n) /\ 0 <= n <= 9;
}.

(** ** Numbers of a fixed width *)

Lemma dec_val_zeros k ds : dec_val 0 (repeat 48 k ++ ds) = dec_val 0 ds.
Proof. induction k; [done|]. simpl. done. Qed.

Lemma fmt_0d_spec w n : 1 <= w <= 20 -> 0 <= n < 10 ^ w ->
  digits_ok (fmt_0d w n) /\ zlen (fmt_0d w n) = w /\ dec_val 0 (fmt_0d w n) = n.
Proof.
  intros Hw Hn. destruct (fmt_d_spec n (Z.to_nat w)) as (Hd & _ & Hv & Hl);
    [rewrite Z2Nat.id by lia; done|lia|].
  unfold fmt_0d. split; [|split; [|by rewrite dec_val_zeros]].
  - apply Forall_app. split; [|done]. apply Forall_forall. intros x Hx.
    apply list_elem_of_In, repeat_spec in Hx. lia.
  - unfold zlen. rewrite length_app, repeat_length. lia.
Qed.

(** Such a number is read back. *)
Lemma fmt_0d_check w n rest v0 : 1 <= w <= 20 -> 0 <= n < 10 ^ w -> n <= INT_MAX ->
  atoi_n_check (fmt_0d w n ++ rest) w v0 = Some (1, n).
Proof.
  intros Hw Hn Hm. destruct (fmt_0d_spec w n Hw Hn) as (Hd & Hl & Hv).
  assert (radix 10 (map (fun c => c - 48) (fmt_0d w n)) = n) as Hr by (unfold radix; by rewrite dec_val_radix).
  rewrite <- Hl at 2. rewrite (atoi_n_check_spec _ _ rest v0 (digits_Forall2 _ Hd)); by rewrite Hr.
Qed.

(** ** Writing, without a conversion *)

Section writing.
Context {D E : Type} (d : yaz_iconv_decoder_s D) (e : yaz_iconv_encoder_s E) (junk : Z -> Z).
Implicit Types (mt : yaz_marc (D := D) (E := E)).

Lemma set_iconv_id mt : set_iconv (iconv_cd mt) mt = mt.
Proof. by destruct mt. Qed.

(** The operation leaves the handle alone and adds [bs] to the buffer. *)
Definition mwrites {A} mt (m : M (yaz_marc * wrbuf) A) (bs : list Z) : Prop :=
  forall b, wrbuf_ok b -> exists a b',
    m (mt, b) = Some (a, (mt, b')) /\ wrbuf_ok b' /\ contents b' = contents b ++ bs.

Lemma marc_writes_on_wr {A} mt (m : M wrbuf A) bs : appends m bs -> mwrites mt (on_wr m) bs.
Proof.
  intros H b Hb. destruct (H b Hb) as (a & b' & E1 & Hb' & Hc). exists a, b'.
  unfold on_wr. simpl. rewrite E1. done.
Qed.

Lemma marc_writes_bind {A B} mt (m : M _ A) (k : A -> M _ B) bs1 bs2 :
  mwrites mt m bs1 -> (forall a, mwrites mt (k a) bs2) -> mwrites mt (bind m k) (bs1 ++ bs2).
Proof.
  intros H1 H2 b Hb. destruct (H1 b Hb) as (a & b1 & E1 & Hb1 & Hc1).
  destruct (H2 a b1 Hb1) as (a2 & b2 & E2 & Hb2 & Hc2).
  exists a2, b2. rewrite (bind_Some _ _ _ _ _ E1). split; [done|]. split; [done|].
  by rewrite Hc2, Hc1, app_assoc.
Qed.

Lemma marc_writes_ret {A} mt (a : A) : mwrites mt (ret a) [].
Proof. intros b Hb. exists a, b. by rewrite app_nil_r. Qed.

Lemma marc_writes_each {A} mt (f : A -> M _ unit) (g : A -> list Z) l :
  (forall x, In x l -> mwrites mt (f x) (g x)) -> mwrites mt (each f l) (concat (map g l)).
Proof.
  induction l as [|x l IH]; intros H; [apply marc_writes_ret|]. cbn [each map concat].
  apply marc_writes_bind; [apply H; by left|]. intros _. apply IH. intros y Hy. apply H. by right.
Qed.

Lemma strlen_cz s : nonzero s -> strlen (cz s) = Some (zlen s).
Proof. apply strlen_spec. Qed.

Lemma c_str_cz s : nonzero s -> c_str (cz s) = Some s.
Proof. intros H. unfold c_str. rewrite strlen_cz by done. apply sub_all. Qed.

Lemma strdup_cz s : nonzero s -> strdup (cz s) = Some (cz s).
Proof.
  intros H. unfold strdup, strdupn. rewrite strlen_cz by done. cbn [mbind option_bind]. unfold cz.
  by rewrite sub_all.
Qed.

Section no_conversion.
Context (mt : yaz_marc (D := D) (E := E)) (Hcd : iconv_cd mt = None).

Lemma writes_iconv_puts s : nonzero s -> mwrites mt (iconv_puts d e (cz s)) s.
Proof.
  intros Hs b Hb. destruct (appends_write (cz s) (zlen s) s (sub_all s [0]) b Hb) as ([] & b' & E1 & Hb' & Hc).
  exists tt, b'. unfold iconv_puts, through, wrbuf_iconv_puts. rewrite strlen_cz by done. simpl.
  rewrite Hcd. unfold wrbuf_iconv_write, wrbuf_iconv_write2. rewrite E1. simpl.
  rewrite <- Hcd, set_iconv_id. done.
Qed.

Lemma writes_iconv_putchar c : byte_ok c -> mwrites mt (iconv_putchar d e c) [c].
Proof.
  intros Hc b Hb. destruct (appends_write [c] 1 [c] eq_refl b Hb) as ([] & b' & E1 & Hb' & Hcon).
  exists tt, b'. unfold iconv_putchar, through, wrbuf_iconv_putchar. simpl. rewrite Hcd, u8_small by exact Hc.
  unfold wrbuf_iconv_write, wrbuf_iconv_write2. rewrite E1. simpl. rewrite <- Hcd, set_iconv_id. done.
Qed.

Lemma writes_iconv_reset : mwrites mt (marc_iconv_reset d e) [].
Proof.
  intros b Hb. exists tt, b. unfold marc_iconv_reset, through. simpl. rewrite Hcd. simpl.
  rewrite <- Hcd, set_iconv_id, app_nil_r. done.
Qed.

(** ** The writer of fields *)

Lemma data_nonzero v : Forall data_octet v -> nonzero v.
Proof. intros H. eapply Forall_impl; [exact H|]. by intros c (_ & Hc & _). Qed.

Lemma tag_nonzero t : Forall tag_octet t -> nonzero t.
Proof. intros H. eapply Forall_impl; [exact H|]. unfold tag_octet. simpl. lia. Qed.

Lemma inds_nonzero inds : Forall (fun x => 0 < x < 0x200000) inds -> nonzero (utf8_text inds).
Proof.
  assert (forall x, 0 < x -> nonzero (utf8 x)) as Hu.
  { intros x Hx. assert (forall lead k, 0 < lead -> nonzero (utf8_form lead x k)) as Hf.
    { intros lead k Hl. constructor.
      - assert (0 <= x / 64 ^ Z.of_nat k) by (apply Z.div_pos; lia). lia.
      - eapply Forall_impl; [apply utf8_tail_ok|]. unfold cont_ok. simpl. lia. }
    unfold utf8. repeat destruct (_ <? _); [constructor; [lia|constructor]|apply Hf; lia..]. }
  induction 1 as [|x inds Hx _ IH]; [constructor|]. apply Forall_app. split; [apply Hu; lia|done].
Qed.

Lemma zlen_seps c c' (subs : list (list Z)) :
  zlen (concat (map (cons c) subs)) = zlen (concat (map (cons c') subs)).
Proof. induction subs as [|s subs IH]; [done|]. simpl. autorewrite with zlen. lia. Qed.

Lemma subs_nonzero subs : Forall sub_ok subs -> Forall nonzero subs.
Proof. intros H. eapply Forall_impl; [exact H|]. intros s [Hs _]. by apply data_nonzero. Qed.

(** The loop over subfields, with the separator that [sep] writes. *)
Lemma writes_subs (sep : M _ unit) c subs : mwrites mt sep [c] -> Forall nonzero subs ->
  mwrites mt (each (fun s => sep ;; iconv_puts d e s ;; marc_iconv_reset d e) (map cz subs))
    (concat (map (cons c) subs)).
Proof.
  intros Hsep H. replace (map (cons c) subs) with (map (fun m => c :: removelast m) (map cz subs)).
  - apply marc_writes_each. intros m (s & <- & Hs)%in_map_iff. rewrite List.Forall_forall in H.
    unfold cz. rewrite removelast_last. apply (marc_writes_bind mt _ _ [c]); [done|]. intros _.
    rewrite <- (app_nil_r s) at 2. apply marc_writes_bind; [by apply writes_iconv_puts, H|].
    intros _. apply writes_iconv_reset.
  - rewrite map_map. apply map_ext. intros s. unfold cz. by rewrite removelast_last.
Qed.

Lemma field_writes indl f : field_ok indl f -> mwrites mt (write_field d e (field_node f)) (field_bytes f).
Proof.
  intros (_ & Ht & H). destruct f as [t v|t inds subs]; simpl in *.
  - destruct H as (_ & Hv & _). unfold field_bytes; simpl.
    apply marc_writes_bind; [by apply writes_iconv_puts, data_nonzero|]. intros _.
    apply (marc_writes_bind mt _ _ []); [apply writes_iconv_reset|]. intros _.
    apply marc_writes_on_wr, appends_putc.
  - destruct H as (_ & _ & Hi & Hs). unfold field_bytes; simpl. rewrite <- app_assoc.
    apply marc_writes_bind; [by apply marc_writes_on_wr, appends_puts, inds_nonzero|]. intros _.
    apply marc_writes_bind; [|intros _; apply marc_writes_on_wr, appends_putc].
    apply writes_subs; [apply marc_writes_on_wr, appends_putc|by apply subs_nonzero].
Qed.

(** What is measured is the length of the contents at the end. *)
Definition measures {A} (g : Z -> A) (m : M (yaz_marc * wrbuf) A) (bs : list Z) : Prop :=
  forall b, wrbuf_ok b -> exists b',
    m (mt, b) = Some (g (zlen (contents b) + zlen bs), (mt, b')) /\ wrbuf_ok b'.

Lemma measures_end {A} (g : Z -> A) : measures g (let* len := on_wr (gets wr_pos) in ret (g len)) [].
Proof.
  intros b Hb. exists b. rewrite contents_length, Z.add_0_r by done. done.
Qed.

Lemma measures_step {A B} (g : Z -> A) (m1 : M _ B) m2 bs1 bs2 :
  mwrites mt m1 bs1 -> measures g m2 bs2 -> measures g (m1 ;; m2) (bs1 ++ bs2).
Proof.
  intros H1 H2 b Hb. destruct (H1 b Hb) as (a & b1 & E1 & Hb1 & Hc1).
  destruct (H2 b1 Hb1) as (b2 & E2 & Hb2). exists b2. rewrite (bind_Some _ _ _ _ _ E1), E2.
  split; [|done]. do 3 f_equal. rewrite Hc1, !zlen_app. lia.
Qed.

Lemma measures_rewind {A} (g : Z -> A) m bs b : measures g m bs -> wrbuf_ok b ->
  exists b', (on_wr wrbuf_rewind ;; m) (mt, b) = Some (g (zlen bs), (mt, b')) /\ wrbuf_ok b'.
Proof.
  intros H Hb. destruct (changes_rewind b Hb) as ([] & b0 & E0 & Hb0 & Hc0).
  destruct (H b0 Hb0) as (b' & E1 & Hb'). exists b'. rewrite Hc0 in E1.
  assert (on_wr wrbuf_rewind (mt, b) = Some (tt, (mt, b0))) as Er by (unfold on_wr; cbn [snd fst]; by rewrite E0).
  rewrite (bind_Some _ _ _ _ _ Er), E1. done.
Qed.

(** Measuring gives the same length. *)
Lemma field_measure indl f b : field_ok indl f -> wrbuf_ok b ->
  exists b', measure_field d e (field_node f) (mt, b) =
    Some (Some (cz (field_tag f), zlen (field_bytes f)), (mt, b')) /\ wrbuf_ok b'.
Proof.
  intros (_ & Ht & H) Hb. destruct f as [t v|t inds subs]; cbn [field_node measure_field field_tag] in *.
  - destruct H as (_ & Hv & _).
    assert (zlen (field_bytes (FControl t v)) = zlen (v ++ [] ++ [32] ++ [] ++ [])) as -> by (unfold field_bytes; simpl; zl).
    apply (measures_rewind (fun len => Some (cz t, len))); [|done].
    apply measures_step; [by apply writes_iconv_puts, data_nonzero|].
    apply measures_step; [apply writes_iconv_reset|].
    apply measures_step; [by apply writes_iconv_putchar|].
    apply measures_step; [apply writes_iconv_reset|]. apply measures_end.
  - destruct H as (_ & _ & Hi & Hs). rewrite strlen_cz by by apply inds_nonzero. mrun.
    assert (zlen (field_bytes (FData t inds subs)) =
      zlen (utf8_text inds) + zlen (concat (map (cons 32) subs) ++ [32] ++ [] ++ [])) as ->.
    { unfold field_bytes. simpl. autorewrite with zlen.
      unfold subs_text. rewrite (zlen_seps ISO2709_IDFS 32). lia. }
    apply (measures_rewind (fun len => Some (cz t, zlen (utf8_text inds) + len))); [|done].
    apply measures_step; [apply writes_subs; [by apply writes_iconv_putchar|by apply subs_nonzero]|].
    apply measures_step; [by apply writes_iconv_putchar|].
    apply measures_step; [apply writes_iconv_reset|]. apply measures_end.
Qed.

(** ** The directory *)

Lemma appends_printf t : nonzero t -> zlen t <= 4094 -> appends (wrbuf_printf t) t.
Proof.
  intros Hn Hl. unfold wrbuf_printf. rewrite take_ge by (unfold zlen in Hl; lia). by apply appends_lit.
Qed.

Lemma appends_fmt_0d w n : 1 <= w <= 20 -> 0 <= n < 10 ^ w -> appends (wrbuf_printf (fmt_0d w n)) (fmt_0d w n).
Proof.
  intros Hw Hn. destruct (fmt_0d_spec w n Hw Hn) as (Hd & Hl & _).
  apply appends_printf; [by apply digits_nonzero|lia].
Qed.

Lemma fmt_33s_3 t : zlen t = 3 -> fmt_33s t = t.
Proof.
  unfold zlen. intros H. unfold fmt_33s. replace (3 - length t)%nat with 0%nat by lia. simpl.
  apply take_ge. lia.
Qed.

Lemma zlen_field_bytes f : 1 <= zlen (field_bytes f).
Proof. unfold field_bytes. pose proof (zlen_nonneg (field_data f)). zl. Qed.

Lemma zlen_fields_cons f fs : zlen (fields_text (f :: fs)) = zlen (field_bytes f) + zlen (fields_text fs).
Proof. unfold fields_text. simpl. zl. Qed.

Lemma directory_written indl lde ls fs : 3 <= lde <= 9 -> 4 <= ls <= 9 -> Forall (field_ok indl) fs ->
  forall dir b off, fits lde ls off fs -> 0 <= off -> wrbuf_ok dir -> wrbuf_ok b ->
  zlen (contents dir) + zlen (directory lde ls off fs) + 40 + off + zlen (fields_text fs) <= 99999 ->
  exists dir' b', write_directory d e (map field_node fs) lde ls dir off (mt, b) =
      Some ((dir', map field_node fs, off + zlen (fields_text fs)), (mt, b')) /\
    wrbuf_ok dir' /\ contents dir' = contents dir ++ directory lde ls off fs /\ wrbuf_ok b'.
Proof.
  intros Hlde Hls. induction 1 as [|f fs Hf Hfs IH]; intros dir b off Hfit Hoff Hdir Hb Hsz.
  { exists dir, b. cbn [map write_directory directory]. rewrite app_nil_r, Z.add_0_r. done. }
  cbn [map write_directory directory] in *. destruct Hfit as (Hf1 & Hf2 & Hfit). rewrite zlen_fields_cons in *.
  pose proof (zlen_field_bytes f) as Hfb. pose proof (zlen_nonneg (fields_text fs)).
  autorewrite with zlen in Hsz. destruct Hf as (Ht3 & Htag & Hrest).
  destruct (field_measure indl f b) as (b1 & E1 & Hb1); [by repeat split|done|].
  rewrite (bind_Some _ _ _ _ _ E1). cbn iota. rewrite (proj2 (Z.eqb_neq _ 0)) by lia. cbn [negb].
  destruct (fmt_0d_spec lde (zlen (field_bytes f))) as (_ & Hl1 & _); [lia..|].
  destruct (fmt_0d_spec ls off) as (_ & Hl2 & _); [lia..|].
  pose proof (zlen_nonneg (directory lde ls (off + zlen (field_bytes f)) fs)).
  rewrite <- (contents_length dir Hdir), (proj2 (Z.ltb_ge 99999 _)) by lia.
  rewrite c_str_cz by by apply tag_nonzero. mrun. rewrite fmt_33s_3 by done.
  assert (appends (wrbuf_printf (field_tag f) ;; wrbuf_printf (fmt_0d lde (zlen (field_bytes f))) ;;
    wrbuf_printf (fmt_0d ls off)) (field_tag f ++ fmt_0d lde (zlen (field_bytes f)) ++ fmt_0d ls off)) as Ha.
  { apply appends_bind; [apply appends_printf; [by apply tag_nonzero|lia]|]. intros _.
    apply appends_bind; [apply appends_fmt_0d; lia|]. intros _. apply appends_fmt_0d; lia. }
  destruct (Ha dir Hdir) as ([] & dir1 & E2 & Hdir1 & Hc1). rewrite E2. mrun.
  destruct (IH dir1 b1 (off + zlen (field_bytes f))) as (dir2 & b2 & E3 & Hd2 & Hc2 & Hb2); [done|lia|done|done| |].
  { rewrite Hc1. autorewrite with zlen. lia. }
  rewrite (bind_Some _ _ _ _ _ E3). exists dir2, b2. split; [unfold ret; do 3 f_equal; lia|].
  split; [done|]. split; [|done]. rewrite Hc2, Hc1, <- !app_assoc. done.
Qed.

(** ** The whole record *)

Lemma digit_at l k n rest : l !! k = Some (48 + n) -> 0 <= n <= 9 ->
  atoi_n_check (drop k (l ++ rest)) 1 0 = Some (1, n).
Proof.
  intros Hk Hn. rewrite (drop_S (l ++ rest) (48 + n) k) by (by apply lookup_app_l_Some).
  pose proof (atoi_n_check_spec [48 + n] [n] (drop (S k) (l ++ rest)) 0) as H.
  change (zlen [48 + n]) with 1 in H. unfold radix in H. simpl in H. apply H; [|unfold INT_MAX; lia].
  constructor; [|constructor]. unfold is_digit, digit_value. rewrite isdigit_true by lia.
  split; [f_equal; lia|lia].
Qed.

Lemma leader_digit_cz leader k n : leader !! Z.to_nat k = Some (48 + n) -> 0 <= n <= 9 ->
  leader_digit (cz leader) k = Some (Some n).
Proof. intros H Hn. unfold leader_digit, cz. by rewrite (digit_at _ _ n). Qed.

Lemma sub_leader leader k : zlen leader = 24 -> (k <= 17)%nat ->
  sub (drop k (cz leader)) 0 7 = Some (take 7 (drop k leader)).
Proof.
  intros Hl Hk. unfold cz, zlen in *. rewrite sub_spec by (unfold zlen; rewrite ?length_drop, ?length_app; simpl; lia).
  simpl. rewrite drop_0, drop_app_le by lia. f_equal. apply take_app_le. rewrite length_drop. lia.
Qed.

Lemma sub_contents b : wrbuf_ok b -> sub (wr_buf b) 0 (zlen (contents b)) = Some (contents b).
Proof.
  intros Hb. pose proof Hb as [H1 H2 H3]. rewrite contents_length by done.
  rewrite sub_spec by lia. done.
Qed.

Lemma head_appends leader total base : zlen leader = 24 -> 0 <= total < 10 ^ 5 -> 0 <= base < 10 ^ 5 ->
  appends (wrbuf_printf (fmt_0d 5 total) ;; wrbuf_write (drop 5 (cz leader)) 7 ;;
    wrbuf_printf (fmt_0d 5 base) ;; wrbuf_write (drop 17 (cz leader)) 7) (leader_text leader total base).
Proof.
  intros Hl Ht Hb. unfold leader_text.
  apply appends_bind; [by apply appends_fmt_0d|]. intros _.
  apply appends_bind; [apply appends_write, sub_leader; [done|lia]|]. intros _.
  apply appends_bind; [by apply appends_fmt_0d|]. intros _. apply appends_write, sub_leader; [done|lia].
Qed.

Lemma zlen_leader_text leader total base : zlen leader = 24 -> 0 <= total < 10 ^ 5 -> 0 <= base < 10 ^ 5 ->
  zlen (leader_text leader total base) = 24.
Proof.
  intros Hl Ht Hb. destruct (fmt_0d_spec 5 total) as (_ & H1 & _); [lia..|].
  destruct (fmt_0d_spec 5 base) as (_ & H2 & _); [lia..|]. unfold leader_text. autorewrite with zlen.
  rewrite H1, H2. unfold zlen in *. rewrite !length_take, !length_drop. lia.
Qed.

Lemma no_leader fs : last_leader (map field_node fs) = None.
Proof. induction fs as [|[]]; done. Qed.

Lemma record_bounds lde ls fs : record_total lde ls fs <= 99985 ->
  0 <= record_base lde ls fs < 10 ^ 5 /\ 0 <= record_total lde ls fs < 10 ^ 5 /\
  record_base lde ls fs < record_total lde ls fs.
Proof.
  unfold record_total, record_base. pose proof (zlen_nonneg (directory lde ls 0 fs)).
  pose proof (zlen_nonneg (fields_text fs)). lia.
Qed.

Lemma iso2709_written leader indl lde ls fs : nodes mt = Leader (cz leader) :: map field_node fs ->
  leader_ok leader indl lde ls -> Forall (field_ok indl) fs -> fits lde ls 0 fs ->
  record_total lde ls fs <= 99985 ->
  forall b, wrbuf_ok b -> exists b', yaz_marc_write_iso2709 d e junk (mt, b) = Some (0, (mt, b')) /\
    wrbuf_ok b' /\ contents b' = contents b ++ iso2709 leader lde ls fs.
Proof.
  intros Hns [Hlen Hasc [Hi1 Hi2] (idl & Hd1 & Hd2) [He1 He2] [Hs1 Hs2] (li & Hm1 & Hm2)] Hfs Hfit Htot b Hb.
  destruct (record_bounds lde ls fs Htot) as (Hbase & Htotal & _).
  unfold yaz_marc_write_iso2709, on_mt. unfold bind at 1. cbn [get fst snd mbind option_bind].
  rewrite Hns. cbn [last_leader]. rewrite no_leader. cbn iota.
  rewrite (leader_digit_cz leader 10 indl), (leader_digit_cz leader 11 idl), (leader_digit_cz leader 20 lde),
    (leader_digit_cz leader 21 ls), (leader_digit_cz leader 22 li) by (done || lia). mrun.
  destruct (wrbuf_alloc_spec junk) as (b0 & E0 & Hb0 & Hc0). rewrite E0. mrun.
  (* the directory *)
  destruct (directory_written indl lde ls fs He2 Hs2 Hfs b0 b0 0 Hfit ltac:(lia) Hb0 Hb0) as
    (dir & tmp & E1 & Hdir & Hcdir & Htmp).
  { rewrite Hc0. unfold record_total, record_base in Htot. rewrite zlen_nil. lia. }
  rewrite (bind_Some _ _ _ (dir, Leader (cz leader) :: map field_node fs, zlen (fields_text fs), tmp) (mt, b)).
  2: { unfold with_buf. cbn [fst snd write_directory measure_field]. mrun. unfold bind. by rewrite E1. }
  destruct (appends_putc ISO2709_FS dir Hdir) as ([] & dir2 & E2 & Hdir2 & Hcdir2). rewrite E2. mrun.
  assert (contents dir2 = directory lde ls 0 fs ++ [ISO2709_FS]) as Hc2 by (by rewrite Hcdir2, Hcdir, Hc0).
  assert (24 + wr_pos dir2 = record_base lde ls fs) as Eb.
  { rewrite <- (contents_length dir2 Hdir2), Hc2. unfold record_base. zl. }
  rewrite Eb. fold (record_total lde ls fs). mrun.
  destruct (head_appends leader _ _ Hlen Htotal Hbase b0 Hb0) as ([] & hd & E3 & Hhd & Hchd).
  rewrite E3. mrun. rewrite Hc0 in Hchd. cbn [app] in Hchd.
  pose proof (zlen_leader_text leader _ _ Hlen Htotal Hbase) as Hl24.
  assert (mwrites mt (on_wr (wrbuf_write (wr_buf hd) 24) ;; on_wr (wrbuf_write (wr_buf dir2) (wr_pos dir2)) ;;
    each (write_field d e) (Leader (cz leader) :: map field_node fs) ;; on_wr (wrbuf_printf [ISO2709_RS]) ;; ret 0)
    (contents hd ++ contents dir2 ++ fields_text fs ++ [ISO2709_RS] ++ [])) as Hw.
  { apply marc_writes_bind; [|intros _]. { apply marc_writes_on_wr, appends_write.
      rewrite <- Hl24, <- Hchd. by apply sub_contents. }
    apply marc_writes_bind; [|intros _]. { apply marc_writes_on_wr, appends_write.
      rewrite <- (contents_length dir2 Hdir2). by apply sub_contents. }
    apply marc_writes_bind; [|intros _].
    { cbn [each write_field]. apply (marc_writes_bind mt _ _ []); [apply marc_writes_ret|intros _].
      clear -Hfs Hcd. unfold fields_text. induction Hfs as [|f fs Hf _ IH]; [apply marc_writes_ret|].
      cbn [map each concat]. apply marc_writes_bind; [by eapply field_writes|by intros _]. }
    apply marc_writes_bind; [apply marc_writes_on_wr, appends_printf; [by repeat constructor|done]|].
    intros _. apply marc_writes_ret. }
  destruct (Hw b Hb) as (r & b' & E4 & Hb' & Hc'). exists b'. split; [|split; [done|]].
  - rewrite E4. do 2 f_equal. clear -E4. unfold bind in E4.
    repeat match type of E4 with match ?x with _ => _ end = _ => destruct x as [[]|]; [|done] end.
    by injection E4.
  - rewrite Hc', Hchd, Hc2. unfold iso2709. rewrite <- !app_assoc. done.
Qed.
End no_conversion.
End writing.

(** ** Reading, without a conversion and without debugging *)

Lemma drop_pre (pre x : list Z) : drop (Z.to_nat (zlen pre)) (pre ++ x) = x.
Proof. unfold zlen. rewrite Nat2Z.id. apply drop_app_length. Qed.

Lemma rd_pre (pre : list Z) c x : rd (pre ++ c :: x) (zlen pre) = Some c.
Proof. rewrite <- (Z.add_0_r (zlen pre)). by rewrite rd_app_r. Qed.

Lemma in_field_data c : data_octet c -> in_field c = true /\ (c =? ISO2709_IDFS) = false.
Proof.
  intros (_ & _ & H1 & H2 & H3). unfold in_field, ISO2709_RS, ISO2709_FS, ISO2709_IDFS.
  by rewrite (proj2 (Z.eqb_neq c 29)), (proj2 (Z.eqb_neq c 30)), (proj2 (Z.eqb_neq c 31)).
Qed.

Section reading.
Context {D E : Type} (d : yaz_iconv_decoder_s D) (e : yaz_iconv_encoder_s E) (junk : Z -> Z).
Context (mt : yaz_marc (D := D) (E := E)).
Context (Hdbg : debug mt = 0) (Hspec : leader_spec mt = None) (Hcd : iconv_cd mt = None).

(** The handle with the nodes read so far. *)
Definition st (ns : list node) : yaz_marc := set_nodes ns mt.

Lemma add_node_st n ns : yaz_marc_add_node n (st ns) = Some (tt, st (ns ++ [n])).
Proof. done. Qed.

Lemma strdupn_at s rest : strdupn (s ++ rest) (zlen s) = Some (cz s).
Proof. unfold strdupn. by rewrite sub_all. Qed.

Lemma add_controlfield_st t v rest ns : nonzero t ->
  yaz_marc_add_controlfield (cz t) (v ++ rest) (zlen v) (st ns) =
    Some (tt, st (ns ++ [Controlfield (cz t) (cz v)])).
Proof.
  intros Ht. unfold yaz_marc_add_controlfield. rewrite strdup_cz by done. mrun. rewrite strdupn_at. mrun.
  rewrite (bind_Some _ _ _ _ _ (add_node_st _ _)). mrun. change (debug (st _)) with (debug mt).
  by rewrite Hdbg.
Qed.

Lemma add_datafield_st t i rest ns : nonzero t ->
  yaz_marc_add_datafield (cz t) (i ++ rest) (zlen i) (st ns) =
    Some (tt, st (ns ++ [Datafield (cz t) (cz i) []])).
Proof.
  intros Ht. unfold yaz_marc_add_datafield. rewrite strdup_cz by done. mrun. rewrite strdupn_at. mrun. done.
Qed.

Lemma add_to_last_snoc s t i ss ns :
  add_to_last s (ns ++ [Datafield t i ss]) = Some (ns ++ [Datafield t i (ss ++ [s])]).
Proof. induction ns as [|n ns IH]; [done|]. simpl. by rewrite IH. Qed.

Lemma add_subfield_st s rest t i ss ns :
  yaz_marc_add_subfield (s ++ rest) (zlen s) (st (ns ++ [Datafield t i ss])) =
    Some (tt, st (ns ++ [Datafield t i (ss ++ [cz s])])).
Proof.
  unfold yaz_marc_add_subfield. mrun. change (debug (st _)) with (debug mt). rewrite Hdbg.
  rewrite (bind_Some _ _ _ tt (st (ns ++ [Datafield t i ss]))) by done. mrun.
  change (nodes (st ?x)) with x. rewrite !add_to_last_snoc. rewrite strdupn_at. mrun.
  rewrite add_to_last_snoc. mrun. done.
Qed.

Lemma sizeof_char_st x rest ns : 0 < x < 0x200000 ->
  yaz_marc_sizeof_char d e (utf8 x ++ rest) (st ns) = Some (zlen (utf8 x), st ns).
Proof.
  intros Hx. unfold yaz_marc_sizeof_char, cdata_one_character. mrun. change (iconv_cd (st _)) with (iconv_cd mt).
  rewrite Hcd. rewrite read_UTF8_ok; [|lia|].
  - mrun. pose proof (utf8_length x). rewrite (proj2 (Z.ltb_lt 0 _)) by lia. done.
  - unfold utf8. rewrite (proj2 (Z.ltb_lt x 0x200000)) by lia.
    repeat destruct (_ <? _); rewrite ?zlen_utf8_form; unfold zlen; simpl; lia.
Qed.

Lemma skip_indicators_st inds : forall pre more ns, Forall (fun x => 0 < x < 0x200000) inds ->
  skip_indicators d e (length inds) (pre ++ utf8_text inds ++ more) (zlen pre) (st ns) =
    Some (zlen pre + zlen (utf8_text inds), st ns).
Proof.
  induction inds as [|x inds IH]; intros pre more ns H.
  { simpl. unfold ret. do 2 f_equal. unfold utf8_text. zl. }
  apply Forall_cons_1 in H as [Hx H]. cbn [length skip_indicators]. rewrite drop_pre.
  unfold utf8_text in *. cbn [map concat]. rewrite <- app_assoc.
  rewrite (bind_Some _ _ _ _ _ (sizeof_char_st x _ ns Hx)), app_assoc, <- zlen_app.
  rewrite IH by done. do 2 f_equal. zl.
Qed.

(** Text of a subfield is passed over. *)
Lemma subfield_text en co s : forall pre more fuel, Forall data_octet s ->
  zlen pre + zlen s <= en -> (Z.to_nat (en - zlen pre) < fuel)%nat ->
  exists fuel', (Z.to_nat (en - zlen (pre ++ s)) < fuel')%nat /\ forall mt',
    read_subfields fuel (pre ++ s ++ more) en co (zlen pre) mt' =
    read_subfields fuel' (pre ++ s ++ more) en co (zlen (pre ++ s)) (mt' : yaz_marc (D := D) (E := E)).
Proof.
  induction s as [|c s IH]; intros pre more fuel Hs Hl Hf.
  { exists fuel. by rewrite app_nil_r. }
  apply Forall_cons_1 in Hs as [Hc Hs]. rewrite zlen_cons in Hl. pose proof (zlen_nonneg s).
  destruct fuel as [|fuel]; [lia|].
  destruct (IH (pre ++ [c]) more fuel Hs) as (fuel' & Hf' & Heq); [zl..|].
  assert (forall x, pre ++ (c :: s) ++ x = (pre ++ [c]) ++ s ++ x) as Ea by (intros; rewrite <- app_assoc; done).
  exists fuel'. replace (pre ++ c :: s) with ((pre ++ [c]) ++ s) by (rewrite <- app_assoc; done).
  split; [done|]. intros mt'. rewrite Ea, <- Heq. cbn [read_subfields]. rewrite (proj2 (Z.ltb_lt _ en)) by lia.
  rewrite <- Ea. cbn [app]. rewrite rd_pre. mrun. destruct (in_field_data c Hc) as [-> ->]. cbn [andb].
  by replace (zlen (pre ++ [c])) with (zlen pre + 1) by zl.
Qed.

(** At the separator before a subfield. *)
Lemma separator_step en co pre c more fuel (mt' : yaz_marc (D := D) (E := E)) :
  byte_ok c -> 32 < c -> zlen pre < en - 1 ->
  read_subfields (S fuel) (pre ++ ISO2709_IDFS :: c :: more) en co (zlen pre) mt' =
  ((if co <? zlen pre
    then yaz_marc_add_subfield (drop (Z.to_nat co) (pre ++ ISO2709_IDFS :: c :: more)) (zlen pre - co)
    else ret tt) ;;
   read_subfields fuel (pre ++ ISO2709_IDFS :: c :: more) en (zlen pre + 1) (zlen pre + 1)) mt'.
Proof.
  intros Hcb Hc Hen. cbn [read_subfields]. rewrite (proj2 (Z.ltb_lt _ en)) by lia. rewrite rd_pre. mrun.
  change (in_field ISO2709_IDFS) with true. rewrite Z.eqb_refl, (proj2 (Z.ltb_lt _ (en - 1))) by lia. cbn [andb].
  assert (rd (pre ++ ISO2709_IDFS :: c :: more) (zlen pre + 1) = Some c) as ->.
  { change (pre ++ ISO2709_IDFS :: c :: more) with (pre ++ [ISO2709_IDFS] ++ c :: more). rewrite app_assoc.
    replace (zlen pre + 1) with (zlen (pre ++ [ISO2709_IDFS])) by zl. apply rd_pre. }
  mrun. rewrite s8_byte by done. unfold byte_ok in Hcb.
  assert ((0 <=? (if c <? 128 then c else c - 256)) && ((if c <? 128 then c else c - 256) <=? 32) = false) as ->.
  { destruct (Z.ltb_spec c 128).
    - rewrite (proj2 (Z.leb_gt c 32)) by lia. apply andb_false_r.
    - by rewrite (proj2 (Z.leb_gt 0 _)) by lia. }
  done.
Qed.

(** A subfield [p] that is being read, and those after it. *)
Lemma subfields_pending subs : forall pre p more ns t i ss fuel, Forall sub_ok subs -> p <> [] ->
  let en := zlen (pre ++ p ++ subs_text subs) in
  (Z.to_nat (en - zlen (pre ++ p)) < fuel)%nat ->
  read_subfields fuel (pre ++ p ++ subs_text subs ++ ISO2709_FS :: more) en (zlen pre) (zlen (pre ++ p))
    (st (ns ++ [Datafield t i ss])) = Some (en, st (ns ++ [Datafield t i (ss ++ map cz (p :: subs))])).
Proof.
  induction subs as [|s subs IH]; intros pre p more ns t i ss fuel Hsubs Hp en Hf;
    (destruct fuel as [|fuel]; [lia|]); pose proof (zlen_pos p Hp) as Hp1.
  - assert (zlen (pre ++ p) = en) as Een by (unfold en, subs_text; simpl; rewrite app_nil_r; done).
    cbn [read_subfields]. rewrite (proj2 (Z.ltb_ge _ en)), (proj2 (Z.ltb_lt (zlen pre) _)) by zl.
    replace (zlen (pre ++ p) - zlen pre) with (zlen p) by zl. rewrite drop_pre.
    rewrite (bind_Some _ _ _ _ _ (add_subfield_st _ _ _ _ _ _)). unfold ret. by rewrite Een.
  - apply Forall_cons_1 in Hsubs as [[Hs (c & r & -> & Hc)] Hsubs].
    set (s := c :: r) in *.
    assert (subs_text (s :: subs) = ISO2709_IDFS :: s ++ subs_text subs) as Est by done.
    assert (zlen (pre ++ p) + 1 + zlen s + zlen (subs_text subs) = en) as Een by (unfold en; rewrite Est; zl).
    assert (1 <= zlen s) as Hs1 by (by apply zlen_pos). pose proof (zlen_nonneg (subs_text subs)).
    replace (pre ++ p ++ subs_text (s :: subs) ++ ISO2709_FS :: more)
      with ((pre ++ p) ++ [ISO2709_IDFS] ++ s ++ subs_text subs ++ ISO2709_FS :: more)
      by (rewrite Est, <- app_assoc; cbn [app]; rewrite <- app_assoc; done).
    pose proof (separator_step en (zlen pre) (pre ++ p) c (r ++ subs_text subs ++ ISO2709_FS :: more) fuel
      (st (ns ++ [Datafield t i ss]))) as Estep.
    change (ISO2709_IDFS :: c :: r ++ subs_text subs ++ ISO2709_FS :: more)
      with ([ISO2709_IDFS] ++ s ++ subs_text subs ++ ISO2709_FS :: more) in Estep.
    rewrite Estep; [|apply Forall_cons_1 in Hs as [[]]; done|done|lia].
    rewrite (proj2 (Z.ltb_lt (zlen pre) _)) by zl. replace (zlen (pre ++ p) - zlen pre) with (zlen p) by zl.
    rewrite <- (app_assoc pre p) at 1. rewrite drop_pre.
    rewrite (bind_Some _ _ _ _ _ (add_subfield_st _ _ _ _ _ _)).
    rewrite (app_assoc (pre ++ p)). replace (zlen (pre ++ p) + 1) with (zlen ((pre ++ p) ++ [ISO2709_IDFS])) by zl.
    destruct (subfield_text en (zlen ((pre ++ p) ++ [ISO2709_IDFS])) s ((pre ++ p) ++ [ISO2709_IDFS])
      (subs_text subs ++ ISO2709_FS :: more) fuel Hs) as (fuel' & Hf' & ->); [zl..|].
    specialize (IH ((pre ++ p) ++ [ISO2709_IDFS]) s more ns t i (ss ++ [cz p]) fuel' Hsubs ltac:(done)).
    cbv zeta in IH.
    replace (zlen (((pre ++ p) ++ [ISO2709_IDFS]) ++ s ++ subs_text subs)) with en in IH by (rewrite <- Een; zl).
    rewrite IH by done. cbn [map]. rewrite <- app_assoc. done.
Qed.

(** All subfields of a field. *)
Lemma subfields_st subs pre more ns t i fuel : Forall sub_ok subs ->
  let en := zlen (pre ++ subs_text subs) in
  (Z.to_nat (en - zlen pre) < fuel)%nat ->
  read_subfields fuel (pre ++ subs_text subs ++ ISO2709_FS :: more) en (zlen pre + 1) (zlen pre)
    (st (ns ++ [Datafield t i []])) = Some (en, st (ns ++ [Datafield t i (map cz subs)])).
Proof.
  intros Hsubs en Hf. destruct fuel as [|fuel]; [lia|]. destruct subs as [|s subs].
  - cbn [read_subfields]. unfold en, subs_text; simpl. rewrite app_nil_r.
    rewrite (proj2 (Z.ltb_ge _ (zlen pre))), (proj2 (Z.ltb_ge (zlen pre + 1) _)) by lia. done.
  - apply Forall_cons_1 in Hsubs as [[Hs (c & r & -> & Hc)] Hsubs]. set (s := c :: r) in *.
    assert (subs_text (s :: subs) = ISO2709_IDFS :: s ++ subs_text subs) as Est by done.
    assert (zlen pre + 1 + zlen s + zlen (subs_text subs) = en) as Een by (unfold en; rewrite Est; zl).
    assert (1 <= zlen s) as Hs1 by (by apply zlen_pos). pose proof (zlen_nonneg (subs_text subs)).
    rewrite Est. pose proof (separator_step en (zlen pre + 1) pre c (r ++ subs_text subs ++ ISO2709_FS :: more) fuel
      (st (ns ++ [Datafield t i []]))) as Estep.
    change (ISO2709_IDFS :: c :: r ++ subs_text subs ++ ISO2709_FS :: more)
      with ([ISO2709_IDFS] ++ s ++ subs_text subs ++ ISO2709_FS :: more) in Estep.
    replace (pre ++ (ISO2709_IDFS :: s ++ subs_text subs) ++ ISO2709_FS :: more)
      with (pre ++ [ISO2709_IDFS] ++ s ++ subs_text subs ++ ISO2709_FS :: more)
      by (cbn [app]; rewrite <- app_assoc; done).
    rewrite Estep; [|apply Forall_cons_1 in Hs as [[]]; done|done|lia].
    rewrite (proj2 (Z.ltb_ge (zlen pre + 1) _)) by lia. mrun.
    rewrite (app_assoc pre). replace (zlen pre + 1) with (zlen (pre ++ [ISO2709_IDFS])) by zl.
    destruct (subfield_text en (zlen (pre ++ [ISO2709_IDFS])) s (pre ++ [ISO2709_IDFS])
      (subs_text subs ++ ISO2709_FS :: more) fuel Hs) as (fuel' & Hf' & ->); [zl..|].
    pose proof (subfields_pending subs (pre ++ [ISO2709_IDFS]) s more ns t i [] fuel' Hsubs ltac:(done)) as IH.
    cbv zeta in IH.
    replace (zlen ((pre ++ [ISO2709_IDFS]) ++ s ++ subs_text subs)) with en in IH by (rewrite <- Een; zl).
    rewrite IH by done. done.
Qed.

(** ** Fields *)

Lemma control_end_at v : forall pre more en fuel, Forall data_octet v -> en = zlen (pre ++ v) ->
  (length v < fuel)%nat -> control_end fuel (pre ++ v ++ more) en (zlen pre) = Some en.
Proof.
  induction v as [|c v IH]; intros pre more en fuel Hv -> Hf; (destruct fuel as [|fuel]; [simpl in Hf; lia|]);
    cbn [control_end].
  - rewrite app_nil_r, (proj2 (Z.ltb_ge _ _)) by lia. done.
  - apply Forall_cons_1 in Hv as [Hc Hv]. pose proof (zlen_nonneg v).
    rewrite (proj2 (Z.ltb_lt _ _)) by zl. cbn [app]. rewrite rd_pre. cbn [mbind option_bind].
    destruct (in_field_data c Hc) as [-> _].
    replace (pre ++ c :: v ++ more) with ((pre ++ [c]) ++ v ++ more) by (rewrite <- app_assoc; done).
    replace (zlen pre + 1) with (zlen (pre ++ [c])) by zl.
    replace (zlen (pre ++ c :: v)) with (zlen ((pre ++ [c]) ++ v)) by zl.
    apply IH; [done|done|simpl in Hf; lia].
Qed.

Lemma tag_split (t : list Z) : zlen t = 3 -> exists a b c, t = [a; b; c].
Proof. unfold zlen. destruct t as [|a [|b [|c [|]]]]; simpl; try lia. eauto. Qed.

(** Where the test for subfields in a control field looks, there is text or its end. *)
Lemma control_octet pre v more k : Forall data_octet v -> 0 <= k <= zlen v ->
  exists c, rd (pre ++ v ++ ISO2709_FS :: more) (zlen pre + k) = Some c /\ c <> 31.
Proof.
  intros Hv Hk. rewrite rd_app_r by lia. destruct (Z.eq_dec k (zlen v)) as [->|].
  - exists ISO2709_FS. split; [apply rd_pre|done].
  - rewrite rd_app_l by lia. destruct (rd_Some v k) as [c Hc]; [lia|]. exists c. split; [done|].
    apply rd_lookup in Hc as [_ Hin]. rewrite Forall_forall in Hv. by destruct (Hv _ Hin) as (_ & _ & _ & _ & ?).
Qed.

Lemma read_field_st indl f pre more li ns : field_ok indl f -> 1 <= indl <= 9 -> indicator_length li = indl ->
  let en := zlen pre + zlen (field_data f) in
  read_field d e (pre ++ field_bytes f ++ more) (cz (field_tag f)) li en (zlen pre) (st ns) =
    Some (en, st (ns ++ [field_node f])).
Proof.
  intros (Ht3 & Htag & H) Hi Hli en. destruct (tag_split _ Ht3) as (a & b & c & Et).
  assert (nonzero (field_tag f)) as Hnz by by apply tag_nonzero.
  unfold read_field. rewrite Hli. unfold field_bytes. rewrite <- app_assoc. cbn [app].
  destruct f as [t v|t inds subs]; cbn [field_tag field_data field_node] in *; subst t.
  - destruct H as (H2 & Hv & Hl). change (str "00") with [48; 48] in H2. injection H2 as -> ->.
    assert (identifier_flag (pre ++ v ++ ISO2709_FS :: more) (cz [48; 48; c]) indl (zlen pre) = Some 0) as ->.
    { unfold identifier_flag. simpl memcmp. cbn [mbind option_bind Z.eqb negb].
      destruct (Z.ltb_spec indl 4); [|done]. rewrite (proj2 (Z.ltb_lt 0 indl)) by lia. cbn [andb].
      destruct (control_octet pre v more indl Hv) as (x & -> & Hx); [lia|]. cbn [mbind option_bind].
      destruct (control_octet pre v more (indl + 1) Hv) as (y & Ey & Hy); [lia|]. rewrite Z.add_assoc in Ey.
      rewrite Ey. cbn [mbind option_bind]. unfold ISO2709_IDFS.
      rewrite (proj2 (Z.eqb_neq x 31)), (proj2 (Z.eqb_neq y 31)) by done. done. }
    mrun. cbn [Z.eqb negb].
    rewrite (control_end_at v); [|done|unfold en; zl|unfold en, zlen; lia]. mrun.
    replace (en - zlen pre) with (zlen v) by (unfold en; lia). rewrite drop_pre.
    rewrite (bind_Some _ _ _ _ _ (add_controlfield_st _ _ _ _ Hnz)). done.
  - destruct H as (H2 & Hn & Hinds & Hsubs).
    assert (identifier_flag (pre ++ (utf8_text inds ++ subs_text subs) ++ ISO2709_FS :: more) (cz [a; b; c]) indl (zlen pre)
      = Some 1) as ->.
    { unfold identifier_flag. change (str "00") with [48; 48] in *. simpl memcmp. simpl in H2.
      destruct (Z.eqb_spec a 48) as [->|]; simpl.
      - destruct (Z.eqb_spec b 48) as [->|]; [done|]. simpl. by rewrite (proj2 (Z.eqb_neq (b - 48) 0)) by lia.
      - by rewrite (proj2 (Z.eqb_neq (a - 48) 0)) by lia. }
    mrun. cbn [Z.eqb negb]. rewrite (proj2 (Z.eqb_neq indl 0)) by lia. cbn [negb]. rewrite Z.sub_diag, Z.add_0_r.
    rewrite <- app_assoc.
    assert (Z.to_nat indl = length inds) as -> by (unfold zlen in Hn; lia).
    rewrite bind_assoc. rewrite (bind_Some _ _ _ _ _ (skip_indicators_st inds pre _ ns Hinds)).
    replace (zlen pre + zlen (utf8_text inds) - zlen pre) with (zlen (utf8_text inds)) by lia.
    rewrite drop_pre, bind_assoc, (bind_Some _ _ _ _ _ (add_datafield_st _ _ _ _ Hnz)). mrun.
    rewrite (app_assoc pre (utf8_text inds)).
    replace (zlen pre + zlen (utf8_text inds)) with (zlen (pre ++ utf8_text inds)) by zl.
    pose proof (subfields_st subs (pre ++ utf8_text inds) more ns (cz [a; b; c]) (cz (utf8_text inds))
      (S (Z.to_nat (en - zlen pre))) Hsubs) as Hs. cbv zeta in Hs.
    replace (zlen ((pre ++ utf8_text inds) ++ subs_text subs)) with en in Hs by (unfold en; zl).
    rewrite Hs; [done|]. pose proof (zlen_nonneg (utf8_text inds)). zl.
Qed.

(** ** The leader *)

Lemma check_ascii_st l k ch ns : Forall (fun c => 32 <= c < 127) l -> 0 <= k < zlen l ->
  check_ascii l k ch (st ns) = Some (l, st ns).
Proof.
  intros Hl Hk. unfold check_ascii. destruct (rd_Some l k Hk) as [c Hc]. rewrite Hc. mrun.
  apply rd_lookup in Hc as [_ Hin]. rewrite Forall_forall in Hl. specialize (Hl _ Hin). simpl in Hl.
  rewrite s8_byte by (unfold byte_ok; lia). rewrite (proj2 (Z.ltb_lt c 128)) by lia.
  rewrite (proj2 (Z.ltb_ge c 32)), (proj2 (Z.ltb_ge 127 c)) by lia. done.
Qed.

Lemma leader_number_st l off n bad msg deflt fix_ v ns :
  atoi_n_check (drop (Z.to_nat off) l) n 0 = Some (1, v) -> bad v = false ->
  leader_number l off n bad msg deflt fix_ (st ns) = Some ((v, l), st ns).
Proof. intros H Hb. unfold leader_number. rewrite H. mrun. rewrite Hb. done. Qed.

(** The octets of a leader that is written. *)
Lemma leader_text_digit leader total base k n :
  zlen leader = 24 -> 0 <= total < 10 ^ 5 -> 0 <= base < 10 ^ 5 ->
  (5 <= k < 12 \/ 17 <= k < 24)%nat -> leader !! k = Some (48 + n) -> 0 <= n <= 9 ->
  atoi_n_check (drop k (leader_text leader total base)) 1 0 = Some (1, n).
Proof.
  intros Hl Ht Hb Hk H Hn. rewrite <- (app_nil_r (leader_text _ _ _)). apply digit_at; [|done]. rewrite <- H.
  destruct (fmt_0d_spec 5 total) as (_ & H1 & _); [lia..|].
  destruct (fmt_0d_spec 5 base) as (_ & H2 & _); [lia..|].
  assert (forall j, (j <= 17)%nat -> length (take 7 (drop j leader)) = 7%nat) as H7
    by (intros j Hj; rewrite length_take, length_drop; unfold zlen in Hl; lia).
  unfold zlen in *. unfold leader_text. rewrite lookup_app_r by lia. destruct Hk as [Hk|Hk].
  - rewrite lookup_app_l, lookup_take_lt, lookup_drop by (rewrite ?H7; lia). f_equal. lia.
  - rewrite lookup_app_r, lookup_app_r by (rewrite ?H7; lia).
    rewrite lookup_take_lt, lookup_drop by (rewrite ?H7; lia). f_equal. rewrite H7 by lia. lia.
Qed.

Lemma leader_text_ascii leader total base :
  Forall (fun c => 32 <= c < 127) leader -> 0 <= total < 10 ^ 5 -> 0 <= base < 10 ^ 5 ->
  Forall (fun c => 32 <= c < 127) (leader_text leader total base).
Proof.
  intros Hl Ht Hb. assert (forall n, 0 <= n < 10 ^ 5 -> Forall (fun c => 32 <= c < 127) (fmt_0d 5 n)) as Hd.
  { intros n Hn. destruct (fmt_0d_spec 5 n) as (Hd & _ & _); [lia..|]. eapply Forall_impl; [exact Hd|]. simpl. lia. }
  unfold leader_text. rewrite !Forall_app. repeat split; auto using Forall_take, Forall_drop.
Qed.

Lemma set_leader_st leader indl lde ls total base more :
  leader_ok leader indl lde ls -> 0 <= total < 10 ^ 5 -> 0 <= base < 10 ^ 5 ->
  exists idl li, yaz_marc_set_leader (leader_text leader total base ++ more) (st []) =
    Some (Info indl idl base lde ls li, st [Leader (cz (leader_text leader total base))]).
Proof.
  intros [Hlen Hasc [Hi1 Hi2] (idl & Hd1 & Hd2) [He1 He2] [Hs1 Hs2] (li & Hm1 & Hm2)] Ht Hb.
  exists idl, li. pose proof (zlen_leader_text leader total base Hlen Ht Hb) as Hz.
  pose proof (leader_text_ascii leader total base Hasc Ht Hb) as Ha.
  assert (drop 12 (leader_text leader total base) = fmt_0d 5 base ++ take 7 (drop 17 leader)) as E12.
  { unfold leader_text. rewrite app_assoc. destruct (fmt_0d_spec 5 total) as (_ & H1 & _); [lia..|].
    apply drop_app_length'. rewrite length_app, length_take, length_drop. unfold zlen in *. lia. }
  set (l := leader_text leader total base) in *.
  unfold yaz_marc_set_leader. rewrite <- Hz, sub_all. mrun.
  do 5 (rewrite (bind_Some _ _ _ l (st [])) by (apply check_ascii_st; [done|lia])).
  rewrite (bind_Some _ _ _ (indl, l) (st [])).
  2: { apply leader_number_st; [apply (leader_text_digit leader); done || lia|apply Z.eqb_neq; lia]. }
  rewrite (bind_Some _ _ _ (idl, l) (st [])).
  2: { apply leader_number_st; [apply (leader_text_digit leader); done || lia|apply Z.eqb_neq; lia]. }
  rewrite (bind_Some _ _ _ (base, l) (st [])).
  2: { apply leader_number_st; [|done]. change (Z.to_nat 12) with 12%nat. rewrite E12.
       apply fmt_0d_check; unfold INT_MAX; lia. }
  do 3 (rewrite (bind_Some _ _ _ l (st [])) by (apply check_ascii_st; [done|lia])).
  rewrite (bind_Some _ _ _ (lde, l) (st [])).
  2: { apply leader_number_st; [apply (leader_text_digit leader); done || lia|apply Z.ltb_ge; lia]. }
  rewrite (bind_Some _ _ _ (ls, l) (st [])).
  2: { apply leader_number_st; [apply (leader_text_digit leader); done || lia|apply Z.ltb_ge; lia]. }
  rewrite (bind_Some _ _ _ (li, l) (st [])).
  2: { apply leader_number_st; [apply (leader_text_digit leader); done || lia|done]. }
  rewrite (bind_Some _ _ _ l (st [])) by (apply check_ascii_st; [done|lia]).
  mrun. change (debug (st [])) with (debug mt). rewrite Hdbg. cbn [Z.eqb negb]. mrun.
  rewrite (bind_Some _ _ _ tt (st [Leader (cz l)])); [done|].
  unfold yaz_marc_add_leader. pose proof (strdupn_at l []) as Hdup. rewrite app_nil_r, Hz in Hdup. rewrite Hz, Hdup.
  mrun. change (leader_spec (st [])) with (leader_spec mt). rewrite Hspec. done.
Qed.

(** ** The directory *)

Lemma entry_digits_all n buf p : 0 <= p ->
  (forall k, (k < n)%nat -> exists c, rd buf (p + 3 + Z.of_nat k) = Some c /\ yaz_isdigit c = true) ->
  entry_digits n buf p = Some true.
Proof.
  intros Hp. induction n as [|n IH]; intros H; [done|]. cbn [entry_digits].
  destruct (H n ltac:(lia)) as (c & -> & Hc). cbn [mbind option_bind]. rewrite Hc. apply IH. intros k Hk. apply H. lia.
Qed.

Lemma directory_cons lde ls off f fs : directory lde ls off (f :: fs) =
  (field_tag f ++ fmt_0d lde (zlen (field_bytes f)) ++ fmt_0d ls off) ++
  directory lde ls (off + zlen (field_bytes f)) fs.
Proof. cbn [directory]. by rewrite <- !app_assoc. Qed.

Lemma read_directory_st indl lde ls li rl fs : 3 <= lde <= 9 -> 4 <= ls <= 9 ->
  length_data_entry li = lde -> length_starting li = ls -> Forall (field_ok indl) fs ->
  forall pre more off fuel ns, fits lde ls off fs -> 0 <= off -> (length fs < fuel)%nat ->
  zlen (pre ++ directory lde ls off fs) < rl ->
  read_directory junk fuel (pre ++ directory lde ls off fs ++ ISO2709_FS :: more) rl li (zlen pre) (st ns) =
    Some (Some (zlen (pre ++ directory lde ls off fs)), st ns).
Proof.
  intros Hlde Hls E1 E2. induction 1 as [|f fs Hf Hfs IH]; intros pre more off fuel ns Hfit Hoff Hfu Hrl;
    (destruct fuel as [|fuel]; [simpl in Hfu; lia|]).
  - cbn [directory read_directory app]. rewrite app_nil_r, rd_pre. done.
  - destruct Hfit as (Hf1 & Hf2 & Hfit). destruct Hf as (Ht3 & Htag & _).
    pose proof (zlen_field_bytes f) as Hfb.
    destruct (fmt_0d_spec lde (zlen (field_bytes f))) as (Hd1 & Hl1 & _); [lia..|].
    destruct (fmt_0d_spec ls off) as (Hd2 & Hl2 & _); [lia..|].
    set (ent := field_tag f ++ fmt_0d lde (zlen (field_bytes f)) ++ fmt_0d ls off).
    assert (zlen ent = 3 + lde + ls) as Hent by (unfold ent; autorewrite with zlen; lia).
    rewrite directory_cons in *. fold ent in Hrl |- *.
    set (dir := directory lde ls (off + zlen (field_bytes f)) fs) in *. pose proof (zlen_nonneg dir).
    cbn [read_directory]. rewrite <- (app_assoc ent).
    assert (exists c r, ent ++ dir ++ ISO2709_FS :: more = c :: r /\ c <> ISO2709_FS) as (c & r & Ec & Hc).
    { unfold ent. destruct (field_tag f) as [|c t]; [done|]. apply Forall_cons_1 in Htag as [Hc _].
      unfold tag_octet in Hc. cbn [app]. exists c. eexists. split; [done|]. unfold ISO2709_FS. lia. }
    rewrite Ec, rd_pre. mrun. rewrite <- Ec, (proj2 (Z.eqb_neq c _)) by done. rewrite E1, E2.
    autorewrite with zlen in Hrl. rewrite (proj2 (Z.leb_gt rl _)) by lia.
    mrun. change (debug (st ns)) with (debug mt). rewrite Hdbg. cbn [Z.eqb negb]. mrun.
    rewrite entry_digits_all; [| |intros k Hk].
    2: apply zlen_nonneg.
    2: { rewrite <- Z.add_assoc, rd_app_r by lia. rewrite rd_app_l by lia. unfold ent.
         replace (3 + Z.of_nat k) with (zlen (field_tag f) + Z.of_nat k) by lia. rewrite rd_app_r by lia.
         assert (digits_ok (fmt_0d lde (zlen (field_bytes f)) ++ fmt_0d ls off)) as Hd by (by apply Forall_app).
         destruct (rd_Some (fmt_0d lde (zlen (field_bytes f)) ++ fmt_0d ls off) (Z.of_nat k)) as [x Hx]; [zl|].
         exists x. split; [done|]. apply rd_lookup in Hx as [_ Hin]. unfold digits_ok in Hd.
         rewrite Forall_forall in Hd. apply isdigit_true. by apply Hd. }
    mrun. cbn [negb]. rewrite (app_assoc pre ent).
    replace (zlen pre + (3 + lde + ls)) with (zlen (pre ++ ent)) by zl.
    specialize (IH (pre ++ ent) more (off + zlen (field_bytes f)) fuel ns Hfit ltac:(lia) ltac:(simpl in Hfu; lia)).
    fold dir in IH. rewrite IH by zl. do 3 f_equal. zl.
Qed.

(** ** The fields *)

Lemma atoi_n_fmt w n rest : 1 <= w <= 9 -> 0 <= n < 10 ^ w -> atoi_n (fmt_0d w n ++ rest) w = Some n.
Proof.
  intros Hw Hn. unfold atoi_n. rewrite fmt_0d_check; [done|lia|done|].
  assert (10 ^ w <= 10 ^ 9) by (apply Z.pow_le_mono_r; lia). unfold INT_MAX. lia.
Qed.

Lemma read_fields_st indl lde ls li rl fs : 1 <= indl <= 9 -> 3 <= lde <= 9 -> 4 <= ls <= 9 ->
  indicator_length li = indl -> length_data_entry li = lde -> length_starting li = ls ->
  Forall (field_ok indl) fs ->
  forall pre done_ more fuel ns, fits lde ls (zlen done_) fs -> (length fs < fuel)%nat ->
  let dir := directory lde ls (zlen done_) fs in
  base_address li = zlen (pre ++ dir) + 1 ->
  base_address li + zlen done_ + zlen (fields_text fs) <= rl ->
  read_fields d e fuel (pre ++ dir ++ ISO2709_FS :: done_ ++ fields_text fs ++ more) rl li
    (zlen (pre ++ dir)) (zlen pre) (st ns) = Some (tt, st (ns ++ map field_node fs)).
Proof.
  intros Hindl Hlde Hls E0 E1 E2. induction 1 as [|f fs Hf Hfs IH]; intros pre done_ more fuel ns Hfit Hfu dir Hbase Hrl;
    (destruct fuel as [|fuel]; [simpl in Hfu; lia|]).
  - cbn [read_fields]. subst dir. cbn [directory]. rewrite app_nil_r, Z.eqb_refl. cbn [map]. by rewrite app_nil_r.
  - destruct Hfit as (Hf1 & Hf2 & Hfit). pose proof Hf as (Ht3 & Htag & _).
    pose proof (zlen_field_bytes f) as Hfb. pose proof (zlen_nonneg done_) as Hdn.
    destruct (fmt_0d_spec lde (zlen (field_bytes f))) as (Hd1 & Hl1 & _); [lia..|].
    destruct (fmt_0d_spec ls (zlen done_)) as (Hd2 & Hl2 & _); [lia..|].
    subst dir. rewrite directory_cons in *. rewrite zlen_fields_cons in Hrl.
    set (ent := field_tag f ++ fmt_0d lde (zlen (field_bytes f)) ++ fmt_0d ls (zlen done_)) in *.
    assert (zlen ent = 3 + lde + ls) as Hent by (unfold ent; autorewrite with zlen; lia).
    replace (zlen done_ + zlen (field_bytes f)) with (zlen (done_ ++ field_bytes f)) in * by zl.
    set (dir := directory lde ls (zlen (done_ ++ field_bytes f)) fs) in *.
    pose proof (zlen_nonneg dir). pose proof (zlen_nonneg (fields_text fs)).
    assert (zlen (pre ++ ent ++ dir) = zlen pre + 3 + lde + ls + zlen dir) as Hz by zl.
    cbn [read_fields]. rewrite (proj2 (Z.eqb_neq (zlen pre) _)) by lia.
    set (tail := ISO2709_FS :: done_ ++ fields_text (f :: fs) ++ more).
    assert (pre ++ (ent ++ dir) ++ tail = pre ++ field_tag f ++ fmt_0d lde (zlen (field_bytes f)) ++
      fmt_0d ls (zlen done_) ++ dir ++ tail) as Ebuf by (unfold ent; rewrite <- !app_assoc; done).
    rewrite Ebuf. rewrite <- Ht3, sub_mid. mrun. rewrite Ht3, E1, E2.
    rewrite (app_assoc pre (field_tag f)). replace (zlen pre + 3) with (zlen (pre ++ field_tag f)) by zl.
    rewrite drop_pre, atoi_n_fmt by lia. mrun.
    rewrite (app_assoc (pre ++ field_tag f)).
    replace (zlen (pre ++ field_tag f) + lde)
      with (zlen ((pre ++ field_tag f) ++ fmt_0d lde (zlen (field_bytes f)))) by zl.
    rewrite drop_pre, atoi_n_fmt by lia. mrun.
    rewrite (proj2 (Z.leb_gt _ 0)), (proj2 (Z.ltb_ge _ 0)) by lia. cbn [orb]. mrun.
    change (debug (st ns)) with (debug mt). rewrite Hdbg. cbn [Z.eqb negb]. mrun.
    rewrite (proj2 (Z.leb_gt rl _)) by lia.
    (* the field *)
    set (pd := (pre ++ ent ++ dir) ++ ISO2709_FS :: done_).
    assert (((pre ++ field_tag f) ++ fmt_0d lde (zlen (field_bytes f))) ++ fmt_0d ls (zlen done_) ++ dir ++ tail =
      pd ++ field_bytes f ++ fields_text fs ++ more) as Epd.
    { unfold pd, tail, ent, fields_text. cbn [map concat]. rewrite <- !app_assoc. cbn [app]. rewrite <- ?app_assoc. done. }
    rewrite Epd. assert (zlen done_ + base_address li = zlen pd) as Ei by (unfold pd; rewrite Hbase; zl).
    assert (zlen (field_bytes f) = zlen (field_data f) + 1) as Efd by (unfold field_bytes; zl).
    rewrite Ei. replace (zlen pd + zlen (field_bytes f) - 1) with (zlen pd + zlen (field_data f)) by lia.
    pose proof (read_field_st indl f pd (fields_text fs ++ more) li ns Hf Hindl E0) as Er. cbv zeta in Er.
    rewrite (bind_Some _ _ _ _ _ Er). rewrite (proj2 (Z.ltb_ge _ _)) by lia. mrun.
    assert (rd (pd ++ field_bytes f ++ fields_text fs ++ more) (zlen pd + zlen (field_data f)) = Some ISO2709_FS) as ->.
    { unfold field_bytes. rewrite <- app_assoc, app_assoc, <- zlen_app. apply rd_pre. }
    mrun. cbn [in_field]. change (in_field ISO2709_FS) with false. mrun.
    specialize (IH (pre ++ ent) (done_ ++ field_bytes f) more fuel (ns ++ [field_node f]) Hfit ltac:(simpl in Hfu; lia)).
    cbv zeta in IH. fold dir in IH.
    replace ((pre ++ ent) ++ dir ++ ISO2709_FS :: (done_ ++ field_bytes f) ++ fields_text fs ++ more)
      with (pd ++ field_bytes f ++ fields_text fs ++ more) in IH
      by (unfold pd; rewrite <- !app_assoc; cbn [app]; rewrite <- ?app_assoc; done).
    replace (zlen ((pre ++ field_tag f) ++ fmt_0d lde (zlen (field_bytes f))) + ls) with (zlen (pre ++ ent)) by zl.
    rewrite <- app_assoc in IH. rewrite IH; [|done|zl]. cbn [map]. by rewrite <- app_assoc.
Qed.

(** ** The whole record *)

Lemma zlen_iso2709 leader lde ls fs : zlen leader = 24 -> record_total lde ls fs <= 99985 ->
  zlen (iso2709 leader lde ls fs) = record_total lde ls fs.
Proof.
  intros Hl Ht. destruct (record_bounds _ _ _ Ht) as (Hb & Htt & _). unfold iso2709.
  autorewrite with zlen. rewrite zlen_leader_text by done. unfold record_total, record_base. lia.
Qed.

Lemma fields_length fs : Z.of_nat (length fs) <= zlen (fields_text fs).
Proof.
  induction fs as [|f fs IH]; [done|]. rewrite zlen_fields_cons. pose proof (zlen_field_bytes f).
  cbn [length]. lia.
Qed.

Lemma iso2709_read leader indl lde ls fs more bsize :
  leader_ok leader indl lde ls -> Forall (field_ok indl) fs -> fits lde ls 0 fs ->
  record_total lde ls fs <= 99985 -> (bsize = -1 \/ record_total lde ls fs <= bsize) ->
  yaz_marc_read_iso2709 d e junk (iso2709 leader lde ls fs ++ more) bsize mt =
    Some (record_total lde ls fs,
          st (Leader (cz (leader_text leader (record_total lde ls fs) (record_base lde ls fs))) :: map field_node fs)).
Proof.
  intros Hlead Hfs Hfit Htot Hbs. destruct (record_bounds lde ls fs Htot) as (Hbase & Htotal & Hbt).
  pose proof (fields_length fs) as Hfl. pose proof (zlen_nonneg (directory lde ls 0 fs)) as Hdl.
  set (total := record_total lde ls fs) in *. set (base := record_base lde ls fs) in *.
  assert (total = base + zlen (fields_text fs) + 1) as Et by done.
  assert (base = 24 + zlen (directory lde ls 0 fs) + 1) as Eb by done.
  set (ltext := leader_text leader total base).
  assert (zlen ltext = 24) as Hlt by (apply zlen_leader_text; [apply Hlead|done|done]).
  assert (iso2709 leader lde ls fs ++ more =
    ltext ++ directory lde ls 0 fs ++ ISO2709_FS :: fields_text fs ++ (ISO2709_RS :: more)) as Ebuf.
  { unfold iso2709. fold total base. fold ltext. rewrite <- !app_assoc. cbn [app]. rewrite <- ?app_assoc. done. }
  unfold yaz_marc_read_iso2709. rewrite (bind_Some _ _ _ tt (st [])) by done.
  assert (atoi_n_check (iso2709 leader lde ls fs ++ more) 5 0 = Some (1, total)) as ->.
  { rewrite Ebuf. unfold ltext, leader_text. rewrite <- app_assoc. apply fmt_0d_check; unfold INT_MAX; lia. }
  mrun. cbn [Z.eqb]. rewrite (proj2 (Z.ltb_ge total 25)) by lia.
  assert (negb (bsize =? -1) && (bsize <? total) = false) as ->.
  { destruct Hbs as [->|]; [done|]. rewrite (proj2 (Z.ltb_ge bsize total)) by lia. apply andb_false_r. }
  mrun. change (debug (st [])) with (debug mt). rewrite Hdbg. cbn [Z.eqb negb]. mrun.
  rewrite Ebuf.
  destruct (set_leader_st leader indl lde ls total base
    (directory lde ls 0 fs ++ ISO2709_FS :: fields_text fs ++ ISO2709_RS :: more) Hlead Htotal Hbase)
    as (idl & li & El). fold ltext in El. rewrite (bind_Some _ _ _ _ _ El).
  destruct Hlead as [_ _ [_ Hi] _ [_ He] [_ Hs] _].
  assert (24 = zlen ltext) as -> by done.
  rewrite (bind_Some _ _ _ (Some (zlen (ltext ++ directory lde ls 0 fs))) (st [Leader (cz ltext)])).
  2: { apply (read_directory_st indl); try done; [lia|zl]. }
  cbv beta iota. rewrite (proj2 (Z.eqb_eq (base_address _) _)) by (cbn [base_address]; zl). cbn [negb]. mrun.
  rewrite (bind_Some _ _ _ tt (st ([Leader (cz ltext)] ++ map field_node fs))); [done|].
  apply (read_fields_st indl lde ls _ total fs Hi He Hs) with (done_ := []); try done; [lia|cbn [base_address]; zl..].
Qed.
End reading.

(** ** The property *)


(** Decide a proposition by evaluation. *)
Ltac by_decide := refine (bool_decide_unpack _ _); vm_compute; exact I.

(** A record with a control field and a title. *)
Definition example_leader : list Z := str "00000nam a22000003a 4500".
Definition example_fields : list field :=
  [FControl (str "001") (str "12345"); FData (str "245") [49; 0xe6] [str "aTitle"; str "b-"]].

