(* ===== verification/MarcSafe.v ===== *)
(** * The reader of MARC records stays in its buffer (marc_read_iso2709.c)

    For any octets in the buffer, [yaz_marc_read_iso2709] terminates and reads
    nothing outside the record but a few octets after it; how far beyond it
    looks is shown by an example. *)

From stdpp Require Import base list numbers option strings.
From Stdlib Require Import ZArith Lia.
From S2P Require Import Prelude Text MatchStr Atoi Iconv Utf8 Ucs4 Wrbuf WrbufIconv Marc MarcIso.

Section safe.
Context {D E : Type} (d : yaz_iconv_decoder_s D) (e : yaz_iconv_encoder_s E) (junk : Z -> Z).
Implicit Types (mt : yaz_marc (D := D) (E := E)).

(** A handle that converts nothing and leaves leaders alone. *)
Definition plain_handle mt : Prop := iconv_cd mt = None /\ leader_spec mt = None.

(** The operation is defined, whatever the handle holds. *)
Definition runs {A} (m : M yaz_marc A) (Q : A -> Prop) : Prop :=
  forall mt, plain_handle mt -> exists a mt', m mt = Some (a, mt') /\ plain_handle mt' /\ Q a.

Definition any {A} (_ : A) : Prop := True.

Lemma runs_ret {A} (a : A) (Q : A -> Prop) : Q a -> runs (ret a) Q.
Proof. intros Hq mt Hmt. by exists a, mt. Qed.

Lemma runs_bind {A B} (m : M yaz_marc A) (k : A -> M yaz_marc B) (P : A -> Prop) (Q : B -> Prop) :
  runs m P -> (forall a, P a -> runs (k a) Q) -> runs (bind m k) Q.
Proof.
  intros Hm Hk mt Hmt. destruct (Hm mt Hmt) as (a & mt1 & E1 & Hmt1 & Ha).
  destruct (Hk a Ha mt1 Hmt1) as (b & mt2 & E2 & Hmt2 & Hb). exists b, mt2.
  by rewrite (bind_Some _ _ _ _ _ E1).
Qed.

Lemma runs_lift {A B} (x : option A) (P : A -> Prop) (k : A -> M yaz_marc B) (Q : B -> Prop) :
  (exists a, x = Some a /\ P a) -> (forall a, P a -> runs (k a) Q) -> runs (bind (lift x) k) Q.
Proof. intros (a & -> & Ha) Hk. intros mt Hmt. mrun. by apply Hk. Qed.

Lemma runs_gets {A B} (f : yaz_marc -> A) (k : A -> M yaz_marc B) (Q : B -> Prop) :
  (forall a, runs (k a) Q) -> runs (bind (gets f) k) Q.
Proof. intros Hk mt Hmt. mrun. by apply Hk. Qed.

Lemma runs_weaken {A} (m : M yaz_marc A) (P Q : A -> Prop) : runs m P -> (forall a, P a -> Q a) -> runs m Q.
Proof. intros Hm H mt Hmt. destruct (Hm mt Hmt) as (a & mt' & E1 & H1 & H2). exists a, mt'. auto. Qed.

(** An optional step. *)
Lemma runs_when {B} (c : bool) (m : M yaz_marc unit) (k : M yaz_marc B) (Q : B -> Prop) :
  runs m any -> runs k Q -> runs ((if c then m else ret tt) ;; k) Q.
Proof.
  intros Hm Hk. apply (runs_bind _ _ any); [|done]. destruct c; [done|]. by apply runs_ret.
Qed.

(** ** Comments and fields *)

Lemma runs_add_node n : runs (yaz_marc_add_node n) any.
Proof. intros mt [H1 H2]. exists tt, (set_nodes (nodes mt ++ [n]) mt). done. Qed.

(** A terminated string can be measured. *)
Lemma strlen_terminated s : exists n, strlen (s ++ [0]) = Some n /\ 0 <= n <= zlen s.
Proof.
  induction s as [|c s IH]; [by exists 0|]. cbn [app strlen]. destruct (c =? 0).
  - exists 0. split; [done|]. pose proof (zlen_nonneg (c :: s)). lia.
  - destruct IH as (n & -> & Hn). exists (Z.succ n). split; [done|]. zl.
Qed.

Lemma strdup_terminated s : exists r, strdup (s ++ [0]) = Some r /\ any r.
Proof.
  destruct (strlen_terminated s) as (n & E1 & Hn). unfold strdup, strdupn. rewrite E1. cbn [mbind option_bind].
  rewrite sub_spec by zl. eexists. split; [reflexivity|done].
Qed.

Lemma c_str_terminated s : exists r, c_str (s ++ [0]) = Some r /\ any r.
Proof.
  destruct (strlen_terminated s) as (n & E1 & Hn). unfold c_str. rewrite E1. cbn [mbind option_bind].
  rewrite sub_spec by zl. eexists. split; [reflexivity|done].
Qed.

Lemma strdupn_total s n : 0 <= n <= zlen s -> exists r, strdupn s n = Some r /\ any r.
Proof. intros Hn. unfold strdupn. rewrite sub_spec by lia. eexists. split; [reflexivity|done]. Qed.

Lemma runs_add_comment s : runs (yaz_marc_add_comment (s ++ [0])) any.
Proof. apply (runs_lift _ any); [apply strdup_terminated|]. intros c _. apply runs_add_node. Qed.

Lemma runs_cprintf s : runs (yaz_marc_cprintf s) any.
Proof. apply runs_add_comment. Qed.

Lemma sub_total (s : list Z) i n : 0 <= i -> 0 <= n -> i + n <= zlen s -> exists r, sub s i n = Some r /\ zlen r = n.
Proof.
  intros Hi Hn Hl. rewrite sub_spec by done. eexists. split; [reflexivity|].
  unfold zlen in *. rewrite length_take, length_drop. lia.
Qed.

Lemma runs_add_controlfield t data n : 0 <= n <= zlen data ->
  runs (yaz_marc_add_controlfield (t ++ [0]) data n) any.
Proof.
  intros Hn. apply (runs_lift _ any); [apply strdup_terminated|]. intros t' _.
  apply (runs_lift _ any); [by apply strdupn_total|]. intros v _.
  apply (runs_bind _ _ any); [apply runs_add_node|]. intros [] _. apply runs_gets. intros dbg.
  destruct (negb (dbg =? 0)); [|by apply runs_ret].
  apply (runs_lift _ any); [destruct (sub_total data 0 n) as (r & -> & _); [lia..|eexists; by split]|].
  intros r _. rewrite app_assoc. apply runs_add_comment.
Qed.

Lemma runs_add_datafield t data n : 0 <= n <= zlen data ->
  runs (yaz_marc_add_datafield (t ++ [0]) data n) any.
Proof.
  intros Hn. apply (runs_lift _ any); [apply strdup_terminated|]. intros t' _.
  apply (runs_lift _ any); [by apply strdupn_total|]. intros v _. apply runs_add_node.
Qed.

(** Whether there is a data field does not depend on what is added to it. *)
Lemma add_to_last_total s s' ns r : add_to_last s ns = Some r -> exists r', add_to_last s' ns = Some r'.
Proof.
  revert r. induction ns as [|n ns IH]; intros r H; [done|]. simpl in *.
  destruct (add_to_last s ns) as [r1|].
  - destruct (IH r1 eq_refl) as [r' ->]. eauto.
  - destruct (add_to_last s' ns); [eauto|]. destruct n; eauto; done.
Qed.

Lemma runs_add_subfield data n : 0 <= n <= zlen data -> runs (yaz_marc_add_subfield data n) any.
Proof.
  intros Hn. apply runs_gets. intros dbg. apply runs_when.
  { apply (runs_lift _ any); [destruct (sub_total data 0 n) as (r & -> & _); [lia..|eexists; by split]|].
    intros r _. rewrite app_assoc. apply runs_add_comment. }
  apply runs_gets. intros ns. destruct (add_to_last [] ns) as [r|] eqn:E1; [|by apply runs_ret].
  apply (runs_lift _ any); [by apply strdupn_total|]. intros s _.
  apply (runs_lift _ any); [destruct (add_to_last_total _ s _ _ E1) as [r' ->]; eexists; by split|].
  intros ns' _ mt [H1 H2]. exists tt, (set_nodes ns' mt). done.
Qed.

(** ** The leader *)

(** What the checks leave is a leader of the same size. *)
Lemma runs_check_ascii l k ch : zlen l = 24 -> 0 <= k < 24 ->
  runs (check_ascii l k ch) (fun l' => zlen l' = 24).
Proof.
  intros Hl Hk. apply (runs_lift _ any); [destruct (rd_Some l k) as [c ->]; [lia|eexists; by split]|].
  intros c _. destruct (_ || _); [|by apply runs_ret].
  apply (runs_bind _ _ any); [apply runs_cprintf|]. intros [] _ mt Hmt. rewrite splice_spec by zl.
  eexists _, mt. split; [reflexivity|]. split; [done|].
  rewrite <- Hl. eapply splice_zlen. apply splice_spec; zl.
Qed.

(** One digit. *)
Lemma atoi_n_check_one buf : 1 <= zlen buf ->
  exists ok v, atoi_n_check buf 1 0 = Some (ok, v) /\ (ok <> 0 -> 0 <= v <= 9).
Proof.
  intros Hb. destruct buf as [|c buf]; [zl|].
  unfold atoi_n_check, yaz_atoi, yaz_atoul. change ((10 <? 2) || (36 <? 10)) with false.
  change (Z.to_nat 1) with 1%nat. cbn [atoul_loop]. destruct (digit_value c) as [dv|] eqn:Ed; [|by exists 0, 0].
  destruct (Z.leb_spec 10 dv); [by exists 0, 0|]. pose proof (digit_value_nonneg _ _ Ed).
  rewrite overflow_test by lia. rewrite (proj2 (Z.ltb_ge ULONG_MAX _)) by (unfold ULONG_MAX; lia).
  unfold u64. rewrite wrap_small by lia. cbn [mbind option_bind]. change (0 + 1) with 1. change (1 =? -1) with false.
  cbn iota. rewrite (proj2 (Z.ltb_ge INT_MAX _)) by (unfold INT_MAX; lia). exists 1. eexists. split; [reflexivity|lia].
Qed.

Lemma runs_leader_number l off n bad msg deflt fix_ (Q : Z -> Prop) :
  zlen l = 24 -> 0 <= off -> off + n <= 24 -> zlen fix_ <= n -> Q deflt ->
  (exists ok v, atoi_n_check (drop (Z.to_nat off) l) n 0 = Some (ok, v) /\ (ok <> 0 -> bad v = false -> Q v)) ->
  runs (leader_number l off n bad msg deflt fix_) (fun r => zlen r.2 = 24 /\ Q r.1).
Proof.
  intros Hl Ho Hon Hfix Hd (ok & v & E1 & Hv). unfold leader_number. rewrite E1. intros mt Hmt. mrun.
  destruct (Z.eqb_spec ok 0) as [->|Hok]; [|destruct (bad v) eqn:Eb]; cbn [orb].
  3: { exists (v, l), mt. split; [done|]. split; [done|]. split; [done|auto]. }
  all: destruct (runs_cprintf msg mt Hmt) as ([] & mt1 & Ec & Hmt1 & _); rewrite (bind_Some _ _ _ _ _ Ec).
  all: rewrite splice_spec by (pose proof (zlen_nonneg fix_); lia); mrun; eexists _, mt1;
    (split; [reflexivity|]); (split; [done|]); (split; [|done]); cbn [snd]; rewrite <- Hl;
    eapply splice_zlen; apply splice_spec; pose proof (zlen_nonneg fix_); lia.
Qed.

Lemma zlen_drop_z (l : list Z) n : 0 <= n <= zlen l -> zlen (drop (Z.to_nat n) l) = zlen l - n.
Proof. unfold zlen. rewrite length_drop. lia. Qed.

(** A number of one digit. *)
Lemma runs_leader_digit l off bad msg deflt fix_ lo :
  zlen l = 24 -> 0 <= off < 24 -> zlen fix_ = 1 -> lo <= deflt <= 9 -> (forall v, 0 <= v -> bad v = false -> lo <= v) ->
  runs (leader_number l off 1 bad msg deflt fix_) (fun r => zlen r.2 = 24 /\ lo <= r.1 <= 9).
Proof.
  intros Hl Ho Hfix Hd Hbad.
  apply (runs_leader_number _ _ _ _ _ _ _ (fun v => lo <= v <= 9)); [done|lia|lia|lia|done|].
  destruct (atoi_n_check_one (drop (Z.to_nat off) l)) as (ok & v & E1 & Hv); [rewrite zlen_drop_z; lia|].
  exists ok, v. split; [done|]. intros Hok Hb. specialize (Hv Hok). split; [apply Hbad; [lia|done]|lia].
Qed.

Definition info_ok (li : leader_info) : Prop :=
  1 <= indicator_length li <= 9 /\ 3 <= length_data_entry li <= 9 /\ 4 <= length_starting li <= 9 /\
  0 <= base_address li.

Lemma runs_add_leader l : zlen l = 24 -> runs (yaz_marc_add_leader l 24) any.
Proof.
  intros Hl. apply (runs_lift _ any); [apply strdupn_total; lia|]. intros l' _ mt [H1 H2]. mrun. rewrite H2. mrun.
  destruct (runs_add_node (Leader l') mt) as (a & mt' & E1 & H); [done|]. exists a, mt'. done.
Qed.

Lemma runs_set_leader buf : 24 <= zlen buf -> runs (yaz_marc_set_leader buf) info_ok.
Proof.
  intros Hbuf. unfold yaz_marc_set_leader.
  apply (runs_lift _ (fun l => zlen l = 24)); [by apply sub_total|]. intros l0 Hl0.
  do 5 (eapply runs_bind; [apply runs_check_ascii; [eassumption|lia]|]; intros ? ?).
  eapply runs_bind; [apply (runs_leader_digit _ _ _ _ _ _ 1); [eassumption|lia|done|lia|]|].
  { intros v Hv Hz%Z.eqb_neq. lia. }
  intros [indl l1] [Hl1 Hindl]. cbn [fst snd] in *.
  eapply runs_bind; [apply (runs_leader_digit _ _ _ _ _ _ 1); [eassumption|lia|done|lia|]|].
  { intros v Hv Hz%Z.eqb_neq. lia. }
  intros [idl l2] [Hl2 _]. cbn [fst snd] in *.
  eapply runs_bind; [apply (runs_leader_number _ _ _ _ _ _ _ (fun v => 0 <= v)); [eassumption|lia|lia|done|lia|]|].
  { destruct (atoi_n_check_total (drop (Z.to_nat 12) l2) 5) as (ok & v & E1 & Hv); [rewrite zlen_drop_z; lia|].
    exists ok, v. split; [done|lia]. }
  intros [base l3] [Hl3 Hbase]. cbn [fst snd] in *.
  do 3 (eapply runs_bind; [apply runs_check_ascii; [eassumption|lia]|]; intros ? ?).
  eapply runs_bind; [apply (runs_leader_digit _ _ _ _ _ _ 3); [eassumption|lia|done|lia|]|].
  { intros v Hv Hz%Z.ltb_ge. lia. }
  intros [lde l4] [Hl4 Hlde]. cbn [fst snd] in *.
  eapply runs_bind; [apply (runs_leader_digit _ _ _ _ _ _ 4); [eassumption|lia|done|lia|]|].
  { intros v Hv Hz%Z.ltb_ge. lia. }
  intros [ls l5] [Hl5 Hls]. cbn [fst snd] in *.
  eapply runs_bind; [apply (runs_leader_digit _ _ _ _ _ _ 0); [eassumption|lia|done|lia|]|].
  { intros v Hv _. lia. }
  intros [li l6] [Hl6 _]. cbn [fst snd] in *.
  eapply runs_bind; [apply runs_check_ascii; [eassumption|lia]|]. intros l7 Hl7.
  apply runs_gets. intros dbg. apply runs_when.
  { do 5 (eapply runs_bind; [apply runs_cprintf|]; intros ? ?). apply runs_cprintf. }
  eapply runs_bind; [by apply runs_add_leader|]. intros [] _. apply runs_ret. repeat split; cbn; lia.
Qed.

(** ** The directory *)

Lemma entry_digits_total n buf p : 0 <= p -> p + 3 + Z.of_nat n <= zlen buf ->
  exists ok, entry_digits n buf p = Some ok /\ any ok.
Proof.
  intros Hp. induction n as [|n IH]; intros Hn; [by exists true|]. cbn [entry_digits].
  destruct (rd_Some buf (p + 3 + Z.of_nat n)) as [c ->]; [lia|]. cbn [mbind option_bind].
  destruct (yaz_isdigit c); [apply IH; lia|by exists false].
Qed.

(** Text made in a buffer of its own. *)
Lemma wr_text_total (m : M wrbuf unit) bs : appends m bs -> exists t, wr_text junk m = Some t /\ any t.
Proof.
  intros Hm. destruct (wrbuf_alloc_spec junk) as (b0 & E0 & Hb0 & Hc0). unfold wr_text. rewrite E0.
  cbn [mbind option_bind]. destruct (Hm b0 Hb0) as ([] & b1 & E1 & Hb1 & Hc1). rewrite E1. cbn [mbind option_bind].
  destruct (wrbuf_cstr_spec b1 Hb1) as (rest & b2 & E2 & _ & _). rewrite E2. cbn [mbind option_bind].
  unfold c_str. destruct (strlen_terminated (contents b1)) as (n & E3 & Hn).
  assert (strlen (contents b1 ++ 0 :: rest) = Some n) as ->.
  { revert n E3 Hn. generalize (contents b1). clear. intros l. induction l as [|c l IH]; intros n E3 Hn; [done|].
    cbn [app strlen] in *. destruct (c =? 0); [done|].
    destruct (strlen_terminated l) as (k & E4 & Hk). rewrite E4 in E3. rewrite (IH k E4 Hk). done. }
  cbn [mbind option_bind]. rewrite sub_spec by (pose proof (zlen_nonneg rest); zl). eexists. split; [reflexivity|done].
Qed.

Lemma escaped_appends s n : 0 <= n <= zlen s -> bytes_ok s -> exists bs, appends (wrbuf_write_escaped s n) bs.
Proof.
  intros Hn Hb. rewrite <- (take_drop (Z.to_nat n) s) in *. apply Forall_app in Hb as [Hb _].
  assert (zlen (take (Z.to_nat n) s) = n) as Hz.
  { rewrite take_drop in Hn. unfold zlen in *. rewrite length_take. lia. }
  set (a := take (Z.to_nat n) s) in *. rewrite <- Hz. eexists.
  apply (appends_for_octets _ (fun c => if (c <? 32) || (126 <? c)
    then str "\x" ++ [hex_digit true (c / 16); hex_digit true (c mod 16)] else [c])).
  intros c Hc. unfold bytes_ok in Hb. rewrite List.Forall_forall in Hb. specialize (Hb c Hc).
  destruct (_ || _); [|by apply appends_putc_byte].
  apply appends_printf; [|done]. unfold byte_ok in Hb. pose proof (Z.mod_pos_bound c 16 ltac:(lia)).
  assert (0 <= c / 16 < 16) by (split; [apply Z.div_pos; lia|apply Z.div_lt_upper_bound; lia]).
  repeat constructor; try discriminate; by apply hex_digit_nonzero.
Qed.

Section record.
Context (buf : list Z) (rl : Z) (li : leader_info).
Context (Hbytes : bytes_ok buf) (Hrl : rl + 40 <= zlen buf) (Hli : info_ok li).

(** The length of an entry of the directory. *)
Definition entry_len : Z := 3 + length_data_entry li + length_starting li.

Lemma escaped_at p n : 0 <= p -> 0 <= n -> p + n <= zlen buf ->
  exists bs, appends (wrbuf_write_escaped (drop (Z.to_nat p) buf) n) bs.
Proof.
  intros Hp Hn Hpn. apply escaped_appends; [rewrite zlen_drop_z; lia|]. by apply Forall_drop.
Qed.

Lemma runs_read_directory fuel : forall p, 0 <= p < rl -> (Z.to_nat (rl - p) < fuel)%nat ->
  runs (read_directory junk fuel buf rl li p)
    (fun r => match r with None => True | Some q => q < rl /\ exists k, 0 <= k /\ q = p + k * entry_len end).
Proof.
  destruct Hli as (Hi & He & Hs & Hb0).
  induction fuel as [|fuel IH]; intros p Hp Hf; [lia|]. cbn [read_directory].
  apply (runs_lift _ any); [destruct (rd_Some buf p) as [c ->]; [lia|eexists; by split]|]. intros c _.
  destruct (c =? ISO2709_FS); [apply runs_ret; split; [lia|exists 0; lia]|].
  change (3 + length_data_entry li + length_starting li) with entry_len.
  assert (10 <= entry_len <= 21) as Hel by (unfold entry_len; lia).
  destruct (Z.leb_spec rl (p + entry_len)).
  { eapply runs_bind; [apply runs_cprintf|]. intros [] _. by apply runs_ret. }
  apply runs_gets. intros dbg. apply runs_when.
  { destruct (escaped_at (p + 0) 3) as [b1 H1]; [lia..|].
    destruct (escaped_at (p + 3) (length_data_entry li)) as [b2 H2]; [unfold entry_len in *; lia..|].
    destruct (escaped_at (p + (3 + length_data_entry li)) (length_starting li)) as [b3 H3]; [unfold entry_len in *; lia..|].
    apply (runs_lift _ any); [|intros t _; apply runs_cprintf]. eapply wr_text_total.
    eapply appends_bind; [apply appends_lit; by repeat constructor|intros _].
    eapply appends_bind; [exact H1|intros _].
    eapply appends_bind; [apply appends_lit; by repeat constructor|intros _].
    eapply appends_bind; [exact H2|intros _].
    eapply appends_bind; [apply appends_lit; by repeat constructor|intros _]. exact H3. }
  apply (runs_lift _ any); [apply entry_digits_total; lia|]. intros ok _. destruct ok; cbn [negb].
  - eapply runs_weaken; [apply IH; lia|]. intros [q|]; [|done]. intros (Hq & k & Hk & ->).
    split; [done|]. exists (k + 1). lia.
  - destruct (escaped_at (p + 0) (length_data_entry li + length_starting li + 3)) as [b1 H1]; [unfold entry_len in *; lia..|].
    apply (runs_lift _ any); [by eapply wr_text_total|]. intros t _.
    eapply runs_bind; [apply runs_cprintf|]. intros [] _. apply runs_ret. split; [lia|exists 0; lia].
Qed.

(** ** The fields *)

Lemma runs_sizeof_char p : 0 <= p -> p + 4 <= zlen buf ->
  runs (yaz_marc_sizeof_char d e (drop (Z.to_nat p) buf)) (fun n => 1 <= n <= 4).
Proof.
  intros Hp Hp4 mt Hmt. pose proof Hmt as [H1 H2]. unfold yaz_marc_sizeof_char, cdata_one_character. mrun. rewrite H1.
  destruct (read_UTF8_total (drop (Z.to_nat p) buf) 4 0) as ([[x n] err] & -> & Hr); [by apply Forall_drop|rewrite zlen_drop_z; lia|].
  mrun. destruct (err =? 0); cbn [andb]; [|by exists 1, mt].
  destruct (Z.ltb_spec 0 n); [|by exists 1, mt]. exists n, mt. split; [done|]. split; [done|].
  destruct Hr as [[Hn _]|(_ & _ & Hn & Hle & _)]; cbn [fst snd] in *; lia.
Qed.

Lemma runs_skip_indicators n : forall p, 0 <= p -> p + 4 * Z.of_nat n <= zlen buf ->
  runs (skip_indicators d e n buf p) (fun j => p <= j <= p + 4 * Z.of_nat n).
Proof.
  induction n as [|n IH]; intros p Hp Hl; cbn [skip_indicators]; [apply runs_ret; lia|].
  eapply runs_bind; [apply runs_sizeof_char; lia|]. intros k Hk. cbn beta in Hk.
  eapply runs_weaken; [apply IH; lia|]. cbn beta. intros j Hj. lia.
Qed.

Lemma runs_read_subfields en fuel : en <= zlen buf -> forall co i, 0 <= co -> 0 <= i <= zlen buf ->
  (Z.to_nat (en - i) < fuel)%nat ->
  runs (read_subfields fuel buf en co i) (fun j => i <= j <= Z.max i en).
Proof.
  intros Hen. induction fuel as [|fuel IH]; intros co i Hco Hi Hf; [lia|]. cbn [read_subfields].
  assert (runs (if co <? i then yaz_marc_add_subfield (drop (Z.to_nat co) buf) (i - co) else ret tt) any) as Hadd.
  { destruct (Z.ltb_spec co i); [|by apply runs_ret]. apply runs_add_subfield. rewrite zlen_drop_z; lia. }
  assert (runs ((if co <? i then yaz_marc_add_subfield (drop (Z.to_nat co) buf) (i - co) else ret tt) ;; ret i)
    (fun j => i <= j <= Z.max i en)) as Hstop.
  { eapply runs_bind; [exact Hadd|]. intros [] _. apply runs_ret. lia. }
  destruct (Z.ltb_spec i en); [|exact Hstop].
  apply (runs_lift _ any); [destruct (rd_Some buf i) as [c ->]; [lia|eexists; by split]|]. intros c _.
  destruct (in_field c); [|exact Hstop].
  assert (forall co', 0 <= co' -> runs (read_subfields fuel buf en co' (i + 1)) (fun j => i <= j <= Z.max i en)) as Hnext.
  { intros co' Hco'. eapply runs_weaken; [apply IH; lia|]. cbn beta. intros j Hj. lia. }
  destruct ((c =? ISO2709_IDFS) && (i <? en - 1)) eqn:Ec; [|by apply Hnext].
  apply andb_true_iff in Ec as [_ Hi1%Z.ltb_lt].
  apply (runs_lift _ any); [destruct (rd_Some buf (i + 1)) as [c1 ->]; [lia|eexists; by split]|]. intros c1 _.
  destruct (negb _); [|by apply Hnext].
  eapply runs_bind; [exact Hadd|]. intros [] _. apply Hnext. lia.
Qed.

Lemma control_end_total en fuel : en <= zlen buf -> forall i, 0 <= i -> (Z.to_nat (en - i) < fuel)%nat ->
  exists j, control_end fuel buf en i = Some j /\ i <= j <= Z.max i en.
Proof.
  intros Hen. induction fuel as [|fuel IH]; intros i Hi Hf; [lia|]. cbn [control_end].
  destruct (Z.ltb_spec i en); [|exists i; split; [done|lia]].
  destruct (rd_Some buf i) as [c ->]; [lia|]. cbn [mbind option_bind].
  destruct (in_field c); [|exists i; split; [done|lia]].
  destruct (IH (i + 1)) as (j & -> & Hj); [lia..|]. exists j. split; [done|lia].
Qed.

Lemma identifier_flag_total t i : zlen t = 3 -> 0 <= i < rl ->
  exists f, identifier_flag buf (t ++ [0]) (indicator_length li) i = Some f /\ 0 <= f <= 2.
Proof.
  intros Ht Hi. destruct Hli as (Hil & _). destruct (tag_split t Ht) as (a & b & c & ->).
  unfold identifier_flag. change (str "00") with [48; 48].
  assert (exists r, memcmp ([a; b; c] ++ [0]) [48; 48] 2 = Some r) as [r ->].
  { simpl. destruct (a =? 48); simpl; [|eauto]. destruct (b =? 48); simpl; eauto. }
  cbn [mbind option_bind]. destruct (negb (r =? 0)); [exists 1; split; [done|lia]|].
  destruct (indicator_length li <? 4) eqn:E4; cbn [andb]; [|exists 0; split; [done|lia]].
  apply Z.ltb_lt in E4. rewrite (proj2 (Z.ltb_lt 0 _)) by lia.
  destruct (rd_Some buf (i + indicator_length li)) as [x ->]; [lia|]. cbn [mbind option_bind].
  destruct (x =? ISO2709_IDFS); [exists 1; split; [done|lia]|].
  destruct (rd_Some buf (i + indicator_length li + 1)) as [y ->]; [lia|]. cbn [mbind option_bind].
  destruct (y =? ISO2709_IDFS); [exists 2|exists 0]; (split; [done|lia]).
Qed.

Lemma runs_read_field t en i : zlen t = 3 -> 0 <= i -> i <= en -> en < rl ->
  runs (read_field d e buf (t ++ [0]) li en i) (fun j => 0 <= j <= rl + 38).
Proof.
  intros Ht Hi Hie Hen. destruct Hli as (Hil & _). unfold read_field.
  apply (runs_lift _ (fun f => 0 <= f <= 2)); [apply identifier_flag_total; [done|lia]|]. intros fl Hfl.
  destruct (Z.eqb_spec fl 0); cbn [negb].
  - apply (runs_lift _ (fun j => i <= j <= Z.max i en)); [apply control_end_total; lia|]. intros j Hj.
    eapply runs_bind; [apply runs_add_controlfield; rewrite zlen_drop_z; lia|]. intros [] _. apply runs_ret. lia.
  - rewrite (proj2 (Z.eqb_neq (indicator_length li) 0)) by lia. cbn [negb].
    apply (runs_bind _ _ (fun j => 0 <= j /\ i <= j <= rl + 37)).
    + eapply runs_bind; [apply runs_skip_indicators; lia|]. cbn beta. intros j Hj.
      eapply runs_bind; [apply runs_add_datafield; rewrite zlen_drop_z; lia|]. intros [] _. apply runs_ret. lia.
    + intros j Hj. eapply runs_weaken; [apply runs_read_subfields; lia|]. cbn beta. intros k Hk. lia.
Qed.

Lemma runs_read_fields fuel : forall k p, 0 <= k -> 0 <= p -> p + k * entry_len < rl -> (Z.to_nat k < fuel)%nat ->
  runs (read_fields d e fuel buf rl li (p + k * entry_len) p) any.
Proof.
  pose proof Hli as (Hi & He & Hs & Hb0).
  assert (10 <= entry_len <= 21) as Hel by (unfold entry_len; lia).
  induction fuel as [|fuel IH]; intros k p Hk Hp Hr Hf; [lia|]. cbn [read_fields].
  destruct (Z.eqb_spec p (p + k * entry_len)); [by apply runs_ret|].
  assert (1 <= k) as Hk1 by nia. assert (entry_len <= k * entry_len) by nia.
  apply (runs_lift _ (fun t => zlen t = 3)); [apply sub_total; lia|]. intros t Ht.
  apply (runs_lift _ (fun v => 0 <= v <= INT_MAX));
    [apply atoi_n_total; rewrite zlen_drop_z; unfold entry_len in *; lia|]. intros dl Hdl.
  apply (runs_lift _ (fun v => 0 <= v <= INT_MAX));
    [apply atoi_n_total; rewrite zlen_drop_z; unfold entry_len in *; lia|]. intros off Hoff.
  destruct (Z.leb_spec dl 0); cbn [orb]; [by apply runs_ret|].
  rewrite (proj2 (Z.ltb_ge off 0)) by lia.
  apply runs_gets. intros dbg. apply runs_when.
  { apply (runs_lift _ any); [apply c_str_terminated|]. intros ts _. apply runs_cprintf. }
  destruct (Z.leb_spec rl (off + base_address li + dl - 1)); [apply runs_cprintf|].
  eapply runs_bind; [apply runs_read_field; [done|lia..]|]. cbn beta. intros j Hj.
  apply runs_when; [apply runs_cprintf|].
  apply (runs_lift _ any); [destruct (rd_Some buf j) as [c ->]; [lia|eexists; by split]|]. intros c _.
  apply runs_when; [apply runs_cprintf|].
  replace (p + 3 + length_data_entry li + length_starting li) with (p + entry_len) by (unfold entry_len; lia).
  replace (p + k * entry_len) with ((p + entry_len) + (k - 1) * entry_len) by lia.
  apply IH; lia.
Qed.
End record.

Lemma runs_read_iso2709 buf bsize : bytes_ok buf -> 0 <= bsize -> bsize + 40 <= zlen buf ->
  runs (yaz_marc_read_iso2709 d e junk buf bsize) (fun r => r = -1 \/ 25 <= r <= bsize).
Proof.
  intros Hbytes Hbs Hbuf. unfold yaz_marc_read_iso2709.
  apply (runs_bind _ _ any).
  { intros mt [H1 H2]. exists tt, (set_nodes [] mt). done. }
  intros [] _. apply (runs_lift _ (fun r => 0 <= r.2 <= INT_MAX)).
  { destruct (atoi_n_check_total buf 5) as (ok & v & -> & Hv); [lia|]. eexists. split; [reflexivity|done]. }
  intros [ok rl] Hrl. cbn [snd] in Hrl.
  destruct (ok =? 0); [eapply runs_bind; [apply runs_cprintf|]; intros [] _; apply runs_ret; by left|].
  destruct (Z.ltb_spec rl 25); [eapply runs_bind; [apply runs_cprintf|]; intros [] _; apply runs_ret; by left|].
  rewrite (proj2 (Z.eqb_neq bsize (-1))) by lia. cbn [negb andb].
  destruct (Z.ltb_spec bsize rl); [eapply runs_bind; [apply runs_cprintf|]; intros [] _; apply runs_ret; by left|].
  apply runs_gets. intros dbg. apply runs_when; [apply runs_cprintf|].
  eapply runs_bind; [apply runs_set_leader; lia|]. intros li Hli.
  eapply runs_bind; [apply runs_read_directory; [exact Hbytes|lia|exact Hli|lia|lia]|].
  intros [q|] Hq; [|apply runs_ret; by left]. destruct Hq as (Hq & k & Hk & ->).
  apply runs_when; [apply runs_cprintf|].
  eapply runs_bind; [apply runs_read_fields; [exact Hbytes|lia|exact Hli|done|lia|done|]|].
  - destruct Hli as (_ & He & Hs & _). assert (10 <= entry_len li) by (unfold entry_len; lia). nia.
  - intros [] _. apply runs_ret. right. lia.
Qed.
End safe.

(** ** The property *)

(** C29: [yaz_marc_read_iso2709] of any octets whatever, with 40 octets after
    the [bsize] it is given, terminates and reads nothing outside the buffer; it
    returns -1 or the length of a record, which is at least 25 and at most [bsize]. *)
Theorem marc_read_safe {D E : Type} (d : yaz_iconv_decoder_s D) (e : yaz_iconv_encoder_s E)
    (junk : Z -> Z) (mt : yaz_marc (D := D) (E := E)) (buf : list Z) (bsize : Z) :
  iconv_cd mt = None -> leader_spec mt = None -> bytes_ok buf -> 0 <= bsize -> bsize + 40 <= zlen buf ->
  exists r mt', yaz_marc_read_iso2709 d e junk buf bsize mt = Some (r, mt') /\ (r = -1 \/ 25 <= r <= bsize).
Proof.
  intros H1 H2 Hb Hs Hl. destruct (runs_read_iso2709 d e junk buf bsize Hb Hs Hl mt) as (r & mt' & E1 & _ & H);
    [done|]. eauto.
Qed.

Lemma marc_read_safe_witness :
  exists r mt', yaz_marc_read_iso2709 ucs4_decoder utf8_encoder (fun _ => 7) (repeat 48 70) 30 yaz_marc_create
    = Some (r, mt') /\ (r = -1 \/ 25 <= r <= 30).
Proof.
  apply (marc_read_safe ucs4_decoder utf8_encoder (fun _ => 7) yaz_marc_create (repeat 48 70) 30);
    [done|done|repeat constructor; unfold byte_ok; lia|lia|done].
Defined.

(** ** What the reader looks at beyond the record *)

(** A field whose one octet is the last of the record: its indicators are taken
    from beyond the end. *)
Definition short_record : list Z := str "00037nam a22000363a 4500245000100000" ++ [30].

Lemma marc_read_overread :
  zlen short_record = 37 /\
  yaz_marc_read_iso2709 ucs4_decoder utf8_encoder (fun _ => 7) short_record 37 yaz_marc_create = None.
Proof. split; vm_compute; reflexivity. Qed.

(** An empty control field before a data field is taken for a data field: the
    test for subfields finds the separator of the next field. *)
Definition empty_control : list field :=
  [FControl (str "001") []; FData (str "245") [49; 48] [str "aT"]].

Lemma marc_empty_control :
  exists ns mt',
    yaz_marc_read_iso2709 ucs4_decoder utf8_encoder (fun _ => 7) (iso2709 example_leader 4 5 empty_control) (-1)
      yaz_marc_create = Some (record_total 4 5 empty_control, mt') /\
    nodes mt' = ns /\ ns !! 1%nat = Some (Datafield (cz (str "001")) (cz (str "10")) []).
Proof. do 2 eexists. split; [vm_compute; reflexivity|]. split; reflexivity. Qed.
