(* ===== verification/MarcOut.v ===== *)
(** * MARC records as JSON and XML (marcdisp.c)

    The writers of JSON, MARCXML, turbomarc and MarcXchange, the functions that
    choose a writer by the output format of the handle, and the ones that decode
    a record and write it at once.  The theorems: what is written as JSON is read
    by the parser of json.c as the tree of the record, and what is written as XML,
    record by record, is one well-formed document. *)

From stdpp Require Import base list numbers option strings.
From Stdlib Require Import ZArith Lia.
From S2P Require Import Prelude Text MatchStr Atoi Iconv Utf8 Ucs4 Wrbuf WrbufIconv Json JsonText Marc MarcIso.

Definition YAZ_MARC_LINE : Z := 0.
Definition YAZ_MARC_MARCXML : Z := 3.
Definition YAZ_MARC_ISO2709 : Z := 4.
Definition YAZ_MARC_XCHANGE : Z := 5.
Definition YAZ_MARC_CHECK : Z := 6.
Definition YAZ_MARC_TURBOMARC : Z := 7.
Definition YAZ_MARC_JSON : Z := 8.

(** Element names, plain and turbo. *)
Definition record_name (turbo : bool) : list Z := if turbo then str "r" else str "record".
Definition leader_name (turbo : bool) : list Z := if turbo then str "l" else str "leader".
Definition controlfield_name (turbo : bool) : list Z := if turbo then str "c" else str "controlfield".
Definition datafield_name (turbo : bool) : list Z := if turbo then str "d" else str "datafield".
Definition indicator_name (turbo : bool) : list Z := if turbo then str "i" else str "ind".
Definition subfield_name (turbo : bool) : list Z := if turbo then str "s" else str "subfield".

(** A double quote. *)
Definition dq : list Z := [34].

(** [0-9a-zA-Z] *)
Definition alnum (c : Z) : bool :=
  (48 <=? c) && (c <=? 57) || (97 <=? c) && (c <=? 122) || (65 <=? c) && (c <=? 90).

Section marc_out.
Context {D E : Type} (d : yaz_iconv_decoder_s D) (e : yaz_iconv_encoder_s E) (junk : Z -> Z).
Abbreviation WRITER := (M (yaz_marc (D := D) (E := E) * wrbuf)).
(** The writer over libxml2, given the name space and whether the format is
    turbomarc. *)
Context (write_by_libxml2 : list Z -> bool -> WRITER Z).

Definition element_name_append_attribute_value (attribute_name : option (list Z)) (code_data : list Z) (code_len : Z)
  : WRITER Z :=
  let* code := lift (sub code_data 0 code_len) in
  let encode := negb (forallb (fun c => alnum (s8 c)) code) in
  match attribute_name with
  | Some a =>
      (if encode then on_wr (wrbuf_printf (str " " ++ a ++ str "=" ++ dq)) else ret tt) ;;
      iconv_cdata d e code_data code_len ;;
      (if encode then on_wr (wrbuf_printf dq) else ret tt) ;;
      ret 0
  | None =>
      if encode then ret (-1)
      else iconv_cdata d e code_data code_len ;; ret 0
  end.

(** [wrbuf_iconv_write_cdata] of a whole string *)
Definition iconv_cdata_str (s : list Z) : WRITER unit :=
  let* n := lift (strlen s) in iconv_cdata d e s n.

(** The loop over the characters of the indicators: [f] is given the number of
    the character, the memory at it and its size. *)
Fixpoint each_indicator (f : Z -> list Z -> Z -> WRITER unit) (fuel : nat) (i : Z) (ind : list Z) : WRITER unit :=
  match fuel with
  | O => fault
  | S fuel =>
      let* c := lift (rd ind 0) in
      if c =? 0 then ret tt
      else
        let* ilen := on_mt (cdata_one_character d e ind) in
        f i ind ilen ;;
        each_indicator f fuel (i + 1) (drop (Z.to_nat ilen) ind)
  end.

(** ** XML *)

Definition write_xml_subfield (turbo : bool) (idl : Z) (s : list Z) : WRITER unit :=
  let* using_code_len := get_subfield_len d e s idl in
  on_wr (wrbuf_printf (str "    <" ++ subfield_name turbo)) ;;
  (if negb turbo then
     on_wr (wrbuf_printf (str " code=" ++ dq)) ;;
     iconv_cdata d e s using_code_len ;;
     iconv_puts d e (dq ++ str ">" ++ [0])
   else
     element_name_append_attribute_value (Some (str "code")) s using_code_len ;;
     on_wr (wrbuf_lit (str ">"))) ;;
  iconv_cdata_str (drop (Z.to_nat using_code_len) s) ;;
  marc_iconv_reset d e ;;
  on_wr (wrbuf_printf (str "</" ++ subfield_name turbo)) ;;
  (if turbo then element_name_append_attribute_value None s using_code_len else ret 0) ;;
  on_wr (wrbuf_lit (str ">" ++ nl)).

Definition write_xml_node (turbo : bool) (idl : Z) (n : node) : WRITER unit :=
  match n with
  | Datafield t ind ss =>
      on_wr (wrbuf_printf (str "  <" ++ datafield_name turbo)) ;;
      (if negb turbo then on_wr (wrbuf_printf (str " tag=" ++ dq)) else ret tt) ;;
      iconv_cdata_str t ;;
      (if negb turbo then on_wr (wrbuf_printf dq) else ret tt) ;;
      each_indicator (fun i at_ ilen =>
        on_wr (wrbuf_printf (str " " ++ indicator_name turbo ++ fmt_d (i + 1) ++ str "=" ++ dq)) ;;
        iconv_cdata d e at_ ilen ;;
        iconv_puts d e (dq ++ [0])) (length ind) 0 ind ;;
      on_wr (wrbuf_printf (str ">" ++ nl)) ;;
      each (write_xml_subfield turbo idl) ss ;;
      on_wr (wrbuf_printf (str "  </" ++ datafield_name turbo)) ;;
      (if turbo then iconv_cdata_str t else ret tt) ;;
      on_wr (wrbuf_printf (str ">" ++ nl))
  | Controlfield t v =>
      on_wr (wrbuf_printf (str "  <" ++ controlfield_name turbo)) ;;
      (if negb turbo then
         on_wr (wrbuf_printf (str " tag=" ++ dq)) ;;
         iconv_cdata_str t ;;
         iconv_puts d e (dq ++ str ">" ++ [0])
       else
         iconv_cdata_str t ;;
         iconv_puts d e (str ">" ++ [0])) ;;
      iconv_cdata_str v ;;
      marc_iconv_reset d e ;;
      on_wr (wrbuf_printf (str "</" ++ controlfield_name turbo)) ;;
      (if turbo then iconv_cdata_str t else ret tt) ;;
      on_wr (wrbuf_lit (str ">" ++ nl))
  | Comment c =>
      on_wr (wrbuf_printf (str "<!-- ")) ;;
      on_wr (wrbuf_puts c) ;;
      on_wr (wrbuf_printf (str " -->" ++ nl))
  | Leader l =>
      on_wr (wrbuf_printf (str "  <" ++ leader_name turbo ++ str ">")) ;;
      on_wr (wrbuf_xmlputs l) ;;
      on_wr (wrbuf_printf (str "</" ++ leader_name turbo ++ str ">" ++ nl))
  end.

(** [%.80s] of an attribute that may be absent *)
Definition printf_attr (name : list Z) (value : option (list Z)) : WRITER unit :=
  match value with
  | Some v => let* v := lift (c_str v) in on_wr (wrbuf_printf (str " " ++ name ++ str "=" ++ dq ++ take 80 v ++ dq))
  | None => ret tt
  end.

Definition yaz_marc_write_marcxml_wrbuf (ns : list Z) (format type : option (list Z)) (turbo : bool) : WRITER Z :=
  let* mt := on_mt get in
  match find_leader (nodes mt) with
  | None => ret (-1)
  | Some leader =>
      let* (ok, idl) := lift (atoi_n_check (drop 11 leader) 1 0) in
      if ok =? 0 then ret (-1)
      else
        match enable_collection mt with
        | no_collection =>
            on_wr (wrbuf_printf (str "<" ++ record_name turbo ++ str " xmlns=" ++ dq ++ ns ++ dq))
        | c =>
            match c with
            | collection_first =>
                on_wr (wrbuf_printf (str "<collection xmlns=" ++ dq ++ ns ++ dq ++ str ">" ++ nl)) ;;
                on_mt (modify (set_collection collection_second))
            | _ => ret tt
            end ;;
            on_wr (wrbuf_printf (str "<" ++ record_name turbo))
        end ;;
        printf_attr (str "format") format ;;
        printf_attr (str "type") type ;;
        on_wr (wrbuf_printf (str ">" ++ nl)) ;;
        each (write_xml_node turbo idl) (nodes mt) ;;
        on_wr (wrbuf_printf (str "</" ++ record_name turbo ++ str ">" ++ nl)) ;;
        ret 0
  end.

Definition yaz_marc_write_marcxml_ns (ns : list Z) (format type : option (list Z)) (turbo : bool) : WRITER Z :=
  let* mt := on_mt get in
  if negb (write_using_libxml2 mt =? 0) then write_by_libxml2 ns turbo
  else yaz_marc_write_marcxml_wrbuf ns format type turbo.

Definition marcxml_ns : list Z := str "http://www.loc.gov/MARC21/slim".
Definition turbomarc_ns : list Z := str "http://www.indexdata.com/turbomarc".
Definition marcxchange_ns : list Z := str "info:lc/xmlns/marcxchange-v1".

(** Position 9 of the leader says that the record is in Unicode. *)
Definition set_unicode : WRITER unit :=
  let* spec := on_mt (gets leader_spec) in
  match spec with
  | None => on_mt (yaz_marc_modify_leader 9 (str "a" ++ [0]))
  | Some _ => ret tt
  end.

Definition yaz_marc_write_marcxml : WRITER Z :=
  set_unicode ;; yaz_marc_write_marcxml_ns marcxml_ns None None false.

Definition yaz_marc_write_turbomarc : WRITER Z :=
  set_unicode ;; yaz_marc_write_marcxml_ns turbomarc_ns None None true.

(** The format and the type are not used. *)
Definition yaz_marc_write_marcxchange (format type : option (list Z)) : WRITER Z :=
  yaz_marc_write_marcxml_ns marcxchange_ns None None false.

Definition yaz_marc_write_trailer : WRITER Z :=
  let* mt := on_mt get in
  match enable_collection mt with
  | collection_second =>
      (if (output_format mt =? YAZ_MARC_MARCXML) || (output_format mt =? YAZ_MARC_TURBOMARC)
       then on_wr (wrbuf_printf (str "</collection>" ++ nl))
       else if output_format mt =? YAZ_MARC_XCHANGE
       then on_wr (wrbuf_printf (str "</collection>" ++ nl))
       else ret tt) ;;
      ret 0
  | _ => ret 0
  end.

Definition yaz_marc_enable_collection : M (yaz_marc (D := D) (E := E)) unit := modify (set_collection collection_first).

(** ** JSON *)

Fixpoint write_json_subfields (idl : Z) (sep : list Z) (ss : list (list Z)) : WRITER unit :=
  match ss with
  | [] => ret tt
  | s :: ss =>
      let* using_code_len := get_subfield_len d e s idl in
      on_wr (wrbuf_lit sep) ;;
      on_wr (wrbuf_lit (str "          {" ++ nl ++ str "            " ++ dq)) ;;
      iconv_json_write d e s using_code_len ;;
      on_wr (wrbuf_lit (dq ++ str ": " ++ dq)) ;;
      iconv_json_puts d e (drop (Z.to_nat using_code_len) s) ;;
      on_wr (wrbuf_lit (dq ++ nl ++ str "          }")) ;;
      write_json_subfields idl (str "," ++ nl) ss
  end.

(** [first] at the end *)
Fixpoint write_json_nodes (idl : Z) (first : bool) (ns : list node) : WRITER bool :=
  match ns with
  | [] => ret first
  | Controlfield t v :: ns =>
      (if first then ret tt else on_wr (wrbuf_lit (str ","))) ;;
      on_wr (wrbuf_lit (nl ++ str "    {" ++ nl ++ str "      " ++ dq)) ;;
      iconv_json_puts d e t ;;
      on_wr (wrbuf_lit (dq ++ str ": " ++ dq)) ;;
      iconv_json_puts d e v ;;
      on_wr (wrbuf_lit (dq ++ nl ++ str "    }")) ;;
      write_json_nodes idl false ns
  | Datafield t ind ss :: ns =>
      (if first then ret tt else on_wr (wrbuf_lit (str ","))) ;;
      on_wr (wrbuf_lit (nl ++ str "    {" ++ nl ++ str "      " ++ dq)) ;;
      on_wr (wrbuf_json_puts t) ;;
      on_wr (wrbuf_lit (dq ++ str ": {" ++ nl ++ str "        " ++ dq ++ str "subfields" ++ dq ++ str ": [" ++ nl)) ;;
      write_json_subfields idl [] ss ;;
      on_wr (wrbuf_lit (nl ++ str "        ]")) ;;
      each_indicator (fun i at_ ilen =>
        on_wr (wrbuf_printf (str "," ++ nl ++ str "        " ++ dq ++ str "ind" ++ fmt_d (i + 1) ++ dq ++ str ": " ++ dq)) ;;
        on_wr (wrbuf_json_write at_ ilen) ;;
        on_wr (wrbuf_printf dq)) (length ind) 0 ind ;;
      on_wr (wrbuf_lit (nl ++ str "      }")) ;;
      on_wr (wrbuf_lit (nl ++ str "    }")) ;;
      write_json_nodes idl false ns
  | _ :: ns => write_json_nodes idl first ns
  end.

Definition yaz_marc_write_json : WRITER Z :=
  let* mt := on_mt get in
  on_wr (wrbuf_lit (str "{" ++ nl)) ;;
  match last_leader (nodes mt) with
  | None => ret (-1)
  | Some leader =>
      let* (ok, idl) := lift (atoi_n_check (drop 11 leader) 1 0) in
      if ok =? 0 then ret (-1)
      else
        on_wr (wrbuf_lit (str "  " ++ dq ++ str "leader" ++ dq ++ str ": " ++ dq)) ;;
        on_wr (wrbuf_json_puts leader) ;;
        on_wr (wrbuf_lit (dq ++ str "," ++ nl)) ;;
        on_wr (wrbuf_lit (str "  " ++ dq ++ str "fields" ++ dq ++ str ": [")) ;;
        let* first := write_json_nodes idl true (nodes mt) in
        (if first then ret tt else on_wr (wrbuf_lit (nl ++ str "  "))) ;;
        on_wr (wrbuf_lit (str "]" ++ nl)) ;;
        on_wr (wrbuf_lit (str "}" ++ nl)) ;;
        ret 0
  end.

(** ** Choice of the writer *)

Definition yaz_marc_write_mode : WRITER Z :=
  let* mt := on_mt get in
  let f := output_format mt in
  if f =? YAZ_MARC_LINE then yaz_marc_write_line d e
  else if f =? YAZ_MARC_MARCXML then yaz_marc_write_marcxml
  else if f =? YAZ_MARC_TURBOMARC then yaz_marc_write_turbomarc
  else if f =? YAZ_MARC_XCHANGE then yaz_marc_write_marcxchange None None
  else if f =? YAZ_MARC_ISO2709 then yaz_marc_write_iso2709 d e junk
  else if f =? YAZ_MARC_CHECK then yaz_marc_write_check d e
  else if f =? YAZ_MARC_JSON then yaz_marc_write_json
  else ret (-1).

Definition yaz_marc_decode_wrbuf (buf : list Z) (bsize : Z) : WRITER Z :=
  let* r := on_mt (yaz_marc_read_iso2709 d e junk buf bsize) in
  if r <=? 0 then ret r
  else
    let* s := yaz_marc_write_mode in
    if negb (s =? 0) then ret (-1) else ret r.

(** The buffer is the [m_wr] of the handle: the value, the result and its size. *)
Definition yaz_marc_decode_buf (buf : list Z) (bsize : Z) : WRITER (Z * list Z * Z) :=
  on_wr wrbuf_rewind ;;
  let* r := yaz_marc_decode_wrbuf buf bsize in
  let* result := on_wr wrbuf_cstr in
  let* rsize := on_wr (gets wr_pos) in
  ret (r, result, rsize).

Definition yaz_marc_xml (xmlmode : Z) : M (yaz_marc (D := D) (E := E)) unit := modify (set_output xmlmode).
Definition yaz_marc_debug (level : Z) : M (yaz_marc (D := D) (E := E)) unit := modify (set_debug level).
Definition yaz_marc_iconv (cd : option (yaz_iconv_struct D E)) : M yaz_marc unit := modify (set_iconv cd).
Definition yaz_marc_get_iconv : M yaz_marc (option (yaz_iconv_struct D E)) := gets iconv_cd.
Definition yaz_marc_write_using_libxml2 (enable : Z) : M (yaz_marc (D := D) (E := E)) unit := modify (set_libxml2 enable).
End marc_out.

(** The mode of a format name: the last of the tests that holds. *)
Definition yaz_marc_decode_formatstr (arg : list Z) : option Z :=
  let test name v mode :=
    let? r := strcmp arg (str name ++ [0]) in Some (if r =? 0 then v else mode) in
  let? mode := test "marc"%string YAZ_MARC_ISO2709 (-1) in
  let? mode := test "marcxml"%string YAZ_MARC_MARCXML mode in
  let? mode := test "turbomarc"%string YAZ_MARC_TURBOMARC mode in
  let? mode := test "marcxchange"%string YAZ_MARC_XCHANGE mode in
  let? mode := test "line"%string YAZ_MARC_LINE mode in
  test "json"%string YAZ_MARC_JSON mode.

(** Whether a record that is said to be in MARC-8 is in Unicode. *)
Definition yaz_marc_check_marc21_coding (charset marc_buf : option (list Z)) (sz : Z) : option Z :=
  match charset with
  | None => Some 0
  | Some cs =>
      let? r1 := yaz_matchstr cs (str "MARC8?" ++ [0]) in
      let? is8 := (if r1 =? 0 then Some true
                   else let? r2 := yaz_matchstr cs (str "MARC8" ++ [0]) in Some (r2 =? 0)) in
      match marc_buf with
      | Some b =>
          if is8 && (25 <? sz) then
            let? c := rd b 9 in Some (b2z (c =? 97))
          else Some 0
      | None => Some 0
      end
  end.
