(* ===== verification/MarcText.v ===== *)
(** * The JSON and XML of a MARC record (marcdisp.c, json.c)

    The JSON value and the XML tree of a record, and that the writers of MarcOut
    write texts of them: the JSON is accepted by the parser of json.c, and the
    records of a collection make one XML document. *)

From stdpp Require Import base list numbers option strings.
From Stdlib Require Import ZArith Lia.
From S2P Require Import Prelude Text MatchStr Atoi Iconv Utf8 Ucs4 Wrbuf WrbufIconv Json JsonText Marc MarcIso MarcOut.

(** ** Records *)

(** A subfield is its code and its data; the indicators are characters. *)
Inductive item :=
  | IControl (tag data : list Z)
  | IData (tag inds : list Z) (subs : list (list Z * list Z))
  | IComment (comment : list Z).

Definition item_node (i : item) : Marc.node :=
  match i with
  | IControl t v => Controlfield (cz t) (cz v)
  | IData t inds subs => Datafield (cz t) (cz (utf8_text inds)) (map (fun s => cz (s.1 ++ s.2)) subs)
  | IComment c => Comment (cz c)
  end.

(** The code of a subfield, for the identifier length [idl] of the leader: one
    character, or [idl - 1] octets. *)
Definition code_ok (idl : Z) (code : list Z) : Prop :=
  string_ok code /\
  if 2 <? idl then zlen code = idl - 1 else exists x, 0 < x < 0x200000 /\ code = utf8 x.

Definition item_ok (idl : Z) (i : item) : Prop :=
  match i with
  | IControl t v => string_ok t /\ string_ok v
  | IData t inds subs => string_ok t /\ Forall (fun x => 0 < x < 0x200000) inds /\ zlen inds <= 9 /\
      Forall (fun s => code_ok idl s.1 /\ string_ok s.2) subs
  | IComment c => string_ok c
  end.

(** A leader with the identifier length [idl]. *)
Definition ldr_ok (leader : list Z) (idl : Z) : Prop :=
  string_ok leader /\ (12 <= length leader)%nat /\ leader !! 11%nat = Some (48 + idl) /\ 0 <= idl <= 9.

(** [f] of the elements of a list with their numbers. *)
Fixpoint numbered {A B} (f : Z -> A -> B) (i : Z) (l : list A) : list B :=
  match l with
  | [] => []
  | x :: l => f i x :: numbered f (i + 1) l
  end.

(** ** What a writer does *)

Section gives.
Context {D E : Type} (d : yaz_iconv_decoder_s D) (e : yaz_iconv_encoder_s E).
Implicit Types (mt : yaz_marc (D := D) (E := E)).

(** The operation returns [a], turns the handle [mt] into [mt'] and adds [bs] to
    the buffer. *)
Definition gives {A} mt (m : M (yaz_marc * wrbuf) A) (a : A) mt' (bs : list Z) : Prop :=
  forall b, wrbuf_ok b -> exists b',
    m (mt, b) = Some (a, (mt', b')) /\ wrbuf_ok b' /\ contents b' = contents b ++ bs.

Lemma gives_bind {A B} mt mt1 mt2 (m : M _ A) (k : A -> M _ B) a c bs1 bs2 :
  gives mt m a mt1 bs1 -> gives mt1 (k a) c mt2 bs2 -> gives mt (bind m k) c mt2 (bs1 ++ bs2).
Proof.
  intros H1 H2 b Hb. destruct (H1 b Hb) as (b1 & E1 & Hb1 & Hc1).
  destruct (H2 b1 Hb1) as (b2 & E2 & Hb2 & Hc2).
  exists b2. rewrite (bind_Some _ _ _ _ _ E1). split; [done|]. split; [done|].
  by rewrite Hc2, Hc1, app_assoc.
Qed.

Lemma gives_eq {A} mt (m : M _ A) a mt' bs bs' : bs' = bs -> gives mt m a mt' bs -> gives mt m a mt' bs'.
Proof. by intros ->. Qed.

(** An operation that writes nothing. *)
Lemma gives_pure {A} mt (m : M _ A) a mt' : (forall b, m (mt, b) = Some (a, (mt', b))) -> gives mt m a mt' [].
Proof. intros H b Hb. exists b. by rewrite H, app_nil_r. Qed.

Lemma gives_ret {A} mt (a : A) : gives mt (ret a) a mt [].
Proof. by apply gives_pure. Qed.

Lemma gives_get {B} mt (k : _ -> M _ B) c mt' bs :
  gives mt (k mt) c mt' bs -> gives mt (bind (on_mt get) k) c mt' bs.
Proof. done. Qed.

Lemma gives_modify mt f : gives mt (on_mt (modify f)) tt (f mt) [].
Proof. by apply gives_pure. Qed.

Lemma gives_lift {A B} mt (x : option A) a (k : A -> M _ B) c mt' bs :
  x = Some a -> gives mt (k a) c mt' bs -> gives mt (bind (lift x) k) c mt' bs.
Proof. intros ->. done. Qed.

Lemma gives_writes mt (m : M _ unit) bs : mwrites mt m bs -> gives mt m tt mt bs.
Proof. intros H b Hb. destruct (H b Hb) as ([] & b' & E1 & Hb' & Hc). by exists b'. Qed.

Lemma gives_on_wr mt (m : M wrbuf unit) bs : appends m bs -> gives mt (on_wr m) tt mt bs.
Proof. intros H. by apply gives_writes, marc_writes_on_wr. Qed.

Lemma gives_each {A} mt (f : A -> M _ unit) (g : A -> list Z) l :
  Forall (fun x => gives mt (f x) tt mt (g x)) l -> gives mt (each f l) tt mt (concat (map g l)).
Proof.
  induction 1 as [|x l Hx _ IH]; [apply gives_ret|]. cbn [each map concat]. by eapply gives_bind.
Qed.

(** Literals. *)
Lemma gives_lit mt s : forallb (fun c => negb (c =? 0)) s = true -> gives mt (on_wr (wrbuf_lit s)) tt mt s.
Proof.
  intros Hs. apply gives_on_wr, appends_lit. unfold nonzero. rewrite forallb_forall in Hs.
  apply List.Forall_forall. intros c Hc. specialize (Hs c Hc).
  by apply negb_true_iff, Z.eqb_neq in Hs.
Qed.

Lemma gives_printf mt s : (length s <= 4094)%nat -> forallb (fun c => negb (c =? 0)) s = true ->
  gives mt (on_wr (wrbuf_printf s)) tt mt s.
Proof. intros Hl Hs. unfold wrbuf_printf. rewrite take_ge by done. by apply gives_lit. Qed.

(** ** Writing without a conversion *)

Section no_conversion.
Context (mt : yaz_marc (D := D) (E := E)) (Hcd : iconv_cd mt = None).

(** A conversion that is not there. *)
Lemma gives_through (wfunc : list Z -> Z -> M wrbuf unit) s n bs : appends (wfunc s n) bs ->
  gives mt (through (fun cd b => wrbuf_iconv_write2 d e wfunc cd s n b)) tt mt bs.
Proof.
  intros H b Hb. destruct (H b Hb) as ([] & b' & E1 & Hb' & Hc). exists b'.
  unfold through. cbn [fst snd]. rewrite Hcd. unfold wrbuf_iconv_write2. rewrite E1. cbn [mbind option_bind].
  rewrite <- Hcd, set_iconv_id. done.
Qed.

Lemma gives_cdata s rest : bytes_ok s -> gives mt (iconv_cdata d e (s ++ rest) (zlen s)) tt mt (xml_escape s).
Proof. intros Hs. by apply gives_through, wrbuf_xmlputs_n_spec. Qed.

Lemma gives_cdata_str s : string_ok s -> gives mt (iconv_cdata_str d e (cz s)) tt mt (xml_escape s).
Proof.
  intros [Hb Hn]. unfold iconv_cdata_str. eapply gives_lift; [by apply strlen_cz|]. by apply gives_cdata.
Qed.

Lemma gives_json_write s rest : bytes_ok s -> gives mt (iconv_json_write d e (s ++ rest) (zlen s)) tt mt (json_escape s).
Proof. intros Hs. by apply gives_through, wrbuf_json_write_spec. Qed.

Lemma gives_json_puts s : string_ok s -> gives mt (iconv_json_puts d e (cz s)) tt mt (json_escape s).
Proof.
  intros [Hb Hn] b Hwb. unfold iconv_json_puts, through, wrbuf_iconv_json_puts. rewrite strlen_cz by done.
  by apply (gives_json_write s [0] Hb b Hwb).
Qed.

(** A literal, with its terminator. *)
Lemma gives_iconv_puts m : m = removelast m ++ [0] -> forallb (fun c => negb (c =? 0)) (removelast m) = true ->
  gives mt (iconv_puts d e m) tt mt (removelast m).
Proof.
  intros Hm Hs. rewrite Hm at 1. apply gives_writes, writes_iconv_puts; [done|]. unfold nonzero.
  rewrite forallb_forall in Hs. apply List.Forall_forall. intros c Hc. by apply Z.eqb_neq, negb_true_iff, Hs.
Qed.

Lemma gives_reset : gives mt (marc_iconv_reset d e) tt mt [].
Proof. by apply gives_writes, writes_iconv_reset. Qed.

(** The size of a character, and of a code. *)
Lemma gives_one_character x rest : 0 < x < 0x200000 ->
  gives mt (on_mt (cdata_one_character d e (utf8 x ++ rest))) (zlen (utf8 x)) mt [].
Proof.
  intros Hx. apply gives_pure. intros b. unfold on_mt. cbn [fst snd].
  pose proof (sizeof_char_st d e mt Hcd x rest (nodes mt) Hx) as H. unfold yaz_marc_sizeof_char in H.
  assert (st mt (nodes mt) = mt) as Est by by destruct mt. rewrite Est in H. by rewrite H.
Qed.

Lemma gives_code_len idl code rest : code_ok idl code ->
  gives mt (get_subfield_len d e (code ++ rest) idl) (zlen code) mt [].
Proof.
  intros [_ H]. unfold get_subfield_len. destruct (2 <? idl); [rewrite <- H; apply gives_ret|].
  destruct H as (x & Hx & ->). by apply gives_one_character.
Qed.

(** The loop over the indicators. *)
Lemma gives_indicators f (g : Z -> Z -> list Z) n inds : forall fuel i,
  (forall i x rest, 0 <= i < n -> 0 < x < 0x200000 -> gives mt (f i (utf8 x ++ rest) (zlen (utf8 x))) tt mt (g i x)) ->
  Forall (fun x => 0 < x < 0x200000) inds -> (length inds < fuel)%nat -> 0 <= i -> i + zlen inds <= n ->
  gives mt (each_indicator d e f fuel i (cz (utf8_text inds))) tt mt (concat (numbered g i inds)).
Proof.
  induction inds as [|x inds IH]; intros fuel i Hf Hi Hl H0 Hn; (destruct fuel as [|fuel]; [simpl in Hl; lia|]).
  { apply gives_ret. }
  apply Forall_cons_1 in Hi as [Hx Hi]. cbn [each_indicator numbered concat].
  rewrite zlen_cons in Hn. pose proof (zlen_nonneg inds).
  assert (cz (utf8_text (x :: inds)) = utf8 x ++ cz (utf8_text inds)) as ->.
  { unfold cz, utf8_text. cbn [map concat]. by rewrite app_assoc. }
  assert (nonzero (utf8 x)) as Hnz.
  { pose proof (inds_nonzero [x] ltac:(by apply Forall_singleton)) as H'. unfold utf8_text in H'. simpl in H'.
    by rewrite app_nil_r in H'. }
  destruct (utf8 x) as [|c t] eqn:Eu.
  { pose proof (utf8_length x) as Hu. rewrite Eu in Hu. unfold zlen in Hu. simpl in Hu. lia. }
  apply Forall_cons_1 in Hnz as [Hc Ht]. eapply gives_lift; [reflexivity|].
  rewrite (proj2 (Z.eqb_neq c 0)) by done. rewrite <- Eu.
  apply (gives_bind mt mt mt _ _ (zlen (utf8 x)) tt []); [by apply gives_one_character|].
  eapply gives_bind; [apply Hf; lia|].
  replace (drop (Z.to_nat (zlen (utf8 x))) (utf8 x ++ cz (utf8_text inds))) with (cz (utf8_text inds))
    by (unfold zlen; by rewrite Nat2Z.id, drop_app_length).
  apply IH; [done|done|simpl in Hl; lia|lia|lia].
Qed.
End no_conversion.
End gives.

(** Follow the code of a writer; [t] proves a single operation. *)
Ltac gives_step t :=
  first
  [ apply gives_ret
  | solve [t]
  | apply gives_printf; [vm_compute; lia|reflexivity]
  | apply gives_lit; reflexivity
  | eapply gives_bind ].
Ltac gives_all t := repeat gives_step t.

(** Equality of concatenations up to association. *)
Ltac flatten := repeat (progress (cbn [app]; rewrite <- ?app_assoc, ?app_nil_r)); reflexivity.

(** ** JSON *)

(** The items of a list between commas. *)
Definition commas (ts : list (list Z)) : list Z :=
  match ts with
  | [] => []
  | t :: ts => t ++ concat (map (cons 44) ts)
  end.

Section json_text.
Context {double : Type}.

Definition sub_json (s : list Z * list Z) : json double := Jobj [(s.1, Jstr s.2)].

Definition ind_name (i : Z) : list Z := str "ind" ++ fmt_d (i + 1).

(** Comments have no JSON. *)
Definition item_json (i : item) : option (json double) :=
  match i with
  | IControl t v => Some (Jobj [(t, Jstr v)])
  | IData t inds subs => Some (Jobj [(t, Jobj (
      (str "subfields", Jarr (map sub_json subs)) :: numbered (fun i x => (ind_name i, Jstr (utf8 x))) 0 inds))])
  | IComment _ => None
  end.

Definition record_json (leader : list Z) (items : list item) : json double :=
  Jobj [(str "leader", Jstr leader); (str "fields", Jarr (omap item_json items))].
End json_text.

(** The texts, with the layout of the writer. *)
Definition member_text (k v : list Z) : list Z := quoted k ++ str ": " ++ quoted v.

Definition sub_text (s : list Z * list Z) : list Z :=
  str "          {" ++ nl ++ str "            " ++ member_text s.1 s.2 ++ nl ++ str "          }".

Fixpoint subs_json_text (sep : list Z) (subs : list (list Z * list Z)) : list Z :=
  match subs with
  | [] => []
  | s :: subs => sep ++ sub_text s ++ subs_json_text (str "," ++ nl) subs
  end.

Definition ind_text (i x : Z) : list Z :=
  str "," ++ nl ++ str "        " ++ member_text (ind_name i) (utf8 x).

Definition item_text (i : item) : option (list Z) :=
  match i with
  | IControl t v => Some (nl ++ str "    {" ++ nl ++ str "      " ++ member_text t v ++ nl ++ str "    }")
  | IData t inds subs => Some (nl ++ str "    {" ++ nl ++ str "      " ++ quoted t ++ str ": {" ++ nl ++
      str "        " ++ quoted (str "subfields") ++ str ": [" ++ nl ++ subs_json_text [] subs ++ nl ++ str "        ]" ++
      concat (numbered ind_text 0 inds) ++ nl ++ str "      }" ++ nl ++ str "    }")
  | IComment _ => None
  end.

Fixpoint items_text (first : bool) (items : list item) : list Z :=
  match items with
  | [] => []
  | i :: items =>
      match item_text i with
      | Some t => (if first then [] else [44]) ++ t ++ items_text false items
      | None => items_text first items
      end
  end.

Definition none_written (items : list item) : bool :=
  match omap item_text items with [] => true | _ => false end.

Definition record_text (leader : list Z) (items : list item) : list Z :=
  str "{" ++ nl ++ str "  " ++ member_text (str "leader") leader ++ str "," ++ nl ++
  str "  " ++ quoted (str "fields") ++ str ": [" ++ items_text true items ++
  (if none_written items then [] else nl ++ str "  ") ++ str "]" ++ nl ++ str "}".

(** *** The texts are texts of the values *)

Section renders.
Context {double : Type} (fmt_lg : double -> list Z).

Ltac by_ws := unfold ws, blank; by_decide.

Lemma item_texts_commas {X} (R : X -> list Z -> Prop) xs ts : Forall2 R xs ts -> item_texts R xs (commas ts).
Proof.
  assert (forall xs ts, Forall2 R xs ts -> tail_texts R xs (concat (map (cons 44) ts))) as Ht.
  { induction 1 as [|x t l lt Hx _ IH]; [done|]. by exists t, (concat (map (cons 44) lt)). }
  destruct 1 as [|x t l lt Hx Hl]; [done|]. eexists t, _. split; [reflexivity|]. split; [done|by apply Ht].
Qed.

Lemma renders_str w s : ws w -> renders fmt_lg (Jstr s) (w ++ quoted s).
Proof. intros Hw. by exists w, (quoted s). Qed.

Lemma renders_obj w body w' ms : ws w -> ws w' -> item_texts (renders_pair fmt_lg) ms body ->
  renders fmt_lg (Jobj ms) (w ++ [123] ++ body ++ w' ++ [125]).
Proof. intros Hw Hw' Hb. eexists w, _. split; [reflexivity|]. split; [done|]. by exists body, w'. Qed.

Lemma renders_arr w body w' js : ws w -> ws w' -> item_texts (renders fmt_lg) js body ->
  renders fmt_lg (Jarr js) (w ++ [91] ++ body ++ w' ++ [93]).
Proof. intros Hw Hw' Hb. eexists w, _. split; [reflexivity|]. split; [done|]. by exists body, w'. Qed.

Lemma pair_text w k j b : ws w -> renders fmt_lg j b -> renders_pair fmt_lg (k, j) (w ++ quoted k ++ [58] ++ b).
Proof. intros Hw Hb. by exists w, b. Qed.

Lemma renders_member w k v : ws w -> renders_pair fmt_lg (k, Jstr v) (w ++ member_text k v).
Proof. intros Hw. apply (pair_text w k (Jstr v) ([32] ++ quoted v)); [done|]. apply renders_str. by_ws. Qed.

Lemma item_texts_one {X} (R : X -> list Z -> Prop) x b : R x b -> item_texts R [x] b.
Proof. intros H. exists b, []. by rewrite app_nil_r. Qed.

(** The subfields after the opening bracket. *)
Lemma subs_commas subs : subs <> [] ->
  nl ++ subs_json_text [] subs = commas (map (fun s => nl ++ sub_text s) subs).
Proof.
  assert (forall l, subs_json_text (str "," ++ nl) l = concat (map (cons 44) (map (fun s => nl ++ sub_text s) l))) as Ht.
  { induction l as [|s l IH]; [done|]. cbn [subs_json_text map concat]. by rewrite IH. }
  destruct subs as [|s l]; [done|]. intros _. cbn [subs_json_text map commas]. rewrite Ht. done.
Qed.

Lemma renders_sub s : renders fmt_lg (sub_json s) (nl ++ sub_text s).
Proof.
  unfold sub_text, sub_json.
  apply (renders_obj (nl ++ str "          ") (nl ++ str "            " ++ member_text s.1 s.2) (nl ++ str "          "));
    [by_ws|by_ws|]. apply item_texts_one. rewrite app_assoc. apply renders_member. by_ws.
Qed.

Lemma renders_subs subs :
  renders fmt_lg (Jarr (map sub_json subs)) (str " [" ++ nl ++ subs_json_text [] subs ++ nl ++ str "        ]").
Proof.
  destruct subs as [|s l].
  { apply (renders_arr [32] [] (nl ++ nl ++ str "        ")); [by_ws|by_ws|done]. }
  rewrite (app_assoc nl), subs_commas by done.
  apply (renders_arr [32] _ (nl ++ str "        ")); [by_ws|by_ws|].
  apply item_texts_commas, Forall2_fmap_2. apply Forall_Forall2_diag, Forall_forall. intros x _. apply renders_sub.
Qed.

Lemma renders_inds inds : forall i,
  tail_texts (renders_pair fmt_lg) (numbered (fun i x => (ind_name i, Jstr (utf8 x))) i inds)
    (concat (numbered ind_text i inds)).
Proof.
  induction inds as [|x inds IH]; intros i; [done|]. cbn [numbered concat].
  eexists ((nl ++ str "        ") ++ member_text (ind_name i) (utf8 x)), _.
  split; [|split; [apply renders_member; by_ws|apply IH]]. done.
Qed.

Lemma renders_item i j t : item_json i = Some j -> item_text i = Some t -> renders fmt_lg j t.
Proof.
  intros Ej Et. destruct i as [tag v|tag inds subs|]; [| |done]; simplify_eq Ej; intros <-; simplify_eq Et; intros <-; clear Ej Et.
  - apply (renders_obj (nl ++ str "    ") (nl ++ str "      " ++ member_text tag v) (nl ++ str "    ")); [by_ws|by_ws|].
    apply item_texts_one. rewrite app_assoc. apply renders_member. by_ws.
  - set (st := subs_json_text [] subs). set (it := concat (numbered ind_text 0 inds)).
    set (sp := quoted (str "subfields") ++ str ": [" ++ nl ++ st ++ nl ++ str "        ]").
    assert (renders fmt_lg (Jobj ((str "subfields", Jarr (map sub_json subs)) ::
        numbered (fun i x => (ind_name i, Jstr (utf8 x))) 0 inds))
      ([32] ++ [123] ++ ((nl ++ str "        ") ++ sp ++ it) ++ (nl ++ str "      ") ++ [125])) as Hin.
    { apply renders_obj; [by_ws|by_ws|]. rewrite app_assoc. eexists _, it. split; [reflexivity|].
      split; [|apply renders_inds].
      apply (pair_text _ _ _ (str " [" ++ nl ++ st ++ nl ++ str "        ]")); [by_ws|apply renders_subs]. }
    assert (renders_pair fmt_lg (tag, Jobj ((str "subfields", Jarr (map sub_json subs)) ::
        numbered (fun i x => (ind_name i, Jstr (utf8 x))) 0 inds))
      ((nl ++ str "      ") ++ quoted tag ++ [58] ++
       [32] ++ [123] ++ ((nl ++ str "        ") ++ sp ++ it) ++ (nl ++ str "      ") ++ [125])) as Hp
      by (apply pair_text; [by_ws|done]).
    pose proof (renders_obj (nl ++ str "    ") _ (nl ++ str "    ") _ ltac:(by_ws) ltac:(by_ws) (item_texts_one _ _ _ Hp)) as H.
    unfold sp in H. rewrite <- !app_assoc in H. exact H.
Qed.

Lemma items_commas items : items_text true items = commas (omap item_text items).
Proof.
  assert (forall l, items_text false l = concat (map (cons 44) (omap item_text l))) as Ht.
  { induction l as [|i l IH]; [done|]. cbn [items_text omap list_omap]. rewrite IH. by destruct (item_text i). }
  induction items as [|i l IH]; [done|]. cbn [items_text omap list_omap]. destruct (item_text i) as [t|]; [|done].
  cbn [commas app]. by rewrite Ht.
Qed.

Lemma renders_items items : Forall2 (renders fmt_lg) (omap item_json items) (omap item_text items).
Proof.
  induction items as [|i l IH]; [constructor|]. cbn [omap list_omap].
  destruct (item_json i) as [j|] eqn:Ej, (item_text i) as [t|] eqn:Et; [|by destruct i..].
  constructor; [by apply (renders_item i)|done].
Qed.

Lemma renders_record leader items : renders fmt_lg (record_json leader items) (record_text leader items).
Proof.
  set (w := if none_written items then [] else nl ++ str "  ").
  assert (ws w) as Hw by (unfold w; destruct (none_written items); by_ws).
  assert (renders fmt_lg (Jarr (omap item_json items)) ([32] ++ [91] ++ items_text true items ++ w ++ [93])) as Ha.
  { apply renders_arr; [by_ws|done|]. rewrite items_commas. apply item_texts_commas, renders_items. }
  assert (renders_pair fmt_lg (str "fields", Jarr (omap item_json items))
    ((nl ++ str "  ") ++ quoted (str "fields") ++ [58] ++ [32] ++ [91] ++ items_text true items ++ w ++ [93])) as Hf
    by (apply pair_text; [by_ws|done]).
  assert (item_texts (renders_pair fmt_lg) [(str "leader", Jstr leader); (str "fields", Jarr (omap item_json items))]
    (((nl ++ str "  ") ++ member_text (str "leader") leader) ++
     44 :: ((nl ++ str "  ") ++ quoted (str "fields") ++ [58] ++ [32] ++ [91] ++ items_text true items ++ w ++ [93]) ++ [])) as Hb.
  { eexists _, _. split; [reflexivity|]. split; [apply renders_member; by_ws|]. eexists _, []. done. }
  pose proof (renders_obj [] _ nl _ ltac:(by_ws) ltac:(by_ws) Hb) as H.
  unfold record_text. fold w. rewrite app_nil_r in H.
  do 4 (cbn [app] in H; rewrite <- ?app_assoc in H).
  exact H.
Qed.
End renders.

(** *** Values that can be read back *)

Lemma string_ok_utf8 x : 0 < x < 0x200000 -> string_ok (utf8 x).
Proof.
  intros Hx. split; [apply utf8_bytes; lia|].
  pose proof (inds_nonzero [x] ltac:(by apply Forall_singleton)) as H. unfold utf8_text in H. simpl in H.
  by rewrite app_nil_r in H.
Qed.

(** The numbers of indicators. *)
Ltac nine_cases i Hi :=
  let H := fresh in
  assert (i = 0 \/ i = 1 \/ i = 2 \/ i = 3 \/ i = 4 \/ i = 5 \/ i = 6 \/ i = 7 \/ i = 8) as H by lia;
  clear Hi; repeat destruct H as [-> |H]; try subst i.

Lemma fmt_d_short i : 0 <= i < 9 -> string_ok (ind_name i) /\ (length (ind_name i) <= 10)%nat.
Proof.
  intros Hi. nine_cases i Hi; (split; [apply string_okb; reflexivity|vm_compute; lia]).
Qed.

Lemma Forall_numbered {A B} (P : B -> Prop) (f : Z -> A -> B) n l : forall i,
  (forall i x, 0 <= i < n -> In x l -> P (f i x)) -> 0 <= i -> i + zlen l <= n -> Forall P (numbered f i l).
Proof.
  induction l as [|x l IH]; intros i H H0 Hn; [constructor|]. rewrite zlen_cons in Hn. pose proof (zlen_nonneg l).
  constructor; [apply H; [lia|by left]|]. apply IH; [|lia|lia]. intros. apply H; [done|by right].
Qed.

Lemma maximum_le {X} (f : X -> Z) m xs : 0 <= m -> Forall (fun x => f x <= m) xs -> maximum f xs <= m.
Proof. intros Hm. induction 1 as [|x xs Hx _ IH]; simpl; lia. Qed.

Section values.
Context {double : Type} (strtod : list Z -> double * Z) (fmt_lg : double -> list Z).

Lemma item_json_ok idl i j : item_ok idl i -> item_json i = Some j -> json_ok strtod fmt_lg j /\ depth j <= 4.
Proof.
  intros Hok Ej. destruct i as [t v|t inds subs|]; [| |done]; simplify_eq Ej; intros <-; clear Ej.
  - destruct Hok. split; [cbn; auto|]. simpl. lia.
  - destruct Hok as (Ht & Hi & Hn & Hs).
    assert (all (fun m => string_ok m.1 /\ json_ok strtod fmt_lg m.2)
      (numbered (fun i x => (ind_name i, Jstr (utf8 x))) 0 inds)) as Hind.
    { apply all_Forall, (Forall_numbered _ _ 9); [|lia|lia]. intros i x Hr Hx. rewrite List.Forall_forall in Hi.
      split; [by apply fmt_d_short|]. by apply string_ok_utf8, Hi. }
    assert (all (json_ok strtod fmt_lg) (map sub_json subs)) as Hsub.
    { apply all_Forall, Forall_fmap. eapply Forall_impl; [exact Hs|]. intros s [[Hc _] Hd]. cbn. auto. }
    split.
    { split; [|done]. split; [done|]. split; [|exact Hind]. split; [apply string_okb; reflexivity|exact Hsub]. }
    assert (maximum depth (map (sub_json (double := double)) subs) <= 1) as H1.
    { apply maximum_le; [lia|]. apply Forall_fmap. apply Forall_forall. intros s _. simpl. lia. }
    assert (maximum (fun m : list Z * json double => depth m.2)
      (numbered (fun i x => (ind_name i, Jstr (utf8 x))) 0 inds) <= 0) as H2.
    { apply maximum_le; [lia|]. apply (Forall_numbered _ _ 9); [|lia|lia]. intros. simpl. lia. }
    cbn. cbn in H1, H2. lia.
Qed.

Lemma record_json_ok leader idl items : string_ok leader -> Forall (item_ok idl) items ->
  json_ok strtod fmt_lg (record_json leader items) /\ depth (record_json (double := double) leader items) <= 1000.
Proof.
  intros Hl Hi.
  assert (Forall (fun j => json_ok strtod fmt_lg j /\ depth j <= 4) (omap item_json items)) as H.
  { induction Hi as [|i items Hi _ IH]; [constructor|]. cbn [omap list_omap].
    destruct (item_json i) as [j|] eqn:Ej; [|done]. constructor; [by eapply item_json_ok|done]. }
  apply Forall_and in H as [H1 H2]. split.
  - cbn. split; [split; [apply string_okb; reflexivity|done]|]. split; [|done].
    split; [apply string_okb; reflexivity|]. by apply all_Forall.
  - assert (maximum depth (omap (item_json (double := double)) items) <= 4) as Hm by (apply maximum_le; [lia|done]).
    cbn. cbn in Hm. lia.
Qed.
End values.

(** *** The writer *)

Section writer.
Context {D E : Type} (d : yaz_iconv_decoder_s D) (e : yaz_iconv_encoder_s E) (junk : Z -> Z).
Context (lib : list Z -> bool -> M (yaz_marc (D := D) (E := E) * wrbuf) Z).
Context (mt : yaz_marc (D := D) (E := E)) (Hcd : iconv_cd mt = None).

Lemma cz_app s t : cz (s ++ t) = s ++ cz t.
Proof. unfold cz. by rewrite app_assoc. Qed.

Lemma drop_zlen {A} (s t : list A) : drop (Z.to_nat (zlen s)) (s ++ t) = t.
Proof. unfold zlen. by rewrite Nat2Z.id, drop_app_length. Qed.

Lemma gives_json_subs idl subs : forall sep, forallb (fun c => negb (c =? 0)) sep = true ->
  Forall (fun s => code_ok idl s.1 /\ string_ok s.2) subs ->
  gives mt (write_json_subfields d e idl sep (map (fun s => cz (s.1 ++ s.2)) subs)) tt mt (subs_json_text sep subs).
Proof.
  induction subs as [|s subs IH]; intros sep Hsep H; [apply gives_ret|].
  apply Forall_cons_1 in H as [[Hc Hd] H]. cbn [map write_json_subfields subs_json_text]. rewrite cz_app.
  eapply gives_eq; [|eapply gives_bind; [by apply (gives_code_len d e)|]; rewrite drop_zlen;
    gives_all ltac:(first [by apply gives_lit|by apply (gives_json_write d e), Hc|by apply (gives_json_puts d e)|by apply IH])].
  unfold sub_text, member_text, quoted, dq. flatten.
Qed.

Lemma gives_json_ind i x rest : 0 <= i < 9 -> 0 < x < 0x200000 ->
  gives mt (on_wr (wrbuf_printf (str "," ++ nl ++ str "        " ++ dq ++ str "ind" ++ fmt_d (i + 1) ++ dq ++ str ": " ++ dq)) ;;
    on_wr (wrbuf_json_write (utf8 x ++ rest) (zlen (utf8 x))) ;; on_wr (wrbuf_printf dq)) tt mt (ind_text i x).
Proof.
  intros Hi Hx. eapply gives_eq; [|eapply gives_bind; [|eapply gives_bind;
    [apply gives_on_wr, wrbuf_json_write_spec, string_ok_utf8, Hx|apply gives_printf; [vm_compute; lia|reflexivity]]]].
  2: { clear Hx. instantiate (1 := str "," ++ nl ++ str "        " ++ dq ++ str "ind" ++ fmt_d (i + 1) ++ dq ++ str ": " ++ dq).
       nine_cases i Hi; (apply gives_printf; [vm_compute; lia|reflexivity]). }
  unfold ind_text, member_text, ind_name, quoted, dq. nine_cases i Hi; reflexivity.
Qed.

Lemma inds_fuel inds : (length inds < length (cz (utf8_text inds)))%nat.
Proof.
  unfold cz. rewrite length_app. simpl. enough (length inds <= length (utf8_text inds))%nat by lia.
  induction inds as [|x l IH]; [done|]. unfold utf8_text in *. cbn [map concat length]. rewrite length_app.
  pose proof (utf8_length x). unfold zlen in *. lia.
Qed.

Lemma gives_sep (first : bool) :
  gives mt (if first then ret tt else on_wr (wrbuf_lit (str ","))) tt mt (if first then [] else [44]).
Proof. destruct first; [apply gives_ret|by apply gives_lit]. Qed.

Lemma gives_end (first : bool) :
  gives mt (if first then ret tt else on_wr (wrbuf_lit (nl ++ str "  "))) tt mt (if first then [] else nl ++ str "  ").
Proof. destruct first; [apply gives_ret|by apply gives_lit]. Qed.

Lemma gives_json_nodes idl items : forall first, Forall (item_ok idl) items ->
  gives mt (write_json_nodes d e idl first (map item_node items)) (first && none_written items) mt (items_text first items).
Proof.
  induction items as [|i items IH]; intros first H.
  { cbn. rewrite andb_true_r. apply gives_ret. }
  apply Forall_cons_1 in H as [Hi H]. destruct i as [t v|t inds subs|c].
  - destruct Hi as [Ht Hv]. cbn [map item_node write_json_nodes items_text item_text].
    specialize (IH false H). cbn [andb] in IH. cbn [none_written omap list_omap item_text]. rewrite andb_false_r.
    eapply gives_eq; [|gives_all ltac:(first [apply gives_sep|by apply (gives_json_puts d e)|exact IH])].
    unfold member_text, quoted, dq. flatten.
  - destruct Hi as (Ht & Hi & Hn & Hs). cbn [map item_node write_json_nodes items_text item_text].
    specialize (IH false H). cbn [andb] in IH. cbn [none_written omap list_omap item_text]. rewrite andb_false_r.
    eapply gives_eq; [|gives_all ltac:(first
      [ apply gives_sep | by apply gives_json_subs | exact IH
      | by apply gives_on_wr, wrbuf_json_puts_spec; apply Ht
      | apply (gives_indicators d e mt Hcd _ ind_text 9 inds);
          [intros; by apply gives_json_ind|done|apply inds_fuel|lia|lia] ])].
    unfold member_text, quoted, dq. flatten.
  - cbn [map item_node write_json_nodes items_text item_text]. apply IH, H.
Qed.

Lemma identifier_length leader idl : ldr_ok leader idl ->
  atoi_n_check (drop 11 (cz leader)) 1 0 = Some (1, idl).
Proof. intros (_ & _ & H & Hi). unfold cz. by apply digit_at. Qed.

Lemma leader_nodes leader items :
  find_leader (Leader leader :: map item_node items) = Some leader /\
  last_leader (Leader leader :: map item_node items) = Some leader.
Proof.
  split; [done|]. cbn [last_leader]. enough (last_leader (map item_node items) = None) as -> by done.
  induction items as [|[] items IH]; done.
Qed.

Lemma gives_json leader idl items :
  nodes mt = Leader (cz leader) :: map item_node items -> ldr_ok leader idl -> Forall (item_ok idl) items ->
  gives mt (yaz_marc_write_json d e) 0 mt (record_text leader items ++ nl).
Proof.
  intros Hn Hl Hi. unfold yaz_marc_write_json.
  apply gives_get. rewrite Hn. destruct (leader_nodes (cz leader) items) as [_ ->]. cbn iota.
  eapply gives_eq; [|eapply gives_bind; [apply gives_lit; reflexivity|];
    eapply gives_lift; [by apply identifier_length|]; cbn [Z.eqb];
    gives_all ltac:(first [ by apply gives_on_wr, wrbuf_json_puts_spec; apply Hl
                          | apply (gives_json_nodes idl items true Hi)
                          | apply (gives_end (none_written items)) ])].
  unfold record_text, member_text, quoted, dq.
  change (json_escape (str "leader")) with (str "leader"). change (json_escape (str "fields")) with (str "fields").
  flatten.
Qed.
End writer.

(** ** XML *)

#[local] Unset Elimination Schemes.
Inductive xml :=
  | XElem (name : list Z) (attrs : list (list Z * list Z)) (children : list xml)
  | XText (text : list Z)
  | XComment (comment : list Z).
#[local] Set Elimination Schemes.

Definition attr_text (a : list Z * list Z) : list Z :=
  str " " ++ a.1 ++ str "=" ++ dq ++ xml_escape a.2 ++ dq.

Fixpoint xml_print (x : xml) : list Z :=
  match x with
  | XElem n attrs cs =>
      str "<" ++ n ++ concat (map attr_text attrs) ++ str ">" ++
      concat (map xml_print cs) ++ str "</" ++ n ++ str ">"
  | XText s => xml_escape s
  | XComment s => str "<!--" ++ s ++ str "-->"
  end.

Definition xml_prints (xs : list xml) : list Z := concat (map xml_print xs).

(** An indented element on a line of its own. *)
Definition xml_line (indent : list Z) (x : xml) : list xml := [XText indent; x; XText nl].

(** A subfield; turbomarc puts the code in the name of the element if it can. *)
Definition sub_xml (turbo : bool) (s : list Z * list Z) : list xml :=
  let named := turbo && forallb alnum s.1 in
  xml_line (str "    ") (XElem (subfield_name turbo ++ (if named then s.1 else []))
    (if named then [] else [(str "code", s.1)]) [XText s.2]).

Definition ind_attr (turbo : bool) (i x : Z) : list Z * list Z :=
  (indicator_name turbo ++ fmt_d (i + 1), utf8 x).

(** The tag of a field is part of the name of the element in turbomarc. *)
Definition tag_name (turbo : bool) (name tag : list Z) : list Z := name ++ (if turbo then tag else []).
Definition tag_attr (turbo : bool) (tag : list Z) : list (list Z * list Z) :=
  if turbo then [] else [(str "tag", tag)].

Definition item_xml (turbo : bool) (i : item) : list xml :=
  match i with
  | IControl t v =>
      xml_line (str "  ") (XElem (tag_name turbo (controlfield_name turbo) t) (tag_attr turbo t) [XText v])
  | IData t inds subs =>
      xml_line (str "  ") (XElem (tag_name turbo (datafield_name turbo) t)
        (tag_attr turbo t ++ numbered (ind_attr turbo) 0 inds)
        (XText nl :: concat (map (sub_xml turbo) subs) ++ [XText (str "  ")]))
  | IComment c => [XComment (str " " ++ c ++ str " "); XText nl]
  end.

Definition record_xml (turbo : bool) (attrs : list (list Z * list Z)) (leader : list Z) (items : list item) : xml :=
  XElem (record_name turbo) attrs
    (XText nl :: xml_line (str "  ") (XElem (leader_name turbo) [] [XText leader]) ++
     concat (map (item_xml turbo) items)).

(** In turbomarc the tags must be names. *)
Definition tag_ok (turbo : bool) (i : item) : Prop :=
  match i with
  | IControl t _ | IData t _ _ => turbo = true -> forallb alnum t = true
  | IComment _ => True
  end.

Lemma escape_alnum s : forallb alnum s = true -> xml_escape s = s.
Proof.
  unfold xml_escape. induction s as [|c s IH]; [done|]. cbn [forallb map concat]. intros [Hc Hs]%andb_true_iff.
  rewrite IH by done. unfold alnum in Hc. unfold xml_octet, xml_ctrl.
  rewrite !orb_true_iff, !andb_true_iff, !Z.leb_le in Hc.
  rewrite (proj2 (Z.leb_gt c 31)) by lia. rewrite andb_false_r. cbn [andb].
  rewrite !(proj2 (Z.eqb_neq _ _)) by lia. done.
Qed.

Lemma alnum_s8 c : byte_ok c -> alnum (s8 c) = alnum c.
Proof.
  intros Hc. destruct (decide (c < 128)).
  - unfold s8. by rewrite swrap_small by (unfold byte_ok in Hc; lia).
  - unfold byte_ok in Hc. assert (s8 c = c - 256) as -> by (unfold s8, swrap; Z.to_euclidean_division_equations; lia).
    unfold alnum. rewrite (proj2 (Z.leb_gt 48 _)), (proj2 (Z.leb_gt 97 _)), (proj2 (Z.leb_gt 65 _)) by lia.
    rewrite (proj2 (Z.leb_gt c 57)), (proj2 (Z.leb_gt c 122)), (proj2 (Z.leb_gt c 90)) by lia.
    by rewrite !andb_false_r.
Qed.

Lemma alnum_code s : bytes_ok s -> forallb (fun c => alnum (s8 c)) s = forallb alnum s.
Proof. induction 1 as [|c s Hc _ IH]; [done|]. cbn [forallb]. by rewrite IH, alnum_s8. Qed.

Lemma xml_prints_app xs ys : xml_prints (xs ++ ys) = xml_prints xs ++ xml_prints ys.
Proof. unfold xml_prints. by rewrite map_app, concat_app. Qed.

Lemma xml_prints_concat {A} (f : A -> list xml) l : xml_prints (concat (map f l)) = concat (map (fun x => xml_prints (f x)) l).
Proof. induction l as [|x l IH]; [done|]. cbn [map concat]. by rewrite xml_prints_app, IH. Qed.

Section xml_writer.
Context {D E : Type} (d : yaz_iconv_decoder_s D) (e : yaz_iconv_encoder_s E).
Context (mt : yaz_marc (D := D) (E := E)) (Hcd : iconv_cd mt = None).

Lemma gives_if (c : bool) (m1 m2 : M _ unit) bs1 bs2 : gives mt m1 tt mt bs1 -> gives mt m2 tt mt bs2 ->
  gives mt (if c then m1 else m2) tt mt (if c then bs1 else bs2).
Proof. by destruct c. Qed.

(** The code of a turbo subfield, as an attribute if it is not a name, and in the
    end tag. *)
Lemma gives_code_attr (code rest : list Z) : string_ok code ->
  gives mt (element_name_append_attribute_value d e (Some (str "code")) (code ++ rest) (zlen code)) 0 mt
    (if forallb alnum code then code else attr_text (str "code", code)).
Proof.
  intros [Hb _]. unfold element_name_append_attribute_value. rewrite sub_all. eapply gives_lift; [done|].
  cbv beta zeta. rewrite alnum_code by done. destruct (forallb alnum code) eqn:Ea; cbn [negb].
  - eapply gives_eq; [|gives_all ltac:(by apply (gives_cdata d e))]. by rewrite escape_alnum, app_nil_r.
  - eapply gives_eq; [|gives_all ltac:(by apply (gives_cdata d e))]. unfold attr_text, dq. cbn [fst snd]. flatten.
Qed.

Lemma gives_code_end (code rest : list Z) : string_ok code -> exists r,
  gives mt (element_name_append_attribute_value d e None (code ++ rest) (zlen code)) r mt
    (if forallb alnum code then code else []).
Proof.
  intros [Hb _]. unfold element_name_append_attribute_value. rewrite sub_all.
  destruct (forallb alnum code) eqn:Ea; [exists 0|exists (-1)]; (eapply gives_lift; [done|]);
    cbv beta zeta; rewrite alnum_code, Ea by done; cbn [negb].
  - eapply gives_eq; [|gives_all ltac:(by apply (gives_cdata d e))]. by rewrite escape_alnum, app_nil_r.
  - apply gives_ret.
Qed.

Lemma gives_sub turbo idl s : code_ok idl s.1 -> string_ok s.2 ->
  gives mt (write_xml_subfield d e turbo idl (cz (s.1 ++ s.2))) tt mt (xml_prints (sub_xml turbo s)).
Proof.
  intros Hc Hd. pose proof Hc as [Hs _]. rewrite cz_app. unfold write_xml_subfield.
  destruct (gives_code_end s.1 (cz s.2) Hs) as (r & Hend).
  destruct turbo; cbn [negb].
  all: eapply gives_eq; [|eapply gives_bind; [by apply (gives_code_len d e)|]; rewrite drop_zlen;
    gives_all ltac:(first
        [ by apply gives_code_attr | exact Hend | by apply (gives_cdata d e), Hs | by apply (gives_cdata_str d e)
        | by apply (gives_iconv_puts d e) | by apply (gives_reset d e) ])].
  - unfold sub_xml, xml_prints, xml_line. cbn [andb]. destruct (forallb alnum s.1); cbn [map concat xml_print]; flatten.
  - unfold sub_xml, xml_prints, xml_line. cbn [andb map concat xml_print]. unfold attr_text, dq. cbn [fst snd]. flatten.
Qed.

Lemma gives_xml_ind turbo i x rest : 0 <= i < 9 -> 0 < x < 0x200000 ->
  gives mt (on_wr (wrbuf_printf (str " " ++ indicator_name turbo ++ fmt_d (i + 1) ++ str "=" ++ dq)) ;;
    iconv_cdata d e (utf8 x ++ rest) (zlen (utf8 x)) ;; iconv_puts d e (dq ++ [0])) tt mt (attr_text (ind_attr turbo i x)).
Proof.
  intros Hi Hx. eapply gives_eq; [|eapply gives_bind; [|eapply gives_bind;
    [apply (gives_cdata d e), string_ok_utf8, Hx; done|by apply (gives_iconv_puts d e)]]].
  2: { clear Hx. instantiate (1 := str " " ++ indicator_name turbo ++ fmt_d (i + 1) ++ str "=" ++ dq).
       nine_cases i Hi; destruct turbo; (apply gives_printf; [vm_compute; lia|reflexivity]). }
  unfold attr_text, ind_attr, dq. cbn [fst snd removelast app]. flatten.
Qed.

Lemma map_numbered {A B C} (h : B -> C) (f : Z -> A -> B) l : forall i,
  map h (numbered f i l) = numbered (fun i x => h (f i x)) i l.
Proof. induction l as [|x l IH]; intros i; [done|]. cbn [numbered map]. by rewrite IH. Qed.

Lemma gives_subs turbo idl subs : Forall (fun s => code_ok idl s.1 /\ string_ok s.2) subs ->
  gives mt (each (write_xml_subfield d e turbo idl) (map (fun s => cz (s.1 ++ s.2)) subs)) tt mt
    (xml_prints (concat (map (sub_xml turbo) subs))).
Proof.
  induction 1 as [|s subs [Hc Hd] _ IH]; [apply gives_ret|]. cbn [map each concat].
  rewrite xml_prints_app. eapply gives_bind; [by apply gives_sub|done].
Qed.

Lemma gives_item turbo idl i : item_ok idl i -> tag_ok turbo i ->
  gives mt (write_xml_node d e turbo idl (item_node i)) tt mt (xml_prints (item_xml turbo i)).
Proof.
  intros Hi Ht. destruct i as [t v|t inds subs|c]; cbn [item_node write_xml_node].
  - destruct Hi as [H1 H2]. destruct turbo; cbn [negb].
    all: eapply gives_eq; [|gives_all ltac:(first
        [ by apply (gives_cdata_str d e) | by apply (gives_iconv_puts d e) | by apply (gives_reset d e) ])].
    + rewrite escape_alnum by by apply Ht. unfold item_xml, xml_prints, xml_line. cbn [map concat xml_print]. flatten.
    + unfold item_xml, xml_prints, xml_line. cbn [map concat xml_print tag_attr]. unfold attr_text, dq. cbn [fst snd].
      flatten.
  - destruct Hi as (H1 & H2 & H3 & H4).
    assert (gives mt (each_indicator d e (fun i at_ ilen =>
        on_wr (wrbuf_printf (str " " ++ indicator_name turbo ++ fmt_d (i + 1) ++ str "=" ++ dq)) ;;
        iconv_cdata d e at_ ilen ;; iconv_puts d e (dq ++ [0])) (length (cz (utf8_text inds))) 0 (cz (utf8_text inds))) tt mt
      (concat (map attr_text (numbered (ind_attr turbo) 0 inds)))) as Hind.
    { rewrite map_numbered. apply (gives_indicators d e mt Hcd _ _ 9);
        [intros; by apply gives_xml_ind|done|apply inds_fuel|lia|lia]. }
    destruct turbo; cbn [negb].
    all: eapply gives_eq; [|gives_all ltac:(first
        [ exact Hind | by apply gives_subs | by apply (gives_cdata_str d e) ])].
    + rewrite escape_alnum by by apply Ht. unfold item_xml, xml_prints, xml_line. cbn [map concat xml_print tag_attr app].
      rewrite map_app, concat_app. flatten.
    + unfold item_xml, xml_prints, xml_line. cbn [map concat xml_print tag_attr app]. rewrite map_app, concat_app.
      unfold attr_text at 1. unfold dq. cbn [fst snd map concat xml_print]. flatten.
  - eapply gives_eq; [|gives_all ltac:(by apply gives_on_wr, appends_puts, Hi)].
    unfold item_xml, xml_prints. cbn [map concat xml_print]. flatten.
Qed.
End xml_writer.

(** *** Records and collections *)

Definition xmlns (ns : list Z) : list Z * list Z := (str "xmlns", ns).

(** What the state of the collection adds: attributes of the record, the start of
    the document, and the next state. *)
Definition collection_attrs (c : collection_state) (ns : list Z) : list (list Z * list Z) :=
  match c with no_collection => [xmlns ns] | _ => [] end.
Definition collection_open (c : collection_state) (ns : list Z) : list Z :=
  match c with
  | collection_first => str "<collection" ++ attr_text (xmlns ns) ++ str ">" ++ nl
  | _ => []
  end.
Definition collection_next (c : collection_state) : collection_state :=
  match c with no_collection => no_collection | _ => collection_second end.

(** The formats over XML: the name space, whether it is turbomarc, and whether
    the leader is changed to say Unicode. *)
Definition xml_formats : list (Z * (list Z * bool * bool)) :=
  [(YAZ_MARC_MARCXML, (marcxml_ns, false, true)); (YAZ_MARC_TURBOMARC, (turbomarc_ns, true, true));
   (YAZ_MARC_XCHANGE, (marcxchange_ns, false, false))].

Section xml_record.
Context {D E : Type} (d : yaz_iconv_decoder_s D) (e : yaz_iconv_encoder_s E) (junk : Z -> Z).
Context (lib : list Z -> bool -> M (yaz_marc (D := D) (E := E) * wrbuf) Z).
Implicit Types (mt : yaz_marc (D := D) (E := E)).

Lemma gives_items mt turbo idl items : iconv_cd mt = None ->
  Forall (item_ok idl) items -> Forall (tag_ok turbo) items ->
  gives mt (each (write_xml_node d e turbo idl) (map item_node items)) tt mt
    (xml_prints (concat (map (item_xml turbo) items))).
Proof.
  intros Hcd. induction 1 as [|i items Hi _ IH]; intros Ht; [apply gives_ret|].
  apply Forall_cons_1 in Ht as [Ht1 Ht]. cbn [map each concat]. rewrite xml_prints_app.
  eapply gives_bind; [by apply gives_item|by apply IH].
Qed.

Lemma gives_leader mt turbo idl leader : string_ok leader ->
  gives mt (write_xml_node d e turbo idl (Leader (cz leader))) tt mt
    (xml_prints (xml_line (str "  ") (XElem (leader_name turbo) [] [XText leader]))).
Proof.
  intros Hl. cbn [write_xml_node].
  assert (appends (wrbuf_xmlputs (cz leader)) (xml_escape leader)) as Hx.
  { unfold wrbuf_xmlputs. eapply appends_lift; [by apply strlen_cz; apply Hl|]. apply wrbuf_xmlputs_n_spec, Hl. }
  destruct turbo.
  all: eapply gives_eq; [|gives_all ltac:(by apply gives_on_wr)].
  all: unfold xml_prints, xml_line; cbn [map concat xml_print]; flatten.
Qed.

(** The start of a record. *)
Lemma gives_open mt f ns turbo uni : In (f, (ns, turbo, uni)) xml_formats ->
  gives mt (match enable_collection mt with
      | no_collection => on_wr (wrbuf_printf (str "<" ++ record_name turbo ++ str " xmlns=" ++ dq ++ ns ++ dq))
      | c =>
          match c with
          | collection_first =>
              on_wr (wrbuf_printf (str "<collection xmlns=" ++ dq ++ ns ++ dq ++ str ">" ++ nl)) ;;
              on_mt (modify (set_collection collection_second))
          | _ => ret tt
          end ;;
          on_wr (wrbuf_printf (str "<" ++ record_name turbo))
      end) tt (set_collection (collection_next (enable_collection mt)) mt)
    (collection_open (enable_collection mt) ns ++ str "<" ++ record_name turbo ++
     concat (map attr_text (collection_attrs (enable_collection mt) ns))).
Proof.
  intros Hf. assert (forall c, enable_collection mt = c -> set_collection c mt = mt) as Hsame by (intros c <-; by destruct mt).
  destruct (enable_collection mt) eqn:Ec; cbn [collection_open collection_attrs collection_next].
  - rewrite Hsame by done. repeat destruct Hf as [[= <- <- <- <-]|Hf]; [..|done].
    all: apply gives_printf; [vm_compute; lia|reflexivity].
  - assert (gives mt (on_mt (modify (set_collection collection_second))) tt (set_collection collection_second mt) []) as Hm
      by by apply gives_pure.
    repeat destruct Hf as [[= <- <- <- <-]|Hf]; [..|done].
    all: eapply gives_eq; [|gives_all ltac:(exact Hm)]; reflexivity.
  - rewrite Hsame by done. repeat destruct Hf as [[= <- <- <- <-]|Hf]; [..|done].
    all: eapply gives_eq; [|gives_all ltac:(fail)]; reflexivity.
Qed.

Lemma gives_record mt f ns turbo uni leader idl items : In (f, (ns, turbo, uni)) xml_formats ->
  iconv_cd mt = None -> write_using_libxml2 mt = 0 ->
  nodes mt = Leader (cz leader) :: map item_node items -> ldr_ok leader idl ->
  Forall (item_ok idl) items -> Forall (tag_ok turbo) items ->
  gives mt (yaz_marc_write_marcxml_ns d e lib ns None None turbo) 0
    (set_collection (collection_next (enable_collection mt)) mt)
    (collection_open (enable_collection mt) ns ++
     xml_print (record_xml turbo (collection_attrs (enable_collection mt) ns) leader items) ++ nl).
Proof.
  intros Hf Hcd Hlib Hn Hl Hi Ht. unfold yaz_marc_write_marcxml_ns. apply gives_get. rewrite Hlib. cbn [Z.eqb negb].
  unfold yaz_marc_write_marcxml_wrbuf. apply gives_get. rewrite Hn. cbn [find_leader].
  eapply gives_lift; [by apply identifier_length|]. cbn [Z.eqb each printf_attr].
  pose proof (gives_open mt f ns turbo uni Hf) as Ho.
  set (mt1 := set_collection (collection_next (enable_collection mt)) mt) in *.
  assert (iconv_cd mt1 = None) as Hcd1 by done.
  assert (gives mt1 (on_wr (wrbuf_printf (str "</" ++ record_name turbo ++ str ">" ++ nl))) tt mt1
    (str "</" ++ record_name turbo ++ str ">" ++ nl)) as Hclose
    by (destruct turbo; (apply gives_printf; [vm_compute; lia|reflexivity])).
  eapply gives_eq; [|eapply gives_bind; [exact Ho|];
    gives_all ltac:(first [by apply gives_leader, Hl|by apply gives_items|exact Hclose])].
  unfold record_xml. cbn [xml_print]. cbn [map concat]. rewrite map_app, concat_app. unfold xml_prints.
  flatten.
Qed.

(** *** The leader says Unicode *)

Definition written_leader mt (uni : bool) (leader : list Z) : list Z :=
  match leader_spec mt with
  | None => if uni then <[9%nat := 97]> leader else leader
  | Some _ => leader
  end.

Lemma written_leader_ok mt uni leader idl : ldr_ok leader idl -> ldr_ok (written_leader mt uni leader) idl.
Proof.
  intros H. pose proof H as ([Hb Hz] & Hl & H11 & Hi). unfold written_leader.
  destruct (leader_spec mt), uni; [done|done| |done].
  split; [split; by apply Forall_insert|]. rewrite length_insert. split; [done|].
  by rewrite list_lookup_insert_ne.
Qed.

Definition with_leader mt (uni : bool) (leader : list Z) (items : list item) : yaz_marc :=
  set_nodes (Leader (cz (written_leader mt uni leader)) :: map item_node items) mt.

Lemma gives_set_unicode mt leader items : (10 <= length leader)%nat ->
  nodes mt = Leader (cz leader) :: map item_node items ->
  gives mt set_unicode tt (with_leader mt true leader items) [].
Proof.
  intros Hl Hn. apply gives_pure. intros b. unfold set_unicode, with_leader, written_leader.
  rewrite (bind_Some _ _ _ (leader_spec mt) (mt, b)) by done.
  destruct (leader_spec mt) as [sp|].
  { rewrite <- Hn. by destruct mt. }
  unfold on_mt, yaz_marc_modify_leader. cbn [fst snd].
  change (c_str (str "a" ++ [0])) with (Some [97]). mrun. rewrite Hn. cbn [modify_leader].
  rewrite splice_spec.
  2: lia.
  2: { unfold cz, zlen. rewrite length_app. cbn. lia. }
  cbn [mbind option_bind]. mrun. unfold modify. cbn [mbind option_bind fst snd].
  change (Z.to_nat 9) with 9%nat.
  rewrite insert_take_drop by lia. unfold cz.
  rewrite (take_app_le leader [0] 9), <- app_assoc by lia. cbn [app].
  by rewrite (drop_app_le leader [0]) by (simpl; lia).
Qed.

(** The writer that the output format chooses. *)
Lemma gives_mode mt ns turbo uni leader idl items : In (output_format mt, (ns, turbo, uni)) xml_formats ->
  iconv_cd mt = None -> write_using_libxml2 mt = 0 ->
  nodes mt = Leader (cz leader) :: map item_node items -> ldr_ok leader idl ->
  Forall (item_ok idl) items -> Forall (tag_ok turbo) items ->
  gives mt (yaz_marc_write_mode d e junk lib) 0
    (set_collection (collection_next (enable_collection mt)) (with_leader mt uni leader items))
    (collection_open (enable_collection mt) ns ++
     xml_print (record_xml turbo (collection_attrs (enable_collection mt) ns) (written_leader mt uni leader) items) ++ nl).
Proof.
  intros Hf Hcd Hlib Hn Hl Hi Ht. pose proof (written_leader_ok mt uni leader idl Hl) as Hl'.
  pose proof (gives_record (with_leader mt uni leader items) _ ns turbo uni _ idl items Hf Hcd Hlib eq_refl Hl' Hi Ht) as Hr.
  change (enable_collection (with_leader mt uni leader items)) with (enable_collection mt) in Hr.
  assert (10 <= length leader)%nat as Hlen by (destruct Hl as (_ & ? & _); lia).
  unfold yaz_marc_write_mode. apply gives_get.
  repeat destruct Hf as [[= <- <- <- <-]|Hf]; [..|done]; cbn [Z.eqb Pos.eqb].
  - apply (gives_eq _ _ _ _ ([] ++ _) _ eq_refl). eapply gives_bind; [by apply gives_set_unicode|exact Hr].
  - apply (gives_eq _ _ _ _ ([] ++ _) _ eq_refl). eapply gives_bind; [by apply gives_set_unicode|exact Hr].
  - assert (with_leader mt false leader items = mt) as Em.
    { unfold with_leader, written_leader. destruct (leader_spec mt); rewrite <- Hn; by destruct mt. }
    unfold written_leader in *. rewrite Em in *. exact Hr.
Qed.

(** Write records one after the other: the values. *)
Fixpoint write_all (recs : list (list Marc.node)) : M (yaz_marc (D := D) (E := E) * wrbuf) (list Z) :=
  match recs with
  | [] => ret []
  | ns :: recs =>
      on_mt (modify (set_nodes ns)) ;;
      let* v := yaz_marc_write_mode d e junk lib in
      let* vs := write_all recs in
      ret (v :: vs)
  end.

(** *** Several records *)

Definition rec_nodes (r : list Z * list item) : list Marc.node := Leader (cz r.1) :: map item_node r.2.
Definition rec_ok (turbo : bool) (r : list Z * list item) : Prop :=
  exists idl, ldr_ok r.1 idl /\ Forall (item_ok idl) r.2 /\ Forall (tag_ok turbo) r.2.

(** The record of a collection, on a line of its own. *)
Definition rec_xml mt (turbo uni : bool) (r : list Z * list item) : list xml :=
  [record_xml turbo [] (written_leader mt uni r.1) r.2; XText nl].

(** What a handle needs to write XML in the format of [ns]. *)
Definition writes_xml mt ns turbo uni : Prop :=
  In (output_format mt, (ns, turbo, uni)) xml_formats /\ iconv_cd mt = None /\ write_using_libxml2 mt = 0.

(** One record and the rest, in a collection. *)
Lemma gives_next mt ns turbo uni r recs vs mt2 rest : writes_xml mt ns turbo uni -> rec_ok turbo r ->
  enable_collection mt <> no_collection ->
  gives (set_collection collection_second (with_leader mt uni r.1 r.2)) (write_all recs) vs mt2 rest ->
  gives mt (write_all (rec_nodes r :: recs)) (0 :: vs) mt2
    (collection_open (enable_collection mt) ns ++ xml_prints (rec_xml mt turbo uni r) ++ rest).
Proof.
  intros (Hf & Hcd & Hlib) (idl & Hl & Hi & Ht) Hc Hrest. cbn [write_all].
  pose proof (gives_mode (set_nodes (rec_nodes r) mt) ns turbo uni r.1 idl r.2 Hf Hcd Hlib eq_refl Hl Hi Ht) as Hm.
  change (enable_collection (set_nodes (rec_nodes r) mt)) with (enable_collection mt) in Hm.
  replace (collection_next (enable_collection mt)) with collection_second in Hm by by destruct (enable_collection mt).
  replace (collection_attrs (enable_collection mt) ns) with (@nil (list Z * list Z)) in Hm by by destruct (enable_collection mt).
  change (with_leader (set_nodes (rec_nodes r) mt) uni r.1 r.2) with (with_leader mt uni r.1 r.2) in Hm.
  change (written_leader (set_nodes (rec_nodes r) mt) uni r.1) with (written_leader mt uni r.1) in Hm.
  eapply gives_eq; [|eapply gives_bind; [apply gives_modify|]; eapply gives_bind; [exact Hm|];
    eapply gives_bind; [exact Hrest|apply gives_ret]].
  unfold xml_prints, rec_xml. cbn [map concat]. change (xml_print (XText nl)) with nl. flatten.
Qed.

Lemma gives_rest ns turbo uni recs : forall mt, writes_xml mt ns turbo uni -> Forall (rec_ok turbo) recs ->
  enable_collection mt = collection_second ->
  exists mt', gives mt (write_all (map rec_nodes recs)) (map (fun _ => 0) recs) mt'
      (xml_prints (concat (map (rec_xml mt turbo uni) recs))) /\
    enable_collection mt' = collection_second /\ output_format mt' = output_format mt.
Proof.
  induction recs as [|r recs IH]; intros mt Hm Hrecs Hc.
  { exists mt. split; [apply gives_ret|done]. }
  apply Forall_cons_1 in Hrecs as [Hr Hrecs].
  destruct (IH (set_collection collection_second (with_leader mt uni r.1 r.2)) Hm Hrecs eq_refl) as (mt' & Hg & Hc' & Ho').
  exists mt'. split; [|done]. cbn [map concat]. rewrite xml_prints_app.
  pose proof (gives_next mt ns turbo uni r _ _ _ _ Hm Hr ltac:(congruence) Hg) as H. by rewrite Hc in H.
Qed.

Lemma gives_trailer mt ns turbo uni : In (output_format mt, (ns, turbo, uni)) xml_formats ->
  enable_collection mt = collection_second ->
  gives mt yaz_marc_write_trailer 0 mt (str "</collection>" ++ nl).
Proof.
  intros Hf Hc. unfold yaz_marc_write_trailer. apply gives_get. rewrite Hc.
  repeat destruct Hf as [[= <- _ _ _]|Hf]; [..|done]; cbn [Z.eqb Pos.eqb orb];
    (eapply gives_eq; [|gives_all ltac:(fail)]; reflexivity).
Qed.

(** The whole session. *)
Definition write_collection (recs : list (list Marc.node)) : M (yaz_marc (D := D) (E := E) * wrbuf) (list Z * Z) :=
  on_mt yaz_marc_enable_collection ;;
  let* vs := write_all recs in
  let* v := yaz_marc_write_trailer in
  ret (vs, v).

Definition collection_xml mt ns turbo uni (recs : list (list Z * list item)) : xml :=
  XElem (str "collection") [xmlns ns] (XText nl :: concat (map (rec_xml mt turbo uni) recs)).

Lemma gives_collection mt ns turbo uni r recs : writes_xml mt ns turbo uni -> Forall (rec_ok turbo) (r :: recs) ->
  exists mt', gives mt (write_collection (map rec_nodes (r :: recs))) (map (fun _ => 0) (r :: recs), 0) mt'
    (xml_print (collection_xml mt ns turbo uni (r :: recs)) ++ nl).
Proof.
  intros Hm [Hr Hrecs]%Forall_cons_1. set (mt1 := set_collection collection_first mt).
  destruct (gives_rest ns turbo uni recs (set_collection collection_second (with_leader mt1 uni r.1 r.2)) Hm Hrecs eq_refl)
    as (mt' & Hg & Hc & Ho).
  pose proof (gives_next mt1 ns turbo uni r _ _ _ _ Hm Hr ltac:(discriminate) Hg) as Hall.
  destruct Hm as (Hf & Hm). change (output_format mt' = output_format mt) in Ho. rewrite <- Ho in Hf. exists mt'. unfold write_collection.
  eapply gives_eq; [|eapply gives_bind; [apply gives_modify|]; eapply gives_bind; [exact Hall|];
    eapply gives_bind; [by apply (gives_trailer mt' ns turbo uni)|apply gives_ret]].
  change (enable_collection mt1) with collection_first. cbn [collection_open].
  unfold collection_xml. cbn [xml_print]. cbn [map concat]. rewrite map_app, concat_app. unfold xml_prints.
  change (rec_xml (set_collection collection_second (with_leader mt1 uni r.1 r.2)) turbo uni) with (rec_xml mt turbo uni).
  change (rec_xml mt1 turbo uni) with (rec_xml mt turbo uni). change (xml_print (XText nl)) with nl.
  flatten.
Qed.
End xml_record.

(** ** From the exchange format *)

(** The field of an item; a comment has none. *)
Definition item_field (i : item) : field :=
  match i with
  | IControl t v => FControl t v
  | IData t inds subs => FData t inds (map (fun s => s.1 ++ s.2) subs)
  | IComment _ => FControl [] []
  end.

Lemma item_field_nodes indl items : Forall (field_ok indl) (map item_field items) ->
  map field_node (map item_field items) = map item_node items.
Proof.
  induction items as [|i items IH]; [done|]. cbn [map]. intros [Hi H]%Forall_cons_1. rewrite IH by done. f_equal.
  destruct i as [t v|t inds subs|c]; cbn [item_field field_node item_node].
  - done.
  - by rewrite map_map.
  - by destruct Hi.
Qed.

(** The leader of a record in the exchange format. *)
Lemma leader_text_ok leader indl lde ls idl total base : leader_ok leader indl lde ls ->
  leader !! 11%nat = Some (48 + idl) -> 0 <= idl <= 9 -> 0 <= total < 10 ^ 5 -> 0 <= base < 10 ^ 5 ->
  ldr_ok (leader_text leader total base) idl.
Proof.
  intros [Hl Ha _ _ _ _ _] H11 Hi Ht Hb.
  pose proof (zlen_leader_text leader total base Hl Ht Hb) as Hz.
  destruct (fmt_0d_spec 5 total) as (Hd1 & Hl1 & _); [lia..|]. destruct (fmt_0d_spec 5 base) as (Hd2 & Hl2 & _); [lia..|].
  split; [|split; [unfold zlen in Hz; lia|split; [|done]]].
  - assert (Forall (fun c => 32 <= c < 127) (leader_text leader total base)) as Hall.
    { assert (forall ds, digits_ok ds -> Forall (fun c => 32 <= c < 127) ds) as Hd
        by (intros ds H; eapply Forall_impl; [exact H|simpl; lia]).
      unfold leader_text. apply Forall_app; split; [by apply Hd|]. apply Forall_app; split; [apply Forall_take, Forall_drop, Ha|].
      apply Forall_app; split; [by apply Hd|apply Forall_take, Forall_drop, Ha]. }
    split; (eapply Forall_impl; [exact Hall|]); unfold byte_ok; simpl; intros; lia.
  - unfold leader_text. unfold zlen in *. rewrite lookup_app_r by lia.
    rewrite lookup_app_l by (rewrite length_take, length_drop; lia).
    rewrite lookup_take_lt by lia. rewrite lookup_drop. rewrite <- H11. f_equal. lia.
Qed.

(** [yaz_marc_write_json] of a record without a conversion returns 0 and adds
    to the buffer a text that the parser of json.c accepts, without an error
    message, as the tree of the record: the leader, and for each field an object
    that maps its tag to its data, or to its subfields, in order, and its
    indicators.  Comments are left out. *)
Lemma marc_json_text {D E double : Type} (d : yaz_iconv_decoder_s D) (e : yaz_iconv_encoder_s E)
    (strtod : list Z -> double * Z) (mt : yaz_marc (D := D) (E := E)) (b : wrbuf)
    (leader : list Z) (idl : Z) (items : list item) :
  iconv_cd mt = None -> nodes mt = Leader (cz leader) :: map item_node items ->
  ldr_ok leader idl -> Forall (item_ok idl) items -> wrbuf_ok b ->
  exists b' text, yaz_marc_write_json d e (mt, b) = Some (0, (mt, b')) /\
    contents b' = contents b ++ text /\
    forall rest p, exists p', json_parser_parse strtod (text ++ 0 :: rest) p =
        Some (Some (node_of (record_json leader items)), p') /\
      json_parser_get_errmsg p' = None.
Proof.
  intros Hcd Hn Hl Hi Hb.
  destruct (gives_json d e mt Hcd leader idl items Hn Hl Hi b Hb) as (b' & E1 & _ & Hc).
  exists b', (record_text leader items ++ nl). split; [done|]. split; [done|]. intros rest p.
  destruct (record_json_ok strtod (fun _ => []) leader idl items) as [Hok Hd]; [apply Hl|done|].
  pose proof (json_parser_parse_renders strtod (fun _ => []) _ _ nl rest p
    (renders_record (fun _ => []) leader items) ltac:(by repeat constructor; right; right; right) Hok Hd) as Hp.
  rewrite <- app_assoc. eexists. split; [exact Hp|done].
Qed.

(** ** Properties *)



(** A record of two fields, with a code that turbomarc cannot put in a name. *)
Definition example_items : list item :=
  [IControl (str "001") (str "12345");
   IData (str "245") [49; 0xe6] [(str "a", str "A < B"); (str "-", str "x" ++ dq)]].
Definition no_lib : list Z -> bool -> M (yaz_marc (D := unit) (E := unit) * wrbuf) Z := fun _ _ => fault.

Lemma example_items_ok : Forall (item_ok 2) example_items.
Proof.
  constructor; [|constructor; [|constructor]].
  - split; apply string_okb; reflexivity.
  - split; [apply string_okb; reflexivity|]. split; [by_decide|]. split; [unfold zlen; simpl; lia|].
    constructor; [|constructor; [|constructor]].
    + split; [|apply string_okb; reflexivity]. split; [apply string_okb; reflexivity|]. exists 97. split; [lia|reflexivity].
    + split; [|apply string_okb; reflexivity]. split; [apply string_okb; reflexivity|]. exists 45. split; [lia|reflexivity].
Qed.

Lemma example_leader_ok : ldr_ok example_leader 2.
Proof. split; [apply string_okb; reflexivity|]. split; [vm_compute; lia|]. split; [reflexivity|lia]. Qed.



(** A record whose leader says that codes have eight octets, and whose only
    subfield has one: every writer that splits subfields reads past the string. *)
Definition short_code_record : list Z :=
  iso2709 (str "00000nam a29000003a 4500") 4 5 [FData (str "245") [49; 48] [str "a"]].

Lemma short_code_overread :
  (exists mt, yaz_marc_read_iso2709 ucs4_decoder utf8_encoder (fun _ => 7) (short_code_record ++ repeat 0 40)
    (zlen short_code_record) yaz_marc_create = Some (zlen short_code_record, mt)) /\
  forall f, In f [YAZ_MARC_LINE; YAZ_MARC_MARCXML; YAZ_MARC_TURBOMARC; YAZ_MARC_JSON] ->
  yaz_marc_decode_wrbuf ucs4_decoder utf8_encoder (fun _ => 7) no_lib (short_code_record ++ repeat 0 40)
    (zlen short_code_record) (set_output f yaz_marc_create, small_wrbuf) = None.
Proof.
  split; [eexists; vm_compute; reflexivity|].
  intros f H. repeat destruct H as [<-|H]; [vm_compute; reflexivity..|done].
Qed.
