(* ===== verification/Store.v ===== *)
(** * Objects in a store

    For the parts of the program whose data structures share objects by
    pointers.  The objects of a type are a finite map from addresses; 0 is the
    null pointer. *)

From stdpp Require Import base list numbers option gmap sets.
From Stdlib Require Import ZArith Lia.
From S2P Require Import Prelude.

(** What [xmalloc] promises: an address that is not in use and not null. *)
Class Allocator := {
  malloc : gset Z -> Z;
  malloc_fresh used : malloc used ∉ used;
  malloc_null used : malloc used <> 0;
}.

(** An allocator that never uses an address again. *)
Definition next_address (used : gset Z) : Z := set_fold Z.max 0 used + 1.

Lemma next_address_above used a : a ∈ used -> a < next_address used.
Proof.
  unfold next_address. apply (set_fold_ind_L (fun r used => a ∈ used -> a < r + 1)); [set_solver|].
  intros x X r _ IH [->%elem_of_singleton|H]%elem_of_union; [lia|]. specialize (IH H). lia.
Qed.

Lemma next_address_pos used : 0 < next_address used.
Proof. unfold next_address. apply (set_fold_ind_L (fun r _ => 0 < r + 1)); lia. Qed.

#[export] Instance counting_allocator : Allocator.
Proof.
  refine {| malloc := next_address |}.
  - intros used H%next_address_above. lia.
  - intros used H. pose proof (next_address_pos used). lia.
Defined.

(** ** Lists that are linked *)

Section chain.
Context {A : Type} (next : A -> Z).
Implicit Types (h : gmap Z A) (l : list Z) (p a : Z).

(** From [p] the objects at the addresses [l] are linked, and the last one has
    the pointer [e]. *)
Fixpoint segment h p l e : Prop :=
  match l with
  | [] => p = e
  | a :: l => p = a /\ a <> 0 /\ exists x, h !! a = Some x /\ segment h (next x) l e
  end.
Definition chain h p l : Prop := segment h p l 0.

Lemma segment_app h p l1 l2 e : segment h p (l1 ++ l2) e <-> exists m, segment h p l1 m /\ segment h m l2 e.
Proof.
  revert p. induction l1 as [|a l1 IH]; intros p; cbn [app segment].
  - split; [by exists p|]. by intros (m & -> & H).
  - split.
    + intros (-> & Ha & x & Hx & (m & H1 & H2)%IH). exists m. split; [|done]. split; [done|]. split; [done|]. by exists x.
    + intros (m & (-> & Ha & x & Hx & H1) & H2). split; [done|]. split; [done|]. exists x. split; [done|]. apply IH. by exists m.
Qed.

Lemma segment_live h p l e a : segment h p l e -> a ∈ l -> a <> 0 /\ is_Some (h !! a).
Proof.
  revert p. induction l as [|b l IH]; intros p H Ha; [by apply not_elem_of_nil in Ha|].
  destruct H as (_ & Hb & x & Hx & H). apply elem_of_cons in Ha as [->|Ha]; [by split; [|exists x]|by eapply IH].
Qed.

Lemma segment_insert h p l e a x : a ∉ l -> segment h p l e -> segment (<[a := x]> h) p l e.
Proof.
  revert p. induction l as [|b l IH]; intros p Ha; [done|]. rewrite not_elem_of_cons in Ha. destruct Ha as [Hab Ha].
  intros (-> & Hb & y & Hy & H). split; [done|]. split; [done|]. exists y. split; [by rewrite lookup_insert_ne|]. by apply IH.
Qed.

(** The pointer of an object stays. *)
Lemma segment_update h p l e a x y : h !! a = Some x -> next y = next x -> segment h p l e -> segment (<[a := y]> h) p l e.
Proof.
  intros Hx Hn. revert p. induction l as [|b l IH]; intros p; [done|]. intros (-> & Hb & z & Hz & H). split; [done|]. split; [done|].
  rewrite lookup_insert. case_decide as E; [|exists z; by split; [|apply IH]]. subst b. rewrite Hx in Hz. injection Hz as <-. exists y. split; [done|]. rewrite Hn. by apply IH.
Qed.

Lemma segment_delete h p l e a : a ∉ l -> segment h p l e -> segment (delete a h) p l e.
Proof.
  revert p. induction l as [|b l IH]; intros p Ha; [done|]. rewrite not_elem_of_cons in Ha. destruct Ha as [Hab Ha].
  intros (-> & Hb & y & Hy & H). split; [done|]. split; [done|]. exists y. split; [by rewrite lookup_delete_ne|]. by apply IH.
Qed.

Lemma segment_ext h h' p l e : (forall a, a ∈ l -> h' !! a = h !! a) -> segment h p l e -> segment h' p l e.
Proof.
  revert p. induction l as [|b l IH]; intros p Ha; [done|]. intros (-> & Hb & y & Hy & H). split; [done|]. split; [done|]. exists y.
  split; [rewrite Ha; [done|by apply elem_of_cons; left]|]. apply IH; [|done]. intros a Hin. apply Ha. apply elem_of_cons. by right.
Qed.

(** The list of a pointer is unique, so that it has no address twice. *)
Lemma chain_unique h p l1 l2 : chain h p l1 -> chain h p l2 -> l1 = l2.
Proof.
  unfold chain. revert p l2. induction l1 as [|a l1 IH]; intros p [|b l2]; cbn [segment].
  - done.
  - intros -> (H & Hb & _). congruence.
  - intros (H & Ha & _) ->. congruence.
  - intros (-> & _ & x & Hx & H1) (<- & _ & y & Hy & H2). rewrite Hx in Hy. injection Hy as <-. f_equal. by eapply IH.
Qed.

Lemma chain_nodup h p l : chain h p l -> NoDup l.
Proof.
  revert p. induction l as [|a l IH]; intros p H; [constructor|]. constructor; [|destruct H as (_ & _ & x & _ & H); by eapply IH].
  intros (l1 & l2 & ->)%list_elem_of_split. unfold chain in H. change (a :: l1 ++ a :: l2) with ((a :: l1) ++ a :: l2) in H.
  pose proof H as (m & _ & H2)%segment_app. assert (m = a) as -> by by destruct H2. pose proof H as (-> & _).
  pose proof (chain_unique _ _ _ _ H H2) as E. apply (f_equal length) in E. rewrite length_app in E. simpl in E. lia.
Qed.

Lemma chain_size h p l : chain h p l -> (length l <= size h)%nat.
Proof.
  intros Hl. pose proof (chain_nodup _ _ _ Hl) as Hnd. rewrite <- (size_dom h), <- (size_list_to_set (C := gset Z) l Hnd). apply subseteq_size.
  intros a Ha%elem_of_list_to_set. apply elem_of_dom. by eapply segment_live.
Qed.

Lemma chain_null h l : chain h 0 l -> l = [].
Proof. destruct l; [done|]. intros (H & Hz & _). congruence. Qed.
End chain.
