(* ===== verification/Requestq.v ===== *)
(** * The queues of requests of a session (requestq.c, session.h)

    A session has a queue of requests that have arrived and one of responses to
    be sent; request structures move between them and a list of those that can be
    used again. *)

From stdpp Require Import base list numbers option gmap sets.
From Stdlib Require Import ZArith Lia.
From S2P Require Import Prelude Store.

(** [INT_MIN] *)
Definition INT_MIN : Z := - INT_MAX - 1.

Inductive request_state := REQUEST_IDLE | REQUEST_PENDING.

(** Pointers to other objects are addresses. *)
Record request := Request {
  r_state : request_state;
  gdu_request : Z;
  apdu_request : Z;
  request_mem : Z;
  size_response : Z;
  len_response : Z;
  response : Z;
  clientData : Z;
  r_next : Z;
  r_q : Z;
}.

Record request_q := RequestQ {
  q_head : Z;
  q_tail : Z;
  q_list : Z;
  q_num : Z;
}.

(** The requests, the queues, and the memory pools and response buffers that
    are allocated. *)
Record heap := Heap {
  requests : gmap Z request;
  queues : gmap Z request_q;
  pools : gset Z;
  buffers : gset Z;
}.

Definition set_next (n : Z) (r : request) : request :=
  Request (r_state r) (gdu_request r) (apdu_request r) (request_mem r) (size_response r) (len_response r) (response r) (clientData r) n (r_q r).
Definition set_head (p : Z) (q : request_q) : request_q := RequestQ p (q_tail q) (q_list q) (q_num q).
Definition set_tail (p : Z) (q : request_q) : request_q := RequestQ (q_head q) p (q_list q) (q_num q).
Definition set_list (p : Z) (q : request_q) : request_q := RequestQ (q_head q) (q_tail q) p (q_num q).
Definition set_num (n : Z) (q : request_q) : request_q := RequestQ (q_head q) (q_tail q) (q_list q) n.

Definition on_requests (f : gmap Z request -> gmap Z request) (h : heap) : heap := Heap (f (requests h)) (queues h) (pools h) (buffers h).
Definition on_queues (f : gmap Z request_q -> gmap Z request_q) (h : heap) : heap := Heap (requests h) (f (queues h)) (pools h) (buffers h).
Definition on_pools (f : gset Z -> gset Z) (h : heap) : heap := Heap (requests h) (queues h) (f (pools h)) (buffers h).
Definition on_buffers (f : gset Z -> gset Z) (h : heap) : heap := Heap (requests h) (queues h) (pools h) (f (buffers h)).

(** ** Access through a pointer *)

Definition load (r : Z) : M heap request := let* h := get in lift (requests h !! r).
Definition load_q (q : Z) : M heap request_q := let* h := get in lift (queues h !! q).
Definition update (r : Z) (f : request -> request) : M heap unit := let* x := load r in modify (on_requests (<[r := f x]>)).
Definition update_q (q : Z) (f : request_q -> request_q) : M heap unit := let* x := load_q q in modify (on_queues (<[q := f x]>)).

(** [xfree] of a buffer and [nmem_destroy]. *)
Definition xfree_buffer (p : Z) : M heap unit :=
  let* h := get in
  if p =? 0 then ret tt else if bool_decide (p ∈ buffers h) then modify (on_buffers (fun s => s ∖ {[p]})) else fault.
Definition nmem_destroy (p : Z) : M heap unit :=
  let* h := get in
  if bool_decide (p ∈ pools h) then modify (on_pools (fun s => s ∖ {[p]})) else fault.

(** ** The operations *)

Definition request_enq (q r : Z) : M heap unit :=
  let* x := load_q q in
  (if negb (q_tail x =? 0) then update (q_tail x) (set_next r) else update_q q (set_head r)) ;;
  update_q q (set_tail r) ;;
  if q_num x <? INT_MAX then update_q q (set_num (q_num x + 1)) else fault.

Definition request_head (q : Z) : M heap Z := let* x := load_q q in ret (q_head x).

Definition request_deq (q : Z) : M heap Z :=
  let* x := load_q q in
  let r := q_head x in
  if r =? 0 then ret 0
  else
    let* y := load r in
    update_q q (set_head (r_next y)) ;;
    (if r_next y =? 0 then update_q q (set_tail 0) else ret tt) ;;
    (if INT_MIN <? q_num x then update_q q (set_num (q_num x - 1)) else fault) ;;
    ret r.

Definition request_initq (q : Z) : M heap unit :=
  let* x := load_q q in modify (on_queues (<[q := RequestQ 0 0 0 0]>)).

Fixpoint delq_loop (fuel : nat) (r : Z) : M heap unit :=
  match fuel with
  | O => fault
  | S fuel =>
      if r =? 0 then ret tt
      else
        let* x := load r in
        xfree_buffer (response x) ;;
        modify (on_requests (delete r)) ;;
        delq_loop fuel (r_next x)
  end.
Definition request_delq (q : Z) : M heap unit :=
  let* x := load_q q in
  let* h := get in
  delq_loop (S (size (requests h))) (q_list x).

Section malloc.
Context `{Allocator}.

Definition request_get (q : Z) : M heap Z :=
  let* x := load_q q in
  let* h := get in
  let r := q_list x in
  let clear size_response response := Request REQUEST_IDLE 0 0 0 size_response 0 response 0 0 q in
  if negb (r =? 0) then
    let* y := load r in
    update_q q (set_list (r_next y)) ;;
    update r (fun y => clear (size_response y) (response y)) ;;
    ret r
  else
    let r := malloc (dom (requests h)) in
    modify (on_requests (<[r := clear 0 0]>)) ;;
    ret r.
End malloc.

Definition request_release (r : Z) : M heap unit :=
  let* x := load r in
  (if negb (request_mem x =? 0) then nmem_destroy (request_mem x) else ret tt) ;;
  let* q := load_q (r_q x) in
  update r (set_next (q_list q)) ;;
  update_q (r_q x) (set_list r).

(** ** The use of the queues in a session (seshigh.c) *)

Definition set_mem (m : Z) (r : request) : request :=
  Request (r_state r) (gdu_request r) (apdu_request r) m (size_response r) (len_response r) (response r) (clientData r) (r_next r) (r_q r).
Definition set_response (size len b : Z) (r : request) : request :=
  Request REQUEST_IDLE (gdu_request r) (apdu_request r) (request_mem r) size len b (clientData r) (r_next r) (r_q r).

Section session.
Context `{Allocator}.

(** A package that was decoded becomes a request, with the memory of the decoder. *)
Definition receive (incoming : Z) : M heap Z :=
  let* r := request_get incoming in
  let* h := get in
  let m := malloc (pools h) in
  modify (on_pools (union {[m]})) ;;
  update r (set_mem m) ;;
  request_enq incoming r ;;
  ret r.

(** The response replaces what the buffer of the request held before. *)
Definition respond (outgoing r size len : Z) : M heap unit :=
  let* x := load r in
  xfree_buffer (response x) ;;
  let* h := get in
  let b := malloc (buffers h) in
  modify (on_buffers (union {[b]})) ;;
  update r (set_response size len b) ;;
  request_enq outgoing r.
End session.

(** The end of a session (destroy_association): what is in the queues is
    released, and then freed. *)
Fixpoint release_all (fuel : nat) (q : Z) : M heap unit :=
  match fuel with
  | O => fault
  | S fuel =>
      let* r := request_deq q in
      if r =? 0 then ret tt else request_release r ;; release_all fuel q
  end.
Definition destroy_queues (incoming outgoing : Z) : M heap unit :=
  let* h := get in
  let fuel := S (size (requests h)) in
  release_all fuel incoming ;; release_all fuel outgoing ;;
  request_delq incoming ;; request_delq outgoing.

(** ** What the operations do to the store *)

Section runs.
Context (h : heap).

Lemma load_ok r x : requests h !! r = Some x -> load r h = Some (x, h).
Proof. intros E. unfold load. rewrite bind_get. unfold lift. by rewrite E. Qed.

Lemma load_q_ok q x : queues h !! q = Some x -> load_q q h = Some (x, h).
Proof. intros E. unfold load_q. rewrite bind_get. unfold lift. by rewrite E. Qed.

Lemma update_ok r x f : requests h !! r = Some x -> update r f h = Some (tt, on_requests (<[r := f x]>) h).
Proof. intros E. unfold update. by rewrite (bind_Some _ _ _ _ _ (load_ok r x E)). Qed.

Lemma update_q_ok q x f : queues h !! q = Some x -> update_q q f h = Some (tt, on_queues (<[q := f x]>) h).
Proof. intros E. unfold update_q. by rewrite (bind_Some _ _ _ _ _ (load_q_ok q x E)). Qed.
End runs.

Lemma on_queues_twice q x y h : on_queues (<[q := y]>) (on_queues (<[q := x]>) h) = on_queues (<[q := y]>) h.
Proof. unfold on_queues. cbn. by rewrite insert_insert_eq. Qed.

Lemma run_update {B} r x f (k : M heap B) h Q : requests h !! r = Some x -> run k (on_requests (<[r := f x]>) h) Q -> run (update r f ;; k) h Q.
Proof. intros E (b & h' & Hk & HQ). exists b, h'. by rewrite (bind_Some _ _ _ _ _ (update_ok h r x f E)). Qed.

Lemma run_update_q {B} q x f (k : M heap B) h Q : queues h !! q = Some x -> run k (on_queues (<[q := f x]>) h) Q -> run (update_q q f ;; k) h Q.
Proof. intros E (b & h' & Hk & HQ). exists b, h'. by rewrite (bind_Some _ _ _ _ _ (update_q_ok h q x f E)). Qed.

Lemma run_load {B} r x (k : request -> M heap B) h Q : requests h !! r = Some x -> run (k x) h Q -> run (bind (load r) k) h Q.
Proof. intros E H. unfold run. by rewrite (bind_Some _ _ _ _ _ (load_ok h r x E)). Qed.

Lemma run_load_q {B} q x (k : request_q -> M heap B) h Q : queues h !! q = Some x -> run (k x) h Q -> run (bind (load_q q) k) h Q.
Proof. intros E H. unfold run. by rewrite (bind_Some _ _ _ _ _ (load_q_ok h q x E)). Qed.

Lemma enq_empty h q r x (Q : unit -> heap -> Prop) : queues h !! q = Some x -> q_tail x = 0 -> q_num x < INT_MAX ->
  Q tt (on_queues (<[q := RequestQ r r (q_list x) (q_num x + 1)]>) h) -> run (request_enq q r) h Q.
Proof.
  intros E Et Hn HQ. unfold request_enq. eapply run_load_q; [done|]. rewrite Et. cbn [Z.eqb negb].
  eapply run_update_q; [done|]. eapply run_update_q; [cbn; apply lookup_insert_eq|]. rewrite (proj2 (Z.ltb_lt (q_num x) INT_MAX)) by done.
  eapply run_is; [eapply update_q_ok; cbn; apply lookup_insert_eq|]. by rewrite !on_queues_twice.
Qed.

Lemma enq_more h q r x y (Q : unit -> heap -> Prop) : queues h !! q = Some x -> q_tail x <> 0 -> requests h !! q_tail x = Some y -> q_num x < INT_MAX ->
  Q tt (on_queues (<[q := RequestQ (q_head x) r (q_list x) (q_num x + 1)]>) (on_requests (<[q_tail x := set_next r y]>) h)) ->
  run (request_enq q r) h Q.
Proof.
  intros E Et Ey Hn HQ. unfold request_enq. eapply run_load_q; [done|]. rewrite (proj2 (Z.eqb_neq _ _) Et). cbn [negb].
  eapply run_update; [done|]. eapply run_update_q; [done|]. rewrite (proj2 (Z.ltb_lt (q_num x) INT_MAX)) by done.
  eapply run_is; [eapply update_q_ok; cbn; apply lookup_insert_eq|]. by rewrite !on_queues_twice.
Qed.

Lemma deq_none h q x : queues h !! q = Some x -> q_head x = 0 -> request_deq q h = Some (0, h).
Proof. intros E Eh. unfold request_deq. rewrite (bind_Some _ _ _ _ _ (load_q_ok h q x E)), Eh. done. Qed.

Lemma deq_one h q x y (Q : Z -> heap -> Prop) : queues h !! q = Some x -> q_head x <> 0 -> requests h !! q_head x = Some y -> INT_MIN < q_num x ->
  Q (q_head x) (on_queues (<[q := RequestQ (r_next y) (if r_next y =? 0 then 0 else q_tail x) (q_list x) (q_num x - 1)]>) h) ->
  run (request_deq q) h Q.
Proof.
  intros E Eh Ey Hn HQ. unfold request_deq. eapply run_load_q; [done|]. rewrite (proj2 (Z.eqb_neq _ _) Eh). eapply run_load; [done|].
  eapply run_update_q; [done|]. rewrite (proj2 (Z.ltb_lt INT_MIN (q_num x))) by done. destruct (r_next y =? 0).
  - eapply run_update_q; [cbn; apply lookup_insert_eq|]. eapply run_update_q; [cbn; apply lookup_insert_eq|]. apply run_ret.
    by rewrite !on_queues_twice.
  - eapply (run_bind _ _ _ (fun _ h' => h' = on_queues (<[q := set_head (r_next y) x]>) h)); [by apply run_ret|]. intros [] h' ->.
    eapply run_update_q; [cbn; apply lookup_insert_eq|]. apply run_ret. by rewrite !on_queues_twice.
Qed.
