(* ===== verification/RequestqSpec.v ===== *)
(** * The queues of requests as lists

    What the operations of requestq.c promise to a session, and that they keep
    it: the queues are lists without pointers, each request is in one place, and
    each block of memory belongs to one request. *)

From stdpp Require Import base list numbers option gmap sets.
From Stdlib Require Import ZArith Lia.
From S2P Require Import Prelude Store Requestq.

(** ** The specification *)

(** Where a request is: in a queue, among those that can be used again, or with
    the session, which may put it in a queue only as long as it has no successor. *)
Inductive place := In_fifo (q : Z) | In_pool (q : Z) | Ready | Taken.

#[export] Instance place_eq_dec : EqDecision place.
Proof. solve_decision. Defined.

(** The requests of each queue and those it can use again, first to last; the
    queue that a request returns to. *)
Record spec := Spec {
  lists : gmap Z (list Z * list Z);
  places : gmap Z place;
  homes : gmap Z Z;
}.

Inductive op := Get (q : Z) | Receive (q : Z) | Enq (q r : Z) | Respond (q r size len : Z) | Head (q : Z) | Deq (q : Z) | Release (r : Z).

Definition has_room (s : spec) (q : Z) : bool :=
  match lists s !! q with Some (fifo, _) => zlen fifo <? INT_MAX | None => false end.

(** What the session may do. *)
Definition allowed (s : spec) (o : op) : bool :=
  match o with
  | Get q | Head q | Deq q => bool_decide (is_Some (lists s !! q))
  | Receive q => has_room s q
  | Enq q r | Respond q r _ _ => has_room s q && bool_decide (places s !! r = Some Ready)
  | Release r => bool_decide (places s !! r = Some Ready) || bool_decide (places s !! r = Some Taken)
  end.

Definition put_lists (q : Z) (fp : list Z * list Z) (r : Z) (p : place) (s : spec) : spec :=
  Spec (<[q := fp]> (lists s)) (<[r := p]> (places s)) (homes s).
Definition set_home (r q : Z) (s : spec) : spec := Spec (lists s) (places s) (<[r := q]> (homes s)).

(** A request for use: the last one that was released, or a new one. *)
Inductive obtains (s : spec) (q : Z) : Z -> spec -> Prop :=
  | Obtain_old fifo r pool : lists s !! q = Some (fifo, r :: pool) -> obtains s q r (set_home r q (put_lists q (fifo, pool) r Ready s))
  | Obtain_new fifo r : lists s !! q = Some (fifo, []) -> places s !! r = None -> obtains s q r (set_home r q (put_lists q (fifo, []) r Ready s)).

Inductive appends_to (s : spec) (q r : Z) : spec -> Prop :=
  | Appends fifo pool : lists s !! q = Some (fifo, pool) -> appends_to s q r (put_lists q (fifo ++ [r], pool) r (In_fifo q) s).

(** A step of the specification and its result. *)
Inductive step (s : spec) : op -> Z -> spec -> Prop :=
  | S_get q r s' : obtains s q r s' -> step s (Get q) r s'
  | S_receive q r s1 s' : obtains s q r s1 -> appends_to s1 q r s' -> step s (Receive q) r s'
  | S_enq q r s' : appends_to s q r s' -> step s (Enq q r) 0 s'
  | S_respond q r size len s' : appends_to s q r s' -> step s (Respond q r size len) 0 s'
  | S_head q fifo pool : lists s !! q = Some (fifo, pool) -> step s (Head q) (default 0 (head fifo)) s
  | S_deq_none q pool : lists s !! q = Some ([], pool) -> step s (Deq q) 0 s
  | S_deq q r fifo pool : lists s !! q = Some (r :: fifo, pool) ->
      step s (Deq q) r (put_lists q (fifo, pool) r (match fifo with [] => Ready | _ => Taken end) s)
  | S_release r q fifo pool : homes s !! r = Some q -> lists s !! q = Some (fifo, pool) -> step s (Release r) 0 (put_lists q (fifo, r :: pool) r (In_pool q) s).

(** The state after a call with its result. *)
Definition with_new (s : spec) (q r : Z) : spec :=
  match lists s !! q with Some (fifo, pool) => set_home r q (put_lists q (fifo, tail pool) r Ready s) | None => s end.
Definition with_last (s : spec) (q r : Z) : spec :=
  match lists s !! q with Some (fifo, pool) => put_lists q (fifo ++ [r], pool) r (In_fifo q) s | None => s end.
Definition after (s : spec) (o : op) (v : Z) : spec :=
  match o with
  | Get q => with_new s q v
  | Receive q => with_last (with_new s q v) q v
  | Enq q r | Respond q r _ _ => with_last s q r
  | Head _ => s
  | Deq q =>
      match lists s !! q with
      | Some (r :: fifo, pool) => put_lists q (fifo, pool) r (match fifo with [] => Ready | _ => Taken end) s
      | _ => s
      end
  | Release r =>
      match homes s !! r with
      | Some q => match lists s !! q with Some (fifo, pool) => put_lists q (fifo, r :: pool) r (In_pool q) s | None => s end
      | None => s
      end
  end.

Section exec.
Context `{Allocator}.

Definition exec (o : op) : M heap Z :=
  match o with
  | Get q => request_get q
  | Receive q => receive q
  | Enq q r => request_enq q r ;; ret 0
  | Respond q r size len => respond q r size len ;; ret 0
  | Head q => request_head q
  | Deq q => request_deq q
  | Release r => request_release r ;; ret 0
  end.
End exec.

(** ** The representation *)

Definition queue_ok (R : gmap Z request) (pl : gmap Z place) (q : Z) (x : request_q) (fp : list Z * list Z) : Prop :=
  chain r_next R (q_head x) fp.1 /\ q_tail x = default 0 (last fp.1) /\ q_num x = zlen fp.1 /\
  chain r_next R (q_list x) fp.2 /\
  (forall a, a ∈ fp.1 <-> pl !! a = Some (In_fifo q)) /\ (forall a, a ∈ fp.2 <-> pl !! a = Some (In_pool q)).

(** The blocks [S] belong to requests, each to one, by the pointer [f]. *)
Definition owned (f : request -> Z) (live : Z -> Prop) (S : gset Z) (R : gmap Z request) : Prop :=
  exists owner : gmap Z Z, S = dom owner /\ forall m r, owner !! m = Some r <-> m <> 0 /\ exists x, R !! r = Some x /\ f x = m /\ live r.

(** A request that is in use. *)
Definition in_use (pl : gmap Z place) (r : Z) : Prop := forall q, pl !! r <> Some (In_pool q).

Record rep (h : heap) (s : spec) : Prop := {
  rep_queue : forall q x, queues h !! q = Some x -> exists fp, lists s !! q = Some fp /\ queue_ok (requests h) (places s) q x fp;
  rep_lists : forall q, is_Some (lists s !! q) -> is_Some (queues h !! q);
  rep_request : forall r x, requests h !! r = Some x -> r <> 0 /\ is_Some (queues h !! r_q x) /\ is_Some (places s !! r) /\
    homes s !! r = Some (r_q x) /\ (places s !! r = Some Ready -> r_next x = 0);
  rep_place : forall r, is_Some (places s !! r) -> is_Some (requests h !! r);
  rep_known : forall r q, places s !! r = Some (In_fifo q) \/ places s !! r = Some (In_pool q) -> is_Some (lists s !! q);
  rep_mem : owned request_mem (in_use (places s)) (pools h) (requests h);
  rep_buffers : owned response (fun _ => True) (buffers h) (requests h);
}.

(** ** Blocks *)

Lemma owned_same f live live' S R R' : owned f live S R ->
  (forall m r, m <> 0 -> (exists x, R' !! r = Some x /\ f x = m /\ live' r) <-> (exists x, R !! r = Some x /\ f x = m /\ live r)) -> owned f live' S R'.
Proof. intros (owner & -> & H) Hs. exists owner. split; [done|]. intros m r. rewrite H. split; intros [Hm Hx]; (split; [done|]); by apply (Hs m r Hm). Qed.

Lemma owned_in f live S R r x : owned f live S R -> R !! r = Some x -> live r -> f x <> 0 -> f x ∈ S.
Proof. intros (owner & -> & H) Hr Hl Hx. apply elem_of_dom. exists r. apply H. split; [done|]. by exists x. Qed.

Lemma owned_free f live live' S R R' r x : owned f live S R -> R !! r = Some x -> live r -> f x <> 0 ->
  (forall y, R' !! r = Some y -> live' r -> f y = 0) ->
  (forall r', r' <> r -> forall m, (exists y, R' !! r' = Some y /\ f y = m /\ live' r') <-> (exists y, R !! r' = Some y /\ f y = m /\ live r')) ->
  owned f live' (S ∖ {[f x]}) R'.
Proof.
  intros (owner & -> & H) Hr Hl Hx Hgone Hrest. exists (delete (f x) owner). split; [by rewrite dom_delete_L|]. intros m r'.
  assert (owner !! f x = Some r) as Ho by (apply H; split; [done|]; by exists x).
  rewrite lookup_delete_Some, H. destruct (decide (r' = r)) as [->|Hne].
  - split; [intros (Hm & _ & y & Hy & <- & _); congruence|]. intros (Hm & y & Hy & Hym & Hl'). specialize (Hgone y Hy Hl'). congruence.
  - rewrite (Hrest r' Hne m). split; [by intros (_ & Hm & Hy)|]. intros (Hm & Hy). split; [|by split]. intros <-.
    assert (owner !! f x = Some r') as Ho' by (apply H; by split). congruence.
Qed.

Lemma owned_alloc f live live' S R R' r m : owned f live S R -> m ∉ S -> m <> 0 ->
  (forall y, R !! r = Some y -> live r -> f y = 0) -> (exists y, R' !! r = Some y /\ f y = m) -> live' r ->
  (forall r', r' <> r -> forall m, (exists y, R' !! r' = Some y /\ f y = m /\ live' r') <-> (exists y, R !! r' = Some y /\ f y = m /\ live r')) ->
  owned f live' ({[m]} ∪ S) R'.
Proof.
  intros (owner & -> & H) Hm Hm0 Hnone (y & Hy & Hym) Hl Hrest. exists (<[m := r]> owner). split; [by rewrite dom_insert_L|]. intros m' r'.
  apply not_elem_of_dom in Hm. rewrite lookup_insert_Some, H. destruct (decide (r' = r)) as [->|Hne].
  - split.
    + intros [[-> _]|(Hne & Hm' & z & Hz & Hzm & Hlz)]; [split; [done|]; by exists y|]. specialize (Hnone z Hz Hlz). congruence.
    + intros (Hm' & z & Hz & Hzm & _). left. split; [|done]. congruence.
  - rewrite (Hrest r' Hne m'). split; [intros [[_ E]|(_ & Hm' & Hz)]; [congruence|by split]|]. intros (Hm' & Hz). right. split; [|by split]. intros <-.
    assert (owner !! m = Some r') by (apply H; by split). congruence.
Qed.

(** ** Queues *)

Lemma queue_ok_frame R R' pl pl' q x fp : queue_ok R pl q x fp ->
  (forall a, pl !! a = Some (In_fifo q) \/ pl !! a = Some (In_pool q) -> R' !! a = R !! a) ->
  (forall a, pl' !! a = Some (In_fifo q) <-> pl !! a = Some (In_fifo q)) -> (forall a, pl' !! a = Some (In_pool q) <-> pl !! a = Some (In_pool q)) ->
  queue_ok R' pl' q x fp.
Proof.
  intros (H1 & H2 & H3 & H4 & H5 & H6) HR Hf Hp. split_and!; [|done|done| | |].
  - eapply segment_ext; [|exact H1]. intros a Ha. apply HR. left. by apply H5.
  - eapply segment_ext; [|exact H4]. intros a Ha. apply HR. right. by apply H6.
  - intros a. by rewrite H5, Hf.
  - intros a. by rewrite H6, Hp.
Qed.

(** Another queue, when a request that is not in it has moved to [p]. *)
Lemma queue_ok_other R R' pl q x fp r p : queue_ok R pl q x fp -> (forall a, pl !! a = Some (In_fifo q) \/ pl !! a = Some (In_pool q) -> R' !! a = R !! a) ->
  pl !! r <> Some (In_fifo q) -> pl !! r <> Some (In_pool q) -> p <> In_fifo q -> p <> In_pool q -> queue_ok R' (<[r := p]> pl) q x fp.
Proof.
  intros H HR Hf Hp Hpf Hpp. eapply queue_ok_frame; [exact H|exact HR|..]; intros a; rewrite lookup_insert; case_decide; try done; subst a; split; congruence.
Qed.

Lemma rep_lists_of h s q x fp : rep h s -> queues h !! q = Some x -> lists s !! q = Some fp -> queue_ok (requests h) (places s) q x fp.
Proof. intros H Hx Hfp. destruct (rep_queue h s H q x Hx) as (fp' & E & Hq). congruence. Qed.

Lemma rep_queue_of h s q fp : rep h s -> lists s !! q = Some fp -> exists x, queues h !! q = Some x /\ queue_ok (requests h) (places s) q x fp.
Proof.
  intros H Hfp. destruct (rep_lists h s H q) as (x & Hx); [by eexists|]. exists x. split; [done|]. by eapply rep_lists_of.
Qed.

Lemma rep_ready h s r : rep h s -> places s !! r = Some Ready -> exists x, requests h !! r = Some x /\ r <> 0 /\ r_next x = 0.
Proof.
  intros H Hr. destruct (rep_place h s H r) as (x & Hx); [by eexists|]. exists x. destruct (rep_request h s H r x Hx) as (H0 & _ & _ & _ & Hn). auto.
Qed.

(** Appending to a list that is linked. *)
Lemma chain_append R p l r y x : chain r_next R p l -> last l = Some y -> r ∉ l -> r <> 0 -> R !! r = Some x -> r_next x = 0 ->
  exists z, R !! y = Some z /\ y <> 0 /\ chain r_next (<[y := set_next r z]> R) p (l ++ [r]).
Proof.
  intros Hc Hl Hr Hr0 Hx Hn. pose proof (chain_nodup r_next R p l Hc) as Hnd. apply last_Some in Hl as [l' ->].
  pose proof Hc as (m & H1 & H2)%segment_app. destruct H2 as (-> & Hy0 & z & Hz & _). exists z. split; [done|]. split; [done|].
  apply NoDup_app in Hnd as (_ & Hnd & _). rewrite not_elem_of_app, list_elem_of_singleton in Hr. destruct Hr as [Hr Hry].
  unfold chain. rewrite <- app_assoc. apply segment_app. exists y. split.
  - apply segment_insert; [|done]. intros H. apply (Hnd y H). by apply list_elem_of_singleton.
  - split; [done|]. split; [done|]. exists (set_next r z). split; [apply lookup_insert_eq|]. split; [done|]. split; [done|]. exists x.
    split; [by rewrite lookup_insert_ne|done].
Qed.

Lemma owned_update f live S R r x y : owned f live S R -> R !! r = Some x -> f y = f x -> owned f live S (<[r := y]> R).
Proof.
  intros H Hr Hf. eapply owned_same; [exact H|]. intros m r' Hm. rewrite lookup_insert. case_decide as E; [|done]. subst r'.
  rewrite Hr. split; intros (z & [= <-] & <- & Hl); eexists; (split; [done|]); by rewrite ?Hf.
Qed.

Lemma owned_live f live live' S R : owned f live S R -> (forall r, live r <-> live' r) -> owned f live' S R.
Proof. intros H Hl. eapply owned_same; [exact H|]. intros m r _. by setoid_rewrite (Hl r). Qed.

Lemma in_use_insert pl r p : (forall q, p <> In_pool q) -> in_use pl r -> forall r', in_use pl r' <-> in_use (<[r := p]> pl) r'.
Proof.
  intros Hp Hr r'. unfold in_use. setoid_rewrite lookup_insert. case_decide as E; [|done]. subst r'. split; [|done].
  intros _ q [= ->]. by apply (Hp q).
Qed.

(** A request [r] moves to [p], which changes the queue [q] only. *)
Lemma rep_move h s q r p hm x' fp' R' S' B' : rep h s -> is_Some (queues h !! q) -> queue_ok R' (<[r := p]> (places s)) q x' fp' ->
  (forall q', q' <> q -> places s !! r <> Some (In_fifo q') /\ places s !! r <> Some (In_pool q') /\ p <> In_fifo q' /\ p <> In_pool q') ->
  (forall a q', q' <> q -> places s !! a = Some (In_fifo q') \/ places s !! a = Some (In_pool q') -> R' !! a = requests h !! a) ->
  (forall a z, R' !! a = Some z -> a <> 0 /\ is_Some (queues h !! r_q z) /\ is_Some (<[r := p]> (places s) !! a) /\
    hm !! a = Some (r_q z) /\ (<[r := p]> (places s) !! a = Some Ready -> r_next z = 0)) ->
  (forall a, is_Some (<[r := p]> (places s) !! a) -> is_Some (R' !! a)) ->
  owned request_mem (in_use (<[r := p]> (places s))) S' R' -> owned response (fun _ => True) B' R' ->
  rep (Heap R' (<[q := x']> (queues h)) S' B') (Spec (<[q := fp']> (lists s)) (<[r := p]> (places s)) hm).
Proof.
  intros H Hq Hok Hr HR Hreq Hpl Hm Hb.
  assert (forall q', is_Some (queues h !! q') -> is_Some (<[q := x']> (queues h) !! q')) as Hdom
    by (intros q' Hq'; rewrite lookup_insert; by case_decide).
  constructor; cbn [requests queues pools buffers lists places homes]; [|..|done|done].
  - intros q' y. rewrite !lookup_insert. case_decide as E; [intros [= <-]; subst q'; by exists fp'|]. intros Hy.
    destruct (rep_queue h s H q' y Hy) as (fp & Hfp & Hok'). exists fp. split; [done|].
    destruct (Hr q' ltac:(done)) as (Hr1 & Hr2 & Hr3 & Hr4). eapply queue_ok_other; [exact Hok'| |done..]. intros a Ha. by eapply HR.
  - intros q'. rewrite lookup_insert. case_decide as E; [subst q'; by auto|]. intros Hl. by apply Hdom, (rep_lists h s H).
  - intros a z Hz. destruct (Hreq a z Hz) as (H1 & H2 & H3 & H4 & H5). auto.
  - done.
  - intros a q'. rewrite !lookup_insert. case_decide as E1; case_decide as E2; try done; [|by apply (rep_known h s H)].
    destruct (Hr q' ltac:(done)) as (_ & _ & Hr3 & Hr4). intros [[= ->]|[= ->]]; done.
Qed.

(** The same for requests that only get another successor. *)
Lemma rep_relink h s q r p x' fp' R' : rep h s -> is_Some (queues h !! q) -> queue_ok R' (<[r := p]> (places s)) q x' fp' ->
  (forall q', q' <> q -> places s !! r <> Some (In_fifo q') /\ places s !! r <> Some (In_pool q') /\ p <> In_fifo q' /\ p <> In_pool q') ->
  (forall a q', q' <> q -> places s !! a = Some (In_fifo q') \/ places s !! a = Some (In_pool q') -> R' !! a = requests h !! a) ->
  (exists a n z, requests h !! a = Some z /\ R' = <[a := set_next n z]> (requests h) /\ (<[r := p]> (places s) !! a = Some Ready -> n = 0)) ->
  is_Some (places s !! r) -> in_use (places s) r -> (forall q', p <> In_pool q') ->
  (p = Ready -> forall z, requests h !! r = Some z -> r_next z = 0) ->
  rep (Heap R' (<[q := x']> (queues h)) (pools h) (buffers h)) (put_lists q fp' r p s).
Proof.
  intros H Hq Hok Hr HR (a & n & z & Hz & -> & Hn) Hrp Huse Hp Hready. eapply rep_move; try done.
  - intros b y. rewrite lookup_insert. case_decide as E.
    + subst b. intros [= <-]. destruct (rep_request h s H a z Hz) as (H1 & H2 & H3 & H4 & _). split_and!; [done|done| |done|done].
      rewrite lookup_insert. by case_decide.
    + intros Hy. destruct (rep_request h s H b y Hy) as (H1 & H2 & H3 & H4 & H5). split_and!; [done|done|rewrite lookup_insert; by case_decide|done|].
      rewrite lookup_insert. case_decide as E'; [|done]. subst b. intros [= ->]. by eapply Hready.
  - intros b Hb. assert (is_Some (requests h !! b)) as (y & Hy).
    { rewrite lookup_insert in Hb. case_decide as E; [subst b|]; by apply (rep_place h s H). }
    rewrite lookup_insert. case_decide; [done|]. by exists y.
  - eapply owned_update; [|done|done]. eapply owned_live; [apply (rep_mem h s H)|]. by apply in_use_insert.
  - eapply owned_update; [|done|done]. apply (rep_buffers h s H).
Qed.

Lemma no_next h r z : requests h !! r = Some z -> set_next (r_next z) z = z.
Proof. by destruct z. Qed.

Lemma enq_rep h s q r fifo pool : rep h s -> places s !! r = Some Ready -> lists s !! q = Some (fifo, pool) -> zlen fifo < INT_MAX ->
  run (request_enq q r) h (fun _ h' => rep h' (put_lists q (fifo ++ [r], pool) r (In_fifo q) s)).
Proof.
  intros H Hr Hq Hlen. destruct (rep_queue_of h s q _ H Hq) as (x & Hx & Hc & Ht & Hn & Hp & Hf1 & Hf2). cbn [fst snd] in *.
  destruct (rep_ready h s r H Hr) as (y & Hy & Hr0 & Hyn).
  assert (r ∉ fifo) as Hrf by (rewrite Hf1; congruence). assert (r ∉ pool) as Hrp by (rewrite Hf2; congruence).
  (* the successor of a request of the queue changes *)
  assert (forall a n z x', requests h !! a = Some z -> (a ∈ fifo \/ a = r /\ n = 0) -> chain r_next (<[a := set_next n z]> (requests h)) (q_head x') (fifo ++ [r]) ->
    q_tail x' = r -> q_num x' = zlen fifo + 1 -> q_list x' = q_list x ->
    rep (Heap (<[a := set_next n z]> (requests h)) (<[q := x']> (queues h)) (pools h) (buffers h)) (put_lists q (fifo ++ [r], pool) r (In_fifo q) s)) as Hrep.
  { intros a n z x' Hz Ha Hc' Ht' Hn' Hl'. apply rep_relink; try done.
    - split_and!; cbn [fst snd]; [done|by rewrite last_snoc|zl| | |].
      + rewrite Hl'. apply segment_insert; [|done]. intros Hin. apply Hf2 in Hin. destruct Ha as [Ha%Hf1|[-> _]]; congruence.
      + intros b. rewrite elem_of_app, list_elem_of_singleton, lookup_insert, Hf1.
        case_decide; [subst b; by intuition|]. split; [intros [?|?]; congruence|by left].
      + intros b. rewrite Hf2, lookup_insert. case_decide; [|done]. subst b. split; [congruence|done].
    - intros q' Hne. rewrite Hr. split_and!; congruence.
    - intros b q' Hne Hb. rewrite lookup_insert_ne; [done|]. intros ->. destruct Ha as [Ha%Hf1|[-> _]]; destruct Hb; congruence.
    - exists a, n, z. split; [done|]. split; [done|]. rewrite lookup_insert. case_decide as E; [done|]. intros Hra.
      destruct Ha as [Ha%Hf1|[_ ->]]; [congruence|done].
    - intros q'. congruence. }
  destruct (last fifo) as [t|] eqn:El.
  - destruct (chain_append _ _ _ r t y Hc El Hrf Hr0 Hy Hyn) as (z & Hz & Ht0 & Hc'). simpl in Ht.
    eapply (enq_more h q r x z); [done|congruence|by rewrite Ht|lia|]. rewrite Ht. apply (Hrep t r z); try done.
    + left. apply last_Some in El as [l' ->]. apply elem_of_app. right. by apply list_elem_of_singleton.
    + cbn. lia.
  - apply last_None in El. subst fifo. simpl in Ht. eapply enq_empty; [done|done|lia|].
    assert (<[r := set_next 0 y]> (requests h) = requests h) as E by (rewrite <- Hyn, (no_next h r) by done; by apply insert_id).
    specialize (Hrep r 0 y (RequestQ r r (q_list x) (q_num x + 1)) Hy). rewrite E in Hrep. apply Hrep; try done.
    + by right.
    + cbn. split; [done|]. split; [done|]. by exists y.
    + cbn. lia.
Qed.

Lemma deq_rep h s q r fifo pool : rep h s -> lists s !! q = Some (r :: fifo, pool) ->
  run (request_deq q) h (fun v h' => v = r /\ rep h' (put_lists q (fifo, pool) r (match fifo with [] => Ready | _ => Taken end) s)).
Proof.
  intros H Hq. destruct (rep_queue_of h s q _ H Hq) as (x & Hx & Hc & Ht & Hn & Hp & Hf1 & Hf2). cbn [fst snd] in *.
  pose proof (chain_nodup r_next _ _ _ Hc) as Hnd. apply NoDup_cons in Hnd as [Hrf _].
  destruct Hc as (Hh & Hr0 & y & Hy & Hc). assert (places s !! r = Some (In_fifo q)) as Hr by (apply Hf1, elem_of_cons; by left).
  pose proof (zlen_nonneg fifo). rewrite zlen_cons in Hn. subst r. set (r := q_head x) in *.
  eapply deq_one; [done|done|exact Hy|unfold INT_MIN, INT_MAX; lia|]. split; [done|].
  set (p := match fifo with [] => Ready | _ => Taken end). unfold on_queues. apply rep_relink; try done.
  - split_and!; cbn [fst snd]; [done| |cbn; lia|done| |].
    + cbn [q_tail]. rewrite Ht. destruct fifo as [|b l]; [by rewrite Hc|]. destruct Hc as (-> & Hb & _). by rewrite (proj2 (Z.eqb_neq b 0)).
    + intros b. rewrite lookup_insert. case_decide as E.
      * subst b. split; [done|]. by destruct fifo.
      * rewrite <- Hf1, elem_of_cons. split; [by right|]. by intros [->|?].
    + intros b. rewrite Hf2, lookup_insert. case_decide as E; [|done]. subst b. rewrite Hr. split; [done|]. by destruct fifo.
  - intros q' Hne. rewrite Hr. subst p. destruct fifo; split_and!; congruence.
  - exists r, (r_next y), y. split; [done|]. split; [by rewrite (no_next h r), insert_id|]. rewrite lookup_insert_eq. subst p. by destruct fifo.
  - intros q'. congruence.
  - subst p. by destruct fifo.
  - intros Hrd z Hz. subst p. destruct fifo; [|done]. congruence.
Qed.

(** A request [r] that gets the contents [z] and moves to [Ready]. *)
Lemma rep_renew h s q x' fp' r z : rep h s -> is_Some (queues h !! q) -> queue_ok (<[r := z]> (requests h)) (<[r := Ready]> (places s)) q x' fp' ->
  (forall q', q' <> q -> places s !! r <> Some (In_fifo q') /\ places s !! r <> Some (In_pool q')) -> r <> 0 -> r_next z = 0 -> r_q z = q ->
  owned request_mem (in_use (<[r := Ready]> (places s))) (pools h) (<[r := z]> (requests h)) ->
  owned response (fun _ => True) (buffers h) (<[r := z]> (requests h)) ->
  rep (Heap (<[r := z]> (requests h)) (<[q := x']> (queues h)) (pools h) (buffers h)) (set_home r q (put_lists q fp' r Ready s)).
Proof.
  intros H Hq Hok Hr Hr0 Hn Hzq Hm Hb. apply rep_move; try done.
  - intros q' Hne. destruct (Hr q' Hne). by split_and!.
  - intros a q' Hne Ha. rewrite lookup_insert_ne; [done|]. intros <-. destruct (Hr q' Hne). by destruct Ha.
  - intros a y. rewrite !lookup_insert. case_decide as E; [|apply (rep_request h s H)]. subst a. intros [= <-]. rewrite Hzq. by split_and!.
  - intros a. rewrite !lookup_insert. case_decide; [done|]. apply (rep_place h s H).
Qed.

Section ops.
Context `{Allocator}.

(** What [request_get] leaves. *)
Definition got (h : heap) (s : spec) (q : Z) (fifo pool : list Z) (r : Z) (h' : heap) : Prop :=
  exists s' x, obtains s q r s' /\ rep h' s' /\ requests h' !! r = Some x /\ request_mem x = 0 /\
    lists s' !! q = Some (fifo, tail pool) /\ places s' !! r = Some Ready.

Lemma get_new h s q fifo : rep h s -> lists s !! q = Some (fifo, []) -> run (request_get q) h (got h s q fifo []).
Proof.
  intros H0 Hq. destruct (rep_queue_of h s q _ H0 Hq) as (x & Hx & Hok). pose proof Hok as (_ & _ & _ & Hp & _). cbn [fst snd] in Hp.
  unfold request_get. eapply run_load_q; [done|]. apply run_get.
  assert (q_list x = 0) as -> by apply Hp. cbn [Z.eqb negb]. set (r := malloc _). apply run_modify, run_ret.
  assert (requests h !! r = None) as Hr by (apply not_elem_of_dom, malloc_fresh).
  assert (places s !! r = None) as Hpl.
  { destruct (places s !! r) eqn:E; [|done]. destruct (rep_place h s H0 r) as (z & Hz); [by eexists|]. congruence. }
  set (z := Request _ _ _ _ _ _ _ _ _ _). exists (set_home r q (put_lists q (fifo, []) r Ready s)), z.
  split_and!; try done; [by eapply Obtain_new| |cbn; apply lookup_insert_eq..].
  replace (on_requests _ _) with (Heap (<[r := z]> (requests h)) (<[q := x]> (queues h)) (pools h) (buffers h)) by (unfold on_requests; by rewrite (insert_id _ _ _ Hx)).
  assert (forall f live live', f z = 0 -> (forall a, a <> r -> live a <-> live' a) -> forall S, owned f live S (requests h) -> owned f live' S (<[r := z]> (requests h))) as Hown.
  { intros f live live' Hz Hl S Ho. eapply owned_same; [exact Ho|]. intros m a Hm. rewrite lookup_insert. case_decide as E.
    - subst a. rewrite Hr. split; [|by intros (? & ? & _)]. intros (y & [= <-] & <- & _). done.
    - by setoid_rewrite (Hl a ltac:(done)). }
  apply rep_renew; try done.
  - eapply queue_ok_other; [done| |congruence..]. intros a Ha. rewrite lookup_insert_ne; [done|]. intros <-. destruct Ha; congruence.
  - intros q' _. by rewrite Hpl.
  - apply malloc_null.
  - eapply Hown; [done| |apply (rep_mem h s H0)]. intros a Ha. unfold in_use. by setoid_rewrite lookup_insert_ne.
  - by eapply Hown; [done| |apply (rep_buffers h s H0)].
Qed.

Lemma get_old h s q fifo r pool : rep h s -> lists s !! q = Some (fifo, r :: pool) -> run (request_get q) h (got h s q fifo (r :: pool)).
Proof.
  intros H0 Hq. destruct (rep_queue_of h s q _ H0 Hq) as (x & Hx & Hc & Ht & Hn & Hp & Hf1 & Hf2). cbn [fst snd] in *.
  unfold request_get. eapply run_load_q; [done|]. apply run_get.
  pose proof (chain_nodup r_next _ _ _ Hp) as Hnd. apply NoDup_cons in Hnd as [Hrp _]. destruct Hp as (Hl & Hr0 & y & Hy & Hp).
  assert (places s !! r = Some (In_pool q)) as Hr by (apply Hf2, elem_of_cons; by left).
  subst r. set (r := q_list x) in *. rewrite (proj2 (Z.eqb_neq _ _) Hr0). cbn [negb]. eapply run_load; [exact Hy|].
  eapply run_update_q; [done|]. eapply run_update; [exact Hy|]. apply run_ret. set (z := Request _ _ _ _ _ _ _ _ _ _).
  exists (set_home r q (put_lists q (fifo, pool) r Ready s)), z. split_and!; try done; [by eapply Obtain_old| |cbn; apply lookup_insert_eq..].
  assert (forall a, a <> r -> <[r := z]> (requests h) !! a = requests h !! a) as Hother by (intros; by rewrite lookup_insert_ne).
  unfold on_requests, on_queues. cbn [requests queues pools buffers]. apply rep_renew; try done.
  - split_and!; cbn [fst snd set_list q_head q_tail q_num q_list]; [|done|done| | |].
    + eapply segment_ext; [|exact Hc]. intros a Ha. apply Hother. intros ->. apply Hf1 in Ha. congruence.
    + eapply segment_ext; [|exact Hp]. intros a Ha. apply Hother. by intros ->.
    + intros a. rewrite Hf1, lookup_insert. case_decide; [|done]. subst a. split; congruence.
    + intros a. rewrite lookup_insert. case_decide as E; [subst a; done|]. rewrite <- Hf2, elem_of_cons. split; [by right|]. by intros [->|?].
  - intros q' Hne. rewrite Hr. split; congruence.
  - eapply owned_same; [apply (rep_mem h s H0)|]. intros m a Hm. unfold in_use. setoid_rewrite lookup_insert. case_decide as E; [|done]. subst a.
    split; [intros (w & [= <-] & <- & _); done|]. intros (w & _ & _ & Hu). by destruct (Hu q).
  - eapply owned_update; [apply (rep_buffers h s H0)|done|done].
Qed.

Lemma get_rep h s q fifo pool : rep h s -> lists s !! q = Some (fifo, pool) -> run (request_get q) h (got h s q fifo pool).
Proof. intros H0 Hq. destruct pool; [by apply get_new|by apply get_old]. Qed.

(** A request of the session whose contents change, not its place. *)
Lemma rep_contents h s r x z S' B' : rep h s -> places s !! r = Some Ready -> requests h !! r = Some x -> r_next z = r_next x -> r_q z = r_q x ->
  owned request_mem (in_use (places s)) S' (<[r := z]> (requests h)) -> owned response (fun _ => True) B' (<[r := z]> (requests h)) ->
  rep (Heap (<[r := z]> (requests h)) (queues h) S' B') s.
Proof.
  intros H0 Hr Hx Hn Hzq Hm Hb. destruct (rep_request h s H0 r x Hx) as (Hr0 & (qx & Hqx) & _ & Hhm & Hn0).
  destruct (rep_queue h s H0 _ qx Hqx) as (fp & Hfp & Hok).
  assert (put_lists (r_q x) fp r Ready s = s) as Es by (destruct s; unfold put_lists; cbn in *; by rewrite !insert_id).
  rewrite <- (insert_id (queues h) _ _ Hqx), <- Es. assert (<[r := Ready]> (places s) = places s) as Ep by by apply insert_id.
  apply rep_move; rewrite ?Ep; try done.
  - eapply queue_ok_frame; [exact Hok| |done|done]. intros a Ha. rewrite lookup_insert_ne; [done|]. intros ->. destruct Ha; congruence.
  - intros q' _. rewrite Hr. split_and!; congruence.
  - intros a q' _ Ha. rewrite lookup_insert_ne; [done|]. intros ->. destruct Ha; congruence.
  - intros a w. rewrite lookup_insert. case_decide as E; [|apply (rep_request h s H0)]. subst a. intros [= <-].
    rewrite Hn, Hzq. by apply (rep_request h s H0).
  - intros a Ha. rewrite lookup_insert. case_decide; [done|]. by apply (rep_place h s H0).
Qed.

Lemma receive_rep h s q fifo pool : rep h s -> lists s !! q = Some (fifo, pool) -> zlen fifo < INT_MAX ->
  run (receive q) h (fun r h' => exists s', step s (Receive q) r s' /\ rep h' s').
Proof.
  intros H0 Hq Hlen. unfold receive. eapply run_bind; [by eapply get_rep|]. intros r h1 (s1 & x & Hs1 & H1 & Hx & Hm & Hq1 & Hr1).
  apply run_get. set (m := malloc _). apply run_modify. eapply run_update; [exact Hx|]. set (h2 := on_requests _ _).
  assert (rep h2 s1) as H2.
  { apply (rep_contents h1 s1 r x); try done.
    - eapply (owned_alloc _ _ _ _ (requests h1) _ r); [apply (rep_mem h1 s1 H1)|apply malloc_fresh|apply malloc_null| | | |].
      + intros y Hy _. congruence.
      + eexists. split; [apply lookup_insert_eq|done].
      + intros q'. congruence.
      + intros r' Hne m'. by rewrite lookup_insert_ne.
    - eapply owned_update; [apply (rep_buffers h1 s1 H1)|done|done]. }
  eapply run_bind; [by eapply enq_rep|]. intros [] h3 H3. apply run_ret. eexists. split; [|exact H3].
  eapply S_receive; [exact Hs1|]. by eapply Appends.
Qed.

Lemma respond_rep h s q r size len fifo pool : rep h s -> places s !! r = Some Ready -> lists s !! q = Some (fifo, pool) -> zlen fifo < INT_MAX ->
  run (respond q r size len) h (fun _ h' => exists s', step s (Respond q r size len) 0 s' /\ rep h' s').
Proof.
  intros H0 Hr Hq Hlen. destruct (rep_ready h s r H0 Hr) as (x & Hx & _ & _). unfold respond. eapply run_load; [exact Hx|].
  eapply (run_bind _ _ _ (fun _ h1 => h1 = Heap (requests h) (queues h) (pools h) (buffers h1) /\
    forall z b, b ∉ buffers h1 -> b <> 0 -> response z = b -> owned response (fun _ => True) ({[b]} ∪ buffers h1) (<[r := z]> (requests h)))).
  { pose proof (rep_buffers h s H0) as Hb. unfold xfree_buffer. apply run_get.
    assert (forall S R, owned response (fun _ => True) S R -> (forall y, R !! r = Some y -> response y = 0) -> (forall r', r' <> r -> R !! r' = requests h !! r') ->
      forall z b, b ∉ S -> b <> 0 -> response z = b -> owned response (fun _ => True) ({[b]} ∪ S) (<[r := z]> (requests h))) as Halloc.
    { intros S R Ho Hz0 Hrest z b Hb1 Hb0 Hz. eapply (owned_alloc _ _ _ _ R _ r); [exact Ho|done|done| | |done|].
      - intros y Hy _. by apply Hz0.
      - eexists. split; [apply lookup_insert_eq|done].
      - intros r' Hne m'. by rewrite lookup_insert_ne, Hrest. }
    destruct (Z.eqb_spec (response x) 0) as [E|Hne].
    - apply run_ret. split; [by destruct h|]. intros z b. eapply (Halloc _ (requests h)); [done| |done]. intros y Hy. congruence.
    - rewrite bool_decide_eq_true_2 by by eapply owned_in. eexists _, _. split; [done|]. split; [done|]. cbn [buffers on_buffers].
      eapply (Halloc _ (<[r := set_response 0 0 0 x]> (requests h))); [|intros y; rewrite lookup_insert_eq; by intros [= <-]|intros r' Hr'; by rewrite lookup_insert_ne].
      eapply owned_free; [exact Hb|exact Hx|done|done|intros y; rewrite lookup_insert_eq; by intros [= <-]|]. intros r' Hr' m. by rewrite lookup_insert_ne. }
  intros [] h1 [Eh Hown]. apply run_get. set (b := malloc _). apply run_modify. rewrite Eh. eapply run_update; [exact Hx|]. set (h2 := on_requests _ _).
  assert (rep h2 s) as H2.
  { apply (rep_contents h s r x); try done; [eapply owned_update; [apply (rep_mem h s H0)|done|done]|].
    apply Hown; [apply malloc_fresh|apply malloc_null|done]. }
  eapply run_weaken; [by eapply enq_rep|]. intros [] h3 H3. eexists. split; [|exact H3]. eapply S_respond. by eapply Appends.
Qed.

Lemma release_rep h s r : rep h s -> places s !! r = Some Ready \/ places s !! r = Some Taken ->
  run (request_release r) h (fun _ h' => exists s', step s (Release r) 0 s' /\ rep h' s').
Proof.
  intros H0 Hr. destruct (rep_place h s H0 r) as (x & Hx); [destruct Hr as [-> | ->]; by eexists|].
  destruct (rep_request h s H0 r x Hx) as (Hr0 & (y & Hy) & _ & Hhm & _). destruct (rep_queue h s H0 _ y Hy) as ([fifo pool] & Hq & Hc & Ht & Hn & Hp & Hf1 & Hf2).
  cbn [fst snd] in *. unfold request_release. eapply run_load; [exact Hx|].
  assert (in_use (places s) r) as Huse by (intros q'; destruct Hr as [-> | ->]; congruence).
  eapply (run_bind _ _ _ (fun _ h1 => h1 = Heap (requests h) (queues h) (pools h1) (buffers h) /\
    owned request_mem (in_use (<[r := In_pool (r_q x)]> (places s))) (pools h1) (<[r := set_next (q_list y) x]> (requests h)))).
  { pose proof (rep_mem h s H0) as Hm.
    assert (forall r', r' <> r -> in_use (<[r := In_pool (r_q x)]> (places s)) r' <-> in_use (places s) r') as Huse'
      by (intros r' Hne; unfold in_use; by setoid_rewrite lookup_insert_ne).
    assert (~ in_use (<[r := In_pool (r_q x)]> (places s)) r) as Hno by (intros Hu; apply (Hu (r_q x)); apply lookup_insert_eq).
    destruct (Z.eqb_spec (request_mem x) 0) as [E|Hne]; cbn [negb].
    - apply run_ret. split; [by destruct h|]. eapply owned_same; [exact Hm|]. intros m a Hm0. destruct (decide (a = r)) as [->|Hne].
      + split; [by intros (? & _ & _ & ?)|]. intros (z & Hz & <- & _). congruence.
      + rewrite lookup_insert_ne by done. by setoid_rewrite (Huse' a Hne).
    - unfold nmem_destroy. apply run_get. rewrite bool_decide_eq_true_2 by by eapply owned_in. eexists _, _. split; [done|]. split; [done|].
      cbn [pools on_pools]. eapply owned_free; [exact Hm|exact Hx|done|done|done|]. intros r' Hr' m. rewrite lookup_insert_ne by done. by setoid_rewrite (Huse' r' Hr'). }
  intros [] h1 [Eh Hown]. rewrite Eh. eapply run_load_q; [exact Hy|]. eapply run_update; [exact Hx|].
  eapply run_is; [eapply update_q_ok; exact Hy|]. cbn [requests queues pools buffers on_requests on_queues].
  eexists. split; [by eapply S_release|]. assert (r ∉ pool) as Hrp by (rewrite Hf2; destruct Hr; congruence).
  assert (r ∉ fifo) as Hrf by (rewrite Hf1; destruct Hr; congruence).
  change (rep (Heap (<[r := set_next (q_list y) x]> (requests h)) (<[r_q x := set_list r y]> (queues h)) (pools h1) (buffers h))
    (put_lists (r_q x) (fifo, r :: pool) r (In_pool (r_q x)) s)).
  apply rep_move; try done.
  - split_and!; cbn [fst snd set_list q_head q_tail q_num q_list]; [by apply segment_insert|done|done| | |].
    + split; [done|]. split; [done|]. eexists. split; [apply lookup_insert_eq|]. by apply segment_insert.
    + intros a. rewrite Hf1, lookup_insert. case_decide; [|done]. subst a. split; [destruct Hr; congruence|done].
    + intros a. rewrite elem_of_cons, Hf2, lookup_insert. case_decide; [subst a; split; [done|by left]|]. split; [intros [?|?]; [congruence|done]|by right].
  - intros q' Hne. destruct Hr as [-> | ->]; split_and!; congruence.
  - intros a q' Hne Ha. rewrite lookup_insert_ne; [done|]. intros ->. destruct Hr, Ha; congruence.
  - intros a z. rewrite !lookup_insert. case_decide as E; [|apply (rep_request h s H0)]. subst a. intros [= <-]. split_and!; [done|by eexists|done|done|done].
  - intros a. rewrite !lookup_insert. case_decide; [done|]. apply (rep_place h s H0).
  - eapply owned_update; [apply (rep_buffers h s H0)|done|done].
Qed.

(** ** The refinement *)

Lemma has_room_list s q : has_room s q = true -> exists fifo pool, lists s !! q = Some (fifo, pool) /\ zlen fifo < INT_MAX.
Proof. unfold has_room. destruct (lists s !! q) as [[fifo pool]|]; [|done]. intros E%Z.ltb_lt. by exists fifo, pool. Qed.

(** What is allowed is done, and as the specification says. *)
Lemma exec_rep h s o : rep h s -> allowed s o = true -> run (exec o) h (fun v h' => exists s', step s o v s' /\ rep h' s').
Proof.
  intros H0. destruct o as [q|q|q r|q r size len|q|q|r]; cbn [allowed exec]; intros Ha.
  - apply bool_decide_eq_true in Ha as [[fifo pool] Hq]. eapply run_weaken; [by eapply get_rep|].
    intros r h' (s' & x & Hs & H' & _). exists s'. split; [by apply S_get|done].
  - apply has_room_list in Ha as (fifo & pool & Hq & Hlen). by eapply receive_rep.
  - apply andb_true_iff in Ha as [(fifo & pool & Hq & Hlen)%has_room_list Hr%bool_decide_eq_true].
    eapply run_bind; [by eapply enq_rep|]. intros [] h' H'. apply run_ret. eexists. split; [|exact H']. apply S_enq. by eapply Appends.
  - apply andb_true_iff in Ha as [(fifo & pool & Hq & Hlen)%has_room_list Hr%bool_decide_eq_true].
    eapply run_bind; [by eapply respond_rep|]. intros [] h' H'. by apply run_ret.
  - apply bool_decide_eq_true in Ha as [[fifo pool] Hq]. destruct (rep_queue_of h s q _ H0 Hq) as (x & Hx & Hc & _). cbn [fst] in Hc.
    unfold request_head. eapply run_load_q; [exact Hx|]. apply run_ret. exists s. split; [|done].
    assert (q_head x = default 0 (head fifo)) as -> by (destruct fifo; [done|by destruct Hc]). by eapply S_head.
  - apply bool_decide_eq_true in Ha as [[[|r fifo] pool] Hq].
    + destruct (rep_queue_of h s q _ H0 Hq) as (x & Hx & Hc & _). eapply run_is; [eapply deq_none; [exact Hx|exact Hc]|].
      exists s. split; [by eapply S_deq_none|done].
    + eapply run_weaken; [by eapply deq_rep|]. intros v h' [-> H']. eexists. split; [|exact H']. by apply S_deq.
  - eapply run_bind; [eapply release_rep; [done|]|intros [] h' H'; by apply run_ret].
    apply orb_true_iff in Ha as [Ha|Ha]; apply bool_decide_eq_true in Ha; [by left|by right].
Qed.

Lemma step_after s o v s' : step s o v s' -> s' = after s o v.
Proof.
  assert (forall q r s1, obtains s q r s1 -> s1 = with_new s q r) as Ho by (intros q r s1 [f r' p Hf|f r' Hf _]; unfold with_new; by rewrite Hf).
  assert (forall s q r s1, appends_to s q r s1 -> s1 = with_last s q r) as Hp by (intros s0 q r s1 [f p Hf]; unfold with_last; by rewrite Hf).
  intros [q r s1 H1|q r s1 s2 H1 H2|q r s1 H1|q r size len s1 H1|q f p Hf|q p Hf|q r f p Hf|r q f p Hh Hf]; cbn [after]; auto.
  - by rewrite (Hp _ _ _ _ H2), (Ho _ _ _ H1).
  - by rewrite Hf.
  - by rewrite Hf.
  - by rewrite Hh, Hf.
Qed.

(** A session that does what is allowed, with the result of each call. *)
Inductive session : heap -> spec -> list (op * Z) -> heap -> spec -> Prop :=
  | Session_end h s : session h s [] h s
  | Session_call h s o v h1 calls h2 s2 : allowed s o = true -> exec o h = Some (v, h1) -> session h1 (after s o v) calls h2 s2 ->
      session h s ((o, v) :: calls) h2 s2.

Lemma call_rep h s o v h1 : rep h s -> allowed s o = true -> exec o h = Some (v, h1) -> step s o v (after s o v) /\ rep h1 (after s o v).
Proof.
  intros H0 Ha E. destruct (exec_rep h s o H0 Ha) as (v' & h1' & E' & s1 & Hs & H1). rewrite E in E'. injection E' as <- <-.
  by rewrite <- (step_after _ _ _ _ Hs).
Qed.

(** The results that the specification gives. *)
Fixpoint as_specified (s : spec) (calls : list (op * Z)) : Prop :=
  match calls with
  | [] => True
  | (o, v) :: calls => step s o v (after s o v) /\ as_specified (after s o v) calls
  end.

Lemma session_rep h s calls h' s' : session h s calls h' s' -> rep h s -> rep h' s' /\ as_specified s calls.
Proof.
  induction 1 as [h s|h s o v h1 calls h2 s2 Ha E _ IH]; [done|]. intros H0. destruct (call_rep h s o v h1 H0 Ha E) as [Hs H1].
  destruct (IH H1) as [H2 H3]. by split.
Qed.

(** C13: The request queues of a session refine lists: in any sequence of calls
    in which a request is put in a queue only by who holds it and only while it has
    no successor, every call returns what the lists say, whatever addresses the
    allocator gives; in the end no call that is allowed fails, the linked structure
    represents the lists, every request is in one place, and every memory pool and
    response buffer belongs to one request. *)
Theorem requests_refine_lists h s calls h' s' : rep h s -> session h s calls h' s' ->
  as_specified s calls /\ rep h' s' /\ forall o, allowed s' o = true -> exists v h'', exec o h' = Some (v, h'').
Proof.
  intros H0 Hs. destruct (session_rep h s calls h' s' Hs H0) as [H' Hv]. split_and!; [done|done|]. intros o Ha.
  destruct (exec_rep h' s' o H' Ha) as (v & h'' & E & _). by exists v, h''.
Qed.

(** ** Service in order *)

(** The results of the calls that take a request out of the queue. *)
Fixpoint taken_from (q : Z) (calls : list (op * Z)) : list Z :=
  match calls with
  | [] => []
  | (Deq q', v) :: calls => if q' =? q then v :: taken_from q calls else taken_from q calls
  | _ :: calls => taken_from q calls
  end.

Definition is_deq (q : Z) (o : op) : bool := match o with Deq q' => q' =? q | _ => false end.

(** What a step does to a queue. *)
Lemma step_fifo s o v s' q fifo pool : step s o v s' -> lists s !! q = Some (fifo, pool) -> exists fifo' pool',
  lists s' !! q = Some (fifo', pool') /\
  if is_deq q o then fifo = [] /\ v = 0 /\ fifo' = [] \/ fifo = v :: fifo' else exists more, fifo' = fifo ++ more.
Proof.
  intros Hs Hq.
  assert (forall q' f p (s1 s2 : spec), lists s1 !! q = Some (fifo, pool) -> lists s2 = <[q' := (f, p)]> (lists s1) -> (q' = q -> exists more, f = fifo ++ more) ->
    exists fifo' pool', lists s2 !! q = Some (fifo', pool') /\ exists more, fifo' = fifo ++ more) as Hput.
  { intros q' f p s1 s2 Hq1 -> Hf. rewrite lookup_insert. case_decide as E; [exists f, p; split; [done|]; by apply Hf|].
    exists fifo, pool. split; [done|]. exists []. by rewrite app_nil_r. }
  assert (forall q' r s1, obtains s q' r s1 -> exists pool', lists s1 !! q = Some (fifo, pool')) as Hobt.
  { intros q' r s1 [f r' p Hf|f r' Hf _]; cbn; rewrite lookup_insert; (case_decide as E; [subst q'; rewrite Hq in Hf; injection Hf as <- ->; by eexists|by eexists]). }
  destruct Hs as [q' r s' Ho|q' r s1 s' Ho [f p Hf]|q' r s' [f p Hf]|q' r ? ? s' [f p Hf]|q' f p Hf|q' p Hf|q' r f p Hf|r q' f p _ Hf]; cbn [is_deq].
  - destruct (Hobt q' r s' Ho) as (p' & Hp'). exists fifo, p'. split; [done|]. exists []. by rewrite app_nil_r.
  - destruct (Hobt q' r s1 Ho) as (p' & Hp'). cbn. rewrite lookup_insert. case_decide as E.
    + subst q'. rewrite Hf in Hp'. injection Hp' as -> ->. eexists _, _. split; [done|]. by eexists.
    + exists fifo, p'. split; [done|]. exists []. by rewrite app_nil_r.
  - eapply Hput; [exact Hq|done|]. intros ->. rewrite Hq in Hf. injection Hf as -> _. by eexists.
  - eapply Hput; [exact Hq|done|]. intros ->. rewrite Hq in Hf. injection Hf as -> _. by eexists.
  - exists fifo, pool. split; [done|]. exists []. by rewrite app_nil_r.
  - destruct (Z.eqb_spec q' q) as [->|]; exists fifo, pool; (split; [done|]); [left|exists []; by rewrite app_nil_r].
    rewrite Hq in Hf. by injection Hf as -> _.
  - destruct (Z.eqb_spec q' q) as [->|Hne]; cbn; rewrite lookup_insert; case_decide; try done.
    + rewrite Hq in Hf. injection Hf as -> ->. eexists _, _. split; [done|]. by right.
    + exists fifo, pool. split; [done|]. exists []. by rewrite app_nil_r.
  - eapply Hput; [exact Hq|done|]. intros ->. rewrite Hq in Hf. injection Hf as -> _. exists []. by rewrite app_nil_r.
Qed.

(** C14: A request that waits in a queue behind [i] others is what the call
    number [i] from then on that takes a request out of it returns, whatever else is
    called in between: every request is served, in order, and once. *)
Theorem request_is_served h s calls h' s' q fifo pool i r : rep h s -> session h s calls h' s' -> lists s !! q = Some (fifo, pool) -> fifo !! i = Some r ->
  (i < length (taken_from q calls))%nat -> taken_from q calls !! i = Some r.
Proof.
  intros H0 Hs. revert fifo pool i H0. induction Hs as [h s|h s o v h1 calls h2 s2 Ha E _ IH]; intros fifo pool i H0 Hq Hi Hlt; [cbn in Hlt; lia|].
  destruct (call_rep h s o v h1 H0 Ha E) as [Hst H1].
  destruct (step_fifo s o v _ q fifo pool Hst Hq) as (fifo' & pool' & Hq' & Hf). cbn [taken_from] in *.
  assert (is_deq q o = false -> (i < length (taken_from q calls))%nat -> taken_from q calls !! i = Some r) as Hnext.
  { intros Hd Hlt'. rewrite Hd in Hf. destruct Hf as [more ->]. eapply IH; [done|exact Hq'| |done]. by apply lookup_app_l_Some. }
  destruct o as [| | | | |q'|]; try by apply Hnext. cbn [is_deq] in Hf, Hnext. destruct (q' =? q); [|by apply Hnext].
  destruct Hf as [(-> & _)| ->]; [done|]. destruct i as [|i]; [done|]. cbn in Hi, Hlt |- *. eapply IH; [done|exact Hq'|done|lia].
Qed.

(** ** The end of a session *)

(** The session holds no request. *)
Definition none_held (s : spec) : Prop := forall r, places s !! r <> Some Ready /\ places s !! r <> Some Taken.

(** The queue [q] is emptied, and the others keep their requests. *)
Lemma release_all_rep q : forall fuel h s fifo pool, rep h s -> lists s !! q = Some (fifo, pool) -> (length fifo < fuel)%nat -> none_held s ->
  run (release_all fuel q) h (fun _ h' => exists s', rep h' s' /\ none_held s' /\ (forall q', is_Some (lists s' !! q') -> is_Some (lists s !! q')) /\
    forall q' f p, lists s !! q' = Some (f, p) -> exists p', lists s' !! q' = Some (if decide (q' = q) then [] else f, p')).
Proof.
  induction fuel as [|fuel IH]; intros h s fifo pool H0 Hq Hf Hno; [lia|]. cbn [release_all].
  destruct (rep_queue_of h s q _ H0 Hq) as (x & Hx & Hc & _). cbn [fst] in Hc. destruct fifo as [|r fifo].
  { unfold run. rewrite (bind_Some _ _ _ _ _ (deq_none h q x Hx Hc)). apply run_ret. exists s. split_and!; try done.
    intros q' f p Hp. exists p. case_decide as E; [|done]. subst q'. rewrite Hq in Hp. by injection Hp as <- <-. }
  destruct Hc as (_ & Hr0 & _). eapply run_bind; [by eapply deq_rep|]. intros v h1 [-> H1]. rewrite (proj2 (Z.eqb_neq r 0) Hr0).
  set (s1 := put_lists _ _ _ _ _) in *. assert (places s1 !! r = Some Ready \/ places s1 !! r = Some Taken) as Hr1.
  { cbn. rewrite lookup_insert_eq. destruct fifo; [by left|by right]. }
  eapply run_bind; [by eapply release_rep|]. intros [] h2 (s2 & Hs2 & H2). inversion Hs2 as [| | | | | | |? qh fh ph Hhome Hlh]; subst.
  assert (exists p2, lists (put_lists qh (fh, r :: ph) r (In_pool qh) s1) !! q = Some (fifo, p2)) as (p2 & Hq2).
  { cbn in Hlh |- *. rewrite lookup_insert. case_decide as E; [|by rewrite lookup_insert_eq; eexists]. subst qh.
    rewrite lookup_insert_eq in Hlh. injection Hlh as <- <-. by eexists. }
  eapply run_weaken; [eapply IH; [exact H2|exact Hq2|simpl in Hf; lia|]|].
  { intros a. cbn. rewrite !lookup_insert. case_decide; [done|]. apply Hno. }
  intros [] h3 (s3 & H3 & Hno3 & Hdom & Hall). exists s3. split_and!; try done.
  - intros q' Hs3. apply Hdom in Hs3. cbn in Hs3, Hlh. rewrite lookup_insert in Hs3. rewrite !lookup_insert in Hlh. rewrite lookup_insert in Hs3.
    destruct (decide (qh = q')) as [->|]; [|destruct (decide (q = q')) as [->|]; [by eexists|done]].
    destruct (decide (q = q')) as [->|]; by eexists.
  - intros q' f p Hp. assert (exists p', lists (put_lists qh (fh, r :: ph) r (In_pool qh) s1) !! q' = Some (if decide (q' = q) then fifo else f, p')) as (p' & Hp').
    { destruct (decide (q' = q)) as [->|Hne]; [by eexists|]. cbn in Hlh |- *. rewrite lookup_insert. case_decide as E; [|by rewrite lookup_insert_ne; [eexists|]].
      subst qh. rewrite lookup_insert_ne in Hlh by done. rewrite Hp in Hlh. injection Hlh as <- <-. by eexists. }
    destruct (Hall _ _ _ Hp') as (p'' & Hp''). exists p''. rewrite Hp''. by destruct (decide (q' = q)).
Qed.

(** Requests that are linked are freed with their buffers. *)
Lemma delq_loop_frees : forall l fuel h p, (length l < fuel)%nat -> chain r_next (requests h) p l -> owned response (fun _ => True) (buffers h) (requests h) ->
  run (delq_loop fuel p) h (fun _ h' => queues h' = queues h /\ pools h' = pools h /\ owned response (fun _ => True) (buffers h') (requests h') /\
    forall a, requests h' !! a = if decide (a ∈ l) then None else requests h !! a).
Proof.
  induction l as [|r l IH]; intros fuel h p Hf Hc Ho; (destruct fuel as [|fuel]; [simpl in Hf; lia|]); cbn [delq_loop].
  { rewrite Hc. apply run_ret. split_and!; try done. }
  pose proof (chain_nodup r_next _ _ _ Hc) as [Hrl _]%NoDup_cons. destruct Hc as (-> & Hr0 & x & Hx & Hc). rewrite (proj2 (Z.eqb_neq r 0) Hr0).
  eapply run_load; [exact Hx|].
  eapply (run_bind _ _ _ (fun _ h1 => h1 = Heap (requests h) (queues h) (pools h) (buffers h1) /\
    owned response (fun _ => True) (buffers h1) (delete r (requests h)))).
  { unfold xfree_buffer. apply run_get. assert (forall r', r' <> r -> delete r (requests h) !! r' = requests h !! r') as Hrest by (intros; by rewrite lookup_delete_ne).
    destruct (Z.eqb_spec (response x) 0) as [E|Hne].
    - apply run_ret. split; [by destruct h|]. eapply owned_same; [exact Ho|]. intros m a Hm. destruct (decide (a = r)) as [->|Hne]; [|by rewrite Hrest].
      rewrite lookup_delete_eq. split; [by intros (? & ? & _)|]. intros (y & Hy & <- & _). congruence.
    - rewrite bool_decide_eq_true_2 by by eapply owned_in. eexists _, _. split; [done|]. split; [done|].
      eapply owned_free; [exact Ho|exact Hx|done|done|intros y; by rewrite lookup_delete_eq|]. intros r' Hr' m. by rewrite Hrest. }
  intros [] h1 [Eh Ho1]. rewrite Eh. apply run_modify. eapply run_weaken; [eapply IH; [simpl in Hf; lia|by apply segment_delete|exact Ho1]|].
  intros [] h2 (H1 & H2 & H3 & H4). split_and!; try done. intros a. rewrite H4. cbn. destruct (decide (a = r)) as [->|Hne].
  - rewrite (decide_False (P := r ∈ l)) by done. rewrite lookup_delete_eq. by rewrite decide_True by (apply elem_of_cons; by left).
  - rewrite lookup_delete_ne by done. destruct (decide (a ∈ l)).
    + by rewrite decide_True by (apply elem_of_cons; by right).
    + rewrite decide_False; [done|]. by intros [?|?]%elem_of_cons.
Qed.

Lemma owned_none f live S R : owned f live S R -> (forall r x, R !! r = Some x -> live r -> f x = 0) -> S = ∅.
Proof.
  intros (owner & -> & Ho) Hz. apply dom_empty_iff_L, map_empty. intros m. destruct (owner !! m) as [r|] eqn:E; [|done].
  apply Ho in E as (Hm & x & Hx & <- & Hl). by rewrite (Hz r x) in Hm.
Qed.

Lemma fifo_size h s q fifo pool : rep h s -> lists s !! q = Some (fifo, pool) -> (length fifo <= size (requests h))%nat.
Proof. intros H0 Hq. destruct (rep_queue_of h s q _ H0 Hq) as (x & Hx & Hc & _). by eapply chain_size. Qed.

(** With empty queues all requests wait to be used again. *)
Lemma all_pooled h s incoming outgoing p1 p2 : rep h s -> none_held s -> (forall q, is_Some (lists s !! q) -> q = incoming \/ q = outgoing) ->
  lists s !! incoming = Some ([], p1) -> lists s !! outgoing = Some ([], p2) -> forall a, is_Some (requests h !! a) -> a ∈ p1 \/ a ∈ p2.
Proof.
  intros H0 Hno Hqs Hi Ho a [x Hx]. destruct (rep_queue_of h s _ _ H0 Hi) as (x1 & Hx1 & _ & _ & _ & _ & Hin1 & Hin1').
  destruct (rep_queue_of h s _ _ H0 Ho) as (x2 & Hx2 & _ & _ & _ & _ & Hin2 & Hin2'). cbn [fst snd] in *.
  destruct (rep_request h s H0 a x Hx) as (_ & _ & [pl Hpl] & _). destruct (Hno a) as [N1 N2].
  assert (forall q, places s !! a = Some (In_fifo q) \/ places s !! a = Some (In_pool q) -> q = incoming \/ q = outgoing) as Hq
    by (intros q Hq; by eapply Hqs, rep_known).
  destruct pl as [q|q| |]; [| |done|done]; (destruct (Hq q) as [->| ->]; [by auto|..]).
  - by apply Hin1 in Hpl as ?%not_elem_of_nil.
  - by apply Hin2 in Hpl as ?%not_elem_of_nil.
  - left. by apply Hin1'.
  - right. by apply Hin2'.
Qed.

(** C15: The end of a session frees everything: when all requests are in the
    two queues or wait to be used again, and none is with the session, emptying and
    deleting the queues leaves no request, no memory pool and no response buffer,
    and frees nothing twice. *)
Theorem destroy_frees_all h s incoming outgoing : rep h s -> incoming <> outgoing -> none_held s ->
  (forall q, is_Some (lists s !! q) <-> q = incoming \/ q = outgoing) ->
  run (destroy_queues incoming outgoing) h (fun _ h' => requests h' = ∅ /\ pools h' = ∅ /\ buffers h' = ∅).
Proof.
  intros H0 Hne Hno Hqs. destruct (proj2 (Hqs incoming) ltac:(by left)) as [[f1 p1] Hi]. destruct (proj2 (Hqs outgoing) ltac:(by right)) as [[f2 p2] Ho].
  unfold destroy_queues. apply run_get. eapply run_bind; [eapply release_all_rep; [exact H0|exact Hi| |done]; apply (fifo_size h s) in Hi; [lia|done]|].
  intros [] h1 (s1 & H1 & Hno1 & Hd1 & Hl1). destruct (Hl1 _ _ _ Ho) as (p2' & Ho1). rewrite decide_False in Ho1 by done.
  eapply run_bind; [eapply release_all_rep; [exact H1|exact Ho1| |done]; apply (fifo_size h s) in Ho; [lia|done]|].
  intros [] h2 (s2 & H2 & Hno2 & Hd2 & Hl2). destruct (Hl1 _ _ _ Hi) as (p1' & Hi1). rewrite decide_True in Hi1 by done.
  destruct (Hl2 _ _ _ Hi1) as (p1'' & Hi2). rewrite decide_False in Hi2 by done. destruct (Hl2 _ _ _ Ho1) as (p2'' & Ho2). rewrite decide_True in Ho2 by done.
  destruct (rep_queue_of h2 s2 _ _ H2 Hi2) as (x1 & Hx1 & _ & _ & _ & Hp1 & Hin1 & Hin1'). destruct (rep_queue_of h2 s2 _ _ H2 Ho2) as (x2 & Hx2 & _ & _ & _ & Hp2 & Hin2 & Hin2').
  cbn [fst snd] in *.
  assert (forall a, is_Some (requests h2 !! a) -> a ∈ p1'' \/ a ∈ p2'') as Hall
    by (eapply all_pooled; [done|done| |done|done]; intros q Hq; by apply Hqs, Hd1, Hd2).
  assert (pools h2 = ∅) as Hpools.
  { eapply owned_none; [apply (rep_mem h2 s2 H2)|]. intros a x Hx Hu. destruct (Hall a) as [Ha|Ha]; [by eexists|apply Hin1' in Ha|apply Hin2' in Ha]; by apply Hu in Ha. }
  unfold request_delq. eapply run_bind; [eapply run_load_q; [exact Hx1|]; apply run_get; eapply delq_loop_frees; [|exact Hp1|apply (rep_buffers h2 s2 H2)];
    apply Nat.lt_succ_r; by eapply chain_size|]. cbv beta. intros [] h3 (Q3 & P3 & B3 & R3).
  eapply run_load_q; [rewrite Q3; exact Hx2|]. apply run_get.
  assert (forall a, a ∈ p2'' -> a ∉ p1'') as Hdisj by (intros a A2%Hin2' A1%Hin1'; congruence).
  assert (chain r_next (requests h3) (q_list x2) p2'') as Hp3 by (eapply segment_ext; [|exact Hp2]; intros a Ha; by rewrite R3, decide_False by auto).
  eapply run_weaken; [eapply delq_loop_frees; [|exact Hp3|exact B3]; apply Nat.lt_succ_r; by eapply chain_size|].
  intros [] h4 (Q4 & P4 & B4 & R4). assert (requests h4 = ∅) as E4.
  { apply map_empty. intros a. rewrite R4, R3. destruct (decide (a ∈ p2'')); [done|]. destruct (decide (a ∈ p1'')); [done|].
    destruct (requests h2 !! a) eqn:E; [|done]. by destruct (Hall a ltac:(by eexists)). }
  split_and!; [done|by rewrite P4, P3|]. eapply owned_none; [exact B4|]. rewrite E4. intros a x Hx. by rewrite lookup_empty in Hx.
Qed.
End ops.

(** ** A session *)

Definition no_requests : heap := Heap ∅ {[1 := RequestQ 0 0 0 0; 2 := RequestQ 0 0 0 0]} ∅ ∅.
Definition no_lists : spec := Spec {[1 := ([], []); 2 := ([], [])]} ∅ ∅.

Lemma rep_no_requests : rep no_requests no_lists.
Proof.
  assert (forall q, no_requests.(queues) !! q = if decide (q = 1 \/ q = 2) then Some (RequestQ 0 0 0 0) else None) as Hq.
  { intros q. cbn. rewrite lookup_insert. repeat case_decide; try lia; try done; rewrite lookup_singleton; case_decide; done || lia. }
  assert (forall q, no_lists.(lists) !! q = if decide (q = 1 \/ q = 2) then Some ([], []) else None) as Hl.
  { intros q. cbn. rewrite lookup_insert. repeat case_decide; try lia; try done; rewrite lookup_singleton; case_decide; done || lia. }
  assert (forall f live, owned f live ∅ ∅) as Ho.
  { intros f live. exists ∅. split; [by rewrite dom_empty_L|]. intros m r. rewrite lookup_empty. split; [done|]. intros (_ & x & Hx & _). by rewrite lookup_empty in Hx. }
  constructor; cbn [no_requests no_lists requests places homes pools buffers] in *; try apply Ho.
  - intros q x. rewrite Hq, Hl. case_decide; [|done]. intros [= <-]. exists ([], []). split; [done|].
    split_and!; try done; intros a; rewrite lookup_empty; (split; [by intros ?%not_elem_of_nil|done]).
  - intros q. rewrite Hq, Hl. by case_decide.
  - intros r x Hx. by rewrite lookup_empty in Hx.
  - intros r [p Hp]. by rewrite lookup_empty in Hp.
  - intros r q. rewrite lookup_empty. by intros [?|?].
Qed.

(** The calls of a session are run on the store. *)
Fixpoint play `{Allocator} (ops : list op) (h : heap) (s : spec) : option (list (op * Z) * heap * spec) :=
  match ops with
  | [] => Some ([], h, s)
  | o :: ops =>
      if allowed s o then
        let? (v, h) := exec o h in
        let? (calls, h, s) := play ops h (after s o v) in
        Some ((o, v) :: calls, h, s)
      else None
  end.

Lemma play_session `{Allocator} ops : forall h s calls h' s', play ops h s = Some (calls, h', s') -> session h s calls h' s'.
Proof.
  induction ops as [|o ops IH]; intros h s calls h' s'; cbn [play]; [intros [= <- <- <-]; constructor|].
  destruct (allowed s o) eqn:Ha; [|done]. destruct (exec o h) as [[v h1]|] eqn:E; [|done]. cbn [mbind option_bind].
  destruct (play ops h1 (after s o v)) as [[[calls1 h2] s2]|] eqn:Ep; [|done]. cbn [mbind option_bind]. intros [= <- <- <-].
  eapply Session_call; [done|exact E|]. by apply IH.
Qed.

(** Two requests arrive; the second is answered after the first was released. *)
Definition two_requests : list op := [Receive 1; Receive 1].
Definition then_served : list op := [Head 1; Deq 1; Release 1; Deq 1; Respond 2 2 100 50; Get 1; Deq 2; Deq 2].

Lemma requests_refine_lists_witness : exists calls h' s', map snd calls = [1; 2; 1; 1; 0; 2; 0; 1; 2; 0] /\
  as_specified no_lists calls /\ rep h' s' /\ places s' !! 2 = Some Ready.
Proof.
  destruct (play (two_requests ++ then_served) no_requests no_lists) as [[[calls h'] s']|] eqn:E; [|vm_compute in E; discriminate].
  pose proof (play_session _ _ _ _ _ _ E) as Hs. exists calls, h', s'.
  destruct (requests_refine_lists _ _ _ _ _ rep_no_requests Hs) as (H1 & H2 & _). clear Hs.
  split; [|split; [exact H1|split; [exact H2|]]]; clear H1 H2; vm_compute in E; injection E as <- <- <-; reflexivity.
Defined.

Lemma request_is_served_witness : exists h s calls h' s', session h s calls h' s' /\ lists s !! 1 = Some ([1; 2], []) /\
  map fst calls = then_served /\ taken_from 1 calls !! 1%nat = Some 2.
Proof.
  destruct (play two_requests no_requests no_lists) as [[[calls1 h] s]|] eqn:E1; [|vm_compute in E1; discriminate].
  destruct (play then_served h s) as [[[calls h'] s']|] eqn:E2; [|vm_compute in E1; injection E1 as <- <- <-; vm_compute in E2; discriminate].
  destruct (session_rep _ _ _ _ _ (play_session _ _ _ _ _ _ E1) rep_no_requests) as [H1 _]. pose proof (play_session _ _ _ _ _ _ E2) as H2.
  exists h, s, calls, h', s'. split; [exact H2|].
  assert (lists s !! 1 = Some ([1; 2], [])) as Hl by (clear - E1; vm_compute in E1; injection E1 as <- <- <-; reflexivity).
  assert (map fst calls = then_served /\ length (taken_from 1 calls) = 2%nat) as [Hm Hlen]
    by (clear - E1 E2; vm_compute in E1; injection E1 as <- <- <-; vm_compute in E2; injection E2 as <- <- <-; split; reflexivity).
  split; [exact Hl|]. split; [exact Hm|]. apply (request_is_served h s calls h' s' 1 [1; 2] [] 1 2 H1 H2 Hl); [reflexivity|]. rewrite Hlen. lia.
Defined.

Lemma destroy_frees_all_witness : exists h s, rep h s /\ lists s !! 1 = Some ([1; 2], []) /\
  run (destroy_queues 1 2) h (fun _ h' => requests h' = ∅ /\ pools h' = ∅ /\ buffers h' = ∅).
Proof.
  destruct (play two_requests no_requests no_lists) as [[[calls h] s]|] eqn:E; [|vm_compute in E; discriminate].
  destruct (session_rep _ _ _ _ _ (play_session _ _ _ _ _ _ E) rep_no_requests) as [H1 _].
  assert (lists s = {[1 := ([1; 2], []); 2 := ([], [])]} /\ places s = {[1 := In_fifo 1; 2 := In_fifo 1]}) as [Hl Hp]
    by (clear - E; vm_compute in E; injection E as <- <- <-; split; reflexivity).
  exists h, s. split; [exact H1|]. split; [by rewrite Hl|]. apply (destroy_frees_all h s); [exact H1|done| |].
  - intros r. rewrite Hp, lookup_insert. case_decide; [done|]. rewrite lookup_singleton. by case_decide.
  - intros q. rewrite Hl, lookup_insert. case_decide as E1; [subst q; split; [by left|by eexists]|]. rewrite lookup_singleton.
    case_decide as E2; [subst q; split; [by right|by eexists]|]. split; [by intros [? ?]|]. intros [?|?]; congruence.
Defined.

(** A request that was taken while others waited behind it keeps its successor:
    after it has moved to the other queue, that queue gives out a request which was
    never put there, and which the first queue still has. *)
Lemma stale_successor : exists h, ((receive 1 ;; receive 1 ;; let* r := request_deq 1 in request_enq 2 r ;; request_deq 2 ;;
    let* a := request_head 1 in let* b := request_deq 2 in ret (r, a, b)) no_requests) = Some ((1, 2, 2), h).
Proof. eexists. vm_compute. reflexivity. Qed.
