(* ===== verification/ZoomOpt.v ===== *)
(** * Options of the ZOOM client (zoom-opt.c)

    Sets of named values that inherit from up to two parents; the objects are
    shared, and counted. *)

From stdpp Require Import base list numbers option strings gmap sets.
From Stdlib Require Import ZArith Lia.
From S2P Require Import Prelude Text Store.

(** The length is kept since a value may contain zeros. *)
Record ZOOM_options_entry := Entry {
  e_name : list Z;
  e_value : option (list Z);
  e_len : Z;
}.

(** Functions and handles are addresses; null is 0. *)
Record ZOOM_options_p := Options {
  refcount : Z;
  callback_func : Z;
  callback_handle : Z;
  entries : list ZOOM_options_entry;
  parent1 : Z;
  parent2 : Z;
}.

Definition set_refcount (n : Z) (o : ZOOM_options_p) : ZOOM_options_p :=
  Options n (callback_func o) (callback_handle o) (entries o) (parent1 o) (parent2 o).
Definition set_callback (f h : Z) (o : ZOOM_options_p) : ZOOM_options_p :=
  Options (refcount o) f h (entries o) (parent1 o) (parent2 o).
Definition set_entries (es : list ZOOM_options_entry) (o : ZOOM_options_p) : ZOOM_options_p :=
  Options (refcount o) (callback_func o) (callback_handle o) es (parent1 o) (parent2 o).
Definition set_parent1 (p : Z) (o : ZOOM_options_p) : ZOOM_options_p :=
  Options (refcount o) (callback_func o) (callback_handle o) (entries o) p (parent2 o).
Definition set_parent2 (p : Z) (o : ZOOM_options_p) : ZOOM_options_p :=
  Options (refcount o) (callback_func o) (callback_handle o) (entries o) (parent1 o) p.

Abbreviation opts := (gmap Z ZOOM_options_p).

Definition load (o : Z) : M opts ZOOM_options_p := let* h := get in lift (h !! o).
Definition update (o : Z) (f : ZOOM_options_p -> ZOOM_options_p) : M opts unit := let* x := load o in modify (<[o := f x]>).

(** ** Entries *)

Definition set_value (value : option (list Z)) (len : Z) (name : list Z) : option ZOOM_options_entry :=
  match value with
  | Some v => let? s := sub v 0 len in Some (Entry name (Some (s ++ [0])) len)
  | None => Some (Entry name None 0)
  end.
Definition append_entry (name : list Z) (value : option (list Z)) (len : Z) : option ZOOM_options_entry :=
  let? n := cstr name in set_value value len (n ++ [0]).

Fixpoint set_entry (es : list ZOOM_options_entry) (name : list Z) (value : option (list Z)) (len : Z) : option (list ZOOM_options_entry) :=
  match es with
  | [] => let? e := append_entry name value len in Some [e]
  | e :: es =>
      let? same := str_same (e_name e) name in
      if same : bool then let? e := set_value value len (e_name e) in Some (e :: es)
      else let? es := set_entry es name value len in Some (e :: es)
  end.

Fixpoint find_entry (es : list ZOOM_options_entry) (name : list Z) : option (option ZOOM_options_entry) :=
  match es with
  | [] => Some None
  | e :: es =>
      let? same := str_same (e_name e) name in
      if same : bool then Some (Some e) else find_entry es name
  end.

Fixpoint copy_entries (es : list ZOOM_options_entry) : option (list ZOOM_options_entry) :=
  match es with
  | [] => Some []
  | e :: es =>
      let? e' := append_entry (e_name e) (e_value e) (e_len e) in
      let? es' := copy_entries es in
      Some (e' :: es')
  end.

(** ** The operations *)

Definition ZOOM_options_addref (opt : Z) : M opts unit :=
  let* x := load opt in
  if refcount x <? INT_MAX then update opt (set_refcount (refcount x + 1)) else fault.

Section malloc.
Context `{Allocator}.

Definition ZOOM_options_create_with_parent2 (parent1 parent2 : Z) : M opts Z :=
  let* h := get in
  let opt := malloc (dom h) in
  modify (<[opt := Options 1 0 0 [] parent1 parent2]>) ;;
  (if negb (parent1 =? 0) then ZOOM_options_addref parent1 else ret tt) ;;
  (if negb (parent2 =? 0) then ZOOM_options_addref parent2 else ret tt) ;;
  ret opt.
Definition ZOOM_options_create_with_parent (parent : Z) : M opts Z := ZOOM_options_create_with_parent2 parent 0.
Definition ZOOM_options_create : M opts Z := ZOOM_options_create_with_parent 0.

(** The parents are copied as often as they are found. *)
Fixpoint options_dup (fuel : nat) (src : Z) : M opts Z :=
  match fuel with
  | O => fault
  | S fuel =>
      if src =? 0 then ret 0
      else
        let* dst := ZOOM_options_create in
        let* x := load src in
        let* es := lift (copy_entries (entries x)) in
        update dst (set_entries es) ;;
        let* p1 := options_dup fuel (parent1 x) in
        update dst (set_parent1 p1) ;;
        let* p2 := options_dup fuel (parent2 x) in
        update dst (set_parent2 p2) ;;
        ret dst
  end.
Definition ZOOM_options_dup (src : Z) : M opts Z := let* h := get in options_dup (S (size h)) src.
End malloc.

(** The function that was there before is returned. *)
Definition ZOOM_options_set_callback (opt f h : Z) : M opts Z :=
  let* x := load opt in
  update opt (set_callback f h) ;;
  ret (callback_func x).

Fixpoint options_destroy (fuel : nat) (opt : Z) : M opts unit :=
  match fuel with
  | O => fault
  | S fuel =>
      if opt =? 0 then ret tt
      else
        update opt (fun x => set_refcount (refcount x - 1) x) ;;
        let* x := load opt in
        if refcount x =? 0 then
          options_destroy fuel (parent1 x) ;;
          options_destroy fuel (parent2 x) ;;
          let* _ := load opt in
          modify (delete opt)
        else ret tt
  end.
Definition ZOOM_options_destroy (opt : Z) : M opts unit := let* h := get in options_destroy (S (size h)) opt.

Definition ZOOM_options_setl (opt : Z) (name : list Z) (value : option (list Z)) (len : Z) : M opts unit :=
  let* x := load opt in
  let* es := lift (set_entry (entries x) name value len) in
  update opt (set_entries es).

Definition ZOOM_options_set (opt : Z) (name : list Z) (value : option (list Z)) : M opts unit :=
  let* len := match value with Some v => lift (strlen v) | None => ret 0 end in
  ZOOM_options_setl opt name value len.

Section callback.
(** The functions of the client: a string or null for a handle and a name. *)
Context (call : Z -> Z -> list Z -> option (list Z)).

(** The value, or null, and what [*lenp] is then. *)
Fixpoint options_getl (fuel : nat) (opt : Z) (name : list Z) (len : Z) : M opts (option (list Z) * Z) :=
  match fuel with
  | O => fault
  | S fuel =>
      if opt =? 0 then ret (None, len)
      else
        let* x := load opt in
        let* (v, len) := match (if negb (callback_func x =? 0) then call (callback_func x) (callback_handle x) name else None) with
                         | Some v => let* n := lift (strlen v) in ret (Some v, n)
                         | None =>
                             let* e := lift (find_entry (entries x) name) in
                             ret (match e with Some e => (e_value e, e_len e) | None => (None, len) end)
                         end in
        let* (v, len) := match v with None => options_getl fuel (parent1 x) name len | _ => ret (v, len) end in
        match v with None => options_getl fuel (parent2 x) name len | _ => ret (v, len) end
  end.
Definition ZOOM_options_getl (opt : Z) (name : list Z) (len : Z) : M opts (option (list Z) * Z) :=
  let* h := get in options_getl (S (size h)) opt name len.

Definition ZOOM_options_get (opt : Z) (name : list Z) : M opts (option (list Z)) :=
  let* (v, _) := ZOOM_options_getl opt name 0 in ret v.

Definition ZOOM_options_get_bool (opt : Z) (name : list Z) (defa : Z) : M opts Z :=
  let* v := ZOOM_options_get opt name in
  match v with
  | None => ret defa
  | Some v =>
      let* one := lift (str_same v (str "1" ++ [0])) in
      let* t := lift (str_same v (str "T" ++ [0])) in
      ret (if one || t then 1 else 0)
  end.

Definition ZOOM_options_get_int (opt : Z) (name : list Z) (defa : Z) : M opts Z :=
  let* v := ZOOM_options_get opt name in
  match v with
  | None => ret defa
  | Some v =>
      let* c := lift (rd v 0) in
      if c =? 0 then ret defa else lift (atoi v)
  end.
End callback.

Definition ZOOM_options_set_int (opt : Z) (name : list Z) (value : Z) : M opts unit :=
  ZOOM_options_set opt name (Some (fmt_d value ++ [0])).
