(* ===== verification/ZoomOptSafe.v ===== *)
(** * Reference counts of ZOOM options

    A set of options lives exactly as long as somebody holds it or a set that
    inherits from it. *)

From stdpp Require Import base list numbers option strings gmap sets.
From Stdlib Require Import ZArith Lia.
From S2P Require Import Prelude Text Store ZoomOpt.

(** ** Counting pointers *)

Definition is_ptr (p o : Z) : Z := if decide (p = o) then 1 else 0.
Definition points (x : ZOOM_options_p) (o : Z) : Z := is_ptr (parent1 x) o + is_ptr (parent2 x) o.
Definition refs (h : opts) (o : Z) : Z := map_fold (fun _ x n => points x o + n) 0 h.

Lemma points_nonneg x o : 0 <= points x o <= 2.
Proof. unfold points, is_ptr. repeat case_decide; lia. Qed.

Lemma refs_empty o : refs ∅ o = 0.
Proof. apply map_fold_empty. Qed.

Lemma refs_insert h c x o : h !! c = None -> refs (<[c := x]> h) o = points x o + refs h o.
Proof. intros Hc. unfold refs. rewrite map_fold_insert_L; [done| |done]. intros. lia. Qed.

Lemma refs_delete h c x o : h !! c = Some x -> refs h o = points x o + refs (delete c h) o.
Proof. intros Hc. rewrite <- (refs_insert (delete c h) c x o) by apply lookup_delete_eq. by rewrite insert_delete_id. Qed.

Lemma refs_update h c x y o : h !! c = Some x -> refs (<[c := y]> h) o = refs h o - points x o + points y o.
Proof.
  intros Hc. rewrite (refs_delete h c x o Hc), <- insert_delete_eq, refs_insert by apply lookup_delete_eq. lia.
Qed.

Lemma refs_same h c x y o : h !! c = Some x -> parent1 y = parent1 x -> parent2 y = parent2 x -> refs (<[c := y]> h) o = refs h o.
Proof. intros Hc H1 H2. rewrite (refs_update h c x y o Hc). unfold points. rewrite H1, H2. lia. Qed.

Lemma refs_nonneg h o : 0 <= refs h o.
Proof.
  induction h as [|c x h Hc IH] using map_ind; [by rewrite refs_empty|]. rewrite refs_insert by done. pose proof (points_nonneg x o). lia.
Qed.

Lemma refs_pos h o : 0 < refs h o -> exists c x, h !! c = Some x /\ (parent1 x = o \/ parent2 x = o).
Proof.
  induction h as [|c x h Hc IH] using map_ind; [by rewrite refs_empty|]. rewrite refs_insert by done. intros Hp.
  destruct (decide (0 < refs h o)) as [H|H].
  - destruct (IH H) as (c' & x' & Hx' & Ho). exists c', x'. split; [|done]. rewrite lookup_insert_ne; [done|congruence].
  - exists c, x. split; [apply lookup_insert_eq|]. unfold points, is_ptr in Hp. repeat case_decide; [by left|by left|by right|lia].
Qed.

Lemma refs_zero h o c x : refs h o = 0 -> h !! c = Some x -> parent1 x <> o /\ parent2 x <> o.
Proof.
  intros H0 Hx. rewrite (refs_delete h c x o Hx) in H0. pose proof (refs_nonneg (delete c h) o). pose proof (points_nonneg x o).
  unfold points, is_ptr in H0. split; intros E; repeat case_decide; try lia; done.
Qed.

(** ** The invariant *)

(** How many references the client holds. *)
Definition handles : Type := Z -> Z.
(** [n] more of the object [o], unless it is null. *)
Definition hold (o n : Z) (ext : handles) : handles := fun a => if decide (o <> 0 /\ a = o) then ext a + n else ext a.

(** Every count is right, parents exist, and are ranked below their children. *)
Record counted (rank : Z -> nat) (h : opts) (ext : handles) : Prop := {
  counted_obj : forall o x, h !! o = Some x -> o <> 0 /\ refcount x = ext o + refs h o /\ 0 < refcount x;
  counted_parent : forall o x p, h !! o = Some x -> p <> 0 -> parent1 x = p \/ parent2 x = p -> is_Some (h !! p) /\ (rank p < rank o)%nat;
  counted_ext : forall o, 0 <= ext o /\ (ext o <> 0 -> is_Some (h !! o));
}.

Lemma opt_load_ok h o x : h !! o = Some x -> load o h = Some (x, h).
Proof. intros E. unfold load. rewrite bind_get. unfold lift. by rewrite E. Qed.

Lemma run_opt_load {B} o x (k : ZOOM_options_p -> M opts B) h Q : h !! o = Some x -> run (k x) h Q -> run (bind (load o) k) h Q.
Proof. intros E H. unfold run. by rewrite (bind_Some _ _ _ _ _ (opt_load_ok h o x E)). Qed.

Lemma opt_update_ok h o x f : h !! o = Some x -> update o f h = Some (tt, <[o := f x]> h).
Proof. intros E. unfold update. by rewrite (bind_Some _ _ _ _ _ (opt_load_ok h o x E)). Qed.

Lemma run_opt_update {B} o x f (k : M opts B) h Q : h !! o = Some x -> run k (<[o := f x]> h) Q -> run (update o f ;; k) h Q.
Proof. intros E (b & h' & Hk & HQ). exists b, h'. by rewrite (bind_Some _ _ _ _ _ (opt_update_ok h o x f E)). Qed.

Lemma held_live rank h ext o : counted rank h ext -> 0 < ext o -> exists x, h !! o = Some x.
Proof. intros H Ho. destruct (counted_ext rank h ext H o) as [_ Hl]. apply Hl. lia. Qed.

(** An object whose count and holders change alike. *)
Lemma counted_hold rank h ext o x y n : counted rank h ext -> h !! o = Some x -> parent1 y = parent1 x -> parent2 y = parent2 x ->
  refcount y = refcount x + n -> 0 <= ext o + n -> 0 < refcount y -> counted rank (<[o := y]> h) (hold o n ext).
Proof.
  intros H Hx H1 H2 Hn He Hp. assert (forall a, refs (<[o := y]> h) a = refs h a) as Hr by (intros; by eapply refs_same).
  constructor.
  - intros a z. rewrite lookup_insert, Hr. unfold hold. case_decide as E.
    + subst a. intros [= <-]. destruct (counted_obj rank h ext H o x Hx) as (H0 & Hc & _). rewrite decide_True by done. split_and!; [done|lia|done].
    + intros Hz. rewrite decide_False by (intros [_ ?]; congruence). by apply (counted_obj rank h ext H).
  - intros a z p. rewrite !lookup_insert. case_decide as E.
    + subst a. intros [= <-] Hp0. rewrite H1, H2. intros Hpp. destruct (counted_parent rank h ext H o x p Hx Hp0 Hpp) as [Hl Hr'].
      split; [|done]. by case_decide.
    + intros Hz Hp0 Hpp. destruct (counted_parent rank h ext H a z p Hz Hp0 Hpp) as [Hl Hr']. split; [|done]. by case_decide.
  - intros a. destruct (counted_ext rank h ext H a) as [Ha1 Ha2]. unfold hold. rewrite lookup_insert.
    repeat case_decide; subst; try done; naive_solver.
Qed.


Lemma counted_same rank h ext ext' : (forall a, ext a = ext' a) -> counted rank h ext -> counted rank h ext'.
Proof.
  intros He [H1 H2 H3]. constructor; [|done|]; intros o; [intros x Hx; rewrite <- He; by apply H1|rewrite <- He; by apply H3].
Qed.

(** ** Depth *)

Definition below (rank : Z -> nat) (h : opts) (o : Z) : nat := size (filter (fun c => rank c < rank o)%nat (dom h)).

Lemma below_size rank h o x : h !! o = Some x -> (below rank h o < size h)%nat.
Proof.
  intros Hx. unfold below. rewrite <- (size_dom h). apply subset_size. split; [set_solver|]. intros Hs.
  assert (o ∈ dom h) as Ho by by apply elem_of_dom. apply Hs in Ho. apply elem_of_filter in Ho. lia.
Qed.

Lemma below_lt rank h h' o p x : dom h' ⊆ dom h -> h !! p = Some x -> (rank p < rank o)%nat -> (below rank h' p < below rank h o)%nat.
Proof.
  intros Hd Hp Hr. unfold below. apply subset_size. split.
  - intros c. rewrite !elem_of_filter. intros [Hc Hin]. split; [lia|set_solver].
  - intros Hs. assert (p ∈ filter (fun c => rank c < rank o)%nat (dom h)) as Hin by (apply elem_of_filter; split; [done|by apply elem_of_dom]).
    apply Hs, elem_of_filter in Hin. lia.
Qed.

(** ** The end of an object *)

Lemma counted_remove rank h ext o x : counted rank h ext -> h !! o = Some x -> refcount x = 1 -> 0 < ext o ->
  counted rank (delete o h) (hold (parent2 x) 1 (hold (parent1 x) 1 (hold o (-1) ext))).
Proof.
  intros H Hx H1 He. destruct (counted_obj rank h ext H o x Hx) as (Ho0 & Hc & _). pose proof (refs_nonneg h o).
  assert (refs h o = 0 /\ ext o = 1) as [Hr Ho] by lia.
  assert (forall c y, h !! c = Some y -> parent1 y <> o /\ parent2 y <> o) as Hno by (intros c y; by apply refs_zero).
  assert (forall a, a <> 0 -> hold (parent2 x) 1 (hold (parent1 x) 1 (hold o (-1) ext)) a = ext a + points x a - (if decide (a = o) then 1 else 0)) as Hext.
  { intros a Ha. unfold hold, points, is_ptr. repeat case_decide; try lia; naive_solver. }
  constructor.
  - intros a y. rewrite lookup_delete_Some. intros [Hne Hy]. destruct (counted_obj rank h ext H a y Hy) as (Ha0 & Hca & Hpos).
    rewrite Hext, decide_False by done. split_and!; [done| |done]. rewrite (refs_delete h o x a Hx) in Hca. lia.
  - intros a y p. rewrite lookup_delete_Some. intros [Hne Hy] Hp Hpp. destruct (counted_parent rank h ext H a y p Hy Hp Hpp) as [Hl Hr'].
    split; [|done]. rewrite lookup_delete_ne; [done|]. intros <-. destruct (Hno a y Hy), Hpp; done.
  - intros a. destruct (decide (a = 0)) as [->|Ha].
    { destruct (counted_ext rank h ext H 0) as [E1 E2].
      assert (ext 0 = 0) as E0. { destruct (decide (ext 0 = 0)); [done|]. destruct (E2 n) as [y Hy]. by apply (counted_obj rank h ext H) in Hy as []. }
      unfold hold. rewrite !decide_False by (intros [? ?]; congruence). rewrite E0. done. }
    rewrite Hext by done. destruct (counted_ext rank h ext H a) as [E1 E2]. pose proof (points_nonneg x a). case_decide as E.
    + subst a. destruct (Hno o x Hx) as [N1 N2]. unfold points, is_ptr in *. rewrite !decide_False by done. split; [lia|]. intros ?; lia.
    + split; [lia|]. intros Hn. rewrite lookup_delete_ne by done. destruct (decide (ext a = 0)); [|by apply E2].
      assert (parent1 x = a \/ parent2 x = a) as Hpp by (unfold points, is_ptr in *; repeat case_decide; try lia; auto).
      by destruct (counted_parent rank h ext H o x a Hx Ha Hpp).
Qed.

(** Some objects are gone, and the others have their entries. *)
Definition shrinks (h h' : opts) : Prop := forall a x, h' !! a = Some x -> exists y, h !! a = Some y /\ entries x = entries y.

Lemma shrinks_dom h h' : shrinks h h' -> dom h' ⊆ dom h.
Proof. intros H a [x Hx]%elem_of_dom. destruct (H a x Hx) as (y & Hy & _). by apply elem_of_dom. Qed.

Lemma shrinks_trans h1 h2 h3 : shrinks h1 h2 -> shrinks h2 h3 -> shrinks h1 h3.
Proof. intros H1 H2 a x Hx. destruct (H2 a x Hx) as (y & Hy & ->). by apply H1. Qed.

Lemma shrinks_delete h o : shrinks h (delete o h).
Proof. intros a x [_ Hx]%lookup_delete_Some. by exists x. Qed.

(** The objects [hd], which are being destroyed, are left alone. *)
Lemma destroy_counted rank : forall fuel hl hd ext o, counted rank hl ext -> hl ##ₘ hd -> (o <> 0 -> 0 < ext o /\ (S (below rank hl o) < fuel)%nat) -> (0 < fuel)%nat ->
  run (options_destroy fuel o) (hl ∪ hd) (fun _ h' => exists hl', h' = hl' ∪ hd /\ hl' ##ₘ hd /\ shrinks hl hl' /\ counted rank hl' (hold o (-1) ext)).
Proof.
  induction fuel as [|fuel IH]; intros hl hd ext o Hc Hd Ho Hf; [lia|]. cbn [options_destroy].
  destruct (Z.eqb_spec o 0) as [->|Ho0].
  { apply run_ret. exists hl. split_and!; try done. intros a x Hx. by exists x. }
  destruct (Ho Ho0) as [He Hb]. destruct (held_live rank hl ext o Hc He) as (x & Hx). destruct (counted_obj rank hl ext Hc o x Hx) as (_ & Hcx & Hpos).
  assert ((hl ∪ hd) !! o = Some x) as Hu by by apply lookup_union_Some_l.
  eapply run_opt_update; [exact Hu|]. eapply run_opt_load; [apply lookup_insert_eq|]. cbn [refcount set_refcount parent1 parent2].
  destruct (Z.eqb_spec (refcount x - 1) 0) as [E|E].
  2: { apply run_ret. exists (<[o := set_refcount (refcount x - 1) x]> hl). split_and!.
    - by rewrite insert_union_l.
    - by apply map_disjoint_insert_l_2; [eapply map_disjoint_Some_l|].
    - intros a y. rewrite lookup_insert. case_decide as Ea; [subst a; intros [= <-]; by exists x|]. intros Hy. by exists y.
    - eapply counted_hold; [done|exact Hx|done|done|cbn; lia|lia|cbn; lia]. }
  pose proof (counted_remove rank hl ext o x Hc Hx ltac:(lia) He) as Hc1. set (x0 := set_refcount (refcount x - 1) x).
  assert (<[o := x0]> (hl ∪ hd) = delete o hl ∪ <[o := x0]> hd) as ->.
  { rewrite <- insert_union_r by apply lookup_delete_eq. by rewrite !insert_union_l, insert_delete_eq. }
  assert (delete o hl ##ₘ <[o := x0]> hd) as Hd1 by (apply map_disjoint_insert_r_2; [apply lookup_delete_eq|by apply map_disjoint_delete_l]).
  assert (forall p hl', dom hl' ⊆ dom (delete o hl) -> p = parent1 x \/ p = parent2 x -> p <> 0 -> (S (below rank hl' p) < fuel)%nat) as Hbelow.
  { intros p hl' Hdom Hp Hp0. destruct (counted_parent rank hl ext Hc o x p Hx Hp0) as [[y Hy] Hr]; [destruct Hp; auto|].
    enough (below rank hl' p < below rank hl o)%nat by lia. eapply below_lt; [|exact Hy|done]. set_solver. }
  assert (forall p, p = parent1 x \/ p = parent2 x -> p <> 0 -> p <> o /\ 0 <= ext p) as Hpo.
  { intros p Hp Hp0. destruct (counted_parent rank hl ext Hc o x p Hx Hp0) as [_ Hr]; [destruct Hp; auto|]. split; [intros ->; lia|].
    apply (counted_ext rank hl ext Hc). }
  eapply run_bind; [eapply (IH (delete o hl) _ _ (parent1 x) Hc1 Hd1); [|lia]|].
  { intros Hp0. split; [|by apply Hbelow; [done|left|]]. destruct (Hpo (parent1 x)) as [N1 N2]; [by left|done|]. unfold hold. repeat case_decide; try lia; tauto. }
  intros [] h2 (hl2 & -> & Hd2 & Hdom2 & Hc2).
  eapply run_bind; [eapply (IH hl2 _ _ (parent2 x) Hc2 Hd2); [|lia]|].
  { intros Hp0. split; [|by apply Hbelow; [apply shrinks_dom|right|]]. destruct (Hpo (parent2 x)) as [N1 N2]; [by right|done|]. unfold hold. repeat case_decide; try lia; tauto. }
  intros [] h3 (hl3 & -> & Hd3 & Hdom3 & Hc3).
  assert (hl3 !! o = None) as Hgone by (apply not_elem_of_dom; intros Hin; apply (shrinks_dom _ _ Hdom3), (shrinks_dom _ _ Hdom2) in Hin; set_solver).
  eapply run_opt_load; [apply lookup_union_Some_raw; right; split; [exact Hgone|apply lookup_insert_eq]|].
  eexists _, _. split; [done|]. exists hl3. split_and!.
  - rewrite delete_union, (delete_id hl3) by done. f_equal. apply delete_insert_id. eapply map_disjoint_Some_l; done.
  - eapply map_disjoint_weaken_r; [exact Hd3|]. apply insert_subseteq. eapply map_disjoint_Some_l; done.
  - eapply shrinks_trans; [apply shrinks_delete|]. by eapply shrinks_trans.
  - eapply counted_same; [|exact Hc3]. intros a. unfold hold. repeat case_decide; try lia; tauto.
Qed.

(** ** New objects and parents *)

Lemma counted_addref rank h ext o x : counted rank h ext -> h !! o = Some x -> refcount x < INT_MAX ->
  ZOOM_options_addref o h = Some (tt, <[o := set_refcount (refcount x + 1) x]> h) /\ counted rank (<[o := set_refcount (refcount x + 1) x]> h) (hold o 1 ext).
Proof.
  intros H Hx Hm. split.
  - unfold ZOOM_options_addref. rewrite (bind_Some _ _ _ _ _ (opt_load_ok h o x Hx)), (proj2 (Z.ltb_lt (refcount x) INT_MAX)) by done. by apply opt_update_ok.
  - destruct (counted_obj rank h ext H o x Hx) as (_ & _ & Hp). destruct (counted_ext rank h ext H o) as [He _].
    eapply counted_hold; [done|exact Hx|done|done|done|lia|cbn; lia].
Qed.

(** Above all objects. *)
Definition raise (r : Z) (h : opts) (rank : Z -> nat) : Z -> nat :=
  fun a => if decide (a = r) then S (list_max (map rank (elements (dom h)))) else rank a.

Lemma raise_above r h rank p x : h !! p = Some x -> p <> r -> (raise r h rank p < raise r h rank r)%nat.
Proof.
  intros Hp Hne. unfold raise. rewrite decide_False, decide_True by done. apply Nat.lt_succ_r.
  assert (rank p ∈ map rank (elements (dom h))) as Hin by (apply list_elem_of_fmap; exists p; split; [done|]; by apply elem_of_elements, elem_of_dom).
  pose proof (proj1 (list_max_le (map rank (elements (dom h))) _) (le_n _)) as Hall. apply list_elem_of_In in Hin. rewrite List.Forall_forall in Hall. by apply Hall.
Qed.

Lemma hold_null rank h ext : counted rank h ext -> ext 0 = 0.
Proof.
  intros H. destruct (counted_ext rank h ext H 0) as [_ Hl]. destruct (decide (ext 0 = 0)) as [|Hn]; [done|].
  destruct (Hl Hn) as [x Hx]. by apply (counted_obj rank h ext H) in Hx as [].
Qed.

Lemma counted_new rank h ext r x : counted rank h ext -> h !! r = None -> r <> 0 -> refcount x = 1 -> parent1 x = 0 -> parent2 x = 0 ->
  counted rank (<[r := x]> h) (hold r 1 ext) /\ refs (<[r := x]> h) r = 0.
Proof.
  intros H Hr Hr0 H1 Hp1 Hp2.
  assert (forall a, a <> 0 -> refs (<[r := x]> h) a = refs h a) as Hrefs.
  { intros a Ha. rewrite refs_insert by done. unfold points, is_ptr. rewrite !decide_False by congruence. lia. }
  assert (ext r = 0) as He by (destruct (counted_ext rank h ext H r) as [_ Hl]; destruct (decide (ext r = 0)); [done|]; destruct (Hl n) as [y Hy]; congruence).
  assert (refs h r = 0) as Hrr.
  { pose proof (refs_nonneg h r). destruct (decide (refs h r = 0)); [done|]. destruct (refs_pos h r) as (c & y & Hy & Hpp); [lia|].
    destruct (counted_parent rank h ext H c y r Hy Hr0 Hpp) as [[z Hz] _]. congruence. }
  split; [|by rewrite Hrefs]. constructor.
  - intros a y. rewrite lookup_insert. unfold hold. case_decide as E.
    + subst a. intros [= <-]. rewrite decide_True, Hrefs by done. split_and!; [done|lia|lia].
    + intros Hy. rewrite decide_False by (intros [_ ?]; congruence). destruct (counted_obj rank h ext H a y Hy) as (Ha & Hc & Hp). by rewrite Hrefs.
  - intros a y p. rewrite !lookup_insert. case_decide as E.
    + subst a. intros [= <-] Hp0 Hpp. destruct Hpp; congruence.
    + intros Hy Hp0 Hpp. destruct (counted_parent rank h ext H a y p Hy Hp0 Hpp) as [Hl Hr']. split; [|done]. by case_decide.
  - intros a. destruct (counted_ext rank h ext H a) as [Ha1 Ha2]. unfold hold. rewrite lookup_insert. case_decide as E.
    + destruct E as [_ ->]. rewrite decide_True by done. split; [lia|by eexists].
    + split; [done|]. intros Hn. case_decide; [by eexists|by apply Ha2].
Qed.

(** A pointer that was null gets the value [p]. *)
Definition linked (x y : ZOOM_options_p) (p : Z) : Prop :=
  parent1 x = 0 /\ parent1 y = p /\ parent2 y = parent2 x \/ parent2 x = 0 /\ parent2 y = p /\ parent1 y = parent1 x.

Lemma link_refs h c x y p a : h !! c = Some x -> linked x y p -> a <> 0 -> refs (<[c := y]> h) a = refs h a + (if decide (a = p) then 1 else 0).
Proof.
  intros Hx Hpar Ha. rewrite (refs_update h c x y a Hx). unfold points, is_ptr.
  destruct Hpar as [(E1 & E2 & E3)|(E1 & E2 & E3)]; rewrite E1, E2, E3; repeat case_decide; subst; try lia; congruence.
Qed.

(** An object without children gets a parent that the client holds. *)
Lemma counted_link rank h ext c x y p : counted rank h ext -> h !! c = Some x -> refs h c = 0 -> p <> c -> (p <> 0 -> 0 < ext p) ->
  refcount y = refcount x -> linked x y p ->
  counted (raise c h rank) (<[c := y]> h) (hold p (-1) ext) /\ refs (<[c := y]> h) c = 0.
Proof.
  intros H Hx Hc Hpc Hp Hcount Hpar. pose proof (hold_null rank h ext H) as H0.
  assert (forall a, a <> 0 -> refs (<[c := y]> h) a = refs h a + (if decide (a = p) then 1 else 0)) as Hrefs by (intros; by eapply link_refs).
  destruct (counted_obj rank h ext H c x Hx) as (Hc0 & Hcx & Hcp).
  assert (forall a z, <[c := y]> h !! a = Some z -> a = c /\ z = y \/ a <> c /\ h !! a = Some z) as Hlook.
  { intros a z. rewrite lookup_insert. case_decide as E; [intros [= <-]; by left|]. intros Hz. right. split; [congruence|done]. }
  assert (forall a, is_Some (h !! a) -> is_Some (<[c := y]> h !! a)) as Hlive by (intros a Ha; rewrite lookup_insert; by case_decide).
  split; [|rewrite Hrefs, decide_False by congruence; lia]. constructor.
  - intros a z [[-> ->]|[Hne Hz]]%Hlook.
    + rewrite Hrefs, (decide_False (P := c = p)) by congruence. unfold hold. rewrite decide_False by (intros [_ ?]; congruence). split_and!; [done|lia|lia].
    + destruct (counted_obj rank h ext H a z Hz) as (Ha0 & Hca & Hpa). rewrite Hrefs by done. unfold hold. split_and!; [done| |done].
      repeat case_decide; subst; try lia; tauto.
  - assert (forall q, q <> 0 -> q = p \/ (parent1 x = q \/ parent2 x = q) -> is_Some (h !! q) /\ q <> c) as Hpq.
    { intros q Hq [->|Hq']; [split; [|done]; destruct (counted_ext rank h ext H p) as [_ Hl]; specialize (Hp Hq); apply Hl; lia|].
      destruct (counted_parent rank h ext H c x q Hx Hq Hq') as [Hl Hr]. split; [done|]. intros ->. lia. }
    intros a z q Hz Hq0 Hqq. apply Hlook in Hz as [[-> ->]|[Hne Hz]].
    + destruct (Hpq q Hq0) as [[w Hw] Hqc]; [destruct Hpar as [(E1 & E2 & E3)|(E1 & E2 & E3)]; rewrite E2, E3 in Hqq; intuition congruence|].
      split; [apply Hlive; by eexists|]. by eapply raise_above.
    + destruct (counted_parent rank h ext H a z q Hz Hq0 Hqq) as [Hl Hr]. split; [by apply Hlive|].
      destruct (refs_zero h c a z Hc Hz) as [N1 N2]. unfold raise. rewrite !decide_False; [done|congruence|]. intros ->. by destruct Hqq.
  - intros a. destruct (counted_ext rank h ext H a) as [Ha1 Ha2]. unfold hold. case_decide as E.
    + destruct E as [Hp0 ->]. specialize (Hp Hp0). split; [lia|]. intros _. apply Hlive, Ha2. lia.
    + split; [done|]. intros Hn. by apply Hlive, Ha2.
Qed.

(** ** Entries *)

Definition entry_ok (e : ZOOM_options_entry) : Prop :=
  cstr_at (e_name e) /\ match e_value e with Some v => exists s, v = s ++ [0] /\ e_len e = zlen s | None => True end.
Definition entries_ok (h : opts) : Prop := forall o x, h !! o = Some x -> Forall entry_ok (entries x).

Lemma entries_ok_insert h o x : entries_ok h -> Forall entry_ok (entries x) -> entries_ok (<[o := x]> h).
Proof. intros H Hx a y. rewrite lookup_insert. case_decide; [by intros [= <-]|]. apply H. Qed.

Lemma set_value_ok n v len : cstr_at n -> (match v with Some v => 0 <= len <= zlen v | None => True end) -> exists e, set_value v len n = Some e /\ entry_ok e.
Proof.
  intros Hn Hv. destruct v as [v|]; cbn [set_value]; [|eexists; split; [done|]; by split].
  rewrite sub_spec by lia. cbn [mbind option_bind]. eexists. split; [done|]. split; [done|]. cbn [e_value e_len]. eexists. split; [done|].
  rewrite drop_0. unfold zlen in *. rewrite length_take. lia.
Qed.

Lemma append_entry_ok n v len : cstr_at n -> (match v with Some v => 0 <= len <= zlen v | None => True end) -> exists e, append_entry n v len = Some e /\ entry_ok e.
Proof.
  intros (t & rest & -> & Ht) Hv. unfold append_entry, cstr. rewrite strlen_spec by done. cbn [mbind option_bind].
  rewrite (sub_mid [] t (0 :: rest) : sub (t ++ 0 :: rest) 0 (zlen t) = Some t).
  cbn [mbind option_bind]. apply set_value_ok; [by exists t, []|done].
Qed.

Lemma set_entry_ok es n v len : Forall entry_ok es -> cstr_at n -> (match v with Some v => 0 <= len <= zlen v | None => True end) ->
  exists es', set_entry es n v len = Some es' /\ Forall entry_ok es'.
Proof.
  intros He Hn Hv. induction He as [|e es He Hes IH]; cbn [set_entry].
  - destruct (append_entry_ok n v len Hn Hv) as (e & -> & Hok). eexists. split; [done|]. by constructor.
  - destruct He as [Hen Hev]. destruct (str_same_total _ _ Hen Hn) as (b & ->). cbn [mbind option_bind]. destruct b.
    + destruct (set_value_ok _ v len Hen Hv) as (e' & -> & Hok). eexists. split; [done|]. by constructor.
    + destruct IH as (es' & -> & Hok). eexists. split; [done|]. by constructor.
Qed.

Lemma copy_entries_ok es : Forall entry_ok es -> exists es', copy_entries es = Some es' /\ Forall entry_ok es'.
Proof.
  induction 1 as [|e es [Hn Hv] _ IH]; cbn [copy_entries]; [by eexists|].
  destruct (append_entry_ok (e_name e) (e_value e) (e_len e) Hn) as (e' & -> & Hok).
  { destruct (e_value e); [|done]. destruct Hv as (s & -> & ->). pose proof (zlen_nonneg s). zl. }
  cbn [mbind option_bind]. destruct IH as (es' & -> & Hok'). eexists. split; [done|]. by constructor.
Qed.

Lemma find_entry_total es n : Forall entry_ok es -> cstr_at n -> exists r, find_entry es n = Some r.
Proof.
  intros He Hn. induction He as [|e es [Hen _] _ IH]; cbn [find_entry]; [by eexists|].
  destruct (str_same_total _ _ Hen Hn) as (b & ->). cbn [mbind option_bind]. destruct b; [by eexists|done].
Qed.

(** ** The operations *)

(** The state of the options of a client that holds [ext]. *)
Definition alive (h : opts) (ext : handles) : Prop := (exists rank, counted rank h ext) /\ entries_ok h.

(** A handle that the client may pass: null, or one that it holds, with room for
    two more references. *)
Definition may_pass (h : opts) (ext : handles) (o : Z) : Prop := o <> 0 -> 0 < ext o.
Definition has_room (h : opts) (o : Z) : Prop := forall x, h !! o = Some x -> refcount x < INT_MAX - 1.

Lemma addref_alive h ext o : alive h ext -> 0 < ext o -> has_room h o -> run (ZOOM_options_addref o) h (fun _ h' => alive h' (hold o 1 ext)).
Proof.
  intros [[rank H] He] Ho Hroom. destruct (held_live rank h ext o H Ho) as (x & Hx). specialize (Hroom x Hx).
  destruct (counted_addref rank h ext o x H Hx ltac:(lia)) as [E Hc]. eexists _, _. split; [exact E|]. split; [by exists rank|].
  apply entries_ok_insert; [done|]. by apply (He o x).
Qed.

(** One more reference, unless the pointer is null. *)
Definition bump (p : Z) (h : opts) : opts :=
  match h !! p with Some x => <[p := set_refcount (refcount x + 1) x]> h | None => h end.

Lemma bump_lookup p h a : bump p h !! a = (fun x => if decide (a = p) then set_refcount (refcount x + 1) x else x) <$> h !! a.
Proof.
  unfold bump. destruct (h !! p) as [x|] eqn:E.
  - rewrite lookup_insert. case_decide as Ea; [subst a; rewrite E; cbn; by rewrite decide_True|].
    destruct (h !! a); [|done]. cbn. by rewrite decide_False by congruence.
  - destruct (h !! a) eqn:Ea; [|done]. cbn. rewrite decide_False; [done|congruence].
Qed.

Lemma bump_insert p h r x : p <> r -> bump p (<[r := x]> h) = <[r := x]> (bump p h).
Proof.
  intros Hne. unfold bump. rewrite lookup_insert_ne by done. destruct (h !! p) as [y|]; [|done]. by rewrite insert_insert_ne.
Qed.

Lemma bump_runs p h : (p <> 0 -> is_Some (h !! p)) -> h !! 0 = None -> (forall x, h !! p = Some x -> refcount x < INT_MAX) ->
  (if negb (p =? 0) then ZOOM_options_addref p else ret tt) h = Some (tt, bump p h).
Proof.
  intros Hp H0 Hm. unfold bump. destruct (Z.eqb_spec p 0) as [->|Hp0]; cbn [negb]; [by rewrite H0|]. destruct (Hp Hp0) as [x Hx]. rewrite Hx.
  unfold ZOOM_options_addref. rewrite (bind_Some _ _ _ _ _ (opt_load_ok h p x Hx)), (proj2 (Z.ltb_lt (refcount x) INT_MAX)) by auto. by apply opt_update_ok.
Qed.

Lemma bump_counted rank h ext p : counted rank h ext -> may_pass h ext p -> (forall x, h !! p = Some x -> refcount x < INT_MAX) ->
  counted rank (bump p h) (hold p 1 ext).
Proof.
  intros H Hp Hm. unfold bump. destruct (h !! p) as [x|] eqn:E; [by eapply counted_addref; eauto|].
  assert (p = 0) as ->; [|done]. destruct (decide (p = 0)) as [|Hp0]; [done|]. destruct (held_live rank h ext p H (Hp Hp0)). congruence.
Qed.

Lemma null_free rank h ext : counted rank h ext -> h !! 0 = None.
Proof. intros H. destruct (h !! 0) eqn:E; [|done]. by apply (counted_obj rank h ext H) in E as []. Qed.

Section malloc.
Context `{Allocator}.

(** What a function that makes an object leaves: the object is new, and those
    that were there change at most in their counts. *)
Definition made (h : opts) (ext : handles) (r : Z) (h' : opts) : Prop :=
  r <> 0 /\ h !! r = None /\ (exists rank, counted rank h' (hold r 1 ext)) /\ refs h' r = 0.

Lemma create_counted rank h ext p1 p2 : counted rank h ext -> may_pass h ext p1 -> may_pass h ext p2 -> has_room h p1 -> has_room h p2 ->
  run (ZOOM_options_create_with_parent2 p1 p2) h (fun r h' => made h ext r h' /\ h' = <[r := Options 1 0 0 [] p1 p2]> (bump p2 (bump p1 h))).
Proof.
  intros Hc Hp1 Hp2 Hr1 Hr2. unfold ZOOM_options_create_with_parent2. apply run_get. set (r := malloc _). apply run_modify.
  assert (h !! r = None) as Hr by (apply not_elem_of_dom, malloc_fresh). assert (r <> 0) as Hr0 by apply malloc_null.
  pose proof (null_free rank h ext Hc) as H0.
  assert (forall p, may_pass h ext p -> (p <> 0 -> is_Some (h !! p)) /\ p <> r) as Hlive.
  { intros p Hp. split; [intros Hp0; by eapply held_live; auto|]. intros ->. destruct (held_live rank h ext r Hc (Hp Hr0)). congruence. }
  destruct (Hlive p1 Hp1) as [L1 N1], (Hlive p2 Hp2) as [L2 N2].
  assert (forall x, bump p1 h !! p2 = Some x -> refcount x < INT_MAX) as Hm2.
  { intros x. rewrite bump_lookup. destruct (h !! p2) as [y|] eqn:E; [|done]. intros [= <-]. specialize (Hr2 y E). case_decide; cbn; lia. }
  set (n := Options 1 0 0 [] p1 p2).
  assert (<[r := n]> h !! 0 = None) as Hn0 by by rewrite lookup_insert_ne.
  unfold run. rewrite (bind_Some _ _ _ _ _ (bump_runs p1 (<[r := n]> h) ltac:(intros Hp; rewrite lookup_insert_ne by done; auto) Hn0
    ltac:(intros x; rewrite lookup_insert_ne by done; intros Hx; specialize (Hr1 x Hx); lia))).
  rewrite bump_insert by done.
  rewrite (bind_Some _ _ _ _ _ (bump_runs p2 (<[r := n]> (bump p1 h)) ltac:(intros Hp; rewrite lookup_insert_ne, bump_lookup by done; destruct (L2 Hp) as [y ->]; by eexists)
    ltac:(rewrite lookup_insert_ne, bump_lookup, H0 by done; done) ltac:(intros x; rewrite lookup_insert_ne by done; apply Hm2))).
  rewrite bump_insert by done. apply run_ret. split; [|done].
  pose proof (bump_counted rank h ext p1 Hc Hp1 ltac:(intros x Hx; specialize (Hr1 x Hx); lia)) as C1.
  pose proof (bump_counted rank _ _ p2 C1) as C2. set (h2 := bump p2 (bump p1 h)) in *.
  assert (0 <= ext p2) as He2 by apply (counted_ext rank h ext Hc).
  specialize (C2 ltac:(intros Hp; specialize (Hp2 Hp); unfold hold; case_decide; lia) Hm2).
  assert (h2 !! r = None) as Hr2' by (unfold h2; by rewrite !bump_lookup, Hr).
  destruct (counted_new rank h2 _ r (Options 1 0 0 [] 0 0) C2 Hr2' Hr0) as [C3 R3]; [done..|].
  pose proof (counted_ext rank h ext Hc p1) as [He1 _].
  destruct (counted_link rank _ _ r _ (Options 1 0 0 [] p1 0) p1 C3 (lookup_insert_eq _ _ _) R3 N1) as [C4 R4]; [|done|left; done|].
  { intros Hp. unfold hold. repeat case_decide; subst; try lia; tauto. }
  rewrite insert_insert_eq in C4, R4.
  destruct (counted_link _ _ _ r _ n p2 C4 (lookup_insert_eq _ _ _) R4 N2) as [C5 R5]; [|done|right; done|].
  { intros Hp. unfold hold. repeat case_decide; subst; try lia; tauto. }
  rewrite insert_insert_eq in C5, R5. split_and!; [done|done| |exact R5]. eexists. eapply counted_same; [|exact C5].
  intros a. unfold hold. repeat case_decide; subst; try lia; tauto.
Qed.
(** *** Copies *)

Section dup.
(** The objects that are copied. *)
Context (rank0 : Z -> nat) (h0 : opts).
Context (Hparent : forall o x p, h0 !! o = Some x -> p <> 0 -> parent1 x = p \/ parent2 x = p -> is_Some (h0 !! p) /\ (rank0 p < rank0 o)%nat).

(** The copy is new; what was there stays as it was, and has no more pointers to it. *)
Definition copied (h : opts) (ext : handles) (src r : Z) (h' : opts) : Prop :=
  (exists rank, counted rank h' (hold r 1 ext)) /\ entries_ok h' /\ h ⊆ h' /\ (forall a, is_Some (h !! a) -> refs h' a = refs h a) /\
  (r <> 0 -> refs h' r = 0 /\ h !! r = None) /\ (src <> 0 -> r <> 0).

(** A parent is copied and linked to the new object [dst]. *)
Lemma copy_parent fuel h ext dst x src set : (forall h ext src, (exists rank, counted rank h ext) -> entries_ok h -> h0 ⊆ h ->
    (src <> 0 -> is_Some (h0 !! src) /\ (S (below rank0 h0 src) < fuel)%nat) -> run (options_dup fuel src) h (copied h ext src)) ->
  (exists rank, counted rank h ext) -> entries_ok h -> h0 ⊆ h -> h0 !! dst = None -> h !! dst = Some x -> refs h dst = 0 ->
  (src <> 0 -> is_Some (h0 !! src) /\ (S (below rank0 h0 src) < fuel)%nat) ->
  (forall p, refcount (set p x) = refcount x /\ entries (set p x) = entries x /\ linked x (set p x) p) ->
  run (let* p := options_dup fuel src in update dst (set p)) h (fun _ h' => (exists rank, counted rank h' ext) /\ entries_ok h' /\ h0 ⊆ h' /\
    (exists p, h' !! dst = Some (set p x)) /\ refs h' dst = 0 /\ (forall a, is_Some (h !! a) -> a <> dst -> h' !! a = h !! a /\ refs h' a = refs h a)).
Proof.
  intros IH Hc He Hsub Hd0 Hdst Hrefs Hsrc Hset. eapply run_bind; [by apply IH|].
  intros p h1 ((rank1 & Hc1) & He1 & Hsub1 & Hr1 & Hp & _).
  assert (h1 !! dst = Some x) as Hx1 by by eapply lookup_weaken. assert (p <> dst) as Hpd by (intros ->; destruct (decide (dst = 0)) as [->|Hn]; [|destruct (Hp Hn); congruence];
    destruct Hc as [rank Hc]; by rewrite (null_free rank h ext Hc) in Hdst).
  destruct (Hset p) as (S1 & S2 & S3). assert (refs h1 dst = 0) as Hrd by (rewrite Hr1; [done|by eexists]).
  destruct (counted_link rank1 h1 _ dst x (set p x) p Hc1 Hx1 Hrd Hpd) as [C R]; [|done|done|].
  { intros Hp0. unfold hold. rewrite decide_True by done. destruct Hc as [rank Hc]. destruct (counted_ext rank h ext Hc p). lia. }
  eapply run_is; [by apply opt_update_ok|]. split_and!.
  - eexists. eapply counted_same; [|exact C]. intros a. unfold hold. repeat case_decide; try lia.
  - apply entries_ok_insert; [done|]. rewrite S2. by apply (He1 dst x).
  - apply map_subseteq_spec. intros a y Hy. rewrite lookup_insert_ne by congruence. by do 2 (eapply lookup_weaken; [|done]).
  - exists p. apply lookup_insert_eq.
  - done.
  - intros a [y Ha] Hne. assert (a <> 0) as Ha0 by (intros ->; destruct Hc as [rank Hc]; by rewrite (null_free rank h ext Hc) in Ha).
    split; [rewrite lookup_insert_ne, Ha by congruence; by eapply lookup_weaken|].
    rewrite (link_refs h1 dst x _ p) by done. rewrite Hr1 by by eexists. rewrite decide_False; [lia|]. intros <-. destruct (Hp Ha0). congruence.
Qed.

Lemma dup_copied : forall fuel h ext src, (exists rank, counted rank h ext) -> entries_ok h -> h0 ⊆ h ->
  (src <> 0 -> is_Some (h0 !! src) /\ (S (below rank0 h0 src) < fuel)%nat) -> (0 < fuel)%nat -> run (options_dup fuel src) h (copied h ext src).
Proof.
  induction fuel as [|fuel IH]; intros h ext src Hc He Hsub Hsrc Hf; [lia|]. cbn [options_dup]. destruct (Z.eqb_spec src 0) as [->|Hs0].
  { apply run_ret. split_and!; try done. }
  destruct (Hsrc Hs0) as [[x Hx] Hb]. destruct Hc as [rank Hc]. pose proof (null_free rank h ext Hc) as H0.
  eapply run_bind; [apply (create_counted rank h ext 0 0 Hc); [by intros ?|by intros ?|intros y Hy; congruence|intros y Hy; congruence]|].
  intros dst h1 [(Hd0 & Hd & [rank1 Hc1] & Hr1) Eh1]. assert (bump 0 h = h) as Eb by (unfold bump; by rewrite H0). rewrite !Eb in Eh1. clear Eb.
  assert (h !! src = Some x) as Hxh by by eapply lookup_weaken. assert (h0 !! dst = None) as Hd00 by by eapply lookup_weaken_None.
  assert (src <> dst) as Hsd by congruence. eapply run_opt_load; [rewrite Eh1, lookup_insert_ne by done; exact Hxh|].
  destruct (copy_entries_ok (entries x)) as (es & Ees & Hes); [by apply (He src)|]. eapply run_lift; [exact Ees|].
  eapply run_opt_update; [rewrite Eh1; apply lookup_insert_eq|]. rewrite Eh1, insert_insert_eq. set (n := set_entries es _).
  assert (h1 !! dst = Some (Options 1 0 0 [] 0 0)) as Hd1 by (rewrite Eh1; apply lookup_insert_eq).
  assert (exists rank, counted rank (<[dst := n]> h) (hold dst 1 ext)) as Hc2.
  { exists rank1. pose proof (counted_hold rank1 h1 (hold dst 1 ext) dst _ n 0 Hc1 Hd1) as C. rewrite Eh1, insert_insert_eq in C.
    eapply counted_same; [|apply C; try done]; [intros a; unfold hold at 1; case_decide; lia|]. destruct (counted_ext rank1 _ _ Hc1 dst). lia. }
  assert (forall a, a <> 0 -> refs (<[dst := n]> h) a = refs h a) as Hrn by (intros a Ha; rewrite refs_insert by done; unfold points, is_ptr; cbn; rewrite !decide_False by congruence; lia).
  assert (refs (<[dst := n]> h) dst = 0) as Hr2 by (rewrite <- Hr1, Hrn, Eh1, refs_insert by done; unfold points, is_ptr; cbn; rewrite !decide_False by congruence; lia).
  assert (forall p, p = parent1 x \/ p = parent2 x -> p <> 0 -> is_Some (h0 !! p) /\ (S (below rank0 h0 p) < fuel)%nat) as Hpar.
  { intros p Hp Hp0. destruct (Hparent src x p Hx Hp0) as [[y Hy] Hr]; [destruct Hp; auto|]. split; [by eexists|].
    enough (below rank0 h0 p < below rank0 h0 src)%nat by lia. by eapply below_lt. }
  assert (0 < fuel)%nat as Hfuel by lia.
  assert (h0 ⊆ <[dst := n]> h) as Hsub2 by (etransitivity; [exact Hsub|by apply insert_subseteq]).
  apply run_assoc. eapply run_bind; [eapply (copy_parent fuel (<[dst := n]> h) (hold dst 1 ext) dst n (parent1 x) set_parent1); try done;
    [intros; by apply IH|by apply entries_ok_insert|apply lookup_insert_eq|apply Hpar; by left|intros p; split_and!; [done|done|by left]]|].
  intros [] h2 (C2 & E2 & S2 & [p1 Hp1] & R2 & Rest2).
  apply run_assoc. eapply run_bind; [eapply (copy_parent fuel h2 (hold dst 1 ext) dst _ (parent2 x) set_parent2); try done;
    [intros; by apply IH|apply Hpar; by right|intros p; split_and!; [done|done|by right]]|].
  intros [] h3 (C3 & E3 & S3 & [p2 Hp2] & R3 & Rest3). apply run_ret.
  assert (forall a y, h !! a = Some y -> h3 !! a = Some y /\ refs h3 a = refs h a) as Hold.
  { intros a y Ha. assert (a <> dst) as Hne by congruence. assert (a <> 0) as Ha0 by congruence.
    destruct (Rest2 a) as [L2 R2']; [rewrite lookup_insert_ne by done; by eexists|done|]. rewrite lookup_insert_ne, Ha in L2 by done.
    destruct (Rest3 a) as [L3 R3']; [by eexists|done|]. split; [congruence|]. by rewrite R3', R2', Hrn. }
  split_and!; try done.
  - apply map_subseteq_spec. intros a y Ha. by apply Hold.
  - intros a [y Ha]. by eapply Hold.
Qed.
End dup.
(** ** A client *)

Inductive op :=
  | Create (p1 p2 : Z) | Addref (o : Z) | Dup (o : Z) | Destroy (o : Z)
  | Set_value (o : Z) (name : list Z) (value : option (list Z)) | Set_func (o f handle : Z).

Definition exec (c : op) : M opts Z :=
  match c with
  | Create p1 p2 => ZOOM_options_create_with_parent2 p1 p2
  | Addref o => ZOOM_options_addref o ;; ret 0
  | Dup o => ZOOM_options_dup o
  | Destroy o => ZOOM_options_destroy o ;; ret 0
  | Set_value o name value => ZOOM_options_set o name value ;; ret 0
  | Set_func o f handle => ZOOM_options_set_callback o f handle
  end.

(** The client passes what it holds, and strings. *)
Definition allowed (h : opts) (ext : handles) (c : op) : Prop :=
  match c with
  | Create p1 p2 => may_pass h ext p1 /\ may_pass h ext p2 /\ has_room h p1 /\ has_room h p2
  | Addref o => 0 < ext o /\ has_room h o
  | Dup o | Destroy o => may_pass h ext o
  | Set_value o name value => 0 < ext o /\ cstr_at name /\ match value with Some v => cstr_at v | None => True end
  | Set_func o _ _ => 0 < ext o
  end.
Definition held (ext : handles) (c : op) (v : Z) : handles :=
  match c with
  | Create _ _ | Dup _ => hold v 1 ext
  | Addref o => hold o 1 ext
  | Destroy o => hold o (-1) ext
  | _ => ext
  end.

(** A change of an object that leaves its count and its parents. *)
Lemma alive_update h ext o x y : alive h ext -> h !! o = Some x -> refcount y = refcount x -> parent1 y = parent1 x -> parent2 y = parent2 x ->
  Forall entry_ok (entries y) -> alive (<[o := y]> h) ext.
Proof.
  intros [[rank Hc] He] Hx H1 H2 H3 H4. split; [|by apply entries_ok_insert]. exists rank.
  destruct (counted_obj rank h ext Hc o x Hx) as (_ & _ & Hp). destruct (counted_ext rank h ext Hc o) as [Ho _].
  eapply counted_same; [|eapply (counted_hold rank h ext o x y 0); try done; lia]. intros a. unfold hold. case_decide; lia.
Qed.

Lemma exec_alive h ext c : alive h ext -> allowed h ext c -> run (exec c) h (fun v h' => alive h' (held ext c v)).
Proof.
  intros Ha. pose proof Ha as [[rank Hc] He]. destruct c as [p1 p2|o|o|o|o name value|o f handle]; cbn [allowed exec held].
  - intros (H1 & H2 & H3 & H4). eapply run_weaken; [by eapply create_counted|]. intros r h' [(_ & _ & Hc' & _) ->]. split; [done|].
    apply entries_ok_insert; [|constructor]. intros a x. rewrite !bump_lookup. destruct (h !! a) as [y|] eqn:E; [|done]. intros [= <-].
    specialize (He a y E). cbn. by repeat case_decide.
  - intros [Ho Hr]. eapply run_bind; [by apply addref_alive|]. intros [] h' H'. by apply run_ret.
  - intros Hp. unfold ZOOM_options_dup. apply run_get.
    eapply run_weaken; [apply (dup_copied rank h (counted_parent rank h ext Hc)); [by exists rank|done|done| |lia]|].
    + intros Ho. destruct (held_live rank h ext o Hc (Hp Ho)) as (x & Hx). split; [by eexists|]. pose proof (below_size rank h o x Hx). lia.
    + intros r h' (Hc' & He' & _). by split.
  - intros Hp. unfold ZOOM_options_destroy.
    eapply (run_bind _ _ _ (fun _ h' => alive h' (hold o (-1) ext))); [|intros [] h' H'; by apply run_ret]. apply run_get.
    assert (run (options_destroy (S (size h)) o) (h ∪ ∅) (fun _ h' => exists hl', h' = hl' ∪ ∅ /\ hl' ##ₘ ∅ /\ shrinks h hl' /\ counted rank hl' (hold o (-1) ext))) as Hd.
    { apply destroy_counted; [done|apply map_disjoint_empty_r| |lia]. intros Ho. split; [by apply Hp|].
      destruct (held_live rank h ext o Hc (Hp Ho)) as (x & Hx). pose proof (below_size rank h o x Hx). lia. }
    rewrite map_union_empty in Hd. eapply run_weaken; [exact Hd|]. intros [] h' (hl' & -> & _ & Hdom & Hc'). rewrite map_union_empty. split; [by exists rank|].
    intros a x Hx. destruct (Hdom a x Hx) as (y & Hy & ->). by apply (He a y).
  - intros (Ho & Hn & Hv). destruct (held_live rank h ext o Hc Ho) as (x & Hx). unfold ZOOM_options_set.
    assert (exists len, (match value with Some v => lift (strlen v) | None => ret 0 end) h = Some (len, h) /\
      match value with Some v => 0 <= len <= zlen v | None => True end) as (len & El & Hlen).
    { destruct value as [v|]; [|by exists 0]. destruct (strlen_total v Hv) as (n & En & Hn'). exists n. split; [unfold lift; by rewrite En|lia]. }
    eapply (run_bind _ _ _ (fun _ h' => alive h' ext)); [|intros [] h' H'; by apply run_ret]. unfold run. rewrite (bind_Some _ _ _ _ _ El). unfold ZOOM_options_setl.
    destruct (set_entry_ok (entries x) name value len (He o x Hx) Hn Hlen) as (es & Ees & Hes).
    eapply run_opt_load; [exact Hx|]. eapply run_lift; [exact Ees|]. eapply run_is; [by apply opt_update_ok|]. by eapply alive_update.
  - intros Ho. destruct (held_live rank h ext o Hc Ho) as (x & Hx). unfold ZOOM_options_set_callback. eapply run_opt_load; [exact Hx|].
    eapply run_opt_update; [exact Hx|]. apply run_ret. eapply alive_update; try done. by apply (He o x).
Qed.

(** *** A session *)

(** The objects and the handles after some calls. *)
Inductive reached : opts -> handles -> Prop :=
  | Reached_start : reached ∅ (fun _ => 0)
  | Reached_call h ext c v h' : reached h ext -> allowed h ext c -> exec c h = Some (v, h') -> reached h' (held ext c v).

(** An object is the other, or inherits from it. *)
Inductive inherits (h : opts) : Z -> Z -> Prop :=
  | Inherits_refl o : inherits h o o
  | Inherits_parent o x p a : h !! o = Some x -> p <> 0 -> parent1 x = p \/ parent2 x = p -> inherits h p a -> inherits h o a.

Lemma alive_start : alive ∅ (fun _ => 0).
Proof. split; [|intros o x Hx; by rewrite lookup_empty in Hx]. exists (fun _ => 0%nat). constructor; try (intros o x; by rewrite lookup_empty). done. Qed.

Lemma reached_alive h ext : reached h ext -> alive h ext.
Proof.
  induction 1 as [|h ext c v h' _ IH Ha E]; [apply alive_start|].
  destruct (exec_alive h ext c IH Ha) as (v' & h1 & E' & H1). rewrite E in E'. by injection E' as <- <-.
Qed.

Lemma inherits_trans h a b c : inherits h a b -> inherits h b c -> inherits h a c.
Proof. induction 1 as [|a x p b Hx Hp Hpp _ IH]; [done|]. intros Hc. eapply Inherits_parent; eauto. Qed.

Lemma inherits_live rank h ext a o : counted rank h ext -> inherits h a o -> is_Some (h !! a) -> is_Some (h !! o).
Proof. intros Hc. induction 1 as [|a x p o Hx Hp Hpp _ IH]; [done|]. intros _. by apply IH, (counted_parent rank h ext Hc a x p Hx Hp Hpp). Qed.

(** Objects of higher rank: fewer than all. *)
Definition above (rank : Z -> nat) (h : opts) (o : Z) : nat := size (filter (fun c => rank o < rank c)%nat (dom h)).

Lemma above_lt rank h o c x : h !! c = Some x -> (rank o < rank c)%nat -> (above rank h c < above rank h o)%nat.
Proof.
  intros Hc Hr. unfold above. apply subset_size. split.
  - intros a. rewrite !elem_of_filter. intros [Ha Hin]. split; [lia|done].
  - intros Hs. assert (c ∈ filter (fun a => rank o < rank a)%nat (dom h)) as Hin by (apply elem_of_filter; split; [done|by apply elem_of_dom]).
    apply Hs, elem_of_filter in Hin. lia.
Qed.

(** What is alive is reached from a handle. *)
Lemma counted_reachable rank h ext : counted rank h ext -> forall o, is_Some (h !! o) -> exists a, 0 < ext a /\ inherits h a o.
Proof.
  intros Hc o. induction o as [o IH] using (induction_ltof1 _ (above rank h)). unfold ltof in IH. intros [x Hx].
  destruct (counted_obj rank h ext Hc o x Hx) as (Ho & Hcount & Hpos). destruct (decide (0 < ext o)) as [He|He]; [exists o; by split; [|constructor]|].
  destruct (refs_pos h o) as (c & y & Hy & Hp); [lia|]. destruct (counted_parent rank h ext Hc c y o Hy Ho Hp) as [_ Hr].
  destruct (IH c) as (a & Ha & Hi); [by eapply above_lt|by eexists|]. exists a. split; [done|].
  eapply inherits_trans; [exact Hi|]. eapply Inherits_parent; [exact Hy|done|exact Hp|constructor].
Qed.

(** C16: After any sequence of calls on options in which the client passes
    handles that it holds and gives each one back once, an object is alive exactly
    when it can be reached through parents from a handle that is still held, its
    count is the number of handles and of children that point to it, and no call
    that the client may make faults (uses an object that was freed, or
    overflows a count): nothing is freed too early, twice, or never. *)
Theorem options_live_iff_reachable h ext : reached h ext ->
  (forall o, is_Some (h !! o) <-> exists a, 0 < ext a /\ inherits h a o) /\
  (forall o x, h !! o = Some x -> refcount x = ext o + refs h o) /\
  forall c, allowed h ext c -> exists v h', exec c h = Some (v, h').
Proof.
  intros Hr. pose proof (reached_alive h ext Hr) as Ha. pose proof Ha as [[rank Hc] _]. split_and!.
  - intros o. split; [by apply (counted_reachable rank)|]. intros (a & He & Hi). eapply inherits_live; [exact Hc|exact Hi|by apply (held_live rank h ext)].
  - intros o x Hx. by apply (counted_obj rank h ext Hc).
  - intros c Hal. destruct (exec_alive h ext c Ha Hal) as (v & h' & E & _). by exists v, h'.
Qed.
End malloc.

(** ** A client with two objects *)

(** The client makes an object and a child of it, sets an option of the first and
    gives its handle back. *)
Definition family_child : ZOOM_options_p := Options 1 0 0 [] 1 0.
Definition family : opts := {[1 := Options 1 0 0 [Entry (str "a" ++ [0]) (Some (str "x" ++ [0])) 1] 0 0; 2 := family_child]}.
Definition family_calls : list (op * Z) :=
  [(Create 0 0, 1); (Create 1 0, 2); (Set_value 1 (str "a" ++ [0]) (Some (str "x" ++ [0])), 0); (Destroy 1, 0)].
Definition family_handles : handles := fold_left (fun ext '(c, v) => held ext c v) family_calls (fun _ => 0).

Lemma reached_family : exists h, reached h family_handles /\ h = family.
Proof.
  eexists. split.
  - unfold family_handles, family_calls. cbn [fold_left].
    assert (cstr_at (str "a" ++ [0]) /\ cstr_at (str "x" ++ [0])) as [Ha Hx] by (split; eexists _, []; by repeat constructor).
    eapply Reached_call; [eapply Reached_call; [eapply Reached_call; [eapply Reached_call; [apply Reached_start| |vm_compute; reflexivity]| |vm_compute; reflexivity]| |vm_compute; reflexivity]| |vm_compute; reflexivity].
    + split_and!; [intros ?; done|intros ?; done|intros y; done|intros y; done].
    + split_and!; [intros _; by vm_compute|intros ?; done|intros y [= <-]; by vm_compute|intros y; done].
    + split_and!; [by vm_compute|exact Ha|exact Hx].
    + intros _. by vm_compute.
  - vm_compute. reflexivity.
Qed.

Lemma options_live_iff_reachable_witness : family_handles 1 = 0 /\ is_Some (family !! 1) /\ exists a, 0 < family_handles a /\ inherits family a 1.
Proof.
  split; [reflexivity|]. destruct reached_family as (h & Hr & ->). destruct (options_live_iff_reachable family family_handles Hr) as [Hl _].
  split; [by eexists|]. apply Hl. by eexists.
Defined.
