(* ===== verification/ZoomOptGet.v ===== *)
(** * Looking up ZOOM options

    What is read back after an option was set, in the object itself and in those
    that inherit from it. *)

From stdpp Require Import base list numbers option strings gmap sets.
From Stdlib Require Import ZArith Lia.
From S2P Require Import Prelude Text Store ZoomOpt ZoomOptSafe.

(** ** Entries *)

Lemma set_value_fields v len n e : set_value v len n = Some e -> e_name e = n /\
  e_value e = match v with Some v => (fun s => s ++ [0]) <$> sub v 0 len | None => None end.
Proof.
  destruct v as [v|]; cbn [set_value]; [|by intros [= <-]]. destruct (sub v 0 len); cbn [mbind option_bind]; [|done]. by intros [= <-].
Qed.

(** What is stored is found; other names find what they found before. *)
Lemma find_set es name value len es' n : Forall entry_ok es -> cstr_at name -> cstr name = Some n -> set_entry es name value len = Some es' ->
  (exists e, find_entry es' name = Some (Some e) /\ e_value e = match value with Some v => (fun s => s ++ [0]) <$> sub v 0 len | None => None end) /\
  forall name' n', cstr name' = Some n' -> n' <> n -> find_entry es' name' = find_entry es name'.
Proof.
  intros He Hn En. revert es'. induction He as [|e es [Hen Hev] Hes IH]; intros es'; cbn [set_entry].
  - unfold append_entry. rewrite En. cbn [mbind option_bind]. destruct (set_value value len (n ++ [0])) as [e|] eqn:Ee; [|done]. cbn [mbind option_bind].
    intros [= <-]. destruct (set_value_fields _ _ _ _ Ee) as [E1 E2]. cbn [find_entry]. rewrite E1.
    assert (cstr (n ++ [0]) = Some n) as Ec by (apply cstr_spec; by eapply cstr_nonzero). split.
    + exists e. rewrite (str_same_cstr _ _ _ _ Ec En), bool_decide_true by done. by cbn [mbind option_bind].
    + intros name' n' En' Hne. rewrite (str_same_cstr _ _ _ _ Ec En'), bool_decide_false by congruence. by cbn [mbind option_bind].
  - destruct (cstr_total _ Hen) as (t & Et). rewrite (str_same_cstr _ _ _ _ Et En). cbn [mbind option_bind]. case_bool_decide as Etn.
    + destruct (set_value value len (e_name e)) as [e'|] eqn:Ee; [|done]. cbn [mbind option_bind]. intros [= <-].
      destruct (set_value_fields _ _ _ _ Ee) as [E1 E2]. cbn [find_entry]. rewrite E1. split.
      * exists e'. rewrite (str_same_cstr _ _ _ _ Et En), bool_decide_true by done. by cbn [mbind option_bind].
      * intros name' n' En' Hne. rewrite (str_same_cstr _ _ _ _ Et En'), bool_decide_false by congruence. by cbn [mbind option_bind].
    + destruct (set_entry es name value len) as [es1|] eqn:E1; [|done]. cbn [mbind option_bind]. intros [= <-].
      destruct (IH es1 eq_refl) as [H1 H2]. cbn [find_entry]. split.
      * rewrite (str_same_cstr _ _ _ _ Et En), bool_decide_false by done. by cbn [mbind option_bind].
      * intros name' n' En' Hne. rewrite (str_same_cstr _ _ _ _ Et En'). cbn [mbind option_bind]. by rewrite (H2 name' n').
Qed.

(** ** Lookup through the parents *)

Section callback.
Context (call : Z -> Z -> list Z -> option (list Z)).
(** The functions of the client return strings. *)
Context (call_string : forall f handle name s, call f handle name = Some s -> cstr_at s).

(** What the function of the object says. *)
Definition called (x : ZOOM_options_p) (name : list Z) : option (list Z) :=
  if negb (callback_func x =? 0) then call (callback_func x) (callback_handle x) name else None.

(** What the object has itself. *)
Definition own (x : ZOOM_options_p) (name : list Z) : option (option (list Z)) :=
  match called x name with
  | Some v => Some (Some v)
  | None => let? e := find_entry (entries x) name in Some (match e with Some e => e_value e | None => None end)
  end.

(** An object's lookup, given how its parents are looked up. *)
Definition inherited (get : Z -> M opts (option (list Z))) (x : ZOOM_options_p) (name : list Z) : M opts (option (list Z)) :=
  let* v := lift (own x name) in
  match v with
  | Some v => ret (Some v)
  | None => let* v := get (parent1 x) in match v with Some v => ret (Some v) | None => get (parent2 x) end
  end.

Section heap.
Context (rank : Z -> nat) (h : opts) (ext : handles) (Hc : counted rank h ext) (He : entries_ok h).

Definition enough (fuel : nat) (o : Z) : Prop := (0 < fuel)%nat /\ (o <> 0 -> (S (below rank h o) < fuel)%nat).
Definition live (o : Z) : Prop := o <> 0 -> is_Some (h !! o).

(** The lookup [r] of an object does not depend on the fuel, nor on the length that was there. *)
Definition looks_up (o : Z) (name : list Z) (r : option (list Z)) : Prop :=
  forall fuel len, enough fuel o -> exists len', options_getl call fuel o name len h = Some ((r, len'), h).

Lemma own_total o x name : h !! o = Some x -> cstr_at name -> exists r, own x name = Some r.
Proof.
  intros Hx Hn. unfold own. destruct (called x name); [by eexists|].
  destruct (find_entry_total (entries x) name (He o x Hx) Hn) as (r & ->). by eexists.
Qed.

Lemma enough_parent fuel o x p : h !! o = Some x -> parent1 x = p \/ parent2 x = p -> o <> 0 -> enough (S fuel) o -> enough fuel p.
Proof.
  intros Hx Hp Ho [_ Hf]. specialize (Hf Ho). split; [lia|]. intros Hp0. destruct (counted_parent rank h ext Hc o x p Hx Hp0 Hp) as [[y Hy] Hr].
  pose proof (below_lt rank h h o p y ltac:(done) Hy Hr). lia.
Qed.

Lemma looks_up_null name : looks_up 0 name None.
Proof. intros [|fuel] len [Hf _]; [lia|]. by exists len. Qed.

Lemma looks_up_own o x name r r1 r2 : h !! o = Some x -> o <> 0 -> own x name = Some r -> looks_up (parent1 x) name r1 -> looks_up (parent2 x) name r2 ->
  looks_up o name (match r with Some v => Some v | None => match r1 with Some v => Some v | None => r2 end end).
Proof.
  intros Hx Ho Er H1 H2 [|fuel] len Hf; [destruct Hf; lia|]. cbn [options_getl]. rewrite (proj2 (Z.eqb_neq o 0)) by done.
  rewrite (bind_Some _ _ _ _ _ (opt_load_ok h o x Hx)).
  assert (exists len1, (match called x name with
      | Some v => let* n := lift (strlen v) in ret (Some v, n)
      | None => let* e := lift (find_entry (entries x) name) in ret (match e with Some e => (e_value e, e_len e) | None => (None, len) end)
      end) h = Some ((r, len1), h)) as (len1 & E1).
  { unfold own in Er. destruct (called x name) as [v|] eqn:Ev.
    - injection Er as <-. assert (cstr_at v) as Hv by (unfold called in Ev; destruct (negb _); [by eapply call_string|done]).
      destruct (strlen_total v Hv) as (n & En & _). exists n. unfold lift. by rewrite En.
    - destruct (find_entry (entries x) name) as [e|]; [|done]. cbn [mbind option_bind] in Er. injection Er as <-.
      exists (match e with Some e => e_len e | None => len end). cbn [lift bind ret]. by destruct e. }
  rewrite (bind_Some _ _ _ _ _ E1). cbv beta iota. destruct r as [v|]; [by exists len1|].
  destruct (H1 fuel len1) as (len2 & E2); [by eapply (enough_parent fuel o x); auto|]. rewrite (bind_Some _ _ _ _ _ E2). cbv beta iota. destruct r1 as [v|]; [by exists len2|].
  apply H2. by eapply (enough_parent fuel o x); auto.
Qed.

Lemma looks_up_total name : cstr_at name -> forall o, live o -> exists r, looks_up o name r.
Proof.
  intros Hn o. induction o as [o IH] using (induction_ltof1 _ (below rank h)). unfold ltof in IH. intros Hl.
  destruct (decide (o = 0)) as [->|Ho]; [exists None; apply looks_up_null|]. destruct (Hl Ho) as [x Hx].
  assert (forall p, parent1 x = p \/ parent2 x = p -> exists r, looks_up p name r) as Hpar.
  { intros p Hp. destruct (decide (p = 0)) as [->|Hp0]; [exists None; apply looks_up_null|].
    destruct (counted_parent rank h ext Hc o x p Hx Hp0 Hp) as [[y Hy] Hr]. apply IH; [by eapply below_lt|]. intros _. by eexists. }
  destruct (own_total o x name Hx Hn) as (r & Er). destruct (Hpar (parent1 x)) as (r1 & H1); [by left|]. destruct (Hpar (parent2 x)) as (r2 & H2); [by right|].
  eexists. by eapply looks_up_own.
Qed.

Lemma looks_up_get o name r : live o -> looks_up o name r -> ZOOM_options_get call o name h = Some (r, h).
Proof.
  intros Hl Hr. unfold ZOOM_options_get. destruct (Hr (S (size h)) 0) as (len & E).
  { split; [lia|]. intros Ho. destruct (Hl Ho) as [x Hx]. pose proof (below_size rank h o x Hx). lia. }
  assert (ZOOM_options_getl call o name 0 h = Some ((r, len), h)) as E' by (unfold ZOOM_options_getl; by rewrite bind_get).
  by rewrite (bind_Some _ _ _ _ _ E').
Qed.

Lemma parent_live o x p : h !! o = Some x -> parent1 x = p \/ parent2 x = p -> live p.
Proof. intros Hx Hp Hp0. by destruct (counted_parent rank h ext Hc o x p Hx Hp0 Hp). Qed.

(** An object has its own value, that of its first parent, or that of the second. *)
Lemma get_inherited o x name : cstr_at name -> h !! o = Some x -> ZOOM_options_get call o name h = inherited (fun p => ZOOM_options_get call p name) x name h.
Proof.
  intros Hn Hx. assert (o <> 0) as Ho by by destruct (counted_obj rank h ext Hc o x Hx).
  pose proof (parent_live o x (parent1 x) Hx (or_introl eq_refl)) as L1. pose proof (parent_live o x (parent2 x) Hx (or_intror eq_refl)) as L2.
  destruct (own_total o x name Hx Hn) as (r & Er). destruct (looks_up_total name Hn _ L1) as (r1 & H1). destruct (looks_up_total name Hn _ L2) as (r2 & H2).
  rewrite (looks_up_get _ _ _ ltac:(intros _; by eexists) (looks_up_own o x name r r1 r2 Hx Ho Er H1 H2)).
  unfold inherited. rewrite Er. cbn [lift bind]. destruct r as [v|]; [done|]. rewrite (bind_Some _ _ _ _ _ (looks_up_get _ _ _ L1 H1)).
  destruct r1 as [v|]; [done|]. by rewrite (looks_up_get _ _ _ L2 H2).
Qed.
End heap.

(** Objects that have the same parents and own values give the same. *)
Lemma get_same rank h h' ext name : counted rank h ext -> entries_ok h -> counted rank h' ext -> entries_ok h' -> cstr_at name ->
  (forall o x, h !! o = Some x -> exists y, h' !! o = Some y /\ own y name = own x name /\ parent1 y = parent1 x /\ parent2 y = parent2 x) ->
  forall o, live h o -> exists r, ZOOM_options_get call o name h = Some (r, h) /\ ZOOM_options_get call o name h' = Some (r, h').
Proof.
  intros Hc He Hc' He' Hn Hsame o. induction o as [o IH] using (induction_ltof1 _ (below rank h)). unfold ltof in IH. intros Hl.
  assert (forall g, ZOOM_options_get call 0 name g = Some (None, g)) as Hnull by (intros g; unfold ZOOM_options_get, ZOOM_options_getl; done).
  destruct (decide (o = 0)) as [->|Ho]; [exists None; by rewrite !Hnull|]. destruct (Hl Ho) as [x Hx]. destruct (Hsame o x Hx) as (y & Hy & Eo & E1 & E2).
  assert (forall p, parent1 x = p \/ parent2 x = p -> exists r, ZOOM_options_get call p name h = Some (r, h) /\ ZOOM_options_get call p name h' = Some (r, h')) as Hpar.
  { intros p Hp. destruct (decide (p = 0)) as [->|Hp0]; [exists None; by rewrite !Hnull|].
    destruct (counted_parent rank h ext Hc o x p Hx Hp0 Hp) as [[z Hz] Hr]. apply IH; [by eapply below_lt|]. intros _. by eexists. }
  rewrite (get_inherited rank h ext Hc He o x name Hn Hx), (get_inherited rank h' ext Hc' He' o y name Hn Hy). unfold inherited. rewrite Eo, E1, E2.
  destruct (own_total h He o x name Hx Hn) as (r & Er). rewrite Er. cbn [lift bind]. destruct r as [v|]; [by exists (Some v)|].
  destruct (Hpar (parent1 x)) as (r1 & G1 & G1'); [by left|]. destruct (Hpar (parent2 x)) as (r2 & G2 & G2'); [by right|].
  rewrite (bind_Some _ _ _ _ _ G1), (bind_Some _ _ _ _ _ G1'). destruct r1 as [v|]; [by exists (Some v)|]. by exists r2.
Qed.

(** The entries of an object change. *)
Lemma set_runs h o x name value : h !! o = Some x -> Forall entry_ok (entries x) -> cstr_at name -> match value with Some v => cstr_at v | None => True end ->
  exists len es, ZOOM_options_set o name value h = Some (tt, <[o := set_entries es x]> h) /\ set_entry (entries x) name value len = Some es /\ Forall entry_ok es /\
    match value with Some v => strlen v = Some len | None => True end.
Proof.
  intros Hx He Hn Hv.
  assert (exists len, (match value with Some v => lift (strlen v) | None => ret 0 end) h = Some (len, h) /\
    match value with Some v => 0 <= len <= zlen v /\ strlen v = Some len | None => True end) as (len & El & Hlen).
  { destruct value as [v|]; [|by exists 0]. destruct (strlen_total v Hv) as (n & En & Hn'). exists n. split; [unfold lift; by rewrite En|split; [lia|done]]. }
  destruct (set_entry_ok (entries x) name value len He Hn) as (es & Ees & Hes); [destruct value; [by destruct Hlen|done]|].
  exists len, es. split_and!; [|done|done|destruct value; [by destruct Hlen|done]]. unfold ZOOM_options_set. rewrite (bind_Some _ _ _ _ _ El).
  unfold ZOOM_options_setl. rewrite (bind_Some _ _ _ _ _ (opt_load_ok h o x Hx)), Ees. cbn [lift bind]. by apply opt_update_ok.
Qed.

Section malloc.
Context `{Allocator}.

(** C17: After an option was set, unless a callback of the client overrides it,
    lookup in that object gives the string that was stored, or, when null was stored, what
    the first parent has, or else the second; under every other name, every
    object gives what it gave before. No lookup faults or runs forever. *)
Theorem option_set_get h ext o x name value : reached h ext -> allowed h ext (Set_value o name value) -> h !! o = Some x -> called x name = None ->
  exists h', ZOOM_options_set o name value h = Some (tt, h') /\
    ZOOM_options_get call o name h' = match value with
      | Some v => Some ((fun s => s ++ [0]) <$> cstr v, h')
      | None => (let* r := ZOOM_options_get call (parent1 x) name in
                 match r with Some v => ret (Some v) | None => ZOOM_options_get call (parent2 x) name end) h'
      end /\
    forall a name', (a <> 0 -> is_Some (h !! a)) -> cstr_at name' -> cstr name' <> cstr name ->
      exists r, ZOOM_options_get call a name' h = Some (r, h) /\ ZOOM_options_get call a name' h' = Some (r, h').
Proof.
  intros Hr (Ho & Hn & Hv) Hx Hcall. pose proof (reached_alive h ext Hr) as [[rank Hc] He].
  destruct (set_runs h o x name value Hx (He o x Hx) Hn Hv) as (len & es & Es & Ees & Hes & Hlen). exists (<[o := set_entries es x]> h). split; [done|].
  assert (counted rank (<[o := set_entries es x]> h) ext) as Hc'.
  { destruct (counted_obj rank h ext Hc o x Hx) as (_ & _ & Hp). eapply counted_same; [|eapply (counted_hold rank h ext o x (set_entries es x) 0); try done; cbn; lia].
    intros a. unfold hold. case_decide; lia. }
  assert (entries_ok (<[o := set_entries es x]> h)) as He' by by apply entries_ok_insert.
  destruct (cstr_total name Hn) as (n & En). destruct (find_set _ _ _ _ _ n (He o x Hx) Hn En Ees) as [(e & Ef & Ev) Hother]. split.
  - rewrite (get_inherited rank _ ext Hc' He' o _ name Hn (lookup_insert_eq _ _ _)). unfold inherited, own.
    change (called (set_entries es x) name) with (called x name). rewrite Hcall. cbn [entries set_entries parent1 parent2]. rewrite Ef.
    cbn [mbind option_bind lift bind]. rewrite Ev. destruct value as [v|]; [|done]. unfold cstr. rewrite Hlen. cbn [mbind option_bind].
    destruct (cstr_total v Hv) as (t & Et). unfold cstr in Et. rewrite Hlen in Et. cbn [mbind option_bind] in Et. by rewrite Et.
  - intros a name' Ha Hn' Hne. apply (get_same rank h _ ext name' Hc He Hc' He' Hn'); [|exact Ha]. intros b y Hy. rewrite lookup_insert.
    case_decide as E; [|by exists y]. subst b. rewrite Hx in Hy. injection Hy as <-. eexists. split; [done|]. split; [|done]. unfold own.
    change (called (set_entries es x) name') with (called x name'). cbn [entries set_entries].
    destruct (cstr_total name' Hn') as (n' & En'). rewrite (Hother name' n'); [done|done|congruence].
Qed.
End malloc.
End callback.

(** ** A client *)

Definition no_call (f handle : Z) (name : list Z) : option (list Z) := None.

Lemma option_set_get_witness : exists h h', reached h family_handles /\
  ZOOM_options_set 2 (str "b" ++ [0]) (Some (str "y" ++ [0])) h = Some (tt, h') /\
  ZOOM_options_get no_call 2 (str "b" ++ [0]) h' = Some (Some (str "y" ++ [0]), h') /\
  ZOOM_options_get no_call 2 (str "a" ++ [0]) h' = Some (Some (str "x" ++ [0]), h').
Proof.
  assert (cstr_at (str "a" ++ [0]) /\ cstr_at (str "b" ++ [0]) /\ cstr_at (str "y" ++ [0])) as (Ha & Hb & Hy) by (split_and!; eexists _, []; by repeat constructor).
  destruct reached_family as (h & Hr & Hx). exists h. assert (h !! 2 = Some family_child) as H2 by by rewrite Hx.
  destruct (option_set_get no_call ltac:(done) h family_handles 2 (family_child) (str "b" ++ [0]) (Some (str "y" ++ [0])) Hr)
    as (h' & E & Hg & Hother); [split_and!; [done|exact Hb|exact Hy]|exact H2|done|].
  exists h'. split_and!; [done|done|exact Hg|]. destruct (Hother 2 (str "a" ++ [0])) as (r & E1 & E2); [intros _; rewrite H2; by eexists|done|vm_compute; congruence|].
  rewrite E2. rewrite Hx in E1. vm_compute in E1. injection E1 as <-. done.
Defined.
