(* ===== verification/Nmem.v ===== *)
(** * Nibble memory (nmem.c, nmemsdup.c)

    Pools that hand out pieces of large blocks and free them together.  A pointer
    into memory is the buffer it belongs to and an offset. *)

From stdpp Require Import base list numbers option strings gmap sets.
From Stdlib Require Import ZArith Lia.
From S2P Require Import Prelude Text Store.

Definition NMEM_CHUNK : Z := 4 * 1024.
(** The offset of a member with the alignment of [long long]. *)
Definition NMEM_ALIGN : Z := 8.

Record nmem_block := Block {
  b_buf : Z;
  b_size : Z;
  b_top : Z;
  b_next : Z;
}.

Record nmem_control := Control {
  c_total : Z;
  c_blocks : Z;
  c_next : Z;
}.

(** The structures, the octets of the buffers, and the global counters. *)
Record nstore := NStore {
  controls : gmap Z nmem_control;
  nblocks : gmap Z nmem_block;
  bufs : gmap Z (list Z);
  no_nmem_handles : Z;
  no_nmem_blocks : Z;
  nmem_allocated : Z;
}.

Definition set_top (n : Z) (b : nmem_block) : nmem_block := Block (b_buf b) (b_size b) n (b_next b).
Definition set_bnext (p : Z) (b : nmem_block) : nmem_block := Block (b_buf b) (b_size b) (b_top b) p.
Definition set_total (n : Z) (c : nmem_control) : nmem_control := Control n (c_blocks c) (c_next c).
Definition set_blocks (p : Z) (c : nmem_control) : nmem_control := Control (c_total c) p (c_next c).

Definition on_controls (f : gmap Z nmem_control -> gmap Z nmem_control) (h : nstore) : nstore :=
  NStore (f (controls h)) (nblocks h) (bufs h) (no_nmem_handles h) (no_nmem_blocks h) (nmem_allocated h).
Definition on_blocks (f : gmap Z nmem_block -> gmap Z nmem_block) (h : nstore) : nstore :=
  NStore (controls h) (f (nblocks h)) (bufs h) (no_nmem_handles h) (no_nmem_blocks h) (nmem_allocated h).
Definition on_bufs (f : gmap Z (list Z) -> gmap Z (list Z)) (h : nstore) : nstore :=
  NStore (controls h) (nblocks h) (f (bufs h)) (no_nmem_handles h) (no_nmem_blocks h) (nmem_allocated h).
(** The counters have type [size_t]. *)
Definition count (handles blocks allocated : Z) (h : nstore) : nstore :=
  NStore (controls h) (nblocks h) (bufs h) (u64 (no_nmem_handles h + handles)) (u64 (no_nmem_blocks h + blocks)) (u64 (nmem_allocated h + allocated)).

Definition load_control (n : Z) : M nstore nmem_control := let* h := get in lift (controls h !! n).
Definition load_block (p : Z) : M nstore nmem_block := let* h := get in lift (nblocks h !! p).
Definition update_control (n : Z) (f : nmem_control -> nmem_control) : M nstore unit :=
  let* c := load_control n in modify (on_controls (<[n := f c]>)).
Definition update_block (p : Z) (f : nmem_block -> nmem_block) : M nstore unit :=
  let* b := load_block p in modify (on_blocks (<[p := f b]>)).

(** ** Access to memory *)

Definition pointer : Type := Z * Z.

Definition write_at (p : pointer) (xs : list Z) : M nstore unit :=
  let* h := get in
  let* l := lift (bufs h !! fst p) in
  let* l := lift (splice l (snd p) xs) in
  modify (on_bufs (<[fst p := l]>)).
Definition read_at (p : pointer) (n : Z) : M nstore (list Z) :=
  let* h := get in
  let* l := lift (bufs h !! fst p) in
  lift (sub l (snd p) n).

Definition xfree_buf (p : Z) : M nstore unit :=
  let* h := get in
  let* _ := lift (bufs h !! p) in
  modify (on_bufs (delete p)).

(** ** nmem.c *)

Definition free_block (p : Z) : M nstore unit :=
  let* b := load_block p in
  modify (count 0 (-1) (- b_size b)) ;;
  xfree_buf (b_buf b) ;;
  modify (on_blocks (delete p)).

(** The head of the list moves before its first block is freed. *)
Fixpoint reset_loop (fuel : nat) (n : Z) : M nstore unit :=
  match fuel with
  | O => fault
  | S fuel =>
      let* c := load_control n in
      let t := c_blocks c in
      if t =? 0 then ret tt
      else
        let* b := load_block t in
        update_control n (set_blocks (b_next b)) ;;
        free_block t ;;
        reset_loop fuel n
  end.
Definition nmem_reset (n : Z) : M nstore unit :=
  if n =? 0 then ret tt
  else
    let* h := get in
    reset_loop (S (size (nblocks h))) n ;;
    update_control n (set_total 0).

Definition nmem_total (n : Z) : M nstore Z := let* c := load_control n in ret (c_total c).

(** The size that is used up: a multiple of the alignment. *)
Definition align (size : Z) : Z := Z.land (u64 (size + (NMEM_ALIGN - 1))) (u64 (Z.lnot (NMEM_ALIGN - 1))).

Section malloc.
Context `{Allocator}.
(** What memory holds that was just allocated. *)
Context (junk : Z).

Definition get_block (size : Z) : M nstore Z :=
  let get_size := if NMEM_CHUNK <? size then size else NMEM_CHUNK in
  let* h := get in
  let r := malloc (dom (nblocks h)) in
  let buf := malloc (dom (bufs h)) in
  modify (on_bufs (<[buf := repeat junk (Z.to_nat get_size)]>)) ;;
  modify (on_blocks (<[r := Block buf get_size 0 junk]>)) ;;
  modify (count 0 1 get_size) ;;
  ret r.

Definition nmem_malloc (n size : Z) : M nstore pointer :=
  if n =? 0 then fault
  else
    let* c := load_control n in
    let* p := (if c_blocks c =? 0 then ret 0
               else let* b := load_block (c_blocks c) in ret (if b_size b <? u64 (size + b_top b) then 0 else c_blocks c)) in
    let* p := (if p =? 0 then
                 let* p := get_block size in
                 let* c := load_control n in
                 update_block p (set_bnext (c_blocks c)) ;;
                 update_control n (set_blocks p) ;;
                 ret p
               else ret p) in
    let* b := load_block p in
    update_block p (set_top (u64 (b_top b + align size))) ;;
    let* c := load_control n in
    update_control n (set_total (u64 (c_total c + size))) ;;
    ret (b_buf b, b_top b).

Definition nmem_create : M nstore Z :=
  modify (count 1 0 0) ;;
  let* h := get in
  let r := malloc (dom (controls h)) in
  modify (on_controls (<[r := Control 0 0 0]>)) ;;
  ret r.
End malloc.

Definition nmem_destroy (n : Z) : M nstore unit :=
  if n =? 0 then ret tt
  else
    nmem_reset n ;;
    let* _ := load_control n in
    modify (on_controls (delete n)) ;;
    modify (count (-1) 0 0).

Fixpoint transfer_loop (fuel : nat) (dst src : Z) : M nstore unit :=
  match fuel with
  | O => fault
  | S fuel =>
      let* c := load_control src in
      let t := c_blocks c in
      if t =? 0 then ret tt
      else
        let* b := load_block t in
        update_control src (set_blocks (b_next b)) ;;
        let* d := load_control dst in
        update_block t (set_bnext (c_blocks d)) ;;
        update_control dst (set_blocks t) ;;
        transfer_loop fuel dst src
  end.
Definition nmem_transfer (dst src : Z) : M nstore unit :=
  let* h := get in
  transfer_loop (S (size (nblocks h))) dst src ;;
  let* s := load_control src in
  let* d := load_control dst in
  update_control dst (set_total (u64 (c_total d + c_total s))) ;;
  update_control src (set_total 0).

(** The text that is written to a buffer of [l] octets, as far as it fits. *)
Definition nmem_get_status (l : Z) : M nstore (list Z) :=
  let* h := get in
  let text := str "<nmem>" ++ nl ++ str "  <handles>" ++ fmt_d (s64 (no_nmem_handles h)) ++ str "</handles>" ++ nl ++
    str "  <blocks>" ++ fmt_d (s64 (no_nmem_blocks h)) ++ str "</blocks>" ++ nl ++
    str "  <allocated>" ++ fmt_d (s64 (nmem_allocated h)) ++ str "</allocated>" ++ nl ++ str "</nmem>" ++ nl in
  ret (if l =? 0 then [] else take (Z.to_nat (l - 1)) text ++ [0]).

(** ** nmemsdup.c *)

Section strings.
Context `{Allocator} (junk : Z).

Definition nmem_strdup (mem : Z) (src : list Z) : M nstore pointer :=
  let* n := lift (strlen src) in
  let* dst := nmem_malloc junk mem (u64 (n + 1)) in
  let* s := lift (sub src 0 (n + 1)) in
  write_at dst s ;;
  ret dst.

Definition nmem_strdup_null (mem : Z) (src : option (list Z)) : M nstore (option pointer) :=
  match src with
  | None => ret None
  | Some src => let* p := nmem_strdup mem src in ret (Some p)
  end.

Definition nmem_strdupn (mem : Z) (src : list Z) (n : Z) : M nstore pointer :=
  let* dst := nmem_malloc junk mem (u64 (n + 1)) in
  let* s := lift (sub src 0 n) in
  write_at dst s ;;
  write_at (fst dst, snd dst + n) [0] ;;
  ret dst.
End strings.
