(* ===== verification/NmemSpec.v ===== *)
(** * Pools as independent pieces of memory

    Whoever allocates from pools can think of every piece as a buffer of its
    own, which lives until its pool is reset. *)

From stdpp Require Import base list numbers option strings gmap sets.
From Stdlib Require Import ZArith Lia.
From S2P Require Import Prelude Text Store Nmem.

(** ** Parts of an array *)

Lemma rd_splice {A} (l xs l' : list A) i k : splice l i xs = Some l' -> rd l' k = if decide (i <= k < i + zlen xs) then rd xs (k - i) else rd l k.
Proof.
  unfold splice. destruct (_ && _) eqn:E; [|done]. apply andb_true_iff in E as [H1%Z.leb_le H2%Z.leb_le]. intros [= <-]. unfold rd, zlen in *.
  destruct (Z.leb_spec 0 k) as [Hk|Hk]; [|rewrite decide_False by lia; done]. case_decide as Hd.
  - rewrite (proj2 (Z.leb_le 0 (k - i))) by lia. rewrite lookup_app_r by (rewrite length_take; lia). rewrite length_take, lookup_app_l by lia. f_equal. lia.
  - destruct (decide (k < i)) as [Hi|Hi].
    + rewrite lookup_app_l, lookup_take_lt by (rewrite ?length_take; lia). done.
    + rewrite lookup_app_r by (rewrite length_take; lia). rewrite length_take, lookup_app_r, lookup_drop by lia. f_equal. lia.
Qed.

Lemma sub_iff {A} (l d : list A) i n : sub l i n = Some d <-> 0 <= i /\ zlen d = n /\ i + n <= zlen l /\ forall k, 0 <= k < n -> rd d k = rd l (i + k).
Proof.
  unfold sub. split.
  - destruct (_ && _) eqn:E; [|done]. rewrite !andb_true_iff, !Z.leb_le in E. destruct E as [[H1 H2] H3]. intros [= <-]. split_and!; [done| |done|].
    + unfold zlen in *. rewrite length_take, length_drop. lia.
    + intros k Hk. unfold rd. rewrite (proj2 (Z.leb_le 0 k)), (proj2 (Z.leb_le 0 (i + k))) by lia. rewrite lookup_take_lt, lookup_drop by lia. f_equal. lia.
  - intros (H1 & <- & H3 & Hk). pose proof (zlen_nonneg d). rewrite (proj2 (Z.leb_le 0 i)), (proj2 (Z.leb_le 0 (zlen d))), (proj2 (Z.leb_le _ (zlen l))) by lia. cbn [andb].
    f_equal. apply list_eq. intros j. unfold zlen in *. destruct (decide (j < length d)%nat) as [Hj|Hj].
    + rewrite lookup_take_lt, lookup_drop by lia. specialize (Hk (Z.of_nat j) ltac:(lia)). unfold rd in Hk.
      rewrite (proj2 (Z.leb_le 0 (Z.of_nat j))), (proj2 (Z.leb_le 0 (i + Z.of_nat j))), Nat2Z.id in Hk by lia. rewrite Hk. f_equal. lia.
    + rewrite !lookup_ge_None_2; rewrite ?length_take, ?length_drop; [done|lia|lia].
Qed.

(** A part that is written, and one that is not. *)
Lemma sub_splice_in {A} (l l' d xs : list A) i n off : sub l i n = Some d -> 0 <= off -> off + zlen xs <= n -> splice l (i + off) xs = Some l' ->
  exists d', splice d off xs = Some d' /\ sub l' i n = Some d'.
Proof.
  intros (H1 & Hn & H3 & Hk)%sub_iff Ho Hx Hs. pose proof (splice_zlen _ _ _ _ Hs) as Hl. rewrite (splice_spec d) by lia. eexists. split; [done|].
  set (d' := _ ++ _). assert (splice d off xs = Some d') as Hd by (apply splice_spec; lia). apply sub_iff. rewrite (splice_zlen _ _ _ _ Hd), Hl.
  split_and!; [done|done|done|]. intros k Hkn. rewrite (rd_splice _ _ _ _ _ Hs), (rd_splice _ _ _ _ _ Hd). repeat case_decide; try lia; [f_equal; lia|by apply Hk].
Qed.

Lemma sub_splice_out {A} (l l' d xs : list A) i n j : sub l i n = Some d -> splice l j xs = Some l' -> i + n <= j \/ j + zlen xs <= i -> sub l' i n = Some d.
Proof.
  intros (H1 & Hn & H3 & Hk)%sub_iff Hs Hj. apply sub_iff. rewrite (splice_zlen _ _ _ _ Hs). split_and!; [done..|].
  intros k Hkn. rewrite (rd_splice _ _ _ _ _ Hs), decide_False by lia. by apply Hk.
Qed.

(** ** The specification *)

(** What was allocated: from which pool, where, and what was written to it;
    an octet has no value before that. *)
Record alloc := Alloc {
  a_pool : Z;
  a_ptr : pointer;
  a_data : list (option Z);
}.

(** The client names what it allocates; each pool has the sum of the sizes. *)
Record nspec := NSpec {
  allocs : gmap Z alloc;
  totals : gmap Z Z;
}.

(** Two allocations that share no octet. *)
Definition apart (a b : alloc) : Prop :=
  fst (a_ptr a) <> fst (a_ptr b) \/ snd (a_ptr a) + zlen (a_data a) <= snd (a_ptr b) \/ snd (a_ptr b) + zlen (a_data b) <= snd (a_ptr a).

(** What is at most [PTRDIFF_MAX] when it is rounded up; no more can be allocated. *)
Definition SIZE_LIMIT : Z := 2 ^ 63 - 8.

Definition block_ok (h : nstore) (b : nmem_block) : Prop :=
  (exists l, bufs h !! b_buf b = Some l /\ zlen l = b_size b) /\ 0 <= b_size b < SIZE_LIMIT /\ 0 <= b_top b <= b_size b + 7 /\ b_top b mod NMEM_ALIGN = 0.

(** Memory holds what was written. *)
Definition agrees (m : list Z) (data : list (option Z)) : Prop := Forall2 (fun x o => forall y, o = Some y -> x = y) m data.

Definition alloc_ok (h : nstore) (own : gmap Z Z) (a : alloc) : Prop :=
  exists p b l, nblocks h !! p = Some b /\ own !! p = Some (a_pool a) /\ b_buf b = fst (a_ptr a) /\ bufs h !! fst (a_ptr a) = Some l /\
    (exists m, sub l (snd (a_ptr a)) (zlen (a_data a)) = Some m /\ agrees m (a_data a)) /\ snd (a_ptr a) + zlen (a_data a) <= b_top b /\ snd (a_ptr a) mod NMEM_ALIGN = 0.

Definition block_sizes (h : nstore) : Z := map_fold (fun _ b n => b_size b + n) 0 (nblocks h).

(** [own] has the pool of each block. *)
Record rep (h : nstore) (s : nspec) (own : gmap Z Z) : Prop := {
  rep_pool : forall n c, controls h !! n = Some c -> n <> 0 /\ totals s !! n = Some (c_total c) /\
    exists bl, chain b_next (nblocks h) (c_blocks c) bl /\ forall p, p ∈ bl <-> own !! p = Some n;
  rep_totals : forall n, is_Some (totals s !! n) -> is_Some (controls h !! n);
  rep_own : forall p n, own !! p = Some n -> is_Some (controls h !! n);
  rep_block : forall p b, nblocks h !! p = Some b -> block_ok h b /\ is_Some (own !! p);
  rep_buf : forall a, is_Some (bufs h !! a) -> exists p b, nblocks h !! p = Some b /\ b_buf b = a;
  rep_bufs : forall p q b c, nblocks h !! p = Some b -> nblocks h !! q = Some c -> b_buf b = b_buf c -> p = q;
  rep_alloc : forall id a, allocs s !! id = Some a -> alloc_ok h own a;
  rep_apart : forall i j a b, allocs s !! i = Some a -> allocs s !! j = Some b -> i <> j -> apart a b;
  rep_counts : no_nmem_handles h = u64 (Z.of_nat (size (controls h))) /\ no_nmem_blocks h = u64 (Z.of_nat (size (nblocks h))) /\ nmem_allocated h = u64 (block_sizes h);
}.

(** ** Access to the structures *)

Lemma run_control {B} n c (k : nmem_control -> M nstore B) h Q : controls h !! n = Some c -> run (k c) h Q -> run (bind (load_control n) k) h Q.
Proof. intros E H. unfold load_control, run, bind. cbn. rewrite E. exact H. Qed.

Lemma run_block {B} p b (k : nmem_block -> M nstore B) h Q : nblocks h !! p = Some b -> run (k b) h Q -> run (bind (load_block p) k) h Q.
Proof. intros E H. unfold load_block, run, bind. cbn. rewrite E. exact H. Qed.

Lemma run_set_control {B} n c f (k : M nstore B) h Q : controls h !! n = Some c -> run k (on_controls (<[n := f c]>) h) Q -> run (update_control n f ;; k) h Q.
Proof. intros E H. unfold update_control, load_control, run, bind. cbn. rewrite E. exact H. Qed.

Lemma run_set_block {B} p b f (k : M nstore B) h Q : nblocks h !! p = Some b -> run k (on_blocks (<[p := f b]>) h) Q -> run (update_block p f ;; k) h Q.
Proof. intros E H. unfold update_block, load_block, run, bind. cbn. rewrite E. exact H. Qed.

(** ** Sizes and counters *)

Lemma block_sizes_insert h p b h' : nblocks h !! p = None -> nblocks h' = <[p := b]> (nblocks h) -> block_sizes h' = b_size b + block_sizes h.
Proof. intros Hp E. unfold block_sizes. rewrite E, map_fold_insert_L; [done| |done]. intros. lia. Qed.

Lemma block_sizes_delete h p b h' : nblocks h !! p = Some b -> nblocks h' = delete p (nblocks h) -> block_sizes h = b_size b + block_sizes h'.
Proof.
  intros Hp E. unfold block_sizes. rewrite E, <- (insert_delete_id (nblocks h) p b Hp) at 1. rewrite map_fold_insert_L; [done| |by rewrite lookup_delete_eq]. intros. lia.
Qed.

Lemma block_sizes_same h h' p b b' : nblocks h !! p = Some b -> b_size b' = b_size b -> nblocks h' = <[p := b']> (nblocks h) -> block_sizes h' = block_sizes h.
Proof.
  intros Hp Hb E. unfold block_sizes. rewrite E, <- insert_delete_eq, map_fold_insert_L; [|intros; lia|by rewrite lookup_delete_eq].
  rewrite <- (insert_delete_id (nblocks h) p b Hp) at 2. rewrite map_fold_insert_L; [lia|intros; lia|by rewrite lookup_delete_eq].
Qed.

Lemma u64_add a b : u64 (u64 a + b) = u64 (a + b).
Proof. unfold u64, wrap. by rewrite Zplus_mod_idemp_l. Qed.

Lemma u64_fits z : 0 <= z < 2 ^ 64 -> u64 z = z.
Proof. apply wrap_small. Qed.

(** The size rounded up. *)
Lemma align_spec size : 0 <= size < SIZE_LIMIT -> size <= align size <= size + 7 /\ align size mod NMEM_ALIGN = 0.
Proof.
  intros Hs. unfold align, NMEM_ALIGN, SIZE_LIMIT in *. change (8 - 1) with 7. rewrite u64_fits by lia.
  change (u64 (Z.lnot 7)) with (2 ^ 64 - 8). assert (Z.land (size + 7) (2 ^ 64 - 8) = (size + 7) / 8 * 8) as ->.
  { apply Z.bits_inj'. intros k Hk. rewrite Z.land_spec. change (2 ^ 64 - 8) with (Z.shiftl (Z.ones 61) 3). change 8 with (2 ^ 3).
    rewrite Z.shiftl_spec, <- Z.shiftl_mul_pow2, Z.shiftl_spec, <- Z.shiftr_div_pow2 by lia.
    destruct (Z.ltb_spec k 3). { rewrite !(Z.testbit_neg_r _ (k - 3)) by lia. by rewrite andb_false_r. }
    rewrite Z.shiftr_spec by lia. replace (k - 3 + 3) with k by lia. destruct (Z.ltb_spec k 64).
    - rewrite Z.ones_spec_low by lia. by rewrite andb_true_r.
    - rewrite Z.ones_spec_high by lia. rewrite andb_false_r. symmetry. apply Z.bits_above_log2; [lia|].
      apply Z.log2_lt_pow2; [lia|]. eapply Z.lt_le_trans; [|apply (Z.pow_le_mono_r 2 64 k); lia]. lia. }
  pose proof (Z.div_mod (size + 7) 8 ltac:(lia)). pose proof (Z.mod_pos_bound (size + 7) 8 ltac:(lia)). split; [lia|]. apply Z_mod_mult.
Qed.

(** ** Pieces of a block *)

Lemma sub_exists {A} (l : list A) i n : 0 <= i -> 0 <= n -> i + n <= zlen l -> exists d, sub l i n = Some d /\ zlen d = n.
Proof. intros H1 H2 H3. rewrite (sub_spec l i n H1 H2 H3). eexists. split; [done|]. unfold zlen in *. rewrite length_take, length_drop. lia. Qed.

(** Memory that nobody has written to. *)
Definition fresh (size : Z) : list (option Z) := repeat None (Z.to_nat size).

Lemma fresh_len size : 0 <= size -> zlen (fresh size) = size.
Proof. intros Hs. unfold fresh. zl. Qed.

Lemma agrees_fresh m : agrees m (fresh (zlen m)).
Proof. unfold fresh, zlen. rewrite Nat2Z.id. induction m; constructor; done. Qed.

(** The next piece of a block is taken. *)
Lemma carve_rep h s own n c p b size id : rep h s own -> controls h !! n = Some c -> nblocks h !! p = Some b -> own !! p = Some n ->
  0 <= size < SIZE_LIMIT -> b_top b + size <= b_size b -> allocs s !! id = None ->
  rep (on_controls (<[n := set_total (u64 (c_total c + size)) c]>) (on_blocks (<[p := set_top (u64 (b_top b + align size)) b]>) h))
    (NSpec (<[id := Alloc n (b_buf b, b_top b) (fresh size)]> (allocs s)) (<[n := u64 (c_total c + size)]> (totals s))) own.
Proof.
  intros R Hn Hp Ho Hs Hfit Hid. destruct (rep_block _ _ _ R p b Hp) as [((l & Hl & Hlen) & Hbs & Hbt & Hal) _].
  destruct (align_spec size Hs) as [Ha1 Ha2]. unfold SIZE_LIMIT, NMEM_ALIGN in *.
  assert (u64 (b_top b + align size) = b_top b + align size) as -> by (apply u64_fits; lia).
  destruct (sub_exists l (b_top b) size) as (m0 & Hm0 & Hml); [lia..|].
  set (b' := set_top (b_top b + align size) b).
  assert (forall q x, <[p := b']> (nblocks h) !! q = Some x -> exists y, nblocks h !! q = Some y /\ b_buf x = b_buf y /\ b_size x = b_size y) as Hback.
  { intros q x. rewrite lookup_insert. case_decide as E; [subst q; intros [= <-]; by exists b|]. intros Hx. by exists x. }
  assert (forall a, alloc_ok h own a -> alloc_ok (on_controls (<[n := set_total (u64 (c_total c + size)) c]>) (on_blocks (<[p := b']>) h)) own a) as Hok.
  { intros a (q & x & m & Hq & Hown & Hbuf & Hm & Hsub & Htop & Haln). destruct (decide (q = p)) as [->|Hne].
    - rewrite Hp in Hq. injection Hq as <-. exists p, b', m. cbn. rewrite lookup_insert_eq. split_and!; try done. lia.
    - exists q, x, m. cbn. by rewrite lookup_insert_ne. }
  constructor; cbn [controls nblocks bufs on_controls on_blocks allocs totals].
  - intros m d. rewrite !lookup_insert. case_decide as E.
    + subst m. intros [= <-]. destruct (rep_pool _ _ _ R n c Hn) as (H0 & Ht & bl & Hbl & Hin). split_and!; [done|done|]. exists bl. split; [|done].
      by eapply segment_update.
    + intros Hm. destruct (rep_pool _ _ _ R m d Hm) as (H0 & Ht & bl & Hbl & Hin). split_and!; [done|done|]. exists bl. split; [|done]. by eapply segment_update.
  - intros m. rewrite !lookup_insert. case_decide; [by eexists|]. apply (rep_totals _ _ _ R).
  - intros q m Hq. rewrite lookup_insert. case_decide; [by eexists|]. by apply (rep_own _ _ _ R q m).
  - intros q x. rewrite lookup_insert. case_decide as E; [|apply (rep_block _ _ _ R)]. subst q. intros [= <-]. split; [|by eexists].
    split; [by exists l|]. cbn. split; [done|]. split; [lia|]. unfold NMEM_ALIGN. rewrite Z.add_mod, Hal, Ha2 by lia. done.
  - intros a Ha. destruct (rep_buf _ _ _ R a Ha) as (q & x & Hq & Hx). destruct (decide (q = p)) as [->|Hne].
    + exists p, b'. rewrite lookup_insert_eq. split; [done|]. cbn. congruence.
    + exists q, x. by rewrite lookup_insert_ne.
  - intros q r x y (x' & Hx & -> & _)%Hback (y' & Hy & -> & _)%Hback. by eapply (rep_bufs _ _ _ R).
  - intros i a. rewrite lookup_insert. case_decide as E; [|intros Hi; by apply Hok, (rep_alloc _ _ _ R i)]. subst i. intros [= <-].
    exists p, b', l. cbn. rewrite lookup_insert_eq, fresh_len by lia. split_and!; try done; [|lia]. exists m0. split; [done|]. rewrite <- Hml. apply agrees_fresh.
  - assert (forall i a, allocs s !! i = Some a -> apart a (Alloc n (b_buf b, b_top b) (fresh size))) as Hnew.
    { intros i a Hi. destruct (rep_alloc _ _ _ R i a Hi) as (q & x & m & Hq & Hown & Hbuf & Hm & Hsub & Htop & Haln). unfold apart. cbn.
      destruct (decide (fst (a_ptr a) = b_buf b)) as [E|E]; [|by left]. right. left. assert (q = p) as -> by (eapply (rep_bufs _ _ _ R); [done|done|congruence]).
      rewrite Hp in Hq. by injection Hq as <-. }
    intros i j a a'. rewrite !lookup_insert. repeat case_decide; subst; try done.
    + intros [= <-] Hj _. destruct (Hnew _ _ Hj) as [?|[?|?]]; [left; congruence|right; by right|right; by left].
    + intros Hi [= <-] _. by eapply Hnew.
    + by apply (rep_apart _ _ _ R).
  - rewrite !map_size_insert_Some by (by eexists). rewrite (block_sizes_same h _ p b b') by done. apply (rep_counts _ _ _ R).
Qed.

(** ** Blocks *)

Lemma own_block h s own p n : rep h s own -> own !! p = Some n -> p <> 0 /\ is_Some (nblocks h !! p).
Proof.
  intros R Hp. destruct (rep_own _ _ _ R p n Hp) as [c Hc]. destruct (rep_pool _ _ _ R n c Hc) as (_ & _ & bl & Hbl & Hin).
  eapply segment_live; [exact Hbl|]. by apply Hin.
Qed.

Lemma size_new {A} (m : gmap Z A) k x : m !! k = None -> Z.of_nat (size (<[k := x]> m)) = Z.of_nat (size m) + 1.
Proof. intros Hk. rewrite map_size_insert_None by done. lia. Qed.

Lemma size_gone {A} (m : gmap Z A) k x : m !! k = Some x -> Z.of_nat (size (delete k m)) = Z.of_nat (size m) - 1.
Proof.
  intros Hk. rewrite (map_size_delete_Some k m) by (by eexists). assert (size m <> 0%nat); [|lia].
  intros E%map_size_empty_inv. subst m. by rewrite lookup_empty in Hk.
Qed.

(** A new block becomes the first one of its pool. *)
Lemma grow_rep h s own n c p buf gsize l : rep h s own -> controls h !! n = Some c -> nblocks h !! p = None -> bufs h !! buf = None -> p <> 0 ->
  zlen l = gsize -> gsize < SIZE_LIMIT ->
  rep (on_controls (<[n := set_blocks p c]>) (on_blocks (<[p := Block buf gsize 0 (c_blocks c)]>) (count 0 1 gsize (on_bufs (<[buf := l]>) h)))) s (<[p := n]> own).
Proof.
  intros R Hn Hp Hb Hp0 Hl Hg. pose proof (zlen_nonneg l).
  assert (own !! p = None) as Hop. { destruct (own !! p) as [m|] eqn:E; [|done]. destruct (own_block h s own p m R E) as [_ [x Hx]]. congruence. }
  assert (forall b, block_ok h b -> block_ok (on_bufs (<[buf := l]>) h) b) as Hbok.
  { intros b ((m & Hm & Hml) & Hrest). split; [|done]. exists m. cbn. rewrite lookup_insert_ne by congruence. done. }
  constructor; cbn [controls nblocks bufs on_controls on_blocks on_bufs count].
  - assert (forall (bl : list Z) m, (forall q, q ∈ bl <-> own !! q = Some m) -> p ∉ bl) as Hnin by (intros bl m Hin Hpb; apply Hin in Hpb; congruence).
    intros m d. rewrite lookup_insert. case_decide as E.
    + subst m. intros [= <-]. destruct (rep_pool _ _ _ R n c Hn) as (H0 & Ht & bl & Hbl & Hin). split_and!; [done|done|]. exists (p :: bl). split.
      * cbn. split; [done|]. split; [done|]. eexists. rewrite lookup_insert_eq. split; [done|]. cbn. apply segment_insert; [by eapply Hnin|done].
      * intros q. rewrite elem_of_cons, lookup_insert, Hin. case_decide; [subst q; split; [done|by left]|]. split; [by intros [?|?]|by right].
    + intros Hm. destruct (rep_pool _ _ _ R m d Hm) as (H0 & Ht & bl & Hbl & Hin). split_and!; [done|done|]. exists bl. split; [apply segment_insert; [by eapply Hnin|done]|].
      intros q. rewrite lookup_insert, Hin. case_decide as E'; [|done]. subst q. rewrite Hop. split; [done|congruence].
  - intros m Hm. rewrite lookup_insert. case_decide; [by eexists|]. by apply (rep_totals _ _ _ R).
  - intros q m. rewrite !lookup_insert. case_decide; [intros [= <-]; rewrite decide_True by done; by eexists|]. intros Hq.
    case_decide; [by eexists|]. by apply (rep_own _ _ _ R q m).
  - intros q x. rewrite !lookup_insert. case_decide as E.
    + intros [= <-]. split; [|by eexists]. split; [exists l; split; [by cbn; rewrite lookup_insert_eq|done]|]. cbn. split; [lia|]. split; [lia|done].
    + intros Hx. destruct (rep_block _ _ _ R q x Hx) as [Hok Hown]. split; [|done]. by apply Hbok.
  - intros a. rewrite lookup_insert. case_decide as E; [subst a; intros _; eexists p, _; by rewrite lookup_insert_eq|].
    intros Ha. destruct (rep_buf _ _ _ R a Ha) as (q & x & Hq & Hx). exists q, x. rewrite lookup_insert_ne by congruence. done.
  - assert (forall q x, nblocks h !! q = Some x -> b_buf x <> buf) as Hnb.
    { intros q x Hx E. destruct (rep_block _ _ _ R q x Hx) as [((m & Hm & _) & _) _]. congruence. }
    intros q r x y. rewrite !lookup_insert. repeat case_decide; subst; try done.
    + intros [= <-] Hy E. cbn in E. by destruct (Hnb r y Hy).
    + intros Hx [= <-] E. cbn in E. by destruct (Hnb q x Hx).
    + by apply (rep_bufs _ _ _ R).
  - intros i a Hi. destruct (rep_alloc _ _ _ R i a Hi) as (q & x & m & Hq & Hown & Hbuf & Hm & Hrest). exists q, x, m. cbn.
    rewrite !lookup_insert_ne by congruence. done.
  - apply (rep_apart _ _ _ R).
  - rewrite map_size_insert_Some by (by eexists). rewrite size_new, (block_sizes_insert h p (Block buf gsize 0 (c_blocks c))) by done.
    destruct (rep_counts _ _ _ R) as (C1 & C2 & C3). cbn. rewrite C1, C2, C3, !u64_add, Z.add_0_r. split_and!; [done|done|f_equal; lia].
Qed.

(** What the first block of a pool holds. *)
Definition head_block (h : nstore) (own : gmap Z Z) (n : Z) (c : nmem_control) (t : Z) (b : nmem_block) (bl : list Z) : Prop :=
  t <> 0 /\ nblocks h !! t = Some b /\ own !! t = Some n /\ chain b_next (nblocks h) (b_next b) bl /\ t ∉ bl /\ forall p, p ∈ t :: bl <-> own !! p = Some n.

Lemma first_block h s own n c : rep h s own -> controls h !! n = Some c -> c_blocks c <> 0 -> exists b bl, head_block h own n c (c_blocks c) b bl.
Proof.
  intros R Hn H0. destruct (rep_pool _ _ _ R n c Hn) as (_ & _ & [|t bl] & Hbl & Hin); [by destruct H0|].
  pose proof (chain_nodup _ _ _ _ Hbl) as Hnd. destruct Hbl as (-> & Ht & b & Hb & Hbl). apply NoDup_cons in Hnd as [Hnd _].
  exists b, bl. split_and!; try done. apply Hin. by left.
Qed.

(** Allocations that are not in a buffer. *)
Definition outside (buf : Z) (s : nspec) : nspec := NSpec (filter (fun '(_, a) => fst (a_ptr a) <> buf) (allocs s)) (totals s).

Lemma outside_Some buf s id a : allocs (outside buf s) !! id = Some a <-> allocs s !! id = Some a /\ fst (a_ptr a) <> buf.
Proof. unfold outside. cbn. by rewrite map_lookup_filter_Some. Qed.

(** The first block of a pool is freed. *)
Lemma drop_rep h s own n c t b bl : rep h s own -> controls h !! n = Some c -> head_block h own n c t b bl ->
  rep (on_blocks (delete t) (on_bufs (delete (b_buf b)) (count 0 (-1) (- b_size b) (on_controls (<[n := set_blocks (b_next b) c]>) h))))
    (outside (b_buf b) s) (delete t own).
Proof.
  intros R Hn (Ht0 & Ht & Hot & Hbl & Hnin & Hin).
  assert (forall q x, nblocks h !! q = Some x -> q <> t -> b_buf x <> b_buf b) as Hother.
  { intros q x Hx Hne E. apply Hne. by eapply (rep_bufs _ _ _ R). }
  constructor; cbn [controls nblocks bufs on_controls on_blocks on_bufs count].
  - intros m d. rewrite lookup_insert. case_decide as E.
    + subst m. intros [= <-]. destruct (rep_pool _ _ _ R n c Hn) as (H0 & Htot & _). split_and!; [done|done|]. exists bl.
      split; [by apply segment_delete|]. intros p. rewrite lookup_delete_Some, <- Hin, elem_of_cons. split; [|by intros [? [?|?]]]. intros Hp. split; [congruence|by right].
    + intros Hm. destruct (rep_pool _ _ _ R m d Hm) as (H0 & Htot & bl' & Hbl' & Hin'). split_and!; [done|done|]. exists bl'.
      assert (t ∉ bl') as Hnt by (rewrite Hin', Hot; congruence). split; [by apply segment_delete|]. intros p. rewrite lookup_delete_Some, Hin'. split; [|by intros [_ ?]].
      intros Hp. split; [|done]. intros <-. congruence.
  - intros m Hm. rewrite lookup_insert. case_decide; [by eexists|]. by apply (rep_totals _ _ _ R).
  - intros q m [_ Hq]%lookup_delete_Some. rewrite lookup_insert. case_decide; [by eexists|]. by apply (rep_own _ _ _ R q m).
  - intros q x [Hne Hx]%lookup_delete_Some. destruct (rep_block _ _ _ R q x Hx) as [((l & Hl & Hlen) & Hrest) Hown]. split; [|by rewrite lookup_delete_ne].
    split; [|done]. exists l. split; [|done]. cbn. rewrite lookup_delete_ne; [done|]. intros E. by apply (Hother q x).
  - intros a [l [Hne Hl]%lookup_delete_Some]. destruct (rep_buf _ _ _ R a) as (q & x & Hq & Hx); [by eexists|]. exists q, x.
    rewrite lookup_delete_ne by congruence. done.
  - intros q r x y [_ Hx]%lookup_delete_Some [_ Hy]%lookup_delete_Some. by apply (rep_bufs _ _ _ R).
  - intros i a [Hi Hne]%outside_Some. destruct (rep_alloc _ _ _ R i a Hi) as (q & x & m & Hq & Hown & Hbuf & Hm & Hrest). exists q, x, m. cbn.
    rewrite !lookup_delete_ne by congruence. done.
  - intros i j a a' [Hi _]%outside_Some [Hj _]%outside_Some. by apply (rep_apart _ _ _ R i j).
  - rewrite map_size_insert_Some by (by eexists). rewrite (size_gone _ t b) by done.
    destruct (rep_counts _ _ _ R) as (C1 & C2 & C3). rewrite (block_sizes_delete h t b (on_blocks (delete t) h) Ht eq_refl) in C3.
    split_and!; [cbn; by rewrite C1, u64_add, Z.add_0_r|cbn; by rewrite C2, u64_add|].
    change (u64 (nmem_allocated h + - b_size b) = u64 (block_sizes (on_blocks (delete t) h))). rewrite C3, u64_add. f_equal. rewrite Z.add_opp_r. apply Z.add_simpl_l.
Qed.

(** The first block of a pool goes to another pool. *)
Definition moved_to (buf dst : Z) (s : nspec) : nspec :=
  NSpec ((fun a => if decide (fst (a_ptr a) = buf) then Alloc dst (a_ptr a) (a_data a) else a) <$> allocs s) (totals s).

Lemma moved_Some buf dst s id a : allocs (moved_to buf dst s) !! id = Some a <->
  exists a', allocs s !! id = Some a' /\ a = if decide (fst (a_ptr a') = buf) then Alloc dst (a_ptr a') (a_data a') else a'.
Proof. unfold moved_to. cbn. rewrite lookup_fmap_Some. naive_solver. Qed.

Lemma moved_same buf dst s id a : allocs (moved_to buf dst s) !! id = Some a -> exists a', allocs s !! id = Some a' /\ a_ptr a = a_ptr a' /\ a_data a = a_data a'.
Proof. intros (a' & Ha & ->)%moved_Some. exists a'. split; [done|]. by case_decide. Qed.

Lemma move_rep h s own src dst c d t b bl : rep h s own -> src <> dst -> controls h !! src = Some c -> controls h !! dst = Some d -> head_block h own src c t b bl ->
  rep (on_controls (<[dst := set_blocks t d]>) (on_blocks (<[t := set_bnext (c_blocks d) b]>) (on_controls (<[src := set_blocks (b_next b) c]>) h)))
    (moved_to (b_buf b) dst s) (<[t := dst]> own).
Proof.
  intros R Hsd Hsrc Hdst (Ht0 & Ht & Hot & Hbl & Hnin & Hin). set (b' := set_bnext (c_blocks d) b).
  assert (forall m c', controls h !! m = Some c' -> m <> src -> exists bl', chain b_next (<[t := b']> (nblocks h)) (c_blocks c') bl' /\ t ∉ bl' /\ forall p, p ∈ bl' <-> own !! p = Some m) as Hrest.
  { intros m c' Hm Hne. destruct (rep_pool _ _ _ R m c' Hm) as (_ & _ & bl' & Hbl' & Hin'). exists bl'. assert (t ∉ bl') as Hnt by (rewrite Hin', Hot; congruence).
    split; [by apply segment_insert|done]. }
  assert (forall q x, <[t := b']> (nblocks h) !! q = Some x -> exists y, nblocks h !! q = Some y /\ b_buf x = b_buf y /\ (block_ok h y -> block_ok h x)) as Hback.
  { intros q x. rewrite lookup_insert. case_decide as E; [subst q; intros [= <-]; by exists b|]. intros Hx. by exists x. }
  constructor; cbn [controls nblocks bufs on_controls on_blocks].
  - intros m e. rewrite lookup_insert. case_decide as E.
    + subst m. intros [= <-]. destruct (rep_pool _ _ _ R dst d Hdst) as (H0 & Htot & _). destruct (Hrest dst d Hdst) as (bl' & Hbl' & Hnt & Hin'); [congruence|].
      split_and!; [done|done|]. exists (t :: bl'). split.
      * cbn. split; [done|]. split; [done|]. exists b'. rewrite lookup_insert_eq. by split.
      * intros p. rewrite elem_of_cons, lookup_insert, Hin'. case_decide; [subst p; split; [done|by left]|]. split; [by intros [?|?]|by right].
    + rewrite lookup_insert. case_decide as E2.
      * subst m. intros [= <-]. destruct (rep_pool _ _ _ R src c Hsrc) as (H0 & Htot & _). split_and!; [done|done|]. exists bl. split; [by apply segment_insert|].
        intros p. rewrite lookup_insert. case_decide as E3; [subst p; split; [done|congruence]|]. rewrite <- Hin, elem_of_cons. split; [by right|]. by intros [?|?].
      * intros Hm. destruct (rep_pool _ _ _ R m e Hm) as (H0 & Htot & _). destruct (Hrest m e Hm) as (bl' & Hbl' & Hnt & Hin'); [congruence|].
        split_and!; [done|done|]. exists bl'. split; [done|]. intros p. rewrite lookup_insert. case_decide as E3; [subst p; split; [done|congruence]|done].
  - intros m Hm. rewrite !lookup_insert. repeat case_decide; [by eexists..|]. by apply (rep_totals _ _ _ R).
  - intros q m. rewrite !lookup_insert. case_decide; [intros [= <-]; rewrite decide_True by done; by eexists|]. intros Hq.
    repeat case_decide; [by eexists..|]. by apply (rep_own _ _ _ R q m).
  - intros q x Hx. pose proof (Hback q x Hx) as (y & Hy & _ & Hok). destruct (rep_block _ _ _ R q y Hy) as [Hyok Hown]. split; [by apply Hok|].
    rewrite lookup_insert. case_decide; [by eexists|done].
  - intros a Ha. destruct (rep_buf _ _ _ R a Ha) as (q & x & Hq & Hx). destruct (decide (q = t)) as [->|Hne].
    + exists t, b'. rewrite lookup_insert_eq. split; [done|]. cbn. congruence.
    + exists q, x. by rewrite lookup_insert_ne.
  - intros q r x y (x' & Hx & -> & _)%Hback (y' & Hy & -> & _)%Hback. by eapply (rep_bufs _ _ _ R).
  - intros i a (a' & Hi & ->)%moved_Some. destruct (rep_alloc _ _ _ R i a' Hi) as (q & x & m & Hq & Hown & Hbuf & Hm & Hrest').
    destruct (decide (q = t)) as [->|Hne].
    + rewrite Ht in Hq. injection Hq as <-. rewrite decide_True by done. exists t, b', m. cbn. rewrite !lookup_insert_eq. done.
    + rewrite decide_False by (intros E; apply Hne; eapply (rep_bufs _ _ _ R); [done|done|congruence]). exists q, x, m. cbn. rewrite !lookup_insert_ne by done. done.
  - intros i j a a' (a1 & Hi & E1 & E2)%moved_same (a2 & Hj & E3 & E4)%moved_same Hne. unfold apart. rewrite E1, E2, E3, E4. by apply (rep_apart _ _ _ R i j).
  - rewrite map_size_insert_Some by (rewrite lookup_insert_ne by done; by eexists). rewrite !map_size_insert_Some by (by eexists).
    rewrite (block_sizes_same h _ t b b') by done. apply (rep_counts _ _ _ R).
Qed.

(** ** The operations *)

Lemma total_rep h s own n c tot : rep h s own -> controls h !! n = Some c ->
  rep (on_controls (<[n := set_total tot c]>) h) (NSpec (allocs s) (<[n := tot]> (totals s))) own.
Proof.
  intros R Hn. constructor; cbn [controls nblocks bufs on_controls allocs totals]; try apply R.
  - intros m d. rewrite !lookup_insert. case_decide as E; [|apply R]. subst m. intros [= <-]. by destruct (rep_pool _ _ _ R n c Hn) as (H0 & _ & Hbl).
  - intros m. rewrite !lookup_insert. case_decide; [by eexists|]. apply R.
  - intros q m Hq. rewrite lookup_insert. case_decide; [by eexists|]. by apply (rep_own _ _ _ R q m).
  - rewrite map_size_insert_Some by (by eexists). apply (rep_counts _ _ _ R).
Qed.

Lemma rep_size h s own n c : rep h s own -> controls h !! n = Some c -> exists bl, chain b_next (nblocks h) (c_blocks c) bl /\ (length bl < S (size (nblocks h)))%nat.
Proof. intros R Hn. destruct (rep_pool _ _ _ R n c Hn) as (_ & _ & bl & Hbl & _). exists bl. split; [done|]. pose proof (chain_size _ _ _ _ Hbl). lia. Qed.

(** Without blocks, a pool has no allocations. *)
Lemma no_blocks h s own n c id a : rep h s own -> controls h !! n = Some c -> c_blocks c = 0 -> allocs s !! id = Some a -> a_pool a <> n.
Proof.
  intros R Hn H0 Ha Hp. destruct (rep_alloc _ _ _ R id a Ha) as (p & b & l & _ & Hown & _). destruct (rep_pool _ _ _ R n c Hn) as (_ & _ & bl & Hbl & Hin).
  rewrite H0 in Hbl. apply chain_null in Hbl as ->. subst n. apply Hin in Hown. by apply not_elem_of_nil in Hown.
Qed.

(** The allocations of a block are those of its pool. *)
Lemma in_block h s own p n b id a : rep h s own -> nblocks h !! p = Some b -> own !! p = Some n -> allocs s !! id = Some a -> fst (a_ptr a) = b_buf b -> a_pool a = n.
Proof.
  intros R Hp Hown Ha E. destruct (rep_alloc _ _ _ R id a Ha) as (q & x & l & Hq & Hqo & Hbuf & _).
  assert (q = p) as -> by (eapply (rep_bufs _ _ _ R); [done|done|congruence]). congruence.
Qed.

Lemma reset_loop_rep n : forall bl fuel h s own c, rep h s own -> controls h !! n = Some c -> chain b_next (nblocks h) (c_blocks c) bl -> (length bl < fuel)%nat ->
  run (reset_loop fuel n) h (fun _ h' => exists s' own' c', rep h' s' own' /\ controls h' !! n = Some c' /\ c_blocks c' = 0 /\ totals s' = totals s /\
    forall id a, (allocs s' !! id = Some a -> allocs s !! id = Some a) /\ (allocs s !! id = Some a -> a_pool a <> n -> allocs s' !! id = Some a)).
Proof.
  induction bl as [|t bl IH]; intros [|fuel] h s own c R Hn Hbl Hf; try (cbn in Hf; lia); cbn [reset_loop]; eapply run_control; try exact Hn.
  { destruct (Z.eqb_spec (c_blocks c) 0) as [E|E]; [|by cbn in Hbl]. apply run_ret. exists s, own, c. by split_and!. }
  pose proof Hbl as (E & Ht & b & Hb & Hbl'). rewrite E. rewrite (proj2 (Z.eqb_neq t 0) Ht). eapply run_block; [exact Hb|].
  destruct (first_block h s own n c R Hn ltac:(congruence)) as (b1 & bl1 & Hh). rewrite E in Hh. pose proof Hh as (_ & Hb1 & Hown & Hbl1 & Hnin & _). rewrite Hb in Hb1. injection Hb1 as <-.
  assert (bl1 = bl) as -> by by eapply chain_unique. eapply run_set_control; [exact Hn|].
  unfold free_block. apply (run_bind _ _ _ (fun _ h' => h' = on_blocks (delete t) (on_bufs (delete (b_buf b)) (count 0 (-1) (- b_size b) (on_controls (<[n := set_blocks (b_next b) c]>) h))))).
  { eapply run_block; [exact Hb|]. apply run_modify. destruct (rep_block _ _ _ R t b Hb) as [((l & Hl & _) & _) _].
    unfold run, xfree_buf, bind. cbn. rewrite Hl. by eexists _, _. }
  intros [] h1 ->. pose proof (drop_rep _ _ _ _ _ _ _ _ R Hn Hh) as R1.
  eapply run_weaken; [eapply (IH fuel _ _ _ (set_blocks (b_next b) c) R1); [cbn; apply lookup_insert_eq|cbn; by apply segment_delete|cbn in Hf; lia]|].
  intros [] h' (s' & own' & c' & R' & Hc' & H0 & Htot & Hall). exists s', own', c'. split_and!; try done. intros id a. destruct (Hall id a) as [H1 H2]. split.
  - intros Ha. by apply H1, outside_Some in Ha as [? _].
  - intros Ha Hp. apply H2; [|done]. apply outside_Some. split; [done|]. intros Eb. apply Hp. by apply (in_block h s own t n b id).
Qed.

(** The allocations of other pools. *)
Definition without (n : Z) (m : gmap Z alloc) : gmap Z alloc := filter (fun '(_, a) => a_pool a <> n) m.

Lemma reset_rep h s own n c : rep h s own -> controls h !! n = Some c ->
  run (nmem_reset n) h (fun _ h' => exists own' c', rep h' (NSpec (without n (allocs s)) (<[n := 0]> (totals s))) own' /\ controls h' !! n = Some c' /\ c_blocks c' = 0).
Proof.
  intros R Hn. destruct (rep_pool _ _ _ R n c Hn) as (H0 & _). unfold nmem_reset. rewrite (proj2 (Z.eqb_neq n 0) H0). apply run_get.
  destruct (rep_size h s own n c R Hn) as (bl & Hbl & Hsz). eapply run_bind; [by eapply reset_loop_rep|].
  intros [] h' (s' & own' & c' & R' & Hc' & Hb & Htot & Hall).
  assert (allocs s' = without n (allocs s)) as Es.
  { apply map_eq. intros id. apply option_eq. intros a. unfold without. rewrite map_lookup_filter_Some. destruct (Hall id a) as [H1 H2]. split.
    - intros Ha. split; [by apply H1|]. by eapply no_blocks.
    - intros [Ha Hp]. by apply H2. }
  eapply run_is; [unfold update_control, load_control, bind; cbn; rewrite Hc'; reflexivity|]. exists own', (set_total 0 c'). rewrite <- Es, <- Htot.
  split_and!; [by apply total_rep|cbn; apply lookup_insert_eq|done].
Qed.

Lemma destroy_rep h s own n c : rep h s own -> controls h !! n = Some c ->
  run (nmem_destroy n) h (fun _ h' => exists own', rep h' (NSpec (without n (allocs s)) (delete n (totals s))) own').
Proof.
  intros R Hn. destruct (rep_pool _ _ _ R n c Hn) as (H0 & _). unfold nmem_destroy. rewrite (proj2 (Z.eqb_neq n 0) H0).
  eapply run_bind; [by eapply reset_rep|]. intros [] h1 (own' & c' & R' & Hc' & Hb). eapply run_control; [exact Hc'|]. apply run_modify.
  eapply run_is; [done|]. exists own'.
  assert (forall p m, own' !! p = Some m -> m <> n) as Hno.
  { intros p m Hp ->. destruct (rep_pool _ _ _ R' n c' Hc') as (_ & _ & bl & Hbl & Hin). rewrite Hb in Hbl. apply chain_null in Hbl as ->.
    apply Hin in Hp. by apply not_elem_of_nil in Hp. }
  constructor; cbn [controls nblocks bufs on_controls count allocs totals]; try apply R'.
  - intros m d [Hne Hd]%lookup_delete_Some. destruct (rep_pool _ _ _ R' m d Hd) as (Hm & Ht & Hbl). cbn in Ht. rewrite lookup_insert_ne in Ht by done.
    rewrite lookup_delete_ne by done. done.
  - intros m [x [Hne Hx]%lookup_delete_Some]. rewrite lookup_delete_ne by done. apply (rep_totals _ _ _ R'). cbn. rewrite lookup_insert_ne by done. by eexists.
  - intros p m Hp. rewrite lookup_delete_ne by (intros <-; by apply (Hno p n)). by apply (rep_own _ _ _ R' p m).
  - destruct (rep_counts _ _ _ R') as (C1 & C2 & C3). rewrite (size_gone _ n c') by done. split_and!; [cbn; by rewrite C1, u64_add|cbn; by rewrite C2, u64_add, Z.add_0_r|].
    change (u64 (nmem_allocated h1 + 0) = u64 (block_sizes h1)). by rewrite C3, u64_add, Z.add_0_r.
Qed.

Section malloc.
Context `{Allocator} (junk : Z).

Lemma create_rep h s own : rep h s own ->
  run nmem_create h (fun n h' => n <> 0 /\ totals s !! n = None /\ rep h' (NSpec (allocs s) (<[n := 0]> (totals s))) own).
Proof.
  intros R. unfold nmem_create. apply run_modify, run_get. cbn [controls count]. set (n := malloc _). apply run_modify, run_ret.
  assert (controls h !! n = None) as Hn by (apply not_elem_of_dom, malloc_fresh). assert (n <> 0) as Hn0 by apply malloc_null.
  assert (totals s !! n = None) as Ht. { destruct (totals s !! n) eqn:E; [|done]. destruct (rep_totals _ _ _ R n) as [c Hc]; [by eexists|]. congruence. }
  split_and!; [done|done|]. constructor; cbn [controls nblocks bufs on_controls count allocs totals]; try apply R.
  - intros m d. rewrite !lookup_insert. case_decide as E; [|apply R]. subst m. intros [= <-]. split_and!; [done|done|]. exists []. split; [done|].
    intros p. split; [by intros ?%not_elem_of_nil|]. intros Hp. destruct (rep_own _ _ _ R p n Hp) as [x Hx]. congruence.
  - intros m. rewrite !lookup_insert. case_decide; [by eexists|]. apply R.
  - intros q m Hq. rewrite lookup_insert. case_decide; [by eexists|]. by apply (rep_own _ _ _ R q m).
  - destruct (rep_counts _ _ _ R) as (C1 & C2 & C3). rewrite size_new by done. split_and!; [cbn; by rewrite C1, u64_add|cbn; by rewrite C2, u64_add, Z.add_0_r|].
    change (u64 (nmem_allocated h + 0) = u64 (block_sizes h)). by rewrite C3, u64_add, Z.add_0_r.
Qed.

Lemma get_block_runs h size : let gsize := if NMEM_CHUNK <? size then size else NMEM_CHUNK in
  run (get_block junk size) h (fun p h' => exists buf, nblocks h !! p = None /\ bufs h !! buf = None /\ p <> 0 /\
    h' = count 0 1 gsize (on_blocks (<[p := Block buf gsize 0 junk]>) (on_bufs (<[buf := repeat junk (Z.to_nat gsize)]>) h))).
Proof.
  intros gsize. unfold get_block. apply run_get, run_modify, run_modify, run_modify, run_ret. exists (malloc (dom (bufs h))).
  split_and!; [apply not_elem_of_dom, malloc_fresh|apply not_elem_of_dom, malloc_fresh|apply malloc_null|done].
Qed.

(** A block with room for the size: the first one of the pool, or a new one. *)
Lemma room_rep h s own n c size : rep h s own -> controls h !! n = Some c -> 0 <= size < SIZE_LIMIT ->
  run (let* p := get_block junk size in
       let* c := load_control n in
       update_block p (set_bnext (c_blocks c)) ;;
       update_control n (set_blocks p) ;;
       ret p) h (fun p h' => exists own' c' b, rep h' s own' /\ controls h' !! n = Some c' /\ c_total c' = c_total c /\ nblocks h' !! p = Some b /\ own' !! p = Some n /\ b_top b + size <= b_size b).
Proof.
  intros R Hn Hs. eapply run_bind; [apply get_block_runs|]. intros p h1 (buf & Hp & Hb & Hp0 & ->). set (gsize := if NMEM_CHUNK <? size then size else NMEM_CHUNK).
  assert (size <= gsize < SIZE_LIMIT /\ 0 <= gsize) as Hg by (unfold gsize, SIZE_LIMIT, NMEM_CHUNK in *; destruct (Z.ltb_spec (4 * 1024) size); lia).
  eapply run_control; [exact Hn|]. eapply run_set_block; [cbn; apply lookup_insert_eq|]. eapply run_set_control; [exact Hn|]. apply run_ret.
  pose proof (grow_rep h s own n c p buf gsize (repeat junk (Z.to_nat gsize)) R Hn Hp Hb Hp0 ltac:(zl) ltac:(lia)) as R1.
  exists (<[p := n]> own), (set_blocks p c), (Block buf gsize 0 (c_blocks c)). split_and!.
  - unfold on_controls, on_blocks, on_bufs, count in *. cbn in *. by rewrite insert_insert_eq.
  - cbn. apply lookup_insert_eq.
  - done.
  - cbn. by rewrite lookup_insert_eq.
  - apply lookup_insert_eq.
  - cbn. lia.
Qed.

Lemma malloc_rep h s own n c size id : rep h s own -> controls h !! n = Some c -> 0 <= size < SIZE_LIMIT -> allocs s !! id = None ->
  run (nmem_malloc junk n size) h (fun p h' => snd p mod NMEM_ALIGN = 0 /\ exists own',
    rep h' (NSpec (<[id := Alloc n p (fresh size)]> (allocs s)) (<[n := u64 (c_total c + size)]> (totals s))) own').
Proof.
  intros R Hn Hs Hid. destruct (rep_pool _ _ _ R n c Hn) as (H0 & _). unfold nmem_malloc. rewrite (proj2 (Z.eqb_neq n 0) H0). eapply run_control; [exact Hn|].
  apply (run_bind _ _ _ (fun p h' => h' = h /\ (p <> 0 -> exists b, nblocks h !! p = Some b /\ own !! p = Some n /\ b_top b + size <= b_size b))).
  { destruct (Z.eqb_spec (c_blocks c) 0) as [E|E]; [by apply run_ret|]. destruct (first_block h s own n c R Hn E) as (b & bl & _ & Hb & Hown & _).
    eapply run_block; [exact Hb|]. apply run_ret. split; [done|]. destruct (rep_block _ _ _ R _ b Hb) as [(_ & Hbs & Hbt & _) _]. unfold SIZE_LIMIT in *.
    rewrite u64_fits by lia. destruct (Z.ltb_spec (b_size b) (size + b_top b)); [done|]. intros _. exists b. split_and!; [done|done|lia]. }
  intros p h1 [-> Hp].
  eapply run_bind; [instantiate (1 := fun p h' => exists own' c' b, rep h' s own' /\ controls h' !! n = Some c' /\ c_total c' = c_total c /\ nblocks h' !! p = Some b /\ own' !! p = Some n /\ b_top b + size <= b_size b)|].
  { destruct (Z.eqb_spec p 0) as [->|Hp0]; [by apply room_rep with (own := own)|]. apply run_ret. destruct (Hp Hp0) as (b & Hb & Hown & Hfit). by exists own, c, b. }
  intros q h1 (own' & c' & b & R1 & Hc' & Ht & Hb & Hown & Hfit). eapply run_block; [exact Hb|]. eapply run_set_block; [exact Hb|].
  eapply run_control; [exact Hc'|]. eapply run_set_control; [exact Hc'|]. apply run_ret. split; [by destruct (rep_block _ _ _ R1 q b Hb) as [(_ & _ & _ & ?) _]|].
  exists own'. rewrite <- Ht. by apply carve_rep.
Qed.
End malloc.

(** *** Transfer *)

Lemma transfer_loop_rep dst src : dst <> src -> forall bl fuel h s own c d, rep h s own -> controls h !! src = Some c -> controls h !! dst = Some d ->
  chain b_next (nblocks h) (c_blocks c) bl -> (length bl < fuel)%nat ->
  run (transfer_loop fuel dst src) h (fun _ h' => exists s' own' c' d', rep h' s' own' /\ controls h' !! src = Some c' /\ controls h' !! dst = Some d' /\
    c_blocks c' = 0 /\ c_total c' = c_total c /\ c_total d' = c_total d /\ totals s' = totals s /\
    forall id, match allocs s !! id with
               | None => allocs s' !! id = None
               | Some a => allocs s' !! id = Some a \/ a_pool a = src /\ allocs s' !! id = Some (Alloc dst (a_ptr a) (a_data a))
               end).
Proof.
  intros Hne. induction bl as [|t bl IH]; intros [|fuel] h s own c d R Hc Hd Hbl Hf; try (cbn in Hf; lia); cbn [transfer_loop]; eapply run_control; try exact Hc.
  { destruct (Z.eqb_spec (c_blocks c) 0) as [E|E]; [|by cbn in Hbl]. apply run_ret. exists s, own, c, d. split_and!; try done. intros id. destruct (allocs s !! id); [by left|done]. }
  pose proof Hbl as (E & Ht & b & Hb & Hbl'). rewrite E. rewrite (proj2 (Z.eqb_neq t 0) Ht). eapply run_block; [exact Hb|].
  destruct (first_block h s own src c R Hc ltac:(congruence)) as (b1 & bl1 & Hh). rewrite E in Hh. pose proof Hh as (_ & Hb1 & Hown & Hbl1 & Hnin & _). rewrite Hb in Hb1. injection Hb1 as <-.
  assert (bl1 = bl) as -> by by eapply chain_unique. eapply run_set_control; [exact Hc|].
  assert (controls (on_controls (<[src := set_blocks (b_next b) c]>) h) !! dst = Some d) as Hd1 by (cbn; by rewrite lookup_insert_ne).
  eapply run_control; [exact Hd1|]. eapply run_set_block; [exact Hb|]. eapply run_set_control; [exact Hd1|].
  pose proof (move_rep _ _ _ src dst c d t b bl R ltac:(done) Hc Hd Hh) as R1.
  eapply run_weaken; [eapply (IH fuel _ _ _ (set_blocks (b_next b) c) (set_blocks t d) R1)|].
  - cbn. rewrite lookup_insert_ne by done. apply lookup_insert_eq.
  - cbn. apply lookup_insert_eq.
  - cbn. by apply segment_insert.
  - cbn in Hf. lia.
  - intros [] h' (s' & own' & c' & d' & R' & Hc' & Hd' & H0 & Htc & Htd & Htot & Hall). exists s', own', c', d'. split_and!; try done.
    intros id. specialize (Hall id). unfold moved_to in Hall. cbn in Hall. rewrite lookup_fmap in Hall. destruct (allocs s !! id) as [a|] eqn:Ea; [|done]. cbn in Hall.
    case_decide as Eb; [|done]. right. split; [by apply (in_block h s own t src b id)|]. cbn in Hall. destruct Hall as [?|[? _]]; [done|congruence].
Qed.

(** The allocations of [src] belong to [dst]. *)
Definition handed (dst src : Z) (a : alloc) : alloc := if decide (a_pool a = src) then Alloc dst (a_ptr a) (a_data a) else a.

Lemma transfer_rep h s own dst src c d : rep h s own -> dst <> src -> controls h !! src = Some c -> controls h !! dst = Some d ->
  run (nmem_transfer dst src) h (fun _ h' => exists own', rep h' (NSpec (handed dst src <$> allocs s) (<[src := 0]> (<[dst := u64 (c_total d + c_total c)]> (totals s)))) own').
Proof.
  intros R Hne Hc Hd. unfold nmem_transfer. apply run_get. destruct (rep_size h s own src c R Hc) as (bl & Hbl & Hsz).
  eapply run_bind; [by eapply (transfer_loop_rep dst src Hne bl)|].
  intros [] h' (s' & own' & c' & d' & R' & Hc' & Hd' & H0 & Htc & Htd & Htot & Hall). eapply run_control; [exact Hc'|]. eapply run_control; [exact Hd'|].
  eapply run_set_control; [exact Hd'|]. assert (controls (on_controls (<[dst := set_total (u64 (c_total d' + c_total c')) d']>) h') !! src = Some c') as Hc1 by (cbn; by rewrite lookup_insert_ne).
  eapply run_is; [unfold update_control, load_control, bind; cbn -[controls on_controls]; rewrite Hc1; reflexivity|]. exists own'.
  assert (allocs s' = handed dst src <$> allocs s) as Es.
  { apply map_eq. intros id. rewrite lookup_fmap. specialize (Hall id). destruct (allocs s !! id) as [a|]; [|done]. cbn. unfold handed.
    destruct Hall as [Ha|[Hp Ha]]; rewrite Ha; case_decide as E; [|done|done|done]. by destruct (no_blocks h' s' own' src c' id a R' Hc' H0 Ha). }
  rewrite <- Es, <- Htot, <- Htc, <- Htd. pose proof (total_rep h' s' own' dst d' (u64 (c_total d' + c_total c')) R' Hd') as R1. exact (total_rep _ _ _ src c' 0 R1 Hc1).
Qed.

(** *** Reading and writing *)

Lemma sub_sub {A} (l m xs : list A) i n off k : sub l i n = Some m -> sub m off k = Some xs -> sub l (i + off) k = Some xs.
Proof.
  intros (H1 & H2 & H3 & H4)%sub_iff (G1 & G2 & G3 & G4)%sub_iff. apply sub_iff. split_and!; [lia|done|lia|]. intros j Hj.
  rewrite G4, H4 by lia. f_equal. lia.
Qed.

Lemma agrees_splice m d off xs m' : agrees m d -> splice m off xs = Some m' -> exists d', splice d off (Some <$> xs) = Some d' /\ agrees m' d'.
Proof.
  intros Ha Hs. pose proof (Forall2_length _ _ _ Ha) as Hl. unfold splice in *. destruct (_ && _) eqn:E; [|done].
  apply andb_true_iff in E as [E1 E2]. rewrite E1. assert (zlen (Some <$> xs) = zlen xs) as Hx by (unfold zlen; by rewrite length_fmap).
  assert (zlen m = zlen d) as Hz by (unfold zlen; lia). rewrite Hx, <- Hz, E2. eexists. split; [done|]. injection Hs as <-. rewrite length_fmap.
  apply Forall2_app; [by apply Forall2_take|]. apply Forall2_app; [|by apply Forall2_drop]. apply Forall2_fmap_r, Forall_Forall2_diag, Forall_forall. intros x _ y. by intros [= <-].
Qed.

Lemma agrees_sub m d off n xs : agrees m d -> sub d off n = Some (Some <$> xs) -> sub m off n = Some xs.
Proof.
  intros Ha Hs. pose proof (Forall2_length _ _ _ Ha) as Hl. unfold sub in *. assert (zlen m = zlen d) as -> by (unfold zlen; lia).
  destruct (_ && _); [|done]. injection Hs as Hs. f_equal. apply (Forall2_drop _ _ _ (Z.to_nat off)) in Ha. apply (Forall2_take _ _ _ (Z.to_nat n)) in Ha.
  rewrite Hs in Ha. apply Forall2_fmap_r in Ha. clear Hs. induction Ha as [|x y k ys H _ IH]; [done|]. by rewrite (H y eq_refl), IH.
Qed.

Lemma write_rep h s own id a off xs : rep h s own -> allocs s !! id = Some a -> 0 <= off -> off + zlen xs <= zlen (a_data a) ->
  run (write_at (fst (a_ptr a), snd (a_ptr a) + off) xs) h (fun _ h' => exists data, splice (a_data a) off (Some <$> xs) = Some data /\
    rep h' (NSpec (<[id := Alloc (a_pool a) (a_ptr a) data]> (allocs s)) (totals s)) own).
Proof.
  intros R Ha Ho Hx. destruct (rep_alloc _ _ _ R id a Ha) as (p & b & l & Hp & Hown & Hbuf & Hl & (m & Hm & Hag) & Htop & Hal).
  pose proof (proj1 (sub_iff _ _ _ _) Hm) as (M1 & M2 & M3 & _). assert (exists l', splice l (snd (a_ptr a) + off) xs = Some l') as (l' & Hl') by (eexists; apply splice_spec; lia).
  unfold write_at. apply run_get. cbn [fst snd]. eapply run_lift; [exact Hl|]. eapply run_lift; [exact Hl'|]. eapply run_is; [done|].
  destruct (sub_splice_in l l' m xs _ _ off Hm Ho Hx Hl') as (m' & Hm' & Hsub'). destruct (agrees_splice m (a_data a) off xs m' Hag Hm') as (data & Hdata & Hag').
  exists data. split; [done|]. pose proof (splice_zlen _ _ _ _ Hl') as Hlen. pose proof (splice_zlen _ _ _ _ Hdata) as Hdl.
  constructor; cbn [controls nblocks bufs on_bufs allocs totals]; try apply R.
  - intros q x Hq. destruct (rep_block _ _ _ R q x Hq) as [((k & Hk & Hkl) & Hrest) Hqo]. split; [|done]. split; [|done]. cbn. rewrite lookup_insert.
    case_decide as E; [|by exists k]. exists l'. split; [done|]. rewrite <- Hkl, Hlen. congruence.
  - intros c. rewrite lookup_insert. case_decide as E; [|apply R]. subst c. intros _. by exists p, b.
  - intros j a'. rewrite lookup_insert. case_decide as E.
    + subst j. intros [= <-]. exists p, b, l'. cbn. rewrite lookup_insert_eq, Hdl. split_and!; try done. by exists m'.
    + intros Hj. destruct (rep_alloc _ _ _ R j a' Hj) as (q & x & k & Hq & Hqo & Hqb & Hk & (mk & Hmk & Hagk) & Hrest). destruct (decide (fst (a_ptr a') = fst (a_ptr a))) as [Eb|Eb].
      * exists q, x, l'. cbn. rewrite Eb, lookup_insert_eq. split; [done|]. split; [done|]. split; [congruence|]. split; [done|]. split; [|done]. exists mk. split; [|done].
        assert (k = l) as -> by congruence. eapply sub_splice_out; [exact Hmk|exact Hl'|]. pose proof (zlen_nonneg xs).
        destruct (rep_apart _ _ _ R j id a' a Hj Ha) as [?|[?|?]]; [congruence|done|left; lia|right; lia].
      * exists q, x, k. cbn. rewrite lookup_insert_ne by done. do 4 (split; [done|]). split; [by exists mk|done].
  - intros i j a1 a2. rewrite !lookup_insert. repeat case_decide; subst; try done.
    + intros [= <-] Hj Hne. pose proof (rep_apart _ _ _ R i j a a2 Ha Hj Hne). unfold apart in *. cbn. by rewrite Hdl.
    + intros Hi [= <-] Hne. pose proof (rep_apart _ _ _ R i j a1 a Hi Ha Hne). unfold apart in *. cbn. by rewrite Hdl.
    + by apply (rep_apart _ _ _ R).
Qed.

Lemma read_rep h s own id a off n xs : rep h s own -> allocs s !! id = Some a -> sub (a_data a) off n = Some (Some <$> xs) ->
  read_at (fst (a_ptr a), snd (a_ptr a) + off) n h = Some (xs, h).
Proof.
  intros R Ha Hs. destruct (rep_alloc _ _ _ R id a Ha) as (p & b & l & Hp & Hown & Hbuf & Hl & (m & Hm & Hag) & _).
  pose proof (agrees_sub m (a_data a) off n xs Hag Hs) as Hx. unfold read_at, bind, get. cbn [fst snd]. rewrite Hl. cbn. by rewrite (sub_sub _ _ _ _ _ _ _ Hm Hx).
Qed.

Section client.
Context `{Allocator} (junk : Z).

Lemma strdup_rep h s own n c t rest id : rep h s own -> controls h !! n = Some c -> nonzero t -> zlen t + 1 < SIZE_LIMIT -> allocs s !! id = None ->
  run (nmem_strdup junk n (t ++ 0 :: rest)) h (fun p h' => snd p mod NMEM_ALIGN = 0 /\ exists own',
    rep h' (NSpec (<[id := Alloc n p (Some <$> t ++ [0])]> (allocs s)) (<[n := u64 (c_total c + (zlen t + 1))]> (totals s))) own').
Proof.
  intros R Hn Ht Hlim Hid. pose proof (zlen_nonneg t). assert (zlen (t ++ [0]) = zlen t + 1) as Hl by zl. unfold nmem_strdup. eapply run_lift; [by apply strlen_spec|].
  rewrite u64_fits by (unfold SIZE_LIMIT in *; lia). eapply run_bind; [eapply (malloc_rep junk h s own n c (zlen t + 1) id R Hn); [lia|done]|].
  intros p h1 [Hal (own1 & R1)]. eapply run_lift; [instantiate (1 := t ++ [0])|].
  { replace (t ++ 0 :: rest) with ((t ++ [0]) ++ rest) by by rewrite <- app_assoc. rewrite <- Hl. apply (sub_mid []). }
  apply (run_bind _ _ _ (fun _ h' => exists own', rep h' (NSpec (<[id := Alloc n p (Some <$> t ++ [0])]> (allocs s)) (<[n := u64 (c_total c + (zlen t + 1))]> (totals s))) own'));
    [|intros [] h2 H2; by apply run_ret]. replace (write_at p) with (write_at (fst p, snd p + 0)) by (destruct p; cbn; do 2 f_equal; lia).
  eapply run_weaken; [apply (write_rep h1 _ own1 id _ 0 (t ++ [0]) R1 (lookup_insert_eq _ _ _)); [lia|cbn; rewrite fresh_len; lia]|].
  intros [] h2 (data & Hdata & R2). exists own1. cbn in R2, Hdata. rewrite insert_insert_eq in R2.
  assert (data = Some <$> t ++ [0]) as ->; [|done]. unfold splice in Hdata. destruct (_ && _); [|done]. injection Hdata as <-. cbn [Z.to_nat take app].
  rewrite drop_ge, app_nil_r; [done|]. rewrite length_fmap. unfold fresh, zlen in *. rewrite repeat_length. cbn. lia.
Qed.

(** ** A client *)

(** The client names its allocations itself. *)
Inductive nop :=
  | Pool_create | Pool_malloc (id n size : Z) | Pool_strdup (id n : Z) (src : list Z)
  | Mem_write (id off : Z) (xs : list Z) | Mem_read (id off n : Z)
  | Pool_reset (n : Z) | Pool_destroy (n : Z) | Pool_transfer (dst src : Z) | Pool_total (n : Z).
Inductive nresult := Got_pool (n : Z) | Got_pointer (p : pointer) | Got_octets (xs : list Z) | Got_total (n : Z) | Got_nothing.

Definition at_offset (s : nspec) (id off : Z) : option pointer := (fun a => (fst (a_ptr a), snd (a_ptr a) + off)) <$> allocs s !! id.

Definition exec (s : nspec) (o : nop) : M nstore nresult :=
  match o with
  | Pool_create => let* n := nmem_create in ret (Got_pool n)
  | Pool_malloc _ n size => let* p := nmem_malloc junk n size in ret (Got_pointer p)
  | Pool_strdup _ n src => let* p := nmem_strdup junk n src in ret (Got_pointer p)
  | Mem_write id off xs => let* p := lift (at_offset s id off) in write_at p xs ;; ret Got_nothing
  | Mem_read id off n => let* p := lift (at_offset s id off) in let* xs := read_at p n in ret (Got_octets xs)
  | Pool_reset n => nmem_reset n ;; ret Got_nothing
  | Pool_destroy n => nmem_destroy n ;; ret Got_nothing
  | Pool_transfer dst src => nmem_transfer dst src ;; ret Got_nothing
  | Pool_total n => let* t := nmem_total n in ret (Got_total t)
  end.

Definition is_pool (s : nspec) (n : Z) : bool := bool_decide (is_Some (totals s !! n)).
Definition is_free (s : nspec) (id : Z) : bool := bool_decide (allocs s !! id = None).
(** What was written to a part, if all of it was. *)
Definition written (data : list (option Z)) (off n : Z) : option (list Z) := let? d := sub data off n in mapM id d.

(** The client passes pools that are there, a pool can not be transferred to
    itself, and memory is used inside the allocation, and read after it was written. *)
Definition allowed (s : nspec) (o : nop) : bool :=
  match o with
  | Pool_create => true
  | Pool_malloc id n size => is_free s id && is_pool s n && (0 <=? size) && (size <? SIZE_LIMIT)
  | Pool_strdup id n src => is_free s id && is_pool s n && match cstr src with Some t => zlen t + 1 <? SIZE_LIMIT | None => false end
  | Mem_write id off xs => match allocs s !! id with Some a => (0 <=? off) && (off + zlen xs <=? zlen (a_data a)) | None => false end
  | Mem_read id off n => match allocs s !! id with Some a => bool_decide (is_Some (written (a_data a) off n)) | None => false end
  | Pool_reset n | Pool_destroy n => (n =? 0) || is_pool s n
  | Pool_transfer dst src => negb (dst =? src) && is_pool s dst && is_pool s src
  | Pool_total n => is_pool s n
  end.

Definition total_of (s : nspec) (n : Z) : Z := default 0 (totals s !! n).
Definition new_alloc (s : nspec) (id n : Z) (p : pointer) (data : list (option Z)) : nspec :=
  NSpec (<[id := Alloc n p data]> (allocs s)) (<[n := u64 (total_of s n + zlen data)]> (totals s)).

(** The state after a call that gave this result. *)
Definition after (s : nspec) (o : nop) (r : nresult) : nspec :=
  match o, r with
  | Pool_create, Got_pool n => NSpec (allocs s) (<[n := 0]> (totals s))
  | Pool_malloc id n size, Got_pointer p => new_alloc s id n p (fresh size)
  | Pool_strdup id n src, Got_pointer p => new_alloc s id n p (Some <$> default [] (cstr src) ++ [0])
  | Mem_write id off xs, _ => NSpec (alter (fun a => Alloc (a_pool a) (a_ptr a) (default [] (splice (a_data a) off (Some <$> xs)))) id (allocs s)) (totals s)
  | Pool_reset n, _ => if n =? 0 then s else NSpec (without n (allocs s)) (<[n := 0]> (totals s))
  | Pool_destroy n, _ => if n =? 0 then s else NSpec (without n (allocs s)) (delete n (totals s))
  | Pool_transfer dst src, _ => NSpec (handed dst src <$> allocs s) (<[src := 0]> (<[dst := u64 (total_of s dst + total_of s src)]> (totals s)))
  | _, _ => s
  end.

(** The result of a call: memory that is aligned and nobody else's, and what was
    written last. *)
Definition answers (s : nspec) (o : nop) (r : nresult) : Prop :=
  match o with
  | Pool_create => exists n, r = Got_pool n /\ n <> 0 /\ totals s !! n = None
  | Pool_malloc id _ _ | Pool_strdup id _ _ => exists p, r = Got_pointer p /\ snd p mod NMEM_ALIGN = 0 /\
      forall i a b, i <> id -> allocs (after s o r) !! id = Some a -> allocs (after s o r) !! i = Some b -> apart a b
  | Mem_read id off n => exists a xs, allocs s !! id = Some a /\ written (a_data a) off n = Some xs /\ r = Got_octets xs
  | Pool_total n => r = Got_total (total_of s n)
  | _ => r = Got_nothing
  end.

Lemma written_sub data off n xs : written data off n = Some xs -> sub data off n = Some (Some <$> xs).
Proof.
  unfold written. destruct (sub data off n) as [d|]; [|done]. cbn. intros Hd%mapM_Some. f_equal. induction Hd as [|x y l k E _ IH]; [done|]. cbn in *. congruence.
Qed.

Lemma pool_live h s own n : rep h s own -> is_pool s n = true -> exists c, controls h !! n = Some c /\ total_of s n = c_total c /\ n <> 0.
Proof.
  intros R Hp%bool_decide_eq_true. destruct (rep_totals _ _ _ R n Hp) as [c Hc]. exists c. destruct (rep_pool _ _ _ R n c Hc) as (H0 & Ht & _).
  unfold total_of. rewrite Ht. done.
Qed.

(** What a new allocation answers. *)
Lemma answers_new h s own o id p : rep h (after s o (Got_pointer p)) own -> snd p mod NMEM_ALIGN = 0 ->
  match o with Pool_malloc id' _ _ | Pool_strdup id' _ _ => id' = id | _ => False end -> answers s o (Got_pointer p).
Proof.
  intros R Hp Ho. destruct o; try done; subst; exists p; split_and!; try done; intros i a b Hne Ha Hb; by apply (rep_apart _ _ _ R _ _ _ _ Ha Hb).
Qed.

Lemma pool_exec_rep h s own o : rep h s own -> allowed s o = true -> run (exec s o) h (fun r h' => answers s o r /\ exists own', rep h' (after s o r) own').
Proof.
  intros R. destruct o as [|i n size|i n src|i off xs|i off n|n|n|dst src|n]; cbn [allowed exec].
  - intros _. eapply run_bind; [by apply create_rep|]. intros n h' (Hn & Ht & R'). apply run_ret. split; [by exists n|by exists own].
  - rewrite !andb_true_iff. intros [[[Hi%bool_decide_eq_true Hn] Hs%Z.leb_le] Hl%Z.ltb_lt]. destruct (pool_live h s own n R Hn) as (c & Hc & Et & _).
    eapply run_bind; [by eapply (malloc_rep junk h s own n c size i)|]. intros p h' [Hal (own' & R')]. apply run_ret.
    assert (rep h' (after s (Pool_malloc i n size) (Got_pointer p)) own') as R2 by (cbn; unfold new_alloc; rewrite Et, fresh_len by done; done).
    split; [by eapply answers_new|by exists own'].
  - rewrite !andb_true_iff. intros [[Hi%bool_decide_eq_true Hn] Hs]. destruct (pool_live h s own n R Hn) as (c & Hc & Et & _).
    destruct (cstr src) as [t|] eqn:Es; [|done]. apply Z.ltb_lt in Hs. pose proof Es as Es'. unfold cstr in Es. destruct (strlen src) as [k|] eqn:El; [|done].
    destruct (strlen_inv src k El) as (t' & rest & -> & Ht & ->). cbn [mbind option_bind] in Es. rewrite (sub_mid [] t' (0 :: rest) : sub (t' ++ 0 :: rest) 0 (zlen t') = Some t') in Es. injection Es as ->.
    eapply run_bind; [by eapply (strdup_rep h s own n c t rest i)|]. intros p h' [Hal (own' & R')]. apply run_ret.
    assert (rep h' (after s (Pool_strdup i n (t ++ 0 :: rest)) (Got_pointer p)) own') as R2.
    { cbn [after]. unfold new_alloc. rewrite Et, Es'. cbn [default]. replace (zlen (Some <$> t ++ [0])) with (zlen t + 1) by (unfold zlen; rewrite length_fmap, length_app; cbn; lia). done. }
    split; [by eapply answers_new|by exists own'].
  - destruct (allocs s !! i) as [a|] eqn:Ha; [|done]. rewrite andb_true_iff. intros [Ho%Z.leb_le Hx%Z.leb_le]. unfold at_offset. rewrite Ha. cbn [fmap option_fmap option_map].
    eapply run_lift; [done|]. eapply run_bind; [by apply (write_rep h s own i a off xs)|]. intros [] h' (data & Hd & R'). apply run_ret. split; [done|]. exists own. cbn.
    replace (alter _ i (allocs s)) with (<[i := Alloc (a_pool a) (a_ptr a) data]> (allocs s)); [done|].
    apply map_eq. intros j. rewrite lookup_insert, lookup_alter. case_decide; [subst j; rewrite Ha; cbn; by rewrite Hd|done].
  - destruct (allocs s !! i) as [a|] eqn:Ha; [|done]. intros [xs Hx]%bool_decide_eq_true. unfold at_offset. rewrite Ha. cbn [fmap option_fmap option_map]. eapply run_lift; [done|].
    eapply run_bind; [eapply run_is; [by eapply (read_rep h s own i a off n xs), written_sub|by instantiate (1 := fun r h' => r = xs /\ h' = h)]|]. intros r h' [-> ->]. apply run_ret.
    split; [by exists a, xs|by exists own].
  - rewrite orb_true_iff. intros [->%Z.eqb_eq|Hn]; [apply (run_bind _ _ _ (fun _ h' => h' = h)); [by apply run_ret|intros [] h' ->; apply run_ret; split; [done|by exists own]]|].
    destruct (pool_live h s own n R Hn) as (c & Hc & _ & H0). eapply run_bind; [by eapply reset_rep|]. intros [] h' (own' & c' & R' & _). apply run_ret. split; [done|].
    exists own'. cbn. by rewrite (proj2 (Z.eqb_neq n 0) H0).
  - rewrite orb_true_iff. intros [->%Z.eqb_eq|Hn]; [apply (run_bind _ _ _ (fun _ h' => h' = h)); [by apply run_ret|intros [] h' ->; apply run_ret; split; [done|by exists own]]|].
    destruct (pool_live h s own n R Hn) as (c & Hc & _ & H0). eapply run_bind; [by eapply destroy_rep|]. intros [] h' (own' & R'). apply run_ret. split; [done|].
    exists own'. cbn. by rewrite (proj2 (Z.eqb_neq n 0) H0).
  - rewrite !andb_true_iff, negb_true_iff, Z.eqb_neq. intros [[Hne Hd] Hs]. destruct (pool_live h s own dst R Hd) as (d & Hd' & Etd & _).
    destruct (pool_live h s own src R Hs) as (c & Hc & Etc & _). eapply run_bind; [by eapply (transfer_rep h s own dst src c d)|]. intros [] h' (own' & R'). apply run_ret. split; [done|].
    exists own'. cbn. by rewrite Etd, Etc.
  - intros Hn. destruct (pool_live h s own n R Hn) as (c & Hc & Et & _). unfold nmem_total. eapply run_bind; [eapply run_control; [exact Hc|]; by apply (run_ret _ _ (fun t h' => t = c_total c /\ h' = h))|].
    intros t h' [-> ->]. apply run_ret. split; [by rewrite <- Et|by exists own].
Qed.

(** *** A session *)

Inductive session : nstore -> nspec -> list (nop * nresult) -> nstore -> nspec -> Prop :=
  | Session_end h s : session h s [] h s
  | Session_step h s o r h1 calls h' s' : allowed s o = true -> exec s o h = Some (r, h1) -> session h1 (after s o r) calls h' s' ->
      session h s ((o, r) :: calls) h' s'.

Fixpoint as_answered (s : nspec) (calls : list (nop * nresult)) : Prop :=
  match calls with
  | [] => True
  | (o, r) :: calls => answers s o r /\ as_answered (after s o r) calls
  end.

Lemma pool_session_rep h s calls h' s' own : session h s calls h' s' -> rep h s own -> as_answered s calls /\ exists own', rep h' s' own'.
Proof.
  intros Hs. revert own. induction Hs as [h s|h s o r h1 calls h' s' Ha E _ IH]; intros own R; [split; [done|by exists own]|].
  destruct (pool_exec_rep h s own o R Ha) as (r' & h1' & E' & Hans & own1 & R1). rewrite E in E'. injection E' as <- <-.
  destruct (IH own1 R1) as [H1 H2]. by split.
Qed.

(** C18: Pools refine buffers that are independent of each other: in any sequence
    of calls on pools, with reads and writes inside what was allocated, every
    allocation is aligned and shares no octet with another that is alive, a read
    gives what was last written to that allocation, also after blocks were handed to another
    pool or other pools were reset, the totals are right, and no call that
    is allowed faults. *)
Theorem pools_refine_buffers h s own calls h' s' : rep h s own -> session h s calls h' s' ->
  as_answered s calls /\ forall o, allowed s' o = true -> exists r h'', exec s' o h' = Some (r, h'') /\ answers s' o r.
Proof.
  intros R Hs. destruct (pool_session_rep h s calls h' s' own Hs R) as (Hans & own' & R'). split; [done|]. intros o Ho.
  destruct (pool_exec_rep h' s' own' o R' Ho) as (r & h'' & E & Ha & _). by exists r, h''.
Qed.

(** *** Accounting *)

Definition no_pools : nstore := NStore ∅ ∅ ∅ 0 0 0.
Definition no_allocs : nspec := NSpec ∅ ∅.

Lemma rep_no_pools : rep no_pools no_allocs ∅.
Proof. constructor; cbn; try done; intros *; rewrite ?lookup_empty; try done; by intros []. Qed.

Lemma rep_pools_size h s own : rep h s own -> size (controls h) = size (totals s).
Proof.
  intros R. rewrite <- !size_dom. f_equal. apply set_eq. intros n. rewrite !elem_of_dom. split; [|apply (rep_totals _ _ _ R)].
  intros [c Hc]. destruct (rep_pool _ _ _ R n c Hc) as (_ & Ht & _). by eexists.
Qed.

(** C19: The counters of the module are right after any sequence of calls: the
    handles are the pools that are alive, the blocks those that were allocated and not
    freed; when the last pool has been destroyed no structure and no buffer is left, and the
    status says so. *)
Theorem pools_leave_nothing calls h s : session no_pools no_allocs calls h s ->
  no_nmem_handles h = u64 (Z.of_nat (size (totals s))) /\ no_nmem_blocks h = u64 (Z.of_nat (size (nblocks h))) /\ nmem_allocated h = u64 (block_sizes h) /\
  (totals s = ∅ -> controls h = ∅ /\ nblocks h = ∅ /\ bufs h = ∅ /\
    nmem_get_status 200 h = Some (str "<nmem>" ++ nl ++ str "  <handles>0</handles>" ++ nl ++ str "  <blocks>0</blocks>" ++ nl ++
      str "  <allocated>0</allocated>" ++ nl ++ str "</nmem>" ++ nl ++ [0], h)).
Proof.
  intros Hs. destruct (pool_session_rep _ _ _ _ _ _ Hs rep_no_pools) as (_ & own & R). pose proof (rep_counts _ _ _ R) as (C1 & C2 & C3).
  rewrite (rep_pools_size _ _ _ R) in C1. split_and!; [done..|]. intros Ht.
  assert (controls h = ∅) as Ec by (apply map_size_empty_inv; rewrite (rep_pools_size _ _ _ R), Ht; apply map_size_empty).
  assert (nblocks h = ∅) as Eb.
  { apply map_empty. intros p. apply eq_None_not_Some. intros [b Hb]. destruct (rep_block _ _ _ R p b Hb) as [_ [n Hn]]. destruct (rep_own _ _ _ R p n Hn) as [c Hc].
    by rewrite Ec, lookup_empty in Hc. }
  assert (bufs h = ∅) as Ef.
  { apply map_empty. intros a. apply eq_None_not_Some. intros Ha. destruct (rep_buf _ _ _ R a Ha) as (p & b & Hp & _). by rewrite Eb, lookup_empty in Hp. }
  split_and!; [done..|]. unfold block_sizes in C3. rewrite Ht in C1. rewrite Eb in C2, C3. unfold nmem_get_status. rewrite bind_get, C1, C2, C3. reflexivity.
Qed.

(** The calls of a client are run. *)
Fixpoint play (ops : list nop) (h : nstore) (s : nspec) : option (list (nop * nresult) * nstore * nspec) :=
  match ops with
  | [] => Some ([], h, s)
  | o :: ops =>
      if allowed s o then
        let? (r, h) := exec s o h in
        let? (calls, h, s) := play ops h (after s o r) in
        Some ((o, r) :: calls, h, s)
      else None
  end.

Lemma play_pools ops : forall h s calls h' s', play ops h s = Some (calls, h', s') -> session h s calls h' s'.
Proof.
  induction ops as [|o ops IH]; intros h s calls h' s'; cbn [play]; [intros [= <- <- <-]; constructor|].
  destruct (allowed s o) eqn:Ha; [|done]. destruct (exec s o h) as [[r h1]|] eqn:E; [|done]. cbn [mbind option_bind].
  destruct (play ops h1 (after s o r)) as [[[calls1 h2] s2]|] eqn:Ep; [|done]. cbn [mbind option_bind]. intros [= <- <- <-].
  eapply Session_step; [done|exact E|]. by apply IH.
Qed.
End client.

(** ** Examples *)

(** Two pools; a string is read after it was handed over and its pool was reset. *)
Definition two_pools : list nop :=
  [Pool_create; Pool_create; Pool_malloc 1 1 13; Pool_strdup 2 1 (str "yaz" ++ [0]); Mem_write 1 3 [7; 8]; Pool_malloc 3 2 5000;
   Pool_transfer 2 1; Pool_reset 1; Mem_read 2 0 4; Mem_read 1 3 2; Pool_total 2].

Lemma pools_refine_buffers_witness : exists calls h s, map snd calls = [Got_pool 1; Got_pool 2; Got_pointer (1, 0); Got_pointer (1, 16); Got_nothing; Got_pointer (2, 0);
    Got_nothing; Got_nothing; Got_octets (str "yaz" ++ [0]); Got_octets [7; 8]; Got_total 5017] /\
  as_answered no_allocs calls /\ exists r h', exec 0 s (Pool_destroy 2) h = Some (r, h') /\ answers s (Pool_destroy 2) r.
Proof.
  destruct (play 0 two_pools no_pools no_allocs) as [[[calls h] s]|] eqn:E; [|vm_compute in E; discriminate].
  pose proof (play_pools 0 _ _ _ _ _ _ E) as Hs. exists calls, h, s. destruct (pools_refine_buffers 0 _ _ _ _ _ _ rep_no_pools Hs) as [H1 H2]. clear Hs.
  split; [|split; [exact H1|apply H2]]; clear H1 H2; vm_compute in E; injection E as <- <- <-; reflexivity.
Defined.

Lemma pools_leave_nothing_witness : exists calls h s, session 0 no_pools no_allocs calls h s /\ totals s = ∅ /\ length calls = 13%nat /\ bufs h = ∅.
Proof.
  destruct (play 0 (two_pools ++ [Pool_destroy 1; Pool_destroy 2]) no_pools no_allocs) as [[[calls h] s]|] eqn:E; [|vm_compute in E; discriminate].
  pose proof (play_pools 0 _ _ _ _ _ _ E) as Hs. exists calls, h, s. split; [exact Hs|].
  assert (totals s = ∅ /\ length calls = 13%nat) as [Ht Hl] by (clear Hs; vm_compute in E; injection E as <- <- <-; split; reflexivity).
  destruct (pools_leave_nothing 0 calls h s Hs) as (_ & _ & _ & Hno). split; [exact Ht|]. split; [exact Hl|]. by apply Hno.
Defined.

(** A size that is close to the end of [size_t] wraps around in the test for room,
    and the pointer that is returned has 4088 octets instead. *)
Lemma huge_size_wraps : exists h h', (nmem_create ;; nmem_malloc 0 1 8) no_pools = Some ((1, 0), h) /\ nmem_malloc 0 1 (2 ^ 64 - 8) h = Some ((1, 8), h') /\
  zlen <$> bufs h' !! 1 = Some 4096.
Proof. eexists _, _. split; [vm_compute; reflexivity|]. split; vm_compute; reflexivity. Qed.

(** Blocks are moved to the front of the list from which they are taken: a
    transfer of a pool to itself does not end. *)
Lemma self_transfer_loops n fuel : forall h c b, controls h !! n = Some c -> c_blocks c <> 0 -> nblocks h !! c_blocks c = Some b -> transfer_loop fuel n n h = None.
Proof.
  induction fuel as [|fuel IH]; intros h c b Hc H0 Hb; [done|]. cbn [transfer_loop]. unfold update_control, update_block, load_control, load_block, bind. cbn. rewrite Hc. cbn.
  rewrite (proj2 (Z.eqb_neq _ _) H0), Hb. cbn. rewrite Hc. cbn. rewrite lookup_insert_eq. cbn. rewrite Hb. cbn. rewrite lookup_insert_eq. cbn.
  eapply IH; cbn; [apply lookup_insert_eq|done|apply lookup_insert_eq].
Qed.
