(* ===== verification/NmemSplit.v ===== *)
(** * Splitting strings (nmemsdup.c)

    A text is cut at delimiters; an escape character protects the character
    after it. *)

From stdpp Require Import base list numbers option strings.
From Stdlib Require Import ZArith Lia.
From S2P Require Import Prelude Text.

Section split.
Context (delim : list Z) (escape_char : Z).

Fixpoint skip_delims (s : list Z) : option (list Z) :=
  match s with
  | [] => None
  | c :: r => if negb (c =? 0) && strchr delim c && negb (c =? escape_char) then skip_delims r else Some s
  end.

(** The characters up to a delimiter that is not escaped, and the rest. *)
Fixpoint scan_item (s : list Z) : option (list Z * list Z) :=
  match s with
  | [] => None
  | c :: r =>
      if negb (c =? 0) && negb (strchr delim c) then
        if c =? escape_char then
          match r with
          | [] => None
          | x :: r => let? (item, rest) := scan_item r in Some (c :: x :: item, rest)
          end
        else let? (item, rest) := scan_item r in Some (c :: item, rest)
      else Some ([], s)
  end.

(** What the copy of an item is changed to. *)
Fixpoint subst_item (s : list Z) : list Z :=
  match s with
  | [] => []
  | c :: r =>
      if c =? 0 then []
      else match r with
           | x :: r' => if (c =? escape_char) && negb (x =? 0) then x :: subst_item r' else c :: subst_item r
           | [] => [c]
           end
  end.

Fixpoint items_loop (fuel : nat) (collapse : bool) (cp : list Z) : option (list (list Z)) :=
  match fuel with
  | O => None
  | S fuel =>
      let? cp := if collapse then skip_delims cp else Some cp in
      let? c := head cp in
      if collapse && (c =? 0) then Some []
      else
        let? (item, cp) := scan_item cp in
        let? c := head cp in
        if collapse then let? items := items_loop fuel collapse cp in Some (item :: items)
        else if c =? 0 then Some [item]
        else let? items := items_loop fuel collapse (tail cp) in Some (item :: items)
  end.

(** The first pass counts the items, the second one copies them. *)
Definition nmem_strsplit_escape2 (dstr : list Z) (collapse subst_escape : bool) : option (list (list Z)) :=
  let? items := items_loop (S (length dstr)) collapse dstr in
  Some (map (fun item => (if subst_escape then subst_item item else item) ++ [0]) items).
Definition nmem_strsplit_escape (dstr : list Z) (collapse : bool) : option (list (list Z)) := nmem_strsplit_escape2 dstr collapse true.
End split.

Definition nmem_strsplitx (delim dstr : list Z) (collapse : bool) : option (list (list Z)) := nmem_strsplit_escape delim 0 dstr collapse.
Definition nmem_strsplit (delim dstr : list Z) : option (list (list Z)) := nmem_strsplitx delim dstr true.
Definition nmem_strsplit_blank (dstr : list Z) : option (list (list Z)) := nmem_strsplit [32] dstr.

(** ** What the items are *)

Section join.
Context (delim : list Z) (e d : Z).
(** A delimiter, and an escape character that is none, or 0 for no escapes. *)
Context (Hd : d ∈ delim) (Hnz : nonzero delim) (He : e ∉ delim).

(** Whatever has a meaning is escaped. *)
Definition is_special (c : Z) : bool := bool_decide (c ∈ delim) || (c =? e).
Fixpoint protect (item : list Z) : list Z :=
  match item with
  | [] => []
  | c :: item => if is_special c then e :: c :: protect item else c :: protect item
  end.
Fixpoint join (items : list (list Z)) : list Z :=
  match items with
  | [] => []
  | [item] => protect item
  | item :: items => protect item ++ d :: join items
  end.

(** Without an escape character nothing may need it. *)
Definition item_fits (item : list Z) : Prop := nonzero item /\ (e = 0 -> Forall (fun c => is_special c = false) item).

Lemma strchr_delim c : c <> 0 -> strchr delim c = bool_decide (c ∈ delim).
Proof.
  intros Hc. unfold strchr. apply eq_true_iff_eq. rewrite existsb_exists, bool_decide_eq_true. split.
  - intros (x & Hx & ->%Z.eqb_eq). apply list_elem_of_In, elem_of_app in Hx as [?|Hx]; [done|]. apply list_elem_of_singleton in Hx. congruence.
  - intros Hx. exists c. split; [|apply Z.eqb_refl]. apply list_elem_of_In, elem_of_app. by left.
Qed.

(** An item ends at a delimiter or at the end of the text. *)
Definition ends_item (rest : list Z) : Prop := exists c r, rest = c :: r /\ (c = 0 \/ c ∈ delim).

Lemma scan_protect item rest : item_fits item -> ends_item rest -> scan_item delim e (protect item ++ rest) = Some (protect item, rest).
Proof.
  intros [Hn Hf] (c & r & -> & Hc). induction item as [|x item IH]; cbn [protect app scan_item].
  - assert (negb (c =? 0) && negb (strchr delim c) = false) as ->; [|done]. destruct (Z.eqb_spec c 0) as [|H0]; [done|]. cbn. rewrite strchr_delim by done.
    rewrite bool_decide_true; [done|naive_solver].
  - apply Forall_cons in Hn as [Hx Hn]. assert (e = 0 -> Forall (fun c => is_special c = false) item) as Hf' by (intros E; specialize (Hf E); by apply Forall_cons in Hf as [_ ?]).
    specialize (IH Hn Hf'). destruct (is_special x) eqn:Es.
    + assert (e <> 0) as He0 by (intros E; specialize (Hf E); apply Forall_cons in Hf as [? _]; congruence). cbn [app scan_item].
      rewrite (proj2 (Z.eqb_neq e 0) He0), strchr_delim, bool_decide_false, Z.eqb_refl by done. cbn [negb andb]. by rewrite IH.
    + unfold is_special in Es. apply orb_false_iff in Es as [Es1 Es2]. cbn [app scan_item]. rewrite (proj2 (Z.eqb_neq x 0) Hx), strchr_delim, Es1, Es2 by done. cbn [negb andb]. by rewrite IH.
Qed.

Lemma subst_protect item : item_fits item -> subst_item e (protect item) = item.
Proof.
  intros [Hn Hf]. induction item as [|x item IH]; [done|]. apply Forall_cons in Hn as [Hx Hn].
  assert (e = 0 -> Forall (fun c => is_special c = false) item) as Hf' by (intros E; specialize (Hf E); by apply Forall_cons in Hf as [_ ?]).
  specialize (IH Hn Hf'). cbn [protect]. destruct (is_special x) eqn:Es.
  - assert (e <> 0) as He0 by (intros E; specialize (Hf E); apply Forall_cons in Hf as [? _]; congruence). cbn [subst_item].
    rewrite (proj2 (Z.eqb_neq e 0) He0), Z.eqb_refl, (proj2 (Z.eqb_neq x 0) Hx). cbn [negb andb]. by rewrite IH.
  - unfold is_special in Es. apply orb_false_iff in Es as [Es1 Es2]. cbn [subst_item]. rewrite (proj2 (Z.eqb_neq x 0) Hx). rewrite Es2. cbn [andb].
    destruct (protect item); [|by rewrite IH]. cbn in IH. by rewrite <- IH.
Qed.

Lemma delim_ok : d <> 0 /\ d <> e /\ strchr delim d = true.
Proof.
  assert (d <> 0) as H0 by (by apply (proj1 (Forall_forall _ _) Hnz)). split_and!; [done|congruence|]. rewrite strchr_delim by done. by apply bool_decide_true.
Qed.

Lemma skip_delim s : skip_delims delim e (d :: s) = skip_delims delim e s.
Proof. destruct delim_ok as (H0 & H1 & H2). cbn [skip_delims]. by rewrite (proj2 (Z.eqb_neq d 0) H0), H2, (proj2 (Z.eqb_neq d e) H1). Qed.

(** An item that is not empty begins with a character that is neither a delimiter nor the end. *)
Lemma protect_head x item rest : item_fits (x :: item) -> exists c r, protect (x :: item) ++ rest = c :: r /\ c <> 0 /\ c ∉ delim.
Proof.
  intros [Hn Hf]. apply Forall_cons in Hn as [Hx _]. cbn [protect]. destruct (is_special x) eqn:Es.
  - eexists _, _. split; [done|]. split; [|done]. intros E. specialize (Hf E). apply Forall_cons in Hf as [? _]. congruence.
  - unfold is_special in Es. apply orb_false_iff in Es as [Es1%bool_decide_eq_false _]. by eexists _, _.
Qed.

Lemma skip_none c r : c <> 0 -> c ∉ delim -> skip_delims delim e (c :: r) = Some (c :: r).
Proof. intros H0 Hc. cbn [skip_delims]. rewrite strchr_delim, bool_decide_false by done. by rewrite andb_false_r. Qed.

(** What follows an item. *)
Definition join_tail (items : list (list Z)) (rest : list Z) : list Z := match items with [] => 0 :: rest | _ => d :: join items ++ 0 :: rest end.

Lemma join_cons item items rest : join (item :: items) ++ 0 :: rest = protect item ++ join_tail items rest.
Proof. destruct items as [|i items]; [done|]. cbn [join join_tail]. by rewrite <- app_assoc. Qed.

Lemma join_tail_ends items rest : ends_item (join_tail items rest).
Proof. destruct items; cbn; [exists 0, rest; split; [done|by left]|]. eexists d, _. split; [done|by right]. Qed.

Lemma split_items : forall items fuel rest, items <> [] -> Forall item_fits items -> (length (join items) < fuel)%nat ->
  items_loop delim e fuel false (join items ++ 0 :: rest) = Some (map protect items).
Proof.
  destruct delim_ok as (Hd0 & _ & _). induction items as [|item items IH]; intros [|fuel] rest Hne Hf Hlen; [done|done|lia|]. apply Forall_cons in Hf as [Hi Hf].
  rewrite join_cons. cbn [items_loop mbind option_bind].
  assert (exists c, head (protect item ++ join_tail items rest) = Some c) as (c & Ec) by (destruct (protect item); [destruct items|]; by eexists).
  rewrite Ec. cbn [mbind option_bind andb]. rewrite scan_protect by (done || apply join_tail_ends). cbn [mbind option_bind].
  destruct items as [|i items]; cbn [join_tail head tail mbind option_bind map]; [done|]. rewrite (proj2 (Z.eqb_neq d 0) Hd0).
  rewrite (IH fuel rest); [done|done|done|]. cbn [join] in Hlen. rewrite length_app in Hlen. cbn in Hlen |- *. lia.
Qed.

Definition nonempty (item : list Z) : bool := negb (bool_decide (item = [])).

Lemma split_collapsed : forall items fuel rest, Forall item_fits items -> (length (join items) < fuel)%nat ->
  items_loop delim e fuel true (join items ++ 0 :: rest) = Some (map protect (filter nonempty items)).
Proof.
  destruct delim_ok as (Hd0 & _ & _). assert (forall fuel s, items_loop delim e fuel true (d :: s) = items_loop delim e fuel true s) as Hskip.
  { intros [|fuel] s; [done|]. cbn [items_loop]. by rewrite skip_delim. }
  induction items as [|item items IH]; intros [|fuel] rest Hf Hlen; [cbn in Hlen; lia|done|lia|]. apply Forall_cons in Hf as [Hi Hf]. rewrite join_cons.
  assert (forall fuel, (length (join items) < fuel)%nat -> items_loop delim e fuel true (join_tail items rest) = Some (map protect (filter nonempty items))) as Htail.
  { intros f Hl. destruct items as [|i items]; [cbn [join_tail]; apply (IH f rest Hf Hl)|]. cbn [join_tail]. rewrite Hskip. by apply IH. }
  destruct item as [|x item].
  - cbn [protect app]. rewrite Htail; [done|]. destruct items; cbn in Hlen |- *; lia.
  - destruct (protect_head x item (join_tail items rest) Hi) as (c & r & Ec & Hc0 & Hcd). cbn [items_loop]. rewrite Ec, skip_none by done. cbn [mbind option_bind head].
    rewrite (proj2 (Z.eqb_neq c 0) Hc0). cbn [andb]. rewrite <- Ec, scan_protect by (done || apply join_tail_ends). cbn [mbind option_bind].
    assert (exists k, head (join_tail items rest) = Some k) as (k & Ek) by (destruct items; by eexists). rewrite Ek. cbn [mbind option_bind]. rewrite Htail; [done|].
    assert (0 < length (protect (x :: item)))%nat by (cbn; destruct (is_special x); cbn; lia).
    destruct items as [|i items]; cbn [join] in Hlen |- *; [cbn; lia|]. rewrite length_app in Hlen. cbn in Hlen |- *. lia.
Qed.

(** C31: Splitting a text that was made by joining items with a delimiter, where
    delimiters and escape characters in the items are escaped, gives the items
    back; when delimiters are collapsed, the empty items are left out. Nothing
    after the terminator of the text is read. *)
Theorem strsplit_join items rest collapse : items <> [] -> Forall item_fits items ->
  nmem_strsplit_escape2 delim e (join items ++ 0 :: rest) collapse true =
    Some (map (fun item => item ++ [0]) (if collapse : bool then filter nonempty items else items)).
Proof.
  intros Hne Hf. unfold nmem_strsplit_escape2. assert (length (join items) < S (length (join items ++ 0%Z :: rest)))%nat as Hl by (rewrite length_app; lia).
  assert (forall l, Forall item_fits l -> map (fun item => subst_item e item ++ [0]) (map protect l) = map (fun item => item ++ [0]) l) as Hmap.
  { intros l Hl'. rewrite map_map. apply map_ext_Forall. eapply Forall_impl; [exact Hl'|]. cbn. intros item Hi. by rewrite subst_protect. }
  destruct collapse; [rewrite split_collapsed by done|rewrite split_items by done]; cbn [mbind option_bind]; rewrite Hmap; try done.
  apply Forall_forall. intros item [_ Hin]%list_elem_of_filter. by apply (proj1 (Forall_forall _ _) Hf).
Qed.
End join.

Lemma strsplit_join_witness : nmem_strsplit_escape2 (str ",") 92 (str "a\,b,,c\\" ++ [0; 77]) false true = Some (map (fun item => item ++ [0]) [str "a,b"; []; str "c\"]).
Proof.
  apply (strsplit_join (str ",") 92 44 ltac:(by apply (bool_decide_unpack _)) ltac:(by repeat constructor) ltac:(by apply (bool_decide_unpack _)) [str "a,b"; []; str "c\"] [77] false);
    [done|]. repeat constructor; done.
Defined.

(** An escape character at the end of the text takes the terminator with it:
    what comes after the text belongs to the item. *)
Lemma escape_at_end : nmem_strsplit_escape2 (str ",") 92 (str "a\" ++ [0; 77; 44; 0]) false false = Some [str "a\" ++ [0; 77; 0]; [0]] /\
  nmem_strsplit_escape2 (str ",") 92 (str "a\" ++ [0]) false false = None.
Proof. split; reflexivity. Qed.
