(* ===== verification/Tokenizer.v ===== *)
(** * Tokens of configuration files (tokenizer.c)

    The tokenizer that reads profiles of CCL and CQL. *)

From stdpp Require Import base list numbers option strings.
From Stdlib Require Import ZArith Lia.
From S2P Require Import Prelude Text.

Definition YAZ_TOK_EOF : Z := 0.
Definition YAZ_TOK_ERROR : Z := -1.
Definition YAZ_TOK_STRING : Z := -2.
Definition YAZ_TOK_QSTRING : Z := -3.

(** Sets of characters, without their terminators. *)
Record yaz_tok_cfg := TokCfg {
  tc_comment : list Z;
  tc_white_space : list Z;
  tc_single_tokens : list Z;
  tc_quote_tokens_begin : list Z;
  tc_quote_tokens_end : list Z;
}.

Definition yaz_tok_cfg_create : yaz_tok_cfg := TokCfg (str "#") [32; 9; 13; 10] [] [34] [34].
Definition yaz_tok_cfg_single_tokens (simple : list Z) (t : yaz_tok_cfg) : yaz_tok_cfg :=
  TokCfg (tc_comment t) (tc_white_space t) simple (tc_quote_tokens_begin t) (tc_quote_tokens_end t).

(** The string of the last token is what its WRBUF contains; the text is the memory
    from the pointer on. *)
Record yaz_tok_parse := Tok {
  tp_unget_byte : Z;
  tp_wr_string : list Z;
  tp_look : Z;
  tp_cfg : yaz_tok_cfg;
  tp_text : list Z;
}.
Abbreviation TOK := (M yaz_tok_parse).

Definition yaz_tok_parse_buf (t : yaz_tok_cfg) (buf : list Z) : yaz_tok_parse := Tok 0 [] YAZ_TOK_ERROR t buf.

Definition set_tok_unget (c : Z) (tp : yaz_tok_parse) : yaz_tok_parse := Tok c (tp_wr_string tp) (tp_look tp) (tp_cfg tp) (tp_text tp).
Definition set_tok_string (s : list Z) (tp : yaz_tok_parse) : yaz_tok_parse := Tok (tp_unget_byte tp) s (tp_look tp) (tp_cfg tp) (tp_text tp).
Definition set_tok_look (l : Z) (tp : yaz_tok_parse) : yaz_tok_parse := Tok (tp_unget_byte tp) (tp_wr_string tp) l (tp_cfg tp) (tp_text tp).
Definition set_tok_text (s : list Z) (tp : yaz_tok_parse) : yaz_tok_parse := Tok (tp_unget_byte tp) (tp_wr_string tp) (tp_look tp) (tp_cfg tp) s.

Definition read_buf : TOK Z :=
  let* tp := get in
  let* ch := lift (rd (tp_text tp) 0) in
  (if negb (ch =? 0) then modify (set_tok_text (drop 1 (tp_text tp))) else ret tt) ;;
  ret ch.

Definition get_byte : TOK Z :=
  let* tp := get in
  let ch := tp_unget_byte tp in
  if negb (ch =? 0) then modify (set_tok_unget 0) ;; ret ch else read_buf.
Definition unget_byte (ch : Z) : TOK unit := modify (set_tok_unget ch).

Definition put_byte (ch : Z) : TOK unit := modify (fun tp => set_tok_string (tp_wr_string tp ++ [ch]) tp).

Fixpoint skip_loop (fuel : nat) (t : yaz_tok_cfg) (ch : Z) : TOK Z :=
  match fuel with
  | O => fault
  | S fuel =>
      if negb (ch =? 0) && strchr (tc_white_space t) ch then let* ch := get_byte in skip_loop fuel t ch else ret ch
  end.

(** The loop does not read on. *)
Fixpoint quote_loop (fuel : nat) (ch end_ch : Z) : TOK Z :=
  match fuel with
  | O => fault
  | S fuel => if negb (ch =? 0) && negb (ch =? end_ch) then put_byte ch ;; quote_loop fuel ch end_ch else ret ch
  end.

Fixpoint string_loop (fuel : nat) (t : yaz_tok_cfg) (ch : Z) : TOK Z :=
  match fuel with
  | O => fault
  | S fuel =>
      if negb (ch =? 0) && negb (strchr (tc_white_space t) ch) && negb (strchr (tc_single_tokens t) ch) && negb (strchr (tc_comment t) ch) then
        put_byte ch ;;
        let* ch := get_byte in
        string_loop fuel t ch
      else ret ch
  end.

Definition yaz_tok_move : TOK Z :=
  let* tp := get in
  let t := tp_cfg tp in
  let fuel := S (S (length (tp_text tp))) in
  let* ch := get_byte in
  let* ch := skip_loop fuel t ch in
  let* ch :=
    (if ch =? 0 then ret YAZ_TOK_EOF
     else if strchr (tc_comment t) ch then ret YAZ_TOK_EOF
     else if strchr (tc_single_tokens t) ch then ret ch
     else
       let* q := lift (find_char ch (tc_quote_tokens_begin t ++ [0])) in
       match q with
       | Some p =>
           let* end_ch := lift (rd (tc_quote_tokens_end t) p) in
           let* ch := get_byte in
           modify (set_tok_string []) ;;
           let* ch := quote_loop fuel ch end_ch in
           ret (if ch =? 0 then YAZ_TOK_ERROR else YAZ_TOK_QSTRING)
       | None =>
           modify (set_tok_string []) ;;
           let* ch := string_loop fuel t ch in
           unget_byte ch ;;
           ret YAZ_TOK_STRING
       end) in
  modify (set_tok_look ch) ;;
  ret ch.

Definition yaz_tok_parse_string : TOK (list Z) := gets (fun tp => tp_wr_string tp ++ [0]).

(** ** What is read *)

(** What is left of the text: the character that was put back comes first. *)
Definition remaining (tp : yaz_tok_parse) : list Z := if tp_unget_byte tp =? 0 then tp_text tp else tp_unget_byte tp :: tp_text tp.

(** A character of a word. *)
Definition tok_char (t : yaz_tok_cfg) (c : Z) : bool :=
  negb (c =? 0) && negb (strchr (tc_white_space t) c) && negb (strchr (tc_single_tokens t) c) && negb (strchr (tc_comment t) c).

(** The character [ch] was read and [q] comes next; the terminator is not passed. *)
Definition at_char (ch : Z) (q : list Z) (tp : yaz_tok_parse) : Prop := tp_unget_byte tp = 0 /\ tp_text tp = if ch =? 0 then ch :: q else q.

Lemma at_char_remaining ch q tp : at_char ch q tp -> remaining tp = if ch =? 0 then ch :: q else q.
Proof. intros [H0 H]. unfold remaining. by rewrite H0. Qed.

(** The configuration stays. *)
Definition same_cfg (tp tp' : yaz_tok_parse) : Prop := tp_cfg tp' = tp_cfg tp.

Lemma get_byte_runs tp c q : remaining tp = c :: q ->
  run get_byte tp (fun r tp' => r = c /\ at_char c q tp' /\ same_cfg tp tp' /\ tp_wr_string tp' = tp_wr_string tp).
Proof.
  unfold remaining, get_byte. intros E. apply run_get. revert E. destruct (Z.eqb_spec (tp_unget_byte tp) 0) as [H0|H0]; cbn [negb]; intros E.
  - unfold read_buf. apply run_get. cbv beta. rewrite E. eapply run_lift; [apply rd_0|]. unfold at_char. destruct (Z.eqb_spec c 0) as [->|Hc]; cbn [negb].
    + apply (run_bind _ _ _ (fun _ s => s = tp)); [by apply run_ret|]. intros [] s ->. by apply run_ret.
    + apply run_modify, run_ret. cbn. by split.
  - injection E as <- <-. apply run_modify, run_ret. unfold at_char. cbn. by rewrite (proj2 (Z.eqb_neq _ 0) H0).
Qed.

Definition is_white (t : yaz_tok_cfg) (c : Z) : bool := negb (c =? 0) && strchr (tc_white_space t) c.

Lemma skip_runs t x q' : is_white t x = false -> forall ws fuel ch q tp, Forall (fun c => is_white t c = true) ws -> ch :: q = ws ++ x :: q' -> at_char ch q tp ->
  (length ws < fuel)%nat -> run (skip_loop fuel t ch) tp (fun r tp' => r = x /\ at_char x q' tp' /\ same_cfg tp tp').
Proof.
  intros Hx. induction ws as [|w ws IH]; intros [|fuel] ch q tp Hw E Ha Hf; try (cbn in Hf; lia); cbn [app] in E; injection E as -> ->; cbn [skip_loop]; fold (is_white t x).
  - rewrite Hx. by apply run_ret.
  - apply Forall_cons in Hw as [Hw Hws]. fold (is_white t w). rewrite Hw. apply at_char_remaining in Ha. unfold is_white in Hw. apply andb_true_iff in Hw as [Hw%negb_true_iff _]. rewrite Hw in Ha.
    destruct ws as [|w' ws]; cbn [app] in Ha.
    + eapply run_bind; [by apply get_byte_runs|]. intros r tp1 (-> & H1 & H2 & _). eapply run_weaken; [eapply (IH fuel); [constructor|done|done|cbn in Hf |- *; lia]|].
      intros r tp2 (-> & H3 & H4). split_and!; [done|done|]. unfold same_cfg in *. congruence.
    + eapply run_bind; [by apply get_byte_runs|]. intros r tp1 (-> & H1 & H2 & _). eapply run_weaken; [eapply (IH fuel); [done|done|done|cbn in Hf |- *; lia]|].
      intros r tp2 (-> & H3 & H4). split_and!; [done|done|]. unfold same_cfg in *. congruence.
Qed.

Lemma string_runs t x q' : tok_char t x = false -> forall w fuel ch q tp, Forall (fun c => tok_char t c = true) w -> ch :: q = w ++ x :: q' -> at_char ch q tp ->
  (length w < fuel)%nat -> run (string_loop fuel t ch) tp (fun r tp' => r = x /\ at_char x q' tp' /\ same_cfg tp tp' /\ tp_wr_string tp' = tp_wr_string tp ++ w).
Proof.
  intros Hx. induction w as [|c w IH]; intros [|fuel] ch q tp Hw E Ha Hf; try (cbn in Hf; lia); cbn [app] in E; injection E as -> ->; cbn [string_loop]; fold (tok_char t x).
  - rewrite Hx. apply run_ret. by rewrite app_nil_r.
  - apply Forall_cons in Hw as [Hc Hw]. fold (tok_char t c). rewrite Hc. apply at_char_remaining in Ha. unfold tok_char in Hc. rewrite !andb_true_iff in Hc. destruct Hc as [[[Hc%negb_true_iff _] _] _]. rewrite Hc in Ha.
    unfold put_byte. apply run_modify.
    assert (exists d r, w ++ x :: q' = d :: r) as (d & r & Ed) by (destruct w; by eexists _, _). rewrite Ed in Ha.
    eapply run_bind; [apply get_byte_runs; exact Ha|]. intros e tp1 (-> & H1 & H2 & H3). eapply run_weaken; [eapply (IH fuel d r); [done|by rewrite Ed|done|cbn in Hf |- *; lia]|].
    intros e tp2 (-> & H4 & H5 & H6). split_and!; [done|done|unfold same_cfg in *; cbn in *; congruence|]. rewrite H6, H3. cbn. by rewrite <- app_assoc.
Qed.

(** What a token leaves. *)
Definition moved (tp : yaz_tok_parse) (t : Z) (w q : list Z) (r : Z) (tp' : yaz_tok_parse) : Prop :=
  r = t /\ remaining tp' = q /\ same_cfg tp tp' /\ (t = YAZ_TOK_STRING -> tp_wr_string tp' = w).

(** The start of a token: blanks are passed. *)
Lemma move_start tp ws x q (k : Z -> TOK Z) Q : Forall (fun c => is_white (tp_cfg tp) c = true) ws -> is_white (tp_cfg tp) x = false -> remaining tp = ws ++ x :: q ->
  (forall tp', at_char x q tp' -> same_cfg tp tp' -> run (k x) tp' Q) ->
  run (let* ch := get_byte in let* ch := skip_loop (S (S (length (tp_text tp)))) (tp_cfg tp) ch in k ch) tp Q.
Proof.
  intros Hw Hx E Hk. assert (length ws < S (S (length (tp_text tp))))%nat as Hf.
  { apply (f_equal length) in E. rewrite length_app in E. cbn in E. unfold remaining in E. destruct (tp_unget_byte tp =? 0); cbn in E; lia. }
  assert (exists c r, ws ++ x :: q = c :: r) as (c & r & Ec) by (destruct ws; by eexists _, _). rewrite Ec in E.
  eapply run_bind; [apply get_byte_runs; exact E|]. intros ch tp1 (-> & H1 & H2 & _). eapply run_bind; [eapply (skip_runs (tp_cfg tp) x q Hx ws); [done|by rewrite Ec|done|done]|].
  intros ch tp2 (-> & H3 & H4). apply Hk; [done|]. unfold same_cfg in *. congruence.
Qed.

Lemma move_string tp ws c w x q : Forall (fun c => is_white (tp_cfg tp) c = true) ws -> Forall (fun c => tok_char (tp_cfg tp) c = true) (c :: w) ->
  c ∉ tc_quote_tokens_begin (tp_cfg tp) -> ~ In 0 (tc_quote_tokens_begin (tp_cfg tp)) -> tok_char (tp_cfg tp) x = false -> remaining tp = ws ++ c :: w ++ x :: q ->
  run yaz_tok_move tp (moved tp YAZ_TOK_STRING (c :: w) (x :: q)).
Proof.
  intros Hws Hw Hq Hq0 Hx E. unfold yaz_tok_move. apply run_get. cbv zeta.
  pose proof Hw as Hw'. apply Forall_cons in Hw' as [Hc _]. unfold tok_char in Hc. rewrite !andb_true_iff in Hc. destruct Hc as [[[Hc0%negb_true_iff Hcw%negb_true_iff] Hcs%negb_true_iff] Hcc%negb_true_iff].
  eapply move_start; [exact Hws| |exact E|]; [unfold is_white; by rewrite Hcw, andb_false_r|]. intros tp1 Ha Hcfg. rewrite Hc0, Hcc, Hcs.
  assert (find_char c (tc_quote_tokens_begin (tp_cfg tp) ++ [0]) = Some None) as ->.
  { clear - Hq Hq0 Hc0. apply Z.eqb_neq in Hc0. induction (tc_quote_tokens_begin (tp_cfg tp)) as [|d l IH]; cbn [app find_char].
    - by rewrite (proj2 (Z.eqb_neq 0 c)) by done.
    - apply not_elem_of_cons in Hq as [Hcd Hq]. rewrite (proj2 (Z.eqb_neq d c)) by done. rewrite (proj2 (Z.eqb_neq d 0)) by (intros ->; apply Hq0; by left).
      rewrite IH; [done|done|]. intros H. apply Hq0. by right. }
  apply (run_bind _ _ _ (fun r tp' => r = YAZ_TOK_STRING /\ remaining tp' = x :: q /\ same_cfg tp tp' /\ tp_wr_string tp' = c :: w)).
  - eapply run_lift; [done|]. apply run_modify. eapply run_bind; [eapply (string_runs (tp_cfg tp) x q Hx (c :: w)); [done|done|exact Ha|]|].
    { apply (f_equal length) in E. rewrite length_app in E. cbn in E. rewrite length_app in E. cbn in E. unfold remaining in E. destruct (tp_unget_byte tp =? 0); cbn in E |- *; lia. }
    intros ch tp2 (-> & [H1 H1'] & H2 & H3). unfold unget_byte. apply run_modify, run_ret. unfold same_cfg, remaining in *. cbn in *. rewrite H1'.
    split_and!; [done|by destruct (Z.eqb_spec x 0) as [->|]|congruence|by rewrite H3].
  - intros r tp2 (-> & H1 & H2 & H3). apply run_modify, run_ret. by split_and!.
Qed.

Lemma move_single tp ws x q : Forall (fun c => is_white (tp_cfg tp) c = true) ws -> is_white (tp_cfg tp) x = false -> x <> 0 -> strchr (tc_comment (tp_cfg tp)) x = false ->
  strchr (tc_single_tokens (tp_cfg tp)) x = true -> x <> YAZ_TOK_STRING -> remaining tp = ws ++ x :: q -> run yaz_tok_move tp (moved tp x [] q).
Proof.
  intros Hws Hw H0 Hc Hs Hx E. unfold yaz_tok_move. apply run_get. cbv zeta. eapply move_start; [exact Hws|exact Hw|exact E|]. intros tp1 Ha Hcfg.
  rewrite (proj2 (Z.eqb_neq x 0) H0), Hc, Hs. apply (run_bind _ _ _ (fun r tp' => r = x /\ tp' = tp1)); [by apply run_ret|]. intros r tp' [-> ->]. apply run_modify, run_ret.
  apply at_char_remaining in Ha. rewrite (proj2 (Z.eqb_neq x 0) H0) in Ha. by split_and!.
Qed.

Lemma move_end tp ws q : Forall (fun c => is_white (tp_cfg tp) c = true) ws -> remaining tp = ws ++ 0 :: q -> run yaz_tok_move tp (moved tp YAZ_TOK_EOF [] (0 :: q)).
Proof.
  intros Hws E. unfold yaz_tok_move. apply run_get. cbv zeta. eapply (move_start tp ws 0 q); [exact Hws|done|exact E|]. intros tp1 Ha Hcfg. cbn [Z.eqb].
  apply (run_bind _ _ _ (fun r tp' => r = YAZ_TOK_EOF /\ tp' = tp1)); [by apply run_ret|]. intros r tp' [-> ->]. apply run_modify, run_ret.
  apply at_char_remaining in Ha. by split_and!.
Qed.

(** A quoted string that is not empty is never left. *)
Lemma quote_never_ends fuel ch end_ch : ch <> 0 -> ch <> end_ch -> forall tp, quote_loop fuel ch end_ch tp = None.
Proof.
  intros H0 H1. induction fuel as [|fuel IH]; intros tp; [done|]. cbn [quote_loop]. rewrite (proj2 (Z.eqb_neq ch 0) H0), (proj2 (Z.eqb_neq ch end_ch) H1). cbn [negb andb].
  unfold put_byte. rewrite bind_modify. apply IH.
Qed.
