(* ===== verification/Cql.v ===== *)
(** * Trees of CQL queries (cql.h, cqlutil.c, proxunit.c) *)

From stdpp Require Import base list numbers option strings.
From Stdlib Require Import ZArith Lia.
From S2P Require Import Prelude Text.

(** A search clause, without the lists it begins; pointers may be null. *)
Record cql_st := St {
  st_index : option (list Z);
  st_index_uri : option (list Z);
  st_term : option (list Z);
  st_relation : option (list Z);
  st_relation_uri : option (list Z);
}.

(** Modifiers and extra terms are clauses too, linked by these members. *)
Inductive cql_node :=
  | CQL_NODE_ST (st : cql_st) (modifiers extra_terms : list cql_st)
  | CQL_NODE_BOOL (value : list Z) (left right : cql_node) (modifiers : list cql_st)
  | CQL_NODE_SORT (index : option (list Z)) (modifiers : list cql_st) (next : list (option (list Z) * list cql_st)) (search : cql_node).

(** ** Strings without case *)

(** A [char], with letters in lower case. *)
Definition cql_fold (c : Z) : Z := let c := s8 c in if (65 <=? c) && (c <=? 90) then c + 32 else c.

Fixpoint cql_strcmp (s1 s2 : list Z) : option Z :=
  match s1, s2 with
  | a :: r1, b :: r2 =>
      if (a =? 0) || (b =? 0) then Some (s8 a - s8 b)
      else if cql_fold a =? cql_fold b then cql_strcmp r1 r2
      else Some (cql_fold a - cql_fold b)
  | _, _ => None
  end.
Definition cql_same (s1 s2 : list Z) : option bool := let? d := cql_strcmp s1 s2 in Some (d =? 0).

Fixpoint cql_strncmp (s1 s2 : list Z) (n : nat) : option Z :=
  match s1, s2 with
  | a :: r1, b :: r2 =>
      match n with
      | O => Some 0
      | S n =>
          if (a =? 0) || (b =? 0) then Some (s8 a - s8 b)
          else if cql_fold a =? cql_fold b then cql_strncmp r1 r2 n
          else Some (cql_fold a - cql_fold b)
      end
  | _, _ => None
  end.

(** ** Nodes *)

(** [nmem_strdup] of a string, and of a pointer that may be null. *)
Definition dup_str (m : list Z) : option (list Z) := let? t := cstr m in Some (t ++ [0]).
Definition dup_null (m : option (list Z)) : option (option (list Z)) :=
  match m with Some m => Some <$> dup_str m | None => Some None end.

Definition cql_node_mk_sc (index relation term : option (list Z)) : option cql_st :=
  let? i := dup_null index in
  let? t := dup_null term in
  let? r := dup_null relation in
  Some (St i None t r None).

(** A clause is copied with its URIs; the links are copied by the caller. *)
Definition dup_st (st : cql_st) : option cql_st :=
  let? c := cql_node_mk_sc (st_index st) (st_relation st) (st_term st) in
  let? iu := dup_null (st_index_uri st) in
  let? ru := dup_null (st_relation_uri st) in
  Some (St (st_index c) iu (st_term c) (st_relation c) ru).

(** Extra terms and the modifiers of operators are not copied; those of a
    sort specification are shared. *)
Fixpoint cql_node_dup (cp : cql_node) : option cql_node :=
  match cp with
  | CQL_NODE_ST st mods _ =>
      let? st := dup_st st in
      let? mods := mapM dup_st mods in
      Some (CQL_NODE_ST st mods [])
  | CQL_NODE_BOOL value l r _ =>
      let? value := dup_str value in
      let? l := cql_node_dup l in
      let? r := cql_node_dup r in
      Some (CQL_NODE_BOOL value l r [])
  | CQL_NODE_SORT index mods next search =>
      let? index := dup_null index in
      let? next := mapM (fun '(i, m) => let? i := dup_null i in Some (i, m)) next in
      let? search := cql_node_dup search in
      Some (CQL_NODE_SORT index mods next search)
  end.

Definition cql_uri : list Z := str "info:srw/cql-context-set/1/cql-v1.2" ++ [0].

(** ** Prefixes *)

(** The rest of a name after the prefix and a dot. *)
Definition after_prefix (prefix : option (list Z)) (name : list Z) : option (option (list Z)) :=
  let? cp := find_char 46 name in
  match prefix, cp with
  | Some prefix, Some p =>
      let? n := strlen prefix in
      if n =? p then
        let? d := cql_strncmp name prefix (Z.to_nat n) in
        Some (if d =? 0 then Some (drop (Z.to_nat (p + 1)) name) else None)
      else Some None
  | _, _ => Some None
  end.

(** A name that has no URI yet, and its URI. *)
Definition apply_to_name (prefix : option (list Z)) (uri : list Z) (bare : bool) (name name_uri : option (list Z))
  : option (option (list Z) * option (list Z)) :=
  match name_uri, name with
  | None, Some n =>
      let? r := after_prefix prefix n in
      match r with
      | Some rest => let? rest := dup_str rest in let? u := dup_str uri in Some (Some rest, Some u)
      | None =>
          let? cp := find_char 46 n in
          match prefix, cp with
          | None, None => if bare then let? u := dup_str uri in Some (name, Some u) else Some (name, None)
          | _, _ => Some (name, None)
          end
      end
  | _, _ => Some (name, name_uri)
  end.

Definition apply_to_mod (prefix : option (list Z)) (uri : list Z) (st : cql_st) : option cql_st :=
  let? (i, iu) := apply_to_name prefix uri false (st_index st) (st_index_uri st) in
  Some (St i iu (st_term st) (st_relation st) (st_relation_uri st)).

Definition apply_to_st (prefix : option (list Z)) (uri : list Z) (st : cql_st) : option cql_st :=
  let? (i, iu) := apply_to_name prefix uri true (st_index st) (st_index_uri st) in
  let? (r, ru) := apply_to_name prefix uri false (st_relation st) (st_relation_uri st) in
  Some (St i iu (st_term st) r ru).

Fixpoint cql_apply_prefix (prefix : option (list Z)) (uri : list Z) (n : cql_node) : option cql_node :=
  match n with
  | CQL_NODE_ST st mods extra =>
      let? st := apply_to_st prefix uri st in
      let? mods := mapM (apply_to_mod prefix uri) mods in
      Some (CQL_NODE_ST st mods extra)
  | CQL_NODE_BOOL value l r mods =>
      let? l := cql_apply_prefix prefix uri l in
      let? r := cql_apply_prefix prefix uri r in
      Some (CQL_NODE_BOOL value l r mods)
  | CQL_NODE_SORT index mods next search =>
      let? search := cql_apply_prefix prefix uri search in
      Some (CQL_NODE_SORT index mods next search)
  end.

(** ** Units of proximity (proxunit.c) *)

Definition units : list (list Z) :=
  [str "character"; str "word"; str "sentence"; str "paragraph"; str "section"; str "chapter"; str "document";
   str "element"; str "subelement"; str "elementType"; str "byte"].
Definition z_ProxUnit_to_str (u : Z) : option (list Z) := if (1 <=? u) && (u <=? 11) then rd units (u - 1) else None.

Fixpoint find_unit (i : Z) (us : list (list Z)) (s : list Z) : option Z :=
  match us with
  | [] => Some 0
  | u :: us => let? same := str_same (u ++ [0]) s in if same : bool then Some i else find_unit (i + 1) us s
  end.
Definition z_str_to_ProxUnit (s : list Z) : option Z := find_unit 1 units s.

(** ** Output *)

(** The buffer that output goes to; the offset is negative after an overflow. *)
Record cql_buf_write_info := Info {
  i_max : Z;
  i_off : Z;
  i_buf : list Z;
}.

Definition cql_buf_write_handler (b : list Z) : M cql_buf_write_info unit :=
  let* info := get in
  let* l := lift (strlen b) in
  if (i_off info <? 0) || (i_max info <=? i_off info + l) then put (Info (i_max info) (-1) (i_buf info))
  else
    let* bs := lift (sub b 0 l) in
    let* buf := lift (splice (i_buf info) (i_off info) bs) in
    put (Info (i_max info) (i_off info + l) buf).
