(* ===== verification/CqlTransform.v ===== *)
(** * CQL to PQF (cqltransform.c) *)

From stdpp Require Import base list numbers option strings.
From Stdlib Require Import ZArith Lia.
From S2P Require Import Prelude Text OidDb Rpn Tokenizer Cql.

(** ** Diagnostics (srw.csv) *)

Definition YAZ_SRW_TOO_MANY_CHARS_IN_QUERY : Z := 12.
Definition YAZ_SRW_UNSUPP_CONTEXT_SET : Z := 15.
Definition YAZ_SRW_UNSUPP_INDEX : Z := 16.
Definition YAZ_SRW_UNSUPP_RELATION : Z := 19.
Definition YAZ_SRW_UNSUPP_RELATION_MODIFIER : Z := 20.
Definition YAZ_SRW_UNSUPP_COMBI_OF_RELATION_AND_TERM : Z := 24.
Definition YAZ_SRW_MASKING_CHAR_UNSUPP : Z := 28.
Definition YAZ_SRW_ANCHORING_CHAR_IN_UNSUPP_POSITION : Z := 32.
Definition YAZ_SRW_UNSUPP_PROX_RELATION : Z := 40.
Definition YAZ_SRW_UNSUPP_PROX_UNIT : Z := 42.
Definition YAZ_SRW_UNSUPP_BOOLEAN_MODIFIER : Z := 46.

(** ** Profiles *)

Record cql_prop_entry := Prop_entry {
  e_pattern : list Z;
  e_value : list Z;
  e_attr_list : list Z_AttributeElement;
}.

(** The entries, and the last error with its text. *)
Record cql_transform_t := Transform {
  ct_entry : list cql_prop_entry;
  ct_tok_cfg : yaz_tok_cfg;
  ct_error : Z;
  ct_addinfo : list Z;
}.

Definition cql_transform_create : cql_transform_t := Transform [] yaz_tok_cfg_create 0 [].
Definition cql_transform_set_error (error : Z) (addinfo : option (list Z)) (ct : cql_transform_t) : option cql_transform_t :=
  let? a := match addinfo with Some a => cstr a | None => Some [] end in
  Some (Transform (ct_entry ct) (ct_tok_cfg ct) error a).
Definition cql_transform_error (ct : cql_transform_t) : Z * option (list Z) :=
  (ct_error ct, if 0 <? zlen (ct_addinfo ct) then Some (ct_addinfo ct ++ [0]) else None).

Section define.
(** The standard database of object identifiers, and what fresh memory holds. *)
Context (std : yaz_oid_db) (junk : list Z).

(** [sscanf(s, "%lld", &v) == 1] and [v]. *)
Definition sscanf_lld (s : list Z) : option (option Z) :=
  let? s := skip_white s in
  let? c := rd s 0 in
  let? d := rd (if (c =? 43) || (c =? 45) then drop 1 s else s) 0 in
  if yaz_isdigit d then Some <$> odr_atoi s else Some None.

Definition profile_value (value_str : list Z) : option Z_AttributeValue :=
  let? c := rd value_str 0 in
  if yaz_isdigit c then let? n := atoi value_str in Some (AV_numeric n)
  else let? s := dup_str value_str in Some (AV_complex [SN_string s] []).

(** After the value or the = that is missing: failure, or go on. *)
Inductive line_result := Line_fails | Line_ends (ae : list Z_AttributeElement) (w : list Z).

(** The token [t] has been read; [ae] and [w] are what was collected. *)
Fixpoint line_loop (fuel : nat) (t : Z) (ae : list Z_AttributeElement) (w : list Z) : TOK line_result :=
  match fuel with
  | O => fault
  | S fuel =>
      if (t =? YAZ_TOK_STRING) && (zlen ae <? 20) then
        let* s1 := yaz_tok_parse_string in
        let* t1 := lift (cstr s1) in
        let w := w ++ t1 in
        let* t := yaz_tok_move in
        if t =? YAZ_TOK_EOF then ret (Line_ends ae w)
        else
          let* (set_, type_str, w, t) :=
            (if t =? YAZ_TOK_STRING then
               let* s2 := yaz_tok_parse_string in
               let* t2 := lift (cstr s2) in
               let* o := lift (yaz_string_to_oid_nmem std CLASS_ATTSET s1 junk) in
               let* t := yaz_tok_move in
               ret (o, s2, w ++ [32] ++ t2, t)
             else ret (None, s1, w, t)) in
          let* n := lift (sscanf_lld type_str) in
          match n with
          | None => ret Line_fails
          | Some n =>
              if negb (t =? 61) then ret Line_fails
              else
                let* t := yaz_tok_move in
                if negb (t =? YAZ_TOK_STRING) then ret Line_fails
                else
                  let* value_str := yaz_tok_parse_string in
                  let* v := lift (profile_value value_str) in
                  let* t3 := lift (cstr value_str) in
                  let* t := yaz_tok_move in
                  line_loop fuel t (ae ++ [Element set_ n v]) (w ++ [61] ++ t3 ++ [32])
          end
      else ret (Line_ends ae w)
  end.

(** The new entry is the last one. *)
Definition cql_transform_parse_tok_line (ct : cql_transform_t) (pattern : list Z) : TOK (Z * cql_transform_t) :=
  let* t := yaz_tok_move in
  let* r := line_loop 21 t [] [] in
  match r with
  | Line_fails => ret (-1, ct)
  | Line_ends ae w =>
      let* p := lift (dup_str pattern) in
      ret (0, Transform (ct_entry ct ++ [Prop_entry p (w ++ [0]) ae]) (ct_tok_cfg ct) (ct_error ct) (ct_addinfo ct))
  end.

Definition with_equals (ct : cql_transform_t) : cql_transform_t :=
  Transform (ct_entry ct) (yaz_tok_cfg_single_tokens (str "=") (ct_tok_cfg ct)) (ct_error ct) (ct_addinfo ct).

Definition cql_transform_define_pattern (ct : cql_transform_t) (pattern value : list Z) : option (Z * cql_transform_t) :=
  let ct := with_equals ct in
  fst <$> cql_transform_parse_tok_line ct pattern (yaz_tok_parse_buf (ct_tok_cfg ct) value).

(** A line of a profile: a pattern, = and its attributes; or nothing. *)
Definition define_line (ct : cql_transform_t) (line : list Z) : option (Z * cql_transform_t) :=
  fst <$> (let* t := yaz_tok_move in
           if t =? YAZ_TOK_STRING then
             let* s := yaz_tok_parse_string in
             let* pattern := lift (dup_str s) in
             let* t := yaz_tok_move in
             if negb (t =? 61) then ret (-1, ct)
             else cql_transform_parse_tok_line ct pattern
           else ret (if negb (t =? YAZ_TOK_EOF) then (-1, ct) else (0, ct))) (yaz_tok_parse_buf (ct_tok_cfg ct) line).

(** The lines as [fgets] returns them. *)
Fixpoint define_lines (ct : cql_transform_t) (lines : list (list Z)) : option (Z * cql_transform_t) :=
  match lines with
  | [] => Some (0, ct)
  | line :: lines =>
      let? (r, ct) := define_line ct line in
      if r =? 0 then define_lines ct lines else Some (r, ct)
  end.
Definition cql_transform_define_FILE (ct : cql_transform_t) (lines : list (list Z)) : option (Z * cql_transform_t) :=
  define_lines (with_equals ct) lines.
End define.

(** ** Lookup *)

(** [yaz_snprintf] to a buffer of 120 octets. *)
Definition dotted_name (parts : list (list Z)) : option (list Z) :=
  let? ts := mapM cstr parts in
  Some (take 119 (match ts with [] => [] | t :: ts => t ++ concat (map (cons 46) ts) end) ++ [0]).

Fixpoint find_property (entry : list cql_prop_entry) (pattern : list Z) : option (option (list Z)) :=
  match entry with
  | [] => Some None
  | e :: entry =>
      let? same := cql_same (e_pattern e) pattern in
      if same : bool then Some (Some (e_value e)) else find_property entry pattern
  end.

Definition cql_lookup_property (entry : list cql_prop_entry) (pat1 : list Z) (pat2 pat3 : option (list Z)) : option (option (list Z)) :=
  let? pattern := dotted_name (match pat2, pat3 with
                          | Some p2, Some p3 => [pat1; p2; p3]
                          | Some p2, None => [pat1; p2]
                          | None, Some p3 => [pat1; p3]
                          | None, None => [pat1]
                          end) in
  find_property entry pattern.

(** The prefix that stands for a URI. *)
Fixpoint find_prefix (entry : list cql_prop_entry) (uri : list Z) : option (option (list Z)) :=
  match entry with
  | [] => Some None
  | e :: entry =>
      let? set_ := mem_same (e_pattern e) (str "set.") 4 in
      let? same := if set_ : bool then str_same (e_value e) uri else Some false in
      if same : bool then Some (Some (drop 4 (e_pattern e))) else find_prefix entry uri
  end.

Section output.
(** The function that writes, and the state it changes. *)
Context {S : Type} (pr : list Z -> M S unit).

(** The other part of the state is the text of the diagnostic. *)
Abbreviation OUT := (M (S * list Z)).

Definition put_str (s : list Z) : OUT unit := fun '(o, a) => let? (_, o) := pr s o in Some (tt, (o, a)).
Definition put_lit (s : list Z) : OUT unit := put_str (s ++ [0]).
Definition put_char (c : Z) : OUT unit := put_str [c; 0].
Definition add_info (m : list Z) : OUT unit := let* t := lift (cstr m) in modify (fun '(o, a) => (o, a ++ t)).

Definition deref {T A} (p : option A) : M T A := lift p.
Definition is_str {T} (m : list Z) (s : list Z) : M T bool := lift (str_same m (s ++ [0])).

Section transform.
Context (entry : list cql_prop_entry).

Definition lookup (category : list Z) (prefix val : option (list Z)) : OUT (option (list Z)) := lift (cql_lookup_property entry category prefix val).

(** ['='] up to a blank or the end. *)
Fixpoint word_end (s : list Z) (n : Z) : option Z :=
  match s with
  | [] => None
  | c :: s => if (c =? 0) || (c =? 32) then Some n else word_end s (n + 1)
  end.
Fixpoint past_blanks (s : list Z) : option (list Z) :=
  match s with
  | [] => None
  | c :: r => if c =? 32 then past_blanks r else Some s
  end.

Fixpoint put_attr (eval : option (list Z)) (buf : list Z) : OUT unit :=
  match buf with
  | [] => ret tt
  | c :: buf =>
      (if c =? 42 then let* e := deref eval in put_str e else put_char c) ;;
      put_attr eval buf
  end.

Fixpoint put_attrs (fuel : nat) (eval : option (list Z)) (cp0 : list Z) : OUT unit :=
  match fuel with
  | O => fault
  | Datatypes.S fuel =>
      let* eq := lift (find_char 61 cp0) in
      match eq with
      | None => ret tt
      | Some p =>
          let* len := lift (word_end (drop (Z.to_nat p) cp0) p) in
          if 64 <=? len then ret tt
          else
            let* buf := lift (sub cp0 0 len) in
            put_lit (str "@attr ") ;;
            put_attr eval buf ;;
            put_lit (str " ") ;;
            let* cp0 := lift (past_blanks (drop (Z.to_nat len) cp0)) in
            put_attrs fuel eval cp0
      end
  end.

(** The other names of some relations. *)
Definition alias_of (val : list Z) : OUT (option (list Z)) :=
  let* e := is_str val (str "==") in
  let* eq := is_str val (str "=") in
  let* le := is_str val (str "<=") in
  let* ge := is_str val (str ">=") in
  ret (if ge : bool then Some (str "ge") else if le : bool then Some (str "le") else if eq : bool then Some (str "eq")
       else if e : bool then Some (str "exact") else None).

Definition attr_property (category : list Z) (uri val default_val : option (list Z)) : OUT (option (list Z)) :=
  let eval := match val with Some v => Some v | None => default_val end in
  let* prefix := match uri with Some u => lift (find_prefix entry u) | None => ret None end in
  if match uri, prefix with Some _, None => false | _, _ => true end then
    let* res := lookup category prefix eval in
    let* res :=
      (match res, prefix with
       | None, None =>
           let* relation := is_str category (str "relation") in
           if relation : bool then
             let* v := deref val in
             let* a := alias_of v in
             match a with Some a => lookup category prefix (Some (a ++ [0])) | None => ret None end
           else ret None
       | _, _ => ret res
       end) in
    match res with
    | Some r => ret (Some r)
    | None => lookup category prefix (Some (str "*" ++ [0]))
    end
  else ret None.

Definition cql_pr_attr_uri (category : list Z) (uri val default_val : option (list Z)) (errcode : Z) : OUT Z :=
  let eval := match val with Some v => Some v | None => default_val end in
  let* res := attr_property category uri val default_val in
  match res with
  | Some res => put_attrs (Datatypes.S (length res)) eval res ;; ret 0
  | None =>
      if errcode =? 0 then ret 1
      else
        (match val with Some v => add_info v | None => ret tt end) ;;
        ret errcode
  end.
Definition cql_pr_attr (category : list Z) (val default_val : option (list Z)) (errcode : Z) : OUT Z :=
  cql_pr_attr_uri (category ++ [0]) None val default_val errcode.

(** ** Proximity *)

Definition cql_pr_int (val : Z) : OUT unit := put_lit (take 20 (fmt_d val)) ;; put_lit (str " ").

(** [strtol(s, 0, 0)]: blanks, a sign, and digits of the base that the first ones tell. *)
Fixpoint base_digits (base : Z) (s : list Z) (v : Z) : option Z :=
  match s with
  | [] => None
  | c :: s =>
      let d := if yaz_isdigit c then c - 48 else if yaz_islower c then c - 87 else if yaz_isupper c then c - 55 else base in
      if d <? base then base_digits base s (v * base + d) else Some v
  end.
Definition is_hex (c : Z) : bool := yaz_isdigit c || ((97 <=? c) && (c <=? 102)) || ((65 <=? c) && (c <=? 70)).
Definition strtol_0 (s : list Z) : option Z :=
  let? s := skip_white s in
  let? sign := rd s 0 in
  let s := if (sign =? 43) || (sign =? 45) then drop 1 s else s in
  let? c := rd s 0 in
  let? hex := if c =? 48 then
                let? x := rd s 1 in
                if (x =? 120) || (x =? 88) then let? d := rd s 2 in Some (is_hex d) else Some false
              else Some false in
  let? v := if hex : bool then base_digits 16 (drop 2 s) 0 else base_digits (if c =? 48 then 8 else 10) s 0 in
  Some (Z.max (- 2 ^ 63) (Z.min (2 ^ 63 - 1) (if sign =? 45 then - v else v))).

Record prox := Prox_of {
  p_distance : Z;
  p_ordered : Z;
  p_proxrel : Z;
  p_unit : Z;
}.

(** The modifiers, or the diagnostic. *)
Fixpoint prox_mods (mods : list cql_st) (p : prox) : OUT (Z + prox) :=
  match mods with
  | [] => ret (inr p)
  | m :: mods =>
      let* name := deref (st_index m) in
      let* is_distance := is_str name (str "distance") in
      if is_distance : bool then
        let* term := deref (st_term m) in
        let* d := lift (strtol_0 term) in
        let* relation := deref (st_relation m) in
        let* eq := is_str relation (str "=") in
        let* gt := is_str relation (str ">") in
        let* lt := is_str relation (str "<") in
        let* ge := is_str relation (str ">=") in
        let* le := is_str relation (str "<=") in
        let* ne := is_str relation (str "<>") in
        let go r := prox_mods mods (Prox_of (s32 d) (p_ordered p) r (p_unit p)) in
        if eq : bool then go 3 else if gt : bool then go 5 else if lt : bool then go 1 else if ge : bool then go 4
        else if le : bool then go 2 else if ne : bool then go 6
        else add_info relation ;; ret (inl YAZ_SRW_UNSUPP_PROX_RELATION)
      else
        let* is_ordered := is_str name (str "ordered") in
        if is_ordered : bool then prox_mods mods (Prox_of (p_distance p) 1 (p_proxrel p) (p_unit p))
        else
          let* is_unordered := is_str name (str "unordered") in
          if is_unordered : bool then prox_mods mods (Prox_of (p_distance p) 0 (p_proxrel p) (p_unit p))
          else
            let* is_unit := is_str name (str "unit") in
            if is_unit : bool then
              let* term := deref (st_term m) in
              let* u := lift (z_str_to_ProxUnit term) in
              if u =? 0 then add_info term ;; ret (inl YAZ_SRW_UNSUPP_PROX_UNIT)
              else prox_mods mods (Prox_of (p_distance p) (p_ordered p) (p_proxrel p) u)
            else add_info name ;; ret (inl YAZ_SRW_UNSUPP_BOOLEAN_MODIFIER)
  end.

Definition cql_pr_prox (mods : list cql_st) : OUT Z :=
  let* r := prox_mods mods (Prox_of (-1) 0 2 2) in
  match r with
  | inl e => ret e
  | inr p =>
      cql_pr_int 0 ;;
      cql_pr_int (if p_distance p =? -1 then (if p_unit p =? 2 then 1 else 0) else p_distance p) ;;
      cql_pr_int (p_ordered p) ;;
      cql_pr_int (p_proxrel p) ;;
      put_lit (str "k ") ;;
      cql_pr_int (p_unit p) ;;
      ret 0
  end.

(** ** Terms *)

Fixpoint has_modifier (mods : list cql_st) (name : list Z) : OUT bool :=
  match mods with
  | [] => ret false
  | m :: mods =>
      match st_term m with
      | None =>
          let* index := deref (st_index m) in
          let* same := is_str index name in
          if same : bool then ret true else has_modifier mods name
      | Some _ => has_modifier mods name
      end
  end.

(** Where a term has masks: [anchor] and [trunc] have bit 1 for the start and bit 2 for the end. *)
Record masks := Masks {
  anchor : Z;
  trunc : Z;
  z3958_mode : bool;
}.
Fixpoint scan_masks (length i : Z) (term : list Z) (m : masks) : masks :=
  match term with
  | [] => m
  | c :: rest =>
      if (c =? 92) && (i <? length - 1) then
        match rest with
        | [] => m
        | _ :: rest => scan_masks length (i + 2) rest m
        end
      else
        let m :=
          if c =? 94 then
            if i =? 0 then Masks (Z.lor (anchor m) 1) (trunc m) (z3958_mode m)
            else if i =? length - 1 then Masks (Z.lor (anchor m) 2) (trunc m) (z3958_mode m) else m
          else if c =? 42 then
            if i =? 0 then Masks (anchor m) (Z.lor (trunc m) 1) (z3958_mode m)
            else if i =? length - 1 then Masks (anchor m) (Z.lor (trunc m) 2) (z3958_mode m)
            else Masks (anchor m) (trunc m) true
          else if c =? 63 then Masks (anchor m) (trunc m) true
          else m in
        scan_masks length (i + 1) rest m
  end.

(** The term without masks at its ends; [None] is a diagnostic. *)
Definition drop_left (n : Z) (term : list Z) : OUT (list Z) := lift (sub term n (zlen term - n)).
Definition drop_right (term : list Z) : OUT (list Z) := lift (sub term 0 (zlen term - 1)).

Definition emit_position (m : masks) (term : list Z) : OUT (Z * list Z) :=
  let pos val := cql_pr_attr (str "position") (Some (val ++ [0])) None YAZ_SRW_ANCHORING_CHAR_IN_UNSUPP_POSITION in
  if anchor m =? 3 then
    let* r := pos (str "firstAndLast") in
    if negb (r =? 0) then ret (r, term) else let* t := lift (sub term 1 (zlen term - 2)) in ret (0, t)
  else if anchor m =? 1 then
    let* r := pos (str "first") in
    if negb (r =? 0) then ret (r, term) else let* t := drop_left 1 term in ret (0, t)
  else if anchor m =? 2 then
    let* r := pos (str "last") in
    if negb (r =? 0) then ret (r, term) else let* t := drop_right term in ret (0, t)
  else
    let* r := pos (str "any") in
    ret (r, term).

(** The mode afterwards, and the term. *)
Definition emit_truncation (m : masks) (term : list Z) : OUT (bool * list Z) :=
  let tr val := cql_pr_attr (str "truncation") (Some (val ++ [0])) None 0 in
  if z3958_mode m then ret (true, term)
  else if trunc m =? 3 then
    let* r := tr (str "both") in
    if r =? 0 then let* t := lift (sub term 1 (zlen term - 2)) in ret (false, t) else ret (true, term)
  else if trunc m =? 1 then
    let* r := tr (str "left") in
    if r =? 0 then let* t := drop_left 1 term in ret (false, t) else ret (true, term)
  else if trunc m =? 2 then
    let* r := tr (str "right") in
    if r =? 0 then let* t := drop_right term in ret (false, t) else ret (true, term)
  else tr (str "none") ;; ret (false, term).

Definition one_of (s : list Z) (c : Z) : bool := strchr s c.

Fixpoint emit_masked (z3958 : bool) (term : list Z) : OUT unit :=
  match term with
  | [] => ret tt
  | c :: rest =>
      match rest with
      | x :: rest' =>
          if c =? 92 then
            (if one_of [34; 92] x then put_lit [92] else ret tt) ;;
            (if z3958 && one_of [35; 63] x then put_lit [92; 92] else ret tt) ;;
            put_char x ;;
            emit_masked z3958 rest'
          else if z3958 && (c =? 42) then
            put_lit (str "?") ;;
            (if yaz_isdigit x then put_lit [92; 92] else ret tt) ;;
            emit_masked z3958 rest
          else if z3958 && (c =? 63) then put_lit (str "#") ;; emit_masked z3958 rest
          else
            (if c =? 34 then put_lit [92] else ret tt) ;;
            (if z3958 && one_of [35; 63] c then put_lit [92; 92] else ret tt) ;;
            put_char c ;;
            emit_masked z3958 rest
      | [] =>
          if z3958 && (c =? 42) then put_lit (str "?")
          else if z3958 && (c =? 63) then put_lit (str "#")
          else
            (if c =? 34 then put_lit [92] else ret tt) ;;
            (if z3958 && one_of [35; 63] c then put_lit [92; 92] else ret tt) ;;
            put_char c
      end
  end.
Fixpoint emit_plain (term : list Z) : OUT unit :=
  match term with [] => ret tt | c :: term => put_char c ;; emit_plain term end.

Fixpoint emit_modifiers (mods : list cql_st) : OUT Z :=
  match mods with
  | [] => ret 0
  | m :: mods =>
      match st_term m with
      | None =>
          let* r := cql_pr_attr (str "relationModifier") (st_index m) None YAZ_SRW_UNSUPP_RELATION_MODIFIER in
          if negb (r =? 0) then ret r else emit_modifiers mods
      | Some _ => emit_modifiers mods
      end
  end.

(** Masks are processed unless a modifier or the profile says not to. *)
Definition emit_masks (mods : list cql_st) (term : list Z) : OUT (Z * option bool * list Z) :=
  let* regexp := has_modifier mods (str "regexp") in
  let* unmasked := (if regexp : bool then ret true else has_modifier mods (str "unmasked")) in
  if unmasked : bool then ret (0, None, term)
  else
    let* native := lookup (str "truncation" ++ [0]) None (Some (str "cql" ++ [0])) in
    match native with
    | Some _ =>
        let* r := cql_pr_attr (str "truncation") (Some (str "cql" ++ [0])) None YAZ_SRW_MASKING_CHAR_UNSUPP in
        ret (r, None, term)
    | None =>
        let m := scan_masks (zlen term) 0 term (Masks 0 0 false) in
        let* (r, term) := emit_position m term in
        if negb (r =? 0) then ret (r, None, term)
        else
          let* (z3958, term) := emit_truncation m term in
          if z3958 : bool then
            let* r := cql_pr_attr (str "truncation") (Some (str "z3958" ++ [0])) None YAZ_SRW_MASKING_CHAR_UNSUPP in
            ret (r, Some true, term)
          else ret (0, Some false, term)
    end.

Definition emit_term (st : cql_st) (mods : list cql_st) (mem : list Z) (length : Z) : OUT Z :=
  let* term := lift (sub mem 0 length) in
  let* (r, mode, term) := emit_masks mods term in
  if negb (r =? 0) then ret r
  else
    let* r := (match st_index_uri st with
               | Some ns => cql_pr_attr_uri (str "index" ++ [0]) (Some ns) (st_index st) (Some (str "serverChoice" ++ [0])) YAZ_SRW_UNSUPP_INDEX
               | None => ret 0
               end) in
    if negb (r =? 0) then ret r
    else
      let* r := emit_modifiers mods in
      if negb (r =? 0) then ret r
      else
        put_lit [34] ;;
        (match mode with Some z3958 => emit_masked z3958 term | None => emit_plain term end) ;;
        put_lit [34; 32] ;;
        ret 0.

(** ** Clauses *)

Definition put_op (op : list Z) : OUT unit := put_lit (str "@") ;; put_lit op ;; put_lit (str " ").

Definition emit_str (st : cql_st) (mods : list cql_st) (mem : list Z) : OUT Z :=
  let* n := lift (strlen mem) in emit_term st mods mem n.

Fixpoint emit_extra (st : cql_st) (mods : list cql_st) (op : list Z) (ne : list cql_st) : OUT Z :=
  match ne with
  | [] => ret 0
  | e :: ne =>
      (match ne with [] => ret tt | _ => put_op op end) ;;
      let* t := deref (st_term e) in
      let* r := emit_str st mods t in
      if negb (r =? 0) then ret r else emit_extra st mods op ne
  end.
Definition emit_terms (st : cql_st) (mods extra : list cql_st) (op : list Z) : OUT Z :=
  (match extra with [] => ret tt | _ => put_op op end) ;;
  let* t := deref (st_term st) in
  let* r := emit_str st mods t in
  if negb (r =? 0) then ret r else emit_extra st mods op extra.

(** The words of a term; the last one is emitted when the next one is found. *)
Fixpoint word_loop (fuel : nat) (st : cql_st) (mods : list cql_st) (op : list Z) (cp0 : list Z) (last : option (list Z * Z)) : OUT Z :=
  match fuel with
  | O => fault
  | Datatypes.S fuel =>
      let* cp0 := lift (past_blanks cp0) in
      let* cp1 := lift (find_char 32 cp0) in
      let* r := (match last with
                 | Some (t, n) => put_op op ;; emit_term st mods t n
                 | None => ret 0
                 end) in
      let* n := (match cp1 with Some n => ret n | None => lift (strlen cp0) end) in
      if negb (r =? 0) then ret r
      else match cp1 with
           | Some p => word_loop fuel st mods op (drop (Z.to_nat p) cp0) (Some (cp0, n))
           | None => emit_term st mods cp0 n
           end
  end.
Definition emit_wordlist (st : cql_st) (mods : list cql_st) (op : list Z) : OUT Z :=
  match st_term st with
  | None => ret 0
  | Some t => word_loop (Datatypes.S (length t)) st mods op t None
  end.

(** Modifiers with a value begin a proximity each; they may only have [=]. *)
Fixpoint begin_values (mods : list cql_st) : OUT Z :=
  match mods with
  | [] => ret 0
  | m :: mods =>
      match st_term m with
      | None => begin_values mods
      | Some _ =>
          let* bad := (match st_relation m with Some rel => let* eq := is_str rel (str "=") in ret (negb eq) | None => ret false end) in
          if bad : bool then
            let* rel := deref (st_relation m) in
            add_info rel ;; ret YAZ_SRW_UNSUPP_RELATION
          else
            put_lit (str "@prox 0 0 0 0 k 8 ") ;;
            begin_values mods
      end
  end.
Fixpoint end_values (r : Z) (mods : list cql_st) : OUT Z :=
  match mods with
  | [] => ret r
  | m :: mods =>
      match st_term m with
      | None => end_values r mods
      | Some t =>
          let* r := cql_pr_attr_uri (str "index" ++ [0]) (st_index_uri m) (st_index m) (Some (str "serverChoice" ++ [0])) YAZ_SRW_UNSUPP_INDEX in
          if negb (r =? 0) then ret r else put_str t ;; put_lit (str " ") ;; end_values r mods
      end
  end.

Definition is_relation (st : cql_st) (name : list Z) : OUT bool :=
  match st_relation st with Some rel => lift (cql_same rel (name ++ [0])) | None => ret false end.

Definition emit_clause (st : cql_st) (mods extra : list cql_st) : OUT Z :=
  match st_index_uri st with
  | None => ret YAZ_SRW_UNSUPP_CONTEXT_SET
  | Some ns =>
      let* is_cql := lift (str_same ns cql_uri) in
      let* is_set := (match st_index st with
                      | Some i => if is_cql : bool then lift (cql_same i (str "resultSet" ++ [0])) else ret false
                      | None => ret false
                      end) in
      if is_set : bool then
        put_lit (str "@set " ++ [34]) ;;
        let* t := deref (st_term st) in
        put_str t ;;
        put_lit [34; 32] ;;
        ret 0
      else
        let* r := begin_values mods in
        if negb (r =? 0) then ret r
        else
          cql_pr_attr (str "always") None None 0 ;;
          let* r := cql_pr_attr (str "relation") (st_relation st) None YAZ_SRW_UNSUPP_RELATION in
          if negb (r =? 0) then ret r
          else
            let* r := cql_pr_attr (str "structure") (st_relation st) None YAZ_SRW_UNSUPP_COMBI_OF_RELATION_AND_TERM in
            if negb (r =? 0) then ret r
            else
              let* all := is_relation st (str "all") in
              let* any := is_relation st (str "any") in
              let* r := (if all : bool then emit_wordlist st mods (str "and")
                         else if any : bool then emit_wordlist st mods (str "or")
                         else emit_terms st mods extra (str "and")) in
              end_values r mods
  end.

Fixpoint emit_node (cn : cql_node) : OUT Z :=
  match cn with
  | CQL_NODE_ST st mods extra => emit_clause st mods extra
  | CQL_NODE_BOOL value l r mods =>
      put_lit (str "@") ;;
      put_str value ;;
      put_lit (str " ") ;;
      let* is_prox := is_str value (str "prox") in
      let* e := (if is_prox : bool then cql_pr_prox mods
                 else match mods with
                      | [] => ret 0
                      | m :: _ => let* name := deref (st_index m) in add_info name ;; ret YAZ_SRW_UNSUPP_BOOLEAN_MODIFIER
                      end) in
      if negb (e =? 0) then ret e
      else
        let* e := emit_node l in
        if negb (e =? 0) then ret e else emit_node r
  | CQL_NODE_SORT _ _ _ search => emit_node search
  end.

(** The prefixes of the profile are applied to the tree. *)
Fixpoint apply_entries (es : list cql_prop_entry) (cn : cql_node) : option cql_node :=
  match es with
  | [] => Some cn
  | e :: es =>
      let? d := cql_strncmp (e_pattern e) (str "set." ++ [0]) 4 in
      let? cn := (if d =? 0 then cql_apply_prefix (Some (drop 4 (e_pattern e))) (e_value e) cn
                  else
                    let? same := cql_same (e_pattern e) (str "set" ++ [0]) in
                    if same : bool then cql_apply_prefix None (e_value e) cn else Some cn) in
      apply_entries es cn
  end.

Definition cql_transform_r (cn : cql_node) : OUT Z :=
  let* cn := lift (apply_entries entry cn) in
  emit_node cn.
End transform.

(** The handle gets the error. *)
Definition cql_transform (ct : cql_transform_t) (cn : cql_node) (o : S) : option (Z * cql_transform_t * S) :=
  let? (r, s) := cql_transform_r (ct_entry ct) cn (o, []) in
  let? ct := cql_transform_set_error r (Some (snd s ++ [0])) ct in
  Some (r, ct, fst s).
End output.

Definition cql_transform_buf (ct : cql_transform_t) (cn : cql_node) (out : list Z) (max : Z) : option (Z * cql_transform_t * list Z) :=
  let? (r, ct, info) := cql_transform cql_buf_write_handler ct cn (Info max 0 out) in
  if i_off info <? 0 then
    let? ct := cql_transform_set_error YAZ_SRW_TOO_MANY_CHARS_IN_QUERY (Some (fmt_d max ++ [0])) ct in
    Some (-1, ct, i_buf info)
  else
    let? buf := splice (i_buf info) (i_off info) [0] in
    Some (r, ct, buf).
