(* ===== verification/CqlSink.v ===== *)
(** * Where the PQF of CQL trees goes (cqltransform.c, xcqlutil.c)

    The interface of writers, its two instances, and what the attributes of a
    profile write. *)

From stdpp Require Import base list numbers option strings.
From Stdlib Require Import ZArith Lia.
From S2P Require Import Prelude Text MatchStr OidUtil OidDb Wrbuf Rpn Pqf PqfText PqfRound Tokenizer Cql CqlTransform.

(** ** Where output goes *)

(** What a writer promises: after writing it holds the text that it held and
    what was written. *)
Class Sink {S : Type} (pr : list Z -> M S unit) := {
  holds : S -> list Z -> Prop;
  sink_write : forall o t w rest, holds o t -> nonzero w -> exists o', pr (w ++ 0 :: rest) o = Some (tt, o') /\ holds o' (t ++ w);
}.

(** A growing buffer. *)
#[export] Instance wrbuf_sink : Sink wrbuf_puts.
Proof.
  refine {| holds b t := wrbuf_ok b /\ contents b = t |}. intros b t w rest [Hb <-] Hw.
  destruct (appends_puts w rest Hw b Hb) as ([] & b' & E & Hb' & Hc). by exists b'.
Defined.

Lemma splice_over (t r w tail : list Z) : zlen w <= zlen r -> splice (t ++ r ++ tail) (zlen t) w = Some (t ++ w ++ drop (length w) r ++ tail).
Proof.
  intros H. pose proof (zlen_nonneg t). pose proof (zlen_nonneg tail). rewrite splice_spec; [|done|zl]. unfold zlen in *. rewrite Nat2Z.id, take_app_length, drop_app_add, drop_app_le by lia.
  done.
Qed.

(** A buffer of a fixed size, and the memory after it: when the text does not fit, it says so. *)
#[export] Instance buf_sink (max : Z) (tail : list Z) : Sink cql_buf_write_handler.
Proof.
  refine {| holds i t := i_max i = max /\
    ((exists r, i_buf i = t ++ r ++ tail /\ zlen t + zlen r = max /\ 0 < zlen r /\ i_off i = zlen t) \/
     (max <= zlen t /\ i_off i = -1 /\ exists body, i_buf i = body ++ tail /\ zlen body = max)) |}.
  intros [max' off buf] t w rest [Hmax H] Hw. cbn [i_max i_off i_buf] in *. subst max'. unfold cql_buf_write_handler. rewrite bind_get. cbn [i_max i_off i_buf].
  rewrite strlen_spec by done. cbn [lift bind]. pose proof (zlen_nonneg w) as Hwl. pose proof (zlen_nonneg t) as Htl.
  destruct H as [(r & -> & H1 & H2 & ->)|(H1 & -> & body & -> & H2)].
  - rewrite (proj2 (Z.ltb_ge (zlen t) 0)) by done. cbn [orb]. destruct (Z.leb_spec max (zlen t + zlen w)) as [Ho|Ho].
    + eexists. split; [done|]. cbn [i_max i_off i_buf]. split; [done|]. right. split; [zl|]. split; [done|]. exists (t ++ r). by rewrite <- app_assoc, zlen_app.
    + rewrite sub_all. cbn [lift bind]. rewrite splice_over by lia. eexists. split; [done|]. cbn [i_max i_off i_buf]. split; [done|].
      left. exists (drop (length w) r). rewrite <- app_assoc. assert (zlen (drop (length w) r) = zlen r - zlen w) as E by (unfold zlen in *; rewrite length_drop; lia).
      rewrite E, !zlen_app. split_and!; [done|lia..].
  - change (-1 <? 0) with true. cbn [orb]. eexists. split; [done|]. cbn [i_max i_off i_buf]. split; [done|]. right. split; [zl|]. by eauto.
Defined.

Section sink.
Context {S : Type} (pr : list Z -> M S unit) `{!Sink pr}.
Abbreviation OUT := (M (S * list Z)).

(** The program returns [r] and writes [w]. *)
Definition sends {A} (m : OUT A) (r : A) (w : list Z) : Prop :=
  forall o a t, holds o t -> exists o', m (o, a) = Some (r, (o', a)) /\ holds o' (t ++ w).

Lemma sends_ret {A} (r : A) : sends (ret r) r [].
Proof. intros o a t H. exists o. by rewrite app_nil_r. Qed.

Lemma sends_bind {A B} (m : OUT A) (k : A -> OUT B) r1 r2 w1 w2 : sends m r1 w1 -> sends (k r1) r2 w2 -> sends (bind m k) r2 (w1 ++ w2).
Proof.
  intros H1 H2 o a t H. destruct (H1 o a t H) as (o1 & E1 & G1). destruct (H2 o1 a _ G1) as (o2 & E2 & G2). exists o2. rewrite (bind_Some _ _ _ _ _ E1).
  split; [done|]. by rewrite app_assoc.
Qed.

(** A step that writes nothing. *)
Lemma sends_silent {A B} (m : OUT A) (k : A -> OUT B) r1 r2 w : (forall s, m s = Some (r1, s)) -> sends (k r1) r2 w -> sends (bind m k) r2 w.
Proof. intros H1 H2 o a t H. rewrite (bind_Some _ _ _ _ _ (H1 _)). by apply H2. Qed.

Lemma sends_lift {A B} (x : option A) (k : A -> OUT B) r1 r2 w : x = Some r1 -> sends (k r1) r2 w -> sends (bind (lift x) k) r2 w.
Proof. intros -> H. apply (sends_silent _ _ r1); [done|exact H]. Qed.

Lemma sends_eq {A} (m : OUT A) r w w' : w' = w -> sends m r w -> sends m r w'.
Proof. by intros ->. Qed.

Lemma sends_put w rest : nonzero w -> sends (put_str pr (w ++ 0 :: rest)) tt w.
Proof. intros Hw o a t H. destruct (sink_write o t w rest H Hw) as (o' & E & H'). exists o'. unfold put_str. rewrite E. by split. Qed.

Lemma sends_put_lit w : forallb (fun c => negb (c =? 0)) w = true -> sends (put_lit pr w) tt w.
Proof. intros Hw. by apply sends_put, nonzero_lit. Qed.

Lemma sends_char c : c <> 0 -> sends (put_char pr c) tt [c].
Proof. intros Hc. apply (sends_put [c] []). by constructor. Qed.

(** ** Attributes *)

Section profile.
Context (std : yaz_oid_db) (entry : list cql_prop_entry).

Definition elem_text (e : Z_AttributeElement) : list Z := set_text std (attributeSet e) ++ fmt_d (attributeType e) ++ [61] ++ value_text (value e).

Lemma attr_text_elem e : attr_text std e = str "@attr " ++ elem_text e ++ [32].
Proof. unfold attr_text, elem_text. by rewrite <- !app_assoc. Qed.

(** An asterisk stands for the value that was looked up. *)
Definition filled (eval : option (list Z)) (p : list Z) : list Z := concat (map (fun c => if c =? 42 then default [] eval else [c]) p).

(** An attribute of a profile: a type, perhaps with a set before it, and a value. *)
Definition part_ok (p : list Z) : Prop :=
  nonzero p /\ zlen p < 64 /\ (exists c r, p = c :: r /\ c <> 32) /\ exists pre post, p = pre ++ 61 :: post /\ ~ In 61 pre /\ ~ In 32 post.

(** The value of an entry is the text of some attributes. *)
Definition gives (value : list Z) (eval : option (list Z)) (es : list Z_AttributeElement) : Prop :=
  exists parts rest, value = concat (map (fun p => p ++ [32]) parts) ++ 0 :: rest /\ Forall part_ok parts /\ Forall2 (fun p e => filled eval p = elem_text e) parts es /\
    (eval = None -> Forall (fun p => ~ In 42 p) parts).

(** A string that may be null, and its characters. *)
Definition reads (p : option (list Z)) (t : option (list Z)) : Prop :=
  match p, t with Some m, Some t => nonzero t /\ exists rest, m = t ++ 0 :: rest | None, None => True | _, _ => False end.

Lemma sends_part ev eval p : reads ev eval -> nonzero p -> (eval = None -> ~ In 42 p) -> sends (put_attr pr ev p) tt (filled eval p).
Proof.
  intros Hev. unfold filled. induction p as [|c p IH]; intros Hp H42; [apply sends_ret|]. apply Forall_cons in Hp as [Hc Hp]. cbn [put_attr map concat].
  eapply sends_bind; [|apply IH; [done|intros E HIn; by apply H42; [|right]]]. destruct (Z.eqb_spec c 42) as [->|H].
  - destruct ev as [m|], eval as [t|]; cbn in Hev; try done; [|by destruct H42; [|left]]. destruct Hev as (Ht & rest & ->). apply (sends_lift _ _ (t ++ 0 :: rest)); [done|]. by apply sends_put.
  - by apply sends_char.
Qed.

Lemma word_end_at w c r n : ~ In 32 w -> nonzero w -> c = 0 \/ c = 32 -> word_end (w ++ c :: r) n = Some (n + zlen w).
Proof.
  intros H32 Hw Hc. revert n. induction w as [|x w IH]; intros n; cbn [app word_end].
  - assert ((c =? 0) || (c =? 32) = true) as -> by (destruct Hc as [->| ->]; done). f_equal. zl.
  - apply Forall_cons in Hw as [Hx Hw]. rewrite (proj2 (Z.eqb_neq x 0) Hx), (proj2 (Z.eqb_neq x 32)) by (intros ->; apply H32; by left). cbn [orb].
    rewrite IH; [f_equal; zl|intros ?; apply H32; by right|done].
Qed.

Lemma past_blanks_none c r : c <> 32 -> past_blanks (c :: r) = Some (c :: r).
Proof. intros Hc. cbn. by rewrite (proj2 (Z.eqb_neq c 32) Hc). Qed.

Lemma find_none c w r : ~ In c w -> c <> 0 -> nonzero w -> find_char c (w ++ 0 :: r) = Some None.
Proof.
  intros Hc H0 Hw. induction w as [|x w IH]; cbn [app find_char].
  - by rewrite (proj2 (Z.eqb_neq 0 c)) by done.
  - apply Forall_cons in Hw as [Hx Hw]. rewrite (proj2 (Z.eqb_neq x c)) by (intros ->; apply Hc; by left). rewrite (proj2 (Z.eqb_neq x 0) Hx).
    rewrite IH; [done|intros ?; apply Hc; by right|done].
Qed.

Lemma sends_parts ev eval : reads ev eval -> forall parts es rest fuel, Forall part_ok parts -> Forall2 (fun p e => filled eval p = elem_text e) parts es ->
  (eval = None -> Forall (fun p => ~ In 42 p) parts) -> (length parts < fuel)%nat ->
  sends (put_attrs pr fuel ev (concat (map (fun p => p ++ [32]) parts) ++ 0 :: rest)) tt (attrs_text std es).
Proof.
  intros Hev. induction parts as [|p parts IH]; intros es rest [|fuel] Hok Hes H42 Hf; try (cbn in Hf; lia); inversion Hes as [|? e ? es' He Hes']; subst; cbn [put_attrs].
  - apply (sends_lift _ _ None); [done|]. by apply sends_ret.
  - apply Forall_cons in Hok as [(Hn & Hl & _ & pre & post & -> & Hpre & Hpost) Hok].
    assert (eval = None -> ~ In 42 (pre ++ 61 :: post) /\ Forall (fun p => ~ In 42 p) parts) as H42' by (intros E; specialize (H42 E); by apply Forall_cons in H42).
    set (next := concat (map (fun p => p ++ [32]) parts) ++ 0 :: rest). cbn [map concat].
    assert (((pre ++ 61 :: post) ++ [32]) ++ concat (map (fun p => p ++ [32]) parts) = (pre ++ 61 :: post) ++ 32 :: concat (map (fun p => p ++ [32]) parts)) as -> by by rewrite <- app_assoc.
    rewrite <- app_assoc. change ((32 :: concat _) ++ 0 :: rest) with (32 :: next).
    pose proof Hn as Hn'. apply Forall_app in Hn' as [Hn1 Hn2]. apply Forall_cons in Hn2 as [_ Hn2].
    apply (sends_lift _ _ (Some (zlen pre))).
    { rewrite <- app_assoc. apply find_char_at; [done|]. intros H0. by apply (proj1 (List.Forall_forall _ _) Hn1 0). }
    apply (sends_lift _ _ (zlen (pre ++ 61 :: post))).
    { rewrite <- app_assoc. unfold zlen at 1. rewrite Nat2Z.id, drop_app_length. cbn [app]. rewrite (word_end_at (61 :: post) 32 next); [f_equal; zl| |by constructor|by right].
      intros [?|?]; [done|by apply Hpost]. }
    rewrite (proj2 (Z.leb_gt 64 _)) by lia. apply (sends_lift _ _ (pre ++ 61 :: post)); [apply sub_all|].
    unfold attrs_text. cbn [map concat]. rewrite attr_text_elem, <- He, <- !app_assoc.
    eapply sends_bind; [by apply sends_put_lit|]. eapply sends_bind; [apply (sends_part ev eval); [done|done|by intros E; apply H42']|].
    eapply sends_bind; [by apply sends_put_lit|]. apply (sends_lift _ _ next).
    { replace (pre ++ (61 :: post) ++ 32 :: next) with ((pre ++ 61 :: post) ++ 32 :: next) by by rewrite <- app_assoc.
      unfold zlen. rewrite Nat2Z.id, drop_app_length. cbn [past_blanks Z.eqb Pos.eqb]. unfold next. destruct parts as [|p' parts]; [done|].
      apply Forall_cons in Hok as [(_ & _ & (c & r & -> & Hc) & _) _]. by apply past_blanks_none. }
    apply IH; [done|done|by intros E; apply H42'|cbn in Hf; lia].
Qed.

Lemma sends_gives value ev eval es : reads ev eval -> gives value eval es -> sends (put_attrs pr (Datatypes.S (length value)) ev value) tt (attrs_text std es).
Proof.
  intros Hev (parts & rest & -> & Hok & Hes & H42). apply (sends_parts ev eval); [done|done|done|done|]. rewrite length_app.
  assert (length parts <= length (concat (map (fun p => p ++ [32%Z]) parts)))%nat; [|cbn; lia].
  clear. induction parts as [|p parts IH]; [done|]. cbn [map concat length]. rewrite !length_app. cbn [length]. lia.
Qed.
End profile.
End sink.
