(* ===== verification/CqlPqf.v ===== *)
(** * The PQF of CQL trees (cqltransform.c, pquery.c)

    What [cql_transform] writes for a tree under a profile is a query that the
    PQF parser reads as the tree's translation, wherever the output goes. *)

From stdpp Require Import base list numbers option strings.
From Stdlib Require Import ZArith Lia.
From S2P Require Import Prelude Text MatchStr OidUtil OidDb Wrbuf Rpn Pqf PqfText PqfRound Tokenizer Cql CqlTransform CqlSink.

(** ** Programs that only look *)

(** What a program returns, when it changes nothing. *)
Definition result {A} (m : M (unit * list Z) A) : option A := fst <$> m (tt, []).

Definition same_result {S A} (m : M (S * list Z) A) (m0 : M (unit * list Z) A) : Prop :=
  exists r, (forall s, m s = (let? r := r in Some (r, s))) /\ forall s, m0 s = (let? r := r in Some (r, s)).

Lemma same_lift {S A} (x : option A) : same_result (S := S) (lift x) (lift x).
Proof. exists x. split; intros s; by destruct x. Qed.
Lemma same_ret {S A} (x : A) : same_result (S := S) (ret x) (ret x).
Proof. by exists (Some x). Qed.
Lemma same_bind {S A B} m m0 (k : A -> M (S * list Z) B) k0 : same_result m m0 -> (forall x, same_result (k x) (k0 x)) -> same_result (bind m k) (bind m0 k0).
Proof.
  intros (r & H1 & H2) Hk. destruct r as [r|].
  - destruct (Hk r) as (r' & K1 & K2). exists r'. split; intros s; [rewrite (bind_Some _ _ _ _ _ (H1 s))|rewrite (bind_Some _ _ _ _ _ (H2 s))]; auto.
  - exists None. split; intros s; unfold bind; [by rewrite H1|by rewrite H2].
Qed.

#[local] Ltac same := repeat first [apply same_lift|apply same_ret|apply same_bind; [|intros ?]|case_match].

Lemma result_any {S A} (m : M (S * list Z) A) m0 r : same_result m m0 -> result m0 = Some r -> forall s, m s = Some (r, s).
Proof. intros (r' & H1 & H2) E s. unfold result in E. rewrite H2 in E. rewrite H1. destruct r' as [r'|]; [|done]. by injection E as ->. Qed.

Lemma same_property {S} entry cat uri val d : same_result (S := S) (attr_property entry cat uri val d) (attr_property entry cat uri val d).
Proof. unfold attr_property, alias_of, lookup, is_str, deref. same. Qed.

Lemma same_modifier {S} mods name : same_result (S := S) (has_modifier mods name) (has_modifier mods name).
Proof. induction mods as [|m mods IH]; cbn [has_modifier]; unfold is_str, deref; [same|]. destruct (st_term m); [done|]. same. done. Qed.

(** A program that may give up with a diagnostic. *)
Definition agrees {S B} (m : M (S * list Z) (Z + B)) (m0 : M (unit * list Z) (Z + B)) : Prop :=
  same_result m m0 \/ forall s r s', m0 s = Some (r, s') -> exists e, r = inl e.

Lemma agrees_bind {S A B} m m0 (k : A -> M (S * list Z) (Z + B)) k0 : same_result m m0 -> (forall x, agrees (k x) (k0 x)) -> agrees (bind m k) (bind m0 k0).
Proof.
  intros (r & H1 & H2) Hk. destruct r as [r|].
  - destruct (Hk r) as [(r' & K1 & K2)|K].
    + left. exists r'. split; intros s; [rewrite (bind_Some _ _ _ _ _ (H1 s))|rewrite (bind_Some _ _ _ _ _ (H2 s))]; auto.
    + right. intros s r' s'. rewrite (bind_Some _ _ _ _ _ (H2 s)). apply K.
  - right. intros s r' s'. unfold bind. by rewrite H2.
Qed.

Lemma agrees_gives_up {S A B} (m : M (S * list Z) A) (m0 : M (unit * list Z) A) e : agrees (B := B) (m ;; ret (inl e)) (m0 ;; ret (inl e)).
Proof. right. intros s r s' E. destruct (bind_inv _ _ _ _ E) as (? & ? & _ & [= <- _]). by exists e. Qed.

Lemma agrees_mods {S} mods p : agrees (S := S) (prox_mods mods p) (prox_mods mods p).
Proof.
  revert p. induction mods as [|m mods IH]; intros p; cbn [prox_mods]; unfold is_str, deref; [left; apply same_ret|].
  repeat first [apply IH|apply agrees_gives_up|apply agrees_bind; [apply same_lift|intros ?]|case_match].
Qed.

Lemma prox_any {S} mods p p' : result (prox_mods mods p) = Some (inr p') -> forall s, prox_mods (S := S) mods p s = Some (inr p', s).
Proof.
  intros E. destruct (agrees_mods (S := S) mods p) as [Hs|H]; [by apply (result_any _ _ _ Hs)|]. unfold result in E.
  destruct (prox_mods mods p (tt, [])) as [[r s']|] eqn:E1; [|done]. destruct (H _ _ _ E1) as (e & ->). done.
Qed.

(** ** Masks *)

(** Without a character at the start, at the end or both. *)
Definition strip (bits : Z) (t : list Z) : list Z :=
  let t := if Z.testbit bits 0 then drop 1 t else t in if Z.testbit bits 1 then take (length t - 1) t else t.

Definition masks_of (t : list Z) : masks := scan_masks (zlen t) 0 t (Masks 0 0 false).

(** The characters at the ends are masks of one kind at most. *)
Definition ends_ok (n : Z) (m : masks) : Prop :=
  exists a1 a2 t1 t2, anchor m = Z.b2z a1 + 2 * Z.b2z a2 /\ trunc m = Z.b2z t1 + 2 * Z.b2z t2 /\ a1 && t1 = false /\ a2 && t2 = false /\
    (a2 || t2 = true -> 2 <= n) /\ (a1 || t1 = true -> 1 <= n).

Definition mask_bits (m : masks) (a1 a2 t1 t2 : bool) : Prop := anchor m = Z.b2z a1 + 2 * Z.b2z a2 /\ trunc m = Z.b2z t1 + 2 * Z.b2z t2.

(** While the characters up to [i] have been seen, the last bits are clear. *)
Lemma scan_ends n t : forall i m a1 a2 t1 t2, zlen t + i = n -> mask_bits m a1 a2 t1 t2 -> 0 <= i -> a1 && t1 = false -> a2 && t2 = false ->
  (i = 0 -> a1 || t1 = false) -> (a2 || t2 = true -> 2 <= n /\ n <= i) -> (a1 || t1 = true -> 1 <= n) -> ends_ok n (scan_masks n i t m).
Proof.
  remember (length t) as k eqn:Ek. revert t Ek. induction (lt_wf k) as [k _ IH]. intros t -> i m a1 a2 t1 t2 Hn [Ha Ht] Hi Hx1 Hx2 H0 H2 H1.
  destruct t as [|c t]; cbn [scan_masks].
  { exists a1, a2, t1, t2. split_and!; try done. intros H. apply H2 in H. lia. }
  pose proof (zlen_nonneg t) as Hl. rewrite zlen_cons in Hn. assert (a2 || t2 = false) as E2 by (destruct (a2 || t2); [|done]; destruct (H2 eq_refl); lia).
  apply orb_false_iff in E2 as [-> ->]. destruct ((c =? 92) && (i <? n - 1)).
  { destruct t as [|x t]; [exists a1, false, t1, false; split_and!; try done; intros; lia|]. rewrite zlen_cons in *. pose proof (zlen_nonneg t).
    eapply (IH (length t)); [simpl; lia|done|lia|by split|lia|done|done|lia|done|done]. }
  assert (forall m', (exists a1 a2 t1 t2, mask_bits m' a1 a2 t1 t2 /\ a1 && t1 = false /\ a2 && t2 = false /\ (a2 || t2 = true -> 2 <= n /\ n <= i + 1) /\
    (a1 || t1 = true -> 1 <= n)) -> ends_ok n (scan_masks n (i + 1) t m')) as Hgo.
  { intros m' (b1 & b2 & u1 & u2 & Hb & ? & ? & ? & ?). eapply (IH (length t)); [simpl; lia|done|lia|exact Hb|lia|done|done|lia|done|done]. }
  apply Hgo. unfold mask_bits in *. destruct (c =? 94), (c =? 42), (c =? 63); destruct (Z.eqb_spec i 0) as [Hi0|Hi0], (Z.eqb_spec i (n - 1)) as [Hn1|Hn1]; cbn [anchor trunc];
    try (exists a1, false, t1, false; split_and!; (done || lia)).
  all: rewrite Ha, Ht.
  all: try (apply orb_false_iff in H0 as [-> ->]; [|done]).
  all: try (exists true, false, false, false; split_and!; (done || lia)).
  all: try (exists false, false, true, false; split_and!; (done || lia)).
  all: try (exists a1, true, t1, false; destruct a1, t1; split_and!; (done || lia)).
  all: try (exists a1, false, t1, true; destruct a1, t1; split_and!; (done || lia)).
Qed.

Lemma masks_ends t : ends_ok (zlen t) (masks_of t).
Proof. apply (scan_ends _ _ 0 _ false false false false); try done; lia. Qed.

Lemma strip_sub bits t : Z.b2z (Z.testbit bits 0) + Z.b2z (Z.testbit bits 1) <= zlen t ->
  sub t (Z.b2z (Z.testbit bits 0)) (zlen t - Z.b2z (Z.testbit bits 0) - Z.b2z (Z.testbit bits 1)) = Some (strip bits t).
Proof.
  intros H. rewrite sub_spec by (destruct (Z.testbit bits 0), (Z.testbit bits 1); cbn in *; lia). unfold strip. f_equal.
  destruct (Z.testbit bits 0), (Z.testbit bits 1); cbn [Z.b2z] in *; change (Z.to_nat 1) with 1%nat; change (Z.to_nat 0) with 0%nat; rewrite ?drop_0, ?length_drop.
  - f_equal. unfold zlen in *. lia.
  - apply take_ge. rewrite length_drop. unfold zlen. lia.
  - f_equal. unfold zlen in *. lia.
  - apply take_ge. unfold zlen. lia.
Qed.

Lemma strip_both t : 2 <= zlen t -> sub t 1 (zlen t - 2) = Some (strip 3 t).
Proof. intros H. rewrite <- (strip_sub 3) by done. f_equal. cbn. lia. Qed.
Lemma strip_left t : 1 <= zlen t -> sub t 1 (zlen t - 1) = Some (strip 1 t).
Proof. intros H. rewrite <- (strip_sub 1) by done. f_equal. cbn. lia. Qed.
Lemma strip_right t : 1 <= zlen t -> sub t 0 (zlen t - 1) = Some (strip 2 t).
Proof. intros H. rewrite <- (strip_sub 2) by done. f_equal. cbn. lia. Qed.

Lemma strip_nonzero bits t : nonzero t -> nonzero (strip bits t).
Proof.
  intros H. unfold strip. assert (nonzero (if Z.testbit bits 0 then drop 1 t else t)) as H1 by (destruct (Z.testbit bits 0); [by apply Forall_drop|done]).
  destruct (Z.testbit bits 1); [by apply Forall_take|done].
Qed.

Lemma strip_length bits t : zlen t - Z.b2z (Z.testbit bits 0) - Z.b2z (Z.testbit bits 1) <= zlen (strip bits t).
Proof.
  unfold strip, zlen. destruct (Z.testbit bits 0), (Z.testbit bits 1); cbn [Z.b2z]; rewrite ?length_take, ?length_drop; lia.
Qed.

(** ** Translation *)

Definition position_name (anchor : Z) : list Z :=
  if anchor =? 3 then str "firstAndLast" else if anchor =? 1 then str "first" else if anchor =? 2 then str "last" else str "any".
Definition truncation_name (trunc : Z) : list Z :=
  if trunc =? 3 then str "both" else if trunc =? 1 then str "left" else if trunc =? 2 then str "right" else str "none".

(** The octets of a term as the query is to have them: a backslash keeps the next
    character as it is, and in Z39.58 mode the masks are [?] and [#]. *)
Definition z58 (z3958 : bool) (c : Z) : list Z := if z3958 && one_of [35; 63] c then [92] else [].
Fixpoint term_value (z3958 : bool) (term : list Z) : list Z :=
  match term with
  | [] => []
  | c :: rest =>
      match rest with
      | x :: rest' =>
          if c =? 92 then z58 z3958 x ++ x :: term_value z3958 rest'
          else if z3958 && (c =? 42) then 63 :: (if yaz_isdigit x then [92] else []) ++ term_value z3958 rest
          else if z3958 && (c =? 63) then 35 :: term_value z3958 rest
          else z58 z3958 c ++ c :: term_value z3958 rest
      | [] => if z3958 && (c =? 42) then [63] else if z3958 && (c =? 63) then [35] else z58 z3958 c ++ [c]
      end
  end.

(** No backslash without a character to keep. *)
Fixpoint no_lone (term : list Z) : Prop :=
  match term with
  | [] => True
  | c :: rest => match rest with x :: rest' => if c =? 92 then no_lone rest' else no_lone rest | [] => c <> 92 end
  end.

(** What the mode makes of a term, and the terms that can be quoted. *)
Definition term_octets (mode : option bool) (t : list Z) : list Z :=
  match mode with Some z3958 => term_value z3958 t | None => escape_string t end.
Definition starts_plain (t : list Z) : Prop := match t with c0 :: c1 :: _ => c0 = 64 -> yaz_isdigit c1 = false | _ => True end.
Definition quotable (mode : option bool) (t : list Z) : Prop :=
  match mode with Some _ => no_lone t | None => closed 34 t end /\ starts_plain (term_octets mode t).

(** The text [w] in quotes stands for [v]. *)
Definition quotes (w v : list Z) : Prop := closed 34 w /\ escape_string w = v.

Lemma quotes_nil : quotes [] [].
Proof. by split; [constructor|]. Qed.
Lemma quotes_char c w v : c <> 0 -> c <> 34 -> c <> 92 -> quotes w v -> quotes (c :: w) (c :: v).
Proof. intros H0 H1 H2 [Hc <-]. split; [by constructor|by apply escape_other]. Qed.
Lemma quotes_escape c w v : c = 34 \/ c = 92 -> quotes w v -> quotes (92 :: c :: w) (c :: v).
Proof. intros H [Hc <-]. split; [apply closed_escape; [lia|done]|]. apply escape_self. destruct H as [->| ->]; by repeat split; try lia. Qed.

Lemma quotes_start w v : quotes w v -> starts_plain v -> starts_plain w.
Proof.
  intros [Hc <-] H. destruct w as [|c0 [|c1 w]]; [done..|]. cbn [starts_plain]. intros ->. destruct (yaz_isdigit c1) eqn:E; [|done].
  rewrite (escape_other 64) in H by done. rewrite escape_other in H by (intros ->; done). cbn [starts_plain] in H. rewrite <- E. by apply H.
Qed.

Section translation.
Context (std : yaz_oid_db) (entry : list cql_prop_entry).

(** The attributes that the profile has for a value of a category. *)
Definition attrs_for (cat : list Z) (uri val d : option (list Z)) (es : list Z_AttributeElement) : Prop :=
  exists res eval, result (attr_property entry cat uri val d) = Some (Some res) /\
    reads (match val with Some v => Some v | None => d end) eval /\ gives std res eval es.
Definition no_attrs (cat : list Z) (uri val d : option (list Z)) : Prop := result (attr_property entry cat uri val d) = Some None.
Definition named (cat val : list Z) (es : list Z_AttributeElement) : Prop := attrs_for (cat ++ [0]) None (Some (val ++ [0])) None es.

(** A modifier turns masks off. *)
Definition unmasked (mods : list cql_st) (b : bool) : Prop :=
  result (let* r := has_modifier mods (str "regexp") in if r : bool then ret true else has_modifier mods (str "unmasked")) = Some b.
Definition native (r : option (list Z)) : Prop := cql_lookup_property entry (str "truncation" ++ [0]) None (Some (str "cql" ++ [0])) = Some r.

(** The attributes for the masks of a term, how its characters are written, and
    what is left of it. *)
Inductive masking (mods : list cql_st) (t : list Z) : list Z_AttributeElement -> option bool -> list Z -> Prop :=
  | masking_off : unmasked mods true -> masking mods t [] None t
  | masking_native r es : unmasked mods false -> native (Some r) -> named (str "truncation") (str "cql") es -> masking mods t es None t
  | masking_plain es1 es2 : unmasked mods false -> native None -> z3958_mode (masks_of t) = false ->
      named (str "position") (position_name (anchor (masks_of t))) es1 ->
      named (str "truncation") (truncation_name (trunc (masks_of t))) es2 \/
        (trunc (masks_of t) = 0 /\ es2 = [] /\ no_attrs (str "truncation" ++ [0]) None (Some (str "none" ++ [0])) None) ->
      masking mods t (es1 ++ es2) (Some false) (strip (trunc (masks_of t)) (strip (anchor (masks_of t)) t))
  | masking_z3958 es1 es2 : unmasked mods false -> native None ->
      z3958_mode (masks_of t) = true \/
        (trunc (masks_of t) <> 0 /\ no_attrs (str "truncation" ++ [0]) None (Some (truncation_name (trunc (masks_of t)) ++ [0])) None) ->
      named (str "position") (position_name (anchor (masks_of t))) es1 -> named (str "truncation") (str "z3958") es2 ->
      masking mods t (es1 ++ es2) (Some true) (strip (anchor (masks_of t)) t).

(** Modifiers without a value. *)
Inductive modifiers : list cql_st -> list Z_AttributeElement -> Prop :=
  | modifiers_nil : modifiers [] []
  | modifiers_cons m mods es1 es2 : st_term m = None -> attrs_for (str "relationModifier" ++ [0]) None (st_index m) None es1 ->
      modifiers mods es2 -> modifiers (m :: mods) (es1 ++ es2).

(** A term under attributes [es0]. *)
Inductive term_rpn (st : cql_st) (mods : list cql_st) (es0 : list Z_AttributeElement) (t : list Z) : Z_RPNStructure -> Prop :=
  | term_rpn_intro ns es1 es2 es3 mode t' : nonzero t -> masking mods t es1 mode t' -> quotable mode t' ->
      st_index_uri st = Some ns -> attrs_for (str "index" ++ [0]) (Some ns) (st_index st) (Some (str "serverChoice" ++ [0])) es2 ->
      modifiers mods es3 -> let es := es0 ++ es1 ++ es2 ++ es3 in
      Forall (elem_ok std) es -> sets_ok false es -> zlen es <= max_attr ->
      term_rpn st mods es0 t (RPN_simple (Operand_APT (APT (Some (get_attributeList (map attr_of es))) (Term_general (term_octets mode t'))))).

(** Several terms. *)
Inductive terms_rpn (st : cql_st) (mods : list cql_st) (es0 : list Z_AttributeElement) (op : Z_Operator) : list (list Z) -> Z_RPNStructure -> Prop :=
  | terms_one t z : term_rpn st mods es0 t z -> terms_rpn st mods es0 op [t] z
  | terms_more t ts z1 z2 : term_rpn st mods es0 t z1 -> terms_rpn st mods es0 op ts z2 ->
      terms_rpn st mods es0 op (t :: ts) (RPN_complex z1 z2 op).

(** The words of a text; the last one may be empty. *)
Inductive words : list Z -> list (list Z) -> Prop :=
  | words_last k w : ~ In 32 w -> words (repeat 32 k ++ w) [w]
  | words_more k w t ws : ~ In 32 w -> w <> [] -> words t ws -> words (repeat 32 k ++ w ++ 32 :: t) (w :: ws).

(** The terms of a clause, and their operator. *)
Inductive clause_terms (st : cql_st) (extra : list cql_st) : list (list Z) -> Z_Operator -> Prop :=
  | clause_words all any op t ws : result (is_relation st (str "all")) = Some all -> result (is_relation st (str "any")) = Some any ->
      (if all then op = Op_and else any = true /\ op = Op_or) ->
      reads (st_term st) (Some t) -> words t ws -> clause_terms st extra ws op
  | clause_phrases t ts : result (is_relation st (str "all")) = Some false -> result (is_relation st (str "any")) = Some false ->
      reads (st_term st) (Some t) -> Forall2 (fun e t => reads (st_term e) (Some t)) extra ts -> clause_terms st extra (t :: ts) Op_and.

(** The name of the result set index. *)
Definition is_result_set (st : cql_st) (ns : list Z) (b : bool) : Prop :=
  (let? is_cql := str_same ns cql_uri in
   match st_index st with Some i => if is_cql : bool then cql_same i (str "resultSet" ++ [0]) else Some false | None => Some false end) = Some b.

(** What the modifiers of a proximity say; words are adjacent unless they say how far. *)
Definition prox_op (p : prox) : Z_ProximityOperator :=
  Prox (Some 0) (if p_distance p =? -1 then if p_unit p =? 2 then 1 else 0 else p_distance p) (p_ordered p) (p_proxrel p)
    Z_ProximityOperator_known (Some (p_unit p)).

(** The operator of a node. *)
Definition operator (value : list Z) (mods : list cql_st) (op : Z_Operator) : Prop :=
  (exists rest, value = complex_op_name op ++ 0 :: rest) /\
  match op with
  | Op_prox po => prox_ok po /\ exists p, result (prox_mods mods (Prox_of (-1) 0 2 2)) = Some (inr p) /\ po = prox_op p
  | _ => mods = []
  end.

(** A tree whose names have their URIs, and its query. *)
Inductive translates : cql_node -> Z_RPNStructure -> Prop :=
  | translates_set st mods extra ns w : st_index_uri st = Some ns -> is_result_set st ns true -> reads (st_term st) (Some w) ->
      closed 34 w -> starts_plain w -> translates (CQL_NODE_ST st mods extra) (RPN_simple (Operand_resultSetId (w ++ [0])))
  | translates_clause st mods extra ns es1 es2 es3 ts op z : st_index_uri st = Some ns -> is_result_set st ns false ->
      attrs_for (str "always" ++ [0]) None None None es1 \/ (es1 = [] /\ no_attrs (str "always" ++ [0]) None None None) ->
      attrs_for (str "relation" ++ [0]) None (st_relation st) None es2 ->
      attrs_for (str "structure" ++ [0]) None (st_relation st) None es3 ->
      clause_terms st extra ts op -> terms_rpn st mods (es1 ++ es2 ++ es3) op ts z -> translates (CQL_NODE_ST st mods extra) z
  | translates_bool value l r mods op zl zr : operator value mods op -> translates l zl -> translates r zr ->
      translates (CQL_NODE_BOOL value l r mods) (RPN_complex zl zr op)
  | translates_sort index mods next search z : translates search z -> translates (CQL_NODE_SORT index mods next search) z.
End translation.

(** ** Writing *)

Section writing.
Context {S : Type} (pr : list Z -> M S unit) `{!Sink pr} (std : yaz_oid_db) (entry : list cql_prop_entry).

Lemma sends_attr_uri cat uri val d err es : attrs_for std entry cat uri val d es ->
  sends pr (cql_pr_attr_uri pr entry cat uri val d err) 0 (attrs_text std es).
Proof.
  intros (res & eval & Hr & Hev & Hg). unfold cql_pr_attr_uri. eapply sends_silent; [apply (result_any _ _ _ (same_property _ _ _ _ _) Hr)|]. cbv iota.
  apply (sends_eq _ _ _ (attrs_text std es ++ [])); [by rewrite app_nil_r|]. eapply sends_bind; [by apply (sends_gives pr std _ _ eval)|apply sends_ret].
Qed.

Lemma sends_no_attr cat uri val d : no_attrs entry cat uri val d -> sends pr (cql_pr_attr_uri pr entry cat uri val d 0) 1 [].
Proof. intros Hr. unfold cql_pr_attr_uri. eapply sends_silent; [apply (result_any _ _ _ (same_property _ _ _ _ _) Hr)|]. apply sends_ret. Qed.

Lemma sends_named cat val err es : named std entry cat val es -> sends pr (cql_pr_attr pr entry cat (Some (val ++ [0])) None err) 0 (attrs_text std es).
Proof. apply sends_attr_uri. Qed.

Lemma attrs_text_app es1 es2 : attrs_text std (es1 ++ es2) = attrs_text std es1 ++ attrs_text std es2.
Proof. unfold attrs_text. by rewrite map_app, concat_app. Qed.

(** A step that writes and says that it went well. *)
Lemma sends_ok {A} (m : M (S * list Z) Z) (k : Z -> M (S * list Z) A) (k0 : M (S * list Z) A) r w1 w2 :
  sends pr m 0 w1 -> sends pr k0 r w2 -> (forall s, k 0 s = k0 s) -> sends pr (bind m k) r (w1 ++ w2).
Proof. intros H1 H2 E. eapply sends_bind; [exact H1|]. intros o a t H. rewrite E. by apply H2. Qed.

(** ** Terms in quotes *)

(** A part of a quoted text that stands for [v]. *)
Definition piece (m : M (S * list Z) unit) (v : list Z) : Prop :=
  exists w, sends pr m tt w /\ forall w' v', quotes w' v' -> quotes (w ++ w') (v ++ v').

Lemma piece_ret : piece (ret tt) [].
Proof. exists []. split; [apply sends_ret|done]. Qed.
Lemma piece_bind m k v1 v2 : piece m v1 -> piece k v2 -> piece (m ;; k) (v1 ++ v2).
Proof.
  intros (w1 & E1 & H1) (w2 & E2 & H2). exists (w1 ++ w2). split; [by eapply sends_bind|]. intros w' v' H. rewrite <- !app_assoc. auto.
Qed.
Lemma piece_char c : c <> 0 -> c <> 34 -> c <> 92 -> piece (put_char pr c) [c].
Proof. intros. exists [c]. split; [by apply sends_char|]. intros. by apply quotes_char. Qed.
Lemma piece_lit c : c <> 0 -> c <> 34 -> c <> 92 -> piece (put_lit pr [c]) [c].
Proof. apply piece_char. Qed.
Lemma piece_92 : piece (put_lit pr [92; 92]) [92].
Proof. exists [92; 92]. split; [by apply sends_put_lit|]. intros. by apply quotes_escape; [right|]. Qed.
Lemma piece_if (b : bool) m v : piece m v -> piece (if b then m else ret tt) (if b then v else []).
Proof. destruct b; [done|intros; apply piece_ret]. Qed.
Lemma piece_assoc (m1 m2 m3 k : M (S * list Z) unit) v : piece ((m1 ;; m2 ;; m3) ;; k) v -> piece (m1 ;; m2 ;; m3 ;; k) v.
Proof.
  intros (w & E & H). exists w. split; [|done]. intros o a t Ho. destruct (E o a t Ho) as (o' & E' & Ho'). exists o'. split; [|done]. rewrite <- E'.
  unfold bind. destruct (m1 (o, a)) as [[[] s1]|]; [|done]. by destruct (m2 s1) as [[? ?]|].
Qed.
Lemma piece_eq m v v' : v = v' -> piece m v -> piece m v'.
Proof. by intros ->. Qed.

Lemma piece_escaped c : c = 34 \/ c = 92 -> piece (put_lit pr [92] ;; put_char pr c) [c].
Proof.
  intros Hc. exists [92; c]. split; [apply (sends_bind pr _ _ tt tt [92] [c]); [by apply sends_put_lit|apply sends_char; lia]|].
  intros. by apply quotes_escape.
Qed.

Lemma one_of_2 a b x : x <> 0 -> one_of [a; b] x = (x =? a) || (x =? b).
Proof. intros Hx. unfold one_of, strchr. cbn [app existsb]. by rewrite (proj2 (Z.eqb_neq x 0) Hx), !orb_false_r. Qed.

(** A character that stands for itself. *)
Lemma piece_self z b c : c <> 0 -> b = ((c =? 34) || (c =? 92)) -> piece
  ((if b : bool then put_lit pr [92] else ret tt) ;; (if z && one_of [35; 63] c then put_lit pr [92; 92] else ret tt) ;; put_char pr c) (z58 z c ++ [c]).
Proof.
  intros Hc ->. unfold z58. rewrite one_of_2 by done. destruct ((c =? 34) || (c =? 92)) eqn:E.
  - apply orb_true_iff in E. rewrite !Z.eqb_eq in E. replace ((c =? 35) || (c =? 63)) with false by lia. rewrite andb_false_r.
    exact (piece_escaped c E).
  - apply orb_false_iff in E. rewrite !Z.eqb_neq in E. apply (piece_bind _ _ [] _ piece_ret). apply piece_bind; [apply piece_if, piece_92|apply piece_char; tauto].
Qed.

Lemma sends_masked z t : nonzero t -> no_lone t -> piece (emit_masked pr z t) (term_value z t).
Proof.
  remember (length t) as k eqn:Ek. revert t Ek. induction (lt_wf k) as [k _ IH]. intros t -> Hn Hl. destruct t as [|c rest]; [apply piece_ret|].
  apply Forall_cons in Hn as [Hc Hn]. destruct rest as [|x rest']; cbn [emit_masked term_value no_lone] in *.
  { destruct (z && (c =? 42)); [by apply piece_lit|]. destruct (z && (c =? 63)); [by apply piece_lit|]. apply (piece_self z); [done|].
    by rewrite (proj2 (Z.eqb_neq c 92) Hl), orb_false_r. }
  assert (forall t, (length t < length (c :: x :: rest'))%nat -> nonzero t -> no_lone t -> piece (emit_masked pr z t) (term_value z t)) as Hgo.
  { intros t Ht. by apply (IH (length t)). }
  destruct (Z.eqb_spec c 92) as [->|H92].
  { apply Forall_cons in Hn as [Hx Hn]. apply piece_assoc, (piece_eq _ ((z58 z x ++ [x]) ++ term_value z rest')); [by rewrite <- app_assoc|].
    apply piece_bind; [apply piece_self; [done|by apply one_of_2]|apply Hgo; [simpl; lia|done|done]]. }
  assert (piece (emit_masked pr z (x :: rest')) (term_value z (x :: rest'))) as Hr by (apply Hgo; [simpl; lia|done|done]).
  destruct (z && (c =? 42)).
  { apply (piece_bind _ _ [63]); [by apply piece_lit|]. apply piece_bind; [apply piece_if, piece_92|done]. }
  destruct (z && (c =? 63)); [by apply (piece_bind _ _ [35]); [apply piece_lit|]|].
  apply piece_assoc, (piece_eq _ ((z58 z c ++ [c]) ++ term_value z (x :: rest'))); [by rewrite <- app_assoc|]. apply piece_bind; [|done].
  apply piece_self; [done|]. by rewrite (proj2 (Z.eqb_neq c 92) H92), orb_false_r.
Qed.

Lemma sends_plain t : nonzero t -> sends pr (emit_plain pr t) tt t.
Proof.
  induction t as [|c t IH]; intros Hn; [apply sends_ret|]. apply Forall_cons in Hn as [Hc Hn]. cbn [emit_plain].
  apply (sends_bind pr _ _ tt tt [c] t); [by apply sends_char|by apply IH].
Qed.

(** The term as it is written. *)
Lemma sends_quotable mode t : nonzero t -> quotable mode t -> exists w, starts_plain w /\ quotes w (term_octets mode t) /\
  sends pr (match mode with Some z3958 => emit_masked pr z3958 t | None => emit_plain pr t end) tt w.
Proof.
  intros Hn [Hq Hs]. destruct mode as [z|]; cbn [term_octets] in *.
  - destruct (sends_masked z t Hn Hq) as (w & E & H). specialize (H [] [] quotes_nil). rewrite !app_nil_r in H. exists w. split; [by eapply quotes_start|done].
  - exists t. assert (quotes t (escape_string t)) as H by done. split; [by eapply quotes_start|]. split; [done|by apply sends_plain].
Qed.

(** ** Masks *)

#[local] Ltac bits := unfold position_name, truncation_name in *; cbn [Z.b2z Z.mul Z.add Pos.mul Pos.add Pos.succ Z.eqb Pos.eqb orb negb] in *.

Lemma sends_position t es : named std entry (str "position") (position_name (anchor (masks_of t))) es ->
  sends pr (emit_position pr entry (masks_of t) t) (0, strip (anchor (masks_of t)) t) (attrs_text std es).
Proof.
  intros Hes. destruct (masks_ends t) as (a1 & a2 & t1 & t2 & Ha & _ & _ & _ & H2 & H1). unfold emit_position, drop_left, drop_right.
  rewrite Ha in *. apply (sends_eq _ _ _ (attrs_text std es ++ [])); [by rewrite app_nil_r|].
  destruct a1, a2; bits; (eapply sends_bind; [apply sends_named, Hes|]).
  - eapply sends_lift; [apply strip_both; by apply H2|apply sends_ret].
  - eapply sends_lift; [apply strip_left; by apply H1|apply sends_ret].
  - eapply sends_lift; [apply strip_right; specialize (H2 eq_refl); lia|apply sends_ret].
  - apply sends_ret.
Qed.

Lemma two_bits_0 a b : Z.testbit (Z.b2z a + 2 * Z.b2z b) 0 = a.
Proof. by destruct a, b. Qed.
Lemma two_bits_1 a b : Z.testbit (Z.b2z a + 2 * Z.b2z b) 1 = b.
Proof. by destruct a, b. Qed.

(** What is left when both ends have been looked at. *)
Lemma strip_room t : let m := masks_of t in Z.b2z (Z.testbit (trunc m) 0) + Z.b2z (Z.testbit (trunc m) 1) <= zlen (strip (anchor m) t).
Proof.
  cbv zeta. destruct (masks_ends t) as (a1 & a2 & t1 & t2 & Ha & Ht & X1 & X2 & H2 & H1). pose proof (strip_length (anchor (masks_of t)) t) as Hl. rewrite Ha, Ht in *.
  set (l := zlen (strip _ t)) in *. assert (0 <= l) by apply zlen_nonneg. rewrite two_bits_0, two_bits_1 in *. set (n := zlen t) in *. clearbody l n. destruct a1, a2, t1, t2; try done; cbn [Z.b2z orb] in *; try specialize (H2 eq_refl); try specialize (H1 eq_refl); lia.
Qed.

Lemma sends_truncation t es : z3958_mode (masks_of t) = false ->
  named std entry (str "truncation") (truncation_name (trunc (masks_of t))) es \/
    (trunc (masks_of t) = 0 /\ es = [] /\ no_attrs entry (str "truncation" ++ [0]) None (Some (str "none" ++ [0])) None) ->
  sends pr (emit_truncation pr entry (masks_of t) (strip (anchor (masks_of t)) t)) (false, strip (trunc (masks_of t)) (strip (anchor (masks_of t)) t)) (attrs_text std es).
Proof.
  intros Hz Hes. pose proof (strip_room t) as Hr. destruct (masks_ends t) as (a1 & a2 & t1 & t2 & _ & Ht & _). unfold emit_truncation, drop_left, drop_right. rewrite Hz.
  cbv zeta in Hr. rewrite Ht in *. rewrite two_bits_0, two_bits_1 in Hr. apply (sends_eq _ _ _ (attrs_text std es ++ [])); [by rewrite app_nil_r|]. destruct Hes as [Hes|(E & -> & Hes)].
  - destruct t1, t2; bits; (eapply sends_bind; [apply sends_named, Hes|]).
    + eapply sends_lift; [apply strip_both; lia|apply sends_ret].
    + eapply sends_lift; [apply strip_left; lia|apply sends_ret].
    + eapply sends_lift; [apply strip_right; lia|apply sends_ret].
    + apply sends_ret.
  - rewrite E. eapply sends_bind; [by apply sends_no_attr|]. apply sends_ret.
Qed.

Lemma sends_z3958 t : z3958_mode (masks_of t) = true \/
    (trunc (masks_of t) <> 0 /\ no_attrs entry (str "truncation" ++ [0]) None (Some (truncation_name (trunc (masks_of t)) ++ [0])) None) ->
  forall t', sends pr (emit_truncation pr entry (masks_of t) t') (true, t') [].
Proof.
  intros Hz t'. destruct (masks_ends t) as (a1 & a2 & t1 & t2 & _ & Ht & _). unfold emit_truncation. destruct Hz as [->|[H0 Hz]]; [apply sends_ret|].
  destruct (z3958_mode (masks_of t)); [apply sends_ret|]. rewrite Ht in *.
  destruct t1, t2; bits; [..|done]; (eapply (sends_bind _ _ _ _ _ [] []); [apply sends_no_attr, Hz|apply sends_ret]).
Qed.

Lemma sends_unmasked {A} mods b (k : bool -> M (S * list Z) A) r w : unmasked mods b -> sends pr (k b) r w ->
  sends pr (let* regexp := has_modifier mods (str "regexp") in let* u := (if regexp : bool then ret true else has_modifier mods (str "unmasked")) in k u) r w.
Proof.
  intros Hb Hk o a s H. rewrite <- bind_assoc.
  assert (forall s : S * list Z, (let* r := has_modifier mods (str "regexp") in if r : bool then ret true else has_modifier mods (str "unmasked")) s = Some (b, s)) as E.
  { eapply result_any; [|exact Hb]. apply same_bind; [apply same_modifier|]. intros []; [apply same_ret|apply same_modifier]. }
  rewrite (bind_Some _ _ _ _ _ (E _)). by apply Hk.
Qed.

Lemma sends_masks mods t es mode t' : masking std entry mods t es mode t' -> sends pr (emit_masks pr entry mods t) (0, mode, t') (attrs_text std es).
Proof.
  intros Hm. unfold emit_masks, lookup. destruct Hm as [Hb|r es Hb Hnat Hes|es1 es2 Hb Hnat Hz Hp Ht|es1 es2 Hb Hnat Hz Hp Ht]; apply (sends_unmasked mods _ _ _ _ Hb); cbv iota.
  - apply sends_ret.
  - eapply sends_lift; [exact Hnat|]. cbv iota. apply (sends_eq _ _ _ (attrs_text std es ++ [])); [by rewrite app_nil_r|].
    eapply sends_bind; [by apply sends_named|apply sends_ret].
  - eapply sends_lift; [exact Hnat|]. cbv iota. fold (masks_of t). rewrite attrs_text_app. eapply sends_bind; [by apply sends_position|]. cbn [negb Z.eqb].
    apply (sends_eq _ _ _ (attrs_text std es2 ++ [])); [by rewrite app_nil_r|]. eapply sends_bind; [by apply sends_truncation|apply sends_ret].
  - eapply sends_lift; [exact Hnat|]. cbv iota. fold (masks_of t). rewrite attrs_text_app. eapply sends_bind; [by apply sends_position|]. cbn [negb Z.eqb].
    apply (sends_bind _ _ _ _ _ [] (attrs_text std es2) (sends_z3958 t Hz _)). cbv iota.
    apply (sends_eq _ _ _ (attrs_text std es2 ++ [])); [by rewrite app_nil_r|]. eapply sends_bind; [by apply sends_named|apply sends_ret].
Qed.

Lemma masking_nonzero mods t es mode t' : masking std entry mods t es mode t' -> nonzero t -> nonzero t'.
Proof. intros Hm Hn. destruct Hm; [done..| |]; by repeat apply strip_nonzero. Qed.

(** ** Terms *)

Lemma sends_modifiers mods es : modifiers std entry mods es -> sends pr (emit_modifiers pr entry mods) 0 (attrs_text std es).
Proof.
  induction 1 as [|m mods es1 es2 Ht Hes _ IH]; [apply sends_ret|]. cbn [emit_modifiers]. rewrite Ht, attrs_text_app.
  eapply sends_ok; [by apply sends_attr_uri|exact IH|done].
Qed.

Lemma sets_ok_app prev es1 es2 : sets_ok prev (es1 ++ es2) ->
  sets_ok prev es1 /\ sets_ok (match last es1 with Some e => match attributeSet e with Some _ => true | None => false end | None => prev end) es2.
Proof.
  revert prev. induction es1 as [|e es1 IH]; intros prev; [done|]. cbn [app sets_ok]. intros [H1 H2%IH]. split_and!; [done|apply H2|].
  destruct H2 as [_ H2]. rewrite last_cons. destruct (last es1) as [e'|]; done.
Qed.

(** The attributes of a term go on after those of its clause. *)
Lemma parses_more es0 es z q : Forall (elem_ok std) (es0 ++ es) -> sets_ok false (es0 ++ es) -> zlen (es0 ++ es) <= max_attr ->
  parses std false (map attr_of (es0 ++ es)) z q -> parses std false (map attr_of es0) z (attrs_text std es ++ q).
Proof.
  intros [_ He]%Forall_app [_ Hs]%sets_ok_app Hl Hq. rewrite map_app in Hq. apply parses_attrs; [done| | |done].
  - unfold last_set. rewrite fmap_last. destruct (last es0) as [e|]; [|done]. cbn. by rewrite attr_of_set.
  - unfold zlen in *. by rewrite <- map_app, length_map.
Qed.

Lemma sends_term st mods es0 mem n t z : sub mem 0 n = Some t -> term_rpn std entry st mods es0 t z ->
  exists q, sends pr (emit_term pr entry st mods mem n) 0 (q ++ [32]) /\ parses std false (map attr_of es0) z q.
Proof.
  intros Hsub [ns es1 es2 es3 mode t' Hn Hm Hq Hns Hi Hmods es He Hs Hl].
  destruct (sends_quotable mode t' (masking_nonzero _ _ _ _ _ Hm Hn) Hq) as (w & Hw & [Hcl Hv] & Ew).
  exists (attrs_text std (es1 ++ es2 ++ es3) ++ 34 :: w ++ [34]). split.
  - unfold emit_term. eapply sends_lift; [exact Hsub|]. rewrite !attrs_text_app, <- !app_assoc.
    eapply sends_bind; [by apply sends_masks|]. cbn [negb Z.eqb]. rewrite Hns.
    eapply sends_ok; [by apply sends_attr_uri| |done]. eapply sends_ok; [by apply sends_modifiers| |done].
    apply (sends_eq _ _ _ ([34] ++ w ++ [34; 32] ++ [])); [cbn [app]; by rewrite <- app_assoc|].
    eapply sends_bind; [by apply sends_put_lit|]. eapply sends_bind; [exact Ew|]. eapply sends_bind; [by apply sends_put_lit|apply sends_ret].
  - apply parses_more; [done..|]. rewrite <- Hv. by apply parses_quoted.
Qed.

(** ** Several terms *)

Definition plain_op (op : Z_Operator) : Prop := op = Op_and \/ op = Op_or.

Lemma sends_put_op op : plain_op op -> sends pr (put_op pr (complex_op_name op)) tt (op_text op).
Proof.
  intros H. unfold put_op, op_text. assert (match op with Op_prox p => prox_text p | _ => [] end = []) as -> by by destruct H as [->| ->].
  eapply sends_bind; [by apply sends_put_lit|]. eapply sends_bind; [apply sends_put_lit; by destruct H as [->| ->]|]. rewrite app_nil_r. by apply sends_put_lit.
Qed.

Lemma reads_Some p t : reads p (Some t) -> exists rest, p = Some (t ++ 0 :: rest) /\ nonzero t.
Proof. destruct p as [m|]; [|done]. intros (Hn & rest & ->). by exists rest. Qed.

Lemma sends_extra st mods es0 op ne ts z : plain_op op -> Forall2 (fun e t => reads (st_term e) (Some t)) ne ts -> terms_rpn std entry st mods es0 op ts z ->
  exists q, sends pr (emit_extra pr entry st mods (complex_op_name op) ne) 0 (q ++ [32]) /\ parses std false (map attr_of es0) z q.
Proof.
  intros Hop Hts Hz. revert ne Hts. induction Hz as [t z Hz|t ts z1 z2 Hz1 Hz2 IH]; intros ne Hts; inversion Hts as [|e ? ne' ? (rest & Ee & Hn)%reads_Some Hts']; subst.
  - inversion Hts'; subst. destruct (sends_term st mods es0 (t ++ 0 :: rest) (zlen t) t z) as (q & E & Hq); [apply sub_all|done|]. exists q. split; [|done].
    cbn [emit_extra]. rewrite Ee. apply (sends_eq _ _ _ ([] ++ (q ++ [32]) ++ [])); [by rewrite app_nil_r|]. eapply sends_bind; [apply sends_ret|].
    eapply sends_lift; [done|]. unfold emit_str. eapply sends_ok; [|apply sends_ret|done]. eapply sends_lift; [by apply strlen_spec|exact E].
  - destruct (IH ne' Hts') as (q2 & E2 & Hq2). destruct (sends_term st mods es0 (t ++ 0 :: rest) (zlen t) t z1) as (q1 & E1 & Hq1); [apply sub_all|done|].
    exists (op_text op ++ q1 ++ [32] ++ q2). split; [|apply parses_complex; [by destruct Hop as [->| ->]|done..]].
    destruct ne' as [|e' ne']; [inversion Hts'; subst; inversion Hz2|]. cbn [emit_extra] in E2 |- *. rewrite Ee. rewrite <- !app_assoc.
    eapply sends_bind; [by apply sends_put_op|]. eapply sends_lift; [done|]. unfold emit_str at 1. rewrite (app_assoc q1). eapply sends_ok; [|exact E2|done].
    eapply sends_lift; [by apply strlen_spec|exact E1].
Qed.

(** ** Words *)

Lemma skip_repeat k s : past_blanks (repeat 32 k ++ s) = past_blanks s.
Proof. by induction k. Qed.

Lemma skip_word w c r : ~ In 32 w -> c <> 32 \/ w <> [] -> past_blanks (w ++ c :: r) = Some (w ++ c :: r).
Proof. intros H1 H2. destruct w as [|x w]; [apply past_blanks_none; by destruct H2|]. apply past_blanks_none. intros ->. apply H1. by left. Qed.

Lemma words_nonempty t ws : words t ws -> ws <> [].
Proof. by inversion 1. Qed.

(** The word that waits. *)
Definition waits (last : option (list Z * Z)) (pre : list (list Z)) : Prop :=
  match last with Some (m, n) => exists w, sub m 0 n = Some w /\ pre = [w] | None => pre = [] end.

Lemma sends_last st mods es0 op last pre ws z : plain_op op -> waits last pre -> ws <> [] -> terms_rpn std entry st mods es0 op (pre ++ ws) z -> exists z2 w,
  terms_rpn std entry st mods es0 op ws z2 /\
  sends pr (match last with Some (t, n) => put_op pr (complex_op_name op) ;; emit_term pr entry st mods t n | None => ret 0 end) 0 w /\
  forall q2, parses std false (map attr_of es0) z2 q2 -> exists q, w ++ q2 = q /\ parses std false (map attr_of es0) z q.
Proof.
  intros Hop Hw Hne Hz. destruct last as [[m n]|]; cbn [waits] in Hw.
  - destruct Hw as (w & Hsub & ->). inversion Hz as [|t ts z1 z2 Hz1 Hz2]; subst; [done|]. destruct (sends_term st mods es0 m n w z1 Hsub Hz1) as (q1 & E1 & Hq1).
    exists z2, (op_text op ++ q1 ++ [32]). split; [done|]. split; [eapply sends_bind; [by apply sends_put_op|exact E1]|]. intros q2 Hq2. eexists. split; [done|].
    rewrite <- !app_assoc. apply parses_complex; [by destruct Hop as [->| ->]|done..].
  - subst pre. exists z, []. split; [done|]. split; [apply sends_ret|]. intros q2 Hq2. by exists q2.
Qed.

Lemma sends_words st mods es0 op t ws : plain_op op -> words t ws -> nonzero t -> forall j rest fuel last pre z, waits last pre -> (length ws <= fuel)%nat ->
  terms_rpn std entry st mods es0 op (pre ++ ws) z ->
  exists q, sends pr (word_loop pr entry fuel st mods (complex_op_name op) (repeat 32 j ++ t ++ 0 :: rest) last) 0 (q ++ [32]) /\ parses std false (map attr_of es0) z q.
Proof.
  intros Hop Hws. induction Hws as [k w Hw|k w t ws Hw Hne Hws IH]; intros Hn j rest [|fuel] last pre z Hpre Hf Hz; try (cbn in Hf; lia); cbn [word_loop].
  - apply Forall_app in Hn as [_ Hn]. destruct (sends_last st mods es0 op last pre [w] z) as (z2 & w1 & Hz2 & E1 & Hq); [done..|].
    inversion Hz2 as [? ? Ht|? ? ? ? _ Hnil]; subst; [|inversion Hnil]. destruct (sends_term st mods es0 (w ++ 0 :: rest) (zlen w) w z2) as (q2 & E2 & Hq2); [apply sub_all|done|].
    destruct (Hq q2 Hq2) as (q & <- & Hz'). exists (w1 ++ q2). split; [|done]. apply (sends_eq _ _ _ (w1 ++ q2 ++ [32])); [by rewrite <- app_assoc|].
    eapply sends_lift; [rewrite <- app_assoc, !skip_repeat; apply skip_word; [done|by left]|]. eapply sends_lift; [by apply find_none|].
    eapply sends_bind; [exact E1|]. eapply sends_lift; [by apply strlen_spec|]. exact E2.
  - apply Forall_app in Hn as [_ Hn]. apply Forall_app in Hn as [Hnw Hn]. apply Forall_cons in Hn as [_ Hn].
    destruct (sends_last st mods es0 op last pre (w :: ws) z) as (z2 & w1 & Hz2 & E1 & Hq); [done..|].
    destruct (IH Hn 1%nat rest fuel (Some (w ++ 32 :: t ++ 0 :: rest, zlen w)) [w] z2) as (q2 & E2 & Hq2); [exists w; by split; [apply sub_all|]|cbn in Hf; lia|done|].
    destruct (Hq q2 Hq2) as (q & <- & Hz'). exists (w1 ++ q2). split; [|done]. apply (sends_eq _ _ _ (w1 ++ q2 ++ [32])); [by rewrite <- app_assoc|].
    eapply (sends_lift _ _ _ (w ++ 32 :: t ++ 0 :: rest)).
    { rewrite <- !app_assoc, !skip_repeat. apply skip_word; [done|by right]. }
    eapply sends_lift; [apply find_char_at; [done|]|]. { intros H0. by apply (proj1 (List.Forall_forall _ _) Hnw 0). }
    eapply sends_bind; [exact E1|]. eapply sends_silent; [done|]. cbn [negb Z.eqb]. unfold zlen at 1. rewrite Nat2Z.id, drop_app_length. exact E2.
Qed.

(** ** Clauses *)

(** A clause with terms has good attributes, and modifiers without a value. *)
Lemma terms_attrs st mods es0 op ts z : terms_rpn std entry st mods es0 op ts z ->
  Forall (elem_ok std) es0 /\ sets_ok false es0 /\ zlen es0 <= max_attr /\ Forall (fun m => st_term m = None) mods.
Proof.
  assert (forall t z, term_rpn std entry st mods es0 t z -> Forall (elem_ok std) es0 /\ sets_ok false es0 /\ zlen es0 <= max_attr /\ Forall (fun m => st_term m = None) mods) as H.
  { intros t z' [ns es1 es2 es3 mode t' _ _ _ _ _ Hmods es He%Forall_app Hs%sets_ok_app Hl]. unfold es in Hl. rewrite zlen_app in Hl. pose proof (zlen_nonneg (es1 ++ es2 ++ es3)).
    split_and!; [apply He|apply Hs|lia|]. clear - Hmods. by induction Hmods; constructor. }
  intros Hz. destruct Hz; by eapply H.
Qed.

Lemma begin_none mods : Forall (fun m => st_term m = None) mods -> sends pr (begin_values pr mods) 0 [].
Proof. induction 1 as [|m mods Hm _ IH]; [apply sends_ret|]. cbn [begin_values]. by rewrite Hm. Qed.
Lemma end_none mods : Forall (fun m => st_term m = None) mods -> sends pr (end_values pr entry 0 mods) 0 [].
Proof. induction 1 as [|m mods Hm _ IH]; [apply sends_ret|]. cbn [end_values]. by rewrite Hm. Qed.

Lemma same_relation {T} st name : same_result (S := T) (is_relation st name) (is_relation st name).
Proof. unfold is_relation. destruct (st_relation st); [apply same_lift|apply same_ret]. Qed.

(** What a clause writes after its own attributes. *)
Definition choice (all any : bool) (st : cql_st) (mods extra : list cql_st) : M (S * list Z) Z :=
  if all then emit_wordlist pr entry st mods (str "and") else if any then emit_wordlist pr entry st mods (str "or") else emit_terms pr entry st mods extra (str "and").
Definition body (st : cql_st) (mods extra : list cql_st) : M (S * list Z) Z :=
  let* all := is_relation st (str "all") in
  let* any := is_relation st (str "any") in
  let* r := choice all any st mods extra in
  end_values pr entry r mods.

Lemma sends_body all any st mods extra w : result (is_relation st (str "all")) = Some all -> result (is_relation st (str "any")) = Some any ->
  Forall (fun m => st_term m = None) mods -> sends pr (choice all any st mods extra) 0 w -> sends pr (body st mods extra) 0 w.
Proof.
  intros Ha Hb Hm E. eapply sends_silent; [by apply (result_any _ _ _ (same_relation _ _))|]. eapply sends_silent; [by apply (result_any _ _ _ (same_relation _ _))|].
  apply (sends_eq _ _ _ (w ++ [])); [by rewrite app_nil_r|]. eapply sends_bind; [exact E|by apply end_none].
Qed.

Lemma words_count t ws : words t ws -> (length ws <= Datatypes.S (length t))%nat.
Proof. induction 1 as [|k w t ws _ Hne _ IH]; [cbn; lia|]. rewrite !length_app. destruct w; [done|]. cbn [length] in *. lia. Qed.

Lemma sends_clause_terms st mods extra es0 ts op z : clause_terms st extra ts op -> terms_rpn std entry st mods es0 op ts z -> exists q,
  sends pr (body st mods extra) 0 (q ++ [32]) /\ parses std false (map attr_of es0) z q.
Proof.
  intros Hc Hz. destruct (terms_attrs _ _ _ _ _ _ Hz) as (_ & _ & _ & Hm).
  destruct Hc as [all any op t ws Ha Hb Hop (rest & Et & Hn)%reads_Some Hws|t ts Ha Hb Ht Hts].
  - assert (plain_op op) as Hp by (destruct all; [by left|right; apply Hop]). pose proof (words_count t ws Hws).
    destruct (sends_words st mods es0 op t ws Hp Hws Hn 0 rest (Datatypes.S (length (t ++ 0 :: rest))) None [] z) as (q & E & Hq); [done|rewrite length_app; lia|done|].
    exists q. split; [|done]. apply (sends_body all any); [done..|]. unfold choice, emit_wordlist. rewrite Et. destruct all; [by rewrite Hop in E|]. by destruct Hop as [-> ->].
  - destruct (sends_extra st mods es0 Op_and (st :: extra) (t :: ts) z) as (q & E & Hq); [by left|by constructor|done|]. exists q. split; [|done].
    by apply (sends_body false false).
Qed.

Lemma sends_is_set {A} st ns b (k : bool -> M (S * list Z) A) r w : is_result_set st ns b -> sends pr (k b) r w ->
  sends pr (let* is_cql := lift (str_same ns cql_uri) in
            let* is_set := (match st_index st with
                            | Some i => if is_cql : bool then lift (cql_same i (str "resultSet" ++ [0])) else ret false
                            | None => ret false
                            end) in k is_set) r w.
Proof.
  unfold is_result_set. intros Hs Hk. destruct (str_same ns cql_uri) as [c|]; [|done]. cbn [mbind option_bind] in Hs. eapply sends_lift; [done|].
  destruct (st_index st) as [i|]; [|injection Hs as <-; by eapply sends_silent]. destruct c; [by eapply sends_lift|injection Hs as <-; by eapply sends_silent].
Qed.

Lemma sends_always es : attrs_for std entry (str "always" ++ [0]) None None None es \/ (es = [] /\ no_attrs entry (str "always" ++ [0]) None None None) ->
  exists r, sends pr (cql_pr_attr pr entry (str "always") None None 0) r (attrs_text std es).
Proof. intros [H|[-> H]]; [exists 0; by apply sends_attr_uri|exists 1; by apply sends_no_attr]. Qed.

Lemma sends_clause st mods extra ns es1 es2 es3 ts op z : st_index_uri st = Some ns -> is_result_set st ns false ->
  attrs_for std entry (str "always" ++ [0]) None None None es1 \/ (es1 = [] /\ no_attrs entry (str "always" ++ [0]) None None None) ->
  attrs_for std entry (str "relation" ++ [0]) None (st_relation st) None es2 -> attrs_for std entry (str "structure" ++ [0]) None (st_relation st) None es3 ->
  clause_terms st extra ts op -> terms_rpn std entry st mods (es1 ++ es2 ++ es3) op ts z ->
  exists q, sends pr (emit_clause pr entry st mods extra) 0 (q ++ [32]) /\ parses std false [] z q.
Proof.
  intros Hns Hset H1 H2 H3 Hc Hz. destruct (terms_attrs _ _ _ _ _ _ Hz) as (He & Hs & Hl & Hm). destruct (sends_clause_terms _ _ _ _ _ _ _ Hc Hz) as (q & E & Hq).
  exists (attrs_text std (es1 ++ es2 ++ es3) ++ q). split; [|by apply (parses_more [])]. unfold emit_clause. rewrite Hns. apply (sends_is_set st ns false); [done|].
  rewrite !attrs_text_app, <- !app_assoc. apply (sends_bind pr _ _ 0 _ [] _ (begin_none mods Hm)). cbn [negb Z.eqb].
  destruct (sends_always es1 H1) as (r1 & E1). eapply sends_bind; [exact E1|]. eapply sends_ok; [by apply sends_attr_uri| |done].
  eapply sends_ok; [by apply sends_attr_uri|exact E|done].
Qed.

(** ** Trees *)

Lemma sends_set st mods extra ns w : st_index_uri st = Some ns -> is_result_set st ns true -> reads (st_term st) (Some w) ->
  sends pr (emit_clause pr entry st mods extra) 0 ((str "@set " ++ 34 :: w ++ [34]) ++ [32]).
Proof.
  intros Hns Hset (rest & Et & Hn)%reads_Some. unfold emit_clause. rewrite Hns. apply (sends_is_set st ns true); [done|]. cbv iota. rewrite Et.
  apply (sends_eq _ _ _ ((str "@set " ++ [34]) ++ w ++ [34; 32] ++ [])).
  { rewrite <- !app_assoc. cbn [app]. by rewrite <- app_assoc. }
  eapply sends_bind; [by apply sends_put_lit|]. eapply sends_lift; [done|]. eapply sends_bind; [by apply sends_put|].
  eapply sends_bind; [by apply sends_put_lit|apply sends_ret].
Qed.

Lemma sends_int n : 0 <= n < 2 ^ 63 -> sends pr (cql_pr_int pr n) tt (fmt_d n ++ [32]).
Proof.
  intros Hn. destruct (fmt_d_any n) as [Hz Hl]; [lia|]. unfold cql_pr_int. rewrite take_ge by (unfold zlen in Hl; lia).
  eapply sends_bind; [by apply sends_put|by apply sends_put_lit].
Qed.

Lemma sends_prox mods p : result (prox_mods mods (Prox_of (-1) 0 2 2)) = Some (inr p) -> prox_ok (prox_op p) ->
  sends pr (cql_pr_prox pr mods) 0 (prox_text (prox_op p)).
Proof.
  intros Hp (_ & Hd & Ho & Hr & _ & k & [= <-] & Hk). unfold cql_pr_prox. eapply sends_silent; [by apply prox_any|]. cbv iota.
  cbn [prox_op distance ordered relationType] in Hd, Ho, Hr. unfold prox_text, prox_op. cbn [distance ordered relationType exclusion prox_which known default].
  set (d := if p_distance p =? -1 then _ else _) in *.
  apply (sends_eq _ _ _ ((fmt_d 0 ++ [32]) ++ (fmt_d d ++ [32]) ++ (fmt_d (p_ordered p) ++ [32]) ++ (fmt_d (p_proxrel p) ++ [32]) ++ str "k " ++ (fmt_d (p_unit p) ++ [32]) ++ [])).
  { rewrite <- !app_assoc. done. }
  eapply sends_bind; [by apply sends_int|]. eapply sends_bind; [by apply sends_int|]. eapply sends_bind; [apply sends_int; lia|]. eapply sends_bind; [by apply sends_int|].
  eapply sends_bind; [by apply sends_put_lit|]. eapply sends_bind; [by apply sends_int|apply sends_ret].
Qed.

Lemma operator_ok value mods op : operator value mods op -> match op with Op_prox p => prox_ok p | _ => True end.
Proof. intros [_ H]. destruct op; [done..|apply H]. Qed.

(** The part of an operator that depends on its modifiers. *)
Definition op_mods (value : list Z) (mods : list cql_st) : M (S * list Z) Z :=
  let* is_prox := is_str value (str "prox") in
  if is_prox : bool then cql_pr_prox pr mods
  else match mods with
       | [] => ret 0
       | m :: _ => let* name := deref (st_index m) in add_info name ;; ret YAZ_SRW_UNSUPP_BOOLEAN_MODIFIER
       end.

Lemma sends_op_mods value mods op : operator value mods op -> sends pr (op_mods value mods) 0 (match op with Op_prox p => prox_text p | _ => [] end).
Proof.
  intros [(rest & ->) Hop]. unfold op_mods, is_str.
  assert (str_same (complex_op_name op ++ 0 :: rest) (str "prox" ++ [0]) = Some (bool_decide (complex_op_name op = str "prox"))) as E.
  { apply str_same_cstr; [apply cstr_spec, nonzero_lit; by destruct op|done]. }
  destruct op as [| | |po].
  1-3: subst mods; eapply sends_lift; [exact E|apply sends_ret].
  destruct Hop as (Hok & p & Hp & ->). eapply sends_lift; [exact E|]. by apply sends_prox.
Qed.

Lemma sends_tree cn z : translates std entry cn z -> exists q, sends pr (emit_node pr entry cn) 0 (q ++ [32]) /\ parses std false [] z q.
Proof.
  induction 1 as [st mods extra ns w Hns Hset Hw Hc Hs|st mods extra ns es1 es2 es3 ts op z Hns Hset H1 H2 H3 Hc Hz
    |value l r mods op z1 z2 Hop _ (q1 & E1 & Hq1) _ (q2 & E2 & Hq2)|index mods next search z _ IH]; cbn [emit_node].
  - eexists. split; [by eapply sends_set|by apply parses_set_quoted].
  - by eapply sends_clause.
  - exists (op_text op ++ q1 ++ [32] ++ q2). split; [|apply parses_complex; [by eapply operator_ok|done..]].
    pose proof (sends_op_mods value mods op Hop) as Em. destruct Hop as [(rest & ->) _]. unfold op_text. rewrite <- !app_assoc.
    eapply sends_bind; [by apply sends_put_lit|]. eapply sends_bind; [apply sends_put, nonzero_lit; by destruct op|]. eapply sends_bind; [by apply sends_put_lit|].
    intros o a t Ho. rewrite <- bind_assoc. revert o a t Ho. rewrite (app_assoc q1). eapply sends_ok; [exact Em| |done]. eapply sends_ok; [exact E1|exact E2|done].
  - done.
Qed.
End writing.

(** ** The transformation *)

Lemma translates_set_not std entry cn z : translates std entry cn z -> z <> RPN_unset.
Proof.
  assert (forall st mods es0 op ts z, terms_rpn std entry st mods es0 op ts z -> z <> RPN_unset) as H.
  { intros st mods es0 op ts z' Hz. by destruct Hz as [? ? Hz|]; [destruct Hz|]. }
  induction 1; [done|by eapply H|done|done].
Qed.

Section whole.
Context (std : yaz_oid_db) (bib_1 : list Z) (Hbib : odr_oiddup_nmem (Some bib_1) = Some (Some bib_1)).

(** The text [q] is read as [z], by a parser in its first state. *)
Definition read_as (q : list Z) (z : Z_RPNStructure) : Prop :=
  forall rest p, term_type p = Z_Term_general -> exists p', yaz_pqf_parse std bib_1 (q ++ 0 :: rest) p = Some (Some (RPNQuery (Some bib_1) z), p') /\ error p' = error p.

Definition no_error (ct : cql_transform_t) : cql_transform_t := Transform (ct_entry ct) (ct_tok_cfg ct) 0 [].

Lemma transform_writes {S} (pr : list Z -> M S unit) `{!Sink pr} ct cn cn' z :
  apply_entries (ct_entry ct) cn = Some cn' -> translates std (ct_entry ct) cn' z -> exists q, read_as q z /\
  forall o t, holds o t -> exists o', cql_transform pr ct cn o = Some (0, no_error ct, o') /\ holds o' (t ++ q).
Proof.
  intros Ha Hz. destruct (sends_tree pr std _ _ _ Hz) as (q & E & Hq). exists (q ++ [32]). split.
  - intros rest p Hp. rewrite <- app_assoc. apply parses_whole; [done|by eapply translates_set_not|done|done].
  - intros o t Ho. destruct (E o [] t Ho) as (o' & E' & Ho'). exists o'. split; [|done]. unfold cql_transform, cql_transform_r. rewrite Ha. cbn [lift].
    rewrite (bind_Some _ _ _ cn' (o, [])) by done. by rewrite E'.
Qed.


(** C8: [cql_transform_buf] of such a tree puts the text and its end into the
    buffer when there is room for both; otherwise it returns -1 and the handle
    has the diagnostic for too many characters, with the size as its text.  What
    lies behind the buffer is not touched. *)
Theorem cql_transform_buf_fits ct cn cn' z out tail :
  apply_entries (ct_entry ct) cn = Some cn' -> translates std (ct_entry ct) cn' z -> 0 < zlen out < 2 ^ 31 ->
  exists q out', read_as q z /\ zlen out' = zlen out /\
    cql_transform_buf ct cn (out ++ tail) (zlen out) =
      (if zlen q <? zlen out then Some (0, no_error ct, out' ++ tail)
       else Some (-1, Transform (ct_entry ct) (ct_tok_cfg ct) YAZ_SRW_TOO_MANY_CHARS_IN_QUERY (fmt_d (zlen out)), out' ++ tail)) /\
    (zlen q < zlen out -> exists rest, out' = q ++ 0 :: rest).
Proof.
  intros Ha Hz Hm. destruct (transform_writes cql_buf_write_handler (Sink0 := buf_sink (zlen out) tail) ct cn cn' z Ha Hz) as (q & Hq & Hw).
  destruct (Hw (Info (zlen out) 0 (out ++ tail)) []) as (o' & E & Hm' & Ho').
  { split; [done|]. left. exists out. split_and!; [done|zl|lia|done]. }
  cbn [app] in Ho'. exists q. unfold cql_transform_buf. rewrite E. cbn [mbind option_bind]. pose proof (zlen_nonneg q). destruct Ho' as [(r & Hb & H1 & H2 & ->)|(H1 & -> & body & Hb & H2)].
  - rewrite (proj2 (Z.ltb_lt (zlen q) (zlen out))), (proj2 (Z.ltb_ge (zlen q) 0)), Hb, (splice_over q r [0]) by (rewrite ?zlen_cons, ?zlen_nil; lia).
    exists (q ++ [0] ++ drop 1 r). split; [done|]. split; [|split; [cbn [mbind option_bind length]; by rewrite <- !app_assoc|intros _; by exists (drop 1 r)]].
    rewrite !zlen_app, zlen_cons, zlen_nil. unfold zlen in *. rewrite length_drop. lia.
  - rewrite (proj2 (Z.ltb_ge (zlen q) (zlen out))) by done. change (-1 <? 0) with true. cbv iota. exists body. split; [done|]. split; [done|]. split; [|lia].
    unfold cql_transform_set_error. rewrite cstr_spec by (apply fmt_d_any; lia). cbn [mbind option_bind]. by rewrite Hb.
Qed.
End whole.

(** ** An example *)

Lemma filled_none eval p : ~ In 42 p -> filled eval p = p.
Proof.
  unfold filled. induction p as [|c p IH]; intros H; [done|]. cbn [map concat]. rewrite (proj2 (Z.eqb_neq c 42)) by (intros ->; apply H; by left).
  cbn [app]. f_equal. apply IH. intros Hi. apply H. by right.
Qed.

(** An entry with one attribute. *)
Lemma gives_number std k v eval : 0 <= k < 2 ^ 31 -> 0 <= v < 2 ^ 31 -> gives std (fmt_d k ++ 61 :: fmt_d v ++ [32; 0]) eval [Element None k (AV_numeric v)].
Proof.
  intros Hk Hv. destruct (fmt_d_nat k) as (D1 & N1 & _ & L1); [lia|]. destruct (fmt_d_nat v) as (_ & _ & _ & L2); [lia|].
  assert (~ In 42 (fmt_d k ++ 61 :: fmt_d v)) as H42.
  { rewrite in_app_iff. intros [H|[?|H]]; [|done|]; revert H; apply fmt_d_notin; lia. }
  exists [fmt_d k ++ 61 :: fmt_d v], []. split; [cbn [map concat]; by rewrite app_nil_r, <- !app_assoc|]. split; [|split].
  - constructor; [|constructor]. destruct (fmt_d_any k) as [Hz1 _]; [lia|]. destruct (fmt_d_any v) as [Hz2 _]; [lia|]. split; [|split; [|split]].
    + apply Forall_app. split; [done|]. by constructor.
    + zl.
    + destruct (fmt_d k) as [|d ds] eqn:E; [done|]. eexists d, _. split; [done|]. pose proof (digits_head d ds D1). lia.
    + exists (fmt_d k), (fmt_d v). split; [done|]. split; apply fmt_d_notin; lia.
  - constructor; [|constructor]. by rewrite filled_none.
  - intros _. by constructor.
Qed.

Definition demo_entry (p v : string) : cql_prop_entry := Prop_entry (str p ++ [0]) (str v ++ [0]) [].
Definition demo_ct : cql_transform_t := Transform
  [demo_entry "set.dc" "u"; demo_entry "index.dc.title" "1=4 "; demo_entry "relation.eq" "2=3 "; demo_entry "relation.all" "2=3 "; demo_entry "structure.*" "4=1 ";
   demo_entry "position.any" "3=3 "; demo_entry "truncation.right" "5=1 "; demo_entry "truncation.none" "5=100 "] yaz_tok_cfg_create 0 [].

(** [dc.title = "a b*" prox/unit=sentence dc.title all "x  y"] *)
Definition demo_st (i r t : string) (uri : option (list Z)) : cql_st := St (Some (str i ++ [0])) uri (Some (str t ++ [0])) (Some (str r ++ [0])) None.
Definition demo_prox : list cql_st := [St (Some (str "unit" ++ [0])) None (Some (str "sentence" ++ [0])) (Some (str "=" ++ [0])) None].
Definition demo_tree (i : string) (uri : option (list Z)) : cql_node :=
  CQL_NODE_BOOL (str "prox" ++ [0]) (CQL_NODE_ST (demo_st i "=" "a b*" uri) [] []) (CQL_NODE_ST (demo_st i "all" "x  y" uri) [] []) demo_prox.

Definition demo_attr (k v : Z) : Z_AttributeElement := Element None k (AV_numeric v).
Definition demo_term (trunc : Z) (t : list Z) : Z_RPNStructure :=
  RPN_simple (Operand_APT (APT (Some [demo_attr 1 4; demo_attr 5 trunc; demo_attr 3 3; demo_attr 4 1; demo_attr 2 3]) (Term_general t))).
Definition demo_rpn : Z_RPNStructure :=
  RPN_complex (demo_term 1 (str "a b")) (RPN_complex (demo_term 100 (str "x")) (demo_term 100 (str "y")) Op_and) (Op_prox (Prox (Some 0) 0 0 2 1 (Some 3))).

#[local] Ltac demo_found t :=
  eexists _, (Some (str t)); split; [vm_compute; reflexivity|]; split; [split; [by repeat constructor|by exists []]|];
  first [exact (gives_number [] 1 4 _ ltac:(lia) ltac:(lia))|exact (gives_number [] 2 3 _ ltac:(lia) ltac:(lia))|exact (gives_number [] 4 1 _ ltac:(lia) ltac:(lia))
        |exact (gives_number [] 3 3 _ ltac:(lia) ltac:(lia))|exact (gives_number [] 5 1 _ ltac:(lia) ltac:(lia))|exact (gives_number [] 5 100 _ ltac:(lia) ltac:(lia))].

#[local] Ltac demo_word trunc name w :=
  lazymatch goal with |- term_rpn _ ?en ?st ?mods ?es0 ?t _ => apply (term_rpn_intro [] en st mods es0 t (str "u" ++ [0]) ([demo_attr 3 3] ++ [demo_attr 5 trunc]) [demo_attr 1 4] [] (Some false) (str w)) end;
  [by repeat constructor|apply masking_plain; [reflexivity|reflexivity|reflexivity|demo_found "any"%string|left; demo_found name]|by split|reflexivity|demo_found "title"%string|constructor
  |repeat constructor; simpl; lia|by repeat split|done].

Lemma demo_translates : translates [] (ct_entry demo_ct) (demo_tree "title" (Some (str "u" ++ [0]))) demo_rpn.
Proof.
  apply translates_bool.
  - split; [by eexists|]. split; [|by eexists]. split; [by right; left|]. split; [by cbn|]. split; [by left|]. split; [by cbn|]. split; [by left|]. by exists 3.
  - apply (translates_clause _ _ _ _ _ (str "u" ++ [0]) [] [demo_attr 2 3] [demo_attr 4 1] [str "a b*"] Op_and);
      [reflexivity|reflexivity|by right|demo_found "="%string|demo_found "="%string|apply (clause_phrases _ _ (str "a b*") []); [reflexivity|reflexivity| |constructor]|].
    + split; [by repeat constructor|by eexists].
    + constructor. demo_word 1 "right"%string "a b"%string.
  - apply (translates_clause _ _ _ _ _ (str "u" ++ [0]) [] [demo_attr 2 3] [demo_attr 4 1] [str "x"; str "y"] Op_and);
      [reflexivity|reflexivity|by right|demo_found "all"%string|demo_found "all"%string|apply (clause_words _ _ true false _ (str "x  y")); [reflexivity|reflexivity|done| |]|].
    + split; [by repeat constructor|by eexists].
    + apply (words_more 0 (str "x") (str " y")); [simpl; lia|done|]. apply (words_last 1 (str "y")). simpl; lia.
    + constructor; [demo_word 100 "none"%string "x"%string|constructor; demo_word 100 "none"%string "y"%string].
Qed.


Lemma cql_transform_buf_fits_witness : let out := repeat 0 10 in exists q out', read_as [] [1; 2; -1] q demo_rpn /\ zlen out' = zlen out /\
  cql_transform_buf demo_ct (demo_tree "dc.title" None) (out ++ [7]) (zlen out) =
    (if zlen q <? zlen out then Some (0, no_error demo_ct, out' ++ [7])
     else Some (-1, Transform (ct_entry demo_ct) (ct_tok_cfg demo_ct) YAZ_SRW_TOO_MANY_CHARS_IN_QUERY (fmt_d (zlen out)), out' ++ [7])) /\
  (zlen q < zlen out -> exists rest, out' = q ++ 0 :: rest).
Proof.
  intros out. apply (cql_transform_buf_fits [] [1; 2; -1] eq_refl demo_ct (demo_tree "dc.title" None) (demo_tree "title" (Some (str "u" ++ [0]))) demo_rpn out [7]);
    [reflexivity|exact demo_translates|by vm_compute].
Defined.
