(* ===== verification/CqlProfile.v ===== *)
(** * Entries of CQL profiles (cqltransform.c, tokenizer.c)

    What [cql_transform_define_pattern] reads from the attributes of an entry, and
    that the text it keeps stands for them when the entry is used. *)

From stdpp Require Import base list numbers option strings.
From Stdlib Require Import ZArith Lia.
From S2P Require Import Prelude Text OidUtil OidDb Wrbuf Rpn Pqf PqfText PqfRound Tokenizer Cql CqlTransform CqlSink CqlPqf.

(** The tokens of a profile. *)
Definition profile_cfg : yaz_tok_cfg := yaz_tok_cfg_single_tokens (str "=") yaz_tok_cfg_create.

(** A word of an entry. *)
Definition tok_word (w : list Z) : Prop := Forall (fun c => tok_char profile_cfg c = true) w /\ exists c r, w = c :: r /\ c <> 34.

Lemma tok_char_spec c : tok_char profile_cfg c = true <-> c <> 0 /\ c <> 32 /\ c <> 9 /\ c <> 13 /\ c <> 10 /\ c <> 61 /\ c <> 35.
Proof.
  unfold tok_char, profile_cfg, strchr. cbn [tc_white_space tc_single_tokens tc_comment yaz_tok_cfg_single_tokens yaz_tok_cfg_create].
  change (str "=") with [61]. change (str "#") with [35]. cbn [app existsb]. rewrite !andb_true_iff, !negb_true_iff, !orb_false_iff, !Z.eqb_neq. tauto.
Qed.

Lemma tok_word_nonzero w : tok_word w -> nonzero w.
Proof. intros [H _]. eapply Forall_impl; [exact H|]. intros c Hc%tok_char_spec. apply Hc. Qed.

Lemma tok_word_notin w c : tok_word w -> tok_char profile_cfg c = false -> ~ In c w.
Proof. intros [H _] Hc Hin. rewrite List.Forall_forall in H. specialize (H _ Hin). congruence. Qed.

Lemma tok_word_number n : 0 <= n < 2 ^ 63 -> tok_word (fmt_d n).
Proof.
  intros Hn. destruct (fmt_d_nat n) as (H1 & H2 & _); [lia|]. split.
  - eapply Forall_impl; [exact H1|]. intros c Hc. cbv beta in Hc. apply tok_char_spec. lia.
  - destruct (fmt_d n) as [|c r]; [done|]. exists c, r. split; [done|]. pose proof (digits_head c r H1). lia.
Qed.

(** The next token is the word. *)
Lemma move_word tp k w x q : tp_cfg tp = profile_cfg -> tok_word w -> tok_char profile_cfg x = false -> remaining tp = repeat 32 k ++ w ++ x :: q ->
  run yaz_tok_move tp (moved tp YAZ_TOK_STRING w (x :: q)).
Proof.
  intros Hcfg [Hw (c & r & -> & Hc)] Hx E. apply (move_string tp (repeat 32 k)); rewrite ?Hcfg; [|done| | |done|done].
  - apply List.Forall_forall. by intros c' ->%repeat_spec.
  - change (c ∉ ([34] : list Z)). rewrite list_elem_of_singleton. done.
  - change (~ In 0 [34]). by intros [?|[]].
Qed.

Lemma move_equals tp q : tp_cfg tp = profile_cfg -> remaining tp = 61 :: q -> run yaz_tok_move tp (moved tp 61 [] q).
Proof. intros Hcfg E. apply (move_single tp []); rewrite ?Hcfg; done. Qed.

Section define.
Context (std : yaz_oid_db) (junk : list Z).

(** An attribute that can be written in a profile. *)
Record def_ok (e : Z_AttributeElement) : Prop := {
  do_type : 0 <= attributeType e < 2 ^ 63;
  do_value : match value e with
             | AV_numeric n => 0 <= n < 2 ^ 31
             | AV_complex l sa => sa = [] /\ exists c s, l = [SN_string ((c :: s) ++ [0])] /\ yaz_isdigit c = false /\ tok_word (c :: s)
             end;
  do_set : match attributeSet e with
           | Some o => tok_word (oid_name std o) /\ yaz_string_to_oid_nmem std CLASS_ATTSET (oid_name std o ++ [0]) junk = Some (Some o)
           | None => True
           end;
}.

Definition line_text (es : list Z_AttributeElement) : list Z := concat (map (fun e => elem_text std e ++ [32]) es).

Lemma sscanf_fmt n : 0 <= n < 2 ^ 63 -> sscanf_lld (fmt_d n ++ [0]) = Some (Some n).
Proof.
  intros Hn. pose proof (odr_atoi_fmt n 0 [] ltac:(lia) eq_refl) as E. destruct (fmt_d_nat n) as (H1 & H2 & _); [lia|]. unfold sscanf_lld.
  destruct (fmt_d n) as [|d ds]; [done|]. assert (48 <= d <= 57) as Hd by apply (digits_head d ds H1). cbn [app] in E |- *.
  assert (skip_white (d :: ds ++ [0]) = Some (d :: ds ++ [0])) as ->. { cbn [skip_white]. by replace (c_blank d) with false by (unfold c_blank; lia). }
  cbn [mbind option_bind]. rewrite rd_0. cbn [mbind option_bind]. rewrite (proj2 (Z.eqb_neq d 43)), (proj2 (Z.eqb_neq d 45)) by lia. cbn [orb]. rewrite rd_0.
  cbn [mbind option_bind]. replace (yaz_isdigit d) with true by (unfold yaz_isdigit; lia). by rewrite E.
Qed.

Lemma value_word_ok e : def_ok e -> tok_word (value_text (value e)) /\ profile_value (value_text (value e) ++ [0]) = Some (value e).
Proof.
  intros [_ Hv _]. destruct (value e) as [n|l sa]; cbn [value_text].
  - split; [apply tok_word_number; lia|]. unfold profile_value. pose proof (odr_atoi_fmt n 0 [] ltac:(lia) eq_refl) as E. destruct (fmt_d_nat n) as (H1 & H2 & _); [lia|].
    destruct (fmt_d n) as [|d ds]; [done|]. pose proof (digits_head d ds H1). cbn [app] in *. rewrite rd_0. cbn [mbind option_bind].
    replace (yaz_isdigit d) with true by (unfold yaz_isdigit; lia). unfold atoi. rewrite E. cbn [mbind option_bind]. by rewrite s32_small by lia.
  - destruct Hv as (-> & c & s & -> & Hd & Hw). rewrite removelast_last. split; [done|]. unfold profile_value. cbn [app]. rewrite rd_0. cbn [mbind option_bind]. rewrite Hd.
    unfold dup_str. change (c :: s ++ [0]) with ((c :: s) ++ 0 :: []). rewrite cstr_spec by by apply tok_word_nonzero. done.
Qed.

(** A word has been read. *)
Lemma string_cstr {A} tp w (k : list Z -> list Z -> TOK A) Q : tp_wr_string tp = w -> nonzero w -> run (k (w ++ [0]) w) tp Q ->
  run (let* s := yaz_tok_parse_string in let* t := lift (cstr s) in k s t) tp Q.
Proof. intros <- Hw Hk. unfold yaz_tok_parse_string. apply run_gets. eapply run_lift; [by apply cstr_spec|exact Hk]. Qed.

(** From the number of an attribute on: = and the value. *)
Definition after_type (fuel : nat) (ae : list Z_AttributeElement) (set_ : option (list Z)) (type_str w : list Z) (t : Z) : TOK line_result :=
  let* n := lift (sscanf_lld type_str) in
  match n with
  | None => ret Line_fails
  | Some n =>
      if negb (t =? 61) then ret Line_fails
      else
        let* t := yaz_tok_move in
        if negb (t =? YAZ_TOK_STRING) then ret Line_fails
        else
          let* value_str := yaz_tok_parse_string in
          let* v := lift (profile_value value_str) in
          let* t3 := lift (cstr value_str) in
          let* t := yaz_tok_move in
          line_loop std junk fuel t (ae ++ [Element set_ n v]) (w ++ [61] ++ t3 ++ [32])
  end.

Lemma after_type_runs fuel ae e w tp q Q : def_ok e -> tp_cfg tp = profile_cfg -> remaining tp = value_text (value e) ++ 32 :: q ->
  (forall tp', tp_cfg tp' = profile_cfg -> remaining tp' = 32 :: q ->
     run (let* t := yaz_tok_move in line_loop std junk fuel t (ae ++ [e]) (w ++ [61] ++ value_text (value e) ++ [32])) tp' Q) ->
  run (after_type fuel ae (attributeSet e) (fmt_d (attributeType e) ++ [0]) w 61) tp Q.
Proof.
  intros He Hcfg E Hk. destruct (value_word_ok e He) as [Hw Hv]. unfold after_type. eapply run_lift; [apply sscanf_fmt, He|]. cbn [negb Z.eqb Pos.eqb].
  eapply run_bind; [by apply (move_word tp 0 (value_text (value e)) 32 q)|]. intros t tp1 (-> & E1 & C1 & W1). cbn [negb Z.eqb Pos.eqb YAZ_TOK_STRING]. unfold yaz_tok_parse_string. apply run_gets.
  rewrite W1 by done. eapply run_lift; [exact Hv|]. eapply run_lift; [apply cstr_spec, (tok_word_nonzero _ Hw)|]. destruct e. apply Hk; [congruence|done].
Qed.

Lemma line_runs es : Forall def_ok es -> forall fuel tp ae w k rest, tp_cfg tp = profile_cfg -> remaining tp = repeat 32 k ++ line_text es ++ 0 :: rest ->
  zlen ae + zlen es <= 20 -> (length es < fuel)%nat ->
  run (let* t := yaz_tok_move in line_loop std junk fuel t ae w) tp (fun r _ => r = Line_ends (ae ++ es) (w ++ line_text es)).
Proof.
  induction 1 as [|e es He Hes IH]; intros fuel tp ae w k rest Hcfg E Hl Hf; (destruct fuel as [|fuel]; [cbn in Hf; lia|]).
  { eapply run_bind; [apply (move_end tp (repeat 32 k) rest); [rewrite Hcfg; apply List.Forall_forall; by intros c ->%repeat_spec|exact E]|].
    intros t tp1 (-> & _). cbn [line_loop]. apply run_ret. by rewrite !app_nil_r. }
  rewrite zlen_cons in Hl. pose proof (zlen_nonneg es) as Hn. set (ty := fmt_d (attributeType e)) in *. set (v := value_text (value e)) in *.
  assert (tok_word ty) as Hty by apply tok_word_number, He.
  assert (line_text (e :: es) ++ 0 :: rest = set_text std (attributeSet e) ++ ty ++ 61 :: v ++ 32 :: line_text es ++ 0 :: rest) as El.
  { unfold line_text, elem_text. cbn [map concat]. rewrite <- !app_assoc. done. }
  rewrite El in E. clear El.
  assert (forall w' tp', tp_cfg tp' = profile_cfg -> remaining tp' = v ++ 32 :: line_text es ++ 0 :: rest -> w' = w ++ set_text std (attributeSet e) ++ ty ->
    run (after_type fuel ae (attributeSet e) (ty ++ [0]) w' 61) tp' (fun r _ => r = Line_ends (ae ++ e :: es) (w ++ line_text (e :: es)))) as Hk.
  { intros w' tp' C' E' ->. eapply after_type_runs; [done|done|exact E'|]. intros tp2 C2 E2. eapply run_weaken; [eapply (IH fuel tp2 _ _ 1%nat); [done|exact E2|zl|cbn in Hf; lia]|].
    intros r _ ->. f_equal; [by rewrite <- app_assoc|]. unfold line_text, elem_text. cbn [map concat]. by rewrite <- !app_assoc. }
  assert (forall first tp1 tail, tp_wr_string tp1 = first -> tok_word first -> tp_cfg tp1 = profile_cfg -> remaining tp1 = tail ->
    match attributeSet e with
    | Some o => first = oid_name std o /\ tail = 32 :: ty ++ 61 :: v ++ 32 :: line_text es ++ 0 :: rest
    | None => first = ty /\ tail = 61 :: v ++ 32 :: line_text es ++ 0 :: rest
    end -> run (line_loop std junk (S fuel) YAZ_TOK_STRING ae w) tp1 (fun r _ => r = Line_ends (ae ++ e :: es) (w ++ line_text (e :: es)))) as Hgo.
  { intros first tp1 tail W1 Hw C1 E1 Ht. cbn [line_loop YAZ_TOK_STRING Z.eqb Pos.eqb andb]. rewrite (proj2 (Z.ltb_lt (zlen ae) 20)) by lia.
    apply (string_cstr tp1 first); [done|by apply tok_word_nonzero|]. destruct (attributeSet e) as [o|] eqn:Eo; destruct Ht as [-> ->]; cbn [set_text] in *.
    - destruct He as [_ _ Hs]. rewrite Eo in Hs. destruct Hs as [_ Ho].
      eapply run_bind; [apply (move_word tp1 1 ty 61); [done|done|done|exact E1]|]. intros t tp2 (-> & E2 & C2 & W2). cbn [YAZ_TOK_STRING YAZ_TOK_EOF Z.eqb Pos.eqb].
      assert (tp_cfg tp2 = profile_cfg) as C2' by congruence.
      apply (run_bind _ _ _ (fun r tp' => r = (Some o, ty ++ [0], (w ++ oid_name std o) ++ [32] ++ ty, 61) /\ tp_cfg tp' = profile_cfg /\ remaining tp' = v ++ 32 :: line_text es ++ 0 :: rest)).
      + apply (string_cstr tp2 ty); [by apply W2|by apply tok_word_nonzero|]. eapply run_lift; [exact Ho|]. eapply run_bind; [by apply move_equals|].
        intros t tp3 (-> & E3 & C3 & _). apply run_ret. split_and!; [done|congruence|done].
      + intros r tp3 (-> & C3 & E3). apply Hk; [done|done|]. by rewrite <- !app_assoc.
    - eapply run_bind; [by apply move_equals|]. intros t tp2 (-> & E2 & C2 & _). cbn [YAZ_TOK_STRING YAZ_TOK_EOF Z.eqb Pos.eqb].
      eapply (run_bind _ _ _ (fun r tp' => r = (None, ty ++ [0], w ++ ty, 61) /\ tp' = tp2)); [by apply run_ret|]. intros r tp3 [-> ->]. apply Hk; [congruence|done|done]. }
  destruct (attributeSet e) as [o|] eqn:Eo; cbn [set_text] in E.
  - assert (tok_word (oid_name std o)) as Hw by (destruct He as [_ _ Hs]; rewrite Eo in Hs; apply Hs). rewrite <- !app_assoc in E.
    eapply run_bind; [eapply (move_word tp k _ 32 _ Hcfg Hw); [done|exact E]|]. intros t tp1 (-> & E1 & C1 & W1). eapply Hgo; [by apply W1|done|congruence|exact E1|done].
  - eapply run_bind; [eapply (move_word tp k _ 61 _ Hcfg Hty); [done|exact E]|]. intros t tp1 (-> & E1 & C1 & W1). eapply Hgo; [by apply W1|done|congruence|exact E1|done].
Qed.

Lemma tok_word_start w r' : tok_word w -> exists c r, w ++ r' = c :: r /\ c <> 32.
Proof. intros [Hw (c & r & -> & _)]. apply Forall_cons in Hw as [Hc%tok_char_spec _]. eexists c, _. split; [done|apply Hc]. Qed.

(** The set in front of an attribute. *)
Lemma set_start e : def_ok e -> let s := set_text std (attributeSet e) in
  nonzero s /\ ~ In 61 s /\ exists c r, s ++ fmt_d (attributeType e) = c :: r /\ c <> 32.
Proof.
  intros [Ht _ Hset] s. subst s. destruct (attributeSet e) as [o|]; cbn [set_text].
  - destruct Hset as [Hw _]. split; [apply Forall_app; split; [by apply tok_word_nonzero|by constructor]|]. rewrite <- app_assoc. split; [|by apply tok_word_start].
    rewrite in_app_iff. intros [H|[?|[]]]; [|done]. revert H. by apply tok_word_notin.
  - split; [constructor|]. split; [by intros []|]. destruct (tok_word_start _ [] (tok_word_number _ Ht)) as (c & r & E & Hc). rewrite app_nil_r in E. by exists c, r.
Qed.

Lemma elem_part e : def_ok e -> zlen (elem_text std e) < 64 -> part_ok (elem_text std e).
Proof.
  intros He Hl. destruct (set_start e He) as (Hz & H61 & c & r & Ec & Hc). destruct (value_word_ok e He) as [Hv _]. pose proof (tok_word_number _ (do_type e He)) as Hn.
  unfold elem_text in *. split; [|split; [done|split]].
  - repeat (apply Forall_app; split); [done|by apply tok_word_nonzero|by constructor|by apply tok_word_nonzero].
  - exists c, (r ++ [61] ++ value_text (value e)). split; [|done]. by rewrite app_assoc, Ec.
  - exists (set_text std (attributeSet e) ++ fmt_d (attributeType e)), (value_text (value e)). split; [by rewrite <- app_assoc|]. split; [|by apply tok_word_notin].
    rewrite in_app_iff. intros [H|H]; [done|]. revert H. by apply tok_word_notin.
Qed.

(** An attribute whose text fits, and has no asterisk. *)
Definition fits (e : Z_AttributeElement) : Prop := zlen (elem_text std e) < 64 /\ ~ In 42 (elem_text std e).

Lemma line_gives es eval : Forall def_ok es -> Forall fits es -> gives std (line_text es ++ [0]) eval es.
Proof.
  intros Hes Hs. exists (map (elem_text std) es), []. split; [unfold line_text; by rewrite map_map|]. rewrite !Forall_map. split; [|split].
  - apply Forall_forall. intros e He. apply elem_part; [by eapply Forall_forall in Hes|by eapply Forall_forall in Hs as [? _]].
  - clear Hes. induction Hs as [|e es [_ H42] _ IH]; [constructor|]. constructor; [by apply filled_none|done].
  - intros _. eapply Forall_impl; [exact Hs|]. by intros e [_ ?].
Qed.

End define.

(** [2=le 1=4] *)
Definition demo_line : list Z_AttributeElement := [Element None 2 (AV_complex [SN_string (str "le" ++ [0])] []); demo_attr 1 4].

